(* ===== verification/_CoqProject ===== *)
-Q . S2P
Prelude.v
UbfTypes.v
UbfBuffer.v
UbfSearch.v
UbfOps.v
UbfRead.v
UbfAlloc.v
UbfProj.v
UbfMerge.v
UbfReach.v
CText.v
Crc32.v
Base64.v
Aes.v
Sha1.v
Crypto.v
Subst.v
LinHash.v
ShmSvc.v
ClusterView.v
RbTree.v
RbShape.v
RbMem.v
RbInsert.v
RbDelete.v
RbTreeOk.v
QSpace.v
QForest.v
QCore.v
QOps.v
QSpec.v
QExec.v
QStamp.v
QSpaceOk.v
QConf.v
Exnet.v
XaStates.v
TmDrive.v
TmLog.v
TmMirror.v
TmCrash.v
TmServer.v
XaClient.v
Tx.v
