(* ===== verification/Prelude.v ===== *)
(** * Verification of the Enduro/X middleware

    Enduro/X is a transaction processing platform in C.  This development
    models eight of its parts, translated from the sources under [src/] into
    executable definitions, and proves what makes them correct:

    - the Unified Buffer Format ([libubf]), the typed buffers in which clients
      and servers exchange data; everything else in the product is built on
      them;
    - the transaction manager ([tmsrv]): the two-phase commit engine, its log
      and recovery, and the server around them;
    - the processes that take part in a transaction ([libatmi/xa.c], [tx.c]):
      what they ask of their resource manager and of the transaction manager;
    - the tables in shared memory ([libnstd], [libatmi]) that say which process
      offers which service, on this node and on the others, and by which every
      request finds its way;
    - the network connections ([libexnet]) over which the nodes exchange
      messages;
    - the persistent queues ([tmqueue]) as they are in memory, and the red-black
      tree ([libnstd]) that keeps their messages in order;
    - the encryption of data and strings ([libnstd]), from the ciphers to the
      functions applications call and the configuration files that use them.

    ** Files

    - [Prelude]: lists measured in [Z], machine integers, byte memory with
      loads, stores and [memmove], little-endian words, C strings.
    - [UbfTypes]: the field types ([libubf/fdatatype.c], [fld_ubf.c],
      [fld_view.c]).  The C tables [G_dtype_str_map] and [G_dtype_ext1_map] are
      lists of records of operations; their common laws (a stored value has the
      announced size, is read back, can be stepped over) are proved per row.
    - [UbfBuffer]: the header with the per-type offset cache, the argument
      checks, and the representation: [ubf_data u bs tail] says that the bytes
      of [u] are the well-formed blocks [bs], sorted by field id, and an unused
      [tail]; [buf_repr u fs] says that [u] holds the fields [fs].
    - [UbfSearch]: [get_fld_loc] (linear) and [get_fld_loc_binary_search].
    - [UbfOps]: [Badd], [Baddfast], [Bdel], [Bchg].
    - [UbfRead]: [Bget], [Bfind], [Bpres], [Boccur], [Blen], [Bgetlast],
      [Bfindlast], [Bnext], [Bnum].
    - [UbfAlloc]: [Bcpy], size queries, [Balloc], [Brealloc].
    - [UbfProj]: [Bproj], [Bprojcpy], [Bdelete], [Bdelall].
    - [UbfMerge]: [Bupdate], [Bconcat], [Bjoin], [Bojoin].
    - [UbfReach]: sequences of calls.
    - [CText]: integers and text as [printf], [strtol], [sscanf], [strtok] and
      [strchr] treat them.
    - [Crc32]: the checksum of [libnstd/crc32.c].
    - [Base64], [Aes], [Sha1]: [libnstd/exbase64.c], [exaes.c] and [exsha1.c].
    - [Crypto]: [libnstd/crypto.c] on top of them, with [tpencrypt] and
      [tpdecrypt] ([libatmi/atmi.c], [libatmi/tpcrypto.c]).
    - [Subst]: the substitution of placeholders in configuration strings
      ([libnstd/nstdutil.c]), encrypted values included.
    - [LinHash]: tables with linear probing ([libnstd/linearhash.c]), their theory,
      and the table of client processes ([libatmi/cltshm.c]).
    - [ShmSvc]: the table of services and the routing of requests
      ([libatmi/shm.c]), a table of the same kind.
    - [ClusterView]: how the daemons of the nodes tell each other about their
      services ([ndrxd/bridge.c], [ndrxd/cmd_bridge.c]).
    - [RbTree]: the red-black tree of [libnstd/rbtree.c], on nodes linked by
      addresses in memory.  [RbShape] has trees as data and places in them,
      [RbMem] how they lie in memory and what a rotation does, [RbInsert] and
      [RbDelete] the operations that restore the balance, [RbTreeOk] searches,
      walks and the theorems.
    - [QSpace]: the messages of the queue server in memory ([tmqueue/qspace.c],
      [inflight.c], [corhandle.c], [rbtsupp.c]) on top of these trees, in a state
      monad, and the time stamps of new ones ([tmqapi.c]); a function that lets go
      of its lock is cut there, so that others can come in between.  [QForest] has
      many trees in one memory, [QCore] the invariant that all structures agree,
      [QOps] what the operations do to it, [QSpec] the specification, [QExec] that
      each critical section meets it, [QStamp] and [QSpaceOk] the theorems.
    - [QConf]: the definitions of queues as text, read and printed
      ([tmqueue/qspace.c]).
    - [Exnet]: messages over a stream socket ([libexnet/exnet.c]); what [send] and
      [recv] answer is an argument.
    - [XaStates]: the tables of [tmsrv/xastates.c] and their lookups.
    - [TmDrive]: [tm_drive] of [tmsrv/statedrv.c] with [tms_log_stage] and
      [tms_log_rmstatus] of [tmsrv/log.c].
    - [TmLog]: the records of a transaction log, byte by byte, their parsing and
      [tms_load_logfile] ([tmsrv/log.c]), the branches ([tmsrv/btid.c]).
    - [TmMirror]: the log against the memory of the driver.
    - [TmCrash]: driver, log file and recovery put together across crashes.
    - [TmServer]: the table of transactions with its locks ([tmsrv/log.c]), the
      services ([tmsrv/tmapi.c]), the timeout check ([tmsrv/tmsrv.c]) and the
      passes of the background thread ([tmsrv/background.c]).
    - [XaClient]: the processes' side of a transaction ([libatmi/xa.c],
      [xautils.c]), in a state monad; a step has no result where the code would
      use a transaction it has not.  What resource and transaction manager
      answer may depend on everything that happened before.
    - [Tx]: the TX interface on top of it ([libatmi/tx.c]).

    ** Conventions

    C integers are [Z] with the wrap-around written out ([i32], [u64], ...)
    where the code can reach it.  Memory is a list of bytes, pointers into a
    buffer are offsets from its first field.  A read or write outside the
    memory, and a loop that has used up its fuel, give [None]; a call that
    returns gives [Some] of the new state and a [bres], success or a [Berror]
    code.  A theorem that an operation succeeds or fails therefore also says
    that it stays inside its memory and terminates.  The fuel of a loop over a
    buffer is the number of its bytes plus one, since every round advances by
    at least one byte; the fuel of [tm_drive] is four times the number of
    retries plus one, since a transaction passes at most four stages.

    What is not under [src/] or not fixed by it is a parameter: alignment and
    the sizes of views ([Platform] in [UbfTypes]), the memory returned by
    [malloc], and in [TmDrive] the resource managers, the log device and the
    memory for votes, which may answer anything at any time; in [Crypto] the
    password the plugin provides and the memory of the pool.

    ** Theorems

    The operations of [libubf] refine operations on a list of fields sorted by
    id ([kins], [kdel], [kset], filters and folds of them): each
    [<operation>_correct] theorem gives the resulting list on success and says
    in which case which error is reported with the buffer unchanged.
    Occurrence numbers are not negative and so small that byte distances fit an
    [int]; the code does not check that, and [searches_differ], [Bget_bad_occ] and
    [Bchg_huge_occ] are what happens otherwise.
    [binary_search_equiv_linear] makes the fast search equal to the scan,
    [ubf_cache_update_correct] the cache equal to what the fields say, and
    [reachable_well_formed] closes the invariant under call sequences.

    [tm_drive_refines_2pc] simulates the driver by an automaton of two-phase
    commit; atomicity over repeated runs, write-ahead logging of the decision
    and unanimity follow.  [commit_success] and [rollback_success] say what a
    success means for the branches, [tm_drive_total] that every run ends,
    [healthy_commit] what a run does when nothing fails.

    Whether the log is synchronised with the disk is a setting ([xa_fsync_flags] of
    [log_sync]); [sync_log_file] and [sync_log_default] say what it does.

    [log_roundtrip] reads back what was written to a log file, [torn_line] says
    what becomes of a line cut off by a crash, depending on where it is cut off,
    and [load_refuses] which files are refused.
    [log_mirrors_memory] makes the log a faithful image of the transaction in
    memory.  [crash_atomic] is the end to end statement: a history of lives of
    the server, each loading what the disk kept of the log and driving the
    transaction until it dies at any point, never has both a commit and a
    rollback call; [crash_recoverable] says that the log can be loaded.  Both are
    for a log that is synchronised and for crashes that leave no decision without
    its line end, the second also for none that cuts off inside a time stamp
    ([default_setting_both_outcomes], [unterminated_record_revived] and
    [stamp_unreadable] are the other cases).
    [crc32_equiv_bitwise] relates the table-driven checksum to the polynomial.

    In [TmServer] a step relation lets services, timeout checks, background
    passes and loads of many threads follow each other in any order.
    [server_atomic] is atomicity of what is driven over its reachable states (the
    calls that are made at the own resource manager without driving a transaction
    are recorded apart, in [sv_direct]); [locks_respected]
    and [services_release_locks] are the discipline that makes steps of
    different threads independent.  [tm_tpcommit_success],
    [tm_tpabort_success], [register_joins] and [timeout_aborts] say what the
    answers mean, [refused_unchanged] what a refusal leaves, and
    [requests_answered] that there is an answer, but for one case in which the
    process ends.

    In [LinHash] the invariant [placed] says that a key in use is the first cell
    on its way that is unused or has it; [placed_write] is the one lemma about
    writing a cell, from which [clt_table_is_map] (the client table is a map of
    bounded size) and [svc_table_refines] (the service table is a map from names
    to the local servers and the nodes that offer them) follow.
    [routing_correct] says that a request is sent where the service is offered.
    [cluster_view_agrees] is about two nodes, as an invariant of a step relation
    with changes, periodic messages, lost and new connections, where messages
    arrive in order and are accepted: the table of one shows what the other
    offers; [disconnect_clears] is its part for lost nodes.  The counters have
    their width in C; [LOCAL_SRVS_MAX] and [NODE_SRVS_MAX] bound the servers of a
    service so that none wraps, the sum over all 32 nodes included.
    The cells of both tables are instances of the class [HashCell].

    [rbt_refines] lets any sequence of operations run on a red-black tree in memory
    and on a sorted list: the answers agree, the tree stays balanced and no memory
    is touched but its nodes and the sentinel.  [rbt_search_bound] is what the
    balance is for: a search takes a logarithmic number of rounds.

    For the queues the specification ([QSpec.spec]) is a set of messages that are
    locked, waiting for their time, or ready; it has no answer where the rest of the
    server or the operating system must see to something (free addresses, different
    time stamps of a size [int] differences can bear, memory for correlators).
    [queues_refine] lets any sequence of critical sections run on both.
    [dequeue_in_order] says which message is given, [taken_once] that it is given to
    one consumer and not lost, and [stamps_increase] that the time stamps are such
    that order means order of arrival.  [qdef_roundtrip] is about the configuration:
    what is printed can be read back.

    [stream_delivers] runs the sender against the receiver, with the stream cut
    at will: what arrives is a beginning of what was sent, and all of it in the
    end.  [recv_safe] is about any bytes, also those no sender sends.  The loop of
    the receiver takes at least one byte in each turn but the last one, so its
    fuel is two more than the bytes that are there.

    [xa_association] is an invariant of everything a process can do: nothing is
    started at the resource manager that is not the current transaction's and
    will not be ended; [xa_steps_defined] says that nothing is undefined but one
    case, [tpcommit_sound] and [tx_commit_sound] that a commit is reported when
    it was asked for and granted, and only then.  The retry engine is a loop
    over the attempts that are left; [retry_loop_spec] is its one lemma.

    [sha1_standard] makes the unrolled, incremental SHA-1 equal to the function
    the standard defines, [aes_standard] the tables and column mixing of AES to
    their definition over the field; [aes_cbc_roundtrip] and [base64_roundtrip]
    undo the encoders, [base64_decode_safe] bounds the decoder on any input.
    [tp_string_roundtrip] and [tp_data_roundtrip] put them together: what an
    application encrypts it can decrypt, and a buffer that is too small is
    refused with the size that is enough.  [env_subs_correct] makes the
    substitution in place equal to the expansion of the text, with the size of
    the buffer respected, and [config_decrypts] joins the two: an encrypted
    value in a configuration string is replaced by its plain text.

    Lemmas at the end of the files show by evaluation where the code departs
    from its documentation or intent, e.g. [Bdelall_stale_id],
    [Bdelete_empty_list], [Brealloc_null_deref], [cmt_logged_commits_first],
    [unterminated_record_revived], [timeout_keeps_lock],
    [aborttrans_breaks_commit], [failed_begin_committed],
    [exact_output_overrun], [exact_string_overrun], [key_failure_ignored],
    [escape_at_end_overruns], [long_key_lost], [phantom_service],
    [recover_phantom], [prefix_aborts], [long_message_closes],
    [chained_hides_rollback], [join_null_deref], [readonly_end_aborts],
    [far_future_hides_due], [equal_times_abort], [due_not_found_by_correlator],
    [correlator_lost], [late_arrival_duplicate], [partial_update],
    [autoq_unset_cut], [no_service_refused], [long_name_lost].

    ** Not modelled

    Value conversion ([CBget] and the like), boolean expressions, printing and
    text input, field tables and typed views of [libubf]; the comparison
    functions of the types; the listings of [tmsrv] and its scan of the log
    directory; the rest of the XATMI libraries, of the daemon and of the network library, the
    bridge process, the files of the queues and their forwarding, and the tools,
    which are system calls for the most part.  Debug logging and the test hooks
    that crash the process are left out of the definitions. *)

From stdpp Require Export base list option numbers strings sorting.
From Stdlib Require Export Lia ZArith.

#[global] Open Scope Z_scope.

(** ** Sequences measured in [Z]

    C offsets and lengths are [int]s or pointer differences, so list lengths
    are taken in [Z] throughout. *)

Definition zlen {A} (l : list A) : Z := Z.of_nat (length l).

Lemma zlen_nil {A} : zlen (@nil A) = 0.
Proof. reflexivity. Qed.

Lemma zlen_cons {A} (x : A) l : zlen (x :: l) = 1 + zlen l.
Proof. unfold zlen; cbn [length]; lia. Qed.

Lemma zlen_app {A} (l k : list A) : zlen (l ++ k) = zlen l + zlen k.
Proof. unfold zlen; rewrite length_app; lia. Qed.

Lemma zlen_nonneg {A} (l : list A) : 0 <= zlen l.
Proof. unfold zlen; lia. Qed.

Lemma zlen_take {A} n (l : list A) : 0 <= n <= zlen l -> zlen (take (Z.to_nat n) l) = n.
Proof. unfold zlen; rewrite length_take; lia. Qed.

Lemma zlen_drop {A} n (l : list A) : 0 <= n <= zlen l -> zlen (drop (Z.to_nat n) l) = zlen l - n.
Proof. unfold zlen; rewrite length_drop; lia. Qed.

Lemma zlen_replicate {A} n (x : A) : 0 <= n -> zlen (replicate (Z.to_nat n) x) = n.
Proof. unfold zlen; rewrite length_replicate; lia. Qed.

Lemma zlen_0_inv {A} (l : list A) : zlen l = 0 -> l = [].
Proof. destruct l; [done|]. rewrite zlen_cons; pose proof (zlen_nonneg l); lia. Qed.

Create Rewrite HintDb zlen.
#[export] Hint Rewrite @zlen_nil @zlen_cons @zlen_app : zlen.

(** [zl] normalises [zlen] and calls [lia] with the lengths' signs known. *)
Ltac zlen_pos :=
  repeat match goal with
  | |- context [zlen ?l] =>
      lazymatch goal with
      | _ : 0 <= zlen l |- _ => fail
      | _ => pose proof (zlen_nonneg l)
      end
  | _ : context [zlen ?l] |- _ =>
      lazymatch goal with
      | _ : 0 <= zlen l |- _ => fail
      | _ => pose proof (zlen_nonneg l)
      end
  end.
Ltac zl := autorewrite with zlen in *; zlen_pos; lia.

(** ** C integers

    [i32] is the conversion to a 32-bit two's complement [int], [u64] to
    [size_t]. *)

Definition INT_MAX : Z := 2147483647.
Definition INT_MIN : Z := -2147483648.
Definition i32 (z : Z) : Z := (z + 2147483648) mod 4294967296 - 2147483648.
Definition u64 (z : Z) : Z := z mod 18446744073709551616.
Definition u32 (z : Z) : Z := z mod 4294967296.
Definition i64 (z : Z) : Z :=
  (z + 9223372036854775808) mod 18446744073709551616 - 9223372036854775808.

(** What functions return ([include/ndrstandard.h]). *)
Definition EXSUCCEED : Z := 0.
Definition EXFAIL : Z := -1.

Lemma i32_id z : INT_MIN <= z <= INT_MAX -> i32 z = z.
Proof.
  unfold i32, INT_MIN, INT_MAX; intros ?.
  rewrite Z.mod_small by lia. lia.
Qed.

Lemma i32_range z : INT_MIN <= i32 z <= INT_MAX.
Proof.
  unfold i32, INT_MIN, INT_MAX.
  pose proof (Z.mod_pos_bound (z + 2147483648) 4294967296 ltac:(lia)). lia.
Qed.

Lemma u64_id z : 0 <= z < 18446744073709551616 -> u64 z = z.
Proof. unfold u64; intros ?; by apply Z.mod_small. Qed.

(** ** Byte memory

    A block of memory is a list of byte values; accesses outside of it (or
    with a negative length, which C converts to a huge [size_t]) have no
    defined result and are [None]. *)

Definition ld_bytes (m : list Z) (off n : Z) : option (list Z) :=
  if (0 <=? off) && (0 <=? n) && (off + n <=? zlen m)
  then Some (take (Z.to_nat n) (drop (Z.to_nat off) m)) else None.

Definition st_bytes (m : list Z) (off : Z) (bs : list Z) : option (list Z) :=
  if (0 <=? off) && (off + zlen bs <=? zlen m)
  then Some (take (Z.to_nat off) m ++ bs ++ drop (Z.to_nat off + length bs) m)
  else None.

Definition memmove (m : list Z) (dst src n : Z) : option (list Z) :=
  bs ← ld_bytes m src n; st_bytes m dst bs.

Lemma ld_bytes_at m a b c off n :
  m = a ++ b ++ c -> off = zlen a -> n = zlen b -> ld_bytes m off n = Some b.
Proof.
  intros -> -> ->. unfold ld_bytes.
  pose proof (zlen_nonneg a); pose proof (zlen_nonneg b); pose proof (zlen_nonneg c).
  assert (zlen a + zlen b <= zlen (a ++ b ++ c)) by zl.
  rewrite !(proj2 (Z.leb_le _ _)) by lia. cbn [andb].
  unfold zlen. rewrite !Nat2Z.id, drop_app_length, take_app_length. done.
Qed.

Lemma ld_bytes_inv m off n bs :
  ld_bytes m off n = Some bs ->
  exists a c, m = a ++ bs ++ c /\ off = zlen a /\ n = zlen bs.
Proof.
  unfold ld_bytes; intros H.
  destruct ((0 <=? off) && (0 <=? n) && (off + n <=? zlen m)) eqn:E; [|done].
  apply andb_prop in E as [[?%Z.leb_le ?%Z.leb_le]%andb_prop ?%Z.leb_le].
  injection H as <-.
  exists (take (Z.to_nat off) m), (drop (Z.to_nat n) (drop (Z.to_nat off) m)).
  rewrite !take_drop. split; [done|]. split.
  - symmetry; apply zlen_take; lia.
  - symmetry; apply zlen_take. rewrite zlen_drop by lia. lia.
Qed.

Lemma st_bytes_at m a b c d off :
  m = a ++ b ++ c -> off = zlen a -> zlen b = zlen d -> st_bytes m off d = Some (a ++ d ++ c).
Proof.
  intros -> -> Hl. unfold st_bytes.
  assert (zlen a + zlen d <= zlen (a ++ b ++ c)) by zl.
  pose proof (zlen_nonneg a).
  rewrite !(proj2 (Z.leb_le _ _)) by lia. cbn [andb].
  unfold zlen in Hl |- *. rewrite Nat2Z.id, take_app_length, <- drop_drop, drop_app_length.
  assert (length d = length b) as -> by lia. by rewrite drop_app_length.
Qed.

(** Splitting a memory block at a given range. *)
Lemma split_at (m : list Z) off n :
  0 <= off -> 0 <= n -> off + n <= zlen m ->
  exists a b c, m = a ++ b ++ c /\ zlen a = off /\ zlen b = n.
Proof.
  intros. exists (take (Z.to_nat off) m), (take (Z.to_nat n) (drop (Z.to_nat off) m)),
    (drop (Z.to_nat n) (drop (Z.to_nat off) m)).
  rewrite !take_drop. split; [done|]. split.
  - apply zlen_take; lia.
  - apply zlen_take. rewrite zlen_drop by lia. lia.
Qed.

(** Reads and writes inside a block do not depend on what surrounds it. *)
Lemma ld_bytes_ctx_some a b c o n bs :
  ld_bytes b o n = Some bs -> ld_bytes (a ++ b ++ c) (zlen a + o) n = Some bs.
Proof.
  intros (x & z & -> & -> & ->)%ld_bytes_inv.
  apply (ld_bytes_at _ (a ++ x) bs (z ++ c)); [|zl|done]. by rewrite <- !app_assoc.
Qed.

Lemma st_bytes_inv m off d m' :
  st_bytes m off d = Some m' ->
  exists a b c, m = a ++ b ++ c /\ off = zlen a /\ zlen b = zlen d /\ m' = a ++ d ++ c.
Proof.
  unfold st_bytes; intros H.
  destruct ((0 <=? off) && (off + zlen d <=? zlen m)) eqn:E; [|done].
  apply andb_prop in E as [?%Z.leb_le ?%Z.leb_le].
  destruct (split_at m off (zlen d)) as (a & b & c & -> & <- & Hb); [lia|zl|lia|].
  exists a, b, c. repeat split; [done|].
  injection H as <-. unfold zlen in *.
  rewrite Nat2Z.id, take_app_length, <- drop_drop, drop_app_length.
  assert (length d = length b) as -> by lia. by rewrite drop_app_length.
Qed.

Lemma st_bytes_ctx a b c o d b' :
  st_bytes b o d = Some b' -> st_bytes (a ++ b ++ c) (zlen a + o) d = Some (a ++ b' ++ c).
Proof.
  intros (x & y & z & -> & -> & Hl & ->)%st_bytes_inv.
  rewrite (st_bytes_at _ (a ++ x) y (z ++ c) d); [|by rewrite <- !app_assoc|zl|done].
  by rewrite <- !app_assoc.
Qed.

Lemma st_bytes_len m off d m' : st_bytes m off d = Some m' -> zlen m' = zlen m.
Proof. intros (? & ? & ? & -> & ? & ? & ->)%st_bytes_inv. zl. Qed.

Lemma st_bytes_Some m off d :
  0 <= off -> off + zlen d <= zlen m -> is_Some (st_bytes m off d).
Proof.
  intros. unfold st_bytes. rewrite !(proj2 (Z.leb_le _ _)) by lia. by eexists.
Qed.

(** A read of what was just written, and of what the write left alone. *)
Lemma ld_st_same m off d m' :
  st_bytes m off d = Some m' -> ld_bytes m' off (zlen d) = Some d.
Proof.
  intros (a & b & c & -> & -> & ? & ->)%st_bytes_inv. by eapply ld_bytes_at.
Qed.

Lemma ld_st_before m off d m' o n :
  st_bytes m off d = Some m' -> o + n <= off -> ld_bytes m' o n = ld_bytes m o n.
Proof.
  intros (a & b & c & -> & -> & Hl & ->)%st_bytes_inv ?.
  unfold ld_bytes. assert (zlen (a ++ b ++ c) = zlen (a ++ d ++ c)) as -> by zl.
  destruct (0 <=? o) eqn:?, (0 <=? n) eqn:?; try done. cbn [andb].
  destruct (o + n <=? zlen (a ++ d ++ c)); [|done]. f_equal. unfold zlen in *.
  rewrite !drop_app_le, !take_app_le by (rewrite ?length_drop; lia). done.
Qed.

Lemma ld_st_after m off d m' o n :
  st_bytes m off d = Some m' -> off + zlen d <= o -> ld_bytes m' o n = ld_bytes m o n.
Proof.
  intros (a & b & c & -> & -> & Hl & ->)%st_bytes_inv ?.
  unfold ld_bytes. assert (zlen (a ++ b ++ c) = zlen (a ++ d ++ c)) as -> by zl.
  destruct ((0 <=? o) && (0 <=? n) && (o + n <=? zlen (a ++ d ++ c))); [|done].
  unfold zlen in *. rewrite !app_assoc.
  rewrite !drop_app_ge by (rewrite ?length_app; lia). rewrite !length_app.
  by assert (length b = length d) as -> by lia.
Qed.

Lemma ld_bytes_ctx a b c o n :
  0 <= o -> 0 <= n -> o + n <= zlen b ->
  ld_bytes (a ++ b ++ c) (zlen a + o) n = ld_bytes b o n.
Proof.
  intros. destruct (split_at b o n) as (x & y & z & -> & <- & <-); try lia.
  rewrite (ld_bytes_at (x ++ y ++ z) x y z) by done.
  apply (ld_bytes_at _ (a ++ x) y (z ++ c)); [|zl|done].
  by rewrite <- !app_assoc.
Qed.

Lemma ld_bytes_len m off n bs : ld_bytes m off n = Some bs -> zlen bs = n.
Proof. intros (? & ? & ? & ? & ?)%ld_bytes_inv; done. Qed.

Lemma ld_bytes_bound m off n bs :
  ld_bytes m off n = Some bs -> 0 <= off /\ 0 <= n /\ off + n <= zlen m.
Proof. intros (? & ? & -> & -> & ->)%ld_bytes_inv; zl. Qed.

Lemma memmove_at m a b c d e dst src n :
  m = a ++ b ++ c -> src = zlen a -> n = zlen b ->
  st_bytes m dst b = Some (d ++ b ++ e) ->
  memmove m dst src n = Some (d ++ b ++ e).
Proof. intros; unfold memmove. erewrite ld_bytes_at by eassumption. done. Qed.

(** Moving [c] so that the gap between [a] and [c] becomes [n] bytes wide. *)
Lemma memmove_resize a b c t n :
  0 <= n -> n <= zlen b + zlen t -> exists j t',
  memmove (a ++ b ++ c ++ t) (zlen a + n) (zlen a + zlen b) (zlen c) = Some (a ++ j ++ c ++ t') /\
  zlen j = n /\ zlen t' = zlen b + zlen t - n.
Proof.
  intros Hn Hf. unfold memmove.
  rewrite (ld_bytes_at _ (a ++ b) c t); [|by rewrite <- app_assoc|zl|done]. cbn [mbind option_bind].
  destruct (split_at (b ++ c ++ t) n (zlen c)) as (j & y & z & He & Hj & Hy); [zl|zl|zl|].
  rewrite He. exists j, z. rewrite (st_bytes_at _ (a ++ j) y z c); [|by rewrite <- app_assoc|zl|done].
  rewrite <- app_assoc. split; [done|]. split; [done|].
  apply (f_equal zlen) in He. revert He. zl.
Qed.

(** ** Little-endian integers in memory *)

Definition le32 (z : Z) : list Z :=
  [z mod 256; z / 256 mod 256; z / 65536 mod 256; z / 16777216 mod 256].

Definition de32 (bs : list Z) : Z :=
  match bs with
  | [a; b; c; d] => i32 (a + 256 * b + 65536 * c + 16777216 * d)
  | _ => 0
  end.

Definition ld32 (m : list Z) (off : Z) : option Z := bs ← ld_bytes m off 4; Some (de32 bs).
Definition st32 (m : list Z) (off v : Z) : option (list Z) := st_bytes m off (le32 v).

Lemma zlen_le32 z : zlen (le32 z) = 4.
Proof. reflexivity. Qed.
#[export] Hint Rewrite zlen_le32 : zlen.

Lemma de32_le32 z : INT_MIN <= z <= INT_MAX -> de32 (le32 z) = z.
Proof.
  intros. cbn [de32 le32].
  assert (z mod 256 + 256 * (z / 256 mod 256) + 65536 * (z / 65536 mod 256)
          + 16777216 * (z / 16777216 mod 256) = z mod 4294967296) as ->.
  { Z.div_mod_to_equations; lia. }
  unfold i32, INT_MIN, INT_MAX in *.
  Z.div_mod_to_equations; lia.
Qed.

Lemma ld32_at m a z c off :
  m = a ++ le32 z ++ c -> off = zlen a -> INT_MIN <= z <= INT_MAX -> ld32 m off = Some z.
Proof.
  intros. unfold ld32. rewrite (ld_bytes_at m a (le32 z) c) by done.
  cbn [mbind option_bind]. by rewrite de32_le32.
Qed.

Lemma ld32_ctx a b c o :
  0 <= o -> o + 4 <= zlen b -> ld32 (a ++ b ++ c) (zlen a + o) = ld32 b o.
Proof. intros. unfold ld32. by rewrite ld_bytes_ctx by lia. Qed.

Lemma ld32_bound m off v : ld32 m off = Some v -> 0 <= off /\ off + 4 <= zlen m.
Proof.
  unfold ld32. destruct (ld_bytes m off 4) eqn:E; [|done].
  apply ld_bytes_bound in E. lia.
Qed.

(** ** NUL-terminated strings *)

(** The characters before the first NUL; [None] when there is none. *)
Fixpoint cstr (m : list Z) : option (list Z) :=
  match m with
  | [] => None
  | c :: m => if c =? 0 then Some [] else s ← cstr m; Some (c :: s)
  end.

Definition nonul (s : list Z) : Prop := Forall (fun c => c <> 0) s.

Lemma cstr_app s m : nonul s -> cstr (s ++ 0 :: m) = Some s.
Proof.
  induction 1 as [|c s Hc Hs IH]; [done|]. cbn [app cstr].
  apply Z.eqb_neq in Hc as ->. by rewrite IH.
Qed.

Lemma cstr_inv m s : cstr m = Some s -> nonul s /\ exists k, m = s ++ 0 :: k.
Proof.
  revert s; induction m as [|c m IH]; intros s H; [done|]. cbn [cstr] in H.
  destruct (Z.eqb_spec c 0) as [->|Hc].
  - injection H as <-. split; [constructor|]. by exists m.
  - destruct (cstr m) as [s'|] eqn:E; [|done]. injection H as <-.
    destruct (IH s' eq_refl) as [? [k ->]]. split; [by constructor|]. by exists k.
Qed.

Lemma cstr_more m k s : cstr m = Some s -> cstr (m ++ k) = Some s.
Proof.
  intros [? [r ->]]%cstr_inv. rewrite <- app_assoc. cbn [app]. by apply cstr_app.
Qed.

Lemma drop_zlen {A} (a b : list A) : drop (Z.to_nat (zlen a)) (a ++ b) = b.
Proof. unfold zlen. by rewrite Nat2Z.id, drop_app_length. Qed.

Lemma take_zlen {A} (a b : list A) : take (Z.to_nat (zlen a)) (a ++ b) = a.
Proof. unfold zlen. by rewrite Nat2Z.id, take_app_length. Qed.

Lemma cstr_ld m o n s :
  ld_bytes m o n = Some (s ++ [0]) -> nonul s -> cstr (drop (Z.to_nat o) m) = Some s.
Proof.
  intros (a & c & -> & -> & _)%ld_bytes_inv ?.
  rewrite drop_zlen, <- app_assoc. by apply cstr_app.
Qed.

Lemma ld_bytes_drop m o n :
  0 <= o <= zlen m -> ld_bytes (drop (Z.to_nat o) m) 0 n = ld_bytes m o n.
Proof.
  intros. unfold ld_bytes. rewrite zlen_drop by lia.
  replace (0 <=? o) with true by lia. cbn [Z.leb Z.compare andb].
  replace (0 + n <=? zlen m - o) with (o + n <=? zlen m) by lia. done.
Qed.

Lemma ld_bytes_prefix b c o n bs :
  ld_bytes b o n = Some bs -> ld_bytes (b ++ c) o n = Some bs.
Proof. intros. by apply (ld_bytes_ctx_some [] b c). Qed.

Lemma ld_bytes_prefix_eq b c o n :
  0 <= o -> 0 <= n -> o + n <= zlen b -> ld_bytes (b ++ c) o n = ld_bytes b o n.
Proof. intros. by apply (ld_bytes_ctx [] b c). Qed.

Lemma ld32_prefix_eq b c o : 0 <= o -> o + 4 <= zlen b -> ld32 (b ++ c) o = ld32 b o.
Proof. intros. unfold ld32. by rewrite ld_bytes_prefix_eq by lia. Qed.

Lemma ld_bytes_0_take m n bs : ld_bytes m 0 n = Some bs -> take (Z.to_nat n) m = bs.
Proof.
  intros (a & c & -> & Ha & ->)%ld_bytes_inv.
  symmetry in Ha. apply zlen_0_inv in Ha as ->. exact (take_zlen bs c).
Qed.

Lemma ld_bytes_all m n : n = zlen m -> ld_bytes m 0 n = Some m.
Proof.
  intros ->. apply (ld_bytes_at m [] m []); [by rewrite app_nil_r|done|done].
Qed.

(** Offsets inside a block, relative to its start, carried to a context. *)
Lemma ld_bytes_rel a b c o n bs :
  ld_bytes b (0 + o) n = Some bs -> ld_bytes (a ++ b ++ c) (zlen a + o) n = Some bs.
Proof. rewrite Z.add_0_l. apply ld_bytes_ctx_some. Qed.

Lemma ld32_rel a b c o v :
  ld32 b (0 + o) = Some v -> ld32 (a ++ b ++ c) (zlen a + o) = Some v.
Proof.
  unfold ld32. destruct (ld_bytes b (0 + o) 4) eqn:E; [|done].
  intros [= <-]. by rewrite (ld_bytes_rel _ _ _ _ _ _ E).
Qed.

Lemma st_bytes_rel a b c o d b' :
  st_bytes b (0 + o) d = Some b' -> st_bytes (a ++ b ++ c) (zlen a + o) d = Some (a ++ b' ++ c).
Proof. rewrite Z.add_0_l. apply st_bytes_ctx. Qed.

Lemma cstr_rel a b c o s :
  0 <= o -> cstr (drop (Z.to_nat (0 + o)) b) = Some s ->
  cstr (drop (Z.to_nat (zlen a + o)) (a ++ b ++ c)) = Some s.
Proof.
  rewrite Z.add_0_l. intros Ho Hs.
  assert (Z.to_nat o <= length b)%nat.
  { destruct (decide (Z.to_nat o <= length b)%nat); [done|].
    rewrite drop_ge in Hs by lia. done. }
  unfold zlen. rewrite Z2Nat.inj_add, Nat2Z.id, <- drop_drop, drop_app_length by lia.
  rewrite drop_app_le by lia. by apply cstr_more.
Qed.

(** ** Monadic case analysis *)

Lemma bind_Some_inv {A B} (x : option A) (f : A -> option B) b :
  (x ≫= f) = Some b -> exists a, x = Some a /\ f a = Some b.
Proof. destruct x; [eauto|done]. Qed.

(** [bind_inv] opens every successful bind and every decided test in the
    hypotheses. *)
Ltac bind_inv :=
  repeat match goal with
  | H : (_ ≫= _) = Some _ |- _ =>
      let a := fresh "x" in let E := fresh "E" in
      apply bind_Some_inv in H as (a & E & H); cbv beta in H
  | H : Some _ = Some _ |- _ => injection H as H
  | H : (if ?c then _ else _) = Some _ |- _ =>
      lazymatch type of c with bool => destruct c eqn:? end
  | H : None = Some _ |- _ => discriminate H
  end.

(** ** Arrays and bytes *)

(** An element of an array of the program; the index is inside of it. *)
Definition at_ (tbl : list Z) (i : Z) : Z := nth (Z.to_nat i) tbl 0.

Definition byte (b : Z) : Prop := 0 <= b < 256.

Lemma lxor_range n a b : 0 <= n -> 0 <= a < 2 ^ n -> 0 <= b < 2 ^ n -> 0 <= Z.lxor a b < 2 ^ n.
Proof.
  intros Hn [Ha Ha'] [Hb Hb']. split; [by apply Z.lxor_nonneg|].
  destruct (Z.eq_dec (Z.lxor a b) 0) as [->|Hne]; [lia|].
  apply Z.log2_lt_pow2; [pose proof (proj2 (Z.lxor_nonneg a b)); lia|].
  pose proof (Z.log2_lxor a b Ha Hb).
  assert (forall x, 0 <= x < 2 ^ n -> x <> 0 -> Z.log2 x < n) as Hlog by (intros x Hx Hx0; apply Z.log2_lt_pow2; lia).
  destruct (Z.eq_dec a 0) as [->|Ha0], (Z.eq_dec b 0) as [->|Hb0]; [done| | |].
  - rewrite Z.lxor_0_l in *. by apply Hlog.
  - rewrite Z.lxor_0_r in *. by apply Hlog.
  - pose proof (Hlog a). pose proof (Hlog b). lia.
Qed.

Lemma byte_lxor a b : byte a -> byte b -> byte (Z.lxor a b).
Proof. apply (lxor_range 8). done. Qed.

(** A memory with room for [n] bytes. *)
Lemma room_split n (m : list Z) : 0 <= n <= zlen m -> exists r c, m = r ++ c /\ zlen r = n.
Proof. intros Hn. exists (take (Z.to_nat n) m), (drop (Z.to_nat n) m). rewrite take_drop. split; [done|]. by apply zlen_take. Qed.
