(* ===== verification/UbfTypes.v ===== *)
(** * UBF field types

    Model of [libubf/fdatatype.c], [libubf/fld_ubf.c], [libubf/fld_view.c] and
    of the identifier functions of [libubf/ubf.c]: how a typed value is laid
    out in a buffer, how big it is there, and how it is read back.  The C
    tables [G_dtype_str_map] and [G_dtype_ext1_map] are lists of records of
    operations; the laws a client relies on are the lemmas of the last
    section, proved once for every row. *)

From S2P Require Import Prelude.

(** ** Errors and results

    [Berror] codes of [include/ubf.h].  [BFail None] is a failure return
    without an error code set. *)

Inductive berr :=
  | BALIGNERR | BNOTFLD | BNOSPACE | BNOTPRES | BBADFLD | BTYPERR | BMALLOC
  | BEINVAL | BBADVIEW.

#[export] Instance berr_eq_dec : EqDecision berr.
Proof. solve_decision. Defined.

Inductive bres (A : Type) :=
  | BOk (a : A)
  | BFail (e : option berr).
Arguments BOk {A} _.
Arguments BFail {A} _.

(** ** Platform

    [EX_ALIGNMENT_BYTES] is 4 except on strict-alignment machines (8).
    [view_ssize] is the table of loaded view definitions: the structure size
    of a view name, [None] when [ndrx_view_get_view] finds no such view. *)

Class Platform := {
  EX_ALIGNMENT_BYTES : Z;
  align_ok : EX_ALIGNMENT_BYTES = 4 \/ EX_ALIGNMENT_BYTES = 8;
  view_ssize : list Z -> option Z;
  view_ssize_range : forall v s, view_ssize v = Some s -> 0 <= s <= 1073741824
}.

Abbreviation DA := EX_ALIGNMENT_BYTES.

(** ** Field identifiers *)

Definition EFFECTIVE_BITS : Z := 25.
Definition EFFECTIVE_BITS_MASK : Z := 33554431.
Definition BBADFLDID : Z := 0.
Definition BFIRSTFLDID : Z := 0.
Definition BBADFLDOCC : Z := -1.

Definition BFLD_SHORT : Z := 0.
Definition BFLD_LONG : Z := 1.
Definition BFLD_CHAR : Z := 2.
Definition BFLD_FLOAT : Z := 3.
Definition BFLD_DOUBLE : Z := 4.
Definition BFLD_STRING : Z := 5.
Definition BFLD_CARRAY : Z := 6.
Definition BFLD_INT : Z := 7.
Definition BFLD_RFU0 : Z := 8.
Definition BFLD_PTR : Z := 9.
Definition BFLD_UBF : Z := 10.
Definition BFLD_VIEW : Z := 11.
Definition BFLD_MIN : Z := 0.
Definition BFLD_MAX : Z := 11.

Definition IS_TYPE_INVALID (t : Z) : bool := (t <? BFLD_MIN) || (BFLD_MAX <? t).

Definition Bmkfldid (fldtype bfldid : Z) : Z :=
  Z.lor (i32 (Z.shiftl fldtype EFFECTIVE_BITS)) bfldid.
Definition Bfldtype (bfldid : Z) : Z := Z.shiftr bfldid EFFECTIVE_BITS.
Definition Bfldno (bfldid : Z) : Z := Z.land bfldid EFFECTIVE_BITS_MASK.

(** ** Values at a C pointer

    What a [char *] data argument points at: raw memory, or a [BVIEWFLD]. *)

Record BVIEWFLD := { vflags : Z; vname : list Z; vdata : list Z }.

Inductive cbuf :=
  | CBytes (m : list Z)
  | CView (v : BVIEWFLD).

(** [NDRX_STRCPY_SAFE] into an array of [n] characters: the bytes stored. *)
Definition strcpy_safe (n : Z) (src : list Z) : option (list Z) :=
  s ← cstr src; Some (take (Z.to_nat (n - 1)) s ++ [0]).

Definition le64 (z : Z) : list Z := le32 z ++ le32 (z / 4294967296).
Definition du32 (bs : list Z) : Z :=
  match bs with
  | a :: b :: c :: d :: _ => u32 (a + 256 * b + 65536 * c + 16777216 * d)
  | _ => 0
  end.

Section Types.
Context `{Platform}.

(** ** Sizes *)

(** [sizeof] arithmetic is unsigned 64-bit, then converted to [int]. *)
Definition ALIGNED_SIZE (dsize : Z) : Z := i32 (u64 (DA + dsize + DA - 1) / DA * DA).
Definition ALIGNED_SIZE_T (tsize dsize : Z) : Z := i32 (u64 (tsize + dsize + DA - 1) / DA * DA).

(** Layout of [UBF_header_t] and [UBF_view_t] on an LP64 machine. *)
Definition FF_USED_BYTES : Z := DA.
Definition sizeof_UBF_header : Z := if DA =? 8 then 72 else 60.
Definition off_bytes_used : Z := 52.
Definition off_magic : Z := 2.
Definition UBF_MAGIC : list Z := [85; 66; 70; 49].
Definition sizeof_UBF_view : Z := 56.
Definition off_view_vname : Z := DA.
Definition off_view_dlen : Z := DA + 36.
Definition off_view_vflags : Z := 48.
Definition VNAME_SIZE : Z := 34.

(** ** Size of a field in the buffer: (total, payload) *)

Definition get_fb_dftl_size (size : Z) (m : list Z) (fb : Z) : option (Z * Z) :=
  Some (ALIGNED_SIZE size, size).

Definition get_fb_string_size (m : list Z) (fb : Z) : option (Z * Z) :=
  dlen ← ld32 m (fb + DA); Some (ALIGNED_SIZE (4 + dlen), dlen).

Definition get_fb_carray_size (m : list Z) (fb : Z) : option (Z * Z) :=
  dlen ← ld32 m (fb + DA); Some (ALIGNED_SIZE (4 + dlen), dlen).

Definition ndrx_get_fb_ubf_size (m : list Z) (fb : Z) : option (Z * Z) :=
  bytes_used ← ld32 m (fb + (DA + off_bytes_used));
  Some (ALIGNED_SIZE bytes_used, bytes_used).

Definition ndrx_get_fb_view_size (m : list Z) (fb : Z) : option (Z * Z) :=
  dlen ← ld32 m (fb + off_view_dlen);
  Some (ALIGNED_SIZE_T sizeof_UBF_view dlen, dlen).

(** ** Storing a value at a position of the buffer *)

Definition put_data_dflt (size : Z) (m : list Z) (fb bfldid : Z) (data : cbuf) (len : Z)
    : option (list Z * bres unit) :=
  match data with
  | CBytes src =>
      m ← st32 m (fb + 0) bfldid;
      d ← ld_bytes src 0 size;
      m ← st_bytes m (fb + DA) d;
      Some (m, BOk tt)
  | CView _ => None
  end.

Definition put_data_string (m : list Z) (fb bfldid : Z) (data : cbuf) (len : Z)
    : option (list Z * bres unit) :=
  match data with
  | CBytes src =>
      s ← cstr src;
      m ← st_bytes m (fb + (DA + 4)) (s ++ [0]);
      m ← st32 m (fb + DA) (i32 (zlen s + 1));
      m ← st32 m (fb + 0) bfldid;
      Some (m, BOk tt)
  | CView _ => None
  end.

Definition put_data_carray (m : list Z) (fb bfldid : Z) (data : cbuf) (len : Z)
    : option (list Z * bres unit) :=
  match data with
  | CBytes src =>
      m ← st32 m (fb + 0) bfldid;
      m ← st32 m (fb + DA) len;
      if 0 <? len then
        d ← ld_bytes src 0 len;
        m ← st_bytes m (fb + (DA + 4)) d;
        Some (m, BOk tt)
      else Some (m, BOk tt)
  | CView _ => None
  end.

Definition ndrx_put_data_ubf (m : list Z) (fb bfldid : Z) (data : cbuf) (len : Z)
    : option (list Z * bres unit) :=
  match data with
  | CBytes src =>
      m ← st32 m (fb + 0) bfldid;
      bytes_used ← ld32 src off_bytes_used;
      d ← ld_bytes src 0 bytes_used;
      m ← st_bytes m (fb + DA) d;
      Some (m, BOk tt)
  | CView _ => None
  end.

(** The structure size a [BVIEWFLD] stands for: an empty name is an empty view. *)
Definition view_size_of (vname : list Z) : option (bres Z) :=
  s ← cstr vname;
  match s with
  | [] => Some (BOk 0)
  | _ => match view_ssize s with
         | Some n => Some (BOk n)
         | None => Some (BFail (Some BBADVIEW))
         end
  end.

Definition ndrx_put_data_view (m : list Z) (fb bfldid : Z) (data : cbuf) (len : Z)
    : option (list Z * bres unit) :=
  match data with
  | CView v =>
      vs ← view_size_of (vname v);
      match vs with
      | BFail e => Some (m, BFail e)
      | BOk vsize =>
          m ← st32 m (fb + 0) bfldid;
          m ← st_bytes m (fb + off_view_vflags) (le64 (vflags v));
          m ← st32 m (fb + off_view_dlen) vsize;
          nm ← strcpy_safe VNAME_SIZE (vname v);
          m ← st_bytes m (fb + off_view_vname) nm;
          if 0 <? vsize then
            d ← ld_bytes (vdata v) 0 vsize;
            m ← st_bytes m (fb + sizeof_UBF_view) d;
            Some (m, BOk tt)
          else Some (m, BOk tt)
      end
  | CBytes _ => None
  end.

(** ** Size a value will take: (total, payload, error raised) *)

Definition get_d_size_dftl (size : Z) (data : cbuf) (len : Z) : option (Z * Z * option berr) :=
  Some (ALIGNED_SIZE size, size, None).

Definition get_d_size_string (data : cbuf) (len : Z) : option (Z * Z * option berr) :=
  match data with
  | CBytes src => s ← cstr src;
                  let str_data_len := i32 (zlen s + 1) in
                  Some (ALIGNED_SIZE (4 + str_data_len), str_data_len, None)
  | CView _ => None
  end.

Definition get_d_size_carray (data : cbuf) (len : Z) : option (Z * Z * option berr) :=
  Some (ALIGNED_SIZE (4 + len), len, None).

Definition ndrx_get_d_size_ubf (data : cbuf) (len : Z) : option (Z * Z * option berr) :=
  match data with
  | CBytes src =>
      magic ← ld_bytes src off_magic 4;
      if bool_decide (magic = UBF_MAGIC) then
        bytes_used ← ld32 src off_bytes_used;
        Some (ALIGNED_SIZE bytes_used, bytes_used, None)
      else Some (-1, 0, Some BNOTFLD)
  | CView _ => None
  end.

Definition ndrx_get_d_size_view (data : cbuf) (len : Z) : option (Z * Z * option berr) :=
  match data with
  | CView v =>
      vs ← view_size_of (vname v);
      match vs with
      | BOk vsize => Some (ALIGNED_SIZE_T sizeof_UBF_view vsize, vsize, None)
      | BFail e => Some (-1, 0, e)
      end
  | CBytes _ => None
  end.

(** ** Reading a value: what is copied out and the new [*len] *)

Definition get_data_dflt (size : Z) (m : list Z) (fb : Z) (len : option Z)
    : option (bres (cbuf * option Z)) :=
  if match len with Some n => n <? size | None => false end
  then Some (BFail (Some BNOSPACE))
  else d ← ld_bytes m (fb + DA) size;
       Some (BOk (CBytes d, (fun _ => size) <$> len)).

Definition get_data_str (m : list Z) (fb : Z) (len : option Z)
    : option (bres (cbuf * option Z)) :=
  dlen ← ld32 m (fb + DA);
  if match len with Some n => n <? dlen | None => false end
  then Some (BFail (Some BNOSPACE))
  else s ← cstr (drop (Z.to_nat (fb + (DA + 4))) m);
       Some (BOk (CBytes (s ++ [0]), (fun _ => dlen) <$> len)).

Definition get_data_carr (m : list Z) (fb : Z) (len : option Z)
    : option (bres (cbuf * option Z)) :=
  dlen ← ld32 m (fb + DA);
  if match len with Some n => (0 <? n) && (n <? dlen) | None => false end
  then Some (BFail (Some BNOSPACE))
  else d ← ld_bytes m (fb + (DA + 4)) dlen;
       Some (BOk (CBytes d, (fun _ => dlen) <$> len)).

Definition ndrx_get_data_ubf (m : list Z) (fb : Z) (len : option Z)
    : option (bres (cbuf * option Z)) :=
  bytes_used ← ld32 m (fb + (DA + off_bytes_used));
  if match len with Some n => (0 <? n) && (n <? bytes_used) | None => false end
  then Some (BFail (Some BNOSPACE))
  else d ← ld_bytes m (fb + DA) bytes_used;
       Some (BOk (CBytes d, (fun _ => bytes_used) <$> len)).

Definition ndrx_get_data_view (m : list Z) (fb : Z) (len : option Z)
    : option (bres (cbuf * option Z)) :=
  dlen ← ld32 m (fb + off_view_dlen);
  if match len with Some n => (0 <? n) && (n <? dlen) | None => false end
  then Some (BFail (Some BNOSPACE))
  else nm ← strcpy_safe VNAME_SIZE (drop (Z.to_nat (fb + off_view_vname)) m);
       fl ← ld_bytes m (fb + off_view_vflags) 8;
       d ← ld_bytes m (fb + sizeof_UBF_view) dlen;
       Some (BOk (CView {| vflags := du32 fl; vname := nm; vdata := d |},
                  (fun _ => dlen) <$> len)).

(** ** Empty elements *)

Definition g_dflt_empty (size : Z) : Z := ALIGNED_SIZE size.
Definition g_str_empty : Z := ALIGNED_SIZE (4 + 1).
Definition g_carr_empty : Z := ALIGNED_SIZE 4.
Definition ndrx_g_ubf_empty : Z := ALIGNED_SIZE (sizeof_UBF_header - FF_USED_BYTES).
Definition ndrx_g_view_empty : Z := ALIGNED_SIZE_T sizeof_UBF_view 0.

Definition put_empty_dftl (size : Z) (m : list Z) (fb bfldid : Z) : option (list Z) :=
  m ← st32 m (fb + 0) bfldid;
  if 0 <=? size then st_bytes m (fb + DA) (replicate (Z.to_nat size) 0) else None.

Definition put_empty_str (m : list Z) (fb bfldid : Z) : option (list Z) :=
  m ← st32 m (fb + 0) bfldid;
  m ← st_bytes m (fb + (DA + 4)) [0];
  st32 m (fb + DA) 1.

Definition put_empty_carr (m : list Z) (fb bfldid : Z) : option (list Z) :=
  m ← st32 m (fb + 0) bfldid;
  st32 m (fb + DA) 0.

(** The image [Binit] writes into a header-sized buffer, up to its
    [bytes_used]: zeros, the version, the magic, [buf_len] and [bytes_used]. *)
Definition UBF_VERSION : Z := 1.
Definition empty_ubf_image : list Z :=
  [0; UBF_VERSION] ++ UBF_MAGIC ++ replicate 38 0
  ++ le32 sizeof_UBF_header ++ le32 0 ++ le32 (sizeof_UBF_header - FF_USED_BYTES)
  ++ replicate (Z.to_nat (sizeof_UBF_header - FF_USED_BYTES - 56)) 0.

Definition ndrx_put_empty_ubf (m : list Z) (fb bfldid : Z) : option (list Z) :=
  m ← st32 m (fb + 0) bfldid;
  st_bytes m (fb + DA) empty_ubf_image.

Definition ndrx_put_empty_view (m : list Z) (fb bfldid : Z) : option (list Z) :=
  m ← st_bytes m (fb + 0) (replicate (Z.to_nat sizeof_UBF_view) 0);
  st32 m (fb + 0) bfldid.

(** ** The type tables *)

Record dtype_str := {
  fld_type : Z;
  size : Z;
  p_next : list Z -> Z -> option (Z * Z);
  p_put_data : list Z -> Z -> Z -> cbuf -> Z -> option (list Z * bres unit);
  p_get_data_size : cbuf -> Z -> option (Z * Z * option berr);
  p_get_data : list Z -> Z -> option Z -> option (bres (cbuf * option Z))
}.

Definition dflt_type (t size : Z) : dtype_str :=
  {| fld_type := t; size := size; p_next := get_fb_dftl_size size;
     p_put_data := put_data_dflt size; p_get_data_size := get_d_size_dftl size;
     p_get_data := get_data_dflt size |}.

Definition G_dtype_str_map : list dtype_str :=
  [ dflt_type BFLD_SHORT 2;
    dflt_type BFLD_LONG 8;
    dflt_type BFLD_CHAR 1;
    dflt_type BFLD_FLOAT 4;
    dflt_type BFLD_DOUBLE 8;
    {| fld_type := BFLD_STRING; size := 0; p_next := get_fb_string_size;
       p_put_data := put_data_string; p_get_data_size := get_d_size_string;
       p_get_data := get_data_str |};
    {| fld_type := BFLD_CARRAY; size := 0; p_next := get_fb_carray_size;
       p_put_data := put_data_carray; p_get_data_size := get_d_size_carray;
       p_get_data := get_data_carr |};
    dflt_type BFLD_INT 4;
    dflt_type BFLD_RFU0 (-1);
    dflt_type BFLD_PTR 8;
    {| fld_type := BFLD_UBF; size := DA; p_next := ndrx_get_fb_ubf_size;
       p_put_data := ndrx_put_data_ubf; p_get_data_size := ndrx_get_d_size_ubf;
       p_get_data := ndrx_get_data_ubf |};
    {| fld_type := BFLD_VIEW; size := sizeof_UBF_view - DA; p_next := ndrx_get_fb_view_size;
       p_put_data := ndrx_put_data_view; p_get_data_size := ndrx_get_d_size_view;
       p_get_data := ndrx_get_data_view |} ].

(** Pointer to the value of a field for the caller: the memory behind the
    field header, or the prepared [BVIEWFLD]. *)
Definition ndrx_prep_viewp (m : list Z) (fb : Z) : option cbuf :=
  nm ← strcpy_safe VNAME_SIZE (drop (Z.to_nat (fb + off_view_vname)) m);
  fl ← ld_bytes m (fb + off_view_vflags) 8;
  Some (CView {| vflags := du32 fl; vname := nm;
                 vdata := drop (Z.to_nat (fb + sizeof_UBF_view)) m |}).

Record dtype_ext1 := {
  p_empty_sz : Z;
  p_put_empty : list Z -> Z -> Z -> option (list Z);
  hdr_size : Z;
  p_prep_ubfp : option (list Z -> Z -> option cbuf)
}.

Definition dflt_ext1 (size : Z) : dtype_ext1 :=
  {| p_empty_sz := g_dflt_empty size; p_put_empty := put_empty_dftl size;
     hdr_size := DA; p_prep_ubfp := None |}.

Definition G_dtype_ext1_map : list dtype_ext1 :=
  [ dflt_ext1 2; dflt_ext1 8; dflt_ext1 1; dflt_ext1 4; dflt_ext1 8;
    {| p_empty_sz := g_str_empty; p_put_empty := put_empty_str;
       hdr_size := DA + 4; p_prep_ubfp := None |};
    {| p_empty_sz := g_carr_empty; p_put_empty := put_empty_carr;
       hdr_size := DA + 4; p_prep_ubfp := None |};
    dflt_ext1 4; dflt_ext1 (-1); dflt_ext1 8;
    {| p_empty_sz := ndrx_g_ubf_empty; p_put_empty := ndrx_put_empty_ubf;
       hdr_size := DA; p_prep_ubfp := None |};
    {| p_empty_sz := ndrx_g_view_empty; p_put_empty := ndrx_put_empty_view;
       hdr_size := sizeof_UBF_view; p_prep_ubfp := Some ndrx_prep_viewp |} ].

(** Indexing the tables with a type number; no row, no defined result. *)
Definition dtype_of (t : Z) : option dtype_str :=
  if t <? 0 then None else G_dtype_str_map !! Z.to_nat t.
Definition ext1_of (t : Z) : option dtype_ext1 :=
  if t <? 0 then None else G_dtype_ext1_map !! Z.to_nat t.

End Types.

(** ** Blocks: the fields of a buffer as byte strings

    A block is the byte string one field occupies, padding included.  [blk_val]
    decodes it with the type's own reader. *)

Section Blocks.
Context `{Platform}.

(** Types that have a place in the type cache: [BFLD_INT] and [BFLD_RFU0] do not. *)
Definition usable_type (t : Z) : bool := ((0 <=? t) && (t <=? 6)) || ((9 <=? t) && (t <=? 11)).

Definition fid_ok (fid : Z) : bool :=
  (0 <? fid) && (fid <=? INT_MAX) && usable_type (Bfldtype fid).

Definition blk_fid (b : list Z) : Z := de32 (take 4 b).
Definition blk_type (b : list Z) : Z := Bfldtype (blk_fid b).

Definition blk_val (b : list Z) : option cbuf :=
  dt ← dtype_of (blk_type b);
  r ← p_get_data dt b 0 None;
  match r with BOk (v, _) => Some v | BFail _ => None end.

(** The largest variable-size payload considered: 1 GB, far below where the
    [int] arithmetic on sizes would wrap. *)
Definition MAX_PAYLOAD : Z := 1073741824.

(** The value [p_put_data] stores for a data pointer and length; [None] when
    the argument is not valid for the type. *)
Definition data_val (t : Z) (d : cbuf) (len : Z) : option cbuf :=
  match d with
  | CBytes src =>
      if t =? BFLD_STRING then
        s ← cstr src;
        if zlen s <? MAX_PAYLOAD then Some (CBytes (s ++ [0])) else None
      else if t =? BFLD_CARRAY then
        if len <=? MAX_PAYLOAD then CBytes <$> ld_bytes src 0 len else None
      else if t =? BFLD_UBF then
        magic ← ld_bytes src off_magic 4;
        bu ← ld32 src off_bytes_used;
        if bool_decide (magic = UBF_MAGIC) && (56 <=? bu) && (bu <=? MAX_PAYLOAD)
        then CBytes <$> ld_bytes src 0 bu else None
      else if t =? BFLD_VIEW then None
      else dt ← dtype_of t; CBytes <$> ld_bytes src 0 (size dt)
  | CView v =>
      if t =? BFLD_VIEW then
        s ← cstr (vname v);
        vs ← view_size_of (vname v);
        match vs with
        | BOk n => if zlen s <? VNAME_SIZE then
                     d ← ld_bytes (vdata v) 0 n;
                     Some (CView {| vflags := u32 (vflags v); vname := s ++ [0]; vdata := d |})
                   else None
        | BFail _ => None
        end
      else None
  end.

(** Payload size of a value and size of the block that holds it. *)
Definition val_len (v : cbuf) : Z :=
  match v with CBytes bs => zlen bs | CView w => zlen (vdata w) end.

Definition blk_size (t : Z) (v : cbuf) : Z :=
  match v with
  | CBytes bs => if (t =? BFLD_STRING) || (t =? BFLD_CARRAY)
                 then ALIGNED_SIZE (4 + zlen bs) else ALIGNED_SIZE (zlen bs)
  | CView w => ALIGNED_SIZE_T sizeof_UBF_view (zlen (vdata w))
  end.

(** A value that is stored as it is. *)
Definition wf_val (t : Z) (v : cbuf) : Prop := data_val t v (val_len v) = Some v.

(** A well-formed block: a valid identifier, a valid value, and a size that
    agrees with what the type's size function reads from the block. *)
Definition wf_blk (b : list Z) : Prop :=
  fid_ok (blk_fid b) = true /\ 4 <= zlen b /\
  exists dt v, dtype_of (blk_type b) = Some dt /\ blk_val b = Some v /\
    p_next dt b 0 = Some (zlen b, val_len v) /\ wf_val (blk_type b) v.

Definition empty_val (t : Z) : option cbuf :=
  if t =? BFLD_STRING then Some (CBytes [0])
  else if t =? BFLD_CARRAY then Some (CBytes [])
  else if t =? BFLD_UBF then Some (CBytes empty_ubf_image)
  else if t =? BFLD_VIEW then Some (CView {| vflags := 0; vname := [0]; vdata := [] |})
  else dt ← dtype_of t; Some (CBytes (replicate (Z.to_nat (size dt)) 0)).

(** The pointer to a field's value that [Bnext] and [Bfind] return. *)
Definition field_ptr (t : Z) (m : list Z) (fb : Z) : option cbuf :=
  e ← ext1_of t;
  match p_prep_ubfp e with
  | Some prep => prep m fb
  | None => if fb + hdr_size e <=? zlen m
            then Some (CBytes (drop (Z.to_nat (fb + hdr_size e)) m)) else None
  end.

(** Rows of the tables for a usable type. *)
Inductive type_row (t : Z) : dtype_str -> dtype_ext1 -> Prop :=
  | row_dflt n : 1 <= n <= 8 -> t <> 5 -> t <> 6 -> t <> 10 -> t <> 11 ->
      type_row t (dflt_type t n) (dflt_ext1 n)
  | row_string : t = 5 -> type_row t
      {| fld_type := BFLD_STRING; size := 0; p_next := get_fb_string_size;
         p_put_data := put_data_string; p_get_data_size := get_d_size_string;
         p_get_data := get_data_str |}
      {| p_empty_sz := g_str_empty; p_put_empty := put_empty_str;
         hdr_size := DA + 4; p_prep_ubfp := None |}
  | row_carray : t = 6 -> type_row t
      {| fld_type := BFLD_CARRAY; size := 0; p_next := get_fb_carray_size;
         p_put_data := put_data_carray; p_get_data_size := get_d_size_carray;
         p_get_data := get_data_carr |}
      {| p_empty_sz := g_carr_empty; p_put_empty := put_empty_carr;
         hdr_size := DA + 4; p_prep_ubfp := None |}
  | row_ubf : t = 10 -> type_row t
      {| fld_type := BFLD_UBF; size := DA; p_next := ndrx_get_fb_ubf_size;
         p_put_data := ndrx_put_data_ubf; p_get_data_size := ndrx_get_d_size_ubf;
         p_get_data := ndrx_get_data_ubf |}
      {| p_empty_sz := ndrx_g_ubf_empty; p_put_empty := ndrx_put_empty_ubf;
         hdr_size := DA; p_prep_ubfp := None |}
  | row_view : t = 11 -> type_row t
      {| fld_type := BFLD_VIEW; size := sizeof_UBF_view - DA; p_next := ndrx_get_fb_view_size;
         p_put_data := ndrx_put_data_view; p_get_data_size := ndrx_get_d_size_view;
         p_get_data := ndrx_get_data_view |}
      {| p_empty_sz := ndrx_g_view_empty; p_put_empty := ndrx_put_empty_view;
         hdr_size := sizeof_UBF_view; p_prep_ubfp := Some ndrx_prep_viewp |}.

Lemma usable_cases t : usable_type t = true ->
  t = 0 \/ t = 1 \/ t = 2 \/ t = 3 \/ t = 4 \/ t = 5 \/ t = 6 \/ t = 9 \/ t = 10 \/ t = 11.
Proof. unfold usable_type. lia. Qed.

Lemma usable_row t : usable_type t = true ->
  exists dt e, dtype_of t = Some dt /\ ext1_of t = Some e /\ type_row t dt e.
Proof.
  intros Hu%usable_cases.
  destruct Hu as [->|[->|[->|[->|[->|[->|[->|[->|[->| ->]]]]]]]]];
    (do 2 eexists; split; [reflexivity|split; [reflexivity|]]);
    first [ by constructor | by apply (row_dflt _ 2) | by apply (row_dflt _ 8)
          | by apply (row_dflt _ 1) | by apply (row_dflt _ 4) ].
Qed.

Lemma usable_valid t : usable_type t = true -> IS_TYPE_INVALID t = false.
Proof. intros Hu%usable_cases. unfold IS_TYPE_INVALID, BFLD_MIN, BFLD_MAX. lia. Qed.

Lemma fid_ok_usable fid : fid_ok fid = true -> usable_type (Bfldtype fid) = true.
Proof. unfold fid_ok. intros [_ ?]%andb_prop. done. Qed.

Lemma fid_ok_range fid : fid_ok fid = true -> 0 < fid <= INT_MAX.
Proof. unfold fid_ok. intros [[?%Z.ltb_lt ?%Z.leb_le]%andb_prop _]%andb_prop. done. Qed.

Lemma DA_range : 4 <= DA <= 8.
Proof. destruct align_ok as [-> | ->]; lia. Qed.

(** Sizes in the normal range are plain rounding up to the alignment. *)
Lemma ALIGNED_SIZE_T_bounds ts n :
  0 <= ts <= 64 -> 0 <= n <= MAX_PAYLOAD + 8 ->
  ts + n <= ALIGNED_SIZE_T ts n <= ts + n + DA - 1 /\ ALIGNED_SIZE_T ts n mod DA = 0.
Proof.
  intros. unfold ALIGNED_SIZE_T, MAX_PAYLOAD in *. pose proof DA_range.
  rewrite u64_id by lia.
  assert (ts + n <= (ts + n + DA - 1) / DA * DA <= ts + n + DA - 1).
  { assert (0 < DA) as HDA by lia.
    pose proof (Z.div_mod (ts + n + DA - 1) DA ltac:(by apply Z.neq_sym, Z.lt_neq)).
    pose proof (Z.mod_pos_bound (ts + n + DA - 1) DA HDA). lia. }
  rewrite i32_id by (unfold INT_MIN, INT_MAX; lia).
  split; [lia|]. apply Z.mod_mul. lia.
Qed.

Lemma ALIGNED_SIZE_eq n : ALIGNED_SIZE n = ALIGNED_SIZE_T DA n.
Proof. reflexivity. Qed.

Lemma ALIGNED_SIZE_bounds n :
  0 <= n <= MAX_PAYLOAD + 8 ->
  DA + n <= ALIGNED_SIZE n <= DA + n + DA - 1 /\ ALIGNED_SIZE n mod DA = 0.
Proof. intros. rewrite ALIGNED_SIZE_eq. apply ALIGNED_SIZE_T_bounds; [|done]. pose proof DA_range; lia. Qed.

End Blocks.

(** ** Laws of the type tables

    Every operation of a row touches only the block it is given. *)

Section Laws.
Context `{Platform}.

Ltac by_row Hr :=
  destruct Hr; cbn [p_next p_get_data p_put_data p_get_data_size p_put_empty p_empty_sz
                    p_prep_ubfp hdr_size dflt_type dflt_ext1].

Lemma strcpy_safe_rel n a b c o s :
  0 <= o -> strcpy_safe n (drop (Z.to_nat (0 + o)) b) = Some s ->
  strcpy_safe n (drop (Z.to_nat (zlen a + o)) (a ++ b ++ c)) = Some s.
Proof.
  unfold strcpy_safe. intros. bind_inv. erewrite cstr_rel by eassumption.
  cbn. congruence.
Qed.

(** Carry the loads and stores of the hypotheses to a context. *)
Ltac rel_step :=
  first [ erewrite ld32_rel by eassumption | erewrite ld_bytes_rel by eassumption
        | erewrite st_bytes_rel by eassumption
        | erewrite strcpy_safe_rel by (eassumption || (unfold off_view_vname; lia))
        | erewrite cstr_rel by (eassumption || lia)
        | match goal with E : ?x = ?y |- context [if ?x then _ else _] => rewrite E end
        | match goal with E : ?x = Some _ |- context [?x ≫= _] => rewrite E end ];
  cbn [mbind option_bind].

Lemma p_next_rel t dt e a b c r :
  type_row t dt e -> p_next dt b 0 = Some r -> p_next dt (a ++ b ++ c) (zlen a) = Some r.
Proof.
  intros Hr. by_row Hr; [done|..];
    unfold get_fb_string_size, get_fb_carray_size, ndrx_get_fb_ubf_size, ndrx_get_fb_view_size;
    intros; bind_inv; rel_step; congruence.
Qed.

Lemma p_get_data_rel t dt e a b c len r :
  type_row t dt e -> p_get_data dt b 0 len = Some r ->
  p_get_data dt (a ++ b ++ c) (zlen a) len = Some r.
Proof.
  pose proof DA_range. intros Hr. by_row Hr;
    unfold get_data_dflt, get_data_str, get_data_carr, ndrx_get_data_ubf, ndrx_get_data_view;
    intros; bind_inv; repeat rel_step; congruence.
Qed.

Lemma p_put_data_rel t dt e a b c fid d len b' :
  type_row t dt e -> p_put_data dt b 0 fid d len = Some (b', BOk tt) ->
  p_put_data dt (a ++ b ++ c) (zlen a) fid d len = Some (a ++ b' ++ c, BOk tt).
Proof.
  pose proof DA_range. intros Hr. by_row Hr;
    unfold put_data_dflt, put_data_string, put_data_carray, ndrx_put_data_ubf,
      ndrx_put_data_view, st32; destruct d; try done; intros; bind_inv;
    try (match goal with vs : bres Z |- _ => destruct vs; [|simplify_eq] end; bind_inv);
    repeat rel_step; congruence.
Qed.

Lemma p_put_empty_rel t dt e a b c fid b' :
  type_row t dt e -> p_put_empty e b 0 fid = Some b' ->
  p_put_empty e (a ++ b ++ c) (zlen a) fid = Some (a ++ b' ++ c).
Proof.
  intros Hr. by_row Hr;
    unfold put_empty_dftl, put_empty_str, put_empty_carr, ndrx_put_empty_ubf,
      ndrx_put_empty_view, st32; intros; bind_inv; repeat rel_step; congruence.
Qed.


(** The value stored, row by row. *)
Lemma data_val_row t dt e d len v :
  type_row t dt e -> dtype_of t = Some dt -> data_val t d len = Some v ->
  match d with
  | CBytes src =>
      (exists n bs, dt = dflt_type t n /\ e = dflt_ext1 n /\ 1 <= n <= 8 /\
                    t <> 5 /\ t <> 6 /\ t <> 10 /\ t <> 11 /\
                    ld_bytes src 0 n = Some bs /\ v = CBytes bs) \/
      (t = 5 /\ exists s, cstr src = Some s /\ zlen s < MAX_PAYLOAD /\ v = CBytes (s ++ [0])) \/
      (t = 6 /\ exists bs, len <= MAX_PAYLOAD /\ ld_bytes src 0 len = Some bs /\ v = CBytes bs) \/
      (t = 10 /\ exists bu bs, ld_bytes src off_magic 4 = Some UBF_MAGIC /\
         ld32 src off_bytes_used = Some bu /\ 56 <= bu <= MAX_PAYLOAD /\
         ld_bytes src 0 bu = Some bs /\ v = CBytes bs)
  | CView w =>
      t = 11 /\ exists s n bs, cstr (vname w) = Some s /\ view_size_of (vname w) = Some (BOk n) /\
        zlen s < VNAME_SIZE /\ ld_bytes (vdata w) 0 n = Some bs /\
        v = CView {| vflags := u32 (vflags w); vname := s ++ [0]; vdata := bs |}
  end.
Proof.
  intros Hr Hdt Hv. destruct Hr; subst; destruct d as [src|w]; unfold data_val in Hv;
    unfold BFLD_STRING, BFLD_CARRAY, BFLD_UBF, BFLD_VIEW in Hv;
    try rewrite !(proj2 (Z.eqb_neq t _)) in Hv by done;
    cbn [Z.eqb Pos.eqb] in Hv; try done.
  - left. rewrite Hdt in Hv. cbn in Hv. apply fmap_Some in Hv as (bs & ? & ->).
    exists n, bs. repeat split; done || lia.
  - right; left. bind_inv. subst. split; [done|]. exists x. repeat split; [done|lia].
  - right; right; left. bind_inv. apply fmap_Some in Hv as (bs & ? & ->).
    split; [done|]. exists bs. repeat split; [lia|done].
  - right; right; right. bind_inv. apply fmap_Some in Hv as (bs & ? & ->).
    apply andb_prop in Heqb as [[?%bool_decide_eq_true ?]%andb_prop ?]. subst.
    split; [done|]. exists x0, bs. repeat split; try done; lia.
  - bind_inv. destruct x0 as [n|]; [|done]. bind_inv. subst.
    split; [done|]. exists x, n, x0. repeat split; try done. lia.
Qed.

Lemma view_size_range nm n : view_size_of nm = Some (BOk n) -> 0 <= n <= MAX_PAYLOAD.
Proof.
  unfold view_size_of, MAX_PAYLOAD. intros Hs. bind_inv. destruct x as [|c s].
  - injection Hs as <-. lia.
  - destruct (view_ssize (c :: s)) as [k|] eqn:Hk; [|done]. injection Hs as <-.
    by apply view_ssize_range in Hk.
Qed.

Lemma data_val_size t dt e d len v :
  type_row t dt e -> dtype_of t = Some dt -> data_val t d len = Some v ->
  p_get_data_size dt d len = Some (blk_size t v, val_len v, None).
Proof.
  intros Hr Hdt Hv. pose proof (data_val_row _ _ _ _ _ _ Hr Hdt Hv) as Hc.
  unfold blk_size, BFLD_STRING, BFLD_CARRAY. destruct d as [src|w].
  - destruct Hc as [(n & bs & -> & -> & ? & ? & ? & ? & ? & Hl%ld_bytes_len & ->)|[[-> Hc]|[[-> Hc]|[-> Hc]]]].
    + cbn [p_get_data_size dflt_type val_len]. unfold get_d_size_dftl. rewrite Hl.
      destruct (Z.eqb_spec t 5), (Z.eqb_spec t 6); try lia. done.
    + destruct Hc as (s & E & ? & ->). inversion Hr; try lia. subst.
      cbn [p_get_data_size val_len]. unfold get_d_size_string. rewrite E.
      cbn [mbind option_bind orb Z.eqb Pos.eqb]. unfold MAX_PAYLOAD in *.
      rewrite i32_id by (unfold INT_MIN, INT_MAX; zl). by rewrite zlen_app.
    + destruct Hc as (bs & ? & Hl%ld_bytes_len & ->). inversion Hr; try lia. subst. done.
    + destruct Hc as (bu & bs & Hm & Hb & ? & Hl%ld_bytes_len & ->). inversion Hr; try lia. subst.
      cbn [p_get_data_size val_len]. unfold ndrx_get_d_size_ubf. rewrite Hm, Hb.
      cbn [mbind option_bind]. by rewrite bool_decide_eq_true_2.
  - destruct Hc as [-> (s & n & bs & E & Hn & ? & Hl%ld_bytes_len & ->)].
    inversion Hr; try lia. subst. cbn [p_get_data_size val_len vdata].
    unfold ndrx_get_d_size_view. rewrite Hn. done.
Qed.

(** A stored value fits its type again. *)
Lemma data_val_wf t d len v :
  usable_type t = true -> data_val t d len = Some v -> wf_val t v.
Proof.
  intros Hu Hv. destruct (usable_row t Hu) as (dt & e & Hdt & _ & Hr).
  pose proof (data_val_row _ _ _ _ _ _ Hr Hdt Hv) as Hc.
  unfold wf_val. destruct d as [src|w].
  - destruct Hc as [(n & bs & -> & -> & ? & ? & ? & ? & ? & Hl%ld_bytes_len & ->)|[[-> Hc]|[[-> Hc]|[-> Hc]]]].
    + cbn [data_val]. unfold BFLD_STRING, BFLD_CARRAY, BFLD_UBF, BFLD_VIEW.
      destruct (Z.eqb_spec t 5), (Z.eqb_spec t 6), (Z.eqb_spec t 10), (Z.eqb_spec t 11); try lia.
      rewrite Hdt. cbn [mbind option_bind size dflt_type]. by rewrite ld_bytes_all.
    + destruct Hc as (s & E & ? & ->). cbn [data_val Z.eqb Pos.eqb BFLD_STRING].
      apply cstr_inv in E as [? _]. rewrite cstr_app by done. cbn [mbind option_bind].
      by rewrite (proj2 (Z.ltb_lt _ _)).
    + destruct Hc as (bs & ? & Hl%ld_bytes_len & ->).
      cbn [data_val val_len Z.eqb Pos.eqb BFLD_STRING BFLD_CARRAY].
      rewrite (proj2 (Z.leb_le _ _)), ld_bytes_all by lia. done.
    + destruct Hc as (bu & bs & Hm & Hb & ? & Hl & ->).
      cbn [data_val val_len Z.eqb Pos.eqb BFLD_STRING BFLD_CARRAY BFLD_UBF].
      pose proof (ld_bytes_len _ _ _ _ Hl) as Hlen.
      apply ld_bytes_inv in Hl as (a & c & -> & Ha & _). symmetry in Ha.
      apply zlen_0_inv in Ha as ->. cbn [app] in *.
      rewrite ld_bytes_prefix_eq in Hm by (unfold off_magic; lia).
      rewrite ld32_prefix_eq in Hb by (unfold off_bytes_used; lia).
      rewrite Hm, Hb. cbn [mbind option_bind].
      rewrite bool_decide_eq_true_2, !(proj2 (Z.leb_le _ _)) by (done || lia). cbn [andb].
      by rewrite ld_bytes_all.
  - destruct Hc as [-> (s & n & bs & E & Hn & ? & Hl%ld_bytes_len & ->)].
    cbn [data_val vname vdata Z.eqb Pos.eqb BFLD_VIEW].
    pose proof E as [? _]%cstr_inv. unfold view_size_of in *. rewrite E in Hn.
    rewrite cstr_app by done. cbn [mbind option_bind] in *. rewrite Hn. cbn [mbind option_bind].
    rewrite (proj2 (Z.ltb_lt _ _)), ld_bytes_all by done. cbn [mbind option_bind vflags].
    do 3 f_equal. unfold u32. by rewrite Z.mod_mod.
Qed.


Lemma blk_size_bounds t v :
  usable_type t = true -> wf_val t v ->
  DA + 1 <= blk_size t v <= MAX_PAYLOAD + 80 /\ 0 <= val_len v <= MAX_PAYLOAD.
Proof.
  intros Hu Hv. destruct (usable_row t Hu) as (dt & e & Hdt & _ & Hr).
  pose proof (data_val_row _ _ _ _ _ _ Hr Hdt Hv) as Hc. pose proof DA_range.
  unfold blk_size, BFLD_STRING, BFLD_CARRAY, val_len in *. destruct v as [src|w].
  - destruct Hc as [(n & bs & -> & -> & ? & ? & ? & ? & ? & Hl%ld_bytes_len & [= <-])|[[-> Hc]|[[-> Hc]|[-> Hc]]]].
    + destruct (Z.eqb_spec t 5), (Z.eqb_spec t 6); try lia. cbn [orb].
      pose proof (ALIGNED_SIZE_bounds (zlen src)). unfold MAX_PAYLOAD in *. lia.
    + destruct Hc as (s & E & ? & [= ->]). cbn [orb Z.eqb Pos.eqb].
      pose proof (ALIGNED_SIZE_bounds (4 + zlen (s ++ [0]))). zl.
    + destruct Hc as (bs & ? & Hl%ld_bytes_len & [= <-]). cbn [orb Z.eqb Pos.eqb].
      pose proof (ALIGNED_SIZE_bounds (4 + zlen src)). zl.
    + destruct Hc as (bu & bs & Hm & Hb & ? & Hl%ld_bytes_len & [= <-]). cbn [orb Z.eqb Pos.eqb].
      pose proof (ALIGNED_SIZE_bounds (zlen src)). zl.
  - destruct Hc as [-> (s & n & bs & E & Hn%view_size_range & ? & Hl%ld_bytes_len & Hw)].
    destruct w as [fl nm dd]. injection Hw as _ _ ->. cbn [vdata] in *.
    pose proof (ALIGNED_SIZE_T_bounds sizeof_UBF_view (zlen bs)).
    unfold sizeof_UBF_view, MAX_PAYLOAD in *. lia.
Qed.

Lemma blk_fid_ld b fid :
  ld_bytes b 0 4 = Some (le32 fid) -> fid_ok fid = true -> blk_fid b = fid.
Proof.
  intros Hl%ld_bytes_0_take Hf%fid_ok_range. unfold blk_fid.
  replace 4%nat with (Z.to_nat 4) by done. rewrite Hl. apply de32_le32.
  unfold INT_MIN, INT_MAX in *; lia.
Qed.

(** Follow a read back through the stores in the hypotheses. *)
Ltac ld_chain :=
  repeat match goal with
  | E : st_bytes ?m ?o ?d = Some ?m' |- context [ld_bytes ?m' ?o2 ?n] =>
      first [ replace (ld_bytes m' o2 n) with (Some d)
                by (symmetry; replace o2 with o by zl; replace n with (zlen d) by zl;
                    exact (ld_st_same _ _ _ _ E))
            | rewrite (ld_st_before _ _ _ _ o2 n E) by zl
            | rewrite (ld_st_after _ _ _ _ o2 n E) by zl ]
  end.

Ltac st_ok m o d m' E :=
  destruct (st_bytes_Some m o d) as [m' E];
  [zl | repeat match goal with S : st_bytes _ _ _ = Some _ |- _ =>
            apply st_bytes_len in S end; zl | ].

(** What a store of [v] into the block [b] has to achieve. *)
Definition stores (dt : dtype_str) (b : list Z) (fid : Z) (v : cbuf)
    (sz : Z) (put : option (list Z)) : Prop :=
  exists b', put = Some b' /\ zlen b' = zlen b /\
    ld_bytes b' 0 4 = Some (le32 fid) /\
    p_get_data dt b' 0 None = Some (BOk (v, None)) /\
    p_next dt b' 0 = Some (sz, val_len v).

Definition put_ok (r : option (list Z * bres unit)) : option (list Z) :=
  match r with Some (m, BOk _) => Some m | _ => None end.

Lemma stores_dflt t n b fid src len bs :
  1 <= n <= 8 -> ld_bytes src 0 n = Some bs -> zlen b = ALIGNED_SIZE n ->
  stores (dflt_type t n) b fid (CBytes bs) (ALIGNED_SIZE n)
    (put_ok (put_data_dflt n b 0 fid (CBytes src) len)).
Proof.
  intros Hn Hs Hl. pose proof DA_range. pose proof (ld_bytes_len _ _ _ _ Hs).
  pose proof (ALIGNED_SIZE_bounds n ltac:(unfold MAX_PAYLOAD; lia)).
  unfold stores, put_data_dflt, st32. st_ok b (0 + 0) (le32 fid) b1 E1. rewrite E1.
  cbn [mbind option_bind]. rewrite Hs. cbn [mbind option_bind].
  st_ok b1 (0 + DA) bs b2 E2. rewrite E2. cbn [mbind option_bind put_ok].
  exists b2. pose proof (st_bytes_len _ _ _ _ E1). pose proof (st_bytes_len _ _ _ _ E2).
  repeat split; [congruence|..].
  - by ld_chain.
  - cbn [p_get_data dflt_type]. unfold get_data_dflt. by ld_chain.
  - cbn [p_next dflt_type]. unfold get_fb_dftl_size, val_len. congruence.
Qed.

Lemma ld32_le32 m o v : ld_bytes m o 4 = Some (le32 v) -> INT_MIN <= v <= INT_MAX -> ld32 m o = Some v.
Proof. intros E ?. unfold ld32. rewrite E. cbn [mbind option_bind]. by rewrite de32_le32. Qed.

Lemma stores_string t dt e b fid src len s :
  type_row t dt e -> t = 5 -> cstr src = Some s -> zlen s < MAX_PAYLOAD ->
  zlen b = ALIGNED_SIZE (4 + zlen (s ++ [0])) ->
  stores dt b fid (CBytes (s ++ [0])) (ALIGNED_SIZE (4 + zlen (s ++ [0])))
    (put_ok (p_put_data dt b 0 fid (CBytes src) len)).
Proof.
  intros Hr -> Hs Hm Hl. pose proof DA_range. inversion Hr; try lia. subst.
  pose proof (ALIGNED_SIZE_bounds (4 + zlen (s ++ [0])) ltac:(zl)).
  unfold MAX_PAYLOAD in *. cbn [p_put_data]. unfold stores, put_data_string, st32.
  rewrite Hs. cbn [mbind option_bind]. apply cstr_inv in Hs as [Hs _].
  rewrite i32_id by (unfold INT_MIN, INT_MAX; zl).
  st_ok b (0 + (DA + 4)) (s ++ [0]) b1 E1. rewrite E1. cbn [mbind option_bind].
  st_ok b1 (0 + DA) (le32 (zlen s + 1)) b2 E2. rewrite E2. cbn [mbind option_bind].
  st_ok b2 (0 + 0) (le32 fid) b3 E3. rewrite E3. cbn [mbind option_bind put_ok].
  pose proof (st_bytes_len _ _ _ _ E1). pose proof (st_bytes_len _ _ _ _ E2).
  pose proof (st_bytes_len _ _ _ _ E3).
  assert (ld32 b3 (0 + DA) = Some (zlen s + 1)) as Hd.
  { apply ld32_le32; [by ld_chain|unfold INT_MIN, INT_MAX; zl]. }
  exists b3. repeat split; [congruence|..].
  - by ld_chain.
  - cbn [p_get_data]. unfold get_data_str. rewrite Hd. cbn [mbind option_bind].
    rewrite (cstr_ld b3 (0 + (DA + 4)) (zlen (s ++ [0])) s); [done| |done]. by ld_chain.
  - cbn [p_next]. unfold get_fb_string_size, val_len. rewrite Hd. cbn [mbind option_bind].
    by rewrite zlen_app.
Qed.

Lemma stores_carray t dt e b fid src len bs :
  type_row t dt e -> t = 6 -> len <= MAX_PAYLOAD -> ld_bytes src 0 len = Some bs ->
  zlen b = ALIGNED_SIZE (4 + zlen bs) ->
  stores dt b fid (CBytes bs) (ALIGNED_SIZE (4 + zlen bs))
    (put_ok (p_put_data dt b 0 fid (CBytes src) len)).
Proof.
  intros Hr -> Hm Hs Hl. pose proof DA_range. inversion Hr; try lia. subst.
  pose proof (ld_bytes_len _ _ _ _ Hs) as Hlen.
  pose proof (ALIGNED_SIZE_bounds (4 + zlen bs) ltac:(zl)).
  unfold MAX_PAYLOAD in *. cbn [p_put_data]. unfold stores, put_data_carray, st32.
  st_ok b (0 + 0) (le32 fid) b1 E1. rewrite E1. cbn [mbind option_bind].
  st_ok b1 (0 + DA) (le32 len) b2 E2. rewrite E2. cbn [mbind option_bind].
  pose proof (st_bytes_len _ _ _ _ E1). pose proof (st_bytes_len _ _ _ _ E2).
  pose proof (zlen_nonneg bs).
  assert (exists b3, st_bytes b2 (0 + (DA + 4)) bs = Some b3 /\
    (if 0 <? len then d ← ld_bytes src 0 len; m ← st_bytes b2 (0 + (DA + 4)) d;
                      Some (m, BOk tt) else Some (b2, BOk tt)) = Some (b3, BOk tt)) as (b3 & E3 & ->).
  { st_ok b2 (0 + (DA + 4)) bs b3 E3. exists b3. split; [done|].
    destruct (Z.ltb_spec 0 len).
    - rewrite Hs. cbn [mbind option_bind]. by rewrite E3.
    - assert (bs = []) as -> by (apply zlen_0_inv; lia).
      destruct (st_bytes_inv _ _ _ _ E3) as (x & y & z & -> & _ & Hy & ->).
      by apply zlen_0_inv in Hy as ->. }
  pose proof (st_bytes_len _ _ _ _ E3).
  assert (ld32 b3 (0 + DA) = Some len) as Hd.
  { apply ld32_le32; [by ld_chain|unfold INT_MIN, INT_MAX; zl]. }
  exists b3. cbn [put_ok]. repeat split; [congruence|..].
  - by ld_chain.
  - cbn [p_get_data]. unfold get_data_carr. rewrite Hd. cbn [mbind option_bind]. by ld_chain.
  - cbn [p_next]. unfold get_fb_carray_size, val_len. rewrite Hd. cbn [mbind option_bind]. by rewrite Hlen.
Qed.


(** An embedded buffer image carries its own size. *)
Lemma stores_image t dt e b fid bs put :
  type_row t dt e -> t = 10 -> zlen b = ALIGNED_SIZE (zlen bs) ->
  ld32 bs off_bytes_used = Some (zlen bs) -> 56 <= zlen bs <= MAX_PAYLOAD ->
  put = (m ← st32 b (0 + 0) fid; st_bytes m (0 + DA) bs) ->
  stores dt b fid (CBytes bs) (ALIGNED_SIZE (zlen bs)) put.
Proof.
  intros Hr -> Hl Hb Hr2 ->. pose proof DA_range. inversion Hr; try lia. subst.
  pose proof (ALIGNED_SIZE_bounds (zlen bs) ltac:(lia)).
  unfold stores, st32.
  st_ok b (0 + 0) (le32 fid) b1 E1. rewrite E1. cbn [mbind option_bind].
  st_ok b1 (0 + DA) bs b2 E2. rewrite E2.
  pose proof (st_bytes_len _ _ _ _ E1). pose proof (st_bytes_len _ _ _ _ E2).
  assert (ld32 b2 (0 + (DA + off_bytes_used)) = Some (zlen bs)) as Hd.
  { apply st_bytes_inv in E2 as (x & y & z & -> & Hx & ? & ->).
    replace (0 + (DA + off_bytes_used)) with (zlen x + off_bytes_used) by lia.
    rewrite ld32_ctx; [done|..]; unfold off_bytes_used; lia. }
  exists b2. repeat split; [congruence|..].
  - by ld_chain.
  - cbn [p_get_data]. unfold ndrx_get_data_ubf. rewrite Hd. cbn [mbind option_bind]. by ld_chain.
  - cbn [p_next]. unfold ndrx_get_fb_ubf_size, val_len. by rewrite Hd.
Qed.

Lemma stores_ubf t dt e b fid src len bu bs :
  type_row t dt e -> t = 10 -> ld32 src off_bytes_used = Some bu ->
  56 <= bu <= MAX_PAYLOAD -> ld_bytes src 0 bu = Some bs ->
  zlen b = ALIGNED_SIZE (zlen bs) ->
  stores dt b fid (CBytes bs) (ALIGNED_SIZE (zlen bs))
    (put_ok (p_put_data dt b 0 fid (CBytes src) len)).
Proof.
  intros Hr -> Hb Hr2 Hs Hl. pose proof (ld_bytes_len _ _ _ _ Hs) as Hlen. subst bu.
  apply (stores_image _ _ _ _ _ _ _ Hr); try done.
  - apply ld_bytes_inv in Hs as (a & c & -> & Ha & _). symmetry in Ha.
    apply zlen_0_inv in Ha as ->. cbn [app] in Hb.
    by rewrite ld32_prefix_eq in Hb by (unfold off_bytes_used; lia).
  - inversion Hr; try lia. subst. cbn [p_put_data]. unfold ndrx_put_data_ubf.
    destruct (st32 b (0 + 0) fid) as [m|]; [|done]. cbn [mbind option_bind]. rewrite Hb.
    cbn [mbind option_bind]. rewrite Hs. cbn [mbind option_bind].
    by destruct (st_bytes m (0 + DA) bs).
Qed.

Lemma du32_le64 z : du32 (le64 z) = u32 z.
Proof.
  unfold du32, le64, le32, u32. cbn [app].
  assert (z mod 256 + 256 * (z / 256 mod 256) + 65536 * (z / 65536 mod 256)
          + 16777216 * (z / 16777216 mod 256) = z mod 4294967296) as ->.
  { Z.div_mod_to_equations; lia. }
  by rewrite Z.mod_mod.
Qed.

Lemma zlen_le64 z : zlen (le64 z) = 8.
Proof. reflexivity. Qed.
Hint Rewrite zlen_le64 : zlen.

Lemma stores_view t dt e b fid w len s n bs :
  type_row t dt e -> t = 11 -> cstr (vname w) = Some s -> view_size_of (vname w) = Some (BOk n) ->
  zlen s < VNAME_SIZE -> ld_bytes (vdata w) 0 n = Some bs ->
  zlen b = ALIGNED_SIZE_T sizeof_UBF_view (zlen bs) ->
  stores dt b fid (CView {| vflags := u32 (vflags w); vname := s ++ [0]; vdata := bs |})
    (ALIGNED_SIZE_T sizeof_UBF_view (zlen bs)) (put_ok (p_put_data dt b 0 fid (CView w) len)).
Proof.
  intros Hr -> Hs Hn Hsl Hd Hl. pose proof DA_range as HDA. inversion Hr; try lia. subst.
  pose proof (ld_bytes_len _ _ _ _ Hd) as Hlen. pose proof (view_size_range _ _ Hn) as Hnr.
  pose proof (ALIGNED_SIZE_T_bounds sizeof_UBF_view (zlen bs)
    ltac:(unfold sizeof_UBF_view; lia) ltac:(lia)) as Hsz.
  unfold MAX_PAYLOAD, sizeof_UBF_view, VNAME_SIZE in *. cbn [p_put_data].
  unfold stores, ndrx_put_data_view, st32, strcpy_safe, VNAME_SIZE.
  unfold off_view_vflags, off_view_dlen, off_view_vname, sizeof_UBF_view.
  rewrite Hn, Hs. cbn [mbind option_bind]. pose proof Hs as [Hnn _]%cstr_inv.
  assert (take (Z.to_nat (34 - 1)) s = s) as -> by (apply take_ge; unfold zlen in Hsl; lia).
  st_ok b (0 + 0) (le32 fid) b1 E1. rewrite E1. cbn [mbind option_bind].
  st_ok b1 (0 + 48) (le64 (vflags w)) b2 E2. rewrite E2. cbn [mbind option_bind].
  st_ok b2 (0 + (DA + 36)) (le32 n) b3 E3. rewrite E3. cbn [mbind option_bind].
  st_ok b3 (0 + DA) (s ++ [0]) b4 E4. rewrite E4. cbn [mbind option_bind].
  assert (exists b5, st_bytes b4 (0 + 56) bs = Some b5 /\
    (if 0 <? n then d ← ld_bytes (vdata w) 0 n; m ← st_bytes b4 (0 + 56) d;
                      Some (m, BOk tt) else Some (b4, BOk tt)) = Some (b5, BOk tt)) as (b5 & E5 & ->).
  { st_ok b4 (0 + 56) bs b5 E5. exists b5. split; [done|].
    destruct (Z.ltb_spec 0 n).
    - rewrite Hd. cbn [mbind option_bind]. by rewrite E5.
    - assert (bs = []) as -> by (apply zlen_0_inv; lia).
      destruct (st_bytes_inv _ _ _ _ E5) as (x & y & z & -> & _ & Hy & ->).
      by apply zlen_0_inv in Hy as ->. }
  pose proof (st_bytes_len _ _ _ _ E1). pose proof (st_bytes_len _ _ _ _ E2).
  pose proof (st_bytes_len _ _ _ _ E3). pose proof (st_bytes_len _ _ _ _ E4).
  pose proof (st_bytes_len _ _ _ _ E5).
  assert (ld32 b5 (0 + (DA + 36)) = Some n) as Hd5.
  { apply ld32_le32; [by ld_chain|unfold INT_MIN, INT_MAX; zl]. }
  exists b5. cbn [put_ok]. repeat split; [congruence|..].
  - by ld_chain.
  - cbn [p_get_data]. unfold ndrx_get_data_view, strcpy_safe, VNAME_SIZE,
      off_view_dlen, off_view_vname, off_view_vflags, sizeof_UBF_view.
    rewrite Hd5. cbn [mbind option_bind].
    rewrite (cstr_ld b5 (0 + DA) (zlen (s ++ [0])) s); [|by ld_chain|done].
    cbn [mbind option_bind].
    assert (take (Z.to_nat (34 - 1)) s = s) as -> by (apply take_ge; unfold zlen in Hsl; lia).
    ld_chain. cbn [mbind option_bind]. ld_chain. cbn [mbind option_bind fmap option_fmap option_map].
    by rewrite du32_le64.
  - cbn [p_next]. unfold ndrx_get_fb_view_size, off_view_dlen, sizeof_UBF_view, val_len.
    rewrite Hd5. cbn [mbind option_bind vdata]. congruence.
Qed.


(** Reading identifier and value back makes the block well formed. *)
Lemma stores_wf dt b fid v put :
  fid_ok fid = true -> dtype_of (Bfldtype fid) = Some dt -> wf_val (Bfldtype fid) v ->
  zlen b = blk_size (Bfldtype fid) v ->
  stores dt b fid v (blk_size (Bfldtype fid) v) put ->
  exists b', put = Some b' /\ zlen b' = zlen b /\ blk_fid b' = fid /\ blk_val b' = Some v /\ wf_blk b'.
Proof.
  intros Hf Hdt Hwf Hl (b' & Hp & Hl' & Hi & Hg & Hn). exists b'.
  pose proof (blk_fid_ld _ _ Hi Hf) as Hid. pose proof DA_range.
  pose proof (blk_size_bounds _ _ (fid_ok_usable _ Hf) Hwf) as [? ?].
  assert (blk_val b' = Some v) as Hbv.
  { unfold blk_val, blk_type. rewrite Hid, Hdt. cbn [mbind option_bind]. by rewrite Hg. }
  do 4 (split; [done|]). unfold wf_blk, blk_type. rewrite Hid.
  split; [done|]. split; [lia|]. exists dt, v. repeat split; try done. by rewrite Hl', Hl.
Qed.

Lemma put_data_blk fid dt d len v b :
  fid_ok fid = true -> dtype_of (Bfldtype fid) = Some dt ->
  data_val (Bfldtype fid) d len = Some v -> zlen b = blk_size (Bfldtype fid) v ->
  exists b', p_put_data dt b 0 fid d len = Some (b', BOk tt) /\ zlen b' = zlen b /\
             blk_fid b' = fid /\ blk_val b' = Some v /\ wf_blk b'.
Proof.
  intros Hf Hdt Hv Hl. pose proof (fid_ok_usable _ Hf) as Hu.
  pose proof (data_val_wf _ _ _ _ Hu Hv) as Hwf.
  destruct (usable_row _ Hu) as (dt' & e & Hdt' & _ & Hr).
  assert (dt' = dt) as -> by congruence.
  pose proof (data_val_row _ _ _ _ _ _ Hr Hdt Hv) as Hc.
  enough (stores dt b fid v (blk_size (Bfldtype fid) v) (put_ok (p_put_data dt b 0 fid d len))) as Hst.
  { apply stores_wf in Hst as (b' & Hp & ?); try done. exists b'. split; [|done].
    destruct (p_put_data dt b 0 fid d len) as [[m [[]|]]|]; try done. cbn in Hp. congruence. }
  unfold blk_size, BFLD_STRING, BFLD_CARRAY in Hl |- *. destruct d as [src|w].
  - destruct Hc as [(n & bs & -> & -> & ? & N5 & N6 & ? & ? & Hs & ->)|[[Et Hc]|[[Et Hc]|[Et Hc]]]].
    + rewrite (proj2 (Z.eqb_neq _ _) N5), (proj2 (Z.eqb_neq _ _) N6) in Hl |- *. cbn [orb] in Hl |- *.
      pose proof (ld_bytes_len _ _ _ _ Hs) as Hbs. rewrite Hbs in Hl |- *. by apply stores_dflt.
    + destruct Hc as (s & Hs & ? & ->). rewrite Et in Hl |- *. by apply (stores_string _ _ _ _ _ _ _ _ Hr).
    + destruct Hc as (bs & ? & Hs & ->). rewrite Et in Hl |- *. by apply (stores_carray _ _ _ _ _ _ _ _ Hr).
    + destruct Hc as (bu & bs & ? & ? & ? & Hs & ->). rewrite Et in Hl |- *.
      by apply (stores_ubf _ _ _ _ _ _ _ bu _ Hr).
  - destruct Hc as [Et (s & n & bs & ? & ? & ? & Hs & ->)]. cbn [vdata] in Hl |- *.
    by apply (stores_view _ _ _ _ _ _ _ _ n _ Hr).
Qed.

Lemma zlen_empty_image : zlen empty_ubf_image = sizeof_UBF_header - FF_USED_BYTES.
Proof.
  unfold empty_ubf_image, sizeof_UBF_header, FF_USED_BYTES.
  destruct align_ok as [-> | ->]; reflexivity.
Qed.

Lemma ld32_empty_image : ld32 empty_ubf_image off_bytes_used = Some (zlen empty_ubf_image).
Proof.
  rewrite zlen_empty_image. unfold empty_ubf_image, sizeof_UBF_header, FF_USED_BYTES.
  destruct align_ok as [-> | ->]; reflexivity.
Qed.

Lemma empty_image_range : 56 <= zlen empty_ubf_image <= MAX_PAYLOAD.
Proof.
  rewrite zlen_empty_image. unfold sizeof_UBF_header, FF_USED_BYTES, MAX_PAYLOAD.
  destruct align_ok as [-> | ->]; cbn; lia.
Qed.

Lemma empty_val_wf t : usable_type t = true ->
  exists v, empty_val t = Some v /\ wf_val t v.
Proof.
  intros Hu. pose proof (usable_cases _ Hu) as Hc.
  destruct Hc as [->|[->|[->|[->|[->|[->|[->|[->|[->| ->]]]]]]]]];
    (eexists; split; [reflexivity|]); try reflexivity.
  unfold wf_val. cbn [data_val Z.eqb Pos.eqb BFLD_STRING BFLD_CARRAY BFLD_UBF].
  assert (ld_bytes empty_ubf_image off_magic 4 = Some UBF_MAGIC) as ->.
  { unfold empty_ubf_image, sizeof_UBF_header, FF_USED_BYTES.
    destruct align_ok as [-> | ->]; reflexivity. }
  rewrite ld32_empty_image. cbn [mbind option_bind].
  pose proof empty_image_range. rewrite bool_decide_eq_true_2, !(proj2 (Z.leb_le _ _)) by (done || lia).
  cbn [andb]. by rewrite ld_bytes_all.
Qed.

#[local] Arguments empty_ubf_image : simpl never.

Lemma empty_val_size t e v :
  usable_type t = true -> ext1_of t = Some e -> empty_val t = Some v -> p_empty_sz e = blk_size t v.
Proof.
  intros Hu He Hv. pose proof (usable_cases _ Hu) as Hc.
  destruct Hc as [->|[->|[->|[->|[->|[->|[->|[->|[->| ->]]]]]]]]];
    cbv [ext1_of G_dtype_ext1_map] in He; cbn in He; injection He as <-;
    cbn in Hv; injection Hv as <-; try reflexivity.
  cbn [blk_size p_empty_sz orb Z.eqb Pos.eqb BFLD_STRING BFLD_CARRAY]. unfold ndrx_g_ubf_empty.
  by rewrite zlen_empty_image.
Qed.


Ltac st_lens := repeat match goal with
  | E : st_bytes _ _ _ = Some ?m |- _ =>
      lazymatch goal with _ : zlen m = _ |- _ => fail
      | _ => pose proof (st_bytes_len _ _ _ _ E) end end.

Lemma stores_empty_dflt t n b fid :
  1 <= n <= 8 -> zlen b = ALIGNED_SIZE n ->
  stores (dflt_type t n) b fid (CBytes (replicate (Z.to_nat n) 0)) (ALIGNED_SIZE n)
    (put_empty_dftl n b 0 fid).
Proof.
  intros Hn Hl. pose proof DA_range. pose proof (zlen_replicate n 0 ltac:(lia)) as Hz.
  pose proof (ALIGNED_SIZE_bounds n ltac:(unfold MAX_PAYLOAD; lia)).
  unfold stores, put_empty_dftl, st32. set (zs := replicate (Z.to_nat n) 0) in *. clearbody zs.
  st_ok b (0 + 0) (le32 fid) b1 E1. rewrite E1.
  cbn [mbind option_bind]. rewrite (proj2 (Z.leb_le _ _)) by lia.
  st_ok b1 (0 + DA) zs b2 E2. st_lens.
  exists b2. repeat split; [done|congruence|..].
  - by ld_chain.
  - cbn [p_get_data dflt_type]. unfold get_data_dflt. by ld_chain.
  - cbn [p_next dflt_type]. unfold get_fb_dftl_size, val_len. congruence.
Qed.

Lemma stores_empty_str t dt e b fid :
  type_row t dt e -> t = 5 -> zlen b = ALIGNED_SIZE (4 + 1) ->
  stores dt b fid (CBytes [0]) (ALIGNED_SIZE (4 + 1)) (p_put_empty e b 0 fid).
Proof.
  intros Hr -> Hl. pose proof DA_range. inversion Hr; try lia. subst.
  pose proof (ALIGNED_SIZE_bounds (4 + 1) ltac:(unfold MAX_PAYLOAD; lia)).
  cbn [p_put_empty]. unfold stores, put_empty_str, st32.
  st_ok b (0 + 0) (le32 fid) b1 E1. rewrite E1. cbn [mbind option_bind].
  st_ok b1 (0 + (DA + 4)) [0] b2 E2. rewrite E2. cbn [mbind option_bind].
  st_ok b2 (0 + DA) (le32 1) b3 E3. st_lens.
  assert (ld32 b3 (0 + DA) = Some 1) as Hd by (apply ld32_le32; [by ld_chain|done]).
  exists b3. repeat split; [done|congruence|..].
  - by ld_chain.
  - cbn [p_get_data]. unfold get_data_str. rewrite Hd. cbn [mbind option_bind].
    rewrite (cstr_ld b3 (0 + (DA + 4)) 1 []); [done| |constructor]. by ld_chain.
  - cbn [p_next]. unfold get_fb_string_size. by rewrite Hd.
Qed.

Lemma stores_empty_carr t dt e b fid :
  type_row t dt e -> t = 6 -> zlen b = ALIGNED_SIZE (4 + 0) ->
  stores dt b fid (CBytes []) (ALIGNED_SIZE (4 + 0)) (p_put_empty e b 0 fid).
Proof.
  intros Hr -> Hl. pose proof DA_range. inversion Hr; try lia. subst.
  pose proof (ALIGNED_SIZE_bounds (4 + 0) ltac:(unfold MAX_PAYLOAD; lia)).
  cbn [p_put_empty]. unfold stores, put_empty_carr, st32.
  st_ok b (0 + 0) (le32 fid) b1 E1. rewrite E1. cbn [mbind option_bind].
  st_ok b1 (0 + DA) (le32 0) b2 E2. st_lens.
  assert (ld32 b2 (0 + DA) = Some 0) as Hd by (apply ld32_le32; [by ld_chain|done]).
  exists b2. repeat split; [done|congruence|..].
  - by ld_chain.
  - cbn [p_get_data]. unfold get_data_carr. rewrite Hd. cbn [mbind option_bind].
    destruct (split_at b2 (DA + 4) 0) as (x & y & z & -> & <- & Hy); [lia|lia|lia|].
    apply zlen_0_inv in Hy as ->. rewrite (ld_bytes_at _ x [] z) by done. done.
  - cbn [p_next]. unfold get_fb_carray_size. by rewrite Hd.
Qed.

Lemma stores_empty_view t dt e b fid :
  type_row t dt e -> t = 11 -> zlen b = ALIGNED_SIZE_T sizeof_UBF_view 0 ->
  stores dt b fid (CView {| vflags := 0; vname := [0]; vdata := [] |})
    (ALIGNED_SIZE_T sizeof_UBF_view 0) (p_put_empty e b 0 fid).
Proof.
  intros Hr -> Hl. pose proof DA_range as HDA. inversion Hr; try lia. subst.
  pose proof (ALIGNED_SIZE_T_bounds sizeof_UBF_view 0
    ltac:(unfold sizeof_UBF_view; lia) ltac:(unfold MAX_PAYLOAD; lia)) as Hsz.
  cbn [p_put_empty]. unfold stores, ndrx_put_empty_view, st32, sizeof_UBF_view in *.
  pose proof (zlen_replicate 56 0 ltac:(lia)) as Hz.
  st_ok b (0 + 0) (replicate (Z.to_nat 56) 0) b1 E1. rewrite E1. cbn [mbind option_bind].
  st_ok b1 (0 + 0) (le32 fid) b2 E2. st_lens.
  assert (exists z, b2 = le32 fid ++ replicate (Z.to_nat 52) 0 ++ z) as [z Hb2].
  { apply st_bytes_inv in E1 as (x1 & y1 & z1 & -> & Hx1 & Hy1 & ->).
    symmetry in Hx1. apply zlen_0_inv in Hx1 as ->.
    apply st_bytes_inv in E2 as (x & y & z & Heq & Hx & Hy & ->).
    symmetry in Hx. apply zlen_0_inv in Hx as ->. cbn [app] in *. exists z1. f_equal.
    apply (f_equal (drop 4)) in Heq. rewrite zlen_le32 in Hy.
    assert (length y = 4%nat) as Hly by (unfold zlen in Hy; lia).
    rewrite (drop_app_length' y z 4) in Heq by done. rewrite <- Heq.
    by change (Z.to_nat 56) with (4 + Z.to_nat 52)%nat. }
  assert (forall o n, 4 <= o -> 0 <= n -> o + n <= 56 ->
    ld_bytes b2 o n = Some (replicate (Z.to_nat n) 0)) as Hrep.
  { intros o n ? ? ?. subst b2.
    apply (ld_bytes_at _ (le32 fid ++ replicate (Z.to_nat (o - 4)) 0) _
             (replicate (Z.to_nat (56 - o - n)) 0 ++ z)).
    - rewrite <- app_assoc. f_equal. rewrite !app_assoc. f_equal.
      rewrite <- !replicate_add. f_equal. lia.
    - rewrite zlen_app, zlen_le32, zlen_replicate by lia. lia.
    - by rewrite zlen_replicate. }
  assert (ld32 b2 (0 + (DA + 36)) = Some 0) as Hd.
  { apply ld32_le32; [|done]. rewrite Hrep by lia. done. }
  exists b2. repeat split; [done|congruence|..].
  - by ld_chain.
  - cbn [p_get_data]. unfold ndrx_get_data_view, strcpy_safe, off_view_dlen, off_view_vname,
      off_view_vflags, sizeof_UBF_view. rewrite Hd. cbn [mbind option_bind].
    rewrite (cstr_ld b2 (0 + DA) 1 []); [|by rewrite Hrep by lia|constructor].
    cbn [mbind option_bind]. by rewrite !Hrep by lia.
  - cbn [p_next]. unfold ndrx_get_fb_view_size, off_view_dlen, sizeof_UBF_view. by rewrite Hd.
Qed.

Lemma put_empty_blk fid e v b :
  fid_ok fid = true -> ext1_of (Bfldtype fid) = Some e ->
  empty_val (Bfldtype fid) = Some v -> zlen b = blk_size (Bfldtype fid) v ->
  exists b', p_put_empty e b 0 fid = Some b' /\ zlen b' = zlen b /\
             blk_fid b' = fid /\ blk_val b' = Some v /\ wf_blk b'.
Proof.
  intros Hf He Hv Hl. pose proof (fid_ok_usable _ Hf) as Hu.
  destruct (empty_val_wf _ Hu) as (v' & Hv' & Hwf). assert (v' = v) as -> by congruence. clear Hv'.
  destruct (usable_row _ Hu) as (dt & e' & Hdt & He' & Hr).
  assert (e' = e) as -> by congruence. clear He'.
  apply (stores_wf dt); try done. set (t := Bfldtype fid) in *.
  assert (t = 5 \/ t = 6 \/ t = 10 \/ t = 11 \/ (t <> 5 /\ t <> 6 /\ t <> 10 /\ t <> 11)) as Hc by lia.
  destruct Hc as [Et|[Et|[Et|[Et|(N5 & N6 & N10 & N11)]]]]; rewrite ?Et in *.
  - injection Hv as <-. by apply (stores_empty_str 5).
  - injection Hv as <-. by apply (stores_empty_carr 6).
  - injection Hv as <-. cbn [blk_size] in *.
    apply (stores_image 10 dt e); try done; [apply ld32_empty_image|apply empty_image_range|].
    inversion Hr; done || lia.
  - injection Hv as <-. by apply (stores_empty_view 11).
  - inversion Hr as [n Hn| | | |]; try lia. subst dt e.
    unfold empty_val, BFLD_STRING, BFLD_CARRAY, BFLD_UBF, BFLD_VIEW in Hv.
    rewrite !(proj2 (Z.eqb_neq _ _)) in Hv by done. rewrite Hdt in Hv. cbn in Hv. injection Hv as <-.
    unfold blk_size, BFLD_STRING, BFLD_CARRAY in *.
    rewrite !(proj2 (Z.eqb_neq _ _)), zlen_replicate in Hl |- * by (done || lia).
    by apply stores_empty_dflt.
Qed.


(** ** Blocks inside a buffer *)

Lemma wf_blk_fid_ok b : wf_blk b -> fid_ok (blk_fid b) = true.
Proof. by intros [? _]. Qed.

Lemma wf_blk_row b : wf_blk b -> exists dt e v,
  dtype_of (blk_type b) = Some dt /\ ext1_of (blk_type b) = Some e /\
  type_row (blk_type b) dt e /\ blk_val b = Some v /\ wf_val (blk_type b) v /\
  p_next dt b 0 = Some (zlen b, val_len v).
Proof.
  intros (Hf & _ & dt & v & Hdt & Hv & Hn & Hw).
  destruct (usable_row _ (fid_ok_usable _ Hf)) as (dt' & e & Hdt' & He & Hr).
  unfold blk_type in *. assert (dt' = dt) as -> by congruence. eauto 10.
Qed.

Lemma wf_blk_next a b c : wf_blk b -> exists dt v,
  dtype_of (blk_type b) = Some dt /\ blk_val b = Some v /\
  p_next dt (a ++ b ++ c) (zlen a) = Some (zlen b, val_len v).
Proof.
  intros (dt & e & v & Hdt & _ & Hr & Hv & _ & Hn)%wf_blk_row. exists dt, v.
  split; [done|]. split; [done|]. by eapply p_next_rel.
Qed.

Lemma wf_blk_ld_fid a b c : wf_blk b -> ld32 (a ++ b ++ c) (zlen a) = Some (blk_fid b).
Proof.
  intros (_ & Hl & _). rewrite <- (Z.add_0_r (zlen a)). rewrite ld32_ctx by lia.
  unfold ld32, ld_bytes, blk_fid. cbn [Z.leb Z.compare andb].
  rewrite (proj2 (Z.leb_le _ _)) by lia. done.
Qed.

Lemma wf_blk_next_size b dt v n :
  wf_blk b -> dtype_of (blk_type b) = Some dt -> blk_val b = Some v ->
  p_next dt b 0 = Some n -> n = (zlen b, val_len v).
Proof. intros (dt' & e & v' & Hdt & _ & _ & Hv & _ & Hn)%wf_blk_row ? ? ?. congruence. Qed.

(** The size of a block is a function of type and value. *)
Lemma wf_blk_size b v : wf_blk b -> blk_val b = Some v -> zlen b = blk_size (blk_type b) v.
Proof.
  intros (dt & e & v' & Hdt & _ & Hr & Hv' & Hw & Hn)%wf_blk_row Hv.
  assert (v' = v) as -> by congruence.
  pose proof (data_val_row _ _ _ _ _ _ Hr Hdt Hw) as Hc. unfold blk_val in Hv.
  rewrite Hdt in Hv. cbn [mbind option_bind] in Hv. bind_inv.
  unfold blk_size, BFLD_STRING, BFLD_CARRAY. set (t := blk_type b) in *. clearbody t.
  destruct v as [src|w].
  - destruct Hc as [(n & bs & -> & -> & ? & ? & ? & ? & ? & Hl%ld_bytes_len & [= <-])|[[-> Hc]|[[-> Hc]|[-> Hc]]]].
    + cbn [p_next dflt_type] in Hn. unfold get_fb_dftl_size in Hn. injection Hn as <- _.
      rewrite !(proj2 (Z.eqb_neq t _)) by done. cbn [orb]. congruence.
    + inversion Hr; try lia. subst. cbn [p_next] in Hn. unfold get_fb_string_size in Hn.
      bind_inv. cbn [orb Z.eqb Pos.eqb]. cbn [val_len] in *. congruence.
    + inversion Hr; try lia. subst. cbn [p_next] in Hn. unfold get_fb_carray_size in Hn.
      bind_inv. cbn [orb Z.eqb Pos.eqb]. cbn [val_len] in *. congruence.
    + inversion Hr; try lia. subst. cbn [p_next] in Hn. unfold ndrx_get_fb_ubf_size in Hn.
      bind_inv. cbn [orb Z.eqb Pos.eqb]. cbn [val_len] in *. congruence.
  - destruct Hc as [-> _]. inversion Hr; try lia. subst. cbn [p_next] in Hn.
    unfold ndrx_get_fb_view_size in Hn. bind_inv. cbn [val_len] in *. congruence.
Qed.

Lemma wf_blk_bounds b : wf_blk b -> DA + 1 <= zlen b <= MAX_PAYLOAD + 80.
Proof.
  intros Hb. pose proof Hb as (dt & e & v & Hdt & _ & Hr & Hv & Hw & _)%wf_blk_row.
  rewrite (wf_blk_size b v) by done.
  apply blk_size_bounds; [|done]. apply fid_ok_usable. by destruct Hb.
Qed.

(** Reading a field's value out, with the length check of its type. *)
Lemma wf_blk_get a b c dt v len :
  wf_blk b -> dtype_of (blk_type b) = Some dt -> blk_val b = Some v ->
  match len with Some n => val_len v <= n | None => True end ->
  p_get_data dt (a ++ b ++ c) (zlen a) len = Some (BOk (v, (fun _ => val_len v) <$> len)).
Proof.
  intros Hb Hdt Hv Hlen. pose proof Hb as (dt' & e & v' & Hdt' & _ & Hr & Hv' & Hw & Hn)%wf_blk_row.
  assert (dt' = dt) as -> by congruence. assert (v' = v) as -> by congruence.
  pose proof Hv' as Hg. unfold blk_val in Hg. rewrite Hdt in Hg. cbn [mbind option_bind] in Hg.
  apply bind_Some_inv in Hg as (r & Hg & Hr'). destruct r as [[v1 l]|]; [|done]. injection Hr' as ->.
  apply (p_get_data_rel _ _ _ a b c _ _ Hr). revert Hn Hg.
  destruct Hr; cbn [p_next p_get_data dflt_type];
    unfold get_fb_dftl_size, get_data_dflt, get_fb_string_size, get_data_str,
      get_fb_carray_size, get_data_carr, ndrx_get_fb_ubf_size, ndrx_get_data_ubf,
      ndrx_get_fb_view_size, ndrx_get_data_view; intros Hn Hg; bind_inv;
    repeat rel_step; simplify_eq; try congruence;
    (destruct len as [k|]; cbn [fmap option_fmap option_map]; [|congruence]);
    rewrite (proj2 (Z.ltb_ge k _)), ?andb_false_r by (rewrite ?Hn; lia); repeat rel_step; congruence.
Qed.

(** Storing a value, or an empty element, over a block-sized gap. *)
Lemma put_data_ctx a j c fid dt d len v :
  fid_ok fid = true -> dtype_of (Bfldtype fid) = Some dt ->
  data_val (Bfldtype fid) d len = Some v -> zlen j = blk_size (Bfldtype fid) v ->
  exists b, p_put_data dt (a ++ j ++ c) (zlen a) fid d len = Some (a ++ b ++ c, BOk tt) /\
    zlen b = zlen j /\ blk_fid b = fid /\ blk_val b = Some v /\ wf_blk b.
Proof.
  intros Hf Hdt Hv Hl. destruct (put_data_blk fid dt d len v j) as (b & Hp & Hb); try done.
  exists b. split; [|done].
  destruct (usable_row _ (fid_ok_usable _ Hf)) as (dt' & e & Hdt' & _ & Hr).
  assert (dt' = dt) as -> by congruence. by eapply p_put_data_rel.
Qed.

Lemma put_empty_ctx a j c fid e v :
  fid_ok fid = true -> ext1_of (Bfldtype fid) = Some e ->
  empty_val (Bfldtype fid) = Some v -> zlen j = blk_size (Bfldtype fid) v ->
  exists b, p_put_empty e (a ++ j ++ c) (zlen a) fid = Some (a ++ b ++ c) /\
    zlen b = zlen j /\ blk_fid b = fid /\ blk_val b = Some v /\ wf_blk b.
Proof.
  intros Hf He Hv Hl. destruct (put_empty_blk fid e v j) as (b & Hp & Hb); try done.
  exists b. split; [|done].
  destruct (usable_row _ (fid_ok_usable _ Hf)) as (dt & e' & _ & He' & Hr).
  assert (e' = e) as -> by congruence. by eapply p_put_empty_rel.
Qed.


(** A caller's buffer that is too small gets [BNOSPACE]. *)
Lemma wf_blk_get_nospace a b c dt v n :
  wf_blk b -> dtype_of (blk_type b) = Some dt -> blk_val b = Some v -> 0 < n < val_len v ->
  p_get_data dt (a ++ b ++ c) (zlen a) (Some n) = Some (BFail (Some BNOSPACE)).
Proof.
  intros Hb Hdt Hv Hlen. pose proof Hb as (dt' & e & v' & Hdt' & _ & Hr & Hv' & Hw & Hn)%wf_blk_row.
  assert (dt' = dt) as -> by congruence. assert (v' = v) as -> by congruence. clear Hv Hdt Hv' Hdt'.
  apply (p_get_data_rel _ _ _ a b c _ _ Hr). revert Hn.
  destruct Hr; cbn [p_next p_get_data dflt_type];
    unfold get_fb_dftl_size, get_data_dflt, get_fb_string_size, get_data_str,
      get_fb_carray_size, get_data_carr, ndrx_get_fb_ubf_size, ndrx_get_data_ubf,
      ndrx_get_fb_view_size, ndrx_get_data_view; intros Hn; bind_inv;
    repeat rel_step;
    rewrite ?(proj2 (Z.ltb_lt n _)), ?(proj2 (Z.ltb_lt 0 n)) by lia; done.
Qed.

(** The length check as a whole: the types that carry their own length take a
    length of zero or less as "no limit". *)
Definition get_fits (t : Z) (v : cbuf) (len : option Z) : bool :=
  match len with
  | None => true
  | Some n => (val_len v <=? n) ||
              ((n <=? 0) && ((t =? BFLD_CARRAY) || (t =? BFLD_UBF) || (t =? BFLD_VIEW)))
  end.

Lemma wf_blk_get_fits a b c dt v len :
  wf_blk b -> dtype_of (blk_type b) = Some dt -> blk_val b = Some v ->
  p_get_data dt (a ++ b ++ c) (zlen a) len =
  Some (if get_fits (blk_type b) v len then BOk (v, (fun _ => val_len v) <$> len)
        else BFail (Some BNOSPACE)).
Proof.
  intros Hb Hdt Hv. destruct len as [n|]; [|by apply wf_blk_get]. cbn [get_fits].
  destruct (Z.leb_spec (val_len v) n) as [Hle|Hgt]; cbn [orb]; [by apply wf_blk_get|].
  destruct (Z.leb_spec n 0) as [Hn|Hn]; cbn [andb]; [|by apply (wf_blk_get_nospace _ _ _ _ v)].
  pose proof (wf_blk_get [] b [] dt v None Hb Hdt Hv I) as Hg. cbn [app zlen length] in Hg.
  rewrite app_nil_r in Hg. change (zlen []) with 0 in Hg.
  pose proof Hb as (dt' & e & v' & Hdt' & _ & Hr & Hv' & Hw & Hnx)%wf_blk_row.
  assert (dt' = dt) as -> by congruence. assert (v' = v) as -> by congruence. clear Hv' Hdt' Hdt Hv.
  apply (p_get_data_rel _ _ _ a b c _ _ Hr). revert Hg Hnx. unfold BFLD_CARRAY, BFLD_UBF, BFLD_VIEW.
  destruct Hr as [k ? ? ? ? ?|Ht|Ht|Ht|Ht]; rewrite ?Ht;
    rewrite ?(proj2 (Z.eqb_neq (blk_type b) _)) by done;
    cbn [Z.eqb Pos.eqb orb p_next p_get_data dflt_type];
    unfold get_fb_dftl_size, get_data_dflt, get_fb_string_size, get_data_str,
      get_fb_carray_size, get_data_carr, ndrx_get_fb_ubf_size, ndrx_get_data_ubf,
      ndrx_get_fb_view_size, ndrx_get_data_view; intros Hg Hnx; bind_inv; repeat rel_step;
    simplify_eq; rewrite ?(proj2 (Z.ltb_lt n _)), ?(proj2 (Z.ltb_ge 0 n)) by lia; cbn [andb];
    repeat rel_step; congruence.
Qed.

Lemma ld_bytes_drop_at m o i n bs :
  0 <= o -> 0 <= i -> ld_bytes m (o + i) n = Some bs -> ld_bytes (drop (Z.to_nat o) m) i n = Some bs.
Proof.
  intros ? ? (x & z & -> & Hx & ->)%ld_bytes_inv.
  destruct (split_at x o i) as (p & q & r & -> & <- & <-); [lia|lia|lia|].
  assert (r = []) as -> by (apply zlen_0_inv; zl). rewrite app_nil_r, <- app_assoc, drop_zlen.
  by apply (ld_bytes_at _ q bs z).
Qed.

Lemma ld32_drop_at m o i v :
  0 <= o -> 0 <= i -> ld32 m (o + i) = Some v -> ld32 (drop (Z.to_nat o) m) i = Some v.
Proof.
  unfold ld32. intros ? ? Hl. bind_inv. erewrite ld_bytes_drop_at by eassumption. by cbn; subst.
Qed.

Lemma blk_val_get b dt v :
  dtype_of (blk_type b) = Some dt -> blk_val b = Some v -> exists l, p_get_data dt b 0 None = Some (BOk (v, l)).
Proof.
  unfold blk_val. intros ->. cbn [mbind option_bind].
  intros (r & -> & Hv)%bind_Some_inv. destruct r as [[v' l]|]; [|done]. injection Hv as ->. by exists l.
Qed.

(** Plain types: the pointer is to the payload bytes. *)
Lemma field_ptr_bytes a b c o bs :
  0 <= o -> ld_bytes b (0 + o) (zlen bs) = Some bs ->
  (if zlen a + o <=? zlen (a ++ b ++ c)
   then Some (CBytes (drop (Z.to_nat (zlen a + o)) (a ++ b ++ c))) else None)
  = Some (CBytes (drop (Z.to_nat (zlen a + o)) (a ++ b ++ c))) /\
  ld_bytes (drop (Z.to_nat (zlen a + o)) (a ++ b ++ c)) 0 (zlen bs) = Some bs.
Proof.
  intros Ho Hl. pose proof (zlen_nonneg a). apply (ld_bytes_rel a b c) in Hl.
  pose proof (ld_bytes_bound _ _ _ _ Hl) as (? & ? & ?).
  rewrite (proj2 (Z.leb_le _ _)) by lia. split; [done|].
  apply ld_bytes_drop_at; [lia|lia|]. by rewrite Z.add_0_r.
Qed.

(** What [Bnext] and [Bfind] point the caller at is the field's value. *)
Definition ptr_law (t : Z) (e : dtype_ext1) (a b c : list Z) (v : cbuf) : Prop :=
  exists d, (match p_prep_ubfp e with
            | Some prep => prep (a ++ b ++ c) (zlen a)
            | None => if zlen a + hdr_size e <=? zlen (a ++ b ++ c)
                      then Some (CBytes (drop (Z.to_nat (zlen a + hdr_size e)) (a ++ b ++ c)))
                      else None
            end) = Some d /\ data_val t d (val_len v) = Some v.

Lemma ptr_law_plain t n a b c bs :
  1 <= n <= 8 -> t <> 5 -> t <> 6 -> t <> 10 -> t <> 11 ->
  dtype_of t = Some (dflt_type t n) -> zlen bs = n ->
  ld_bytes b (0 + DA) n = Some bs -> ptr_law t (dflt_ext1 n) a b c (CBytes bs).
Proof.
  intros ? ? ? ? ? Hdt <- Hl. pose proof DA_range.
  destruct (field_ptr_bytes a b c DA bs) as [E1 E2]; [lia|done|].
  unfold ptr_law. cbn [p_prep_ubfp hdr_size dflt_ext1]. eexists. split; [exact E1|].
  unfold data_val, BFLD_STRING, BFLD_CARRAY, BFLD_UBF, BFLD_VIEW.
  rewrite !(proj2 (Z.eqb_neq t _)) by done. rewrite Hdt. cbn [mbind option_bind size dflt_type].
  by rewrite E2.
Qed.

Lemma ptr_law_string e a b c s :
  hdr_size e = DA + 4 -> p_prep_ubfp e = None -> zlen s < MAX_PAYLOAD ->
  cstr (drop (Z.to_nat (0 + (DA + 4))) b) = Some s -> ptr_law 5 e a b c (CBytes (s ++ [0])).
Proof.
  intros Hh Hp Hm Hs. pose proof DA_range. pose proof (zlen_nonneg a).
  unfold ptr_law. rewrite Hp, Hh.
  assert (zlen a + (DA + 4) <= zlen (a ++ b ++ c)).
  { apply cstr_inv in Hs as [_ [k Hk]]. apply (f_equal zlen) in Hk.
    destruct (decide (DA + 4 <= zlen b)); [zl|].
    rewrite drop_ge in Hk by (unfold zlen in *; lia). revert Hk. zl. }
  rewrite (proj2 (Z.leb_le _ _)) by done. eexists. split; [done|].
  cbn [data_val BFLD_STRING Z.eqb Pos.eqb]. erewrite cstr_rel by (done || lia).
  cbn [mbind option_bind]. by rewrite (proj2 (Z.ltb_lt _ _)).
Qed.

Lemma ptr_law_carray e a b c bs :
  hdr_size e = DA + 4 -> p_prep_ubfp e = None -> zlen bs <= MAX_PAYLOAD ->
  ld_bytes b (0 + (DA + 4)) (zlen bs) = Some bs -> ptr_law 6 e a b c (CBytes bs).
Proof.
  intros Hh Hp Hm Hl. pose proof DA_range.
  destruct (field_ptr_bytes a b c (DA + 4) bs) as [E1 E2]; [lia|done|].
  unfold ptr_law. rewrite Hp, Hh. eexists. split; [exact E1|].
  cbn [data_val BFLD_STRING BFLD_CARRAY Z.eqb Pos.eqb val_len].
  rewrite (proj2 (Z.leb_le _ _)) by done. by rewrite E2.
Qed.

Lemma ptr_law_ubf e a b c bs :
  hdr_size e = DA -> p_prep_ubfp e = None -> wf_val 10 (CBytes bs) ->
  ld_bytes b (0 + DA) (zlen bs) = Some bs -> ptr_law 10 e a b c (CBytes bs).
Proof.
  intros Hh Hp Hw Hl. pose proof DA_range. unfold wf_val in Hw.
  destruct (field_ptr_bytes a b c DA bs) as [E1 E2]; [lia|done|].
  unfold ptr_law. rewrite Hp, Hh. eexists. split; [exact E1|].
  apply ld_bytes_inv in E2 as (x & y & Hx & H0x & _). symmetry in H0x. apply zlen_0_inv in H0x as ->.
  rewrite Hx. cbn [app]. clear Hx E1.
  cbn [data_val BFLD_STRING BFLD_CARRAY BFLD_UBF Z.eqb Pos.eqb] in Hw |- *. bind_inv.
  erewrite ld_bytes_prefix by eassumption. unfold ld32 in *. bind_inv.
  cbn [mbind option_bind]. erewrite ld_bytes_prefix by eassumption. cbn [mbind option_bind].
  subst. rewrite Heqb0. apply fmap_Some in Hw as (bs' & Hb & [= <-]).
  by erewrite ld_bytes_prefix by eassumption.
Qed.

Lemma ptr_law_view e a b c w n :
  p_prep_ubfp e = Some ndrx_prep_viewp -> wf_val 11 (CView w) ->
  ndrx_get_data_view b 0 None = Some (BOk (CView w, n)) -> ptr_law 11 e a b c (CView w).
Proof.
  intros Hp Hw Hg. pose proof DA_range. unfold ptr_law. rewrite Hp.
  unfold ndrx_get_data_view in Hg. bind_inv. subst w. unfold ndrx_prep_viewp.
  repeat rel_step. eexists. split; [done|].
  unfold wf_val in Hw. cbn [data_val vname vdata vflags BFLD_VIEW Z.eqb Pos.eqb] in *. bind_inv.
  destruct x4 as [k|]; [|done]. bind_inv. rewrite E3. cbn [mbind option_bind]. rewrite E4. cbn [mbind option_bind].
  rewrite Heqb0. pose proof (ld_bytes_len _ _ _ _ E2). pose proof (ld_bytes_len _ _ _ _ E5).
  assert (x4 = x2) as -> by congruence.
  assert (k = x) as -> by congruence.
  rewrite (ld_bytes_drop_at _ _ 0 x x2);
    [cbn [mbind option_bind]; congruence|unfold sizeof_UBF_view; zl|lia|].
  rewrite Z.add_0_r. by apply ld_bytes_rel.
Qed.

Lemma wf_blk_ptr a b c v :
  wf_blk b -> blk_val b = Some v -> exists d,
  field_ptr (blk_type b) (a ++ b ++ c) (zlen a) = Some d /\
  data_val (blk_type b) d (val_len v) = Some v.
Proof.
  intros Hb Hv. pose proof Hb as (dt & e & v' & Hdt & He & Hr & Hv' & Hw & _)%wf_blk_row.
  assert (v' = v) as -> by congruence. clear Hv'.
  destruct (blk_val_get _ _ _ Hdt Hv) as [l Hg].
  pose proof (data_val_row _ _ _ _ _ _ Hr Hdt Hw) as Hc.
  unfold field_ptr. rewrite He. cbn [mbind option_bind].
  set (t := blk_type b) in *. clearbody t. fold (ptr_law t e a b c v). destruct v as [src|w].
  - destruct Hc as [(n & bs & -> & -> & ? & ? & ? & ? & ? & Hl%ld_bytes_len & [= <-])|[[-> Hc]|[[-> Hc]|[-> Hc]]]].
    + cbn [p_get_data dflt_type] in Hg. unfold get_data_dflt in Hg. bind_inv. subst.
      by apply ptr_law_plain.
    + destruct Hc as (s & _ & ? & [= ->]). inversion Hr; try lia. subst.
      cbn [p_get_data] in Hg. unfold get_data_str in Hg. bind_inv.
      apply app_inv_tail in Hg as ->. by apply ptr_law_string.
    + destruct Hc as (bs & ? & Hl%ld_bytes_len & [= <-]). inversion Hr; try lia. subst.
      cbn [p_get_data] in Hg. unfold get_data_carr in Hg. bind_inv. subst.
      apply ptr_law_carray; try done. by rewrite (ld_bytes_len _ _ _ _ E0).
    + inversion Hr; try lia. subst.
      cbn [p_get_data] in Hg. unfold ndrx_get_data_ubf in Hg. bind_inv. subst.
      apply ptr_law_ubf; try done. by rewrite (ld_bytes_len _ _ _ _ E0).
  - destruct Hc as [-> _]. inversion Hr; try lia. subst. by eapply ptr_law_view.
Qed.

End Laws.

(** ** Field identifiers round trip *)

Lemma Bmkfldid_eq t n : 0 <= t <= BFLD_MAX -> 0 <= n <= EFFECTIVE_BITS_MASK ->
  Bmkfldid t n = t * 33554432 + n.
Proof.
  unfold Bmkfldid, BFLD_MAX, EFFECTIVE_BITS_MASK, EFFECTIVE_BITS. intros.
  rewrite Z.shiftl_mul_pow2 by lia. change (2 ^ 25) with 33554432.
  rewrite i32_id by (unfold INT_MIN, INT_MAX; lia).
  assert (Z.land (t * 33554432) n = 0) as Hl.
  { apply Z.bits_inj'. intros i Hi. rewrite Z.land_spec, Z.bits_0.
    change 33554432 with (2 ^ 25). destruct (Z.ltb_spec i 25).
    - by rewrite Z.mul_pow2_bits_low.
    - rewrite (Z.bits_above_log2 n); [by rewrite andb_false_r|lia|].
      destruct (Z.eq_dec n 0) as [->|]; [cbn; lia|].
      apply Z.log2_lt_pow2; [lia|]. apply Z.lt_le_trans with (2 ^ 25); [lia|].
      by apply Z.pow_le_mono_r. }
  rewrite <- Z.lxor_lor by done. by rewrite <- Z.add_nocarry_lxor.
Qed.

(** The type and the number packed into a field identifier by [Bmkfldid]
    are read back by [Bfldtype] and [Bfldno], for every type of the table and
    every number that fits the 25 effective bits. *)
Theorem Bmkfldid_roundtrip t n :
  IS_TYPE_INVALID t = false -> 0 <= n <= EFFECTIVE_BITS_MASK ->
  Bfldtype (Bmkfldid t n) = t /\ Bfldno (Bmkfldid t n) = n.
Proof.
  unfold IS_TYPE_INVALID, BFLD_MIN. intros Ht Hn. apply orb_false_elim in Ht as [?%Z.ltb_ge ?%Z.ltb_ge].
  rewrite Bmkfldid_eq by lia. unfold Bfldtype, Bfldno, EFFECTIVE_BITS.
  unfold EFFECTIVE_BITS_MASK in *. split.
  - rewrite Z.shiftr_div_pow2 by lia. change (2 ^ 25) with 33554432.
    rewrite Z.div_add_l, Z.div_small by lia. lia.
  - change 33554431 with (Z.ones 25). rewrite Z.land_ones by lia. change (2 ^ 25) with 33554432.
    rewrite Z.add_comm, Z_mod_plus_full. apply Z.mod_small. lia.
Qed.

Lemma Bmkfldid_roundtrip_witness :
  IS_TYPE_INVALID BFLD_STRING = false /\
  Bfldtype (Bmkfldid BFLD_STRING 1001) = BFLD_STRING /\ Bfldno (Bmkfldid BFLD_STRING 1001) = 1001.
Proof.
  split; [reflexivity|]. apply Bmkfldid_roundtrip; [reflexivity|].
  unfold EFFECTIVE_BITS_MASK. lia.
Defined.

(** A concrete platform: 4-byte alignment and one view of 16 bytes, "V". *)
Definition plat4 : Platform.
Proof.
  refine {| EX_ALIGNMENT_BYTES := 4; align_ok := or_introl eq_refl;
            view_ssize := fun v => if bool_decide (v = [86]) then Some 16 else None |}.
  intros v s. destruct (bool_decide (v = [86])); [|done]. intros [= <-]. lia.
Defined.
