(* ===== verification/UbfBuffer.v ===== *)
(** * UBF buffers

    The buffer of [libubf/ubf_impl.c]: the header ([include/ubf_int.h]), the
    type offset cache and its maintenance, the argument checks shared by the
    API, and the representation of a list of fields by the bytes of a buffer.
    Positions in the data area are offsets from [&hdr->bfldid]. *)

From S2P Require Import Prelude UbfTypes.

(** ** Lists ordered by a key

    The abstract counterpart of a buffer: entries ordered by field id, the
    entries of one id in order of their occurrence number. *)

Section Keyed.
Context {X : Type} (key : X -> Z).

Definition ksorted (l : list X) : Prop := StronglySorted (fun x y => key x <= key y) l.

(** Insertion behind the entries of smaller or equal key. *)
Fixpoint kins (x : X) (l : list X) : list X :=
  match l with
  | [] => [x]
  | y :: l' => if key y <=? key x then y :: kins x l' else x :: l
  end.

Definition koccs (k : Z) (l : list X) : list X := filter (fun x => key x = k) l.

(** Remove, or change, occurrence [n] of key [k]. *)
Fixpoint kdel (k : Z) (n : nat) (l : list X) : list X :=
  match l with
  | [] => []
  | y :: l' => if key y =? k
               then match n with O => l' | S n' => y :: kdel k n' l' end
               else y :: kdel k n l'
  end.

Fixpoint kset (k : Z) (n : nat) (x : X) (l : list X) : list X :=
  match l with
  | [] => []
  | y :: l' => if key y =? k
               then match n with O => x :: l' | S n' => y :: kset k n' x l' end
               else y :: kset k n x l'
  end.

Definition klt (k : Z) : list X -> Prop := Forall (fun x => key x < k).
Definition keq (k : Z) : list X -> Prop := Forall (fun x => key x = k).
Definition kgt (k : Z) : list X -> Prop := Forall (fun x => k < key x).

Lemma ksorted_split k l : ksorted l ->
  exists A B C, l = A ++ B ++ C /\ klt k A /\ keq k B /\ kgt k C.
Proof.
  induction 1 as [|x l Hl IH Hx].
  - exists [], [], []. repeat split; constructor.
  - destruct IH as (A & B & C & -> & HA & HB & HC).
    destruct (Z.lt_total (key x) k) as [Hk|[Hk|Hk]].
    + exists (x :: A), B, C. repeat split; try done. by constructor.
    + assert (A = []) as ->.
      { destruct A as [|a A]; [done|]. inversion HA; subst. apply Forall_inv in Hx. lia. }
      exists [], (x :: B), C. repeat split; try done. by constructor.
    + assert (A = []) as ->.
      { destruct A as [|a A]; [done|]. inversion HA; subst. apply Forall_inv in Hx. lia. }
      assert (B = []) as ->.
      { destruct B as [|a B]; [done|]. inversion HB; subst. apply Forall_inv in Hx. lia. }
      exists [], [], (x :: C). repeat split; try done. by constructor.
Qed.

Lemma kins_split x A B C :
  klt (key x) A -> keq (key x) B -> kgt (key x) C -> kins x (A ++ B ++ C) = A ++ B ++ [x] ++ C.
Proof.
  intros HA HB HC. induction HA as [|y A Hy _ IH]; cbn [app kins].
  - induction HB as [|y B Hy _ IH]; cbn [app kins].
    + destruct HC as [|y C Hy]; [done|]. cbn [kins].
      by rewrite (proj2 (Z.leb_gt _ _)).
    + rewrite (proj2 (Z.leb_le _ _)) by lia. by rewrite IH.
  - rewrite (proj2 (Z.leb_le _ _)) by lia. by rewrite IH.
Qed.

Lemma koccs_split k A B C : klt k A -> keq k B -> kgt k C -> koccs k (A ++ B ++ C) = B.
Proof.
  intros HA HB HC. unfold koccs. rewrite !filter_app.
  assert (forall l, Forall (fun x => key x <> k) l -> filter (fun x => key x = k) l = []) as Hn.
  { induction 1 as [|y l Hy _ IH]; [done|]. by rewrite filter_cons_False. }
  rewrite (Hn A), (Hn C), app_nil_r; cbn [app].
  - clear HA HC. induction HB as [|y B Hy _ IH]; [done|]. by rewrite filter_cons_True, IH.
  - eapply Forall_impl; [exact HC|]. cbn. lia.
  - eapply Forall_impl; [exact HA|]. cbn. lia.
Qed.

Lemma klt_split k A B C : klt k A -> keq k B -> kgt k C ->
  filter (fun x => key x < k) (A ++ B ++ C) = A.
Proof.
  intros HA HB HC. rewrite !filter_app.
  assert (forall l, Forall (fun x => k <= key x) l -> filter (fun x => key x < k) l = []) as Hn.
  { induction 1 as [|y l Hy _ IH]; [done|]. by rewrite filter_cons_False by lia. }
  rewrite (Hn B), (Hn C), !app_nil_r.
  - clear HB HC. induction HA as [|y A Hy _ IH]; [done|]. by rewrite filter_cons_True, IH.
  - eapply Forall_impl; [exact HC|]. cbn. lia.
  - eapply Forall_impl; [exact HB|]. cbn. lia.
Qed.

Lemma ksplit_unique k A B C A' B' C' :
  A ++ B ++ C = A' ++ B' ++ C' -> klt k A -> keq k B -> kgt k C ->
  klt k A' -> keq k B' -> kgt k C' -> A = A' /\ B = B' /\ C = C'.
Proof.
  intros He HA HB HC HA' HB' HC'.
  assert (A = A') as -> by (rewrite <- (klt_split k A B C), <- (klt_split k A' B' C') by done; congruence).
  assert (B = B') as -> by (rewrite <- (koccs_split k A' B C), <- (koccs_split k A' B' C') by done; congruence).
  by apply app_inv_head, app_inv_head in He.
Qed.

Lemma kdel_split k n A B1 x B2 C :
  klt k A -> keq k (B1 ++ x :: B2) -> n = length B1 ->
  kdel k n (A ++ (B1 ++ x :: B2) ++ C) = A ++ (B1 ++ B2) ++ C.
Proof.
  intros HA [HB1 HB2]%Forall_app ->. induction HA as [|y A Hy _ IH]; cbn [app kdel].
  - induction HB1 as [|y B Hy _ IH]; cbn [app kdel length].
    + rewrite (proj2 (Z.eqb_eq _ _)); [done|]. by inversion HB2.
    + rewrite (proj2 (Z.eqb_eq _ _)) by done. by rewrite IH.
  - rewrite (proj2 (Z.eqb_neq _ _)) by lia. by rewrite IH.
Qed.

Lemma kset_split k n z A B1 x B2 C :
  klt k A -> keq k (B1 ++ x :: B2) -> n = length B1 ->
  kset k n z (A ++ (B1 ++ x :: B2) ++ C) = A ++ (B1 ++ z :: B2) ++ C.
Proof.
  intros HA [HB1 HB2]%Forall_app ->. induction HA as [|y A Hy _ IH]; cbn [app kset].
  - induction HB1 as [|y B Hy _ IH]; cbn [app kset length].
    + rewrite (proj2 (Z.eqb_eq _ _)); [done|]. by inversion HB2.
    + rewrite (proj2 (Z.eqb_eq _ _)) by done. by rewrite IH.
  - rewrite (proj2 (Z.eqb_neq _ _)) by lia. by rewrite IH.
Qed.

(** Any list between the smaller and the greater entries keeps the order. *)
Lemma ksorted_app l1 l2 :
  ksorted (l1 ++ l2) <->
  ksorted l1 /\ ksorted l2 /\ Forall (fun x => Forall (fun y => key x <= key y) l2) l1.
Proof.
  unfold ksorted. induction l1 as [|x l1 IH]; cbn [app].
  - split; [|by intros (_ & ? & _)]. intros. repeat split; try done; constructor.
  - split.
    + intros [Hl Hx]%StronglySorted_inv. apply IH in Hl as (? & ? & ?).
      apply Forall_app in Hx as [? ?]. split; [by constructor|]. split; [done|]. by constructor.
    + intros ([? ?]%StronglySorted_inv & ? & HF). inversion HF; subst. constructor.
      * by apply IH.
      * by apply Forall_app.
Qed.

Lemma keq_sorted k B : keq k B -> ksorted B.
Proof.
  unfold ksorted. induction 1 as [|x B Hx HB IH]; constructor; [done|].
  eapply Forall_impl; [exact HB|]. cbn. lia.
Qed.

Lemma ksorted_mid k A B B' C :
  ksorted (A ++ B ++ C) -> klt k A -> kgt k C -> keq k B' -> ksorted (A ++ B' ++ C).
Proof.
  intros (HA & (_ & HC & _)%ksorted_app & _)%ksorted_app HlA HgC HB.
  apply ksorted_app. split; [done|]. split.
  - apply ksorted_app. split; [by eapply keq_sorted|]. split; [done|].
    eapply Forall_impl; [exact HB|]. cbn. intros x <-.
    eapply Forall_impl; [exact HgC|]. cbn. lia.
  - eapply Forall_impl; [exact HlA|]. cbn. intros x Hx. apply Forall_app. split.
    + eapply Forall_impl; [exact HB|]. cbn. lia.
    + eapply Forall_impl; [exact HgC|]. cbn. lia.
Qed.

Lemma ksorted_kins x l : ksorted l -> ksorted (kins x l).
Proof.
  intros Hs. destruct (ksorted_split (key x) l Hs) as (A & B & C & -> & HA & HB & HC).
  rewrite kins_split by done. rewrite (app_assoc B). eapply ksorted_mid; try done.
  apply Forall_app. split; [done|]. by repeat constructor.
Qed.

End Keyed.

Arguments ksorted {X} key l.
Arguments klt {X} key k _.
Arguments keq {X} key k _.
Arguments kgt {X} key k _.

(** ** Header and buffer *)

Record UBF_cache := {
  cache_long_off : Z; cache_char_off : Z; cache_float_off : Z; cache_double_off : Z;
  cache_string_off : Z; cache_carray_off : Z; cache_ptr_off : Z; cache_ubf_off : Z;
  cache_view_off : Z
}.

Record UBFH := {
  buffer_type : Z;
  version : Z;
  magic : list Z;
  cache : UBF_cache;
  buf_len : Z;
  opts : Z;
  bytes_used : Z;
  mem : list Z  (* the bytes from [bfldid] to the end of the buffer *)
}.

Definition set_mem (u : UBFH) (m : list Z) : UBFH :=
  {| buffer_type := buffer_type u; version := version u; magic := magic u; cache := cache u;
     buf_len := buf_len u; opts := opts u; bytes_used := bytes_used u; mem := m |}.
Definition set_used (u : UBFH) (n : Z) : UBFH :=
  {| buffer_type := buffer_type u; version := version u; magic := magic u; cache := cache u;
     buf_len := buf_len u; opts := opts u; bytes_used := n; mem := mem u |}.
Definition set_cache (u : UBFH) (c : UBF_cache) : UBFH :=
  {| buffer_type := buffer_type u; version := version u; magic := magic u; cache := c;
     buf_len := buf_len u; opts := opts u; bytes_used := bytes_used u; mem := mem u |}.

(** The cache slot of a type: the offset of the first field of that type.
    Shorts start at 0; [BFLD_INT] and [BFLD_RFU0] have no slot. *)
Definition M_ubf_type_cache (c : UBF_cache) (type : Z) : option Z :=
  match type with
  | 0 => Some 0
  | 1 => Some (cache_long_off c) | 2 => Some (cache_char_off c)
  | 3 => Some (cache_float_off c) | 4 => Some (cache_double_off c)
  | 5 => Some (cache_string_off c) | 6 => Some (cache_carray_off c)
  | 9 => Some (cache_ptr_off c) | 10 => Some (cache_ubf_off c)
  | 11 => Some (cache_view_off c)
  | _ => None
  end.

(** The [switch] without [break]s: entered at the label of [type], it runs
    the assignments of every label from there on. *)
Definition switch_labels : list Z :=
  [BFLD_SHORT; BFLD_LONG; BFLD_CHAR; BFLD_FLOAT; BFLD_DOUBLE; BFLD_STRING; BFLD_CARRAY;
   BFLD_PTR; BFLD_UBF].

Definition falls_to (type label : Z) : bool :=
  existsb (Z.eqb type) switch_labels && (type <=? label).

Definition ubf_cache_map (c : UBF_cache) (type : Z) (f : Z -> Z) : UBF_cache :=
  let upd label v := if falls_to type label then f v else v in
  {| cache_long_off := upd BFLD_SHORT (cache_long_off c);
     cache_char_off := upd BFLD_LONG (cache_char_off c);
     cache_float_off := upd BFLD_CHAR (cache_float_off c);
     cache_double_off := upd BFLD_FLOAT (cache_double_off c);
     cache_string_off := upd BFLD_DOUBLE (cache_string_off c);
     cache_carray_off := upd BFLD_STRING (cache_carray_off c);
     cache_ptr_off := upd BFLD_CARRAY (cache_ptr_off c);
     cache_ubf_off := upd BFLD_PTR (cache_ubf_off c);
     cache_view_off := upd BFLD_UBF (cache_view_off c) |}.

Definition ubf_cache_set (u : UBFH) (fldid next_offset : Z) : UBFH :=
  set_cache u (ubf_cache_map (cache u) (Bfldtype fldid) (fun _ => next_offset)).

Definition ubf_cache_shift (u : UBFH) (fldid size_diff : Z) : UBFH :=
  set_cache u (ubf_cache_map (cache u) (Bfldtype fldid) (fun v => i32 (v + size_diff))).

Definition empty_cache : UBF_cache :=
  {| cache_long_off := 0; cache_char_off := 0; cache_float_off := 0; cache_double_off := 0;
     cache_string_off := 0; cache_carray_off := 0; cache_ptr_off := 0; cache_ubf_off := 0;
     cache_view_off := 0 |}.

Section Buffer.
Context `{Platform}.

(** Offset of [&hdr->bfldid] in the header. *)
Definition DATA_OFF : Z := sizeof_UBF_header - FF_USED_BYTES.

Definition UBF_EOF (u : UBFH) (p : Z) : bool := bytes_used u <=? DATA_OFF + p.
Definition CHECK_ALIGN (u : UBFH) (p : Z) : bool := bytes_used u <? DATA_OFF + p.
Definition UBF_BINARY_SEARCH_OK (bfldid : Z) : bool :=
  (Bfldtype bfldid <? BFLD_STRING) || (Bfldtype bfldid =? BFLD_PTR).

(** ** [Binit]: [raw] is the memory the caller hands over *)

Definition Binit (p_ub : option (list Z)) (len : Z) : option (bres UBFH) :=
  match p_ub with
  | None => Some (BFail (Some BNOTFLD))
  | Some raw =>
      if u64 len <? sizeof_UBF_header then Some (BFail (Some BNOSPACE))
      else if zlen raw <? sizeof_UBF_header then None
      else Some (BOk
        {| buffer_type := 0; version := UBF_VERSION; magic := UBF_MAGIC;
           cache := empty_cache; buf_len := len; opts := 0;
           bytes_used := sizeof_UBF_header - FF_USED_BYTES;
           mem := replicate (Z.to_nat FF_USED_BYTES) 0
                  ++ drop (Z.to_nat sizeof_UBF_header) raw |})
  end.

(** ** Checks *)

Definition have_buffer_size (u : UBFH) (add_size : Z) : bool :=
  negb (i32 (buf_len u - bytes_used u) <? add_size).

Definition VALIDATE_MODE_NO_FLD : Z := 1.

(** [p_ub] as the caller passes it: [None] is the null pointer. *)
Definition validate_entry (p_ub : option UBFH) (bfldid occ mode : Z) : bres UBFH :=
  match p_ub with
  | None => BFail (Some BNOTFLD)
  | Some u =>
      let fld := negb (Z.testbit mode 0) in
      if negb (bool_decide (magic u = UBF_MAGIC)) then BFail (Some BNOTFLD)
      else if fld && (bfldid =? BBADFLDID) then BFail (Some BBADFLD)
      else if fld && IS_TYPE_INVALID (Bfldtype bfldid) then BFail (Some BBADFLD)
      else if fld && (occ <? -1) then BFail (Some BEINVAL)
      else BOk u
  end.

(** ** [ubf_cache_update]: the cache rebuilt from the fields *)

Fixpoint cache_update_loop (fuel : nat) (u : UBFH) (p : Z) : option (UBFH * bres unit) :=
  match fuel with
  | O => None
  | S fuel =>
      if UBF_EOF u p then Some (u, BOk tt)
      else
        f ← ld32 (mem u) p;
        if IS_TYPE_INVALID (Bfldtype f) then Some (u, BFail (Some BALIGNERR))
        else
          dt ← dtype_of (Bfldtype f);
          s ← p_next dt (mem u) p;
          let p' := p + s.1 in
          if CHECK_ALIGN u p' then Some (u, BFail (Some BALIGNERR))
          else
            typenext ← (if UBF_EOF u p' then Some (-1) else Bfldtype <$> ld32 (mem u) p');
            cache_update_loop fuel
              (if Bfldtype f =? typenext then u else ubf_cache_set u f (i32 p')) p'
  end.

Definition ubf_cache_update (u : UBFH) : option (UBFH * bres unit) :=
  cache_update_loop (S (length (mem u))) (set_cache u empty_cache) 0.

End Buffer.

(** The abstract buffer: (field id, value) pairs. *)
Abbreviation field := (Z * cbuf)%type.
Abbreviation fkey := (@fst Z cbuf).

(** ** Representation

    [ubf_rep u bs]: the buffer [u] holds the blocks [bs], in field id order,
    and its sizes and cached type offsets agree with them. *)

Section Rep.
Context `{Platform}.

(** Offset of the first field whose type is at least [t]. *)
Definition type_off (t : Z) (bs : list (list Z)) : Z :=
  zlen (concat (filter (fun b => blk_type b < t) bs)).

Definition cache_ok (c : UBF_cache) (bs : list (list Z)) : Prop :=
  forall t, usable_type t = true -> M_ubf_type_cache c t = Some (type_off t bs).

Record ubf_data (u : UBFH) (bs : list (list Z)) (tail : list Z) : Prop := {
  ud_magic : magic u = UBF_MAGIC;
  ud_blks : Forall wf_blk bs;
  ud_sorted : ksorted blk_fid bs;
  ud_mem : mem u = concat bs ++ tail;
  ud_used : bytes_used u = DATA_OFF + zlen (concat bs);
  ud_len : buf_len u = DATA_OFF + zlen (mem u);
  ud_max : buf_len u <= INT_MAX
}.

Definition ubf_rep (u : UBFH) (bs : list (list Z)) : Prop :=
  (exists tail, ubf_data u bs tail) /\ cache_ok (cache u) bs.

Definition blk_is (f : field) (b : list Z) : Prop :=
  wf_blk b /\ blk_fid b = f.1 /\ blk_val b = Some f.2.

Definition buf_repr (u : UBFH) (fs : list field) : Prop :=
  exists bs, Forall2 blk_is fs bs /\ ubf_rep u bs.

End Rep.

(** ** Type offsets and the cache *)

Section CacheLaws.
Context `{Platform}.

Lemma Bfldtype_mono a b : a <= b -> Bfldtype a <= Bfldtype b.
Proof.
  intros. unfold Bfldtype, EFFECTIVE_BITS. rewrite !Z.shiftr_div_pow2 by lia.
  by apply Z.div_le_mono.
Qed.

Lemma ksorted_type bs : ksorted blk_fid bs -> ksorted blk_type bs.
Proof.
  unfold ksorted. induction 1 as [|b bs Hs IH Hb]; constructor; [done|].
  eapply Forall_impl; [exact Hb|]. intros c Hc. by apply Bfldtype_mono.
Qed.

Lemma type_off_nil t : type_off t [] = 0.
Proof. done. Qed.

Lemma type_off_app t A B : type_off t (A ++ B) = type_off t A + type_off t B.
Proof. unfold type_off. by rewrite filter_app, concat_app, zlen_app. Qed.

Lemma type_off_all t bs : Forall (fun b => blk_type b < t) bs -> type_off t bs = zlen (concat bs).
Proof.
  unfold type_off. induction 1 as [|b bs Hb _ IH]; [done|].
  rewrite filter_cons_True by done. cbn [concat]. by rewrite !zlen_app, IH.
Qed.

Lemma type_off_none t bs : Forall (fun b => t <= blk_type b) bs -> type_off t bs = 0.
Proof.
  unfold type_off. induction 1 as [|b bs Hb _ IH]; [done|].
  by rewrite filter_cons_False by lia.
Qed.

Lemma type_off_const t ty bs :
  keq blk_type ty bs -> type_off t bs = if ty <? t then zlen (concat bs) else 0.
Proof.
  intros Hk. destruct (Z.ltb_spec ty t).
  - apply type_off_all. eapply Forall_impl; [exact Hk|]. cbn. lia.
  - apply type_off_none. eapply Forall_impl; [exact Hk|]. cbn. lia.
Qed.

Lemma type_off_range t bs : 0 <= type_off t bs <= zlen (concat bs).
Proof.
  unfold type_off. induction bs as [|b bs IH]; [done|]. cbn [concat].
  rewrite filter_cons. pose proof (zlen_nonneg b).
  destruct (decide (blk_type b < t)); cbn [concat]; zl.
Qed.

Lemma type_split t bs : ksorted blk_fid bs -> exists P T Q,
  bs = P ++ T ++ Q /\ klt blk_type t P /\ keq blk_type t T /\ kgt blk_type t Q /\
  type_off t bs = zlen (concat P) /\ type_off (t + 1) bs = zlen (concat (P ++ T)).
Proof.
  intros Hs%ksorted_type. destruct (ksorted_split blk_type t bs Hs) as (P & T & Q & -> & HP & HT & HQ).
  exists P, T, Q. do 4 (split; [done|]). rewrite !type_off_app, concat_app, zlen_app.
  rewrite !(type_off_all _ P), !(type_off_none _ Q), !(type_off_const _ t T) by
    (done || (eapply Forall_impl; [eassumption|]; cbn; lia)).
  rewrite (proj2 (Z.ltb_ge t t)), (proj2 (Z.ltb_lt t (t + 1))) by lia. lia.
Qed.

Lemma cache_map_get c ty f t :
  usable_type ty = true -> usable_type t = true ->
  M_ubf_type_cache (ubf_cache_map c ty f) t =
  (fun v => if ty <? t then f v else v) <$> M_ubf_type_cache c t.
Proof.
  intros Hy%usable_cases Ht%usable_cases.
  destruct Hy as [->|[->|[->|[->|[->|[->|[->|[->|[->| ->]]]]]]]]];
  destruct Ht as [->|[->|[->|[->|[->|[->|[->|[->|[->| ->]]]]]]]]]; reflexivity.
Qed.

(** Replacing fields of one type moves the offsets of the later types. *)
Lemma cache_shift_ok c ty A B B' C d :
  usable_type ty = true -> keq blk_type ty B -> keq blk_type ty B' ->
  d = zlen (concat B') - zlen (concat B) -> zlen (concat (A ++ B' ++ C)) <= INT_MAX ->
  cache_ok c (A ++ B ++ C) ->
  cache_ok (ubf_cache_map c ty (fun v => i32 (v + d))) (A ++ B' ++ C).
Proof.
  intros Hu HB HB' -> Hmax Hc t Ht. rewrite cache_map_get by done. rewrite (Hc t Ht).
  cbn [fmap option_fmap option_map]. f_equal.
  pose proof (type_off_range t (A ++ B' ++ C)) as Hr.
  rewrite !type_off_app in Hr. rewrite !type_off_app.
  rewrite (type_off_const t ty B') in Hr |- * by done. rewrite (type_off_const t ty B) by done.
  destruct (Z.ltb_spec ty t); [|lia].
  rewrite i32_id; unfold INT_MIN; lia.
Qed.

Lemma empty_cache_ok : cache_ok empty_cache [].
Proof.
  intros t Hu%usable_cases.
  destruct Hu as [->|[->|[->|[->|[->|[->|[->|[->|[->| ->]]]]]]]]]; reflexivity.
Qed.

End CacheLaws.

(** ** Buffers of a representation *)

Section RepLaws.
Context `{Platform}.

Lemma DATA_OFF_range : 56 <= DATA_OFF <= 64.
Proof.
  unfold DATA_OFF, sizeof_UBF_header, FF_USED_BYTES. destruct align_ok as [-> | ->]; cbn; lia.
Qed.

Lemma ubf_data_used_le u bs tail : ubf_data u bs tail -> bytes_used u <= buf_len u.
Proof. intros Hu. rewrite (ud_used _ _ _ Hu), (ud_len _ _ _ Hu), (ud_mem _ _ _ Hu). zl. Qed.

Lemma ubf_data_free u bs tail : ubf_data u bs tail ->
  zlen tail = buf_len u - bytes_used u.
Proof. intros Hu. rewrite (ud_used _ _ _ Hu), (ud_len _ _ _ Hu), (ud_mem _ _ _ Hu). zl. Qed.

Lemma have_buffer_size_spec u bs tail n : ubf_data u bs tail ->
  have_buffer_size u n = (n <=? zlen tail).
Proof.
  intros Hu. unfold have_buffer_size. rewrite <- (ubf_data_free _ _ _ Hu).
  pose proof (ud_max _ _ _ Hu) as Hm. pose proof (ud_used _ _ _ Hu). pose proof DATA_OFF_range.
  rewrite i32_id; [lia|]. pose proof (ubf_data_free _ _ _ Hu). unfold INT_MIN, INT_MAX in *. zl.
Qed.

Lemma UBF_EOF_spec u bs tail p : ubf_data u bs tail ->
  UBF_EOF u p = (zlen (concat bs) <=? p).
Proof. intros Hu. unfold UBF_EOF. rewrite (ud_used _ _ _ Hu). lia. Qed.

Lemma CHECK_ALIGN_spec u bs tail p : ubf_data u bs tail ->
  CHECK_ALIGN u p = (zlen (concat bs) <? p).
Proof. intros Hu. unfold CHECK_ALIGN. rewrite (ud_used _ _ _ Hu). lia. Qed.

Lemma wf_blk_nonempty b : wf_blk b -> 5 <= zlen b.
Proof. intros Hb%wf_blk_bounds. pose proof DA_range. lia. Qed.

(** Reading the buffer at the block between [P] and [R]. *)
Lemma ubf_at u P b R tail : ubf_data u (P ++ b :: R) tail ->
  wf_blk b /\ UBF_EOF u (zlen (concat P)) = false /\
  CHECK_ALIGN u (zlen (concat P) + zlen b) = false /\
  UBF_EOF u (zlen (concat P) + zlen b) = (match R with [] => true | _ => false end) /\
  ld32 (mem u) (zlen (concat P)) = Some (blk_fid b) /\
  IS_TYPE_INVALID (blk_type b) = false /\
  exists dt v, dtype_of (blk_type b) = Some dt /\ blk_val b = Some v /\
    p_next dt (mem u) (zlen (concat P)) = Some (zlen b, val_len v) /\
    mem u = concat P ++ b ++ concat R ++ tail.
Proof.
  intros Hu. pose proof (ud_blks _ _ _ Hu) as [HP HR]%Forall_app.
  apply Forall_cons in HR as [Hb HR]. pose proof (wf_blk_nonempty b Hb).
  rewrite !(UBF_EOF_spec _ _ _ _ Hu), (CHECK_ALIGN_spec _ _ _ _ Hu).
  rewrite !concat_app. cbn [concat].
  assert (mem u = concat P ++ b ++ concat R ++ tail) as Hm.
  { rewrite (ud_mem _ _ _ Hu), concat_app. cbn [concat]. by rewrite <- !app_assoc. }
  split; [done|]. split; [apply Z.leb_gt; zl|]. split; [apply Z.ltb_ge; zl|]. split.
  { destruct R as [|c R]; cbn [concat]; [apply Z.leb_le; zl|].
    apply Forall_cons in HR as [Hc _]. pose proof (wf_blk_nonempty c Hc). apply Z.leb_gt. zl. }
  rewrite Hm. split; [by apply wf_blk_ld_fid|]. split.
  { apply usable_valid, fid_ok_usable. by destruct Hb. }
  destruct (wf_blk_next (concat P) b (concat R ++ tail) Hb) as (dt & v & ? & ? & ?).
  exists dt, v. done.
Qed.

Lemma ubf_at_eof u bs tail : ubf_data u bs tail -> UBF_EOF u (zlen (concat bs)) = true.
Proof. intros Hu. rewrite (UBF_EOF_spec _ _ _ _ Hu). lia. Qed.

Lemma ubf_pre_bound u P R tail : ubf_data u (P ++ R) tail -> 0 <= zlen (concat P) <= INT_MAX - 56.
Proof.
  intros Hu. pose proof (ud_max _ _ _ Hu) as Hm. pose proof DATA_OFF_range.
  rewrite (ud_len _ _ _ Hu), (ud_mem _ _ _ Hu), concat_app in Hm. zl.
Qed.

(** Replacing the blocks [B] of one type by [B'], with the bookkeeping the
    operations do. *)
Lemma ubf_rep_splice u A B B' C tail m' tail' fid d :
  ubf_data u (A ++ B ++ C) tail -> cache_ok (cache u) (A ++ B ++ C) ->
  usable_type (Bfldtype fid) = true -> keq blk_fid fid B -> keq blk_fid fid B' ->
  Forall wf_blk B' -> klt blk_fid fid A -> kgt blk_fid fid C ->
  m' = concat (A ++ B' ++ C) ++ tail' -> zlen m' = zlen (mem u) ->
  d = zlen (concat B') - zlen (concat B) ->
  ubf_rep (ubf_cache_shift (set_used (set_mem u m') (i32 (bytes_used u + d))) fid d)
          (A ++ B' ++ C).
Proof.
  intros Hu Hc Ht HB HB' HW HA HC Hm' Hl Hd. pose proof DATA_OFF_range.
  pose proof (ud_used _ _ _ Hu) as Hus. pose proof (ud_max _ _ _ Hu) as Hmax.
  pose proof (ud_len _ _ _ Hu) as Hlen.
  assert (forall l, keq blk_fid fid l -> keq blk_type (Bfldtype fid) l) as Hkt.
  { intros l Hk. eapply Forall_impl; [exact Hk|]. intros x Hx. unfold blk_type. by rewrite Hx. }
  assert (bytes_used u + d = DATA_OFF + zlen (concat (A ++ B' ++ C))) as Hnu.
  { rewrite Hus, !concat_app. zl. }
  assert (zlen (concat (A ++ B' ++ C)) <= zlen (mem u)) by (rewrite <- Hl, Hm'; zl).
  split.
  - exists tail'. constructor; cbn; try done.
    + apply (ud_magic _ _ _ Hu).
    + pose proof (ud_blks _ _ _ Hu) as HF. rewrite !Forall_app in HF |- *. tauto.
    + eapply ksorted_mid; try done. by apply (ud_sorted _ _ _ Hu).
    + rewrite Hnu. apply i32_id. unfold INT_MIN, INT_MAX in *. zl.
    + by rewrite Hl.
  - cbn. apply cache_shift_ok with (B := B); auto. lia.
Qed.

(** The same when the size does not change: only the bytes differ. *)
Lemma ubf_rep_same_size u A B B' C tail m' fid :
  ubf_data u (A ++ B ++ C) tail -> cache_ok (cache u) (A ++ B ++ C) ->
  keq blk_fid fid B -> keq blk_fid fid B' -> Forall wf_blk B' ->
  klt blk_fid fid A -> kgt blk_fid fid C ->
  m' = concat (A ++ B' ++ C) ++ tail -> zlen (concat B') = zlen (concat B) ->
  ubf_rep (set_mem u m') (A ++ B' ++ C).
Proof.
  intros Hu Hc HB HB' HW HA HC -> Hl. split.
  - exists tail. destruct Hu as [Hmg HF Hs Hm Hus Hlen Hmax]. constructor; cbn; try done.
    + rewrite !Forall_app in HF |- *. tauto.
    + by eapply ksorted_mid.
    + rewrite Hus, !concat_app. zl.
    + rewrite Hlen, Hm, !concat_app. zl.
  - intros t Ht. cbn. rewrite (Hc t Ht). f_equal. rewrite !type_off_app.
    assert (forall l, keq blk_fid fid l -> keq blk_type (Bfldtype fid) l) as Hkt.
    { intros l Hk. eapply Forall_impl; [exact Hk|]. intros x Hx. unfold blk_type. by rewrite Hx. }
    rewrite !(type_off_const t (Bfldtype fid) B), !(type_off_const t (Bfldtype fid) B') by auto.
    by rewrite Hl.
Qed.

End RepLaws.

(** ** The cache update establishes the cache invariant *)

Section CacheUpdate.
Context `{Platform}.

Definition head_type (R : list (list Z)) : Z :=
  match R with [] => -1 | b :: _ => blk_type b end.

(** Offsets recorded when the blocks [P] are done and the next one has type
    [nt]: a run of type [nt] is recorded only at its end. *)
Definition flushed (nt t : Z) (P : list (list Z)) : Z :=
  zlen (concat (filter (fun b => blk_type b < t /\ blk_type b <> nt) P)).

Lemma filter_all {A} (P Q : A -> Prop) `{!forall x, Decision (P x)} `{!forall x, Decision (Q x)} l :
  Forall (fun x => P x <-> Q x) l -> filter P l = filter Q l.
Proof.
  induction 1 as [|x l Hx _ IH]; [done|]. rewrite !filter_cons.
  destruct (decide (P x)), (decide (Q x)); try tauto. by rewrite IH.
Qed.

Lemma flushed_off t P : flushed (-1) t P = type_off t P \/ exists b, b ∈ P /\ blk_type b = -1.
Proof.
  destruct (decide (Exists (fun b => blk_type b = -1) P)) as [He|Hn].
  - right. apply Exists_exists in He as (b & ? & ?). eauto.
  - left. unfold flushed, type_off. do 2 f_equal. apply filter_all.
    apply Forall_Exists_neg in Hn. eapply Forall_impl; [exact Hn|]. cbn. lia.
Qed.

Lemma flushed_same ty t P b : blk_type b = ty -> flushed ty t (P ++ [b]) = flushed ty t P.
Proof.
  intros Hb. unfold flushed. rewrite filter_app, (filter_cons_False _ b) by lia.
  by rewrite app_nil_r.
Qed.

Lemma flushed_set ty nt t P b :
  blk_type b = ty -> Forall (fun c => blk_type c <= ty) P -> (nt = -1 \/ ty < nt) -> 0 <= ty ->
  Forall (fun c => 0 <= blk_type c) P ->
  flushed nt t (P ++ [b]) = if ty <? t then zlen (concat (P ++ [b])) else flushed ty t P.
Proof.
  intros Hb HP Hnt H0 HP0. unfold flushed. destruct (Z.ltb_spec ty t).
  - do 2 f_equal. rewrite (filter_all _ (fun _ => True)).
    + clear. induction (P ++ [b]) as [|x l IH]; [done|]. by rewrite filter_cons_True, IH.
    + apply Forall_app. split; [|by repeat constructor; lia].
      apply Forall_forall. intros c Hc. rewrite Forall_forall in HP, HP0.
      specialize (HP _ Hc). specialize (HP0 _ Hc). lia.
  - rewrite filter_app, (filter_cons_False _ b) by lia. rewrite app_nil_r.
    do 2 f_equal. apply filter_all. apply Forall_forall. intros c Hc.
    rewrite Forall_forall in HP, HP0. specialize (HP _ Hc). specialize (HP0 _ Hc). lia.
Qed.

Lemma ubf_data_set_cache u bs tail c : ubf_data u bs tail -> ubf_data (set_cache u c) bs tail.
Proof. by intros []; constructor. Qed.

Lemma blk_type_range b : wf_blk b -> usable_type (blk_type b) = true /\ 0 <= blk_type b.
Proof.
  intros [Hf _]. pose proof (fid_ok_usable _ Hf) as Hu. split; [done|].
  apply usable_cases in Hu. unfold blk_type in *. lia.
Qed.

Lemma set_cache_twice u c c' : set_cache (set_cache u c) c' = set_cache u c'.
Proof. done. Qed.

Lemma head_type_next P b R :
  Forall wf_blk (P ++ b :: R) -> ksorted blk_fid (P ++ b :: R) ->
  Forall (fun c => blk_type c <= blk_type b) P /\ Forall (fun c => 0 <= blk_type c) P /\
  (blk_type b = head_type R \/ blk_type b <> head_type R /\
   (head_type R = -1 \/ blk_type b < head_type R)).
Proof.
  intros [HP HR]%Forall_app (_ & HRs & HPR)%ksorted_type%ksorted_app.
  apply Forall_cons in HR as [Hb HR]. split.
  { eapply Forall_impl; [exact HPR|]. cbn. by intros c ?%Forall_inv. }
  split. { eapply Forall_impl; [exact HP|]. cbn. intros c Hc. by apply blk_type_range. }
  pose proof (blk_type_range b Hb) as [_ ?].
  destruct R as [|c R]; cbn [head_type]; [lia|].
  apply StronglySorted_inv in HRs as [_ ?%Forall_inv]. cbn in *. lia.
Qed.

Lemma cache_update_loop_ok R : forall fuel u P tail,
  ubf_data u (P ++ R) tail -> (length R < fuel)%nat ->
  (forall t, usable_type t = true ->
     M_ubf_type_cache (cache u) t = Some (flushed (head_type R) t P)) ->
  exists c, cache_update_loop fuel u (zlen (concat P)) = Some (set_cache u c, BOk tt) /\
            cache_ok c (P ++ R).
Proof.
  induction R as [|b R IH]; intros [|fuel] u P tail Hu Hf Hc; [lia| |lia|]; cbn [cache_update_loop].
  - rewrite app_nil_r in *. rewrite (ubf_at_eof _ _ _ Hu). exists (cache u).
    split; [by destruct u|]. intros t Ht. rewrite Hc by done. f_equal.
    cbn [head_type]. destruct (flushed_off t P) as [->|(b & Hb & Hn)]; [done|].
    pose proof (ud_blks _ _ _ Hu) as HF. rewrite Forall_forall in HF.
    pose proof (blk_type_range b (HF b Hb)). lia.
  - pose proof (head_type_next P b R (ud_blks _ _ _ Hu) (ud_sorted _ _ _ Hu)) as (HP & HP0 & Hn).
    destruct (ubf_at u P b R tail Hu) as (Hb & -> & Hal & He & -> & Hv & dt & v & Hdt & _ & Hnx & _).
    pose proof (blk_type_range b Hb) as [Hty ?].
    cbn [mbind option_bind]. fold (blk_type b). rewrite Hv, Hdt. cbn [mbind option_bind].
    rewrite Hnx. cbn [mbind option_bind fst]. rewrite Hal, He.
    assert (zlen (concat P) + zlen b = zlen (concat (P ++ [b]))) as Hp'.
    { rewrite concat_app. cbn [concat]. zl. }
    assert (ubf_data u ((P ++ [b]) ++ R) tail) as Hu' by by rewrite <- app_assoc.
    assert ((if match R with [] => true | _ => false end then Some (-1)
             else Bfldtype <$> ld32 (mem u) (zlen (concat P) + zlen b)) = Some (head_type R)) as ->.
    { destruct R as [|c R]; [done|]. rewrite Hp'.
      by destruct (ubf_at u (P ++ [b]) c R tail Hu') as (_ & _ & _ & _ & -> & _). }
    cbn [mbind option_bind]. cbn [length] in Hf. rewrite Hp'.
    replace (P ++ b :: R) with ((P ++ [b]) ++ R) by by rewrite <- app_assoc.
    destruct Hn as [Hn|(Hn & Hn2)].
    + rewrite (proj2 (Z.eqb_eq _ _)) by done. apply (IH fuel u _ tail); [done|lia|].
      intros t Ht. rewrite (Hc t Ht). cbn [head_type]. rewrite <- Hn, flushed_same; done.
    + rewrite (proj2 (Z.eqb_neq _ _)) by done. unfold ubf_cache_set.
      destruct (IH fuel (set_cache u (ubf_cache_map (cache u) (Bfldtype (blk_fid b))
        (fun _ => i32 (zlen (concat (P ++ [b])))))) (P ++ [b]) tail) as (c & -> & Hok);
        [by apply ubf_data_set_cache|lia| |by exists c].
      intros t Ht. cbn [cache set_cache]. fold (blk_type b).
      rewrite cache_map_get, (Hc t Ht) by done. cbn [fmap option_fmap option_map head_type]. f_equal.
      rewrite (flushed_set (blk_type b)) by done. destruct (blk_type b <? t); [|done].
      apply i32_id. pose proof (ubf_pre_bound _ _ _ _ Hu'). unfold INT_MIN. lia.
Qed.

Lemma blks_count bs : Forall wf_blk bs -> Z.of_nat (length bs) <= zlen (concat bs).
Proof.
  induction 1 as [|b bs Hb _ IH]; [done|]. cbn [concat length].
  pose proof (wf_blk_nonempty b Hb). zl.
Qed.

Lemma ubf_fuel u bs tail : ubf_data u bs tail -> (length bs <= length (mem u))%nat.
Proof.
  intros Hu. pose proof (blks_count bs (ud_blks _ _ _ Hu)).
  assert (zlen (concat bs) <= zlen (mem u)) by (rewrite (ud_mem _ _ _ Hu); zl).
  unfold zlen in *. lia.
Qed.

Lemma ubf_cache_update_ok u bs tail : ubf_data u bs tail -> exists c,
  ubf_cache_update u = Some (set_cache u c, BOk tt) /\ cache_ok c bs.
Proof.
  intros Hu. unfold ubf_cache_update.
  destruct (cache_update_loop_ok bs (S (length (mem u))) (set_cache u empty_cache) [] tail)
    as (c & Hc & Hok).
  - by apply ubf_data_set_cache.
  - pose proof (ubf_fuel u bs tail Hu). lia.
  - intros t Ht. cbn [cache set_cache]. by rewrite (empty_cache_ok t Ht).
  - exists c. by rewrite <- (set_cache_twice u empty_cache c).
Qed.

End CacheUpdate.

(** [ubf_cache_update] rebuilds, from the fields alone and whatever the
    cache held, the cached offset of every type: the position of the first
    field of that type or a later one. *)
Theorem ubf_cache_update_correct `{Platform} u bs tail :
  ubf_data u bs tail -> exists c, ubf_cache_update u = Some (set_cache u c, BOk tt) /\
  (forall t, usable_type t = true -> M_ubf_type_cache c t = Some (type_off t bs)) /\
  ubf_rep (set_cache u c) bs.
Proof.
  intros Hu. destruct (ubf_cache_update_ok u bs tail Hu) as (c & Hc & Hok).
  exists c. split; [done|]. split; [done|]. split; [|done]. exists tail. by apply ubf_data_set_cache.
Qed.

(** ** An example buffer: two shorts and a string on the platform [plat4] *)

Module Demo.
#[local] Existing Instance plat4.

Definition fshort : Z := Bmkfldid BFLD_SHORT 1.
Definition fstring : Z := Bmkfldid BFLD_STRING 10.

Definition fields : list field :=
  [(fshort, CBytes [5; 0]); (fshort, CBytes [6; 0]); (fstring, CBytes [104; 105; 0])].

Definition blks : list (list Z) :=
  [le32 fshort ++ [5; 0; 0; 0]; le32 fshort ++ [6; 0; 0; 0];
   le32 fstring ++ le32 3 ++ [104; 105; 0; 0]].

Definition buf (off : Z) : UBFH :=
  {| buffer_type := 0; version := UBF_VERSION; magic := UBF_MAGIC;
     cache := {| cache_long_off := off; cache_char_off := off; cache_float_off := off;
                 cache_double_off := off; cache_string_off := off; cache_carray_off := 28;
                 cache_ptr_off := 28; cache_ubf_off := 28; cache_view_off := 28 |};
     buf_len := 184; opts := 0; bytes_used := 84;
     mem := concat blks ++ replicate 100 0 |}.

Definition demo : UBFH := buf 16.

Lemma blks_ok : Forall2 blk_is fields blks.
Proof.
  repeat (constructor; [split; [split; [reflexivity|split; [done|]]|split; reflexivity]|]);
    [do 2 eexists; repeat split; reflexivity..|constructor].
Qed.

Lemma demo_data off : ubf_data (buf off) blks (replicate 100 0).
Proof.
  constructor; try reflexivity; try done.
  - pose proof blks_ok as HF. rewrite Forall_forall. intros b Hb.
    apply list_elem_of_lookup in Hb as [i Hi].
    destruct (Forall2_lookup_r _ _ _ _ _ HF Hi) as (f & _ & Hw & _). done.
  - repeat constructor; vm_compute; discriminate.
Qed.

Lemma demo_repr : buf_repr demo fields.
Proof.
  exists blks. split; [apply blks_ok|]. split; [exists (replicate 100 0); apply demo_data|].
  intros t Hu%usable_cases.
  destruct Hu as [->|[->|[->|[->|[->|[->|[->|[->|[->| ->]]]]]]]]]; reflexivity.
Qed.

End Demo.

Lemma ubf_cache_update_correct_witness :
  exists c, @ubf_cache_update plat4 (Demo.buf 99) = Some (set_cache (Demo.buf 99) c, BOk tt) /\
  M_ubf_type_cache c BFLD_STRING = Some 16.
Proof.
  destruct (@ubf_cache_update_correct plat4 (Demo.buf 99) _ _ (Demo.demo_data 99)) as (c & Hc & Ht & _).
  exists c. split; [exact Hc|]. rewrite Ht by reflexivity. reflexivity.
Defined.
