(* ===== verification/UbfSearch.v ===== *)
(** * Locating a field

    The two search routines of [libubf/ubf_impl.c]: [get_fld_loc], a scan from
    the type's cached offset (or from a position a previous call left), and
    [get_fld_loc_binary_search] with its helpers for the fixed-size types.
    Both are shown to return what the list of blocks says, so on well-formed
    buffers they agree. *)

From S2P Require Import Prelude UbfTypes UbfBuffer.

Section Search.
Context `{Platform}.

(** ** Linear search

    Results of [get_fld_loc].  [None] in [fl_last_checked] and
    [fl_last_matched] is an output the call did not write; [fl_last_start] is
    the [last_checked] member of the caller's [last_start] on return. *)

Record fld_loc := {
  fl_ret : option Z;
  fl_dtype : option dtype_str;
  fl_last_checked : option Z;
  fl_last_matched : option Z;
  fl_last_occ : Z;
  fl_last_start : option Z;
  fl_err : option berr
}.

Record loc_st := { ls_p : Z; ls_iocc : Z; ls_matched : option Z; ls_start : option Z }.

(** On arrival at a field: count it when it is the wanted one. *)
Definition loc_arrive (u : UBFH) (bfldid p iocc : Z) (matched start : option Z) : option loc_st :=
  if UBF_EOF u p then Some {| ls_p := p; ls_iocc := iocc; ls_matched := matched; ls_start := start |}
  else
    f ← ld32 (mem u) p;
    Some (if bfldid =? f
          then {| ls_p := p; ls_iocc := iocc + 1; ls_matched := Some p; ls_start := start |}
          else {| ls_p := p; ls_iocc := iocc; ls_matched := matched; ls_start := start |}).

(** The caller's restart position follows the first field of each id. *)
Definition loc_restart (u : UBFH) (p f : Z) (start : option Z) : option (option Z) :=
  match start with
  | None => Some None
  | Some s => g ← ld32 (mem u) s; Some (Some (if g =? f then s else p))
  end.

(** The scan; [BOk eof] tells how it ended. *)
Fixpoint get_fld_loc_loop (fuel : nat) (u : UBFH) (bfldid occ : Z) (st : loc_st)
    : option (loc_st * bres bool) :=
  match fuel with
  | O => None
  | S fuel =>
      if UBF_EOF u (ls_p st) then Some (st, BOk true)
      else
        f ← ld32 (mem u) (ls_p st);
        if ((negb (bfldid =? f)) || (ls_iocc st <? occ) || (occ <? -1)) && (f <=? bfldid)
        then
          start ← loc_restart u (ls_p st) f (ls_start st);
          if IS_TYPE_INVALID (Bfldtype f)
          then Some ({| ls_p := ls_p st; ls_iocc := ls_iocc st; ls_matched := ls_matched st;
                        ls_start := start |}, BFail (Some BALIGNERR))
          else
            dt ← dtype_of (Bfldtype f);
            s ← p_next dt (mem u) (ls_p st);
            st' ← loc_arrive u bfldid (ls_p st + s.1) (ls_iocc st) (ls_matched st) start;
            get_fld_loc_loop fuel u bfldid occ st'
        else Some (st, BOk false)
  end.

Definition get_fld_loc (u : UBFH) (bfldid occ : Z) (last_start : option Z) : option fld_loc :=
  let type := Bfldtype bfldid in
  p ← match last_start with
      | Some s => Some s
      | None => if BFLD_SHORT <? type then M_ubf_type_cache (cache u) type else Some 0
      end;
  st ← loc_arrive u bfldid p (-1) None last_start;
  r ← get_fld_loc_loop (S (length (mem u))) u bfldid occ st;
  let st := r.1 in
  match r.2 : bres bool with
  | BFail e =>
      Some {| fl_ret := None; fl_dtype := None; fl_last_checked := None;
              fl_last_matched := ls_matched st; fl_last_occ := -1;
              fl_last_start := ls_start st; fl_err := e |}
  | BOk eof =>
      found ← (if eof then Some false
               else f ← ld32 (mem u) (ls_p st); Some ((bfldid =? f) && (ls_iocc st =? occ)));
      if found && IS_TYPE_INVALID type
      then Some {| fl_ret := None; fl_dtype := None; fl_last_checked := None;
                   fl_last_matched := ls_matched st; fl_last_occ := -1;
                   fl_last_start := ls_start st; fl_err := Some BALIGNERR |}
      else
        Some {| fl_ret := if found then Some (ls_p st) else None;
                fl_dtype := if found then dtype_of type else None;
                fl_last_checked := Some (if eof then bytes_used u - DATA_OFF else ls_p st);
                fl_last_matched := ls_matched st;
                fl_last_occ := ls_iocc st;
                fl_last_start := ls_start st;
                fl_err := None |}
  end.

(** ** Binary search *)

Definition UBF_BINSRCH_GET_LAST_NONE : Z := 0.
Definition UBF_BINSRCH_GET_LAST : Z := 1.
Definition UBF_BINSRCH_GET_LAST_CHG : Z := 2.

(** [start + i*step], the product in [int]. *)
Definition idx_ptr (start i step : Z) : Z := start + i32 (i * step).

Definition get_fldid_at_idx (m : list Z) (start i step : Z) : option Z :=
  ld32 m (idx_ptr start i step).

Fixpoint occ_from_idx_loop (fuel : nat) (m : list Z) (start f i step cur_fld occ : Z) : option Z :=
  match fuel with
  | O => None
  | S fuel =>
      if (cur_fld =? f) && (start <=? idx_ptr start i step) then
        let i := i - 1 in
        cur_fld ← (if start <=? idx_ptr start i step then ld32 m (idx_ptr start i step)
                   else Some cur_fld);
        occ_from_idx_loop fuel m start f i step cur_fld (occ + 1)
      else Some occ
  end.

Definition get_fld_occ_from_idx (m : list Z) (start f i step : Z) : option Z :=
  cur_fld ← ld32 m (idx_ptr start i step);
  occ_from_idx_loop (S (S (length m))) m start f i step cur_fld (-1).

(** Outputs of the binary search; [None] is an output not written. *)
Record bin_loc := {
  bl_ret : option Z;
  bl_dtype : option dtype_str;
  bl_last_occ : option Z;
  bl_last_checked : option Z;
  bl_last_match : option Z
}.

Definition bl_found (dt : option dtype_str) (p : option Z) : bin_loc :=
  {| bl_ret := p; bl_dtype := dt; bl_last_occ := None; bl_last_checked := None;
     bl_last_match := None |}.

(** Roll to the last occurrence: (occurrence, last match, position tried last). *)
Fixpoint get_last_loop (fuel : nat) (m : list Z) (start stop f i step iocc cur tmp : Z)
    : option (Z * Z * Z) :=
  match fuel with
  | O => None
  | S fuel =>
      if cur <? stop then
        let tmp := idx_ptr start (i + 1) step in
        if stop <=? tmp then Some (iocc, cur, tmp)
        else
          f1 ← ld32 m tmp;
          if f <? f1 then Some (iocc, cur, tmp)
          else if f1 =? f then get_last_loop fuel m start stop f (i + 1) step (iocc + 1) tmp tmp
          else get_last_loop fuel m start stop f i step iocc cur tmp
      else Some (iocc, cur, tmp)
  end.

Definition get_field_last (m : list Z) (start stop f i step iocc get_last : Z)
    (dt : option dtype_str) : option bin_loc :=
  r ← get_last_loop (S (length m)) m start stop f i step iocc
        (idx_ptr start i step) (idx_ptr start i step);
  let '(iocc, cur, tmp) := r in
  let cur := if Z.testbit get_last 1 then tmp else cur in
  Some {| bl_ret := None; bl_dtype := dt; bl_last_occ := Some iocc;
          bl_last_checked := Some cur; bl_last_match := Some cur |}.

Definition get_field (m : list Z) (start stop f i step req_occ get_last : Z)
    (dt : option dtype_str) : option bin_loc :=
  iocc ← get_fld_occ_from_idx m start f i step;
  if Z.testbit get_last 0 then get_field_last m start stop f i step iocc get_last dt
  else if req_occ <=? iocc
  then Some (bl_found dt (Some (start + i32 (step * (i - (iocc - req_occ))))))
  else
    let cur := start + i32 (step * i32 (i + req_occ - iocc)) in
    if stop <=? cur then
      if Z.testbit get_last 1 then get_field_last m start stop f i step iocc get_last dt
      else Some (bl_found dt None)
    else
      cur_fld ← ld32 m cur;
      if cur_fld =? f then Some (bl_found dt (Some cur))
      else if Z.testbit get_last 1 then get_field_last m start stop f i step iocc get_last dt
      else Some (bl_found dt None).

(** The search proper: the index found, or the last index looked at with the
    id read there ([None] when the area was empty). *)
Fixpoint bin_search_loop (fuel : nat) (m : list Z) (start step bfldid first last middle : Z)
    (seen : option (Z * Z)) : option (Z + option (Z * Z)) :=
  match fuel with
  | O => None
  | S fuel =>
      if first <=? last then
        fld_got ← get_fldid_at_idx m start middle step;
        if fld_got =? bfldid then Some (inl middle)
        else
          let first := if fld_got <? bfldid then middle + 1 else first in
          let last := if fld_got <? bfldid then last else middle - 1 in
          bin_search_loop fuel m start step bfldid first last (Z.quot (first + last) 2)
            (Some (middle, fld_got))
      else Some (inr seen)
  end.

Fixpoint look_forward (fuel : nat) (m : list Z) (start stop step bfldid last_middle cur : Z)
    : option Z :=
  match fuel with
  | O => None
  | S fuel =>
      if cur <? stop then
        f ← ld32 m cur;
        if f <? bfldid
        then look_forward fuel m start stop step bfldid (last_middle + 1)
               (idx_ptr start (last_middle + 1) step)
        else Some cur
      else Some cur
  end.

Fixpoint look_back (fuel : nat) (m : list Z) (start step bfldid last_middle cur last_ok : Z)
    : option Z :=
  match fuel with
  | O => None
  | S fuel =>
      if start <? cur then
        f ← ld32 m cur;
        if bfldid <? f
        then look_back fuel m start step bfldid (last_middle - 1)
               (idx_ptr start (last_middle - 1) step) cur
        else Some last_ok
      else Some last_ok
  end.

(** Where a field that is not there would go. *)
Definition bin_search_miss (m : list Z) (start stop step bfldid : Z) (seen : option (Z * Z))
    : option Z :=
  match seen with
  | None => Some start
  | Some (last_middle, fld_got) =>
      let cur := idx_ptr start last_middle step in
      if fld_got <? bfldid
      then look_forward (S (S (length m))) m start stop step bfldid last_middle cur
      else look_back (S (S (length m))) m start step bfldid last_middle cur cur
  end.

Definition get_fld_loc_binary_search (u : UBFH) (bfldid occ get_last : Z) : option bin_loc :=
  let type := Bfldtype bfldid in
  start ← (if BFLD_SHORT <? type then M_ubf_type_cache (cache u) type else Some 0);
  stop ← M_ubf_type_cache (cache u) (type + 1);
  if stop - start <=? 0
  then Some {| bl_ret := None; bl_dtype := None; bl_last_occ := None;
               bl_last_checked := Some start; bl_last_match := None |}
  else
    dt ← dtype_of type;
    s ← p_next dt (mem u) start;
    let step := s.1 in
    if step =? 0 then None
    else
      let last := Z.quot (stop - start) step - 1 in
      r ← bin_search_loop (S (length (mem u))) (mem u) start step bfldid 0 last (Z.quot last 2) None;
      match r with
      | inl middle => get_field (mem u) start stop bfldid middle step occ get_last (Some dt)
      | inr seen =>
          checked ← bin_search_miss (mem u) start stop step bfldid seen;
          Some {| bl_ret := None; bl_dtype := Some dt; bl_last_occ := None;
                  bl_last_checked := Some checked; bl_last_match := None |}
      end.

End Search.

(** ** The linear search finds what the block list says *)

Section Linear.
Context `{Platform}.

(** Index in the run of equal ids where the scan stops. *)
Definition loc_idx (occ n : Z) : Z := if occ <? -1 then n else Z.min (Z.max occ 0) n.

Definition blk_off (bs : list (list Z)) : Z := zlen (concat bs).

Lemma blk_off_app A B : blk_off (A ++ B) = blk_off A + blk_off B.
Proof. unfold blk_off. rewrite concat_app. apply zlen_app. Qed.

Lemma blk_off_cons b B : blk_off (b :: B) = zlen b + blk_off B.
Proof. unfold blk_off. cbn [concat]. apply zlen_app. Qed.

Lemma blk_off_nil : blk_off [] = 0.
Proof. done. Qed.

(** A restart position: the start of some block, with smaller ids before it. *)
Definition start_ok (fid : Z) (bs : list (list Z)) (s : option Z) : Prop :=
  match s with
  | None => True
  | Some s => exists P R, bs = P ++ R /\ s = blk_off P /\ klt blk_fid fid P
  end.

Variables (u : UBFH) (tail : list Z) (fid occ : Z).

(** One step over block [b]. *)
Lemma loc_step fuel P b R iocc mt ls ls' :
  ubf_data u (P ++ b :: R) tail ->
  ((negb (fid =? blk_fid b)) || (iocc <? occ) || (occ <? -1)) && (blk_fid b <=? fid) = true ->
  loc_restart u (blk_off P) (blk_fid b) ls = Some ls' ->
  get_fld_loc_loop (S fuel) u fid occ
    {| ls_p := blk_off P; ls_iocc := iocc; ls_matched := mt; ls_start := ls |} =
  (st' ← loc_arrive u fid (blk_off (P ++ [b])) iocc mt ls';
   get_fld_loc_loop fuel u fid occ st').
Proof.
  intros Hu Hc Hr. cbn [get_fld_loc_loop ls_p ls_iocc ls_matched ls_start].
  destruct (ubf_at u P b R tail Hu) as (Hb & He & _ & _ & Hf & Hv & dt & v & Hdt & _ & Hnx & _).
  fold (blk_off P) in *. rewrite He, Hf. cbn [mbind option_bind]. rewrite Hc, Hr.
  cbn [mbind option_bind]. fold (blk_type b). rewrite Hv, Hdt. cbn [mbind option_bind].
  rewrite Hnx. cbn [mbind option_bind fst]. by rewrite blk_off_app, blk_off_cons, blk_off_nil, Z.add_0_r.
Qed.

Lemma loc_stop fuel P b R iocc mt ls :
  ubf_data u (P ++ b :: R) tail ->
  ((negb (fid =? blk_fid b)) || (iocc <? occ) || (occ <? -1)) && (blk_fid b <=? fid) = false ->
  get_fld_loc_loop (S fuel) u fid occ
    {| ls_p := blk_off P; ls_iocc := iocc; ls_matched := mt; ls_start := ls |} =
  Some ({| ls_p := blk_off P; ls_iocc := iocc; ls_matched := mt; ls_start := ls |}, BOk false).
Proof.
  intros Hu Hc. cbn [get_fld_loc_loop ls_p ls_iocc].
  destruct (ubf_at u P b R tail Hu) as (Hb & He & _ & _ & Hf & _).
  fold (blk_off P) in *. rewrite He, Hf. cbn [mbind option_bind]. by rewrite Hc.
Qed.

Lemma loc_eof fuel bs iocc mt ls :
  ubf_data u bs tail ->
  get_fld_loc_loop (S fuel) u fid occ
    {| ls_p := blk_off bs; ls_iocc := iocc; ls_matched := mt; ls_start := ls |} =
  Some ({| ls_p := blk_off bs; ls_iocc := iocc; ls_matched := mt; ls_start := ls |}, BOk true).
Proof.
  intros Hu. cbn [get_fld_loc_loop ls_p]. unfold blk_off. by rewrite (ubf_at_eof _ _ _ Hu).
Qed.

(** Arrival state in front of the blocks [R]. *)
Definition arrived (P R : list (list Z)) (iocc : Z) (mt ls : option Z) : loc_st :=
  match R with
  | b :: _ => if fid =? blk_fid b
              then {| ls_p := blk_off P; ls_iocc := iocc + 1; ls_matched := Some (blk_off P);
                      ls_start := ls |}
              else {| ls_p := blk_off P; ls_iocc := iocc; ls_matched := mt; ls_start := ls |}
  | [] => {| ls_p := blk_off P; ls_iocc := iocc; ls_matched := mt; ls_start := ls |}
  end.

Lemma loc_arrive_ok P R iocc mt ls : ubf_data u (P ++ R) tail ->
  loc_arrive u fid (blk_off P) iocc mt ls = Some (arrived P R iocc mt ls).
Proof.
  intros Hu. unfold loc_arrive, arrived. destruct R as [|b R].
  - rewrite app_nil_r in Hu. unfold blk_off. by rewrite (ubf_at_eof _ _ _ Hu).
  - destruct (ubf_at u P b R tail Hu) as (Hb & He & _ & _ & Hf & _).
    fold (blk_off P) in *. rewrite He, Hf. cbn [mbind option_bind]. by destruct (fid =? blk_fid b).
Qed.

(** The restart position, read and moved. *)
Definition restart_in (P : list (list Z)) (ls : option Z) : Prop :=
  match ls with None => True | Some s => exists P1 P2, P = P1 ++ P2 /\ s = blk_off P1 end.

Lemma restart_read P1 P2 b R : ubf_data u ((P1 ++ P2) ++ b :: R) tail ->
  ld32 (mem u) (blk_off P1) = Some (match P2 with [] => blk_fid b | c :: _ => blk_fid c end).
Proof.
  intros Hu. rewrite <- app_assoc in Hu. destruct P2 as [|c P2]; cbn [app] in Hu.
  - by destruct (ubf_at u P1 b R tail Hu) as (_ & _ & _ & _ & Hf & _).
  - by destruct (ubf_at u P1 c (P2 ++ b :: R) tail Hu) as (_ & _ & _ & _ & Hf & _).
Qed.

Lemma loc_restart_in P b R ls : ubf_data u (P ++ b :: R) tail -> restart_in P ls ->
  exists ls', loc_restart u (blk_off P) (blk_fid b) ls = Some ls' /\ restart_in P ls' /\
              (is_Some ls <-> is_Some ls').
Proof.
  intros Hu Hs. unfold loc_restart. destruct ls as [s|]; [|by exists None].
  destruct Hs as (P1 & P2 & -> & ->). rewrite (restart_read _ _ _ _ Hu). cbn [mbind option_bind].
  eexists. split; [done|]. split; [|by split; eexists].
  destruct (_ =? _); [by exists P1, P2|]. exists (P1 ++ P2), []. by rewrite app_nil_r.
Qed.

(** At the first wanted field the restart position moves there. *)
Lemma loc_restart_first P b R ls : ubf_data u (P ++ b :: R) tail -> restart_in P ls ->
  klt blk_fid (blk_fid b) P ->
  loc_restart u (blk_off P) (blk_fid b) ls = Some ((fun _ => blk_off P) <$> ls).
Proof.
  intros Hu Hs HP. unfold loc_restart. destruct ls as [s|]; [|done].
  destruct Hs as (P1 & P2 & -> & ->). rewrite (restart_read _ _ _ _ Hu). cbn [mbind option_bind].
  destruct P2 as [|c P2].
  - by rewrite Z.eqb_refl, app_nil_r.
  - apply Forall_app in HP as [_ Hc%Forall_inv]. by rewrite (proj2 (Z.eqb_neq _ _)) by lia.
Qed.

(** Over the fields before the wanted id. *)
Lemma loc_loop_before A : forall fuel P R iocc mt ls,
  ubf_data u (P ++ A ++ R) tail -> klt blk_fid fid A -> restart_in P ls ->
  exists ls', get_fld_loc_loop (length A + fuel) u fid occ (arrived P (A ++ R) iocc mt ls) =
    get_fld_loc_loop fuel u fid occ (arrived (P ++ A) R iocc mt ls') /\
    restart_in (P ++ A) ls' /\ (is_Some ls <-> is_Some ls').
Proof.
  induction A as [|b A IH]; intros fuel P R iocc mt ls Hu HA Hls.
  - exists ls. rewrite app_nil_r. done.
  - apply Forall_cons in HA as [Hb HA]. cbn [app length Nat.add] in *.
    destruct (loc_restart_in P b (A ++ R) ls Hu Hls) as (ls1 & Hr & Hin & Hi1).
    cbn [arrived]. rewrite (proj2 (Z.eqb_neq fid (blk_fid b))) by lia.
    rewrite (loc_step _ P b (A ++ R) _ _ _ ls1) by (done || lia).
    assert (ubf_data u ((P ++ [b]) ++ A ++ R) tail) as Hu' by by rewrite <- app_assoc.
    rewrite (loc_arrive_ok _ (A ++ R)) by done. cbn [mbind option_bind].
    destruct (IH fuel (P ++ [b]) R iocc mt ls1) as (ls2 & He & Hin2 & Hi2); [done|done| |].
    { destruct ls1 as [s|]; [|done]. destruct Hin as (P1 & P2 & -> & ->).
      exists P1, (P2 ++ [b]). by rewrite <- app_assoc. }
    exists ls2. rewrite <- app_assoc in He, Hin2. split; [done|]. split; [done|]. tauto.
Qed.

(** Over the occurrences of the wanted id: the position and count reached. *)
Definition stopped (Q B : list (list Z)) (k : nat) (ls : option Z) : loc_st :=
  {| ls_p := blk_off (Q ++ take k B);
     ls_iocc := Z.min (Z.of_nat k) (zlen B - 1);
     ls_matched := match B with
                   | [] => None
                   | _ => Some (blk_off (Q ++ take (Nat.min k (length B - 1)) B)) end;
     ls_start := ls |}.


Lemma arrived_stopped Q B C ls : keq blk_fid fid B -> kgt blk_fid fid C ->
  arrived Q (B ++ C) (-1) None ls = stopped Q B 0 ls.
Proof.
  intros HB HC. unfold stopped. rewrite take_0, app_nil_r. destruct B as [|b B]; cbn [app].
  - destruct C as [|c C]; cbn [arrived]; [done|].
    apply Forall_inv in HC. by rewrite (proj2 (Z.eqb_neq _ _)) by lia.
  - apply Forall_inv in HB. cbn [arrived]. rewrite (proj2 (Z.eqb_eq _ _)) by lia.
    rewrite take_0, app_nil_r. f_equal. zl.
Qed.

Lemma loc_step_in Q B C k b fuel ls ls' :
  ubf_data u (Q ++ B ++ C) tail -> keq blk_fid fid B -> kgt blk_fid fid C ->
  B !! k = Some b -> (Z.of_nat k <? occ) || (occ <? -1) = true ->
  loc_restart u (blk_off (Q ++ take k B)) fid ls = Some ls' ->
  get_fld_loc_loop (S fuel) u fid occ (stopped Q B k ls) =
  get_fld_loc_loop fuel u fid occ (stopped Q B (S k) ls').
Proof.
  intros Hu HB HC Hk Hc Hr. pose proof (lookup_lt_Some _ _ _ Hk) as Hlt.
  assert (blk_fid b = fid) as Hb by exact (Forall_lookup_1 _ _ _ _ HB Hk).
  pose proof (take_drop_middle _ _ _ Hk) as HBk.
  assert (ubf_data u ((Q ++ take k B) ++ b :: drop (S k) B ++ C) tail) as Hu1.
  { rewrite <- HBk in Hu at 1. by rewrite <- !app_assoc in Hu |- *. }
  assert (ubf_data u ((Q ++ take (S k) B) ++ drop (S k) B ++ C) tail) as Hu2.
  { rewrite <- app_assoc, (app_assoc (take (S k) B)), take_drop. done. }
  unfold stopped at 1. rewrite (loc_step _ (Q ++ take k B) b (drop (S k) B ++ C) _ _ _ ls');
    [|done| |by rewrite Hb].
  - rewrite <- app_assoc, <- (take_S_r _ _ _ Hk).
    rewrite (loc_arrive_ok _ (drop (S k) B ++ C)) by done. cbn [mbind option_bind]. f_equal.
    unfold stopped. destruct B as [|b0 B0] eqn:EB; [done|]. rewrite <- EB in *.
    destruct (drop (S k) B) as [|c B'] eqn:Ed.
    + assert (length B = S k) by (apply (f_equal length) in Ed; rewrite length_drop in Ed; cbn in Ed; lia).
      replace (Nat.min k (length B - 1)) with k by lia.
      replace (Nat.min (S k) (length B - 1)) with k by lia.
      replace (Z.min (Z.of_nat k) (zlen B - 1)) with (Z.of_nat k) by (unfold zlen; lia).
      replace (Z.min (Z.of_nat (S k)) (zlen B - 1)) with (Z.of_nat k) by (unfold zlen; lia).
      cbn [app]. destruct C as [|c C]; cbn [arrived]; [done|].
      apply Forall_inv in HC. by rewrite (proj2 (Z.eqb_neq _ _)) by lia.
    + assert (S k < length B)%nat by (apply (f_equal length) in Ed; rewrite length_drop in Ed; cbn in Ed; lia).
      assert (blk_fid c = fid) as Hc2.
      { pose proof (Forall_drop _ (S k) _ HB) as HBd. rewrite Ed in HBd. by apply Forall_inv in HBd. }
      replace (Nat.min (S k) (length B - 1)) with (S k) by lia.
      cbn [app arrived]. rewrite (proj2 (Z.eqb_eq _ _)) by done. f_equal. unfold zlen; lia.
  - rewrite Hb, Z.eqb_refl, Z.leb_refl, andb_true_r. cbn [negb orb].
    replace (Z.min (Z.of_nat k) (zlen B - 1)) with (Z.of_nat k) by (unfold zlen; lia). done.
Qed.

Lemma loc_restart_run Q B C k b ls :
  ubf_data u (Q ++ B ++ C) tail -> klt blk_fid fid Q -> keq blk_fid fid B -> B !! k = Some b ->
  restart_in Q ls -> (k <> O -> ls = (fun _ => blk_off Q) <$> ls) ->
  loc_restart u (blk_off (Q ++ take k B)) fid ls = Some ((fun _ => blk_off Q) <$> ls).
Proof.
  intros Hu HQ HB Eb Hls Hls1.
  assert (blk_fid b = fid) as Hb by exact (Forall_lookup_1 _ _ _ _ HB Eb). destruct k as [|k].
  - rewrite take_0, app_nil_r. destruct B as [|b0 B]; [done|]. injection Eb as ->.
    rewrite <- Hb. eapply loc_restart_first; [exact Hu|done|]. by rewrite Hb.
  - rewrite <- Hls1 by done. unfold loc_restart. destruct ls as [s|]; [|done].
    assert (s = blk_off Q) as -> by (specialize (Hls1 ltac:(done)); cbn in Hls1; congruence).
    destruct B as [|b0 B]; [done|]. cbn [app] in Hu.
    destruct (ubf_at u Q b0 (B ++ C) tail Hu) as (_ & _ & _ & _ & Hf & _).
    fold (blk_off Q) in Hf. rewrite Hf. cbn [mbind option_bind].
    apply Forall_inv in HB. by rewrite (proj2 (Z.eqb_eq _ _)) by lia.
Qed.

Lemma loc_loop_in d : forall k fuel Q B C ls,
  ubf_data u (Q ++ B ++ C) tail -> klt blk_fid fid Q -> keq blk_fid fid B -> kgt blk_fid fid C ->
  restart_in Q ls -> (k <> O -> ls = (fun _ => blk_off Q) <$> ls) ->
  Z.of_nat (k + d) = loc_idx occ (zlen B) ->
  exists ls', get_fld_loc_loop (S d + fuel) u fid occ (stopped Q B k ls) =
    Some (stopped Q B (k + d) ls',
          BOk (bool_decide (k + d = length B)%nat && (match C with [] => true | _ => false end))) /\
    restart_in Q ls' /\ (is_Some ls <-> is_Some ls').
Proof.
  induction d as [|d IH]; intros k fuel Q B C ls Hu HQ HB HC Hls Hls1 Hk.
  - exists ls. split; [|done]. rewrite !Nat.add_0_r in *. cbn [Nat.add].
    destruct (B !! k) as [b|] eqn:Eb.
    + pose proof (lookup_lt_Some _ _ _ Eb). rewrite bool_decide_eq_false_2 by lia. cbn [andb].
      pose proof (take_drop_middle _ _ _ Eb) as HBk.
      assert (blk_fid b = fid) as Hb by exact (Forall_lookup_1 _ _ _ _ HB Eb).
      unfold stopped. apply (loc_stop _ (Q ++ take k B) b (drop (S k) B ++ C)).
      * rewrite <- HBk in Hu at 1. by rewrite <- !app_assoc in Hu |- *.
      * rewrite Hb, Z.eqb_refl. cbn [negb orb].
        replace (Z.min (Z.of_nat k) (zlen B - 1)) with (Z.of_nat k) by (unfold zlen; lia).
        unfold loc_idx in Hk. destruct (Z.ltb_spec occ (-1)); unfold zlen in Hk; [lia|].
        rewrite (proj2 (Z.ltb_ge (Z.of_nat k) occ)) by lia. done.
    + apply lookup_ge_None in Eb.
      assert (k = length B) as -> by (unfold loc_idx, zlen in Hk; destruct (occ <? -1); lia).
      rewrite bool_decide_eq_true_2 by done. cbn [andb]. unfold stopped.
      rewrite firstn_all. destruct C as [|c C].
      * rewrite app_nil_r in Hu. by apply loc_eof.
      * apply (loc_stop _ _ c C); [by rewrite <- app_assoc|].
        apply Forall_inv in HC. rewrite (proj2 (Z.leb_gt (blk_fid c) fid)) by lia. apply andb_false_r.
  - assert (Z.of_nat k < loc_idx occ (zlen B) <= zlen B) as Hkn.
    { split; [lia|]. unfold loc_idx. pose proof (zlen_nonneg B). destruct (occ <? -1); lia. }
    destruct (lookup_lt_is_Some_2 B k) as [b Eb]; [unfold zlen in Hkn; lia|].
    assert (blk_fid b = fid) as Hb by exact (Forall_lookup_1 _ _ _ _ HB Eb).
    pose proof (loc_restart_run Q B C k b ls Hu HQ HB Eb Hls Hls1) as Hr.
    cbn [Nat.add]. rewrite (loc_step_in Q B C k b _ _ ((fun _ => blk_off Q) <$> ls)); try done.
    + destruct (IH (S k) fuel Q B C ((fun _ => blk_off Q) <$> ls)) as (ls' & He & Hin & Hi); try done.
      * destruct ls; [|done]. exists Q, []. by rewrite app_nil_r.
      * by destruct ls.
      * rewrite <- Hk. lia.
      * exists ls'. cbn [Nat.add] in He. rewrite He.
        rewrite (Nat.add_succ_r k d). split; [done|]. split; [done|].
        rewrite <- Hi. symmetry. apply fmap_is_Some.
    + unfold loc_idx in Hkn. destruct (Z.ltb_spec occ (-1)); [by rewrite orb_true_r|].
      rewrite (proj2 (Z.ltb_lt (Z.of_nat k) occ)) by lia. done.
Qed.


(** What the scan returns for the blocks [Q ++ B ++ C], smaller, equal and
    greater than the wanted id. *)
Definition loc_found (B : list (list Z)) : bool := (0 <=? occ) && (occ <? zlen B).

Definition loc_result (Q B : list (list Z)) (ls : option Z) : fld_loc :=
  let st := stopped Q B (Z.to_nat (loc_idx occ (zlen B))) ls in
  {| fl_ret := if loc_found B then Some (ls_p st) else None;
     fl_dtype := if loc_found B then dtype_of (Bfldtype fid) else None;
     fl_last_checked := Some (ls_p st);
     fl_last_matched := ls_matched st;
     fl_last_occ := ls_iocc st;
     fl_last_start := ls;
     fl_err := None |}.

Lemma loc_idx_range n : 0 <= n -> 0 <= loc_idx occ n <= n.
Proof. intros. unfold loc_idx. destruct (occ <? -1); lia. Qed.

Abbreviation at_end C := (match C with [] => true | _ => false end).

Lemma loc_found_ok Q B C k ls :
  ubf_data u (Q ++ B ++ C) tail -> keq blk_fid fid B -> kgt blk_fid fid C ->
  k = Z.to_nat (loc_idx occ (zlen B)) ->
  (if bool_decide (k = length B) && at_end C then Some false
   else f ← ld32 (mem u) (ls_p (stopped Q B k ls));
        Some ((fid =? f) && (ls_iocc (stopped Q B k ls) =? occ))) = Some (loc_found B).
Proof.
  intros Hu HB HC Hk. pose proof (loc_idx_range (zlen B) (zlen_nonneg B)) as Hkr.
  cbn [stopped ls_p ls_iocc]. unfold loc_found. destruct (B !! k) as [b|] eqn:Eb.
  - pose proof (lookup_lt_Some _ _ _ Eb). rewrite bool_decide_eq_false_2 by lia. cbn [andb].
    pose proof (Forall_lookup_1 _ _ _ _ HB Eb) as Hb. cbn in Hb.
    pose proof (take_drop_middle _ _ _ Eb) as HBk. rewrite <- HBk in Hu at 1.
    destruct (ubf_at u (Q ++ take k B) b (drop (S k) B ++ C) tail) as (_ & _ & _ & _ & Hf & _).
    { by rewrite <- !app_assoc in Hu |- *. }
    fold (blk_off (Q ++ take k B)) in Hf. rewrite Hf, Hb. cbn [mbind option_bind].
    f_equal. unfold loc_idx, zlen in *. destruct (Z.ltb_spec occ (-1)); lia.
  - apply lookup_ge_None in Eb. assert (k = length B) as Hkl by (unfold zlen in *; lia).
    rewrite bool_decide_eq_true_2 by done. cbn [andb].
    replace ((0 <=? occ) && (occ <? zlen B)) with false
      by (unfold loc_idx, zlen in *; destruct (Z.ltb_spec occ (-1)); lia).
    destruct C as [|c C]; [done|].
    destruct (ubf_at u (Q ++ B) c C tail) as (_ & _ & _ & _ & Hf & _);
      [by rewrite <- !app_assoc|]. fold (blk_off (Q ++ B)) in Hf.
    rewrite Hkl, firstn_all, Hf. cbn [mbind option_bind].
    apply Forall_inv in HC. by rewrite (proj2 (Z.eqb_neq fid _)) by lia.
Qed.

Lemma get_fld_loc_ok P A B C ls :
  ubf_data u (P ++ A ++ B ++ C) tail ->
  klt blk_fid fid P -> klt blk_fid fid A -> keq blk_fid fid B -> kgt blk_fid fid C ->
  IS_TYPE_INVALID (Bfldtype fid) = false ->
  (match ls with
   | Some s => Some s
   | None => if BFLD_SHORT <? Bfldtype fid then M_ubf_type_cache (cache u) (Bfldtype fid) else Some 0
   end) = Some (blk_off P) ->
  exists ls', get_fld_loc u fid occ ls = Some (loc_result (P ++ A) B ls') /\
    restart_in (P ++ A) ls' /\ (is_Some ls <-> is_Some ls').
Proof.
  intros Hu HP HA HB HC Ht Hs. unfold get_fld_loc. rewrite Hs. cbn [mbind option_bind].
  rewrite (loc_arrive_ok P (A ++ B ++ C)) by done. cbn [mbind option_bind].
  pose proof (loc_idx_range (zlen B) (zlen_nonneg B)) as Hk.
  set (k := Z.to_nat (loc_idx occ (zlen B))).
  assert (exists f, S (length (mem u)) = length A + (S k + f))%nat as [f ->].
  { assert (k <= length B)%nat by (unfold k, zlen in *; lia).
    pose proof (ubf_fuel _ _ _ Hu) as Hl. rewrite !length_app in Hl.
    exists (length (mem u) - (length A + k))%nat. lia. }
  destruct (loc_loop_before A (S k + f) P (B ++ C) (-1) None ls) as (ls1 & -> & Hin & Hi); [done|done| |].
  { destruct ls as [s|]; [|done]. exists P, []. rewrite app_nil_r. split; [done|congruence]. }
  rewrite arrived_stopped by done. rewrite app_assoc in Hu.
  destruct (loc_loop_in k 0 f (P ++ A) B C ls1) as (ls2 & -> & Hin2 & Hi2); try done.
  { by apply Forall_app. }
  { unfold k. cbn. lia. }
  exists ls2. split; [|split; [done|tauto]]. cbn [mbind option_bind fst snd Nat.add].
  rewrite (loc_found_ok (P ++ A) B C k ls2) by done.
  cbn [mbind option_bind]. rewrite Ht, andb_false_r. unfold loc_result. fold k.
  do 2 f_equal. f_equal.
  destruct (bool_decide (k = length B) && _) eqn:Eeof; [|done].
  apply andb_prop in Eeof as [Hkl%bool_decide_eq_true HC0]. destruct C; [|done].
  cbn [stopped ls_p]. rewrite Hkl, firstn_all, (ud_used _ _ _ Hu), app_nil_r.
  unfold blk_off. lia.
Qed.

End Linear.

(** ** Binary search over an area of equal-sized fields

    The area holds [n] fields of [step] bytes; the ids below [f] are the first
    [a] of them, the next [b] are equal to [f]. *)

Record area (m : list Z) (start stop step f n a b : Z) (key : Z -> Z) : Prop := {
  ar_step : 0 < step <= INT_MAX;
  ar_a : 0 <= a;
  ar_b : 0 <= b;
  ar_n : a + b <= n;
  ar_stop : stop = start + n * step;
  ar_max : n * step <= INT_MAX;
  ar_key : forall i, 0 <= i < n -> ld32 m (start + i * step) = Some (key i);
  ar_lt : forall i, 0 <= i < n -> (key i < f <-> i < a);
  ar_eq : forall i, 0 <= i < n -> (key i = f <-> a <= i < a + b);
  ar_fuel : n <= Z.of_nat (length m)
}.

Section Area.
Context (m : list Z) (start stop step f n a b : Z) (key : Z -> Z).
Context (Har : area m start stop step f n a b key).
Let Hstep := ar_step _ _ _ _ _ _ _ _ _ Har.
Let Ha := ar_a _ _ _ _ _ _ _ _ _ Har.
Let Hb := ar_b _ _ _ _ _ _ _ _ _ Har.
Let Hn := ar_n _ _ _ _ _ _ _ _ _ Har.
Let Hstop := ar_stop _ _ _ _ _ _ _ _ _ Har.
Let Hmax := ar_max _ _ _ _ _ _ _ _ _ Har.
Let Hkey := ar_key _ _ _ _ _ _ _ _ _ Har.
Let Hlt := ar_lt _ _ _ _ _ _ _ _ _ Har.
Let Heq := ar_eq _ _ _ _ _ _ _ _ _ Har.
Let Hfuel := ar_fuel _ _ _ _ _ _ _ _ _ Har.

Lemma idx_ptr_ok i : -1 <= i <= n -> idx_ptr start i step = start + i * step.
Proof.
  intros Hi. unfold idx_ptr. rewrite i32_id; [done|]. unfold INT_MIN, INT_MAX in *. nia.
Qed.

Lemma idx_le i j : i <= j -> start + i * step <= start + j * step.
Proof. nia. Qed.

Lemma idx_lt i j : i < j -> start + i * step < start + j * step.
Proof. nia. Qed.

Lemma occ_from_idx_loop_ok d : forall fuel i occ,
  i = a + Z.of_nat d -> i < a + b -> (S d < fuel)%nat ->
  occ_from_idx_loop fuel m start f i step f occ = Some (occ + Z.of_nat d + 1).
Proof.
  induction d as [|d IH]; intros [|fuel] i occ Hi Hib Hf; try lia; cbn [occ_from_idx_loop];
    rewrite Z.eqb_refl, idx_ptr_ok by lia;
    pose proof (idx_le 0 i ltac:(lia)); rewrite (proj2 (Z.leb_le _ _)) by lia; cbn [andb];
    rewrite (idx_ptr_ok (i - 1)) by lia.
  - destruct (Z.leb_spec start (start + (i - 1) * step)) as [Hs|Hs].
    + assert (0 <= i - 1) by nia. rewrite Hkey by lia. cbn [mbind option_bind].
      destruct fuel as [|fuel]; [lia|]. cbn [occ_from_idx_loop].
      pose proof (proj2 (Hlt (i - 1) ltac:(lia)) ltac:(lia)).
      rewrite (proj2 (Z.eqb_neq _ _)) by lia. cbn [andb]. f_equal. lia.
    + cbn [mbind option_bind]. destruct fuel as [|fuel]; [lia|]. cbn [occ_from_idx_loop].
      rewrite (idx_ptr_ok (i - 1)), (proj2 (Z.leb_gt _ _)), andb_false_r by lia. f_equal. lia.
  - pose proof (idx_le 0 (i - 1) ltac:(lia)). rewrite (proj2 (Z.leb_le _ _)) by lia.
    rewrite Hkey by lia. cbn [mbind option_bind].
    rewrite (proj2 (Heq (i - 1) ltac:(lia)) ltac:(lia)).
    rewrite (IH fuel (i - 1) (occ + 1)) by lia. f_equal. lia.
Qed.

Lemma get_fld_occ_from_idx_ok i : a <= i < a + b ->
  get_fld_occ_from_idx m start f i step = Some (i - a).
Proof.
  intros Hi. unfold get_fld_occ_from_idx. rewrite idx_ptr_ok, Hkey by lia. cbn [mbind option_bind].
  rewrite (proj2 (Heq i ltac:(lia)) Hi).
  rewrite (occ_from_idx_loop_ok (Z.to_nat (i - a))) by lia. f_equal. lia.
Qed.

Lemma get_last_loop_ok d : forall fuel i iocc tmp,
  i = a + b - 1 - Z.of_nat d -> a <= i -> (d < fuel)%nat ->
  get_last_loop fuel m start stop f i step iocc (start + i * step) tmp =
  Some (iocc + Z.of_nat d, start + (a + b - 1) * step, start + (a + b) * step).
Proof.
  induction d as [|d IH]; intros [|fuel] i iocc tmp Hi Hai Hf; try lia; cbn [get_last_loop];
    pose proof (idx_lt i n ltac:(lia)); rewrite (proj2 (Z.ltb_lt _ _)) by lia;
    rewrite idx_ptr_ok by lia.
  - replace (a + b) with (i + 1) by lia. rewrite Z.add_simpl_r, Z.add_0_r.
    destruct (Z.leb_spec stop (start + (i + 1) * step)) as [Hs|Hs].
    + done.
    + assert (i + 1 < n) by nia. rewrite Hkey by lia. cbn [mbind option_bind].
      pose proof (Hlt (i + 1) ltac:(lia)). pose proof (Heq (i + 1) ltac:(lia)).
      by rewrite (proj2 (Z.ltb_lt _ _)) by lia.
  - pose proof (idx_lt (i + 1) n ltac:(lia)). rewrite (proj2 (Z.leb_gt _ _)) by lia.
    rewrite Hkey by lia. cbn [mbind option_bind].
    rewrite (proj2 (Heq (i + 1) ltac:(lia)) ltac:(lia)).
    rewrite Z.ltb_irrefl, Z.eqb_refl, (IH fuel (i + 1)) by lia. do 2 f_equal. f_equal. lia.
Qed.

Lemma get_field_last_ok i get_last dt : a <= i < a + b ->
  get_field_last m start stop f i step (i - a) get_last dt =
  Some {| bl_ret := None; bl_dtype := dt; bl_last_occ := Some (b - 1);
          bl_last_checked := Some (start + (if Z.testbit get_last 1 then a + b else a + b - 1) * step);
          bl_last_match := Some (start + (if Z.testbit get_last 1 then a + b else a + b - 1) * step) |}.
Proof.
  intros Hi. unfold get_field_last. rewrite idx_ptr_ok by lia.
  rewrite (get_last_loop_ok (Z.to_nat (a + b - 1 - i))) by lia. cbn [mbind option_bind].
  replace (i - a + Z.of_nat (Z.to_nat (a + b - 1 - i))) with (b - 1) by lia.
  by destruct (Z.testbit get_last 1).
Qed.

(** [get_field] by mode: the wanted occurrence, or the end of the run. *)
Lemma get_field_none_ok i occ dt : a <= i < a + b -> 0 <= occ -> occ < n - a \/ (a + occ) * step <= INT_MAX ->
  get_field m start stop f i step occ UBF_BINSRCH_GET_LAST_NONE dt =
  Some (bl_found dt (if occ <? b then Some (start + (a + occ) * step) else None)).
Proof.
  intros Hi Ho Hov. unfold get_field. rewrite get_fld_occ_from_idx_ok by done. cbn [mbind option_bind].
  cbn [UBF_BINSRCH_GET_LAST_NONE Z.testbit].
  assert ((a + occ) * step <= INT_MAX) as Hov2 by nia. clear Hov.
  assert (0 <= a + occ <= INT_MAX) by nia.
  replace (step * (i - (i - a - occ))) with ((a + occ) * step) by lia.
  replace (i + occ - (i - a)) with (a + occ) by lia. rewrite (i32_id (a + occ)) by (unfold INT_MIN; lia).
  rewrite (Z.mul_comm step), i32_id by (unfold INT_MIN; nia).
  destruct (Z.leb_spec occ (i - a)).
  - by rewrite (proj2 (Z.ltb_lt occ b)) by lia.
  - destruct (Z.leb_spec stop (start + (a + occ) * step)).
    + assert (n <= a + occ) by nia. by rewrite (proj2 (Z.ltb_ge occ b)) by lia.
    + assert (a + occ < n) by nia. rewrite Hkey by lia. cbn [mbind option_bind].
      destruct (Z.eqb_spec (key (a + occ)) f) as [He|He].
      * apply Heq in He; [|lia]. by rewrite (proj2 (Z.ltb_lt occ b)) by lia.
      * rewrite Heq in He by lia. by rewrite (proj2 (Z.ltb_ge occ b)) by lia.
Qed.

Lemma get_field_chg_ok i occ dt : a <= i < a + b -> 0 <= occ -> (a + occ) * step <= INT_MAX ->
  get_field m start stop f i step occ UBF_BINSRCH_GET_LAST_CHG dt =
  Some (if occ <? b then bl_found dt (Some (start + (a + occ) * step))
        else {| bl_ret := None; bl_dtype := dt; bl_last_occ := Some (b - 1);
                bl_last_checked := Some (start + (a + b) * step);
                bl_last_match := Some (start + (a + b) * step) |}).
Proof.
  intros Hi Ho Hov2. unfold get_field. rewrite get_fld_occ_from_idx_ok by done. cbn [mbind option_bind].
  rewrite get_field_last_ok by done. cbn [UBF_BINSRCH_GET_LAST_CHG Z.testbit Pos.testbit Z.pred Pos.pred_N].
  assert (0 <= a + occ <= INT_MAX) by nia.
  replace (step * (i - (i - a - occ))) with ((a + occ) * step) by lia.
  replace (i + occ - (i - a)) with (a + occ) by lia. rewrite (i32_id (a + occ)) by (unfold INT_MIN; lia).
  rewrite (Z.mul_comm step), i32_id by (unfold INT_MIN; nia).
  destruct (Z.leb_spec occ (i - a)).
  - by rewrite (proj2 (Z.ltb_lt occ b)) by lia.
  - destruct (Z.leb_spec stop (start + (a + occ) * step)).
    + assert (n <= a + occ) by nia. by rewrite (proj2 (Z.ltb_ge occ b)) by lia.
    + assert (a + occ < n) by nia. rewrite Hkey by lia. cbn [mbind option_bind].
      destruct (Z.eqb_spec (key (a + occ)) f) as [He|He].
      * apply Heq in He; [|lia]. by rewrite (proj2 (Z.ltb_lt occ b)) by lia.
      * rewrite Heq in He by lia. by rewrite (proj2 (Z.ltb_ge occ b)) by lia.
Qed.

(** Asked for no occurrence ([-1]): nothing is written, a position before the
    run is returned. *)
Lemma get_field_any_ok i dt : a <= i < a + b -> exists p,
  get_field m start stop f i step (-1) UBF_BINSRCH_GET_LAST_CHG dt = Some (bl_found dt (Some p)).
Proof.
  intros Hi. unfold get_field. rewrite get_fld_occ_from_idx_ok by done. cbn [mbind option_bind].
  cbn [UBF_BINSRCH_GET_LAST_CHG Z.testbit Pos.testbit Z.pred Pos.pred_N].
  rewrite (proj2 (Z.leb_le (-1) (i - a))) by lia. by eexists.
Qed.


(** The search itself. *)
Lemma bin_search_loop_hit d : forall fuel first last seen,
  0 < b -> 0 <= first <= a -> a + b - 1 <= last < n ->
  (Z.to_nat (last - first + 1) <= d)%nat -> (d < fuel)%nat ->
  exists i, bin_search_loop fuel m start step f first last (Z.quot (first + last) 2) seen
            = Some (inl i) /\ a <= i < a + b.
Proof.
  induction d as [|d IH]; intros [|fuel] first last seen Hb0 Hfi Hla Hd Hf; try lia.
  cbn [bin_search_loop]. rewrite (proj2 (Z.leb_le first last)) by lia.
  rewrite Z.quot_div_nonneg by lia. set (mid := (first + last) / 2).
  assert (first <= mid <= last) by (unfold mid; Z.div_mod_to_equations; lia).
  unfold get_fldid_at_idx. rewrite idx_ptr_ok, Hkey by lia. cbn [mbind option_bind].
  pose proof (Hlt mid ltac:(lia)). pose proof (Heq mid ltac:(lia)).
  destruct (Z.eqb_spec (key mid) f); [exists mid; split; [done|lia]|].
  destruct (Z.ltb_spec (key mid) f); apply IH; lia.
Qed.

Lemma bin_search_loop_miss d : forall fuel first last seen,
  b = 0 -> 0 <= first <= a -> a - 1 <= last < n ->
  (Z.to_nat (last - first + 1) <= d)%nat -> (d < fuel)%nat ->
  exists seen', bin_search_loop fuel m start step f first last (Z.quot (first + last) 2) seen
            = Some (inr seen') /\ (last < first -> seen' = seen) /\
   (first <= last -> exists lm g, seen' = Some (lm, g) /\ 0 <= lm < n /\
      ((g < f /\ lm = a - 1) \/ (f < g /\ lm = a))).
Proof.
  induction d as [|d IH]; intros [|fuel] first last seen Hb0 Hfi Hla Hd Hf; try lia;
    cbn [bin_search_loop]; destruct (Z.leb_spec first last) as [Hle|Hgt]; try lia;
    [by eexists; split; [done|]; split; [done|lia] | |
     by eexists; split; [done|]; split; [done|lia]].
  rewrite Z.quot_div_nonneg by lia. set (mid := (first + last) / 2).
  assert (first <= mid <= last) by (unfold mid; Z.div_mod_to_equations; lia).
  unfold get_fldid_at_idx. rewrite idx_ptr_ok, Hkey by lia. cbn [mbind option_bind].
  pose proof (Hlt mid ltac:(lia)). pose proof (Heq mid ltac:(lia)).
  rewrite (proj2 (Z.eqb_neq (key mid) f)) by lia.
  destruct (Z.ltb_spec (key mid) f).
  - destruct (IH fuel (mid + 1) last (Some (mid, key mid))) as (s' & -> & He & Hs); try lia.
    exists s'. split; [done|]. split; [lia|]. intros _. destruct (Z.leb_spec (mid + 1) last).
    + by apply Hs.
    + rewrite He by lia. exists mid, (key mid). split; [done|]. lia.
  - destruct (IH fuel first (mid - 1) (Some (mid, key mid))) as (s' & -> & He & Hs); try lia.
    exists s'. split; [done|]. split; [lia|]. intros _. destruct (Z.leb_spec first (mid - 1)).
    + by apply Hs.
    + rewrite He by lia. exists mid, (key mid). split; [done|]. lia.
Qed.

(** A miss ends at the first greater field. *)
Lemma bin_search_miss_ok lm g : b = 0 -> 0 <= lm < n ->
  (g < f /\ lm = a - 1) \/ (f < g /\ lm = a) ->
  bin_search_miss m start stop step f (Some (lm, g)) = Some (start + a * step).
Proof.
  intros Hb0 Hl Hc. unfold bin_search_miss. rewrite idx_ptr_ok by lia.
  destruct Hc as [[Hg Hlm]|[Hg Hlm]].
  - rewrite (proj2 (Z.ltb_lt g f)) by lia. cbn [look_forward].
    pose proof (idx_lt lm n ltac:(lia)). rewrite (proj2 (Z.ltb_lt _ stop)), Hkey by lia.
    cbn [mbind option_bind]. rewrite (proj2 (Z.ltb_lt (key lm) f)) by (apply Hlt; lia).
    rewrite idx_ptr_ok by lia. replace (lm + 1) with a by lia.
    destruct (Z.ltb_spec (start + a * step) stop); [|done].
    assert (a < n) by nia. rewrite Hkey by lia. cbn [mbind option_bind].
    pose proof (Hlt a ltac:(lia)). by rewrite (proj2 (Z.ltb_ge (key a) f)) by lia.
  - rewrite (proj2 (Z.ltb_ge g f)) by lia. subst lm. cbn [look_back].
    destruct (Z.ltb_spec start (start + a * step)); [|done].
    assert (0 < a) by nia. rewrite Hkey by lia. cbn [mbind option_bind].
    pose proof (Hlt a ltac:(lia)). pose proof (Heq a ltac:(lia)).
    rewrite (proj2 (Z.ltb_lt f (key a))) by lia. rewrite idx_ptr_ok by lia.
    destruct (Z.ltb_spec start (start + (a - 1) * step)); [|done].
    rewrite Hkey by lia. cbn [mbind option_bind]. pose proof (Hlt (a - 1) ltac:(lia)).
    by rewrite (proj2 (Z.ltb_ge f (key (a - 1)))) by lia.
Qed.

End Area.

(** ** The binary search finds what the block list says *)

Section Binary.
Context `{Platform}.

Definition bin_type (t : Z) : bool := (t <? BFLD_STRING) || (t =? BFLD_PTR).

Lemma bin_row t : usable_type t = true -> bin_type t = true ->
  exists sz, dtype_of t = Some (dflt_type t sz) /\ 1 <= sz <= 8 /\ usable_type (t + 1) = true.
Proof.
  intros Hu%usable_cases Hb. unfold bin_type, BFLD_STRING, BFLD_PTR in Hb.
  destruct Hu as [->|[->|[->|[->|[->|[->|[->|[->|[->| ->]]]]]]]]]; try done;
    (eexists; split; [reflexivity|split; [lia|reflexivity]]).
Qed.

Lemma fixed_blk_size t sz b : wf_blk b -> blk_type b = t -> dtype_of t = Some (dflt_type t sz) ->
  zlen b = ALIGNED_SIZE sz.
Proof.
  intros (dt & e & v & Hdt & _ & _ & _ & _ & Hn)%wf_blk_row Ht Hd. subst t.
  assert (dt = dflt_type (blk_type b) sz) as -> by congruence.
  cbn [p_next dflt_type] in Hn. unfold get_fb_dftl_size in Hn. congruence.
Qed.

Lemma fixed_off t sz T : Forall wf_blk T -> keq blk_type t T -> dtype_of t = Some (dflt_type t sz) ->
  blk_off T = zlen T * ALIGNED_SIZE sz.
Proof.
  intros HW HT Hd. induction T as [|b T IH]; [done|].
  apply Forall_cons in HW as [Hb HW]. apply Forall_cons in HT as [Ht HT].
  rewrite blk_off_cons, zlen_cons, (fixed_blk_size t sz b), IH by done. lia.
Qed.

Lemma fixed_step sz : 1 <= sz <= 8 -> 0 < ALIGNED_SIZE sz <= 23.
Proof.
  intros. pose proof DA_range.
  pose proof (ALIGNED_SIZE_bounds sz ltac:(unfold MAX_PAYLOAD; lia)). lia.
Qed.

(** Occurrence numbers whose byte distance stays within an [int]. *)
Definition occ_fits (u : UBFH) (occ : Z) : Prop := 0 <= occ /\ buf_len u + occ * 23 <= INT_MAX.

(** The area of the type of [fid] in the buffer: [P] has the smaller types,
    [A], [B], [C] the smaller, equal and greater ids of its type. *)
Record bin_split (u : UBFH) (fid : Z) (P A B C Q : list (list Z)) (sz : Z) (tail : list Z) : Prop := {
  bs_data : ubf_data u (P ++ (A ++ B ++ C) ++ Q) tail;
  bs_type : keq blk_type (Bfldtype fid) (A ++ B ++ C);
  bs_lt : klt blk_fid fid (P ++ A);
  bs_eq : keq blk_fid fid B;
  bs_gt : kgt blk_fid fid (C ++ Q);
  bs_dt : dtype_of (Bfldtype fid) = Some (dflt_type (Bfldtype fid) sz);
  bs_sz : 1 <= sz <= 8;
  bs_start : (if BFLD_SHORT <? Bfldtype fid then M_ubf_type_cache (cache u) (Bfldtype fid)
              else Some 0) = Some (blk_off P);
  bs_stop : M_ubf_type_cache (cache u) (Bfldtype fid + 1) = Some (blk_off (P ++ A ++ B ++ C))
}.

Lemma klt_type_fid fid bs : klt blk_type (Bfldtype fid) bs -> klt blk_fid fid bs.
Proof.
  intros Hk. eapply Forall_impl; [exact Hk|]. intros b Hb. cbn in Hb.
  destruct (Z.lt_ge_cases (blk_fid b) fid) as [|Hge]; [done|].
  apply Bfldtype_mono in Hge. unfold blk_type in Hb. lia.
Qed.

Lemma kgt_type_fid fid bs : kgt blk_type (Bfldtype fid) bs -> kgt blk_fid fid bs.
Proof.
  intros Hk. eapply Forall_impl; [exact Hk|]. intros b Hb. cbn in Hb.
  destruct (Z.lt_ge_cases fid (blk_fid b)) as [|Hge]; [done|].
  apply Bfldtype_mono in Hge. unfold blk_type in Hb. lia.
Qed.

(** Where both searches start: the cached offset of the type. *)
Lemma type_start u fid bs : ubf_rep u bs -> fid_ok fid = true -> exists P T Q,
  bs = P ++ T ++ Q /\ klt blk_type (Bfldtype fid) P /\ keq blk_type (Bfldtype fid) T /\
  kgt blk_type (Bfldtype fid) Q /\
  (if BFLD_SHORT <? Bfldtype fid then M_ubf_type_cache (cache u) (Bfldtype fid)
   else Some 0) = Some (blk_off P) /\
  type_off (Bfldtype fid + 1) bs = blk_off (P ++ T).
Proof.
  intros [[tail Hu] Hc] Hf. pose proof (fid_ok_usable _ Hf) as Hus.
  destruct (type_split (Bfldtype fid) bs (ud_sorted _ _ _ Hu)) as (P & T & Q & Hbs & HP & HT & HQ & H1 & H2).
  exists P, T, Q. do 4 (split; [done|]). split; [|done].
  pose proof (Hc _ Hus) as Hct. rewrite H1 in Hct.
  destruct (Z.ltb_spec BFLD_SHORT (Bfldtype fid)); [done|]. unfold BFLD_SHORT in *.
  apply usable_cases in Hus. assert (Bfldtype fid = 0) as Hz by lia.
  rewrite Hz in Hct. done.
Qed.

Lemma bin_split_ex u fid bs :
  ubf_rep u bs -> fid_ok fid = true -> UBF_BINARY_SEARCH_OK fid = true ->
  exists P A B C Q sz tail, bin_split u fid P A B C Q sz tail /\ bs = P ++ (A ++ B ++ C) ++ Q.
Proof.
  intros Hrep Hf Hbin. destruct (type_start u fid bs Hrep Hf) as (P & T & Q & -> & HP & HT & HQ & Hs & He).
  pose proof Hrep as [[tail Hu] Hc].
  destruct (bin_row _ (fid_ok_usable _ Hf) Hbin) as (sz & Hdt & Hsz & Hus1).
  pose proof (ud_sorted _ _ _ Hu) as (_ & (HTs & _ & _)%ksorted_app & _)%ksorted_app.
  destruct (ksorted_split blk_fid fid T HTs) as (A & B & C & -> & HA & HB & HC).
  exists P, A, B, C, Q, sz, tail. split; [|done]. constructor; try done.
  - apply Forall_app. split; [by apply klt_type_fid|done].
  - apply Forall_app. split; [done|by apply kgt_type_fid].
  - rewrite (Hc _ Hus1), He. done.
Qed.

Definition area_key (T : list (list Z)) (i : Z) : Z :=
  match T !! Z.to_nat i with Some b => blk_fid b | None => 0 end.

Lemma area_key_cases A B C fid i :
  0 <= i < zlen (A ++ B ++ C) -> klt blk_fid fid A -> keq blk_fid fid B -> kgt blk_fid fid C ->
  (area_key (A ++ B ++ C) i < fid <-> i < zlen A) /\
  (area_key (A ++ B ++ C) i = fid <-> zlen A <= i < zlen A + zlen B).
Proof.
  intros Hi HA HB HC. unfold area_key. rewrite !zlen_app in Hi. unfold zlen in *.
  destruct (lookup_lt_is_Some_2 (A ++ B ++ C) (Z.to_nat i)) as [b Eb]; [rewrite !length_app; lia|].
  rewrite Eb. apply lookup_app_Some in Eb as [Eb|[? Eb]].
  - pose proof (Forall_lookup_1 _ _ _ _ HA Eb) as Hk. cbn in Hk. apply lookup_lt_Some in Eb. lia.
  - apply lookup_app_Some in Eb as [Eb|[? Eb]].
    + pose proof (Forall_lookup_1 _ _ _ _ HB Eb) as Hk. cbn in Hk. apply lookup_lt_Some in Eb. lia.
    + pose proof (Forall_lookup_1 _ _ _ _ HC Eb) as Hk. cbn in Hk. apply lookup_lt_Some in Eb. lia.
Qed.

Lemma bin_pre_off u fid P A B C Q sz tail L X :
  bin_split u fid P A B C Q sz tail -> A ++ B ++ C = L ++ X ->
  blk_off (P ++ L) = blk_off P + zlen L * ALIGNED_SIZE sz.
Proof.
  intros Hb HL. pose proof (bs_data _ _ _ _ _ _ _ _ _ Hb) as Hu.
  pose proof (bs_type _ _ _ _ _ _ _ _ _ Hb) as HT.
  pose proof (ud_blks _ _ _ Hu) as [_ [HW _]%Forall_app]%Forall_app.
  rewrite HL in HW, HT. apply Forall_app in HW as [HW _]. apply Forall_app in HT as [HT _].
  rewrite blk_off_app. f_equal. apply (fixed_off (Bfldtype fid)); try done.
  by apply (bs_dt _ _ _ _ _ _ _ _ _ Hb).
Qed.

Lemma bin_area_key u fid P A B C Q sz tail i :
  bin_split u fid P A B C Q sz tail -> 0 <= i < zlen (A ++ B ++ C) ->
  ld32 (mem u) (blk_off P + i * ALIGNED_SIZE sz) = Some (area_key (A ++ B ++ C) i).
Proof.
  intros Hb Hi. pose proof (bs_data _ _ _ _ _ _ _ _ _ Hb) as Hu.
  set (T := A ++ B ++ C) in *.
  destruct (lookup_lt_is_Some_2 T (Z.to_nat i)) as [b Eb]; [unfold zlen in Hi; lia|].
  unfold area_key. rewrite Eb. pose proof (take_drop_middle _ _ _ Eb) as HBk.
  rewrite <- HBk in Hu at 1.
  destruct (ubf_at u (P ++ take (Z.to_nat i) T) b (drop (S (Z.to_nat i)) T ++ Q) tail) as (_ & _ & _ & _ & Hf & _).
  { by rewrite <- !app_assoc in Hu |- *. }
  fold (blk_off (P ++ take (Z.to_nat i) T)) in Hf.
  rewrite (bin_pre_off _ _ _ _ _ _ _ _ _ (take (Z.to_nat i) T) (drop (Z.to_nat i) T) Hb) in Hf
    by by rewrite take_drop.
  by rewrite zlen_take in Hf by lia.
Qed.

(** The fields of the type form an area. *)
Lemma bin_area u fid P A B C Q sz tail :
  bin_split u fid P A B C Q sz tail ->
  area (mem u) (blk_off P) (blk_off (P ++ A ++ B ++ C)) (ALIGNED_SIZE sz) fid
    (zlen (A ++ B ++ C)) (zlen A) (zlen B) (area_key (A ++ B ++ C)).
Proof.
  intros Hb. pose proof (bs_data _ _ _ _ _ _ _ _ _ Hb) as Hu.
  pose proof (fixed_step sz (bs_sz _ _ _ _ _ _ _ _ _ Hb)).
  pose proof (bin_pre_off _ _ _ _ _ _ _ _ _ (A ++ B ++ C) [] Hb (eq_sym (app_nil_r _))) as Hend.
  pose proof (bs_lt _ _ _ _ _ _ _ _ _ Hb) as [_ HA]%Forall_app.
  pose proof (bs_eq _ _ _ _ _ _ _ _ _ Hb) as HB.
  pose proof (bs_gt _ _ _ _ _ _ _ _ _ Hb) as [HC _]%Forall_app.
  constructor; try zl.
  - unfold INT_MAX. lia.
  - rewrite app_assoc in Hu. pose proof (ubf_pre_bound _ _ _ _ Hu) as Hp.
    fold (blk_off (P ++ A ++ B ++ C)) in Hp. pose proof (zlen_nonneg (concat P)).
    unfold blk_off at 2 in Hend. lia.
  - intros i Hi. by eapply bin_area_key.
  - intros i Hi. apply (area_key_cases A B C fid i Hi HA HB HC).
  - intros i Hi. apply (area_key_cases A B C fid i Hi HA HB HC).
  - pose proof (ubf_fuel _ _ _ Hu) as Hl. rewrite length_app, length_app in Hl. unfold zlen. lia.
Qed.

Lemma bin_off_take u fid P A B C Q sz tail k :
  bin_split u fid P A B C Q sz tail -> 0 <= k <= zlen B ->
  blk_off ((P ++ A) ++ take (Z.to_nat k) B) = blk_off P + (zlen A + k) * ALIGNED_SIZE sz.
Proof.
  intros Hb Hk.
  rewrite <- app_assoc, (bin_pre_off _ _ _ _ _ _ _ _ _ (A ++ take (Z.to_nat k) B)
    (drop (Z.to_nat k) B ++ C) Hb).
  - by rewrite zlen_app, zlen_take.
  - by rewrite <- app_assoc, (app_assoc (take _ B)), take_drop.
Qed.

Lemma bin_quot u fid P A B C Q sz tail :
  bin_split u fid P A B C Q sz tail ->
  Z.quot (blk_off (P ++ A ++ B ++ C) - blk_off P) (ALIGNED_SIZE sz) = zlen (A ++ B ++ C).
Proof.
  intros Hb. pose proof (ar_stop _ _ _ _ _ _ _ _ _ (bin_area _ _ _ _ _ _ _ _ _ Hb)) as He.
  pose proof (fixed_step sz (bs_sz _ _ _ _ _ _ _ _ _ Hb)). pose proof (zlen_nonneg (A ++ B ++ C)).
  rewrite He, Z.quot_div_nonneg by nia.
  rewrite Z.add_simpl_l. apply Z.div_mul. lia.
Qed.

(** No field of this id: the place where it belongs is reported. *)
Lemma bin_search_absent u fid P A C Q sz tail occ gl :
  bin_split u fid P A [] C Q sz tail -> exists dt,
  get_fld_loc_binary_search u fid occ gl =
  Some {| bl_ret := None; bl_dtype := dt; bl_last_occ := None;
          bl_last_checked := Some (blk_off (P ++ A)); bl_last_match := None |}.
Proof.
  intros Hb. unfold get_fld_loc_binary_search. rewrite (bs_start _ _ _ _ _ _ _ _ _ Hb).
  cbn [mbind option_bind]. rewrite (bs_stop _ _ _ _ _ _ _ _ _ Hb). cbn [mbind option_bind].
  pose proof (bin_area _ _ _ _ _ _ _ _ _ Hb) as Har.
  pose proof (ar_stop _ _ _ _ _ _ _ _ _ Har) as He. pose proof (ar_fuel _ _ _ _ _ _ _ _ _ Har).
  pose proof (fixed_step sz (bs_sz _ _ _ _ _ _ _ _ _ Hb)) as Hst.
  pose proof (bin_off_take _ _ _ _ _ _ _ _ _ 0 Hb ltac:(done)) as HoA.
  rewrite Z.add_0_r, app_nil_r in HoA. pose proof (zlen_nonneg A). pose proof (zlen_nonneg C).
  assert (zlen (A ++ [] ++ C) = zlen A + zlen C) as HlT by zl.
  destruct (Z.leb_spec (blk_off (P ++ A ++ [] ++ C) - blk_off P) 0) as [Hz|Hz].
  - exists None. assert (zlen A = 0) by nia. rewrite HoA. repeat f_equal. lia.
  - rewrite (bs_dt _ _ _ _ _ _ _ _ _ Hb). cbn [mbind option_bind p_next dflt_type].
    unfold get_fb_dftl_size. cbn [mbind option_bind fst].
    rewrite (proj2 (Z.eqb_neq (ALIGNED_SIZE sz) 0)), (bin_quot _ _ _ _ _ _ _ _ _ Hb) by lia.
    destruct (bin_search_loop_miss _ _ _ _ _ _ _ _ _ Har (length (mem u)) (S (length (mem u)))
      0 (zlen (A ++ [] ++ C) - 1) None) as (seen & Hs & _ & Hseen); try (done || lia || nia).
    rewrite Z.add_0_l in Hs. rewrite Hs.
    destruct Hseen as (lm & g & -> & Hlm & Hc); [nia|]. cbn [mbind option_bind].
    rewrite (bin_search_miss_ok _ _ _ _ _ _ _ _ _ Har lm g) by done.
    cbn [mbind option_bind]. rewrite HoA. by eexists.
Qed.

(** The id is there: the search enters [get_field] inside its run. *)
Lemma bin_search_present u fid P A B C Q sz tail occ gl :
  bin_split u fid P A B C Q sz tail -> B <> [] -> exists i,
  zlen A <= i < zlen A + zlen B /\
  get_fld_loc_binary_search u fid occ gl =
  get_field (mem u) (blk_off P) (blk_off (P ++ A ++ B ++ C)) fid i (ALIGNED_SIZE sz) occ gl
    (Some (dflt_type (Bfldtype fid) sz)).
Proof.
  intros Hb HB. unfold get_fld_loc_binary_search. rewrite (bs_start _ _ _ _ _ _ _ _ _ Hb).
  cbn [mbind option_bind]. rewrite (bs_stop _ _ _ _ _ _ _ _ _ Hb). cbn [mbind option_bind].
  pose proof (bin_area _ _ _ _ _ _ _ _ _ Hb) as Har.
  pose proof (ar_stop _ _ _ _ _ _ _ _ _ Har) as He. pose proof (ar_fuel _ _ _ _ _ _ _ _ _ Har).
  pose proof (fixed_step sz (bs_sz _ _ _ _ _ _ _ _ _ Hb)) as Hst.
  assert (0 < zlen B) by (destruct B; [done|]; zl). pose proof (zlen_nonneg A). pose proof (zlen_nonneg C).
  assert (zlen (A ++ B ++ C) = zlen A + zlen B + zlen C) as HlT by zl.
  rewrite (proj2 (Z.leb_gt _ 0)) by nia.
  rewrite (bs_dt _ _ _ _ _ _ _ _ _ Hb). cbn [mbind option_bind p_next dflt_type].
  unfold get_fb_dftl_size. cbn [mbind option_bind fst].
  rewrite (proj2 (Z.eqb_neq (ALIGNED_SIZE sz) 0)), (bin_quot _ _ _ _ _ _ _ _ _ Hb) by lia.
  destruct (bin_search_loop_hit _ _ _ _ _ _ _ _ _ Har (length (mem u)) (S (length (mem u)))
    0 (zlen (A ++ B ++ C) - 1) None) as (i & Hs & Hi); try lia.
  rewrite Z.add_0_l in Hs. rewrite Hs. cbn [mbind option_bind]. by exists i.
Qed.

(** The same, stated for the buffer's own split at [fid]. *)
Variables (u : UBFH) (fid : Z) (L B C : list (list Z)).
Hypotheses (Hrep : ubf_rep u (L ++ B ++ C)) (Hfid : fid_ok fid = true).
Hypotheses (Hbin : UBF_BINARY_SEARCH_OK fid = true).
Hypotheses (HL : klt blk_fid fid L) (HB : keq blk_fid fid B) (HC : kgt blk_fid fid C).

Lemma bin_split_at : exists P A C1 Q sz tail,
  bin_split u fid P A B C1 Q sz tail /\ L = P ++ A /\ C = C1 ++ Q.
Proof.
  destruct (bin_split_ex u fid _ Hrep Hfid Hbin) as (P & A & B' & C1 & Q & sz & tail & Hb & He).
  replace (P ++ (A ++ B' ++ C1) ++ Q) with ((P ++ A) ++ B' ++ C1 ++ Q) in He
    by (by rewrite <- !app_assoc).
  destruct (ksplit_unique blk_fid fid _ _ _ _ _ _ He HL HB HC) as (-> & -> & ->).
  - by apply (bs_lt _ _ _ _ _ _ _ _ _ Hb).
  - by apply (bs_eq _ _ _ _ _ _ _ _ _ Hb).
  - by apply (bs_gt _ _ _ _ _ _ _ _ _ Hb).
  - by exists P, A, C1, Q, sz, tail.
Qed.

Lemma occ_fits_step P A C1 Q sz tail occ : bin_split u fid P A B C1 Q sz tail -> occ_fits u occ ->
  (zlen A + occ) * ALIGNED_SIZE sz <= INT_MAX.
Proof.
  intros Hb [Ho Hm]. pose proof (fixed_step sz (bs_sz _ _ _ _ _ _ _ _ _ Hb)).
  pose proof (bs_data _ _ _ _ _ _ _ _ _ Hb) as Hu.
  pose proof (bin_off_take _ _ _ _ _ _ _ _ _ 0 Hb ltac:(pose proof (zlen_nonneg B); lia)) as Ho2.
  rewrite Z.add_0_r, take_0, app_nil_r in Ho2.
  assert (blk_off (P ++ A) <= buf_len u).
  { pose proof (ud_len _ _ _ Hu) as Hl. pose proof DATA_OFF_range. rewrite (ud_mem _ _ _ Hu) in Hl.
    rewrite !concat_app in Hl. unfold blk_off. rewrite concat_app. zl. }
  assert (0 <= blk_off P) by apply zlen_nonneg. nia.
Qed.

Lemma bin_none_ok occ : occ_fits u occ -> exists r,
  get_fld_loc_binary_search u fid occ UBF_BINSRCH_GET_LAST_NONE = Some r /\
  bl_ret r = (if occ <? zlen B then Some (blk_off (L ++ take (Z.to_nat occ) B)) else None) /\
  (bl_ret r <> None -> bl_dtype r = dtype_of (Bfldtype fid)).
Proof.
  intros Hfit. destruct bin_split_at as (P & A & C1 & Q & sz & tail & Hb & HeL & HeC).
  pose proof Hfit as [Ho _]. destruct (decide (B = [])) as [HB0|HB0].
  - rewrite HB0 in *. destruct (bin_search_absent _ _ _ _ _ _ _ _ occ UBF_BINSRCH_GET_LAST_NONE Hb) as [dt ->].
    eexists. split; [done|]. cbn [bl_ret]. by rewrite (proj2 (Z.ltb_ge occ _)) by zl.
  - destruct (bin_search_present _ _ _ _ _ _ _ _ _ occ UBF_BINSRCH_GET_LAST_NONE Hb HB0) as (i & Hi & ->).
    rewrite (get_field_none_ok _ _ _ _ _ _ _ _ _ (bin_area _ _ _ _ _ _ _ _ _ Hb) i occ)
      by (done || right; by eapply occ_fits_step).
    eexists. split; [done|]. cbn [bl_ret bl_dtype bl_found].
    rewrite (bs_dt _ _ _ _ _ _ _ _ _ Hb). split; [|done].
    destruct (Z.ltb_spec occ (zlen B)); [|done]. rewrite HeL. f_equal.
    by rewrite (bin_off_take _ _ _ _ _ _ _ _ _ occ Hb) by lia.
Qed.

Lemma bin_chg_ok occ : occ_fits u occ -> exists r,
  get_fld_loc_binary_search u fid occ UBF_BINSRCH_GET_LAST_CHG = Some r /\
  if occ <? zlen B
  then bl_ret r = Some (blk_off (L ++ take (Z.to_nat occ) B)) /\ bl_dtype r = dtype_of (Bfldtype fid)
  else bl_ret r = None /\ bl_last_checked r = Some (blk_off (L ++ B)) /\
       default (-1) (bl_last_occ r) = zlen B - 1.
Proof.
  intros Hfit. destruct bin_split_at as (P & A & C1 & Q & sz & tail & Hb & HeL & HeC).
  pose proof Hfit as [Ho _]. destruct (decide (B = [])) as [HB0|HB0].
  - rewrite HB0 in *. destruct (bin_search_absent _ _ _ _ _ _ _ _ occ UBF_BINSRCH_GET_LAST_CHG Hb) as [dt ->].
    eexists. split; [done|]. rewrite (proj2 (Z.ltb_ge occ _)) by zl.
    cbn [bl_ret bl_last_checked bl_last_occ]. by rewrite app_nil_r, HeL.
  - destruct (bin_search_present _ _ _ _ _ _ _ _ _ occ UBF_BINSRCH_GET_LAST_CHG Hb HB0) as (i & Hi & ->).
    rewrite (get_field_chg_ok _ _ _ _ _ _ _ _ _ (bin_area _ _ _ _ _ _ _ _ _ Hb) i occ)
      by (done || by eapply occ_fits_step).
    eexists. split; [done|]. rewrite (bs_dt _ _ _ _ _ _ _ _ _ Hb), HeL.
    destruct (Z.ltb_spec occ (zlen B)); cbn [bl_ret bl_dtype bl_last_checked bl_last_occ bl_found].
    + by rewrite (bin_off_take _ _ _ _ _ _ _ _ _ occ Hb) by lia.
    + pose proof (zlen_nonneg B). split; [done|]. split; [|done].
      rewrite <- (bin_off_take _ _ _ _ _ _ _ _ _ (zlen B) Hb) by lia. f_equal. f_equal.
      unfold zlen. by rewrite Nat2Z.id, firstn_all.
Qed.

Lemma bin_last_ok : exists r,
  get_fld_loc_binary_search u fid (-1) UBF_BINSRCH_GET_LAST = Some r /\
  bl_ret r = None /\
  bl_last_occ r = (match B with [] => None | _ => Some (zlen B - 1) end) /\
  bl_last_match r = (match B with [] => None
                     | _ => Some (blk_off (L ++ take (length B - 1) B)) end).
Proof.
  destruct bin_split_at as (P & A & C1 & Q & sz & tail & Hb & HeL & HeC).
  destruct (decide (B = [])) as [HB0|HB0].
  - rewrite HB0 in *. destruct (bin_search_absent _ _ _ _ _ _ _ _ (-1) UBF_BINSRCH_GET_LAST Hb) as [dt ->].
    by eexists.
  - destruct (bin_search_present _ _ _ _ _ _ _ _ _ (-1) UBF_BINSRCH_GET_LAST Hb HB0) as (i & Hi & ->).
    pose proof (bin_area _ _ _ _ _ _ _ _ _ Hb) as Har.
    unfold get_field. rewrite (get_fld_occ_from_idx_ok _ _ _ _ _ _ _ _ _ Har i) by done.
    cbn [mbind option_bind UBF_BINSRCH_GET_LAST Z.testbit].
    rewrite (get_field_last_ok _ _ _ _ _ _ _ _ _ Har i) by done.
    eexists. split; [done|]. change (Z.testbit UBF_BINSRCH_GET_LAST 1) with false. cbn [bl_ret bl_last_occ bl_last_match].
    assert (0 < zlen B) by (destruct B; [done|]; zl).
    pose proof (bin_off_take _ _ _ _ _ _ _ _ _ (zlen B - 1) Hb ltac:(lia)) as Ho.
    replace (Z.to_nat (zlen B - 1)) with (length B - 1)%nat in Ho by (unfold zlen; lia).
    replace (zlen A + zlen B - 1) with (zlen A + (zlen B - 1)) by lia.
    rewrite <- Ho, <- HeL. by destruct B.
Qed.

(** What [Badd] asks: nothing when the id is there, else the place. *)
Lemma bin_add_ok : exists r,
  get_fld_loc_binary_search u fid (-1) UBF_BINSRCH_GET_LAST_CHG = Some r /\
  bl_last_checked r = (match B with [] => Some (blk_off L) | _ => None end).
Proof.
  destruct bin_split_at as (P & A & C1 & Q & sz & tail & Hb & HeL & HeC).
  destruct (decide (B = [])) as [HB0|HB0].
  - rewrite HB0 in *. destruct (bin_search_absent _ _ _ _ _ _ _ _ (-1) UBF_BINSRCH_GET_LAST_CHG Hb) as [dt ->].
    eexists. split; [done|]. by rewrite HeL.
  - destruct (bin_search_present _ _ _ _ _ _ _ _ _ (-1) UBF_BINSRCH_GET_LAST_CHG Hb HB0) as (i & Hi & ->).
    destruct (get_field_any_ok _ _ _ _ _ _ _ _ _ (bin_area _ _ _ _ _ _ _ _ _ Hb) i
      (Some (dflt_type (Bfldtype fid) sz)) Hi) as [p ->].
    eexists. split; [done|]. by destruct B.
Qed.

End Binary.

Section LinearSplit.
Context `{Platform}.
Variables (u : UBFH) (fid : Z) (L B C : list (list Z)).
Hypotheses (Hrep : ubf_rep u (L ++ B ++ C)) (Hfid : fid_ok fid = true).
Hypotheses (HL : klt blk_fid fid L) (HB : keq blk_fid fid B) (HC : kgt blk_fid fid C).

(** The linear search from the cached offset, for the buffer's split at [fid]. *)
Lemma lin_ok occ : get_fld_loc u fid occ None = Some (loc_result fid occ L B None).
Proof.
  destruct (type_start u fid _ Hrep Hfid) as (P & T & Q & He & HP & HT & HQ & Hs & _).
  pose proof Hrep as [[tail Hu] _].
  pose proof (ud_sorted _ _ _ Hu) as Hso. rewrite He in Hso.
  apply ksorted_app in Hso as (_ & Hso & _). apply ksorted_app in Hso as (HTs & _ & _).
  destruct (ksorted_split blk_fid fid T HTs) as (A & B' & C1 & -> & HA & HB' & HC1).
  replace (P ++ (A ++ B' ++ C1) ++ Q) with ((P ++ A) ++ B' ++ C1 ++ Q) in He
    by (by rewrite <- !app_assoc).
  destruct (ksplit_unique blk_fid fid _ _ _ _ _ _ He HL HB HC) as (-> & -> & ->).
  - apply Forall_app. split; [by apply klt_type_fid|done].
  - done.
  - apply Forall_app. split; [done|by apply kgt_type_fid].
  - rewrite <- app_assoc in Hu.
    destruct (get_fld_loc_ok u tail fid occ P A B' (C1 ++ Q) None) as (ls & Hr & _ & Hi); try done.
    + by apply klt_type_fid.
    + by apply usable_valid, fid_ok_usable.
    + destruct ls as [s|]; [|done]. by destruct (proj2 Hi (ex_intro _ s eq_refl)).
Qed.

End LinearSplit.

(** C17: on a well-formed buffer the binary search and the linear search find
    the same field: for every fixed-size type and every occurrence number that
    is not negative and whose byte distance fits an [int] ([occ_fits]) they
    return the same position, or both none.  For other numbers they do not
    agree: [searches_differ]. *)
Theorem binary_search_equiv_linear `{Platform} u fs fid occ :
  buf_repr u fs -> fid_ok fid = true -> UBF_BINARY_SEARCH_OK fid = true -> occ_fits u occ ->
  exists rb rl,
    get_fld_loc_binary_search u fid occ UBF_BINSRCH_GET_LAST_NONE = Some rb /\
    get_fld_loc u fid occ None = Some rl /\ bl_ret rb = fl_ret rl.
Proof.
  intros (bs & _ & Hrep) Hf Hbin Hfit. pose proof Hrep as [[tail Hu] _].
  destruct (ksorted_split blk_fid fid bs (ud_sorted _ _ _ Hu)) as (L & B & C & -> & HL & HB & HC).
  destruct (bin_none_ok u fid L B C Hrep Hf Hbin HL HB HC occ Hfit) as (rb & -> & Hb & _).
  eexists rb, _. split; [done|]. split; [by apply (lin_ok u fid L B C)|]. rewrite Hb.
  destruct Hfit as [Ho _]. unfold loc_result, loc_found. cbn [fl_ret stopped ls_p].
  rewrite (proj2 (Z.leb_le 0 occ)) by done. cbn [andb].
  destruct (Z.ltb_spec occ (zlen B)); [|done]. unfold loc_idx.
  rewrite (proj2 (Z.ltb_ge occ (-1))), Z.max_l, Z.min_l by lia. done.
Qed.

(** For occurrence 2^29 of a short the binary search gives the first one, and
    for -1 a place in front of the fields; the linear search gives none. *)
Lemma searches_differ :
  (bl_ret <$> @get_fld_loc_binary_search plat4 Demo.demo Demo.fshort 536870912 UBF_BINSRCH_GET_LAST_NONE) = Some (Some 0) /\
  (fl_ret <$> @get_fld_loc plat4 Demo.demo Demo.fshort 536870912 None) = Some None /\
  (bl_ret <$> @get_fld_loc_binary_search plat4 Demo.demo Demo.fshort (-1) UBF_BINSRCH_GET_LAST_NONE) = Some (Some (-8)) /\
  (fl_ret <$> @get_fld_loc plat4 Demo.demo Demo.fshort (-1) None) = Some None.
Proof. split_and!; vm_compute; reflexivity. Qed.

Lemma binary_search_equiv_linear_witness :
  exists rb rl,
    @get_fld_loc_binary_search plat4 Demo.demo Demo.fshort 1 UBF_BINSRCH_GET_LAST_NONE = Some rb /\
    @get_fld_loc plat4 Demo.demo Demo.fshort 1 None = Some rl /\ bl_ret rb = fl_ret rl.
Proof.
  apply (@binary_search_equiv_linear plat4 Demo.demo Demo.fields);
    [apply Demo.demo_repr|reflexivity|reflexivity|split; [lia|vm_compute; discriminate]].
Defined.
