(* ===== verification/UbfOps.v ===== *)
(** * Adding, changing and deleting fields

    [Badd], [Baddfast], [Bdel] and [Bchg] of [libubf/ubf.c] with their
    implementations in [libubf/ubf_impl.c].  Each operation works on the bytes
    of the buffer; the theorems say what it does to the list of fields the
    buffer represents. *)

From S2P Require Import Prelude UbfTypes UbfBuffer UbfSearch.

Section Ops.
Context `{Platform}.

(** The first error recorded is the one reported. *)
Definition or_err (e : option berr) (d : berr) : option berr :=
  match e with Some _ => e | None => Some d end.

(** ** [Badd] *)

(** [Bfld_loc_info_t]: the caller's position for the next call. *)
Record Bfld_loc_info_t := { last_checked : option Z; last_Baddfast : Z }.

Fixpoint add_seek (fuel : nat) (u : UBFH) (bfldid p : Z) (last_start : option Z)
    : option (bres Z * option Z) :=
  match fuel with
  | O => None
  | S fuel =>
      if UBF_EOF u p then Some (BOk p, last_start)
      else
        f ← ld32 (mem u) p;
        if f <=? bfldid then
          last_start ← loc_restart u p f last_start;
          if IS_TYPE_INVALID (Bfldtype f) then Some (BFail (Some BALIGNERR), last_start)
          else
            dt ← dtype_of (Bfldtype f);
            s ← p_next dt (mem u) p;
            let p' := p + s.1 in
            if CHECK_ALIGN u p' then Some (BFail (Some BALIGNERR), last_start)
            else add_seek fuel u bfldid p' last_start
        else Some (BOk p, last_start)
  end.

Record add_out := {
  ao_ub : UBFH;
  ao_res : bres unit;
  ao_last_start : option Z;
  ao_next : option Bfld_loc_info_t
}.

(** Where the scan for the insertion point starts. *)
Definition add_start (u : UBFH) (bfldid : Z) (last_start : option Z)
    (next_fld : option Bfld_loc_info_t) : option Z :=
  match next_fld with
  | Some {| last_checked := Some p |} => Some p
  | _ =>
      match last_start with
      | Some p => Some p
      | None =>
          if UBF_BINARY_SEARCH_OK bfldid then
            r ← get_fld_loc_binary_search u bfldid (-1) UBF_BINSRCH_GET_LAST_CHG;
            Some (default 0 (bl_last_checked r))
          else M_ubf_type_cache (cache u) (Bfldtype bfldid)
      end
  end.

(** Open a gap at [p], store the field, account for it. *)
Definition add_insert (u : UBFH) (dt : dtype_str) (bfldid p : Z) (data : cbuf) (len new_dat_size : Z)
    : option (UBFH * bres unit) :=
  m ← (if UBF_EOF u p then Some (mem u)
       else memmove (mem u) (p + new_dat_size) p (bytes_used u - DATA_OFF - p));
  r ← p_put_data dt m p bfldid data len;
  match r with
  | (m, BFail e) => Some (set_mem u m, BFail e)
  | (m, BOk _) =>
      Some (ubf_cache_shift (set_used (set_mem u m) (i32 (bytes_used u + new_dat_size)))
              bfldid new_dat_size, BOk tt)
  end.

Definition ndrx_Badd (u : UBFH) (bfldid : Z) (data : cbuf) (len : Z) (last_start : option Z)
    (next_fld : option Bfld_loc_info_t) : option add_out :=
  let out u r ls nx := {| ao_ub := u; ao_res := r; ao_last_start := ls; ao_next := nx |} in
  dt ← dtype_of (Bfldtype bfldid);
  sz ← p_get_data_size dt data len;
  let '(new_dat_size, _, err) := sz in
  if new_dat_size <? 0 then Some (out u (BFail err) last_start next_fld)
  else if negb (have_buffer_size u new_dat_size)
  then Some (out u (BFail (Some BNOSPACE)) last_start next_fld)
  else
    p ← add_start u bfldid last_start next_fld;
    r ← add_seek (S (length (mem u))) u bfldid p last_start;
    match r with
    | (BFail e, ls) => Some (out u (BFail e) ls next_fld)
    | (BOk p, ls) =>
        w ← add_insert u dt bfldid p data len new_dat_size;
        match w with
        | (u, BFail e) => Some (out u (BFail e) ls next_fld)
        | (u, BOk _) =>
            Some (out u (BOk tt) ls
                    ((fun i => {| last_checked := Some (p + new_dat_size);
                                  last_Baddfast := last_Baddfast i |}) <$> next_fld))
        end
    end.

Definition Badd (p_ub : option UBFH) (bfldid : Z) (data : cbuf) (len : Z)
    : option (option UBFH * bres unit) :=
  match validate_entry p_ub bfldid 0 0 with
  | BFail e => Some (p_ub, BFail e)
  | BOk u => o ← ndrx_Badd u bfldid data len None None; Some (Some (ao_ub o), ao_res o)
  end.

Definition ndrx_Baddfast (u : UBFH) (bfldid : Z) (data : cbuf) (len : Z)
    (next_fld : option Bfld_loc_info_t) : option (UBFH * bres unit * option Bfld_loc_info_t) :=
  match next_fld with
  | None => Some (u, BFail (Some BEINVAL), None)
  | Some nf =>
      if negb (last_Baddfast nf =? BBADFLDID) && (bfldid <? last_Baddfast nf)
      then Some (u, BFail (Some BEINVAL), next_fld)
      else
        o ← ndrx_Badd u bfldid data len None next_fld;
        match ao_res o with
        | BOk _ => Some (ao_ub o, BOk tt,
                     (fun i => {| last_checked := last_checked i; last_Baddfast := bfldid |})
                       <$> ao_next o)
        | BFail e => Some (ao_ub o, BFail e, ao_next o)
        end
  end.

Definition Baddfast (p_ub : option UBFH) (bfldid : Z) (data : cbuf) (len : Z)
    (next_fld : option Bfld_loc_info_t) : option (option UBFH * bres unit * option Bfld_loc_info_t) :=
  match validate_entry p_ub bfldid 0 0 with
  | BFail e => Some (p_ub, BFail e, next_fld)
  | BOk u => r ← ndrx_Baddfast u bfldid data len next_fld;
             let '(u, res, nf) := r in Some (Some u, res, nf)
  end.

(** ** [Bdel] *)

Definition Bdel (p_ub : option UBFH) (bfldid occ : Z) : option (option UBFH * bres unit) :=
  match validate_entry p_ub bfldid occ 0 with
  | BFail e => Some (p_ub, BFail e)
  | BOk u =>
      l ← get_fld_loc u bfldid occ None;
      match fl_ret l with
      | Some p =>
          dt ← fl_dtype l;
          s ← p_next dt (mem u) p;
          let remove_size := s.1 in
          let move_size := bytes_used u - DATA_OFF - p - remove_size in
          m ← memmove (mem u) p (p + remove_size) move_size;
          Some (Some (ubf_cache_shift (set_used (set_mem u m) (i32 (bytes_used u - remove_size)))
                        bfldid (i32 (-1 * remove_size))), BOk tt)
      | None => Some (Some u, BFail (or_err (fl_err l) BNOTPRES))
      end
  end.

(** ** [Bchg] *)

Record chg_out := { co_ub : UBFH; co_res : bres unit; co_last_start : option Z }.

(** Lookup used by [Bchg]: position and type when present, else the place to
    add at and the last occurrence seen. *)
Record chg_loc := {
  cl_ret : option Z; cl_dtype : option dtype_str;
  cl_last_occ : Z; cl_last_checked : option Z; cl_last_start : option Z; cl_err : option berr
}.

Definition chg_find (u : UBFH) (bfldid occ : Z) (last_start : option Z) : option chg_loc :=
  if UBF_BINARY_SEARCH_OK bfldid then
    r ← get_fld_loc_binary_search u bfldid occ UBF_BINSRCH_GET_LAST_CHG;
    Some {| cl_ret := bl_ret r; cl_dtype := bl_dtype r; cl_last_occ := default (-1) (bl_last_occ r);
            cl_last_checked := bl_last_checked r; cl_last_start := last_start; cl_err := None |}
  else
    l ← get_fld_loc u bfldid occ last_start;
    Some {| cl_ret := fl_ret l; cl_dtype := fl_dtype l; cl_last_occ := fl_last_occ l;
            cl_last_checked := fl_last_checked l; cl_last_start := fl_last_start l;
            cl_err := fl_err l |}.

(** Present: resize the field in place. *)
Definition chg_present (u : UBFH) (dt : dtype_str) (bfldid p : Z) (data : cbuf) (len : Z)
    : option (UBFH * bres unit) :=
  s ← p_next dt (mem u) p;
  let existing_size := s.1 in
  g ← p_get_data_size dt data len;
  let '(target_elem_size, _, err) := g in
  if target_elem_size =? -1 then Some (u, BFail (or_err err BEINVAL))
  else
    let must_have_size := i32 (target_elem_size - existing_size) in
    if (0 <? must_have_size) && negb (have_buffer_size u must_have_size)
    then Some (u, BFail (Some BNOSPACE))
    else
      u ← (if must_have_size =? 0 then Some u
           else
             m ← memmove (mem u) (p + existing_size + must_have_size) (p + existing_size)
                   (bytes_used u - DATA_OFF - (p + existing_size));
             Some (ubf_cache_shift (set_used (set_mem u m) (i32 (bytes_used u + must_have_size)))
                     bfldid must_have_size));
      w ← p_put_data dt (mem u) p bfldid data len;
      match w with
      | (m, BFail e) => Some (set_mem u m, BFail (or_err e BEINVAL))
      | (m, BOk _) => Some (set_mem u m, BOk tt)
      end.

Fixpoint put_empties (n : nat) (e : dtype_ext1) (m : list Z) (p bfldid elem_empty_size : Z)
    : option (list Z * Z) :=
  match n with
  | O => Some (m, p)
  | S n => m ← p_put_empty e m p bfldid;
           put_empties n e m (p + elem_empty_size) bfldid elem_empty_size
  end.

(** Absent: empty occurrences up to the wanted one, then the value. *)
Definition chg_absent (u : UBFH) (bfldid occ p last_occ : Z) (data : cbuf) (len : Z)
    : option (UBFH * bres unit) :=
  dt ← dtype_of (Bfldtype bfldid);
  e ← ext1_of (fld_type dt);
  let missing_occ := i32 (occ - last_occ - 1) in
  let elem_empty_size := p_empty_sz e in
  let empty_elem_tot_size := i32 (missing_occ * elem_empty_size) in
  g ← p_get_data_size dt data len;
  let '(target_elem_size, _, err) := g in
  if target_elem_size =? -1 then Some (u, BFail (or_err err BEINVAL))
  else
    let must_have_size := i32 (empty_elem_tot_size + target_elem_size) in
    if negb (have_buffer_size u must_have_size) then Some (u, BFail (Some BNOSPACE))
    else
      let move_size := bytes_used u - DATA_OFF - p in
      m ← (if 0 <? move_size then memmove (mem u) (p + must_have_size) p move_size
           else Some (mem u));
      q ← put_empties (Z.to_nat missing_occ) e m p bfldid elem_empty_size;
      w ← p_put_data dt q.1 q.2 bfldid data len;
      match w with
      | (m, BFail er) => Some (set_mem u m, BFail (or_err er BEINVAL))
      | (m, BOk _) =>
          Some (ubf_cache_shift (set_used (set_mem u m) (i32 (bytes_used u + must_have_size)))
                  bfldid must_have_size, BOk tt)
      end.

Definition ndrx_Bchg (u : UBFH) (bfldid occ : Z) (buf : option cbuf) (len : Z)
    (last_start : option Z) (upd_only : bool) : option chg_out :=
  let out u r ls := {| co_ub := u; co_res := r; co_last_start := ls |} in
  if occ =? -1 then
    match buf with
    | None => None
    | Some data => r ← Badd (Some u) bfldid data len;
                   Some (out (default u r.1) r.2 last_start)
    end
  else
    match buf with
    | None => r ← Bdel (Some u) bfldid occ; Some (out (default u r.1) r.2 last_start)
    | Some data =>
        l ← chg_find u bfldid occ last_start;
        match cl_ret l with
        | Some p =>
            dt ← cl_dtype l;
            w ← chg_present u dt bfldid p data len;
            Some (out w.1 w.2 (cl_last_start l))
        | None =>
            if upd_only then Some (out u (BOk tt) (cl_last_start l))
            else
              p ← cl_last_checked l;
              w ← chg_absent u bfldid occ p (cl_last_occ l) data len;
              Some (out w.1 w.2 (cl_last_start l))
        end
    end.

Definition Bchg (p_ub : option UBFH) (bfldid occ : Z) (buf : option cbuf) (len : Z)
    : option (option UBFH * bres unit) :=
  match validate_entry p_ub bfldid occ 0 with
  | BFail e => Some (p_ub, BFail e)
  | BOk u => o ← ndrx_Bchg u bfldid occ buf len None false;
             Some (Some (co_ub o), co_res o)
  end.

End Ops.

(** ** Adding *)

Section AddProofs.
Context `{Platform}.

Lemma add_seek_ok R : forall fuel u P C tail fid ls,
  ubf_data u (P ++ R ++ C) tail -> Forall (fun b => blk_fid b <= fid) R -> kgt blk_fid fid C ->
  restart_in P ls -> exists ls',
  add_seek (length R + S fuel) u fid (blk_off P) ls = Some (BOk (blk_off (P ++ R)), ls') /\
  restart_in (P ++ R) ls' /\ (is_Some ls <-> is_Some ls').
Proof.
  induction R as [|b R IH]; intros fuel u P C tail fid ls Hu HR HC Hls.
  - exists ls. rewrite app_nil_r. split; [|done]. cbn [length Nat.add add_seek].
    destruct C as [|c C]; cbn [app] in Hu.
    + rewrite app_nil_r in Hu. unfold blk_off. by rewrite (ubf_at_eof _ _ _ Hu).
    + destruct (ubf_at u P c C tail Hu) as (_ & He & _ & _ & Hf & _).
      unfold blk_off. rewrite He, Hf. cbn [mbind option_bind].
      apply Forall_inv in HC. by rewrite (proj2 (Z.leb_gt (blk_fid c) fid)) by lia.
  - apply Forall_cons in HR as [Hb HR]. cbn [app length Nat.add add_seek] in *.
    destruct (loc_restart_in u tail P b (R ++ C) ls Hu Hls) as (ls1 & Hr & Hin & Hi1).
    destruct (ubf_at u P b (R ++ C) tail Hu) as (_ & He & Ha & _ & Hf & Hv & dt & v & Hdt & _ & Hnx & _).
    fold (blk_off P) in *. rewrite He, Hf. cbn [mbind option_bind].
    rewrite (proj2 (Z.leb_le (blk_fid b) fid)) by done. rewrite Hr. cbn [mbind option_bind].
    fold (blk_type b). rewrite Hv, Hdt. cbn [mbind option_bind]. rewrite Hnx.
    cbn [mbind option_bind fst]. rewrite Ha.
    replace (blk_off P + zlen b) with (blk_off (P ++ [b]))
      by (rewrite blk_off_app, blk_off_cons, blk_off_nil; lia).
    destruct (IH fuel u (P ++ [b]) C tail fid ls1) as (ls2 & He2 & Hin2 & Hi2); try done.
    { by rewrite <- app_assoc. }
    { destruct ls1 as [s|]; [|done]. destruct Hin as (P1 & P2 & -> & ->).
      exists P1, (P2 ++ [b]). by rewrite <- app_assoc. }
    exists ls2. rewrite <- app_assoc in He2, Hin2. split; [done|]. split; [done|]. tauto.
Qed.

(** Inserting one block behind the blocks [L ++ B]. *)
Lemma add_insert_ok u L B C tail fid dt d len v :
  ubf_data u (L ++ B ++ C) tail -> cache_ok (cache u) (L ++ B ++ C) ->
  fid_ok fid = true -> klt blk_fid fid L -> keq blk_fid fid B -> kgt blk_fid fid C ->
  dtype_of (Bfldtype fid) = Some dt -> data_val (Bfldtype fid) d len = Some v ->
  blk_size (Bfldtype fid) v <= zlen tail -> exists b u',
  add_insert u dt fid (blk_off (L ++ B)) d len (blk_size (Bfldtype fid) v) = Some (u', BOk tt) /\
  blk_is (fid, v) b /\ ubf_rep u' (L ++ (B ++ [b]) ++ C) /\ buf_len u' = buf_len u.
Proof.
  intros Hu Hc Hf HL HB HC Hdt Hv Hsz.
  pose proof (fid_ok_usable _ Hf) as Hus. pose proof (data_val_wf _ _ _ _ Hus Hv) as Hw.
  pose proof (blk_size_bounds _ _ Hus Hw) as [Hszb _]. pose proof DA_range.
  assert (mem u = concat (L ++ B) ++ [] ++ concat C ++ tail) as Hm.
  { rewrite (ud_mem _ _ _ Hu), !concat_app, <- !app_assoc. done. }
  set (n := blk_size (Bfldtype fid) v) in *.
  destruct (memmove_resize (concat (L ++ B)) [] (concat C) tail n) as (j & t' & Hmv & Hj & Ht');
    [lia|zl|]. rewrite <- Hm, zlen_nil, Z.add_0_r in Hmv.
  assert (exists j1 t1, (if UBF_EOF u (blk_off (L ++ B)) then Some (mem u)
    else memmove (mem u) (blk_off (L ++ B) + n) (blk_off (L ++ B))
           (bytes_used u - DATA_OFF - blk_off (L ++ B)))
    = Some (concat (L ++ B) ++ j1 ++ concat C ++ t1) /\ zlen j1 = n /\ zlen t1 = zlen tail - n)
    as (j1 & t1 & Hgap & Hj1 & Ht1).
  { destruct C as [|c C].
    - rewrite app_nil_r in Hu. unfold blk_off. rewrite (ubf_at_eof _ _ _ Hu), Hm.
      destruct (split_at tail 0 n) as (x & j1 & t1 & -> & Hx & Hj1); [lia|lia|lia|].
      apply zlen_0_inv in Hx as ->. exists j1, t1. split; [done|]. split; [done|zl].
    - rewrite app_assoc in Hu. destruct (ubf_at u (L ++ B) c C tail Hu) as (_ & He & _).
      unfold blk_off. rewrite He. exists j, t'. split; [|split; [done|zl]]. rewrite <- Hmv. f_equal.
      rewrite (ud_used _ _ _ Hu), concat_app. zl. }
  unfold add_insert. rewrite Hgap. cbn [mbind option_bind].
  destruct (put_data_ctx (concat (L ++ B)) j1 (concat C ++ t1) fid dt d len v) as (b & Hp & Hbl & Hbf & Hbv & Hbw);
    try done. unfold blk_off. rewrite Hp. cbn [mbind option_bind].
  exists b. eexists. split; [done|]. split; [by split|]. split; [|done].
  apply (ubf_rep_splice u L B (B ++ [b]) C tail _ t1 fid n); try done.
  - apply Forall_app. split; [done|]. by repeat constructor.
  - pose proof (ud_blks _ _ _ Hu) as HF. rewrite !Forall_app in HF.
    apply Forall_app. split; [tauto|]. by apply Forall_singleton.
  - rewrite !concat_app. cbn [concat]. by rewrite app_nil_r, <- !app_assoc.
  - rewrite Hm. zl.
  - rewrite !concat_app. cbn [concat]. rewrite app_nil_r. zl.
Qed.


Definition nf_free (nf : option Bfld_loc_info_t) : Prop :=
  match nf with Some {| last_checked := Some _ |} => False | _ => True end.

(** Without a position from the caller the scan starts at or before the
    insertion point. *)
Lemma add_start_ok u L B C fid nf :
  ubf_rep u (L ++ B ++ C) -> fid_ok fid = true ->
  klt blk_fid fid L -> keq blk_fid fid B -> kgt blk_fid fid C -> nf_free nf ->
  exists P R, add_start u fid None nf = Some (blk_off P) /\ L ++ B = P ++ R.
Proof.
  intros Hrep Hf HL HB HC Hnf. unfold add_start.
  replace (match nf with Some {| last_checked := Some p |} => Some p | _ =>
    if UBF_BINARY_SEARCH_OK fid then
      r ← get_fld_loc_binary_search u fid (-1) UBF_BINSRCH_GET_LAST_CHG;
      Some (default 0 (bl_last_checked r))
    else M_ubf_type_cache (cache u) (Bfldtype fid) end) with
    (if UBF_BINARY_SEARCH_OK fid then
      r ← get_fld_loc_binary_search u fid (-1) UBF_BINSRCH_GET_LAST_CHG;
      Some (default 0 (bl_last_checked r))
    else M_ubf_type_cache (cache u) (Bfldtype fid)) by by destruct nf as [[[|] ?]|].
  destruct (UBF_BINARY_SEARCH_OK fid) eqn:Hbin.
  - destruct (bin_add_ok u fid L B C Hrep Hf Hbin HL HB HC) as (r & -> & Hr).
    cbn [mbind option_bind]. rewrite Hr. destruct B as [|b B]; cbn [default].
    + exists L, []. done.
    + exists [], (L ++ b :: B). done.
  - destruct (type_start u fid _ Hrep Hf) as (P & T & Q & He & HP & HT & HQ & Hs & _).
    destruct (Z.ltb_spec BFLD_SHORT (Bfldtype fid)) as [_|Hle].
    + rewrite Hs. pose proof Hrep as [[tail Hu] _].
      apply app_eq_app in He as [l He]. destruct He as [[-> He]|[-> He]].
      * exists P, (l ++ B). by rewrite <- app_assoc.
      * assert (l = []) as ->; [|exists L, B; by rewrite app_nil_r].
        apply klt_type_fid in HP. apply Forall_app in HP as [_ HP].
        destruct l as [|x l]; [done|]. apply Forall_inv in HP. cbn in HP. exfalso.
        assert (x ∈ B ++ C) as Hx by (rewrite He; constructor).
        apply elem_of_app in Hx as [Hx|Hx].
        -- unfold keq in HB. rewrite Forall_forall in HB. specialize (HB _ Hx). cbn in HB. lia.
        -- unfold kgt in HC. rewrite Forall_forall in HC. specialize (HC _ Hx). cbn in HC. lia.
    + exfalso. unfold UBF_BINARY_SEARCH_OK in Hbin. unfold BFLD_SHORT, BFLD_STRING in *. lia.
Qed.

Lemma ndrx_Badd_ok u L B C tail fid d len v ls nf P R :
  ubf_data u (L ++ B ++ C) tail -> cache_ok (cache u) (L ++ B ++ C) ->
  fid_ok fid = true -> klt blk_fid fid L -> keq blk_fid fid B -> kgt blk_fid fid C ->
  data_val (Bfldtype fid) d len = Some v ->
  add_start u fid ls nf = Some (blk_off P) -> L ++ B = P ++ R -> restart_in P ls ->
  exists o, ndrx_Badd u fid d len ls nf = Some o /\
  if blk_size (Bfldtype fid) v <=? zlen tail
  then ao_res o = BOk tt /\ buf_len (ao_ub o) = buf_len u /\
    restart_in (L ++ B) (ao_last_start o) /\ (is_Some ls <-> is_Some (ao_last_start o)) /\
    exists b, blk_is (fid, v) b /\ ubf_rep (ao_ub o) (L ++ (B ++ [b]) ++ C) /\
    ao_next o = (fun i => {| last_checked := Some (blk_off (L ++ B ++ [b]));
                             last_Baddfast := last_Baddfast i |}) <$> nf
  else o = {| ao_ub := u; ao_res := BFail (Some BNOSPACE); ao_last_start := ls; ao_next := nf |}.
Proof.
  intros Hu Hc Hf HL HB HC Hv Hs HP Hls. unfold ndrx_Badd.
  pose proof (fid_ok_usable _ Hf) as Hus. pose proof (data_val_wf _ _ _ _ Hus Hv) as Hw.
  pose proof (blk_size_bounds _ _ Hus Hw) as [Hszb _]. pose proof DA_range.
  destruct (usable_row _ Hus) as (dt & e & Hdt & _ & Hr). rewrite Hdt. cbn [mbind option_bind].
  rewrite (data_val_size _ _ _ _ _ _ Hr Hdt Hv). cbn [mbind option_bind].
  rewrite (proj2 (Z.ltb_ge _ 0)), (have_buffer_size_spec _ _ _ _ Hu) by lia.
  destruct (Z.leb_spec (blk_size (Bfldtype fid) v) (zlen tail)) as [Hfit|Hfit]; cbn [negb].
  - rewrite Hs. cbn [mbind option_bind].
    assert (ubf_data u (P ++ R ++ C) tail) as Hu2 by (rewrite app_assoc, <- HP, <- app_assoc; done).
    assert (exists f, S (length (mem u)) = length R + S f)%nat as [f ->].
    { pose proof (ubf_fuel _ _ _ Hu2) as Hl. rewrite !length_app in Hl.
      exists (length (mem u) - length R)%nat. lia. }
    destruct (add_seek_ok R f u P C tail fid ls) as (ls' & -> & Hin & Hi); try done.
    { assert (Forall (fun b => blk_fid b <= fid) (P ++ R)) as HF.
      { rewrite <- HP. apply Forall_app. split; (eapply Forall_impl; [eassumption|]); cbn; lia. }
      by apply Forall_app in HF as [_ HF]. }
    rewrite <- HP in *. cbn [mbind option_bind].
    destruct (add_insert_ok u L B C tail fid dt d len v) as (b & u' & -> & Hb & Hrep & Hlen); try done.
    cbn [mbind option_bind]. eexists. split; [done|]. cbn. do 4 (split; [done|]). exists b.
    split; [done|]. split; [done|]. rewrite app_assoc, (blk_off_app (L ++ B)), blk_off_cons, blk_off_nil.
    destruct Hb as (Hbw & Hbf & Hbv). rewrite (wf_blk_size b v) by done. unfold blk_type. rewrite Hbf.
    by rewrite Z.add_0_r.
  - by eexists.
Qed.

End AddProofs.

(** ** From blocks to fields *)

Section Repr.
Context `{Platform}.

Lemma blk_is_keys (R : Z -> Prop) fs bs : Forall2 blk_is fs bs ->
  Forall (fun b => R (blk_fid b)) bs -> Forall (fun f : field => R f.1) fs.
Proof.
  induction 1 as [|f b fs bs (_ & Hf & _) _ IH]; intros HF; constructor;
    apply Forall_cons in HF as [Hb HF]; [by rewrite <- Hf|by apply IH].
Qed.

(** The buffer and its fields, split at an id. *)
Lemma repr_split u fs fid : buf_repr u fs -> exists L B C fL fB fC tail,
  fs = fL ++ fB ++ fC /\ Forall2 blk_is fL L /\ Forall2 blk_is fB B /\ Forall2 blk_is fC C /\
  ubf_data u (L ++ B ++ C) tail /\ cache_ok (cache u) (L ++ B ++ C) /\
  klt blk_fid fid L /\ keq blk_fid fid B /\ kgt blk_fid fid C /\
  klt fkey fid fL /\ keq fkey fid fB /\ kgt fkey fid fC /\ zlen tail = buf_len u - bytes_used u.
Proof.
  intros (bs & HF & [[tail Hu] Hc]).
  destruct (ksorted_split blk_fid fid bs (ud_sorted _ _ _ Hu)) as (L & B & C & -> & HL & HB & HC).
  apply Forall2_app_inv_r in HF as (fL & fBC & HFL & HF & ->).
  apply Forall2_app_inv_r in HF as (fB & fC & HFB & HFC & ->).
  exists L, B, C, fL, fB, fC, tail. do 9 (split; [done|]).
  split; [by eapply (blk_is_keys (fun k => k < fid))|].
  split; [by eapply (blk_is_keys (fun k => k = fid))|].
  split; [by eapply (blk_is_keys (fun k => fid < k))|]. by apply (ubf_data_free _ _ _ Hu).
Qed.

Lemma repr_join u L B C fL fB fC :
  ubf_rep u (L ++ B ++ C) -> Forall2 blk_is fL L -> Forall2 blk_is fB B -> Forall2 blk_is fC C ->
  buf_repr u (fL ++ fB ++ fC).
Proof.
  intros Hr HL HB HC. exists (L ++ B ++ C). split; [|done].
  apply Forall2_app; [done|]. by apply Forall2_app.
Qed.

Lemma repr_magic u fs : buf_repr u fs -> magic u = UBF_MAGIC.
Proof. intros (bs & _ & [[tail Hu] _]). by apply (ud_magic _ _ _ Hu). Qed.

Lemma validate_magic u fid occ : magic u = UBF_MAGIC -> fid_ok fid = true -> -1 <= occ ->
  validate_entry (Some u) fid occ 0 = BOk u.
Proof.
  intros Hm Hf Ho. unfold validate_entry. rewrite Hm, bool_decide_eq_true_2 by done.
  pose proof (fid_ok_range _ Hf). pose proof (usable_valid _ (fid_ok_usable _ Hf)) as Hv.
  cbn [negb Z.testbit andb]. unfold BBADFLDID. rewrite Hv.
  by rewrite (proj2 (Z.eqb_neq fid 0)), (proj2 (Z.ltb_ge occ (-1))) by lia.
Qed.

Lemma validate_ok u fs fid occ : buf_repr u fs -> fid_ok fid = true -> -1 <= occ ->
  validate_entry (Some u) fid occ 0 = BOk u.
Proof. intros Hr%repr_magic. by apply validate_magic. Qed.

Lemma repr_range u fs : buf_repr u fs -> 0 <= bytes_used u <= buf_len u /\ buf_len u <= INT_MAX.
Proof.
  intros (bs & _ & [[tail Hu] _]). pose proof (ubf_data_used_le _ _ _ Hu).
  pose proof (ud_max _ _ _ Hu). pose proof (ud_used _ _ _ Hu) as Hus. pose proof DATA_OFF_range.
  pose proof (zlen_nonneg (concat bs)). lia.
Qed.

Definition Bfree (u : UBFH) : Z := buf_len u - bytes_used u.

Lemma rep_used u L B C : ubf_rep u (L ++ B ++ C) ->
  bytes_used u = DATA_OFF + (zlen (concat L) + zlen (concat B) + zlen (concat C)).
Proof. intros [[tail Hu] _]. rewrite (ud_used _ _ _ Hu), !concat_app. zl. Qed.

(** [Badd] with the space it takes. *)
Lemma Badd_ok u fs fid d len v :
  buf_repr u fs -> fid_ok fid = true -> data_val (Bfldtype fid) d len = Some v ->
  if blk_size (Bfldtype fid) v <=? Bfree u
  then exists u', Badd (Some u) fid d len = Some (Some u', BOk tt) /\
         buf_repr u' (kins fkey (fid, v) fs) /\ buf_len u' = buf_len u /\
         Bfree u' = Bfree u - blk_size (Bfldtype fid) v
  else Badd (Some u) fid d len = Some (Some u, BFail (Some BNOSPACE)).
Proof.
  intros Hr Hf Hv. unfold Badd. rewrite (validate_ok u fs) by (done || lia).
  destruct (repr_split u fs fid Hr) as (L & B & C & fL & fB & fC & tail & -> & HFL & HFB & HFC &
    Hu & Hc & HL & HB & HC & HfL & HfB & HfC & Ht).
  destruct (add_start_ok u L B C fid None) as (P & R & Hs & HPR); try done; [by split; eauto|].
  destruct (ndrx_Badd_ok u L B C tail fid d len v None None P R) as (o & -> & Ho); try done.
  replace (Bfree u) with (zlen tail). cbn [mbind option_bind].
  destruct (blk_size (Bfldtype fid) v <=? zlen tail).
  - destruct Ho as (Hres & Hlen & _ & _ & b & Hb & Hrep & _). exists (ao_ub o). rewrite Hres.
    split; [done|]. split; [|split; [done|]].
    + rewrite kins_split by done. rewrite (app_assoc fB).
      eapply repr_join; try done. apply Forall2_app; [done|]. by constructor.
    + unfold Bfree. rewrite Hlen, Ht.
      rewrite (rep_used _ _ _ _ Hrep), (rep_used u L B C) by (by split; eauto).
      destruct Hb as (Hbw & Hbf & Hbv). rewrite !concat_app, !zlen_app. cbn [concat].
      rewrite app_nil_r, (wf_blk_size b v) by done. unfold blk_type. rewrite Hbf. cbn. lia.
  - by rewrite Ho.
Qed.

(** C1: [Badd] of a valid value to a buffer that holds the fields [fs] either
    has the space, and then the buffer holds [fs] with the new field inserted
    as the last occurrence of its id, in id order; or it has not, and then it
    fails with [BNOSPACE] and leaves the buffer as it was.  Every byte the
    call reads or writes lies inside the buffer. *)
Theorem Badd_correct u fs fid d len v :
  buf_repr u fs -> fid_ok fid = true -> data_val (Bfldtype fid) d len = Some v ->
  if blk_size (Bfldtype fid) v <=? Bfree u
  then exists u', Badd (Some u) fid d len = Some (Some u', BOk tt) /\
         buf_repr u' (kins fkey (fid, v) fs) /\ buf_len u' = buf_len u
  else Badd (Some u) fid d len = Some (Some u, BFail (Some BNOSPACE)).
Proof.
  intros Hr Hf Hv. pose proof (Badd_ok u fs fid d len v Hr Hf Hv) as Ha.
  destruct (_ <=? _); [|done]. destruct Ha as (u' & ? & ? & ? & _). eauto.
Qed.

End Repr.

(** ** Deleting *)

Section DelProofs.
Context `{Platform}.

Lemma Bdel_blocks u L B1 b B2 C tail fid :
  ubf_data u (L ++ (B1 ++ b :: B2) ++ C) tail -> cache_ok (cache u) (L ++ (B1 ++ b :: B2) ++ C) ->
  fid_ok fid = true -> klt blk_fid fid L -> keq blk_fid fid (B1 ++ b :: B2) -> kgt blk_fid fid C ->
  exists u', Bdel (Some u) fid (zlen B1) = Some (Some u', BOk tt) /\
    ubf_rep u' (L ++ (B1 ++ B2) ++ C) /\ buf_len u' = buf_len u.
Proof.
  intros Hu Hc Hf HL HB HC. set (B := B1 ++ b :: B2) in *.
  assert (ubf_rep u (L ++ B ++ C)) as Hrep by by split; eauto.
  pose proof (zlen_nonneg B1). unfold Bdel.
  rewrite (validate_magic u fid) by (by apply (ud_magic _ _ _ Hu) || done || lia).
  rewrite (lin_ok u fid L B C) by done. cbn [mbind option_bind].
  assert (loc_found (zlen B1) B = true) as Hfd.
  { unfold loc_found, B. rewrite zlen_app, zlen_cons. pose proof (zlen_nonneg B2).
    rewrite (proj2 (Z.leb_le 0 _)), (proj2 (Z.ltb_lt _ _)) by lia. done. }
  assert (Z.to_nat (loc_idx (zlen B1) (zlen B)) = length B1) as Hk.
  { unfold loc_idx, B. rewrite zlen_app, zlen_cons. pose proof (zlen_nonneg B2).
    rewrite (proj2 (Z.ltb_ge _ (-1))) by lia. unfold zlen in *. lia. }
  unfold loc_result. cbn [fl_ret fl_dtype stopped ls_p]. rewrite Hfd, Hk.
  assert (take (length B1) B = B1) as HtB by apply take_app_length. rewrite HtB.
  assert (ubf_data u ((L ++ B1) ++ b :: B2 ++ C) tail) as Hu1.
  { unfold B in Hu. rewrite <- !app_assoc in Hu |- *. by cbn [app] in Hu. }
  destruct (ubf_at u (L ++ B1) b (B2 ++ C) tail Hu1) as (Hb & _ & _ & _ & _ & _ & dt & v & Hdt & _ & Hnx & Hm).
  assert (blk_fid b = fid) as Hbf by (unfold B in HB; by apply Forall_app in HB as [_ [HB _]%Forall_cons]).
  unfold blk_type in Hdt. rewrite Hbf in Hdt. rewrite Hdt. cbn [mbind option_bind].
  unfold blk_off. rewrite Hnx. cbn [mbind option_bind fst].
  replace (bytes_used u - DATA_OFF - zlen (concat (L ++ B1)) - zlen b) with (zlen (concat (B2 ++ C)))
    by (rewrite (ud_used _ _ _ Hu1), (concat_app (L ++ B1)); cbn [concat]; zl).
  destruct (memmove_resize (concat (L ++ B1)) b (concat (B2 ++ C)) tail 0) as (j & t' & Hmv & Hj & Ht'); [lia|zl|].
  apply zlen_0_inv in Hj as ->. rewrite Z.add_0_r, <- Hm in Hmv. rewrite Hmv. cbn [mbind option_bind].
  eexists. split; [done|]. split; [|done].
  pose proof (wf_blk_bounds b Hb). unfold MAX_PAYLOAD in *. pose proof DA_range.
  replace (bytes_used u - zlen b) with (bytes_used u + - zlen b) by lia.
  replace (i32 (-1 * zlen b)) with (- zlen b) by (rewrite i32_id; [|unfold INT_MIN, INT_MAX]; lia).
  apply (ubf_rep_splice u L B (B1 ++ B2) C tail _ t' fid); try done.
  - by apply fid_ok_usable.
  - unfold B, keq in HB. rewrite Forall_app, Forall_cons in HB. apply Forall_app. tauto.
  - pose proof (ud_blks _ _ _ Hu1) as HF. rewrite !Forall_app, Forall_cons, Forall_app in HF.
    apply Forall_app. tauto.
  - by rewrite !concat_app, <- !app_assoc.
  - rewrite Hm. zl.
  - unfold B. rewrite !concat_app. cbn [concat]. zl.
Qed.

Lemma Forall2_mid fB B1 b B2 : Forall2 blk_is fB (B1 ++ b :: B2) -> exists f1 f f2,
  fB = f1 ++ f :: f2 /\ Forall2 blk_is f1 B1 /\ blk_is f b /\ Forall2 blk_is f2 B2 /\ length f1 = length B1.
Proof.
  intros (f1 & f' & H1 & H2 & ->)%Forall2_app_inv_r.
  inversion H2 as [|f ? f2 ? Hf Hf2]; subst. exists f1, f, f2.
  repeat split; try done; try apply Hf. by eapply Forall2_length.
Qed.

Lemma split_nth {X} (B : list X) k : 0 <= k < zlen B -> exists B1 b B2,
  B = B1 ++ b :: B2 /\ zlen B1 = k.
Proof.
  intros Hk. destruct (lookup_lt_is_Some_2 B (Z.to_nat k)) as [b Eb]; [unfold zlen in Hk; lia|].
  exists (take (Z.to_nat k) B), b, (drop (S (Z.to_nat k)) B).
  rewrite (take_drop_middle _ _ _ Eb). split; [done|]. apply zlen_take. lia.
Qed.

(** An occurrence that is there. *)
Lemma Bdel_ok u fs fid occ :
  buf_repr u fs -> fid_ok fid = true -> 0 <= occ < zlen (koccs fkey fid fs) ->
  exists u', Bdel (Some u) fid occ = Some (Some u', BOk tt) /\
    buf_repr u' (kdel fkey fid (Z.to_nat occ) fs) /\ buf_len u' = buf_len u.
Proof.
  intros Hr Hf.
  destruct (repr_split u fs fid Hr) as (L & B & C & fL & fB & fC & tail & -> & HFL & HFB & HFC &
    Hu & Hc & HL & HB & HC & HfL & HfB & HfC & Ht).
  rewrite koccs_split by done. pose proof (Forall2_length _ _ _ HFB) as Hlen.
  assert (zlen fB = zlen B) as Hz by (unfold zlen; by rewrite Hlen). rewrite Hz. intros Hin.
  destruct (split_nth B occ) as (B1 & b & B2 & -> & Hk); [lia|].
  destruct (Forall2_mid _ _ _ _ HFB) as (f1 & f & f2 & -> & H1 & Hfb & H2 & Hl1).
  destruct (Bdel_blocks u L B1 b B2 C tail fid) as (u' & Hd & Hrep & Hbl); try done.
  rewrite Hk in Hd. exists u'. split; [done|]. split; [|done].
  rewrite kdel_split; [|done|done|unfold zlen in Hk; lia].
  eapply repr_join; try done. by apply Forall2_app.
Qed.

Lemma Bdel_total u fs fid occ :
  buf_repr u fs -> fid_ok fid = true -> -1 <= occ ->
  if (0 <=? occ) && (occ <? zlen (koccs fkey fid fs))
  then exists u', Bdel (Some u) fid occ = Some (Some u', BOk tt) /\
         buf_repr u' (kdel fkey fid (Z.to_nat occ) fs) /\ buf_len u' = buf_len u
  else Bdel (Some u) fid occ = Some (Some u, BFail (Some BNOTPRES)).
Proof.
  intros Hr Hf Ho. destruct ((0 <=? occ) && _) eqn:Hin; [apply Bdel_ok; [done|done|lia]|].
  destruct (repr_split u fs fid Hr) as (L & B & C & fL & fB & fC & tail & -> & HFL & HFB & HFC &
    Hu & Hc & HL & HB & HC & HfL & HfB & HfC & Ht).
  rewrite koccs_split in Hin by done. pose proof (Forall2_length _ _ _ HFB) as Hlen.
  assert (zlen fB = zlen B) as Hz by (unfold zlen; by rewrite Hlen). rewrite Hz in Hin.
  unfold Bdel. rewrite (validate_ok u (fL ++ fB ++ fC)) by done.
  rewrite (lin_ok u fid L B C) by (done || by split; eauto). cbn [mbind option_bind].
  unfold loc_result, loc_found. by rewrite Hin.
Qed.

(** C16: [Bdel] removes exactly the named occurrence and moves nothing else;
    when there is no such occurrence it fails with [BNOTPRES] and leaves the
    buffer as it was. *)
Theorem Bdel_correct u fs fid occ :
  buf_repr u fs -> fid_ok fid = true -> -1 <= occ ->
  if (0 <=? occ) && (occ <? zlen (koccs fkey fid fs))
  then exists u', Bdel (Some u) fid occ = Some (Some u', BOk tt) /\
         buf_repr u' (kdel fkey fid (Z.to_nat occ) fs) /\ buf_len u' = buf_len u
  else Bdel (Some u) fid occ = Some (Some u, BFail (Some BNOTPRES)).
Proof. apply Bdel_total. Qed.

End DelProofs.

(** ** Changing *)

Section ChgProofs.
Context `{Platform}.

Lemma chg_find_ok u L B C fid occ ls :
  ubf_rep u (L ++ B ++ C) -> fid_ok fid = true ->
  klt blk_fid fid L -> keq blk_fid fid B -> kgt blk_fid fid C ->
  occ_fits u occ -> restart_in L ls -> exists l,
  chg_find u fid occ ls = Some l /\ restart_in L (cl_last_start l) /\
  (is_Some ls <-> is_Some (cl_last_start l)) /\
  if occ <? zlen B
  then cl_ret l = Some (blk_off (L ++ take (Z.to_nat occ) B)) /\ cl_dtype l = dtype_of (Bfldtype fid)
  else cl_ret l = None /\ cl_last_checked l = Some (blk_off (L ++ B)) /\
       cl_last_occ l = zlen B - 1.
Proof.
  intros Hrep Hf HL HB HC Hfit Hls. unfold chg_find. destruct (UBF_BINARY_SEARCH_OK fid) eqn:Hbin.
  - destruct (bin_chg_ok u fid L B C Hrep Hf Hbin HL HB HC occ Hfit) as (r & -> & Hr).
    cbn [mbind option_bind]. eexists. split; [done|]. cbn. split; [done|]. split; [done|]. done.
  - assert (exists ls', get_fld_loc u fid occ ls = Some (loc_result fid occ L B ls') /\
      restart_in L ls' /\ (is_Some ls <-> is_Some ls')) as (ls' & -> & Hin & Hi).
    { destruct ls as [s|].
      - destruct Hls as (P & A & -> & ->). pose proof Hrep as [[tail Hu] _].
        apply Forall_app in HL as [HP HA]. rewrite <- app_assoc in Hu.
        apply (get_fld_loc_ok u tail fid occ P A B C (Some (blk_off P))); try done.
        by apply usable_valid, fid_ok_usable.
      - exists None. split; [by apply (lin_ok u fid L B C)|done]. }
    cbn [mbind option_bind]. eexists. split; [done|]. cbn. split; [done|]. split; [done|].
    destruct Hfit as [Ho _]. unfold loc_found, loc_idx.
    rewrite (proj2 (Z.leb_le 0 occ)), (proj2 (Z.ltb_ge occ (-1))) by lia. cbn [andb].
    destruct (Z.ltb_spec occ (zlen B)).
    + split; [|done]. do 3 f_equal. f_equal. lia.
    + pose proof (zlen_nonneg B). split; [done|].
      replace (Z.to_nat (Z.min (Z.max occ 0) (zlen B))) with (length B) by (unfold zlen in *; lia).
      rewrite firstn_all. split; [done|]. unfold zlen. lia.
Qed.

(** Overwriting one block by a new value. *)
Lemma chg_present_ok u L B1 b B2 C tail fid dt d len v :
  ubf_data u (L ++ (B1 ++ b :: B2) ++ C) tail -> cache_ok (cache u) (L ++ (B1 ++ b :: B2) ++ C) ->
  fid_ok fid = true -> klt blk_fid fid L -> keq blk_fid fid (B1 ++ b :: B2) -> kgt blk_fid fid C ->
  dtype_of (Bfldtype fid) = Some dt -> data_val (Bfldtype fid) d len = Some v ->
  if blk_size (Bfldtype fid) v - zlen b <=? zlen tail
  then exists c u', chg_present u dt fid (blk_off (L ++ B1)) d len = Some (u', BOk tt) /\
    blk_is (fid, v) c /\ ubf_rep u' (L ++ (B1 ++ c :: B2) ++ C) /\ buf_len u' = buf_len u
  else chg_present u dt fid (blk_off (L ++ B1)) d len = Some (u, BFail (Some BNOSPACE)).
Proof.
  intros Hu Hc Hf HL HB HC Hdt Hv.
  pose proof (fid_ok_usable _ Hf) as Hus. pose proof (data_val_wf _ _ _ _ Hus Hv) as Hw.
  pose proof (blk_size_bounds _ _ Hus Hw) as [Hszb _]. pose proof DA_range.
  set (n := blk_size (Bfldtype fid) v) in *.
  assert (ubf_data u ((L ++ B1) ++ b :: B2 ++ C) tail) as Hu1.
  { rewrite <- !app_assoc in Hu |- *. by cbn [app] in Hu. }
  destruct (ubf_at u (L ++ B1) b (B2 ++ C) tail Hu1) as (Hb & _ & _ & _ & _ & _ & dt' & v' & Hdt' & _ & Hnx & Hm).
  assert (blk_fid b = fid) as Hbf by (by apply Forall_app in HB as [_ [HB _]%Forall_cons]).
  unfold blk_type in Hdt'. rewrite Hbf in Hdt'. assert (dt' = dt) as -> by congruence.
  destruct (usable_row _ Hus) as (dt1 & e & Hdt1 & _ & Hr). assert (dt1 = dt) as -> by congruence.
  unfold chg_present, blk_off. rewrite Hnx. cbn [mbind option_bind fst].
  rewrite (data_val_size _ _ _ _ _ _ Hr Hdt Hv). cbn [mbind option_bind]. fold n.
  pose proof (wf_blk_bounds b Hb) as Hbb. unfold MAX_PAYLOAD in *.
  rewrite (proj2 (Z.eqb_neq n (-1))), (i32_id (n - zlen b)) by (unfold INT_MIN, INT_MAX; lia).
  rewrite (have_buffer_size_spec _ _ _ _ Hu).
  assert (zlen (concat (L ++ B1)) + zlen b + (n - zlen b) = zlen (concat (L ++ B1)) + n) as -> by lia.
  replace (bytes_used u - DATA_OFF - (zlen (concat (L ++ B1)) + zlen b)) with (zlen (concat (B2 ++ C)))
    by (rewrite (ud_used _ _ _ Hu1), (concat_app (L ++ B1)); cbn [concat]; zl).
  pose proof (ud_blks _ _ _ Hu1) as HFa. rewrite !Forall_app, Forall_cons, Forall_app in HFa.
  unfold keq in HB. rewrite Forall_app, Forall_cons in HB.
  destruct (Z.leb_spec (n - zlen b) (zlen tail)) as [Hfit|Hfit].
  - rewrite andb_false_r.
    destruct (Z.eqb_spec (n - zlen b) 0) as [Hz|Hz]; cbn [mbind option_bind].
    + destruct (put_data_ctx (concat (L ++ B1)) b (concat (B2 ++ C) ++ tail) fid dt d len v)
        as (c & Hp & Hcl & Hcf & Hcv & Hcw); try done; [fold n; lia|].
      rewrite Hm, Hp. cbn [mbind option_bind]. exists c. eexists. split; [done|].
      split; [by split|]. split; [|done].
      apply (ubf_rep_same_size u L (B1 ++ b :: B2) _ C tail _ fid); try done;
        rewrite ?Forall_app, ?Forall_cons; try tauto.
      * apply Forall_app. rewrite Forall_cons. tauto.
      * apply Forall_app. rewrite Forall_cons. tauto.
      * rewrite !concat_app. cbn [concat]. by rewrite <- !app_assoc.
      * rewrite !concat_app. cbn [concat]. zl.
    + destruct (memmove_resize (concat (L ++ B1)) b (concat (B2 ++ C)) tail n)
        as (j & t' & Hmv & Hj & Ht'); [lia|lia|]. rewrite <- Hm in Hmv. rewrite Hmv.
      cbn [mbind option_bind ubf_cache_shift set_cache set_used set_mem mem].
      destruct (put_data_ctx (concat (L ++ B1)) j (concat (B2 ++ C) ++ t') fid dt d len v)
        as (c & Hp & Hcl & Hcf & Hcv & Hcw); try done.
      rewrite Hp. cbn [mbind option_bind]. exists c. eexists. split; [done|].
      split; [by split|]. split; [|done].
      apply (ubf_rep_splice u L (B1 ++ b :: B2) (B1 ++ c :: B2) C tail
        (concat (L ++ B1) ++ c ++ concat (B2 ++ C) ++ t') t' fid (n - zlen b)); try done.
      * apply Forall_app. rewrite Forall_cons. tauto.
      * apply Forall_app. rewrite Forall_cons. tauto.
      * apply Forall_app. rewrite Forall_cons. tauto.
      * rewrite !concat_app. cbn [concat]. by rewrite <- !app_assoc.
      * rewrite Hm. zl.
      * rewrite !concat_app. cbn [concat]. zl.
  - pose proof (zlen_nonneg tail). by rewrite (proj2 (Z.ltb_lt 0 _)) by lia.
Qed.


Lemma put_empties_ok k : forall a j c fid e ev,
  fid_ok fid = true -> ext1_of (Bfldtype fid) = Some e -> empty_val (Bfldtype fid) = Some ev ->
  Z.of_nat k * blk_size (Bfldtype fid) ev <= zlen j -> exists Es j',
  put_empties k e (a ++ j ++ c) (zlen a) fid (p_empty_sz e) =
    Some (a ++ concat Es ++ j' ++ c, zlen a + Z.of_nat k * blk_size (Bfldtype fid) ev) /\
  Forall2 blk_is (replicate k (fid, ev)) Es /\
  zlen (concat Es) = Z.of_nat k * blk_size (Bfldtype fid) ev /\
  zlen j' = zlen j - Z.of_nat k * blk_size (Bfldtype fid) ev.
Proof.
  induction k as [|k IH]; intros a j c fid e ev Hf He Hev Hj; cbn [put_empties].
  - exists [], j. rewrite Z.mul_0_l, Z.add_0_r, Z.sub_0_r. split; [done|]. split; [constructor|done].
  - pose proof (fid_ok_usable _ Hf) as Hus.
    destruct (empty_val_wf _ Hus) as (ev' & Hev' & Hw). assert (ev' = ev) as -> by congruence.
    pose proof (blk_size_bounds _ _ Hus Hw) as [Hszb _]. pose proof DA_range.
    rewrite (empty_val_size _ e ev) by done. set (s := blk_size (Bfldtype fid) ev) in *.
    destruct (split_at j 0 s) as (x & j1 & j2 & -> & Hx & Hj1); [lia|lia|nia|].
    apply zlen_0_inv in Hx as ->. cbn [app] in *. rewrite <- app_assoc.
    destruct (put_empty_ctx a j1 (j2 ++ c) fid e ev) as (b & -> & Hbl & Hbf & Hbv & Hbw); try done.
    cbn [mbind option_bind].
    destruct (IH (a ++ b) j2 c fid e ev) as (Es & j' & He2 & HF & Hl & Hj'); try done.
    { fold s. rewrite zlen_app in Hj. lia. }
    rewrite (empty_val_size _ e ev) in He2 by done. fold s in He2, Hl, Hj'.
    rewrite zlen_app, <- !app_assoc in He2. rewrite Hbl, Hj1 in He2. rewrite He2.
    exists (b :: Es), j'. cbn [concat]. rewrite <- !app_assoc. split; [do 2 f_equal; lia|].
    split; [by constructor|]. rewrite !zlen_app in *. lia.
Qed.

Lemma chg_absent_rep u L B Es b C tail t1 fid ev d k :
  ubf_data u (L ++ B ++ C) tail -> cache_ok (cache u) (L ++ B ++ C) ->
  fid_ok fid = true -> klt blk_fid fid L -> keq blk_fid fid B -> kgt blk_fid fid C ->
  Forall2 blk_is (replicate k (fid, ev)) Es -> blk_fid b = fid -> wf_blk b ->
  d = zlen (concat Es) + zlen b -> zlen t1 = zlen tail - d ->
  ubf_rep (ubf_cache_shift (set_used (set_mem u
     (concat (L ++ B) ++ concat Es ++ b ++ concat C ++ t1)) (i32 (bytes_used u + d))) fid d)
   (L ++ (B ++ Es ++ [b]) ++ C).
Proof.
  intros Hu Hc Hf HL HB HC HEs Hbf Hbw Hd Ht.
  assert (Forall wf_blk Es /\ keq blk_fid fid Es) as [HEw HEk].
  { revert HEs. generalize k. clear. induction Es as [|x Es IH]; intros k HF; [by split; constructor|].
    destruct k as [|k]; cbn [replicate] in HF; inversion HF as [|? ? ? ? (Hw & Hx & _) HF']; subst.
    destruct (IH _ HF'). split; by constructor. }
  pose proof (ud_blks _ _ _ Hu) as HF. rewrite !Forall_app in HF.
  apply (ubf_rep_splice u L B (B ++ Es ++ [b]) C tail
    (concat (L ++ B) ++ concat Es ++ b ++ concat C ++ t1) t1 fid d); try done.
  - by apply fid_ok_usable.
  - repeat (apply Forall_app; split; try done). by repeat constructor.
  - repeat (apply Forall_app; split; try tauto). by apply Forall_singleton.
  - rewrite !concat_app. cbn [concat]. by rewrite app_nil_r, <- !app_assoc.
  - rewrite (ud_mem _ _ _ Hu), !concat_app. zl.
  - rewrite !concat_app. cbn [concat]. rewrite app_nil_r. zl.
Qed.

Lemma chg_absent_ok u L B C tail fid occ d len v ev :
  ubf_data u (L ++ B ++ C) tail -> cache_ok (cache u) (L ++ B ++ C) ->
  fid_ok fid = true -> klt blk_fid fid L -> keq blk_fid fid B -> kgt blk_fid fid C ->
  data_val (Bfldtype fid) d len = Some v -> empty_val (Bfldtype fid) = Some ev ->
  zlen B <= occ ->
  (occ - zlen B) * blk_size (Bfldtype fid) ev + blk_size (Bfldtype fid) v <= INT_MAX ->
  if (occ - zlen B) * blk_size (Bfldtype fid) ev + blk_size (Bfldtype fid) v <=? zlen tail
  then exists Es b u', chg_absent u fid occ (blk_off (L ++ B)) (zlen B - 1) d len = Some (u', BOk tt) /\
    Forall2 blk_is (replicate (Z.to_nat (occ - zlen B)) (fid, ev)) Es /\ blk_is (fid, v) b /\
    ubf_rep u' (L ++ (B ++ Es ++ [b]) ++ C) /\ buf_len u' = buf_len u
  else chg_absent u fid occ (blk_off (L ++ B)) (zlen B - 1) d len = Some (u, BFail (Some BNOSPACE)).
Proof.
  intros Hu Hc Hf HL HB HC Hv Hev Ho Hov.
  pose proof (fid_ok_usable _ Hf) as Hus. pose proof (data_val_wf _ _ _ _ Hus Hv) as Hw.
  pose proof (blk_size_bounds _ _ Hus Hw) as [Hszb _]. pose proof DA_range. pose proof (zlen_nonneg B).
  destruct (empty_val_wf _ Hus) as (ev' & Hev' & Hwe). assert (ev' = ev) as -> by congruence.
  pose proof (blk_size_bounds _ _ Hus Hwe) as [Hesb _].
  destruct (usable_row _ Hus) as (dt & e & Hdt & He & Hr).
  assert (fld_type dt = Bfldtype fid) as Hft by (by destruct Hr as [|Ht|Ht|Ht|Ht]; cbn; rewrite ?Ht).
  unfold chg_absent. rewrite Hdt. cbn [mbind option_bind]. rewrite Hft, He. cbn [mbind option_bind].
  rewrite (data_val_size _ _ _ _ _ _ Hr Hdt Hv). cbn [mbind option_bind].
  set (n := blk_size (Bfldtype fid) v) in *. set (k := occ - zlen B) in *.
  assert (0 <= k <= INT_MAX) by nia.
  replace (occ - (zlen B - 1) - 1) with k by lia. rewrite (i32_id k) by (unfold INT_MIN; lia).
  rewrite (proj2 (Z.eqb_neq n (-1))) by lia.
  rewrite (empty_val_size _ e ev) by done. set (s := blk_size (Bfldtype fid) ev) in *.
  rewrite (i32_id (k * s)), (i32_id (k * s + n)) by (unfold INT_MIN; nia).
  rewrite (have_buffer_size_spec _ _ _ _ Hu).
  destruct (Z.leb_spec (k * s + n) (zlen tail)) as [Hfit|Hfit]; cbn [negb]; [|done].
  assert (mem u = concat (L ++ B) ++ [] ++ concat C ++ tail) as Hm.
  { rewrite (ud_mem _ _ _ Hu), !concat_app, <- !app_assoc. done. }
  replace (bytes_used u - DATA_OFF - blk_off (L ++ B)) with (zlen (concat C))
    by (unfold blk_off; rewrite (ud_used _ _ _ Hu), !concat_app; zl).
  assert (exists j1 t1, (if 0 <? zlen (concat C) then memmove (mem u) (blk_off (L ++ B) + (k * s + n))
      (blk_off (L ++ B)) (zlen (concat C)) else Some (mem u))
    = Some (concat (L ++ B) ++ j1 ++ concat C ++ t1) /\ zlen j1 = k * s + n /\
      zlen t1 = zlen tail - (k * s + n)) as (j1 & t1 & -> & Hj1 & Ht1).
  { destruct (Z.ltb_spec 0 (zlen (concat C))).
    - destruct (memmove_resize (concat (L ++ B)) [] (concat C) tail (k * s + n)) as (j & t' & Hmv & Hj & Ht');
        [nia|zl|]. rewrite <- Hm, zlen_nil, Z.add_0_r in Hmv. exists j, t'. split; [done|]. split; [done|zl].
    - pose proof (zlen_nonneg (concat C)). assert (concat C = []) as HC0 by (apply zlen_0_inv; lia).
      rewrite Hm, HC0. destruct (split_at tail 0 (k * s + n)) as (x & j1 & t1 & -> & Hx & Hj1); [lia|nia|lia|].
      apply zlen_0_inv in Hx as ->. exists j1, t1. split; [done|]. split; [done|zl]. }
  cbn [mbind option_bind]. pose proof (empty_val_size _ e ev Hus He Hev) as Hes. fold s in Hes.
  destruct (put_empties_ok (Z.to_nat k) (concat (L ++ B)) j1 (concat C ++ t1) fid e ev)
    as (Es & j' & Hpe & HEs & HEl & Hj'); try done; [fold s; nia|].
  fold s in Hpe, HEl, Hj'. rewrite Z2Nat.id in Hpe, HEl, Hj' by lia. rewrite Hes in Hpe.
  unfold blk_off. rewrite Hpe. cbn [mbind option_bind fst snd].
  destruct (put_data_ctx (concat (L ++ B) ++ concat Es) j' (concat C ++ t1) fid dt d len v)
    as (b & Hp & Hbl & Hbf & Hbv & Hbw); try done; [fold n; lia|].
  rewrite zlen_app, HEl, <- !app_assoc in Hp. rewrite Hp. cbn [mbind option_bind].
  exists Es, b. eexists. split; [done|]. split; [done|]. split; [by split|]. split; [|done].
  apply (chg_absent_rep u L B Es b C tail t1 fid ev (k * s + n) (Z.to_nat k)); try done; zl.
Qed.


(** The list after a change, and the bytes it needs. *)
Definition chg_spec (fid : Z) (occ : Z) (v ev : cbuf) (fs : list field) : list field :=
  let n := zlen (koccs fkey fid fs) in
  if occ <? n then kset fkey fid (Z.to_nat occ) (fid, v) fs
  else kins fkey (fid, v) (Nat.iter (Z.to_nat (occ - n)) (kins fkey (fid, ev)) fs).

Definition chg_need (fid : Z) (occ : Z) (v ev : cbuf) (fs : list field) : Z :=
  let n := zlen (koccs fkey fid fs) in
  if occ <? n
  then blk_size (Bfldtype fid) v -
       match koccs fkey fid fs !! Z.to_nat occ with Some f => blk_size (Bfldtype fid) f.2 | None => 0 end
  else (occ - n) * blk_size (Bfldtype fid) ev + blk_size (Bfldtype fid) v.

Lemma kins_iter fid ev k fL fB fC :
  klt fkey fid fL -> keq fkey fid fB -> kgt fkey fid fC ->
  Nat.iter k (kins fkey (fid, ev)) (fL ++ fB ++ fC) = fL ++ (fB ++ replicate k (fid, ev)) ++ fC /\
  keq fkey fid (fB ++ replicate k (fid, ev)).
Proof.
  intros HL HB HC. induction k as [|k [IH IHk]]; cbn [Nat.iter].
  - by rewrite app_nil_r.
  - rewrite Nat.iter_succ, IH. change (klt fkey (fid, ev).1 fL) in HL. rewrite kins_split by done.
    rewrite (app_assoc _ [(fid, ev)] fC), <- (app_assoc fB).
    replace (replicate k (fid, ev) ++ [(fid, ev)]) with (replicate (S k) (fid, ev))
      by (by rewrite replicate_S_end).
    split; [done|]. apply Forall_app in IHk as [_ ?]. apply Forall_app. split; [done|]. cbn. by constructor.
Qed.

Lemma blk_is_size f b : blk_is f b -> zlen b = blk_size (Bfldtype f.1) f.2.
Proof. intros (Hw & Hf & Hv). rewrite (wf_blk_size b f.2) by done. unfold blk_type. by rewrite Hf. Qed.

(** [ndrx_Bchg] with a value, block by block. *)
Lemma ndrx_Bchg_blocks u L B C fL fB fC tail fid occ d len v ev ls upd :
  ubf_data u (L ++ B ++ C) tail -> cache_ok (cache u) (L ++ B ++ C) -> fid_ok fid = true ->
  klt blk_fid fid L -> keq blk_fid fid B -> kgt blk_fid fid C ->
  Forall2 blk_is fL L -> Forall2 blk_is fB B -> Forall2 blk_is fC C ->
  klt fkey fid fL -> keq fkey fid fB -> kgt fkey fid fC ->
  data_val (Bfldtype fid) d len = Some v -> empty_val (Bfldtype fid) = Some ev ->
  occ_fits u occ ->
  (upd = false -> zlen fB <= occ -> chg_need fid occ v ev (fL ++ fB ++ fC) <= INT_MAX) -> restart_in L ls ->
  exists o, ndrx_Bchg u fid occ (Some d) len ls upd = Some o /\
  restart_in L (co_last_start o) /\ (is_Some ls <-> is_Some (co_last_start o)) /\
  if upd && (zlen fB <=? occ) then co_res o = BOk tt /\ co_ub o = u
  else if chg_need fid occ v ev (fL ++ fB ++ fC) <=? zlen tail
  then co_res o = BOk tt /\ buf_len (co_ub o) = buf_len u /\
       exists fB' B', Forall2 blk_is fB' B' /\ ubf_rep (co_ub o) (L ++ B' ++ C) /\
         fL ++ fB' ++ fC = chg_spec fid occ v ev (fL ++ fB ++ fC) /\ keq fkey fid fB'
  else co_res o = BFail (Some BNOSPACE) /\ co_ub o = u.
Proof.
  intros Hu Hc Hf HL HB HC HFL HFB HFC HfL HfB HfC Hv Hev Hfit Hov Hls.
  unfold chg_need, chg_spec in *. rewrite koccs_split in Hov |- * by done.
  assert (zlen fB = zlen B) as Hz by (unfold zlen; by rewrite (Forall2_length _ _ _ HFB)).
  rewrite Hz in *. pose proof Hfit as [Ho _].
  unfold ndrx_Bchg. rewrite (proj2 (Z.eqb_neq occ (-1))) by lia.
  destruct (chg_find_ok u L B C fid occ ls) as (l & -> & Hin & Hi & Hl); try done; [by split; eauto|].
  cbn [mbind option_bind]. destruct (Z.ltb_spec occ (zlen B)) as [Hlt|Hge].
  - rewrite (proj2 (Z.leb_gt (zlen B) occ)), andb_false_r by lia.
    destruct Hl as [-> ->]. destruct (usable_row _ (fid_ok_usable _ Hf)) as (dt & e & Hdt & _ & _).
    rewrite Hdt. cbn [mbind option_bind].
    destruct (split_nth B occ) as (B1 & b & B2 & -> & Hk); [lia|].
    destruct (Forall2_mid _ _ _ _ HFB) as (f1 & f & f2 & -> & H1 & Hfb & H2 & Hl1).
    assert (Z.to_nat occ = length B1) as Hko by (unfold zlen in Hk; lia).
    assert (f.1 = fid) as Hff by (by apply Forall_app in HfB as [_ [HfB _]%Forall_cons]).
    clear Hov. rewrite Hko. rewrite take_app_length. rewrite <- Hl1, list_lookup_middle by done.
    pose proof (blk_is_size _ _ Hfb) as Hbs. rewrite Hff in Hbs. rewrite <- Hbs in *.
    pose proof (chg_present_ok u L B1 b B2 C tail fid dt d len v Hu Hc Hf HL HB HC Hdt Hv) as Hp.
    destruct (blk_size (Bfldtype fid) v - zlen b <=? zlen tail).
    + destruct Hp as (c & u' & -> & Hcis & Hrep & Hbl). cbn [mbind option_bind].
      eexists. split; [done|]. cbn. do 4 (split; [done|]).
      exists (f1 ++ (fid, v) :: f2), (B1 ++ c :: B2). split; [by apply Forall2_app; [|constructor]|].
      split; [done|]. rewrite kset_split by done. split; [done|].
      unfold keq in HfB |- *. rewrite Forall_app, Forall_cons in HfB |- *. tauto.
    + rewrite Hp. cbn [mbind option_bind]. eexists. split; [done|]. by cbn.
  - rewrite (proj2 (Z.leb_le (zlen B) occ)), andb_true_r by lia. destruct Hl as (-> & -> & ->).
    destruct upd; [by eexists; split; [done|]|]. cbn [mbind option_bind]. specialize (Hov eq_refl Hge).
    pose proof (chg_absent_ok u L B C tail fid occ d len v ev Hu Hc Hf HL HB HC Hv Hev Hge Hov) as Hp.
    destruct (_ <=? zlen tail).
    + destruct Hp as (Es & b & u' & -> & HEs & Hb & Hrep & Hbl). cbn [mbind option_bind].
      eexists. split; [done|]. cbn. do 4 (split; [done|]).
      exists (fB ++ replicate (Z.to_nat (occ - zlen B)) (fid, ev) ++ [(fid, v)]), (B ++ Es ++ [b]).
      split; [apply Forall2_app; [done|]; apply Forall2_app; [done|]; by constructor|].
      split; [done|]. destruct (kins_iter fid ev (Z.to_nat (occ - zlen B)) fL fB fC) as [-> Hkq]; try done.
      rewrite (kins_split fkey (fid, v)) by done. rewrite <- !app_assoc. split; [done|].
      rewrite app_assoc. apply Forall_app. split; [done|]. by constructor.
    + rewrite Hp. cbn [mbind option_bind]. eexists. split; [done|]. by cbn.
Qed.

Lemma Bchg_ok u fs fid occ d len v ev :
  buf_repr u fs -> fid_ok fid = true ->
  data_val (Bfldtype fid) d len = Some v -> empty_val (Bfldtype fid) = Some ev ->
  occ_fits u occ -> chg_need fid occ v ev fs <= INT_MAX ->
  if chg_need fid occ v ev fs <=? Bfree u
  then exists u', Bchg (Some u) fid occ (Some d) len = Some (Some u', BOk tt) /\
         buf_repr u' (chg_spec fid occ v ev fs) /\ buf_len u' = buf_len u
  else Bchg (Some u) fid occ (Some d) len = Some (Some u, BFail (Some BNOSPACE)).
Proof.
  intros Hr Hf Hv Hev Hfit Hov. unfold Bchg, Bfree. pose proof Hfit as [Ho _].
  rewrite (validate_ok u fs) by (done || lia).
  destruct (repr_split u fs fid Hr) as (L & B & C & fL & fB & fC & tail & -> & HFL & HFB & HFC &
    Hu & Hc & HL & HB & HC & HfL & HfB & HfC & Ht).
  destruct (ndrx_Bchg_blocks u L B C fL fB fC tail fid occ d len v ev None false)
    as (o & -> & _ & _ & Hres); try done.
  cbn [mbind option_bind andb] in *. rewrite <- Ht. destruct (_ <=? zlen tail).
  - destruct Hres as (-> & Hbl & fB' & B' & HF' & Hrep & Hsp & _). exists (co_ub o).
    split; [done|]. split; [|done]. rewrite <- Hsp. by eapply repr_join.
  - by destruct Hres as [-> ->].
Qed.

(** C2: [Bchg] of a valid value at an occurrence number that is not negative
    and so small that the byte distances ([occ_fits]) and the space needed fit
    an [int].  An existing occurrence gets the new value and nothing else moves;
    a missing one is created after padding with empty occurrences up to its
    number.  Without the space the call fails with [BNOSPACE] and the buffer
    keeps its contents.  Greater numbers are not covered: [Bchg_huge_occ]. *)
Theorem Bchg_correct u fs fid occ d len v ev :
  buf_repr u fs -> fid_ok fid = true ->
  data_val (Bfldtype fid) d len = Some v -> empty_val (Bfldtype fid) = Some ev ->
  occ_fits u occ -> chg_need fid occ v ev fs <= INT_MAX ->
  if chg_need fid occ v ev fs <=? Bfree u
  then exists u', Bchg (Some u) fid occ (Some d) len = Some (Some u', BOk tt) /\
         buf_repr u' (chg_spec fid occ v ev fs) /\ buf_len u' = buf_len u
  else Bchg (Some u) fid occ (Some d) len = Some (Some u, BFail (Some BNOSPACE)).
Proof. apply Bchg_ok. Qed.

End ChgProofs.

(** ** Examples *)

Lemma Badd_correct_witness :
  exists u', @Badd plat4 (Some Demo.demo) Demo.fshort (CBytes [7; 0]) 0 = Some (Some u', BOk tt) /\
    @buf_repr plat4 u' (kins fkey (Demo.fshort, CBytes [7; 0]) Demo.fields) /\
    buf_len u' = buf_len Demo.demo.
Proof.
  exact (@Badd_correct plat4 Demo.demo Demo.fields Demo.fshort (CBytes [7; 0]) 0 (CBytes [7; 0])
           Demo.demo_repr eq_refl eq_refl).
Defined.

(** The offset of occurrence 2^29 of a short is 0 in an [int]: the call changes
    the first occurrence and reports success. *)
Lemma Bchg_huge_occ : (snd <$> @Bchg plat4 (Some Demo.demo) Demo.fshort 536870912 (Some (CBytes [9; 0])) 0) = Some (BOk tt) /\
  @Bchg plat4 (Some Demo.demo) Demo.fshort 536870912 (Some (CBytes [9; 0])) 0 =
  @Bchg plat4 (Some Demo.demo) Demo.fshort 0 (Some (CBytes [9; 0])) 0.
Proof. split; vm_compute; reflexivity. Qed.

Lemma Bdel_correct_witness :
  exists u', @Bdel plat4 (Some Demo.demo) Demo.fshort 1 = Some (Some u', BOk tt) /\
    @buf_repr plat4 u' (kdel fkey Demo.fshort 1 Demo.fields) /\ buf_len u' = buf_len Demo.demo.
Proof.
  apply (@Bdel_correct plat4 Demo.demo Demo.fields Demo.fshort 1 Demo.demo_repr eq_refl).
  lia.
Defined.

Lemma Bchg_correct_witness :
  exists u', @Bchg plat4 (Some Demo.demo) Demo.fshort 3 (Some (CBytes [7; 0])) 0 = Some (Some u', BOk tt) /\
    @buf_repr plat4 u' (chg_spec Demo.fshort 3 (CBytes [7; 0]) (CBytes [0; 0]) Demo.fields) /\
    buf_len u' = buf_len Demo.demo.
Proof.
  apply (@Bchg_correct plat4 Demo.demo Demo.fields Demo.fshort 3 (CBytes [7; 0]) 0 (CBytes [7; 0])
           (CBytes [0; 0]) Demo.demo_repr eq_refl eq_refl eq_refl);
    [split; [lia|vm_compute; discriminate]|vm_compute; discriminate].
Defined.
