(* ===== verification/UbfRead.v ===== *)
(** * Reading and iterating

    [Bget], [Bfind], [Bpres], [Boccur], [Blen], [Bgetlast], [Bfindlast],
    [Bnext] and [Bnum] of [libubf/ubf.c], with their implementations in
    [libubf/get_impl.c], [libubf/find_impl.c] and [libubf/ubf_impl.c]. *)

From S2P Require Import Prelude UbfTypes UbfBuffer UbfSearch UbfOps.

Section Read.
Context `{Platform}.

(** The lookup common to the read functions: position, type, error raised. *)
Definition fld_find (u : UBFH) (bfldid occ : Z) : option (option Z * option dtype_str * option berr) :=
  if UBF_BINARY_SEARCH_OK bfldid then
    r ← get_fld_loc_binary_search u bfldid occ UBF_BINSRCH_GET_LAST_NONE;
    Some (bl_ret r, bl_dtype r, None)
  else
    l ← get_fld_loc u bfldid occ None;
    Some (fl_ret l, fl_dtype l, fl_err l).

(** [buf] tells whether the caller passed an output buffer, [len] is [*len]. *)
Definition ndrx_Bget (u : UBFH) (bfldid occ : Z) (buf : bool) (len : option Z)
    : option (bres (option (cbuf * option Z))) :=
  l ← fld_find u bfldid occ;
  let '(p, dt, err) := l in
  match p with
  | None => Some (BFail (or_err err BNOTPRES))
  | Some p =>
      if buf then
        dt ← dt;
        r ← p_get_data dt (mem u) p len;
        Some (match r with BOk v => BOk (Some v) | BFail e => BFail e end)
      else Some (BOk None)
  end.

Definition Bget (p_ub : option UBFH) (bfldid occ : Z) (buf : bool) (len : option Z)
    : option (bres (option (cbuf * option Z))) :=
  match validate_entry p_ub bfldid occ 0 with
  | BFail e => Some (BFail e)
  | BOk u => ndrx_Bget u bfldid occ buf len
  end.

(** Position of the field, pointer to its value, payload length. *)
Definition ndrx_Bfind (u : UBFH) (bfldid occ : Z) : option (bres (Z * cbuf * Z)) :=
  l ← fld_find u bfldid occ;
  let '(p, dt, err) := l in
  match p with
  | None => Some (BFail (or_err err BNOTPRES))
  | Some p =>
      dt ← dt;
      s ← p_next dt (mem u) p;
      d ← field_ptr (fld_type dt) (mem u) p;
      Some (BOk (p, d, s.2))
  end.

Definition Bfind (p_ub : option UBFH) (bfldid occ : Z) : option (bres (cbuf * Z)) :=
  match validate_entry p_ub bfldid occ 0 with
  | BFail e => Some (BFail e)
  | BOk u => r ← ndrx_Bfind u bfldid occ;
             Some (match r with BOk (_, d, l) => BOk (d, l) | BFail e => BFail e end)
  end.

Definition _Bpres (u : UBFH) (bfldid occ : Z) : option bool :=
  l ← fld_find u bfldid occ;
  Some (match l.1.1 with Some _ => true | None => false end).

Definition Bpres (p_ub : option UBFH) (bfldid occ : Z) : option (bool * option berr) :=
  match validate_entry p_ub bfldid occ 0 with
  | BFail e => Some (false, e)
  | BOk u => b ← _Bpres u bfldid occ; Some (b, None)
  end.

Definition ndrx_Boccur (u : UBFH) (bfldid : Z) : option Z :=
  ret ← (if UBF_BINARY_SEARCH_OK bfldid then
           r ← get_fld_loc_binary_search u bfldid (-1) UBF_BINSRCH_GET_LAST;
           Some (default (-1) (bl_last_occ r))
         else l ← get_fld_loc u bfldid (-2) None; Some (fl_last_occ l));
  Some (if ret =? -1 then 0 else ret + 1).

Definition Boccur (p_ub : option UBFH) (bfldid : Z) : option (bres Z) :=
  match validate_entry p_ub bfldid 0 0 with
  | BFail e => Some (BFail e)
  | BOk u => n ← ndrx_Boccur u bfldid; Some (BOk n)
  end.

(** [get_fld_loc] leaves its last occurrence in [ret]; the binary search
    leaves it at [EXSUCCEED]. *)
Definition ndrx_Blen (u : UBFH) (bfldid occ : Z) : option (bres Z) :=
  l ← (if UBF_BINARY_SEARCH_OK bfldid then
         r ← get_fld_loc_binary_search u bfldid occ UBF_BINSRCH_GET_LAST_NONE;
         Some (bl_ret r, bl_dtype r, 0, None)
       else l ← get_fld_loc u bfldid occ None;
            Some (fl_ret l, fl_dtype l, fl_last_occ l, fl_err l));
  let '(p, dt, ret, err) := l in
  match p with
  | Some p => if ret =? -1 then Some (BFail (or_err err BNOTPRES))
              else dt ← dt; s ← p_next dt (mem u) p; Some (BOk s.2)
  | None => Some (BFail (or_err err BNOTPRES))
  end.

Definition Blen (p_ub : option UBFH) (bfldid occ : Z) : option (bres Z) :=
  match validate_entry p_ub bfldid occ 0 with
  | BFail e => Some (BFail e)
  | BOk u => ndrx_Blen u bfldid occ
  end.

(** Last occurrence: (occurrence number, value read). *)
Definition ndrx_Bgetlast (u : UBFH) (bfldid : Z) (buf : bool) (len : option Z)
    : option (bres (Z * option (cbuf * option Z))) :=
  l ← (if UBF_BINARY_SEARCH_OK bfldid then
         r ← get_fld_loc_binary_search u bfldid (-1) UBF_BINSRCH_GET_LAST;
         Some (default (-1) (bl_last_occ r), bl_last_match r, None)
       else l ← get_fld_loc u bfldid (-2) None;
            Some (fl_last_occ l, fl_last_matched l, fl_err l));
  let '(last_occ, last_match, err) := l in
  match err with
  | Some _ => Some (BFail err)
  | None =>
      if last_occ =? -1 then Some (BFail (Some BNOTPRES))
      else
        dt ← dtype_of (Bfldtype bfldid);
        if buf then
          p ← last_match;
          r ← p_get_data dt (mem u) p len;
          Some (match r with BOk v => BOk (last_occ, Some v) | BFail e => BFail e end)
        else Some (BOk (last_occ, None))
  end.

Definition Bgetlast (p_ub : option UBFH) (bfldid : Z) (buf : bool) (len : option Z)
    : option (bres (Z * option (cbuf * option Z))) :=
  match validate_entry p_ub bfldid 0 0 with
  | BFail e => Some (BFail e)
  | BOk u => ndrx_Bgetlast u bfldid buf len
  end.

Definition ndrx_Bfindlast (u : UBFH) (bfldid : Z) : option (bres (Z * cbuf * Z)) :=
  l ← get_fld_loc u bfldid (-2) None;
  dt ← dtype_of (Bfldtype bfldid);
  match fl_err l with
  | Some e => Some (BFail (Some e))
  | None =>
      if fl_last_occ l =? -1 then Some (BFail (Some BNOTPRES))
      else
        p ← fl_last_matched l;
        s ← p_next dt (mem u) p;
        d ← field_ptr (Bfldtype bfldid) (mem u) p;
        Some (BOk (fl_last_occ l, d, s.2))
  end.

Definition Bfindlast (p_ub : option UBFH) (bfldid : Z) : option (bres (Z * cbuf * Z)) :=
  match validate_entry p_ub bfldid 0 0 with
  | BFail e => Some (BFail e)
  | BOk u => ndrx_Bfindlast u bfldid
  end.

(** ** Iteration *)

Record Bnext_state_t := { p_cur_bfldid : Z; cur_occ : Z; st_p_ub : Z; st_size : Z }.

Record next_out := {
  no_state : Bnext_state_t;
  no_found : Z;                          (* 1 found, 0 end of buffer, -1 error *)
  no_err : option berr;
  no_bfldid : Z;
  no_occ : Z;
  no_val : option (cbuf * option Z);     (* value copied to [buf], new [*len] *)
  no_len : option Z;                     (* [*len] when no [buf] was given *)
  no_ptr : option cbuf                   (* [*d_ptr] *)
}.

Definition sizeof_BVIEWFLD : Z := 48.

(** Where the call looks: the start, the position of the state, or the field
    behind it.  [addr] is the address of the buffer, recorded in the state. *)
Definition Bnext_pos (st : Bnext_state_t) (u : UBFH) (addr bfldid : Z) : option (bres Bnext_state_t) :=
  if bfldid =? BFIRSTFLDID then
    Some (BOk {| p_cur_bfldid := 0; cur_occ := 0; st_p_ub := addr; st_size := bytes_used u |})
  else if bfldid =? BBADFLDOCC then Some (BOk st)
  else
    prev_fld ← ld32 (mem u) (p_cur_bfldid st);
    if IS_TYPE_INVALID (Bfldtype prev_fld) then Some (BFail (Some BALIGNERR))
    else
      dt ← dtype_of (Bfldtype prev_fld);
      s ← p_next dt (mem u) (p_cur_bfldid st);
      let p := p_cur_bfldid st + s.1 in
      if CHECK_ALIGN u p then Some (BFail (Some BALIGNERR))
      else
        same ← (if UBF_EOF u p then Some false
                else f ← ld32 (mem u) p; Some (prev_fld =? f));
        Some (BOk {| p_cur_bfldid := p;
                     cur_occ := if same : bool then cur_occ st + 1 else 0;
                     st_p_ub := st_p_ub st; st_size := st_size st |}).

(** What it returns from there. *)
Definition Bnext_ret (st : Bnext_state_t) (u : UBFH) (bfldid occ : Z) (buf : bool)
    (len : option Z) (want_ptr : bool) : option next_out :=
  let p := p_cur_bfldid st in
  if UBF_EOF u p then
    Some {| no_state := st; no_found := 0; no_err := None; no_bfldid := bfldid; no_occ := occ;
            no_val := None; no_len := len; no_ptr := None |}
  else
    f ← ld32 (mem u) p;
    let out found err val len ptr :=
      {| no_state := st; no_found := found; no_err := err; no_bfldid := f;
         no_occ := cur_occ st; no_val := val; no_len := len; no_ptr := ptr |} in
    if IS_TYPE_INVALID (Bfldtype f) then Some (out (-1) (Some BALIGNERR) None len None)
    else
      dt ← dtype_of (Bfldtype f);
      ptr ← (if want_ptr : bool then d ← field_ptr (Bfldtype f) (mem u) p; Some (Some d)
             else Some None);
      if buf then
        let view := Bfldtype f =? BFLD_VIEW in
        if view && match len with Some n => u64 n <? sizeof_BVIEWFLD | None => false end
        then Some (out (-1) (Some BNOSPACE) None len ptr)
        else
          let len := if view then (fun n => i32 (n - sizeof_BVIEWFLD)) <$> len else len in
          r ← p_get_data dt (mem u) p len;
          match r with
          | BFail e => Some (out (-1) e None len ptr)
          | BOk v => Some (out 1 None (Some v) len ptr)
          end
      else
        match len with
        | Some _ => s ← p_next dt (mem u) p; Some (out 1 None None (Some s.2) ptr)
        | None => Some (out 1 None None None ptr)
        end.

Definition ndrx_Bnext (st : Bnext_state_t) (u : UBFH) (addr bfldid occ : Z) (buf : bool)
    (len : option Z) (want_ptr : bool) : option next_out :=
  pos ← Bnext_pos st u addr bfldid;
  match pos with
  | BFail e => Some {| no_state := st; no_found := -1; no_err := e; no_bfldid := bfldid;
                       no_occ := occ; no_val := None; no_len := len; no_ptr := None |}
  | BOk st => Bnext_ret st u bfldid occ buf len want_ptr
  end.

(** [Bnext_int]: the checks of [Bnext] and [Bnext2]. *)
Definition Bnext_int (st : option Bnext_state_t) (p_ub : option (Z * UBFH)) (bfldid occ : option Z)
    (buf : bool) (len : option Z) (want_ptr : bool) : option (bres next_out) :=
  match validate_entry (snd <$> p_ub) 0 0 VALIDATE_MODE_NO_FLD with
  | BFail e => Some (BFail e)
  | BOk u =>
      match bfldid, occ, st with
      | Some bfldid, Some occ, Some st =>
          addr ← fst <$> p_ub;
          if negb (bfldid =? BFIRSTFLDID) && negb (st_p_ub st =? addr)
          then Some (BFail (Some BEINVAL))
          else if negb (bfldid =? BFIRSTFLDID) && negb (st_size st =? bytes_used u)
          then Some (BFail (Some BEINVAL))
          else o ← ndrx_Bnext st u addr bfldid occ buf len want_ptr; Some (BOk o)
      | _, _, _ => Some (BFail (Some BEINVAL))
      end
  end.

Fixpoint Bnum_loop (fuel : nat) (u : UBFH) (addr : Z) (st : Bnext_state_t) (bfldid occ fldcount : Z) : option Z :=
  match fuel with
  | O => None
  | S fuel =>
      o ← ndrx_Bnext st u addr bfldid occ false None false;
      if no_found o =? 1
      then Bnum_loop fuel u addr (no_state o) (no_bfldid o) (no_occ o) (fldcount + 1)
      else Some fldcount
  end.

(** The buffer's address is only recorded in the local state. *)
Definition ndrx_Bnum (u : UBFH) : option Z :=
  Bnum_loop (S (length (mem u))) u 0 {| p_cur_bfldid := 0; cur_occ := 0; st_p_ub := 0; st_size := 0 |}
    BFIRSTFLDID 0 0.

Definition Bnum (p_ub : option UBFH) : option (bres Z) :=
  match validate_entry p_ub 0 0 VALIDATE_MODE_NO_FLD with
  | BFail e => Some (BFail e)
  | BOk u => n ← ndrx_Bnum u; Some (BOk n)
  end.

End Read.

(** ** Lookups *)

Section ReadProofs.
Context `{Platform}.

Lemma fld_find_ok u L B C fid occ :
  ubf_rep u (L ++ B ++ C) -> fid_ok fid = true ->
  klt blk_fid fid L -> keq blk_fid fid B -> kgt blk_fid fid C -> occ_fits u occ ->
  exists dt, fld_find u fid occ =
    Some (if occ <? zlen B then Some (blk_off (L ++ take (Z.to_nat occ) B)) else None, dt, None) /\
    (occ < zlen B -> dt = dtype_of (Bfldtype fid)).
Proof.
  intros Hrep Hf HL HB HC Hfit. unfold fld_find. pose proof Hfit as [Ho _].
  destruct (UBF_BINARY_SEARCH_OK fid) eqn:Hbin.
  - destruct (bin_none_ok u fid L B C Hrep Hf Hbin HL HB HC occ Hfit) as (r & -> & Hr & Hd).
    cbn [mbind option_bind]. rewrite Hr in Hd |- *. eexists. split; [done|]. intros Hlt.
    rewrite (proj2 (Z.ltb_lt _ _) Hlt) in Hd. by apply Hd.
  - rewrite (lin_ok u fid L B C) by done. cbn [mbind option_bind].
    unfold loc_result, loc_found. cbn [fl_ret fl_dtype fl_err stopped ls_p].
    rewrite (proj2 (Z.leb_le 0 occ)) by done. cbn [andb].
    destruct (Z.ltb_spec occ (zlen B)).
    + eexists. split; [|done]. unfold loc_idx.
      rewrite (proj2 (Z.ltb_ge occ (-1))), Z.max_l, Z.min_l by lia. done.
    + eexists. split; [done|]. lia.
Qed.

(** The field the lookup lands on. *)
Lemma field_at u L B C fB tail fid occ :
  ubf_data u (L ++ B ++ C) tail -> keq blk_fid fid B -> Forall2 blk_is fB B ->
  0 <= occ < zlen B -> exists b v R, fB !! Z.to_nat occ = Some (fid, v) /\ wf_blk b /\
  blk_type b = Bfldtype fid /\ blk_val b = Some v /\
  mem u = concat (L ++ take (Z.to_nat occ) B) ++ b ++ R.
Proof.
  intros Hu HB HF Ho. destruct (split_nth B occ) as (B1 & b & B2 & -> & Hk); [lia|].
  destruct (Forall2_mid _ _ _ _ HF) as (f1 & [fid' v] & f2 & -> & H1 & (Hbw & Hbf & Hbv) & H2 & Hl1).
  assert (Z.to_nat occ = length B1) as Hko by (unfold zlen in Hk; lia).
  apply Forall_app in HB as [_ [Hb _]%Forall_cons]. cbn in Hbf, Hbv.
  exists b, v, (concat (B2 ++ C) ++ tail). rewrite Hko, <- Hl1, list_lookup_middle by done.
  split; [congruence|]. split; [done|]. split; [unfold blk_type; congruence|]. split; [done|].
  rewrite Hl1, take_app_length, (ud_mem _ _ _ Hu), !concat_app. cbn [concat]. by rewrite <- !app_assoc.
Qed.

Lemma ndrx_Boccur_ok u L B C fid :
  ubf_rep u (L ++ B ++ C) -> fid_ok fid = true ->
  klt blk_fid fid L -> keq blk_fid fid B -> kgt blk_fid fid C ->
  ndrx_Boccur u fid = Some (zlen B).
Proof.
  intros Hrep Hf HL HB HC. unfold ndrx_Boccur. pose proof (zlen_nonneg B).
  assert (forall r, r = zlen B - 1 -> (if r =? -1 then 0 else r + 1) = zlen B) as Hfin.
  { intros r ->. destruct (Z.eqb_spec (zlen B - 1) (-1)); lia. }
  destruct (UBF_BINARY_SEARCH_OK fid) eqn:Hbin.
  - destruct (bin_last_ok u fid L B C Hrep Hf Hbin HL HB HC) as (r & -> & _ & Hr & _).
    cbn [mbind option_bind]. rewrite Hr. f_equal. apply Hfin. by destruct B.
  - rewrite (lin_ok u fid L B C) by done. cbn [mbind option_bind]. f_equal. apply Hfin.
    unfold loc_result. cbn [fl_last_occ stopped ls_iocc]. change (loc_idx (-2) (zlen B)) with (zlen B). lia.
Qed.

Lemma ndrx_Blen_ok u L B C fB tail fid occ :
  ubf_data u (L ++ B ++ C) tail -> ubf_rep u (L ++ B ++ C) -> fid_ok fid = true ->
  klt blk_fid fid L -> keq blk_fid fid B -> kgt blk_fid fid C -> Forall2 blk_is fB B ->
  occ_fits u occ ->
  ndrx_Blen u fid occ = Some (match fB !! Z.to_nat occ with
                              | Some (_, v) => BOk (val_len v)
                              | None => BFail (Some BNOTPRES) end).
Proof.
  intros Hu Hrep Hf HL HB HC HF Hfit. pose proof Hfit as [Ho _].
  assert (zlen fB = zlen B) as Hz by (unfold zlen; by rewrite (Forall2_length _ _ _ HF)).
  assert (exists dt ret, (if UBF_BINARY_SEARCH_OK fid then
      r ← get_fld_loc_binary_search u fid occ UBF_BINSRCH_GET_LAST_NONE;
      Some (bl_ret r, bl_dtype r, 0, None)
    else l ← get_fld_loc u fid occ None; Some (fl_ret l, fl_dtype l, fl_last_occ l, fl_err l)) =
    Some (if occ <? zlen B then Some (blk_off (L ++ take (Z.to_nat occ) B)) else None, dt, ret, None) /\
    (occ < zlen B -> dt = dtype_of (Bfldtype fid) /\ ret <> -1)) as (dt & ret & Hl & Hd).
  { destruct (fld_find_ok u L B C fid occ Hrep Hf HL HB HC Hfit) as (dt & Hfd & Hd).
    unfold fld_find in Hfd. destruct (UBF_BINARY_SEARCH_OK fid).
    - apply bind_Some_inv in Hfd as (x & -> & Hfd). injection Hfd as Hfd Hfd2.
      cbn [mbind option_bind]. rewrite Hfd. exists (bl_dtype x), 0. split; [done|].
      intros Hlt. split; [|done]. rewrite Hfd2. by apply Hd.
    - rewrite (lin_ok u fid L B C) in Hfd |- * by done. cbn [mbind option_bind] in *.
      unfold loc_result in *. cbn [fl_ret fl_dtype fl_last_occ fl_err stopped ls_p ls_iocc] in *.
      injection Hfd as Hfd Hfd2. rewrite Hfd. eexists _, _. split; [done|].
      intros Hlt. split; [rewrite Hfd2; by apply Hd|].
      unfold loc_idx. destruct (Z.ltb_spec occ (-1)); lia. }
  unfold ndrx_Blen. rewrite Hl. cbn [mbind option_bind].
  destruct (Z.ltb_spec occ (zlen B)) as [Hlt|Hge].
  - destruct (Hd Hlt) as [-> Hret]. rewrite (proj2 (Z.eqb_neq ret (-1))) by done.
    destruct (field_at u L B C fB tail fid occ) as (b & v & R & -> & Hbw & Hbt & Hbv & Hm); try done.
    rewrite <- Hbt. destruct (wf_blk_next (concat (L ++ take (Z.to_nat occ) B)) b R Hbw) as (dt2 & v2 & Hdt2 & Hv2 & Hn).
    rewrite Hdt2. cbn [mbind option_bind]. unfold blk_off. rewrite Hm, Hn. cbn. congruence.
  - by rewrite lookup_ge_None_2 by (unfold zlen in *; lia).
Qed.

Lemma ndrx_Bget_ok u L B C fB tail fid occ len :
  ubf_data u (L ++ B ++ C) tail -> cache_ok (cache u) (L ++ B ++ C) -> fid_ok fid = true ->
  klt blk_fid fid L -> keq blk_fid fid B -> kgt blk_fid fid C -> Forall2 blk_is fB B ->
  occ_fits u occ ->
  ndrx_Bget u fid occ true len =
  Some (match fB !! Z.to_nat occ with
        | None => BFail (Some BNOTPRES)
        | Some (_, v) => if get_fits (Bfldtype fid) v len
                         then BOk (Some (v, (fun _ => val_len v) <$> len))
                         else BFail (Some BNOSPACE)
        end).
Proof.
  intros Hu Hc Hf HL HB HC HFB Hfit. pose proof Hfit as [Ho _]. unfold ndrx_Bget.
  assert (zlen fB = zlen B) as Hz by (unfold zlen; by rewrite (Forall2_length _ _ _ HFB)).
  destruct (fld_find_ok u L B C fid occ) as (dt & -> & Hdt); try done; [by split; eauto|].
  cbn [mbind option_bind]. destruct (Z.ltb_spec occ (zlen B)) as [Hlt|Hge].
  - destruct (field_at u L B C fB tail fid occ) as (b & v & R & -> & Hbw & Hbt & Hbv & Hm); try done.
    rewrite (Hdt Hlt). destruct (wf_blk_row b Hbw) as (dt' & e & v' & Hdt' & _).
    rewrite <- Hbt, Hdt'. cbn [mbind option_bind]. unfold blk_off. rewrite Hm.
    rewrite (wf_blk_get_fits _ b R dt' v len) by done. cbn [mbind option_bind].
    by destruct (get_fits (blk_type b) v len).
  - by rewrite lookup_ge_None_2 by (unfold zlen in *; lia).
Qed.

Lemma Bget_ok u fs fid occ len :
  buf_repr u fs -> fid_ok fid = true -> occ_fits u occ ->
  Bget (Some u) fid occ true len =
  Some (match koccs fkey fid fs !! Z.to_nat occ with
        | None => BFail (Some BNOTPRES)
        | Some (_, v) => if get_fits (Bfldtype fid) v len
                         then BOk (Some (v, (fun _ => val_len v) <$> len))
                         else BFail (Some BNOSPACE)
        end).
Proof.
  intros Hr Hf Hfit. pose proof Hfit as [Ho _].
  unfold Bget. rewrite (validate_ok u fs) by (done || lia).
  destruct (repr_split u fs fid Hr) as (L & B & C & fL & fB & fC & tail & -> & HFL & HFB & HFC &
    Hu & Hc & HL & HB & HC & HfL & HfB & HfC & Ht).
  rewrite koccs_split by done. by apply (ndrx_Bget_ok u L B C fB tail).
Qed.


(** [Bfind] points at the value of the named occurrence and gives its
    length, or reports [BNOTPRES]. *)
Theorem Bfind_correct u fs fid occ :
  buf_repr u fs -> fid_ok fid = true -> occ_fits u occ ->
  match koccs fkey fid fs !! Z.to_nat occ with
  | None => Bfind (Some u) fid occ = Some (BFail (Some BNOTPRES))
  | Some (_, v) => exists d, Bfind (Some u) fid occ = Some (BOk (d, val_len v)) /\
                             data_val (Bfldtype fid) d (val_len v) = Some v
  end.
Proof.
  intros Hr Hf Hfit. pose proof Hfit as [Ho _].
  unfold Bfind, ndrx_Bfind. rewrite (validate_ok u fs) by (done || lia).
  destruct (repr_split u fs fid Hr) as (L & B & C & fL & fB & fC & tail & -> & HFL & HFB & HFC &
    Hu & Hc & HL & HB & HC & HfL & HfB & HfC & Ht).
  assert (zlen fB = zlen B) as Hz by (unfold zlen; by rewrite (Forall2_length _ _ _ HFB)).
  destruct (fld_find_ok u L B C fid occ) as (dt & -> & Hdt); try done; [by split; eauto|].
  cbn [mbind option_bind]. rewrite koccs_split by done.
  destruct (Z.ltb_spec occ (zlen B)) as [Hlt|Hge].
  - destruct (field_at u L B C fB tail fid occ) as (b & v & R & -> & Hbw & Hbt & Hbv & Hm); try done.
    rewrite (Hdt Hlt). destruct (wf_blk_row b Hbw) as (dt' & e & v' & Hdt' & He & Hrow & _).
    rewrite <- Hbt, Hdt'. cbn [mbind option_bind]. unfold blk_off. rewrite Hm.
    destruct (wf_blk_next (concat (L ++ take (Z.to_nat occ) B)) b R Hbw) as (dt2 & v2 & Hdt2 & Hv2 & Hn).
    assert (dt2 = dt') as -> by congruence. assert (v2 = v) as -> by congruence.
    rewrite Hn. cbn [mbind option_bind snd].
    assert (fld_type dt' = blk_type b) as -> by (by destruct Hrow as [|Hq|Hq|Hq|Hq]; cbn; rewrite ?Hq).
    destruct (wf_blk_ptr (concat (L ++ take (Z.to_nat occ) B)) b R v Hbw Hbv) as (d & -> & Hd).
    cbn [mbind option_bind]. by exists d.
  - rewrite lookup_ge_None_2 by (unfold zlen in *; lia). done.
Qed.

Lemma _Bpres_ok u fs fid occ : buf_repr u fs -> fid_ok fid = true -> occ_fits u occ ->
  _Bpres u fid occ = Some (occ <? zlen (koccs fkey fid fs)).
Proof.
  intros Hr Hf Hfit.
  destruct (repr_split u fs fid Hr) as (L & B & C & fL & fB & fC & tail & -> & HFL & HFB & HFC &
    Hu & Hc & HL & HB & HC & HfL & HfB & HfC & Ht).
  assert (zlen fB = zlen B) as Hz by (unfold zlen; by rewrite (Forall2_length _ _ _ HFB)).
  destruct (fld_find_ok u L B C fid occ) as (dt & Hfind & Hdt); try done; [by split; eauto|].
  unfold _Bpres. rewrite koccs_split, Hfind by done. cbn [mbind option_bind fst].
  rewrite Hz. by destruct (occ <? zlen B).
Qed.

(** [Bpres] is true exactly for the occurrences that are there, [Boccur]
    counts them, and [Blen] gives the length of each. *)
Theorem Bpres_Boccur_Blen_correct u fs fid occ :
  buf_repr u fs -> fid_ok fid = true -> occ_fits u occ ->
  Bpres (Some u) fid occ = Some (occ <? zlen (koccs fkey fid fs), None) /\
  Boccur (Some u) fid = Some (BOk (zlen (koccs fkey fid fs))) /\
  Blen (Some u) fid occ = Some (match koccs fkey fid fs !! Z.to_nat occ with
                                | Some (_, v) => BOk (val_len v)
                                | None => BFail (Some BNOTPRES) end).
Proof.
  intros Hr Hf Hfit. pose proof Hfit as [Ho _].
  unfold Bpres, Boccur, Blen. rewrite !(validate_ok u fs), (_Bpres_ok u fs) by (done || lia).
  destruct (repr_split u fs fid Hr) as (L & B & C & fL & fB & fC & tail & -> & HFL & HFB & HFC &
    Hu & Hc & HL & HB & HC & HfL & HfB & HfC & Ht).
  assert (zlen fB = zlen B) as Hz by (unfold zlen; by rewrite (Forall2_length _ _ _ HFB)).
  assert (ubf_rep u (L ++ B ++ C)) as Hrep by by split; eauto.
  rewrite koccs_split by done. split; [done|]. split.
  - rewrite (ndrx_Boccur_ok u L B C fid) by done. by rewrite Hz.
  - apply (ndrx_Blen_ok u L B C fB tail fid occ); done.
Qed.

(** The lookup of the last occurrence, by either search. *)
Lemma Bgetlast_loc u L B C fid :
  ubf_rep u (L ++ B ++ C) -> fid_ok fid = true ->
  klt blk_fid fid L -> keq blk_fid fid B -> kgt blk_fid fid C ->
  (if UBF_BINARY_SEARCH_OK fid then
     r ← get_fld_loc_binary_search u fid (-1) UBF_BINSRCH_GET_LAST;
     Some (default (-1) (bl_last_occ r), bl_last_match r, None)
   else l ← get_fld_loc u fid (-2) None; Some (fl_last_occ l, fl_last_matched l, fl_err l)) =
  Some (zlen B - 1, match B with [] => None | _ => Some (blk_off (L ++ take (length B - 1) B)) end, None).
Proof.
  intros Hrep Hf HL HB HC. destruct (UBF_BINARY_SEARCH_OK fid) eqn:Hbin.
  - destruct (bin_last_ok u fid L B C Hrep Hf Hbin HL HB HC) as (r & -> & _ & Ho & Hm).
    cbn [mbind option_bind]. rewrite Ho, Hm. by destruct B.
  - rewrite (lin_ok u fid L B C) by done. cbn [mbind option_bind]. unfold loc_result.
    cbn [fl_last_occ fl_last_matched fl_err stopped ls_iocc ls_matched].
    change (loc_idx (-2) (zlen B)) with (zlen B). pose proof (zlen_nonneg B).
    replace (Z.min (Z.of_nat (Z.to_nat (zlen B))) (zlen B - 1)) with (zlen B - 1) by lia.
    replace (Nat.min (Z.to_nat (zlen B)) (length B - 1)) with (length B - 1)%nat by (unfold zlen; lia).
    done.
Qed.

(** [Bgetlast] and [Bfindlast] report the number and the value of the last
    occurrence, or [BNOTPRES] when there is none. *)
Theorem Bgetlast_Bfindlast_correct u fs fid len :
  buf_repr u fs -> fid_ok fid = true ->
  match last (koccs fkey fid fs) with
  | None => Bgetlast (Some u) fid true len = Some (BFail (Some BNOTPRES)) /\
            Bfindlast (Some u) fid = Some (BFail (Some BNOTPRES))
  | Some (_, v) =>
      Bgetlast (Some u) fid true len =
        Some (if get_fits (Bfldtype fid) v len
              then BOk (zlen (koccs fkey fid fs) - 1, Some (v, (fun _ => val_len v) <$> len))
              else BFail (Some BNOSPACE)) /\
      exists d, Bfindlast (Some u) fid = Some (BOk (zlen (koccs fkey fid fs) - 1, d, val_len v)) /\
                data_val (Bfldtype fid) d (val_len v) = Some v
  end.
Proof.
  intros Hr Hf. unfold Bgetlast, Bfindlast. rewrite !(validate_ok u fs) by (done || lia).
  destruct (repr_split u fs fid Hr) as (L & B & C & fL & fB & fC & tail & -> & HFL & HFB & HFC &
    Hu & Hc & HL & HB & HC & HfL & HfB & HfC & Ht).
  rewrite koccs_split by done. assert (ubf_rep u (L ++ B ++ C)) as Hrep by by split; eauto.
  assert (zlen fB = zlen B) as Hz by (unfold zlen; by rewrite (Forall2_length _ _ _ HFB)).
  pose proof (Bgetlast_loc u L B C fid Hrep Hf HL HB HC) as Hloc.
  pose proof (lin_ok u fid L B C Hrep Hf HL HB HC (-2)) as Hlin.
  unfold ndrx_Bgetlast, ndrx_Bfindlast. rewrite Hloc, Hlin. cbn [mbind option_bind].
  unfold loc_result. cbn [fl_err fl_last_occ fl_last_matched stopped ls_iocc ls_matched].
  change (loc_idx (-2) (zlen B)) with (zlen B).
  replace (Z.min (Z.of_nat (Z.to_nat (zlen B))) (zlen B - 1)) with (zlen B - 1)
    by (unfold zlen; lia).
  destruct (usable_row _ (fid_ok_usable _ Hf)) as (dt & e & Hdt & _ & _). rewrite Hdt.
  cbn [mbind option_bind]. rewrite last_lookup, Hz. destruct B as [|b0 B'] eqn:EB.
  - destruct fB; [|done]. done.
  - rewrite <- EB in *. assert (0 < zlen B) by (subst; zl).
    destruct (field_at u L B C fB tail fid (zlen B - 1)) as (b & v & R & Hlk & Hbw & Hbt & Hbv & Hm);
      try done; [lia|].
    replace (pred (length fB)) with (Z.to_nat (zlen B - 1)) by (unfold zlen in *; lia).
    rewrite Hlk, (proj2 (Z.eqb_neq (zlen B - 1) (-1))) by lia.
    replace (Nat.min (Z.to_nat (zlen B)) (length B - 1)) with (Z.to_nat (zlen B - 1)) by (unfold zlen; lia).
    replace (length B - 1)%nat with (Z.to_nat (zlen B - 1)) by (unfold zlen; lia).
    cbn [mbind option_bind]. rewrite Hm. rewrite <- Hbt in Hdt |- *. unfold blk_off.
    rewrite (wf_blk_get_fits _ b R dt v len) by done. cbn [mbind option_bind].
    split; [by destruct (get_fits (blk_type b) v len)|].
    destruct (wf_blk_next (concat (L ++ take (Z.to_nat (zlen B - 1)) B)) b R Hbw) as (dt2 & v2 & Hdt2 & Hv2 & Hn).
    assert (dt2 = dt) as -> by congruence. assert (v2 = v) as -> by congruence.
    rewrite Hn. cbn [mbind option_bind snd].
    destruct (wf_blk_ptr (concat (L ++ take (Z.to_nat (zlen B - 1)) B)) b R v Hbw Hbv) as (d & -> & Hd).
    cbn [mbind option_bind]. by exists d.
Qed.

End ReadProofs.

(** ** Iteration visits every field once, in order *)

Section NextProofs.
Context `{Platform}.

(** A caller's loop over [Bnext]: the (id, occurrence, value) triples it sees. *)
Fixpoint Bnext_all (fuel : nat) (u : UBFH) (addr : Z) (st : Bnext_state_t) (bfldid occ : Z)
    : option (list (Z * Z * option (cbuf * option Z))) :=
  match fuel with
  | O => None
  | S fuel =>
      o ← ndrx_Bnext st u addr bfldid occ true None false;
      if no_found o =? 1
      then rest ← Bnext_all fuel u addr (no_state o) (no_bfldid o) (no_occ o);
           Some ((no_bfldid o, no_occ o, no_val o) :: rest)
      else Some []
  end.

(** The fields with their occurrence numbers. *)
Fixpoint numbered (done fs : list field) : list (Z * Z * option (cbuf * option Z)) :=
  match fs with
  | [] => []
  | f :: fs => (f.1, zlen (koccs fkey f.1 done), Some (f.2, None)) :: numbered (done ++ [f]) fs
  end.

(** Occurrence count of the block in front of [R], after the blocks [P]. *)
Definition run_occ (P R : list (list Z)) : Z :=
  match R with [] => 0 | b :: _ => zlen (koccs blk_fid (blk_fid b) P) end.

Lemma run_occ_step P b R : ksorted blk_fid (P ++ b :: R) ->
  run_occ (P ++ [b]) R =
  match R with [] => 0 | c :: _ => if blk_fid b =? blk_fid c then run_occ P (b :: R) + 1 else 0 end.
Proof.
  intros Hs. destruct R as [|c R]; [done|]. cbn [run_occ]. unfold koccs. rewrite filter_app.
  destruct (Z.eqb_spec (blk_fid b) (blk_fid c)) as [He|He].
  - rewrite (filter_cons_True _ b) by done. rewrite He. zl.
  - rewrite (filter_cons_False _ b), app_nil_r by done.
    apply ksorted_app in Hs as (_ & Hbc & HP). apply StronglySorted_inv in Hbc as [_ Hbc%Forall_inv].
    assert (filter (fun x => blk_fid x = blk_fid c) P = []) as ->; [|done].
    induction HP as [|x P Hx _ IH]; [done|]. apply Forall_inv in Hx. cbn in Hx, Hbc.
    by rewrite filter_cons_False by lia.
Qed.

Lemma Bnext_pos_step st u P b R tail addr :
  ubf_data u (P ++ b :: R) tail -> p_cur_bfldid st = blk_off P -> cur_occ st = run_occ P (b :: R) ->
  Bnext_pos st u addr (blk_fid b) =
  Some (BOk {| p_cur_bfldid := blk_off (P ++ [b]); cur_occ := run_occ (P ++ [b]) R;
               st_p_ub := st_p_ub st; st_size := st_size st |}).
Proof.
  intros Hu Hp Ho. pose proof (ud_sorted _ _ _ Hu) as Hs.
  destruct (ubf_at u P b R tail Hu) as (Hb & _ & Ha & He & Hf & Hv & dt & v & Hdt & _ & Hn & _).
  pose proof (fid_ok_range _ (wf_blk_fid_ok _ Hb)). unfold Bnext_pos, BFIRSTFLDID, BBADFLDOCC.
  rewrite (proj2 (Z.eqb_neq (blk_fid b) 0)), (proj2 (Z.eqb_neq (blk_fid b) (-1))) by lia.
  rewrite Hp. fold (blk_off P) in *. rewrite Hf. cbn [mbind option_bind]. fold (blk_type b).
  rewrite Hv, Hdt. cbn [mbind option_bind]. rewrite Hn. cbn [mbind option_bind fst]. rewrite Ha, He.
  replace (blk_off P + zlen b) with (blk_off (P ++ [b])) by (rewrite blk_off_app, blk_off_cons, blk_off_nil; lia).
  rewrite run_occ_step by done. destruct R as [|c R]; [done|].
  assert (ubf_data u ((P ++ [b]) ++ c :: R) tail) as Hu' by by rewrite <- app_assoc.
  destruct (ubf_at u (P ++ [b]) c R tail Hu') as (_ & _ & _ & _ & Hf' & _).
  fold (blk_off (P ++ [b])) in Hf'. rewrite Hf'. cbn [mbind option_bind]. by rewrite Ho.
Qed.

(** The value seen at a field, or only the field. *)
Lemma Bnext_ret_ok st u P b R tail v bfldid occ buf :
  ubf_data u (P ++ b :: R) tail -> p_cur_bfldid st = blk_off P -> blk_val b = Some v ->
  Bnext_ret st u bfldid occ buf None false =
  Some {| no_state := st; no_found := 1; no_err := None; no_bfldid := blk_fid b;
          no_occ := cur_occ st; no_val := if buf then Some (v, None) else None;
          no_len := None; no_ptr := None |}.
Proof.
  intros Hu Hp Hbv. unfold Bnext_ret. rewrite Hp.
  destruct (ubf_at u P b R tail Hu) as (Hb & Hef & _ & _ & Hf & Hv & dt & v' & Hdt & _ & Hn & Hm).
  fold (blk_off P) in *. rewrite Hef, Hf. cbn [mbind option_bind]. fold (blk_type b).
  rewrite Hv, Hdt. cbn [mbind option_bind]. destruct buf; [|done].
  rewrite andb_false_r. replace (if blk_type b =? BFLD_VIEW then _ else None) with (@None Z)
    by by destruct (blk_type b =? BFLD_VIEW).
  unfold blk_off. by rewrite Hm, (wf_blk_get _ b _ dt v None).
Qed.

Lemma Bnext_ret_eof st u bs tail bfldid occ buf :
  ubf_data u bs tail -> p_cur_bfldid st = blk_off bs ->
  Bnext_ret st u bfldid occ buf None false =
  Some {| no_state := st; no_found := 0; no_err := None; no_bfldid := bfldid; no_occ := occ;
          no_val := None; no_len := None; no_ptr := None |}.
Proof. intros Hu Hp. unfold Bnext_ret, blk_off in *. by rewrite Hp, (ubf_at_eof _ _ _ Hu). Qed.

Lemma koccs_blk_is k fs bs : Forall2 blk_is fs bs -> zlen (koccs fkey k fs) = zlen (koccs blk_fid k bs).
Proof.
  unfold koccs. induction 1 as [|f b fs bs (_ & Hf & _) _ IH]; [done|].
  rewrite !filter_cons, Hf. destruct (decide (f.1 = k)); [|done]. by rewrite !zlen_cons, IH.
Qed.

(** From the field in front of [R], the loop sees the rest. *)
Lemma Bnext_all_from R : forall fR fuel u P fP tail addr st bfldid occ st',
  ubf_data u (P ++ R) tail -> Forall2 blk_is fP P -> Forall2 blk_is fR R ->
  Bnext_pos st u addr bfldid = Some (BOk st') -> p_cur_bfldid st' = blk_off P ->
  cur_occ st' = run_occ P R -> (length R < fuel)%nat ->
  Bnext_all fuel u addr st bfldid occ = Some (numbered fP fR) /\
  forall cnt, Bnum_loop fuel u addr st bfldid occ cnt = Some (cnt + zlen R).
Proof.
  induction R as [|b R IH]; intros fR [|fuel] u P fP tail addr st bfldid occ st' Hu HFP HFR Hpos Hp Ho Hf;
    cbn [length] in Hf; try lia; cbn [Bnext_all Bnum_loop].
  - inversion HFR; subst. rewrite app_nil_r in Hu. unfold ndrx_Bnext. rewrite Hpos. cbn [mbind option_bind].
    rewrite !(Bnext_ret_eof st' u P tail) by done. cbn. split; [done|]. intros cnt. f_equal. zl.
  - inversion HFR as [|f ? fR' ? Hfb HFR']; subst. pose proof Hfb as (Hbw & Hbf & Hbv).
    assert (ubf_data u ((P ++ [b]) ++ R) tail) as Hu' by by rewrite <- app_assoc.
    pose proof (Bnext_pos_step st' u P b R tail addr Hu Hp Ho) as Hpos'.
    destruct (fun Hd => IH fR' fuel u (P ++ [b]) (fP ++ [f]) tail addr st' (blk_fid b)
      (cur_occ st') _ Hu' Hd HFR' Hpos' eq_refl eq_refl) as [He Hn]; [|lia|].
    { apply Forall2_app; [done|]. by constructor. }
    unfold ndrx_Bnext. rewrite Hpos. cbn [mbind option_bind].
    rewrite !(Bnext_ret_ok st' u P b R tail f.2) by done. cbn [mbind option_bind no_found no_state no_bfldid no_occ no_val].
    cbn [Z.eqb Pos.eqb]. rewrite He. cbn [mbind option_bind numbered]. split.
    + rewrite Ho, Hbf. cbn [run_occ]. by rewrite (koccs_blk_is _ fP P HFP), Hbf.
    + intros cnt. rewrite Hn. f_equal. zl.
Qed.

(** Iterating with [Bnext] from [BFIRSTFLDID] returns every field of the
    buffer exactly once, in id order, with its occurrence number and value,
    and then reports the end; [Bnum] is the number of fields. *)
Theorem Bnext_enumerates u fs addr st occ :
  buf_repr u fs ->
  Bnext_all (S (length fs)) u addr st BFIRSTFLDID occ = Some (numbered [] fs) /\
  Bnum (Some u) = Some (BOk (zlen fs)).
Proof.
  intros Hr. pose proof (repr_magic _ _ Hr) as Hmg. destruct Hr as (bs & HF & [[tail Hu] _]).
  pose proof (Forall2_length _ _ _ HF) as Hl.
  assert (run_occ [] bs = 0) as Hocc by by destruct bs.
  assert (forall a s, Bnext_pos s u a BFIRSTFLDID = Some (BOk {| p_cur_bfldid := 0; cur_occ := 0;
    st_p_ub := a; st_size := bytes_used u |})) as Hpos by done.
  destruct (Bnext_all_from bs fs (S (length fs)) u [] [] tail addr st BFIRSTFLDID occ _
    Hu (Forall2_nil_2 _ _ _) HF (Hpos addr st)) as [He _]; [done|by rewrite Hocc|lia|].
  split; [done|]. unfold Bnum, validate_entry. rewrite Hmg, bool_decide_eq_true_2 by done.
  cbn [VALIDATE_MODE_NO_FLD Z.testbit Z.odd negb andb].
  pose proof (ubf_fuel _ _ _ Hu). unfold ndrx_Bnum.
  match goal with |- context [Bnum_loop _ _ _ ?st0] =>
    destruct (Bnext_all_from bs fs (S (length (mem u))) u [] [] tail 0 st0 BFIRSTFLDID 0 _
      Hu (Forall2_nil_2 _ _ _) HF (Hpos 0 st0)) as [_ Hn] end; [done|by rewrite Hocc|lia|].
  rewrite Hn. cbn. do 2 f_equal. unfold zlen. by rewrite Hl.
Qed.

End NextProofs.

(** ** Examples *)

Lemma demo_occ_fits occ : 0 <= occ <= 1000 -> occ_fits Demo.demo occ.
Proof. intros Ho. unfold occ_fits, INT_MAX. cbn [Demo.demo Demo.buf buf_len]. lia. Qed.


(** Occurrence 2^29 of a short is taken for the first one, and occurrence -1
    reads in front of the buffer. *)
Lemma Bget_bad_occ :
  @Bget plat4 (Some Demo.demo) Demo.fshort 536870912 true None = Some (BOk (Some (CBytes [5; 0], None))) /\
  @Bget plat4 (Some Demo.demo) Demo.fshort (-1) true None = None.
Proof. split; vm_compute; reflexivity. Qed.

Lemma Bfind_correct_witness :
  exists d, @Bfind plat4 (Some Demo.demo) Demo.fshort 1 = Some (BOk (d, 2)) /\
    @data_val plat4 BFLD_SHORT d 2 = Some (CBytes [6; 0]).
Proof.
  apply (@Bfind_correct plat4 Demo.demo Demo.fields Demo.fshort 1 Demo.demo_repr eq_refl).
  apply demo_occ_fits. lia.
Defined.

Lemma Bpres_Boccur_Blen_correct_witness :
  @Bpres plat4 (Some Demo.demo) Demo.fshort 2 = Some (false, None) /\
  @Boccur plat4 (Some Demo.demo) Demo.fshort = Some (BOk 2) /\
  @Blen plat4 (Some Demo.demo) Demo.fshort 2 = Some (BFail (Some BNOTPRES)).
Proof.
  apply (@Bpres_Boccur_Blen_correct plat4 Demo.demo Demo.fields Demo.fshort 2 Demo.demo_repr eq_refl).
  apply demo_occ_fits. lia.
Defined.

Lemma Bgetlast_Bfindlast_correct_witness :
  @Bgetlast plat4 (Some Demo.demo) Demo.fshort true None = Some (BOk (1, Some (CBytes [6; 0], None))) /\
  exists d, @Bfindlast plat4 (Some Demo.demo) Demo.fshort = Some (BOk (1, d, 2)) /\
    @data_val plat4 BFLD_SHORT d 2 = Some (CBytes [6; 0]).
Proof.
  exact (@Bgetlast_Bfindlast_correct plat4 Demo.demo Demo.fields Demo.fshort None Demo.demo_repr eq_refl).
Defined.

Lemma Bnext_enumerates_witness :
  exists l, @Bnext_all plat4 4 Demo.demo 4096
    {| p_cur_bfldid := 0; cur_occ := 0; st_p_ub := 0; st_size := 0 |} BFIRSTFLDID 0 = Some l /\
    length l = 3%nat /\ @Bnum plat4 (Some Demo.demo) = Some (BOk 3).
Proof.
  destruct (@Bnext_enumerates plat4 Demo.demo Demo.fields 4096
    {| p_cur_bfldid := 0; cur_occ := 0; st_p_ub := 0; st_size := 0 |} 0 Demo.demo_repr) as [He Hn].
  exists (numbered [] Demo.fields). split; [exact He|]. split; [reflexivity|exact Hn].
Defined.
