(* ===== verification/UbfAlloc.v ===== *)
(** * Copying, sizing and allocating buffers

    [Bcpy], [Bused], [Bunused], [Bsizeof], [Bisubf], [Bneeded], [Balloc],
    [Brealloc] and [Bfree] of [libubf/ubf.c] and [libubf/ubf_impl.c].  The
    memory returned by [malloc] and [realloc] is a parameter. *)

From S2P Require Import Prelude UbfTypes UbfBuffer UbfSearch UbfOps UbfRead.

Section Alloc.
Context `{Platform}.

(** ** Copy *)

Definition Bcpy (p_ub_dst p_ub_src : option UBFH) : option (option UBFH * bres unit) :=
  match p_ub_src, p_ub_dst with
  | None, _ => Some (p_ub_dst, BFail (Some BNOTFLD))
  | _, None => Some (p_ub_dst, BFail (Some BNOTFLD))
  | Some src, Some dst =>
      if negb (bool_decide (magic src = UBF_MAGIC)) then Some (p_ub_dst, BFail (Some BNOTFLD))
      else if negb (bool_decide (magic dst = UBF_MAGIC)) then Some (p_ub_dst, BFail (Some BNOTFLD))
      else if buf_len dst <? bytes_used src then Some (p_ub_dst, BFail (Some BNOSPACE))
      else
        bs ← ld_bytes (mem src) 0 (bytes_used src - DATA_OFF);
        m ← st_bytes (mem dst) 0 bs;
        Some (Some {| buffer_type := buffer_type src; version := version src; magic := magic src;
                      cache := cache src; buf_len := buf_len dst; opts := opts src;
                      bytes_used := bytes_used src; mem := m |}, BOk tt)
  end.

(** ** Size queries; a rejected buffer gives [EXFALSE] *)

Definition query (p_ub : option UBFH) (f : UBFH -> Z) : Z * option berr :=
  match validate_entry p_ub 0 0 VALIDATE_MODE_NO_FLD with
  | BFail e => (0, e)
  | BOk u => (f u, None)
  end.

Definition Bused (p_ub : option UBFH) : Z * option berr := query p_ub bytes_used.
Definition Bunused (p_ub : option UBFH) : Z * option berr :=
  query p_ub (fun u => i32 (buf_len u - bytes_used u)).
Definition Bsizeof (p_ub : option UBFH) : Z * option berr := query p_ub buf_len.
Definition Bisubf (p_ub : option UBFH) : bool :=
  match validate_entry p_ub 0 0 VALIDATE_MODE_NO_FLD with BOk _ => true | BFail _ => false end.

(** ** Allocation *)

Definition MAXUBFLEN : Z := 4294967295.
Definition sizeof_UBF_string : Z := if DA =? 8 then 16 else 12.

Definition ndrx_Bneeded (nrfields totsize : Z) : Z :=
  i64 (u64 (sizeof_UBF_header + totsize + nrfields * (DA + sizeof_UBF_string))).

Definition Bneeded (nrfields totsize : Z) : bres Z :=
  if nrfields <=? 0 then BFail (Some BEINVAL)
  else if totsize <=? 0 then BFail (Some BEINVAL)
  else if MAXUBFLEN <? ndrx_Bneeded nrfields totsize then BFail (Some BEINVAL)
  else BOk (ndrx_Bneeded nrfields totsize).

(** [malloc n]: the memory handed out, [None] when there is none. *)
Variable malloc : Z -> option (list Z).

Definition ndrx_Balloc (f v len_set : Z) : option (bres UBFH) :=
  let alloc_size := if len_set =? -1 then ndrx_Bneeded f v else len_set in
  if MAXUBFLEN <? alloc_size then Some (BFail (Some BEINVAL))
  else match malloc alloc_size with
       | None => Some (BFail (Some BMALLOC))
       | Some raw => Binit (Some raw) (i32 alloc_size)
       end.

Definition Balloc (f v : Z) : option (bres UBFH) := ndrx_Balloc f v (-1).

(** What becomes of the buffer passed to [Brealloc]. *)
Inductive realloc_res :=
  | Kept (u : UBFH)              (* returned, possibly moved *)
  | Freed (err : option berr)    (* NULL returned, the old buffer was freed *)
  | Failed (err : option berr).  (* NULL returned, the old buffer is untouched *)

(** Only the bytes from [bfldid] on are listed; [malloc] supplies the bytes
    behind the old ones.  On a bad size [Bfree] clears the error just set, as
    every API entry does, and releases the buffer. *)
Definition ndrx_Brealloc (p_ub : option UBFH) (f v len_set : Z) : option realloc_res :=
  u ← p_ub;
  let alloc_size := if len_set =? -1 then ndrx_Bneeded f v else len_set in
  if (alloc_size <? bytes_used u) || (MAXUBFLEN <? alloc_size)
  then match validate_entry (Some u) 0 0 VALIDATE_MODE_NO_FLD with
       | BOk _ => Some (Freed None)
       | BFail e => Some (Failed e)
       end
  else match malloc alloc_size with
       | None => Some (Failed (Some BMALLOC))
       | Some raw =>
           Some (Kept
             {| buffer_type := buffer_type u; version := version u; magic := magic u;
                cache := cache u;
                buf_len := i32 (buf_len u + (alloc_size - buf_len u)); opts := opts u;
                bytes_used := bytes_used u;
                mem := take (Z.to_nat (alloc_size - DATA_OFF))
                         (mem u ++ drop (Z.to_nat (buf_len u)) raw) |})
       end.

Definition Brealloc (p_ub : option UBFH) (f v : Z) : option realloc_res :=
  match validate_entry p_ub 0 0 VALIDATE_MODE_NO_FLD with
  | BFail _ => ndrx_Brealloc None f v (-1)
  | BOk u => ndrx_Brealloc (Some u) f v (-1)
  end.

(** ** Adding a list of fields *)

Fixpoint Badd_all (u : UBFH) (l : list (Z * cbuf * Z)) : option (UBFH * bres unit) :=
  match l with
  | [] => Some (u, BOk tt)
  | (fid, d, len) :: l =>
      r ← Badd (Some u) fid d len;
      match r with
      | (Some u, BOk _) => Badd_all u l
      | (Some u, BFail e) => Some (u, BFail e)
      | (None, _) => None
      end
  end.

End Alloc.

Section AllocProofs.
Context `{Platform}.

(** [Bcpy] makes the destination hold exactly the fields of the source,
    keeping its own capacity; a destination that is too small is refused with
    [BNOSPACE] and keeps its fields. *)
Theorem Bcpy_correct dst src fd fs :
  buf_repr dst fd -> buf_repr src fs ->
  if bytes_used src <=? buf_len dst
  then exists dst', Bcpy (Some dst) (Some src) = Some (Some dst', BOk tt) /\
         buf_repr dst' fs /\ buf_len dst' = buf_len dst
  else Bcpy (Some dst) (Some src) = Some (Some dst, BFail (Some BNOSPACE)).
Proof.
  intros Hd Hs. unfold Bcpy. rewrite (repr_magic _ _ Hd), (repr_magic _ _ Hs).
  rewrite !bool_decide_eq_true_2 by done. cbn [negb].
  destruct Hd as (bd & _ & [[td Hud] _]), Hs as (bs & HF & [[ts Hus] Hc]).
  destruct (Z.leb_spec (bytes_used src) (buf_len dst)) as [Hle|Hgt].
  - rewrite (proj2 (Z.ltb_ge _ _)) by lia.
    pose proof (ud_used _ _ _ Hus) as Hu. pose proof (ud_len _ _ _ Hud) as Hl.
    rewrite (ld_bytes_at (mem src) [] (concat bs) ts);
      [|by rewrite (ud_mem _ _ _ Hus)|done|lia]. cbn [mbind option_bind].
    destruct (split_at (mem dst) 0 (zlen (concat bs))) as (x & y & z & Hm & Hx & Hy);
      [lia|apply zlen_nonneg|lia|]. apply zlen_0_inv in Hx as ->.
    rewrite (st_bytes_at (mem dst) [] y z (concat bs)) by (done || lia).
    cbn [mbind option_bind app]. eexists. split; [done|]. split; [|done].
    exists bs. split; [done|]. split; [|done]. exists z.
    destruct Hus as [? ? ? ? ? ? ?], Hud as [? ? ? ? ? ? ?]. constructor; cbn; try done.
    rewrite Hl, Hm. cbn [app]. zl.
  - by rewrite (proj2 (Z.ltb_lt _ _)) by lia.
Qed.

(** Total size of a list of fields. *)
Fixpoint total (f : field -> Z) (fs : list field) : Z :=
  match fs with [] => 0 | x :: fs => f x + total f fs end.

Definition item_ok (i : Z * cbuf * Z) (f : field) : Prop :=
  i.1.1 = f.1 /\ fid_ok f.1 = true /\ data_val (Bfldtype f.1) i.1.2 i.2 = Some f.2.

Lemma Badd_all_ok l : forall fs u fs0,
  buf_repr u fs0 -> Forall2 item_ok l fs ->
  total (fun f => blk_size (Bfldtype f.1) f.2) fs <= Bfree u ->
  exists u', Badd_all u l = Some (u', BOk tt) /\
    buf_repr u' (fold_left (fun acc f => kins fkey f acc) fs fs0).
Proof.
  induction l as [|[[fid d] len] l IH]; intros fs u fs0 Hr HF Hfit.
  - inversion HF; subst. by exists u.
  - inversion HF as [|? f ? fs' (Hfid & Hf & Hv) HF']; subst. destruct f as [fid' v]; cbn in *. subst fid'.
    assert (0 <= total (fun f : Z * cbuf => blk_size (Bfldtype f.1) f.2) fs') as Hnn.
    { clear -HF'. induction HF' as [|? f l fs' (_ & Hf & Hv) _ IH]; cbn; [done|].
      pose proof (fid_ok_usable _ Hf) as Hus.
      pose proof (blk_size_bounds _ _ Hus (data_val_wf _ _ _ _ Hus Hv)) as [? _]. pose proof DA_range. lia. }
    pose proof (Badd_ok u fs0 fid d len v Hr Hf Hv) as Ha.
    rewrite (proj2 (Z.leb_le _ _)) in Ha by lia. destruct Ha as (u' & -> & Hr' & _ & Hfree).
    cbn [mbind option_bind]. apply (IH fs' u' (kins fkey (fid, v) fs0)); [done|done|lia].
Qed.


(** Memory handed out by [malloc] has the size asked for. *)
Definition malloc_sized (malloc : Z -> option (list Z)) : Prop :=
  forall n raw, malloc n = Some raw -> zlen raw = n.

Lemma Binit_ok raw len :
  zlen raw = len -> sizeof_UBF_header <= len <= INT_MAX ->
  exists u, Binit (Some raw) len = Some (BOk u) /\ buf_repr u [] /\
    buf_len u = len /\ Bfree u = len - DATA_OFF.
Proof.
  intros Hr Hl. pose proof DA_range. unfold Binit.
  assert (0 < sizeof_UBF_header) by (unfold sizeof_UBF_header; destruct (DA =? 8); lia).
  unfold INT_MAX in *. rewrite u64_id by lia.
  rewrite (proj2 (Z.ltb_ge len _)), (proj2 (Z.ltb_ge (zlen raw) _)) by lia.
  eexists. split; [done|]. split; [|done]. exists []. split; [constructor|]. split.
  - eexists. constructor; cbn; try done;
      [apply SSorted_nil|unfold DATA_OFF; rewrite zlen_nil; lia| |unfold INT_MAX; lia].
    rewrite zlen_app, zlen_replicate, zlen_drop by (unfold FF_USED_BYTES; lia).
    unfold DATA_OFF. lia.
  - apply empty_cache_ok.
Qed.

(** [Binit] on memory of at least header size gives an empty buffer whose
    free space is everything behind the header; less memory is refused with
    [BNOSPACE], a null pointer with [BNOTFLD]. *)
Theorem Binit_correct raw len :
  zlen raw = len -> len <= INT_MAX ->
  (if sizeof_UBF_header <=? len
   then exists u, Binit (Some raw) len = Some (BOk u) /\ buf_repr u [] /\
          buf_len u = len /\ Bfree u = len - DATA_OFF
   else Binit (Some raw) len = Some (BFail (Some BNOSPACE))) /\
  Binit None len = Some (BFail (Some BNOTFLD)).
Proof.
  intros Hr Hl. split; [|done]. destruct (Z.leb_spec sizeof_UBF_header len).
  - by apply Binit_ok.
  - unfold Binit. pose proof (zlen_nonneg raw). unfold INT_MAX in *.
    rewrite u64_id by lia. by rewrite (proj2 (Z.ltb_lt len _)) by lia.
Qed.

Lemma needed_ok f v : 0 <= f <= INT_MAX -> 0 <= v <= INT_MAX ->
  ndrx_Bneeded f v = sizeof_UBF_header + v + f * (DA + sizeof_UBF_string) /\
  12 <= sizeof_UBF_string <= 16 /\ sizeof_UBF_header = DATA_OFF + DA /\
  DA + 4 <= sizeof_UBF_string.
Proof.
  intros Hf Hv. unfold ndrx_Bneeded, sizeof_UBF_string, sizeof_UBF_header, DATA_OFF,
    sizeof_UBF_header, FF_USED_BYTES, INT_MAX, u64, i64 in *.
  destruct align_ok as [-> | ->]; cbn [Z.eqb Pos.eqb];
    (rewrite (Z.mod_small (_ + _ + _)), Z.mod_small by lia); lia.
Qed.

(** What a field other than a view takes beyond its payload. *)
Lemma field_overhead t v : usable_type t = true -> t <> BFLD_VIEW -> wf_val t v ->
  blk_size t v <= val_len v + DA + sizeof_UBF_string /\ 0 <= val_len v.
Proof.
  intros Hu Hv Hw. pose proof (blk_size_bounds t v Hu Hw) as [_ Hl]. split; [|lia].
  destruct (needed_ok 0 0) as (_ & Hs & _ & Hs2); [unfold INT_MAX; lia|unfold INT_MAX; lia|].
  pose proof DA_range. unfold blk_size, val_len in *. destruct v as [bs|w].
  - destruct (_ || _).
    + pose proof (ALIGNED_SIZE_bounds (4 + zlen bs) ltac:(unfold MAX_PAYLOAD in *; lia)). lia.
    + pose proof (ALIGNED_SIZE_bounds (zlen bs) ltac:(unfold MAX_PAYLOAD in *; lia)). lia.
  - exfalso. unfold wf_val, data_val in Hw. apply Z.eqb_neq in Hv. by rewrite Hv in Hw.
Qed.

Lemma total_overhead l fs : Forall2 item_ok l fs ->
  Forall (fun f : field => Bfldtype f.1 <> BFLD_VIEW) fs ->
  total (fun f => blk_size (Bfldtype f.1) f.2) fs <=
  total (fun f => val_len f.2) fs + zlen fs * (DA + sizeof_UBF_string) /\
  0 <= total (fun f => val_len f.2) fs.
Proof.
  induction 1 as [|i f l fs (_ & Hf & Hv) _ IH]; intros HF; cbn [total]; [done|].
  apply Forall_cons in HF as [Hf1 HF]. destruct (IH HF). pose proof (fid_ok_usable _ Hf) as Hus.
  pose proof (field_overhead _ _ Hus Hf1 (data_val_wf _ _ _ _ Hus Hv)). rewrite zlen_cons. lia.
Qed.

(** A buffer from [Balloc] for [f] fields of [v] bytes in total takes any
    [f] or fewer fields, views excepted, whose lengths add up to at most [v]:
    every [Badd] succeeds and the buffer ends up with exactly these fields. *)
Theorem Balloc_enough malloc f v raw l fs :
  malloc_sized malloc -> 0 < f <= INT_MAX -> 0 < v <= INT_MAX ->
  ndrx_Bneeded f v <= INT_MAX -> malloc (ndrx_Bneeded f v) = Some raw ->
  Forall2 item_ok l fs -> Forall (fun x : field => Bfldtype x.1 <> BFLD_VIEW) fs ->
  zlen fs <= f -> total (fun x => val_len x.2) fs <= v ->
  exists u u', Balloc malloc f v = Some (BOk u) /\ Badd_all u l = Some (u', BOk tt) /\
    buf_repr u' (fold_left (fun acc x => kins fkey x acc) fs []).
Proof.
  intros Hm Hf Hv Hmax Hraw HF Hnv Hlf Htot.
  destruct (needed_ok f v) as (Hn & Hs & Hh & _); [lia|lia|]. pose proof DA_range.
  unfold Balloc, ndrx_Balloc. cbn [Z.eqb Pos.eqb]. pose proof DATA_OFF_range.
  rewrite (proj2 (Z.ltb_ge MAXUBFLEN _)), Hraw by (unfold MAXUBFLEN, INT_MAX in *; lia).
  rewrite i32_id by (unfold INT_MIN; nia).
  destruct (Binit_ok raw (ndrx_Bneeded f v)) as (u & -> & Hr & _ & Hfree); [by apply Hm|nia|].
  destruct (total_overhead l fs HF Hnv) as [Hov _]. exists u.
  destruct (Badd_all_ok l fs u [] Hr HF) as (u' & Ha & Hr'); [|by exists u'].
  rewrite Hfree, Hn, Hh. pose proof (zlen_nonneg fs). nia.
Qed.

(** [Brealloc] to a size that holds the used part keeps every field and
    changes the capacity to that size. *)
Theorem Brealloc_correct malloc u fs f v raw :
  buf_repr u fs -> malloc_sized malloc -> malloc (ndrx_Bneeded f v) = Some raw ->
  bytes_used u <= ndrx_Bneeded f v <= INT_MAX ->
  exists u', Brealloc malloc (Some u) f v = Some (Kept u') /\ buf_repr u' fs /\
    buf_len u' = ndrx_Bneeded f v.
Proof.
  intros Hr Hm Hraw Hn. unfold Brealloc, validate_entry.
  rewrite (repr_magic _ _ Hr), bool_decide_eq_true_2 by done.
  cbn [VALIDATE_MODE_NO_FLD Z.testbit Z.odd negb andb]. unfold ndrx_Brealloc. cbn [mbind option_bind Z.eqb Pos.eqb].
  rewrite (proj2 (Z.ltb_ge _ _)), (proj2 (Z.ltb_ge MAXUBFLEN _)), Hraw
    by (unfold MAXUBFLEN, INT_MAX in *; lia). cbn [orb].
  destruct Hr as (bs & HF & [[tail Hu] Hc]). pose proof DATA_OFF_range.
  pose proof (ud_used _ _ _ Hu) as Hus. pose proof (ud_len _ _ _ Hu) as Hl.
  pose proof (zlen_nonneg (concat bs)). pose proof (ud_mem _ _ _ Hu) as Hmem.
  pose proof (Hm _ _ Hraw) as Hrl. pose proof (zlen_nonneg (mem u)).
  assert (i32 (buf_len u + (ndrx_Bneeded f v - buf_len u)) = ndrx_Bneeded f v) as Hbl
    by (rewrite i32_id; unfold INT_MIN; lia).
  eexists. split; [done|]. split; [|done]. exists bs. split; [done|]. split; [|done].
  exists (take (Z.to_nat (ndrx_Bneeded f v - bytes_used u)) (tail ++ drop (Z.to_nat (buf_len u)) raw)).
  assert (take (Z.to_nat (ndrx_Bneeded f v - DATA_OFF)) (mem u ++ drop (Z.to_nat (buf_len u)) raw) =
    concat bs ++ take (Z.to_nat (ndrx_Bneeded f v - bytes_used u)) (tail ++ drop (Z.to_nat (buf_len u)) raw)) as Hmm.
  { rewrite Hmem, <- app_assoc. rewrite take_app_ge by (unfold zlen in *; lia). do 2 f_equal.
    unfold zlen in *. lia. }
  constructor; cbn; try apply Hu; try done; [|lia].
  rewrite Hbl, zlen_take; [lia|]. rewrite zlen_app.
  destruct (Z.le_gt_cases (buf_len u) (zlen raw)).
  - rewrite zlen_drop by lia. lia.
  - pose proof (zlen_nonneg (drop (Z.to_nat (buf_len u)) raw)). lia.
Qed.

End AllocProofs.

(** ** Behaviour at the edges of the size checks *)

Section AllocEdges.
Context `{Platform}.

(** A null or foreign buffer passed to [Brealloc] is dereferenced: the failed
    check only clears the pointer and the implementation is still called. *)
Lemma Brealloc_null_deref malloc f v : Brealloc malloc None f v = None.
Proof. done. Qed.

(** Between [INT_MAX] and [MAXUBFLEN] bytes [Balloc] succeeds, with a
    negative [buf_len]: [Binit] takes the length as an [int]. *)
Lemma ndrx_Balloc_over_int malloc f v n raw :
  malloc_sized malloc -> INT_MAX < n <= MAXUBFLEN -> malloc n = Some raw ->
  exists u, ndrx_Balloc malloc f v n = Some (BOk u) /\ buf_len u < 0.
Proof.
  intros Hm Hn Hraw. unfold INT_MAX, MAXUBFLEN in *. unfold ndrx_Balloc, MAXUBFLEN.
  rewrite (proj2 (Z.eqb_neq n (-1))) by lia. rewrite (proj2 (Z.ltb_ge _ n)) by lia. rewrite Hraw.
  assert (i32 n = n - 4294967296) as Hi.
  { unfold i32. rewrite <- (Z.mod_unique (n + 2147483648) 4294967296 1 (n - 2147483648)); lia. }
  unfold Binit. rewrite Hi. assert (u64 (n - 4294967296) = n + 18446744069414584320) as ->.
  { unfold u64. symmetry. apply (Z.mod_unique _ _ (-1)); lia. }
  assert (0 < sizeof_UBF_header <= 72) by (unfold sizeof_UBF_header; destruct (DA =? 8); lia).
  rewrite (proj2 (Z.ltb_ge _ _)), (Hm _ _ Hraw), (proj2 (Z.ltb_ge n _)) by lia.
  eexists. split; [done|]. cbn. lia.
Qed.

End AllocEdges.

(** ** Examples *)

Definition zeros (n : Z) : option (list Z) := Some (replicate (Z.to_nat n) 0).

Lemma zeros_sized n raw : zeros n = Some raw -> 0 <= n -> zlen raw = n.
Proof. intros [= <-] Hn. by apply zlen_replicate. Qed.

(** A [malloc] that gives memory for non-negative sizes. *)
Definition calloc (n : Z) : option (list Z) := if n <? 0 then None else zeros n.

Lemma calloc_sized : malloc_sized calloc.
Proof.
  intros n raw. unfold calloc. destruct (Z.ltb_spec n 0); [done|]. intros Hz. by apply zeros_sized.
Qed.

(** A size below the used part: the buffer is freed, and no error is left
    behind because [Bfree] starts by clearing it. *)
Lemma Brealloc_small_frees : @Brealloc plat4 calloc (Some Demo.demo) 1 1 = Some (Freed None).
Proof. reflexivity. Qed.

(** A view of 16 bytes does not fit a buffer allocated for one field of 16
    bytes. *)
Lemma Balloc_view_nospace :
  (r ← @Balloc plat4 calloc 1 16;
   match r with
   | BOk u => snd <$> @Badd plat4 (Some u) (Bmkfldid BFLD_VIEW 1)
                (CView {| vflags := 0; vname := [86; 0]; vdata := replicate 16 1 |}) 0
   | BFail _ => None
   end) = Some (BFail (Some BNOSPACE)).
Proof. reflexivity. Qed.

Lemma Bcpy_correct_witness :
  exists dst', @Bcpy plat4 (Some (Demo.buf 16)) (Some Demo.demo) = Some (Some dst', BOk tt) /\
    @buf_repr plat4 dst' Demo.fields /\ buf_len dst' = 184.
Proof.
  exact (@Bcpy_correct plat4 Demo.demo Demo.demo Demo.fields Demo.fields Demo.demo_repr Demo.demo_repr).
Defined.

Lemma Binit_correct_witness :
  (exists u, @Binit plat4 (zeros 100) 100 = Some (BOk u) /\ @buf_repr plat4 u [] /\
     buf_len u = 100 /\ Bfree u = 44) /\
  @Binit plat4 None 100 = Some (BFail (Some BNOTFLD)).
Proof.
  apply (@Binit_correct plat4 (replicate 100 0) 100); [reflexivity|vm_compute; discriminate].
Defined.

Lemma Balloc_enough_witness :
  exists u u', @Balloc plat4 calloc 1 10 = Some (BOk u) /\
    @Badd_all plat4 u [(Demo.fstring, CBytes [104; 105; 0], 0)] = Some (u', BOk tt) /\
    @buf_repr plat4 u' [(Demo.fstring, CBytes [104; 105; 0])].
Proof.
  apply (@Balloc_enough plat4 calloc 1 10 (replicate 86 0)
    [(Demo.fstring, CBytes [104; 105; 0], 0)] [(Demo.fstring, CBytes [104; 105; 0])]);
    [apply calloc_sized|vm_compute; split; [done|discriminate]|vm_compute; split; [done|discriminate]
    |vm_compute; discriminate|reflexivity|repeat constructor|constructor; [vm_compute; discriminate|constructor]
    |vm_compute; discriminate|vm_compute; discriminate].
Defined.

Lemma Brealloc_correct_witness :
  exists u', @Brealloc plat4 calloc (Some Demo.demo) 2 20 = Some (Kept u') /\
    @buf_repr plat4 u' Demo.fields /\ buf_len u' = 112.
Proof.
  apply (@Brealloc_correct plat4 calloc Demo.demo Demo.fields 2 20 (replicate 112 0));
    [apply Demo.demo_repr|apply calloc_sized|reflexivity|vm_compute; split; discriminate].
Defined.
