(* ===== verification/UbfProj.v ===== *)
(** * Projections

    [Bproj], [Bprojcpy], [Bdelall] and [Bdelete] of [libubf/ubf.c], with
    [is_fld_pres], [delete_buffer_data], [copy_buffer_data], [ndrx_Bproj] and
    [ndrx_Bprojcpy] of [libubf/fproj_impl.c].  A field list is the caller's
    array, [BBADFLDID] at its end included; [None] is the null pointer. *)

From stdpp Require Import sorting.
From S2P Require Import Prelude UbfTypes UbfBuffer UbfSearch UbfOps UbfRead UbfAlloc.

(** ** The field list *)

Definition compare (a b : Z) : Z := i32 (a - b).

Definition cmp_le (a b : Z) : Prop := compare a b <= 0.
#[global] Instance cmp_le_dec : RelDecision cmp_le := fun a b => Z_le_dec (compare a b) 0.

(** [qsort] of the first [n] entries with [compare]. *)
Definition qsort (n : Z) (l : list Z) : list Z :=
  merge_sort cmp_le (take (Z.to_nat n) l) ++ drop (Z.to_nat n) l.

Fixpoint is_fld_pres_loop (fuel : nat) (array : list Z) (left right number : Z) : option bool :=
  match fuel with
  | O => None
  | S fuel =>
      if left <=? right then
        let middle := Z.quot (i32 (left + right)) 2 in
        v ← (if middle <? 0 then None else array !! Z.to_nat middle);
        if number =? v then Some true
        else is_fld_pres_loop fuel array
               (if v <? number then i32 (middle + 1) else left)
               (if number <? v then i32 (middle - 1) else right) number
      else Some false
  end.

Definition is_fld_pres (array : list Z) (left right number : Z) : option bool :=
  is_fld_pres_loop (S (length array)) array left right number.

(** Entries before [BBADFLDID]; without one the scan leaves the array. *)
Fixpoint fld_count (fldlist : list Z) : option Z :=
  match fldlist with
  | [] => None
  | x :: l => if x =? BBADFLDID then Some 0 else n ← fld_count l; Some (n + 1)
  end.

Definition PROJ_MODE_PROJ : Z := 0.
Definition PROJ_MODE_DELETE : Z := 1.
Definition PROJ_MODE_DELALL : Z := 2.

Section Proj.
Context `{Platform}.

(** ** [ndrx_Bproj] *)

(** Removes the bytes [del_start, del_stop); the last component is the
    adjusted [*p_nextfld]. *)
Definition delete_buffer_data (u : UBFH) (del_start del_stop nextfld : Z) : option (UBFH * Z) :=
  let remove_size := i32 (del_stop - del_start) in
  let move_size := i32 (bytes_used u - DATA_OFF - del_start - remove_size) in
  m ← memmove (mem u) del_start (del_start + remove_size) move_size;
  let used := i32 (bytes_used u - remove_size) in
  m ← st_bytes m (used - DATA_OFF) (replicate (Z.to_nat remove_size) 0);
  Some (set_used (set_mem u m) used, nextfld - remove_size).

(** Whether the field [f] is to go; the inner [None] is an unknown mode. *)
Definition proj_mark (mode : Z) (fldlist : list Z) (cnt f : Z) : option (option bool) :=
  if mode =? PROJ_MODE_PROJ then b ← is_fld_pres fldlist 0 (cnt - 1) f; Some (Some (negb b))
  else if mode =? PROJ_MODE_DELETE then b ← is_fld_pres fldlist 0 (cnt - 1) f; Some (Some b)
  else if mode =? PROJ_MODE_DELALL then x ← fldlist !! 0%nat; Some (Some (x =? f))
  else Some None.

Record proj_st := { pj_ub : UBFH; pj_bfldid : Z; pj_start : option Z; pj_processed : Z }.

(** How the loop is left. *)
Inductive proj_stop := PEof | PBreak (err : berr) | PReturn.

Fixpoint proj_loop (fuel : nat) (mode : Z) (fldlist : list Z) (cnt : Z) (st : proj_st)
  : option (proj_st * proj_stop) :=
  match fuel with
  | O => None
  | S fuel =>
      if UBF_EOF (pj_ub st) (pj_bfldid st) then Some (st, PEof)
      else
        f ← ld32 (mem (pj_ub st)) (pj_bfldid st);
        mk ← proj_mark mode fldlist cnt f;
        match mk : option bool with
        | None => Some (st, PReturn)
        | Some mark =>
            st ← match pj_start st with
                 | Some s =>
                     if mark then Some st
                     else r ← delete_buffer_data (pj_ub st) s (pj_bfldid st) (pj_bfldid st);
                          Some {| pj_ub := r.1; pj_bfldid := r.2; pj_start := None;
                                  pj_processed := pj_processed st + 1 |}
                 | None =>
                     Some (if mark
                           then {| pj_ub := pj_ub st; pj_bfldid := pj_bfldid st;
                                   pj_start := Some (pj_bfldid st);
                                   pj_processed := pj_processed st |}
                           else st)
                 end;
            f ← ld32 (mem (pj_ub st)) (pj_bfldid st);
            if IS_TYPE_INVALID (Bfldtype f) then Some (st, PBreak BALIGNERR)
            else
              dt ← dtype_of (Bfldtype f);
              s ← p_next dt (mem (pj_ub st)) (pj_bfldid st);
              let p := pj_bfldid st + s.1 in
              if CHECK_ALIGN (pj_ub st) p then Some (st, PBreak BALIGNERR)
              else proj_loop fuel mode fldlist cnt
                     {| pj_ub := pj_ub st; pj_bfldid := p; pj_start := pj_start st;
                        pj_processed := pj_processed st |}
        end
  end.

(** The memory of [u] as [Binit] sees it: the header is overwritten. *)
Definition raw_of (u : UBFH) : list Z := replicate (Z.to_nat DATA_OFF) 0 ++ mem u.

Definition proj_finish (u : UBFH) (processed : Z) (ret : bres unit) : option (UBFH * Z * bres unit) :=
  r ← ubf_cache_update u;
  Some (r.1, processed,
        match ret, (r.2 : bres unit) with
        | BOk _, BOk _ => BOk tt
        | BOk _, BFail e => BFail (or_err e BALIGNERR)
        | BFail e, BOk _ => BFail e
        | BFail e, BFail _ => BFail (or_err e BALIGNERR)
        end).

(** The result carries [*processed].  Behind the loop the field id at
    [p_bfldid] is read even when [p_bfldid] is the end of the data. *)
Definition ndrx_Bproj (u : UBFH) (fldlist : option (list Z)) (mode : Z)
  : option (UBFH * Z * bres unit) :=
  let reinit :=
    b ← Binit (Some (raw_of u)) (buf_len u);
    match b : bres UBFH with
    | BOk u' => proj_finish u' 0 (BOk tt)
    | BFail e => proj_finish u 0 (BFail e)
    end in
  match fldlist with
  | None => reinit
  | Some l =>
      x ← l !! 0%nat;
      if x =? BBADFLDID then reinit
      else
        cnt ← (if mode =? PROJ_MODE_DELALL then Some 1 else fld_count l);
        r ← proj_loop (S (length (mem u))) mode (qsort cnt l) cnt
              {| pj_ub := u; pj_bfldid := 0; pj_start := None; pj_processed := 0 |};
        let st := r.1 in
        match r.2 : proj_stop with
        | PReturn => Some (pj_ub st, pj_processed st, BFail None)
        | PBreak e => proj_finish (pj_ub st) (pj_processed st) (BFail (Some e))
        | PEof =>
            match pj_start st with
            | None => proj_finish (pj_ub st) (pj_processed st) (BOk tt)
            | Some s =>
                a ← ld32 (mem (pj_ub st)) s;
                b ← ld32 (mem (pj_ub st)) (pj_bfldid st);
                if negb (a =? b)
                then d ← delete_buffer_data (pj_ub st) s (pj_bfldid st) (pj_bfldid st);
                     proj_finish d.1 (pj_processed st + 1) (BOk tt)
                else proj_finish (pj_ub st) (pj_processed st) (BOk tt)
            end
        end
  end.

Definition Bproj (p_ub : option UBFH) (fldlist : option (list Z)) : option (option UBFH * bres unit) :=
  match validate_entry p_ub 0 0 VALIDATE_MODE_NO_FLD with
  | BFail e => Some (p_ub, BFail e)
  | BOk u => r ← ndrx_Bproj u fldlist PROJ_MODE_PROJ; Some (Some r.1.1, r.2)
  end.

(** Nothing processed is [BNOTPRES]. *)
Definition del_result (r : UBFH * Z * bres unit) : option UBFH * bres unit :=
  (Some r.1.1, match r.2 with
               | BOk _ => if r.1.2 =? 0 then BFail (Some BNOTPRES) else BOk tt
               | BFail e => BFail e
               end).

Definition Bdelall (p_ub : option UBFH) (bfldid : Z) : option (option UBFH * bres unit) :=
  match validate_entry p_ub bfldid 0 0 with
  | BFail e => Some (p_ub, BFail e)
  | BOk u => r ← ndrx_Bproj u (Some [bfldid]) PROJ_MODE_DELALL; Some (del_result r)
  end.

Definition Bdelete (p_ub : option UBFH) (fldlist : option (list Z)) : option (option UBFH * bres unit) :=
  match validate_entry p_ub 0 0 VALIDATE_MODE_NO_FLD with
  | BFail e => Some (p_ub, BFail e)
  | BOk u => r ← ndrx_Bproj u fldlist PROJ_MODE_DELETE; Some (del_result r)
  end.

(** ** [ndrx_Bprojcpy] *)

(** Appends the bytes [cpy_start, cpy_stop) of the source at [nextfld]. *)
Definition copy_buffer_data (dst : UBFH) (src : list Z) (cpy_start cpy_stop nextfld : Z)
  : option (UBFH * Z * bres unit) :=
  let cpy_size := i32 (cpy_stop - cpy_start) in
  if buf_len dst <? i32 (bytes_used dst + cpy_size) then Some (dst, nextfld, BFail (Some BNOSPACE))
  else
    bs ← ld_bytes src cpy_start cpy_size;
    m ← st_bytes (mem dst) nextfld bs;
    Some (set_used (set_mem dst m) (i32 (bytes_used dst + cpy_size)), nextfld + cpy_size, BOk tt).

Record pcpy_st := { pc_dst : UBFH; pc_src : Z; pc_nextfld : Z; pc_start : option Z }.

Fixpoint projcpy_loop (fuel : nat) (src : UBFH) (fldlist : list Z) (cnt : Z) (st : pcpy_st)
  : option (pcpy_st * bres unit) :=
  match fuel with
  | O => None
  | S fuel =>
      if UBF_EOF src (pc_src st) then Some (st, BOk tt)
      else
        f ← ld32 (mem src) (pc_src st);
        mark ← is_fld_pres fldlist 0 (cnt - 1) f;
        r ← match pc_start st with
            | Some s =>
                if mark : bool then Some (st, BOk tt)
                else c ← copy_buffer_data (pc_dst st) (mem src) s (pc_src st) (pc_nextfld st);
                     Some ({| pc_dst := c.1.1; pc_src := pc_src st; pc_nextfld := c.1.2;
                              pc_start := match (c.2 : bres unit) with BOk _ => None | _ => Some s end |}, c.2)
            | None =>
                Some (if mark : bool
                      then {| pc_dst := pc_dst st; pc_src := pc_src st;
                              pc_nextfld := pc_nextfld st; pc_start := Some (pc_src st) |}
                      else st, BOk tt)
            end;
        let st := r.1 in
        match r.2 : bres unit with
        | BFail e => Some (st, BFail e)
        | BOk _ =>
            if IS_TYPE_INVALID (Bfldtype f) then Some (st, BFail (Some BALIGNERR))
            else
              dt ← dtype_of (Bfldtype f);
              s ← p_next dt (mem src) (pc_src st);
              let p := pc_src st + s.1 in
              if CHECK_ALIGN src p then Some (st, BFail (Some BALIGNERR))
              else projcpy_loop fuel src fldlist cnt
                     {| pc_dst := pc_dst st; pc_src := p; pc_nextfld := pc_nextfld st;
                        pc_start := pc_start st |}
        end
  end.

Definition pcpy_finish (dst : UBFH) : option (UBFH * bres unit) :=
  r ← ubf_cache_update dst;
  Some (r.1, match (r.2 : bres unit) with BOk _ => BOk tt | BFail e => BFail (or_err e BALIGNERR) end).

(** The pointer comparison behind the loop reads a field id only before the
    end of the source. *)
Definition ndrx_Bprojcpy (dst src : UBFH) (fldlist : option (list Z)) : option (UBFH * bres unit) :=
  b ← Binit (Some (raw_of dst)) (buf_len dst);
  match b : bres UBFH with
  | BFail e => Some (dst, BFail e)
  | BOk d =>
      x ← match fldlist with None => Some BBADFLDID | Some l => l !! 0%nat end;
      match fldlist with
      | None => pcpy_finish d
      | Some l =>
          if x =? BBADFLDID then pcpy_finish d
          else
            cnt ← fld_count l;
            r ← projcpy_loop (S (length (mem src))) src (qsort cnt l) cnt
                  {| pc_dst := d; pc_src := 0; pc_nextfld := 0; pc_start := None |};
            let st := r.1 in
            match r.2 : bres unit with
            | BFail e => Some (pc_dst st, BFail e)
            | BOk _ =>
                match pc_start st with
                | None => pcpy_finish (pc_dst st)
                | Some s =>
                    differs ← (if UBF_EOF src (pc_src st) then Some true
                               else a ← ld32 (mem src) s; b ← ld32 (mem src) (pc_src st);
                                    Some (negb (a =? b)));
                    if differs : bool
                    then c ← copy_buffer_data (pc_dst st) (mem src) s (pc_src st) (pc_nextfld st);
                         match c.2 : bres unit with
                         | BFail e => Some (c.1.1, BFail e)
                         | BOk _ => pcpy_finish c.1.1
                         end
                    else pcpy_finish (pc_dst st)
                end
            end
      end
  end.

Definition Bprojcpy (p_ub_dst p_ub_src : option UBFH) (fldlist : option (list Z))
  : option (option UBFH * bres unit) :=
  match validate_entry p_ub_src 0 0 VALIDATE_MODE_NO_FLD with
  | BFail e => Some (p_ub_dst, BFail e)
  | BOk src =>
      match validate_entry p_ub_dst 0 0 VALIDATE_MODE_NO_FLD with
      | BFail e => Some (p_ub_dst, BFail e)
      | BOk dst => r ← ndrx_Bprojcpy dst src fldlist; Some (Some r.1, r.2)
      end
  end.

End Proj.

(** ** The field list is searched correctly *)

Section FldList.

Definition sorted_le (l : list Z) : Prop := StronglySorted Z.le l.

Lemma sorted_le_lookup l i j x y : sorted_le l -> (i <= j)%nat ->
  l !! i = Some x -> l !! j = Some y -> x <= y.
Proof.
  intros Hs. revert i j. induction Hs as [|z l Hs IH Hz]; intros i j Hij Hx Hy; [done|].
  destruct i as [|i], j as [|j]; cbn in *; simplify_eq; try lia.
  - by eapply (Forall_lookup_1 _ _ _ _ Hz).
  - apply (IH i j); [lia|done..].
Qed.

Lemma is_fld_pres_loop_ok l k d : sorted_le l -> zlen l <= 1073741823 ->
  forall fuel left right, 0 <= left -> right < zlen l -> right - left < Z.of_nat d -> (d < fuel)%nat ->
  (forall i, l !! i = Some k -> left <= Z.of_nat i <= right) ->
  is_fld_pres_loop fuel l left right k = Some (bool_decide (k ∈ l)).
Proof.
  intros Hs Hl. unfold zlen in *. induction d as [d IH] using lt_wf_ind.
  intros [|fuel] left right H0 Hr Hd Hf Hin; [lia|]. cbn [is_fld_pres_loop].
  destruct (Z.leb_spec left right) as [Hlr|Hlr].
  - rewrite (i32_id (left + right)) by (unfold INT_MIN, INT_MAX; lia).
    rewrite Z.quot_div_nonneg by lia.
    pose proof (Z.div_mod (left + right) 2 ltac:(done)) as Hdm.
    pose proof (Z.mod_pos_bound (left + right) 2 ltac:(done)) as Hm.
    set (mid := (left + right) / 2) in *. rewrite (proj2 (Z.ltb_ge mid 0)) by lia.
    destruct (lookup_lt_is_Some_2 l (Z.to_nat mid)) as [v Hv]; [lia|]. rewrite Hv.
    cbn [mbind option_bind]. rewrite !i32_id by (unfold INT_MIN, INT_MAX; lia).
    destruct (Z.eqb_spec k v) as [->|Hne].
    { rewrite bool_decide_eq_true_2; [done|]. apply list_elem_of_lookup. by exists (Z.to_nat mid). }
    assert (forall i, l !! i = Some k -> k < v -> (i < Z.to_nat mid)%nat) as Hlo.
    { intros i Hi Hkv. destruct (Nat.le_gt_cases (Z.to_nat mid) i) as [Hge|]; [|done].
      pose proof (sorted_le_lookup l _ _ _ _ Hs Hge Hv Hi). lia. }
    assert (forall i, l !! i = Some k -> v < k -> (Z.to_nat mid < i)%nat) as Hhi.
    { intros i Hi Hkv. destruct (Nat.le_gt_cases i (Z.to_nat mid)) as [Hge|]; [|done].
      pose proof (sorted_le_lookup l _ _ _ _ Hs Hge Hi Hv). lia. }
    destruct (Z.ltb_spec v k), (Z.ltb_spec k v); try lia;
      apply (IH (Z.to_nat (right - left))); try lia;
      intros i Hi; specialize (Hin i Hi); specialize (Hlo i Hi); specialize (Hhi i Hi); lia.
  - rewrite bool_decide_eq_false_2; [done|]. intros [i Hi]%list_elem_of_lookup.
    specialize (Hin i Hi). lia.
Qed.

(** Ids are positive, so [compare] does not overflow and orders them. *)
Definition id_range (x : Z) : Prop := 0 < x <= INT_MAX.

#[local] Instance cmp_le_total : Total cmp_le.
Proof.
  intros a b. unfold cmp_le, compare, i32. pose proof (Z.mod_pos_bound (a - b + 2147483648) 4294967296).
  pose proof (Z.mod_pos_bound (b - a + 2147483648) 4294967296).
  pose proof (Z.div_mod (a - b + 2147483648) 4294967296).
  pose proof (Z.div_mod (b - a + 2147483648) 4294967296). lia.
Qed.

Lemma Sorted_cmp_le l : Forall id_range l -> Sorted cmp_le l -> Sorted Z.le l.
Proof.
  intros HF. induction 1 as [|x l Hs IH Hx]; [constructor|].
  apply Forall_cons in HF as [Hrx HF]. constructor; [auto|]. destruct Hx as [|y l Hxy]; constructor.
  apply Forall_cons in HF as [Hry _]. unfold cmp_le, compare, id_range in *.
  rewrite i32_id in Hxy; unfold INT_MIN, INT_MAX in *; lia.
Qed.

Lemma merge_sort_ids l : Forall id_range l -> sorted_le (merge_sort cmp_le l).
Proof.
  intros HF. apply Sorted_StronglySorted; [intros a b c ? ?; lia|].
  apply Sorted_cmp_le; [by rewrite (merge_sort_Permutation cmp_le l)|]. apply (Sorted_merge_sort cmp_le).
Qed.

Lemma fld_count_ok ids r : Forall id_range ids -> fld_count (ids ++ BBADFLDID :: r) = Some (zlen ids).
Proof.
  induction 1 as [|x l Hx _ IH]; [done|]. cbn [app fld_count]. unfold id_range, BBADFLDID in *.
  rewrite (proj2 (Z.eqb_neq x 0)) by lia. rewrite IH. cbn. f_equal. zl.
Qed.

Lemma qsort_ids ids r : qsort (zlen ids) (ids ++ r) = merge_sort cmp_le ids ++ r.
Proof. unfold qsort. by rewrite take_zlen, drop_zlen. Qed.

Lemma is_fld_pres_loop_more array r : forall fuel left right k, right < zlen array -> 0 <= left ->
  zlen array <= 1073741823 ->
  is_fld_pres_loop fuel (array ++ r) left right k = is_fld_pres_loop fuel array left right k.
Proof.
  intros fuel. induction fuel as [|fuel IH]; intros left right k Hr Hl Hz; [done|]. cbn [is_fld_pres_loop].
  destruct (Z.leb_spec left right); [|done]. unfold zlen in *.
  rewrite (i32_id (left + right)) by (unfold INT_MIN, INT_MAX; lia).
    rewrite Z.quot_div_nonneg by lia.
  pose proof (Z.div_mod (left + right) 2 ltac:(done)).
  pose proof (Z.mod_pos_bound (left + right) 2 ltac:(done)).
  rewrite lookup_app_l by lia. rewrite (proj2 (Z.ltb_ge _ 0)) by lia.
  destruct (lookup_lt_is_Some_2 array (Z.to_nat ((left + right) / 2))) as [v ->]; [lia|].
  cbn [mbind option_bind]. rewrite !i32_id by (unfold INT_MIN, INT_MAX; lia).
  destruct (k =? v); [done|]. apply IH; [|destruct (v <? k); lia|done]. destruct (k <? v); lia.
Qed.

Lemma is_fld_pres_ids ids r k : Forall id_range ids -> zlen ids <= 1073741823 ->
  is_fld_pres (qsort (zlen ids) (ids ++ r)) 0 (zlen ids - 1) k = Some (bool_decide (k ∈ ids)).
Proof.
  intros HF Hl. rewrite qsort_ids. unfold is_fld_pres.
  assert (zlen (merge_sort cmp_le ids) = zlen ids) as Hz
    by (unfold zlen; by rewrite (merge_sort_Permutation cmp_le ids)).
  rewrite is_fld_pres_loop_more by lia.
  rewrite (is_fld_pres_loop_ok _ _ (length (merge_sort cmp_le ids)) (merge_sort_ids _ HF)); [| | |lia| | |].
  - f_equal. apply bool_decide_ext. by rewrite merge_sort_Permutation.
  - lia.
  - lia.
  - unfold zlen in *. lia.
  - rewrite length_app. lia.
  - intros i Hi%lookup_lt_Some. unfold zlen in *. lia.
Qed.

End FldList.

(** ** Deleting runs of fields *)

Section ProjProofs.
Context `{Platform}.

(** The word behind the data is readable and is no id of these blocks. *)
Definition eof_word_ok (tail : list Z) (bs : list (list Z)) : Prop :=
  exists w, ld32 tail 0 = Some w /\ Forall (fun b => blk_fid b <> w) bs.

Lemma ksorted_drop_mid (K D R : list (list Z)) :
  ksorted blk_fid (K ++ D ++ R) -> ksorted blk_fid (K ++ R).
Proof.
  unfold ksorted. induction K as [|k K IH]; cbn [app].
  - induction D as [|d D IH]; [done|]. intros Hs. inversion Hs. auto.
  - intros Hs. inversion Hs as [|? ? Hs' HF]; subst. constructor; [auto|].
    rewrite !Forall_app in HF. apply Forall_app. tauto.
Qed.

Lemma blks_nonempty D : Forall wf_blk D -> D <> [] -> 5 <= zlen (concat D).
Proof.
  intros HF Hne. destruct D as [|d D]; [done|]. apply Forall_cons in HF as [Hd _].
  pose proof (wf_blk_nonempty d Hd). cbn [concat]. zl.
Qed.

Lemma delete_buffer_data_ok u K D R tail :
  ubf_data u (K ++ D ++ R) tail -> D <> [] ->
  exists u' tail',
    delete_buffer_data u (blk_off K) (blk_off (K ++ D)) (blk_off (K ++ D)) = Some (u', blk_off K) /\
    ubf_data u' (K ++ R) tail' /\ buf_len u' = buf_len u /\ ld32 tail' 0 = Some 0.
Proof.
  intros Hu Hne. pose proof (ud_blks _ _ _ Hu) as HF. rewrite !Forall_app in HF.
  destruct HF as (HK & HD & HR). pose proof (blks_nonempty D HD Hne) as H5.
  pose proof (ud_used _ _ _ Hu) as Hus. pose proof (ud_max _ _ _ Hu) as Hmax.
  pose proof (ud_len _ _ _ Hu) as Hlen. pose proof (ud_mem _ _ _ Hu) as Hm.
  pose proof DATA_OFF_range. rewrite !concat_app in *. rewrite <- !app_assoc in Hm.
  unfold delete_buffer_data, blk_off. rewrite concat_app, zlen_app.
  set (k := concat K) in *. set (d := concat D) in *. set (r := concat R) in *.
  assert (zlen (mem u) = zlen k + (zlen d + (zlen r + zlen tail))) as Hlm by (rewrite Hm; zl).
  replace (zlen k + zlen d - zlen k) with (zlen d) by lia. zlen_pos. unfold INT_MAX in *.
  rewrite !zlen_app in Hus. rewrite !(i32_id (zlen d)) by (unfold INT_MIN, INT_MAX; lia).
  rewrite !i32_id by (unfold INT_MIN, INT_MAX; lia).
  replace (bytes_used u - DATA_OFF - zlen k - zlen d) with (zlen r) by lia.
  destruct (memmove_resize k d r tail 0) as (j & t' & Hmv & Hj & Ht'); [lia|lia|].
  apply zlen_0_inv in Hj as ->. rewrite Z.add_0_r, <- Hm in Hmv. rewrite Hmv. cbn [mbind option_bind app].
  destruct (split_at t' 0 (zlen d)) as (x & y & z & -> & Hx & Hy); [lia|lia|zl|].
  apply zlen_0_inv in Hx as ->. cbn [app] in *.
  rewrite (st_bytes_at _ (k ++ r) y z (replicate (Z.to_nat (zlen d)) 0));
    [|by rewrite <- app_assoc|zl|rewrite zlen_replicate by lia; lia].
  cbn [mbind option_bind]. set (zs := replicate (Z.to_nat (zlen d)) 0) in *.
  assert (zlen zs = zlen d) as Hzs by (apply zlen_replicate; lia).
  eexists _, (zs ++ z). split; [do 2 f_equal; lia|]. split; [|split; [done|]].
  - constructor; cbn; rewrite ?concat_app; fold k r; try done; try apply Hu.
    + rewrite Forall_app. tauto.
    + apply (ksorted_drop_mid K D R), Hu.
    + zl.
    + rewrite Hlen, Hlm. zl.
  - rewrite ld32_prefix_eq by lia. unfold zs.
    replace (Z.to_nat (zlen d)) with (4 + Z.to_nat (zlen d - 4))%nat by lia.
    by rewrite replicate_add, ld32_prefix_eq.
Qed.

(** [mk f]: the mode and the list say that fields with id [f] go. *)
Section Loop.
Variables (mode : Z) (arr : list Z) (cnt : Z) (mk : Z -> bool).
Hypothesis Hmk : forall f, id_range f -> proj_mark mode arr cnt f = Some (Some (mk f)).

Definition marked (b : list Z) : Prop := mk (blk_fid b) = true.
Definition kept (b : list Z) : Prop := mk (blk_fid b) = false.

#[global] Instance kept_dec b : Decision (kept b) := decide (mk (blk_fid b) = false).

Definition run_start (K D : list (list Z)) : option Z :=
  match D with [] => None | _ => Some (blk_off K) end.

Definition at_run (u : UBFH) (K D : list (list Z)) (n : Z) : proj_st :=
  {| pj_ub := u; pj_bfldid := blk_off (K ++ D); pj_start := run_start K D; pj_processed := n |}.

(** The word behind the data matters only when the last field is marked. *)
Definition tail_ok (tail : list Z) (bs : list (list Z)) : Prop :=
  (exists bs' b, bs = bs' ++ [b] /\ marked b) -> eof_word_ok tail bs.

Lemma tail_ok_cons tail b bs : tail_ok tail (b :: bs) -> tail_ok tail bs.
Proof.
  intros Ht (bs' & c & -> & Hc). destruct Ht as (w & Hw & HF).
  { exists (b :: bs'), c. done. }
  exists w. split; [done|]. by apply Forall_cons in HF as [_ HF].
Qed.

Lemma tail_ok_zero tail bs : Forall wf_blk bs -> ld32 tail 0 = Some 0 -> tail_ok tail bs.
Proof.
  intros HF H0 _. exists 0. split; [done|]. eapply Forall_impl; [exact HF|].
  intros b Hb%wf_blk_fid_ok%fid_ok_range. lia.
Qed.

Lemma wf_blk_id b : wf_blk b -> id_range (blk_fid b).
Proof. intros Hb%wf_blk_fid_ok%fid_ok_range. done. Qed.

(** One field: a marked one joins the run, another one ends it. *)
Lemma proj_step fuel u K D b R tail n :
  ubf_data u (K ++ D ++ b :: R) tail -> Forall marked D -> tail_ok tail (D ++ b :: R) ->
  exists u' K' D' tail' n',
    proj_loop (S fuel) mode arr cnt (at_run u K D n) = proj_loop fuel mode arr cnt (at_run u' K' D' n') /\
    ubf_data u' (K' ++ D' ++ R) tail' /\ buf_len u' = buf_len u /\ Forall marked D' /\
    tail_ok tail' (D' ++ R) /\ K' = K ++ (if mk (blk_fid b) then [] else [b]) /\
    (n' = n /\ K' ++ D' = K ++ D ++ [b] \/ n' = n + 1 /\ D <> []).
Proof.
  intros Hu HD Ht. assert (ubf_data u ((K ++ D) ++ b :: R) tail) as Hu1 by by rewrite <- app_assoc.
  destruct (ubf_at _ _ _ _ _ Hu1) as (Hb & He & Hal & _ & Hld & Hty & dt & v & Hdt & _ & Hnx & _).
  unfold at_run. cbn [proj_loop pj_ub pj_bfldid pj_start pj_processed]. unfold blk_off.
  rewrite He, Hld. cbn [mbind option_bind]. rewrite (Hmk _ (wf_blk_id b Hb)). cbn [mbind option_bind].
  assert (zlen (concat (K ++ D)) + zlen b = zlen (concat (K ++ D ++ [b]))) as Hadv
    by (rewrite !concat_app; cbn [concat]; zl).
  destruct (mk (blk_fid b)) eqn:Hb1.
  - exists u, K, (D ++ [b]), tail, n. rewrite app_nil_r. split; [|split; [by rewrite <- app_assoc|]].
    + assert (run_start K (D ++ [b]) = Some (zlen (concat K))) as -> by by destruct D.
      destruct D as [|c D]; cbn [run_start mbind option_bind pj_ub pj_bfldid pj_start pj_processed];
        rewrite ?app_nil_r in *;
        rewrite Hld; cbn [mbind option_bind]; fold (blk_type b); rewrite Hty, Hdt; cbn [mbind option_bind];
        rewrite Hnx; cbn [mbind option_bind fst]; rewrite Hal; by rewrite Hadv.
    + split; [done|]. split; [apply Forall_app; by split; [|apply Forall_singleton]|].
      rewrite <- app_assoc. split; [done|]. split; [done|]. by left.
  - destruct D as [|c D].
    + exists u, (K ++ [b]), [], tail, n. cbn [app] in *. rewrite !app_nil_r in *.
      cbn [run_start mbind option_bind pj_ub pj_bfldid pj_start pj_processed].
      split; [|split; [by rewrite <- app_assoc|]].
      * rewrite Hld; cbn [mbind option_bind]; fold (blk_type b); rewrite Hty, Hdt; cbn [mbind option_bind].
        rewrite Hnx; cbn [mbind option_bind fst]; rewrite Hal. by rewrite Hadv.
      * split; [done|]. split; [done|]. split; [by eapply tail_ok_cons|]. split; [done|]. by left.
    + destruct (delete_buffer_data_ok u K (c :: D) (b :: R) tail Hu) as (u' & tail' & Hdel & Hu' & Hl & Hz); [done|].
      exists u', (K ++ [b]), [], tail', (n + 1). cbn [run_start]. unfold blk_off in Hdel |- *. rewrite Hdel.
      cbn [mbind option_bind pj_ub pj_bfldid pj_start pj_processed fst snd].
      destruct (ubf_at _ _ _ _ _ Hu') as (_ & _ & Hal' & _ & Hld' & _ & dt' & v' & Hdt' & _ & Hnx' & _).
      rewrite Hld'. cbn [mbind option_bind]. fold (blk_type b). rewrite Hty, Hdt'. cbn [mbind option_bind].
      rewrite Hnx'. cbn [mbind option_bind fst]. rewrite Hal'. rewrite !app_nil_r.
      split; [|split; [by rewrite <- app_assoc|]].
      * do 2 f_equal. rewrite concat_app. cbn [concat]. zl.
      * split; [done|]. split; [done|]. split; [|split; [done|by right]].
        apply tail_ok_zero; [|done]. pose proof (ud_blks _ _ _ Hu') as HF.
        apply Forall_app in HF as [_ HF]. by apply Forall_cons in HF as [_ HF].
Qed.

Lemma proj_loop_ok R : forall fuel u K D tail n,
  ubf_data u (K ++ D ++ R) tail -> Forall marked D -> tail_ok tail (D ++ R) -> (length R < fuel)%nat ->
  exists u' D' tail' n', let K' := K ++ filter kept R in
    proj_loop fuel mode arr cnt (at_run u K D n) = Some (at_run u' K' D' n', PEof) /\
    ubf_data u' (K' ++ D') tail' /\ buf_len u' = buf_len u /\ Forall marked D' /\ tail_ok tail' D' /\
    (n' = n /\ K' ++ D' = K ++ D ++ R \/ n < n' /\ Exists marked (D ++ R)).
Proof.
  induction R as [|b R IH]; intros [|fuel] u K D tail n Hu HD Ht Hf; cbn [length] in Hf; try lia.
  - exists u, D, tail, n. rewrite !app_nil_r in Hu, Ht. cbn zeta.
    change (filter kept []) with (@nil (list Z)). rewrite !app_nil_r.
    split; [|by auto 10]. cbn [proj_loop at_run pj_ub pj_bfldid]. unfold blk_off.
    by rewrite (ubf_at_eof _ _ _ Hu).
  - destruct (proj_step fuel u K D b R tail n Hu HD Ht)
      as (u1 & K1 & D1 & t1 & n1 & -> & Hu1 & Hl1 & HD1 & Ht1 & HK1 & Hn1).
    destruct (IH fuel u1 K1 D1 t1 n1 Hu1 HD1 Ht1 ltac:(lia))
      as (u' & D' & tail' & n' & -> & Hu' & Hl' & HD' & Ht' & Hn').
    exists u', D', tail', n'. cbn zeta.
    assert (K ++ filter kept (b :: R) = K1 ++ filter kept R) as ->.
    { rewrite HK1, <- app_assoc. destruct (mk (blk_fid b)) eqn:Hb1.
      - by rewrite filter_cons_False by (unfold kept; congruence).
      - by rewrite filter_cons_True. }
    split; [done|]. split; [done|]. split; [by rewrite Hl'|]. split; [done|]. split; [done|].
    assert (D <> [] -> Exists marked (D ++ b :: R)) as Hex.
    { intros Hne. destruct D as [|d D]; [done|]. apply Forall_cons in HD as [Hd _]. by left. }
    destruct Hn1 as [(-> & HK)|(-> & Hne)], Hn' as [(-> & Hkk)|(Hlt & Hx)].
    + left. split; [done|]. rewrite Hkk, app_assoc, HK. by rewrite <- !app_assoc.
    + right. split; [done|]. destruct (mk (blk_fid b)) eqn:Hb1.
      * apply Exists_app. right. by left.
      * rewrite HK1, <- app_assoc in HK. apply app_inv_head in HK.
        apply Exists_app in Hx as [Hx|Hx]; [|by apply Exists_app; right; right].
        destruct D1 as [|d1 D1]; [by inversion Hx|]. apply Hex. intros ->. done.
    + right. split; [lia|]. auto.
    + right. split; [lia|]. auto.
Qed.

End Loop.

Lemma proj_finish_ok u bs tail n : ubf_data u bs tail -> exists u',
  proj_finish u n (BOk tt) = Some (u', n, BOk tt) /\ ubf_rep u' bs /\ buf_len u' = buf_len u.
Proof.
  intros Hu. destruct (ubf_cache_update_ok u bs tail Hu) as (c & Hc & Hok).
  unfold proj_finish. rewrite Hc. cbn [mbind option_bind fst snd]. eexists. split; [done|].
  split; [|done]. split; [|done]. exists tail. by apply ubf_data_set_cache.
Qed.

Lemma ndrx_Bproj_blocks u bs tail x l mode cnt mk :
  ubf_data u bs tail -> x <> BBADFLDID ->
  (if mode =? PROJ_MODE_DELALL then Some 1 else fld_count (x :: l)) = Some cnt ->
  (forall f, id_range f -> proj_mark mode (qsort cnt (x :: l)) cnt f = Some (Some (mk f))) ->
  tail_ok mk tail bs ->
  exists u' n, ndrx_Bproj u (Some (x :: l)) mode = Some (u', n, BOk tt) /\
    ubf_rep u' (filter (kept mk) bs) /\ buf_len u' = buf_len u /\ 0 <= n /\ (n = 0 <-> Forall (kept mk) bs).
Proof.
  intros Hu Hx Hcnt Hmk Ht. unfold ndrx_Bproj. cbn [lookup list_lookup mbind option_bind].
  rewrite (proj2 (Z.eqb_neq _ _) Hx), Hcnt. cbn [mbind option_bind].
  assert (~ Exists (marked mk) bs <-> Forall (kept mk) bs) as Hex.
  { unfold marked, kept. rewrite <- Forall_Exists_neg. apply Forall_proper; [|done].
    intros b. destruct (mk (blk_fid b)); split; congruence. }
  destruct (proj_loop_ok mode _ cnt mk Hmk bs (S (length (mem u))) u [] [] tail 0 Hu)
    as (u1 & D & t1 & n & Hl & Hu1 & Hbl & HD & Ht1 & Hn); [constructor|done| |].
  { pose proof (ubf_fuel _ _ _ Hu). lia. }
  unfold at_run at 1 in Hl. cbn [app concat run_start blk_off] in Hl. cbn [app] in *.
  change (blk_off []) with 0 in Hl. rewrite Hl. cbn [mbind option_bind fst snd at_run pj_ub pj_start pj_bfldid pj_processed].
  destruct D as [|d D].
  - cbn [run_start]. rewrite app_nil_r in *. destruct (proj_finish_ok u1 _ t1 n Hu1) as (u' & -> & Hr & Hb').
    exists u', n. split; [done|]. split; [done|]. split; [congruence|]. split; [lia|].
    rewrite <- Hex. destruct Hn as [(-> & Hk)|(Hlt & Hx1)]; [|split; [lia|tauto]].
    split; [|done]. intros _. apply Hex. rewrite <- Hk. apply Forall_forall.
    intros b [Hb _]%list_elem_of_filter. done.
  - cbn [run_start]. assert (ubf_data u1 (filter (kept mk) bs ++ (d :: D) ++ []) t1) as Hu2 by by rewrite app_nil_r.
    destruct (ubf_at _ _ _ _ _ Hu1) as (Hbd & _ & _ & _ & Hld & _).
    fold (blk_off (filter (kept mk) bs)) in Hld. rewrite Hld. cbn [mbind option_bind].
    destruct Ht1 as (w & Hw & HF). { destruct (exists_last (l := d :: D)) as (D' & y & He); [done|].
      exists D', y. split; [done|]. rewrite He, Forall_app in HD. by destruct HD as [_ [? _]%Forall_cons]. }
    assert (ld32 (mem u1) (blk_off (filter (kept mk) bs ++ d :: D)) = Some w) as ->.
    { rewrite (ud_mem _ _ _ Hu1). unfold blk_off. rewrite <- (Z.add_0_r (zlen _)).
      apply ld32_bound in Hw as Hwb. rewrite <- (app_nil_r t1). rewrite ld32_ctx by lia. done. }
    cbn [mbind option_bind]. apply Forall_cons in HF as [Hne HF]. rewrite (proj2 (Z.eqb_neq _ _) Hne). cbn [negb].
    destruct (delete_buffer_data_ok u1 _ _ _ t1 Hu2) as (u3 & t3 & -> & Hu3 & Hl3 & _); [done|].
    cbn [mbind option_bind fst]. rewrite app_nil_r in Hu3.
    destruct (proj_finish_ok u3 _ t3 (n + 1) Hu3) as (u' & -> & Hr & Hb').
    exists u', (n + 1). split; [done|]. split; [done|]. split; [congruence|]. split; [lia|].
    rewrite <- Hex. split; [lia|]. intros Hno. exfalso. apply Hno.
    destruct Hn as [(-> & Hk)|(_ & Hx1)]; [|done]. rewrite <- Hk. apply Exists_app. right. left.
    by apply Forall_cons in HD as [Hd _].
Qed.

(** *** Fields *)

(** The four bytes behind the data hold no id of a field of the buffer. *)
Definition eof_word_clear (u : UBFH) (fs : list field) : Prop :=
  exists w, ld32 (mem u) (bytes_used u - DATA_OFF) = Some w /\ Forall (fun f => f.1 <> w) fs.

Lemma filter_blk_is (P : Z -> Prop) `{!forall x, Decision (P x)} fs bs : Forall2 blk_is fs bs ->
  Forall2 blk_is (filter (fun f => P f.1) fs) (filter (fun b => P (blk_fid b)) bs).
Proof.
  induction 1 as [|f b fs bs Hfb _ IH]; [constructor|]. pose proof Hfb as (_ & Hk & _).
  rewrite !filter_cons, Hk. destruct (decide (P f.1)); [by constructor|done].
Qed.

Lemma blk_is_keys_iff (R : Z -> Prop) fs bs : Forall2 blk_is fs bs ->
  Forall (fun b => R (blk_fid b)) bs <-> Forall (fun f : field => R f.1) fs.
Proof.
  induction 1 as [|f b fs bs (_ & Hf & _) _ IH]; [by rewrite !Forall_nil|].
  by rewrite !Forall_cons, IH, Hf.
Qed.

Lemma ndrx_Bproj_fields u fs x l mode cnt mk :
  buf_repr u fs -> x <> BBADFLDID ->
  (if mode =? PROJ_MODE_DELALL then Some 1 else fld_count (x :: l)) = Some cnt ->
  (forall f, id_range f -> proj_mark mode (qsort cnt (x :: l)) cnt f = Some (Some (mk f))) ->
  (forall f, last fs = Some f -> mk f.1 = true -> eof_word_clear u fs) ->
  exists u' n, ndrx_Bproj u (Some (x :: l)) mode = Some (u', n, BOk tt) /\
    buf_repr u' (filter (fun f => mk f.1 = false) fs) /\ buf_len u' = buf_len u /\
    0 <= n /\ (n = 0 <-> Forall (fun f => mk f.1 = false) fs).
Proof.
  intros (bs & HF & [[tail Hu] Hc]) Hx Hcnt Hmk Hcl.
  destruct (ndrx_Bproj_blocks u bs tail x l mode cnt mk Hu Hx Hcnt Hmk) as (u' & n & He & Hr & Hl & Hn & Hz).
  - intros (bs' & b & -> & Hb). apply Forall2_app_inv_r in HF as (f1 & f2 & HF1 & HF2 & ->).
    inversion HF2 as [|f ? ? ? Hfb HF3]; subst. inversion HF3; subst.
    destruct (Hcl f) as (w & Hw & HFw).
    { by rewrite last_app. } { destruct Hfb as (_ & <- & _). done. }
    exists w. split.
    + rewrite (ud_used _ _ _ Hu), (ud_mem _ _ _ Hu) in Hw.
      replace (DATA_OFF + zlen (concat (bs' ++ [b])) - DATA_OFF) with (zlen (concat (bs' ++ [b])) + 0) in Hw by lia.
      apply ld32_bound in Hw as Hwb. rewrite zlen_app in Hwb. rewrite <- (app_nil_r tail) in Hw.
      rewrite ld32_ctx in Hw by lia. done.
    + apply (blk_is_keys_iff (fun k => k <> w) (f1 ++ [f])); [|done].
      apply Forall2_app; [done|]. by constructor.
  - exists u', n. split; [done|]. split; [|split; [done|split; [done|]]].
    + exists (filter (kept mk) bs). split; [|done].
      exact (filter_blk_is (fun k => mk k = false) fs bs HF).
    + rewrite Hz. by apply (blk_is_keys_iff (fun k => mk k = false)).
Qed.

Lemma validate_no_fld u fs : buf_repr u fs -> validate_entry (Some u) 0 0 VALIDATE_MODE_NO_FLD = BOk u.
Proof. intros Hr. unfold validate_entry. by rewrite (repr_magic _ _ Hr), bool_decide_eq_true_2. Qed.

(** A buffer that [Binit] accepts again. *)
Lemma Binit_again u fs : buf_repr u fs -> sizeof_UBF_header <= buf_len u ->
  exists u', Binit (Some (raw_of u)) (buf_len u) = Some (BOk u') /\ buf_repr u' [] /\
    buf_len u' = buf_len u.
Proof.
  intros Hr Hh. destruct (repr_range u fs Hr) as [_ Hmax]. pose proof DATA_OFF_range.
  destruct Hr as (bs & _ & [[tail Hu] _]).
  destruct (Binit_ok (raw_of u) (buf_len u)) as (u' & He & Hr' & Hl & _); [|lia|by exists u'].
  unfold raw_of. rewrite zlen_app, zlen_replicate by lia. by rewrite (ud_len _ _ _ Hu).
Qed.

Lemma proj_reinit_ok u fs mode l : buf_repr u fs -> sizeof_UBF_header <= buf_len u ->
  l = None \/ (exists r, l = Some (BBADFLDID :: r)) ->
  exists u', ndrx_Bproj u l mode = Some (u', 0, BOk tt) /\ buf_repr u' [] /\ buf_len u' = buf_len u.
Proof.
  intros Hr Hh Hl. destruct (Binit_again u fs Hr Hh) as (u1 & He & (bs & HF & [[t1 Hu1] _]) & Hl1).
  apply Forall2_nil_inv_l in HF as ->.
  destruct (proj_finish_ok u1 [] t1 0 Hu1) as (u' & Hfin & Hrep & Hl').
  exists u'. split; [|split; [by exists []|congruence]].
  destruct Hl as [->|[r ->]]; unfold ndrx_Bproj; rewrite He; done.
Qed.

Lemma mark_list mode ids r : Forall id_range ids -> zlen ids <= 1073741823 ->
  forall f, id_range f ->
  (mode = PROJ_MODE_PROJ -> proj_mark mode (qsort (zlen ids) (ids ++ r)) (zlen ids) f =
    Some (Some (negb (bool_decide (f ∈ ids))))) /\
  (mode = PROJ_MODE_DELETE -> proj_mark mode (qsort (zlen ids) (ids ++ r)) (zlen ids) f =
    Some (Some (bool_decide (f ∈ ids)))).
Proof.
  intros HF Hl f Hf. split; intros ->; unfold proj_mark; cbn [PROJ_MODE_PROJ PROJ_MODE_DELETE Z.eqb Pos.eqb];
    by rewrite is_fld_pres_ids.
Qed.

(** [Bproj] leaves exactly the fields whose id is in the list, with all
    their occurrences, values and order; an empty list empties the buffer.
    When the last field of the buffer is to go, the word behind the data must
    not be a stale field id. *)
Theorem Bproj_correct u fs ids r :
  buf_repr u fs -> Forall id_range ids -> zlen ids <= 1073741823 -> sizeof_UBF_header <= buf_len u ->
  (forall f, last fs = Some f -> f.1 ∉ ids -> eof_word_clear u fs) ->
  exists u', Bproj (Some u) (Some (ids ++ BBADFLDID :: r)) = Some (Some u', BOk tt) /\
    buf_repr u' (filter (fun f => f.1 ∈ ids) fs) /\ buf_len u' = buf_len u.
Proof.
  intros Hr HF Hl Hh Hcl. unfold Bproj. rewrite (validate_no_fld u fs Hr). destruct ids as [|x ids].
  - destruct (proj_reinit_ok u fs PROJ_MODE_PROJ (Some (BBADFLDID :: r)) Hr Hh) as (u' & He & Hr' & Hl');
      [by right; exists r|]. cbn [app]. rewrite He. exists u'. split; [done|]. split; [|done].
    assert (filter (fun f : field => f.1 ∈ []) fs = []) as ->; [|done].
    clear. induction fs as [|f fs IH]; [done|]. rewrite filter_cons_False; [done|]. apply not_elem_of_nil.
  - destruct (ndrx_Bproj_fields u fs x (ids ++ BBADFLDID :: r) PROJ_MODE_PROJ (zlen (x :: ids))
      (fun k => negb (bool_decide (k ∈ x :: ids))) Hr) as (u' & n & He & Hr' & Hl' & _ & _).
    + apply Forall_cons in HF as [Hx _]. unfold id_range, BBADFLDID in *. lia.
    + by apply (fld_count_ok (x :: ids) r).
    + intros f Hf. by apply (mark_list PROJ_MODE_PROJ (x :: ids) (BBADFLDID :: r)).
    + intros f Hlast Hf. apply (Hcl f Hlast). by apply negb_true_iff, bool_decide_eq_false in Hf.
    + cbn [app]. rewrite He. exists u'. split; [done|]. split; [|done].
      erewrite list_filter_iff; [exact Hr'|]. intros f. by rewrite negb_false_iff, bool_decide_eq_true.
Qed.

(** The outcome of a deletion by id: fields left, or [BNOTPRES] when no
    field was to go. *)
Definition deletes (del : Z -> Prop) `{!forall k, Decision (del k)} (u : UBFH) (fs : list field)
    (r : option (option UBFH * bres unit)) : Prop :=
  exists u', r = Some (Some u', if decide (Forall (fun f : field => ~ del f.1) fs)
                                then BFail (Some BNOTPRES) else BOk tt) /\
    buf_repr u' (filter (fun f => ~ del f.1) fs) /\ buf_len u' = buf_len u.

Lemma deletes_ok (del : Z -> Prop) `{!forall k, Decision (del k)} u fs x l mode cnt :
  buf_repr u fs -> x <> BBADFLDID ->
  (if mode =? PROJ_MODE_DELALL then Some 1 else fld_count (x :: l)) = Some cnt ->
  (forall f, id_range f -> proj_mark mode (qsort cnt (x :: l)) cnt f = Some (Some (bool_decide (del f)))) ->
  (forall f, last fs = Some f -> del f.1 -> eof_word_clear u fs) ->
  deletes del u fs (r ← ndrx_Bproj u (Some (x :: l)) mode; Some (del_result r)).
Proof.
  intros Hr Hx Hcnt Hmk Hcl.
  destruct (ndrx_Bproj_fields u fs x l mode cnt (fun k => bool_decide (del k)) Hr Hx Hcnt Hmk)
    as (u' & n & -> & Hr' & Hl' & Hn & Hz).
  { intros f Hlast Hf%bool_decide_eq_true. by apply (Hcl f). }
  exists u'. cbn [mbind option_bind]. unfold del_result. cbn [fst snd]. split; [|split; [|done]].
  - do 3 f_equal. assert (n = 0 <-> Forall (fun f : field => ~ del f.1) fs) as Hz'.
    { rewrite Hz. apply Forall_proper; [|done]. intros f. by rewrite bool_decide_eq_false. }
    destruct (Z.eqb_spec n 0), (decide _); tauto || done.
  - erewrite list_filter_iff; [exact Hr'|]. intros f. by rewrite bool_decide_eq_false.
Qed.

(** [Bdelete] removes every field whose id is in the list and [Bdelall]
    every occurrence of one id, leaving the others as they are; [BNOTPRES] is
    reported exactly when there was no such field.  As in [Bproj] a stale id
    behind the data is excluded. *)
Theorem Bdelete_Bdelall_correct u fs ids r fid :
  buf_repr u fs -> ids <> [] -> Forall id_range ids -> zlen ids <= 1073741823 -> fid_ok fid = true ->
  eof_word_clear u fs ->
  deletes (fun k => k ∈ ids) u fs (Bdelete (Some u) (Some (ids ++ BBADFLDID :: r))) /\
  deletes (fun k => k = fid) u fs (Bdelall (Some u) fid).
Proof.
  intros Hr Hne HF Hl Hf Hcl. split.
  - unfold Bdelete. rewrite (validate_no_fld u fs Hr). destruct ids as [|x ids]; [done|].
    apply (deletes_ok _ u fs x _ _ (zlen (x :: ids))); try done.
    + apply Forall_cons in HF as [Hx _]. unfold id_range, BBADFLDID in *. lia.
    + by apply (fld_count_ok (x :: ids) r).
    + intros f Hfr. by apply (mark_list PROJ_MODE_DELETE (x :: ids) (BBADFLDID :: r)).
  - unfold Bdelall. rewrite (validate_ok u fs fid 0) by done. pose proof (fid_ok_range _ Hf).
    apply (deletes_ok _ u fs fid [] PROJ_MODE_DELALL 1); try done.
    + unfold BBADFLDID. lia.
    + intros f _. change (Some (Some (fid =? f)) = Some (Some (bool_decide (f = fid)))).
      do 2 f_equal. destruct (Z.eqb_spec fid f) as [->|].
      * by rewrite bool_decide_eq_true_2.
      * by rewrite bool_decide_eq_false_2 by congruence.
Qed.

End ProjProofs.

(** ** Copying runs of fields *)

Section ProjcpyProofs.
Context `{Platform}.

Lemma copy_buffer_data_ok dst K dtail src a D c :
  ubf_data dst K dtail -> src = a ++ concat D ++ c -> Forall wf_blk D -> ksorted blk_fid (K ++ D) ->
  buf_len dst + zlen (concat D) <= INT_MAX ->
  if DATA_OFF + zlen (concat (K ++ D)) <=? buf_len dst
  then exists dst' t', copy_buffer_data dst src (zlen a) (zlen a + zlen (concat D)) (blk_off K) =
         Some (dst', blk_off (K ++ D), BOk tt) /\ ubf_data dst' (K ++ D) t' /\ buf_len dst' = buf_len dst
  else copy_buffer_data dst src (zlen a) (zlen a + zlen (concat D)) (blk_off K) =
         Some (dst, blk_off K, BFail (Some BNOSPACE)).
Proof.
  intros Hu Hsrc HD Hs Hmax. unfold copy_buffer_data. pose proof DATA_OFF_range.
  replace (zlen a + zlen (concat D) - zlen a) with (zlen (concat D)) by lia.
  pose proof (ud_used _ _ _ Hu) as Hus. pose proof (ud_len _ _ _ Hu) as Hlen.
  pose proof (ud_mem _ _ _ Hu) as Hm. pose proof (ubf_data_used_le _ _ _ Hu).
  pose proof (zlen_nonneg (concat D)). pose proof (zlen_nonneg (concat K)).
  rewrite !(i32_id (zlen (concat D))) by (unfold INT_MIN; lia).
  rewrite !i32_id by (unfold INT_MIN; lia). rewrite concat_app, zlen_app.
  destruct (Z.leb_spec (DATA_OFF + (zlen (concat K) + zlen (concat D))) (buf_len dst)).
  - rewrite (proj2 (Z.ltb_ge _ _)) by lia.
    rewrite (ld_bytes_at src a (concat D) c) by done. cbn [mbind option_bind].
    destruct (split_at dtail 0 (zlen (concat D))) as (x & y & z & Hdt & Hx & Hy); [lia|lia| |].
    { rewrite (ubf_data_free _ _ _ Hu). lia. }
    apply zlen_0_inv in Hx as ->. cbn [app] in Hdt. subst dtail.
    rewrite (st_bytes_at (mem dst) (concat K) y z (concat D)) by (done || (unfold blk_off; lia)).
    cbn [mbind option_bind]. eexists _, z. split; [do 4 f_equal; by rewrite blk_off_app|]. split; [|done].
    constructor; cbn; rewrite ?concat_app; try done; try apply Hu.
    + apply Forall_app. split; [apply Hu|done].
    + by rewrite <- app_assoc.
    + zl.
    + rewrite Hlen, Hm. zl.
  - by rewrite (proj2 (Z.ltb_lt _ _)) by lia.
Qed.

Section CpyLoop.
Variables (src : UBFH) (stail : list Z) (arr : list Z) (cnt : Z) (mk : Z -> bool) (len : Z).
Hypothesis Hmk : forall f, id_range f -> is_fld_pres arr 0 (cnt - 1) f = Some (mk f).
Hypothesis Hsum : len + buf_len src <= INT_MAX.

Definition picked (b : list Z) : Prop := mk (blk_fid b) = true.
#[global] Instance picked_dec b : Decision (picked b) := decide (mk (blk_fid b) = true).

Definition at_cpy (dst : UBFH) (P D K : list (list Z)) : pcpy_st :=
  {| pc_dst := dst; pc_src := blk_off (P ++ D); pc_nextfld := blk_off K; pc_start := run_start P D |}.

Lemma cpy_run dst P D R K dtail :
  ubf_data src (P ++ D ++ R) stail -> ubf_data dst K dtail -> buf_len dst = len -> ksorted blk_fid (K ++ D) ->
  if DATA_OFF + zlen (concat (K ++ D)) <=? len
  then exists dst' t', copy_buffer_data dst (mem src) (blk_off P) (blk_off (P ++ D)) (blk_off K) =
         Some (dst', blk_off (K ++ D), BOk tt) /\ ubf_data dst' (K ++ D) t' /\ buf_len dst' = len
  else copy_buffer_data dst (mem src) (blk_off P) (blk_off (P ++ D)) (blk_off K) =
         Some (dst, blk_off K, BFail (Some BNOSPACE)).
Proof.
  intros Hu Hd Hl Hs. pose proof (ud_blks _ _ _ Hu) as HF. rewrite !Forall_app in HF.
  pose proof (ud_len _ _ _ Hu) as Hsl. pose proof (ud_mem _ _ _ Hu) as Hsm. pose proof DATA_OFF_range.
  rewrite blk_off_app. unfold blk_off at 1 2 5 6. subst len. unfold blk_off at 3 6.
  apply (copy_buffer_data_ok dst K dtail (mem src) (concat P) D (concat R ++ stail)); try tauto.
  - rewrite Hsm, !concat_app. by rewrite <- !app_assoc.
  - assert (zlen (concat D) <= zlen (mem src)); [|lia]. rewrite Hsm, !concat_app. zl.
Qed.

(** The destination did not have the room for the blocks [X]. *)
Definition cpy_full (X : list (list Z)) (r : option (pcpy_st * bres unit)) : Prop :=
  len < DATA_OFF + zlen (concat X) /\ exists st, r = Some (st, BFail (Some BNOSPACE)).

Definition cpy_at (dst : UBFH) (P D R K : list (list Z)) : Prop :=
  ubf_data src (P ++ D ++ R) stail /\ (exists t, ubf_data dst K t) /\ buf_len dst = len.

Lemma cpy_step fuel dst P D b R K :
  cpy_at dst P D (b :: R) K -> ksorted blk_fid (K ++ D) ->
  cpy_full (K ++ D) (projcpy_loop (S fuel) src arr cnt (at_cpy dst P D K)) \/
  exists dst' P' D' K',
    projcpy_loop (S fuel) src arr cnt (at_cpy dst P D K) =
      projcpy_loop fuel src arr cnt (at_cpy dst' P' D' K') /\
    cpy_at dst' P' D' R K' /\ K' ++ D' = K ++ D ++ (if mk (blk_fid b) then [b] else []).
Proof.
  intros (Hu & (dtail & Hd) & Hl) Hs.
  assert (ubf_data src ((P ++ D) ++ b :: R) stail) as Hu1 by by rewrite <- app_assoc.
  destruct (ubf_at _ _ _ _ _ Hu1) as (Hb & He & Hal & _ & Hld & Hty & dt & v & Hdt & _ & Hnx & _).
  assert (zlen (concat (P ++ D)) + zlen b = blk_off (P ++ D ++ [b])) as Hadv
    by (unfold blk_off; rewrite !concat_app; cbn [concat]; zl).
  fold (blk_off (P ++ D)) in He, Hal, Hld, Hnx, Hadv.
  unfold at_cpy. cbn [projcpy_loop pc_src pc_dst pc_nextfld pc_start]. rewrite He, Hld. cbn [mbind option_bind].
  rewrite (Hmk _ (wf_blk_id b Hb)). cbn [mbind option_bind].
  destruct (mk (blk_fid b)) eqn:Hb1.
  - right. exists dst, P, (D ++ [b]), K. split; [|split; [|done]].
    + assert (run_start P (D ++ [b]) = Some (blk_off P)) as -> by by destruct D.
      destruct D as [|d D]; cbn [run_start mbind option_bind pc_src pc_dst pc_nextfld pc_start fst snd];
        fold (blk_type b); rewrite Hty, Hdt; cbn [mbind option_bind];
        rewrite Hnx; cbn [mbind option_bind fst]; rewrite Hal, Hadv; [by rewrite app_nil_r|done].
    + split; [|by split; [exists dtail|]]. by rewrite <- app_assoc.
  - destruct D as [|d D].
    + right. exists dst, (P ++ [b]), [], K. rewrite !app_nil_r in *. split; [|split; [|done]].
      * cbn [run_start mbind option_bind pc_src pc_dst pc_nextfld pc_start fst snd].
        fold (blk_type b); rewrite Hty, Hdt; cbn [mbind option_bind].
        rewrite Hnx; cbn [mbind option_bind fst]; by rewrite Hal, Hadv.
      * split; [|by split; [exists dtail|]]. by rewrite <- app_assoc.
    + cbn [run_start]. pose proof (cpy_run dst P (d :: D) (b :: R) K dtail Hu Hd Hl Hs) as Hc.
      destruct (Z.leb_spec (DATA_OFF + zlen (concat (K ++ d :: D))) len).
      * right. destruct Hc as (dst' & t' & Hc & Hd' & Hl').
        exists dst', (P ++ (d :: D) ++ [b]), [], (K ++ d :: D). rewrite Hc.
        cbn [mbind option_bind pc_src pc_dst pc_nextfld pc_start fst snd].
        fold (blk_type b); rewrite Hty, Hdt; cbn [mbind option_bind].
        rewrite Hnx; cbn [mbind option_bind fst]; rewrite Hal, Hadv. rewrite !app_nil_r.
        split; [done|]. split; [|done]. split; [|by split; [exists t'|]].
        by rewrite <- !app_assoc.
      * left. split; [done|]. rewrite Hc. cbn. by eexists.
Qed.

Lemma projcpy_loop_ok R : forall fuel dst P D K,
  cpy_at dst P D R K -> ksorted blk_fid (K ++ D ++ filter picked R) -> (length R < fuel)%nat ->
  cpy_full (K ++ D ++ filter picked R) (projcpy_loop fuel src arr cnt (at_cpy dst P D K)) \/
  exists dst' P' D' K',
    projcpy_loop fuel src arr cnt (at_cpy dst P D K) = Some (at_cpy dst' P' D' K', BOk tt) /\
    cpy_at dst' P' D' [] K' /\ K' ++ D' = K ++ D ++ filter picked R.
Proof.
  induction R as [|b R IH]; intros [|fuel] dst P D K Ha Hs Hf; cbn [length] in Hf; try lia.
  - right. exists dst, P, D, K. split; [|by rewrite filter_nil, app_nil_r].
    destruct Ha as (Hu & _). rewrite app_nil_r in Hu.
    cbn [projcpy_loop at_cpy pc_src]. unfold blk_off at 1. by rewrite (ubf_at_eof _ _ _ Hu).
  - assert (filter picked (b :: R) = (if mk (blk_fid b) then [b] else []) ++ filter picked R) as Hfl.
    { destruct (mk (blk_fid b)) eqn:Hb1; [by rewrite filter_cons_True|].
      by rewrite filter_cons_False by (unfold picked; congruence). }
    rewrite Hfl in Hs |- *. assert (ksorted blk_fid (K ++ D)) as HsD.
    { rewrite app_assoc in Hs. by apply StronglySorted_app_1_l in Hs. }
    destruct (cpy_step fuel dst P D b R K Ha HsD) as [[Hlt Hr]|(dst1 & P1 & D1 & K1 & -> & Ha1 & HKD)].
    + left. split; [|done]. revert Hlt. rewrite !concat_app. zl.
    + assert (K ++ D ++ (if mk (blk_fid b) then [b] else []) ++ filter picked R = K1 ++ D1 ++ filter picked R) as Heq
        by (rewrite (app_assoc K1), HKD; by rewrite <- !app_assoc).
      rewrite Heq in *. apply (IH fuel dst1 P1 D1 K1 Ha1); [done|lia].
Qed.
End CpyLoop.

Lemma pcpy_finish_ok u bs tail : ubf_data u bs tail -> exists u',
  pcpy_finish u = Some (u', BOk tt) /\ ubf_rep u' bs /\ buf_len u' = buf_len u.
Proof.
  intros Hu. destruct (ubf_cache_update_ok u bs tail Hu) as (c & Hc & Hok).
  unfold pcpy_finish. rewrite Hc. cbn [mbind option_bind fst snd]. eexists. split; [done|].
  split; [|done]. split; [|done]. exists tail. by apply ubf_data_set_cache.
Qed.

Lemma ksorted_filter (Q : list Z -> Prop) `{!forall b, Decision (Q b)} bs :
  ksorted blk_fid bs -> ksorted blk_fid (filter Q bs).
Proof.
  unfold ksorted. induction 1 as [|b bs Hs IH Hb]; [constructor|]. rewrite filter_cons.
  destruct (decide (Q b)); [|done]. constructor; [done|]. apply Forall_forall.
  intros c [_ Hc]%list_elem_of_filter. rewrite Forall_forall in Hb. auto.
Qed.

Lemma ndrx_Bprojcpy_blocks dst fd src bs stail x l cnt mk :
  buf_repr dst fd -> sizeof_UBF_header <= buf_len dst -> ubf_data src bs stail -> x <> BBADFLDID ->
  fld_count (x :: l) = Some cnt ->
  (forall f, id_range f -> is_fld_pres (qsort cnt (x :: l)) 0 (cnt - 1) f = Some (mk f)) ->
  buf_len dst + buf_len src <= INT_MAX ->
  if DATA_OFF + zlen (concat (filter (picked mk) bs)) <=? buf_len dst
  then exists dst', ndrx_Bprojcpy dst src (Some (x :: l)) = Some (dst', BOk tt) /\
         ubf_rep dst' (filter (picked mk) bs) /\ buf_len dst' = buf_len dst
  else exists dst', ndrx_Bprojcpy dst src (Some (x :: l)) = Some (dst', BFail (Some BNOSPACE)).
Proof.
  intros Hr Hh Hu Hx Hcnt Hmk Hsum. unfold ndrx_Bprojcpy.
  destruct (Binit_again dst fd Hr Hh) as (d0 & -> & (b0 & HF0 & [[t0 Hd0] _]) & Hl0).
  apply Forall2_nil_inv_l in HF0 as ->. cbn [mbind option_bind lookup list_lookup].
  rewrite (proj2 (Z.eqb_neq _ _) Hx), Hcnt. cbn [mbind option_bind].
  assert (cpy_at src stail (buf_len dst) d0 [] [] bs []) as Ha by (split; [done|split; [by exists t0|done]]).
  destruct (projcpy_loop_ok src stail _ cnt mk (buf_len dst) Hmk Hsum bs (S (length (mem src))) d0 [] [] [] Ha)
    as [[Hlt [st Hst]]|(d1 & P & D & K & Hlp & (Hu1 & (t1 & Hd1) & Hl1) & HKD)].
  { apply ksorted_filter, Hu. } { pose proof (ubf_fuel _ _ _ Hu). lia. }
  - cbn [app] in *. change (at_cpy d0 [] [] []) with
      {| pc_dst := d0; pc_src := 0; pc_nextfld := 0; pc_start := None |} in Hst.
    rewrite Hst, (proj2 (Z.leb_gt _ _)) by lia. cbn. by eexists.
  - cbn [app] in HKD. change (at_cpy d0 [] [] []) with
      {| pc_dst := d0; pc_src := 0; pc_nextfld := 0; pc_start := None |} in Hlp.
    rewrite Hlp. cbn [mbind option_bind fst snd at_cpy pc_start pc_dst pc_src pc_nextfld].
    pose proof (ksorted_filter (picked mk) bs (ud_sorted _ _ _ Hu)) as Hs. rewrite <- HKD in Hs |- *.
    destruct D as [|d D]; cbn [run_start].
    + rewrite app_nil_r in *. destruct (pcpy_finish_ok d1 K t1 Hd1) as (d' & -> & Hr' & Hl').
      rewrite (proj2 (Z.leb_le _ _)); [exists d'; split; [done|split; [done|congruence]]|].
      rewrite <- Hl1, <- (ud_used _ _ _ Hd1). by apply (ubf_data_used_le _ _ _ Hd1).
    + pose proof (cpy_run src stail (buf_len dst) Hsum d1 P (d :: D) [] K t1 Hu1 Hd1 Hl1 Hs) as Hc.
      assert (UBF_EOF src (blk_off (P ++ d :: D)) = true) as ->.
      { rewrite app_nil_r in Hu1. apply (ubf_at_eof _ _ _ Hu1). }
      cbn [mbind option_bind].
      destruct (_ <=? _); [|rewrite Hc; cbn; by eexists].
      destruct Hc as (d2 & t2 & -> & Hd2 & Hl2). cbn [mbind option_bind fst snd].
      destruct (pcpy_finish_ok d2 _ t2 Hd2) as (d' & -> & Hr' & Hl').
      exists d'. split; [done|]. split; [done|congruence].
Qed.

Lemma total_blk_is fs bs : Forall2 blk_is fs bs ->
  total (fun f => blk_size (Bfldtype f.1) f.2) fs = zlen (concat bs).
Proof.
  induction 1 as [|f b fs bs Hfb _ IH]; [done|]. cbn [total concat].
  by rewrite IH, zlen_app, (blk_is_size f b Hfb).
Qed.

(** [Bprojcpy] fills the destination with exactly the fields of the
    source whose id is in the list, whatever it held before; when they do not
    all fit it fails with [BNOSPACE]. *)
Theorem Bprojcpy_correct dst fd src fs ids r :
  buf_repr dst fd -> buf_repr src fs -> ids <> [] -> Forall id_range ids -> zlen ids <= 1073741823 ->
  sizeof_UBF_header <= buf_len dst -> buf_len dst + buf_len src <= INT_MAX ->
  let picks := filter (fun f : field => f.1 ∈ ids) fs in
  if DATA_OFF + total (fun f => blk_size (Bfldtype f.1) f.2) picks <=? buf_len dst
  then exists dst', Bprojcpy (Some dst) (Some src) (Some (ids ++ BBADFLDID :: r)) = Some (Some dst', BOk tt) /\
         buf_repr dst' picks /\ buf_len dst' = buf_len dst
  else exists dst', Bprojcpy (Some dst) (Some src) (Some (ids ++ BBADFLDID :: r)) =
         Some (Some dst', BFail (Some BNOSPACE)).
Proof.
  intros Hd Hs Hne HF Hl Hh Hsum picks. unfold Bprojcpy.
  rewrite (validate_no_fld src fs Hs), (validate_no_fld dst fd Hd). destruct ids as [|x ids]; [done|].
  destruct Hs as (bs & HFb & [[stail Hu] _]).
  pose proof (ndrx_Bprojcpy_blocks dst fd src bs stail x (ids ++ BBADFLDID :: r) (zlen (x :: ids))
    (fun k => bool_decide (k ∈ x :: ids)) Hd Hh Hu) as Hc.
  assert (Forall2 blk_is picks (filter (picked (fun k => bool_decide (k ∈ x :: ids))) bs)) as Hpk.
  { unfold picks. pose proof (filter_blk_is (fun k => k ∈ x :: ids) fs bs HFb) as Hq.
    erewrite (list_filter_iff (picked _)); [exact Hq|]. intros b. unfold picked. by rewrite bool_decide_eq_true. }
  rewrite (total_blk_is _ _ Hpk). cbn [app]. destruct (_ <=? _).
  - destruct Hc as (d' & -> & Hr' & Hl'); [|by apply (fld_count_ok (x :: ids) r)| |done|].
    + apply Forall_cons in HF as [Hx _]. unfold id_range, BBADFLDID in *. lia.
    + intros f _. by apply (is_fld_pres_ids (x :: ids) (BBADFLDID :: r)).
    + exists d'. split; [done|]. split; [|done]. by eexists.
  - destruct Hc as (d' & ->); [|by apply (fld_count_ok (x :: ids) r)| |done|by exists d'].
    + apply Forall_cons in HF as [Hx _]. unfold id_range, BBADFLDID in *. lia.
    + intros f _. by apply (is_fld_pres_ids (x :: ids) (BBADFLDID :: r)).
Qed.

End ProjcpyProofs.

(** ** Examples *)

Module ProjDemo.
#[local] Existing Instance plat4.

(** A fresh zeroed buffer of [n] bytes with these fields added. *)
Definition mkbuf (n : Z) (l : list (Z * cbuf * Z)) : option UBFH :=
  b ← Binit (zeros n) n;
  match b : bres UBFH with
  | BOk u => r ← Badd_all u l; Some r.1
  | BFail _ => None
  end.

Definition short (no v : Z) : Z * cbuf * Z := (Bmkfldid BFLD_SHORT no, CBytes [v; 0], 0).
Definition str (no : Z) : Z * cbuf * Z := (Bmkfldid BFLD_STRING no, CBytes [104; 105; 0], 0).

Definition then_on (r : option (option UBFH * bres unit)) : option UBFH := r ≫= fst.

(** [Bdel] leaves the bytes of the deleted field behind the data.  When they
    start with the id that [Bdelall] is to remove, the last run is kept. *)
Lemma Bdelall_stale_id :
  (u ← mkbuf 100 [short 1 5; short 1 6];
   u ← then_on (Bdel (Some u) 1 1);
   r ← Bdelall (Some u) 1;
   u' ← r.1;
   n ← Boccur (Some u') 1;
   Some (r.2, n)) = Some (BFail (Some BNOTPRES), BOk 1).
Proof. reflexivity. Qed.

(** In a full buffer the same test reads behind the buffer. *)
Lemma Bproj_reads_past_end :
  (u ← mkbuf 64 [short 1 5]; Some (bytes_used u =? buf_len u)) = Some true /\
  (u ← mkbuf 64 [short 1 5]; Bproj (Some u) (Some [2; BBADFLDID])) = None.
Proof. split; reflexivity. Qed.

(** An empty list of fields to delete empties the buffer, and the result is
    [BNOTPRES]. *)
Lemma Bdelete_empty_list :
  (r ← Bdelete (Some Demo.demo) (Some [BBADFLDID]);
   u ← r.1;
   n ← Bnum (Some u);
   Some (r.2, n)) = Some (BFail (Some BNOTPRES), BOk 0).
Proof. reflexivity. Qed.

(** When [Bprojcpy] runs out of space the cache of the destination is not
    updated: it holds one field, which is not found. *)
Lemma Bprojcpy_nospace_cache :
  (src ← mkbuf 200 [short 1 5; short 2 6; str 1];
   dst ← mkbuf 68 [];
   r ← Bprojcpy (Some dst) (Some src) (Some [1; Bmkfldid BFLD_STRING 1; BBADFLDID]);
   u ← r.1;
   n ← Bnum (Some u);
   pres ← Bpres (Some u) 1 0;
   Some (r.2, n, pres.1)) = Some (BFail (Some BNOSPACE), BOk 1, false).
Proof. reflexivity. Qed.

Lemma demo_clear : eof_word_clear Demo.demo Demo.fields.
Proof. exists 0. split; [reflexivity|]. repeat (constructor; [vm_compute; discriminate|]). constructor. Qed.

Lemma ids_ok : Forall id_range [Demo.fshort].
Proof. constructor; [vm_compute; split; [done|discriminate]|constructor]. Qed.

Lemma Bproj_correct_witness :
  exists u', Bproj (Some Demo.demo) (Some [Demo.fshort; BBADFLDID]) = Some (Some u', BOk tt) /\
    buf_repr u' [(Demo.fshort, CBytes [5; 0]); (Demo.fshort, CBytes [6; 0])] /\ buf_len u' = 184.
Proof.
  apply (Bproj_correct Demo.demo Demo.fields [Demo.fshort] []);
    [apply Demo.demo_repr|apply ids_ok|vm_compute; discriminate|vm_compute; discriminate
    |intros f _ _; apply demo_clear].
Defined.

Lemma Bdelete_Bdelall_correct_witness :
  deletes (fun k => k ∈ [Demo.fshort]) Demo.demo Demo.fields (Bdelete (Some Demo.demo) (Some [Demo.fshort; BBADFLDID])) /\
  deletes (fun k => k = Demo.fstring) Demo.demo Demo.fields (Bdelall (Some Demo.demo) Demo.fstring).
Proof.
  apply (Bdelete_Bdelall_correct Demo.demo Demo.fields [Demo.fshort] [] Demo.fstring);
    [apply Demo.demo_repr|discriminate|apply ids_ok|vm_compute; discriminate|reflexivity|apply demo_clear].
Defined.

Lemma Bprojcpy_correct_witness :
  exists dst', Bprojcpy (Some Demo.demo) (Some Demo.demo) (Some [Demo.fshort; BBADFLDID]) = Some (Some dst', BOk tt) /\
    buf_repr dst' [(Demo.fshort, CBytes [5; 0]); (Demo.fshort, CBytes [6; 0])] /\ buf_len dst' = 184.
Proof.
  refine (Bprojcpy_correct Demo.demo Demo.fields Demo.demo Demo.fields [Demo.fshort] []
            Demo.demo_repr Demo.demo_repr _ ids_ok _ _ _); vm_compute; discriminate.
Defined.

End ProjDemo.
