(* ===== verification/UbfMerge.v ===== *)
(** * Merging buffers

    [Bupdate], [Bconcat], [Bjoin] and [Bojoin] of [libubf/ubf.c] with the
    implementations of [libubf/fmerge.c], on two distinct buffers. *)

From S2P Require Import Prelude UbfTypes UbfBuffer UbfSearch UbfOps UbfRead UbfAlloc UbfProj.

Section Merge.
Context `{Platform}.

(** What one round does to the destination, with the position kept between
    the rounds. *)
Definition round : Type :=
  UBFH -> option Z -> Z -> Z -> cbuf -> Z -> option (UBFH * option Z * bres unit).

Definition zero_state : Bnext_state_t :=
  {| p_cur_bfldid := 0; cur_occ := 0; st_p_ub := 0; st_size := 0 |}.

(** [while (ret is ok && 1 == ndrx_Bnext(&state, src, ...)) ret = op(dst, ...)],
    then an error of [ndrx_Bnext] is an error of the call. *)
Fixpoint src_loop (fuel : nat) (op : round) (src dst : UBFH) (ls : option Z)
    (st : Bnext_state_t) (bfldid occ len : Z) : option (UBFH * bres unit) :=
  match fuel with
  | O => None
  | S fuel =>
      o ← ndrx_Bnext st src 0 bfldid occ false (Some len) true;
      if no_found o =? 1 then
        d ← no_ptr o;
        len ← no_len o;
        r ← op dst ls (no_bfldid o) (no_occ o) d len;
        match r.2 : bres unit with
        | BOk _ => src_loop fuel op src r.1.1 r.1.2 (no_state o) (no_bfldid o) (no_occ o) len
        | BFail e => Some (r.1.1, BFail e)
        end
      else if no_found o =? -1 then Some (dst, BFail (no_err o))
      else Some (dst, BOk tt)
  end.

Definition over_src (op : round) (dst src : UBFH) : option (UBFH * bres unit) :=
  src_loop (S (length (mem src))) op src dst (Some 0) zero_state BFIRSTFLDID 0 0.

Definition chg_round (upd_only : bool) : round := fun dst ls bfldid occ d len =>
  o ← ndrx_Bchg dst bfldid occ (Some d) len ls upd_only;
  Some (co_ub o, co_last_start o, co_res o).

Definition add_round : round := fun dst ls bfldid occ d len =>
  o ← ndrx_Badd dst bfldid d len ls None;
  Some (ao_ub o, ao_last_start o, ao_res o).

Definition ndrx_Bupdate (dst src : UBFH) : option (UBFH * bres unit) :=
  over_src (chg_round false) dst src.
Definition ndrx_Bconcat (dst src : UBFH) : option (UBFH * bres unit) := over_src add_round dst src.
Definition ndrx_Bojoin (dst src : UBFH) : option (UBFH * bres unit) :=
  over_src (chg_round true) dst src.

(** The first occurrence of the destination that the source does not have.
    An error of [ndrx_Bnext] just ends the search. *)
Fixpoint join_scan (fuel : nat) (dst src : UBFH) (st : Bnext_state_t) (bfldid occ len : Z)
    : option (option (Z * Z)) :=
  match fuel with
  | O => None
  | S fuel =>
      o ← ndrx_Bnext st dst 0 bfldid occ false (Some len) false;
      if no_found o =? 1 then
        len ← no_len o;
        pres ← _Bpres src (no_bfldid o) (no_occ o);
        if pres : bool
        then join_scan fuel dst src (no_state o) (no_bfldid o) (no_occ o) len
        else Some (Some (no_bfldid o, no_occ o))
      else Some None
  end.

(** [repeat:] delete it and start over. *)
Fixpoint join_purge (fuel : nat) (dst src : UBFH) : option (UBFH * bres unit) :=
  match fuel with
  | O => None
  | S fuel =>
      x ← join_scan (S (length (mem dst))) dst src zero_state BFIRSTFLDID 0 0;
      match x with
      | None => Some (dst, BOk tt)
      | Some (bfldid, occ) =>
          r ← Bdel (Some dst) bfldid occ;
          dst ← r.1;
          match r.2 : bres unit with
          | BOk _ => join_purge fuel dst src
          | BFail e => Some (dst, BFail e)
          end
      end
  end.

Definition ndrx_Bjoin (dst src : UBFH) : option (UBFH * bres unit) :=
  r ← over_src (chg_round true) dst src;
  match r.2 : bres unit with
  | BFail e => Some (r.1, BFail e)
  | BOk _ => join_purge (S (length (mem r.1))) r.1 src
  end.

(** Both buffers are checked, the source first. *)
Definition merge_api (impl : UBFH -> UBFH -> option (UBFH * bres unit)) (p_ub_dst p_ub_src : option UBFH)
    : option (option UBFH * bres unit) :=
  match validate_entry p_ub_src 0 0 VALIDATE_MODE_NO_FLD with
  | BFail e => Some (p_ub_dst, BFail e)
  | BOk src =>
      match validate_entry p_ub_dst 0 0 VALIDATE_MODE_NO_FLD with
      | BFail e => Some (p_ub_dst, BFail e)
      | BOk dst => r ← impl dst src; Some (Some r.1, r.2)
      end
  end.

Definition Bupdate := merge_api ndrx_Bupdate.
Definition Bconcat := merge_api ndrx_Bconcat.
Definition Bjoin := merge_api ndrx_Bjoin.
Definition Bojoin := merge_api ndrx_Bojoin.

End Merge.

(** ** What a merge does to the list of fields *)

Section MergeSpec.
Context `{Platform}.

Definition fsize (fs : list field) : Z := total (fun f => blk_size (Bfldtype f.1) f.2) fs.

(** (id, occurrence, value) of the fields [fs] behind the fields [done]. *)
Fixpoint occ_list (done fs : list field) : list (Z * Z * cbuf) :=
  match fs with
  | [] => []
  | f :: fs => (f.1, zlen (koccs fkey f.1 done), f.2) :: occ_list (done ++ [f]) fs
  end.

(** One step per occurrence, as long as the result fits the capacity. *)
Fixpoint merge_spec (step : Z -> Z -> cbuf -> list field -> list field) (cap : Z)
    (l : list (Z * Z * cbuf)) (fs : list field) : list field * bool :=
  match l with
  | [] => (fs, true)
  | (fid, occ, v) :: l =>
      let fs' := step fid occ v fs in
      if DATA_OFF + fsize fs' <=? cap then merge_spec step cap l fs' else (fs, false)
  end.

Definition add_step (fid occ : Z) (v : cbuf) (fs : list field) : list field := kins fkey (fid, v) fs.

Definition upd_step (fid occ : Z) (v : cbuf) (fs : list field) : list field :=
  match empty_val (Bfldtype fid) with
  | Some ev => chg_spec fid occ v ev fs
  | None => fs
  end.

Definition ojoin_step (fid occ : Z) (v : cbuf) (fs : list field) : list field :=
  if occ <? zlen (koccs fkey fid fs) then kset fkey fid (Z.to_nat occ) (fid, v) fs else fs.

End MergeSpec.

(** ** The loop over the source *)

Section LoopProofs.
Context `{Platform}.

Lemma Bnext_ret_len st u P b R tail v bfldid occ len want :
  ubf_data u (P ++ b :: R) tail -> p_cur_bfldid st = blk_off P -> blk_val b = Some v ->
  exists d, Bnext_ret st u bfldid occ false (Some len) want =
    Some {| no_state := st; no_found := 1; no_err := None; no_bfldid := blk_fid b;
            no_occ := cur_occ st; no_val := None; no_len := Some (val_len v);
            no_ptr := if want then Some d else None |} /\
    data_val (blk_type b) d (val_len v) = Some v.
Proof.
  intros Hu Hp Hbv. unfold Bnext_ret. rewrite Hp.
  destruct (ubf_at u P b R tail Hu) as (Hb & Hef & _ & _ & Hf & Hv & dt & v' & Hdt & Hv' & Hn & Hm).
  assert (v' = v) as -> by congruence.
  fold (blk_off P) in Hef, Hf, Hn. rewrite Hef, Hf. cbn [mbind option_bind]. fold (blk_type b).
  rewrite Hv, Hdt. cbn [mbind option_bind].
  destruct (wf_blk_ptr (concat P) b (concat R ++ tail) v Hb Hbv) as (d & Hd & Hdv).
  exists d. rewrite <- Hm in Hd. split; [|done]. destruct want.
  - unfold blk_off. rewrite Hd. cbn [mbind option_bind]. fold (blk_off P). by rewrite Hn.
  - cbn [mbind option_bind]. by rewrite Hn.
Qed.

Lemma Bnext_ret_end st u bs tail bfldid occ len want :
  ubf_data u bs tail -> p_cur_bfldid st = blk_off bs ->
  Bnext_ret st u bfldid occ false (Some len) want =
  Some {| no_state := st; no_found := 0; no_err := None; no_bfldid := bfldid; no_occ := occ;
          no_val := None; no_len := Some len; no_ptr := None |}.
Proof. intros Hu Hp. unfold Bnext_ret, blk_off in *. by rewrite Hp, (ubf_at_eof _ _ _ Hu). Qed.

Section SrcLoop.
Variables (op : round) (step : Z -> Z -> cbuf -> list field -> list field) (cap N M : Z)
  (Inv : UBFH -> option Z -> list field -> Z -> Prop).

(** A round that does [step] when the result fits, and else [BNOSPACE]. *)
Definition round_ok : Prop := forall dst ls fs lo fid occ d len v,
  Inv dst ls fs lo -> lo <= fid -> fid_ok fid = true -> data_val (Bfldtype fid) d len = Some v ->
  0 <= occ < N -> blk_size (Bfldtype fid) v <= M ->
  exists dst' ls',
  if DATA_OFF + fsize (step fid occ v fs) <=? cap
  then op dst ls fid occ d len = Some (dst', ls', BOk tt) /\ Inv dst' ls' (step fid occ v fs) fid
  else op dst ls fid occ d len = Some (dst', ls', BFail (Some BNOSPACE)) /\ exists lo', Inv dst' ls' fs lo'.

Lemma koccs_le k (fs : list field) : 0 <= zlen (koccs fkey k fs) <= zlen fs.
Proof. unfold koccs, zlen. pose proof (length_filter (fun f : field => f.1 = k) fs). lia. Qed.

Lemma src_loop_ok R : round_ok -> forall fuel src P fP fR stail dst ls fs lo st st' bfldid occ len,
  ubf_data src (P ++ R) stail -> Forall2 blk_is fP P -> Forall2 blk_is fR R ->
  zlen (fP ++ fR) <= N -> Forall (fun b => zlen b <= M) R ->
  Bnext_pos st src 0 bfldid = Some (BOk st') -> p_cur_bfldid st' = blk_off P ->
  cur_occ st' = run_occ P R -> (length R < fuel)%nat ->
  Inv dst ls fs lo -> Forall (fun b => lo <= blk_fid b) R ->
  exists dst' ls' lo',
    src_loop fuel op src dst ls st bfldid occ len =
      Some (dst', if (merge_spec step cap (occ_list fP fR) fs).2 then BOk tt else BFail (Some BNOSPACE)) /\
    Inv dst' ls' (merge_spec step cap (occ_list fP fR) fs).1 lo'.
Proof.
  intros Hop. induction R as [|b R IH];
    intros [|fuel] src P fP fR stail dst ls fs lo st st' bfldid occ len Hu HFP HFR HN HS Hpos Hp Ho Hf HI Hlo;
    cbn [length] in Hf; try lia; cbn [src_loop]; unfold ndrx_Bnext; rewrite Hpos; cbn [mbind option_bind].
  - inversion HFR; subst. rewrite app_nil_r in Hu.
    rewrite (Bnext_ret_end st' src P stail) by done. cbn. by exists dst, ls, lo.
  - inversion HFR as [|f ? fR' ? Hfb HFR']; subst. pose proof Hfb as (Hbw & Hbf & Hbv).
    assert (ubf_data src ((P ++ [b]) ++ R) stail) as Hu' by by rewrite <- app_assoc.
    pose proof (Bnext_pos_step st' src P b R stail 0 Hu Hp Ho) as Hpos'.
    destruct (Bnext_ret_len st' src P b R stail f.2 bfldid occ len true Hu Hp Hbv) as (d & -> & Hdv).
    cbn [mbind option_bind no_found no_state no_bfldid no_occ no_len no_ptr Z.eqb Pos.eqb].
    apply Forall_cons in HS as [HSb HS], Hlo as [Hlob Hlo].
    assert (cur_occ st' = zlen (koccs fkey f.1 fP)) as Hocc
      by (rewrite Ho; cbn [run_occ]; by rewrite (koccs_blk_is _ fP P HFP), Hbf).
    unfold blk_type in Hdv. rewrite Hbf in *.
    destruct (Hop dst ls fs lo f.1 (cur_occ st') d (val_len f.2) f.2 HI Hlob) as (dst1 & ls1 & Hres); [|done| | |].
    { rewrite <- Hbf. by apply wf_blk_fid_ok. }
    { rewrite Hocc. pose proof (koccs_le f.1 fP). rewrite zlen_app, zlen_cons in HN. zl. }
    { by rewrite <- (blk_is_size f b Hfb). }
    cbn [occ_list merge_spec]. rewrite <- Hocc. destruct (DATA_OFF + _ <=? cap).
    + destruct Hres as [-> HI']. cbn [mbind option_bind fst snd].
      eapply (IH fuel src (P ++ [b]) (fP ++ [f]) fR' stail dst1 ls1 _ f.1 st' _ f.1 (cur_occ st') _ Hu');
        [| | | |exact Hpos'|..]; try done.
      * apply Forall2_app; [done|]. by constructor.
      * by rewrite <- app_assoc.
      * lia.
      * pose proof (ud_sorted _ _ _ Hu) as Hs. apply ksorted_app in Hs as (_ & Hs & _).
        apply StronglySorted_inv in Hs as [_ Hs]. by rewrite Hbf in Hs.
    + destruct Hres as [-> [lo' HI']]. cbn [mbind option_bind fst snd]. by exists dst1, ls1, lo'.
Qed.

End SrcLoop.

End LoopProofs.

(** ** Sizes *)

Section Sizes.
Context `{Platform}.

Definition sz (f : field) : Z := blk_size (Bfldtype f.1) f.2.

Lemma fsize_cons f fs : fsize (f :: fs) = sz f + fsize fs.
Proof. done. Qed.

Lemma fsize_kins f fs : fsize (kins fkey f fs) = fsize fs + sz f.
Proof.
  induction fs as [|g fs IH]; cbn [kins]; [rewrite fsize_cons; lia|].
  destruct (_ <=? _); rewrite ?fsize_cons; [rewrite IH|rewrite ?fsize_cons]; lia.
Qed.

Lemma fsize_iter f k fs : fsize (Nat.iter k (kins fkey f) fs) = fsize fs + Z.of_nat k * sz f.
Proof.
  induction k as [|k IH]; [change (Nat.iter 0 _ fs) with fs; lia|].
  change (Nat.iter (S k) (kins fkey f) fs) with (kins fkey f (Nat.iter k (kins fkey f) fs)).
  rewrite fsize_kins. lia.
Qed.

Lemma fsize_kset k f fs : forall n g, koccs fkey k fs !! n = Some g ->
  fsize (kset fkey k n f fs) = fsize fs - sz g + sz f.
Proof.
  induction fs as [|h fs IH]; intros n g Hg; [done|]. unfold koccs in Hg. cbn [kset].
  destruct (Z.eqb_spec h.1 k) as [He|He].
  - rewrite filter_cons_True in Hg by done. destruct n as [|n]; cbn in Hg.
    + injection Hg as ->. rewrite !fsize_cons. lia.
    + rewrite !fsize_cons, (IH n g Hg). lia.
  - rewrite filter_cons_False in Hg by done. rewrite !fsize_cons, (IH n g Hg). lia.
Qed.

(** [chg_need] is what a change adds to the size. *)
Lemma fsize_chg fid occ v ev fs : 0 <= occ ->
  fsize (chg_spec fid occ v ev fs) = fsize fs + chg_need fid occ v ev fs.
Proof.
  intros Ho. unfold chg_spec, chg_need. destruct (Z.ltb_spec occ (zlen (koccs fkey fid fs))) as [Hlt|Hge].
  - destruct (lookup_lt_is_Some_2 (koccs fkey fid fs) (Z.to_nat occ)) as [g Hg]; [unfold zlen in *; lia|].
    rewrite Hg, (fsize_kset _ _ _ _ _ Hg). unfold sz. cbn [fst snd].
    assert (g.1 = fid) as ->; [|lia]. apply list_elem_of_lookup_2 in Hg.
    by apply list_elem_of_filter in Hg as [Hg _].
  - rewrite fsize_kins, fsize_iter, Z2Nat.id by lia. unfold sz. cbn [fst snd]. lia.
Qed.

Lemma empty_blk_size t ev : usable_type t = true -> empty_val t = Some ev -> 0 <= blk_size t ev <= 80.
Proof.
  intros Hu Hev. destruct (usable_row t Hu) as (dt & e & _ & He & Hr).
  rewrite <- (empty_val_size t e ev Hu He Hev). pose proof DA_range. pose proof empty_image_range.
  pose proof zlen_empty_image as Hi.
  assert (sizeof_UBF_header - FF_USED_BYTES <= 64) by (pose proof DATA_OFF_range; unfold DATA_OFF in *; lia).
  inversion Hr as [n Hn ? ? ? ?| | | |]; subst; cbn [p_empty_sz dflt_ext1];
    unfold g_dflt_empty, g_str_empty, g_carr_empty, ndrx_g_ubf_empty, ndrx_g_view_empty.
  - pose proof (ALIGNED_SIZE_bounds n). unfold MAX_PAYLOAD in *. lia.
  - pose proof (ALIGNED_SIZE_bounds (4 + 1)). unfold MAX_PAYLOAD in *. lia.
  - pose proof (ALIGNED_SIZE_bounds 4). unfold MAX_PAYLOAD in *. lia.
  - pose proof (ALIGNED_SIZE_bounds (sizeof_UBF_header - FF_USED_BYTES)). unfold MAX_PAYLOAD in *. lia.
  - pose proof (ALIGNED_SIZE_T_bounds sizeof_UBF_view 0). unfold MAX_PAYLOAD, sizeof_UBF_view in *. lia.
Qed.

End Sizes.

(** ** The rounds *)

Section Rounds.
Context `{Platform}.

(** Between the rounds: the buffer holds [fs] and the kept position is in
    front of fields whose ids relate to the last one by [lt]. *)
Definition merge_inv (lt : Z -> Z -> Prop) (cap : Z) (dst : UBFH) (ls : option Z) (fs : list field) (lo : Z)
    : Prop :=
  buf_len dst = cap /\ is_Some ls /\ exists Q X,
    Forall2 blk_is fs (Q ++ X) /\ ubf_rep dst (Q ++ X) /\
    Forall (fun b => lt (blk_fid b) lo) Q /\ restart_in Q ls.

Lemma merge_inv_repr lt cap dst ls fs lo : merge_inv lt cap dst ls fs lo ->
  buf_repr dst fs /\ buf_len dst = cap.
Proof. intros (Hl & _ & Q & X & HF & Hr & _). split; [|done]. by exists (Q ++ X). Qed.

Lemma restart_mono Q l ls : restart_in Q ls -> restart_in (Q ++ l) ls.
Proof.
  destruct ls as [s|]; [|done]. intros (P1 & P2 & -> & ->). exists P1, (P2 ++ l).
  by rewrite <- app_assoc.
Qed.

(** What lies in front of a bound is a prefix. *)
Lemma prefix_le fid Q X A C : Q ++ X = A ++ C ->
  Forall (fun b => blk_fid b <= fid) Q -> Forall (fun b => fid < blk_fid b) C -> exists l, A = Q ++ l.
Proof.
  intros He HQ HC. apply app_eq_app in He as [l [[-> He]|[-> He]]].
  - destruct l as [|x l]; [exists []; by rewrite !app_nil_r|]. exfalso. subst C.
    apply Forall_app in HQ as [_ HQ]. apply Forall_inv in HQ. apply Forall_inv in HC. cbn in *. lia.
  - by exists l.
Qed.

Lemma blks_split fid fs bs tail dst : Forall2 blk_is fs bs -> ubf_data dst bs tail ->
  exists L B C fL fB fC,
    bs = L ++ B ++ C /\ fs = fL ++ fB ++ fC /\
    Forall2 blk_is fL L /\ Forall2 blk_is fB B /\ Forall2 blk_is fC C /\
    klt blk_fid fid L /\ keq blk_fid fid B /\ kgt blk_fid fid C /\
    klt fkey fid fL /\ keq fkey fid fB /\ kgt fkey fid fC /\
    zlen tail = buf_len dst - DATA_OFF - fsize fs.
Proof.
  intros HF Hu. pose proof (total_blk_is fs bs HF) as Hsz. fold (fsize fs) in Hsz.
  pose proof (ubf_data_free _ _ _ Hu) as Hfr. pose proof (ud_used _ _ _ Hu) as Hus.
  destruct (ksorted_split blk_fid fid bs (ud_sorted _ _ _ Hu)) as (L & B & C & -> & HL & HB & HC).
  apply Forall2_app_inv_r in HF as (fL & fBC & HFL & HF & ->).
  apply Forall2_app_inv_r in HF as (fB & fC & HFB & HFC & ->).
  exists L, B, C, fL, fB, fC. do 8 (split; [done|]).
  split; [by eapply (blk_is_keys (fun k => k < fid))|].
  split; [by eapply (blk_is_keys (fun k => k = fid))|].
  split; [by eapply (blk_is_keys (fun k => fid < k))|]. lia.
Qed.

Lemma add_round_ok cap N M : round_ok add_round add_step cap N M (merge_inv Z.le cap).
Proof.
  intros dst ls fs lo fid occ d len v (Hl & [s ->] & Q & X & HF & [[tail Hu] Hc] & HQ & Hre) Hlo Hf Hv _ _.
  destruct (blks_split fid fs _ tail dst HF Hu) as
    (L & B & C & fL & fB & fC & Hbs & -> & HFL & HFB & HFC & HL & HB & HC & HfL & HfB & HfC & Ht).
  destruct (prefix_le fid Q X (L ++ B) C) as [l Hpre]; [by rewrite <- app_assoc| |done|].
  { eapply Forall_impl; [exact HQ|]. cbn. lia. }
  destruct Hre as (Q1 & Q2 & -> & ->). rewrite Hbs in *.
  destruct (ndrx_Badd_ok dst L B C tail fid d len v (Some (blk_off Q1)) None Q1 (Q2 ++ l)) as (o & Ho & Hres);
    try done.
  { by rewrite Hpre, <- app_assoc. } { exists Q1, []. by rewrite app_nil_r. }
  unfold add_round, add_step. rewrite Ho. cbn [mbind option_bind]. exists (ao_ub o), (ao_last_start o).
  rewrite fsize_kins. unfold sz. cbn [fst snd]. rewrite Ht in Hres.
  assert ((blk_size (Bfldtype fid) v <=? buf_len dst - DATA_OFF - fsize (fL ++ fB ++ fC)) =
    (DATA_OFF + (fsize (fL ++ fB ++ fC) + blk_size (Bfldtype fid) v) <=? cap)) as Hcond
    by (subst cap; apply Bool.eq_iff_eq_true; rewrite !Z.leb_le; lia).
  rewrite Hcond in Hres. destruct (_ <=? cap).
  - destruct Hres as (-> & Hbl & Hri & Hsome & b & Hb & Hrep & _). split; [done|].
    split; [by rewrite Hbl|]. split; [by apply Hsome|].
    exists (L ++ B), ([b] ++ C). rewrite (kins_split fkey (fid, v)) by done.
    rewrite <- !app_assoc in *. split; [|split; [done|split; [|done]]].
    + apply Forall2_app; [done|]. apply Forall2_app; [done|]. by apply Forall2_app; [constructor|].
    + apply Forall_app. split; (eapply Forall_impl; [eassumption|]); cbn; lia.
  - subst o. cbn. split; [done|]. exists lo. split; [done|]. split; [done|].
    exists (Q1 ++ Q2), X. rewrite Hbs. split; [done|]. split; [by split; eauto|]. split; [done|].
    by exists Q1, Q2.
Qed.

(** What a change round makes of the fields. *)
Definition chg_step (upd_only : bool) : Z -> Z -> cbuf -> list field -> list field :=
  if upd_only then ojoin_step else upd_step.

Lemma chg_round_ok upd cap N M : cap + 80 * N + M <= INT_MAX ->
  round_ok (chg_round upd) (chg_step upd) cap N M (merge_inv Z.lt cap).
Proof.
  intros Hsum dst ls fs lo fid occ d len v (Hl & Hls & Q & X & HF & [[tail Hu] Hc] & HQ & Hre) Hlo Hf Hv Ho HM.
  destruct (blks_split fid fs _ tail dst HF Hu) as
    (L & B & C & fL & fB & fC & Hbs & -> & HFL & HFB & HFC & HL & HB & HC & HfL & HfB & HfC & Ht).
  destruct (prefix_le (fid - 1) Q X L (B ++ C) Hbs) as [l Hpre].
  { eapply Forall_impl; [exact HQ|]. cbn. lia. }
  { apply Forall_app. split; (eapply Forall_impl; [eassumption|]); cbn; lia. }
  destruct (empty_val_wf (Bfldtype fid)) as (ev & Hev & _); [by apply fid_ok_usable|].
  pose proof (empty_blk_size _ _ (fid_ok_usable _ Hf) Hev) as He80. rewrite Hbs in *.
  pose proof (blk_size_bounds _ _ (fid_ok_usable _ Hf) (data_val_wf _ _ _ _ (fid_ok_usable _ Hf) Hv)) as [Hv0 _].
  pose proof DA_range. pose proof DATA_OFF_range.
  assert (0 <= buf_len dst) by (pose proof (ud_len _ _ _ Hu); zlen_pos; lia).
  destruct (ndrx_Bchg_blocks dst L B C fL fB fC tail fid occ d len v ev ls upd) as (o & Hop & Hri & Hsome & Hres);
    try done.
  { split; lia. }
  { intros _ Hge. unfold chg_need. rewrite koccs_split by done.
    rewrite (proj2 (Z.ltb_ge occ (zlen fB))) by lia. zlen_pos.
    nia. }
  { rewrite Hpre. by apply restart_mono. }
  unfold chg_round. rewrite Hop. cbn [mbind option_bind]. exists (co_ub o), (co_last_start o).
  assert (forall fB' B', Forall2 blk_is fB' B' -> ubf_rep (co_ub o) (L ++ B' ++ C) -> buf_len (co_ub o) = cap ->
    merge_inv Z.lt cap (co_ub o) (co_last_start o) (fL ++ fB' ++ fC) fid) as Hinv.
  { intros fB' B' HFB' Hrep' Hbl'. split; [done|]. split; [by apply Hsome|]. exists L, (B' ++ C).
    split; [by apply Forall2_app; [|apply Forall2_app]|]. done. }
  assert (merge_inv Z.lt cap dst ls (fL ++ fB ++ fC) lo) as Hinv0.
  { split; [done|]. split; [done|]. exists Q, X. rewrite Hbs. split; [done|]. by split; [split; eauto|]. }
  assert ((chg_need fid occ v ev (fL ++ fB ++ fC) <=? zlen tail) =
    (DATA_OFF + fsize (chg_spec fid occ v ev (fL ++ fB ++ fC)) <=? cap)) as Hcond.
  { rewrite Ht, fsize_chg by lia. subst cap. apply Bool.eq_iff_eq_true. rewrite !Z.leb_le. lia. }
  rewrite Hcond in Hres. unfold chg_step. pose proof (ubf_data_used_le _ _ _ Hu).
  assert ((DATA_OFF + fsize (fL ++ fB ++ fC) <=? cap) = true) as Hfits by (apply Z.leb_le; zlen_pos; lia).
  destruct upd; [unfold ojoin_step|unfold upd_step; rewrite Hev]; cbn [andb] in Hres.
  - unfold chg_spec in Hres. rewrite koccs_split in Hres |- * by done.
    destruct (Z.ltb_spec occ (zlen fB)) as [Hlt|Hge].
    + rewrite (proj2 (Z.leb_gt _ _)) in Hres by lia. destruct (_ <=? cap).
      * destruct Hres as (-> & Hbl & fB' & B' & HFB' & Hrep' & Heq & _). split; [done|].
        rewrite <- Heq. apply (Hinv fB' B'); [done|done|congruence].
      * destruct Hres as (-> & Hco). split; [done|]. exists fid. apply (Hinv fB B); [done| |congruence].
        rewrite Hco. by split; eauto.
    + rewrite (proj2 (Z.leb_le _ _)) in Hres by lia. rewrite Hfits. destruct Hres as (-> & Hco).
      split; [done|]. apply (Hinv fB B); [done| |congruence]. rewrite Hco. by split; eauto.
  - destruct (_ <=? cap).
    + destruct Hres as (-> & Hbl & fB' & B' & HFB' & Hrep' & Heq & _). split; [done|].
      rewrite <- Heq. apply (Hinv fB' B'); [done|done|congruence].
    + destruct Hres as (-> & Hco). split; [done|]. exists fid. apply (Hinv fB B); [done| |congruence].
      rewrite Hco. by split; eauto.
Qed.

Lemma over_src_ok op step cap Inv src fs dst fd :
  buf_repr src fs -> round_ok op step cap (zlen fs) (buf_len src) Inv -> Inv dst (Some 0) fd 0 ->
  exists dst' ls' lo',
    over_src op dst src =
      Some (dst', if (merge_spec step cap (occ_list [] fs) fd).2 then BOk tt else BFail (Some BNOSPACE)) /\
    Inv dst' ls' (merge_spec step cap (occ_list [] fs) fd).1 lo'.
Proof.
  intros (bs & HF & [[tail Hu] _]) Hop HI. unfold over_src. pose proof DATA_OFF_range.
  apply (src_loop_ok op step cap (zlen fs) (buf_len src) Inv bs Hop (S (length (mem src))) src [] [] fs tail
    dst (Some 0) fd 0 zero_state
    {| p_cur_bfldid := 0; cur_occ := 0; st_p_ub := 0; st_size := bytes_used src |}); try done.
  - apply Forall_forall. intros b Hb. rewrite (ud_len _ _ _ Hu), (ud_mem _ _ _ Hu).
    apply list_elem_of_split in Hb as (b1 & b2 & ->). rewrite concat_app. cbn [concat]. zl.
  - by destruct bs.
  - pose proof (ubf_fuel _ _ _ Hu). lia.
  - apply Forall_forall. intros b Hb. pose proof (ud_blks _ _ _ Hu) as HW. rewrite Forall_forall in HW.
    specialize (HW b Hb). apply wf_blk_fid_ok, fid_ok_range in HW. lia.
Qed.

Lemma merge_inv_start lt u fs : buf_repr u fs -> merge_inv lt (buf_len u) u (Some 0) fs 0.
Proof.
  intros (bs & HF & Hr). split; [done|]. split; [done|]. exists [], bs.
  split; [done|]. split; [done|]. split; [constructor|]. by exists [], [].
Qed.

End Rounds.

(** ** Occurrences after a merge *)

Section Closed.
Context `{Platform}.

Lemma koccs_kins k (f : field) fs : ksorted fkey fs ->
  koccs fkey k (kins fkey f fs) = koccs fkey k fs ++ (if f.1 =? k then [f] else []).
Proof.
  intros Hs. destruct (ksorted_split fkey f.1 fs Hs) as (A & B & C & -> & HA & HB & HC).
  rewrite kins_split by done. unfold koccs. rewrite !filter_app.
  destruct (Z.eqb_spec f.1 k) as [<-|Hne].
  - rewrite filter_cons_True by done.
    assert (filter (fun x : field => x.1 = f.1) C = []) as ->.
    { clear -HC. induction HC as [|x C Hx _ IH]; [done|]. by rewrite filter_cons_False by lia. }
    by rewrite filter_nil, !app_nil_r, <- app_assoc.
  - rewrite filter_cons_False by done. by rewrite filter_nil, app_nil_r.
Qed.

Lemma koccs_kset k k' (f : field) fs : f.1 = k -> forall n,
  koccs fkey k' (kset fkey k n f fs) =
  if k =? k' then <[n := f]> (koccs fkey k fs) else koccs fkey k' fs.
Proof.
  intros <-. unfold koccs. induction fs as [|g fs IH]; intros n; [by destruct (_ =? _)|]. cbn [kset].
  destruct (Z.eqb_spec g.1 f.1) as [Hg|Hg].
  - rewrite (filter_cons_True _ g fs) by done. destruct n as [|n].
    + destruct (Z.eqb_spec f.1 k') as [<-|]; [by rewrite filter_cons_True|].
      by rewrite !filter_cons_False by congruence.
    + rewrite filter_cons, IH. destruct (Z.eqb_spec f.1 k') as [<-|].
      * by rewrite decide_True.
      * by rewrite decide_False, filter_cons_False by congruence.
  - rewrite (filter_cons_False _ g fs) by done. rewrite !filter_cons, IH.
    destruct (Z.eqb_spec f.1 k') as [<-|]; [by rewrite decide_False|done].
Qed.

Lemma kset_keys k (f : field) fs : f.1 = k -> forall n, (fst <$> kset fkey k n f fs) = fst <$> fs.
Proof.
  intros <-. induction fs as [|g fs IH]; intros n; [done|]. cbn [kset].
  destruct (Z.eqb_spec g.1 f.1) as [Hg|]; [|cbn; by rewrite IH].
  destruct n; cbn; [by rewrite Hg|by rewrite IH].
Qed.

Lemma ksorted_keys fs : ksorted fkey fs <-> StronglySorted Z.le (fst <$> fs).
Proof.
  unfold ksorted. induction fs as [|f fs IH]; [split; constructor|]. cbn [fmap list_fmap].
  split; inversion 1 as [|? ? Hs HF]; subst; (constructor; [tauto|]).
  - rewrite Forall_fmap. exact HF.
  - rewrite Forall_fmap in HF. exact HF.
Qed.

Lemma ksorted_kset k (f : field) fs n : f.1 = k -> ksorted fkey fs -> ksorted fkey (kset fkey k n f fs).
Proof. intros Hk. by rewrite !ksorted_keys, kset_keys. Qed.

Definition fits (cap : Z) (fs : list field) : Prop := DATA_OFF + fsize fs <= cap.

Lemma occ_list_app fP f fR : occ_list fP (f :: fR) = (f.1, zlen (koccs fkey f.1 fP), f.2) :: occ_list (fP ++ [f]) fR.
Proof. done. Qed.

Lemma koccs_snoc k fP (f : field) : koccs fkey k (fP ++ [f]) = koccs fkey k fP ++ (if f.1 =? k then [f] else []).
Proof.
  unfold koccs. rewrite filter_app. destruct (Z.eqb_spec f.1 k).
  - by rewrite filter_cons_True.
  - by rewrite filter_cons_False.
Qed.

(** Concatenation: every occurrence of the source behind those of its id. *)
Lemma add_closed cap fR : forall fP fs,
  ksorted fkey fs -> (merge_spec add_step cap (occ_list fP fR) fs).2 = true ->
  ksorted fkey (merge_spec add_step cap (occ_list fP fR) fs).1 /\
  forall k, koccs fkey k (merge_spec add_step cap (occ_list fP fR) fs).1 = koccs fkey k fs ++ koccs fkey k fR.
Proof.
  induction fR as [|f fR IH]; intros fP fs Hs Hok.
  - split; [done|]. intros k. cbn. by rewrite app_nil_r.
  - rewrite occ_list_app in *. cbn [merge_spec] in *. destruct (_ <=? cap); [|done].
    destruct (IH (fP ++ [f]) (add_step f.1 (zlen (koccs fkey f.1 fP)) f.2 fs)) as [Hs' Hk].
    { by apply ksorted_kins. } { done. }
    split; [done|]. intros k. rewrite Hk. unfold add_step. rewrite koccs_kins by done. rewrite <- app_assoc. f_equal.
    change (f :: fR) with ([f] ++ fR). unfold koccs. rewrite filter_app. f_equal. cbn [fst].
    destruct f as [i v]. cbn [fst snd]. destruct (Z.eqb_spec i k).
    + by rewrite filter_cons_True.
    + by rewrite filter_cons_False.
Qed.

Lemma fsize_add_step (f : field) occ fs : fsize (add_step f.1 occ f.2 fs) = fsize fs + sz f.
Proof. unfold add_step. rewrite fsize_kins. by destruct f. Qed.

Lemma add_succeeds cap fR : Forall (fun f => 0 <= sz f) fR -> forall fP fs, fits cap fs ->
  (merge_spec add_step cap (occ_list fP fR) fs).2 = (DATA_OFF + fsize fs + fsize fR <=? cap).
Proof.
  unfold fits. induction 1 as [|f fR Hf HF IH]; intros fP fs Hfit.
  - symmetry. apply Z.leb_le. change (fsize []) with 0. lia.
  - rewrite occ_list_app. cbn [merge_spec]. rewrite fsize_add_step, fsize_cons.
    assert (0 <= fsize fR) by (clear -HF; induction HF as [|g l Hg _ IH]; [done|rewrite fsize_cons; lia]).
    destruct (Z.leb_spec (DATA_OFF + (fsize fs + sz f)) cap).
    + rewrite IH, fsize_add_step by (rewrite fsize_add_step; lia). f_equal. lia.
    + symmetry. apply Z.leb_gt. lia.
Qed.

(** The source's occurrences in place of the destination's first ones. *)
Definition overlay {X} (S D : list X) : list X := S ++ drop (length S) D.

(** The same, for the occurrences the destination has. *)
Definition overlay_in {X} (S D : list X) : list X := take (length D) S ++ drop (length S) D.

Lemma insert_overlay {X} (S D : list X) f : (length S < length D)%nat ->
  <[length S := f]> (S ++ drop (length S) D) = overlay (S ++ [f]) D.
Proof.
  intros Hl. unfold overlay. rewrite length_app. cbn [length].
  rewrite insert_app_r_alt, Nat.sub_diag by lia.
  destruct (drop (length S) D) as [|x l] eqn:Hd; [apply (f_equal length) in Hd; rewrite length_drop in Hd; cbn in Hd; lia|].
  cbn. rewrite <- app_assoc. cbn. do 2 f_equal. rewrite <- drop_drop, Hd. done.
Qed.

Lemma overlay_end {X} (S D : list X) f : (length D <= length S)%nat -> overlay S D ++ [f] = overlay (S ++ [f]) D.
Proof.
  intros Hl. unfold overlay. rewrite (drop_ge D), app_nil_r, (drop_ge D), app_nil_r by (rewrite ?length_app; lia).
  done.
Qed.

Lemma length_overlay {X} (S D : list X) : length (overlay S D) = Nat.max (length S) (length D).
Proof. unfold overlay. rewrite length_app, length_drop. lia. Qed.

Lemma length_overlay_in {X} (S D : list X) : length (overlay_in S D) = length D.
Proof. unfold overlay_in. rewrite length_app, length_drop, length_take. lia. Qed.

Lemma overlay_in_snoc {X} (S D : list X) f :
  overlay_in (S ++ [f]) D =
  if (length S <? length D)%nat then <[length S := f]> (overlay_in S D) else overlay_in S D.
Proof.
  unfold overlay_in. destruct (Nat.ltb_spec (length S) (length D)) as [Hl|Hl].
  - rewrite (take_ge S) by lia. rewrite insert_overlay by done. unfold overlay.
    by rewrite (take_ge (S ++ [f])) by (rewrite length_app; cbn; lia).
  - rewrite take_app_le by lia. rewrite !(drop_ge D) by (rewrite ?length_app; lia). done.
Qed.

(** One change, on the occurrences of every id. *)
Lemma upd_step_occs f fP fd fs : usable_type (Bfldtype f.1) = true -> ksorted fkey fs ->
  (forall k, koccs fkey k fs = overlay (koccs fkey k fP) (koccs fkey k fd)) ->
  ksorted fkey (upd_step f.1 (zlen (koccs fkey f.1 fP)) f.2 fs) /\
  forall k, koccs fkey k (upd_step f.1 (zlen (koccs fkey f.1 fP)) f.2 fs) =
            overlay (koccs fkey k (fP ++ [f])) (koccs fkey k fd).
Proof.
  intros Hu Hs Hk. unfold upd_step. destruct (empty_val_wf _ Hu) as (ev & -> & _). unfold chg_spec.
  pose proof (Hk f.1) as Hf. pose proof (length_overlay (koccs fkey f.1 fP) (koccs fkey f.1 fd)) as Hlen.
  assert ((f.1, f.2) = f) as -> by by destruct f.
  destruct (Z.ltb_spec (zlen (koccs fkey f.1 fP)) (zlen (koccs fkey f.1 fs))) as [Hlt|Hge]; rewrite Hf in *;
    unfold zlen in *.
  - split; [by apply ksorted_kset|]. intros k. rewrite koccs_kset, koccs_snoc, Nat2Z.id by done.
    destruct (Z.eqb_spec f.1 k) as [<-|]; [|by rewrite app_nil_r].
    rewrite Hf. apply insert_overlay. lia.
  - replace (Z.to_nat _) with 0%nat by lia. cbn [Nat.iter nat_rect]. split; [by apply ksorted_kins|].
    intros k. rewrite koccs_kins, koccs_snoc by done. destruct (Z.eqb_spec f.1 k) as [<-|]; [|by rewrite !app_nil_r].
    rewrite Hf. apply overlay_end. lia.
Qed.

Lemma upd_closed cap fd fR : Forall (fun f : field => usable_type (Bfldtype f.1) = true) fR -> forall fP fs,
  ksorted fkey fs -> (forall k, koccs fkey k fs = overlay (koccs fkey k fP) (koccs fkey k fd)) ->
  (merge_spec upd_step cap (occ_list fP fR) fs).2 = true ->
  ksorted fkey (merge_spec upd_step cap (occ_list fP fR) fs).1 /\
  forall k, koccs fkey k (merge_spec upd_step cap (occ_list fP fR) fs).1 =
            overlay (koccs fkey k (fP ++ fR)) (koccs fkey k fd).
Proof.
  induction 1 as [|f fR Hf _ IH]; intros fP fs Hs Hk Hok; [by rewrite app_nil_r|].
  rewrite occ_list_app in *. cbn [merge_spec] in *. destruct (_ <=? cap); [|done].
  destruct (upd_step_occs f fP fd fs Hf Hs Hk) as [Hs' Hk'].
  destruct (IH (fP ++ [f]) _ Hs' Hk' Hok) as [Hs2 Hk2]. split; [done|].
  intros k. by rewrite Hk2, <- app_assoc.
Qed.

Lemma ojoin_step_occs f fP fd fs : ksorted fkey fs ->
  (forall k, koccs fkey k fs = overlay_in (koccs fkey k fP) (koccs fkey k fd)) ->
  ksorted fkey (ojoin_step f.1 (zlen (koccs fkey f.1 fP)) f.2 fs) /\
  forall k, koccs fkey k (ojoin_step f.1 (zlen (koccs fkey f.1 fP)) f.2 fs) =
            overlay_in (koccs fkey k (fP ++ [f])) (koccs fkey k fd).
Proof.
  intros Hs Hk. unfold ojoin_step. assert ((f.1, f.2) = f) as -> by by destruct f.
  assert (zlen (koccs fkey f.1 fs) = zlen (koccs fkey f.1 fd)) as Hz
    by (unfold zlen; by rewrite Hk, length_overlay_in).
  rewrite Hz. destruct (Z.ltb_spec (zlen (koccs fkey f.1 fP)) (zlen (koccs fkey f.1 fd))) as [Hlt|Hge];
    unfold zlen in *.
  - split; [by apply ksorted_kset|]. intros k. rewrite koccs_kset, koccs_snoc, Nat2Z.id by done.
    destruct (Z.eqb_spec f.1 k) as [<-|]; [|by rewrite app_nil_r].
    rewrite overlay_in_snoc, (proj2 (Nat.ltb_lt _ _)) by lia. by rewrite Hk.
  - split; [done|]. intros k. rewrite koccs_snoc, Hk. destruct (Z.eqb_spec f.1 k) as [<-|]; [|by rewrite app_nil_r].
    by rewrite overlay_in_snoc, (proj2 (Nat.ltb_ge _ _)) by lia.
Qed.

Lemma ojoin_closed cap fd fR : forall fP fs,
  ksorted fkey fs -> (forall k, koccs fkey k fs = overlay_in (koccs fkey k fP) (koccs fkey k fd)) ->
  (merge_spec ojoin_step cap (occ_list fP fR) fs).2 = true ->
  ksorted fkey (merge_spec ojoin_step cap (occ_list fP fR) fs).1 /\
  forall k, koccs fkey k (merge_spec ojoin_step cap (occ_list fP fR) fs).1 =
            overlay_in (koccs fkey k (fP ++ fR)) (koccs fkey k fd).
Proof.
  induction fR as [|f fR IH]; intros fP fs Hs Hk Hok; [by rewrite app_nil_r|].
  rewrite occ_list_app in *. cbn [merge_spec] in *. destruct (_ <=? cap); [|done].
  destruct (ojoin_step_occs f fP fd fs Hs Hk) as [Hs' Hk'].
  destruct (IH (fP ++ [f]) _ Hs' Hk' Hok) as [Hs2 Hk2]. split; [done|].
  intros k. by rewrite Hk2, <- app_assoc.
Qed.

End Closed.

(** ** The merges *)

Section MergeProofs.
Context `{Platform}.

Lemma repr_facts u fs : buf_repr u fs ->
  ksorted fkey fs /\ Forall (fun f : field => usable_type (Bfldtype f.1) = true /\ 0 <= sz f) fs /\
  fits (buf_len u) fs /\ 5 * zlen fs <= fsize fs.
Proof.
  intros (bs & HF & [[tail Hu] _]). pose proof (total_blk_is fs bs HF) as Hsz. fold (fsize fs) in Hsz.
  split; [|split; [|split]].
  - pose proof (ud_sorted _ _ _ Hu) as Hs. unfold ksorted in *. clear -HF Hs. revert Hs.
    induction HF as [|f b fs bs (_ & Hk & _) HF IH]; intros Hs; [constructor|].
    inversion Hs as [|? ? Hs' HFb]; subst. constructor; [auto|].
    apply (blk_is_keys (fun k => f.1 <= k) fs bs HF). by rewrite <- Hk.
  - clear -HF. induction HF as [|f b fs bs Hfb _ IH]; constructor; [|done]. pose proof Hfb as (Hw & Hk & _).
    split; [rewrite <- Hk; by apply fid_ok_usable, wf_blk_fid_ok|].
    unfold sz. rewrite <- (blk_is_size f b Hfb). apply zlen_nonneg.
  - unfold fits. rewrite Hsz, <- (ud_used _ _ _ Hu). by apply (ubf_data_used_le _ _ _ Hu).
  - rewrite Hsz. clear -HF. induction HF as [|f b fs bs (Hw & _) _ IH]; [done|].
    pose proof (wf_blk_nonempty b Hw). cbn [concat]. zl.
Qed.

Lemma merge_api_ok impl dst fd src fs : buf_repr dst fd -> buf_repr src fs ->
  merge_api impl (Some dst) (Some src) = r ← impl dst src; Some (Some r.1, r.2).
Proof. intros Hd Hs. unfold merge_api. by rewrite (validate_no_fld src fs Hs), (validate_no_fld dst fd Hd). Qed.

(** [Bconcat] succeeds exactly when both contents fit, and then the
    destination holds, for every id, its own occurrences followed by those of
    the source; otherwise it fails with [BNOSPACE]. *)
Theorem Bconcat_correct dst fd src fs :
  buf_repr dst fd -> buf_repr src fs ->
  if DATA_OFF + fsize fd + fsize fs <=? buf_len dst
  then exists dst' fs', Bconcat (Some dst) (Some src) = Some (Some dst', BOk tt) /\
         buf_repr dst' fs' /\ buf_len dst' = buf_len dst /\
         forall k, koccs fkey k fs' = koccs fkey k fd ++ koccs fkey k fs
  else exists dst', Bconcat (Some dst) (Some src) = Some (Some dst', BFail (Some BNOSPACE)).
Proof.
  intros Hd Hs. unfold Bconcat. rewrite (merge_api_ok _ _ _ _ _ Hd Hs). unfold ndrx_Bconcat.
  destruct (over_src_ok add_round add_step (buf_len dst) (merge_inv Z.le (buf_len dst)) src fs dst fd Hs)
    as (dst' & ls' & lo' & -> & HI); [apply add_round_ok|by apply merge_inv_start|].
  destruct (repr_facts dst fd Hd) as (Hsd & _ & Hfd & _). destruct (repr_facts src fs Hs) as (_ & HF & _).
  apply merge_inv_repr in HI as [Hr Hl]. cbn [mbind option_bind fst snd].
  rewrite <- (add_succeeds (buf_len dst) fs (Forall_impl _ _ _ HF (fun _ => @proj2 _ _)) [] fd Hfd).
  destruct (merge_spec add_step (buf_len dst) (occ_list [] fs) fd).2 eqn:Hok; [|by exists dst'].
  exists dst', (merge_spec add_step (buf_len dst) (occ_list [] fs) fd).1. split; [done|]. split; [done|].
  split; [done|]. by apply (add_closed (buf_len dst) fs [] fd Hsd).
Qed.

(** The fields after each occurrence of the source was changed into the
    destination, and whether there always was the room. *)
Definition update_outcome (dst : UBFH) (fd fs : list field) : list field * bool :=
  merge_spec upd_step (buf_len dst) (occ_list [] fs) fd.

Definition ojoin_outcome (dst : UBFH) (fd fs : list field) : list field * bool :=
  merge_spec ojoin_step (buf_len dst) (occ_list [] fs) fd.

Definition outcome_ret (ok : bool) : bres unit := if ok then BOk tt else BFail (Some BNOSPACE).

Lemma chg_over_src upd dst fd src fs : buf_repr dst fd -> buf_repr src fs ->
  buf_len dst + 17 * buf_len src <= INT_MAX ->
  exists dst', over_src (chg_round upd) dst src =
      Some (dst', outcome_ret (merge_spec (chg_step upd) (buf_len dst) (occ_list [] fs) fd).2) /\
    buf_repr dst' (merge_spec (chg_step upd) (buf_len dst) (occ_list [] fs) fd).1 /\ buf_len dst' = buf_len dst.
Proof.
  intros Hd Hs Hsum. destruct (repr_facts src fs Hs) as (_ & _ & Hfit & H5). unfold fits in Hfit.
  pose proof DATA_OFF_range.
  destruct (over_src_ok (chg_round upd) (chg_step upd) (buf_len dst) (merge_inv Z.lt (buf_len dst)) src fs dst fd Hs)
    as (dst' & ls' & lo' & -> & HI); [apply chg_round_ok; lia|by apply merge_inv_start|].
  apply merge_inv_repr in HI as [Hr Hl]. by exists dst'.
Qed.

(** [Bupdate] changes the source's occurrences into the destination one
    by one.  When the room suffices throughout, the destination ends up, for
    every id, with the source's occurrences followed by its own further ones;
    otherwise the call fails with [BNOSPACE] after the changes that fitted. *)
Theorem Bupdate_correct dst fd src fs :
  buf_repr dst fd -> buf_repr src fs -> buf_len dst + 17 * buf_len src <= INT_MAX ->
  let out := update_outcome dst fd fs in
  exists dst', Bupdate (Some dst) (Some src) = Some (Some dst', outcome_ret out.2) /\
    buf_repr dst' out.1 /\ buf_len dst' = buf_len dst /\
    (out.2 = true -> forall k, koccs fkey k out.1 = overlay (koccs fkey k fs) (koccs fkey k fd)).
Proof.
  intros Hd Hs Hsum out. unfold Bupdate. rewrite (merge_api_ok _ _ _ _ _ Hd Hs). unfold ndrx_Bupdate.
  destruct (chg_over_src false dst fd src fs Hd Hs Hsum) as (dst' & -> & Hr & Hl).
  exists dst'. split; [done|]. split; [done|]. split; [done|]. intros Hok.
  destruct (repr_facts dst fd Hd) as (Hsd & _). destruct (repr_facts src fs Hs) as (_ & HF & _).
  apply (upd_closed (buf_len dst) fd fs (Forall_impl _ _ _ HF (fun _ => @proj1 _ _)) [] fd Hsd); [|done].
  intros k. done.
Qed.

(** [Bojoin] changes only occurrences that the destination has: for every
    id it keeps their number, the first ones with the source's values. *)
Theorem Bojoin_correct dst fd src fs :
  buf_repr dst fd -> buf_repr src fs -> buf_len dst + 17 * buf_len src <= INT_MAX ->
  let out := ojoin_outcome dst fd fs in
  exists dst', Bojoin (Some dst) (Some src) = Some (Some dst', outcome_ret out.2) /\
    buf_repr dst' out.1 /\ buf_len dst' = buf_len dst /\
    (out.2 = true -> forall k, koccs fkey k out.1 = overlay_in (koccs fkey k fs) (koccs fkey k fd)).
Proof.
  intros Hd Hs Hsum out. unfold Bojoin. rewrite (merge_api_ok _ _ _ _ _ Hd Hs). unfold ndrx_Bojoin.
  destruct (chg_over_src true dst fd src fs Hd Hs Hsum) as (dst' & -> & Hr & Hl).
  exists dst'. split; [done|]. split; [done|]. split; [done|]. intros Hok.
  destruct (repr_facts dst fd Hd) as (Hsd & _).
  apply (ojoin_closed (buf_len dst) fd fs [] fd Hsd); [|done].
  intros k. unfold overlay_in. cbn. by rewrite take_nil.
Qed.

(** *** The second half of [Bjoin] *)

Section Purge.
Variables (src : UBFH) (fs : list field).

(** The first occurrence the fields [fs] do not have. *)
Fixpoint first_extra (l : list (Z * Z * cbuf)) : option (Z * Z) :=
  match l with
  | [] => None
  | (fid, occ, _) :: l => if occ <? zlen (koccs fkey fid fs) then first_extra l else Some (fid, occ)
  end.

Lemma join_scan_ok R : buf_repr src fs -> forall fuel dst P fP fR tail st st' bfldid occ len,
  ubf_data dst (P ++ R) tail -> Forall2 blk_is fP P -> Forall2 blk_is fR R ->
  buf_len src + 23 * zlen (fP ++ fR) <= INT_MAX ->
  Bnext_pos st dst 0 bfldid = Some (BOk st') -> p_cur_bfldid st' = blk_off P ->
  cur_occ st' = run_occ P R -> (length R < fuel)%nat ->
  join_scan fuel dst src st bfldid occ len = Some (first_extra (occ_list fP fR)).
Proof.
  intros Hs. induction R as [|b R IH];
    intros [|fuel] dst P fP fR tail st st' bfldid occ len Hu HFP HFR HN Hpos Hp Ho Hf;
    cbn [length] in Hf; try lia; cbn [join_scan]; unfold ndrx_Bnext; rewrite Hpos; cbn [mbind option_bind].
  - inversion HFR; subst. rewrite app_nil_r in Hu. by rewrite (Bnext_ret_end st' dst P tail) by done.
  - inversion HFR as [|f ? fR' ? Hfb HFR']; subst. pose proof Hfb as (Hbw & Hbf & Hbv).
    assert (ubf_data dst ((P ++ [b]) ++ R) tail) as Hu' by by rewrite <- app_assoc.
    pose proof (Bnext_pos_step st' dst P b R tail 0 Hu Hp Ho) as Hpos'.
    destruct (Bnext_ret_len st' dst P b R tail f.2 bfldid occ len false Hu Hp Hbv) as (d & -> & _).
    cbn [mbind option_bind no_found no_state no_bfldid no_occ no_len Z.eqb Pos.eqb].
    assert (cur_occ st' = zlen (koccs fkey f.1 fP)) as Hocc
      by (rewrite Ho; cbn [run_occ]; by rewrite (koccs_blk_is _ fP P HFP), Hbf).
    rewrite Hbf in *. rewrite (_Bpres_ok src fs) by
      (done || (by rewrite <- Hbf; apply wf_blk_fid_ok) ||
       (rewrite Hocc; pose proof (koccs_le f.1 fP); rewrite zlen_app in HN; zlen_pos; split; lia)).
    cbn [mbind option_bind occ_list first_extra]. rewrite <- Hocc.
    destruct (cur_occ st' <? _); [|done].
    eapply (IH fuel dst (P ++ [b]) (fP ++ [f]) fR' tail st' _ f.1 (cur_occ st') _ Hu');
      [| | |exact Hpos'|..]; try done.
    + apply Forall2_app; [done|]. by constructor.
    + by rewrite <- app_assoc.
    + lia.
Qed.

Lemma first_extra_none fR : forall fP, first_extra (occ_list fP fR) = None ->
  (forall k, zlen (koccs fkey k fP) <= zlen (koccs fkey k fs)) ->
  forall k, zlen (koccs fkey k (fP ++ fR)) <= zlen (koccs fkey k fs).
Proof.
  induction fR as [|f fR IH]; intros fP Hn Hle k; [by rewrite app_nil_r|]. cbn [occ_list first_extra] in Hn.
  destruct (Z.ltb_spec (zlen (koccs fkey f.1 fP)) (zlen (koccs fkey f.1 fs))) as [Hlt|]; [|done].
  change (f :: fR) with ([f] ++ fR). rewrite app_assoc. apply IH; [done|].
  intros k'. rewrite koccs_snoc. specialize (Hle k'). destruct (Z.eqb_spec f.1 k') as [<-|]; zl.
Qed.

Lemma first_extra_some fR : forall fP fid occ, first_extra (occ_list fP fR) = Some (fid, occ) ->
  zlen (koccs fkey fid fs) <= occ < zlen (koccs fkey fid (fP ++ fR)) /\ 0 <= occ /\
  exists f, f ∈ fR /\ f.1 = fid.
Proof.
  induction fR as [|f fR IH]; intros fP fid occ He; [done|]. cbn [occ_list first_extra] in He.
  destruct (Z.ltb_spec (zlen (koccs fkey f.1 fP)) (zlen (koccs fkey f.1 fs))) as [Hlt|Hge].
  - destruct (IH _ _ _ He) as (Hr & H0 & g & Hg & Hgk). rewrite <- app_assoc in Hr. split; [done|].
    split; [done|]. exists g. split; [by right|done].
  - injection He as <- <-. change (f :: fR) with ([f] ++ fR). rewrite app_assoc.
    replace (koccs fkey f.1 ((fP ++ [f]) ++ fR)) with (koccs fkey f.1 (fP ++ [f]) ++ koccs fkey f.1 fR)
      by (symmetry; apply filter_app).
    rewrite koccs_snoc, Z.eqb_refl. zlen_pos. split; [split; [done|zl]|]. split; [zl|].
    exists f. split; [by left|done].
Qed.

Lemma koccs_kdel k k' (l : list field) : forall n,
  koccs fkey k' (kdel fkey k n l) = if k =? k' then delete n (koccs fkey k l) else koccs fkey k' l.
Proof.
  unfold koccs. induction l as [|g l IH]; intros n; [by destruct (_ =? _)|]. cbn [kdel].
  destruct (Z.eqb_spec g.1 k) as [<-|Hg].
  - rewrite (filter_cons_True _ g l) by done. destruct n as [|n].
    + destruct (Z.eqb_spec g.1 k') as [<-|]; [done|]. by rewrite filter_cons_False by congruence.
    + rewrite filter_cons, IH. destruct (Z.eqb_spec g.1 k') as [<-|]; [by rewrite decide_True|].
      by rewrite decide_False, filter_cons_False by congruence.
  - rewrite (filter_cons_False _ g l) by done. rewrite !filter_cons, IH.
    destruct (Z.eqb_spec k k') as [<-|]; [by rewrite decide_False|done].
Qed.

Lemma length_kdel k (l : list field) : forall n, (n < length (koccs fkey k l))%nat ->
  length l = S (length (kdel fkey k n l)).
Proof.
  unfold koccs. induction l as [|g l IH]; intros n Hn; [by cbn in Hn; lia|]. cbn [kdel].
  rewrite filter_cons in Hn. destruct (Z.eqb_spec g.1 k).
  - rewrite decide_True in Hn by done. destruct n; [done|]. cbn [length] in *. rewrite (IH n); lia.
  - rewrite decide_False in Hn by done. cbn [length]. by rewrite (IH n).
Qed.

Lemma take_delete_ge {X} (l : list X) n i : (n <= i)%nat -> take n (delete i l) = take n l.
Proof.
  revert n i. induction l as [|x l IH]; intros n i Hn; [by destruct i|].
  destruct i as [|i]; [by replace n with 0%nat by lia|]. destruct n as [|n]; [done|].
  cbn. f_equal. apply IH. lia.
Qed.

Lemma join_purge_ok fuel : buf_repr src fs -> forall dst fd,
  buf_repr dst fd -> buf_len src + 5 * buf_len dst <= INT_MAX -> (length fd < fuel)%nat ->
  exists dst' fs', join_purge fuel dst src = Some (dst', BOk tt) /\ buf_repr dst' fs' /\
    buf_len dst' = buf_len dst /\
    forall k, koccs fkey k fs' = take (length (koccs fkey k fs)) (koccs fkey k fd).
Proof.
  intros Hs. induction fuel as [|fuel IH]; intros dst fd Hd Hsum Hf; [lia|]. cbn [join_purge].
  destruct (repr_facts dst fd Hd) as (_ & HFu & Hfit & H5). unfold fits in Hfit. pose proof DATA_OFF_range.
  pose proof Hd as (bs & HF & [[tail Hu] _]).
  rewrite (join_scan_ok bs Hs (S (length (mem dst))) dst [] [] fd tail zero_state
    {| p_cur_bfldid := 0; cur_occ := 0; st_p_ub := 0; st_size := bytes_used dst |}); try done; [| |by destruct bs|].
  - cbn [mbind option_bind]. destruct (first_extra (occ_list [] fd)) as [[fid occ]|] eqn:He.
    + destruct (first_extra_some _ _ _ _ He) as (Hocc & Ho0 & g & Hg & <-). cbn [app] in Hocc.
      assert (fid_ok g.1 = true) as Hgk.
      { apply list_elem_of_lookup in Hg as [i Hi]. destruct (Forall2_lookup_l _ _ _ _ _ HF Hi) as (b & _ & Hw & <- & _).
        by apply wf_blk_fid_ok. }
      destruct (Bdel_ok dst fd g.1 occ Hd Hgk) as (dst1 & -> & Hr1 & Hl1); [lia|].
      cbn [mbind option_bind fst snd].
      destruct (IH dst1 _ Hr1) as (dst' & fs' & -> & Hr' & Hl' & Hk'); [lia| |].
      { pose proof (length_kdel g.1 fd (Z.to_nat occ)). unfold zlen in *. lia. }
      exists dst', fs'. split; [done|]. split; [done|]. split; [congruence|]. intros k. rewrite Hk', koccs_kdel.
      destruct (Z.eqb_spec g.1 k) as [<-|]; [|done]. apply take_delete_ge. unfold zlen in *. lia.
    + exists dst, fd. split; [done|]. split; [done|]. split; [done|]. intros k.
      pose proof (first_extra_none fd [] He (fun k => zlen_nonneg (koccs fkey k fs)) k). cbn [app] in *.
      rewrite take_ge; [done|]. unfold zlen in *. lia.
  - cbn [app]. pose proof (zlen_nonneg fd). lia.
  - pose proof (ubf_fuel _ _ _ Hu). lia.
Qed.

End Purge.

(** [Bjoin] leaves, for every id, as many occurrences as both buffers
    have, with the source's values: fields without a partner in the source
    are gone.  The call fails only when a changed value did not fit. *)
Theorem Bjoin_correct dst fd src fs :
  buf_repr dst fd -> buf_repr src fs -> 17 * (buf_len dst + buf_len src) <= INT_MAX ->
  let out := ojoin_outcome dst fd fs in
  exists dst' fs', Bjoin (Some dst) (Some src) = Some (Some dst', outcome_ret out.2) /\
    buf_repr dst' fs' /\ buf_len dst' = buf_len dst /\
    (out.2 = true -> forall k, koccs fkey k fs' = take (length (koccs fkey k fd)) (koccs fkey k fs)).
Proof.
  intros Hd Hs Hsum out. unfold Bjoin. rewrite (merge_api_ok _ _ _ _ _ Hd Hs). unfold ndrx_Bjoin.
  destruct (repr_range _ _ Hd) as [Hd0 _]. destruct (repr_range _ _ Hs) as [Hs0 _].
  destruct (chg_over_src true dst fd src fs Hd Hs) as (dst1 & -> & Hr & Hl); [lia|].
  change (merge_spec (chg_step true) (buf_len dst) (occ_list [] fs) fd) with out in *.
  cbn [mbind option_bind fst snd]. destruct out.2 eqn:Hok; cbn [outcome_ret].
  - destruct (join_purge_ok src fs (S (length (mem dst1))) Hs dst1 out.1 Hr) as (dst' & fs' & -> & Hr' & Hl' & Hk);
      [lia| |].
    { pose proof Hr as (bs & HF & [[tail Hu] _]). rewrite (Forall2_length _ _ _ HF).
      pose proof (ubf_fuel _ _ _ Hu). lia. }
    exists dst', fs'. split; [done|]. split; [done|]. split; [congruence|]. intros _ k. rewrite Hk.
    destruct (repr_facts dst fd Hd) as (Hsd & _).
    destruct (ojoin_closed (buf_len dst) fd fs [] fd Hsd) as [_ Hc]; [|done|].
    { intros k'. unfold overlay_in. cbn. by rewrite take_nil. }
    unfold out, ojoin_outcome. rewrite Hc. cbn [app]. unfold overlay_in.
    destruct (Nat.le_gt_cases (length (koccs fkey k fd)) (length (koccs fkey k fs))).
    + rewrite (drop_ge (koccs fkey k fd)), app_nil_r by lia. apply take_ge. rewrite length_take. lia.
    + by rewrite !(take_ge (koccs fkey k fs)), take_app_length by lia.
  - exists dst1, out.1. done.
Qed.

End MergeProofs.

(** ** Examples *)

Module MergeDemo.
#[local] Existing Instance plat4.

Lemma Bconcat_correct_witness :
  exists dst' fs', Bconcat (Some Demo.demo) (Some Demo.demo) = Some (Some dst', BOk tt) /\
    buf_repr dst' fs' /\ buf_len dst' = buf_len Demo.demo /\
    forall k, koccs fkey k fs' = koccs fkey k Demo.fields ++ koccs fkey k Demo.fields.
Proof.
  exact (Bconcat_correct Demo.demo Demo.fields Demo.demo Demo.fields Demo.demo_repr Demo.demo_repr).
Defined.

Lemma Bupdate_correct_witness :
  exists dst', Bupdate (Some Demo.demo) (Some Demo.demo) = Some (Some dst', BOk tt).
Proof.
  destruct (Bupdate_correct Demo.demo Demo.fields Demo.demo Demo.fields Demo.demo_repr Demo.demo_repr)
    as (dst' & Hb & _); [vm_compute; discriminate|]. exists dst'. exact Hb.
Defined.

Lemma Bojoin_correct_witness :
  exists dst', Bojoin (Some Demo.demo) (Some Demo.demo) = Some (Some dst', BOk tt).
Proof.
  destruct (Bojoin_correct Demo.demo Demo.fields Demo.demo Demo.fields Demo.demo_repr Demo.demo_repr)
    as (dst' & Hb & _); [vm_compute; discriminate|]. exists dst'. exact Hb.
Defined.

Lemma Bjoin_correct_witness :
  exists dst', Bjoin (Some Demo.demo) (Some Demo.demo) = Some (Some dst', BOk tt).
Proof.
  destruct (Bjoin_correct Demo.demo Demo.fields Demo.demo Demo.fields Demo.demo_repr Demo.demo_repr)
    as (dst' & fs' & Hb & _); [vm_compute; discriminate|]. exists dst'. exact Hb.
Defined.

End MergeDemo.
