(* ===== verification/UbfReach.v ===== *)
(** * Sequences of calls on one buffer

    Every buffer that calls of [Badd], [Bchg] and [Bdel] make of a fresh one
    is well formed, and what was stored is read back. *)

From S2P Require Import Prelude UbfTypes UbfBuffer UbfSearch UbfOps UbfRead UbfAlloc UbfMerge.

Section Reach.
Context `{Platform}.

(** A call and its result, successful or not. *)
Inductive ubf_step : UBFH -> UBFH -> Prop :=
  | step_add u fid d len v u' r :
      fid_ok fid = true -> data_val (Bfldtype fid) d len = Some v ->
      Badd (Some u) fid d len = Some (Some u', r) -> ubf_step u u'
  | step_chg u fid occ d len v u' r :
      fid_ok fid = true -> data_val (Bfldtype fid) d len = Some v ->
      0 <= occ -> buf_len u + 80 * occ + blk_size (Bfldtype fid) v <= INT_MAX ->
      Bchg (Some u) fid occ (Some d) len = Some (Some u', r) -> ubf_step u u'
  | step_del u fid occ u' r :
      fid_ok fid = true -> -1 <= occ ->
      Bdel (Some u) fid occ = Some (Some u', r) -> ubf_step u u'.

Inductive ubf_reach : UBFH -> UBFH -> Prop :=
  | reach_refl u : ubf_reach u u
  | reach_step u u' u'' : ubf_reach u u' -> ubf_step u' u'' -> ubf_reach u u''.

(** A change that [Bchg] takes without overflow of its sizes. *)
Lemma chg_no_overflow u fs fid occ v ev : buf_repr u fs -> fid_ok fid = true -> wf_val (Bfldtype fid) v ->
  empty_val (Bfldtype fid) = Some ev -> 0 <= occ ->
  buf_len u + 80 * occ + blk_size (Bfldtype fid) v <= INT_MAX ->
  occ_fits u occ /\ chg_need fid occ v ev fs <= INT_MAX.
Proof.
  intros Hr Hf Hw Hev Ho Hmax. pose proof (fid_ok_usable _ Hf) as Hu.
  pose proof (empty_blk_size _ _ Hu Hev). pose proof (blk_size_bounds _ _ Hu Hw) as [Hv _].
  pose proof DA_range. destruct (repr_range u fs Hr) as [Hb0 _]. split; [split; lia|]. unfold chg_need.
  pose proof (zlen_nonneg (koccs fkey fid fs)).
  destruct (Z.ltb_spec occ (zlen (koccs fkey fid fs))); [|nia].
  destruct (koccs fkey fid fs !! Z.to_nat occ) as [f|] eqn:Hl; [|lia].
  apply list_elem_of_lookup_2, list_elem_of_filter in Hl as [Hk Hin].
  destruct (repr_facts u fs Hr) as (_ & HF & _). rewrite Forall_forall in HF.
  destruct (HF f Hin) as [_ Hsz]. unfold sz in Hsz. rewrite Hk in Hsz. lia.
Qed.

Lemma step_repr u u' fs : ubf_step u u' -> buf_repr u fs ->
  (exists fs', buf_repr u' fs') /\ buf_len u' = buf_len u.
Proof.
  intros Hst Hr. destruct Hst as [u fid d len v u' r Hf Hv He|u fid occ d len v u' r Hf Hv Ho Hmax He|u fid occ u' r Hf Ho He].
  - pose proof (Badd_ok u fs fid d len v Hr Hf Hv) as Ha. destruct (_ <=? _).
    + destruct Ha as (u1 & Ha & Hr1 & Hl1 & _). rewrite Ha in He. injection He as <- _. eauto.
    + rewrite Ha in He. injection He as <- _. eauto.
  - pose proof (fid_ok_usable _ Hf) as Hu. destruct (empty_val_wf _ Hu) as (ev & Hev & _).
    destruct (chg_no_overflow u fs fid occ v ev Hr Hf (data_val_wf _ _ _ _ Hu Hv) Hev Ho Hmax) as [Hfit Hov].
    pose proof (Bchg_ok u fs fid occ d len v ev Hr Hf Hv Hev Hfit Hov) as Hc. destruct (_ <=? _).
    + destruct Hc as (u1 & Hc & Hr1 & Hl1). rewrite Hc in He. injection He as <- _. eauto.
    + rewrite Hc in He. injection He as <- _. eauto.
  - pose proof (Bdel_total u fs fid occ Hr Hf Ho) as Hd. destruct (_ && _).
    + destruct Hd as (u1 & Hd & Hr1 & Hl1). rewrite Hd in He. injection He as <- _. eauto.
    + rewrite Hd in He. injection He as <- _. eauto.
Qed.

(** C40: whatever sequence of [Badd], [Bchg] and [Bdel] calls, with valid
    values and ids, runs on a buffer from [Binit], succeeding or failing, the
    buffer stays well formed: its fields parse, are sorted by id, its used size
    and the cached type offsets agree with them, and its capacity never changes.
    The occurrence numbers given to [Bchg] are not negative and so small that
    80 times the number, the buffer and the value together fit an [int]. *)
Theorem reachable_well_formed raw len u u' :
  zlen raw = len -> len <= INT_MAX -> Binit (Some raw) len = Some (BOk u) -> ubf_reach u u' ->
  (exists fs, buf_repr u' fs) /\ buf_len u' = len.
Proof.
  intros Hz Hl Hi Hre. assert (sizeof_UBF_header <= len) as Hh.
  { unfold Binit in Hi. destruct (Z.ltb_spec (u64 len) sizeof_UBF_header); [done|].
    destruct (Z.ltb_spec (zlen raw) sizeof_UBF_header); [done|]. lia. }
  destruct (Binit_ok raw len Hz (conj Hh Hl)) as (u0 & Hi' & Hr0 & Hl0 & _).
  rewrite Hi' in Hi. injection Hi as <-.
  induction Hre as [|u0 u' u'' _ IH Hst]; [by eauto|]. destruct (IH Hi' Hr0 Hl0) as [[fs Hr] Hlen].
  destruct (step_repr u' u'' fs Hst Hr) as [Hr' Hl']. split; [done|]. congruence.
Qed.

(** What [Badd] stored is the occurrence behind the ones there were, and
    [Bget] returns it; the earlier occurrences read as before. *)
Theorem Badd_Bget_roundtrip u fs fid d len v occ :
  buf_repr u fs -> fid_ok fid = true -> data_val (Bfldtype fid) d len = Some v ->
  blk_size (Bfldtype fid) v <= Bfree u -> occ_fits u (zlen (koccs fkey fid fs)) ->
  0 <= occ <= zlen (koccs fkey fid fs) ->
  exists u', Badd (Some u) fid d len = Some (Some u', BOk tt) /\
    Bget (Some u') fid occ true None =
      if occ =? zlen (koccs fkey fid fs) then Some (BOk (Some (v, None)))
      else Bget (Some u) fid occ true None.
Proof.
  intros Hr Hf Hv Hfree [_ Hmax] Ho. pose proof (Badd_ok u fs fid d len v Hr Hf Hv) as Ha.
  rewrite (proj2 (Z.leb_le _ _) Hfree) in Ha. destruct Ha as (u' & Ha & Hr' & Hl & _).
  exists u'. split; [done|]. rewrite !(Bget_ok u' (kins fkey (fid, v) fs)), (Bget_ok u fs) by
    (done || (split; [lia|rewrite ?Hl; lia])).
  destruct (repr_facts u fs Hr) as (Hs & _). rewrite koccs_kins, Z.eqb_refl by done.
  cbn [fst]. unfold zlen in *. destruct (Z.eqb_spec occ (Z.of_nat (length (koccs fkey fid fs)))) as [->|Hne].
  - rewrite Nat2Z.id, lookup_app_r, Nat.sub_diag by lia. done.
  - by rewrite lookup_app_l by lia.
Qed.

End Reach.

Module ReachDemo.
#[local] Existing Instance plat4.

Definition fresh : UBFH := match Binit (zeros 100) 100 with Some (BOk u) => u | _ => Demo.demo end.
Definition added : UBFH :=
  match Badd (Some fresh) Demo.fshort (CBytes [5; 0]) 0 with Some (Some u, _) => u | _ => fresh end.

Lemma reachable_well_formed_witness : (exists fs, buf_repr added fs) /\ buf_len added = 100.
Proof.
  apply (reachable_well_formed (replicate 100 0) 100 fresh added);
    [reflexivity|vm_compute; discriminate|reflexivity|].
  apply (reach_step fresh fresh); [apply reach_refl|].
  apply (step_add fresh Demo.fshort (CBytes [5; 0]) 0 (CBytes [5; 0]) added (BOk tt)); reflexivity.
Defined.

Lemma Badd_Bget_roundtrip_witness :
  exists u', Badd (Some Demo.demo) Demo.fshort (CBytes [7; 0]) 0 = Some (Some u', BOk tt) /\
    Bget (Some u') Demo.fshort 2 true None = Some (BOk (Some (CBytes [7; 0], None))).
Proof.
  apply (Badd_Bget_roundtrip Demo.demo Demo.fields Demo.fshort (CBytes [7; 0]) 0 (CBytes [7; 0]) 2
           Demo.demo_repr eq_refl eq_refl);
    [vm_compute; discriminate|split; vm_compute; discriminate|split; vm_compute; discriminate].
Defined.

End ReachDemo.
