(* ===== verification/CText.v ===== *)
(** * Text functions of the C library

    What the sources use of [printf] and [strtol] and their relatives, and of
    [strchr] and [strtok], on strings as lists of byte values without the
    final zero.  Integers are printed and read back. *)

From S2P Require Import Prelude.

(** ** Printing integers *)

(** Digits of [n] in base [b], most significant first.  64 digits are enough
    for every 64-bit number. *)
Fixpoint digits (fuel : nat) (b n : Z) : list Z :=
  match fuel with
  | O => []
  | S fuel => if n <? b then [n] else digits fuel b (n / b) ++ [n mod b]
  end.

Definition digit_char (d : Z) : Z := if d <? 10 then 48 + d else 87 + d.

Definition fmt_u (b n : Z) : list Z := map digit_char (digits 64 b n).

(** [%d], [%hd], [%ld], [%lld] *)
Definition fmt_d (z : Z) : list Z := if z <? 0 then 45 :: fmt_u 10 (- z) else fmt_u 10 z.

(** [%08lx] *)
Definition fmt_08lx (z : Z) : list Z := let s := fmt_u 16 z in replicate (8 - length s) 48 ++ s.

(** ** Reading integers *)

Definition digit_val (b c : Z) : option Z :=
  let d := if (48 <=? c) && (c <=? 57) then c - 48
           else if (97 <=? c) && (c <=? 122) then c - 87
           else if (65 <=? c) && (c <=? 90) then c - 55 else 99 in
  if d <? b then Some d else None.

(** The number the leading digits make, added to [acc]; [n] counts them. *)
Fixpoint scan_digits (b acc : Z) (n : nat) (s : list Z) : Z * nat :=
  match s with
  | [] => (acc, n)
  | c :: s => match digit_val b c with
              | Some d => scan_digits b (acc * b + d) (S n) s
              | None => (acc, n)
              end
  end.

Definition isspace (c : Z) : bool := (c =? 32) || ((9 <=? c) && (c <=? 13)).

Fixpoint skip_space (s : list Z) : list Z :=
  match s with c :: s' => if isspace c then skip_space s' else s | [] => [] end.

(** White space, a sign, digits: the value before clamping, and whether there
    was a digit. *)
Definition scan_int (b : Z) (s : list Z) : Z * bool :=
  match skip_space s with
  | 45 :: s => let r := scan_digits b 0 0 s in (- r.1, negb (Nat.eqb r.2 0))
  | 43 :: s => let r := scan_digits b 0 0 s in (r.1, negb (Nat.eqb r.2 0))
  | s => let r := scan_digits b 0 0 s in (r.1, negb (Nat.eqb r.2 0))
  end.

Definition LONG_MAX : Z := 9223372036854775807.
Definition LONG_MIN : Z := -9223372036854775808.
Definition ULONG_MAX : Z := 18446744073709551615.

Definition atol (s : list Z) : Z := Z.max LONG_MIN (Z.min LONG_MAX (scan_int 10 s).1).

(** [atoi] is [(int) strtol(s, NULL, 10)]. *)
Definition atoi (s : list Z) : Z := i32 (atol s).

Definition strtoull (s : list Z) : Z :=
  let v := (scan_int 10 s).1 in if v <? - ULONG_MAX then ULONG_MAX else if ULONG_MAX <? v then ULONG_MAX else u64 v.

(** [sscanf(s, "%lx", &v)]: [None] when nothing is stored.  A prefix [0x] may
    stand before the digits. *)
Definition drop_0x (s : list Z) : list Z :=
  match s with
  | a :: c :: s' => if (a =? 48) && ((c =? 120) || (c =? 88)) then a :: s' else s
  | _ => s
  end.

Definition sscanf_lx (s : list Z) : option Z :=
  let r := scan_int 16 (drop_0x s) in
  if r.2 then Some (if (r.1 <? - ULONG_MAX) || (ULONG_MAX <? r.1) then ULONG_MAX else u64 r.1) else None.

(** The C type [short]. *)
Definition i16 (z : Z) : Z := (z + 32768) mod 65536 - 32768.

(** ** Searching *)

(** [strchr(s, c)]: what is before and behind the first [c]. *)
Fixpoint split_at_char (c : Z) (s : list Z) : option (list Z * list Z) :=
  match s with
  | [] => None
  | x :: s => if x =? c then Some ([], s)
              else match split_at_char c s with Some (a, b) => Some (x :: a, b) | None => None end
  end.

(** [strtok] with one delimiter: the next token and the unread rest. *)
Fixpoint skip_delim (c : Z) (s : list Z) : list Z :=
  match s with x :: s' => if x =? c then skip_delim c s' else s | [] => [] end.

Definition strtok (c : Z) (s : list Z) : option (list Z * list Z) :=
  match skip_delim c s with
  | [] => None
  | s => match split_at_char c s with Some (tok, rest) => Some (tok, rest) | None => Some (s, []) end
  end.

(** ** Digits *)

Definition value (b : Z) (ds : list Z) (acc : Z) : Z := fold_left (fun a d => a * b + d) ds acc.

Lemma digits_range fuel b : forall n, 1 < b -> 0 <= n -> Forall (fun d => 0 <= d < b) (digits fuel b n).
Proof.
  induction fuel as [|fuel IH]; intros n Hb Hn; [constructor|]. cbn. destruct (Z.ltb_spec n b); [repeat constructor; lia|].
  apply Forall_app. split; [apply IH; [done|apply Z.div_pos; lia]|].
  repeat constructor; apply Z.mod_pos_bound; lia.
Qed.

Lemma digits_value fuel b : forall n, 1 < b -> 0 <= n < b ^ Z.of_nat fuel -> value b (digits fuel b n) 0 = n.
Proof.
  induction fuel as [|fuel IH]; intros n Hb Hn; cbn; [change (b ^ Z.of_nat 0) with 1 in Hn; cbn; lia|].
  destruct (Z.ltb_spec n b); [cbn; lia|]. unfold value. rewrite fold_left_app. cbn.
  change (fold_left _ (digits fuel b (n / b)) 0) with (value b (digits fuel b (n / b)) 0).
  rewrite IH; [pose proof (Z.div_mod n b); lia|done|].
  split; [apply Z.div_pos; lia|]. apply Z.div_lt_upper_bound; [lia|].
  replace (b * b ^ Z.of_nat fuel) with (b ^ Z.of_nat (S fuel)) by (rewrite Nat2Z.inj_succ, Z.pow_succ_r; lia). lia.
Qed.

Lemma digits_length fuel b k : forall n, 1 < b -> 0 <= n < b ^ Z.of_nat (S k) -> (S k <= fuel)%nat ->
  (1 <= length (digits fuel b n) <= S k)%nat.
Proof.
  revert k. induction fuel as [|fuel IH]; intros k n Hb Hn Hk; [lia|]. cbn.
  destruct (Z.ltb_spec n b); [cbn; lia|]. rewrite length_app. cbn. destruct k as [|k].
  - change (Z.of_nat 1) with 1 in Hn. rewrite Z.pow_1_r in Hn. lia.
  - specialize (IH k (n / b)). cut (1 <= length (digits fuel b (n / b)) <= S k)%nat; [lia|]. apply IH; [done| |lia].
    split; [apply Z.div_pos; lia|]. apply Z.div_lt_upper_bound; [lia|].
    rewrite (Nat2Z.inj_succ (S k)), Z.pow_succ_r in Hn by lia. lia.
Qed.

Lemma digit_val_char b d : b <= 16 -> 0 <= d < b -> digit_val b (digit_char d) = Some d.
Proof.
  intros Hb Hd. unfold digit_val, digit_char. destruct (Z.ltb_spec d 10).
  - replace ((48 <=? 48 + d) && (48 + d <=? 57)) with true by lia.
    replace (48 + d - 48) with d by lia. by rewrite (proj2 (Z.ltb_lt d b)) by lia.
  - replace ((48 <=? 87 + d) && (87 + d <=? 57)) with false by lia.
    replace ((97 <=? 87 + d) && (87 + d <=? 122)) with true by lia.
    replace (87 + d - 87) with d by lia. by rewrite (proj2 (Z.ltb_lt d b)) by lia.
Qed.

(** The text behind a number does not go on with a digit. *)
Definition no_digit (b : Z) (s : list Z) : Prop := match s with [] => True | c :: _ => digit_val b c = None end.

Lemma scan_digits_chars b ds s : forall acc n, b <= 16 -> Forall (fun d => 0 <= d < b) ds -> no_digit b s ->
  scan_digits b acc n (map digit_char ds ++ s) = (value b ds acc, (n + length ds)%nat).
Proof.
  induction ds as [|d ds IH]; intros acc n Hb Hds Hs.
  - cbn. rewrite Nat.add_0_r. destruct s as [|c s]; [done|]. cbn in *. by rewrite Hs.
  - apply Forall_cons in Hds as [Hd Hds]. cbn. rewrite digit_val_char by done. rewrite IH by done.
    cbn. f_equal. lia.
Qed.

(** ** Numbers that were printed *)

Lemma fmt_u_nonempty b n : 1 < b -> 0 <= n < b ^ 64 -> exists d ds,
  digits 64 b n = d :: ds /\ 0 <= d < b /\ Forall (fun d => 0 <= d < b) ds /\ value b (d :: ds) 0 = n.
Proof.
  intros Hb Hn. pose proof (digits_range 64 b n Hb ltac:(lia)) as Hr.
  pose proof (digits_value 64 b n Hb Hn) as Hv. pose proof (digits_length 64 b 63 n Hb Hn ltac:(lia)) as Hl.
  destruct (digits 64 b n) as [|d ds]; [cbn in Hl; lia|]. apply Forall_cons in Hr as [Hd Hds]. exists d, ds. done.
Qed.

Lemma scan_int_digit b s c : 48 <= c <= 57 \/ 97 <= c <= 122 ->
  scan_int b (c :: s) = let r := scan_digits b 0 0 (c :: s) in (r.1, negb (Nat.eqb r.2 0)).
Proof.
  intros Hc. unfold scan_int. cbn [skip_space]. unfold isspace.
  replace ((c =? 32) || ((9 <=? c) && (c <=? 13))) with false by lia.
  destruct c as [|p|]; [lia| |lia]. repeat (destruct p as [p|p|]; try done; try lia).
Qed.

Lemma scan_int_chars b d ds s : b <= 16 -> 0 <= d < b -> Forall (fun d => 0 <= d < b) ds -> no_digit b s ->
  scan_int b (map digit_char (d :: ds) ++ s) = (value b (d :: ds) 0, true).
Proof.
  intros Hb Hd Hds Hs. cbn [map app]. rewrite scan_int_digit.
  2:{ unfold digit_char. destruct (Z.ltb_spec d 10); lia. }
  change (digit_char d :: map digit_char ds ++ s) with (map digit_char (d :: ds) ++ s).
  rewrite scan_digits_chars; [done|done|by constructor|done].
Qed.

(** A 64-bit signed number. *)
Definition in_long (z : Z) : Prop := LONG_MIN <= z <= LONG_MAX.

Lemma long_digits z : in_long z -> 0 <= Z.abs z < 10 ^ 64.
Proof. unfold in_long, LONG_MIN, LONG_MAX. intros Hz. assert (9223372036854775808 < 10 ^ 64) by done. lia. Qed.

Lemma scan_int_fmt_d z s : in_long z -> no_digit 10 s -> (scan_int 10 (fmt_d z ++ s)).1 = z.
Proof.
  intros Hz Hs. pose proof (long_digits z Hz) as Hd. unfold fmt_d, fmt_u. destruct (Z.ltb_spec z 0).
  - destruct (fmt_u_nonempty 10 (- z)) as (d & ds & -> & H1 & H2 & H3); [lia|lia|]. unfold scan_int. cbn [app skip_space].
    change (isspace 45) with false. cbv iota. rewrite scan_digits_chars; [|done|by constructor|done].
    cbn [fst]. rewrite H3. lia.
  - destruct (fmt_u_nonempty 10 z) as (d & ds & -> & H1 & H2 & H3); [lia|lia|]. by rewrite scan_int_chars.
Qed.

Lemma atol_fmt_d z s : in_long z -> no_digit 10 s -> atol (fmt_d z ++ s) = z.
Proof. intros Hz Hs. unfold atol. rewrite scan_int_fmt_d by done. unfold in_long in Hz. lia. Qed.

Lemma atol_fmt z : in_long z -> atol (fmt_d z) = z.
Proof. intros Hz. rewrite <-(app_nil_r (fmt_d z)). by apply atol_fmt_d. Qed.

Lemma atoi_fmt z : INT_MIN <= z <= INT_MAX -> atoi (fmt_d z) = z.
Proof.
  intros Hz. unfold atoi. rewrite atol_fmt; [by apply i32_id|].
  unfold in_long, LONG_MIN, LONG_MAX, INT_MIN, INT_MAX in *. lia.
Qed.

Lemma i16_id z : -32768 <= z < 32768 -> i16 z = z.
Proof. intros Hz. unfold i16. rewrite Z.mod_small; lia. Qed.

(** The characters of a printed number. *)
Definition num_char (c : Z) : Prop := c = 45 \/ 48 <= c <= 57 \/ 97 <= c <= 102.

Lemma fmt_u_chars b n : 1 < b <= 16 -> 0 <= n -> Forall num_char (fmt_u b n).
Proof.
  intros Hb Hn. unfold fmt_u. apply Forall_map. eapply Forall_impl; [apply digits_range; lia|].
  intros d Hd. unfold num_char, digit_char. cbn in Hd. destruct (Z.ltb_spec d 10); lia.
Qed.

Lemma fmt_d_chars z : Forall num_char (fmt_d z).
Proof.
  unfold fmt_d. destruct (Z.ltb_spec z 0); [constructor; [by left|]|]; apply fmt_u_chars; lia.
Qed.

Lemma fmt_d_length z : in_long z -> (1 <= length (fmt_d z) <= 20)%nat.
Proof.
  intros Hz. unfold fmt_d, fmt_u. assert (0 <= Z.abs z < 10 ^ Z.of_nat 19) as Hd.
  { unfold in_long, LONG_MIN, LONG_MAX in Hz. change (10 ^ Z.of_nat 19) with 10000000000000000000. lia. }
  pose proof (digits_length 64 10 18 (Z.abs z) ltac:(lia) Hd ltac:(lia)) as Hl.
  destruct (Z.ltb_spec z 0); cbn [length]; rewrite length_map;
    [replace (- z) with (Z.abs z) by lia|replace z with (Z.abs z) at 1 2 by lia]; lia.
Qed.

(** ** [%08lx] *)

Definition u32_range (z : Z) : Prop := 0 <= z < 4294967296.

(** Eight digits with leading zeros. *)
Definition hex8 (z : Z) : list Z := replicate (8 - length (digits 64 16 z)) 0 ++ digits 64 16 z.

Lemma fmt_08lx_hex8 z : fmt_08lx z = map digit_char (hex8 z).
Proof. unfold fmt_08lx, hex8, fmt_u. rewrite length_map, map_app. f_equal. symmetry. apply (fmap_replicate digit_char). Qed.

Lemma value_zeros b n ds : value b (replicate n 0 ++ ds) 0 = value b ds 0.
Proof. induction n as [|n IH]; [done|]. exact IH. Qed.

Lemma hex8_spec z : u32_range z ->
  length (hex8 z) = 8%nat /\ Forall (fun d => 0 <= d < 16) (hex8 z) /\ value 16 (hex8 z) 0 = z.
Proof.
  intros Hz. unfold u32_range in Hz. pose proof (digits_length 64 16 7 z ltac:(lia) Hz ltac:(lia)) as Hl.
  unfold hex8. split; [rewrite length_app, length_replicate; lia|]. split.
  - apply Forall_app. split; [apply Forall_replicate; lia|apply digits_range; lia].
  - rewrite value_zeros. apply digits_value; [lia|]. assert (4294967296 < 16 ^ Z.of_nat 64) by done. lia.
Qed.

Lemma value_app b ds ds' acc : value b (ds ++ ds') acc = value b ds' (value b ds acc).
Proof. apply fold_left_app. Qed.

Lemma value_acc b ds : forall acc, 0 < b -> Forall (fun d => 0 <= d < b) ds ->
  acc * b ^ Z.of_nat (length ds) <= value b ds acc < (acc + 1) * b ^ Z.of_nat (length ds).
Proof.
  induction ds as [|d ds IH]; intros acc Hb Hds; cbn [value fold_left length].
  - change (Z.of_nat 0) with 0. rewrite Z.pow_0_r. unfold value. cbn. lia.
  - apply Forall_cons in Hds as [Hd Hds]. specialize (IH (acc * b + d) Hb Hds). unfold value in IH.
    rewrite Nat2Z.inj_succ, Z.pow_succ_r by lia. pose proof (Z.pow_pos_nonneg b (Z.of_nat (length ds)) Hb ltac:(lia)).
    nia.
Qed.

(** What [sscanf] reads from hexadecimal digits. *)
Lemma sscanf_lx_digits ds : ds <> [] -> Forall (fun d => 0 <= d < 16) ds -> (length ds <= 8)%nat ->
  sscanf_lx (map digit_char ds) = Some (value 16 ds 0).
Proof.
  intros Hne Hds Hl. destruct ds as [|d ds]; [done|]. unfold sscanf_lx.
  assert (drop_0x (map digit_char (d :: ds)) = map digit_char (d :: ds)) as ->.
  { destruct ds as [|d1 ds]; [done|]. cbn [map drop_0x]. apply Forall_cons in Hds as [_ Hds].
    apply Forall_cons in Hds as [Hd1 _]. unfold digit_char at 2 3.
    destruct (Z.ltb_spec d1 10); [replace (_ && _) with false by lia|replace (_ && _) with false by lia]; done. }
  pose proof Hds as Hds0. apply Forall_cons in Hds as [Hd Hds].
  rewrite <-(app_nil_r (map digit_char (d :: ds))), scan_int_chars by done. cbn [fst snd].
  pose proof (value_acc 16 (d :: ds) 0 ltac:(lia) Hds0) as Hv.
  assert (16 ^ Z.of_nat (length (d :: ds)) <= 16 ^ 8) as Hp by (apply Z.pow_le_mono_r; lia).
  change (16 ^ 8) with 4294967296 in Hp. unfold ULONG_MAX, u64.
  replace (_ || _) with false by lia. rewrite Z.mod_small by lia. done.
Qed.

(** ** Splitting *)

Lemma split_at_char_app c a s : c ∉ a -> split_at_char c (a ++ c :: s) = Some (a, s).
Proof.
  induction a as [|x a IH]; intros Hc; cbn; [by rewrite Z.eqb_refl|].
  apply not_elem_of_cons in Hc as [Hx Hc]. rewrite (proj2 (Z.eqb_neq _ _)) by done. by rewrite IH.
Qed.

Lemma split_at_char_none c a : c ∉ a -> split_at_char c a = None.
Proof.
  induction a as [|x a IH]; intros Hc; cbn; [done|].
  apply not_elem_of_cons in Hc as [Hx Hc]. rewrite (proj2 (Z.eqb_neq _ _)) by done. by rewrite IH.
Qed.

Lemma skip_delim_other c x s : x <> c -> skip_delim c (x :: s) = x :: s.
Proof. intros Hx. cbn. by rewrite (proj2 (Z.eqb_neq _ _)). Qed.

Lemma strtok_app c tok s : tok <> [] -> c ∉ tok -> strtok c (tok ++ c :: s) = Some (tok, s).
Proof.
  intros Hne Hc. destruct tok as [|x tok]; [done|]. pose proof Hc as [Hx _]%not_elem_of_cons.
  unfold strtok. rewrite <-app_comm_cons, skip_delim_other by done.
  change (x :: tok ++ c :: s) with ((x :: tok) ++ c :: s). by rewrite split_at_char_app.
Qed.

Lemma strtok_last c tok : tok <> [] -> c ∉ tok -> strtok c tok = Some (tok, []).
Proof.
  intros Hne Hc. destruct tok as [|x tok]; [done|]. pose proof Hc as [Hx _]%not_elem_of_cons.
  unfold strtok. rewrite skip_delim_other by done. by rewrite split_at_char_none.
Qed.

Lemma num_char_notin c s : Forall num_char s -> ~ num_char c -> c ∉ s.
Proof. intros Hs Hc Hin. rewrite Forall_forall in Hs. by apply Hc, Hs. Qed.
