(* ===== verification/Base64.v ===== *)
(** * Base64

    [libnstd/exbase64.c]: the encoder and the decoder, with the standard alphabet
    and the one used for transaction ids.  Memory the result is written to is a
    list of bytes, with [None] for a write outside of it; the input is a list
    that holds exactly the bytes of its length. *)

From S2P Require Import Prelude.

(** The alphabets, by character code. *)
Definition M_encoding_table_xa : list Z :=
  [65; 66; 67; 68; 69; 70; 71; 72;
   73; 74; 75; 76; 77; 78; 79; 80;
   81; 82; 83; 84; 85; 86; 87; 88;
   89; 90; 97; 98; 99; 100; 101; 102;
   103; 104; 105; 106; 107; 108; 109; 110;
   111; 112; 113; 114; 115; 116; 117; 118;
   119; 120; 121; 122; 48; 49; 50; 51;
   52; 53; 54; 55; 56; 57; 43; 95].

Definition M_encoding_table_normal : list Z :=
  [65; 66; 67; 68; 69; 70; 71; 72;
   73; 74; 75; 76; 77; 78; 79; 80;
   81; 82; 83; 84; 85; 86; 87; 88;
   89; 90; 97; 98; 99; 100; 101; 102;
   103; 104; 105; 106; 107; 108; 109; 110;
   111; 112; 113; 114; 115; 116; 117; 118;
   119; 120; 121; 122; 48; 49; 50; 51;
   52; 53; 54; 55; 56; 57; 43; 47].

(** Zeros of a decoding table: characters outside the alphabet. *)
Definition blank (n : nat) : list Z := replicate n 0.

Definition M_decoding_table_xa : list Z :=
  blank 43 ++ [0x3e] ++ blank 4 ++ [0x34; 0x35; 0x36; 0x37; 0x38; 0x39; 0x3a; 0x3b; 0x3c; 0x3d] ++ blank 8 ++
  [0x01; 0x02; 0x03; 0x04; 0x05; 0x06; 0x07; 0x08; 0x09; 0x0a; 0x0b; 0x0c; 0x0d; 0x0e; 0x0f; 0x10; 0x11; 0x12;
   0x13; 0x14; 0x15; 0x16; 0x17; 0x18; 0x19] ++ blank 4 ++ [0x3f] ++ blank 1 ++
  [0x1a; 0x1b; 0x1c; 0x1d; 0x1e; 0x1f; 0x20; 0x21; 0x22; 0x23; 0x24; 0x25; 0x26; 0x27; 0x28; 0x29; 0x2a; 0x2b;
   0x2c; 0x2d; 0x2e; 0x2f; 0x30; 0x31; 0x32; 0x33] ++ blank 133.

Definition M_decoding_table_normal : list Z :=
  blank 43 ++ [0x3e] ++ blank 3 ++ [0x3f; 0x34; 0x35; 0x36; 0x37; 0x38; 0x39; 0x3a; 0x3b; 0x3c; 0x3d] ++ blank 8 ++
  [0x01; 0x02; 0x03; 0x04; 0x05; 0x06; 0x07; 0x08; 0x09; 0x0a; 0x0b; 0x0c; 0x0d; 0x0e; 0x0f; 0x10; 0x11; 0x12;
   0x13; 0x14; 0x15; 0x16; 0x17; 0x18; 0x19] ++ blank 6 ++
  [0x1a; 0x1b; 0x1c; 0x1d; 0x1e; 0x1f; 0x20; 0x21; 0x22; 0x23; 0x24; 0x25; 0x26; 0x27; 0x28; 0x29; 0x2a; 0x2b;
   0x2c; 0x2d; 0x2e; 0x2f; 0x30; 0x31; 0x32; 0x33] ++ blank 133.

Definition mod_table : list Z := [0; 2; 1].

Definition PAD : Z := 61. (* '=' *)

(** ** Encoding *)

(** [i < input_length ? data[i++] : 0], with the input from [i] on. *)
Definition octet (data : list Z) : Z * list Z := match data with [] => (0, []) | x :: l => (x, l) end.

Definition sextets (tbl : list Z) (a b c : Z) : list Z :=
  let triple := u32 (u32 (u32 (Z.shiftl a 16) + u32 (Z.shiftl b 8)) + c) in
  [at_ tbl (Z.land (Z.shiftr triple 18) 63); at_ tbl (Z.land (Z.shiftr triple 12) 63);
   at_ tbl (Z.land (Z.shiftr triple 6) 63); at_ tbl (Z.land (Z.shiftr triple 0) 63)].

Fixpoint encode_loop (fuel : nat) (tbl data : list Z) (j : Z) (out : list Z) : option (list Z) :=
  match fuel with
  | O => None
  | S fuel =>
      match data with
      | [] => Some out
      | _ =>
          let '(a, data) := octet data in
          let '(b, data) := octet data in
          let '(c, data) := octet data in
          out ← st_bytes out j (sextets tbl a b c);
          encode_loop fuel tbl data (j + 4) out
      end
  end.

(** [encoded_data[*output_length - 1 - i] = '='] for [i] from 0. *)
Fixpoint encode_pad (n : nat) (output_length i : Z) (out : list Z) : option (list Z) :=
  match n with
  | O => Some out
  | S n => out ← st_bytes out (output_length - 1 - i) [PAD]; encode_pad n output_length (i + 1) out
  end.

(** The new output length, or [NULL], and the memory.  The indices are [int]s. *)
Definition ndrx_b64encode (tbl data : list Z) (output_length : Z) (out : list Z) : option (option Z * list Z) :=
  let input_length := zlen data in
  let tmp_len := 4 * ((input_length + 2) / 3) in
  if (0 <? output_length) && (output_length <? tmp_len + 1) then Some (None, out)
  else if INT_MAX <? tmp_len then None
  else
    out ← encode_loop (S (length data)) tbl data 0 out;
    out ← encode_pad (Z.to_nat (at_ mod_table (input_length mod 3))) tmp_len 0 out;
    out ← st_bytes out tmp_len [0];
    Some (Some (tmp_len + 1), out).

Definition ndrx_xa_base64_encode := ndrx_b64encode M_encoding_table_xa.
Definition ndrx_base64_encode := ndrx_b64encode M_encoding_table_normal.

(** ** Decoding *)

Definition sextet (tbl : list Z) (c : Z) : Z := if c =? PAD then 0 else at_ tbl c.

(** A byte is stored while there is room for it in the result. *)
Definition put_byte (output_length : Z) (r : Z * list Z) (b : Z) : option (Z * list Z) :=
  if r.1 <? output_length then out ← st_bytes r.2 r.1 [b]; Some (r.1 + 1, out) else Some r.

Fixpoint decode_loop (tbl data : list Z) (output_length : Z) (r : Z * list Z) : option (Z * list Z) :=
  match data with
  | a :: b :: c :: d :: data =>
      let triple := u32 (u32 (u32 (u32 (Z.shiftl (sextet tbl a) 18) + u32 (Z.shiftl (sextet tbl b) 12)) +
                              u32 (Z.shiftl (sextet tbl c) 6)) + sextet tbl d) in
      r ← put_byte output_length r (Z.land (Z.shiftr triple 16) 255);
      r ← put_byte output_length r (Z.land (Z.shiftr triple 8) 255);
      r ← put_byte output_length r (Z.land (Z.shiftr triple 0) 255);
      decode_loop tbl data output_length r
  | _ => Some r
  end.

Definition ndrx_b64decode (tbl data : list Z) (output_length : Z) (out : list Z) : option (option Z * list Z) :=
  let input_length := zlen data in
  if negb (input_length mod 4 =? 0) then Some (None, out)
  else if input_length <=? 0 then Some (None, out)
  else
    let tmp_len := input_length / 4 * 3 in
    let tmp_len := if at_ data (input_length - 1) =? PAD then tmp_len - 1 else tmp_len in
    let tmp_len := if at_ data (input_length - 2) =? PAD then tmp_len - 1 else tmp_len in
    if (0 <? output_length) && (output_length <? tmp_len) then Some (None, out)
    else if INT_MAX <? input_length then None
    else
      r ← decode_loop tbl data tmp_len (0, out);
      Some (Some tmp_len, r.2).

Definition ndrx_xa_base64_decode := ndrx_b64decode M_decoding_table_xa.
Definition ndrx_base64_decode := ndrx_b64decode M_decoding_table_normal.

(** ** What is written *)

(** The text, with the last group padded by zero bits. *)
Fixpoint raw (tbl data : list Z) : list Z :=
  match data with
  | [] => []
  | [a] => sextets tbl a 0 0
  | [a; b] => sextets tbl a b 0
  | a :: b :: c :: l => sextets tbl a b c ++ raw tbl l
  end.

Fixpoint b64_text (tbl data : list Z) : list Z :=
  match data with
  | [] => []
  | [a] => take 2 (sextets tbl a 0 0) ++ [PAD; PAD]
  | [a; b] => take 3 (sextets tbl a b 0) ++ [PAD]
  | a :: b :: c :: l => sextets tbl a b c ++ b64_text tbl l
  end.

Lemma list_ind3 {A} (P : list A -> Prop) : P [] -> (forall a, P [a]) -> (forall a b, P [a; b]) ->
  (forall a b c l, P l -> P (a :: b :: c :: l)) -> forall l, P l.
Proof. intros H0 H1 H2 H3. refine (fix go l := _). destruct l as [|a [|b [|c l]]]; [done..|]. apply H3, go. Qed.

Definition b64_len (n : Z) : Z := 4 * ((n + 2) / 3).

Lemma b64_len_3 n : b64_len (1 + (1 + (1 + n))) = 4 + b64_len n.
Proof. unfold b64_len. replace (1 + (1 + (1 + n)) + 2) with (n + 2 + 1 * 3) by lia. rewrite Z.div_add by lia. lia. Qed.

Lemma zlen_sextets tbl a b c : zlen (sextets tbl a b c) = 4.
Proof. done. Qed.

Lemma zlen_raw tbl data : zlen (raw tbl data) = b64_len (zlen data).
Proof.
  induction data as [|a|a b|a b c l IH] using list_ind3; [done..|].
  cbn [raw]. rewrite !zlen_cons, b64_len_3, zlen_app, IH. done.
Qed.

Lemma zlen_b64_text tbl data : zlen (b64_text tbl data) = b64_len (zlen data).
Proof.
  induction data as [|a|a b|a b c l IH] using list_ind3; [done..|].
  cbn [b64_text]. rewrite !zlen_cons, b64_len_3, zlen_app, IH. done.
Qed.

Lemma b64_len_pos n : 0 <= n -> 0 <= b64_len n.
Proof. intros Hn. unfold b64_len. pose proof (Z.div_pos (n + 2) 3). lia. Qed.

Lemma encode_loop_spec tbl data : forall fuel a r c, (length data < fuel)%nat -> zlen r = b64_len (zlen data) ->
  encode_loop fuel tbl data (zlen a) (a ++ r ++ c) = Some (a ++ raw tbl data ++ c).
Proof.
  induction data as [|x|x y|x y z l IH] using list_ind3; intros [|fuel] a r c Hf Hr; try (cbn in Hf; lia); cbn [encode_loop octet raw].
  - apply zlen_0_inv in Hr as ->. done.
  - rewrite (st_bytes_at _ a r c); [|done|done|exact Hr]. cbn. destruct fuel; [cbn in Hf; lia|done].
  - rewrite (st_bytes_at _ a r c); [|done|done|exact Hr]. cbn. destruct fuel; [cbn in Hf; lia|done].
  - rewrite !zlen_cons, b64_len_3 in Hr. pose proof (b64_len_pos (zlen l) (zlen_nonneg l)).
    destruct (room_split 4 r) as (r1 & r2 & -> & H1); [lia|]. rewrite zlen_app in Hr.
    rewrite <-app_assoc, (st_bytes_at _ a r1 (r2 ++ c)); [|done|done|by rewrite H1]. cbn [mbind option_bind].
    replace (zlen a + 4) with (zlen (a ++ sextets tbl x y z)) by (rewrite zlen_app; done).
    rewrite app_assoc, IH; [by rewrite <-!app_assoc|cbn in Hf; lia|lia].
Qed.

Lemma encode_pad_spec tbl data : forall a c,
  encode_pad (Z.to_nat (at_ mod_table (zlen data mod 3))) (zlen a + b64_len (zlen data)) 0 (a ++ raw tbl data ++ c)
  = Some (a ++ b64_text tbl data ++ c).
Proof.
  induction data as [|x|x y|x y z l IH] using list_ind3; intros a c.
  - done.
  - cbn [raw b64_text]. unfold sextets. cbn [take app]. set (p := at_ tbl _). set (q := at_ tbl _). set (s := at_ tbl _).
    set (u := at_ tbl _). change (Z.to_nat (at_ mod_table (zlen [x] mod 3))) with 2%nat. change (b64_len (zlen [x])) with 4.
    cbn [encode_pad]. rewrite (st_bytes_at _ (a ++ [p; q; s]) [u] c); [|by rewrite <-app_assoc|zl|done]. cbn [mbind option_bind].
    rewrite (st_bytes_at _ (a ++ [p; q]) [s] (PAD :: c)); [|by rewrite <-!app_assoc|zl|done]. cbn. by rewrite <-app_assoc.
  - cbn [raw b64_text]. unfold sextets. cbn [take app]. set (p := at_ tbl _). set (q := at_ tbl _). set (s := at_ tbl _).
    set (u := at_ tbl _). change (Z.to_nat (at_ mod_table (zlen [x; y] mod 3))) with 1%nat. change (b64_len (zlen [x; y])) with 4.
    cbn [encode_pad]. rewrite (st_bytes_at _ (a ++ [p; q; s]) [u] c); [|by rewrite <-app_assoc|zl|done]. cbn. by rewrite <-app_assoc.
  - cbn [raw b64_text]. rewrite !zlen_cons, b64_len_3.
    replace ((1 + (1 + (1 + zlen l))) mod 3) with (zlen l mod 3) by (replace (1 + (1 + (1 + zlen l))) with (zlen l + 1 * 3) by lia; by rewrite Z.mod_add).
    replace (zlen a + (4 + b64_len (zlen l))) with (zlen (a ++ sextets tbl x y z) + b64_len (zlen l)) by (rewrite zlen_app, zlen_sextets; lia).
    rewrite <-(app_assoc (sextets tbl x y z)), (app_assoc a), IH. by rewrite <-!app_assoc.
Qed.

(** The encoder writes the text and its terminator, or refuses. *)
Lemma b64encode_spec tbl data olen out : b64_len (zlen data) <= INT_MAX ->
  (0 < olen < b64_len (zlen data) + 1 -> ndrx_b64encode tbl data olen out = Some (None, out)) /\
  (~ (0 < olen < b64_len (zlen data) + 1) -> b64_len (zlen data) + 1 <= zlen out ->
   exists rest, zlen rest = zlen out - (b64_len (zlen data) + 1) /\
     ndrx_b64encode tbl data olen out = Some (Some (b64_len (zlen data) + 1), b64_text tbl data ++ 0 :: rest)).
Proof.
  intros Hmax. unfold ndrx_b64encode. fold (b64_len (zlen data)). pose proof (b64_len_pos (zlen data) (zlen_nonneg data)). split.
  - intros [H1 H2]. by rewrite (proj2 (Z.ltb_lt _ _) H1), (proj2 (Z.ltb_lt _ _) H2).
  - intros Hn Hr. destruct ((0 <? olen) && (olen <? b64_len (zlen data) + 1)) eqn:Hc; [lia|].
    destruct (Z.ltb_spec INT_MAX (b64_len (zlen data))); [lia|].
    destruct (room_split (b64_len (zlen data)) out) as (r & c & -> & Hlr); [lia|]. rewrite zlen_app in Hr.
    destruct c as [|x c]; [rewrite zlen_nil in Hr; lia|]. exists c. rewrite zlen_app, zlen_cons. split; [lia|].
    rewrite (encode_loop_spec tbl data _ [] r (x :: c)) by (done || lia). cbn [mbind option_bind app].
    pose proof (encode_pad_spec tbl data [] (x :: c)) as Hp. rewrite zlen_nil, Z.add_0_l in Hp. cbn [app] in Hp.
    rewrite Hp. cbn [mbind option_bind].
    rewrite (st_bytes_at _ (b64_text tbl data) [x] c); [done|done|by rewrite zlen_b64_text|done].
Qed.

(** ** What is read back *)

(** Tables that belong together. *)
Definition inverse_tables (enc dec : list Z) : bool :=
  forallb (fun i => let c := at_ enc (Z.of_nat i) in
    (at_ dec c =? Z.of_nat i) && negb (c =? PAD) && (0 <? c) && (c <? 256)) (seq 0 64).

Lemma tables_xa : inverse_tables M_encoding_table_xa M_decoding_table_xa = true.
Proof. by vm_compute. Qed.

Lemma tables_normal : inverse_tables M_encoding_table_normal M_decoding_table_normal = true.
Proof. by vm_compute. Qed.

Section Inverse.

Variables enc dec : list Z.
Hypothesis Htables : inverse_tables enc dec = true.

Lemma table_entry i : 0 <= i < 64 -> at_ dec (at_ enc i) = i /\ at_ enc i <> PAD /\ 0 < at_ enc i < 256.
Proof.
  intros Hi. pose proof Htables as H. unfold inverse_tables in H. rewrite forallb_forall in H.
  specialize (H (Z.to_nat i)). cbv zeta in H. rewrite Z2Nat.id in H by lia.
  assert (In (Z.to_nat i) (seq 0 64)) as Hin by (apply in_seq; lia). apply H in Hin. lia.
Qed.

Lemma sextet_entry i : 0 <= i < 64 -> sextet dec (at_ enc i) = i.
Proof.
  intros Hi. destruct (table_entry i Hi) as (H1 & H2 & _). unfold sextet. by rewrite (proj2 (Z.eqb_neq _ _) H2).
Qed.

Lemma land_63 z : 0 <= Z.land z 63 < 64.
Proof. replace 63 with (Z.ones 6) by done. rewrite Z.land_ones by lia. apply Z.mod_pos_bound. lia. Qed.

(** The four groups of six bits make the three bytes. *)
Lemma triple_bits a b c : byte a -> byte b -> byte c ->
  let t := u32 (u32 (u32 (Z.shiftl a 16) + u32 (Z.shiftl b 8)) + c) in
  t = a * 65536 + b * 256 + c /\
  Z.land (Z.shiftr t 18) 63 = t / 262144 /\ Z.land (Z.shiftr t 12) 63 = t / 4096 mod 64 /\
  Z.land (Z.shiftr t 6) 63 = t / 64 mod 64 /\ Z.land (Z.shiftr t 0) 63 = t mod 64.
Proof.
  intros Ha Hb Hc. unfold byte in *. cbv zeta.
  assert (u32 (u32 (u32 (Z.shiftl a 16) + u32 (Z.shiftl b 8)) + c) = a * 65536 + b * 256 + c) as ->.
  { unfold u32. rewrite !Z.shiftl_mul_pow2 by lia. change (2 ^ 16) with 65536. change (2 ^ 8) with 256.
    rewrite (Z.mod_small (a * 65536)), (Z.mod_small (b * 256)) by lia. rewrite !Z.mod_small by (rewrite ?Z.mod_small by lia; lia). lia. }
  replace 63 with (Z.ones 6) by done. rewrite !Z.land_ones, !Z.shiftr_div_pow2 by lia.
  split; [done|]. change (2 ^ 18) with 262144. change (2 ^ 12) with 4096. change (2 ^ 6) with 64. change (2 ^ 0) with 1.
  rewrite Z.div_1_r. split; [|done]. apply Z.mod_small. split; [apply Z.div_pos; lia|]. apply Z.div_lt_upper_bound; lia.
Qed.

(** Three bytes from four groups, as many of them as were encoded. *)
Lemma decode_quad (sa sb sc sd : Z) : 0 <= sa < 64 -> 0 <= sb < 64 -> 0 <= sc < 64 -> 0 <= sd < 64 ->
  let t := u32 (u32 (u32 (u32 (Z.shiftl sa 18) + u32 (Z.shiftl sb 12)) + u32 (Z.shiftl sc 6)) + sd) in
  Z.land (Z.shiftr t 16) 255 = (sa * 64 + sb) / 16 /\ Z.land (Z.shiftr t 8) 255 = (sb * 64 + sc) / 4 mod 256 /\
  Z.land (Z.shiftr t 0) 255 = (sc * 64 + sd) mod 256.
Proof.
  intros Ha Hb Hc Hd. cbv zeta.
  assert (u32 (u32 (u32 (u32 (Z.shiftl sa 18) + u32 (Z.shiftl sb 12)) + u32 (Z.shiftl sc 6)) + sd)
    = sa * 262144 + sb * 4096 + sc * 64 + sd) as ->.
  { unfold u32. rewrite !Z.shiftl_mul_pow2 by lia. change (2 ^ 18) with 262144. change (2 ^ 12) with 4096.
    change (2 ^ 6) with 64. rewrite (Z.mod_small (sa * 262144)), (Z.mod_small (sb * 4096)), (Z.mod_small (sc * 64)) by lia.
    rewrite (Z.mod_small (sa * 262144 + sb * 4096)) by lia. rewrite !Z.mod_small by (rewrite ?Z.mod_small by lia; lia). lia. }
  replace 255 with (Z.ones 8) by done. rewrite !Z.land_ones, !Z.shiftr_div_pow2 by lia.
  change (2 ^ 16) with 65536. change (2 ^ 8) with 256. change (2 ^ 0) with 1. rewrite Z.div_1_r.
  split_and!; Z.to_euclidean_division_equations; lia.
Qed.

Lemma bytes_back a b c : byte a -> byte b -> byte c -> let t := a * 65536 + b * 256 + c in
  (t / 262144 * 64 + t / 4096 mod 64) / 16 = a /\ (t / 4096 mod 64 * 64 + t / 64 mod 64) / 4 mod 256 = b /\
  (t / 64 mod 64 * 64 + t mod 64) mod 256 = c /\
  0 <= t / 262144 < 64 /\ 0 <= t / 4096 mod 64 < 64 /\ 0 <= t / 64 mod 64 < 64 /\ 0 <= t mod 64 < 64.
Proof. unfold byte. cbv zeta. intros Ha Hb Hc. split_and!; Z.to_euclidean_division_equations; lia. Qed.

Lemma put_byte_in olen a x c b : zlen a < olen ->
  put_byte olen (zlen a, a ++ x :: c) b = Some (zlen (a ++ [b]), (a ++ [b]) ++ c).
Proof.
  intros Hl. unfold put_byte. cbn [fst snd]. rewrite (proj2 (Z.ltb_lt _ _) Hl), (st_bytes_at _ a [x] c) by done.
  cbn. by rewrite zlen_app, <-app_assoc.
Qed.

Lemma put_byte_full olen r b : olen <= r.1 -> put_byte olen r b = Some r.
Proof. intros Hl. unfold put_byte. by rewrite (proj2 (Z.ltb_ge _ _) Hl). Qed.

(** The groups of three bytes, as the decoder gets them. *)
Lemma sextets_back a b c : byte a -> byte b -> byte c -> exists sa sb sc sd,
  sextets enc a b c = [at_ enc sa; at_ enc sb; at_ enc sc; at_ enc sd] /\
  0 <= sa < 64 /\ 0 <= sb < 64 /\ 0 <= sc < 64 /\ 0 <= sd < 64 /\
  (sa * 64 + sb) / 16 = a /\ (sb * 64 + sc) / 4 mod 256 = b /\ (sc * 64 + sd) mod 256 = c.
Proof.
  intros Ha Hb Hc. unfold sextets. destruct (triple_bits a b c Ha Hb Hc) as (Ht & -> & -> & -> & ->). rewrite Ht.
  destruct (bytes_back a b c Ha Hb Hc) as (H1 & H2 & H3 & H4 & H5 & H6 & H7). eexists _, _, _, _. split; [done|]. done.
Qed.

Lemma decode_loop_spec data : Forall byte data -> forall a r c olen, zlen r = zlen data -> olen = zlen a + zlen data ->
  decode_loop dec (b64_text enc data) olen (zlen a, a ++ r ++ c) = Some (olen, a ++ data ++ c).
Proof.
  assert (byte 0) as H0 by by split.
  induction data as [|x|x y|x y z l IH] using list_ind3; intros Hb a r c olen Hr Ho; rewrite ?zlen_cons, ?zlen_nil in *.
  - apply zlen_0_inv in Hr as ->. cbn. by rewrite Z.add_0_r in Ho; subst.
  - destruct r as [|r0 [|]]; [done| |rewrite ?zlen_cons in Hr; pose proof (zlen_nonneg l); lia].
    inversion_clear Hb as [|? ? Hx _]. destruct (sextets_back x 0 0 Hx H0 H0) as (sa & sb & sc & sd & He & Ra & Rb & Rc & Rd & Ea & _).
    cbn [b64_text]. rewrite He. cbn [take app decode_loop]. rewrite !sextet_entry by done. change (sextet dec PAD) with 0.
    destruct (decode_quad sa sb 0 0) as (E1 & _ & _); [done..|]. cbv zeta. rewrite E1, Ea.
    rewrite put_byte_in by lia. cbn [mbind option_bind]. do 2 (rewrite put_byte_full by (cbn; rewrite zlen_app; zl); cbn [mbind option_bind]).
    cbn. rewrite zlen_app, <-app_assoc. subst. do 2 f_equal.
  - destruct r as [|r0 [|r1 [|]]]; [done|done| |rewrite ?zlen_cons in Hr; pose proof (zlen_nonneg l); lia].
    inversion_clear Hb as [|? ? Hx Hb']. inversion_clear Hb' as [|? ? Hy _].
    destruct (sextets_back x y 0 Hx Hy H0) as (sa & sb & sc & sd & He & Ra & Rb & Rc & Rd & Ea & Eb & _).
    cbn [b64_text]. rewrite He. cbn [take app decode_loop]. rewrite !sextet_entry by done. change (sextet dec PAD) with 0.
    destruct (decode_quad sa sb sc 0) as (E1 & E2 & _); [done..|]. cbv zeta. rewrite E1, E2, Ea, Eb.
    rewrite put_byte_in by lia. cbn [mbind option_bind]. rewrite put_byte_in by (rewrite zlen_app; zl). cbn [mbind option_bind].
    rewrite put_byte_full by (cbn; rewrite !zlen_app; zl). cbn. rewrite !zlen_app, <-!app_assoc. subst. do 2 f_equal. zl.
  - pose proof (zlen_nonneg l). destruct r as [|r0 [|r1 [|r2 r]]]; rewrite ?zlen_cons, ?zlen_nil in Hr; try lia.
    inversion_clear Hb as [|? ? Hx Hb']. inversion_clear Hb' as [|? ? Hy Hb'']. inversion_clear Hb'' as [|? ? Hz Hl].
    destruct (sextets_back x y z Hx Hy Hz) as (sa & sb & sc & sd & He & Ra & Rb & Rc & Rd & Ea & Eb & Ec).
    cbn [b64_text]. rewrite He. cbn [app decode_loop]. rewrite !sextet_entry by done.
    destruct (decode_quad sa sb sc sd) as (E1 & E2 & E3); [done..|]. cbv zeta. rewrite E1, E2, E3, Ea, Eb, Ec.
    rewrite put_byte_in by lia. cbn [mbind option_bind]. rewrite put_byte_in by (rewrite zlen_app; zl). cbn [mbind option_bind].
    rewrite put_byte_in by (rewrite !zlen_app; zl). cbn [mbind option_bind].
    rewrite (IH Hl) by (rewrite ?zlen_app; zl). by rewrite <-!app_assoc.
Qed.

Lemma text_all (P : Z -> Prop) data : P PAD -> (forall i, 0 <= i < 64 -> P (at_ enc i)) -> Forall P (b64_text enc data).
Proof.
  intros Hp He. assert (forall a b c, Forall P (sextets enc a b c)) as Hs.
  { intros a b c. unfold sextets. repeat constructor; apply He, land_63. }
  induction data as [|x|x y|x y z l IH] using list_ind3; cbn [b64_text]; [done|..]; apply Forall_app; (split; [|done || by repeat constructor]).
  - by apply Forall_take.
  - by apply Forall_take.
  - done.
Qed.

Lemma text_chars data : Forall (fun c => 0 < c < 256) (b64_text enc data).
Proof. apply text_all; [done|]. intros i Hi. by apply table_entry. Qed.

(** The last two characters tell the number of bytes. *)
Lemma text_end data : Forall byte data -> data <> [] -> exists p x y, b64_text enc data = p ++ [x; y] /\
  (y =? PAD) = negb (zlen data mod 3 =? 0) /\ (x =? PAD) = (zlen data mod 3 =? 1).
Proof.
  assert (byte 0) as H0 by by split.
  assert (forall i, 0 <= i < 64 -> (at_ enc i =? PAD) = false) as Hp.
  { intros i Hi. destruct (table_entry i Hi) as (_ & H & _). by apply Z.eqb_neq. }
  induction data as [|x|x y|x y z l IH] using list_ind3; intros Hb Hne; [done|..].
  - cbn [b64_text]. by eexists _, PAD, PAD.
  - inversion_clear Hb as [|? ? Hx Hb']. inversion_clear Hb' as [|? ? Hy _].
    destruct (sextets_back x y 0 Hx Hy H0) as (sa & sb & sc & sd & He & Ra & Rb & Rc & _).
    cbn [b64_text]. rewrite He. eexists [_; _], _, _. split; [done|]. split; [done|]. by rewrite Hp.
  - inversion_clear Hb as [|? ? Hx Hb']. inversion_clear Hb' as [|? ? Hy Hb'']. inversion_clear Hb'' as [|? ? Hz Hl].
    destruct (sextets_back x y z Hx Hy Hz) as (sa & sb & sc & sd & He & Ra & Rb & Rc & Rd & _).
    rewrite !zlen_cons. replace (1 + (1 + (1 + zlen l))) with (zlen l + 1 * 3) by lia. rewrite Z.mod_add by lia.
    cbn [b64_text]. rewrite He. destruct l as [|l0 l].
    + eexists [_; _], _, _. split; [done|]. rewrite !Hp by done. done.
    + destruct (IH Hl ltac:(done)) as (p & u & v & -> & H1 & H2). by eexists (_ :: _ :: _ :: _ :: p), u, v.
Qed.

Lemma at_end p x y : at_ (p ++ [x; y]) (zlen (p ++ [x; y]) - 1) = y /\ at_ (p ++ [x; y]) (zlen (p ++ [x; y]) - 2) = x.
Proof.
  unfold at_. rewrite zlen_app. change (zlen [x; y]) with 2. unfold zlen.
  replace (Z.to_nat (Z.of_nat (length p) + 2 - 1)) with (length p + 1)%nat by lia.
  replace (Z.to_nat (Z.of_nat (length p) + 2 - 2)) with (length p + 0)%nat by lia.
  rewrite !app_nth2 by lia. split; [by replace (length p + 1 - length p)%nat with 1%nat by lia|by replace (length p + 0 - length p)%nat with 0%nat by lia].
Qed.

Lemma text_len n : 0 < n -> b64_len n mod 4 = 0 /\
  b64_len n / 4 * 3 - (if n mod 3 =? 0 then 0 else 1) - (if n mod 3 =? 1 then 1 else 0) = n.
Proof.
  intros Hn. unfold b64_len. rewrite Z.mul_comm, Z.mod_mul, Z.div_mul by lia. split; [done|].
  destruct (Z.eqb_spec (n mod 3) 0), (Z.eqb_spec (n mod 3) 1); Z.to_euclidean_division_equations; lia.
Qed.

(** The decoder gives the bytes back. *)
Lemma b64decode_text data olen out : Forall byte data -> data <> [] -> b64_len (zlen data) <= INT_MAX ->
  olen = 0 \/ zlen data <= olen -> zlen data <= zlen out ->
  exists rest, zlen rest = zlen out - zlen data /\
    ndrx_b64decode dec (b64_text enc data) olen out = Some (Some (zlen data), data ++ rest).
Proof.
  intros Hb Hne Hmax Ho Hroom. assert (0 < zlen data) as Hpos by (destruct data; [done|zl]).
  destruct (room_split (zlen data) out) as (r & c & -> & Hr); [lia|]. exists c. rewrite zlen_app. split; [lia|].
  destruct (text_end data Hb Hne) as (p & x & y & Hp & Hy & Hx). destruct (text_len (zlen data) Hpos) as [Hm Hl].
  pose proof (at_end p x y) as [E1 E2]. rewrite <-Hp, zlen_b64_text in E1, E2.
  pose proof (b64_len_pos (zlen data)). assert (0 < b64_len (zlen data)) by (unfold b64_len; pose proof (Z.div_str_pos (zlen data + 2) 3); lia).
  unfold ndrx_b64decode. rewrite zlen_b64_text, Hm, E1, E2, Hx, Hy. cbn [Z.eqb negb].
  destruct (Z.leb_spec (b64_len (zlen data)) 0); [lia|]. cbv zeta.
  assert ((if zlen data mod 3 =? 1 then (if negb (zlen data mod 3 =? 0) then b64_len (zlen data) / 4 * 3 - 1
    else b64_len (zlen data) / 4 * 3) - 1 else (if negb (zlen data mod 3 =? 0) then b64_len (zlen data) / 4 * 3 - 1
    else b64_len (zlen data) / 4 * 3)) = zlen data) as ->.
  { destruct (zlen data mod 3 =? 0), (zlen data mod 3 =? 1); cbn [negb]; lia. }
  destruct ((0 <? olen) && (olen <? zlen data)) eqn:Hc; [lia|]. destruct (Z.ltb_spec INT_MAX (b64_len (zlen data))); [lia|].
  pose proof (decode_loop_spec data Hb [] r c (zlen data) Hr ltac:(done)) as Hd. cbn [app] in Hd. rewrite zlen_nil in Hd.
  rewrite Hd. done.
Qed.

End Inverse.

(** ** Theorems *)

(** Base64 is lossless: what either encoder makes of a non-empty sequence of
    bytes is a string its decoder turns back into these bytes; both write
    nothing but the result, wherever there is room for it. *)
Theorem base64_roundtrip (xa : bool) data out1 out2 :
  let encode := if xa then ndrx_xa_base64_encode else ndrx_base64_encode in
  let decode := if xa then ndrx_xa_base64_decode else ndrx_base64_decode in
  Forall byte data -> data <> [] -> b64_len (zlen data) <= INT_MAX ->
  b64_len (zlen data) + 1 <= zlen out1 -> zlen data <= zlen out2 ->
  exists text rest1 rest2, zlen text = b64_len (zlen data) /\ Forall byte text /\ nonul text /\
    encode data (zlen out1) out1 = Some (Some (zlen text + 1), text ++ 0 :: rest1) /\
    zlen rest1 = zlen out1 - (zlen text + 1) /\
    decode text (zlen out2) out2 = Some (Some (zlen data), data ++ rest2) /\ zlen rest2 = zlen out2 - zlen data.
Proof.
  intros encode decode Hb Hne Hmax H1 H2.
  assert (exists enc dec, inverse_tables enc dec = true /\ encode = ndrx_b64encode enc /\ decode = ndrx_b64decode dec)
    as (enc & dec & Ht & -> & ->).
  { subst encode decode. destruct xa; [exists M_encoding_table_xa, M_decoding_table_xa|exists M_encoding_table_normal, M_decoding_table_normal];
      (split; [apply tables_xa || apply tables_normal|done]). }
  pose proof (b64_len_pos (zlen data) (zlen_nonneg data)) as Hp.
  destruct (proj2 (b64encode_spec enc data (zlen out1) out1 Hmax)) as (r1 & Hr1 & He); [lia|lia|].
  destruct (b64decode_text enc dec Ht data (zlen out2) out2 Hb Hne Hmax) as (r2 & Hr2 & Hd); [lia|lia|].
  exists (b64_text enc data), r1, r2. rewrite zlen_b64_text.
  pose proof (text_chars enc dec Ht data) as Hc. split_and!; try done; (eapply Forall_impl; [exact Hc|]); unfold byte; intros c ?; lia.
Qed.

Lemma list_ind4 {A} (P : list A -> Prop) : (forall l, (length l < 4)%nat -> P l) ->
  (forall a b c d l, P l -> P (a :: b :: c :: d :: l)) -> forall l, P l.
Proof.
  intros H0 H4. refine (fix go l := _). destruct l as [|a [|b [|c [|d l]]]]; [apply H0; cbn; lia..|]. apply H4, go.
Qed.

Lemma put_byte_safe olen j m c b : 0 <= j <= olen -> zlen m = olen ->
  exists j' m', put_byte olen (j, m ++ c) b = Some (j', m' ++ c) /\ 0 <= j' <= olen /\ zlen m' = olen.
Proof.
  intros Hj Hm. unfold put_byte. cbn [fst snd]. destruct (Z.ltb_spec j olen) as [Hl|]; [|by exists j, m].
  destruct (split_at m j 1) as (a & x & d & -> & Ha & Hx); [lia..|]. exists (j + 1), (a ++ [b] ++ d).
  rewrite (st_bytes_at _ a x (d ++ c)); [|by rewrite <-!app_assoc|done|by rewrite Hx]. cbn.
  rewrite <-app_assoc. split; [done|]. split; [lia|]. rewrite !zlen_app in *. change (zlen [b]) with 1. rewrite zlen_cons. lia.
Qed.

Lemma decode_loop_safe tbl olen c data : forall j m, 0 <= j <= olen -> zlen m = olen ->
  exists j' m', decode_loop tbl data olen (j, m ++ c) = Some (j', m' ++ c) /\ zlen m' = olen.
Proof.
  induction data as [l Hl|a b cc d l IH] using list_ind4; intros j m Hj Hm.
  - exists j, m. split; [|done]. destruct l as [|? [|? [|? [|]]]]; [done..|cbn in Hl; lia].
  - cbn [decode_loop]. cbv zeta. set (t := u32 _).
    destruct (put_byte_safe olen j m c (Z.land (Z.shiftr t 16) 255) Hj Hm) as (j1 & m1 & -> & Hj1 & Hm1). cbn [mbind option_bind].
    destruct (put_byte_safe olen j1 m1 c (Z.land (Z.shiftr t 8) 255) Hj1 Hm1) as (j2 & m2 & -> & Hj2 & Hm2). cbn [mbind option_bind].
    destruct (put_byte_safe olen j2 m2 c (Z.land (Z.shiftr t 0) 255) Hj2 Hm2) as (j3 & m3 & -> & Hj3 & Hm3). cbn [mbind option_bind].
    by apply IH.
Qed.

(** The decoder stays inside its output whatever it is given: for any input
    of less than 2^31 bytes, well formed or not, and an output of the announced
    size, it refuses and leaves the output alone, or writes no further than the
    length it reports. *)
Theorem base64_decode_safe tbl data out : zlen data <= INT_MAX -> out <> [] ->
  ndrx_b64decode tbl data (zlen out) out = Some (None, out) \/
  exists n m m' c, ndrx_b64decode tbl data (zlen out) out = Some (Some n, m' ++ c) /\
    out = m ++ c /\ zlen m = n /\ zlen m' = n.
Proof.
  intros Hmax Hne. assert (0 < zlen out) as Ho by (destruct out; [done|zl]). unfold ndrx_b64decode.
  destruct (negb _) eqn:Hm; [by left|]. destruct (Z.leb_spec (zlen data) 0) as [|Hd]; [by left|]. cbv zeta.
  set (t := if at_ data (zlen data - 2) =? PAD then _ else _). assert (1 <= t) as Ht.
  { assert (1 <= zlen data / 4) as H4 by (Z.to_euclidean_division_equations; lia).
    subst t. repeat destruct (_ =? _); lia. }
  destruct (Z.ltb_spec 0 (zlen out)); [|lia]. cbn [andb]. destruct (Z.ltb_spec (zlen out) t); [by left|].
  destruct (Z.ltb_spec INT_MAX (zlen data)); [lia|]. destruct (room_split t out) as (m & c & -> & Hmt); [lia|].
  destruct (decode_loop_safe tbl t c data 0 m ltac:(lia) Hmt) as (j & m' & -> & Hm'). right. by exists t, m, m', c.
Qed.

(** ** An example *)

Module Base64Demo.

Definition hello : list Z := [72; 101; 108; 108; 111].
Definition room (n : nat) : list Z := replicate n 170.

Lemma base64_roundtrip_witness : exists text rest1 rest2, zlen text = 8 /\ Forall byte text /\ nonul text /\
  ndrx_base64_encode hello (zlen (room 12)) (room 12) = Some (Some (zlen text + 1), text ++ 0 :: rest1) /\
  zlen rest1 = zlen (room 12) - (zlen text + 1) /\
  ndrx_base64_decode text (zlen (room 6)) (room 6) = Some (Some (zlen hello), hello ++ rest2) /\
  zlen rest2 = zlen (room 6) - zlen hello.
Proof. apply (base64_roundtrip false hello (room 12) (room 6)); [by repeat constructor|done|by vm_compute..]. Defined.

Lemma base64_decode_safe_witness :
  ndrx_b64decode M_decoding_table_normal [61; 65; 61; 61] (zlen (room 2)) (room 2) = Some (None, room 2) \/
  exists n m m' c, ndrx_b64decode M_decoding_table_normal [61; 65; 61; 61] (zlen (room 2)) (room 2) = Some (Some n, m' ++ c) /\
    room 2 = m ++ c /\ zlen m = n /\ zlen m' = n.
Proof. apply (base64_decode_safe M_decoding_table_normal [61; 65; 61; 61] (room 2)); [by vm_compute|done]. Defined.

(** Nothing can be decoded to the empty sequence, though it can be encoded. *)
Lemma empty_not_decoded : exists out, ndrx_base64_encode [] 4 (room 4) = Some (Some 1, 0 :: out) /\
  ndrx_base64_decode [] 4 (room 4) = Some (None, room 4).
Proof. eexists. by split. Qed.

End Base64Demo.
