(* ===== verification/Aes.v ===== *)
(** * AES-128

    The block cipher of [libnstd/exaes.c] with its 128-bit key, and the CBC mode
    over buffers.  The state is the list of the 16 bytes of [state_t], column
    [i] and row [j] at index [4 * i + j]. *)

From Stdlib Require Import Btauto.
From S2P Require Import Prelude.

Definition sbox : list Z :=
  [0x63; 0x7c; 0x77; 0x7b; 0xf2; 0x6b; 0x6f; 0xc5; 0x30; 0x01; 0x67; 0x2b; 0xfe; 0xd7; 0xab; 0x76;
   0xca; 0x82; 0xc9; 0x7d; 0xfa; 0x59; 0x47; 0xf0; 0xad; 0xd4; 0xa2; 0xaf; 0x9c; 0xa4; 0x72; 0xc0;
   0xb7; 0xfd; 0x93; 0x26; 0x36; 0x3f; 0xf7; 0xcc; 0x34; 0xa5; 0xe5; 0xf1; 0x71; 0xd8; 0x31; 0x15;
   0x04; 0xc7; 0x23; 0xc3; 0x18; 0x96; 0x05; 0x9a; 0x07; 0x12; 0x80; 0xe2; 0xeb; 0x27; 0xb2; 0x75;
   0x09; 0x83; 0x2c; 0x1a; 0x1b; 0x6e; 0x5a; 0xa0; 0x52; 0x3b; 0xd6; 0xb3; 0x29; 0xe3; 0x2f; 0x84;
   0x53; 0xd1; 0x00; 0xed; 0x20; 0xfc; 0xb1; 0x5b; 0x6a; 0xcb; 0xbe; 0x39; 0x4a; 0x4c; 0x58; 0xcf;
   0xd0; 0xef; 0xaa; 0xfb; 0x43; 0x4d; 0x33; 0x85; 0x45; 0xf9; 0x02; 0x7f; 0x50; 0x3c; 0x9f; 0xa8;
   0x51; 0xa3; 0x40; 0x8f; 0x92; 0x9d; 0x38; 0xf5; 0xbc; 0xb6; 0xda; 0x21; 0x10; 0xff; 0xf3; 0xd2;
   0xcd; 0x0c; 0x13; 0xec; 0x5f; 0x97; 0x44; 0x17; 0xc4; 0xa7; 0x7e; 0x3d; 0x64; 0x5d; 0x19; 0x73;
   0x60; 0x81; 0x4f; 0xdc; 0x22; 0x2a; 0x90; 0x88; 0x46; 0xee; 0xb8; 0x14; 0xde; 0x5e; 0x0b; 0xdb;
   0xe0; 0x32; 0x3a; 0x0a; 0x49; 0x06; 0x24; 0x5c; 0xc2; 0xd3; 0xac; 0x62; 0x91; 0x95; 0xe4; 0x79;
   0xe7; 0xc8; 0x37; 0x6d; 0x8d; 0xd5; 0x4e; 0xa9; 0x6c; 0x56; 0xf4; 0xea; 0x65; 0x7a; 0xae; 0x08;
   0xba; 0x78; 0x25; 0x2e; 0x1c; 0xa6; 0xb4; 0xc6; 0xe8; 0xdd; 0x74; 0x1f; 0x4b; 0xbd; 0x8b; 0x8a;
   0x70; 0x3e; 0xb5; 0x66; 0x48; 0x03; 0xf6; 0x0e; 0x61; 0x35; 0x57; 0xb9; 0x86; 0xc1; 0x1d; 0x9e;
   0xe1; 0xf8; 0x98; 0x11; 0x69; 0xd9; 0x8e; 0x94; 0x9b; 0x1e; 0x87; 0xe9; 0xce; 0x55; 0x28; 0xdf;
   0x8c; 0xa1; 0x89; 0x0d; 0xbf; 0xe6; 0x42; 0x68; 0x41; 0x99; 0x2d; 0x0f; 0xb0; 0x54; 0xbb; 0x16].

Definition rsbox : list Z :=
  [0x52; 0x09; 0x6a; 0xd5; 0x30; 0x36; 0xa5; 0x38; 0xbf; 0x40; 0xa3; 0x9e; 0x81; 0xf3; 0xd7; 0xfb;
   0x7c; 0xe3; 0x39; 0x82; 0x9b; 0x2f; 0xff; 0x87; 0x34; 0x8e; 0x43; 0x44; 0xc4; 0xde; 0xe9; 0xcb;
   0x54; 0x7b; 0x94; 0x32; 0xa6; 0xc2; 0x23; 0x3d; 0xee; 0x4c; 0x95; 0x0b; 0x42; 0xfa; 0xc3; 0x4e;
   0x08; 0x2e; 0xa1; 0x66; 0x28; 0xd9; 0x24; 0xb2; 0x76; 0x5b; 0xa2; 0x49; 0x6d; 0x8b; 0xd1; 0x25;
   0x72; 0xf8; 0xf6; 0x64; 0x86; 0x68; 0x98; 0x16; 0xd4; 0xa4; 0x5c; 0xcc; 0x5d; 0x65; 0xb6; 0x92;
   0x6c; 0x70; 0x48; 0x50; 0xfd; 0xed; 0xb9; 0xda; 0x5e; 0x15; 0x46; 0x57; 0xa7; 0x8d; 0x9d; 0x84;
   0x90; 0xd8; 0xab; 0x00; 0x8c; 0xbc; 0xd3; 0x0a; 0xf7; 0xe4; 0x58; 0x05; 0xb8; 0xb3; 0x45; 0x06;
   0xd0; 0x2c; 0x1e; 0x8f; 0xca; 0x3f; 0x0f; 0x02; 0xc1; 0xaf; 0xbd; 0x03; 0x01; 0x13; 0x8a; 0x6b;
   0x3a; 0x91; 0x11; 0x41; 0x4f; 0x67; 0xdc; 0xea; 0x97; 0xf2; 0xcf; 0xce; 0xf0; 0xb4; 0xe6; 0x73;
   0x96; 0xac; 0x74; 0x22; 0xe7; 0xad; 0x35; 0x85; 0xe2; 0xf9; 0x37; 0xe8; 0x1c; 0x75; 0xdf; 0x6e;
   0x47; 0xf1; 0x1a; 0x71; 0x1d; 0x29; 0xc5; 0x89; 0x6f; 0xb7; 0x62; 0x0e; 0xaa; 0x18; 0xbe; 0x1b;
   0xfc; 0x56; 0x3e; 0x4b; 0xc6; 0xd2; 0x79; 0x20; 0x9a; 0xdb; 0xc0; 0xfe; 0x78; 0xcd; 0x5a; 0xf4;
   0x1f; 0xdd; 0xa8; 0x33; 0x88; 0x07; 0xc7; 0x31; 0xb1; 0x12; 0x10; 0x59; 0x27; 0x80; 0xec; 0x5f;
   0x60; 0x51; 0x7f; 0xa9; 0x19; 0xb5; 0x4a; 0x0d; 0x2d; 0xe5; 0x7a; 0x9f; 0x93; 0xc9; 0x9c; 0xef;
   0xa0; 0xe0; 0x3b; 0x4d; 0xae; 0x2a; 0xf5; 0xb0; 0xc8; 0xeb; 0xbb; 0x3c; 0x83; 0x53; 0x99; 0x61;
   0x17; 0x2b; 0x04; 0x7e; 0xba; 0x77; 0xd6; 0x26; 0xe1; 0x69; 0x14; 0x63; 0x55; 0x21; 0x0c; 0x7d].

Definition Rcon : list Z := [0x8d; 0x01; 0x02; 0x04; 0x08; 0x10; 0x20; 0x40; 0x80; 0x1b; 0x36].

Definition Nr : Z := 10.
Definition BLOCKLEN : Z := 16.

Definition getSBoxValue (num : Z) : Z := at_ sbox num.
Definition getSBoxInvert (num : Z) : Z := at_ rsbox num.

(** ** The state *)

Fixpoint upd (l : list Z) (n : nat) (v : Z) : list Z :=
  match l, n with
  | [], _ => []
  | _ :: l, O => v :: l
  | x :: l, S n => x :: upd l n v
  end.

Definition get (s : list Z) (i j : Z) : Z := at_ s (4 * i + j).
Definition set (s : list Z) (i j v : Z) : list Z := upd s (Z.to_nat (4 * i + j)) v.

(** [for (i = 0; i < 4; ++i) for (j = 0; j < 4; ++j)] *)
Definition ij : list (Z * Z) := list_prod [0; 1; 2; 3] [0; 1; 2; 3].

(** ** Keys *)

(** The words of the round key, [i] of them so far. *)
Definition key_word (i : Z) (RoundKey : list Z) : list Z :=
  let prev k := at_ RoundKey ((i - 1) * 4 + k) in
  let tempa :=
    if i mod 4 =? 0
    then [Z.lxor (getSBoxValue (prev 1)) (at_ Rcon (i / 4)); getSBoxValue (prev 2); getSBoxValue (prev 3); getSBoxValue (prev 0)]
    else [prev 0; prev 1; prev 2; prev 3] in
  map (fun k => Z.lxor (at_ RoundKey ((i - 4) * 4 + k)) (at_ tempa k)) [0; 1; 2; 3].

Fixpoint key_loop (n : nat) (i : Z) (RoundKey : list Z) : list Z :=
  match n with
  | O => RoundKey
  | S n => key_loop n (i + 1) (RoundKey ++ key_word i RoundKey)
  end.

(** The key is read as 16 bytes. *)
Definition KeyExpansion (Key : list Z) : option (list Z) :=
  k ← ld_bytes Key 0 16; Some (key_loop 40 4 k).

(** ** Rounds *)

Definition AddRoundKey (RoundKey : list Z) (round : Z) (s : list Z) : list Z :=
  fold_left (fun s x => set s x.1 x.2 (Z.lxor (get s x.1 x.2) (at_ RoundKey (round * 4 * 4 + x.1 * 4 + x.2)))) ij s.

Definition SubBytes (s : list Z) : list Z :=
  fold_left (fun s x => set s x.2 x.1 (getSBoxValue (get s x.2 x.1))) ij s.

Definition ShiftRows (s : list Z) : list Z :=
  let temp := get s 0 1 in
  let s := set s 0 1 (get s 1 1) in
  let s := set s 1 1 (get s 2 1) in
  let s := set s 2 1 (get s 3 1) in
  let s := set s 3 1 temp in
  let temp := get s 0 2 in
  let s := set s 0 2 (get s 2 2) in
  let s := set s 2 2 temp in
  let temp := get s 1 2 in
  let s := set s 1 2 (get s 3 2) in
  let s := set s 3 2 temp in
  let temp := get s 0 3 in
  let s := set s 0 3 (get s 3 3) in
  let s := set s 3 3 (get s 2 3) in
  let s := set s 2 3 (get s 1 3) in
  set s 1 3 temp.

Definition u8 (z : Z) : Z := z mod 256.

Definition xtime (x : Z) : Z := u8 (Z.lxor (Z.shiftl x 1) (Z.land (Z.shiftr x 7) 1 * 0x1b)).

(** [x ^= y] on the state. *)
Definition xor_to (s : list Z) (i j y : Z) : list Z := set s i j (Z.lxor (get s i j) y).

Definition mix_column (s : list Z) (i : Z) : list Z :=
  let t := get s i 0 in
  let Tmp := Z.lxor (Z.lxor (Z.lxor (get s i 0) (get s i 1)) (get s i 2)) (get s i 3) in
  let s := xor_to s i 0 (Z.lxor (xtime (Z.lxor (get s i 0) (get s i 1))) Tmp) in
  let s := xor_to s i 1 (Z.lxor (xtime (Z.lxor (get s i 1) (get s i 2))) Tmp) in
  let s := xor_to s i 2 (Z.lxor (xtime (Z.lxor (get s i 2) (get s i 3))) Tmp) in
  xor_to s i 3 (Z.lxor (xtime (Z.lxor (get s i 3) t)) Tmp).

Definition MixColumns (s : list Z) : list Z := fold_left mix_column [0; 1; 2; 3] s.

Definition Multiply (x y : Z) : Z :=
  Z.lxor (Z.lxor (Z.lxor (Z.lxor (Z.land y 1 * x) (Z.land (Z.shiftr y 1) 1 * xtime x))
    (Z.land (Z.shiftr y 2) 1 * xtime (xtime x))) (Z.land (Z.shiftr y 3) 1 * xtime (xtime (xtime x))))
    (Z.land (Z.shiftr y 4) 1 * xtime (xtime (xtime (xtime x)))).

Definition xor4 (a b c d : Z) : Z := Z.lxor (Z.lxor (Z.lxor a b) c) d.

Definition inv_mix_column (s : list Z) (i : Z) : list Z :=
  let a := get s i 0 in
  let b := get s i 1 in
  let c := get s i 2 in
  let d := get s i 3 in
  let s := set s i 0 (xor4 (Multiply a 0x0e) (Multiply b 0x0b) (Multiply c 0x0d) (Multiply d 0x09)) in
  let s := set s i 1 (xor4 (Multiply a 0x09) (Multiply b 0x0e) (Multiply c 0x0b) (Multiply d 0x0d)) in
  let s := set s i 2 (xor4 (Multiply a 0x0d) (Multiply b 0x09) (Multiply c 0x0e) (Multiply d 0x0b)) in
  set s i 3 (xor4 (Multiply a 0x0b) (Multiply b 0x0d) (Multiply c 0x09) (Multiply d 0x0e)).

Definition InvMixColumns (s : list Z) : list Z := fold_left inv_mix_column [0; 1; 2; 3] s.

Definition InvSubBytes (s : list Z) : list Z :=
  fold_left (fun s x => set s x.2 x.1 (getSBoxInvert (get s x.2 x.1))) ij s.

Definition InvShiftRows (s : list Z) : list Z :=
  let temp := get s 3 1 in
  let s := set s 3 1 (get s 2 1) in
  let s := set s 2 1 (get s 1 1) in
  let s := set s 1 1 (get s 0 1) in
  let s := set s 0 1 temp in
  let temp := get s 0 2 in
  let s := set s 0 2 (get s 2 2) in
  let s := set s 2 2 temp in
  let temp := get s 1 2 in
  let s := set s 1 2 (get s 3 2) in
  let s := set s 3 2 temp in
  let temp := get s 0 3 in
  let s := set s 0 3 (get s 1 3) in
  let s := set s 1 3 (get s 2 3) in
  let s := set s 2 3 (get s 3 3) in
  set s 3 3 temp.

(** [n] rounds from [round] on, and from [n] down to 1. *)
Fixpoint rounds_up (body : Z -> list Z -> list Z) (n : nat) (round : Z) (s : list Z) : list Z :=
  match n with
  | O => s
  | S n => rounds_up body n (round + 1) (body round s)
  end.

Fixpoint rounds_down (body : Z -> list Z -> list Z) (n : nat) (s : list Z) : list Z :=
  match n with
  | O => s
  | S n' => rounds_down body n' (body (Z.of_nat n) s)
  end.

Definition cipher_round (rk : list Z) (round : Z) (s : list Z) : list Z :=
  AddRoundKey rk round (MixColumns (ShiftRows (SubBytes s))).

Definition Cipher (rk s : list Z) : list Z :=
  let s := AddRoundKey rk 0 s in
  let s := rounds_up (cipher_round rk) (Z.to_nat (Nr - 1)) 1 s in
  AddRoundKey rk Nr (ShiftRows (SubBytes s)).

Definition inv_cipher_round (rk : list Z) (round : Z) (s : list Z) : list Z :=
  InvMixColumns (AddRoundKey rk round (InvSubBytes (InvShiftRows s))).

Definition InvCipher (rk s : list Z) : list Z :=
  let s := AddRoundKey rk Nr s in
  let s := rounds_down (inv_cipher_round rk) (Z.to_nat (Nr - 1)) s in
  AddRoundKey rk 0 (InvSubBytes (InvShiftRows s)).

(** ** CBC mode *)

Definition XorWithIv (buf Iv : list Z) : list Z :=
  map (fun i => Z.lxor (at_ buf (Z.of_nat i)) (at_ Iv (Z.of_nat i))) (seq 0 16).

(** A block, copied to the output and worked on there. *)
Definition encrypt_block (rk Iv b : list Z) : list Z := Cipher rk (XorWithIv b Iv).
Definition decrypt_block (rk Iv b : list Z) : list Z := XorWithIv (InvCipher rk b) Iv.

(** [n] blocks from offset [off] on; the output and the vector for the next. *)
Fixpoint cbc_encrypt_loop (n : nat) (rk Iv output input : list Z) (off : Z) : option (list Z * list Z) :=
  match n with
  | O => Some (output, Iv)
  | S n =>
      b ← ld_bytes input off BLOCKLEN;
      let c := encrypt_block rk Iv b in
      output ← st_bytes output off c;
      cbc_encrypt_loop n rk c output input (off + BLOCKLEN)
  end.

Definition EXAES_CBC_encrypt_buffer (output input : list Z) (length : Z) (key iv : list Z) : option (list Z) :=
  let extra := length mod BLOCKLEN in
  rk ← KeyExpansion key;
  r ← cbc_encrypt_loop (Z.to_nat ((length - extra) / BLOCKLEN)) rk iv output input 0;
  if extra =? 0 then Some r.1
  else
    b ← ld_bytes input (length - extra) extra;
    st_bytes r.1 (length - extra)
      (encrypt_block rk r.2 (b ++ replicate (Z.to_nat (BLOCKLEN - extra)) 0)).

Fixpoint cbc_decrypt_loop (n : nat) (rk Iv output input : list Z) (off : Z) : option (list Z) :=
  match n with
  | O => Some output
  | S n =>
      b ← ld_bytes input off BLOCKLEN;
      output ← st_bytes output off (decrypt_block rk Iv b);
      cbc_decrypt_loop n rk b output input (off + BLOCKLEN)
  end.

(** The loop also covers a last block that is not full; what follows works on
    the memory behind it. *)
Definition EXAES_CBC_decrypt_buffer (output input : list Z) (length : Z) (key iv : list Z) : option (list Z) :=
  let extra := length mod BLOCKLEN in
  rk ← KeyExpansion key;
  let n := (length + BLOCKLEN - 1) / BLOCKLEN in
  output ← cbc_decrypt_loop (Z.to_nat n) rk iv output input 0;
  if extra =? 0 then Some output
  else
    b ← ld_bytes input (n * BLOCKLEN) extra;
    output ← st_bytes output (n * BLOCKLEN) b;
    b ← ld_bytes output (n * BLOCKLEN) BLOCKLEN;
    st_bytes output (n * BLOCKLEN) (InvCipher rk b).

Definition EXAES_ECB_encrypt (input key output : list Z) (length : Z) : option (list Z) :=
  b ← ld_bytes input 0 length;
  output ← st_bytes output 0 b;
  rk ← KeyExpansion key;
  b ← ld_bytes output 0 BLOCKLEN;
  st_bytes output 0 (Cipher rk b).

Definition EXAES_ECB_decrypt (input key output : list Z) (length : Z) : option (list Z) :=
  b ← ld_bytes input 0 length;
  output ← st_bytes output 0 b;
  rk ← KeyExpansion key;
  b ← ld_bytes output 0 BLOCKLEN;
  st_bytes output 0 (InvCipher rk b).

(** ** Each step has its inverse *)

(** A block of 16 bytes. *)
Definition block (s : list Z) : Prop := length s = 16%nat /\ Forall byte s.

Ltac sixteen s :=
  do 16 (let x := fresh "x" in destruct s as [|x s]; [discriminate|]); destruct s; [|discriminate].

Lemma at_byte l i : Forall byte l -> byte (at_ l i).
Proof.
  intros Hl. unfold at_. destruct (nth_in_or_default (Z.to_nat i) l 0) as [Hin| ->]; [|by split].
  rewrite Forall_forall in Hl. apply Hl. by apply list_elem_of_In.
Qed.

Lemma SubBytes_map s : length s = 16%nat -> SubBytes s = map getSBoxValue s.
Proof. intros Hs. sixteen s. reflexivity. Qed.

Lemma InvSubBytes_map s : length s = 16%nat -> InvSubBytes s = map getSBoxInvert s.
Proof. intros Hs. sixteen s. reflexivity. Qed.

Lemma AddRoundKey_zip rk r s : length s = 16%nat ->
  AddRoundKey rk r s = zip_with Z.lxor s (map (fun x => at_ rk (r * 4 * 4 + x.1 * 4 + x.2)) ij).
Proof. intros Hs. sixteen s. reflexivity. Qed.

Lemma ShiftRows_inverse s : length s = 16%nat -> InvShiftRows (ShiftRows s) = s.
Proof. intros Hs. sixteen s. reflexivity. Qed.

Lemma sboxes : forallb (fun i => (at_ rsbox (at_ sbox (Z.of_nat i)) =? Z.of_nat i) &&
  (0 <=? at_ sbox (Z.of_nat i)) && (at_ sbox (Z.of_nat i) <? 256)) (seq 0 256) = true.
Proof. by vm_compute. Qed.

Lemma sbox_inverse b : byte b -> getSBoxInvert (getSBoxValue b) = b /\ byte (getSBoxValue b).
Proof.
  intros Hb. pose proof sboxes as H. rewrite forallb_forall in H. specialize (H (Z.to_nat b)). cbv beta in H.
  unfold byte in Hb. rewrite Z2Nat.id in H by lia. assert (In (Z.to_nat b) (seq 0 256)) as Hin by (apply in_seq; lia).
  apply H in Hin. unfold getSBoxInvert, getSBoxValue, byte. lia.
Qed.

Lemma SubBytes_inverse s : block s -> InvSubBytes (SubBytes s) = s.
Proof.
  intros [Hl Hb]. rewrite SubBytes_map by done. rewrite InvSubBytes_map by by rewrite length_map.
  rewrite map_map. clear Hl. induction Hb as [|x s Hx _ IH]; [done|]. cbn [map]. f_equal; [by apply sbox_inverse|exact IH].
Qed.

Lemma AddRoundKey_inverse rk r s : length s = 16%nat -> AddRoundKey rk r (AddRoundKey rk r s) = s.
Proof.
  intros Hs. rewrite (AddRoundKey_zip rk r s Hs). set (k := map _ ij). assert (length k = 16%nat) as Hk by done.
  rewrite AddRoundKey_zip by by rewrite length_zip_with, Hs, Hk. fold k. clearbody k. rewrite <-Hs in Hk. clear Hs.
  revert k Hk. induction s as [|x s IH]; intros [|y k] Hk; try done. cbn. rewrite IH by (cbn in Hk; lia).
  by rewrite Z.lxor_assoc, Z.lxor_nilpotent, Z.lxor_0_r.
Qed.

(** *** Columns *)

Lemma xtime_byte x : byte (xtime x).
Proof. unfold xtime, u8. apply Z.mod_pos_bound. done. Qed.

(** Doubling in the field is linear. *)
Lemma u8_lxor a b : u8 (Z.lxor a b) = Z.lxor (u8 a) (u8 b).
Proof.
  unfold u8. change 256 with (2 ^ 8). rewrite <-!Z.land_ones by done. apply Z.bits_inj'. intros n Hn.
  rewrite !Z.lxor_spec, !Z.land_spec, Z.lxor_spec. btauto.
Qed.

Lemma xtime_lxor a b : xtime (Z.lxor a b) = Z.lxor (xtime a) (xtime b).
Proof.
  assert (forall x, Z.land (Z.shiftr x 7) 1 * 0x1b = if Z.testbit x 7 then 0x1b else 0) as Hb.
  { intros x. change 1 with (Z.ones 1). rewrite Z.land_ones by done. change (2 ^ 1) with 2.
    replace (Z.testbit x 7) with (Z.odd (Z.shiftr x 7)) by by rewrite <-Z.bit0_odd, Z.shiftr_spec.
    rewrite Zmod_odd. by destruct (Z.odd _). }
  unfold xtime. rewrite <-u8_lxor. f_equal. rewrite !Hb, Z.lxor_spec, Z.shiftl_lxor.
  apply Z.bits_inj'. intros n Hn. rewrite !Z.lxor_spec. destruct (Z.testbit a 7), (Z.testbit b 7); cbn [xorb]; rewrite ?Z.bits_0; btauto.
Qed.

(** Products by the constants of the inverse matrix are sums of doublings. *)
Lemma Multiply_consts x :
  Multiply x 0x0e = Z.lxor (Z.lxor (xtime x) (xtime (xtime x))) (xtime (xtime (xtime x))) /\
  Multiply x 0x0b = Z.lxor (Z.lxor x (xtime x)) (xtime (xtime (xtime x))) /\
  Multiply x 0x0d = Z.lxor (Z.lxor x (xtime (xtime x))) (xtime (xtime (xtime x))) /\
  Multiply x 0x09 = Z.lxor x (xtime (xtime (xtime x))).
Proof.
  unfold Multiply. generalize (xtime x) (xtime (xtime x)) (xtime (xtime (xtime x))) (xtime (xtime (xtime (xtime x)))).
  intros x1 x2 x3 x4.
  repeat match goal with |- context [Z.land ?c 1 * _] => let v := eval vm_compute in (Z.land c 1) in change (Z.land c 1) with v end.
  rewrite !Z.mul_0_l, !Z.mul_1_l, !Z.lxor_0_r, ?Z.lxor_0_l. done.
Qed.

(** One column forth and back, an identity of linear maps. *)
Lemma column_inverse a b c d :
  let t := Z.lxor (Z.lxor (Z.lxor a b) c) d in
  let a' := Z.lxor a (Z.lxor (xtime (Z.lxor a b)) t) in
  let b' := Z.lxor b (Z.lxor (xtime (Z.lxor b c)) t) in
  let c' := Z.lxor c (Z.lxor (xtime (Z.lxor c d)) t) in
  let d' := Z.lxor d (Z.lxor (xtime (Z.lxor d a)) t) in
  xor4 (Multiply a' 0x0e) (Multiply b' 0x0b) (Multiply c' 0x0d) (Multiply d' 0x09) = a /\
  xor4 (Multiply a' 0x09) (Multiply b' 0x0e) (Multiply c' 0x0b) (Multiply d' 0x0d) = b /\
  xor4 (Multiply a' 0x0d) (Multiply b' 0x09) (Multiply c' 0x0e) (Multiply d' 0x0b) = c /\
  xor4 (Multiply a' 0x0b) (Multiply b' 0x0d) (Multiply c' 0x09) (Multiply d' 0x0e) = d.
Proof.
  cbv zeta. unfold xor4.
  split_and!; rewrite ?(proj1 (Multiply_consts _)), ?(proj1 (proj2 (Multiply_consts _))),
    ?(proj1 (proj2 (proj2 (Multiply_consts _)))), ?(proj2 (proj2 (proj2 (Multiply_consts _)))), !xtime_lxor;
    apply Z.bits_inj'; intros n Hn; rewrite !Z.lxor_spec; btauto.
Qed.

Definition mix4 (a b c d : Z) : list Z :=
  let t := Z.lxor (Z.lxor (Z.lxor a b) c) d in
  [Z.lxor a (Z.lxor (xtime (Z.lxor a b)) t); Z.lxor b (Z.lxor (xtime (Z.lxor b c)) t);
   Z.lxor c (Z.lxor (xtime (Z.lxor c d)) t); Z.lxor d (Z.lxor (xtime (Z.lxor d a)) t)].

Definition inv_mix4 (a b c d : Z) : list Z :=
  [xor4 (Multiply a 0x0e) (Multiply b 0x0b) (Multiply c 0x0d) (Multiply d 0x09);
   xor4 (Multiply a 0x09) (Multiply b 0x0e) (Multiply c 0x0b) (Multiply d 0x0d);
   xor4 (Multiply a 0x0d) (Multiply b 0x09) (Multiply c 0x0e) (Multiply d 0x0b);
   xor4 (Multiply a 0x0b) (Multiply b 0x0d) (Multiply c 0x09) (Multiply d 0x0e)].

(** [f] on each of the four columns. *)
Fixpoint columns (f : Z -> Z -> Z -> Z -> list Z) (s : list Z) : list Z :=
  match s with
  | a :: b :: c :: d :: s => f a b c d ++ columns f s
  | _ => []
  end.

Lemma MixColumns_columns s : length s = 16%nat -> MixColumns s = columns mix4 s.
Proof. intros Hs. sixteen s. reflexivity. Qed.

Lemma InvMixColumns_columns s : length s = 16%nat -> InvMixColumns s = columns inv_mix4 s.
Proof. intros Hs. sixteen s. reflexivity. Qed.

Lemma inv_mix4_mix4 a b c d s : columns inv_mix4 (mix4 a b c d ++ s) = [a; b; c; d] ++ columns inv_mix4 s.
Proof.
  destruct (column_inverse a b c d) as (H1 & H2 & H3 & H4). cbv zeta in *. unfold mix4. cbn [app columns].
  unfold inv_mix4. rewrite H1, H2, H3, H4. done.
Qed.

Lemma MixColumns_inverse s : length s = 16%nat -> InvMixColumns (MixColumns s) = s.
Proof.
  intros Hs. rewrite MixColumns_columns by done. rewrite InvMixColumns_columns by by sixteen s.
  sixteen s. cbn [columns]. rewrite !inv_mix4_mix4. done.
Qed.

(** *** Every step keeps blocks *)

Lemma block_AddRoundKey rk r s : Forall byte rk -> block s -> block (AddRoundKey rk r s).
Proof.
  intros Hrk [Hl Hb]. rewrite AddRoundKey_zip by done. split; [by rewrite length_zip_with, Hl|].
  apply (Forall_zip_with_snd _ byte); [eapply Forall_impl; [exact Hb|]; intros x Hx y Hy; by apply byte_lxor|].
  apply Forall_map, Forall_true. intros x. by apply at_byte.
Qed.

Lemma block_SubBytes s : block s -> block (SubBytes s).
Proof.
  intros [Hl Hb]. rewrite SubBytes_map by done. split; [by rewrite length_map|].
  apply Forall_map. eapply Forall_impl; [exact Hb|]. intros x Hx. by apply sbox_inverse.
Qed.

Lemma block_ShiftRows s : block s -> block (ShiftRows s).
Proof.
  intros [Hl Hb]. sixteen s. split; [done|]. rewrite !Forall_cons in Hb. decompose [and] Hb.
  repeat apply Forall_cons_2; by try apply Forall_nil.
Qed.

Lemma block_MixColumns s : block s -> block (MixColumns s).
Proof.
  intros [Hl Hb]. rewrite MixColumns_columns by done. sixteen s. split; [done|].
  rewrite !Forall_cons in Hb. decompose [and] Hb. cbn [columns]. unfold mix4.
  repeat (apply Forall_app; split); repeat apply Forall_cons_2; try apply Forall_nil;
    repeat (apply byte_lxor || apply xtime_byte); done.
Qed.

(** ** The cipher and its inverse *)

Section Rounds.

Variables (f g : Z -> list Z -> list Z) (h : list Z -> list Z) (P : list Z -> Prop).
Hypothesis f_P : forall r s, P s -> P (f r s).
Hypothesis inverse : forall r s, P s -> g r (h (f r s)) = h s.

Lemma rounds_up_last n : forall r s, rounds_up f (S n) r s = f (r + Z.of_nat n) (rounds_up f n r s).
Proof.
  induction n as [|n IH]; intros r s; [cbn; by rewrite Z.add_0_r|].
  change (rounds_up f (S (S n)) r s) with (rounds_up f (S n) (r + 1) (f r s)). rewrite IH. f_equal. lia.
Qed.

Lemma rounds_up_P n : forall r s, P s -> P (rounds_up f n r s).
Proof. induction n as [|n IH]; intros r s Hs; [done|]. by apply IH, f_P. Qed.

Lemma rounds_down_up n s : P s -> rounds_down g n (h (rounds_up f n 1 s)) = h s.
Proof.
  induction n as [|n IH]; intros Hs; [done|]. rewrite rounds_up_last. cbn [rounds_down].
  replace (Z.of_nat (S n)) with (1 + Z.of_nat n) by lia. rewrite inverse by by apply rounds_up_P. by apply IH.
Qed.

End Rounds.

#[local] Opaque AddRoundKey SubBytes ShiftRows MixColumns InvSubBytes InvShiftRows InvMixColumns.

Lemma block_round rk r s : Forall byte rk -> block s -> block (cipher_round rk r s).
Proof. intros Hrk Hs. by apply block_AddRoundKey, block_MixColumns, block_ShiftRows, block_SubBytes. Qed.

Lemma round_inverse rk r s : Forall byte rk -> block s ->
  inv_cipher_round rk r (ShiftRows (SubBytes (cipher_round rk r s))) = ShiftRows (SubBytes s).
Proof.
  intros Hrk Hs. pose proof (block_round rk r s Hrk Hs) as Hv. unfold inv_cipher_round.
  rewrite ShiftRows_inverse by apply block_SubBytes, Hv. rewrite SubBytes_inverse by done. unfold cipher_round.
  rewrite AddRoundKey_inverse by apply block_MixColumns, block_ShiftRows, block_SubBytes, Hs.
  by rewrite MixColumns_inverse by apply block_ShiftRows, block_SubBytes, Hs.
Qed.

Lemma block_rounds rk n r s : Forall byte rk -> block s -> block (rounds_up (cipher_round rk) n r s).
Proof. intros Hrk. apply rounds_up_P. intros r0 s0. by apply block_round. Qed.

Lemma block_Cipher rk s : Forall byte rk -> block s -> block (Cipher rk s).
Proof. intros Hrk Hs. by apply block_AddRoundKey, block_ShiftRows, block_SubBytes, block_rounds, block_AddRoundKey. Qed.

Lemma InvCipher_Cipher rk s : Forall byte rk -> block s -> InvCipher rk (Cipher rk s) = s.
Proof.
  intros Hrk Hs. unfold InvCipher, Cipher. assert (block (AddRoundKey rk 0 s)) as H0 by by apply block_AddRoundKey.
  rewrite AddRoundKey_inverse by by apply block_ShiftRows, block_SubBytes, block_rounds.
  rewrite (rounds_down_up (cipher_round rk) (inv_cipher_round rk) (fun s => ShiftRows (SubBytes s)) block);
    [|intros r s0; by apply block_round|intros r s0; by apply round_inverse|done].
  rewrite ShiftRows_inverse by apply block_SubBytes, H0. rewrite SubBytes_inverse by done. apply AddRoundKey_inverse, Hs.
Qed.

Lemma Rcon_bytes : Forall byte Rcon.
Proof. by repeat constructor. Qed.

Lemma sbox_bytes : Forall byte sbox.
Proof. by repeat constructor. Qed.

Lemma key_word_bytes i rk : Forall byte rk -> Forall byte (key_word i rk).
Proof.
  intros Hrk. unfold key_word. apply Forall_map, Forall_true. intros k. apply byte_lxor; [by apply at_byte|].
  apply at_byte. destruct (_ =? _); repeat apply Forall_cons_2; try (by apply Forall_nil); repeat apply byte_lxor; apply at_byte;
    done || apply sbox_bytes || apply Rcon_bytes.
Qed.

Lemma KeyExpansion_bytes key rk : Forall byte key -> KeyExpansion key = Some rk -> Forall byte rk.
Proof.
  intros Hk. unfold KeyExpansion. intros (k & (a & c & -> & _)%ld_bytes_inv & Hrk)%bind_Some_inv.
  apply (inj Some) in Hrk. rewrite <-Hrk. clear Hrk rk.
  apply Forall_app in Hk as [_ [Hk _]%Forall_app]. clear -Hk. revert k Hk. generalize 4. generalize 40%nat.
  intros n. induction n as [|n IH]; intros i k Hk; [done|]. cbn [key_loop]. apply IH, Forall_app. split; [done|]. by apply key_word_bytes.
Qed.

(** ** CBC *)

Lemma block_zlen b : block b -> zlen b = BLOCKLEN.
Proof. intros [H _]. unfold zlen. by rewrite H. Qed.

Lemma XorWithIv_zip b iv : block b -> block iv -> XorWithIv b iv = zip_with Z.lxor b iv.
Proof. intros [Hb _] [Hi _]. sixteen b. sixteen iv. reflexivity. Qed.

Lemma block_XorWithIv b iv : block b -> block iv -> block (XorWithIv b iv).
Proof.
  intros Hb Hi. rewrite XorWithIv_zip by done. destruct Hb as [Hb Hb'], Hi as [Hi Hi']. split; [by rewrite length_zip_with, Hb, Hi|].
  apply (Forall_zip_with_snd _ byte); [|done]. eapply Forall_impl; [exact Hb'|]. intros x Hx y Hy. by apply byte_lxor.
Qed.

Lemma XorWithIv_twice b iv : block b -> block iv -> XorWithIv (XorWithIv b iv) iv = b.
Proof.
  intros Hb Hi. rewrite (XorWithIv_zip (XorWithIv b iv)), (XorWithIv_zip b) by (done || by apply block_XorWithIv).
  destruct Hb as [Hb _], Hi as [Hi _]. rewrite <-Hi in Hb. clear Hi. revert iv Hb.
  induction b as [|x b IH]; intros [|y iv] Hl; try done. cbn. rewrite IH by (cbn in Hl; lia).
  by rewrite Z.lxor_assoc, Z.lxor_nilpotent, Z.lxor_0_r.
Qed.

(** The blocks of a text, encrypted in a chain. *)
Fixpoint chained (f : list Z -> list Z -> list Z) (iv : list Z) (bs : list (list Z)) : list (list Z) :=
  match bs with
  | [] => []
  | b :: bs => f iv b :: chained f (f iv b) bs
  end.

Local Abbreviation chain rk := (chained (encrypt_block rk)).

Lemma block_encrypt rk iv b : Forall byte rk -> block iv -> block b -> block (encrypt_block rk iv b).
Proof. intros. by apply block_Cipher, block_XorWithIv. Qed.

Lemma decrypt_encrypt rk iv b : Forall byte rk -> block iv -> block b -> decrypt_block rk iv (encrypt_block rk iv b) = b.
Proof.
  intros Hrk Hi Hb. unfold decrypt_block, encrypt_block. rewrite InvCipher_Cipher by (done || by apply block_XorWithIv).
  by apply XorWithIv_twice.
Qed.

#[local] Opaque encrypt_block decrypt_block.

Lemma chain_blocks rk bs : Forall byte rk -> forall iv, block iv -> Forall block bs -> Forall block (chain rk iv bs).
Proof.
  intros Hrk. induction bs as [|b bs IH]; intros iv Hiv Hbs; [done|]. inversion_clear Hbs as [|? ? Hb Hbs']. cbn [chained].
  constructor; [by apply block_encrypt|]. by apply IH; [apply block_encrypt|].
Qed.

Lemma concat_zlen bs : Forall block bs -> zlen (concat bs) = BLOCKLEN * Z.of_nat (length bs).
Proof.
  induction 1 as [|b bs Hb _ IH]; [done|]. cbn [concat length]. rewrite zlen_app, IH, (block_zlen b Hb). unfold BLOCKLEN. lia.
Qed.

(** The loops over whole blocks. *)
Lemma encrypt_loop_spec rk bs : Forall byte rk -> Forall block bs -> forall iv a r c pre post,
  block iv -> zlen r = zlen (concat bs) -> zlen pre = zlen a ->
  cbc_encrypt_loop (length bs) rk iv (a ++ r ++ c) (pre ++ concat bs ++ post) (zlen a) =
  Some (a ++ concat (chain rk iv bs) ++ c, default iv (last (chain rk iv bs))).
Proof.
  intros Hrk. induction 1 as [|b bs Hb Hbs IH]; intros iv a r c pre post Hiv Hr Hp; cbn [length cbc_encrypt_loop chained concat last].
  - apply zlen_0_inv in Hr as ->. done.
  - cbn [concat] in Hr. rewrite zlen_app in Hr. pose proof (block_zlen b Hb) as Hlb. pose proof (zlen_nonneg (concat bs)).
    rewrite (ld_bytes_at _ pre b (concat bs ++ post)) by (done || by rewrite <-app_assoc). cbn [mbind option_bind].
    destruct (room_split BLOCKLEN r) as (r1 & r2 & -> & Hr1); [unfold BLOCKLEN in *; lia|]. rewrite zlen_app in Hr.
    assert (block (encrypt_block rk iv b)) as Hc by by apply block_encrypt.
    generalize dependent (encrypt_block rk iv b). intros x Hc. pose proof (block_zlen x Hc) as Hlx.
    rewrite (st_bytes_at _ a r1 (r2 ++ c)); [|by rewrite <-app_assoc|done|by rewrite Hr1, Hlx]. cbn [mbind option_bind].
    replace (zlen a + BLOCKLEN) with (zlen (a ++ x)) by (rewrite zlen_app; lia). rewrite (app_assoc a x), <-(app_assoc b), (app_assoc pre b).
    rewrite (IH x (a ++ x) r2 c (pre ++ b) post) by (done || (rewrite ?zlen_app; lia)). rewrite <-!app_assoc. do 2 f_equal.
    rewrite last_cons. by destruct (last _).
Qed.

Lemma decrypt_loop_spec rk bs : Forall byte rk -> Forall block bs -> forall iv a r c pre post,
  block iv -> zlen r = zlen (concat bs) -> zlen pre = zlen a ->
  cbc_decrypt_loop (length bs) rk iv (a ++ r ++ c) (pre ++ concat (chain rk iv bs) ++ post) (zlen a) =
  Some (a ++ concat bs ++ c).
Proof.
  intros Hrk. induction 1 as [|b bs Hb Hbs IH]; intros iv a r c pre post Hiv Hr Hp; cbn [length cbc_decrypt_loop chained concat].
  - apply zlen_0_inv in Hr as ->. done.
  - cbn [concat] in Hr. rewrite zlen_app in Hr. pose proof (block_zlen b Hb) as Hlb. pose proof (zlen_nonneg (concat bs)).
    assert (block (encrypt_block rk iv b)) as Hc by by apply block_encrypt.
    pose proof (decrypt_encrypt rk iv b Hrk Hiv Hb) as Hde. generalize dependent (encrypt_block rk iv b). intros x Hc Hde.
    pose proof (block_zlen x Hc) as Hlx.
    rewrite (ld_bytes_at _ pre x (concat (chain rk x bs) ++ post)); [|by rewrite <-app_assoc|done|done]. cbn [mbind option_bind].
    destruct (room_split BLOCKLEN r) as (r1 & r2 & -> & Hr1); [unfold BLOCKLEN in *; lia|]. rewrite zlen_app in Hr.
    rewrite Hde, (st_bytes_at _ a r1 (r2 ++ c)); [|by rewrite <-app_assoc|done|by rewrite Hr1, Hlb]. cbn [mbind option_bind].
    replace (zlen a + BLOCKLEN) with (zlen (a ++ b)) by (rewrite zlen_app; lia). rewrite (app_assoc a b), <-(app_assoc x), (app_assoc pre x).
    rewrite (IH x (a ++ b) r2 c (pre ++ x) post) by (done || (rewrite ?zlen_app; lia)). by rewrite <-!app_assoc.
Qed.

(** A text cut into blocks. *)
Lemma cut n : forall l, length l = (16 * n)%nat -> Forall byte l ->
  exists bs, concat bs = l /\ length bs = n /\ Forall block bs.
Proof.
  induction n as [|n IH]; intros l Hl Hb; [by exists []; destruct l|].
  rewrite <-(take_drop 16 l) in Hb. apply Forall_app in Hb as [H1 H2].
  destruct (IH (drop 16 l)) as (bs & Hc & Hn & Hbs); [rewrite length_drop; lia|done|].
  exists (take 16 l :: bs). cbn [concat length]. rewrite Hc, take_drop, Hn. split; [done|]. split; [done|].
  constructor; [|done]. split; [rewrite length_take; lia|done].
Qed.

(** The length rounded up to whole blocks, and the zeros behind the text. *)
Definition padded (n : Z) : Z := (n + BLOCKLEN - 1) / BLOCKLEN * BLOCKLEN.
Definition zeros (n : Z) : list Z := replicate (Z.to_nat (padded n - n)) 0.

Lemma padded_split n : 0 <= n -> padded n = n - n mod BLOCKLEN + (if n mod BLOCKLEN =? 0 then 0 else BLOCKLEN).
Proof. unfold padded, BLOCKLEN. intros Hn. destruct (Z.eqb_spec (n mod 16) 0); Z.to_euclidean_division_equations; lia. Qed.

Lemma padded_more n : 0 <= n -> 0 <= padded n - n.
Proof. intros Hn. unfold padded, BLOCKLEN. Z.to_euclidean_division_equations. lia. Qed.

Lemma blocks_bytes bs : Forall block bs -> Forall byte (concat bs).
Proof. induction 1 as [|b bs [_ Hb] _ IH]; [done|]. by apply Forall_app. Qed.

Lemma chained_app f bs bs' : forall iv, chained f iv (bs ++ bs') = chained f iv bs ++ chained f (default iv (last (chained f iv bs))) bs'.
Proof.
  induction bs as [|b bs IH]; intros iv; [done|]. cbn [app chained]. rewrite IH. cbn [app]. do 2 f_equal.
  rewrite last_cons. by destruct (last _).
Qed.

Lemma chained_length f bs : forall iv, length (chained f iv bs) = length bs.
Proof. induction bs as [|b bs IH]; intros iv; [done|]. cbn. by rewrite IH. Qed.

(** The whole blocks of a text and the rest. *)
Lemma text_split data : Forall byte data -> let extra := zlen data mod BLOCKLEN in
  exists bs d, data = concat bs ++ d /\ Forall block bs /\ Forall byte d /\ zlen d = extra /\
    zlen (concat bs) = zlen data - extra /\ Z.to_nat ((zlen data - extra) / BLOCKLEN) = length bs.
Proof.
  intros Hb extra. pose proof (zlen_nonneg data) as Hn. assert (0 <= extra < 16) as He by (apply Z.mod_pos_bound; done).
  assert (exists q, zlen data - extra = BLOCKLEN * Z.of_nat q) as [q Hq].
  { exists (Z.to_nat (zlen data / BLOCKLEN)). rewrite Z2Nat.id by (apply Z.div_pos; done).
    pose proof (Z.div_mod (zlen data) BLOCKLEN ltac:(done)). unfold extra. lia. }
  destruct (room_split (zlen data - extra) data) as (d1 & d2 & Hd & Hd1); [unfold BLOCKLEN in Hq; lia|].
  rewrite Hd in Hb. apply Forall_app in Hb as [Hb1 Hb2].
  destruct (cut q d1) as (bs & Hc & Hlq & Hbs); [unfold zlen, BLOCKLEN in *; lia|done|].
  exists bs, d2. rewrite Hc. split_and!; [done..| |done|].
  - rewrite Hd, zlen_app in Hd1. lia.
  - rewrite Hq, Z.mul_comm, Z.div_mul by done. by rewrite Nat2Z.id.
Qed.

Lemma chain_vector rk iv bs : Forall byte rk -> block iv -> Forall block bs -> block (default iv (last (chain rk iv bs))).
Proof.
  intros Hrk Hiv Hbs. pose proof (chain_blocks rk bs Hrk iv Hiv Hbs) as Hcb.
  destruct (last (chain rk iv bs)) as [x|] eqn:Hlast; [|done]. rewrite Forall_forall in Hcb. apply Hcb. by apply last_Some_elem_of.
Qed.

Lemma encrypt_buffer_spec output data key iv rk : KeyExpansion key = Some rk -> Forall byte rk -> block iv ->
  Forall byte data -> padded (zlen data) <= zlen output ->
  exists bs rest, concat bs = data ++ zeros (zlen data) /\ Forall block bs /\ zlen rest = zlen output - padded (zlen data) /\
    EXAES_CBC_encrypt_buffer output data (zlen data) key iv = Some (concat (chain rk iv bs) ++ rest).
Proof.
  intros Hk Hrk Hiv Hb Hroom. pose proof (padded_split (zlen data) (zlen_nonneg data)) as Hp.
  destruct (text_split data Hb) as (bs & d & Hd & Hbs & Hbd & Hld & Hlc & Hq).
  unfold EXAES_CBC_encrypt_buffer. rewrite Hk. cbn [mbind option_bind]. set (extra := zlen data mod BLOCKLEN) in *.
  assert (0 <= extra < 16) as He by (apply Z.mod_pos_bound; done). pose proof (zlen_nonneg (concat bs)).
  destruct (room_split (zlen data - extra) output) as (r1 & r2 & -> & Hr1); [destruct (extra =? 0); unfold BLOCKLEN in *; lia|].
  rewrite zlen_app in *. rewrite Hq.
  pose proof (encrypt_loop_spec rk bs Hrk Hbs iv [] r1 r2 [] d Hiv ltac:(lia) eq_refl) as Hloop.
  cbn [app] in Hloop. rewrite zlen_nil, <-Hd in Hloop. rewrite Hloop. cbn [mbind option_bind fst snd].
  pose proof (chain_blocks rk bs Hrk iv Hiv Hbs) as Hcb. pose proof (chain_vector rk iv bs Hrk Hiv Hbs) as Hiv'.
  destruct (Z.eqb_spec extra 0) as [He0|He0].
  - exists bs, r2. split; [|split; [done|split; [lia|done]]]. unfold zeros.
    replace (padded (zlen data) - zlen data) with 0 by lia. cbn. rewrite app_nil_r, Hd.
    assert (d = []) as -> by (apply zlen_0_inv; lia). by rewrite app_nil_r.
  - set (bl := d ++ replicate (Z.to_nat (BLOCKLEN - extra)) 0).
    assert (block bl) as Hbl.
    { split; [unfold bl; rewrite length_app, length_replicate; unfold zlen, BLOCKLEN in *; lia|].
      apply Forall_app. split; [done|]. by apply Forall_replicate. }
    destruct (room_split BLOCKLEN r2) as (r3 & r4 & -> & Hr3); [unfold BLOCKLEN in *; lia|]. rewrite zlen_app in *.
    exists (bs ++ [bl]), r4. split; [|split; [apply Forall_app; by split; [|constructor]|split; [lia|]]].
    { rewrite concat_app. cbn [concat]. rewrite app_nil_r, Hd at 1. rewrite <-app_assoc. unfold bl, zeros.
      do 3 f_equal. lia. }
    rewrite (ld_bytes_at data (concat bs) d []); [|by rewrite app_nil_r|done|done]. cbn [mbind option_bind]. fold bl.
    rewrite (st_bytes_at _ (concat (chain rk iv bs)) r3 r4); [|done| |].
    + rewrite chained_app, concat_app. cbn [chained concat]. by rewrite app_nil_r, <-app_assoc.
    + by rewrite (concat_zlen _ Hcb), chained_length, <-(concat_zlen _ Hbs).
    + by rewrite Hr3, (block_zlen _ (block_encrypt _ _ _ Hrk Hiv' Hbl)).
Qed.

Lemma decrypt_buffer_spec output bs post key iv rk : KeyExpansion key = Some rk -> Forall byte rk -> block iv -> Forall block bs ->
  zlen (concat bs) <= zlen output ->
  exists rest, zlen rest = zlen output - zlen (concat bs) /\
    EXAES_CBC_decrypt_buffer output (concat (chain rk iv bs) ++ post) (zlen (concat (chain rk iv bs))) key iv
    = Some (concat bs ++ rest).
Proof.
  intros Hk Hrk Hiv Hbs Hroom. pose proof (chain_blocks rk bs Hrk iv Hiv Hbs) as Hcb.
  destruct (room_split (zlen (concat bs)) output) as (r & c & -> & Hr); [split; [apply zlen_nonneg|done]|].
  exists c. rewrite zlen_app. split; [lia|]. unfold EXAES_CBC_decrypt_buffer. rewrite Hk. cbn [mbind option_bind].
  rewrite (concat_zlen _ Hcb), chained_length. unfold BLOCKLEN. rewrite Z.mul_comm, Z.mod_mul by done. cbn [Z.eqb].
  replace (Z.of_nat (length bs) * 16 + 16 - 1) with (15 + Z.of_nat (length bs) * 16) by lia.
  rewrite Z.div_add by done. change (15 / 16) with 0. rewrite Z.add_0_l, Nat2Z.id.
  pose proof (decrypt_loop_spec rk bs Hrk Hbs iv [] r c [] post Hiv Hr eq_refl) as Hl. cbn [app] in Hl.
  rewrite zlen_nil in Hl. by rewrite Hl.
Qed.

(** Decryption undoes encryption: with the same key and initial vector, what
    CBC encryption makes of any bytes decrypts to these bytes, filled up with
    zeros to whole blocks; both stay inside the memory of whole blocks. *)
Theorem aes_cbc_roundtrip out1 out2 data key iv : Forall byte data -> Forall byte key -> 16 <= zlen key -> block iv ->
  padded (zlen data) <= zlen out1 -> padded (zlen data) <= zlen out2 ->
  exists text rest1 rest2, zlen text = padded (zlen data) /\ Forall byte text /\
    EXAES_CBC_encrypt_buffer out1 data (zlen data) key iv = Some (text ++ rest1) /\
    zlen rest1 = zlen out1 - padded (zlen data) /\
    EXAES_CBC_decrypt_buffer out2 text (zlen text) key iv = Some (data ++ zeros (zlen data) ++ rest2) /\
    zlen rest2 = zlen out2 - padded (zlen data).
Proof.
  intros Hb Hkb Hkl Hiv H1 H2. assert (exists rk, KeyExpansion key = Some rk) as [rk Hk].
  { unfold KeyExpansion, ld_bytes. destruct (_ && _) eqn:Hc; [by eexists|lia]. }
  pose proof (KeyExpansion_bytes key rk Hkb Hk) as Hrk.
  destruct (encrypt_buffer_spec out1 data key iv rk Hk Hrk Hiv Hb H1) as (bs & rest1 & Hbs & Hblk & Hr1 & He).
  pose proof (chain_blocks rk bs Hrk iv Hiv Hblk) as Hcb.
  assert (zlen (concat bs) = padded (zlen data)) as Hl.
  { rewrite Hbs, zlen_app. unfold zeros. rewrite zlen_replicate; [lia|]. apply padded_more, zlen_nonneg. }
  destruct (decrypt_buffer_spec out2 bs [] key iv rk Hk Hrk Hiv Hblk) as (rest2 & Hr2 & Hd); [lia|]. rewrite app_nil_r in Hd.
  exists (concat (chain rk iv bs)), rest1, rest2. rewrite Hl in *. rewrite Hbs, <-app_assoc in Hd. split_and!; [|by apply blocks_bytes|done..].
  by rewrite (concat_zlen _ Hcb), chained_length, <-(concat_zlen _ Hblk).
Qed.

(** ** The standard *)

(** Multiplication in GF(2^8), the inverse (as the 254th power) and the affine
    map of the substitution box, as FIPS 197 defines them. *)
Fixpoint gmul_loop (n : nat) (x y acc : Z) : Z :=
  match n with
  | O => acc
  | S n => gmul_loop n (xtime x) (Z.shiftr y 1) (if Z.odd y then Z.lxor acc x else acc)
  end.
Definition gmul (x y : Z) : Z := gmul_loop 8 x y 0.

Definition ginv (x : Z) : Z :=
  let x2 := gmul x x in let x4 := gmul x2 x2 in let x8 := gmul x4 x4 in let x16 := gmul x8 x8 in
  let x32 := gmul x16 x16 in let x64 := gmul x32 x32 in let x128 := gmul x64 x64 in
  gmul x2 (gmul x4 (gmul x8 (gmul x16 (gmul x32 (gmul x64 x128))))).

Definition rotl8 (x n : Z) : Z := Z.lor (u8 (Z.shiftl x n)) (Z.shiftr x (8 - n)).
Definition affine (x : Z) : Z :=
  Z.lxor (Z.lxor (Z.lxor (Z.lxor (Z.lxor x (rotl8 x 1)) (rotl8 x 2)) (rotl8 x 3)) (rotl8 x 4)) 0x63.

Lemma gmul_2_3 x : gmul 2 1 = 2 /\ gmul x 2 = xtime x /\ gmul x 3 = Z.lxor x (xtime x).
Proof. split; [by vm_compute|]. unfold gmul. cbn -[xtime]. by rewrite Z.lxor_0_l. Qed.

Lemma sbox_check : forallb (fun i => let b := Z.of_nat i in
  (at_ sbox b =? affine (ginv b)) && ((b =? 0) || (gmul b (ginv b) =? 1))) (seq 0 256) = true.
Proof. by vm_compute. Qed.

(** The steps are those of the AES standard: the substitution box is the
    affine image of the inverse in GF(2^8), a column is mixed by the matrix
    with rows 2 3 1 1, and the round constants are the powers of two. *)
Theorem aes_standard :
  (forall b, byte b -> getSBoxValue b = affine (ginv b) /\ (b <> 0 -> gmul b (ginv b) = 1)) /\
  (forall s, length s = 16%nat -> MixColumns s = columns (fun a b c d =>
    [xor4 (gmul a 2) (gmul b 3) c d; xor4 a (gmul b 2) (gmul c 3) d;
     xor4 a b (gmul c 2) (gmul d 3); xor4 (gmul a 3) b c (gmul d 2)]) s) /\
  (forall i, 1 <= i <= 10 -> at_ Rcon i = Nat.iter (Z.to_nat (i - 1)) xtime 1).
Proof.
  split; [|split].
  - intros b Hb. pose proof sbox_check as H. rewrite forallb_forall in H. unfold byte in Hb.
    specialize (H (Z.to_nat b) ltac:(apply in_seq; lia)). cbv zeta in H. rewrite Z2Nat.id in H by lia.
    unfold getSBoxValue. lia.
  - intros s Hs. rewrite MixColumns_columns by done.
    assert (forall a b c d, mix4 a b c d = [xor4 (gmul a 2) (gmul b 3) c d; xor4 a (gmul b 2) (gmul c 3) d;
      xor4 a b (gmul c 2) (gmul d 3); xor4 (gmul a 3) b c (gmul d 2)]) as Hm.
    { intros a b c d. unfold mix4, xor4. rewrite !(proj1 (proj2 (gmul_2_3 _))), !(proj2 (proj2 (gmul_2_3 _))), !xtime_lxor.
      repeat (apply (f_equal2 cons); [apply Z.bits_inj'; intros n Hn; rewrite !Z.lxor_spec; btauto|]). done. }
    sixteen s. cbn [columns]. by rewrite !Hm.
  - intros i Hi. assert (i = 1 \/ i = 2 \/ i = 3 \/ i = 4 \/ i = 5 \/ i = 6 \/ i = 7 \/ i = 8 \/ i = 9 \/ i = 10) as Hc by lia.
    by repeat destruct Hc as [-> |Hc]; [..|rewrite Hc].
Qed.

(** ** Published vectors *)

Module AesDemo.

Definition key : list Z :=
  [0x2b; 0x7e; 0x15; 0x16; 0x28; 0xae; 0xd2; 0xa6; 0xab; 0xf7; 0x15; 0x88; 0x09; 0xcf; 0x4f; 0x3c].
Definition plain : list Z :=
  [0x6b; 0xc1; 0xbe; 0xe2; 0x2e; 0x40; 0x9f; 0x96; 0xe9; 0x3d; 0x7e; 0x11; 0x73; 0x93; 0x17; 0x2a].

(** The first block of the ECB example of NIST SP 800-38A. *)
Lemma ecb_vector : EXAES_ECB_encrypt plain key (replicate 16 0) 16 = Some
  [0x3a; 0xd7; 0x7b; 0xb4; 0x0d; 0x7a; 0x36; 0x60; 0xa8; 0x9e; 0xca; 0xf3; 0x24; 0x66; 0xef; 0x97].
Proof. by vm_compute. Qed.

Lemma aes_cbc_roundtrip_witness : exists text rest1 rest2, zlen text = padded (zlen (plain ++ [1; 2; 3])) /\ Forall byte text /\
  EXAES_CBC_encrypt_buffer (replicate 40 0) (plain ++ [1; 2; 3]) (zlen (plain ++ [1; 2; 3])) key plain = Some (text ++ rest1) /\
  zlen rest1 = zlen (replicate 40 0) - padded (zlen (plain ++ [1; 2; 3])) /\
  EXAES_CBC_decrypt_buffer (replicate 32 0) text (zlen text) key plain
    = Some ((plain ++ [1; 2; 3]) ++ zeros (zlen (plain ++ [1; 2; 3])) ++ rest2) /\
  zlen rest2 = zlen (replicate 32 0) - padded (zlen (plain ++ [1; 2; 3])).
Proof.
  apply (aes_cbc_roundtrip (replicate 40 0) (replicate 32 0) (plain ++ [1; 2; 3]) key plain);
    [by repeat constructor|by repeat constructor|by vm_compute|split; [done|by repeat constructor]|by vm_compute..].
Defined.

(** A length that is not a number of whole blocks makes the decryption read and
    write beyond the last block it covers. *)
Lemma decrypt_partial_overruns : EXAES_CBC_decrypt_buffer (replicate 32 0) (replicate 32 0) 20 key plain = None.
Proof. by vm_compute. Qed.

End AesDemo.
