(* ===== verification/Sha1.v ===== *)
(** * SHA-1

    [libnstd/exsha1.c]: the compression of a block with the rounds unrolled and
    the message schedule kept in the 16 words of the block, the buffering of the
    input, and the padding.  The processor is little-endian, as in the rest of
    the development. *)

From Stdlib Require Import Btauto.
From S2P Require Import Prelude.

Definition rol (value bits : Z) : Z := Z.lor (u32 (Z.shiftl value bits)) (Z.shiftr value (32 - bits)).

(** ** Compression of a block *)

(** The working variables [a] to [e], and the words of the block. *)
Definition regs : Type := list Z * list Z.

Definition w_at (l : list Z) (n : nat) : Z := nth n l 0.

Fixpoint w_set (l : list Z) (n : nat) (v : Z) : list Z :=
  match l, n with
  | [], _ => []
  | _ :: l, O => v :: l
  | x :: l, S n => x :: w_set l n v
  end.

(** [i & 15] *)
Definition m15 (i : nat) : nat := (i mod 16)%nat.

Definition blk0 (l : list Z) (i : nat) : list Z :=
  w_set l i (Z.lor (Z.land (rol (w_at l i) 24) 0xFF00FF00) (Z.land (rol (w_at l i) 8) 0x00FF00FF)).

Definition blk (l : list Z) (i : nat) : list Z :=
  w_set l (m15 i) (rol (Z.lxor (Z.lxor (Z.lxor (w_at l (m15 (i + 13))) (w_at l (m15 (i + 8)))) (w_at l (m15 (i + 2))))
    (w_at l (m15 i))) 1).

(** A round: the word of the schedule is computed in place, [z] is increased and
    [w] rotated. *)
Definition R (f : Z -> Z -> Z -> Z) (k : Z) (sched : list Z -> nat -> list Z) (v w x y z i : nat) (r : regs) : regs :=
  let vars := r.1 in
  let block := sched r.2 i in
  let var n := w_at vars n in
  let sum := u32 (u32 (u32 (f (var w) (var x) (var y) + w_at block (m15 i)) + k) + rol (var v) 5) in
  let vars := w_set vars z (u32 (var z + sum)) in
  (w_set vars w (rol (w_at vars w) 30), block).

Definition R0 := R (fun w x y => Z.lxor (Z.land w (Z.lxor x y)) y) 0x5A827999 blk0.
Definition R1 := R (fun w x y => Z.lxor (Z.land w (Z.lxor x y)) y) 0x5A827999 blk.
Definition R2 := R (fun w x y => Z.lxor (Z.lxor w x) y) 0x6ED9EBA1 blk.
Definition R3 := R (fun w x y => Z.lor (Z.land (Z.lor w x) y) (Z.land w x)) 0x8F1BBCDC blk.
Definition R4 := R (fun w x y => Z.lxor (Z.lxor w x) y) 0xCA62C1D6 blk.

Module Unrolled.

Local Abbreviation a := 0%nat.
Local Abbreviation b := 1%nat.
Local Abbreviation c := 2%nat.
Local Abbreviation d := 3%nat.
Local Abbreviation e := 4%nat.

Local Open Scope nat_scope.

Definition rounds : list (regs -> regs) :=
  [R0 a b c d e 0; R0 e a b c d 1; R0 d e a b c 2; R0 c d e a b 3;
   R0 b c d e a 4; R0 a b c d e 5; R0 e a b c d 6; R0 d e a b c 7;
   R0 c d e a b 8; R0 b c d e a 9; R0 a b c d e 10; R0 e a b c d 11;
   R0 d e a b c 12; R0 c d e a b 13; R0 b c d e a 14; R0 a b c d e 15;
   R1 e a b c d 16; R1 d e a b c 17; R1 c d e a b 18; R1 b c d e a 19;
   R2 a b c d e 20; R2 e a b c d 21; R2 d e a b c 22; R2 c d e a b 23;
   R2 b c d e a 24; R2 a b c d e 25; R2 e a b c d 26; R2 d e a b c 27;
   R2 c d e a b 28; R2 b c d e a 29; R2 a b c d e 30; R2 e a b c d 31;
   R2 d e a b c 32; R2 c d e a b 33; R2 b c d e a 34; R2 a b c d e 35;
   R2 e a b c d 36; R2 d e a b c 37; R2 c d e a b 38; R2 b c d e a 39;
   R3 a b c d e 40; R3 e a b c d 41; R3 d e a b c 42; R3 c d e a b 43;
   R3 b c d e a 44; R3 a b c d e 45; R3 e a b c d 46; R3 d e a b c 47;
   R3 c d e a b 48; R3 b c d e a 49; R3 a b c d e 50; R3 e a b c d 51;
   R3 d e a b c 52; R3 c d e a b 53; R3 b c d e a 54; R3 a b c d e 55;
   R3 e a b c d 56; R3 d e a b c 57; R3 c d e a b 58; R3 b c d e a 59;
   R4 a b c d e 60; R4 e a b c d 61; R4 d e a b c 62; R4 c d e a b 63;
   R4 b c d e a 64; R4 a b c d e 65; R4 e a b c d 66; R4 d e a b c 67;
   R4 c d e a b 68; R4 b c d e a 69; R4 a b c d e 70; R4 e a b c d 71;
   R4 d e a b c 72; R4 c d e a b 73; R4 b c d e a 74; R4 a b c d e 75;
   R4 e a b c d 76; R4 d e a b c 77; R4 c d e a b 78; R4 b c d e a 79].

End Unrolled.

(** The block as words of the processor. *)
Definition le_word (bs : list Z) : Z := w_at bs 0 + w_at bs 1 * 2 ^ 8 + w_at bs 2 * 2 ^ 16 + w_at bs 3 * 2 ^ 24.
Definition words (f : list Z -> Z) (buffer : list Z) : list Z :=
  map (fun i => f (take 4 (drop (4 * i) buffer))) (seq 0 16).

Definition EXSHA1Transform (state buffer : list Z) : list Z :=
  let r := fold_left (fun r f => f r) Unrolled.rounds (state, words le_word buffer) in
  zip_with (fun x y => u32 (x + y)) state r.1.

(** ** The context *)

Record EXSHA1_CTX := { state : list Z; count0 : Z; count1 : Z; buffer : list Z }.

(** The contents of the buffer do not matter at first. *)
Definition EXSHA1Init (garbage : list Z) : EXSHA1_CTX :=
  {| state := [0x67452301; 0xEFCDAB89; 0x98BADCFE; 0x10325476; 0xC3D2E1F0]; count0 := 0; count1 := 0; buffer := garbage |}.

(** The blocks of the input from [i] on; the state and where the loop ends. *)
Fixpoint update_loop (fuel : nat) (data : list Z) (len i : Z) (st : list Z) : option (list Z * Z) :=
  match fuel with
  | O => None
  | S fuel =>
      if u32 (i + 63) <? len then
        blk ← ld_bytes data i 64;
        update_loop fuel data len (u32 (i + 64)) (EXSHA1Transform st blk)
      else Some (st, i)
  end.

(** The part that completes blocks: the state, the buffer, where to write in it
    and how much of the input is used up. *)
Definition update_blocks (ctx : EXSHA1_CTX) (data : list Z) (len j : Z) : option (list Z * list Z * Z * Z) :=
  if 63 <? u32 (j + len) then
    let i := 64 - j in
    bs ← ld_bytes data 0 i;
    buf ← st_bytes (buffer ctx) j bs;
    r ← update_loop (S (Z.to_nat len)) data len i (EXSHA1Transform (state ctx) buf);
    Some (r.1, buf, 0, r.2)
  else Some (state ctx, buffer ctx, j, 0).

Definition EXSHA1Update (ctx : EXSHA1_CTX) (data : list Z) (len : Z) : option EXSHA1_CTX :=
  let j := count0 ctx in
  let c0 := u32 (j + u32 (Z.shiftl len 3)) in
  let c1 := u32 (u32 (count1 ctx + (if c0 <? j then 1 else 0)) + Z.shiftr len 29) in
  let j := Z.land (Z.shiftr j 3) 63 in
  r ← update_blocks ctx data len j;
  bs ← ld_bytes data r.2 (len - r.2);
  buf ← st_bytes r.1.1.2 r.1.2 bs;
  Some {| state := r.1.1.1; count0 := c0; count1 := c1; buffer := buf |}.

Fixpoint pad_loop (fuel : nat) (ctx : EXSHA1_CTX) : option EXSHA1_CTX :=
  match fuel with
  | O => None
  | S fuel =>
      if negb (Z.land (count0 ctx) 504 =? 448) then ctx ← EXSHA1Update ctx [0] 1; pad_loop fuel ctx
      else Some ctx
  end.

(** Byte [i] of words, most significant first. *)
Definition be_byte (w : Z) (i : nat) : Z := Z.land (Z.shiftr w ((3 - Z.of_nat (i mod 4)) * 8)) 255.

Definition EXSHA1Final (ctx : EXSHA1_CTX) : option (list Z) :=
  let finalcount := map (fun i => be_byte (if (4 <=? i)%nat then count0 ctx else count1 ctx) i) (seq 0 8) in
  ctx ← EXSHA1Update ctx [128] 1;
  ctx ← pad_loop 65 ctx;
  ctx ← EXSHA1Update ctx finalcount 8;
  Some (map (fun i => be_byte (w_at (state ctx) (i / 4)) i) (seq 0 20)).

Fixpoint sha1_loop (ctx : EXSHA1_CTX) (str : list Z) : option EXSHA1_CTX :=
  match str with
  | [] => Some ctx
  | x :: str => ctx ← EXSHA1Update ctx [x] 1; sha1_loop ctx str
  end.

(** The digest and the terminator behind it. *)
Definition EXSHA1 (garbage str : list Z) : option (list Z) :=
  ctx ← sha1_loop (EXSHA1Init garbage) str;
  h ← EXSHA1Final ctx;
  Some (h ++ [0]).

(** ** The standard

    FIPS 180: the message schedule as a sequence of 80 words, and the working
    variables shifted from one to the next. *)

Definition be_word (bs : list Z) : Z := w_at bs 3 + w_at bs 2 * 2 ^ 8 + w_at bs 1 * 2 ^ 16 + w_at bs 0 * 2 ^ 24.

(** The words [W_0] to [W_(n-1)]. *)
Fixpoint schedule (m : list Z) (n : nat) : list Z :=
  match n with
  | O => []
  | S t =>
      let W := schedule m t in
      W ++ [if (t <? 16)%nat then w_at m t
            else rol (Z.lxor (Z.lxor (Z.lxor (w_at W (t - 3)) (w_at W (t - 8))) (w_at W (t - 14))) (w_at W (t - 16))) 1]
  end.

Definition not32 (x : Z) : Z := Z.lxor x 0xFFFFFFFF.

Definition f_t (t : nat) (x y z : Z) : Z :=
  if (t <? 20)%nat then Z.lxor (Z.land x y) (Z.land (not32 x) z)
  else if (t <? 40)%nat then Z.lxor (Z.lxor x y) z
  else if (t <? 60)%nat then Z.lxor (Z.lxor (Z.land x y) (Z.land x z)) (Z.land y z)
  else Z.lxor (Z.lxor x y) z.

Definition K_t (t : nat) : Z :=
  if (t <? 20)%nat then 0x5A827999 else if (t <? 40)%nat then 0x6ED9EBA1
  else if (t <? 60)%nat then 0x8F1BBCDC else 0xCA62C1D6.

Definition sha_step (W : list Z) (v : Z * Z * Z * Z * Z) (t : nat) : Z * Z * Z * Z * Z :=
  let '(a, b, c, d, e) := v in
  (u32 (rol a 5 + f_t t b c d + e + K_t t + w_at W t), a, rol b 30, c, d).

Definition compress (H : list Z) (block : list Z) : list Z :=
  match H with
  | [h0; h1; h2; h3; h4] =>
      let '(a, b, c, d, e) := fold_left (sha_step (schedule (words be_word block) 80)) (seq 0 80) (h0, h1, h2, h3, h4) in
      [u32 (a + h0); u32 (b + h1); u32 (c + h2); u32 (d + h3); u32 (e + h4)]
  | _ => H
  end.

Definition H0 : list Z := [0x67452301; 0xEFCDAB89; 0x98BADCFE; 0x10325476; 0xC3D2E1F0].

(** The whole blocks of a message. *)
Fixpoint blocks (n : nat) (m : list Z) : list (list Z) :=
  match n with O => [] | S n => take 64 m :: blocks n (drop 64 m) end.

Definition be_bytes (n : nat) (z : Z) : list Z := map (fun i => z / 2 ^ (8 * (Z.of_nat n - 1 - Z.of_nat i)) mod 256) (seq 0 n).

(** The message, a one bit, zeros and the length in bits. *)
Definition sha_pad (m : list Z) : list Z :=
  m ++ [128] ++ replicate (Z.to_nat ((55 - zlen m) mod 64)) 0 ++ be_bytes 8 (8 * zlen m).

Definition sha1 (m : list Z) : list Z :=
  let p := sha_pad m in
  concat (map (be_bytes 4) (fold_left compress (blocks (length p / 64) p) H0)).

(** ** Words *)

Definition word (x : Z) : Prop := 0 <= x < 2 ^ 32.

Lemma u32_word x : word (u32 x).
Proof. apply Z.mod_pos_bound. done. Qed.

Lemma u32_id x : word x -> u32 x = x.
Proof. apply Z.mod_small. Qed.

Lemma word_high x n : word x -> 32 <= n -> Z.testbit x n = false.
Proof. intros Hx Hn. rewrite <-(u32_id x Hx). unfold u32. change 4294967296 with (2 ^ 32). apply Z.mod_pow2_bits_high. lia. Qed.

Lemma word_bits x y : word x -> word y -> (forall n, 0 <= n < 32 -> Z.testbit x n = Z.testbit y n) -> x = y.
Proof.
  intros Hx Hy H. apply Z.bits_inj'. intros n Hn. destruct (decide (n < 32)) as [|Hge]; [apply H; lia|].
  rewrite !word_high by (done || lia). done.
Qed.

Lemma word_of_bits x : 0 <= x -> (forall n, 32 <= n -> Z.testbit x n = false) -> word x.
Proof.
  intros Hx H. split; [done|]. destruct (decide (x = 0)) as [->|Hne]; [done|]. apply Z.log2_lt_pow2; [lia|].
  destruct (Z.lt_ge_cases (Z.log2 x) 32) as [|Hge]; [done|]. pose proof (Z.bit_log2 x ltac:(lia)) as Hb. by rewrite H in Hb.
Qed.

Lemma u32_low x n : 0 <= n < 32 -> Z.testbit (u32 x) n = Z.testbit x n.
Proof. intros Hn. unfold u32. change 4294967296 with (2 ^ 32). apply Z.mod_pow2_bits_low. lia. Qed.

Lemma word_lor x y : word x -> word y -> word (Z.lor x y).
Proof.
  intros Hx Hy. apply word_of_bits; [apply Z.lor_nonneg; unfold word in *; lia|]. intros n Hn.
  by rewrite Z.lor_spec, !word_high.
Qed.

Lemma word_land_r x y : word y -> 0 <= x -> word (Z.land x y).
Proof.
  intros Hy Hx. apply word_of_bits; [apply Z.land_nonneg; by left|]. intros n Hn. rewrite Z.land_spec, (word_high y n) by done.
  apply andb_false_r.
Qed.

Lemma rol_word x k : word x -> 0 < k < 32 -> word (rol x k).
Proof.
  intros Hx Hk. unfold rol. apply word_lor; [apply u32_word|]. unfold word in *. rewrite Z.shiftr_div_pow2 by lia.
  split; [apply Z.div_pos; lia|]. apply Z.div_lt_upper_bound; [lia|]. nia.
Qed.

(** A rotation moves the bits round. *)
Lemma rol_bits x k n : word x -> 0 < k < 32 -> 0 <= n < 32 ->
  Z.testbit (rol x k) n = Z.testbit x (if n <? k then n - k + 32 else n - k).
Proof.
  intros Hx Hk Hn. unfold rol. rewrite Z.lor_spec, u32_low, Z.shiftl_spec, Z.shiftr_spec by lia.
  destruct (Z.ltb_spec n k).
  - rewrite (Z.testbit_neg_r x (n - k)) by lia. cbn [orb]. f_equal. lia.
  - rewrite (word_high x (n + (32 - k))) by (done || lia). apply orb_false_r.
Qed.

Lemma bits_add lo hi k n : 0 <= k -> 0 <= lo < 2 ^ k -> 0 <= n ->
  Z.testbit (lo + hi * 2 ^ k) n = if n <? k then Z.testbit lo n else Z.testbit hi (n - k).
Proof.
  intros Hk Hlo Hn. destruct (Z.ltb_spec n k).
  - rewrite <-(Z.mod_pow2_bits_low (lo + hi * 2 ^ k) k n) by lia. rewrite Z.mod_add by lia. by rewrite Z.mod_small.
  - replace (Z.testbit hi (n - k)) with (Z.testbit ((lo + hi * 2 ^ k) / 2 ^ k) (n - k)).
    + rewrite Z.div_pow2_bits by lia. f_equal. lia.
    + f_equal. rewrite Z.div_add by lia. rewrite Z.div_small by lia. lia.
Qed.

Lemma four_bytes_bits x0 x1 x2 x3 m : byte x0 -> byte x1 -> byte x2 -> byte x3 -> 0 <= m ->
  Z.testbit (x0 + x1 * 2 ^ 8 + x2 * 2 ^ 16 + x3 * 2 ^ 24) m =
  if m <? 8 then Z.testbit x0 m else if m - 8 <? 8 then Z.testbit x1 (m - 8)
  else if m - 8 - 8 <? 8 then Z.testbit x2 (m - 8 - 8) else Z.testbit x3 (m - 8 - 8 - 8).
Proof.
  unfold byte. intros H0 H1 H2 H3 Hm.
  replace (x0 + x1 * 2 ^ 8 + x2 * 2 ^ 16 + x3 * 2 ^ 24) with (x0 + (x1 + (x2 + x3 * 2 ^ 8) * 2 ^ 8) * 2 ^ 8) by lia.
  rewrite bits_add by lia. destruct (Z.ltb_spec m 8); [done|]. rewrite bits_add by lia.
  destruct (Z.ltb_spec (m - 8) 8); [done|]. rewrite bits_add by lia. done.
Qed.

Lemma four_bytes_word x0 x1 x2 x3 : byte x0 -> byte x1 -> byte x2 -> byte x3 ->
  word (x0 + x1 * 2 ^ 8 + x2 * 2 ^ 16 + x3 * 2 ^ 24).
Proof. unfold byte, word. lia. Qed.

(** The exchange of the bytes in a word. *)
Lemma be_le x0 x1 x2 x3 : byte x0 -> byte x1 -> byte x2 -> byte x3 ->
  let x := le_word [x0; x1; x2; x3] in
  Z.lor (Z.land (rol x 24) 0xFF00FF00) (Z.land (rol x 8) 0x00FF00FF) = be_word [x0; x1; x2; x3].
Proof.
  intros H0 H1 H2 H3. cbv zeta. assert (word (le_word [x0; x1; x2; x3])) as Hw by by apply four_bytes_word.
  apply word_bits.
  - apply word_lor; apply word_land_r; try done; apply rol_word; try done.
  - by apply four_bytes_word.
  - intros n Hn. rewrite Z.lor_spec, !Z.land_spec, !rol_bits by done. unfold be_word, le_word. cbn [w_at nth].
    rewrite (four_bytes_bits x3 x2 x1 x0) by (done || lia).
    rewrite !(four_bytes_bits x0 x1 x2 x3) by (done || (destruct (Z.ltb_spec n 24), (Z.ltb_spec n 8); lia)).
    assert (exists k, n = Z.of_nat k /\ (k < 32)%nat) as (k & -> & Hk) by (exists (Z.to_nat n); lia). clear Hn.
    do 32 (destruct k as [|k]; [cbn; rewrite ?andb_true_r, ?andb_false_r, ?orb_false_r; reflexivity|]). lia.
Qed.

(** ** The rounds *)

Lemma w_at_set l n v k : (n < length l)%nat -> w_at (w_set l n v) k = if decide (k = n) then v else w_at l k.
Proof.
  unfold w_at. revert n k. induction l as [|x l IH]; intros n k Hn; [cbn in Hn; lia|].
  destruct n as [|n], k as [|k]; cbn; try done. rewrite IH by (cbn in Hn; lia). by repeat case_decide; try lia.
Qed.

Lemma w_set_length l n v : length (w_set l n v) = length l.
Proof. revert n. induction l as [|x l IH]; intros [|n]; cbn; auto. Qed.

(** Which variable plays which part in round [t]. *)
Definition role (k t : nat) : nat := ((k + (5 - t mod 5)) mod 5)%nat.

Definition sched_t (t : nat) : list Z -> nat -> list Z := if (t <? 16)%nat then blk0 else blk.

Definition src_f (t : nat) : Z -> Z -> Z -> Z :=
  if (t <? 20)%nat then fun w x y => Z.lxor (Z.land w (Z.lxor x y)) y
  else if (t <? 40)%nat then fun w x y => Z.lxor (Z.lxor w x) y
  else if (t <? 60)%nat then fun w x y => Z.lor (Z.land (Z.lor w x) y) (Z.land w x)
  else fun w x y => Z.lxor (Z.lxor w x) y.

Definition round_t (t : nat) : regs -> regs :=
  R (src_f t) (K_t t) (sched_t t) (role 0 t) (role 1 t) (role 2 t) (role 3 t) (role 4 t) t.

Definition run_rounds (n : nat) (r : regs) : regs := fold_left (fun r f => f r) (map round_t (seq 0 n)) r.

Lemma rounds_uniform : Unrolled.rounds = map round_t (seq 0 80).
Proof. reflexivity. Qed.

Lemma src_f_t t w x y : word w -> word x -> word y -> src_f t w x y = f_t t w x y.
Proof.
  intros Hw Hx Hy. unfold src_f, f_t. destruct (t <? 20)%nat; [|destruct (t <? 40)%nat; [done|destruct (t <? 60)%nat; [|done]]].
  - apply Z.bits_inj'. intros n Hn. unfold not32. rewrite !Z.lxor_spec, !Z.land_spec, !Z.lxor_spec.
    destruct (decide (n < 32)) as [Hl|Hge].
    + replace (Z.testbit 0xFFFFFFFF n) with true by (change 0xFFFFFFFF with (Z.ones 32); by rewrite Z.ones_spec_low by lia). btauto.
    + rewrite !(word_high _ n) by (done || lia). done.
  - apply Z.bits_inj'. intros n Hn. rewrite !Z.lxor_spec, !Z.lor_spec, !Z.land_spec, !Z.lor_spec. btauto.
Qed.

(** *** The schedule *)

Lemma schedule_length m n : length (schedule m n) = n.
Proof. induction n as [|n IH]; [done|]. cbn. rewrite length_app, IH. cbn. lia. Qed.

Lemma schedule_prefix m n k s : (s < n)%nat -> w_at (schedule m (n + k)) s = w_at (schedule m n) s.
Proof.
  intros Hs. induction k as [|k IH]; [by rewrite Nat.add_0_r|]. rewrite Nat.add_succ_r. cbn [schedule]. unfold w_at in *.
  rewrite app_nth1 by (rewrite schedule_length; lia). exact IH.
Qed.

Lemma schedule_at m n s : (s < n)%nat -> let W := schedule m n in
  w_at W s = if (s <? 16)%nat then w_at m s
    else rol (Z.lxor (Z.lxor (Z.lxor (w_at W (s - 3)) (w_at W (s - 8))) (w_at W (s - 14))) (w_at W (s - 16))) 1.
Proof.
  intros Hs W. assert (forall j, (j <= s)%nat -> w_at W j = w_at (schedule m (S s)) j) as Hp.
  { intros j Hj. unfold W. replace n with (S s + (n - S s))%nat by lia. apply schedule_prefix. lia. }
  assert (forall j, (j < s)%nat -> w_at (schedule m (S s)) j = w_at (schedule m s) j) as Hq.
  { intros j Hj. replace (S s) with (s + 1)%nat by lia. by apply schedule_prefix. }
  rewrite Hp by lia. cbn [schedule]. unfold w_at at 1. rewrite app_nth2 by (rewrite schedule_length; lia).
  rewrite schedule_length, Nat.sub_diag. cbn [nth]. destruct (Nat.ltb_spec s 16); [done|]. by rewrite !Hp, !Hq by lia.
Qed.

(** Before round [t] the block holds the last words of the schedule, and the
    words of the message that are still to come. *)
Definition sched_inv (W mle : list Z) (t : nat) (l : list Z) : Prop :=
  length l = 16%nat /\ (forall s, (s < t)%nat -> (t <= s + 16)%nat -> w_at l (m15 s) = w_at W s) /\
  (forall j, (t <= j < 16)%nat -> w_at l j = w_at mle j).

Lemma m15_lt s : (m15 s < 16)%nat.
Proof. apply Nat.mod_upper_bound. done. Qed.

Lemma m15_add s k : m15 (s + 16 * k) = m15 s.
Proof. unfold m15. rewrite (Nat.mul_comm 16), Nat.Div0.mod_add. done. Qed.

Lemma m15_inj s t : m15 s = m15 t -> (s <= t)%nat -> (t < s + 16)%nat -> s = t.
Proof.
  unfold m15. intros H H1 H2. pose proof (Nat.div_mod_eq s 16). pose proof (Nat.div_mod_eq t 16). lia.
Qed.

Lemma sched_inv_step M W mle t l : W = schedule M 80 -> (t < 80)%nat ->
  (forall j, (j < 16)%nat -> Z.lor (Z.land (rol (w_at mle j) 24) 0xFF00FF00) (Z.land (rol (w_at mle j) 8) 0x00FF00FF) = w_at M j) ->
  sched_inv W mle t l -> sched_inv W mle (S t) (sched_t t l t) /\ w_at (sched_t t l t) (m15 t) = w_at W t.
Proof.
  intros -> Ht Hswap (Hl & Hw & Hm).
  assert (exists v, sched_t t l t = w_set l (m15 t) v /\ v = w_at (schedule M 80) t) as (v & -> & Hv).
  { pose proof (schedule_at M 80 t Ht) as Hs. cbv zeta in Hs. rewrite Hs. unfold sched_t. destruct (Nat.ltb_spec t 16) as [H16|H16].
    - eexists. split; [unfold blk0, m15; by rewrite (Nat.mod_small t 16)|]. rewrite Hm by lia. by apply Hswap.
    - eexists. split; [done|].
      replace (t + 13)%nat with ((t - 3) + 16 * 1)%nat by lia. replace (t + 8)%nat with ((t - 8) + 16 * 1)%nat by lia.
      replace (t + 2)%nat with ((t - 14) + 16 * 1)%nat by lia. rewrite !m15_add.
      rewrite !Hw by lia. replace (m15 t) with (m15 (t - 16)) by (rewrite <-(m15_add (t - 16) 1); f_equal; lia).
      by rewrite Hw by lia. }
  assert (m15 t < length l)%nat as Hb by (rewrite Hl; apply m15_lt). split.
  - split; [by rewrite w_set_length|]. split.
    + intros s Hs1 Hs2. rewrite w_at_set by done. case_decide as He; [|apply Hw; [|lia]].
      * apply m15_inj in He; [|lia|lia]. by subst.
      * assert (s <> t) by (intros ->; done). lia.
    + intros j Hj. rewrite w_at_set by done. unfold m15. rewrite (Nat.mod_small t 16) by lia. rewrite decide_False by lia. apply Hm. lia.
  - rewrite w_at_set by done. by rewrite decide_True.
Qed.

(** *** The working variables *)

Lemma u32_add_l x y : u32 (u32 x + y) = u32 (x + y).
Proof. unfold u32. apply Zplus_mod_idemp_l. Qed.

Lemma u32_add_r x y : u32 (x + u32 y) = u32 (x + y).
Proof. unfold u32. apply Zplus_mod_idemp_r. Qed.

(** The five variables hold the standard's, in the parts they play. *)
Definition vars_inv (t : nat) (vars : list Z) (v : Z * Z * Z * Z * Z) : Prop :=
  length vars = 5%nat /\ Forall word vars /\
  v = (w_at vars (role 0 t), w_at vars (role 1 t), w_at vars (role 2 t), w_at vars (role 3 t), w_at vars (role 4 t)).

Lemma role_succ k t : (0 < k < 5)%nat -> role k (S t) = role (k - 1) t.
Proof.
  intros Hk. unfold role. pose proof (Nat.mod_upper_bound t 5 ltac:(done)).
  rewrite <-(Nat.add_1_r t), (Nat.Div0.add_mod t 1). change (1 mod 5)%nat with 1%nat. generalize dependent (t mod 5)%nat. intros m Hm.
  destruct m as [|[|[|[|[|]]]]], k as [|[|[|[|[|]]]]]; done || lia.
Qed.

Lemma role_first t : role 0 (S t) = role 4 t.
Proof.
  unfold role. pose proof (Nat.mod_upper_bound t 5 ltac:(done)).
  rewrite <-(Nat.add_1_r t), (Nat.Div0.add_mod t 1). change (1 mod 5)%nat with 1%nat. generalize dependent (t mod 5)%nat. intros m Hm.
  destruct m as [|[|[|[|[|]]]]]; done || lia.
Qed.

Lemma role_lt k t : (role k t < 5)%nat.
Proof. by apply Nat.mod_upper_bound. Qed.

Lemma role_inj k k' t : (k < 5)%nat -> (k' < 5)%nat -> role k t = role k' t -> k = k'.
Proof.
  unfold role. pose proof (Nat.mod_upper_bound t 5 ltac:(done)). generalize dependent (t mod 5)%nat. intros m Hm Hk Hk'.
  destruct m as [|[|[|[|[|]]]]], k as [|[|[|[|[|]]]]], k' as [|[|[|[|[|]]]]]; done || lia.
Qed.

Lemma word_at l n : Forall word l -> word (w_at l n).
Proof.
  intros H. unfold w_at. destruct (nth_in_or_default n l 0) as [Hi| ->]; [|done]. rewrite Forall_forall in H. apply H.
  by apply list_elem_of_In.
Qed.

Lemma word_set l n v : Forall word l -> word v -> Forall word (w_set l n v).
Proof. intros H Hv. revert n. induction H as [|x l Hx H IH]; intros [|n]; cbn; auto. Qed.

Lemma vars_step W t vars block v : vars_inv t vars v -> w_at (sched_t t block t) (m15 t) = w_at W t ->
  vars_inv (S t) (round_t t (vars, block)).1 (sha_step W v t).
Proof.
  intros (Hl & Hw & ->) Hs. unfold round_t, R. cbn [fst snd]. rewrite Hs. unfold vars_inv, sha_step.
  pose proof (role_lt 1 t). pose proof (role_lt 4 t).
  rewrite !w_set_length. split; [done|]. split.
  { apply word_set; [apply word_set; [done|apply u32_word]|]. apply rol_word; [|lia]. apply word_at, word_set; [done|apply u32_word]. }
  rewrite role_first, !role_succ by lia. cbn [Nat.sub].
  rewrite !w_at_set by (rewrite ?w_set_length; lia).
  assert (forall k k', (k < 5)%nat -> (k' < 5)%nat -> k <> k' -> role k t <> role k' t) as Hne by (intros k k' Hk Hk' Hd He; by apply Hd, (role_inj k k' t)).
  rewrite !(decide_True (P := role 1 t = role 1 t)), !(decide_True (P := role 4 t = role 4 t)) by done.
  rewrite !(decide_False (P := role _ t = role 1 t)), !(decide_False (P := role _ t = role 4 t)) by (apply Hne; lia).
  rewrite (src_f_t t) by by apply word_at. f_equal. f_equal. f_equal. f_equal.
  rewrite u32_add_l, <-(Z.add_assoc (u32 _)), u32_add_l, u32_add_r. f_equal. lia.
Qed.

Lemma run_rounds_S n r : run_rounds (S n) r = round_t n (run_rounds n r).
Proof. unfold run_rounds. by rewrite seq_S, map_app, fold_left_app. Qed.

Lemma rounds_correct M mle state block v n : (n <= 80)%nat ->
  (forall j, (j < 16)%nat -> Z.lor (Z.land (rol (w_at mle j) 24) 0xFF00FF00) (Z.land (rol (w_at mle j) 8) 0x00FF00FF) = w_at M j) ->
  vars_inv 0 state v -> sched_inv (schedule M 80) mle 0 block ->
  let r := run_rounds n (state, block) in
  vars_inv n r.1 (fold_left (sha_step (schedule M 80)) (seq 0 n) v) /\ sched_inv (schedule M 80) mle n r.2.
Proof.
  intros Hn Hswap Hv Hb. induction n as [|n IH]; [done|]. cbv zeta in *. rewrite run_rounds_S, seq_S, fold_left_app.
  destruct IH as [IHv IHb]; [lia|]. destruct (run_rounds n (state, block)) as [vars l]. cbn [fst snd fold_left Nat.add] in *.
  destruct (sched_inv_step M _ mle n l eq_refl ltac:(lia) Hswap IHb) as [Hb' Hwn]. split; [|exact Hb'].
  by apply vars_step.
Qed.

Lemma words_length f b : length (words f b) = 16%nat.
Proof. reflexivity. Qed.

Lemma words_at f b j : (j < 16)%nat -> w_at (words f b) j = f (take 4 (drop (4 * j) b)).
Proof.
  intros Hj. unfold w_at, words. rewrite (nth_indep _ 0 (f (take 4 (drop (4 * 0) b)))) by (rewrite length_map, length_seq; lia).
  rewrite (map_nth (fun i => f (take 4 (drop (4 * i) b))) _ 0%nat), seq_nth by lia. done.
Qed.

Lemma words_swap b j : length b = 64%nat -> Forall byte b -> (j < 16)%nat ->
  Z.lor (Z.land (rol (w_at (words le_word b) j) 24) 0xFF00FF00) (Z.land (rol (w_at (words le_word b) j) 8) 0x00FF00FF) =
  w_at (words be_word b) j.
Proof.
  intros Hb Hby Hj. rewrite !words_at by done.
  assert (length (take 4 (drop (4 * j) b)) = 4%nat) as Hl by (rewrite length_take, length_drop; lia).
  assert (Forall byte (take 4 (drop (4 * j) b))) as Hf by by apply Forall_take, Forall_drop.
  destruct (take 4 (drop (4 * j) b)) as [|x0 [|x1 [|x2 [|x3 []]]]]; try (cbn in Hl; lia).
  rewrite !Forall_cons in Hf. destruct Hf as (? & ? & ? & ? & _). by apply be_le.
Qed.

(** The unrolled rounds compute the standard's compression. *)
Lemma Transform_compress st b : length st = 5%nat -> Forall word st -> length b = 64%nat -> Forall byte b ->
  EXSHA1Transform st b = compress st b.
Proof.
  intros Hl Hw Hb Hby. unfold EXSHA1Transform. rewrite rounds_uniform.
  destruct st as [|h0 [|h1 [|h2 [|h3 [|h4 []]]]]]; try (cbn in Hl; lia). clear Hl.
  destruct (rounds_correct (words be_word b) (words le_word b) [h0; h1; h2; h3; h4] (words le_word b) (h0, h1, h2, h3, h4) 80) as [(Hl & _ & Hv) _].
  - lia.
  - intros. by apply words_swap.
  - done.
  - split; [done|]. split; [lia|done].
  - unfold compress. rewrite Hv. change (fold_left _ _ ([h0; h1; h2; h3; h4], words le_word b))
      with (run_rounds 80 ([h0; h1; h2; h3; h4], words le_word b)).
    generalize dependent (run_rounds 80 ([h0; h1; h2; h3; h4], words le_word b)).
    intros [vars l] Hl _. cbn [fst] in *. destruct vars as [|a [|b' [|c [|d [|e []]]]]]; try (cbn in Hl; lia).
    cbn. by rewrite (Z.add_comm a), (Z.add_comm b'), (Z.add_comm c), (Z.add_comm d), (Z.add_comm e).
Qed.

Lemma compress_words st b : length st = 5%nat -> length (compress st b) = 5%nat /\ (Forall word (compress st b) \/ compress st b = st).
Proof.
  intros Hl. destruct st as [|h0 [|h1 [|h2 [|h3 [|h4 []]]]]]; try (cbn in Hl; lia). unfold compress.
  destruct (fold_left _ _ _) as [[[[a b'] c] d] e]. split; [done|]. left. repeat constructor; apply u32_word.
Qed.

(** ** The input *)

Definition good_state (st : list Z) : Prop := length st = 5%nat /\ Forall word st.

Lemma compress_good st b : good_state st -> good_state (compress st b).
Proof. intros [Hl Hw]. destruct (compress_words st b Hl) as [? [?| ->]]; by split. Qed.

Lemma fold_compress_good bs st : good_state st -> good_state (fold_left compress bs st).
Proof. revert st. induction bs as [|b bs IH]; intros st Hst; [done|]. by apply IH, compress_good. Qed.

Lemma H0_good : good_state H0.
Proof. split; [done|]. repeat constructor; unfold word; lia. Qed.

Lemma blocks_app n k x y : length x = (64 * n)%nat -> blocks (n + k) (x ++ y) = blocks n x ++ blocks k y.
Proof.
  revert x. induction n as [|n IH]; intros x Hx; [by destruct x|]. cbn [blocks Nat.add app].
  rewrite take_app_le, drop_app_le by lia. f_equal. apply IH. rewrite length_drop. lia.
Qed.

Lemma blocks_more n x y : length x = (64 * n)%nat -> blocks n (x ++ y) = blocks n x.
Proof. intros Hx. rewrite <-(Nat.add_0_r n) at 1. rewrite blocks_app by done. apply app_nil_r. Qed.

(** The loop consumes the whole blocks. *)
Lemma update_loop_spec k fuel pre x rest st len : (k < fuel)%nat -> length x = (64 * k)%nat -> zlen rest < 64 -> Forall byte x ->
  len = zlen pre + zlen x + zlen rest -> len + 64 < 2 ^ 32 -> good_state st ->
  update_loop fuel (pre ++ x ++ rest) len (zlen pre) st = Some (fold_left compress (blocks k x) st, zlen pre + zlen x).
Proof.
  revert fuel pre x st. induction k as [|k IH]; intros fuel pre x st Hf Hx Hr Hby Hlen Hmax Hst; (destruct fuel as [|fuel]; [lia|]); cbn [update_loop].
  - assert (x = []) as -> by by destruct x. rewrite u32_id by (unfold word; zl).
    rewrite (proj2 (Z.ltb_ge _ _)) by zl. cbn. f_equal. f_equal. zl.
  - assert (zlen x = 64 * Z.of_nat (S k)) as Hzx by (unfold zlen; lia).
    rewrite u32_id by (unfold word; zl). rewrite (proj2 (Z.ltb_lt _ _)) by zl.
    assert (pre ++ x ++ rest = (pre ++ take 64 x) ++ drop 64 x ++ rest) as Heq
      by (by rewrite <-app_assoc, (app_assoc (take 64 x)), take_drop).
    assert (length (take 64 x) = 64%nat) as H64 by (rewrite length_take; lia).
    rewrite (ld_bytes_at _ pre (take 64 x) (drop 64 x ++ rest)) by (by rewrite ?Heq, <-?app_assoc || (unfold zlen; lia)). cbn [mbind option_bind].
    rewrite Transform_compress by (done || apply Hst || by apply Forall_take).
    rewrite u32_id by (unfold word; zl). replace (zlen pre + 64) with (zlen (pre ++ take 64 x)) by (unfold zlen; rewrite length_app; lia).
    rewrite Heq. assert (zlen (drop 64 x) = zlen x - 64) by (unfold zlen; rewrite length_drop; lia).
    rewrite IH; [|lia|rewrite length_drop; lia|done|by apply Forall_drop|rewrite zlen_app; unfold zlen in *; lia|done|by apply compress_good].
    cbn [blocks fold_left]. f_equal. f_equal. rewrite zlen_app. unfold zlen in *. lia.
Qed.

(** A context that has taken in [m]: the state is that of its whole blocks, the
    rest is in the buffer, the number of bits in the counters. *)
Definition taken (m : list Z) (ctx : EXSHA1_CTX) : Prop := exists n m1 m2 junk,
  m = m1 ++ m2 /\ length m1 = (64 * n)%nat /\ (length m2 < 64)%nat /\
  state ctx = fold_left compress (blocks n m1) H0 /\ buffer ctx = m2 ++ junk /\ zlen (buffer ctx) = 64 /\
  count0 ctx = u32 (8 * zlen m) /\ count1 ctx = u32 (8 * zlen m / 2 ^ 32).

Lemma taken_init garbage : zlen garbage = 64 -> taken [] (EXSHA1Init garbage).
Proof. intros H. exists 0%nat, [], [], garbage. repeat (split; [done || (cbn; lia)|]). done. Qed.

Lemma count_pos (m1 m2 : list Z) n : length m1 = (64 * n)%nat -> (length m2 < 64)%nat ->
  Z.land (Z.shiftr (u32 (8 * zlen (m1 ++ m2))) 3) 63 = zlen m2.
Proof.
  intros H1 H2. change 63 with (Z.ones 6). rewrite Z.land_ones, Z.shiftr_div_pow2 by lia. rewrite zlen_app. unfold u32, zlen.
  rewrite H1, Nat2Z.inj_mul. change (Z.of_nat 64) with 64. change (2 ^ 6) with 64. change (2 ^ 3) with 8.
  generalize dependent (length m2). intros k Hk. Z.to_euclidean_division_equations. lia.
Qed.

(** The counters carry. *)
Lemma count_step L len : 0 <= L -> 0 <= len < 2 ^ 32 ->
  let c0 := u32 (u32 (8 * L) + u32 (Z.shiftl len 3)) in
  c0 = u32 (8 * (L + len)) /\
  u32 (u32 (u32 (8 * L / 2 ^ 32) + (if c0 <? u32 (8 * L) then 1 else 0)) + Z.shiftr len 29) = u32 (8 * (L + len) / 2 ^ 32).
Proof.
  intros HL Hlen. cbv zeta. rewrite Z.shiftl_mul_pow2, Z.shiftr_div_pow2 by lia. change (2 ^ 3) with 8. change (2 ^ 29) with 536870912.
  change (2 ^ 32) with 4294967296 in *. split.
  - rewrite u32_add_l, u32_add_r. f_equal. lia.
  - rewrite u32_add_l, <-(Z.add_assoc (u32 _)), u32_add_l. f_equal. unfold u32. destruct (Z.ltb_spec ((((8 * L) mod 4294967296) + ((len * 8) mod 4294967296)) mod 4294967296) ((8 * L) mod 4294967296));
      Z.to_euclidean_division_equations; lia.
Qed.

Lemma blocks_one b : length b = 64%nat -> blocks 1 b = [b].
Proof. intros Hb. cbn. by rewrite take_ge by lia. Qed.

(** Whole blocks are compressed, and what is left fits in the buffer. *)
Lemma update_blocks_spec ctx data len n m1 m2 junk :
  length m1 = (64 * n)%nat -> (length m2 < 64)%nat -> state ctx = fold_left compress (blocks n m1) H0 ->
  buffer ctx = m2 ++ junk -> zlen (buffer ctx) = 64 -> Forall byte m2 -> Forall byte data -> len = zlen data -> len + 128 < 2 ^ 32 ->
  exists n' m1' m2' used rest junk',
    update_blocks ctx data len (zlen m2) = Some (fold_left compress (blocks n' m1') H0, m2' ++ junk', zlen m2', zlen used) /\
    m1 ++ m2 ++ data = m1' ++ m2' ++ rest /\ data = used ++ rest /\ length m1' = (64 * n')%nat /\
    (length (m2' ++ rest) < 64)%nat /\ zlen (m2' ++ junk') = 64.
Proof.
  intros H1 H2 Hst Hbuf Hb64 Hby2 Hby Hlen Hmax. unfold update_blocks.
  assert (zlen m2 < 64) by (unfold zlen; lia). rewrite u32_id by (unfold word; zl).
  destruct (Z.ltb_spec 63 (zlen m2 + len)) as [Hbig|Hsmall]; cycle 1.
  { exists n, m1, m2, [], data, junk. rewrite Hst, Hbuf. rewrite Hbuf in Hb64. repeat (split; [done|]). split; [|done].
    rewrite length_app. unfold zlen in *. lia. }
  destruct (split_at data 0 (64 - zlen m2)) as (e & x0 & dr & -> & He & Hx0); [lia|lia|lia|].
  apply zlen_0_inv in He as ->. cbn [app] in *. apply Forall_app in Hby as [Hbx Hbd].
  rewrite (ld_bytes_at _ [] x0 dr) by done || zl. cbn [mbind option_bind].
  rewrite (st_bytes_at _ m2 junk [] x0) by (rewrite ?Hbuf, ?app_nil_r in *; done || zl). cbn [mbind option_bind].
  assert (length (m2 ++ x0) = 64%nat) as H64 by (rewrite length_app; unfold zlen in *; lia).
  rewrite app_nil_r, Hst, Transform_compress;
    [|apply fold_compress_good, H0_good|apply fold_compress_good, H0_good|done|by apply Forall_app].
  set (k := (length dr / 64)%nat). pose proof (Nat.div_mod_eq (length dr) 64) as Hdm. pose proof (Nat.mod_upper_bound (length dr) 64 ltac:(done)).
  fold k in Hdm. assert (length (take (64 * k) dr) = (64 * k)%nat) as Htk by (rewrite length_take; lia).
  assert (length (drop (64 * k) dr) < 64)%nat as Hdk by (rewrite length_drop; lia).
  exists (n + (1 + k))%nat, (m1 ++ (m2 ++ x0) ++ take (64 * k) dr), [], (x0 ++ take (64 * k) dr), (drop (64 * k) dr), (m2 ++ x0).
  rewrite <-(take_drop (64 * k) dr) at 1. rewrite <-Hx0.
  rewrite (update_loop_spec k); [|rewrite Hlen; unfold zlen; rewrite length_app; lia|done|unfold zlen; lia|by apply Forall_take| |lia|].
  - rewrite !blocks_app, blocks_one, !fold_left_app by done. cbn [mbind option_bind fst snd fold_left].
    rewrite zlen_app. split; [done|]. split; [cbn [app]; by rewrite <-!app_assoc, take_drop|]. split; [by rewrite <-app_assoc, take_drop|].
    split; [rewrite !length_app in *; lia|]. split; [exact Hdk|]. cbn [app]. unfold zlen. lia.
  - rewrite Hlen, zlen_app, <-(take_drop (64 * k) dr) at 1. rewrite zlen_app. lia.
  - by apply compress_good, fold_compress_good, H0_good.
Qed.

Lemma Update_taken m ctx data len : taken m ctx -> Forall byte m -> Forall byte data -> len = zlen data -> len + 128 < 2 ^ 32 ->
  exists ctx', EXSHA1Update ctx data len = Some ctx' /\ taken (m ++ data) ctx'.
Proof.
  intros (n & m1 & m2 & junk & -> & H1 & H2 & Hst & Hbuf & Hb64 & Hc0 & Hc1) [_ Hby2]%Forall_app Hby Hlen Hmax.
  unfold EXSHA1Update. rewrite Hc0, count_pos with (n := n) by done.
  destruct (update_blocks_spec ctx data len n m1 m2 junk) as (n' & m1' & m2' & used & rest & junk' & -> & Hm & Hd & H1' & H2' & H64); try done.
  cbn [mbind option_bind fst snd]. rewrite (ld_bytes_at data used rest []) by (rewrite ?app_nil_r; done || (rewrite Hlen, Hd; zl)).
  cbn [mbind option_bind]. destruct (split_at junk' 0 (zlen rest)) as (e & j1 & j2 & -> & He & Hj); [lia|zl|unfold zlen in *; rewrite !length_app in *; lia|].
  apply zlen_0_inv in He as ->. cbn [app] in *. rewrite (st_bytes_at _ m2' j1 j2 rest) by (done || lia). cbn [mbind option_bind].
  destruct (count_step (zlen (m1 ++ m2)) len) as [Hn0 Hn1]; [zl|zl|]. cbv zeta in Hn0, Hn1.
  eexists. split; [done|]. exists n', m1', (m2' ++ rest), j2. cbn.
  rewrite Hc1, Hn1, Hn0, (zlen_app (m1 ++ m2)), <-Hlen.
  split; [by rewrite <-app_assoc|]. do 3 (split; [done|]). split; [by rewrite <-app_assoc|]. split; [|done]. rewrite !zlen_app in *. lia.
Qed.

(** ** Padding and digest *)

Lemma low_byte z k : 0 <= k <= 24 -> Z.land (Z.shiftr (u32 z) k) 255 = z / 2 ^ k mod 256.
Proof.
  intros Hk. change 255 with (Z.ones 8). rewrite Z.land_ones by lia. change (2 ^ 8) with 256. rewrite <-(Z.shiftr_div_pow2 z) by lia.
  change 256 with (2 ^ 8). apply Z.bits_inj'. intros n Hn. destruct (decide (n < 8)).
  - rewrite !Z.mod_pow2_bits_low, !Z.shiftr_spec, u32_low by lia. done.
  - rewrite !Z.mod_pow2_bits_high by lia. done.
Qed.

Lemma finalcount_bytes z :
  map (fun i => be_byte (if (4 <=? i)%nat then u32 z else u32 (z / 2 ^ 32)) i) (seq 0 8) = be_bytes 8 z.
Proof.
  assert (forall k, 0 <= k -> z / 2 ^ 32 / 2 ^ k = z / 2 ^ (32 + k)) as Hd by (intros k Hk; rewrite Z.div_div, Z.pow_add_r by lia; done).
  unfold be_bytes. apply map_ext_in. intros i Hi%in_seq. unfold be_byte.
  do 8 (destruct i as [|i]; [cbn -[Z.pow Z.div Z.modulo Z.land Z.shiftr u32]; rewrite low_byte by lia; rewrite ?Hd by lia; f_equal; f_equal; f_equal; lia|]).
  lia.
Qed.

Lemma digest_bytes st : good_state st -> map (fun i => be_byte (w_at st (i / 4)) i) (seq 0 20) = concat (map (be_bytes 4) st).
Proof.
  intros [Hl Hw]. destruct st as [|h0 [|h1 [|h2 [|h3 [|h4 []]]]]]; try (cbn in Hl; lia). rewrite !Forall_cons in Hw.
  destruct Hw as (W0 & W1 & W2 & W3 & W4 & _). unfold be_byte, be_bytes.
  cbn -[Z.pow Z.div Z.modulo Z.land Z.shiftr]. rewrite <-(u32_id h0), <-(u32_id h1), <-(u32_id h2), <-(u32_id h3), <-(u32_id h4) by done.
  rewrite !low_byte by lia. rewrite !u32_id by done. done.
Qed.

Lemma count_mod L : 0 <= L -> Z.land (u32 (8 * L)) 504 = 8 * (L mod 64).
Proof.
  intros HL. change 504 with (Z.shiftl (Z.ones 6) 3). apply Z.bits_inj'. intros n Hn. rewrite Z.land_spec.
  replace (8 * (L mod 64)) with (Z.shiftl (Z.land L (Z.ones 6)) 3) by (rewrite Z.land_ones, Z.shiftl_mul_pow2 by lia; change (2 ^ 6) with 64; lia).
  rewrite !Z.shiftl_spec, Z.land_spec by lia. destruct (decide (n - 3 < 6)) as [Hl|Hg].
  - rewrite u32_low by lia. f_equal. replace (8 * L) with (Z.shiftl L 3) by (rewrite Z.shiftl_mul_pow2 by lia; lia). by apply Z.shiftl_spec.
  - rewrite Z.ones_spec_high by lia. by rewrite !andb_false_r.
Qed.

Lemma taken_count0 m ctx : taken m ctx -> count0 ctx = u32 (8 * zlen m).
Proof. by intros (? & ? & ? & ? & _ & _ & _ & _ & _ & _ & H & _). Qed.

Lemma pad_loop_spec p fuel m ctx : (p < fuel)%nat -> taken m ctx -> Forall byte m -> Z.of_nat p = (56 - zlen m) mod 64 ->
  exists ctx', pad_loop fuel ctx = Some ctx' /\ taken (m ++ replicate p 0) ctx'.
Proof.
  revert fuel m ctx. induction p as [|p IH]; intros fuel m ctx Hf Ht Hby Hp; (destruct fuel as [|fuel]; [lia|]); cbn [pad_loop];
    rewrite (taken_count0 m ctx Ht);
    rewrite count_mod by zl; pose proof (Z.mod_pos_bound (zlen m) 64 ltac:(lia)).
  - rewrite (proj2 (Z.eqb_eq _ _)) by (Z.to_euclidean_division_equations; lia). exists ctx. by rewrite app_nil_r.
  - rewrite (proj2 (Z.eqb_neq _ _)) by (Z.to_euclidean_division_equations; lia). cbn [negb].
    destruct (Update_taken m ctx [0] 1) as (c1 & -> & Ht1); [done|done|by repeat constructor|done|lia|]. cbn [mbind option_bind].
    destruct (IH fuel (m ++ [0]) c1) as (c2 & -> & Ht2); [lia|done|apply Forall_app; split; [done|by repeat constructor]|
      autorewrite with zlen; Z.to_euclidean_division_equations; lia|].
    exists c2. split; [done|]. by rewrite <-app_assoc in Ht2.
Qed.

Lemma sha_pad_length m : exists k, length (sha_pad m) = (64 * k)%nat.
Proof.
  exists ((length m + 1 + Z.to_nat ((55 - zlen m) mod 64) + 8) / 64)%nat. unfold sha_pad, be_bytes.
  rewrite !length_app, length_replicate, length_map, length_seq. cbn [length]. unfold zlen.
  apply Nat2Z.inj. rewrite Nat2Z.inj_mul, Nat2Z.inj_div, !Nat2Z.inj_add, Z2Nat.id by (apply Z.mod_pos_bound; lia).
  Z.to_euclidean_division_equations. lia.
Qed.

Lemma taken_whole m ctx k : taken m ctx -> length m = (64 * k)%nat -> state ctx = fold_left compress (blocks (length m / 64) m) H0.
Proof.
  intros (n & m1 & m2 & junk & -> & H1 & H2 & -> & _) Hk. rewrite length_app in *. assert (length m2 = 0)%nat as H0' by lia.
  destruct m2; [|done]. cbn [length]. rewrite app_nil_r, Nat.add_0_r, H1, Nat.mul_comm, Nat.div_mul by done. done.
Qed.

Lemma be_bytes_byte n z : Forall byte (be_bytes n z).
Proof. apply Forall_forall. intros x (i & -> & _)%list_elem_of_fmap. apply Z.mod_pos_bound. lia. Qed.

Lemma Final_digest m ctx : taken m ctx -> Forall byte m -> EXSHA1Final ctx = Some (sha1 m).
Proof.
  intros Ht Hby. unfold EXSHA1Final.
  replace (map _ (seq 0 8)) with (be_bytes 8 (8 * zlen m)).
  2:{ rewrite <-finalcount_bytes. by destruct Ht as (? & ? & ? & ? & _ & _ & _ & _ & _ & _ & -> & ->). }
  destruct (Update_taken m ctx [128] 1) as (c1 & -> & Ht1); [done|done|by repeat constructor|done|lia|]. cbn [mbind option_bind].
  assert (Forall byte (m ++ [128])) as Hby1 by (apply Forall_app; split; [done|by repeat constructor]).
  pose proof (Z.mod_pos_bound (55 - zlen m) 64 ltac:(lia)) as Hp.
  destruct (pad_loop_spec (Z.to_nat ((55 - zlen m) mod 64)) 65 (m ++ [128]) c1) as (c2 & -> & Ht2); [lia|done|done| |].
  { rewrite Z2Nat.id by lia. autorewrite with zlen. f_equal. lia. }
  cbn [mbind option_bind].
  destruct (Update_taken _ c2 (be_bytes 8 (8 * zlen m)) 8 Ht2) as (c3 & -> & Ht3); [|apply be_bytes_byte|done|lia|].
  { apply Forall_app. split; [done|]. by apply Forall_replicate. }
  cbn [mbind option_bind]. rewrite <-!app_assoc in Ht3. change (taken (sha_pad m) c3) in Ht3.
  destruct (sha_pad_length m) as [k Hk]. rewrite (taken_whole _ _ k Ht3 Hk). rewrite digest_bytes; [done|].
  apply fold_compress_good, H0_good.
Qed.

Lemma sha1_loop_taken s m ctx : taken m ctx -> Forall byte m -> Forall byte s ->
  exists ctx', sha1_loop ctx s = Some ctx' /\ taken (m ++ s) ctx'.
Proof.
  revert m ctx. induction s as [|x s IH]; intros m ctx Ht Hm Hs; [exists ctx; by rewrite app_nil_r|]. apply Forall_cons in Hs as [Hx Hs].
  cbn [sha1_loop]. destruct (Update_taken m ctx [x] 1) as (c1 & -> & Ht1); [done|done|by apply Forall_singleton|done|lia|]. cbn [mbind option_bind].
  destruct (IH (m ++ [x]) c1) as (c2 & -> & Ht2); [done|apply Forall_app; split; [done|by apply Forall_singleton]|done|].
  exists c2. split; [done|]. by rewrite <-app_assoc in Ht2.
Qed.

(** [EXSHA1] is SHA-1: for every string of bytes, whatever the context's
    buffer held before, the unrolled rounds, the schedule computed in place, the
    buffering byte by byte, the counters and the padding loop together yield the
    digest the standard defines, and a terminator behind it. *)
Theorem sha1_standard garbage m : Forall byte m -> zlen garbage = 64 -> EXSHA1 garbage m = Some (sha1 m ++ [0]).
Proof.
  intros Hm Hg. unfold EXSHA1. destruct (sha1_loop_taken m [] (EXSHA1Init garbage)) as (ctx & -> & Ht); [by apply taken_init|done|done|].
  cbn [mbind option_bind app] in *. by rewrite (Final_digest m).
Qed.

Module Sha1Demo.

(** The digest of [abc], as the comment at the head of the source gives it. *)
Lemma sha1_standard_witness :
  EXSHA1 (replicate 64 170) [97; 98; 99] =
  Some ([0xA9; 0x99; 0x3E; 0x36; 0x47; 0x06; 0x81; 0x6A; 0xBA; 0x3E; 0x25; 0x71; 0x78; 0x50; 0xC2; 0x6C; 0x9C; 0xD0; 0xD8; 0x9D] ++ [0]).
Proof.
  transitivity (Some (sha1 [97; 98; 99] ++ [0])); [|vm_compute; reflexivity].
  apply (sha1_standard (replicate 64 170) [97; 98; 99]); [|reflexivity]. repeat constructor; unfold byte; lia.
Defined.

End Sha1Demo.
