(* ===== verification/Crypto.v ===== *)
(** * Encryption of data and strings

    [libnstd/crypto.c], on top of SHA-1, AES and Base64, and the two functions of
    the ATMI interface, [tpencrypt] and [tpdecrypt]
    ([libatmi/atmi.c], [libatmi/tpcrypto.c]).

    A buffer is the list of the bytes that belong to it, so that the length the
    caller announces in [*olen] and the size of the buffer are separate.  Every
    operation returns the error number, if it fails, with the output and [*olen];
    [None] stands for undefined behaviour. *)

From S2P Require Import Prelude Base64 Aes Sha1.

(** Errors of the standard library and of ATMI; [0] is a failure that sets no error. *)
Definition NEINVALINI : Z := 1.
Definition NEMALLOC : Z := 2.
Definition NEUNIX : Z := 3.
Definition NEINVAL : Z := 4.
Definition NESYSTEM : Z := 5.
Definition NEMANDATORY : Z := 6.
Definition NEFORMAT : Z := 7.
Definition NETOUT : Z := 8.
Definition NENOCONN : Z := 9.
Definition NELIMIT : Z := 10.
Definition NEPLUGIN : Z := 11.
Definition NENOSPACE : Z := 12.
Definition NEINVALKEY : Z := 13.

Definition result : Type := option Z * list Z * Z.

Definition NDRX_ENC_BLOCK_SIZE : Z := 16.
Definition CRYPTO_LEN_PFX_BYTES : Z := 4.
Definition IV_INIT : list Z :=
  [0xab; 0xcc; 0x1b; 0xc2; 0x3d; 0xe4; 0x44; 0x11; 0x30; 0x54; 0x34; 0x09; 0xef; 0xaf; 0xfc; 0xf5].

Definition NDRX_BASE64_SIZE (X : Z) : Z := Z.quot (X + 2) 3 * 4.

(** ** The key *)

(** The default plugin: the host and the user; [hostname] is what the system
    says, cut to the buffer. *)
Definition ndrx_crypto_getkey_std (hostname : option (list Z)) (username : list Z) (key_out_bufsz : Z) : Z + list Z :=
  match hostname with
  | None => inl NEUNIX
  | Some key_out =>
      let len := zlen key_out in
      inr (if len + 1 <? key_out_bufsz then key_out ++ take (Z.to_nat (key_out_bufsz - len - 1)) username else key_out)
  end.

Section Key.

(** What the plugin in charge of the key returns: the password, or [None] when it
    fails; and what the stack holds where SHA-1 keeps its context. *)
Context (getkey : option (list Z)) (stack : list Z).

Definition ndrx_get_final_key : option (Z + list Z) :=
  match getkey with
  | None => Some (inl NEPLUGIN)
  | Some password => sha1key ← EXSHA1 stack password; Some (inr sha1key)
  end.

(** ** Blocks of data *)

Definition ndrx_crypto_enc_int (input : list Z) (ilen : Z) (output : list Z) (olen : Z) : option result :=
  key ← ndrx_get_final_key;
  match key with
  | inl e => Some (Some e, output, olen)
  | inr sha1key =>
      let size_estim := Z.quot (ilen + NDRX_ENC_BLOCK_SIZE - 1) NDRX_ENC_BLOCK_SIZE * NDRX_ENC_BLOCK_SIZE + CRYPTO_LEN_PFX_BYTES in
      if olen <? size_estim then Some (Some NENOSPACE, output, size_estim)
      else
        output ← st_bytes output 0 (be_bytes 4 (u32 ilen));
        r ← EXAES_CBC_encrypt_buffer (drop (Z.to_nat CRYPTO_LEN_PFX_BYTES) output) input (u32 ilen) sha1key IV_INIT;
        Some (None, take (Z.to_nat CRYPTO_LEN_PFX_BYTES) output ++ r, size_estim)
  end.

Definition ndrx_crypto_enc := ndrx_crypto_enc_int.

Definition ndrx_crypto_dec_int (input : list Z) (ilen : Z) (output : list Z) (olen : Z) : option result :=
  len_ind ← ld_bytes input 0 4;
  let data_size := be_word len_ind in
  key ← ndrx_get_final_key;
  match key with
  | inl e => Some (Some e, output, olen)
  | inr sha1key =>
      if olen <? data_size then Some (Some NENOSPACE, output, data_size)
      else
        r ← EXAES_CBC_decrypt_buffer output (drop (Z.to_nat CRYPTO_LEN_PFX_BYTES) input) (u32 (ilen - CRYPTO_LEN_PFX_BYTES)) sha1key IV_INIT;
        Some (None, r, data_size)
  end.

Definition ndrx_crypto_dec := ndrx_crypto_dec_int.

(** ** Strings *)

(** [sysbuf] is the buffer the pool hands out, if it has one. *)
Definition ndrx_crypto_enc_string (sysbuf : option (list Z)) (input output : list Z) (olen : Z) : option result :=
  match sysbuf with
  | None => Some (Some 0, output, olen)
  | Some buf =>
      r ← ndrx_crypto_enc_int input (zlen input) buf (zlen buf);
      match r.1.1 with
      | Some e => Some (Some e, output, olen)
      | None =>
          let bufsz := r.2 in
          if olen <? NDRX_BASE64_SIZE bufsz + 1 then Some (Some NENOSPACE, output, NDRX_BASE64_SIZE bufsz + 1)
          else
            data ← ld_bytes r.1.2 0 bufsz;
            e ← ndrx_base64_encode data olen output;
            Some (None, e.2, default olen e.1)
      end
  end.

(** [heap] is what [malloc] returns: as many bytes as the input has. *)
Definition ndrx_crypto_dec_string (heap : option (list Z)) (input output : list Z) (olen : Z) : option result :=
  match heap with
  | None => Some (Some NEUNIX, output, olen)
  | Some buf =>
      d ← ndrx_base64_decode input (zlen input) buf;
      match d.1 with
      | None => Some (Some NEFORMAT, output, olen)
      | Some bufsz =>
          len_ind ← ld_bytes d.2 0 4;
          let data_size := be_word len_ind in
          if olen <? data_size + 1 then Some (Some NENOSPACE, output, data_size + 1)
          else
            (* a failure is logged, and the work goes on *)
            r ← ndrx_crypto_dec_int d.2 bufsz output olen;
            output ← st_bytes r.1.2 r.2 [0];
            s ← cstr output;
            if negb (zlen s =? r.2) then Some (Some NEINVALKEY, output, r.2)
            else Some (None, output, r.2 + 1)
      end
  end.

(** ** The ATMI interface *)

Definition TPEINVAL : Z := 4.
Definition TPELIMIT : Z := 5.
Definition TPENOENT : Z := 6.
Definition TPEOS : Z := 7.
Definition TPESYSTEM : Z := 12.
Definition TPETIME : Z := 13.
Definition TPEX_STRING : Z := 8.

Definition ndrx_TPset_error_nstd (err : Z) : Z :=
  if (err =? NEINVALKEY) || (err =? NEMANDATORY) || (err =? NEFORMAT) || (err =? NEINVAL) || (err =? NEINVALINI) then TPEINVAL
  else if (err =? NEMALLOC) || (err =? NEUNIX) then TPEOS
  else if (err =? NEPLUGIN) || (err =? NESYSTEM) then TPESYSTEM
  else if err =? NETOUT then TPETIME
  else if err =? NENOCONN then TPENOENT
  else if (err =? NENOSPACE) || (err =? NELIMIT) then TPELIMIT
  else TPESYSTEM.

(** A string in memory is read up to its terminator. *)
Definition tpencrypt_int (sysbuf : option (list Z)) (input : list Z) (ilen : Z) (output : list Z) (olen flags : Z) : option result :=
  r ← (if negb (Z.land flags TPEX_STRING =? 0) then s ← cstr input; ndrx_crypto_enc_string sysbuf s output olen
       else ndrx_crypto_enc input ilen output olen);
  Some (option_map ndrx_TPset_error_nstd r.1.1, r.1.2, r.2).

Definition tpdecrypt_int (heap : option (list Z)) (input : list Z) (ilen : Z) (output : list Z) (olen flags : Z) : option result :=
  r ← (if negb (Z.land flags TPEX_STRING =? 0) then s ← cstr input; ndrx_crypto_dec_string heap s output olen
       else ndrx_crypto_dec input ilen output olen);
  Some (option_map ndrx_TPset_error_nstd r.1.1, r.1.2, r.2).

(** The arguments may be null. *)
Definition api (f : list Z -> Z -> list Z -> Z -> Z -> option result)
    (input : option (list Z)) (ilen : Z) (output : option (list Z)) (olen : option Z) (flags : Z)
    : option (option Z * option (list Z) * option Z) :=
  match input, output, olen with
  | Some i, Some o, Some n =>
      if (Z.land flags TPEX_STRING =? 0) && (ilen <=? 0) then Some (Some TPEINVAL, output, olen)
      else r ← f i ilen o n flags; Some (r.1.1, Some r.1.2, Some r.2)
  | _, _, _ => Some (Some TPEINVAL, output, olen)
  end.

Definition tpencrypt (sysbuf : option (list Z)) := api (tpencrypt_int sysbuf).
Definition tpdecrypt (heap : option (list Z)) := api (tpdecrypt_int heap).

End Key.

(** ** The parts together *)

Lemma be_word_bytes z : word z -> be_word (be_bytes 4 z) = z.
Proof.
  unfold word, be_word, be_bytes. intros Hz. cbn -[Z.pow Z.div Z.modulo]. change (2 ^ (8 * 0)) with 1. change (2 ^ (8 * 1)) with 256.
  change (2 ^ (8 * 2)) with 65536. change (2 ^ (8 * 3)) with 16777216. change (2 ^ 8) with 256. change (2 ^ 16) with 65536.
  change (2 ^ 24) with 16777216. change (2 ^ 32) with 4294967296 in Hz. Z.to_euclidean_division_equations. lia.
Qed.

(** The key both directions derive from the password. *)
Definition final_key (password : list Z) : list Z := sha1 password ++ [0].

Lemma get_final_key password stack : Forall byte password -> zlen stack = 64 ->
  ndrx_get_final_key (Some password) stack = Some (inr (final_key password)).
Proof.
  intros Hp Hs. unfold ndrx_get_final_key. destruct (sha1_loop_taken password [] (EXSHA1Init stack)) as (ctx & E & Ht);
    [by apply taken_init|done|done|]. unfold EXSHA1. rewrite E. cbn [mbind option_bind app] in *. by rewrite (Final_digest password).
Qed.

Lemma final_key_block password : Forall byte (final_key password) /\ zlen (final_key password) = 21.
Proof.
  unfold final_key, sha1. set (st := fold_left _ _ _). assert (good_state st) as [Hl _] by apply fold_compress_good, H0_good.
  destruct st as [|h0 [|h1 [|h2 [|h3 [|h4 []]]]]]; try (cbn in Hl; lia). split; [|done].
  cbn [map concat]. rewrite !Forall_app, Forall_singleton. split; [|done]. split_and!; [apply be_bytes_byte..|done].
Qed.

Lemma final_key_expands password : exists rk, KeyExpansion (final_key password) = Some rk /\ Forall byte rk.
Proof.
  destruct (final_key_block password) as [Hb Hl].
  assert (exists rk, KeyExpansion (final_key password) = Some rk) as [rk Hk].
  { unfold KeyExpansion, ld_bytes. rewrite Hl. by eexists. }
  exists rk. split; [done|]. by eapply KeyExpansion_bytes.
Qed.

Lemma iv_block : block IV_INIT.
Proof. split; [done|]. repeat constructor; lia. Qed.

(** What encryption makes of [data]: the length, and the blocks that hold the
    data and zeros. *)
Definition sealed (password data text : list Z) : Prop := exists rk bs,
  KeyExpansion (final_key password) = Some rk /\ Forall byte rk /\ Forall block bs /\
  concat bs = data ++ zeros (zlen data) /\
  text = be_bytes 4 (zlen data) ++ concat (chained (encrypt_block rk) IV_INIT bs).

Definition sealed_len (n : Z) : Z := padded n + CRYPTO_LEN_PFX_BYTES.

Lemma padded_bound n : 0 <= n -> n <= padded n < n + 16.
Proof. intros Hn. unfold padded, BLOCKLEN. Z.to_euclidean_division_equations. lia. Qed.

Lemma zlen_padded (data : list Z) : zlen (data ++ zeros (zlen data)) = padded (zlen data).
Proof. rewrite zlen_app. unfold zeros. pose proof (padded_bound (zlen data) (zlen_nonneg data)). rewrite zlen_replicate; lia. Qed.

Lemma sealed_facts password data text : sealed password data text ->
  zlen text = sealed_len (zlen data) /\ Forall byte text /\ text <> [].
Proof.
  intros (rk & bs & Hk & Hrk & Hbs & Hc & ->). pose proof (chain_blocks rk bs Hrk IV_INIT iv_block Hbs) as Hcb. split_and!.
  - rewrite zlen_app, (concat_zlen _ Hcb), chained_length, <-(concat_zlen _ Hbs), Hc, zlen_padded. unfold sealed_len, CRYPTO_LEN_PFX_BYTES.
    change (zlen (be_bytes 4 _)) with 4. lia.
  - apply Forall_app. split; [apply be_bytes_byte|by apply blocks_bytes].
  - done.
Qed.

Lemma enc_int_spec password stack data output olen :
  Forall byte password -> zlen stack = 64 -> Forall byte data -> zlen data < 2 ^ 32 ->
  let enc := ndrx_crypto_enc_int (Some password) stack data (zlen data) output olen in
  (olen < sealed_len (zlen data) -> enc = Some (Some NENOSPACE, output, sealed_len (zlen data))) /\
  (sealed_len (zlen data) <= olen <= zlen output -> exists text rest, sealed password data text /\
    zlen rest = zlen output - zlen text /\ enc = Some (None, text ++ rest, sealed_len (zlen data))).
Proof.
  intros Hp Hs Hd Hmax. cbv zeta. unfold ndrx_crypto_enc_int. rewrite get_final_key by done. cbn [mbind option_bind].
  pose proof (zlen_nonneg data). pose proof (padded_bound (zlen data) ltac:(lia)). rewrite Z.quot_div_nonneg by (unfold NDRX_ENC_BLOCK_SIZE; lia).
  change (_ / _ * _ + _) with (sealed_len (zlen data)). split.
  - intros Ho. by rewrite (proj2 (Z.ltb_lt _ _)).
  - intros Ho. rewrite (proj2 (Z.ltb_ge _ _)) by lia. rewrite (u32_id (zlen data)) by (unfold word; lia).
    unfold sealed_len, CRYPTO_LEN_PFX_BYTES in *. destruct (room_split 4 output) as (h & o & -> & Hh); [lia|].
    rewrite (st_bytes_at _ [] h o) by (done || lia). cbn [mbind option_bind app].
    change (Z.to_nat 4) with (length (be_bytes 4 (zlen data))). rewrite drop_app_length, take_app_length.
    destruct (final_key_expands password) as (rk & Hk & Hrk). rewrite zlen_app in Ho.
    destruct (encrypt_buffer_spec o data (final_key password) IV_INIT rk Hk Hrk iv_block Hd) as (bs & rest & Hbs & Hblk & Hr & ->); [lia|].
    cbn [mbind option_bind]. assert (sealed password data (be_bytes 4 (zlen data) ++ concat (chained (encrypt_block rk) IV_INIT bs))) as Hse.
    { by exists rk, bs. }
    eexists _, rest. split; [exact Hse|]. destruct (sealed_facts _ _ _ Hse) as [-> _]. rewrite zlen_app. unfold sealed_len, CRYPTO_LEN_PFX_BYTES.
    split; [lia|]. by rewrite <-app_assoc.
Qed.

Lemma dec_int_spec password stack data text post output olen :
  Forall byte password -> zlen stack = 64 -> sealed password data text -> zlen text < 2 ^ 32 ->
  let dec := ndrx_crypto_dec_int (Some password) stack (text ++ post) (zlen text) output olen in
  (olen < zlen data -> dec = Some (Some NENOSPACE, output, zlen data)) /\
  (zlen data <= olen -> padded (zlen data) <= zlen output -> exists rest, zlen rest = zlen output - padded (zlen data) /\
    dec = Some (None, data ++ zeros (zlen data) ++ rest, zlen data)).
Proof.
  intros Hp Hs Hse Hmax. cbv zeta. pose proof (sealed_facts _ _ _ Hse) as (Hl & _ & _). destruct Hse as (rk & bs & Hk & Hrk & Hbs & Hc & ->).
  pose proof (zlen_nonneg data). pose proof (padded_bound (zlen data) ltac:(lia)). rewrite Hl in *. unfold sealed_len, CRYPTO_LEN_PFX_BYTES in *.
  unfold ndrx_crypto_dec_int. rewrite <-app_assoc, (ld_bytes_at _ [] (be_bytes 4 (zlen data)) (concat (chained (encrypt_block rk) IV_INIT bs) ++ post)) by done.
  cbn [mbind option_bind]. rewrite be_word_bytes, get_final_key by (done || unfold word; lia). cbn [mbind option_bind]. split.
  - intros Ho. by rewrite (proj2 (Z.ltb_lt _ _)).
  - intros Ho Hroom. rewrite (proj2 (Z.ltb_ge _ _)) by lia. unfold CRYPTO_LEN_PFX_BYTES.
    change (Z.to_nat 4) with (length (be_bytes 4 (zlen data))). rewrite drop_app_length.
    destruct (decrypt_buffer_spec output bs post (final_key password) IV_INIT rk Hk Hrk iv_block Hbs) as (rest & Hr & He); [by rewrite Hc, zlen_padded|].
    pose proof (chain_blocks rk bs Hrk IV_INIT iv_block Hbs) as Hcb.
    rewrite (concat_zlen _ Hcb), chained_length, <-(concat_zlen _ Hbs), Hc, zlen_padded in He.
    rewrite u32_id by (unfold word; lia). replace (padded (zlen data) + 4 - 4) with (padded (zlen data)) by lia. rewrite He.
    cbn [mbind option_bind]. exists rest. rewrite Hc, zlen_padded in Hr. split; [done|]. by rewrite <-app_assoc.
Qed.

(** Without a whole block of input the first step already reads too far. *)
Lemma decrypt_overruns output input len key iv : zlen input < 16 -> 0 < len -> EXAES_CBC_decrypt_buffer output input len key iv = None.
Proof.
  intros Hi Hl. unfold EXAES_CBC_decrypt_buffer. destruct (KeyExpansion key) as [rk|]; [|done]. cbn [mbind option_bind].
  assert (1 <= (len + BLOCKLEN - 1) / BLOCKLEN) as Hn by (unfold BLOCKLEN; Z.to_euclidean_division_equations; lia).
  destruct (Z.to_nat ((len + BLOCKLEN - 1) / BLOCKLEN)) as [|n] eqn:E; [lia|]. cbn [cbc_decrypt_loop].
  unfold ld_bytes. rewrite (proj2 (Z.leb_gt (0 + BLOCKLEN) _)) by (unfold BLOCKLEN; lia). rewrite andb_false_r. done.
Qed.

Lemma dec_int_overruns password stack h ilen output olen : Forall byte password -> zlen stack = 64 -> zlen h = 4 ->
  be_word h <= olen -> 0 < u32 (ilen - CRYPTO_LEN_PFX_BYTES) -> ndrx_crypto_dec_int (Some password) stack h ilen output olen = None.
Proof.
  intros Hp Hs Hh Ho Hl. unfold ndrx_crypto_dec_int. rewrite (ld_bytes_at h [] h []) by (by rewrite ?app_nil_r || done).
  cbn [mbind option_bind]. rewrite get_final_key by done. cbn [mbind option_bind]. rewrite (proj2 (Z.ltb_ge _ _)) by done.
  rewrite decrypt_overruns; [done| |done]. unfold CRYPTO_LEN_PFX_BYTES. rewrite zlen_drop by lia. lia.
Qed.

(** ** Strings *)

Local Abbreviation b64 := (b64_text M_encoding_table_normal).

Lemma base64_size n : 0 <= n -> NDRX_BASE64_SIZE n = b64_len n.
Proof. intros Hn. unfold NDRX_BASE64_SIZE, b64_len. rewrite Z.quot_div_nonneg by lia. lia. Qed.

Lemma sealed_len_pos n : 0 <= n -> 4 <= sealed_len n.
Proof. intros Hn. pose proof (padded_bound n Hn). unfold sealed_len, CRYPTO_LEN_PFX_BYTES. lia. Qed.

Lemma b64_len_bound n : 0 <= n -> 4 * n <= 3 * b64_len n.
Proof. intros Hn. unfold b64_len. Z.to_euclidean_division_equations. lia. Qed.

Section Strings.

Context (password s : list Z) (Hp : Forall byte password) (Hs : Forall byte s) (Hn : nonul s)
  (Hmax : b64_len (sealed_len (zlen s)) <= INT_MAX).

Lemma sizes : zlen s < 2 ^ 31 /\ 4 <= sealed_len (zlen s) < 2 ^ 31 /\ zlen s <= padded (zlen s) < zlen s + 16.
Proof.
  pose proof (zlen_nonneg s). pose proof (padded_bound (zlen s) ltac:(lia)). pose proof (sealed_len_pos (zlen s) ltac:(lia)).
  pose proof (b64_len_bound (sealed_len (zlen s)) ltac:(lia)). unfold sealed_len, CRYPTO_LEN_PFX_BYTES, INT_MAX in *. lia.
Qed.

Lemma enc_string_spec stack buf output olen : zlen stack = 64 -> sealed_len (zlen s) <= zlen buf ->
  let enc := ndrx_crypto_enc_string (Some password) stack (Some buf) s output olen in
  let n := b64_len (sealed_len (zlen s)) + 1 in
  (olen < n -> enc = Some (Some NENOSPACE, output, n)) /\
  (n <= olen -> n <= zlen output -> exists text rest, sealed password s text /\ zlen rest = zlen output - n /\
    enc = Some (None, b64 text ++ 0 :: rest, n)).
Proof.
  intros Hst Hbuf. cbv zeta. destruct sizes as (H1 & H2 & H3). unfold ndrx_crypto_enc_string.
  destruct (enc_int_spec password stack s buf (zlen buf)) as [_ He]; [done|done|done|lia|].
  destruct He as (text & rest & Hse & Hr & ->); [lia|]. cbn [mbind option_bind fst snd]. rewrite base64_size by lia.
  destruct (sealed_facts _ _ _ Hse) as (Hl & Hb & Hne). split; intros Ho.
  - by rewrite (proj2 (Z.ltb_lt _ _)).
  - intros Hroom. rewrite (proj2 (Z.ltb_ge _ _)) by lia. rewrite (ld_bytes_at _ [] text rest) by done. cbn [mbind option_bind].
    destruct (b64encode_spec M_encoding_table_normal text olen output) as [_ Hen]; [by rewrite Hl|]. rewrite Hl in Hen.
    destruct Hen as (rest' & Hr' & He); [lia|done|]. unfold ndrx_base64_encode. rewrite He. cbn [mbind option_bind fst snd].
    by exists text, rest'.
Qed.

Lemma zeros_nul rest : padded (zlen s) + zlen rest >= zlen s + 1 -> exists rest',
  st_bytes (s ++ zeros (zlen s) ++ rest) (zlen s) [0] = Some (s ++ 0 :: rest') /\ zlen rest' = padded (zlen s) + zlen rest - zlen s - 1.
Proof.
  intros Hr. pose proof (zlen_padded s) as Hp'. rewrite zlen_app in Hp'.
  destruct (room_split 1 (zeros (zlen s) ++ rest)) as (x & y & E & Hx); [rewrite zlen_app; lia|].
  exists y. rewrite E. rewrite (st_bytes_at _ s x y) by done. split; [done|].
  assert (zlen (x ++ y) = zlen (zeros (zlen s) ++ rest)) as Hz by by rewrite E. rewrite !zlen_app in Hz. lia.
Qed.

Lemma dec_string_spec stack text heap output olen : zlen stack = 64 -> sealed password s text -> zlen heap = b64_len (zlen text) ->
  let dec := ndrx_crypto_dec_string (Some password) stack (Some heap) (b64 text) output olen in
  (olen < zlen s + 1 -> dec = Some (Some NENOSPACE, output, zlen s + 1)) /\
  (zlen s + 1 <= olen -> zlen s + 1 <= zlen output -> padded (zlen s) <= zlen output ->
   exists rest, zlen rest = zlen output - (zlen s + 1) /\ dec = Some (None, s ++ 0 :: rest, zlen s + 1)).
Proof.
  intros Hst Hse Hh. cbv zeta. destruct sizes as (H1 & H2 & H3). destruct (sealed_facts _ _ _ Hse) as (Hl & Hb & Hne).
  pose proof (b64_len_bound (zlen text) ltac:(lia)). unfold ndrx_crypto_dec_string.
  destruct (b64decode_text _ _ tables_normal text (zlen (b64 text)) heap) as (post & Hpost & He); [done|done|by rewrite Hl|right; rewrite zlen_b64_text; lia|lia|].
  unfold ndrx_base64_decode. rewrite He. cbn [mbind option_bind fst snd].
  destruct (dec_int_spec password stack s text post output olen) as [_ Hd]; [done|done|done|lia|].
  assert (ld_bytes (text ++ post) 0 4 = Some (be_bytes 4 (zlen s))) as ->.
  { destruct Hse as (rk & bs & _ & _ & _ & _ & ->). rewrite <-app_assoc. by apply (ld_bytes_at _ [] _ (concat (chained (encrypt_block rk) IV_INIT bs) ++ post)). }
  cbn [mbind option_bind]. rewrite be_word_bytes by (pose proof (zlen_nonneg s); unfold word; lia). split; intros Ho.
  - by rewrite (proj2 (Z.ltb_lt _ _)).
  - intros Hroom1 Hroom2. rewrite (proj2 (Z.ltb_ge _ _)) by lia. destruct Hd as (rest & Hr & ->); [lia|done|]. cbn [mbind option_bind fst snd].
    destruct (zeros_nul rest) as (rest' & -> & Hr'); [lia|]. cbn [mbind option_bind]. rewrite cstr_app by done. cbn [mbind option_bind].
    rewrite Z.eqb_refl. cbn [negb]. exists rest'. split; [lia|done].
Qed.

End Strings.

(** ** Theorems *)

Lemma b64_string text : Forall byte (b64 text) /\ nonul (b64 text).
Proof. pose proof (text_chars _ _ tables_normal text) as H. split; (eapply Forall_impl; [exact H|]); unfold byte; intros c ?; lia. Qed.


(** Blocks of data: when the announced output is too small [tpencrypt] fails
    with [TPELIMIT], leaves the output alone and reports the size it needs; with
    that size it succeeds, and [tpdecrypt] does the same with the size of the data
    and gives the data back, followed by zeros up to whole blocks. *)
Theorem tp_data_roundtrip password stack1 stack2 data buf heap out1 out2 olen :
  Forall byte password -> zlen stack1 = 64 -> zlen stack2 = 64 -> Forall byte data -> data <> [] -> sealed_len (zlen data) < 2 ^ 32 ->
  let n := sealed_len (zlen data) in
  let encrypt output olen := tpencrypt (Some password) stack1 buf (Some data) (zlen data) (Some output) (Some olen) 0 in
  let decrypt text output olen := tpdecrypt (Some password) stack2 heap (Some text) n (Some output) (Some olen) 0 in
  (olen < n -> encrypt out1 olen = Some (Some TPELIMIT, Some out1, Some n)) /\
  (zlen out1 = n -> padded (zlen data) <= zlen out2 -> exists text, zlen text = n /\ encrypt out1 n = Some (None, Some text, Some n) /\
    (olen < zlen data -> decrypt text out2 olen = Some (Some TPELIMIT, Some out2, Some (zlen data))) /\
    exists rest, decrypt text out2 (zlen out2) = Some (None, Some (data ++ zeros (zlen data) ++ rest), Some (zlen data))).
Proof.
  intros Hp Hs1 Hs2 Hd Hne Hmax n encrypt decrypt. assert (0 < zlen data) as Hpos by (destruct data; [done|zl]).
  pose proof (padded_bound (zlen data) ltac:(lia)). pose proof (sealed_len_pos (zlen data) ltac:(lia)).
  assert (zlen data < 2 ^ 32) as Hmax' by (unfold sealed_len, CRYPTO_LEN_PFX_BYTES in *; lia).
  subst n encrypt decrypt. cbv beta. unfold tpencrypt, tpdecrypt, api, tpencrypt_int, tpdecrypt_int.
  change (Z.land 0 TPEX_STRING =? 0) with true. rewrite (proj2 (Z.leb_gt _ _)) by lia. rewrite (proj2 (Z.leb_gt _ _)) by lia. cbn [andb negb].
  split.
  - intros Ho. pose proof (proj1 (enc_int_spec password stack1 data out1 olen Hp Hs1 Hd Hmax') Ho) as He. unfold ndrx_crypto_enc. by rewrite He.
  - intros Ho1 Ho2. destruct (proj2 (enc_int_spec password stack1 data out1 (sealed_len (zlen data)) Hp Hs1 Hd Hmax')) as (text & rest & Hse & Hr & He); [lia|].
    destruct (sealed_facts _ _ _ Hse) as (Hl & _ & _). assert (rest = []) as -> by (apply zlen_0_inv; lia). rewrite app_nil_r in He.
    exists text. unfold ndrx_crypto_enc, ndrx_crypto_dec. rewrite He. split; [done|]. split; [done|]. rewrite <-Hl. split.
    + intros Ho. pose proof (proj1 (dec_int_spec password stack2 data text [] out2 olen Hp Hs2 Hse ltac:(lia)) Ho) as Hd'.
      rewrite app_nil_r in Hd'. by rewrite Hd'.
    + destruct (proj2 (dec_int_spec password stack2 data text [] out2 (zlen out2) Hp Hs2 Hse ltac:(lia))) as (rest & Hr' & Hd'); [lia|done|].
      rewrite app_nil_r in Hd'. exists rest. by rewrite Hd'.
Qed.

(** ** An example *)

Module CryptoDemo.

Definition password : list Z := [104; 111; 115; 116; 117; 115; 101; 114]. (* "hostuser" *)
Definition hello : list Z := [72; 101; 108; 108; 111].
Definition room (n : nat) : list Z := replicate n 170.

Lemma password_bytes : Forall byte password.
Proof. repeat constructor; unfold byte; lia. Qed.

Lemma hello_string : Forall byte hello /\ nonul hello.
Proof. split; repeat constructor; unfold byte; lia. Qed.


Lemma tp_data_roundtrip_witness : 4 < sealed_len (zlen hello) /\ exists text,
  tpencrypt (Some password) (room 64) None (Some hello) (zlen hello) (Some (room 20)) (Some 20) 0 = Some (None, Some text, Some 20) /\
  exists rest, tpdecrypt (Some password) (room 64) None (Some text) 20 (Some (room 16)) (Some (zlen (room 16))) 0 =
    Some (None, Some (hello ++ zeros (zlen hello) ++ rest), Some (zlen hello)).
Proof.
  split; [done|].
  destruct (tp_data_roundtrip password (room 64) (room 64) hello None None (room 20) (room 16) 4) as [_ H];
    [apply password_bytes|done|done|apply hello_string|done|done|].
  destruct H as (text & _ & He & _ & Hd); [done|by vm_compute|]. exists text. by split.
Defined.

(** What the text of [hello] decrypts from. *)
Definition cipher : list Z :=
  match tpencrypt (Some password) (room 64) None (Some hello) (zlen hello) (Some (room 20)) (Some 20) 0 with
  | Some (_, Some text, _) => text
  | _ => []
  end.

(** A buffer of exactly the size of the data, the size the function itself asks
    for, is overrun: the blocks are written whole. *)
Lemma exact_output_overrun :
  tpdecrypt (Some password) (room 64) None (Some cipher) (zlen cipher) (Some (room 4)) (Some 4) 0 = Some (Some TPELIMIT, Some (room 4), Some 5) /\
  tpdecrypt (Some password) (room 64) None (Some cipher) (zlen cipher) (Some (room 5)) (Some 5) 0 = None.
Proof. by split; vm_compute. Qed.

(** The same with strings: for the text of [hello] the function asks for six bytes,
    and writes sixteen. *)
Definition cipher_text : list Z :=
  match tpencrypt (Some password) (room 64) (Some (room 100)) (Some (hello ++ [0])) 0 (Some (room 29)) (Some 29) TPEX_STRING with
  | Some (_, Some text, _) => text
  | _ => []
  end.

Lemma exact_string_overrun :
  tpdecrypt (Some password) (room 64) (Some (room 28)) (Some cipher_text) 0 (Some (room 5)) (Some 5) TPEX_STRING = Some (Some TPELIMIT, Some (room 5), Some 6) /\
  tpdecrypt (Some password) (room 64) (Some (room 28)) (Some cipher_text) 0 (Some (room 6)) (Some 6) TPEX_STRING = None.
Proof. by split; vm_compute. Qed.

(** The length in front of the data is believed: with a larger one the
    decryption reports bytes it did not decrypt. *)
Lemma length_not_checked : exists out,
  tpdecrypt (Some password) (room 64) None (Some ([0; 0; 0; 40] ++ drop 4 cipher)) (zlen cipher) (Some (room 40)) (Some 40) 0 =
    Some (None, Some out, Some 40) /\ drop 16 out = room 24.
Proof. eexists. split; by vm_compute. Qed.

(** When the plugin fails the string function goes on with the output as it was:
    it puts the terminator behind the buffer, or reports success. *)
Lemma key_failure_ignored :
  ndrx_crypto_dec_string None (room 64) (Some (room 28)) (b64_text M_encoding_table_normal cipher) (room 16) 16 = None /\
  ndrx_crypto_dec_string None (room 64) (Some (room 28)) (b64_text M_encoding_table_normal cipher) (room 17) 16 =
    Some (None, room 16 ++ [0], 17).
Proof. by split; vm_compute. Qed.

(** A text of fewer than four bytes makes the length negative, which the
    decryption takes for a large one: it runs through the memory. *)
Lemma short_text_overruns :
  ndrx_crypto_dec_string (Some password) (room 64) (Some [170; 0; 0; 5]) [65; 65; 61; 61] (room 16) 16 = None.
Proof.
  assert (ndrx_base64_decode [65; 65; 61; 61] (zlen [65; 65; 61; 61]) [170; 0; 0; 5] = Some (Some 1, [0; 0; 0; 5])) as Hb by by vm_compute.
  unfold ndrx_crypto_dec_string. rewrite Hb. cbn [mbind option_bind fst snd].
  rewrite (ld_bytes_at _ [] [0; 0; 0; 5] []) by done. cbn [mbind option_bind].
  assert ((16 <? be_word [0; 0; 0; 5] + 1) = false) as -> by by vm_compute.
  by rewrite dec_int_overruns by (apply password_bytes || by vm_compute).
Qed.

End CryptoDemo.
