(* ===== verification/Subst.v ===== *)
(** * Substitution in configuration strings

    [libnstd/nstdutil.c]: replacing text in a string ([ndrx_str_replace]), and
    the expansion of placeholders in place, from the environment
    ([ndrx_str_env_subs_len], where [${dec=...}] decrypts its argument) or from a
    function of the caller ([ndrx_str_subs_context]).

    The string is in a buffer, a list of bytes; positions are offsets into it. *)

From S2P Require Import Prelude CText Base64 Aes Sha1 Crypto.

Definition DOLLAR : Z := 36.
Definition LBRACE : Z := 123.
Definition RBRACE : Z := 125.
Definition BACKSLASH : Z := 92.
Definition EQUALS : Z := 61.

(** ** Searching *)

(** What follows [needle], at the head of [s]. *)
Fixpoint strip (needle s : list Z) : option (list Z) :=
  match needle, s with
  | [], _ => Some s
  | c :: needle, d :: s => if c =? d then strip needle s else None
  | _, [] => None
  end.

(** [strstr(s, needle)]: what is before and behind the first occurrence. *)
Fixpoint strstr (needle s : list Z) : option (list Z * list Z) :=
  match strip needle s with
  | Some b => Some ([], b)
  | None =>
      match s with
      | [] => None
      | c :: s => r ← strstr needle s; Some (c :: r.1, r.2)
      end
  end.

(** ** Replacing *)

Fixpoint count_loop (fuel : nat) (rep orig : list Z) : option nat :=
  match fuel with
  | O => None
  | S fuel =>
      match strstr rep orig with
      | Some r => n ← count_loop fuel rep r.2; Some (S n)
      | None => Some O
      end
  end.

Fixpoint replace_loop (count : nat) (rep with_ orig : list Z) (result : list Z) (tmp : Z) : option (list Z) :=
  match count with
  | O => st_bytes result tmp (orig ++ [0])
  | S count =>
      r ← strstr rep orig;
      result ← st_bytes result tmp r.1;
      result ← st_bytes result (tmp + zlen r.1) (with_ ++ [0]);
      replace_loop count rep with_ r.2 result (tmp + zlen r.1 + zlen with_)
  end.

(** [fpmalloc] gives a block of the size asked for, or nothing; the new string is
    returned. *)
Definition ndrx_str_replace (fpmalloc : Z -> option (list Z)) (orig rep with_ : list Z) : option (option (list Z)) :=
  count ← count_loop (S (length orig)) rep orig;
  match fpmalloc (zlen orig + (zlen with_ - zlen rep) * Z.of_nat count + 1) with
  | None => Some None
  | Some result => result ← replace_loop count rep with_ orig result 0; s ← cstr result; Some (Some s)
  end.

(** ** Expanding placeholders *)

(** The text for a placeholder, or a failure that ends the work. *)
Inductive subst_value := Val (out : list Z) | Stop (rc : Z).

(** How the loop ends. *)
Inductive ending := Done | Stopped (rc : Z) | Overrun.

Section Loop.

Context (opensymb closesymb : Z) (value : list Z -> option subst_value) (buf_size : Z).

Definition string_at (m : list Z) (off : Z) : option (list Z) := if 0 <=? off then cstr (drop (Z.to_nat off) m) else None.

(** The placeholder from [p] to [close] becomes [out]. *)
Definition put_value (m : list Z) (p cpylen close : Z) (out : list Z) : option (option (list Z)) :=
  let envlen := zlen out in
  if cpylen + 3 =? envlen then m ← st_bytes m p out; Some (Some m)
  else if cpylen + 3 <? envlen then
    str ← cstr m;
    if (0 <? buf_size) && (buf_size - 1 <? zlen str - (cpylen + 3) + envlen) then Some None
    else
      let missing := envlen - (cpylen + 2) in
      rest ← string_at m (close + 1);
      m ← st_bytes m (close + missing) (rest ++ [0]);
      m ← st_bytes m p out;
      Some (Some m)
  else
    m ← st_bytes m p out;
    rest ← string_at m (close + 1);
    m ← st_bytes m (p + envlen) (rest ++ [0]);
    Some (Some m).

Definition SYMBOL_MAX : Z := 1024.

Fixpoint subs_loop (fuel : nat) (m : list Z) (next : Z) : option (ending * list Z) :=
  match fuel with
  | O => None
  | S fuel =>
      s ← string_at m next;
      match strstr [DOLLAR; opensymb] s with
      | None => Some (Done, m)
      | Some r =>
          let p := next + zlen r.1 in
          let points needle d := match strstr needle s with Some r' => zlen r'.1 + d =? zlen r.1 | None => false end in
          if negb (points [BACKSLASH; BACKSLASH; DOLLAR; opensymb] 2) && points [BACKSLASH; DOLLAR; opensymb] 1 then
            t ← string_at m p;
            m ← st_bytes m (p - 1) (t ++ [0]);
            subs_loop fuel m (p + 3)
          else
            match split_at_char closesymb (DOLLAR :: opensymb :: r.2) with
            | None => subs_loop fuel m (next + 2)
            | Some q =>
                let close := p + zlen q.1 in
                let cpylen := zlen q.1 - 2 in
                if (0 <=? cpylen) && (cpylen <? SYMBOL_MAX) then
                  v ← value (drop 2 q.1);
                  match v with
                  | Stop rc => Some (Stopped rc, m)
                  | Val out =>
                      w ← put_value m p cpylen close out;
                      match w with
                      | None => Some (Overrun, m)
                      | Some m => subs_loop fuel m (p + zlen out)
                      end
                  end
                else None
            end
      end
  end.

(** Doubled backslashes become single ones. *)
Definition unescape (fpmalloc : Z -> option (list Z)) (m : list Z) : option (list Z) :=
  str ← cstr m;
  match strstr [BACKSLASH] str with
  | None => Some m
  | Some _ =>
      r ← ndrx_str_replace fpmalloc str [BACKSLASH; BACKSLASH] [BACKSLASH];
      malloced ← r;
      st_bytes m 0 (malloced ++ [0])
  end.

End Loop.

(** [get] is the caller's function: a code other than zero ends the work;
    [outbuf_ok]: there is memory for its results. *)
Definition ndrx_str_subs_context (fpmalloc : Z -> option (list Z)) (get : list Z -> Z + list Z) (outbuf_ok : bool)
    (m : list Z) (buf_size opensymb closesymb : Z) : option (Z * list Z) :=
  let value name := Some (match get name with inl rc => Stop rc | inr out => Val out end) in
  r ← (if outbuf_ok then subs_loop opensymb closesymb value buf_size (S (length m)) m 0 else Some (Stopped (-1), m));
  m ← unescape fpmalloc r.2;
  Some (match r.1 with Done => 0 | Stopped rc => rc | Overrun => -1 end, m).

Section Environment.

(** The environment of the process, the memory [malloc] returns here and in the
    decryption, and the key and the stack the decryption finds. *)
Context (getenv : list Z -> option (list Z)) (malloc heap : Z -> option (list Z)) (getkey : option (list Z)) (stack : list Z).

Definition DEC : list Z := [100; 101; 99]. (* "dec" *)

(** The result of the decryption is taken also when it fails. *)
Definition env_value (name : list Z) : option subst_value :=
  match split_at_char EQUALS name with
  | None => Some (Val (default [] (getenv name)))
  | Some (envnm, pval) =>
      let bufsz := zlen pval in
      if bufsz =? 0 then Some (Val [])
      else
        match malloc bufsz with
        | None => Some (Stop 0)
        | Some tempbuf =>
            if decide (envnm = DEC) then
              r ← ndrx_crypto_dec_string getkey stack (heap bufsz) pval tempbuf bufsz;
              out ← cstr r.1.2;
              Some (Val out)
            else Some (Val [])
        end
  end.

Definition ndrx_str_env_subs_len (fpmalloc : Z -> option (list Z)) (m : list Z) (buf_size : Z) : option (list Z) :=
  r ← subs_loop LBRACE RBRACE env_value buf_size (S (length m)) m 0;
  match r.1 with
  | Overrun => Some r.2
  | _ => unescape fpmalloc r.2
  end.

Definition ndrx_str_env_subs (fpmalloc : Z -> option (list Z)) (m : list Z) : option (list Z) := ndrx_str_env_subs_len fpmalloc m 0.

End Environment.

(** ** Searching: laws *)

Lemma strip_Some needle s b : strip needle s = Some b <-> s = needle ++ b.
Proof.
  revert s. induction needle as [|c n IH]; intros [|d s]; cbn [strip app]; try done.
  - split; [by intros [= <-]|by intros ->].
  - split; [by intros [= <-]|by intros ->].
  - destruct (Z.eqb_spec c d) as [->|Hne]; [rewrite IH; split; [by intros ->|by intros [= ->]]|split; [done|]]. intros [= -> _]. done.
Qed.

Lemma strstr_Some needle s a b : strstr needle s = Some (a, b) -> s = a ++ needle ++ b.
Proof.
  revert a. induction s as [|c s IH]; intros a; cbn [strstr]; destruct (strip needle _) as [b'|] eqn:E; try done.
  - intros [= <- <-]. by apply strip_Some in E.
  - intros [= <- <-]. by apply strip_Some in E.
  - destruct (strstr needle s) as [[a' b']|]; [|done]. intros [= <- <-]. cbn. by rewrite <-(IH a').
Qed.

Lemma strstr_first needle s a b a' b' : strstr needle s = Some (a, b) -> s = a' ++ needle ++ b' -> (length a <= length a')%nat.
Proof.
  revert a a'. induction s as [|c s IH]; intros a a'; cbn [strstr]; destruct (strip needle _) as [r|] eqn:E; try done.
  - intros [= <- <-] _. cbn. lia.
  - intros [= <- <-] _. cbn. lia.
  - destruct (strstr needle s) as [[a0 b0]|]; [|done]. intros [= <- <-] Hs. destruct a' as [|x a'].
    + cbn [app] in Hs. assert (strip needle (c :: s) = Some b') as E' by by apply strip_Some. by rewrite E' in E.
    + injection Hs as -> Hs. specialize (IH a0 a' eq_refl Hs). cbn. lia.
Qed.

(** A text that lacks the first character of the needle. *)
Lemma strstr_absent c needle s : c ∉ s -> strstr (c :: needle) s = None.
Proof.
  intros Hc. destruct (strstr (c :: needle) s) as [[a b]|] eqn:E; [|done]. apply strstr_Some in E as ->.
  exfalso. apply Hc. apply elem_of_app. right. by left.
Qed.

Lemma split_Some c s a b : split_at_char c s = Some (a, b) -> s = a ++ c :: b /\ c ∉ a.
Proof.
  revert a. induction s as [|x s IH]; intros a; cbn [split_at_char]; [done|]. destruct (Z.eqb_spec x c) as [->|Hne].
  - intros [= <- <-]. split; [done|]. apply not_elem_of_nil.
  - destruct (split_at_char c s) as [[a' b']|]; [|done]. intros [= <- <-]. destruct (IH a' eq_refl) as [-> Hn].
    split; [done|]. apply not_elem_of_cons. by split.
Qed.

Lemma split_None c s : split_at_char c s = None -> c ∉ s.
Proof.
  induction s as [|x s IH]; cbn [split_at_char]; [intros; apply not_elem_of_nil|]. destruct (Z.eqb_spec x c) as [->|Hne]; [done|].
  destruct (split_at_char c s) as [[]|]; [done|]. intros _. apply not_elem_of_cons. split; [done|by apply IH].
Qed.

(** ** The text that is meant *)

Section Meaning.

Context (opensymb closesymb : Z) (value : list Z -> list Z).

(** The text with every placeholder replaced; [pend] is the name of the one that
    has been opened.  A placeholder that is not closed stays as it is. *)
Fixpoint expand (pend : option (list Z)) (s : list Z) : list Z :=
  match pend, s with
  | None, [] => []
  | Some name, [] => DOLLAR :: opensymb :: name
  | None, c :: s =>
      match s with
      | d :: t => if (c =? DOLLAR) && (d =? opensymb) then expand (Some []) t else c :: expand None s
      | [] => [c]
      end
  | Some name, c :: s => if c =? closesymb then value name ++ expand None s else expand (Some (name ++ [c])) s
  end.

(** The names of the placeholders that are closed. *)
Fixpoint names (pend : option (list Z)) (s : list Z) : list (list Z) :=
  match pend, s with
  | _, [] => []
  | None, c :: s =>
      match s with
      | d :: t => if (c =? DOLLAR) && (d =? opensymb) then names (Some []) t else names None s
      | [] => []
      end
  | Some name, c :: s => if c =? closesymb then name :: names None s else names (Some (name ++ [c])) s
  end.

Lemma meaning_plain s : strstr [DOLLAR; opensymb] s = None -> expand None s = s.
Proof.
  induction s as [|c s IH]; [done|]. cbn [strstr]. destruct (strip _ (c :: s)) eqn:E; [done|].
  destruct (strstr _ s) as [[]|] eqn:E'; [done|]. intros _. specialize (IH eq_refl). cbn [expand]. destruct s as [|d t]; [done|].
  destruct ((c =? DOLLAR) && (d =? opensymb)) eqn:Hc; [|by rewrite IH].
  apply andb_prop in Hc as [->%Z.eqb_eq ->%Z.eqb_eq]. cbn in E. by rewrite Z.eqb_refl in E.
Qed.

Lemma meaning_open s a b : strstr [DOLLAR; opensymb] s = Some (a, b) ->
  expand None s = a ++ expand (Some []) b /\ names None s = names (Some []) b.
Proof.
  revert a. induction s as [|c s IH]; intros a; [done|]. cbn [strstr]. destruct (strip _ (c :: s)) eqn:E.
  - intros [= <- <-]. apply strip_Some in E as [= -> ->]. cbn [app expand names]. by rewrite !Z.eqb_refl.
  - destruct (strstr _ s) as [[a' b']|] eqn:E'; [|done]. intros [= <- <-]. destruct (IH a' eq_refl) as [IH1 IH2].
    destruct s as [|d t]; [done|].
    assert ((c =? DOLLAR) && (d =? opensymb) = false) as Hc.
    { destruct (_ && _) eqn:Hc; [|done]. apply andb_prop in Hc as [->%Z.eqb_eq ->%Z.eqb_eq]. cbn in E. by rewrite Z.eqb_refl in E. }
    change (expand None (c :: d :: t)) with (if (c =? DOLLAR) && (d =? opensymb) then expand (Some []) t else c :: expand None (d :: t)).
    change (names None (c :: d :: t)) with (if (c =? DOLLAR) && (d =? opensymb) then names (Some []) t else names None (d :: t)).
    rewrite Hc, IH1, IH2. done.
Qed.

Lemma meaning_closed b n rest : forall acc, split_at_char closesymb b = Some (n, rest) ->
  expand (Some acc) b = value (acc ++ n) ++ expand None rest /\ names (Some acc) b = (acc ++ n) :: names None rest.
Proof.
  revert n. induction b as [|c b IH]; intros n acc; [done|]. cbn [split_at_char expand names]. destruct (c =? closesymb).
  - intros [= <- <-]. by rewrite app_nil_r.
  - destruct (split_at_char closesymb b) as [[n' r']|]; [|done]. intros [= <- <-].
    destruct (IH n' (acc ++ [c]) eq_refl) as [-> ->]. by rewrite <-app_assoc.
Qed.

Lemma meaning_unclosed b : forall acc, split_at_char closesymb b = None ->
  expand (Some acc) b = DOLLAR :: opensymb :: acc ++ b.
Proof.
  induction b as [|c b IH]; intros acc; cbn [split_at_char expand]; [by rewrite app_nil_r|]. destruct (c =? closesymb); [done|].
  destruct (split_at_char closesymb b) as [[]|]; [done|]. intros _. rewrite (IH _ eq_refl), <-app_assoc. done.
Qed.

End Meaning.

(** Pairs of backslashes made single. *)
Fixpoint collapse (s : list Z) : list Z :=
  match s with
  | c :: ((d :: t) as s') => if (c =? BACKSLASH) && (d =? BACKSLASH) then BACKSLASH :: collapse t else c :: collapse s'
  | _ => s
  end.

(** ** The placeholder in the buffer *)

Lemma string_at_app m x s j off : m = x ++ s ++ 0 :: j -> off = zlen x -> nonul s -> string_at m off = Some s.
Proof.
  intros -> -> Hs. unfold string_at. rewrite (proj2 (Z.leb_le _ _)) by apply zlen_nonneg. rewrite drop_zlen. by apply cstr_app.
Qed.

Lemma put_value_spec buf_size x ph rest junk out :
  let m := x ++ ph ++ rest ++ 0 :: junk in
  nonul (x ++ ph ++ rest) -> nonul out -> 2 < zlen ph -> 0 < buf_size <= zlen m ->
  let w := put_value buf_size m (zlen x) (zlen ph - 3) (zlen x + zlen ph - 1) out in
  (w = Some None /\ zlen ph < zlen out /\ buf_size <= zlen (x ++ out ++ rest)) \/
  exists junk', w = Some (Some (x ++ out ++ rest ++ 0 :: junk')) /\ zlen (x ++ out ++ rest ++ 0 :: junk') = zlen m.
Proof.
  intros m Hn Ho Hph Hb. cbv zeta. subst m. unfold put_value. replace (zlen ph - 3 + 3) with (zlen ph) by lia.
  pose proof (proj1 (Forall_app _ _ _) Hn) as [Hx Hpr]. pose proof (proj1 (Forall_app _ _ _) Hpr) as [Hp Hr].
  destruct (Z.eqb_spec (zlen ph) (zlen out)) as [He|Hne]; [|destruct (Z.ltb_spec (zlen ph) (zlen out)) as [Hlt|Hge]].
  - right. exists junk. rewrite (st_bytes_at _ x ph (rest ++ 0 :: junk)) by done. split; [done|]. zl.
  - assert (cstr (x ++ ph ++ rest ++ 0 :: junk) = Some (x ++ ph ++ rest)) as ->
      by (rewrite <-(cstr_app (x ++ ph ++ rest) junk) by done; by rewrite <-!app_assoc).
    cbn [mbind option_bind]. replace (0 <? buf_size) with true by (symmetry; apply Z.ltb_lt; lia). cbn [andb].
    destruct (Z.ltb_spec (buf_size - 1) (zlen (x ++ ph ++ rest) - zlen ph + zlen out)) as [Hover|Hfit].
    { left. split; [done|]. split; [done|]. zl. }
    right. rewrite (string_at_app _ (x ++ ph) rest junk) by (rewrite <-?app_assoc; done || zl). cbn [mbind option_bind].
    destruct (split_at (ph ++ rest ++ 0 :: junk) (zlen out) (zlen rest + 1)) as (b1 & b2 & b3 & E & H1 & H2); [zl|zl|zl|].
    rewrite E. rewrite (st_bytes_at _ (x ++ b1) b2 b3) by (rewrite <-?app_assoc; done || zl). cbn [mbind option_bind].
    rewrite (st_bytes_at _ x b1 ((rest ++ [0]) ++ b3)) by (rewrite <-?app_assoc; done || zl). cbn [mbind option_bind].
    exists b3. rewrite <-app_assoc. split; [done|]. assert (zlen (ph ++ rest ++ 0 :: junk) = zlen (b1 ++ b2 ++ b3)) by by rewrite E. zl.
  - right. destruct (room_split (zlen out) ph) as (p1 & p2 & -> & Hp1); [zl|].
    rewrite (st_bytes_at _ x p1 (p2 ++ rest ++ 0 :: junk)) by (rewrite <-?app_assoc; done || lia). cbn [mbind option_bind].
    rewrite (string_at_app _ (x ++ out ++ p2) rest junk) by (rewrite <-?app_assoc; done || zl). cbn [mbind option_bind].
    destruct (split_at (p2 ++ rest ++ 0 :: junk) 0 (zlen rest + 1)) as (b1 & b2 & b3 & E & H1 & H2); [lia|zl|zl|].
    apply zlen_0_inv in H1 as ->. rewrite E. rewrite (st_bytes_at _ (x ++ out) b2 b3) by (rewrite <-?app_assoc; done || zl).
    exists b3. rewrite <-!app_assoc. split; [done|]. assert (zlen (p2 ++ rest ++ 0 :: junk) = zlen ([] ++ b2 ++ b3)) by by rewrite E. zl.
Qed.

(** ** The loop *)

Section LoopSpec.

Context (opensymb closesymb buf_size : Z) (V : list Z -> option subst_value) (value : list Z -> list Z).
Context (Hclose : closesymb <> DOLLAR) (Hclose' : closesymb <> opensymb) (Hsize : 0 < buf_size).

(** The names the buffer for them can hold, and that have a value. *)
Definition known (name : list Z) : Prop := zlen name < SYMBOL_MAX /\ V name = Some (Val (value name)) /\ nonul (value name).

Local Abbreviation expanded := (expand opensymb closesymb value None).
Local Abbreviation run := (subs_loop opensymb closesymb V buf_size).

(** A text in which no placeholder is closed is left alone. *)
Lemma loop_unclosed fuel done_ s junk : (length s < fuel)%nat -> nonul s -> BACKSLASH ∉ s ->
  (forall a b, s = a ++ [DOLLAR; opensymb] ++ b -> closesymb ∉ b) ->
  run fuel (done_ ++ s ++ 0 :: junk) (zlen done_) = Some (Done, done_ ++ s ++ 0 :: junk).
Proof.
  revert done_ s. induction fuel as [|fuel IH]; intros done_ s Hf Hn Hb Hc; [lia|]. cbn [subs_loop].
  rewrite (string_at_app _ done_ s junk) by done. cbn [mbind option_bind].
  destruct (strstr [DOLLAR; opensymb] s) as [[a b]|] eqn:E; [|done]. cbn [fst snd].
  rewrite !(strstr_absent BACKSLASH) by done. cbn [negb andb].
  pose proof (strstr_Some _ _ _ _ E) as Hs. pose proof (Hc a b Hs) as Hcb.
  rewrite split_at_char_none by (rewrite !not_elem_of_cons; by repeat split).
  destruct (room_split 2 s) as (x & y & -> & Hx); [rewrite Hs; zl|].
  replace (done_ ++ (x ++ y) ++ 0 :: junk) with ((done_ ++ x) ++ y ++ 0 :: junk) by by rewrite <-!app_assoc.
  replace (zlen done_ + 2) with (zlen (done_ ++ x)) by zl. apply IH.
  - rewrite length_app in Hf. unfold zlen in Hx. lia.
  - by apply Forall_app in Hn as [_ ?].
  - intros H. apply Hb, elem_of_app. by right.
  - intros a' b' ->. by apply (Hc (x ++ a') b'); rewrite <-app_assoc.
Qed.

(** What the loop leaves: the expanded text, or, when a value does not fit, the
    text expanded up to that placeholder. *)
Definition loop_result (done_ s junk : list Z) (r : ending * list Z) : Prop :=
  zlen r.2 = zlen (done_ ++ s ++ 0 :: junk) /\
  ((r.1 = Done /\ exists junk', r.2 = (done_ ++ expanded s) ++ 0 :: junk') \/
   (r.1 = Overrun /\ exists x y a name rest junk', r.2 = (done_ ++ x ++ y) ++ 0 :: junk' /\ expanded s = x ++ expanded y /\ y `suffix_of` s /\
      name ∈ names opensymb closesymb None s /\ zlen name + 3 < zlen (value name) /\
      y = a ++ [DOLLAR; opensymb] ++ name ++ closesymb :: rest /\ buf_size <= zlen (done_ ++ x ++ a ++ value name ++ rest))).

(** Nothing more to expand. *)
Lemma loop_rest fuel done_ s junk : (length s < fuel)%nat -> nonul s -> BACKSLASH ∉ s ->
  (forall a b, strstr [DOLLAR; opensymb] s = Some (a, b) -> split_at_char closesymb b = None) ->
  run fuel (done_ ++ s ++ 0 :: junk) (zlen done_) = Some (Done, done_ ++ s ++ 0 :: junk) /\ expanded s = s.
Proof.
  intros Hf Hn Hb Hc. destruct (strstr [DOLLAR; opensymb] s) as [[a b]|] eqn:E; cycle 1.
  { split; [|by apply meaning_plain]. destruct fuel as [|fuel]; [lia|]. cbn [subs_loop]. rewrite (string_at_app _ done_ s junk) by done.
    cbn [mbind option_bind]. by rewrite E. }
  specialize (Hc a b eq_refl). pose proof (strstr_Some _ _ _ _ E) as Hs. split.
  - apply loop_unclosed; [done..|]. intros a' b' Hs' Hin. pose proof (strstr_first _ _ _ _ _ _ E Hs') as Hle.
    apply split_None in Hc. apply Hc. rewrite Hs in Hs'. apply (f_equal (drop (length a' + 2))) in Hs'.
    rewrite (drop_app_ge a'), drop_app_ge in Hs' by lia. replace (length a' + 2 - length a')%nat with 2%nat in Hs' by lia.
    replace (length a' + 2 - length a)%nat with (2 + (length a' - length a))%nat in Hs' by lia. cbn in Hs'. rewrite drop_0 in Hs'.
    rewrite <-(take_drop (length a' - length a) b), Hs'. apply elem_of_app. by right.
  - destruct (meaning_open opensymb closesymb value s a b E) as [-> _]. rewrite meaning_unclosed by done. by rewrite Hs.
Qed.

(** One placeholder. *)
Lemma loop_step fuel done_ a name rest junk :
  let ph := [DOLLAR; opensymb] ++ name ++ [closesymb] in
  let m := (done_ ++ a) ++ ph ++ rest ++ 0 :: junk in
  nonul (a ++ ph ++ rest) -> BACKSLASH ∉ a ++ ph ++ rest -> closesymb ∉ name -> known name ->
  strstr [DOLLAR; opensymb] (a ++ ph ++ rest) = Some (a, name ++ closesymb :: rest) ->
  run (S fuel) m (zlen done_) =
    (w ← put_value buf_size m (zlen (done_ ++ a)) (zlen ph - 3) (zlen (done_ ++ a) + zlen ph - 1) (value name);
     match w with None => Some (Overrun, m) | Some m => run fuel m (zlen ((done_ ++ a) ++ value name)) end).
Proof.
  intros ph m Hn Hb Hcn (Hk1 & Hk2 & Hk3) E. cbn [subs_loop].
  rewrite (string_at_app m done_ (a ++ ph ++ rest) junk) by (done || (subst m; by rewrite <-!app_assoc)). cbn [mbind option_bind].
  rewrite E. cbn [fst snd]. rewrite !(strstr_absent BACKSLASH) by done. cbn [negb andb].
  assert (split_at_char closesymb (DOLLAR :: opensymb :: name ++ closesymb :: rest) = Some (DOLLAR :: opensymb :: name, rest)) as ->
    by (apply (split_at_char_app closesymb (DOLLAR :: opensymb :: name)); rewrite !not_elem_of_cons; by repeat split).
  cbn [fst snd drop]. assert (zlen ph = zlen name + 3) as Hph by (subst ph; zl).
  replace (zlen (DOLLAR :: opensymb :: name) - 2) with (zlen ph - 3) by zl.
  replace (zlen done_ + zlen a + zlen (DOLLAR :: opensymb :: name)) with (zlen (done_ ++ a) + zlen ph - 1) by zl.
  replace (zlen done_ + zlen a) with (zlen (done_ ++ a)) by zl. pose proof (zlen_nonneg name).
  rewrite (proj2 (Z.leb_le 0 _)) by lia. rewrite (proj2 (Z.ltb_lt (zlen ph - 3) _)) by lia. cbn [andb].
  rewrite drop_0, Hk2. cbn [mbind option_bind]. by rewrite (zlen_app (done_ ++ a) (value name)).
Qed.

Lemma loop_spec fuel done_ s junk : (length s < fuel)%nat -> nonul (done_ ++ s) -> BACKSLASH ∉ s ->
  Forall known (names opensymb closesymb None s) -> buf_size <= zlen (done_ ++ s ++ 0 :: junk) ->
  exists r, run fuel (done_ ++ s ++ 0 :: junk) (zlen done_) = Some r /\ loop_result done_ s junk r.
Proof.
  revert done_ s junk. induction fuel as [|fuel IH]; intros done_ s junk Hf Hn Hb Hk Hm; [lia|].
  pose proof (proj1 (Forall_app _ _ _) Hn) as [Hnd Hns].
  destruct (strstr [DOLLAR; opensymb] s) as [[a b]|] eqn:E; [destruct (split_at_char closesymb b) as [[name rest]|] eqn:Ec|].
  2,3: destruct (loop_rest (S fuel) done_ s junk) as [Hr He]; [done..|naive_solver|]; exists (Done, done_ ++ s ++ 0 :: junk);
    (split; [done|]); split; [done|]; left; split; [done|]; exists junk; rewrite He; by rewrite <-app_assoc.
  destruct (meaning_open opensymb closesymb value s a b E) as [Hex Hnames].
  destruct (meaning_closed opensymb closesymb value b name rest [] Ec) as [Hex' Hnames']. cbn [app] in Hex', Hnames'.
  rewrite Hnames, Hnames' in Hk. apply Forall_cons in Hk as [Hk1 Hk]. rewrite Hex' in Hex.
  apply strstr_Some in E as Hs. apply split_Some in Ec as [Hb' Hcn]. set (ph := [DOLLAR; opensymb] ++ name ++ [closesymb]).
  assert (s = a ++ ph ++ rest) as Hs' by (rewrite Hs, Hb'; subst ph; by rewrite <-!app_assoc). clear Hs. subst b. rewrite Hs' in E, Hb.
  assert (done_ ++ s ++ 0 :: junk = (done_ ++ a) ++ ph ++ rest ++ 0 :: junk) as Hmem by (rewrite Hs'; by rewrite <-!app_assoc).
  assert (nonul ((done_ ++ a) ++ ph ++ rest)) as Hn' by (rewrite Hs' in Hn; by rewrite <-!app_assoc).
  pose proof (loop_step fuel done_ a name rest junk) as Hstep. cbv zeta in Hstep. fold ph in Hstep.
  rewrite Hmem in Hm |- *. rewrite Hstep by (done || by rewrite <-Hs'). clear Hstep.
  destruct (put_value_spec buf_size (done_ ++ a) ph rest junk (value name)) as [(Hw & Hlong & Hover)|(junk' & Hw & Hl)];
    [done|apply Hk1|subst ph; zl|lia|rewrite Hw; cbn [mbind option_bind]..].
  - exists (Overrun, (done_ ++ a) ++ ph ++ rest ++ 0 :: junk). split; [done|]. split; [by rewrite Hmem|]. right. split; [done|].
    exists [], s, a, name, rest, junk. cbn [app snd]. rewrite <-Hmem, <-app_assoc. split; [done|]. split; [done|]. split; [done|].
    split; [rewrite Hnames, Hnames'; by left|]. split; [subst ph; zl|].
    split; [by rewrite Hs'; subst ph; rewrite <-!app_assoc|]. by rewrite <-app_assoc in Hover.
  - apply Forall_app in Hn' as [Hn1 [_ Hn2]%Forall_app].
    destruct (IH ((done_ ++ a) ++ value name) rest junk') as (r & Hr & Hlr & Hres).
    + rewrite Hs', !length_app in Hf. subst ph. cbn in Hf. lia.
    + apply Forall_app. split; [apply Forall_app; split; [done|apply Hk1]|done].
    + intros Hin. apply Hb. rewrite !elem_of_app. by repeat right.
    + done.
    + rewrite <-app_assoc. lia.
    + rewrite <-!app_assoc in *. exists r. split; [by rewrite <-Hr|]. split; [rewrite Hmem, <-?app_assoc; lia|]. rewrite Hex.
      destruct Hres as [[Hr1 (j & Hr2)]|(Hr1 & x & y & a' & name' & rest' & j & Hr2 & Hx & Hsuf & Hin & Hlong & Hy & Ho)]; [left|right]; (split; [done|]).
      * exists j. by rewrite <-!app_assoc in *.
      * exists (a ++ value name ++ x), y, a', name', rest', j. rewrite Hx. rewrite <-!app_assoc in *. split_and!; try done.
        -- rewrite Hs', (app_assoc a). by apply suffix_app_r.
        -- rewrite Hnames, Hnames'. by right.
Qed.

End LoopSpec.

(** ** Replacing: the buffer *)

(** The text with the first [n] occurrences replaced. *)
Fixpoint replaced (n : nat) (rep with_ s : list Z) : list Z :=
  match n with
  | O => s
  | S n => match strstr rep s with Some (a, b) => a ++ with_ ++ replaced n rep with_ b | None => s end
  end.

Lemma count_total rep s fuel : rep <> [] -> (length s < fuel)%nat -> exists n, count_loop fuel rep s = Some n.
Proof.
  intros Hr. revert s. induction fuel as [|fuel IH]; intros s Hf; [lia|]. cbn [count_loop].
  destruct (strstr rep s) as [[a b]|] eqn:E; [|by exists 0%nat]. apply strstr_Some in E as ->. cbn [snd].
  destruct rep as [|c rep]; [done|]. destruct (IH b) as [n ->]; [rewrite !length_app in Hf; cbn in Hf; lia|]. by exists (S n).
Qed.

Lemma replaced_len fuel rep with_ s n : count_loop fuel rep s = Some n ->
  zlen (replaced n rep with_ s) = zlen s + (zlen with_ - zlen rep) * Z.of_nat n.
Proof.
  revert s n. induction fuel as [|fuel IH]; intros s n; [done|]. cbn [count_loop]. destruct (strstr rep s) as [[a b]|] eqn:E.
  - apply strstr_Some in E as Hs. cbn [snd]. destruct (count_loop fuel rep b) as [k|] eqn:Ek; [|done]. intros [= <-].
    cbn [replaced]. rewrite E, Hs, !zlen_app, (IH b k Ek). lia.
  - intros [= <-]. cbn [replaced]. lia.
Qed.

Lemma replace_loop_spec fuel rep with_ s n pre room : count_loop fuel rep s = Some n -> zlen (replaced n rep with_ s) + 1 <= zlen room ->
  exists room', zlen room' = zlen room - (zlen (replaced n rep with_ s) + 1) /\
    replace_loop n rep with_ s (pre ++ room) (zlen pre) = Some (pre ++ replaced n rep with_ s ++ 0 :: room').
Proof.
  revert s n pre room. induction fuel as [|fuel IH]; intros s n pre room; [done|]. cbn [count_loop]. destruct (strstr rep s) as [[a b]|] eqn:E.
  - cbn [snd]. destruct (count_loop fuel rep b) as [k|] eqn:Ek; [|done]. intros [= <-]. cbn [replaced replace_loop]. rewrite E.
    cbn [mbind option_bind fst snd]. intros Hroom. autorewrite with zlen in Hroom. pose proof (zlen_nonneg (replaced k rep with_ b)).
    pose proof (zlen_nonneg a). pose proof (zlen_nonneg with_).
    destruct (room_split (zlen a) room) as (r1 & r2 & -> & Hr1); [zl|]. rewrite zlen_app in Hroom.
    rewrite (st_bytes_at _ pre r1 r2) by done. cbn [mbind option_bind].
    destruct (room_split (zlen (with_ ++ [0])) r2) as (r3 & r4 & -> & Hr3); [zl|].
    rewrite (st_bytes_at _ (pre ++ a) r3 r4) by (rewrite <-?app_assoc; done || zl). cbn [mbind option_bind].
    destruct (IH b k ((pre ++ a) ++ with_) (0 :: r4) Ek) as (room' & Hl & Hr); [zl|].
    exists room'. split; [zl|]. rewrite <-!app_assoc in *. cbn [app] in Hr. rewrite <-Hr. f_equal. zl.
  - intros [= <-]. cbn [replaced replace_loop]. intros Hroom. destruct (room_split (zlen (s ++ [0])) room) as (r1 & r2 & -> & Hr1); [zl|].
    exists r2. split; [zl|]. rewrite (st_bytes_at _ pre r1 r2) by (done || lia). by rewrite <-!app_assoc.
Qed.

Definition allocates (malloc : Z -> option (list Z)) : Prop := forall n, 0 <= n -> exists block, malloc n = Some block /\ zlen block = n.

Lemma str_replace_spec fpmalloc orig rep with_ : rep <> [] -> nonul orig -> nonul with_ -> allocates fpmalloc ->
  exists n, count_loop (S (length orig)) rep orig = Some n /\
    ndrx_str_replace fpmalloc orig rep with_ = Some (Some (replaced n rep with_ orig)).
Proof.
  intros Hr Ho Hw Hm. destruct (count_total rep orig (S (length orig)) Hr) as [n Hn]; [lia|]. exists n. split; [done|].
  unfold ndrx_str_replace. rewrite Hn. cbn [mbind option_bind]. rewrite <-(replaced_len _ _ with_ _ _ Hn).
  destruct (Hm (zlen (replaced n rep with_ orig) + 1)) as (block & -> & Hb); [pose proof (zlen_nonneg (replaced n rep with_ orig)); lia|].
  destruct (replace_loop_spec _ rep with_ orig n [] block Hn) as (room' & _ & Hl); [lia|]. cbn [app] in Hl. rewrite zlen_nil in Hl. rewrite Hl.
  cbn [mbind option_bind]. rewrite cstr_app; [done|]. clear Hn Hl Hb. revert orig Ho. induction n as [|n IH]; intros orig Ho; [done|].
  cbn [replaced]. destruct (strstr rep orig) as [[a b]|] eqn:E; [|done]. apply strstr_Some in E as ->.
  apply Forall_app in Ho as [? [_ ?]%Forall_app]. apply Forall_app. split; [done|]. apply Forall_app. split; [done|]. by apply IH.
Qed.

(** Backslashes *)

Lemma collapse_none s : strstr [BACKSLASH; BACKSLASH] s = None -> collapse s = s.
Proof.
  induction s as [|c s IH]; [done|]. cbn [strstr]. destruct (strip _ (c :: s)) eqn:E; [done|].
  destruct (strstr _ s) as [[]|] eqn:E'; [done|]. intros _. specialize (IH eq_refl). destruct s as [|d t]; [done|].
  change (collapse (c :: d :: t)) with (if (c =? BACKSLASH) && (d =? BACKSLASH) then BACKSLASH :: collapse t else c :: collapse (d :: t)).
  destruct ((c =? BACKSLASH) && (d =? BACKSLASH)) eqn:Hc; [|by rewrite IH].
  apply andb_prop in Hc as [->%Z.eqb_eq ->%Z.eqb_eq]. by cbn in E.
Qed.

Lemma collapse_some s a b : strstr [BACKSLASH; BACKSLASH] s = Some (a, b) -> collapse s = a ++ BACKSLASH :: collapse b.
Proof.
  revert a. induction s as [|c s IH]; intros a; [done|]. cbn [strstr]. destruct (strip _ (c :: s)) eqn:E.
  - intros [= <- <-]. by apply strip_Some in E as [= -> ->].
  - destruct (strstr _ s) as [[a' b']|] eqn:E'; [|done]. intros [= <- <-]. specialize (IH a' eq_refl). destruct s as [|d t]; [done|].
    change (collapse (c :: d :: t)) with (if (c =? BACKSLASH) && (d =? BACKSLASH) then BACKSLASH :: collapse t else c :: collapse (d :: t)).
    destruct ((c =? BACKSLASH) && (d =? BACKSLASH)) eqn:Hc; [|by rewrite IH].
    apply andb_prop in Hc as [->%Z.eqb_eq ->%Z.eqb_eq]. by cbn in E.
Qed.

Lemma replaced_collapse fuel s n : count_loop fuel [BACKSLASH; BACKSLASH] s = Some n ->
  replaced n [BACKSLASH; BACKSLASH] [BACKSLASH] s = collapse s.
Proof.
  revert s n. induction fuel as [|fuel IH]; intros s n; [done|]. cbn [count_loop].
  destruct (strstr [BACKSLASH; BACKSLASH] s) as [[a b]|] eqn:E.
  - cbn [snd]. destruct (count_loop fuel _ b) as [k|] eqn:Ek; [|done]. intros [= <-]. cbn [replaced]. rewrite E, (IH b k Ek).
    by rewrite (collapse_some s a b).
  - intros [= <-]. cbn [replaced]. by rewrite collapse_none.
Qed.

Lemma unescape_spec fpmalloc s junk : nonul s -> allocates fpmalloc ->
  exists junk', unescape fpmalloc (s ++ 0 :: junk) = Some (collapse s ++ 0 :: junk') /\ zlen (collapse s ++ 0 :: junk') = zlen (s ++ 0 :: junk).
Proof.
  intros Hn Ha. unfold unescape. rewrite cstr_app by done. cbn [mbind option_bind].
  destruct (strstr [BACKSLASH] s) as [r|] eqn:E.
  - destruct (str_replace_spec fpmalloc s [BACKSLASH; BACKSLASH] [BACKSLASH]) as (n & Hc & ->); [done|done|by constructor|done|].
    cbn [mbind option_bind]. pose proof (replaced_len _ _ [BACKSLASH] _ _ Hc) as Hl. rewrite (replaced_collapse _ _ _ Hc) in *.
    assert (zlen (collapse s) <= zlen s) as Hle by (change (zlen [BACKSLASH]) with 1 in Hl; change (zlen [BACKSLASH; BACKSLASH]) with 2 in Hl; lia).
    destruct (room_split (zlen (collapse s ++ [0])) (s ++ 0 :: junk)) as (r1 & r2 & Er & Hr); [zl|].
    exists r2. rewrite Er, (st_bytes_at _ [] r1 r2) by (done || lia). cbn [app]. rewrite <-app_assoc. split; [done|]. zl.
  - exists junk. assert (collapse s = s) as ->; [|done]. apply collapse_none.
    destruct (strstr [BACKSLASH; BACKSLASH] s) as [[a b]|] eqn:E'; [|done]. apply strstr_Some in E'.
    exfalso. revert E. rewrite E'. clear. induction a as [|c a IH]; cbn [app strstr strip]; [done|].
    destruct (BACKSLASH =? c); [done|]. destruct (strstr _ (a ++ _)); [done|]. cbn. auto.
Qed.

(** ** Theorems *)

(** The text that is left when the value of a placeholder does not fit. *)
Definition cut_short (opensymb closesymb buf_size : Z) (value : list Z -> list Z) (s t : list Z) : Prop :=
  exists x y a name rest, t = x ++ y /\ expand opensymb closesymb value None s = x ++ expand opensymb closesymb value None y /\
    y `suffix_of` s /\ name ∈ names opensymb closesymb None s /\ zlen name + 3 < zlen (value name) /\
    y = a ++ [DOLLAR; opensymb] ++ name ++ closesymb :: rest /\ buf_size <= zlen (x ++ a ++ value name ++ rest).

Lemma collapse_nonul s : nonul s -> nonul (collapse s).
Proof.
  intros Hn. destruct (count_total [BACKSLASH; BACKSLASH] s (S (length s))) as [n Hc]; [done|lia|]. rewrite <-(replaced_collapse _ _ _ Hc).
  clear Hc. revert s Hn. induction n as [|n IH]; intros s Hn; [done|]. cbn [replaced].
  destruct (strstr _ s) as [[a b]|] eqn:E; [|done]. apply strstr_Some in E as ->. apply Forall_app in Hn as [? [_ ?]%Forall_app].
  apply Forall_app. split; [done|]. apply Forall_app. split; [by constructor|]. by apply IH.
Qed.

Lemma expand_nonul opensymb closesymb value s : opensymb <> 0 -> nonul s -> Forall (fun name => nonul (value name)) (names opensymb closesymb None s) ->
  nonul (expand opensymb closesymb value None s).
Proof.
  intros Ho. remember (length s) as n eqn:Hl. assert (length s <= n)%nat as Hle by lia. clear Hl. revert s Hle.
  induction n as [|n IH]; intros s Hle Hn Hk; [by destruct s; [|cbn in Hle; lia]|].
  destruct (strstr [DOLLAR; opensymb] s) as [[a b]|] eqn:E; [|by rewrite meaning_plain].
  destruct (meaning_open opensymb closesymb value s a b E) as [-> Hnm]. apply strstr_Some in E as ->.
  apply Forall_app in Hn as [Ha [_ Hb]%Forall_app]. apply Forall_app. split; [done|].
  destruct (split_at_char closesymb b) as [[name rest]|] eqn:Ec.
  - destruct (meaning_closed opensymb closesymb value b name rest [] Ec) as [-> Hnm']. rewrite Hnm, Hnm' in Hk.
    apply Forall_cons in Hk as [Hk1 Hk]. apply split_Some in Ec as [-> _]. apply Forall_app in Hb as [_ [_ Hb]%Forall_cons].
    apply Forall_app. split; [done|]. apply IH; [|done|done]. rewrite !length_app in Hle. cbn in Hle. lia.
  - rewrite meaning_unclosed by done. by repeat constructor.
Qed.

Lemma env_subs_spec getenv malloc heap getkey stack fpmalloc value s junk buf_size :
  let V := env_value getenv malloc heap getkey stack in
  nonul s -> BACKSLASH ∉ s -> Forall (known V value) (names LBRACE RBRACE None s) -> allocates fpmalloc ->
  0 < buf_size <= zlen (s ++ 0 :: junk) ->
  exists t junk', ndrx_str_env_subs_len getenv malloc heap getkey stack fpmalloc (s ++ 0 :: junk) buf_size = Some (t ++ 0 :: junk') /\
    zlen (t ++ 0 :: junk') = zlen (s ++ 0 :: junk) /\
    (t = collapse (expand LBRACE RBRACE value None s) \/ cut_short LBRACE RBRACE buf_size value s t).
Proof.
  intros V Hn Hb Hk Ha Hs. unfold ndrx_str_env_subs_len.
  assert (nonul (expand LBRACE RBRACE value None s)) as Hen.
  { apply expand_nonul; [done|done|]. eapply Forall_impl; [exact Hk|]. by intros name (_ & _ & ?). }
  destruct (loop_spec LBRACE RBRACE buf_size V value ltac:(done) ltac:(done) ltac:(lia) (S (length (s ++ 0 :: junk))) [] s junk)
    as ([e m] & Hr & Hl & Hres); [rewrite length_app; lia|done|done|done|cbn [app]; lia|].
  cbn [app] in Hr, Hl, Hres. change (zlen []) with 0 in Hr. fold V. rewrite Hr. cbn [mbind option_bind fst snd] in *.
  destruct Hres as [[-> (j & ->)]|(-> & x & y & a & name & rest & j & -> & Hx & Hsuf & Hin & Hlong & Hy & Ho)].
  - destruct (unescape_spec fpmalloc (expand LBRACE RBRACE value None s) j Hen Ha) as (j' & -> & Hz).
    exists (collapse (expand LBRACE RBRACE value None s)), j'. split; [done|]. split; [lia|by left].
  - exists (x ++ y), j. split; [done|]. split; [done|]. right. by exists x, y, a, name, rest.
Qed.

(** The same for the caller's function, with the result as the return code. *)
Lemma context_subs_correct fpmalloc get value opensymb closesymb s junk buf_size :
  closesymb <> DOLLAR -> closesymb <> opensymb -> opensymb <> 0 -> nonul s -> BACKSLASH ∉ s ->
  Forall (fun name => zlen name < SYMBOL_MAX /\ get name = inr (value name) /\ nonul (value name)) (names opensymb closesymb None s) ->
  allocates fpmalloc -> 0 < buf_size <= zlen (s ++ 0 :: junk) ->
  exists rc t junk', ndrx_str_subs_context fpmalloc get true (s ++ 0 :: junk) buf_size opensymb closesymb = Some (rc, t ++ 0 :: junk') /\
    zlen (t ++ 0 :: junk') = zlen (s ++ 0 :: junk) /\
    ((rc = 0 /\ t = collapse (expand opensymb closesymb value None s)) \/
     (rc = -1 /\ exists u, t = collapse u /\ cut_short opensymb closesymb buf_size value s u)).
Proof.
  intros Hc1 Hc2 Ho Hn Hb Hk Ha Hs. unfold ndrx_str_subs_context.
  set (V := fun name => Some (match get name with inl rc => Stop rc | inr out => Val out end)).
  assert (Forall (known V value) (names opensymb closesymb None s)) as HkV.
  { eapply Forall_impl; [exact Hk|]. intros name (? & Hg & ?). split; [done|]. split; [|done]. unfold V. by rewrite Hg. }
  destruct (loop_spec opensymb closesymb buf_size V value Hc1 Hc2 ltac:(lia) (S (length (s ++ 0 :: junk))) [] s junk)
    as ([e m] & Hr & Hl & Hres); [rewrite length_app; lia|done|done|done|cbn [app]; lia|].
  cbn [app] in Hr, Hl, Hres. change (zlen []) with 0 in Hr. rewrite Hr. cbn [mbind option_bind fst snd] in *.
  assert (nonul (expand opensymb closesymb value None s)) as Hen.
  { apply expand_nonul; [done|done|]. eapply Forall_impl; [exact Hk|]. by intros name (_ & _ & ?). }
  destruct Hres as [[-> (j & ->)]|(-> & x & y & a & name & rest & j & -> & Hx & [u Hsuf] & Hin & Hlong & Hy & Hov)].
  - destruct (unescape_spec fpmalloc (expand opensymb closesymb value None s) j Hen Ha) as (j' & -> & Hz).
    cbn [mbind option_bind]. eexists _, _, j'. split; [done|]. split; [lia|by left].
  - destruct (unescape_spec fpmalloc (x ++ y) j) as (j' & -> & Hz); [|done|].
    { rewrite Hx in Hen. rewrite Hsuf in Hn. apply Forall_app in Hen as [? _]. apply Forall_app in Hn as [_ ?]. by apply Forall_app. }
    cbn [mbind option_bind]. eexists _, _, j'. split; [done|]. split; [lia|]. right. split; [done|]. exists (x ++ y). split; [done|].
    exists x, y, a, name, rest. split_and!; try done. by exists u.
Qed.

(** C39: expansion in place of a string without backslashes, whose closed
    placeholders have names that fit the name buffer and values without terminator
    inside ([known]), in a buffer of at least the announced size: it becomes the
    text with every closed placeholder replaced by its value, where pairs of
    backslashes, which only values can have, are made single, or, when a value does
    not fit the announced size, the text expanded up to that placeholder; nothing
    outside the buffer is touched and the loop ends.  Longer names and escaped
    placeholders at the end are read beyond the buffer
    ([SubstDemo.long_name_overruns], [SubstDemo.escape_at_end_overruns]). *)
Theorem env_subs_correct getenv malloc heap getkey stack fpmalloc value s junk buf_size :
  let V := env_value getenv malloc heap getkey stack in
  nonul s -> BACKSLASH ∉ s -> Forall (known V value) (names LBRACE RBRACE None s) -> allocates fpmalloc ->
  0 < buf_size <= zlen (s ++ 0 :: junk) ->
  exists t junk', ndrx_str_env_subs_len getenv malloc heap getkey stack fpmalloc (s ++ 0 :: junk) buf_size = Some (t ++ 0 :: junk') /\
    zlen (t ++ 0 :: junk') = zlen (s ++ 0 :: junk) /\
    (t = collapse (expand LBRACE RBRACE value None s) \/ cut_short LBRACE RBRACE buf_size value s t).
Proof. apply env_subs_spec. Qed.

Lemma strstr_here c needle a b : c ∉ a -> strstr (c :: needle) (a ++ (c :: needle) ++ b) = Some (a, b).
Proof.
  intros Hc. destruct (strstr (c :: needle) (a ++ (c :: needle) ++ b)) as [[a' b']|] eqn:E.
  - pose proof (strstr_first _ _ _ _ a b E eq_refl) as Hle. apply strstr_Some in E.
    assert (length a = length a') as Hl.
    { destruct (decide (length a' = length a)) as [|Hne]; [done|]. exfalso. apply Hc.
      assert (a = take (length a) (a' ++ (c :: needle) ++ b')) as Ha by (rewrite <-E; by rewrite take_app_length).
      rewrite Ha, take_app_ge by lia. apply elem_of_app. right. destruct (length a - length a')%nat as [|k] eqn:Ek; [lia|]. by left. }
    apply app_inj_1 in E as [-> E]; [|done]. by apply app_inj_1 in E as [_ ->].
  - exfalso. revert E. clear. induction a as [|x a IH]; cbn [app strstr].
    + assert (strip (c :: needle) (c :: needle ++ b) = Some b) as -> by by apply strip_Some. done.
    + destruct (strip _ _); [done|]. destruct (strstr _ (a ++ _)); [done|]. cbn. auto.
Qed.

Lemma names_plain opensymb closesymb s : strstr [DOLLAR; opensymb] s = None -> names opensymb closesymb None s = [].
Proof.
  induction s as [|c s IH]; [done|]. cbn [strstr]. destruct (strip _ (c :: s)) eqn:E; [done|].
  destruct (strstr _ s) as [[]|] eqn:E'; [done|]. intros _. specialize (IH eq_refl). cbn [names]. destruct s as [|d t]; [done|].
  destruct ((c =? DOLLAR) && (d =? opensymb)) eqn:Hc; [|by rewrite IH].
  apply andb_prop in Hc as [->%Z.eqb_eq ->%Z.eqb_eq]. cbn in E. by rewrite Z.eqb_refl in E.
Qed.

(** An encrypted value decrypts where it is used: the buffer for it, as long as
    the text, is always large enough. *)
Lemma env_value_dec getenv malloc heap password stack secret text :
  Forall byte password -> zlen stack = 64 -> Forall byte secret -> nonul secret -> b64_len (sealed_len (zlen secret)) <= INT_MAX ->
  allocates malloc -> allocates heap -> sealed password secret text ->
  env_value getenv malloc heap (Some password) stack (DEC ++ EQUALS :: b64_text M_encoding_table_normal text) = Some (Val secret).
Proof.
  intros Hp Hst Hs Hn Hmax Hm Hh Hse. unfold env_value. rewrite split_at_char_app by (unfold DEC; rewrite !not_elem_of_cons; repeat split; done || apply not_elem_of_nil).
  destruct (sealed_facts _ _ _ Hse) as (Hl & _ & _). rewrite zlen_b64_text, Hl. pose proof (zlen_nonneg secret).
  pose proof (padded_bound (zlen secret) ltac:(lia)). pose proof (sealed_len_pos (zlen secret) ltac:(lia)).
  pose proof (b64_len_bound (sealed_len (zlen secret)) ltac:(lia)) as Hb. rewrite (proj2 (Z.eqb_neq _ 0)) by lia.
  destruct (Hm (b64_len (sealed_len (zlen secret)))) as (tmp & -> & Ht); [lia|]. rewrite decide_True by done.
  destruct (Hh (b64_len (sealed_len (zlen secret)))) as (hp & -> & Hhp); [lia|].
  destruct (proj2 (dec_string_spec password secret Hp Hn Hmax stack text hp tmp (b64_len (sealed_len (zlen secret))) Hst Hse ltac:(by rewrite Hl)))
    as (rest & Hr & ->); [unfold sealed_len, CRYPTO_LEN_PFX_BYTES in *; lia..|].
  cbn [mbind option_bind fst snd]. by rewrite cstr_app.
Qed.

(** Encrypted text has no character that means something here. *)
Lemma b64_plain text c : c = DOLLAR \/ c = RBRACE \/ c = BACKSLASH -> c ∉ b64_text M_encoding_table_normal text.
Proof.
  intros Hc Hin. assert (Forall (fun x => x <> DOLLAR /\ x <> RBRACE /\ x <> BACKSLASH) (b64_text M_encoding_table_normal text)) as H.
  { apply text_all; [done|]. intros i Hi.
    assert (forallb (fun i => let x := at_ M_encoding_table_normal (Z.of_nat i) in
      negb (x =? DOLLAR) && negb (x =? RBRACE) && negb (x =? BACKSLASH)) (seq 0 64) = true) as Hall by by vm_compute.
    rewrite forallb_forall in Hall. specialize (Hall (Z.to_nat i) ltac:(apply in_seq; lia)). cbv zeta in Hall. rewrite Z2Nat.id in Hall by lia. lia. }
  rewrite Forall_forall in H. specialize (H c Hin). lia.
Qed.

Lemma one_placeholder value pre name post : (DOLLAR ∉ pre) -> (DOLLAR ∉ post) -> (RBRACE ∉ name) ->
  let s := pre ++ [DOLLAR; LBRACE] ++ name ++ RBRACE :: post in
  expand LBRACE RBRACE value None s = pre ++ value name ++ post /\ names LBRACE RBRACE None s = [name].
Proof.
  intros Hd1 Hd2 Hn s. assert (strstr [DOLLAR; LBRACE] s = Some (pre, name ++ RBRACE :: post)) as E by by apply strstr_here.
  assert (split_at_char RBRACE (name ++ RBRACE :: post) = Some (name, post)) as Ec by by apply split_at_char_app.
  destruct (meaning_open LBRACE RBRACE value s _ _ E) as [-> ->]. destruct (meaning_closed LBRACE RBRACE value _ _ _ [] Ec) as [-> ->].
  assert (strstr [DOLLAR; LBRACE] post = None) as Hpost by by apply strstr_absent.
  by rewrite (meaning_plain _ _ _ post Hpost), (names_plain _ _ post Hpost).
Qed.

(** A value that is no longer than its placeholder always fits. *)
Lemma env_subs_one getenv malloc heap getkey stack fpmalloc pre name post value junk buf_size :
  env_value getenv malloc heap getkey stack name = Some (Val value) -> nonul value -> zlen name < SYMBOL_MAX -> zlen value <= zlen name + 3 ->
  allocates fpmalloc -> nonul (pre ++ name ++ post) -> (DOLLAR ∉ pre ++ post) -> (BACKSLASH ∉ pre ++ name ++ post) -> (RBRACE ∉ name) ->
  let s := pre ++ [DOLLAR; LBRACE] ++ name ++ RBRACE :: post in 0 < buf_size <= zlen (s ++ 0 :: junk) ->
  exists junk', ndrx_str_env_subs_len getenv malloc heap getkey stack fpmalloc (s ++ 0 :: junk) buf_size =
    Some (collapse (pre ++ value ++ post) ++ 0 :: junk').
Proof.
  intros Hv Hvn Hlen Hle Ha Hn Hd Hb Hr s Hs. rewrite not_elem_of_app in Hd. destruct Hd as [Hd1 Hd2].
  rewrite !not_elem_of_app in Hb. destruct Hb as (Hb1 & Hb2 & Hb3). apply Forall_app in Hn as [Hn1 [Hn2 Hn3]%Forall_app].
  destruct (one_placeholder (fun _ => value) pre name post Hd1 Hd2 Hr) as [Hex Hnm]. fold s in Hex, Hnm.
  destruct (env_subs_spec getenv malloc heap getkey stack fpmalloc (fun _ => value) s junk buf_size) as (t & junk' & Hrun & _ & Ht); [..|done|done|].
  - subst s. apply Forall_app. split; [done|]. apply Forall_app. split; [by repeat constructor|]. apply Forall_app. split; [done|]. by constructor.
  - subst s. rewrite !not_elem_of_app, !not_elem_of_cons. repeat split; try done. apply not_elem_of_nil.
  - rewrite Hnm. by constructor.
  - destruct Ht as [->|(x & y & a & nm & rest & _ & _ & _ & Hin & Hlong & _)]; [rewrite Hex in Hrun; by exists junk'|].
    rewrite Hnm in Hin. apply list_elem_of_singleton in Hin as ->. lia.
Qed.

(** Secrets in configuration: a string encrypted by [tpencrypt] and put into
    a configuration value as [${dec=...}] is expanded to the string, whatever the
    buffers held, in a buffer of any announced size that holds the value. *)
Theorem config_decrypts password stack1 stack2 secret buf out :
  Forall byte password -> zlen stack1 = 64 -> zlen stack2 = 64 -> Forall byte secret -> nonul secret ->
  b64_len (sealed_len (zlen secret)) <= 1000 -> sealed_len (zlen secret) <= zlen buf ->
  b64_len (sealed_len (zlen secret)) + 1 <= zlen out ->
  exists text rest, tpencrypt (Some password) stack1 (Some buf) (Some (secret ++ [0])) 0 (Some out) (Some (zlen out)) TPEX_STRING =
      Some (None, Some (text ++ 0 :: rest), Some (zlen text + 1)) /\
    forall getenv malloc heap fpmalloc pre post junk buf_size, allocates malloc -> allocates heap -> allocates fpmalloc ->
      nonul (pre ++ post) -> (DOLLAR ∉ pre ++ post) -> (BACKSLASH ∉ pre ++ post) ->
      let s := pre ++ [DOLLAR; LBRACE] ++ (DEC ++ EQUALS :: text) ++ RBRACE :: post in
      0 < buf_size <= zlen (s ++ 0 :: junk) ->
      exists junk', ndrx_str_env_subs_len getenv malloc heap (Some password) stack2 fpmalloc (s ++ 0 :: junk) buf_size =
        Some (collapse (pre ++ secret ++ post) ++ 0 :: junk').
Proof.
  intros Hp Hs1 Hs2 Hs Hn Hmax Hbuf Hout. assert (b64_len (sealed_len (zlen secret)) <= INT_MAX) as Hmax' by (unfold INT_MAX; lia).
  destruct (proj2 (enc_string_spec password secret Hp Hs Hmax' stack1 buf out (zlen out) Hs1 Hbuf)) as (text & rest & Hse & Hr & He); [lia|done|].
  destruct (sealed_facts _ _ _ Hse) as (Hl & _ & _). exists (b64_text M_encoding_table_normal text), rest. split.
  { unfold tpencrypt, api, tpencrypt_int. cbn [Z.land TPEX_STRING Z.eqb andb negb Pos.land]. rewrite cstr_app by done. cbn [mbind option_bind].
    rewrite He, zlen_b64_text, Hl. done. }
  intros getenv malloc heap fpmalloc pre post junk buf_size Hm Hh Hf Hnp Hd Hb s Hsz. set (b := b64_text M_encoding_table_normal text) in *.
  set (name := DEC ++ EQUALS :: b) in *. destruct (b64_string text) as [Hbb Hbn]. fold b in Hbn.
  assert (forall c, c = DOLLAR \/ c = RBRACE \/ c = BACKSLASH -> c ∉ name) as Hname.
  { intros c Hc. unfold name, DEC, EQUALS. rewrite not_elem_of_app, !not_elem_of_cons. unfold DOLLAR, RBRACE, BACKSLASH in *.
    repeat split; try lia; [apply not_elem_of_nil|by apply b64_plain]. }
  assert (zlen name = b64_len (sealed_len (zlen secret)) + 4) as Hzn by (unfold name, b; rewrite zlen_app, zlen_cons, zlen_b64_text, Hl; change (zlen DEC) with 3; lia).
  pose proof (zlen_nonneg secret). pose proof (padded_bound (zlen secret) ltac:(lia)). pose proof (b64_len_bound (sealed_len (zlen secret))).
  unfold sealed_len, CRYPTO_LEN_PFX_BYTES in *. apply Forall_app in Hnp as [Hn1 Hn2].
  apply (env_subs_one _ _ _ _ _ _ pre name post secret); try done.
  - by apply env_value_dec.
  - unfold SYMBOL_MAX. lia.
  - lia.
  - apply Forall_app. split; [done|]. apply Forall_app. split; [|done]. apply Forall_app. split; [by repeat constructor|by constructor].
  - rewrite not_elem_of_app in Hb. destruct Hb. rewrite !not_elem_of_app. split_and!; [done|apply Hname; auto|done].
  - apply Hname. auto.
Qed.

(** ** Examples *)

Module SubstDemo.
Import CryptoDemo.

Definition fresh (n : Z) : option (list Z) := Some (replicate (Z.to_nat n) 170).

(** The variable [A] is [Hello]. *)
Definition getenv (name : list Z) : option (list Z) := if decide (name = [65]) then Some hello else None.

Lemma fresh_allocates : allocates fresh.
Proof. intros n Hn. eexists. split; [done|]. by rewrite zlen_replicate. Qed.

Local Abbreviation subs m := (ndrx_str_env_subs_len getenv fresh fresh (Some password) (room 64) fresh m (zlen m)).

(** "x${A}y${A" *)
Definition text : list Z := [120; DOLLAR; LBRACE; 65; RBRACE; 121; DOLLAR; LBRACE; 65].

Lemma env_subs_correct_witness : exists t junk', subs (text ++ 0 :: room 10) = Some (t ++ 0 :: junk') /\
  zlen (t ++ 0 :: junk') = zlen (text ++ 0 :: room 10) /\
  (t = [120] ++ hello ++ [121; DOLLAR; LBRACE; 65] \/ cut_short LBRACE RBRACE 20 (fun _ => hello) text t).
Proof.
  apply (env_subs_correct getenv fresh fresh (Some password) (room 64) fresh (fun _ => hello) text (room 10) 20);
    [by repeat constructor| |constructor; [split; [done|split; [done|apply hello_string]]|constructor]|apply fresh_allocates|done].
  by apply (bool_decide_unpack (BACKSLASH ∉ text)).
Defined.

Lemma config_decrypts_witness :
  exists ctext rest, tpencrypt (Some password) (room 64) (Some (room 100)) (Some (hello ++ [0])) 0 (Some (room 30)) (Some (zlen (room 30))) TPEX_STRING =
      Some (None, Some (ctext ++ 0 :: rest), Some (zlen ctext + 1)) /\
    let s := [120] ++ [DOLLAR; LBRACE] ++ (DEC ++ EQUALS :: ctext) ++ RBRACE :: [121] in
    exists junk', ndrx_str_env_subs_len getenv fresh fresh (Some password) (room 64) fresh (s ++ [0]) (zlen (s ++ [0])) =
      Some (collapse ([120] ++ hello ++ [121]) ++ 0 :: junk').
Proof.
  destruct (config_decrypts password (room 64) (room 64) hello (room 100) (room 30)) as (ctext & rest & He & Hd);
    [apply password_bytes|done|done|apply hello_string|apply hello_string|by vm_compute..|].
  exists ctext, rest. split; [exact He|]. apply Hd; try apply fresh_allocates.
  - by repeat constructor.
  - by apply (bool_decide_unpack (DOLLAR ∉ [120; 121])).
  - by apply (bool_decide_unpack (BACKSLASH ∉ [120; 121])).
  - split; [|done]. zl.
Defined.

(** Behind an escaped placeholder the search goes on two characters too late:
    the placeholder that follows is not expanded. *)
Lemma escape_skips_next : exists junk,
  subs ([BACKSLASH; DOLLAR; LBRACE; RBRACE] ++ [DOLLAR; LBRACE; 65; RBRACE] ++ 0 :: room 10) =
    Some ([DOLLAR; LBRACE; RBRACE] ++ [DOLLAR; LBRACE; 65; RBRACE] ++ 0 :: junk).
Proof. eexists. by vm_compute. Qed.

(** At the end of the string it goes on behind the terminator. *)
Lemma escape_at_end_overruns : subs [BACKSLASH; DOLLAR; LBRACE; 0] = None.
Proof. by vm_compute. Qed.

(** A name of 1024 characters does not fit the buffer for names. *)
Lemma long_name_overruns : subs ([DOLLAR; LBRACE] ++ replicate 1024 65 ++ [RBRACE; 0]) = None.
Proof. by vm_compute. Qed.

(** When the decryption fails the memory that was allocated for it is put in. *)
Lemma failed_decryption_used : exists rest,
  let malloc n := Some (take (Z.to_nat n) [88; 89; 0; 0; 0]) in
  ndrx_str_env_subs_len getenv malloc fresh (Some password) (room 64) fresh ([DOLLAR; LBRACE] ++ DEC ++ [EQUALS; 65; 65; 65; RBRACE; 0]) 11 =
    Some ([88; 89] ++ 0 :: rest).
Proof. eexists. by vm_compute. Qed.

End SubstDemo.
