(* ===== verification/LinHash.v ===== *)
(** * Open addressing in shared memory

    [libnstd/linearhash.c]: the search for the place of a key in a table with
    linear probing, in which the cell of a removed key stays marked as used; its
    user [libatmi/cltshm.c], the table of the client processes; and the theory
    of such tables, shared with the table of services.

    A table is a list of cells.  Where the code indexes outside the table the
    result is [None]. *)

From stdpp Require Import gmap.
From S2P Require Import Prelude.

(** ** Tables *)

(** What the search looks at in a cell: whether it was ever used, whether what it
    holds is in use, and the key. *)
Class HashCell (C K : Type) := { c_used : C -> bool; c_live : C -> bool; c_key : C -> K }.

Section Probe.

Context {C K : Type} `{HashCell C K, EqDecision K}.
Implicit Types (tbl : list C) (c : C) (k : K) (i n : nat).

Definition is_key (k : K) (c : C) : bool := bool_decide (c_key c = k).

(** The loop: used cells from [start] on, round the end of the table and up to
    [start] again, until one satisfies [stop]; where it ends, and whether there. *)
Fixpoint probe (fuel : nat) (tbl : list C) (stop : C -> bool) (start try : nat) (overflow : bool) : option (nat * bool) :=
  match fuel with
  | O => None
  | S fuel =>
      c ← tbl !! try;
      if c_used c && (negb overflow || (try <? start)%nat) then
        if stop c then Some (try, true)
        else
          let try := S try in
          if (length tbl <=? try)%nat then probe fuel tbl stop start 0 true
          else probe fuel tbl stop start try overflow
      else Some (try, false)
  end.

(** ** The order of the search *)

Definition order (start n : nat) : list nat := seq start (n - start) ++ seq 0 start.

(** Where the loop ends for the cell at [i]. *)
Definition stops (tbl : list C) (stop : C -> bool) (i : nat) : bool :=
  match tbl !! i with Some c => negb (c_used c) || stop c | None => true end.

Definition used_at (tbl : list C) (i : nat) : bool := match tbl !! i with Some c => c_used c | None => false end.

Lemma probe_overflow tbl stop start : (start < length tbl)%nat -> forall m fuel try, (try + m)%nat = start -> (m < fuel)%nat ->
  probe fuel tbl stop start try true =
    match find (stops tbl stop) (seq try m) with Some i => Some (i, used_at tbl i) | None => Some (start, false) end.
Proof.
  intros Hs. induction m as [|m IH]; intros fuel try Ht Hf; (destruct fuel as [|fuel]; [lia|]); cbn [probe];
    (destruct (lookup_lt_is_Some_2 tbl try) as [c Hc]; [lia|]); rewrite Hc; cbn [mbind option_bind negb orb].
  - replace try with start by lia. rewrite Nat.ltb_irrefl, andb_false_r. done.
  - rewrite (proj2 (Nat.ltb_lt _ _)) by lia. rewrite andb_true_r. cbn [seq find]. unfold stops at 1, used_at. rewrite Hc.
    destruct (c_used c) eqn:Hu; cbn [negb orb]; [|by rewrite Hc, Hu]. destruct (stop c); [by rewrite Hc, Hu|].
    rewrite (proj2 (Nat.leb_gt _ _)) by lia. apply IH; lia.
Qed.

Lemma probe_first tbl stop start : (start < length tbl)%nat -> forall m fuel try, (try + m)%nat = length tbl -> (0 < m)%nat -> (start + m < fuel)%nat ->
  probe fuel tbl stop start try false =
    match find (stops tbl stop) (seq try m ++ seq 0 start) with Some i => Some (i, used_at tbl i) | None => Some (start, false) end.
Proof.
  intros Hs. induction m as [|m IH]; intros fuel try Ht Hm Hf; [lia|]. destruct fuel as [|fuel]; [lia|]. cbn [probe].
  destruct (lookup_lt_is_Some_2 tbl try) as [c Hc]; [lia|]. rewrite Hc. cbn [mbind option_bind negb orb]. rewrite andb_true_r.
  cbn [seq find app]. unfold stops at 1. rewrite Hc. destruct (c_used c) eqn:Hu; cbn [negb orb]; [|by unfold used_at; rewrite Hc, Hu].
  destruct (stop c); [by unfold used_at; rewrite Hc, Hu|]. destruct (Nat.leb_spec (length tbl) (S try)).
  - assert (m = 0%nat) as -> by lia. cbn [seq app]. rewrite (probe_overflow tbl stop start Hs start) by lia. done.
  - apply IH; lia.
Qed.

(** The loop finds the first cell in order where it can end. *)
Lemma probe_spec tbl stop start : (start < length tbl)%nat ->
  probe (S (length tbl)) tbl stop start start false =
    match find (stops tbl stop) (order start (length tbl)) with Some i => Some (i, used_at tbl i) | None => Some (start, false) end.
Proof. intros Hs. apply probe_first; lia. Qed.

Lemma order_elem start n i : (start < n)%nat -> i ∈ order start n <-> (i < n)%nat.
Proof. intros Hs. unfold order. rewrite elem_of_app, !elem_of_seq. lia. Qed.

Lemma order_NoDup start n : (start < n)%nat -> NoDup (order start n).
Proof.
  intros Hs. apply NoDup_app. split; [apply NoDup_seq|]. split; [|apply NoDup_seq]. intros i. rewrite !elem_of_seq. lia.
Qed.

(** ** [ndrx_lh_position_get]

    The answer: whether there is a position, the position, and whether it holds
    the value of the key. *)

Variable hash : nat -> K -> nat.

Definition lh_stop (k : K) (creat : bool) (c : C) : bool := is_key k c || creat && negb (c_live c).

Definition lh_search (tbl : list C) (start : nat) (k : K) (creat : bool) : option (bool * nat * bool) :=
  '(pos, found) ← probe (S (length tbl)) tbl (lh_stop k creat) start start false;
  c ← tbl !! pos;
  Some (if found : bool then (true, pos, is_key k c && c_live c) else (negb (c_used c), pos, false)).

Definition ndrx_lh_position_get (tbl : list C) (k : K) (creat : bool) : option (bool * nat * bool) :=
  start ← (if creat then
             '(ret, try_read, read_have_value) ← lh_search tbl (hash (length tbl) k) k false;
             Some (if (ret && read_have_value)%bool then try_read else hash (length tbl) k)
           else Some (hash (length tbl) k));
  lh_search tbl start k creat.

(** ** Tables whose keys can be found *)

Local Abbreviation way tbl k := (order (hash (length tbl) k) (length tbl)).
Local Abbreviation seek tbl stop k := (find (stops tbl stop) (way tbl k)).

(** What is in use is the first cell on the way of its key that is unused or has
    this key. *)
Definition placed (tbl : list C) : Prop := forall i c, tbl !! i = Some c -> c_live c = true ->
  c_used c = true /\ seek tbl (is_key (c_key c)) (c_key c) = Some i.

(** What is stored under a key. *)
Definition lookup_key (tbl : list C) (k : K) : option C :=
  i ← seek tbl (is_key k) k; c ← tbl !! i; if c_live c && is_key k c then Some c else None.

Lemma find_first (f : nat -> bool) l i : find f l = Some i <-> exists l1 l2, l = l1 ++ i :: l2 /\ f i = true /\ Forall (fun j => f j = false) l1.
Proof.
  induction l as [|x l IH]; cbn [find].
  - split; [done|]. by intros ([|??] & ? & ? & _).
  - destruct (f x) eqn:Hx.
    + split; [intros [= ->]; by exists [], l|]. intros ([|y l1] & l2 & [= -> ->] & Hi & Hl); [done|]. apply Forall_cons in Hl as [? _]. congruence.
    + rewrite IH. split.
      * intros (l1 & l2 & -> & Hi & Hl). exists (x :: l1), l2. split; [done|split; [done|by constructor]].
      * intros ([|y l1] & l2 & [= -> ->] & Hi & Hl); [congruence|]. apply Forall_cons in Hl as [_ Hl]. by exists l1, l2.
Qed.

Lemma find_nothing (f : nat -> bool) l : find f l = None <-> Forall (fun j => f j = false) l.
Proof.
  induction l as [|x l IH]; cbn [find]; [by split|]. rewrite Forall_cons. destruct (f x); [|by rewrite IH; split; [|intros [_ ?]]]. by split; [|intros [? _]].
Qed.

Lemma find_less (f g : nat -> bool) l i : find f l = Some i -> g i = true -> (forall j, g j = true -> f j = true) -> find g l = Some i.
Proof.
  rewrite !find_first. intros (l1 & l2 & -> & Hf & Hl) Hg Hgf. exists l1, l2. split; [done|split; [done|]].
  eapply Forall_impl; [exact Hl|]. intros j Hj. destruct (g j) eqn:Hgj; [|done]. apply Hgf in Hgj. cbn in Hj. congruence.
Qed.

Lemma is_key_true k c : is_key k c = true <-> c_key c = k.
Proof. apply bool_decide_eq_true. Qed.

Lemma is_key_self c : is_key (c_key c) c = true.
Proof. by apply is_key_true. Qed.

Lemma lookup_key_spec tbl k c : placed tbl ->
  lookup_key tbl k = Some c <-> exists i, tbl !! i = Some c /\ c_live c = true /\ c_key c = k.
Proof.
  intros Hp. unfold lookup_key. split.
  - destruct (seek tbl (is_key k) k) as [i|]; [|done]. cbn [mbind option_bind]. destruct (tbl !! i) as [c'|] eqn:Hi; [|done]. cbn [mbind option_bind].
    destruct (c_live c') eqn:Hl; [|done]. destruct (is_key k c') eqn:Hk; [|done]. intros [= ->]. exists i. by apply is_key_true in Hk.
  - intros (i & Hi & Hl & <-). destruct (Hp i c Hi Hl) as [_ ->]. cbn [mbind option_bind]. rewrite Hi. cbn [mbind option_bind]. by rewrite Hl, is_key_self.
Qed.

Lemma placed_unique tbl i j c d : placed tbl -> tbl !! i = Some c -> tbl !! j = Some d -> c_live c = true -> c_live d = true ->
  c_key c = c_key d -> i = j.
Proof. intros Hp Hi Hj Hc Hd He. destruct (Hp i c Hi Hc) as [_ H1], (Hp j d Hj Hd) as [_ H2]. rewrite He in H1. congruence. Qed.

Lemma stops_other tbl f p c j : j <> p -> stops (<[p:=c]> tbl) f j = stops tbl f j.
Proof. intros Hj. unfold stops. by rewrite list_lookup_insert_ne by done. Qed.

Lemma stops_new tbl f p c : (p < length tbl)%nat -> c_used c = true -> stops (<[p:=c]> tbl) f p = f c.
Proof. intros Hp Hu. unfold stops. rewrite list_lookup_insert_eq by done. by rewrite Hu. Qed.

Lemma seek_key_at tbl i c : tbl !! i = Some c -> stops tbl (is_key (c_key c)) i = true.
Proof. intros Hi. unfold stops. rewrite Hi, is_key_self. by destruct (c_used c). Qed.

(** Writing a cell: the keys of the others stay where they are found, unless the
    cell was in use on their way and gets their key; its own key is found when
    the way to it is clear. *)
Lemma placed_write tbl p c : placed tbl -> (p < length tbl)%nat -> c_used c = true ->
  (forall i d, tbl !! i = Some d -> c_live d = true -> i <> p -> c_key d = c_key c -> stops tbl (is_key (c_key c)) p = true) ->
  (c_live c = true -> exists l1 l2, way tbl (c_key c) = l1 ++ p :: l2 /\ Forall (fun j => stops tbl (is_key (c_key c)) j = false) l1) ->
  placed (<[p:=c]> tbl).
Proof.
  intros Hp Hlt Hu Hothers Hown i d Hi Hd. rewrite length_insert. destruct (decide (i = p)) as [->|Hne].
  - rewrite list_lookup_insert_eq in Hi by done. injection Hi as <-. split; [done|]. destruct (Hown Hd) as (l1 & l2 & Hl & Hc).
    apply find_first. exists l1, l2. split; [done|]. rewrite stops_new by done. split; [apply is_key_self|].
    assert (Hin : forall j, j ∈ l1 -> j <> p).
    { intros j Hj ->. destruct (decide (hash (length tbl) (c_key c) < length tbl)%nat) as [Hh|Hh].
      - pose proof (order_NoDup _ _ Hh) as Hnd. rewrite Hl in Hnd. apply NoDup_app in Hnd as (_ & Hnd & _). apply (Hnd p Hj). by left.
      - unfold order in Hl. replace (length tbl - _)%nat with 0%nat in Hl by lia. cbn [seq app] in Hl.
        pose proof (NoDup_seq 0 (hash (length tbl) (c_key c))) as Hnd. rewrite Hl in Hnd. apply NoDup_app in Hnd as (_ & Hnd & _). apply (Hnd p Hj). by left. }
    rewrite Forall_forall in Hc |- *. intros j Hj. rewrite stops_other by auto. auto.
  - rewrite list_lookup_insert_ne in Hi by done. destruct (Hp i d Hi Hd) as [Hud Hs]. split; [done|].
    eapply find_less; [exact Hs|rewrite stops_other by done; by apply seek_key_at|].
    intros j. destruct (decide (j = p)) as [->|Hj]; [|by rewrite stops_other by done].
    rewrite stops_new by done. intros Hk. apply is_key_true in Hk. rewrite <-Hk. apply (Hothers i d); done.
Qed.

(** What a written cell changes for the keys. *)
Lemma lookup_write tbl p c c' k : placed tbl -> placed (<[p:=c']> tbl) -> tbl !! p = Some c ->
  (c_live c = true -> c_key c = k) -> (c_live c' = true -> c_key c' = k) ->
  (forall i d, tbl !! i = Some d -> c_live d = true -> c_key d = k -> i = p) ->
  lookup_key (<[p:=c']> tbl) k = (if c_live c' then Some c' else None) /\
  forall k', k' <> k -> lookup_key (<[p:=c']> tbl) k' = lookup_key tbl k'.
Proof.
  intros Ht Ht' Hp Hc Hc' Hk. assert (Hlt := lookup_lt_Some _ _ _ Hp). split.
  - destruct (c_live c') eqn:Hl.
    + apply lookup_key_spec; [done|]. exists p. rewrite list_lookup_insert_eq by done. auto.
    + apply eq_None_not_Some. intros [d Hd]. apply lookup_key_spec in Hd as (i & Hi & Hld & Hkd); [|done].
      destruct (decide (i = p)) as [->|Hne]; [rewrite list_lookup_insert_eq in Hi by done; congruence|].
      rewrite list_lookup_insert_ne in Hi by done. destruct Hne. eauto.
  - intros k' Hk'. apply option_eq. intros d. rewrite !lookup_key_spec by done. split; intros (i & Hi & Hl & Hkd); exists i;
      (destruct (decide (i = p)) as [->|Hne]; [|by rewrite list_lookup_insert_ne in * by done]);
      [rewrite list_lookup_insert_eq in Hi by done|]; simplify_eq; exfalso; apply Hk'; auto.
Qed.

(** ** The answers of [ndrx_lh_position_get] *)

Hypothesis hash_ok : forall n k, (0 < n)%nat -> (hash n k < n)%nat.

Lemma stops_dead tbl i c k creat : tbl !! i = Some c -> stops tbl (lh_stop k creat) i = false ->
  c_used c = true /\ c_key c <> k /\ (creat = true -> c_live c = true).
Proof.
  intros Hi. unfold stops, lh_stop. rewrite Hi. intros [Hu [Hk Hl]%orb_false_iff]%orb_false_iff. split; [by destruct (c_used c)|].
  split; [by apply bool_decide_eq_false in Hk|]. intros ->. by destruct (c_live c).
Qed.

Lemma lh_search_spec tbl start k creat : (start < length tbl)%nat ->
  lh_search tbl start k creat = Some (
    match find (stops tbl (lh_stop k creat)) (order start (length tbl)) with
    | Some i => (true, i, match tbl !! i with Some c => c_used c && is_key k c && c_live c | None => false end)
    | None => (false, start, false)
    end).
Proof.
  intros Hs. unfold lh_search. rewrite probe_spec by done.
  destruct (find _ _) as [i|] eqn:Hf; cbn [mbind option_bind].
  - apply find_first in Hf as (l1 & l2 & Ho & Hst & _).
    assert (i ∈ order start (length tbl)) as Hin by (rewrite Ho; apply elem_of_app; right; by left).
    apply order_elem in Hin; [|done]. destruct (lookup_lt_is_Some_2 tbl i Hin) as [c Hc]. unfold used_at. rewrite Hc. cbn [mbind option_bind].
    by destruct (c_used c).
  - destruct (lookup_lt_is_Some_2 tbl start Hs) as [c Hc]. rewrite Hc. cbn [mbind option_bind].
    rewrite find_nothing, Forall_forall in Hf. destruct (stops_dead tbl start c k creat Hc) as [-> _]; [|done].
    apply Hf. apply order_elem; done.
Qed.

Lemma stop_key_at tbl i k c : stops tbl (lh_stop k false) i = true -> tbl !! i = Some c -> c_used c = true -> c_key c = k.
Proof. unfold stops, lh_stop. intros Hs Hi Hu. rewrite Hi, Hu, orb_false_r in Hs. by apply is_key_true. Qed.

Lemma stops_ext tbl f g l : (forall c, f c = g c) -> find (stops tbl f) l = find (stops tbl g) l.
Proof. intros Hfg. induction l as [|x l IH]; [done|]. cbn [find]. rewrite IH. unfold stops. destruct (tbl !! x); [by rewrite Hfg|done]. Qed.

(** Reading: the position of the key's value, or none with a value; a position
    given without a value is that of a cell which is not in use. *)
Lemma lh_read tbl k : placed tbl -> (0 < length tbl)%nat ->
  exists ret pos have, ndrx_lh_position_get tbl k false = Some (ret, pos, have) /\
    lookup_key tbl k = (if have then tbl !! pos else None) /\ (pos < length tbl)%nat /\
    (have = true -> ret = true) /\
    (ret = true -> forall c, tbl !! pos = Some c -> c_live c = true -> c_key c = k /\ have = true) /\
    (ret = false -> forall i c, tbl !! i = Some c -> c_used c = true /\ c_key c <> k).
Proof.
  intros Ht Hn. unfold ndrx_lh_position_get. cbn [mbind option_bind]. pose proof (hash_ok _ k Hn) as Hh.
  rewrite lh_search_spec by done. unfold lookup_key. rewrite (stops_ext tbl (lh_stop k false) (is_key k)) by (intros c; unfold lh_stop; by rewrite orb_false_r).
  destruct (seek tbl (is_key k) k) as [i|] eqn:Hf.
  - assert (Hin : i ∈ way tbl k) by (apply find_first in Hf as (l1 & l2 & -> & _); apply elem_of_app; right; by left).
    apply order_elem in Hin; [|done]. destruct (lookup_lt_is_Some_2 tbl i Hin) as [c Hc].
    exists true, i, (c_used c && is_key k c && c_live c). cbn [mbind option_bind]. rewrite Hc. cbn [mbind option_bind]. split; [done|].
    assert (Hcu : c_live c = true -> c_used c = true) by (intros Hl; apply (Ht i c Hc Hl)).
    assert (Hst : c_used c = true -> is_key k c = true).
    { apply find_first in Hf as (_ & _ & _ & Hs & _). unfold stops in Hs. rewrite Hc in Hs. intros Hu. by rewrite Hu in Hs. }
    split; [|split; [done|split; [done|split; [|done]]]].
    + destruct (c_live c); [|by destruct (c_used c), (is_key k c)]. rewrite Hcu, Hst by auto. done.
    + intros _ c' [= <-] Hl. rewrite Hl, Hcu, Hst by auto. split; [|done]. apply is_key_true. auto.
  - exists false, (hash (length tbl) k), false. split; [done|]. split; [done|]. split; [done|]. split; [done|]. split; [done|].
    intros _ i c Hi. rewrite find_nothing, Forall_forall in Hf. destruct (stops_dead tbl i c k false Hi) as (? & ? & _); [|done].
    assert (stops tbl (is_key k) i = false) as Hs by (apply Hf, order_elem; [done|by eapply lookup_lt_Some]).
    revert Hs. unfold stops, lh_stop. rewrite Hi. by rewrite orb_false_r.
Qed.

(** Creating: a position that holds the key's value, or one that is not in use and
    which the search for the key reaches; no position when all cells are in use
    for other keys. *)
Lemma lh_create tbl k : placed tbl -> (0 < length tbl)%nat ->
  exists ret pos have, ndrx_lh_position_get tbl k true = Some (ret, pos, have) /\
    (if ret then
       (pos < length tbl)%nat /\
       (exists l1 l2, way tbl k = l1 ++ pos :: l2 /\ Forall (fun j => stops tbl (is_key k) j = false) l1) /\
       (forall c, tbl !! pos = Some c -> c_live c = true -> c_key c = k) /\
       (forall i c, tbl !! i = Some c -> c_live c = true -> c_key c = k -> i = pos)
     else have = false /\ Forall (fun c => c_live c = true /\ c_key c <> k) tbl).
Proof.
  intros Ht Hn. destruct (lh_read tbl k Ht Hn) as (ret & pos & have & Hr & Hlk & Hlt & Hhr & Hlive & _).
  unfold ndrx_lh_position_get in *. cbn [mbind option_bind] in Hr. rewrite Hr. cbn [mbind option_bind]. destruct have.
  - rewrite Hhr by done. cbn [andb]. destruct (lookup_lt_is_Some_2 tbl pos Hlt) as [c Hc].
    rewrite Hc in Hlk. pose proof Hlk as Hs. apply lookup_key_spec in Hlk as (i & Hi & Hl & Hk); [|done].
    assert (i = pos) as ->.
    { unfold lookup_key in Hs. rewrite lh_search_spec in Hr by auto. destruct (Ht i c Hi Hl) as [_ Hf]. rewrite Hk in Hf.
      rewrite (stops_ext tbl (lh_stop k false) (is_key k)) in Hr by (intros d; unfold lh_stop; by rewrite orb_false_r). rewrite Hf in Hr. congruence. }
    rewrite lh_search_spec by done. assert (find (stops tbl (lh_stop k true)) (order pos (length tbl)) = Some pos) as ->.
    { unfold order. replace (length tbl - pos)%nat with (S (length tbl - S pos)) by lia. cbn [seq app find].
      unfold stops, lh_stop. rewrite Hc, (proj2 (is_key_true k c) Hk). cbn [orb]. by rewrite orb_true_r. }
    exists true, pos, (match tbl !! pos with Some c => c_used c && is_key k c && c_live c | None => false end). split; [done|]. split; [done|].
    destruct (Ht pos c Hc Hl) as [_ Hf]. rewrite Hk in Hf. apply find_first in Hf as (l1 & l2 & Hw & _ & Hl1). split; [eauto|].
    split; [intros c' Hc' _; congruence|]. intros i c' Hi' Hl' Hk'. apply (placed_unique tbl i pos c' c); [done..|congruence].
  - assert (Hno : forall i c, tbl !! i = Some c -> c_live c = true -> c_key c <> k).
    { intros i c Hi Hl Hk. assert (lookup_key tbl k = Some c) by (apply lookup_key_spec; eauto). congruence. }
    rewrite andb_false_r, lh_search_spec by auto. destruct (find _ _) as [p|] eqn:Hf.
    + exists true, p, (match tbl !! p with Some c => c_used c && is_key k c && c_live c | None => false end). split; [done|].
      apply find_first in Hf as (l1 & l2 & Hw & Hs & Hl1).
      assert (p < length tbl)%nat as Hp by (apply (order_elem (hash (length tbl) k)); [auto|]; rewrite Hw; apply elem_of_app; right; by left).
      split; [done|]. split; [|split; [|intros i c Hi Hl Hk; by destruct (Hno i c Hi Hl)]].
      2: { intros c Hc Hl. unfold stops, lh_stop in Hs. rewrite Hc, Hl, (proj1 (Ht p c Hc Hl)), orb_false_r in Hs. by apply is_key_true. }
      exists l1, l2. split; [done|]. eapply Forall_impl; [exact Hl1|]. cbn beta.
      intros j. unfold stops, lh_stop. destruct (tbl !! j); [|done]. intros [-> [-> _]%orb_false_iff]%orb_false_iff. done.
    + exists false, (hash (length tbl) k), false. split; [done|]. split; [done|]. apply Forall_lookup. intros i c Hi.
      rewrite find_nothing, Forall_forall in Hf. destruct (stops_dead tbl i c k true Hi) as (_ & ? & Hl); [|by auto].
      apply Hf, order_elem; [auto|]. by eapply lookup_lt_Some.
Qed.

(** Storing under a key at the position given for it. *)
Lemma lh_install tbl k pos have c : placed tbl -> (0 < length tbl)%nat -> ndrx_lh_position_get tbl k true = Some (true, pos, have) ->
  c_used c = true -> c_live c = true -> c_key c = k ->
  (pos < length tbl)%nat /\ placed (<[pos:=c]> tbl) /\ lookup_key (<[pos:=c]> tbl) k = Some c /\
  forall k', k' <> k -> lookup_key (<[pos:=c]> tbl) k' = lookup_key tbl k'.
Proof.
  intros Ht Hn Hg Hu Hl <-. destruct (lh_create tbl (c_key c) Ht Hn) as (ret & pos' & have' & Hg' & Hspec). rewrite Hg in Hg'. injection Hg' as <- <- <-.
  destruct Hspec as (Hlt & Hway & Hold & Huniq). split; [done|].
  assert (placed (<[pos:=c]> tbl)) as Ht' by (apply placed_write; [done|done|done| |done]; intros i d Hi Hd Hne Hk; destruct Hne; eauto).
  split; [done|]. destruct (lookup_lt_is_Some_2 tbl pos Hlt) as [d Hd].
  destruct (lookup_write tbl pos d c (c_key c) Ht Ht' Hd) as [Hk Hk']; [by auto|done|by eauto|]. by rewrite Hl in Hk.
Qed.

(** Taking out of use the cell found for a key. *)
Lemma lh_remove tbl k pos have d c : placed tbl -> (0 < length tbl)%nat -> ndrx_lh_position_get tbl k false = Some (true, pos, have) ->
  tbl !! pos = Some d -> c_used c = true -> c_live c = false -> c_key c = c_key d ->
  placed (<[pos:=c]> tbl) /\ lookup_key (<[pos:=c]> tbl) k = None /\
  forall k', k' <> k -> lookup_key (<[pos:=c]> tbl) k' = lookup_key tbl k'.
Proof.
  intros Ht Hn Hg Hd Hu Hl Hk. destruct (lh_read tbl k Ht Hn) as (ret & pos' & have' & Hg' & Hlk & Hlt & _ & Hlive & _).
  rewrite Hg in Hg'. injection Hg' as <- <- <-.
  assert (placed (<[pos:=c]> tbl)) as Ht'.
  { apply placed_write; [done|done|done| |by rewrite Hl]. intros _ _ _ _ _ _. rewrite Hk. by apply seek_key_at. }
  split; [done|]. destruct (lookup_write tbl pos d c k Ht Ht' Hd) as [H1 H2]; [intros Hld; by apply (Hlive eq_refl d Hd Hld)|by rewrite Hl| |by rewrite Hl in H1].
  intros i e Hi He Hek. assert (lookup_key tbl k = Some e) as Hle by (apply lookup_key_spec; eauto). rewrite Hle in Hlk.
  destruct have; [|done]. symmetry in Hlk. destruct (Hlive eq_refl e Hlk He) as [Hke _]. by apply (placed_unique tbl i pos e e).
Qed.

End Probe.

Lemma NoDup_filtered {A B} (f : A -> B) (P : A -> bool) (l : list A) :
  (forall i j c d, l !! i = Some c -> l !! j = Some d -> P c = true -> P d = true -> f c = f d -> i = j) -> NoDup (f <$> filter P l).
Proof.
  induction l as [|x l IH]; intros Hl; [constructor|]. rewrite filter_cons.
  assert (NoDup (f <$> filter P l)) as Hnd.
  { apply IH. intros i j c d Hi Hj Hc Hd He. assert (S i = S j) as [= ?]; [|done]. by apply (Hl (S i) (S j) c d). }
  destruct (decide (P x)) as [Hx|]; [|done]. cbn. constructor; [|done]. intros (y & He & Hy)%list_elem_of_fmap.
  apply list_elem_of_filter in Hy as [Hy (i & Hi)%list_elem_of_lookup]. assert (0%nat = S i); [|done].
  apply (Hl 0%nat (S i) x y); [done|done|by apply Is_true_true|by apply Is_true_true|done].
Qed.

(** ** [ndrx_hash_fn] ([libnstd/nstd_shmsv.c])

    [char] is signed; the arithmetic is that of [unsigned int]. *)

Definition char_of (b : Z) : Z := if b <? 128 then b else b - 256.

Definition ndrx_hash_fn (str : list Z) : Z :=
  fold_left (fun hash c => u32 (u32 (u32 (Z.shiftl hash 5) + hash) + char_of c)) str 5381.

(** The place of a string in a table of [elmmax] cells. *)
Definition string_hash (elmmax : nat) (k : list Z) : nat := Z.to_nat (ndrx_hash_fn k mod Z.of_nat elmmax).

Lemma string_hash_ok n k : (0 < n)%nat -> (string_hash n k < n)%nat.
Proof. intros Hn. unfold string_hash. pose proof (Z.mod_pos_bound (ndrx_hash_fn k) (Z.of_nat n)). lia. Qed.

(** [NDRX_STRCPY_SAFE] to an array of [size] bytes. *)
Definition ndrx_strcpy_safe (size : nat) (s : list Z) : list Z := take (size - 1) s.

Definition NDRX_LH_FLAG_ISUSED : Z := 1.
Definition NDRX_LH_FLAG_WASUSED : Z := 2.
Definition has_flag (flags f : Z) : bool := negb (Z.land flags f =? 0).

(** ** The table of client processes ([libatmi/cltshm.c]) *)

Module Clt.

Definition NDRX_MAX_Q_SIZE : nat := 128.
Definition NDRX_CPM_CMDMIN : nat := 32.
Definition NDRX_CPM_MAP_ISUSED : Z := NDRX_LH_FLAG_ISUSED.
Definition NDRX_CPM_MAP_WASUSED : Z := NDRX_LH_FLAG_WASUSED.
Definition NDRX_CPM_MAP_CPMPROC : Z := 4.

Record ndrx_clt_shm := { key : list Z; pid : Z; flags : Z; stattime : Z; procname : list Z }.

#[export] Instance clt_cell : HashCell ndrx_clt_shm (list Z) :=
  {| c_used c := has_flag (flags c) NDRX_LH_FLAG_WASUSED; c_live c := has_flag (flags c) NDRX_LH_FLAG_ISUSED; c_key := key |}.

(** A new segment is zeroed. *)
Definition empty_cell : ndrx_clt_shm := {| key := []; pid := 0; flags := 0; stattime := 0; procname := [] |}.
Definition new_table (max_clts : nat) : list ndrx_clt_shm := replicate max_clts empty_cell.

Definition ndrx_cltshm_get_key (mem : list ndrx_clt_shm) (k : list Z) (creat : bool) : option (bool * nat * bool) :=
  if (length mem =? 0)%nat then None else ndrx_lh_position_get string_hash mem k creat.

(** The pid, with the name of the process cut to the caller's array and the time of
    its start; [locked]: the semaphore was obtained. *)
Definition ndrx_cltshm_getpid (locked : bool) (mem : list ndrx_clt_shm) (k : list Z) (procnamesz : nat) : option (Z * option (list Z * Z)) :=
  if negb locked then Some (EXFAIL, None)
  else
    '(ret, pos, have_value) ← ndrx_cltshm_get_key mem k false;
    if (ret && have_value)%bool then
      el ← mem !! pos;
      Some (pid el, Some (ndrx_strcpy_safe procnamesz (procname el), stattime el))
    else Some (EXFAIL, None).

Definition ndrx_cltshm_setpos (locked : bool) (now : Z) (mem : list ndrx_clt_shm) (k : list Z) (p fl : Z) (name : option (list Z))
  : option (list ndrx_clt_shm * Z) :=
  let creat := has_flag fl NDRX_CPM_MAP_ISUSED in
  if negb locked then Some (mem, EXFAIL)
  else
    '(ret, pos, have_value) ← ndrx_cltshm_get_key mem k creat;
    if ret : bool then
      el ← mem !! pos;
      el' ← (if creat then
               name ← name;
               Some {| key := ndrx_strcpy_safe (S NDRX_MAX_Q_SIZE) k; pid := p; flags := fl; stattime := now;
                       procname := ndrx_strcpy_safe (S NDRX_CPM_CMDMIN) name |}
             else Some {| key := key el; pid := pid el; flags := fl; stattime := stattime el; procname := procname el |});
      Some (<[pos:=el']> mem, EXSUCCEED)
    else Some (mem, EXFAIL).

(** ** Against a map from keys to processes *)

Record client := { cl_pid : Z; cl_name : list Z; cl_time : Z }.

Definition client_of (c : ndrx_clt_shm) : client := {| cl_pid := pid c; cl_name := procname c; cl_time := stattime c |}.

Definition holds (mem : list ndrx_clt_shm) (m : gmap (list Z) client) : Prop :=
  placed string_hash mem /\ forall k, client_of <$> lookup_key string_hash mem k = m !! k.

Definition key_ok (k : list Z) : Prop := (length k <= NDRX_MAX_Q_SIZE)%nat.

Inductive op :=
| Started (k : list Z) (p now : Z) (name : list Z)    (** a process was started *)
| Ended (k : list Z).                                 (** it is gone *)

Definition op_key (o : op) : list Z := match o with Started k _ _ _ => k | Ended k => k end.

(** The calls of [cpmsrv/cltexec.c]. *)
Definition run_op (mem : list ndrx_clt_shm) (o : op) : option (list ndrx_clt_shm * Z) :=
  match o with
  | Started k p now name => ndrx_cltshm_setpos true now mem k p 
      (Z.lor (Z.lor NDRX_CPM_MAP_ISUSED NDRX_CPM_MAP_WASUSED) NDRX_CPM_MAP_CPMPROC) (Some name)
  | Ended k => ndrx_cltshm_setpos true 0 mem k EXFAIL NDRX_CPM_MAP_WASUSED None
  end.

Fixpoint run_ops (mem : list ndrx_clt_shm) (os : list op) : option (list ndrx_clt_shm * list Z) :=
  match os with
  | [] => Some (mem, [])
  | o :: os => '(mem, r) ← run_op mem o; '(mem, rs) ← run_ops mem os; Some (mem, r :: rs)
  end.

(** What an operation means for the map of at most [n] entries. *)
Definition op_map (n : nat) (m : gmap (list Z) client) (o : op) : gmap (list Z) client :=
  match o with
  | Started k p now name =>
      if bool_decide (is_Some (m !! k) \/ (size m < n)%nat)
      then <[k := {| cl_pid := p; cl_name := take NDRX_CPM_CMDMIN name; cl_time := now |}]> m else m
  | Ended k => delete k m
  end.

Definition accepted (n : nat) (m : gmap (list Z) client) (k : list Z) : bool := bool_decide (is_Some (m !! k) \/ (size m < n)%nat).

Definition answer_ok (n : nat) (m : gmap (list Z) client) (o : op) (r : Z) : Prop :=
  match o with
  | Started k _ _ _ => r = if accepted n m k then EXSUCCEED else EXFAIL
  | Ended k => is_Some (m !! k) -> r = EXSUCCEED
  end.

Fixpoint answers_ok (n : nat) (m : gmap (list Z) client) (os : list op) (rs : list Z) : Prop :=
  match os, rs with
  | [], [] => True
  | o :: os, r :: rs => answer_ok n m o r /\ answers_ok n (op_map n m o) os rs
  | _, _ => False
  end.

(** ** Proofs *)

Definition in_use (mem : list ndrx_clt_shm) : list ndrx_clt_shm := filter (fun c => c_live c) mem.

Lemma holds_lookup mem m k : holds mem m -> m !! k = client_of <$> lookup_key string_hash mem k.
Proof. by intros [_ ->]. Qed.

(** The map has as many entries as cells are in use. *)
Lemma holds_size mem m : holds mem m -> size m = length (in_use mem).
Proof.
  intros [Ht Hm]. rewrite <-size_dom, <-(length_fmap key). assert (NoDup (key <$> in_use mem)) as Hnd.
  { apply NoDup_filtered. intros i j c d Hi Hj Hc Hd He. by apply (placed_unique string_hash mem i j c d). }
  rewrite <-(size_list_to_set (C := gset (list Z)) _ Hnd). f_equal. apply set_eq. intros k.
  rewrite elem_of_dom, elem_of_list_to_set, <-Hm, fmap_is_Some, list_elem_of_fmap. split.
  - intros [c Hc]. apply lookup_key_spec in Hc as (i & Hi & Hl & Hk); [|done]. exists c. split; [done|].
    apply list_elem_of_filter. split; [by apply Is_true_true|]. by eapply list_elem_of_lookup_2.
  - intros (c & -> & Hc). apply list_elem_of_filter in Hc as [Hl (i & Hi)%list_elem_of_lookup]. exists c.
    apply lookup_key_spec; [done|]. exists i. split; [done|split; [by apply Is_true_true|done]].
Qed.

Lemma in_use_full mem : Forall (fun c => c_live c = true) mem -> length (in_use mem) = length mem.
Proof. induction 1 as [|c mem Hc _ IH]; [done|]. unfold in_use in *. rewrite filter_cons_True by (by apply Is_true_true). cbn [length]. by f_equal. Qed.

Lemma in_use_free mem i c : mem !! i = Some c -> c_live c = false -> (length (in_use mem) < length mem)%nat.
Proof.
  intros Hi Hc. unfold in_use. apply length_filter_lt with c; [by eapply list_elem_of_lookup_2|]. by apply Is_true_false.
Qed.

Lemma get_key_eq mem k creat : (0 < length mem)%nat -> ndrx_cltshm_get_key mem k creat = ndrx_lh_position_get string_hash mem k creat.
Proof. intros Hn. unfold ndrx_cltshm_get_key. destruct (Nat.eqb_spec (length mem) 0); [lia|done]. Qed.

Lemma key_kept k : key_ok k -> ndrx_strcpy_safe (S NDRX_MAX_Q_SIZE) k = k.
Proof. unfold key_ok. intros Hk. apply take_ge. cbn [Nat.sub]. lia. Qed.

Lemma started_step mem m k p now name : holds mem m -> (0 < length mem)%nat -> key_ok k ->
  exists mem' r, run_op mem (Started k p now name) = Some (mem', r) /\ length mem' = length mem /\
    holds mem' (op_map (length mem) m (Started k p now name)) /\ answer_ok (length mem) m (Started k p now name) r.
Proof.
  intros Hh Hn Hk. destruct Hh as [Ht Hm] eqn:E. clear E. unfold run_op, ndrx_cltshm_setpos. cbn [negb]. rewrite get_key_eq by done.
  change (has_flag _ NDRX_CPM_MAP_ISUSED) with true. cbn [op_map answer_ok]. fold (accepted (length mem) m k).
  destruct (lh_create string_hash string_hash_ok mem k Ht Hn) as (ret & pos & have & Hg & Hspec). rewrite Hg. cbn [mbind option_bind]. destruct ret.
  - assert (Hacc : accepted (length mem) m k = true).
    { apply bool_decide_eq_true. destruct Hspec as (Hlt & _ & Hold & _). destruct (lookup_lt_is_Some_2 mem pos Hlt) as [d Hd].
      destruct (c_live d) eqn:Hld.
      - left. rewrite <-Hm. apply fmap_is_Some. exists d. apply lookup_key_spec; [done|]. exists pos. auto.
      - right. rewrite (holds_size mem m) by done. by eapply in_use_free. }
    rewrite Hacc. destruct Hspec as (Hlt & _). destruct (lookup_lt_is_Some_2 mem pos Hlt) as [d Hd]. rewrite Hd. cbn [mbind option_bind].
    eexists _, _. split; [done|]. split; [apply length_insert|]. split; [|done]. rewrite key_kept by done.
    set (c := {| key := k |}). destruct (lh_install string_hash string_hash_ok mem k pos have c Ht Hn Hg) as (_ & Ht' & Hk1 & Hk2); [done..|].
    split; [done|]. intros k'. destruct (decide (k' = k)) as [->|Hne]; [by rewrite Hk1, lookup_insert_eq|].
    rewrite Hk2, lookup_insert_ne by done. apply Hm.
  - destruct Hspec as [-> Hall]. assert (accepted (length mem) m k = false) as ->.
    { apply bool_decide_eq_false. intros [[x Hx]|Hs].
      - rewrite <-Hm in Hx. apply fmap_Some in Hx as (c & Hc & _). apply lookup_key_spec in Hc as (i & Hi & _ & Hck); [|done].
        rewrite Forall_lookup in Hall. by destruct (Hall i c Hi).
      - rewrite (holds_size mem m), in_use_full in Hs; [lia| |done]. eapply Forall_impl; [exact Hall|]. by intros c [? _]. }
    by eexists _, _.
Qed.

Lemma ended_step mem m k : holds mem m -> (0 < length mem)%nat ->
  exists mem' r, run_op mem (Ended k) = Some (mem', r) /\ length mem' = length mem /\
    holds mem' (op_map (length mem) m (Ended k)) /\ answer_ok (length mem) m (Ended k) r.
Proof.
  intros [Ht Hm] Hn. unfold run_op, ndrx_cltshm_setpos. cbn [negb]. rewrite get_key_eq by done.
  change (has_flag _ NDRX_CPM_MAP_ISUSED) with false. cbn [op_map answer_ok].
  destruct (lh_read string_hash string_hash_ok mem k Ht Hn) as (ret & pos & have & Hg & Hlk & Hlt & Hhr & _ & _). rewrite Hg. cbn [mbind option_bind]. destruct ret.
  - destruct (lookup_lt_is_Some_2 mem pos Hlt) as [d Hd]. rewrite Hd. cbn [mbind option_bind]. eexists _, _. split; [done|]. split; [apply length_insert|].
    split; [|done]. set (c := {| key := key d |}). destruct (lh_remove string_hash string_hash_ok mem k pos have d c Ht Hn Hg Hd) as (Ht' & Hk1 & Hk2); [done..|].
    split; [done|]. intros k'. destruct (decide (k' = k)) as [->|Hne]; [by rewrite Hk1, lookup_delete_eq|].
    rewrite Hk2, lookup_delete_ne by done. apply Hm.
  - eexists _, _. split; [done|]. split; [done|]. destruct have; [by specialize (Hhr eq_refl)|]. assert (m !! k = None) as Hno by (by rewrite <-Hm, Hlk).
    split; [|by rewrite Hno; intros []]. rewrite delete_id by done. done.
Qed.

Lemma new_table_holds n : holds (new_table n) ∅.
Proof.
  assert (placed string_hash (new_table n)) as Ht by (intros i c [-> _]%lookup_replicate; done). split; [done|]. intros k. rewrite lookup_empty.
  destruct (lookup_key _ _ _) as [c|] eqn:Hc; [|done]. apply lookup_key_spec in Hc as (i & [-> _]%lookup_replicate & Hl & _); done.
Qed.

Lemma getpid_holds mem m k sz : holds mem m -> (0 < length mem)%nat ->
  ndrx_cltshm_getpid true mem k sz =
    Some (match m !! k with Some c => (cl_pid c, Some (ndrx_strcpy_safe sz (cl_name c), cl_time c)) | None => (EXFAIL, None) end).
Proof.
  intros [Ht Hm] Hn. unfold ndrx_cltshm_getpid. cbn [negb]. rewrite get_key_eq by done. rewrite <-Hm.
  destruct (lh_read string_hash string_hash_ok mem k Ht Hn) as (ret & pos & have & Hg & Hlk & Hlt & Hhr & _ & _). rewrite Hg, Hlk. cbn [mbind option_bind].
  destruct have; [|by rewrite andb_false_r]. rewrite Hhr by done. destruct (lookup_lt_is_Some_2 mem pos Hlt) as [d Hd]. rewrite Hd. done.
Qed.

(** C35: the table of client processes is a map, for keys of at most [NDRX_MAX_Q_SIZE]
    characters ([key_ok]; a key of the process monitor can have twice as many, and is
    then stored cut and not found again, [CltDemo.long_key_lost]): whatever starts and ends of processes are entered, in whatever
    order and with whatever collisions of hash values, every key gives the process
    last entered under it and none when that has ended; a new process is refused
    only when as many as there are cells are entered. *)
Theorem clt_table_is_map n os : (0 < n)%nat -> Forall (fun o => key_ok (op_key o)) os ->
  exists mem rs, run_ops (new_table n) os = Some (mem, rs) /\ answers_ok n ∅ os rs /\
    let m := fold_left (op_map n) os ∅ in
    forall k sz, ndrx_cltshm_getpid true mem k sz =
      Some (match m !! k with Some c => (cl_pid c, Some (ndrx_strcpy_safe sz (cl_name c), cl_time c)) | None => (EXFAIL, None) end).
Proof.
  intros Hn Hos. pose proof (new_table_holds n) as Hh. assert (length (new_table n) = n) as Hlen by apply length_replicate.
  revert Hh Hlen. generalize (new_table n) (∅ : gmap (list Z) client). cbv zeta. induction Hos as [|o os Ho Hos IH]; intros mem m Hh Hlen.
  - exists mem, []. split; [done|]. split; [done|]. intros k sz. apply getpid_holds; [done|lia].
  - assert (exists mem' r, run_op mem o = Some (mem', r) /\ length mem' = length mem /\ holds mem' (op_map (length mem) m o) /\ answer_ok (length mem) m o r)
      as (mem' & r & Hr & Hl & Hh' & Ha).
    { destruct o as [k p now name|k]; [apply started_step; [done|lia|done]|apply ended_step; [done|lia]]. }
    rewrite Hlen in *. destruct (IH mem' (op_map n m o) Hh' Hl) as (mem'' & rs & Hrs & Has & Hget). exists mem'', (r :: rs).
    split; [|by split]. cbn [run_ops]. rewrite Hr. cbn [mbind option_bind]. rewrite Hrs. done.
Qed.

End Clt.

Module CltDemo.

(** Keys "a" and "d" fall into the same one of three cells. *)
Definition a : list Z := [97].
Definition d : list Z := [100].
Definition ops : list Clt.op := [Clt.Started a 11 1 [120]; Clt.Started d 12 2 [121]; Clt.Ended a; Clt.Started d 13 3 [122]].

Lemma keys_collide : string_hash 3 a = string_hash 3 d.
Proof. reflexivity. Qed.

Lemma clt_table_is_map_witness : exists mem rs, Clt.run_ops (Clt.new_table 3) ops = Some (mem, rs) /\ Clt.answers_ok 3 ∅ ops rs /\
  Clt.ndrx_cltshm_getpid true mem d 33 = Some (13, Some ([122], 3)).
Proof.
  destruct (Clt.clt_table_is_map 3 ops) as (mem & rs & Hr & Ha & Hg); [lia|by repeat constructor; vm_compute; lia|].
  exists mem, rs. split; [done|]. split; [done|]. rewrite Hg. vm_compute. reflexivity.
Defined.

(** A key that is longer than the array is cut off when it is stored and not found
    afterwards; every start of the client takes another cell. *)
Lemma long_key_lost : let k := replicate 129 97 in
  exists mem, Clt.run_ops (Clt.new_table 3) [Clt.Started k 11 1 [120]; Clt.Started k 12 2 [120]] = Some (mem, [EXSUCCEED; EXSUCCEED]) /\
    Clt.ndrx_cltshm_getpid true mem k 33 = Some (EXFAIL, None) /\ length (Clt.in_use mem) = 2%nat.
Proof. eexists. vm_compute. repeat split. Qed.

(** The end of a client that was never entered marks a free cell as used before. *)
Lemma unknown_end_marks : exists mem, Clt.run_ops (Clt.new_table 1) [Clt.Ended a] = Some (mem, [EXSUCCEED]) /\
  Clt.flags <$> mem = [NDRX_LH_FLAG_WASUSED].
Proof. eexists. vm_compute. repeat split. Qed.

End CltDemo.
