(* ===== verification/ShmSvc.v ===== *)
(** * The table of services in shared memory

    [libatmi/shm.c]: which services are offered, by how many local servers and on
    which nodes of the cluster.  Servers enter and remove services, the daemon
    enters what other nodes offer, and every call looks here for where to go.

    The table is one of those of [LinHash]: the cell of a service stays
    initialised when nobody offers it any more, and may be taken over by another.

    How servers wait for requests is chosen when the product is built: with one
    queue per service ([EPOLL], which stands for all such builds), or with a queue
    per server, the servers of a service being listed in the table ([POLL]:
    server ids, [SYSVQ]: queue ids with the number of servers on them). *)

From stdpp Require Import gmap.
From S2P Require Import Prelude CText LinHash.

Inductive poller := EPOLL | POLL | SYSVQ.

Definition lists_resources (b : poller) : bool := match b with EPOLL => false | _ => true end.

Definition MAXTIDENT : nat := 30.
Definition CONF_NDRX_NODEID_COUNT : nat := 32.
Definition NDRXD_SVCINFO_INIT : Z := 1.

Record cnodeinfo := { latency : Z; n_srvs : Z }.
Record ndrx_shm_resid := { cnt : Z; resid : Z }.

(** [resids] is an array of [G_atmi_env.maxsvcsrvs] places, of which the first
    [resnr] are in use.  The counters are of type [int]; [cnt] is a [short], and
    so is [resnr], which is not above the number of servers. *)
Record shm_svcinfo := {
  service : list Z; srvs : Z; flags : Z; csrvs : Z; totclustered : Z; cnodes_max_id : nat;
  cnodes : list cnodeinfo; resnr : nat; resrr : Z; resids : list ndrx_shm_resid }.

#[export] Instance svc_cell : HashCell shm_svcinfo (list Z) :=
  {| c_used c := has_flag (flags c) NDRXD_SVCINFO_INIT; c_live c := has_flag (flags c) NDRXD_SVCINFO_INIT; c_key := service |}.

(** A new segment is zeroed. *)
Definition no_node : cnodeinfo := {| latency := 0; n_srvs := 0 |}.
Definition no_nodes : list cnodeinfo := replicate CONF_NDRX_NODEID_COUNT no_node.
Definition empty_svc (maxsvcsrvs : nat) : shm_svcinfo :=
  {| service := []; srvs := 0; flags := 0; csrvs := 0; totclustered := 0; cnodes_max_id := 0; cnodes := no_nodes; resnr := 0; resrr := 0;
     resids := replicate maxsvcsrvs {| cnt := 0; resid := 0 |} |}.
Definition new_svcs (max_svcs maxsvcsrvs : nat) : list shm_svcinfo := replicate max_svcs (empty_svc maxsvcsrvs).

(** Assignments to members. *)
Definition with_name (e : shm_svcinfo) x := {| service := x; srvs := srvs e; flags := flags e; csrvs := csrvs e; totclustered := totclustered e; cnodes_max_id := cnodes_max_id e; cnodes := cnodes e; resnr := resnr e; resrr := resrr e; resids := resids e |}.
Definition with_flags (e : shm_svcinfo) x := {| service := service e; srvs := srvs e; flags := x; csrvs := csrvs e; totclustered := totclustered e; cnodes_max_id := cnodes_max_id e; cnodes := cnodes e; resnr := resnr e; resrr := resrr e; resids := resids e |}.
Definition with_counts (e : shm_svcinfo) x y := {| service := service e; srvs := x; flags := flags e; csrvs := y; totclustered := totclustered e; cnodes_max_id := cnodes_max_id e; cnodes := cnodes e; resnr := resnr e; resrr := resrr e; resids := resids e |}.
Definition with_total (e : shm_svcinfo) x y := {| service := service e; srvs := srvs e; flags := flags e; csrvs := csrvs e; totclustered := x; cnodes_max_id := y; cnodes := cnodes e; resnr := resnr e; resrr := resrr e; resids := resids e |}.
Definition with_nodes (e : shm_svcinfo) x := {| service := service e; srvs := srvs e; flags := flags e; csrvs := csrvs e; totclustered := totclustered e; cnodes_max_id := cnodes_max_id e; cnodes := x; resnr := resnr e; resrr := resrr e; resids := resids e |}.
Definition with_resids (e : shm_svcinfo) n l := {| service := service e; srvs := srvs e; flags := flags e; csrvs := csrvs e; totclustered := totclustered e; cnodes_max_id := cnodes_max_id e; cnodes := cnodes e; resnr := n; resrr := resrr e; resids := l |}.
Definition with_resrr (e : shm_svcinfo) x := {| service := service e; srvs := srvs e; flags := flags e; csrvs := csrvs e; totclustered := totclustered e; cnodes_max_id := cnodes_max_id e; cnodes := cnodes e; resnr := resnr e; resrr := x; resids := resids e |}.

(** ** The search *)

Definition svc_stop (svc : list Z) (install : bool) (c : shm_svcinfo) : bool := is_key svc c || install && (srvs c =? 0).

Definition svc_search (mem : list shm_svcinfo) (start : nat) (svc : list Z) (install : bool) : option (bool * nat * bool) :=
  '(pos, found) ← probe (S (length mem)) mem (svc_stop svc install) start start false;
  c ← mem !! pos;
  Some (if found : bool then (is_key svc c, pos, negb (is_key svc c)) else (false, pos, install && negb (c_used c))).

(** Whether the service is there, the position, and whether the position may be
    overwritten. *)
Definition _ndrx_shm_get_svc (mem : list shm_svcinfo) (svc : list Z) (install : bool) : option (bool * nat * bool) :=
  if (length mem =? 0)%nat then None
  else
    start ← (if install then
               '(ret, try_read, _) ← svc_search mem (string_hash (length mem) svc) svc false;
               Some (if ret : bool then try_read else string_hash (length mem) svc)
             else Some (string_hash (length mem) svc));
    svc_search mem start svc install.

(** ** Entering a service *)

(** The servers of the service, with [r] among them. *)
Definition add_resid (b : poller) (e : shm_svcinfo) (r : Z) : option shm_svcinfo :=
  let l := take (resnr e) (resids e) in
  if existsb (fun x => resid x =? r) l then
    Some (match b with
          | SYSVQ => with_resids e (resnr e)
                       (((fun x => if resid x =? r then {| cnt := i16 (cnt x + 1); resid := resid x |} else x) <$> l) ++ drop (resnr e) (resids e))
          | _ => e
          end)
  else if (resnr e <? length (resids e))%nat then
    Some (with_resids e (S (resnr e)) (<[resnr e := {| cnt := 1; resid := r |}]> (resids e)))
  else None.

Definition BRIDGE_REFRESH_MODE_FULL : Z := 70.
Definition BRIDGE_REFRESH_MODE_DIFF : Z := 68.

Definition node_index (nodeid : Z) : option nat := if 1 <=? nodeid then Some (Z.to_nat (nodeid - 1)) else None.

(** What another node reports. *)
Definition bridge_update (e : shm_svcinfo) (nodeid count mode : Z) : option shm_svcinfo :=
  i ← node_index nodeid;
  n ← cnodes e !! i;
  let was_installed := 0 <? n_srvs n in
  let now := if mode =? BRIDGE_REFRESH_MODE_FULL then count else Z.max 0 (i32 (n_srvs n + count)) in
  let e := with_nodes e (<[i := {| latency := latency n; n_srvs := now |}]> (cnodes e)) in
  let e := if (now <=? 0) && was_installed then with_counts e (i32 (srvs e - 1)) (i32 (csrvs e - 1)) else e in
  if (csrvs e =? 0) && (srvs e =? 0) then Some (with_total (with_nodes e no_nodes) 0 (cnodes_max_id e))
  else
    let max_id := if Z.of_nat (cnodes_max_id e) <? nodeid then Z.to_nat nodeid else cnodes_max_id e in
    Some (with_total e (i32 (foldr Z.add 0 (n_srvs <$> take max_id (cnodes e)))) max_id).

(** [locked] is whether the semaphore of the service was obtained, where it is
    used. *)
Definition ndrx_shm_install_svc_br (b : poller) (locked : bool) (mem : list shm_svcinfo) (svc : list Z) (fl : Z)
    (is_bridge : bool) (nodeid count mode r : Z) : option (list shm_svcinfo * Z) :=
  if lists_resources b && negb locked then Some (mem, EXFAIL)
  else
    '(found, pos, overwrite) ← _ndrx_shm_get_svc mem svc true;
    el ← mem !! pos;
    let bridge e := if is_bridge then bridge_update e nodeid count mode else Some e in
    if found : bool then
      let el := with_flags el (Z.lor fl NDRXD_SVCINFO_INIT) in
      if is_bridge then
        i ← node_index nodeid;
        n ← cnodes el !! i;
        e ← bridge (if (n_srvs n =? 0) && (0 <? count) then with_counts el (i32 (srvs el + 1)) (i32 (csrvs el + 1)) else el);
        Some (<[pos:=e]> mem, EXSUCCEED)
      else if lists_resources b && (length (resids el) <? resnr el + 1)%nat then Some (<[pos:=el]> mem, EXFAIL)
      else
        e ← (if lists_resources b then add_resid b el r else Some el);
        Some (<[pos:=with_counts e (i32 (srvs e + 1)) (csrvs e)]> mem, EXSUCCEED)
    else if overwrite : bool then
      if is_bridge && (count =? 0) then Some (mem, EXSUCCEED)
      else
        let e := with_flags (with_name el (ndrx_strcpy_safe (S MAXTIDENT) svc)) (Z.lor fl NDRXD_SVCINFO_INIT) in
        let e := with_counts e (i32 (srvs e + 1)) (if is_bridge then i32 (csrvs e + 1) else csrvs e) in
        e ← (if negb is_bridge && lists_resources b then
               if (0 <? length (resids e))%nat
               then Some (with_resids e (S (resnr e)) (<[0%nat := {| cnt := 1; resid := r |}]> (resids e))) else None
             else Some e);
        e ← bridge e;
        Some (<[pos:=e]> mem, EXSUCCEED)
    else Some (mem, EXFAIL).

Definition ndrx_shm_install_svc (b : poller) (locked : bool) (mem : list shm_svcinfo) (svc : list Z) (fl r : Z) : option (list shm_svcinfo * Z) :=
  ndrx_shm_install_svc_br b locked mem svc fl false 0 0 0 r.

(** ** Removing a service *)

Definition del_resid (e : shm_svcinfo) (r : Z) : shm_svcinfo :=
  match list_find (fun x => resid x = r) (take (resnr e) (resids e)) with
  | None => e
  | Some (lpos, x) =>
      if 1 <? cnt x then with_resids e (resnr e) (<[lpos := {| cnt := cnt x - 1; resid := resid x |}]> (resids e))
      else if (lpos =? resnr e - 1)%nat then with_resids e (resnr e - 1) (resids e)
      else with_resids e (resnr e - 1)
             (take lpos (resids e) ++ take (resnr e - lpos - 1) (drop (S lpos) (resids e)) ++ drop (resnr e - 1) (resids e))
  end.

(** The table, and whether no local server offers the service any more; nothing is
    reported when the semaphore was not obtained. *)
Definition ndrxd_shm_uninstall_svc (b : poller) (locked : bool) (mem : list shm_svcinfo) (svc : list Z) (r : Z) : option (list shm_svcinfo * option bool) :=
  if lists_resources b && negb locked then Some (mem, None)
  else
    '(found, pos, _) ← _ndrx_shm_get_svc mem svc false;
    if found : bool then
      el ← mem !! pos;
      if 1 <? srvs el then
        let e := if lists_resources b then del_resid el r else el in
        let e := with_counts e (i32 (srvs e - 1)) (csrvs e) in
        Some (<[pos:=e]> mem, Some (csrvs e =? srvs e))
      else
        let e := with_counts (with_total (with_nodes el no_nodes) 0 (cnodes_max_id el)) 0 0 in
        let e := if lists_resources b then with_resrr (with_resids e 0 (resids e)) 0 else e in
        Some (<[pos:=e]> mem, Some true)
    else Some (mem, Some true).

(** ** Looking a service up *)

Definition ndrx_shm_get_svc_count (attached : bool) (mem : list shm_svcinfo) : Z :=
  if negb attached then EXFAIL
  else foldr (fun ent n => n + if has_flag (flags ent) NDRXD_SVCINFO_INIT && (0 <? srvs ent) then 1 else 0) 0 mem.

(** The servers a service has in the list; [malloc]: memory was obtained. *)
Definition ndrx_shm_get_srvs (attached locked malloc : bool) (mem : list shm_svcinfo) (svc : list Z) : option (option (list ndrx_shm_resid)) :=
  if negb attached || negb locked then Some None
  else
    '(found, pos, _) ← _ndrx_shm_get_svc mem svc false;
    if found : bool then
      e ← mem !! pos;
      if (resnr e =? 0)%nat || negb malloc then Some None
      else if (resnr e <=? length (resids e))%nat then Some (Some (take (resnr e) (resids e))) else None
    else Some None.

(** The queue a request is sent to: that of the service, that of a server of the
    service, or that of the bridge to a node. *)
Inductive send_q := SvcQ (svc : list Z) | SrvQ (svc : list Z) (resid : Z) | BridgeQ (nodeid : Z).

(** One pass over the nodes: the [cluster_node]-th that offers the service, or
    ([second]) the first that does; and how many were seen. *)
Fixpoint choose_loop (nodes : list cnodeinfo) (i got_node cluster_node : Z) (second : bool) : Z * option Z :=
  match nodes with
  | [] => (got_node, None)
  | n :: nodes =>
      let has := negb (n_srvs n =? 0) in
      let got_node := if has then got_node + 1 else got_node in
      if has && second then (got_node, Some (i + 1))
      else if got_node =? cluster_node then (got_node, Some (i + 1))
      else choose_loop nodes (i + 1) got_node cluster_node second
  end.

Definition choose_node (e : shm_svcinfo) (cluster_node : Z) : option Z :=
  let nodes := take (cnodes_max_id e) (cnodes e) in
  match choose_loop nodes 0 0 cluster_node false with
  | (_, Some n) => Some n
  | (got_node, None) => (choose_loop nodes 0 got_node cluster_node true).2
  end.

(** Random numbers as they are drawn: for the choice between local and cluster, and
    for the node. *)
Definition use_cluster (e : shm_svcinfo) (ldbal rnd : Z) : bool :=
  if (srvs e =? csrvs e) && (0 <? srvs e) then true
  else if csrvs e =? 0 then false
  else if ldbal =? 0 then false
  else if ldbal =? 100 then true
  else rnd `mod` 100 + 1 <=? ldbal.

(** A request's way without the second step through the service of the bridge:
    the table (the round robin counter moves), and the queue, [None] for failure,
    with the node when it is on another one.  [translate]: the queue of a server
    can be found. *)
Definition get_svc_step (b : poller) (locked : bool) (translate : Z -> bool) (ldbal rnd1 rnd2 : Z) (mem : list shm_svcinfo) (svc : list Z)
  : option (list shm_svcinfo * option (send_q * option Z)) :=
  '(found, pos, _) ← _ndrx_shm_get_svc mem svc false;
  if negb found then Some (mem, None)
  else
    e ← mem !! pos;
    if srvs e <=? 0 then Some (mem, None)
    else if use_cluster e ldbal rnd1 then
      let n := if (csrvs e <? 0) || (Z.of_nat CONF_NDRX_NODEID_COUNT <? csrvs e) then 1 else csrvs e in
      if n =? 0 then None
      else
        Some (mem, (fun node => (match b with EPOLL => BridgeQ node | _ => SvcQ svc end, Some node)) <$> choose_node e (rnd2 `mod` n + 1))
    else if lists_resources b then
      if negb locked then Some (mem, None)
      else
        let e := with_resrr e (u32 (resrr e + 1)) in
        let mem := <[pos:=e]> mem in
        if (resnr e =? 0)%nat || negb (is_key svc e) then Some (mem, None)
        else
          x ← resids e !! Z.to_nat (resrr e `mod` Z.of_nat (resnr e));
          Some (mem, if translate (resid x) then Some (SrvQ svc (resid x), None) else None)
    else Some (mem, Some (SvcQ svc, None)).

(** "@TPBRIDGE", and the service of the bridge to a node. *)
Definition NDRX_SVC_BRIDGE : list Z := [64; 84; 80; 66; 82; 73; 68; 71; 69].
Definition bridge_svc (nodeid : Z) : list Z :=
  NDRX_SVC_BRIDGE ++ [48 + nodeid / 100 `mod` 10; 48 + nodeid / 10 `mod` 10; 48 + nodeid `mod` 10].

Definition is_bridge_svc (svc : list Z) : bool := bool_decide (take 9 svc = NDRX_SVC_BRIDGE).

(** The whole lookup in an attached table. *)
Definition ndrx_shm_get_svc (b : poller) (locked : bool) (translate : Z -> bool) (ldbal rnd1 rnd2 rnd3 rnd4 : Z) (mem : list shm_svcinfo) (svc : list Z)
  : option (list shm_svcinfo * option (send_q * option Z)) :=
  st ← get_svc_step b locked translate ldbal rnd1 rnd2 mem svc;
  match st : list shm_svcinfo * option (send_q * option Z) with
  | (mem, Some (q, Some node)) =>
      if lists_resources b && negb (is_bridge_svc svc) then
        st ← get_svc_step b locked translate ldbal rnd3 rnd4 mem (bridge_svc node);
        Some (st.1, match st.2 : option (send_q * option Z) with Some (q, _) => Some (q, Some node) | None => None end)
      else Some st
  | _ => Some st
  end.

(** ** What the search finds *)

Lemma svc_search_spec mem start svc install : (start < length mem)%nat ->
  svc_search mem start svc install = Some (
    match find (stops mem (svc_stop svc install)) (order start (length mem)) with
    | Some i => match mem !! i with
                | Some c => if c_used c then (is_key svc c, i, negb (is_key svc c)) else (false, i, install)
                | None => (false, i, false)
                end
    | None => (false, start, false)
    end).
Proof.
  intros Hs. unfold svc_search. rewrite probe_spec by done. destruct (find _ _) as [i|] eqn:Hf; cbn [mbind option_bind].
  - apply find_first in Hf as (l1 & l2 & Ho & Hst & _).
    assert (i ∈ order start (length mem)) as Hin by (rewrite Ho; apply elem_of_app; right; by left).
    apply order_elem in Hin; [|done]. destruct (lookup_lt_is_Some_2 mem i Hin) as [c Hc]. unfold used_at. rewrite Hc. cbn [mbind option_bind].
    destruct (c_used c); [done|]. by rewrite andb_true_r.
  - destruct (lookup_lt_is_Some_2 mem start Hs) as [c Hc]. rewrite Hc. cbn [mbind option_bind].
    rewrite find_nothing, Forall_forall in Hf. assert (stops mem (svc_stop svc install) start = false) as Hst by (apply Hf, order_elem; done).
    unfold stops in Hst. rewrite Hc in Hst. destruct (c_used c); [|done]. by rewrite andb_false_r.
Qed.

Lemma is_svc svc (c : shm_svcinfo) : is_key svc c = true <-> service c = svc.
Proof. unfold is_key. rewrite bool_decide_eq_true. done. Qed.

Abbreviation used_key mem i c k := (mem !! i = Some c /\ c_used c = true /\ service c = k).

Lemma svc_read mem svc : placed string_hash mem -> (0 < length mem)%nat ->
  exists ret pos ow, _ndrx_shm_get_svc mem svc false = Some (ret, pos, ow) /\
    (if ret then exists c, used_key mem pos c svc else forall i c, ~ used_key mem i c svc).
Proof.
  intros Ht Hn. unfold _ndrx_shm_get_svc. destruct (Nat.eqb_spec (length mem) 0); [lia|]. cbn [mbind option_bind].
  pose proof (string_hash_ok _ svc Hn) as Hh. rewrite svc_search_spec by done.
  rewrite (stops_ext mem (svc_stop svc false) (is_key svc)) by (intros c; unfold svc_stop; by rewrite orb_false_r).
  destruct (find _ _) as [i|] eqn:Hf.
  - pose proof Hf as (l1 & l2 & Ho & Hst & Hl1)%find_first.
    assert (i ∈ order (string_hash (length mem) svc) (length mem)) as Hin by (rewrite Ho; apply elem_of_app; right; by left).
    apply order_elem in Hin; [|done]. destruct (lookup_lt_is_Some_2 mem i Hin) as [c Hc]. rewrite Hc. destruct (c_used c) eqn:Hu.
    + unfold stops in Hst. rewrite Hc, Hu in Hst. cbn [negb orb] in Hst. rewrite Hst. eexists _, _, _. split; [done|]. exists c. apply is_svc in Hst. done.
    + eexists _, _, _. split; [done|]. intros j d (Hj & Hd & <-). destruct (Ht j d Hj Hd) as [_ Hs]. cbn [c_key svc_cell] in Hs. rewrite Hf in Hs. injection Hs as <-. congruence.
  - eexists _, _, _. split; [done|]. intros j d (Hj & Hd & <-). destruct (Ht j d Hj Hd) as [_ Hs]. cbn [c_key svc_cell] in Hs. congruence.
Qed.

Lemma svc_install_pos mem svc : placed string_hash mem -> (0 < length mem)%nat ->
  exists ret pos ow, _ndrx_shm_get_svc mem svc true = Some (ret, pos, ow) /\
    (if ret then exists c, used_key mem pos c svc
     else
       (forall i c, ~ used_key mem i c svc) /\
       if ow then
         (exists c, mem !! pos = Some c /\ (c_used c = false \/ srvs c = 0)) /\
         exists l1 l2, order (string_hash (length mem) svc) (length mem) = l1 ++ pos :: l2 /\ Forall (fun j => stops mem (is_key svc) j = false) l1
       else Forall (fun c => c_used c = true /\ srvs c <> 0) mem /\ (pos < length mem)%nat).
Proof.
  intros Ht Hn. destruct (svc_read mem svc Ht Hn) as (ret & pos & ow & Hr & Hspec). unfold _ndrx_shm_get_svc in *.
  destruct (Nat.eqb_spec (length mem) 0); [lia|]. cbn [mbind option_bind] in Hr. rewrite Hr. cbn [mbind option_bind]. destruct ret.
  - destruct Hspec as (c & Hc & Hu & Hk). assert (Hlt := lookup_lt_Some _ _ _ Hc). rewrite svc_search_spec by done.
    assert (find (stops mem (svc_stop svc true)) (order pos (length mem)) = Some pos) as ->.
    { unfold order. replace (length mem - pos)%nat with (S (length mem - S pos)) by lia. cbn [seq app find].
      unfold stops, svc_stop. rewrite Hc, (proj2 (is_svc svc c) Hk). cbn [orb]. by rewrite orb_true_r. }
    rewrite Hc, Hu, (proj2 (is_svc svc c) Hk). eexists _, _, _. split; [done|]. by exists c.
  - pose proof (string_hash_ok _ svc Hn) as Hh. rewrite svc_search_spec by done. destruct (find _ _) as [i|] eqn:Hf.
    + apply find_first in Hf as (l1 & l2 & Ho & Hst & Hl1).
      assert (i ∈ order (string_hash (length mem) svc) (length mem)) as Hin by (rewrite Ho; apply elem_of_app; right; by left).
      apply order_elem in Hin; [|done]. destruct (lookup_lt_is_Some_2 mem i Hin) as [c Hc]. rewrite Hc.
      assert (is_key svc c = true -> c_used c = false) as Hku.
      { intros Hk%is_svc. destruct (c_used c) eqn:Hu; [|done]. by destruct (Hspec i c). }
      exists false, i, true. split; [destruct (c_used c); [|done]; by destruct (is_key svc c); [specialize (Hku eq_refl)|]|]. split; [done|]. split.
      * exists c. split; [done|]. unfold stops, svc_stop in Hst. rewrite Hc in Hst. destruct (c_used c); [|by left]. right.
        destruct (is_key svc c); [by specialize (Hku eq_refl)|]. cbn in Hst. lia.
      * exists l1, l2. split; [done|]. eapply Forall_impl; [exact Hl1|]. cbn beta. intros j. unfold stops, svc_stop.
        destruct (mem !! j); [|done]. intros [-> [-> _]%orb_false_iff]%orb_false_iff. done.
    + exists false, (string_hash (length mem) svc), false. split; [done|]. split; [done|]. split; [|done]. apply Forall_lookup. intros i c Hi.
      rewrite find_nothing, Forall_forall in Hf. assert (stops mem (svc_stop svc true) i = false) as Hst
        by (apply Hf, order_elem; [done|by eapply lookup_lt_Some]).
      unfold stops, svc_stop in Hst. rewrite Hi in Hst. apply orb_false_iff in Hst as [Hu [_ Hs]%orb_false_iff]. cbn in Hs.
      split; [by destruct (c_used c)|lia].
Qed.

(** ** What the table stands for

    A service is offered by local servers, each entered with its resource, and by
    nodes with a number of servers each; [e_res] is the list of resources. *)

Record svc_entry := { e_adv : list Z; e_nodes : list Z; e_res : list ndrx_shm_resid }.

Definition no_entry : svc_entry := {| e_adv := []; e_nodes := replicate CONF_NDRX_NODEID_COUNT 0; e_res := [] |}.

Definition active (nodes : list Z) : Z := zlen (filter (fun x => 0 < x) nodes).

Definition offered (e : svc_entry) : bool := 0 <? zlen (e_adv e) + active (e_nodes e).

(** The most servers a service may have on this node and on another one: the
    counters then stay in range, the sum over all nodes included. *)
Definition LOCAL_SRVS_MAX : Z := 32767.
Definition NODE_SRVS_MAX : Z := 67108863.

Definition in_node (x : Z) : Prop := 0 <= x <= NODE_SRVS_MAX.

Definition cell_is (max : nat) (c : shm_svcinfo) (e : svc_entry) : Prop :=
  srvs c = zlen (e_adv e) + active (e_nodes e) /\ csrvs c = active (e_nodes e) /\
  n_srvs <$> cnodes c = e_nodes e /\ length (e_nodes e) = CONF_NDRX_NODEID_COUNT /\ Forall in_node (e_nodes e) /\
  (cnodes_max_id c <= CONF_NDRX_NODEID_COUNT)%nat /\ drop (cnodes_max_id c) (e_nodes e) = replicate (CONF_NDRX_NODEID_COUNT - cnodes_max_id c) 0 /\
  totclustered c = foldr Z.add 0 (e_nodes e) /\
  take (resnr c) (resids c) = e_res e /\ length (resids c) = max /\ (resnr c <= max)%nat /\ zlen (e_adv e) <= LOCAL_SRVS_MAX.

Definition occ (r : Z) (l : list Z) : Z := zlen (filter (fun x => x = r) l).

(** The list of resources names servers that offer the service: with queue ids
    each one, with its count; with server ids each one once, but for those that
    were entered again before they were removed. *)
Definition entry_ok (b : poller) (e : svc_entry) : Prop :=
  match b with
  | EPOLL => e_res e = []
  | POLL => NoDup (resid <$> e_res e) /\ Forall (fun x => cnt x = 1 /\ resid x ∈ e_adv e) (e_res e)
  | SYSVQ => NoDup (resid <$> e_res e) /\ Forall (fun x => cnt x = occ (resid x) (e_adv e) /\ resid x ∈ e_adv e) (e_res e) /\
             Forall (fun r => r ∈ resid <$> e_res e) (e_adv e)
  end.

Definition res_add (b : poller) (l : list ndrx_shm_resid) (r : Z) : list ndrx_shm_resid :=
  if lists_resources b then
    if existsb (fun x => resid x =? r) l then
      match b with SYSVQ => (fun x => if resid x =? r then {| cnt := cnt x + 1; resid := resid x |} else x) <$> l | _ => l end
    else l ++ [{| cnt := 1; resid := r |}]
  else l.

Definition res_del (b : poller) (l : list ndrx_shm_resid) (r : Z) : list ndrx_shm_resid :=
  if lists_resources b then
    match list_find (fun x => resid x = r) l with
    | Some (i, x) => if 1 <? cnt x then <[i := {| cnt := cnt x - 1; resid := resid x |}]> l else delete i l
    | None => l
    end
  else l.

Fixpoint remove_one (r : Z) (l : list Z) : list Z :=
  match l with [] => [] | x :: l => if x =? r then l else x :: remove_one r l end.

Definition e_install (b : poller) (e : svc_entry) (r : Z) : svc_entry := {| e_adv := r :: e_adv e; e_nodes := e_nodes e; e_res := res_add b (e_res e) r |}.
Definition e_uninstall (b : poller) (e : svc_entry) (r : Z) : svc_entry := {| e_adv := remove_one r (e_adv e); e_nodes := e_nodes e; e_res := res_del b (e_res e) r |}.
Definition e_bridge (e : svc_entry) (i : nat) (count mode : Z) : svc_entry :=
  {| e_adv := e_adv e; e_res := e_res e;
     e_nodes := <[i := if mode =? BRIDGE_REFRESH_MODE_FULL then count else Z.max 0 (default 0 (e_nodes e !! i) + count)]> (e_nodes e) |}.

(** *** Nodes *)

Lemma active_nonneg l : 0 <= active l.
Proof. apply zlen_nonneg. Qed.

Lemma active_cons x l : active (x :: l) = (if 0 <? x then 1 else 0) + active l.
Proof. unfold active. rewrite filter_cons. destruct (Z.ltb_spec 0 x); destruct (decide (0 < x)); try lia; by rewrite ?zlen_cons. Qed.

Lemma active_insert i x y l : l !! i = Some x -> active (<[i:=y]> l) = active l - (if 0 <? x then 1 else 0) + (if 0 <? y then 1 else 0).
Proof.
  revert i. induction l as [|z l IH]; intros [|i] Hi; [done..| |]; cbn in Hi.
  - injection Hi as ->. change (<[0%nat:=y]> (x :: l)) with (y :: l). rewrite !active_cons. lia.
  - change (<[S i:=y]> (z :: l)) with (z :: <[i:=y]> l). rewrite !active_cons, (IH i Hi). lia.
Qed.

Lemma active_none l : Forall (fun x => 0 <= x) l -> active l = 0 -> l = replicate (length l) 0.
Proof.
  induction 1 as [|x l Hx Hl IH]; [done|]. rewrite active_cons. pose proof (active_nonneg l). intros Ha. cbn.
  destruct (Z.ltb_spec 0 x); [lia|]. f_equal; [lia|]. apply IH. lia.
Qed.

Lemma active_zeros n : active (replicate n 0) = 0.
Proof. induction n; [done|]. cbn. rewrite active_cons. done. Qed.

Lemma sum_zeros n : foldr Z.add 0 (replicate n 0) = 0.
Proof. induction n; [done|]. cbn [replicate foldr]. by rewrite IHn. Qed.

Lemma sum_app (l k : list Z) : foldr Z.add 0 (l ++ k) = foldr Z.add 0 l + foldr Z.add 0 k.
Proof. induction l as [|x l IH]; [done|]. cbn. rewrite IH. lia. Qed.

Lemma sum_beyond n m (l : list Z) : drop n l = replicate m 0 -> foldr Z.add 0 (take n l) = foldr Z.add 0 l.
Proof. intros Hd. rewrite <-(take_drop n l) at 2. rewrite sum_app, Hd, sum_zeros. lia. Qed.

Lemma active_le l : active l <= zlen l.
Proof. unfold active, zlen. pose proof (length_filter (fun x => 0 < x) l). lia. Qed.

Lemma sum_bound l : Forall in_node l -> 0 <= foldr Z.add 0 l <= NODE_SRVS_MAX * zlen l.
Proof. induction 1 as [|x l Hx _ IH]; [done|]. cbn [foldr]. rewrite zlen_cons. unfold in_node, NODE_SRVS_MAX in *. lia. Qed.

(** Sums and counts over the nodes are in the range of an [int]. *)
Lemma nodes_range l : Forall in_node l -> length l = CONF_NDRX_NODEID_COUNT -> 0 <= foldr Z.add 0 l <= INT_MAX /\ 0 <= active l <= 32.
Proof.
  intros Hl Hn. pose proof (sum_bound l Hl). pose proof (active_le l). pose proof (active_nonneg l).
  assert (zlen l = 32) as Hz by (unfold zlen; by rewrite Hn). rewrite Hz in *. unfold NODE_SRVS_MAX, INT_MAX in *. lia.
Qed.

Lemma in_nodes_nonneg l : Forall in_node l -> Forall (fun x => 0 <= x) l.
Proof. intros H. eapply Forall_impl; [exact H|]. by intros x [? _]. Qed.

(** *** The list of resources *)

Lemma add_resid_spec b c r max : lists_resources b = true -> length (resids c) = max -> (resnr c < max)%nat ->
  (b = SYSVQ -> Forall (fun x => 0 <= cnt x < LOCAL_SRVS_MAX) (take (resnr c) (resids c))) ->
  exists n l, add_resid b c r = Some (with_resids c n l) /\ take n l = res_add b (take (resnr c) (resids c)) r /\ length l = max /\ (n <= max)%nat.
Proof.
  intros Hb Hl Hn Hcnt. unfold add_resid, res_add. rewrite Hb. destruct (existsb _ _) eqn:He.
  - destruct b; [done| |]; [exists (resnr c), (resids c); split; [by destruct c|split; [done|split; [done|lia]]]|]. eexists _, _. split; [done|]. split; [|split; [|lia]].
    + rewrite take_app_le; [rewrite take_ge|]; [|rewrite length_fmap, length_take; lia..]. apply list_fmap_ext. intros j x Hx%list_elem_of_lookup_2.
      specialize (Hcnt eq_refl). rewrite Forall_forall in Hcnt. specialize (Hcnt x Hx). unfold LOCAL_SRVS_MAX in *. by rewrite i16_id by lia.
    + rewrite length_app, length_fmap, length_take, length_drop. lia.
  - rewrite (proj2 (Nat.ltb_lt _ _)) by lia. eexists _, _. split; [done|]. split; [|split; [by rewrite length_insert|lia]].
    rewrite (take_S_r _ _ {| cnt := 1; resid := r |}) by (apply list_lookup_insert_eq; lia). by rewrite take_insert_ge by lia.
Qed.

Lemma del_resid_spec b c r max : lists_resources b = true -> length (resids c) = max -> (resnr c <= max)%nat ->
  exists n l, del_resid c r = with_resids c n l /\ take n l = res_del b (take (resnr c) (resids c)) r /\ length l = max /\ (n <= max)%nat.
Proof.
  intros Hb Hl Hn. unfold del_resid, res_del. rewrite Hb. destruct (list_find _ _) as [[i x]|] eqn:Hf; [|exists (resnr c), (resids c); split; [by destruct c|done]].
  apply list_find_Some in Hf as (Hi & _ & _). pose proof (lookup_lt_Some _ _ _ Hi) as Hlt. rewrite length_take in Hlt.
  assert (Hdel : delete i (take (resnr c) (resids c)) = take i (resids c) ++ take (resnr c - i - 1) (drop (S i) (resids c))).
  { rewrite delete_take_drop, take_take, skipn_firstn_comm, Nat.min_l by lia. do 2 f_equal. lia. }
  destruct (1 <? cnt x).
  - eexists _, _. split; [done|]. split; [by rewrite take_insert_lt by lia|]. rewrite length_insert. lia.
  - rewrite Hdel. destruct (Nat.eqb_spec i (resnr c - 1)) as [->|Hne]; (eexists _, _; split; [done|]).
    + split; [|lia]. replace (resnr c - (resnr c - 1) - 1)%nat with 0%nat by lia. by rewrite app_nil_r.
    + assert (length (take i (resids c) ++ take (resnr c - i - 1) (drop (S i) (resids c))) = (resnr c - 1)%nat) as Hlen
        by (rewrite length_app, !length_take, length_drop; lia).
      rewrite app_assoc. split; [rewrite take_app_le by lia; by rewrite take_ge by lia|]. rewrite length_app, Hlen, length_drop. lia.
Qed.

Lemma occ_cons r x l : occ r (x :: l) = (if x =? r then 1 else 0) + occ r l.
Proof. unfold occ. rewrite filter_cons. destruct (Z.eqb_spec x r); destruct (decide (x = r)); try lia; by rewrite ?zlen_cons. Qed.

Lemma occ_pos r l : r ∈ l <-> 0 < occ r l.
Proof.
  induction l as [|x l IH]; [by split; [intros ?%elem_of_nil|]|]. rewrite elem_of_cons, occ_cons. assert (0 <= occ r l) by apply zlen_nonneg.
  destruct (Z.eqb_spec x r) as [->|Hne]; [split; [lia|by left]|]. rewrite IH. split; [intros [->|?]; [done|lia]|right; lia].
Qed.

Lemma occ_remove_one r x l : x ∈ l -> occ r (remove_one x l) = occ r l - (if x =? r then 1 else 0).
Proof.
  induction l as [|y l IH]; [intros ?%elem_of_nil; done|]. cbn [remove_one]. intros Hx. destruct (Z.eqb_spec y x) as [->|Hne]; [rewrite occ_cons; lia|].
  apply elem_of_cons in Hx as [->|Hx]; [done|]. rewrite !occ_cons, IH by done. lia.
Qed.

Lemma remove_one_length x l : x ∈ l -> zlen (remove_one x l) = zlen l - 1.
Proof.
  induction l as [|y l IH]; [intros ?%elem_of_nil; done|]. cbn [remove_one]. intros Hx. destruct (Z.eqb_spec y x) as [->|Hne]; [zl|].
  apply elem_of_cons in Hx as [->|Hx]; [done|]. rewrite !zlen_cons, IH by done. lia.
Qed.

Lemma remove_one_other x y l : x <> y -> y ∈ l -> y ∈ remove_one x l.
Proof.
  intros Hxy. induction l as [|z l IH]; [done|]. cbn [remove_one]. rewrite elem_of_cons. intros [->|Hy]; destruct (Z.eqb_spec z x); subst; try done; [by left|].
  right. by apply IH.
Qed.

Lemma remove_one_sub x y l : y ∈ remove_one x l -> y ∈ l.
Proof.
  induction l as [|z l IH]; [done|]. cbn [remove_one]. destruct (z =? x); [by right|]. rewrite !elem_of_cons. intros [->|Hy]; [by left|right; by apply IH].
Qed.

Lemma existsb_resid r l : existsb (fun x => resid x =? r) l = true <-> r ∈ resid <$> l.
Proof.
  induction l as [|x l IH]; [by split; [|intros ?%elem_of_nil]|]. cbn [existsb]. rewrite orb_true_iff, IH, fmap_cons, elem_of_cons.
  destruct (Z.eqb_spec (resid x) r); intuition congruence.
Qed.

Lemma NoDup_snoc {A} (l : list A) x : NoDup l -> (x ∉ l) -> NoDup (l ++ [x]).
Proof. intros Hl Hx. apply NoDup_app. split; [done|]. split; [|apply NoDup_singleton]. intros y Hy Hyx%list_elem_of_singleton. congruence. Qed.

Lemma install_ok b e r : entry_ok b e -> entry_ok b (e_install b e r).
Proof.
  unfold entry_ok, e_install, res_add. cbn [e_adv e_res]. destruct b; cbn [lists_resources]; [done| |].
  - intros [Hn Hl]. assert (Hmore : Forall (fun x => cnt x = 1 /\ resid x ∈ r :: e_adv e) (e_res e))
      by (eapply Forall_impl; [exact Hl|]; intros x [? ?]; split; [done|by right]).
    destruct (existsb _ _) eqn:He; [done|]. split; [|apply Forall_app; split; [done|]; constructor; [|done]; split; [done|by left]].
    rewrite fmap_app. apply (NoDup_snoc _ r); [done|]. rewrite <-existsb_resid, He. done.
  - intros (Hn & Hl & Ha). destruct (existsb _ _) eqn:He.
    + assert (Hk : resid <$> ((fun x => if resid x =? r then {| cnt := cnt x + 1; resid := resid x |} else x) <$> e_res e) = resid <$> e_res e).
      { rewrite <-list_fmap_compose. apply list_fmap_ext. intros ? x _. cbn. by destruct (resid x =? r). }
      rewrite Hk. split; [done|]. split; [|constructor; [by apply existsb_resid|done]]. apply Forall_fmap. eapply Forall_impl; [exact Hl|].
      intros x [Hc Hx]. cbn. destruct (Z.eqb_spec (resid x) r) as [Hxr|Hne]; cbn [cnt resid]; rewrite occ_cons.
      * rewrite (proj2 (Z.eqb_eq r (resid x))) by done. split; [lia|by right].
      * rewrite (proj2 (Z.eqb_neq r (resid x))) by congruence. split; [lia|by right].
    + assert (Hr : r ∉ resid <$> e_res e) by (rewrite <-existsb_resid, He; done).
      assert (Hnew : r ∉ e_adv e) by (intros Hin; rewrite Forall_forall in Ha; auto).
      rewrite fmap_app. split; [by apply (NoDup_snoc _ r)|]. split.
      * apply Forall_app. split; [|constructor; [|done]].
        -- rewrite Forall_forall in Hl |- *. intros x Hx. destruct (Hl x Hx) as [Hc Hxa]. split; [|by right]. rewrite occ_cons.
           destruct (Z.eqb_spec r (resid x)) as [->|]; [done|lia].
        -- cbn [cnt resid]. rewrite occ_cons, Z.eqb_refl. split; [|by left]. rewrite occ_pos in Hnew. pose proof (zlen_nonneg (filter (fun x => x = r) (e_adv e))).
           unfold occ in *. lia.
      * constructor; [apply elem_of_app; right; by left|]. eapply Forall_impl; [exact Ha|]. intros x Hx. apply elem_of_app. by left.
Qed.

(** Which element is taken off. *)
Lemma res_del_split b l r : lists_resources b = true ->
  ((r ∉ resid <$> l) /\ res_del b l r = l) \/
  exists l1 x l2, l = l1 ++ x :: l2 /\ resid x = r /\
    res_del b l r = (if 1 <? cnt x then l1 ++ {| cnt := cnt x - 1; resid := resid x |} :: l2 else l1 ++ l2).
Proof.
  intros Hb. unfold res_del. rewrite Hb. destruct (list_find _ _) as [[i x]|] eqn:Hf.
  - apply list_find_Some in Hf as (Hi & Hx & _). right. exists (take i l), x, (drop (S i) l). split; [by rewrite take_drop_middle|]. split; [done|].
    rewrite insert_take_drop, delete_take_drop by (by eapply lookup_lt_Some). done.
  - apply list_find_None in Hf. left. split; [|done]. intros (x & -> & Hx)%list_elem_of_fmap. rewrite Forall_forall in Hf. by apply (Hf x).
Qed.

Lemma uninstall_ok b e r : entry_ok b e -> r ∈ e_adv e -> entry_ok b (e_uninstall b e r).
Proof.
  intros Hok Hr. destruct (lists_resources b) eqn:Hb; [|by destruct b]. destruct (res_del_split b (e_res e) r Hb) as [[Hno Hd]|(l1 & x & l2 & Hl & Hx & Hd)];
    unfold entry_ok, e_uninstall in *; cbn [e_adv e_res]; rewrite Hd; clear Hd; (destruct b; [done| |]).
  - destruct Hok as [Hn Hall]. split; [done|]. rewrite Forall_forall in Hall |- *. intros y Hy. destruct (Hall y Hy) as [? Hya]. split; [done|].
    apply remove_one_other; [|done]. intros ->. apply Hno, list_elem_of_fmap. by exists y.
  - destruct Hok as (Hn & Hall & Ha). exfalso. rewrite Forall_forall in Ha. auto.
  - assert (e_res e ≡ₚ x :: (l1 ++ l2)) as Hp by (rewrite Hl; symmetry; apply Permutation_middle). revert Hok. rewrite Hp, fmap_cons, NoDup_cons, Forall_cons.
    intros [[Hn Hnd] [[-> _] Hall]]. cbn [Z.ltb Z.compare Pos.compare Pos.compare_cont]. split; [done|]. rewrite Forall_forall in Hall |- *. intros y Hy.
    destruct (Hall y Hy) as [? Hya]. split; [done|]. apply remove_one_other; [|done]. rewrite <-Hx. intros He. apply Hn. rewrite He. by apply list_elem_of_fmap_2.
  - assert (e_res e ≡ₚ x :: (l1 ++ l2)) as Hp by (rewrite Hl; symmetry; apply Permutation_middle). revert Hok. rewrite Hp, fmap_cons, NoDup_cons, Forall_cons.
    intros [[Hn Hnd] [[[Hc Hxa] Hall] Ha]]. set (k := if 1 <? cnt x then [{| cnt := cnt x - 1; resid := resid x |}] else []).
    assert ((if 1 <? cnt x then l1 ++ {| cnt := cnt x - 1; resid := resid x |} :: l2 else l1 ++ l2) ≡ₚ k ++ (l1 ++ l2)) as Hres
      by (subst k; destruct (1 <? cnt x); cbn [app]; [symmetry; apply Permutation_middle|done]).
    assert (Hother : forall y, (y ∈ l1 ++ l2) -> resid y <> r)
      by (intros y Hy He; apply Hn; rewrite Hx, <-He; by apply list_elem_of_fmap_2).
    assert (Hocc := occ_remove_one r r (e_adv e) Hr). rewrite Z.eqb_refl in Hocc. rewrite Hx in *. apply occ_pos in Hr.
    assert (Hk : resid <$> k = if 1 <? cnt x then [r] else []) by (subst k; destruct (1 <? cnt x); cbn; congruence).
    rewrite Hres, fmap_app, Hk. split; [destruct (1 <? cnt x); [by apply NoDup_cons|done]|]. split.
    + apply Forall_app. split; [subst k; destruct (Z.ltb_spec 1 (cnt x)); constructor; [|done]; cbn [cnt resid]; rewrite ?Hx, Hocc; split; [lia|apply occ_pos; lia]|].
      rewrite Forall_forall in Hall |- *. intros y Hy. destruct (Hall y Hy) as [Hyc Hya]. pose proof (Hother y Hy). rewrite occ_remove_one by (apply occ_pos; lia).
      rewrite (proj2 (Z.eqb_neq r (resid y))) by congruence. split; [lia|]. by apply remove_one_other.
    + rewrite Forall_forall in Ha |- *. intros y Hy. rewrite Hres, fmap_app, Hk. pose proof (remove_one_sub _ _ _ Hy) as Hy'. apply Ha in Hy'. rewrite Hp, fmap_cons, Hx, elem_of_cons in Hy'.
      destruct Hy' as [->|Hy']; [|apply elem_of_app; by right]. apply occ_pos in Hy. destruct (Z.ltb_spec 1 (cnt x)); [|lia]. by left.
Qed.

Lemma bridge_ok b e i count mode : entry_ok b e -> entry_ok b (e_bridge e i count mode).
Proof. by destruct b. Qed.

Lemma not_offered b e : entry_ok b e -> length (e_nodes e) = CONF_NDRX_NODEID_COUNT -> Forall (fun x => 0 <= x) (e_nodes e) -> offered e = false -> e = no_entry.
Proof.
  intros Hok Hl Hn Ho. unfold offered in Ho. pose proof (active_nonneg (e_nodes e)). pose proof (zlen_nonneg (e_adv e)).
  assert (e_adv e = []) as Ha by (apply zlen_0_inv; lia). assert (e_res e = []) as Hr.
  { destruct b; [done|destruct Hok as [_ Hf]|destruct Hok as (_ & Hf & _)]; rewrite Ha in Hf; destruct (e_res e); try done; apply Forall_cons in Hf as [[_ []%elem_of_nil] _]. }
  destruct e as [a n l]. cbn in *. subst. unfold no_entry. f_equal. rewrite <-Hl. apply active_none; [done|lia].
Qed.

(** *** Operations on a cell *)

(** Whatever the cell is called. *)
Lemma cell_is_named max c e s f : cell_is max c e -> cell_is max (with_flags (with_name c s) f) e.
Proof. done. Qed.

Lemma counts_bounded e : entry_ok SYSVQ e -> Forall (fun x => 0 <= cnt x <= zlen (e_adv e)) (e_res e).
Proof.
  intros (_ & Hl & _). eapply Forall_impl; [exact Hl|]. intros x [-> _]. unfold occ, zlen.
  pose proof (length_filter (fun y => y = resid x) (e_adv e)). lia.
Qed.

Lemma cell_install b max c e r : cell_is max c e -> entry_ok b e -> zlen (e_adv e) < LOCAL_SRVS_MAX ->
  (lists_resources b = true -> (resnr c < max)%nat) ->
  exists c', (if lists_resources b then add_resid b c r else Some c) = Some c' /\ service c' = service c /\ flags c' = flags c /\
    cell_is max (with_counts c' (i32 (srvs c' + 1)) (csrvs c')) (e_install b e r).
Proof.
  intros (Hs & Hcs & Hn & Hln & Hnn & Hm & Hd & Ht & Hr & Hlr & Hrn & Ha) Hok Hadv Hroom. unfold cell_is, e_install. cbn [e_adv e_nodes e_res]. rewrite zlen_cons.
  destruct (nodes_range _ Hnn Hln) as [_ Hac]. pose proof (zlen_nonneg (e_adv e)). unfold LOCAL_SRVS_MAX in Hadv.
  assert (i32 (srvs c + 1) = zlen (e_adv e) + 1 + active (e_nodes e)) as Hs' by (rewrite Hs, i32_id by (unfold INT_MIN, INT_MAX; lia); lia).
  destruct (lists_resources b) eqn:Hb.
  - destruct (add_resid_spec b c r max Hb Hlr (Hroom eq_refl)) as (n & l & -> & Htk & Hll & Hle).
    { intros ->. rewrite Hr. eapply Forall_impl; [by apply counts_bounded|]. cbn. unfold LOCAL_SRVS_MAX. lia. }
    eexists. split; [done|]. cbn. split; [done|]. split; [done|]. rewrite <-Hr, Hs'. repeat split; try done; unfold LOCAL_SRVS_MAX; lia.
  - exists c. split; [done|]. cbn. split; [done|]. split; [done|]. assert (res_add b (e_res e) r = e_res e) as -> by (unfold res_add; by rewrite Hb).
    rewrite Hs'. repeat split; try done; unfold LOCAL_SRVS_MAX; lia.
Qed.

Lemma node_index_of (i : nat) : node_index (Z.of_nat i + 1) = Some i.
Proof. unfold node_index. rewrite (proj2 (Z.leb_le _ _)) by lia. f_equal. lia. Qed.

(** Before [bridge_update] a node that is new for the service is counted. *)
Definition counted (c : shm_svcinfo) (n : Z) (count : Z) : shm_svcinfo :=
  if (n =? 0) && (0 <? count) then with_counts c (i32 (srvs c + 1)) (i32 (csrvs c + 1)) else c.

Lemma drop_insert_zeros (l : list Z) i k x n : drop k l = replicate (n - k) 0 -> length l = n -> (i < n)%nat ->
  drop (if Z.of_nat k <? Z.of_nat i + 1 then S i else k) (<[i:=x]> l) = replicate (n - (if Z.of_nat k <? Z.of_nat i + 1 then S i else k)) 0.
Proof.
  intros Hd Hl Hi. destruct (Z.ltb_spec (Z.of_nat k) (Z.of_nat i + 1)) as [Hk|Hk].
  - rewrite drop_insert_lt by lia. replace (S i) with (k + (S i - k))%nat at 1 by lia. rewrite <-drop_drop, Hd, drop_replicate. f_equal. lia.
  - by rewrite drop_insert_lt by lia.
Qed.

(** How many servers the node has after its report. *)
Definition reported (n count mode : Z) : Z := if mode =? BRIDGE_REFRESH_MODE_FULL then count else n + count.

Lemma cell_bridge max c e i n count mode : cell_is max c e -> e_nodes e !! i = Some n ->
  (0 <= count \/ mode <> BRIDGE_REFRESH_MODE_FULL /\ 0 < n) -> INT_MIN <= count -> reported n count mode <= NODE_SRVS_MAX ->
  exists c', bridge_update (counted c n count) (Z.of_nat i + 1) count mode = Some c' /\ service c' = service c /\ flags c' = flags c /\
    cell_is max c' (e_bridge e i count mode).
Proof.
  intros (Hs & Hcs & Hn & Hln & Hnn & Hm & Hd & Ht & Hr & Hlr & Hrn & Ha) Hi Hok Hmin Hmx. unfold bridge_update, e_bridge. rewrite node_index_of. cbn [mbind option_bind].
  assert (Hcn : cnodes (counted c n count) = cnodes c) by (unfold counted; by destruct (_ && _)). rewrite Hcn.
  pose proof Hi as Hi'. rewrite <-Hn, list_lookup_fmap in Hi'. destruct (cnodes c !! i) as [[lat n']|] eqn:Hci; [|done]. injection Hi' as Hn'. cbn in Hn'. subst n'. cbn [mbind option_bind n_srvs latency].
  rewrite Hi. cbn [default from_option id]. set (now := if mode =? BRIDGE_REFRESH_MODE_FULL then count else Z.max 0 (n + count)).
  assert (in_node n) as Hnr by (rewrite Forall_lookup in Hnn; by eapply Hnn).
  assert ((if mode =? BRIDGE_REFRESH_MODE_FULL then count else Z.max 0 (i32 (n + count))) = now /\ in_node now) as [-> Hnow].
  { subst now. unfold reported, in_node, NODE_SRVS_MAX, INT_MIN in *. destruct (Z.eqb_spec mode BRIDGE_REFRESH_MODE_FULL); [lia|].
    rewrite i32_id by (unfold INT_MIN, INT_MAX; lia). lia. }
  assert (Hact := active_insert i n now (e_nodes e) Hi). assert (Hlt := lookup_lt_Some _ _ _ Hi).
  set (e1 := with_nodes _ _). set (e2 := if _ && (0 <? n) then _ else e1).
  assert (He2 : srvs e2 = zlen (e_adv e) + active (<[i:=now]> (e_nodes e)) /\ csrvs e2 = active (<[i:=now]> (e_nodes e)) /\
    n_srvs <$> cnodes e2 = <[i:=now]> (e_nodes e) /\ cnodes_max_id e2 = cnodes_max_id c /\ resnr e2 = resnr c /\ resids e2 = resids c /\
    service e2 = service c /\ flags e2 = flags c).
  { assert (n_srvs <$> <[i := {| latency := lat; n_srvs := now |}]> (cnodes c) = <[i:=now]> (e_nodes e)) as Hins by (rewrite list_fmap_insert, Hn; done).
    assert ((n =? 0) && (0 <? count) = negb (0 <? n) && (0 <? now)) as Hg.
    { unfold in_node in *. subst now. destruct (Z.eqb_spec mode BRIDGE_REFRESH_MODE_FULL), (Z.eqb_spec n 0), (Z.ltb_spec 0 n); cbn [andb negb]; lia. }
    assert ((now <=? 0) = negb (0 <? now)) as Hv by lia. rewrite Hact. subst e2 e1. unfold counted. rewrite Hg, Hv.
    destruct (nodes_range _ Hnn Hln) as [_ Hac]. pose proof (zlen_nonneg (e_adv e)). unfold LOCAL_SRVS_MAX in Ha.
    destruct (0 <? n), (0 <? now); cbn; rewrite ?i32_id by (unfold INT_MIN, INT_MAX; lia); repeat split; try done; lia. }
  destruct He2 as (Hs2 & Hc2 & Hn2 & Hm2 & Hr2 & Hl2 & Hsv2 & Hf2). clearbody e2.
  assert (Hnn2 : Forall in_node (<[i:=now]> (e_nodes e))) by (by apply Forall_insert).
  assert (length (<[i:=now]> (e_nodes e)) = CONF_NDRX_NODEID_COUNT) as Hln2 by (by rewrite length_insert).
  unfold cell_is. cbn [e_adv e_nodes e_res]. destruct ((csrvs e2 =? 0) && (srvs e2 =? 0)) eqn:Hz.
  - apply andb_true_iff in Hz as [Hz1 Hz2]. assert (<[i:=now]> (e_nodes e) = replicate CONF_NDRX_NODEID_COUNT 0) as Hzero
      by (rewrite (active_none _ (in_nodes_nonneg _ Hnn2)) by lia; by rewrite length_insert, Hln).
    eexists. split; [done|]. cbn [with_total with_nodes service flags srvs csrvs cnodes cnodes_max_id totclustered resnr resids]. rewrite Hzero in *.
    split; [done|]. split; [done|]. split; [done|]. split; [done|]. split; [done|]. split; [by rewrite length_replicate|]. split; [done|]. split; [lia|].
    split; [by rewrite drop_replicate, Hm2|]. split; [by rewrite sum_zeros|]. by rewrite Hr2, Hl2.
  - eexists. split; [done|]. cbn [with_total service flags srvs csrvs cnodes cnodes_max_id totclustered resnr resids]. rewrite Hm2, Hn2, Hr2, Hl2.
    replace (Z.to_nat (Z.of_nat i + 1)) with (S i) by lia. assert (Hdr := drop_insert_zeros (e_nodes e) i (cnodes_max_id c) now _ Hd Hln ltac:(lia)).
    rewrite fmap_take, Hn2, (sum_beyond _ _ _ Hdr), length_insert. destruct (nodes_range _ Hnn2 Hln2) as [Hsum _].
    rewrite i32_id by (unfold INT_MIN; lia). repeat split; try done; try (destruct (Z.ltb_spec (Z.of_nat (cnodes_max_id c)) (Z.of_nat i + 1)); lia).
Qed.

Lemma cell_uninstall b max c e r : cell_is max c e -> 1 < srvs c -> r ∈ e_adv e ->
  let c1 := if lists_resources b then del_resid c r else c in
  let c2 := with_counts c1 (i32 (srvs c1 - 1)) (csrvs c1) in
  cell_is max c2 (e_uninstall b e r) /\ service c2 = service c /\ flags c2 = flags c /\ (csrvs c2 =? srvs c2) = bool_decide (remove_one r (e_adv e) = []).
Proof.
  intros (Hs & Hcs & Hn & Hln & Hnn & Hm & Hd & Ht & Hr & Hlr & Hrn & Ha) H1 Hin. cbv zeta.
  destruct (nodes_range _ Hnn Hln) as [_ Hac]. unfold LOCAL_SRVS_MAX in Ha.
  assert (exists n l, (if lists_resources b then del_resid c r else c) = with_resids c n l /\ take n l = res_del b (e_res e) r /\ length l = max /\ (n <= max)%nat)
    as (n & l & -> & Htk & Hll & Hle).
  { destruct (lists_resources b) eqn:Hb; [rewrite <-Hr; by apply del_resid_spec|]. exists (resnr c), (resids c). split; [by destruct c|].
    split; [|done]. rewrite Hr. unfold res_del. by rewrite Hb. }
  unfold cell_is, e_uninstall. cbn. pose proof (remove_one_length r (e_adv e) Hin) as Hlen. rewrite Hlen, i32_id by (unfold INT_MIN, INT_MAX; lia). unfold LOCAL_SRVS_MAX.
  split; [repeat split; try done; lia|]. split; [done|]. split; [done|]. rewrite Hs, Hcs.
  destruct (remove_one r (e_adv e)) as [|y k]; [rewrite zlen_nil in Hlen|rewrite zlen_cons in Hlen; pose proof (zlen_nonneg k)].
  - rewrite bool_decide_eq_true_2 by done. lia.
  - rewrite bool_decide_eq_false_2 by done. lia.
Qed.

(** ** The table as a map of services *)

Abbreviation services := (gmap (list Z) svc_entry).

Definition entry_of (A : services) (svc : list Z) : svc_entry := default no_entry (A !! svc).

Definition put (A : services) (svc : list Z) (e : svc_entry) : services := if offered e then <[svc := e]> A else delete svc A.

Definition table_is (b : poller) (max : nat) (mem : list shm_svcinfo) (A : services) : Prop :=
  placed string_hash mem /\
  (forall i c, mem !! i = Some c -> cell_is max c (if c_used c then entry_of A (service c) else no_entry)) /\
  (forall svc e, A !! svc = Some e -> offered e = true /\ entry_ok b e /\ exists i c, used_key mem i c svc).

Lemma no_entry_ok b : entry_ok b no_entry.
Proof. destruct b; cbn; repeat constructor. Qed.

Lemma entry_of_ok b max mem A svc : table_is b max mem A -> entry_ok b (entry_of A svc).
Proof. intros (_ & _ & HA). unfold entry_of. destruct (A !! svc) as [e|] eqn:He; [by apply (HA svc e)|apply no_entry_ok]. Qed.

Lemma entry_of_put A svc svc' e : e = no_entry \/ offered e = true -> entry_of (put A svc e) svc' = if decide (svc' = svc) then e else entry_of A svc'.
Proof.
  intros He. unfold entry_of, put. destruct (decide (svc' = svc)) as [->|Hne], (offered e) eqn:Ho.
  - by rewrite lookup_insert_eq.
  - rewrite lookup_delete_eq. destruct He as [->|]; done.
  - by rewrite lookup_insert_ne.
  - by rewrite lookup_delete_ne.
Qed.

Lemma srvs_offered max c e : cell_is max c e -> (0 <? srvs c) = offered e.
Proof. intros (-> & _). done. Qed.

Lemma srvs_nonneg max c e : cell_is max c e -> 0 <= srvs c.
Proof. intros (-> & _). pose proof (active_nonneg (e_nodes e)). zl. Qed.

Lemma used_unique mem i j c d svc : placed string_hash mem -> used_key mem i c svc -> used_key mem j d svc -> i = j.
Proof. intros Ht (Hi & Hu & Hk) (Hj & Hu' & Hk'). apply (placed_unique string_hash mem i j c d); try done. cbn. congruence. Qed.

(** The cell of a service is written, or a cell that stands for none is given to
    it. *)
Lemma table_write b max mem A pos c c' svc e' : table_is b max mem A -> mem !! pos = Some c ->
  (c_used c = true /\ service c = svc) \/
  ((c_used c = false \/ entry_of A (service c) = no_entry) /\ (forall i d, ~ used_key mem i d svc) /\
     exists l1 l2, order (string_hash (length mem) svc) (length mem) = l1 ++ pos :: l2 /\ Forall (fun j => stops mem (is_key svc) j = false) l1) ->
  c_used c' = true -> service c' = svc -> cell_is max c' e' -> entry_ok b e' ->
  table_is b max (<[pos:=c']> mem) (put A svc e').
Proof.
  intros (Ht & Hcells & HA) Hpos Hold Hu' Hs' Hc' Hok'. assert (Hlt := lookup_lt_Some _ _ _ Hpos).
  assert (He' : e' = no_entry \/ offered e' = true).
  { destruct (offered e') eqn:Ho; [by right|left]. destruct Hc' as (_ & _ & _ & Hl & Hn & _). eapply not_offered; eauto using in_nodes_nonneg. }
  assert (Hother : forall i d, i <> pos -> mem !! i = Some d -> c_used d = true -> service d <> svc).
  { intros i d Hi Hd Hu Hk. destruct Hold as [[Hcu Hck]|(_ & Hno & _)]; [|by destruct (Hno i d)]. apply Hi. by eapply used_unique. }
  split; [|split].
  - apply placed_write; [done|done|done| |].
    + intros i d Hi Hd Hne Hk. cbn in Hk. rewrite Hs' in Hk. destruct (Hother i d Hne Hi Hd Hk).
    + intros _. cbn. rewrite Hs'. destruct Hold as [[Hcu Hck]|(_ & _ & Hway)]; [|done].
      destruct (Ht pos c Hpos Hcu) as [_ Hf]. cbn in Hf. rewrite Hck in Hf. apply find_first in Hf as (l1 & l2 & Hw & _ & Hl). eauto.
  - intros i d Hi. rewrite entry_of_put by done. destruct (decide (i = pos)) as [->|Hne].
    + rewrite list_lookup_insert_eq in Hi by done. injection Hi as <-. rewrite Hu', decide_True by done. done.
    + rewrite list_lookup_insert_ne in Hi by done. specialize (Hcells i d Hi). destruct (c_used d) eqn:Hu; [|done]. by rewrite decide_False by eauto.
  - intros svc' e'' Hl. destruct (decide (svc' = svc)) as [->|Hne].
    + unfold put in Hl. destruct (offered e') eqn:Ho; [|by rewrite lookup_delete_eq in Hl]. rewrite lookup_insert_eq in Hl. injection Hl as <-.
      split; [done|]. split; [done|]. exists pos, c'. by rewrite list_lookup_insert_eq.
    + assert (A !! svc' = Some e'') as HAl by (unfold put in Hl; destruct (offered e'); [by rewrite lookup_insert_ne in Hl|by rewrite lookup_delete_ne in Hl]).
      destruct (HA svc' e'' HAl) as (Ho & Hok & i & d & Hd & Hud & Hkd). split; [done|]. split; [done|]. exists i, d. rewrite list_lookup_insert_ne; [done|].
      intros <-. assert (d = c) as -> by congruence. destruct Hold as [[_ Hck]|([Hno|Hno] & _)]; [congruence..|].
      unfold entry_of in Hno. rewrite Hkd, HAl in Hno. cbn in Hno. subst e''. done.
Qed.

Lemma cell_none max c : cell_is max c no_entry -> srvs c = 0.
Proof. intros (-> & _). cbn [no_entry e_adv e_nodes]. by rewrite active_zeros. Qed.

(** As many services are offered as cells count a server. *)
Lemma table_size b max mem A : table_is b max mem A -> size A = length (filter (fun c => 0 <? srvs c) mem).
Proof.
  intros (Ht & Hcells & HA). rewrite <-size_dom, <-(length_fmap service).
  assert (Hused : forall i c, mem !! i = Some c -> 0 < srvs c -> c_used c = true /\ exists e, A !! service c = Some e).
  { intros i c Hi Hs. pose proof (Hcells i c Hi) as Hc. destruct (c_used c); [|apply cell_none in Hc; lia]. split; [done|].
    unfold entry_of in Hc. destruct (A !! service c) as [e|]; [by eauto|]. apply cell_none in Hc. lia. }
  assert (NoDup (service <$> filter (fun c => 0 <? srvs c) mem)) as Hnd.
  { apply (NoDup_filtered service (fun c => 0 <? srvs c)). intros i j c d Hi Hj Hc Hd He. apply (used_unique mem i j c d (service c) Ht).
    - split; [done|]. split; [|done]. apply (Hused i c Hi). lia.
    - split; [done|]. split; [|done]. apply (Hused j d Hj). lia. }
  rewrite <-(size_list_to_set (C := gset (list Z)) _ Hnd). f_equal. apply set_eq. intros k.
  rewrite elem_of_dom, elem_of_list_to_set, list_elem_of_fmap. split.
  - intros [e He]. destruct (HA k e He) as (Ho & _ & i & c & Hi & Hu & Hk). exists c. split; [done|]. apply list_elem_of_filter. split; [|by eapply list_elem_of_lookup_2].
    pose proof (Hcells i c Hi) as Hc. rewrite Hu, Hk in Hc. unfold entry_of in Hc. rewrite He in Hc. rewrite (srvs_offered _ _ _ Hc). cbn. by rewrite Ho.
  - intros (c & -> & Hc). apply list_elem_of_filter in Hc as [Hs (i & Hi)%list_elem_of_lookup]. apply Is_true_true in Hs.
    destruct (Hused i c Hi) as [_ [e He]]; [lia|]. by exists e.
Qed.

(** A cell without servers stands for no service. *)
Lemma idle_cell b max mem A i c : table_is b max mem A -> mem !! i = Some c -> srvs c = 0 -> c_used c = true -> entry_of A (service c) = no_entry.
Proof.
  intros (_ & Hcells & HA) Hi Hs Hu. specialize (Hcells i c Hi). rewrite Hu in Hcells. apply srvs_offered in Hcells. rewrite Hs in Hcells. unfold entry_of in *.
  destruct (A !! service c) as [e|] eqn:He; [|done]. destruct (HA _ _ He) as [Ho _]. cbn in Hcells. congruence.
Qed.

Lemma full_size b max mem A : table_is b max mem A -> Forall (fun c => c_used c = true /\ srvs c <> 0) mem -> size A = length mem.
Proof.
  intros HT Hall. rewrite (table_size b max mem A HT). destruct HT as (_ & Hcells & _). assert (Forall (fun c => 0 < srvs c) mem) as Hpos.
  { apply Forall_lookup. intros i c Hi. rewrite Forall_lookup in Hall. destruct (Hall i c Hi) as [_ Hne]. pose proof (srvs_nonneg _ _ _ (Hcells i c Hi)). lia. }
  clear -Hpos. induction Hpos as [|c mem Hc _ IH]; [done|]. rewrite filter_cons_True by (apply Is_true_true; lia). cbn [length]. by f_equal.
Qed.

Lemma idle_size b max mem A i c : table_is b max mem A -> mem !! i = Some c -> srvs c = 0 -> (size A < length mem)%nat.
Proof.
  intros HT Hi Hs. rewrite (table_size b max mem A HT). apply length_filter_lt with c; [by eapply list_elem_of_lookup_2|]. apply Is_true_false. lia.
Qed.

(** ** Refinement *)

Inductive svc_op :=
| Install (svc : list Z) (r : Z)                                  (** a server offers a service *)
| Uninstall (svc : list Z) (r : Z)                                (** it does not any more *)
| Bridge (svc : list Z) (i : nat) (count mode : Z).               (** what node [i + 1] reports *)

Inductive answer := Code (ret : Z) | Last (last : option bool).

Definition run_svc_op (b : poller) (mem : list shm_svcinfo) (o : svc_op) : option (list shm_svcinfo * answer) :=
  match o with
  | Install svc r => '(mem, ret) ← ndrx_shm_install_svc b true mem svc 0 r; Some (mem, Code ret)
  | Uninstall svc r => '(mem, last) ← ndrxd_shm_uninstall_svc b true mem svc r; Some (mem, Last last)
  | Bridge svc i count mode => '(mem, ret) ← ndrx_shm_install_svc_br b true mem svc 0 true (Z.of_nat i + 1) count mode 0; Some (mem, Code ret)
  end.

(** The same on the map: a new service needs a free cell, and a server a place in
    the list of the service. *)
Definition map_op (b : poller) (max_svcs max : nat) (A : services) (o : svc_op) : services * answer :=
  match o with
  | Install svc r =>
      if bool_decide (is_Some (A !! svc) \/ (size A < max_svcs)%nat) && negb (lists_resources b && (max <=? length (e_res (entry_of A svc)))%nat)
      then (put A svc (e_install b (entry_of A svc) r), Code EXSUCCEED) else (A, Code EXFAIL)
  | Uninstall svc r =>
      (if bool_decide (is_Some (A !! svc)) then put A svc (e_uninstall b (entry_of A svc) r) else A, 
       Last (Some (bool_decide (remove_one r (e_adv (entry_of A svc)) = []))))
  | Bridge svc i count mode =>
      if bool_decide (is_Some (A !! svc) \/ (size A < max_svcs)%nat) then (put A svc (e_bridge (entry_of A svc) i count mode), Code EXSUCCEED) else (A, Code EXFAIL)
  end.

(** A server removes what it has entered, and a node takes back servers only of a
    service it is known to offer; the counts stay in range. *)
Definition op_allowed (A : services) (o : svc_op) : Prop :=
  match o with
  | Install svc _ => (length svc <= MAXTIDENT)%nat /\ zlen (e_adv (entry_of A svc)) < LOCAL_SRVS_MAX
  | Uninstall svc r => forall e, A !! svc = Some e -> r ∈ e_adv e
  | Bridge svc i count mode => (length svc <= MAXTIDENT)%nat /\ (i < CONF_NDRX_NODEID_COUNT)%nat /\
      (0 <= count \/ mode <> BRIDGE_REFRESH_MODE_FULL /\ forall n, e_nodes (entry_of A svc) !! i = Some n -> 0 < n) /\
      INT_MIN <= count /\ forall n, e_nodes (entry_of A svc) !! i = Some n -> reported n count mode <= NODE_SRVS_MAX
  end.

Definition room (mem : list shm_svcinfo) (A : services) (svc : list Z) : bool := bool_decide (is_Some (A !! svc) \/ (size A < length mem)%nat).

(** Where a service is entered: the cell is written to stand for any new entry. *)
Lemma install_at b max mem A svc : table_is b max mem A -> (0 < length mem)%nat ->
  exists found pos ow c, _ndrx_shm_get_svc mem svc true = Some (found, pos, ow) /\ mem !! pos = Some c /\ room mem A svc = found || ow /\
    (found = true -> c_used c = true /\ service c = svc) /\
    (found = false -> A !! svc = None) /\
    (found || ow = true -> cell_is max c (entry_of A svc) /\
       forall c' e', c_used c' = true -> service c' = svc -> cell_is max c' e' -> entry_ok b e' -> table_is b max (<[pos:=c']> mem) (put A svc e')).
Proof.
  intros HT Hn. pose proof HT as (Ht & Hcells & HA). destruct (svc_install_pos mem svc Ht Hn) as (found & pos & ow & Hg & Hspec). exists found, pos, ow.
  assert (Habs : (forall i c, ~ used_key mem i c svc) -> A !! svc = None).
  { intros Hno. destruct (A !! svc) as [e|] eqn:He; [|done]. destruct (HA svc e He) as (_ & _ & i & c & Hc). by destruct (Hno i c). }
  destruct found; [|destruct Hspec as [Hno Hspec]; destruct ow].
  - destruct Hspec as (c & Hc & Hu & Hk). exists c. split; [done|]. split; [done|]. pose proof (Hcells pos c Hc) as Hcell. rewrite Hu, Hk in Hcell.
    split; [|split; [done|split; [done|]]].
    + apply bool_decide_eq_true. unfold entry_of in Hcell. destruct (A !! svc); [by left|right]. apply (idle_size b max mem A pos c HT Hc). by eapply cell_none.
    + intros _. split; [done|]. intros c' e' Hu' Hs' Hc' Hok'. apply (table_write b max mem A pos c c' svc e' HT Hc); auto.
  - destruct Hspec as [(c & Hc & Hor) Hway]. exists c. split; [done|]. split; [done|]. specialize (Habs Hno).
    assert (c_used c = false \/ entry_of A (service c) = no_entry) as Hidle.
    { destruct (c_used c) eqn:Hu; [right|by left]. destruct Hor as [?|Hz]; [done|]. by eapply idle_cell. }
    assert (cell_is max c no_entry) as Hcell.
    { pose proof (Hcells pos c Hc) as Hcell. destruct (c_used c); [|done]. by destruct Hidle as [?|<-]. }
    split; [|split; [done|split; [done|]]].
    + apply bool_decide_eq_true. right. apply (idle_size b max mem A pos c HT Hc). by eapply cell_none.
    + intros _. unfold entry_of. rewrite Habs. split; [done|]. intros c' e' Hu' Hs' Hc' Hok'. apply (table_write b max mem A pos c c' svc e' HT Hc); auto.
  - destruct Hspec as [Hall Hlt]. destruct (lookup_lt_is_Some_2 mem pos Hlt) as [c Hc]. exists c. split; [done|]. split; [done|]. split; [|split; [done|split; [auto|done]]].
    apply bool_decide_eq_false. rewrite (Habs Hno), (full_size b max mem A HT Hall). intros [[? ?]|?]; [done|lia].
Qed.

Lemma has_init fl : has_flag (Z.lor fl NDRXD_SVCINFO_INIT) NDRXD_SVCINFO_INIT = true.
Proof.
  unfold has_flag, NDRXD_SVCINFO_INIT. rewrite Z.land_lor_distr_l. change (Z.land 1 1) with 1. destruct (Z.eqb_spec (Z.lor (Z.land fl 1) 1) 0) as [He|]; [|done].
  apply (f_equal (fun z => Z.testbit z 0)) in He. by rewrite Z.lor_spec, orb_true_r in He.
Qed.

Lemma name_kept svc : (length svc <= MAXTIDENT)%nat -> ndrx_strcpy_safe (S MAXTIDENT) svc = svc.
Proof. intros Hl. apply take_ge. cbn [Nat.sub]. lia. Qed.

Definition step_ok (b : poller) (max : nat) (mem : list shm_svcinfo) (A : services) (o : svc_op) : Prop :=
  exists mem' a, run_svc_op b mem o = Some (mem', a) /\ length mem' = length mem /\ (map_op b (length mem) max A o).2 = a /\
    table_is b max mem' (map_op b (length mem) max A o).1.

Lemma res_length max c e : cell_is max c e -> length (e_res e) = resnr c /\ length (resids c) = max.
Proof. intros (_ & _ & _ & _ & _ & _ & _ & _ & <- & Hl & Hr). split; [rewrite length_take; lia|done]. Qed.

Lemma put_same b max mem A svc : table_is b max mem A -> put A svc (entry_of A svc) = A.
Proof.
  intros (_ & _ & HA). unfold put, entry_of. destruct (A !! svc) as [e|] eqn:He; cbn [default from_option id].
  - destruct (HA svc e He) as [-> _]. by apply insert_id.
  - by apply delete_id.
Qed.

Lemma install_step b max mem A svc r : table_is b max mem A -> (0 < length mem)%nat -> (lists_resources b = true -> (0 < max)%nat) ->
  op_allowed A (Install svc r) -> step_ok b max mem A (Install svc r).
Proof.
  intros HT Hn Hmax [Hsvc Hadv]. destruct (install_at b max mem A svc HT Hn) as (found & pos & ow & c & Hg & Hc & Hroom & Hf & Hnf & Hw).
  pose proof (entry_of_ok b max mem A svc HT) as Hok.
  unfold step_ok, run_svc_op, ndrx_shm_install_svc, ndrx_shm_install_svc_br. cbn [negb map_op]. fold (room mem A svc). rewrite andb_false_r, Hg, Hroom. cbn [mbind option_bind]. rewrite Hc.
  cbn [mbind option_bind]. destruct (found || ow) eqn:Hfo; cbn [andb].
  2: { apply orb_false_iff in Hfo as [-> ->]. by eexists _, _. }
  destruct (Hw eq_refl) as [Hcell Hwrite]. destruct (res_length _ _ _ Hcell) as [Hrl Hrn]. rewrite Hrl. destruct found.
  - destruct (Hf eq_refl) as [Hu Hk]. cbn [with_flags resids resnr]. rewrite Hrn.
    replace (max <? resnr c + 1)%nat with (max <=? resnr c)%nat by (apply eq_true_iff_eq; rewrite Nat.leb_le, Nat.ltb_lt; lia).
    destruct (lists_resources b && (max <=? resnr c)%nat) eqn:Hfull; cbn [negb].
    + eexists _, _. split; [done|]. split; [apply length_insert|]. split; [done|]. cbn [fst]. rewrite <-(put_same b max mem A svc HT).
      by apply Hwrite; [apply has_init| | |].
    + destruct (cell_install b max (with_flags c (Z.lor 0 NDRXD_SVCINFO_INIT)) (entry_of A svc) r Hcell Hok Hadv) as (c' & Hadd & Hs' & Hf' & Hc').
      { intros Hb. rewrite Hb in Hfull. apply Nat.leb_gt in Hfull. done. }
      rewrite Hadd. cbn [mbind option_bind]. eexists _, _. split; [done|]. split; [apply length_insert|]. split; [done|].
      apply Hwrite; [|cbn; by rewrite Hs'|done|by apply install_ok]. cbn. rewrite Hf'. apply has_init.
  - cbn [orb] in Hfo. subst ow. unfold entry_of in Hcell, Hrl |- *. rewrite (Hnf eq_refl) in *. cbn [default from_option id no_entry e_res length] in *.
    replace (lists_resources b && (max <=? resnr c)%nat) with false by (rewrite <-Hrl; destruct (lists_resources b); [|done]; symmetry; apply Nat.leb_gt; auto).
    cbn [negb andb]. cbn [with_counts with_flags with_name resids resnr]. rewrite Hrn, <-Hrl. pose proof Hcell as (Hs & Hcs & Hcn & Hln & Hnn & Hm & Hd & Hto & Hr & Hlr & _).
    rewrite (name_kept svc Hsvc). destruct (lists_resources b) eqn:Hb.
    + rewrite (proj2 (Nat.ltb_lt _ _)) by auto. cbn [mbind option_bind]. eexists _, _. split; [done|]. split; [apply length_insert|]. split; [done|].
      apply Hwrite; [apply has_init|done| |by apply install_ok, no_entry_ok]. unfold cell_is, e_install, res_add. rewrite Hb. cbn. specialize (Hmax eq_refl).
      rewrite Hs. cbn. repeat split; try done; try lia; try (by rewrite length_insert). destruct (resids c); [cbn in Hlr; lia|done].
    + cbn [mbind option_bind]. eexists _, _. split; [done|]. split; [apply length_insert|]. split; [done|].
      apply Hwrite; [apply has_init|done| |by apply install_ok, no_entry_ok]. unfold cell_is, e_install, res_add. rewrite Hb. cbn. rewrite Hs. repeat split; try done. lia.
Qed.

Lemma cell_node max c e i : cell_is max c e -> (i < CONF_NDRX_NODEID_COUNT)%nat -> exists n, cnodes c !! i = Some n /\ e_nodes e !! i = Some (n_srvs n).
Proof.
  intros (_ & _ & Hn & Hl & _) Hi. destruct (lookup_lt_is_Some_2 (cnodes c) i) as [n Hc]; [rewrite <-(length_fmap n_srvs), Hn; lia|].
  exists n. split; [done|]. by rewrite <-Hn, list_lookup_fmap, Hc.
Qed.

Lemma bridge_step b max mem A svc i count mode : table_is b max mem A -> (0 < length mem)%nat ->
  op_allowed A (Bridge svc i count mode) -> step_ok b max mem A (Bridge svc i count mode).
Proof.
  intros HT Hn (Hsvc & Hi & Hallowed & Hmin & Hmx). destruct (install_at b max mem A svc HT Hn) as (found & pos & ow & c & Hg & Hc & Hroom & Hf & Hnf & Hw).
  pose proof (entry_of_ok b max mem A svc HT) as Hok.
  unfold step_ok, run_svc_op, ndrx_shm_install_svc_br. cbn [negb map_op]. fold (room mem A svc). rewrite andb_false_r, Hg, Hroom. cbn [mbind option_bind]. rewrite Hc.
  cbn [mbind option_bind]. destruct (found || ow) eqn:Hfo; cbn [andb].
  2: { apply orb_false_iff in Hfo as [-> ->]. by eexists _, _. }
  destruct (Hw eq_refl) as [Hcell Hwrite]. destruct (cell_node max c _ i Hcell Hi) as (n & Hcn & Hen).
  assert (0 <= count \/ mode <> BRIDGE_REFRESH_MODE_FULL /\ 0 < n_srvs n) as Hall by (destruct Hallowed as [?|[? Hpos]]; [by left|right; auto]).
  destruct found.
  - rewrite node_index_of. cbn [mbind option_bind with_flags cnodes]. rewrite Hcn. cbn [mbind option_bind].
    destruct (cell_bridge max (with_flags c (Z.lor 0 NDRXD_SVCINFO_INIT)) _ i _ count mode Hcell Hen Hall Hmin (Hmx _ Hen)) as (c' & Hb & Hs' & Hf' & Hc').
    unfold counted in Hb. rewrite Hb. cbn [mbind option_bind]. eexists _, _. split; [done|]. split; [apply length_insert|]. split; [done|].
    apply Hwrite; [|rewrite Hs'; by apply Hf|done|by apply bridge_ok]. cbn. rewrite Hf'. apply has_init.
  - cbn [orb] in Hfo. subst ow. assert (entry_of A svc = no_entry) as He by (unfold entry_of; by rewrite (Hnf eq_refl)). rewrite He in *.
    assert (Hin : (i < length (e_nodes no_entry))%nat) by (cbn [no_entry e_nodes]; by rewrite length_replicate).
    assert (n_srvs n = 0) as Hz by (apply lookup_replicate in Hen as [-> _]; done). destruct (Z.eqb_spec count 0) as [->|Hne].
    + eexists _, _. split; [done|]. split; [done|]. split; [done|]. cbn [fst]. assert (e_bridge no_entry i 0 mode = no_entry) as ->.
      { unfold e_bridge. rewrite Hen, Hz. cbn [default from_option id]. replace (if mode =? _ then 0 else Z.max 0 (0 + 0)) with 0 by (by destruct (mode =? _)).
        rewrite list_insert_id by (by rewrite Hen, Hz). done. }
      rewrite <-He, (put_same b max mem A svc HT). done.
    + destruct (cell_bridge max (with_flags (with_name c svc) (Z.lor 0 NDRXD_SVCINFO_INIT)) _ i _ count mode Hcell Hen Hall Hmin (Hmx _ Hen)) as (c' & Hb & Hs' & Hf' & Hc').
      unfold counted in Hb. rewrite Hz, (proj2 (Z.ltb_lt 0 count)) in Hb by lia. cbn [Z.eqb andb] in Hb. rewrite (name_kept svc Hsvc). cbn [negb andb mbind option_bind].
      rewrite Hb. cbn [mbind option_bind]. eexists _, _. split; [done|]. split; [apply length_insert|]. split; [done|].
      apply Hwrite; [|by rewrite Hs'|done|by apply bridge_ok]. cbn. rewrite Hf'. apply has_init.
Qed.

Lemma uninstall_step b max mem A svc r : table_is b max mem A -> (0 < length mem)%nat ->
  op_allowed A (Uninstall svc r) -> step_ok b max mem A (Uninstall svc r).
Proof.
  intros HT Hn Hin. pose proof HT as (Ht & Hcells & HA). destruct (svc_read mem svc Ht Hn) as (found & pos & ow & Hg & Hspec).
  pose proof (entry_of_ok b max mem A svc HT) as Hok.
  unfold step_ok, run_svc_op, ndrxd_shm_uninstall_svc. cbn [negb map_op]. rewrite andb_false_r, Hg. cbn [mbind option_bind]. destruct found.
  2: { assert (A !! svc = None) as Hno.
       { destruct (A !! svc) as [e|] eqn:He; [|done]. destruct (HA svc e He) as (_ & _ & i & c & Hc). by destruct (Hspec i c). }
       unfold entry_of. rewrite Hno. eexists _, _. split; [done|]. split; [done|]. split; [done|]. done. }
  destruct Hspec as (c & Hc & Hu & Hk). rewrite Hc. cbn [mbind option_bind]. pose proof (Hcells pos c Hc) as Hcell. rewrite Hu, Hk in Hcell.
  assert (Hwrite : forall c' e', flags c' = flags c -> service c' = service c -> cell_is max c' e' -> entry_ok b e' -> table_is b max (<[pos:=c']> mem) (put A svc e')).
  { intros c' e' Hf' Hs' Hc' Hok'. apply (table_write b max mem A pos c c' svc e' HT Hc); [by left|cbn; rewrite Hf'; exact Hu|congruence|done|done]. }
  destruct (Z.ltb_spec 1 (srvs c)) as [H1|H1].
  - assert (exists e, A !! svc = Some e) as [e He].
    { unfold entry_of in Hcell. destruct (A !! svc) as [e|]; [by exists e|]. apply cell_none in Hcell. lia. }
    unfold entry_of in *. rewrite He in *. cbn [default from_option id] in *. specialize (Hin e He).
    destruct (cell_uninstall b max c e r Hcell H1 Hin) as (Hc' & Hs' & Hf' & Hlast). rewrite Hlast, (bool_decide_eq_true_2 (is_Some (Some e))) by eauto.
    eexists _, _. split; [done|]. split; [apply length_insert|]. split; [done|]. apply Hwrite; [done|done|done|]. by apply uninstall_ok.
  - set (c2 := if lists_resources b then _ else _). assert (cell_is max c2 no_entry /\ service c2 = service c /\ flags c2 = flags c) as (Hc2 & Hs2 & Hf2).
    { destruct Hcell as (_ & _ & Hcn & Hln & _ & Hm & _ & _ & Hr & Hlr & Hrn). unfold cell_is. subst c2. destruct b; cbn; rewrite ?active_zeros, ?drop_replicate;
        (split; [|done]); repeat split; try done; try lia; try (by repeat constructor); try (by apply (drop_replicate _ 32 0)). by rewrite Hr, Hok. }
    assert (fst (map_op b (length mem) max A (Uninstall svc r)) = put A svc no_entry /\ remove_one r (e_adv (entry_of A svc)) = []) as [HA' Hlast].
    { cbn [map_op fst]. unfold entry_of in *. destruct (A !! svc) as [e|] eqn:He; cbn [default from_option id] in *.
      - rewrite bool_decide_eq_true_2 by eauto. specialize (Hin e He). destruct Hcell as (Hs & _ & _ & Hln & Hnn & _).
        pose proof (remove_one_length r (e_adv e) Hin) as Hlen. pose proof (active_nonneg (e_nodes e)). pose proof (zlen_nonneg (remove_one r (e_adv e))).
        split; [|apply zlen_0_inv; lia]. f_equal. apply (not_offered b); [by apply uninstall_ok|done|by apply in_nodes_nonneg|]. unfold offered. cbn [e_uninstall e_adv e_nodes]. lia.
      - rewrite bool_decide_eq_false_2 by (by intros []). split; [|done]. unfold put. cbn. by rewrite delete_id. }
    cbn [map_op fst] in HA'. eexists _, _. split; [done|]. split; [apply length_insert|]. cbn [snd fst]. rewrite Hlast. split; [done|]. rewrite HA'.
    apply Hwrite; [done|done|done|apply no_entry_ok].
Qed.

Fixpoint run_svc_ops (b : poller) (mem : list shm_svcinfo) (os : list svc_op) : option (list shm_svcinfo * list answer) :=
  match os with
  | [] => Some (mem, [])
  | o :: os => '(mem, a) ← run_svc_op b mem o; '(mem, l) ← run_svc_ops b mem os; Some (mem, a :: l)
  end.

Fixpoint map_ops (b : poller) (max_svcs max : nat) (A : services) (os : list svc_op) : services * list answer :=
  match os with
  | [] => (A, [])
  | o :: os => let r := map_op b max_svcs max A o in let r' := map_ops b max_svcs max r.1 os in (r'.1, r.2 :: r'.2)
  end.

Fixpoint ops_allowed (b : poller) (max_svcs max : nat) (A : services) (os : list svc_op) : Prop :=
  match os with [] => True | o :: os => op_allowed A o /\ ops_allowed b max_svcs max (map_op b max_svcs max A o).1 os end.

Lemma new_svcs_is b n max : table_is b max (new_svcs n max) ∅.
Proof.
  split; [intros i c [-> _]%lookup_replicate; done|]. split; [|done]. intros i c [-> _]%lookup_replicate. cbn [c_used svc_cell]. unfold cell_is. cbn.
  repeat split; try done; try lia; try (by repeat constructor); by rewrite length_replicate.
Qed.

Lemma ops_step b n max A mem os : (0 < n)%nat -> (lists_resources b = true -> (0 < max)%nat) -> length mem = n -> table_is b max mem A -> ops_allowed b n max A os ->
  exists mem', run_svc_ops b mem os = Some (mem', (map_ops b n max A os).2) /\ table_is b max mem' (map_ops b n max A os).1 /\ length mem' = n.
Proof.
  intros Hn Hmax. revert A mem. induction os as [|o os IH]; intros A mem Hlen HT Hall; [by exists mem|]. destruct Hall as [Ho Hall].
  assert (step_ok b max mem A o) as (mem1 & a & Hr & Hl1 & Ha & HT1).
  { destruct o; [apply install_step|apply uninstall_step|apply bridge_step]; try done; lia. }
  rewrite Hlen in *. destruct (IH _ mem1 Hl1 HT1 Hall) as (mem2 & Hr2 & HT2 & Hl2). exists mem2. cbn [run_svc_ops map_ops]. rewrite Hr. cbn [mbind option_bind].
  rewrite Hr2. cbn [mbind option_bind]. by subst a.
Qed.

Lemma count_cells b max mem A : table_is b max mem A -> ndrx_shm_get_svc_count true mem = Z.of_nat (size A).
Proof.
  intros HT. rewrite (table_size b max mem A HT). destruct HT as (_ & Hcells & _). cbn [ndrx_shm_get_svc_count negb].
  assert (Forall (fun c => 0 < srvs c -> has_flag (flags c) NDRXD_SVCINFO_INIT = true) mem) as Hall.
  { apply Forall_lookup. intros i c Hi Hs. specialize (Hcells i c Hi). cbn [c_used svc_cell] in Hcells. destruct (has_flag _ _); [done|]. apply cell_none in Hcells. lia. }
  clear Hcells. induction Hall as [|c mem Hc _ IH]; [done|]. cbn [foldr]. rewrite IH, filter_cons. destruct (Z.ltb_spec 0 (srvs c)).
  - rewrite (Hc ltac:(done)). cbn [andb]. rewrite decide_True by done. cbn [length]. lia.
  - rewrite andb_false_r, decide_False by (intros []). lia.
Qed.

(** C30: the shared table of services refines a map from names to who offers them,
    for every allowed sequence of servers entering and leaving and of reports from
    other nodes, with any collisions.  A sequence is allowed when the names fit
    ([MAXTIDENT] characters), a server leaves only what it has entered, a node
    reports no negative number of servers and takes back servers only of a service
    it is known to offer, and at most [LOCAL_SRVS_MAX] servers here and
    [NODE_SRVS_MAX] on another node offer a service (the counters of the code then
    do not wrap); [SvcDemo.phantom_service] is what happens when a node takes back
    what it is not known to offer.  The answers are those of the map, and afterwards
    the cells describe exactly its entries: the number of servers of each service,
    the nodes that offer it and the list of local resources; a service is refused
    only when every cell is taken by an offered service or its list is full. *)
Theorem svc_table_refines b n max os : (0 < n)%nat -> (lists_resources b = true -> (0 < max)%nat) -> ops_allowed b n max ∅ os ->
  exists mem, run_svc_ops b (new_svcs n max) os = Some (mem, (map_ops b n max ∅ os).2) /\ table_is b max mem (map_ops b n max ∅ os).1 /\
    ndrx_shm_get_svc_count true mem = Z.of_nat (size (map_ops b n max ∅ os).1).
Proof.
  intros Hn Hmax Hall. destruct (ops_step b n max ∅ (new_svcs n max) os Hn Hmax) as (mem & Hr & HT & _); [apply length_replicate|apply new_svcs_is|done|].
  exists mem. split; [done|]. split; [done|]. by eapply count_cells.
Qed.

(** ** Routing *)

Lemma choose_loop_finds nodes : Forall (fun x => 0 <= n_srvs x) nodes -> forall i0 got k, got < k <= got + active (n_srvs <$> nodes) ->
  exists g i n, choose_loop nodes i0 got k false = (g, Some (i0 + Z.of_nat i + 1)) /\ nodes !! i = Some n /\ 0 < n_srvs n.
Proof.
  induction 1 as [|x nodes Hx _ IH]; intros i0 got k Hk; [change (active (n_srvs <$> [])) with 0 in Hk; lia|]. rewrite fmap_cons, active_cons in Hk. cbn [choose_loop]. rewrite andb_false_r.
  destruct (Z.eqb_spec (n_srvs x) 0) as [Hz|Hz]; cbn [negb].
  - rewrite Hz in Hk. cbn [Z.ltb Z.compare] in Hk. destruct (Z.eqb_spec got k) as [Hgk|Hgk]; [lia|]. destruct (IH (i0 + 1) got k) as (g & i & n & Hc & Hi & Hn); [lia|].
    exists g, (S i), n. split; [|done]. rewrite Hc. do 2 f_equal. lia.
  - rewrite (proj2 (Z.ltb_lt 0 (n_srvs x))) in Hk by lia. destruct (Z.eqb_spec (got + 1) k) as [He|He].
    + exists (got + 1), 0%nat, x. split; [do 2 f_equal; lia|]. split; [done|lia].
    + destruct (IH (i0 + 1) (got + 1) k) as (g & i & n & Hc & Hi & Hn); [lia|]. exists g, (S i), n. split; [|done]. rewrite Hc. do 2 f_equal. lia.
Qed.

Lemma active_app l k : active (l ++ k) = active l + active k.
Proof. unfold active. by rewrite filter_app, zlen_app. Qed.

Lemma choose_node_offers max c e k : cell_is max c e -> 1 <= k <= csrvs c ->
  exists i n, choose_node c k = Some (Z.of_nat i + 1) /\ e_nodes e !! i = Some n /\ 0 < n.
Proof.
  intros (_ & Hcs & Hn & Hln & Hnn & Hm & Hd & _) Hk. unfold choose_node. set (l := take (cnodes_max_id c) (cnodes c)).
  assert (active (n_srvs <$> l) = csrvs c) as Ha.
  { rewrite Hcs, <-(take_drop (cnodes_max_id c) (e_nodes e)), active_app, Hd, active_zeros. subst l. rewrite fmap_take, Hn. lia. }
  destruct (choose_loop_finds l) with (i0 := 0) (got := 0) (k := k) as (g & i & n & -> & Hi & Hpos); [|lia|].
  - subst l. apply Forall_take. rewrite <-Hn in Hnn. rewrite Forall_fmap in Hnn. eapply Forall_impl; [exact Hnn|]. by intros x [? _].
  - exists i, (n_srvs n). split; [f_equal; lia|]. split; [|done]. rewrite <-Hn, list_lookup_fmap.
    assert (cnodes c !! i = Some n) as ->; [|done]. subst l. rewrite lookup_take_Some in Hi. apply Hi.
Qed.

(** Where a request for a service may go: to a local server that offers it, or to a
    node that does; nowhere only when nobody does.  With server ids the list of local
    servers can be empty although there are some. *)
Definition routes (b : poller) (A : services) (svc : list Z) (r : option (send_q * option Z)) : Prop :=
  let e := entry_of A svc in
  match r with
  | None => A !! svc = None \/ b = POLL /\ e_res e = []
  | Some (q, None) => if lists_resources b then exists r, q = SrvQ svc r /\ r ∈ e_adv e else q = SvcQ svc /\ e_adv e <> []
  | Some (q, Some node) => q = (match b with EPOLL => BridgeQ node | _ => SvcQ svc end) /\
      exists i n, node = Z.of_nat i + 1 /\ e_nodes e !! i = Some n /\ 0 < n
  end.

Lemma listed_offers b e x : entry_ok b e -> x ∈ e_res e -> resid x ∈ e_adv e.
Proof.
  intros Hok Hx. destruct b; [|destruct Hok as [_ Hok]|destruct Hok as (_ & Hok & _)]; [rewrite Hok in Hx; by apply elem_of_nil in Hx|..];
    rewrite Forall_forall in Hok; by apply Hok.
Qed.

Lemma cluster_or_local max c e ldbal rnd : cell_is max c e -> 0 < srvs c ->
  (if use_cluster c ldbal rnd then 0 < csrvs c <= Z.of_nat CONF_NDRX_NODEID_COUNT else e_adv e <> []).
Proof.
  intros (Hs & Hcs & _ & Hln & _) Hpos. pose proof (active_nonneg (e_nodes e)). unfold use_cluster.
  assert (active (e_nodes e) <= Z.of_nat CONF_NDRX_NODEID_COUNT) by (unfold active, zlen; pose proof (length_filter (fun x => 0 < x) (e_nodes e)); lia).
  assert (e_adv e = [] -> srvs c = csrvs c) by (intros He; rewrite Hs, Hcs, He, zlen_nil; lia).
  destruct (Z.eqb_spec (srvs c) (csrvs c)); cbn [andb]; [rewrite (proj2 (Z.ltb_lt _ _)) by lia; lia|].
  assert (e_adv e <> []) by auto. destruct (Z.eqb_spec (csrvs c) 0); [done|].
  destruct (ldbal =? 0); [done|]. destruct (ldbal =? 100); [lia|]. destruct (_ <=? ldbal); [lia|done].
Qed.

Lemma get_svc_step_routes b max mem A ldbal rnd1 rnd2 svc : table_is b max mem A -> (0 < length mem)%nat -> 
  exists mem' r, get_svc_step b true (fun _ => true) ldbal rnd1 rnd2 mem svc = Some (mem', r) /\ table_is b max mem' A /\ length mem' = length mem /\ routes b A svc r.
Proof.
  intros HT Hn. pose proof HT as (Ht & Hcells & HA). destruct (svc_read mem svc Ht Hn) as (found & pos & ow & Hg & Hspec). unfold get_svc_step. rewrite Hg. cbn [mbind option_bind].
  assert (Hnone : (forall i c, ~ used_key mem i c svc) \/ (exists i c, used_key mem i c svc /\ srvs c <= 0) -> A !! svc = None).
  { intros Hor. destruct (A !! svc) as [e|] eqn:He; [|done]. destruct (HA svc e He) as (Ho & _ & i & c & Hc). destruct Hor as [Hno|(j & d & Hd & Hs)]; [by destruct (Hno i c)|].
    destruct Hd as (Hj & Hud & Hkd). specialize (Hcells j d Hj). rewrite Hud, Hkd in Hcells. unfold entry_of in Hcells. rewrite He in Hcells.
    apply srvs_offered in Hcells. cbn in Hcells. rewrite Ho in Hcells. lia. }
  destruct found; cbn [negb]; [|eexists _, _; split; [done|]; split; [done|]; split; [done|]; left; auto].
  destruct Hspec as (c & Hc & Hu & Hk). rewrite Hc. cbn [mbind option_bind]. pose proof (Hcells pos c Hc) as Hcell. rewrite Hu, Hk in Hcell.
  destruct (Z.leb_spec (srvs c) 0) as [Hs|Hs].
  { eexists _, _. split; [done|]. split; [done|]. split; [done|]. left. apply Hnone. right. by exists pos, c. }
  pose proof (cluster_or_local max c _ ldbal rnd1 Hcell Hs) as Hcl. destruct (use_cluster c ldbal rnd1).
  - rewrite (proj2 (Z.ltb_ge (csrvs c) 0)), (proj2 (Z.ltb_ge (Z.of_nat CONF_NDRX_NODEID_COUNT) (csrvs c))) by lia. cbn [orb].
    destruct (Z.eqb_spec (csrvs c) 0); [lia|]. pose proof (Z.mod_pos_bound rnd2 (csrvs c) ltac:(lia)).
    destruct (choose_node_offers max c (entry_of A svc) (rnd2 `mod` csrvs c + 1) Hcell) as (i & m & -> & Hi & Hm); [lia|].
    eexists _, _. split; [done|]. split; [done|]. split; [done|]. cbn. split; [done|]. by exists i, m.
  - pose proof (entry_of_ok b max mem A svc HT) as Hok. destruct (lists_resources b) eqn:Hb.
    2: { eexists _, _. split; [done|]. split; [done|]. split; [done|]. unfold routes. by rewrite Hb. }
    cbn [negb]. assert (table_is b max (<[pos:=with_resrr c (u32 (resrr c + 1))]> mem) A) as HT'.
    { rewrite <-(put_same b max mem A svc HT). apply (table_write b max mem A pos c _ svc _ HT Hc); [by left|done|done|done|done]. }
    destruct (res_length _ _ _ Hcell) as [Hrl Hrn]. cbn [with_resrr resnr resids resrr]. destruct (Nat.eqb_spec (resnr c) 0) as [Hz|Hz]; cbn [orb].
    + eexists _, _. split; [done|]. split; [done|]. split; [apply length_insert|]. rewrite Hz in Hrl. apply length_zero_iff_nil in Hrl.
      destruct b; [done|by right|]. exfalso. destruct Hok as (_ & _ & Hok). rewrite Hrl in Hok. destruct (e_adv (entry_of A svc)); [done|].
      apply Forall_cons in Hok as [[]%elem_of_nil _].
    + rewrite (proj2 (is_svc svc (with_resrr c (u32 (resrr c + 1))))) by done. cbn [negb].
      set (k := Z.to_nat (u32 (resrr c + 1) `mod` Z.of_nat (resnr c))).
      assert (k < resnr c)%nat as Hkn by (subst k; pose proof (Z.mod_pos_bound (u32 (resrr c + 1)) (Z.of_nat (resnr c)) ltac:(lia)); lia).
      pose proof Hcell as (_ & _ & _ & _ & _ & _ & _ & _ & Hr & _ & Hle). destruct (lookup_lt_is_Some_2 (resids c) k) as [x Hx]; [lia|]. rewrite Hx. cbn [mbind option_bind].
      eexists _, _. split; [done|]. split; [done|]. split; [apply length_insert|]. unfold routes. rewrite Hb. exists (resid x). split; [done|].
      apply (listed_offers b); [done|]. rewrite <-Hr. apply list_elem_of_lookup. exists k. by rewrite lookup_take_lt.
Qed.

(** The same with the second step, to the service of the bridge. *)
Definition routes_on (b : poller) (A : services) (svc : list Z) (r : option (send_q * option Z)) : Prop :=
  exists r1, routes b A svc r1 /\
    match r1 with
    | Some (_, Some node) =>
        if lists_resources b && negb (is_bridge_svc svc)
        then exists r2, routes b A (bridge_svc node) r2 /\ r = match r2 with Some (q, _) => Some (q, Some node) | None => None end
        else r = r1
    | _ => r = r1
    end.


(** The servers named for a service are servers that offer it. *)
Lemma get_srvs_offer b max mem A svc l : table_is b max mem A -> (0 < length mem)%nat ->
  ndrx_shm_get_srvs true true true mem svc = Some (Some l) -> l = e_res (entry_of A svc) /\ Forall (fun x => resid x ∈ e_adv (entry_of A svc)) l.
Proof.
  intros HT Hn. pose proof HT as (Ht & Hcells & _). destruct (svc_read mem svc Ht Hn) as (found & pos & ow & Hg & Hspec). unfold ndrx_shm_get_srvs. cbn [negb orb].
  rewrite Hg. cbn [mbind option_bind]. destruct found; [|done]. destruct Hspec as (c & Hc & Hu & Hk). rewrite Hc. cbn [mbind option_bind].
  destruct (resnr c =? 0)%nat; [done|]. destruct (resnr c <=? length (resids c))%nat; [|done]. intros [= <-]. specialize (Hcells pos c Hc). rewrite Hu, Hk in Hcells.
  pose proof (entry_of_ok b max mem A svc HT) as Hok. destruct Hcells as (_ & _ & _ & _ & _ & _ & _ & _ & -> & _). split; [done|].
  apply Forall_forall. intros x Hx. by apply (listed_offers b).
Qed.

Module SvcDemo.

Definition svc_a : list Z := [65].
Definition svc_b : list Z := [66].

(** Two servers of "A", a node offers "A" and then takes it back; "B" comes and
    goes, then "B" is offered by a node. *)
Definition ops : list svc_op :=
  [Install svc_a 5; Install svc_a 6; Bridge svc_a 2 3 BRIDGE_REFRESH_MODE_FULL; Install svc_b 7; Uninstall svc_b 7;
   Bridge svc_a 2 (-3) BRIDGE_REFRESH_MODE_DIFF; Uninstall svc_a 5; Bridge svc_b 1 1 BRIDGE_REFRESH_MODE_DIFF].

Ltac node_fact := let n := fresh in let Hn := fresh in intros n Hn; vm_compute in Hn; injection Hn as <-; vm_compute; done.

Ltac op_fact :=
  lazymatch goal with
  | |- op_allowed _ (Install _ _) => split; [vm_compute; lia|vm_compute; reflexivity]
  | |- op_allowed _ (Uninstall _ _) => let e := fresh in let He := fresh in intros e He; vm_compute in He; injection He as <-; vm_compute; repeat constructor
  | |- op_allowed _ (Bridge _ _ ?count _) =>
      split; [vm_compute; lia|]; split; [vm_compute; lia|]; split; [|split; [vm_compute; done|node_fact]];
      lazymatch eval vm_compute in (0 <=? count) with true => left; vm_compute; done | false => right; split; [done|node_fact] end
  end.

Lemma ops_fine : ops_allowed SYSVQ 2 4 ∅ ops.
Proof. unfold ops. cbn [ops_allowed]. repeat (split; [op_fact|]). exact I. Qed.

Lemma svc_table_refines_witness : exists mem, run_svc_ops SYSVQ (new_svcs 2 4) ops = Some (mem, (map_ops SYSVQ 2 4 ∅ ops).2) /\
  ndrx_shm_get_svc_count true mem = 2.
Proof.
  destruct (svc_table_refines SYSVQ 2 4 ops) as (mem & Hr & _ & Hc); [lia|lia|apply ops_fine|]. exists mem. split; [exact Hr|]. rewrite Hc. reflexivity.
Defined.


(** How many services are offered after the operations, and where a request for
    "A" goes. *)
Definition after (b : poller) (os : list svc_op) : option (Z * option (send_q * option Z)) :=
  r ← run_svc_ops b (new_svcs 2 4) os;
  s ← ndrx_shm_get_svc b true (fun _ => true) 50 1 2 3 4 (r.1 : list shm_svcinfo) svc_a;
  Some (ndrx_shm_get_svc_count true r.1, s.2).

(** A node takes back servers of a service that is not in the table, as happens
    when messages overtake each other: the service is entered as offered by the
    cluster although no node offers it, and requests for it fail; when the node
    offers it and takes it back again it stays. *)
Lemma phantom_service :
  after EPOLL [Bridge svc_a 2 (-1) BRIDGE_REFRESH_MODE_DIFF; Bridge svc_a 2 1 BRIDGE_REFRESH_MODE_DIFF; Bridge svc_a 2 (-1) BRIDGE_REFRESH_MODE_DIFF] =
    Some (1, None).
Proof. vm_compute. reflexivity. Qed.

(** With server ids: a server that is entered again before its first entry is
    removed; when that happens the service is counted as offered, but no server is
    listed and requests fail. *)
Lemma entered_twice_lost : after POLL [Install svc_a 5; Install svc_a 5; Uninstall svc_a 5] = Some (1, None).
Proof. vm_compute. reflexivity. Qed.

(** With queue ids: another server on a queue that is listed needs no place, but is
    refused when there is none. *)
Lemma shared_queue_refused : exists mem, run_svc_ops SYSVQ (new_svcs 2 1) [Install svc_a 5; Install svc_a 5] = Some (mem, [Code EXSUCCEED; Code EXFAIL]).
Proof. eexists. vm_compute. reflexivity. Qed.

End SvcDemo.
