(* ===== verification/ClusterView.v ===== *)
(** * What the nodes of a cluster know of each other's services

    The daemon of a node ([ndrxd/bridge.c], [ndrxd/cmd_bridge.c]) counts the
    servers of each local service, sends the whole list to a node that gets
    connected and the differences afterwards, and enters what other nodes send
    into the table of services ([ShmSvc]).

    A hash of services is the list of its elements in the order of insertion,
    which is the order of iteration; the counts are of type [int]. *)

From stdpp Require Import gmap.
From Stdlib Require Import Ascii String.
From S2P Require Import Prelude Subst LinHash ShmSvc.

Local Open Scope Z_scope.

Fixpoint codes (s : string) : list Z := match s with EmptyString => [] | String a s => Z.of_nat (nat_of_ascii a) :: codes s end.

(** ** Hashes of services *)

Abbreviation svcs := (list (list Z * Z)).

Fixpoint brd_get_svc (l : svcs) (svc : list Z) : option Z :=
  match l with [] => None | (s, c) :: l => if decide (s = svc) then Some c else brd_get_svc l svc end.

(** Setting the count of an element, and deleting an element. *)
Fixpoint set_count (l : svcs) (svc : list Z) (c : Z) : svcs :=
  match l with [] => [] | (s, d) :: l => if decide (s = svc) then (s, c) :: l else (s, d) :: set_count l svc c end.

Fixpoint del_svc (l : svcs) (svc : list Z) : svcs :=
  match l with [] => [] | (s, d) :: l => if decide (s = svc) then l else (s, d) :: del_svc l svc end.

(** ** The list of local services

    [calloc]: memory is available. *)

Definition brd_add_svc_to_hash_g (calloc : bool) (l : svcs) (svc : list Z) : svcs * Z :=
  match brd_get_svc l svc with
  | Some c => (set_count l svc (i32 (c + 1)), EXSUCCEED)
  | None => if calloc then (l ++ [(ndrx_strcpy_safe (S MAXTIDENT) svc, 1)], EXSUCCEED) else (l, EXFAIL)
  end%list.

Definition brd_del_svc_from_hash_g (calloc : bool) (l : svcs) (svc : list Z) (diff : bool) : svcs * Z :=
  match brd_get_svc l svc with
  | Some c => (if diff || (1 <? c) then set_count l svc (i32 (c - 1)) else del_svc l svc, EXSUCCEED)
  | None =>
      if diff then if calloc then (l ++ [(ndrx_strcpy_safe (S MAXTIDENT) svc, -1)], EXSUCCEED) else (l, EXFAIL)
      else (l, EXSUCCEED)
  end%list.

(** Our services, and what has changed since the last message. *)
Record view := { G_bridge_svc_hash : svcs; G_bridge_svc_diff : svcs; M_build_diff : bool }.

(** The names the source compares with are formats: "%03hd" is part of them. *)
Definition EV_TPEVSUBS : list Z := codes "@TPEVSUBS%03hd".
Definition EV_TPEVUNSUBS : list Z := codes "@TPEVUNSUBS%03hd".
Definition EV_TPEVPOST : list Z := codes "@TPEVPOST%03hd".
Definition EV_TPEVDOPOST : list Z := codes "@TPEVDOPOST%03hd".
Definition TPRECOVERSVC : list Z := codes "@TPRECOVER".
Definition NDRX_SVC_TMIB : list Z := codes ".TMIB".

Definition strcmp_eq (a b : list Z) : bool := bool_decide (a = b).
Definition strncmp_eq (a b : list Z) (n : nat) : bool := bool_decide (take n a = take n b).

Definition del_ignored (svc : list Z) : bool :=
  is_bridge_svc svc || strcmp_eq svc EV_TPEVSUBS || strcmp_eq svc EV_TPEVUNSUBS || strcmp_eq svc EV_TPEVPOST || strcmp_eq svc EV_TPEVDOPOST ||
  strcmp_eq svc NDRX_SVC_TMIB.

Definition add_ignored (svc : list Z) : bool :=
  is_bridge_svc svc || strncmp_eq svc EV_TPEVSUBS (length EV_TPEVSUBS) || strncmp_eq svc EV_TPEVUNSUBS (length EV_TPEVUNSUBS) ||
  strncmp_eq svc EV_TPEVPOST (length EV_TPEVPOST) || strcmp_eq svc TPRECOVERSVC || strcmp_eq svc NDRX_SVC_TMIB.

Definition brd_del_svc_from_hash (calloc : bool) (v : view) (svc : list Z) : view :=
  if del_ignored svc then v
  else
    {| G_bridge_svc_diff := if M_build_diff v then (brd_del_svc_from_hash_g calloc (G_bridge_svc_diff v) svc true).1 else G_bridge_svc_diff v;
       G_bridge_svc_hash := (brd_del_svc_from_hash_g calloc (G_bridge_svc_hash v) svc false).1; M_build_diff := M_build_diff v |}.

(** It reports success in any case. *)
Definition brd_add_svc_to_hash (calloc1 calloc2 : bool) (v : view) (svc : list Z) : view * Z :=
  if add_ignored svc then (v, EXSUCCEED)
  else
    let d := brd_add_svc_to_hash_g calloc1 (G_bridge_svc_diff v) svc in
    if d.2 =? EXSUCCEED then
      ({| G_bridge_svc_diff := d.1; G_bridge_svc_hash := (brd_add_svc_to_hash_g calloc2 (G_bridge_svc_hash v) svc).1; M_build_diff := M_build_diff v |}, EXSUCCEED)
    else (v, EXSUCCEED).

Definition brd_begin_diff (is_clustered : bool) (v : view) : view :=
  if is_clustered then {| G_bridge_svc_hash := G_bridge_svc_hash v; G_bridge_svc_diff := []; M_build_diff := true |} else v.

(** ** Messages *)

Record bridge_refresh_svc := { r_mode : Z; svc_nm : list Z; r_count : Z }.
Record bridge_refresh := { m_mode : Z; m_svcs : list bridge_refresh_svc }.

(** The elements are put behind those the message has. *)
Definition brd_build_refresh_msg (l : svcs) (ref : bridge_refresh) (mode : Z) : bridge_refresh :=
  {| m_mode := mode; m_svcs := m_svcs ref ++ ((fun x => {| r_mode := mode; svc_nm := x.1; r_count := x.2 |}) <$> l) |}%list.

(** What the daemon knows of a node: whether its bridge is connected and wants
    messages, which services it may see, which it offers, and a timer. *)
Record bridgedef := { nodeid : Z; connected : bool; sendrefresh : bool; exportsvcs : list Z; blacklistsvcs : list Z; theyr_services : svcs; lastrefresh_sent : Z }.

Definition COMMA : Z := 44.
Definition svc_exported (br : bridgedef) (svc : list Z) : bool :=
  let search_svc := ([COMMA] ++ svc ++ [COMMA])%list in
  if negb (bool_decide (blacklistsvcs br = [])) && bool_decide (is_Some (strstr search_svc (blacklistsvcs br))) then false
  else bool_decide (exportsvcs br = []) || bool_decide (is_Some (strstr search_svc (exportsvcs br))).

(** The message as it is sent to a node. *)
Definition brd_send_update (br : bridgedef) (refresh : bridge_refresh) : bridge_refresh :=
  if negb (bool_decide (exportsvcs br = [])) || negb (bool_decide (blacklistsvcs br = []))
  then {| m_mode := m_mode refresh; m_svcs := filter (fun x => svc_exported br (svc_nm x)) (m_svcs refresh) |}
  else refresh.

Definition empty_msg : bridge_refresh := {| m_mode := 0; m_svcs := [] |}.

(** The end of a set of changes: the view and the messages with the nodes they are
    for; [sysbuf]: a buffer for the message was obtained. *)
Definition brd_end_diff (is_clustered sysbuf : bool) (v : view) (bridges : list bridgedef) : view * list (Z * bridge_refresh) :=
  if negb is_clustered || negb sysbuf then (v, [])
  else
    let refresh := brd_build_refresh_msg (G_bridge_svc_diff v) empty_msg BRIDGE_REFRESH_MODE_DIFF in
    ({| G_bridge_svc_hash := G_bridge_svc_hash v; G_bridge_svc_diff := []; M_build_diff := false |},
     if (length (m_svcs refresh) =? 0)%nat then []
     else (fun br => (nodeid br, brd_send_update br refresh)) <$> filter (fun br => connected br && sendrefresh br) bridges).

Definition with_br (br : bridgedef) (c : bool) (l : svcs) (t : Z) : bridgedef :=
  {| nodeid := nodeid br; connected := c; sendrefresh := sendrefresh br; exportsvcs := exportsvcs br; blacklistsvcs := blacklistsvcs br;
     theyr_services := l; lastrefresh_sent := t |}.

(** The bridge to a node is connected; [sent]: whether sending succeeds. *)
Definition brd_connected (sysbuf sent : bool) (v : view) (br : bridgedef) : bridgedef * option bridge_refresh :=
  if negb sysbuf then (br, None)
  else if sendrefresh br then
    (with_br br true (theyr_services br) (if sent then 0 else lastrefresh_sent br),
     Some (brd_send_update br (brd_build_refresh_msg (G_bridge_svc_hash v) empty_msg BRIDGE_REFRESH_MODE_FULL)))
  else (with_br br true (theyr_services br) (lastrefresh_sent br), None).

(** The periodic messages: those that are due, all built in the same buffer;
    [sent]: whether sending succeeds. *)
Fixpoint period_loop (brrefresh : Z) (sent : Z -> bool) (v : view) (refresh : bridge_refresh) (bridges : list bridgedef)
  : list bridgedef * list (Z * bridge_refresh) :=
  match bridges with
  | [] => ([], [])
  | br :: bridges =>
      let set_timer t := with_br br (connected br) (theyr_services br) t in
      if connected br && sendrefresh br && (brrefresh <=? lastrefresh_sent br + 1) then
        let refresh := brd_build_refresh_msg (G_bridge_svc_hash v) refresh BRIDGE_REFRESH_MODE_FULL in
        let r := period_loop brrefresh sent v refresh bridges in
        (set_timer (if sent (nodeid br) then 0 else lastrefresh_sent br + 1) :: r.1, (nodeid br, brd_send_update br refresh) :: r.2)
      else
        let r := period_loop brrefresh sent v refresh bridges in
        (set_timer (lastrefresh_sent br + 1) :: r.1, r.2)
  end.

Definition brd_send_periodrefresh (is_clustered sysbuf : bool) (brrefresh : Z) (sent : Z -> bool) (v : view) (bridges : list bridgedef)
  : list bridgedef * list (Z * bridge_refresh) :=
  if negb is_clustered || (brrefresh =? 0) || negb sysbuf then (bridges, []) else period_loop brrefresh sent v empty_msg bridges.

(** ** Receiving *)

Section Receive.

Context (b : poller) (locked : bool).

(** [locked]: the semaphores of the table were obtained. *)
Definition brd_lock_and_update_shm (mem : list shm_svcinfo) (node : Z) (svc : list Z) (count mode : Z) : option (list shm_svcinfo * Z) :=
  if locked then ndrx_shm_install_svc_br b true mem svc 0 true node count mode 0 else Some (mem, EXFAIL).

Definition brd_add_svc_brhash (calloc : bool) (l : svcs) (svc : list Z) (count : Z) : svcs * Z :=
  match brd_get_svc l svc with
  | Some _ => (set_count l svc count, EXSUCCEED)
  | None => if calloc then (l ++ [(ndrx_strcpy_safe (S MAXTIDENT) svc, count)], EXSUCCEED) else (l, EXFAIL)
  end%list.

(** The daemon's own list of what the node offers. *)
Definition brhash_update (calloc : bool) (l : svcs) (x : bridge_refresh_svc) : svcs * Z :=
  match brd_get_svc l (svc_nm x) with
  | Some c =>
      let c := if r_mode x =? BRIDGE_REFRESH_MODE_FULL then r_count x else i32 (c + r_count x) in
      (if c =? 0 then del_svc l (svc_nm x) else set_count l (svc_nm x) c, EXSUCCEED)
  | None => if 0 <? r_count x then brd_add_svc_brhash calloc l (svc_nm x) (r_count x) else (l, EXSUCCEED)
  end.

Fixpoint refresh_loop (calloc : bool) (node : Z) (mem : list shm_svcinfo) (l : svcs) (m : list bridge_refresh_svc) : option (list shm_svcinfo * svcs * Z) :=
  match m with
  | [] => Some (mem, l, EXSUCCEED)
  | x :: m =>
      '(mem, ret) ← brd_lock_and_update_shm mem node (svc_nm x) (r_count x) (r_mode x);
      if negb (ret =? EXSUCCEED) then Some (mem, l, EXFAIL)
      else
        let r := brhash_update calloc l x in
        if negb (r.2 =? EXSUCCEED) then Some (mem, r.1, EXFAIL) else refresh_loop calloc node mem r.1 m
  end.

(** Services of the node that are not in a full message. *)
Fixpoint purge_loop (node : Z) (svcref : svcs) (mem : list shm_svcinfo) (l todo : svcs) : option (list shm_svcinfo * svcs) :=
  match todo with
  | [] => Some (mem, l)
  | (svc, _) :: todo =>
      match brd_get_svc svcref svc with
      | Some _ => purge_loop node svcref mem l todo
      | None =>
          '(mem, _) ← brd_lock_and_update_shm mem node svc 0 BRIDGE_REFRESH_MODE_FULL;
          purge_loop node svcref mem (del_svc l svc) todo
      end
  end.

(** The names of a full message. *)
Definition msg_names (calloc : bool) (m : list bridge_refresh_svc) : svcs :=
  fold_left (fun svcref x => (brd_add_svc_to_hash_g calloc svcref (svc_nm x)).1) m [].

Definition cmd_brrefresh (calloc : bool) (mem : list shm_svcinfo) (br : option bridgedef) (m : bridge_refresh) : option (list shm_svcinfo * option bridgedef * Z) :=
  match br with
  | None => Some (mem, None, EXSUCCEED)
  | Some br =>
      '(mem, l, ret) ← refresh_loop calloc (nodeid br) mem (theyr_services br) (m_svcs m);
      let set_l l := Some (with_br br (connected br) l (lastrefresh_sent br)) in
      if negb (ret =? EXSUCCEED) then Some (mem, set_l l, EXFAIL)
      else if m_mode m =? BRIDGE_REFRESH_MODE_FULL then
        '(mem, l) ← purge_loop (nodeid br) (msg_names calloc (m_svcs m)) mem l l;
        Some (mem, set_l l, EXSUCCEED)
      else Some (mem, set_l l, EXSUCCEED)
  end.

(** The services of a node are taken out of the table, when it is disconnected and
    when its bridge is removed. *)
Fixpoint remove_loop (node : Z) (mem : list shm_svcinfo) (l : svcs) : option (list shm_svcinfo) :=
  match l with
  | [] => Some mem
  | (svc, _) :: l => '(mem, _) ← ndrx_shm_install_svc_br b true mem svc 0 true node 0 BRIDGE_REFRESH_MODE_FULL 0; remove_loop node mem l
  end.

Definition brd_discconnected (mem : list shm_svcinfo) (br : bridgedef) : option (list shm_svcinfo * bridgedef) :=
  if locked then
    mem ← remove_loop (nodeid br) mem (theyr_services br);
    Some (mem, with_br br false [] (lastrefresh_sent br))
  else Some (mem, with_br br false (theyr_services br) (lastrefresh_sent br)).

Definition brd_remove_bridge_services (mem : list shm_svcinfo) (br : bridgedef) : option (list shm_svcinfo * bridgedef) :=
  mem ← (if locked then remove_loop (nodeid br) mem (theyr_services br) else Some mem);
  Some (mem, with_br br (connected br) [] (lastrefresh_sent br)).

End Receive.

(** ** Counts *)

Definition count_of (l : svcs) (svc : list Z) : Z := default 0 (brd_get_svc l svc).

Definition hash_ok (l : svcs) : Prop := NoDup l.*1 /\ Forall (fun x => 0 < x.2 <= NODE_SRVS_MAX /\ (length x.1 <= MAXTIDENT)%nat) l.

Lemma get_svc_elem l svc c : brd_get_svc l svc = Some c -> (svc, c) ∈ l.
Proof. induction l as [|[s d] l IH]; [done|]. cbn [brd_get_svc]. destruct (decide (s = svc)) as [->|]; [intros [= ->]; by left|right; by apply IH]. Qed.

Lemma get_svc_None l svc : brd_get_svc l svc = None <-> (svc ∉ l.*1).
Proof.
  induction l as [|[s d] l IH]; [by split; [intros _ ?%elem_of_nil|]|]. cbn [brd_get_svc]. rewrite fmap_cons, not_elem_of_cons. cbn [fst].
  destruct (decide (s = svc)) as [->|Hne]; [by split; [|intros []]|]. rewrite IH. split; [intros Hs; split; [congruence|done]|by intros []].
Qed.

Lemma get_set_count l svc c c' svc' : brd_get_svc l svc = Some c' -> brd_get_svc (set_count l svc c) svc' = if decide (svc' = svc) then Some c else brd_get_svc l svc'.
Proof.
  induction l as [|[s d] l IH]; [done|]. cbn [brd_get_svc set_count]. destruct (decide (s = svc)) as [->|Hne]; intros Hg; cbn [brd_get_svc].
  - destruct (decide (svc = svc')), (decide (svc' = svc)); congruence.
  - rewrite (IH Hg). destruct (decide (s = svc')) as [->|]; [by rewrite decide_False by done|done].
Qed.

Lemma set_count_keys l svc c : (set_count l svc c).*1 = l.*1.
Proof. induction l as [|[s d] l IH]; [done|]. cbn [set_count]. destruct (decide (s = svc)); [done|]. by rewrite !fmap_cons, IH. Qed.

Lemma get_del_svc l svc svc' : NoDup l.*1 -> brd_get_svc (del_svc l svc) svc' = if decide (svc' = svc) then None else brd_get_svc l svc'.
Proof.
  induction l as [|[s d] l IH]; [by destruct (decide (svc' = svc))|]. rewrite fmap_cons, NoDup_cons. intros [Hn Hnd]. cbn [brd_get_svc del_svc fst] in *. destruct (decide (s = svc)) as [->|Hne].
  - destruct (decide (svc' = svc)) as [->|Hne]; [by apply get_svc_None|]. by rewrite decide_False by congruence.
  - cbn [brd_get_svc]. rewrite (IH Hnd). destruct (decide (s = svc')) as [->|]; [by rewrite decide_False by done|done].
Qed.

Lemma del_svc_sub l svc x : x ∈ del_svc l svc -> x ∈ l.
Proof. induction l as [|[s d] l IH]; [done|]. cbn [del_svc]. destruct (decide (s = svc)); [by right|]. rewrite !elem_of_cons. intros [->|?]; [by left|right; by apply IH]. Qed.

Lemma del_svc_NoDup l svc : NoDup l.*1 -> NoDup (del_svc l svc).*1.
Proof.
  induction l as [|[s d] l IH]; [done|]. rewrite fmap_cons, NoDup_cons. intros [Hn Hnd]. cbn [del_svc]. destruct (decide (s = svc)); [done|].
  rewrite fmap_cons, NoDup_cons. split; [|by apply IH]. intros (x & Hx & Hin)%list_elem_of_fmap. apply Hn. apply list_elem_of_fmap. exists x. split; [done|]. by eapply del_svc_sub.
Qed.

Lemma get_snoc (l : svcs) s c svc : brd_get_svc (l ++ [(s, c)]) svc = match brd_get_svc l svc with Some x => Some x | None => if decide (s = svc) then Some c else None end.
Proof. induction l as [|[s' d] l IH]; [done|]. cbn [brd_get_svc app]. destruct (decide (s' = svc)); [done|apply IH]. Qed.

Lemma count_set l svc c svc' : is_Some (brd_get_svc l svc) -> count_of (set_count l svc c) svc' = if decide (svc' = svc) then c else count_of l svc'.
Proof. intros [c' Hc]. unfold count_of. rewrite (get_set_count l svc c c') by done. by destruct (decide (svc' = svc)). Qed.

Lemma count_del l svc svc' : NoDup l.*1 -> count_of (del_svc l svc) svc' = if decide (svc' = svc) then 0 else count_of l svc'.
Proof. intros Hl. unfold count_of. rewrite get_del_svc by done. by destruct (decide (svc' = svc)). Qed.

Lemma count_snoc l svc c svc' : brd_get_svc l svc = None -> count_of (l ++ [(svc, c)]) svc' = if decide (svc' = svc) then c else count_of l svc'.
Proof.
  intros Hn. unfold count_of. rewrite get_snoc. destruct (decide (svc' = svc)) as [->|Hne]; [by rewrite Hn, decide_True by done|].
  destruct (brd_get_svc l svc'); [done|]. by rewrite decide_False by congruence.
Qed.

Lemma hash_ok_set l svc c : hash_ok l -> 0 < c <= NODE_SRVS_MAX -> hash_ok (set_count l svc c).
Proof.
  intros [Hn Hl] Hc. split; [by rewrite set_count_keys|]. clear Hn. induction Hl as [|[s d] l Hx Hl IH]; [done|]. cbn [set_count].
  destruct (decide (s = svc)); constructor; [split; [done|apply Hx]|done|done|done].
Qed.

Lemma hash_ok_del l svc : hash_ok l -> hash_ok (del_svc l svc).
Proof. intros [Hn Hl]. split; [by apply del_svc_NoDup|]. rewrite Forall_forall in Hl |- *. intros x Hx. apply Hl. by eapply del_svc_sub. Qed.

Lemma hash_ok_snoc l svc c : hash_ok l -> brd_get_svc l svc = None -> 0 < c <= NODE_SRVS_MAX -> (length svc <= MAXTIDENT)%nat -> hash_ok (l ++ [(svc, c)]).
Proof.
  intros [Hn Hl] Hg Hc Hs. split; [rewrite fmap_app; apply (NoDup_snoc _ svc); [done|by apply get_svc_None]|]. apply Forall_app. split; [done|]. by constructor.
Qed.

Lemma count_known l svc : hash_ok l -> brd_get_svc l svc = None /\ count_of l svc = 0 \/ brd_get_svc l svc = Some (count_of l svc) /\ 0 < count_of l svc <= NODE_SRVS_MAX /\ (length svc <= MAXTIDENT)%nat.
Proof.
  intros [_ Hl]. unfold count_of. destruct (brd_get_svc l svc) as [c|] eqn:Hg; [right|by left]. split; [done|]. apply get_svc_elem in Hg. rewrite Forall_forall in Hl. by apply (Hl _ Hg).
Qed.

(** ** The table of services *)

(** How many servers node [i + 1] offers a service with. *)
Definition ncount (A : services) (svc : list Z) (i : nat) : Z := default 0 (e_nodes (entry_of A svc) !! i).

(** Everything but what node [i + 1] offers. *)
Definition same_but (i : nat) (A A' : services) : Prop :=
  forall svc, e_adv (entry_of A' svc) = e_adv (entry_of A svc) /\ forall j, j <> i -> ncount A' svc j = ncount A svc j.

Lemma same_but_refl i A : same_but i A A.
Proof. by split. Qed.

Lemma same_but_trans i A B C : same_but i A B -> same_but i B C -> same_but i A C.
Proof. intros H1 H2 svc. destruct (H1 svc) as [E1 F1], (H2 svc) as [E2 F2]. split; [congruence|]. intros j Hj. rewrite F2, F1 by done. done. Qed.

Lemma entry_nodes b max mem A svc : table_is b max mem A -> length (e_nodes (entry_of A svc)) = CONF_NDRX_NODEID_COUNT /\ Forall in_node (e_nodes (entry_of A svc)).
Proof.
  intros (_ & Hcells & HA). destruct (A !! svc) as [e|] eqn:He; [|unfold entry_of; rewrite He; cbn [default from_option id no_entry e_nodes]; split; [done|by apply Forall_replicate]].
  destruct (HA svc e He) as (_ & _ & i & c & Hi & Hu & Hk). specialize (Hcells i c Hi). rewrite Hu, Hk in Hcells. by destruct Hcells as (_ & _ & _ & ? & ? & _).
Qed.

Lemma ncount_range b max mem A svc i : table_is b max mem A -> in_node (ncount A svc i).
Proof.
  intros HT. destruct (entry_nodes b max mem A svc HT) as [_ Hn]. unfold ncount. destruct (e_nodes (entry_of A svc) !! i) as [n|] eqn:Hi; [|done].
  rewrite Forall_lookup in Hn. by apply (Hn i).
Qed.

(** The new number of servers. *)
Definition new_count (mode count c : Z) : Z := if mode =? BRIDGE_REFRESH_MODE_FULL then count else c + count.

(** A report that does not take back more than there is, and stays in range. *)
Definition fits (mode count c : Z) : Prop := in_node (new_count mode count c).

Lemma put_counts b max mem A svc i count mode : table_is b max mem A -> (i < CONF_NDRX_NODEID_COUNT)%nat -> fits mode count (ncount A svc i) ->
  let A' := put A svc (e_bridge (entry_of A svc) i count mode) in
  same_but i A A' /\ forall svc', ncount A' svc' i = if decide (svc' = svc) then new_count mode count (ncount A svc i) else ncount A svc' i.
Proof.
  intros HT Hi Hf A'. destruct (entry_nodes b max mem A svc HT) as [Hl Hn]. set (e := e_bridge (entry_of A svc) i count mode).
  assert (Hnew : e_nodes e = <[i := new_count mode count (ncount A svc i)]> (e_nodes (entry_of A svc))).
  { unfold e, e_bridge, ncount. cbn [e_nodes]. f_equal. unfold fits, in_node, new_count, ncount in *. destruct (mode =? _); lia. }
  assert (He : e = no_entry \/ offered e = true).
  { destruct (offered e) eqn:Ho; [by right|left]. apply (not_offered b); [apply bridge_ok; by eapply entry_of_ok| | |done].
    - rewrite Hnew. by rewrite length_insert.
    - rewrite Hnew. apply in_nodes_nonneg. by apply Forall_insert. }
  assert (Hent : forall svc', entry_of A' svc' = if decide (svc' = svc) then e else entry_of A svc') by (intros; by apply entry_of_put). split.
  - intros svc'. unfold ncount. rewrite Hent. destruct (decide (svc' = svc)) as [->|]; [|done]. split; [done|]. intros j Hj. by rewrite Hnew, list_lookup_insert_ne.
  - intros svc'. unfold ncount at 1. rewrite Hent. destruct (decide (svc' = svc)) as [->|]; [|done]. rewrite Hnew, list_lookup_insert_eq by lia. done.
Qed.

(** One report, entered or refused. *)
Lemma shm_report b max mem A svc i count mode : table_is b max mem A -> (0 < length mem)%nat -> (length svc <= MAXTIDENT)%nat -> (i < CONF_NDRX_NODEID_COUNT)%nat ->
  fits mode count (ncount A svc i) ->
  exists mem' ret A', ndrx_shm_install_svc_br b true mem svc 0 true (Z.of_nat i + 1) count mode 0 = Some (mem', ret) /\ length mem' = length mem /\ table_is b max mem' A' /\
    same_but i A A' /\
    ((ret = EXFAIL /\ A' = A /\ ncount A svc i = 0) \/
     (ret = EXSUCCEED /\ forall svc', ncount A' svc' i = if decide (svc' = svc) then new_count mode count (ncount A svc i) else ncount A svc' i)).
Proof.
  intros HT Hn Hs Hi Hf. destruct (put_counts b max mem A svc i count mode HT Hi Hf) as [Hsame Hnew].
  destruct (bridge_step b max mem A svc i count mode HT Hn) as (mem' & a & Hr & Hlen & Ha & HT').
  { pose proof (ncount_range b max mem A svc i HT) as Hr. unfold fits, in_node, new_count, ncount, NODE_SRVS_MAX in Hf, Hr.
    destruct (lookup_lt_is_Some_2 (e_nodes (entry_of A svc)) i) as [m Hm]; [rewrite (proj1 (entry_nodes b max mem A svc HT)); done|].
    cbn [op_allowed]. rewrite Hm in Hf, Hr |- *. cbn [default from_option id] in Hf, Hr. unfold reported, NODE_SRVS_MAX, INT_MIN.
    split; [done|]. split; [done|]. destruct (Z.eqb_spec mode BRIDGE_REFRESH_MODE_FULL); (split; [|split; [lia|intros ? [= <-]; lia]]); [left; lia|].
    destruct (Z.leb_spec 0 count); [by left|right]. split; [done|]. intros ? [= <-]. lia. }
  cbn [run_svc_op] in Hr. apply bind_Some_inv in Hr as ([mem1 ret] & Hr & [= <- <-]). cbn [map_op] in *.
  destruct (bool_decide (is_Some (A !! svc) \/ (size A < length mem)%nat)) eqn:Hroom; cbn [fst snd] in *; injection Ha as <-.
  - eexists _, _, _. split; [done|]. split; [done|]. split; [done|]. split; [done|]. by right.
  - eexists _, _, _. split; [done|]. split; [done|]. split; [done|]. split; [apply same_but_refl|]. left. split; [done|]. split; [done|].
    apply bool_decide_eq_false in Hroom. unfold ncount, entry_of. destruct (A !! svc) as [e|]; [destruct Hroom; left; eauto|]. cbn [default from_option id no_entry e_nodes].
    rewrite lookup_replicate_2 by done. done.
Qed.

(** ** Receiving a message *)

(** The daemon's list and the table agree on what node [i + 1] offers. *)
Definition view_ok (i : nat) (A : services) (l : svcs) : Prop := hash_ok l /\ forall svc, count_of l svc = ncount A svc i.

Lemma name_copied svc : (length svc <= MAXTIDENT)%nat -> ndrx_strcpy_safe (S MAXTIDENT) svc = svc.
Proof. apply name_kept. Qed.

Lemma brhash_counts l x : hash_ok l -> (length (svc_nm x) <= MAXTIDENT)%nat -> fits (r_mode x) (r_count x) (count_of l (svc_nm x)) ->
  exists l', brhash_update true l x = (l', EXSUCCEED) /\ hash_ok l' /\
    forall svc, count_of l' svc = if decide (svc = svc_nm x) then new_count (r_mode x) (r_count x) (count_of l (svc_nm x)) else count_of l svc.
Proof.
  intros Hl Hs Hf. unfold brhash_update, brd_add_svc_brhash. set (c := new_count (r_mode x) (r_count x) (count_of l (svc_nm x))).
  destruct (count_known l (svc_nm x) Hl) as [[Hg Hz]|(Hg & Hp & _)]; rewrite Hg.
  - assert (c = r_count x) as Hc by (unfold c, new_count; rewrite Hz; destruct (_ =? _); lia). destruct (Z.ltb_spec 0 (r_count x)).
    + rewrite name_copied by done. eexists. split; [done|]. split; [unfold fits, in_node in Hf; fold c in Hf; apply hash_ok_snoc; [done|done|lia|done]|].
      intros svc. rewrite count_snoc by done. by rewrite Hc.
    + eexists. split; [done|]. split; [done|]. intros svc. destruct (decide (svc = svc_nm x)) as [->|]; [|done]. unfold fits, in_node in Hf. fold c in Hf. lia.
  - assert ((if r_mode x =? BRIDGE_REFRESH_MODE_FULL then r_count x else i32 (count_of l (svc_nm x) + r_count x)) = c) as ->.
    { unfold c, fits, in_node, new_count, NODE_SRVS_MAX in *. destruct (_ =? _); [done|]. apply i32_id; unfold INT_MIN, INT_MAX; lia. }
    unfold fits, in_node in Hf. fold c in Hf. destruct (Z.eqb_spec c 0) as [Hc|Hc].
    + eexists. split; [done|]. split; [by apply hash_ok_del|]. intros svc. rewrite count_del by apply Hl. by rewrite Hc.
    + eexists. split; [done|]. split; [apply hash_ok_set; [done|lia]|]. intros svc. by rewrite count_set by eauto.
Qed.

(** What an element of a message makes of the counts, and what a message does. *)
Definition tell (c : list Z -> Z) (x : bridge_refresh_svc) (svc : list Z) : Z :=
  if decide (svc = svc_nm x) then new_count (r_mode x) (r_count x) (c svc) else c svc.

Fixpoint told (m : list bridge_refresh_svc) (c : list Z -> Z) : list Z -> Z := match m with [] => c | x :: m => told m (tell c x) end.

(** A message in which nothing is taken back that was not offered. *)
Fixpoint msg_ok (m : list bridge_refresh_svc) (c : list Z -> Z) : Prop :=
  match m with
  | [] => True
  | x :: m => (length (svc_nm x) <= MAXTIDENT)%nat /\ fits (r_mode x) (r_count x) (c (svc_nm x)) /\ msg_ok m (tell c x)
  end.

Lemma tell_ext c c' x : (forall svc, c svc = c' svc) -> forall svc, tell c x svc = tell c' x svc.
Proof. intros H svc. unfold tell. by rewrite H. Qed.

Lemma told_ext m : forall c c', (forall svc, c svc = c' svc) -> forall svc, told m c svc = told m c' svc.
Proof. induction m as [|x m IH]; intros c c' H; [done|]. apply IH. by apply tell_ext. Qed.

Lemma msg_ok_ext m : forall c c', (forall svc, c svc = c' svc) -> msg_ok m c -> msg_ok m c'.
Proof. induction m as [|x m IH]; intros c c' H; [done|]. intros (Hs & Hf & Hm). split; [done|]. rewrite <-H. split; [done|]. eapply IH; [|exact Hm]. by apply tell_ext. Qed.

Lemma msg_ok_names m : forall c, msg_ok m c -> Forall (fun x => (length (svc_nm x) <= MAXTIDENT)%nat) m.
Proof. induction m as [|x m IH]; intros c; [done|]. intros (Hs & _ & Hm). constructor; [done|]. by eapply IH. Qed.

(** Names that do not occur keep their count. *)
Lemma told_other m svc : (svc ∉ svc_nm <$> m) -> forall c, told m c svc = c svc.
Proof.
  induction m as [|x m IH]; intros Hn c; [done|]. rewrite fmap_cons, not_elem_of_cons in Hn. destruct Hn as [Hne Hn]. cbn [told]. rewrite IH by done.
  unfold tell. by rewrite decide_False.
Qed.

Section Steps.

Context (b : poller) (max : nat) (i : nat).
Hypothesis Hi : (i < CONF_NDRX_NODEID_COUNT)%nat.

Local Abbreviation node := (Z.of_nat i + 1).

Lemma refresh_loop_spec m : forall mem A l, table_is b max mem A -> (0 < length mem)%nat -> view_ok i A l -> msg_ok m (count_of l) ->
  exists mem' l' ret A', refresh_loop b true true node mem l m = Some (mem', l', ret) /\ length mem' = length mem /\ table_is b max mem' A' /\ same_but i A A' /\ view_ok i A' l' /\
    (ret = EXFAIL \/ ret = EXSUCCEED /\ forall svc, count_of l' svc = told m (count_of l) svc).
Proof.
  induction m as [|x m IH]; intros mem A l HT Hn [Hl Hv] Hm; cbn [refresh_loop].
  { exists mem, l, EXSUCCEED, A. split; [done|]. split; [done|]. split; [done|]. split; [apply same_but_refl|]. split; [done|]. right. done. }
  destruct Hm as (Hs & Hf & Hm). unfold brd_lock_and_update_shm. cbn [negb].
  destruct (shm_report b max mem A (svc_nm x) i (r_count x) (r_mode x) HT Hn Hs Hi) as (mem1 & ret & A1 & -> & Hlen & HT1 & Hsame & Hor); [by rewrite <-Hv|].
  cbn [mbind option_bind]. destruct Hor as [(-> & -> & _)|[-> Hc]]; cbn [Z.eqb EXFAIL EXSUCCEED negb].
  { exists mem1, l, EXFAIL, A. split; [done|]. split; [done|]. split; [done|]. split; [done|]. split; [by split|]. by left. }
  destruct (brhash_counts l x Hl Hs Hf) as (l1 & Hb & Hl1 & Hc1). rewrite Hb. cbn [fst snd Z.eqb negb].
  assert (Htell : forall svc, tell (count_of l) x svc = count_of l1 svc) by (intros svc; rewrite Hc1; unfold tell; by destruct (decide (svc = svc_nm x)) as [->|]).
  destruct (IH mem1 A1 l1 HT1) as (mem2 & l2 & ret & A2 & Hr & Hlen2 & HT2 & Hsame2 & Hv2 & Hor2); [lia| |by eapply msg_ok_ext|].
  - split; [done|]. intros svc. rewrite Hc1, Hc, Hv. destruct (decide (svc = svc_nm x)); [done|apply Hv].
  - rewrite Hr. exists mem2, l2, ret, A2. split; [done|]. split; [lia|]. split; [done|]. split; [by eapply same_but_trans|]. split; [done|].
    destruct Hor2 as [->|[-> Ht]]; [by left|right]. split; [done|]. intros svc. rewrite Ht. cbn [told]. symmetry. by apply told_ext.
Qed.

(** Services taken out one after the other. *)
Lemma report_none mem A l svc : table_is b max mem A -> (0 < length mem)%nat -> view_ok i A l -> is_Some (brd_get_svc l svc) ->
  exists mem' A', ndrx_shm_install_svc_br b true mem svc 0 true node 0 BRIDGE_REFRESH_MODE_FULL 0 = Some (mem', EXSUCCEED) /\ length mem' = length mem /\ table_is b max mem' A' /\
    same_but i A A' /\ view_ok i A' (del_svc l svc).
Proof.
  intros HT Hn [Hl Hv] [c Hg]. destruct (count_known l svc Hl) as [[? _]|(_ & Hp & Hs)]; [congruence|].
  destruct (shm_report b max mem A svc i 0 BRIDGE_REFRESH_MODE_FULL HT Hn Hs Hi) as (mem1 & ret & A1 & Hr & Hlen & HT1 & Hsame & Hor); [done|].
  destruct Hor as [(_ & _ & Hz)|[-> Hc]]; [rewrite <-Hv in Hz; lia|]. exists mem1, A1. split; [done|]. split; [done|]. split; [done|]. split; [done|].
  split; [by apply hash_ok_del|]. intros svc'. rewrite count_del by apply Hl. rewrite Hc. destruct (decide (svc' = svc)); [done|apply Hv].
Qed.

Lemma purge_loop_spec svcref todo : forall mem A l, table_is b max mem A -> (0 < length mem)%nat -> view_ok i A l -> NoDup todo.*1 -> Forall (fun x => is_Some (brd_get_svc l x.1)) todo ->
  exists mem' l' A', purge_loop b true node svcref mem l todo = Some (mem', l') /\ length mem' = length mem /\ table_is b max mem' A' /\ same_but i A A' /\ view_ok i A' l' /\
    forall svc, count_of l' svc = if decide (svc ∈ todo.*1 /\ brd_get_svc svcref svc = None) then 0 else count_of l svc.
Proof.
  induction todo as [|[s d] todo IH]; intros mem A l HT Hn Hv Hnd Hall; cbn [purge_loop].
  { exists mem, l, A. split; [done|]. split; [done|]. split; [done|]. split; [apply same_but_refl|]. split; [done|]. intros svc. rewrite decide_False; [done|]. intros [[]%elem_of_nil _]. }
  rewrite fmap_cons, NoDup_cons in Hnd. destruct Hnd as [Hns Hnd]. apply Forall_cons in Hall as [Hs Hall]. cbn [fst] in *. destruct (brd_get_svc svcref s) as [k|] eqn:Href.
  - destruct (IH mem A l HT Hn Hv Hnd Hall) as (mem' & l' & A' & Hr & Hlen & HT' & Hsame & Hv' & Hc). exists mem', l', A'. split; [done|]. split; [done|]. split; [done|].
    split; [done|]. split; [done|]. intros svc. rewrite Hc. apply decide_ext. rewrite fmap_cons, elem_of_cons. cbn [fst]. split; [intros [? ?]; split; [by right|done]|].
    intros [[->|?] ?]; [congruence|done].
  - unfold brd_lock_and_update_shm. destruct (report_none mem A l s HT Hn Hv Hs) as (mem1 & A1 & -> & Hlen1 & HT1 & Hsame1 & Hv1). cbn [mbind option_bind].
    destruct (IH mem1 A1 (del_svc l s) HT1) as (mem' & l' & A' & Hr & Hlen & HT' & Hsame & Hv' & Hc); [lia|done|done| |].
    { rewrite Forall_forall in Hall |- *. intros x Hx. rewrite get_del_svc by apply Hv. rewrite decide_False; [by apply Hall|]. intros He. apply Hns. rewrite <-He. by apply list_elem_of_fmap_2. }
    exists mem', l', A'. split; [done|]. split; [lia|]. split; [done|]. split; [by eapply same_but_trans|]. split; [done|]. intros svc. rewrite Hc, count_del by apply Hv.
    rewrite fmap_cons. cbn [fst]. destruct (decide (svc = s)) as [->|Hne].
    + rewrite (decide_True (P := s ∈ s :: todo.*1 /\ _)) by (split; [by left|done]). by destruct (decide _).
    + apply decide_ext. rewrite elem_of_cons. split; [intros [? ?]; split; [by right|done]|]. intros [[->|?] ?]; done.
Qed.

End Steps.

(** ** Whole messages *)

Lemma msg_names_None m svc : Forall (fun x => (length (svc_nm x) <= MAXTIDENT)%nat) m -> brd_get_svc (msg_names true m) svc = None <-> (svc ∉ svc_nm <$> m).
Proof.
  intros Hm. unfold msg_names. assert (forall l, brd_get_svc (fold_left (fun svcref x => (brd_add_svc_to_hash_g true svcref (svc_nm x)).1) m l) svc = None <->
    brd_get_svc l svc = None /\ (svc ∉ svc_nm <$> m)) as ->; [|by split; [intros []|]].
  induction Hm as [|x m Hx Hm IH]; intros l; cbn [fold_left]; [split; [intros ?; split; [done|by intros ?%elem_of_nil]|by intros []]|]. rewrite IH.
  rewrite fmap_cons, not_elem_of_cons. unfold brd_add_svc_to_hash_g. destruct (brd_get_svc l (svc_nm x)) as [c|] eqn:Hg; cbn [fst].
  - rewrite (get_set_count l (svc_nm x) (i32 (c + 1)) c) by done. destruct (decide (svc = svc_nm x)) as [->|Hne]; [rewrite Hg; split; intros [? ?]; done|]. tauto.
  - rewrite name_copied by done. rewrite get_snoc. destruct (brd_get_svc l svc) as [d|]; [split; intros [? ?]; done|].
    destruct (decide (svc_nm x = svc)) as [->|Hne]; [split; [intros [? ?]; done|intros (_ & ? & _); done]|]. split; intros [_ ?]; (split; [done|]); [split; [congruence|done]|tauto].
Qed.

(** What a node is believed to offer behind a message. *)
Definition heard (m : bridge_refresh) (c : list Z -> Z) (svc : list Z) : Z :=
  if decide (svc ∈ svc_nm <$> m_svcs m) then told (m_svcs m) c svc
  else if m_mode m =? BRIDGE_REFRESH_MODE_FULL then 0 else c svc.

Section Messages.

Context (b : poller) (max : nat) (i : nat).
Hypothesis Hi : (i < CONF_NDRX_NODEID_COUNT)%nat.

Local Abbreviation node := (Z.of_nat i + 1).

Lemma cmd_brrefresh_spec mem A br m : table_is b max mem A -> (0 < length mem)%nat -> nodeid br = node -> view_ok i A (theyr_services br) ->
  msg_ok (m_svcs m) (count_of (theyr_services br)) ->
  exists mem' l' ret A', cmd_brrefresh b true true mem (Some br) m = Some (mem', Some (with_br br (connected br) l' (lastrefresh_sent br)), ret) /\ length mem' = length mem /\
    table_is b max mem' A' /\ same_but i A A' /\ view_ok i A' l' /\
    (ret = EXFAIL \/ ret = EXSUCCEED /\ forall svc, ncount A' svc i = heard m (fun s => ncount A s i) svc).
Proof.
  intros HT Hn Hnode Hv Hm. unfold cmd_brrefresh. rewrite Hnode.
  destruct (refresh_loop_spec b max i Hi (m_svcs m) mem A _ HT Hn Hv Hm) as (mem1 & l1 & ret & A1 & Hr & Hlen1 & HT1 & Hsame1 & Hv1 & Hor). rewrite Hr. cbn [mbind option_bind].
  destruct Hor as [->|[-> Hc]]; cbn [Z.eqb EXFAIL EXSUCCEED negb].
  { eexists _, _, _, _. split; [done|]. split; [done|]. split; [done|]. split; [done|]. split; [done|]. by left. }
  destruct (m_mode m =? BRIDGE_REFRESH_MODE_FULL) eqn:Hmode.
  - assert (Hall : Forall (fun x => is_Some (brd_get_svc l1 x.1)) l1).
    { apply Forall_forall. intros x Hx. destruct (brd_get_svc l1 x.1) eqn:Hg; [done|]. apply get_svc_None in Hg. destruct Hg. by apply list_elem_of_fmap_2. }
    destruct (purge_loop_spec b max i Hi (msg_names true (m_svcs m)) l1 mem1 A1 l1 HT1) as (mem2 & l2 & A2 & Hp & Hlen2 & HT2 & Hsame2 & Hv2 & Hc2); [lia|done|apply Hv1|done|].
    rewrite Hp. cbn [mbind option_bind]. eexists _, _, _, _. split; [done|]. split; [lia|]. split; [done|]. split; [by eapply same_but_trans|]. split; [done|]. right. split; [done|].
    intros svc. destruct Hv2 as [_ Hv2], Hv as [_ Hv]. rewrite <-Hv2, Hc2, Hc, (told_ext _ _ _ Hv). unfold heard. rewrite Hmode. pose proof (msg_ok_names _ _ Hm) as Hnm.
    destruct (decide (svc ∈ svc_nm <$> m_svcs m)) as [Hin|Hno].
    + rewrite decide_False; [done|]. intros [_ Hno]. by apply msg_names_None in Hno.
    + destruct (decide _) as [_|Hnot]; [done|]. assert (brd_get_svc l1 svc = None) as Hz by (apply get_svc_None; intros Hin; apply Hnot; split; [done|by apply msg_names_None]).
      specialize (Hc svc). unfold count_of in Hc at 1. rewrite Hz, (told_ext _ _ _ Hv) in Hc. by rewrite <-Hc.
  - eexists _, _, _, _. split; [done|]. split; [done|]. split; [done|]. split; [done|]. split; [done|]. right. split; [done|]. intros svc.
    destruct Hv1 as [_ Hv1], Hv as [_ Hv]. rewrite <-Hv1, Hc, (told_ext _ _ _ Hv). unfold heard. rewrite Hmode. destruct (decide _) as [|Hno]; [done|]. by apply told_other.
Qed.

Lemma remove_loop_spec l : forall mem A, table_is b max mem A -> (0 < length mem)%nat -> view_ok i A l ->
  exists mem' A', remove_loop b node mem l = Some mem' /\ length mem' = length mem /\ table_is b max mem' A' /\ same_but i A A' /\ view_ok i A' [].
Proof.
  induction l as [|[s d] l IH]; intros mem A HT Hn Hv; cbn [remove_loop].
  { exists mem, A. split; [done|]. split; [done|]. split; [done|]. split; [apply same_but_refl|]. done. }
  destruct (report_none b max i Hi mem A _ s HT Hn Hv) as (mem1 & A1 & -> & Hlen1 & HT1 & Hsame1 & Hv1); [cbn; rewrite decide_True by done; by eexists|]. cbn [mbind option_bind].
  cbn [del_svc] in Hv1. rewrite decide_True in Hv1 by done. destruct (IH mem1 A1 HT1) as (mem2 & A2 & Hr & Hlen2 & HT2 & Hsame2 & Hv2); [lia|exact Hv1|].
  exists mem2, A2. split; [done|]. split; [lia|]. split; [done|]. split; [by eapply same_but_trans|done].
Qed.

(** When a node is disconnected nothing of it stays. *)
Lemma disconnect_spec mem A br : table_is b max mem A -> (0 < length mem)%nat -> nodeid br = node -> view_ok i A (theyr_services br) ->
  exists mem' A', brd_discconnected b true mem br = Some (mem', with_br br false [] (lastrefresh_sent br)) /\ length mem' = length mem /\ table_is b max mem' A' /\
    same_but i A A' /\ forall svc, ncount A' svc i = 0.
Proof.
  intros HT Hn Hnode Hv. unfold brd_discconnected. rewrite Hnode. destruct (remove_loop_spec _ mem A HT Hn Hv) as (mem' & A' & Hr & Hlen & HT' & Hsame & [_ Hv']).
  rewrite Hr. cbn [mbind option_bind]. exists mem', A'. split; [done|]. split; [done|]. split; [done|]. split; [done|]. intros svc. by rewrite <-Hv'.
Qed.

End Messages.

(** ** Sending *)

(** A change of the local services, [true] for a server that comes. *)
Definition change (v : view) (o : bool * list Z) : view :=
  if o.1 then (brd_add_svc_to_hash true true v o.2).1 else brd_del_svc_from_hash true v o.2.

(** The service is exported when it comes and when it goes or never, only what has
    come goes, and the counts stay in range. *)
Definition change_ok (v : view) (o : bool * list Z) : Prop :=
  (length o.2 <= MAXTIDENT)%nat /\ add_ignored o.2 = del_ignored o.2 /\
  (del_ignored o.2 = false -> if o.1 then count_of (G_bridge_svc_hash v) o.2 < NODE_SRVS_MAX else 0 < count_of (G_bridge_svc_hash v) o.2).

Fixpoint changes_ok (v : view) (os : list (bool * list Z)) : Prop :=
  match os with [] => True | o :: os => change_ok v o /\ changes_ok (change v o) os end.

(** While changes are collected: the differences to the services [h] at the start. *)
Definition collecting (h : svcs) (v : view) : Prop :=
  M_build_diff v = true /\ hash_ok h /\ hash_ok (G_bridge_svc_hash v) /\ NoDup (G_bridge_svc_diff v).*1 /\ Forall (fun x => (length x.1 <= MAXTIDENT)%nat) (G_bridge_svc_diff v) /\
  forall svc, count_of (G_bridge_svc_hash v) svc = count_of h svc + count_of (G_bridge_svc_diff v) svc.

Lemma count_range l svc : hash_ok l -> in_node (count_of l svc).
Proof. intros Hl. unfold in_node, NODE_SRVS_MAX. destruct (count_known l svc Hl) as [[_ ->]|(_ & Hp & _)]; unfold NODE_SRVS_MAX in *; lia. Qed.

(** A count goes up or down by one in a hash that keeps every element. *)
Lemma diff_counts (d : svcs) svc (up : bool) : NoDup d.*1 -> Forall (fun x => (length x.1 <= MAXTIDENT)%nat) d -> (length svc <= MAXTIDENT)%nat ->
  INT_MIN <= count_of d svc + (if up then 1 else -1) <= INT_MAX ->
  let d' := if up then brd_add_svc_to_hash_g true d svc else brd_del_svc_from_hash_g true d svc true in
  d'.2 = EXSUCCEED /\ NoDup d'.1.*1 /\ Forall (fun x => (length x.1 <= MAXTIDENT)%nat) d'.1 /\
  forall svc', count_of d'.1 svc' = if decide (svc' = svc) then count_of d svc + (if up then 1 else -1) else count_of d svc'.
Proof.
  intros Hnd Hd Hs Hrange. assert (Hset : forall c, Forall (fun x => (length x.1 <= MAXTIDENT)%nat) (set_count d svc c)).
  { intros c. clear Hnd Hrange. induction Hd as [|[s k] d Hx Hd IH]; [done|]. cbn [set_count]. destruct (decide (s = svc)); by constructor. }
  assert (Hsnoc : forall c, brd_get_svc d svc = None -> NoDup (d ++ [(svc, c)]).*1 /\ Forall (fun x => (length x.1 <= MAXTIDENT)%nat) (d ++ [(svc, c)])).
  { intros c Hg. split; [rewrite fmap_app; apply (NoDup_snoc _ svc); [done|by apply get_svc_None]|]. apply Forall_app. split; [done|by constructor]. }
  unfold brd_add_svc_to_hash_g, brd_del_svc_from_hash_g. assert (Hc : count_of d svc = default 0 (brd_get_svc d svc)) by done. apply i32_id in Hrange.
  destruct (brd_get_svc d svc) as [c|] eqn:Hg; cbn in Hc; rewrite Hc in Hrange.
  - destruct up; cbn [orb fst snd]; (split; [done|]); rewrite set_count_keys; (split; [done|]); (split; [done|]); intros svc'; rewrite count_set, Hc by eauto; (destruct (decide (svc' = svc)); [exact Hrange|done]).
  - rewrite name_copied by done. destruct up; cbn [fst snd]; (split; [done|]); (split; [by apply Hsnoc|]); (split; [by apply Hsnoc|]); intros svc'; rewrite count_snoc by done; by rewrite Hc.
Qed.

(** The services themselves: an element goes with its last server. *)
Lemma hash_counts h svc (up : bool) : hash_ok h -> (length svc <= MAXTIDENT)%nat -> (if up then count_of h svc < NODE_SRVS_MAX else 0 < count_of h svc) ->
  let h' := (if up then brd_add_svc_to_hash_g true h svc else brd_del_svc_from_hash_g true h svc false).1 in
  hash_ok h' /\ forall svc', count_of h' svc' = if decide (svc' = svc) then count_of h svc + (if up then 1 else -1) else count_of h svc'.
Proof.
  intros Hh Hs Hb. pose proof (count_range h svc Hh) as Hr. unfold in_node, NODE_SRVS_MAX in *. unfold brd_add_svc_to_hash_g, brd_del_svc_from_hash_g.
  destruct (count_known h svc Hh) as [[Hg Hz]|(Hg & Hp & _)]; rewrite Hg; destruct up; cbn [fst orb]; [|lia|rewrite i32_id by (unfold INT_MIN, INT_MAX; lia)..].
  - rewrite name_copied by done. split; [apply hash_ok_snoc; [done|done|unfold NODE_SRVS_MAX; lia|done]|]. intros svc'. rewrite count_snoc by done. by rewrite Hz.
  - split; [apply hash_ok_set; [done|unfold NODE_SRVS_MAX; lia]|]. intros svc'. by rewrite count_set by eauto.
  - destruct (Z.ltb_spec 1 (count_of h svc)).
    + split; [apply hash_ok_set; [done|unfold NODE_SRVS_MAX; lia]|]. intros svc'. by rewrite count_set by eauto.
    + split; [by apply hash_ok_del|]. intros svc'. rewrite count_del by apply Hh. destruct (decide (svc' = svc)); lia.
Qed.

Lemma change_collects h v o : collecting h v -> change_ok v o -> collecting h (change v o).
Proof.
  intros (Hb & Hh0 & Hh & Hnd & Hd & Hc) (Hs & Hig & Hpos). destruct o as [up svc]. cbn [fst snd] in *. unfold change. cbn [fst snd].
  assert (if up then add_ignored svc = del_ignored svc else true = true) as Hsame by (by destruct up).
  destruct (del_ignored svc) eqn:Hdel; [unfold brd_add_svc_to_hash, brd_del_svc_from_hash; rewrite Hig, Hdel; by destruct up|]. specialize (Hpos eq_refl).
  pose proof (count_range h svc Hh0) as Hr0. pose proof (count_range _ svc Hh) as Hr. destruct (hash_counts _ svc up Hh Hs Hpos) as [Hh' Hch].
  destruct (diff_counts (G_bridge_svc_diff v) svc up Hnd Hd Hs) as (Hret & Hnd' & Hd' & Hc').
  { specialize (Hc svc). unfold in_node, NODE_SRVS_MAX, INT_MIN, INT_MAX in *. destruct up; lia. }
  assert (collecting h {| G_bridge_svc_diff := (if up then brd_add_svc_to_hash_g true (G_bridge_svc_diff v) svc else brd_del_svc_from_hash_g true (G_bridge_svc_diff v) svc true).1;
    G_bridge_svc_hash := (if up then brd_add_svc_to_hash_g true (G_bridge_svc_hash v) svc else brd_del_svc_from_hash_g true (G_bridge_svc_hash v) svc false).1;
    M_build_diff := true |}) as Hnew.
  { split; [done|]. split; [done|]. split; [done|]. split; [done|]. split; [done|]. intros svc'. cbn [G_bridge_svc_hash G_bridge_svc_diff]. rewrite Hch, Hc'. specialize (Hc svc').
    destruct (decide (svc' = svc)) as [->|]; [rewrite Hc; destruct up; lia|done]. }
  destruct up; unfold brd_add_svc_to_hash, brd_del_svc_from_hash.
  - rewrite Hig, Hret. cbn [Z.eqb EXSUCCEED fst]. by rewrite Hb.
  - by rewrite Hdel, Hb.
Qed.

Lemma changes_collect h os : forall v, collecting h v -> changes_ok v os -> collecting h (fold_left change os v).
Proof. induction os as [|o os IH]; intros v Hv; [done|]. intros [Ho Hos]. cbn [fold_left]. apply IH; [by apply change_collects|done]. Qed.

(** What is in a message. *)
Lemma send_filter br r : m_svcs (brd_send_update br r) = filter (fun x => svc_exported br (svc_nm x)) (m_svcs r) /\ m_mode (brd_send_update br r) = m_mode r.
Proof.
  unfold brd_send_update. destruct (decide (exportsvcs br = [])) as [He|He]; [|by rewrite bool_decide_eq_false_2 by done].
  destruct (decide (blacklistsvcs br = [])) as [Hb|Hb]; [|rewrite (bool_decide_eq_false_2 (blacklistsvcs br = [])) by done; by rewrite orb_true_r].
  rewrite !bool_decide_eq_true_2 by done. cbn [negb orb]. split; [|done]. induction (m_svcs r) as [|x l IH]; [done|]. rewrite filter_cons_True; [by f_equal|].
  unfold svc_exported. rewrite He, Hb. done.
Qed.

(** A message for a node, put behind what the buffer has. *)
Definition message_on (br : bridgedef) (l : svcs) (r : bridge_refresh) (mode : Z) : bridge_refresh := brd_send_update br (brd_build_refresh_msg l r mode).

Abbreviation message br l mode := (message_on br l empty_msg mode).

(** Elements that say what the hash says, in the given mode. *)
Definition from_hash (l : svcs) (mode : Z) (m : list bridge_refresh_svc) : Prop :=
  Forall (fun x => r_mode x = mode /\ brd_get_svc l (svc_nm x) = Some (r_count x)) m.

Lemma get_svc_in l svc c : NoDup l.*1 -> (svc, c) ∈ l -> brd_get_svc l svc = Some c.
Proof.
  induction l as [|[s d] l IH]; [by intros _ ?%elem_of_nil|]. rewrite fmap_cons, NoDup_cons, elem_of_cons. cbn [fst brd_get_svc]. intros [Hs Hn] [[= -> ->]|Hin].
  - by rewrite decide_True.
  - rewrite decide_False; [by apply IH|]. intros ->. apply Hs. by apply (list_elem_of_fmap_2 fst _ (svc, c)).
Qed.

Lemma build_from l r mode : NoDup l.*1 -> from_hash l mode (m_svcs r) -> from_hash l mode (m_svcs (brd_build_refresh_msg l r mode)).
Proof.
  intros Hn Hr. apply Forall_app. split; [done|]. apply Forall_fmap, Forall_forall. intros [s c] Hin. cbn. split; [done|]. by apply get_svc_in.
Qed.

Lemma message_from br l r mode : NoDup l.*1 -> from_hash l mode (m_svcs r) ->
  from_hash l mode (m_svcs (message_on br l r mode)) /\
  forall svc, svc ∈ svc_nm <$> m_svcs (message_on br l r mode) <-> svc_exported br svc = true /\ is_Some (brd_get_svc l svc).
Proof.
  intros Hn Hr. pose proof (build_from l r mode Hn Hr) as Hb. unfold message_on. rewrite (proj1 (send_filter _ _)). split.
  { unfold from_hash in *. rewrite Forall_forall in Hb |- *. intros x [_ Hx]%list_elem_of_filter. by apply Hb. }
  intros svc. split.
  - intros (x & -> & [He Hx]%list_elem_of_filter)%list_elem_of_fmap. split; [by apply Is_true_true|]. unfold from_hash in Hb. rewrite Forall_forall in Hb. apply Hb in Hx as [_ ->]. by eexists.
  - intros [He [c Hc]]. apply list_elem_of_fmap. exists {| r_mode := mode; svc_nm := svc; r_count := c |}. split; [done|]. apply list_elem_of_filter. split; [by apply Is_true_true|].
    apply elem_of_app. right. apply list_elem_of_fmap. exists (svc, c). split; [done|]. by apply get_svc_elem.
Qed.

Lemma message_NoDup br l mode : NoDup l.*1 -> NoDup (svc_nm <$> m_svcs (message br l mode)).
Proof.
  unfold message_on. rewrite (proj1 (send_filter _ _)). cbn [brd_build_refresh_msg m_svcs empty_msg app]. induction l as [|[s c] l IH]; [done|].
  rewrite !fmap_cons, NoDup_cons, filter_cons. cbn [fst snd svc_nm]. intros [Hs Hn]. destruct (decide _); [|by apply IH]. rewrite fmap_cons, NoDup_cons. split; [|by apply IH].
  intros (x & Hx & [_ (y & -> & Hy)%list_elem_of_fmap]%list_elem_of_filter)%list_elem_of_fmap. cbn in Hx. apply Hs. rewrite Hx. by apply list_elem_of_fmap_2.
Qed.

Lemma from_hash_names l mode m : from_hash l mode m -> Forall (fun x => (length x.1 <= MAXTIDENT)%nat) l -> Forall (fun x => (length (svc_nm x) <= MAXTIDENT)%nat) m.
Proof. intros Hm Hl. eapply Forall_impl; [exact Hm|]. intros x [_ Hg%get_svc_elem]. rewrite Forall_forall in Hl. by apply (Hl _ Hg). Qed.

(** A full message, in which services may be repeated. *)
Lemma full_told h m : from_hash h BRIDGE_REFRESH_MODE_FULL m -> forall c svc, svc ∈ svc_nm <$> m -> told m c svc = count_of h svc.
Proof.
  induction 1 as [|x m [Hmode Hg] _ IH]; intros c svc Hin; [by apply elem_of_nil in Hin|]. cbn [told]. destruct (decide (svc ∈ svc_nm <$> m)) as [Hm|Hm]; [by apply IH|].
  rewrite told_other by done. rewrite fmap_cons, elem_of_cons in Hin. destruct Hin as [->|?]; [|done]. unfold tell, new_count, count_of. rewrite decide_True by done. by rewrite Hmode, Hg.
Qed.

Lemma full_ok h m : hash_ok h -> from_hash h BRIDGE_REFRESH_MODE_FULL m -> forall c, msg_ok m c.
Proof.
  intros Hh. induction 1 as [|x m [Hmode Hg] _ IH]; intros c; [done|]. cbn [msg_ok]. destruct (count_known h (svc_nm x) Hh) as [[? _]|(Hg' & Hp & Hs)]; [congruence|].
  split; [done|]. split; [|apply IH]. unfold fits, new_count, in_node. rewrite Hmode. cbn [Z.eqb BRIDGE_REFRESH_MODE_FULL Pos.eqb]. rewrite Hg in Hg'. injection Hg' as ->. lia.
Qed.

(** A message of differences, in which they are not. *)
Lemma diff_told d m : from_hash d BRIDGE_REFRESH_MODE_DIFF m -> NoDup (svc_nm <$> m) -> forall c svc, svc ∈ svc_nm <$> m -> told m c svc = c svc + count_of d svc.
Proof.
  induction 1 as [|x m [Hmode Hg] _ IH]; intros Hn c svc Hin; [by apply elem_of_nil in Hin|]. rewrite fmap_cons, NoDup_cons in Hn. destruct Hn as [Hx Hn]. cbn [told].
  rewrite fmap_cons, elem_of_cons in Hin. destruct (decide (svc = svc_nm x)) as [->|Hne].
  - rewrite told_other by done. unfold tell, new_count, count_of. rewrite decide_True by done. by rewrite Hmode, Hg.
  - destruct Hin as [?|Hin]; [done|]. rewrite IH by done. unfold tell. by rewrite decide_False.
Qed.

Lemma diff_ok d m : from_hash d BRIDGE_REFRESH_MODE_DIFF m -> NoDup (svc_nm <$> m) -> Forall (fun x => (length x.1 <= MAXTIDENT)%nat) d ->
  forall c, (forall svc, svc ∈ svc_nm <$> m -> in_node (c svc + count_of d svc)) -> msg_ok m c.
Proof.
  intros Hm Hn Hd. pose proof (from_hash_names _ _ _ Hm Hd) as Hs. induction Hm as [|x m [Hmode Hg] _ IH]; intros c Hc; [done|].
  rewrite fmap_cons, NoDup_cons in Hn. destruct Hn as [Hx Hn]. apply Forall_cons in Hs as [Hsx Hs]. cbn [msg_ok]. split; [done|]. split.
  - specialize (Hc (svc_nm x)). unfold count_of in Hc. rewrite Hg in Hc. unfold fits, new_count. rewrite Hmode. apply Hc. rewrite fmap_cons. by left.
  - apply IH; [done|done|]. intros svc Hin. unfold tell. rewrite decide_False by (intros ->; done). apply Hc. rewrite fmap_cons. by right.
Qed.

(** ** Two nodes

    The view [c_view] of one node, what it knows of the other ([c_to]), the table
    of services [c_mem] of the other, which stands for [c_map], and what that node
    knows of the first, whose number is [i + 1] ([c_from]). *)

Record cluster := { c_view : view; c_to : bridgedef; c_mem : list shm_svcinfo; c_map : services; c_from : bridgedef }.

Fixpoint deliver (b : poller) (mem : list shm_svcinfo) (br : bridgedef) (ms : list (Z * bridge_refresh)) : option (list shm_svcinfo * bridgedef * Z) :=
  match ms with
  | [] => Some (mem, br, EXSUCCEED)
  | (_, m) :: ms =>
      r ← cmd_brrefresh b true true mem (Some br) m;
      match r : list shm_svcinfo * option bridgedef * Z with
      | (mem, Some br, ret) => if ret =? EXSUCCEED then deliver b mem br ms else Some (mem, br, ret)
      | _ => None
      end
  end.

(** Changes of the first node between two messages. *)
Definition change_session (v : view) (os : list (bool * list Z)) (bridges : list bridgedef) : view * list (Z * bridge_refresh) :=
  brd_end_diff true true (fold_left change os (brd_begin_diff true v)) bridges.

(** The messages for a node, and bridges to other nodes. *)
Definition for_node (k : Z) (ms : list (Z * bridge_refresh)) : list (Z * bridge_refresh) := filter (fun m => m.1 = k) ms.
Definition others (k : Z) (bridges : list bridgedef) : Prop := Forall (fun br => nodeid br <> k) bridges.

(** What the other node does for itself and for third ones. *)
Definition not_of (i : nat) (o : svc_op) : Prop := match o with Bridge _ j _ _ => j <> i | _ => True end.

Inductive cstep (b : poller) (max i : nat) : cluster -> cluster -> Prop :=
| c_connect v to to' m mem A br mem' A' br' :
    connected to = false -> brd_connected true true v to = (to', Some m) ->
    cmd_brrefresh b true true mem (Some br) m = Some (mem', Some br', EXSUCCEED) -> table_is b max mem' A' -> same_but i A A' ->
    cstep b max i {| c_view := v; c_to := to; c_mem := mem; c_map := A; c_from := br |} {| c_view := v; c_to := to'; c_mem := mem'; c_map := A'; c_from := br' |}
| c_change v v' os ms pre to post mem A br mem' A' br' :
    others (nodeid to) (pre ++ post) -> changes_ok (brd_begin_diff true v) os -> change_session v os (pre ++ to :: post) = (v', ms) ->
    deliver b mem br (for_node (nodeid to) ms) = Some (mem', br', EXSUCCEED) -> table_is b max mem' A' -> same_but i A A' ->
    cstep b max i {| c_view := v; c_to := to; c_mem := mem; c_map := A; c_from := br |} {| c_view := v'; c_to := to; c_mem := mem'; c_map := A'; c_from := br' |}
| c_period brrefresh sent v ms pre to post bridges' to' mem A br mem' A' br' :
    others (nodeid to) (pre ++ post) -> brd_send_periodrefresh true true brrefresh sent v (pre ++ to :: post) = (bridges', ms) -> bridges' !! length pre = Some to' ->
    deliver b mem br (if sent (nodeid to) then for_node (nodeid to) ms else []) = Some (mem', br', EXSUCCEED) -> table_is b max mem' A' -> same_but i A A' ->
    cstep b max i {| c_view := v; c_to := to; c_mem := mem; c_map := A; c_from := br |} {| c_view := v; c_to := to'; c_mem := mem'; c_map := A'; c_from := br' |}
| c_own v to mem A br o mem' a :
    op_allowed A o -> not_of i o -> run_svc_op b mem o = Some (mem', a) ->
    cstep b max i {| c_view := v; c_to := to; c_mem := mem; c_map := A; c_from := br |}
      {| c_view := v; c_to := to; c_mem := mem'; c_map := (map_op b (length mem) max A o).1; c_from := br |}
| c_disconnect v to mem A br mem' A' br' :
    connected to = true -> brd_discconnected b true mem br = Some (mem', br') -> table_is b max mem' A' -> same_but i A A' ->
    cstep b max i {| c_view := v; c_to := to; c_mem := mem; c_map := A; c_from := br |}
      {| c_view := v; c_to := with_br to false (theyr_services to) (lastrefresh_sent to); c_mem := mem'; c_map := A'; c_from := br' |}.

(** At the start nothing is offered and nobody is connected. *)
Definition started (i n max : nat) (c : cluster) : Prop :=
  G_bridge_svc_hash (c_view c) = [] /\ connected (c_to c) = false /\ sendrefresh (c_to c) = true /\ c_mem c = new_svcs n max /\ c_map c = ∅ /\
  nodeid (c_from c) = Z.of_nat i + 1 /\ theyr_services (c_from c) = [].

(** The other node sees what this one offers and lets it see. *)
Definition agrees (i : nat) (c : cluster) : Prop :=
  forall svc, ncount (c_map c) svc i =
    if connected (c_to c) && svc_exported (c_to c) svc then count_of (G_bridge_svc_hash (c_view c)) svc else 0.

Definition cluster_ok (b : poller) (max i : nat) (c : cluster) : Prop :=
  table_is b max (c_mem c) (c_map c) /\ (0 < length (c_mem c))%nat /\ view_ok i (c_map c) (theyr_services (c_from c)) /\ nodeid (c_from c) = Z.of_nat i + 1 /\
  hash_ok (G_bridge_svc_hash (c_view c)) /\ sendrefresh (c_to c) = true /\ agrees i c.

(** The table determines what nodes offer. *)
Lemma ncount_unique b max mem A A' svc i : table_is b max mem A -> table_is b max mem A' -> ncount A svc i = ncount A' svc i.
Proof.
  intros (_ & Hc & HA) (_ & Hc' & HA'). assert (Hboth : forall j c, used_key mem j c svc -> e_nodes (entry_of A svc) = e_nodes (entry_of A' svc)).
  { intros j c (Hj & Hu & Hk). pose proof (Hc j c Hj) as H1. pose proof (Hc' j c Hj) as H2. rewrite Hu, Hk in H1, H2.
    destruct H1 as (_ & _ & <- & _), H2 as (_ & _ & <- & _). done. }
  unfold ncount. destruct (A !! svc) as [e|] eqn:He; [destruct (HA svc e He) as (_ & _ & j & c & Hj); by rewrite (Hboth j c Hj)|].
  destruct (A' !! svc) as [e|] eqn:He'; [destruct (HA' svc e He') as (_ & _ & j & c & Hj); by rewrite (Hboth j c Hj)|]. unfold entry_of. by rewrite He, He'.
Qed.

Lemma view_ok_unique b max mem A A' i l : table_is b max mem A -> table_is b max mem A' -> view_ok i A l -> view_ok i A' l.
Proof. intros H1 H2 [Hl Hv]. split; [done|]. intros svc. rewrite Hv. by eapply ncount_unique. Qed.

(** One message, whatever the table then stands for. *)
Lemma receive b max i mem A br m mem' A' br' : (i < CONF_NDRX_NODEID_COUNT)%nat -> table_is b max mem A -> (0 < length mem)%nat -> nodeid br = Z.of_nat i + 1 ->
  view_ok i A (theyr_services br) -> msg_ok (m_svcs m) (count_of (theyr_services br)) ->
  cmd_brrefresh b true true mem (Some br) m = Some (mem', Some br', EXSUCCEED) -> table_is b max mem' A' ->
  length mem' = length mem /\ view_ok i A' (theyr_services br') /\ nodeid br' = Z.of_nat i + 1 /\ forall svc, ncount A' svc i = heard m (fun s => ncount A s i) svc.
Proof.
  intros Hi HT Hn Hnode Hv Hm Hr HT'. destruct (cmd_brrefresh_spec b max i Hi mem A br m HT Hn Hnode Hv Hm) as (mem1 & l1 & ret & A1 & Hr1 & Hlen & HT1 & _ & Hv1 & Hor).
  rewrite Hr in Hr1. injection Hr1 as -> -> <-. split; [done|]. split; [by apply (view_ok_unique b max mem1 A1)|]. split; [done|].
  destruct Hor as [?|[_ Hc]]; [done|]. intros svc. rewrite <-Hc. symmetry. by eapply ncount_unique.
Qed.

Lemma full_heard br h r c svc : hash_ok h -> from_hash h BRIDGE_REFRESH_MODE_FULL (m_svcs r) ->
  heard (message_on br h r BRIDGE_REFRESH_MODE_FULL) c svc = if svc_exported br svc then count_of h svc else 0.
Proof.
  intros Hh Hr. destruct (message_from br h r _ (proj1 Hh) Hr) as [Hm Hn]. unfold heard. destruct (decide _) as [Hin|Hno].
  - rewrite (full_told h) by done. apply Hn in Hin as [-> _]. done.
  - unfold message_on. rewrite (proj2 (send_filter _ _)). cbn [brd_build_refresh_msg m_mode]. rewrite Z.eqb_refl, Hn in *. unfold count_of.
    destruct (svc_exported br svc); [|done]. destruct (brd_get_svc h svc); [by destruct Hno|done].
Qed.

Lemma diff_heard br d c svc : NoDup d.*1 -> heard (message br d BRIDGE_REFRESH_MODE_DIFF) c svc = if svc_exported br svc then c svc + count_of d svc else c svc.
Proof.
  intros Hd. destruct (message_from br d empty_msg BRIDGE_REFRESH_MODE_DIFF Hd) as [Hm Hn]; [constructor|]. unfold heard. destruct (decide _) as [Hin|Hno].
  - rewrite (diff_told d) by (done || by apply message_NoDup). apply Hn in Hin as [-> _]. done.
  - unfold message_on. rewrite (proj2 (send_filter _ _)). cbn [brd_build_refresh_msg m_mode Z.eqb BRIDGE_REFRESH_MODE_FULL BRIDGE_REFRESH_MODE_DIFF Pos.eqb]. rewrite Hn in Hno. unfold count_of.
    destruct (svc_exported br svc); [|done]. destruct (brd_get_svc d svc); [by destruct Hno|]. cbn. lia.
Qed.

Lemma full_message_ok br h r c : hash_ok h -> from_hash h BRIDGE_REFRESH_MODE_FULL (m_svcs r) -> msg_ok (m_svcs (message_on br h r BRIDGE_REFRESH_MODE_FULL)) c.
Proof. intros Hh Hr. apply (full_ok h); [done|]. apply message_from; [apply Hh|done]. Qed.

Lemma diff_message_ok br h v c : collecting h v -> (forall svc, svc_exported br svc = true -> c svc = count_of h svc) ->
  msg_ok (m_svcs (message br (G_bridge_svc_diff v) BRIDGE_REFRESH_MODE_DIFF)) c.
Proof.
  intros (_ & _ & Hh & Hnd & Hd & Hc) Hch. destruct (message_from br _ empty_msg BRIDGE_REFRESH_MODE_DIFF Hnd) as [Hm Hn]; [constructor|].
  apply (diff_ok (G_bridge_svc_diff v)); [done|by apply message_NoDup|done|]. intros svc [He _]%Hn. rewrite Hch, <-Hc by done. by apply count_range.
Qed.

(** Which messages are for a node. *)
Lemma for_node_app k l1 l2 : for_node k (l1 ++ l2) = (for_node k l1 ++ for_node k l2)%list.
Proof. apply filter_app. Qed.

Lemma for_node_cons k x l : for_node k (x :: l) = if decide (x.1 = k) then x :: for_node k l else for_node k l.
Proof. unfold for_node. by rewrite filter_cons. Qed.

Lemma for_node_others k r bridges : others k bridges ->
  for_node k ((fun br => (nodeid br, brd_send_update br r)) <$> filter (fun br => connected br && sendrefresh br) bridges) = [].
Proof.
  unfold for_node. induction 1 as [|x bridges Hx _ IH]; [done|]. rewrite filter_cons. destruct (decide _); [|done]. rewrite fmap_cons, filter_cons_False by done. done.
Qed.

Lemma for_node_diff r pre to post : others (nodeid to) (pre ++ post) ->
  for_node (nodeid to) ((fun br => (nodeid br, brd_send_update br r)) <$> filter (fun br => connected br && sendrefresh br) (pre ++ to :: post)) =
    if connected to && sendrefresh to then [(nodeid to, brd_send_update to r)] else [].
Proof.
  unfold others. rewrite Forall_app. intros [Hpre Hpost]. rewrite filter_app, fmap_app, for_node_app.
  rewrite (for_node_others _ r pre Hpre), app_nil_l, filter_cons. destruct (connected to && sendrefresh to) eqn:Hc; [rewrite decide_True by done|rewrite decide_False by (intros [])].
  - rewrite fmap_cons, for_node_cons, decide_True by done. by rewrite for_node_others.
  - by apply for_node_others.
Qed.

Lemma period_others brrefresh sent v k bridges : others k bridges -> forall r, for_node k (period_loop brrefresh sent v r bridges).2 = [].
Proof.
  unfold for_node. induction 1 as [|x bridges Hx _ IH]; intros r; [done|]. cbn [period_loop]. destruct (_ && _); cbn [snd]; [|apply IH]. rewrite filter_cons_False by done. apply IH.
Qed.

(** The periodic message of a node says what the hash says, whatever was built
    before it in the buffer. *)
Lemma period_message brrefresh sent v to post : NoDup (G_bridge_svc_hash v).*1 -> forall pre r, others (nodeid to) (pre ++ post) ->
  from_hash (G_bridge_svc_hash v) BRIDGE_REFRESH_MODE_FULL (m_svcs r) ->
  (exists t, (period_loop brrefresh sent v r (pre ++ to :: post)).1 !! length pre = Some (with_br to (connected to) (theyr_services to) t)) /\
  (for_node (nodeid to) (period_loop brrefresh sent v r (pre ++ to :: post)).2 = [] \/
   connected to = true /\ exists r', from_hash (G_bridge_svc_hash v) BRIDGE_REFRESH_MODE_FULL (m_svcs r') /\
     for_node (nodeid to) (period_loop brrefresh sent v r (pre ++ to :: post)).2 = [(nodeid to, message_on to (G_bridge_svc_hash v) r' BRIDGE_REFRESH_MODE_FULL)]).
Proof.
  intros Hnd. induction pre as [|x pre IH]; intros r Ho Hr; cbn [app period_loop].
  - destruct (connected to && sendrefresh to && _) eqn:Hc; cbn [fst snd length lookup list_lookup]; (split; [by eexists|]); [|left; by apply period_others].
    apply andb_true_iff in Hc as [[Hc _]%andb_true_iff _]. right. split; [done|]. exists r. split; [done|]. rewrite for_node_cons, decide_True by done.
    f_equal. by apply period_others.
  - apply Forall_cons in Ho as [Hx Ho]. destruct (_ && _); cbn [fst snd length lookup list_lookup].
    + rewrite for_node_cons, decide_False by done. apply IH; [done|]. by apply build_from.
    + by apply IH.
Qed.

(** The other node's own operations leave the count of the first. *)
Lemma own_counts b max i mem A o : table_is b max mem A -> (0 < length mem)%nat -> (lists_resources b = true -> (0 < max)%nat) -> op_allowed A o -> not_of i o ->
  forall svc, ncount (map_op b (length mem) max A o).1 svc i = ncount A svc i.
Proof.
  intros HT Hn Hmax Ho Hi svc. assert (Hput : forall s e, entry_ok b e -> length (e_nodes e) = CONF_NDRX_NODEID_COUNT -> Forall (fun x => 0 <= x) (e_nodes e) ->
    e_nodes e !! i = e_nodes (entry_of A s) !! i -> ncount (put A s e) svc i = ncount A svc i).
  { intros s e Hok Hl Hnn He. unfold ncount. rewrite entry_of_put; [destruct (decide (svc = s)) as [->|]; [by rewrite He|done]|].
    destruct (offered e) eqn:Hoff; [by right|left; by eapply not_offered]. }
  destruct o as [s r|s r|s j count mode]; cbn [map_op]; destruct (entry_nodes b max mem A s HT) as [Hl Hnn%in_nodes_nonneg]; pose proof (entry_of_ok b max mem A s HT) as Hok.
  - destruct (_ && _); [|done]. apply Hput; [by apply install_ok|done|done|done].
  - cbn [fst]. destruct (bool_decide (is_Some (A !! s))) eqn:Hs; [|done]. apply bool_decide_eq_true in Hs as [e He].
    apply Hput; [|done|done|done]. apply uninstall_ok; [done|]. specialize (Ho e He). unfold entry_of. by rewrite He.
  - destruct (bool_decide _); [|done]. destruct Ho as (_ & Hj & Hall & _). assert (Hok' := bridge_ok b (entry_of A s) j count mode Hok). apply Hput; [done|..].
    + cbn [e_bridge e_nodes]. by rewrite length_insert.
    + cbn [e_bridge e_nodes]. apply Forall_insert; [done|]. destruct (Z.eqb_spec mode BRIDGE_REFRESH_MODE_FULL); [|lia]. destruct Hall as [?|[? _]]; [done|congruence].
    + cbn [e_bridge e_nodes]. by rewrite list_lookup_insert_ne by done.
Qed.

Lemma svc_step b max mem A o : table_is b max mem A -> (0 < length mem)%nat -> (lists_resources b = true -> (0 < max)%nat) -> op_allowed A o -> step_ok b max mem A o.
Proof. intros HT Hn Hmax Ho. destruct o; [by apply install_step|by apply uninstall_step|by apply bridge_step]. Qed.

Section Protocol.

Context (b : poller) (max i : nat).
Hypothesis Hi : (i < CONF_NDRX_NODEID_COUNT)%nat.
Hypothesis Hmax : lists_resources b = true -> (0 < max)%nat.

Lemma connect_ok v to to' m mem A br mem' A' br' : cluster_ok b max i {| c_view := v; c_to := to; c_mem := mem; c_map := A; c_from := br |} ->
  brd_connected true true v to = (to', Some m) -> cmd_brrefresh b true true mem (Some br) m = Some (mem', Some br', EXSUCCEED) -> table_is b max mem' A' ->
  cluster_ok b max i {| c_view := v; c_to := to'; c_mem := mem'; c_map := A'; c_from := br' |}.
Proof.
  intros (HT & Hn & Hv & Hnode & Hh & Hsend & _). unfold cluster_ok, agrees in *. cbn [c_view c_to c_mem c_map c_from] in *. unfold brd_connected. cbn [negb]. rewrite Hsend.
  intros [= <- <-] Hr HT'. fold (message to (G_bridge_svc_hash v) BRIDGE_REFRESH_MODE_FULL) in Hr.
  destruct (receive b max i mem A br _ mem' A' br' Hi HT Hn Hnode Hv (full_message_ok to _ empty_msg _ Hh ltac:(constructor)) Hr HT') as (Hlen & Hv' & Hnode' & Hc).
  split; [done|]. split; [lia|]. split; [done|]. split; [done|]. split; [done|]. split; [done|]. intros svc. rewrite Hc, full_heard by (done || constructor). done.
Qed.

(** Nothing arrives. *)
Lemma nothing_ok v to to' mem A br A' : cluster_ok b max i {| c_view := v; c_to := to; c_mem := mem; c_map := A; c_from := br |} ->
  (exists t, to' = with_br to (connected to) (theyr_services to) t) -> table_is b max mem A' ->
  cluster_ok b max i {| c_view := v; c_to := to'; c_mem := mem; c_map := A'; c_from := br |}.
Proof.
  intros (HT & Hn & Hv & Hnode & Hh & Hsend & Hag) [t ->] HT'. unfold cluster_ok, agrees in *. cbn [c_view c_to c_mem c_map c_from] in *.
  split; [done|]. split; [done|]. split; [exact (view_ok_unique b max mem A A' i _ HT HT' Hv)|]. split; [done|]. split; [done|]. split; [done|].
  intros svc. by rewrite (ncount_unique b max mem A' A), Hag by done.
Qed.

Lemma period_ok brrefresh sent v ms pre to post bridges' to' mem A br mem' A' br' :
  cluster_ok b max i {| c_view := v; c_to := to; c_mem := mem; c_map := A; c_from := br |} -> others (nodeid to) (pre ++ post) ->
  brd_send_periodrefresh true true brrefresh sent v (pre ++ to :: post) = (bridges', ms) -> bridges' !! length pre = Some to' ->
  deliver b mem br (if sent (nodeid to) then for_node (nodeid to) ms else []) = Some (mem', br', EXSUCCEED) -> table_is b max mem' A' ->
  cluster_ok b max i {| c_view := v; c_to := to'; c_mem := mem'; c_map := A'; c_from := br' |}.
Proof.
  intros Hok Ho Hs Hto Hd HT'. assert (Hnone : deliver b mem br [] = Some (mem', br', EXSUCCEED) -> (exists t, to' = with_br to (connected to) (theyr_services to) t) ->
    cluster_ok b max i {| c_view := v; c_to := to'; c_mem := mem'; c_map := A'; c_from := br' |}) by (intros [= <- <-] Ht; by eapply nothing_ok).
  unfold brd_send_periodrefresh in Hs. cbn [negb orb] in Hs. rewrite orb_false_r in Hs. pose proof Hok as (HT & Hn & Hv & Hnode & Hh & Hsend & Hag).
  cbn [c_view c_to c_mem c_map c_from] in *. destruct (brrefresh =? 0).
  { injection Hs as <- <-. rewrite lookup_app_r, Nat.sub_diag in Hto by done. injection Hto as <-. apply Hnone; [by destruct (sent (nodeid to))|]. exists (lastrefresh_sent to). by destruct to. }
  destruct (period_message brrefresh sent v to post (proj1 Hh) pre empty_msg Ho) as [[t Ht] Hm]; [constructor|]. rewrite Hs in Ht, Hm. cbn [fst snd] in Ht, Hm.
  rewrite Hto in Ht. injection Ht as ->. destruct (sent (nodeid to)); [|by apply Hnone; [|eexists]]. destruct Hm as [Hm|(Hcon & r & Hr & Hm)]; rewrite Hm in Hd; [by apply Hnone; [|eexists]|].
  cbn [deliver] in Hd. apply bind_Some_inv in Hd as ([[mem1 [br1|]] ret] & Hrec & Hd); [|done]. destruct (Z.eqb_spec ret EXSUCCEED) as [->|]; [injection Hd as <- <-|congruence].
  destruct (receive b max i mem A br _ mem1 A' br1 Hi HT Hn Hnode Hv (full_message_ok to _ r _ Hh Hr) Hrec HT') as (Hlen & Hv' & Hnode' & Hc).
  unfold cluster_ok, agrees. cbn [c_view c_to c_mem c_map c_from]. split; [done|]. split; [lia|]. split; [done|]. split; [done|]. split; [done|]. split; [done|].
  intros svc. rewrite Hc, full_heard by done. cbn [with_br connected]. by rewrite Hcon.
Qed.

Lemma change_ok_step v v' os ms pre to post mem A br mem' A' br' : cluster_ok b max i {| c_view := v; c_to := to; c_mem := mem; c_map := A; c_from := br |} ->
  others (nodeid to) (pre ++ post) -> changes_ok (brd_begin_diff true v) os -> change_session v os (pre ++ to :: post) = (v', ms) ->
  deliver b mem br (for_node (nodeid to) ms) = Some (mem', br', EXSUCCEED) -> table_is b max mem' A' ->
  cluster_ok b max i {| c_view := v'; c_to := to; c_mem := mem'; c_map := A'; c_from := br' |}.
Proof.
  intros (HT & Hn & Hv & Hnode & Hh & Hsend & Hag). unfold cluster_ok, agrees in *. cbn [c_view c_to c_mem c_map c_from] in *. intros Ho Hos Hs Hd HT'.
  assert (collecting (G_bridge_svc_hash v) (brd_begin_diff true v)) as Hcol
    by (unfold collecting; cbn [brd_begin_diff G_bridge_svc_hash G_bridge_svc_diff M_build_diff]; do 3 (split; [done|]); split; [constructor|]; split; [constructor|];
        intros svc; change (count_of [] svc) with 0; lia).
  apply (changes_collect _ os) in Hcol; [|done]. unfold change_session, brd_end_diff in Hs. cbn [negb orb] in Hs. set (v1 := fold_left change os (brd_begin_diff true v)) in *.
  pose proof Hcol as (_ & _ & Hh1 & Hnd & _ & Hcnt). assert (Hview : G_bridge_svc_hash v' = G_bridge_svc_hash v1) by (by injection Hs as <- _). rewrite Hview.
  assert (Hms : (ms = [] /\ forall svc, count_of (G_bridge_svc_diff v1) svc = 0) \/
    for_node (nodeid to) ms = if connected to then [(nodeid to, message to (G_bridge_svc_diff v1) BRIDGE_REFRESH_MODE_DIFF)] else []).
  { cbn [brd_build_refresh_msg m_svcs empty_msg app] in Hs. rewrite length_fmap in Hs. destruct (Nat.eqb_spec (length (G_bridge_svc_diff v1)) 0) as [Hz|Hz]; injection Hs as _ <-.
    - apply length_zero_iff_nil in Hz. left. split; [done|]. intros svc. by rewrite Hz.
    - right. rewrite for_node_diff by done. by rewrite Hsend, andb_true_r. }
  assert (Hsame : (forall svc, count_of (G_bridge_svc_diff v1) svc = 0) \/ connected to = false -> for_node (nodeid to) ms = [] ->
    cluster_ok b max i {| c_view := v'; c_to := to; c_mem := mem'; c_map := A'; c_from := br' |}).
  { intros Hor Hno. rewrite Hno in Hd. injection Hd as <- <-. unfold cluster_ok, agrees. cbn [c_view c_to c_mem c_map c_from]. rewrite Hview.
    split; [done|]. split; [done|]. split; [exact (view_ok_unique b max mem A A' i _ HT HT' Hv)|]. split; [done|]. split; [done|]. split; [done|]. intros svc.
    rewrite (ncount_unique b max mem A' A), Hag by done. destruct Hor as [Hz| ->]; [|done]. by rewrite Hcnt, Hz, Z.add_0_r. }
  unfold cluster_ok, agrees in Hsame. cbn [c_view c_to c_mem c_map c_from] in Hsame. rewrite Hview in Hsame.
  destruct Hms as [[-> Hz]|Hms]; [by apply Hsame; [left|]|]. destruct (connected to) eqn:Hcon; [|by apply Hsame; [right|]].
  rewrite Hms in Hd. cbn [deliver andb] in Hd, Hag. apply bind_Some_inv in Hd as ([[mem1 [br1|]] ret] & Hr & Hd); [|done].
  destruct (Z.eqb_spec ret EXSUCCEED) as [->|]; [injection Hd as <- <-|congruence].
  assert (Hm : msg_ok (m_svcs (message to (G_bridge_svc_diff v1) BRIDGE_REFRESH_MODE_DIFF)) (count_of (theyr_services br))).
  { apply (diff_message_ok to (G_bridge_svc_hash v)); [done|]. intros svc He. destruct Hv as [_ ->]. by rewrite Hag, He. }
  destruct (receive b max i mem A br _ mem1 A' br1 Hi HT Hn Hnode Hv Hm Hr HT') as (Hlen & Hv' & Hnode' & Hc).
  split; [done|]. split; [lia|]. split; [done|]. split; [done|]. split; [done|]. split; [done|]. intros svc. cbn [andb].
  rewrite Hc, diff_heard, Hag, Hcnt by done. by destruct (svc_exported to svc).
Qed.

Lemma cstep_ok c c' : cstep b max i c c' -> cluster_ok b max i c -> cluster_ok b max i c'.
Proof.
  intros [v to to' m mem A br mem' A' br' _ Hcon Hr HT' _|v v' os ms pre to post mem A br mem' A' br' Ho Hos Hs Hd HT' _
         |rate sent v ms pre to post bs to' mem A br mem' A' br' Ho Hs Hto Hd HT' _|v to mem A br o mem' a Ho Hnot Hr|v to mem A br mem' A' br' _ Hr HT' _] Hok.
  - by eapply connect_ok.
  - by eapply change_ok_step.
  - by eapply period_ok.
  - destruct Hok as (HT & Hn & [Hl Hv] & Hnode & Hh & Hsend & Hag). unfold cluster_ok, agrees in *. cbn [c_view c_to c_mem c_map c_from] in *.
    destruct (svc_step b max mem A o HT Hn Hmax Ho) as (mem1 & a1 & Hr1 & Hlen & _ & HT1). rewrite Hr in Hr1. injection Hr1 as <- <-.
    pose proof (own_counts b max i mem A o HT Hn Hmax Ho Hnot) as Hc. split; [done|]. split; [lia|]. split; [split; [done|]; intros svc; by rewrite Hc|].
    split; [done|]. split; [done|]. split; [done|]. intros svc. by rewrite Hc.
  - destruct Hok as (HT & Hn & Hv & Hnode & Hh & Hsend & Hag). unfold cluster_ok, agrees in *. cbn [c_view c_to c_mem c_map c_from] in *.
    destruct (disconnect_spec b max i Hi mem A br HT Hn Hnode Hv) as (mem1 & A1 & Hr1 & Hlen & HT1 & _ & Hz). rewrite Hr in Hr1. injection Hr1 as -> ->.
    assert (forall svc, ncount A' svc i = 0) as Hz' by (intros svc; rewrite (ncount_unique b max mem1 A' A1) by done; apply Hz).
    split; [done|]. split; [lia|]. split; [split; [split; constructor|]; intros svc; by rewrite Hz'|]. split; [done|]. split; [done|]. split; [done|]. done.
Qed.

Lemma started_ok n c : (0 < n)%nat -> started i n max c -> cluster_ok b max i c.
Proof.
  intros Hn (Hh & Hcon & Hsend & Hmem & Hmap & Hnode & Hth). unfold cluster_ok, agrees. rewrite Hh, Hcon, Hsend, Hmem, Hmap, Hth.
  assert (forall svc, ncount ∅ svc i = 0) as Hz by (intros svc; unfold ncount, entry_of; rewrite lookup_empty; cbn [default from_option id no_entry e_nodes]; by rewrite lookup_replicate_2).
  split; [apply new_svcs_is|]. split; [unfold new_svcs; by rewrite length_replicate|]. split; [split; [split; constructor|]; intros svc; by rewrite Hz|].
  split; [done|]. split; [split; constructor|]. split; [done|]. done.
Qed.

End Protocol.


(** A lost node: after [brd_discconnected] the node offers nothing in the table any
    more, and what local servers and the other nodes offer is as before. *)
Theorem disconnect_clears b max i mem A br : (i < CONF_NDRX_NODEID_COUNT)%nat -> table_is b max mem A -> (0 < length mem)%nat ->
  nodeid br = Z.of_nat i + 1 -> view_ok i A (theyr_services br) ->
  exists mem' A', brd_discconnected b true mem br = Some (mem', with_br br false [] (lastrefresh_sent br)) /\ table_is b max mem' A' /\
    same_but i A A' /\ forall svc, ncount A' svc i = 0.
Proof.
  intros Hi HT Hn Hnode Hv. destruct (disconnect_spec b max i Hi mem A br HT Hn Hnode Hv) as (mem' & A' & Hr & _ & HT' & Hs & Hz). eauto 6.
Qed.

Module ClusterDemo.

Definition svc_a : list Z := codes "A".
Definition recover : list Z := codes "@TPRECOVER".

Definition bridge (node : Z) : bridgedef :=
  {| nodeid := node; connected := false; sendrefresh := true; exportsvcs := []; blacklistsvcs := []; theyr_services := []; lastrefresh_sent := 0 |}.

Definition no_view : view := {| G_bridge_svc_hash := []; G_bridge_svc_diff := []; M_build_diff := false |}.

(** A server of "A" comes before the nodes are connected. *)
Definition start : cluster := {| c_view := no_view; c_to := bridge 2; c_mem := new_svcs 3 2; c_map := ∅; c_from := bridge 1 |}.

Definition view_a : view := {| G_bridge_svc_hash := [(svc_a, 1)]; G_bridge_svc_diff := []; M_build_diff := false |}.

Lemma a_comes : cstep EPOLL 2 0 start {| c_view := view_a; c_to := bridge 2; c_mem := new_svcs 3 2; c_map := ∅; c_from := bridge 1 |}.
Proof.
  apply (c_change EPOLL 2 0 no_view view_a [(true, svc_a)] [] [] (bridge 2) []); [constructor| |reflexivity|reflexivity|apply new_svcs_is|apply same_but_refl].
  split; [|done]. split; [vm_compute; lia|]. split; [done|]. intros _. vm_compute. reflexivity.
Qed.

(** Then they are connected, and some time later a full message is due. *)
Definition full_a (node : Z) : bridge_refresh := message (bridge node) (G_bridge_svc_hash view_a) BRIDGE_REFRESH_MODE_FULL.

Lemma full_a_ok c : msg_ok (m_svcs (full_a 2)) c.
Proof. apply full_message_ok; [|constructor]. split; [apply (NoDup_singleton svc_a)|]. repeat constructor; vm_compute; done. Qed.

Definition heard_twice : option (list shm_svcinfo * bridgedef * Z) := deliver EPOLL (new_svcs 3 2) (bridge 1) [(2, full_a 2); (2, full_a 2)].

Lemma a_connected : exists c, rtc (cstep EPOLL 2 0) start c /\ connected (c_to c) = true /\ c_view c = view_a /\ svc_exported (c_to c) svc_a = true.
Proof.
  assert (Hret : snd <$> heard_twice = Some EXSUCCEED) by (vm_compute; reflexivity). unfold heard_twice in Hret. cbn [deliver] in Hret.
  destruct (cmd_brrefresh_spec EPOLL 2 0 ltac:(vm_compute; lia) (new_svcs 3 2) ∅ (bridge 1) (full_a 2)) as (mem1 & l1 & ret1 & A1 & Hr1 & Hlen1 & HT1 & Hs1 & Hv1 & _);
    [apply new_svcs_is|vm_compute; lia|done|split; [split; [apply NoDup_nil_2|constructor]|intros svc; reflexivity]|apply full_a_ok|].
  rewrite Hr1 in Hret. cbn [mbind option_bind] in Hret. assert (ret1 = EXSUCCEED) as -> by (destruct (Z.eqb_spec ret1 EXSUCCEED); [done|by injection Hret]). rewrite Z.eqb_refl in Hret.
  destruct (cmd_brrefresh_spec EPOLL 2 0 ltac:(vm_compute; lia) mem1 A1 (with_br (bridge 1) false l1 0) (full_a 2)) as (mem2 & l2 & ret2 & A2 & Hr2 & _ & HT2 & Hs2 & _ & _);
    [done|rewrite Hlen1; vm_compute; lia|done|done|apply full_a_ok|].
  change (with_br (bridge 1) (connected (bridge 1)) l1 (lastrefresh_sent (bridge 1))) with (with_br (bridge 1) false l1 0) in Hr1, Hret.
  rewrite Hr2 in Hret. cbn [mbind option_bind] in Hret. assert (ret2 = EXSUCCEED) as -> by (destruct (Z.eqb_spec ret2 EXSUCCEED); [done|by injection Hret]). rewrite Z.eqb_refl in Hret.
  assert (deliver EPOLL mem1 (with_br (bridge 1) false l1 0) [(2, full_a 2)] = Some (mem2, with_br (with_br (bridge 1) false l1 0) false l2 0, EXSUCCEED)) as Hd
    by (cbn [deliver]; rewrite Hr2; reflexivity).
  eexists. split; [eapply rtc_l; [exact a_comes|]; eapply rtc_l; [|eapply rtc_l; [|apply rtc_refl]]|].
  - eapply (c_connect EPOLL 2 0 view_a (bridge 2) _ (full_a 2)); [done|reflexivity|exact Hr1|exact HT1|exact Hs1].
  - eapply (c_period EPOLL 2 0 1 (fun _ => true) view_a _ [] _ []); [constructor|reflexivity|reflexivity|exact Hd|exact HT2|exact Hs2].
  - by repeat split.
Qed.


(** The table of a node that has heard of two servers of "A" on node 1. *)
Definition heard_a : option (list shm_svcinfo * option bridgedef * Z) :=
  cmd_brrefresh EPOLL true true (new_svcs 3 2) (Some (bridge 1))
    {| m_mode := BRIDGE_REFRESH_MODE_FULL; m_svcs := [{| r_mode := BRIDGE_REFRESH_MODE_FULL; svc_nm := svc_a; r_count := 2 |}] |}.

Lemma disconnect_clears_witness : exists mem' A', brd_discconnected EPOLL true (new_svcs 3 2) (bridge 1) = Some (mem', bridge 1) /\
  table_is EPOLL 2 mem' A' /\ forall svc, ncount A' svc 0 = 0.
Proof.
  destruct (disconnect_clears EPOLL 2 0 (new_svcs 3 2) ∅ (bridge 1)) as (mem' & A' & Hr & HT & _ & Hz);
    [vm_compute; lia|apply new_svcs_is|vm_compute; lia|done| |by exists mem', A'].
  split; [split; [apply NoDup_nil_2|constructor]|]. intros svc. reflexivity.
Defined.

Lemma heard_a_offered : (r ← heard_a; Some (ndrx_shm_get_svc_count true (r.1.1 : list shm_svcinfo), r.2)) = Some (1, EXSUCCEED).
Proof. vm_compute. reflexivity. Qed.

(** The recovery service is not counted when it comes, but when it goes: the other
    nodes are told to take away a server they have never heard of, and those where
    the service is not in the table enter it as offered by the cluster. *)
Lemma recover_phantom :
  let v := (brd_add_svc_to_hash true true no_view recover).1 in
  let s := change_session v [(false, recover)] [{| nodeid := 2; connected := true; sendrefresh := true; exportsvcs := []; blacklistsvcs := []; theyr_services := []; lastrefresh_sent := 0 |}] in
  v = no_view /\
  (r ← deliver EPOLL (new_svcs 3 2) (bridge 1) s.2; Some (ndrx_shm_get_svc_count true (r.1.1 : list shm_svcinfo), r.2)) = Some (1, EXSUCCEED).
Proof. vm_compute. repeat split. Qed.

(** The services of the event broker are meant to be left out, but are compared with
    the format of their names. *)
Lemma event_filter_dead : add_ignored (codes "@TPEVSUBS001") = false /\ add_ignored (codes "@TPEVPOST001") = false /\ del_ignored (codes "@TPEVDOPOST001") = false.
Proof. vm_compute. repeat split. Qed.

(** Two nodes that are due for the periodic message: the second one gets every
    service twice. *)
Lemma period_message_grows :
  let br k := {| nodeid := k; connected := true; sendrefresh := true; exportsvcs := []; blacklistsvcs := []; theyr_services := []; lastrefresh_sent := 0 |} in
  (fun x => length (m_svcs x.2)) <$> (brd_send_periodrefresh true true 1 (fun _ => true) view_a [br 2; br 3]).2 = [1%nat; 2%nat].
Proof. vm_compute. reflexivity. Qed.

(** A node takes back more than is known of it: the table stops at zero, the daemon's
    list goes on counting.  When the node then offers the service again it is dropped
    from the list, and stays in the table when the connection is lost. *)
Lemma lost_count_stays :
  let m k := {| m_mode := BRIDGE_REFRESH_MODE_DIFF; m_svcs := [{| r_mode := BRIDGE_REFRESH_MODE_DIFF; svc_nm := svc_a; r_count := k |}] |} in
  (r ← deliver EPOLL (new_svcs 3 2) (bridge 1) [(0, m 1); (0, m (-2)); (0, m 1)];
   d ← brd_discconnected EPOLL true (r.1.1 : list shm_svcinfo) (r.1.2 : bridgedef);
   Some (ndrx_shm_get_svc_count true (d.1 : list shm_svcinfo))) = Some 1.
Proof. vm_compute. reflexivity. Qed.

End ClusterDemo.
