(* ===== verification/RbTree.v ===== *)
(** * The red-black tree

    [libnstd/rbtree.c]: a balanced search tree whose nodes are members of the caller's
    structures, linked by pointers to the children and to the parent.  A missing child
    is the address of one static node, the sentinel; a missing parent is NULL.

    The state is the memory that holds the nodes, with the root of the tree under work
    and the caller's data.  Addresses are integers.  Reading or writing at an address
    where there is no node has no result ([None]).  Loops take as fuel the number of
    nodes in memory and one more, which [RbTreeOk] shows to be enough. *)

From stdpp Require Import gmap.
From S2P Require Import Prelude.

Local Open Scope Z_scope.

(** ** Data *)

Definition NULL : Z := 0.

(** The address of the sentinel. *)
Definition RBTNIL : Z := 1.

Inductive rbt_color := RBTBLACK | RBTRED.

Record ndrx_rbt_node_t := mk_node { n_color : rbt_color; n_left : Z; n_right : Z; n_parent : Z }.

Definition sentinel : ndrx_rbt_node_t := mk_node RBTBLACK RBTNIL RBTNIL NULL.

#[export] Instance rbt_color_eq_dec : EqDecision rbt_color.
Proof. solve_decision. Defined.

#[export] Instance rbt_node_eq_dec : EqDecision ndrx_rbt_node_t.
Proof. solve_decision. Defined.

Definition set_color c n := mk_node c (n_left n) (n_right n) (n_parent n).
Definition set_left p n := mk_node (n_color n) p (n_right n) (n_parent n).
Definition set_right p n := mk_node (n_color n) (n_left n) p (n_parent n).
Definition set_parent p n := mk_node (n_color n) (n_left n) (n_right n) p.

Abbreviation node_mem := (gmap Z ndrx_rbt_node_t).

Section Tree.
Context {D : Type}.

Record ndrx_rbt_tree_t := mk_rbt { rb_root : Z; rb_nodes : node_mem; rb_data : D }.

(** The functions the caller gives when it makes the tree.  The combiner and the
    function that frees an entry may have no result: the queues of the queue server
    abort there.  An entry that was freed is no memory any more. *)
Record rbt_funcs := {
  comparator : D -> Z -> Z -> Z;
  combiner : Z -> Z -> D -> option D;
  freefunc : option (Z -> D -> option D) }.

(** ** Computations on the tree *)

Definition Rb (A : Type) : Type := ndrx_rbt_tree_t -> option (A * ndrx_rbt_tree_t).

#[export] Instance Rb_ret : MRet Rb := fun A a s => Some (a, s).
#[export] Instance Rb_bind : MBind Rb :=
  fun A B f m s => match m s with Some (a, s') => f a s' | None => None end.

Definition undef {A} : Rb A := fun _ => None.

Definition ld {A} (f : ndrx_rbt_node_t -> A) (p : Z) : Rb A :=
  fun s => match rb_nodes s !! p with Some n => Some (f n, s) | None => None end.

Definition st (f : ndrx_rbt_node_t -> ndrx_rbt_node_t) (p : Z) : Rb unit :=
  fun s => match rb_nodes s !! p with
           | Some n => Some (tt, mk_rbt (rb_root s) (<[p := f n]> (rb_nodes s)) (rb_data s))
           | None => None
           end.

Definition get_root : Rb Z := fun s => Some (rb_root s, s).

Definition set_root (p : Z) : Rb unit := fun s => Some (tt, mk_rbt p (rb_nodes s) (rb_data s)).

Definition with_data (f : D -> option D) : Rb unit :=
  fun s => match f (rb_data s) with
           | Some d => Some (tt, mk_rbt (rb_root s) (rb_nodes s) d)
           | None => None
           end.

(** A node whose memory is given back. *)
Definition free_node (p : Z) : Rb unit := fun s => Some (tt, mk_rbt (rb_root s) (delete p (rb_nodes s)) (rb_data s)).

Definition fuel : Rb nat := fun s => Some (S (size (rb_nodes s)), s).

Variable rbt : rbt_funcs.

Definition rbt_compare (a b : Z) : Rb Z := fun s => Some (comparator rbt (rb_data s) a b, s).

(** ** Making a tree *)

(** A new tree over the same memory. *)
Definition ndrx_rbt_init : Rb unit := set_root RBTNIL.

Definition ndrx_rbt_is_empty : Rb bool := r ← get_root; mret (M:=Rb) (RBTNIL =? r).

(** ** Search *)

Fixpoint find_loop (f : nat) (data node : Z) : Rb Z :=
  match f with
  | O => undef
  | S f =>
    if node =? RBTNIL then mret (M:=Rb) NULL
    else
      cmp ← rbt_compare data node;
      if cmp =? 0 then mret (M:=Rb) node
      else if cmp <? 0 then l ← ld n_left node; find_loop f data l
      else r ← ld n_right node; find_loop f data r
  end.

Definition ndrx_rbt_find (data : Z) : Rb Z :=
  f ← fuel; node ← get_root; find_loop f data node.

Fixpoint find_great_loop (f : nat) (data : Z) (equal_match : bool) (node greater : Z) : Rb Z :=
  match f with
  | O => undef
  | S f =>
    if node =? RBTNIL then mret (M:=Rb) greater
    else
      cmp ← rbt_compare data node;
      if equal_match && (cmp =? 0) then mret (M:=Rb) node
      else if cmp <? 0 then l ← ld n_left node; find_great_loop f data equal_match l node
      else r ← ld n_right node; find_great_loop f data equal_match r greater
  end.

Definition ndrx_rbt_find_great (data : Z) (equal_match : bool) : Rb Z :=
  f ← fuel; node ← get_root; find_great_loop f data equal_match node NULL.

Fixpoint find_less_loop (f : nat) (data : Z) (equal_match : bool) (node lesser : Z) : Rb Z :=
  match f with
  | O => undef
  | S f =>
    if node =? RBTNIL then mret (M:=Rb) lesser
    else
      cmp ← rbt_compare data node;
      if equal_match && (cmp =? 0) then mret (M:=Rb) node
      else if 0 <? cmp then r ← ld n_right node; find_less_loop f data equal_match r node
      else l ← ld n_left node; find_less_loop f data equal_match l lesser
  end.

Definition ndrx_rbt_find_less (data : Z) (equal_match : bool) : Rb Z :=
  f ← fuel; node ← get_root; find_less_loop f data equal_match node NULL.

(** The two loops that go down one side: to the last node on it. *)
Fixpoint most_loop (side : ndrx_rbt_node_t -> Z) (f : nat) (node most : Z) : Rb Z :=
  match f with
  | O => undef
  | S f =>
    if node =? RBTNIL then mret (M:=Rb) most
    else n ← ld side node; most_loop side f n node
  end.

Definition ndrx_rbt_leftmost : Rb Z :=
  f ← fuel; r ← get_root;
  leftmost ← most_loop n_left f r r;
  mret (M:=Rb) (if leftmost =? RBTNIL then NULL else leftmost).

Definition ndrx_rbt_rightmost : Rb Z :=
  f ← fuel; r ← get_root;
  rightmost ← most_loop n_right f r r;
  mret (M:=Rb) (if rightmost =? RBTNIL then NULL else rightmost).

(** ** Insertion *)

Definition ndrx_rbt_rotate_left (x : Z) : Rb unit :=
  y ← ld n_right x;
  yl ← ld n_left y;
  st (set_right yl) x;;
  (if yl =? RBTNIL then mret tt else st (set_parent x) yl);;
  xp ← ld n_parent x;
  (if y =? RBTNIL then mret tt else st (set_parent xp) y);;
  (if xp =? NULL then set_root y
   else
     xpl ← ld n_left xp;
     if x =? xpl then st (set_left y) xp else st (set_right y) xp);;
  st (set_left x) y;;
  if x =? RBTNIL then mret tt else st (set_parent y) x.

Definition ndrx_rbt_rotate_right (x : Z) : Rb unit :=
  y ← ld n_left x;
  yr ← ld n_right y;
  st (set_left yr) x;;
  (if yr =? RBTNIL then mret tt else st (set_parent x) yr);;
  xp ← ld n_parent x;
  (if y =? RBTNIL then mret tt else st (set_parent xp) y);;
  (if xp =? NULL then set_root y
   else
     xpr ← ld n_right xp;
     if x =? xpr then st (set_right y) xp else st (set_left y) xp);;
  st (set_right x) y;;
  if x =? RBTNIL then mret tt else st (set_parent y) x.

Definition is_red (c : rbt_color) : bool := match c with RBTRED => true | RBTBLACK => false end.

(** The test of the loop: is there a red parent? *)
Definition insert_fixup_test (x : Z) : Rb bool :=
  r ← get_root;
  if x =? r then mret (M:=Rb) false
  else p ← ld n_parent x; c ← ld n_color p; mret (M:=Rb) (is_red c).

(** The body of the loop, which gives the next [x]. *)
Definition insert_fixup_step (x : Z) : Rb Z :=
  p ← ld n_parent x;
  g ← ld n_parent p;
  gl ← ld n_left g;
  if p =? gl then
    y ← ld n_right g;
    yc ← ld n_color y;
    if is_red yc then
      st (set_color RBTBLACK) p;;
      st (set_color RBTBLACK) y;;
      st (set_color RBTRED) g;;
      mret (M:=Rb) g
    else
      pr ← ld n_right p;
      x ← (if x =? pr then ndrx_rbt_rotate_left p;; mret (M:=Rb) p else mret (M:=Rb) x);
      p ← ld n_parent x;
      st (set_color RBTBLACK) p;;
      g ← ld n_parent p;
      st (set_color RBTRED) g;;
      ndrx_rbt_rotate_right g;;
      mret (M:=Rb) x
  else
    y ← ld n_left g;
    yc ← ld n_color y;
    if is_red yc then
      st (set_color RBTBLACK) p;;
      st (set_color RBTBLACK) y;;
      st (set_color RBTRED) g;;
      mret (M:=Rb) g
    else
      pl ← ld n_left p;
      x ← (if x =? pl then ndrx_rbt_rotate_right p;; mret (M:=Rb) p else mret (M:=Rb) x);
      p ← ld n_parent x;
      st (set_color RBTBLACK) p;;
      g ← ld n_parent p;
      st (set_color RBTRED) g;;
      ndrx_rbt_rotate_left g;;
      mret (M:=Rb) x.

Fixpoint insert_fixup_loop (f : nat) (x : Z) : Rb unit :=
  match f with
  | O => undef
  | S f =>
    go ← insert_fixup_test x;
    if go : bool then x ← insert_fixup_step x; insert_fixup_loop f x else mret tt
  end.

Definition ndrx_rbt_insert_fixup (x : Z) : Rb unit :=
  f ← fuel;
  insert_fixup_loop f x;;
  r ← get_root;
  st (set_color RBTBLACK) r.

(** Where the new node belongs: under a parent, on the side the last comparison says, or
    at the place of a node that compares equal. *)
Inductive place := Under (parent cmp : Z) | Found (node : Z).

Fixpoint insert_find (f : nat) (data current parent cmp : Z) : Rb place :=
  match f with
  | O => undef
  | S f =>
    if current =? RBTNIL then mret (M:=Rb) (Under parent cmp)
    else
      cmp ← rbt_compare data current;
      if cmp =? 0 then mret (M:=Rb) (Found current)
      else
        next ← (if cmp <? 0 then ld n_left current else ld n_right current);
        insert_find f data next current cmp
  end.

(** The fields of the node the caller gives need not be valid: the memory may hold
    anything there. *)
Definition put_node (p : Z) (n : ndrx_rbt_node_t) : Rb unit :=
  fun s => Some (tt, mk_rbt (rb_root s) (<[p := n]> (rb_nodes s)) (rb_data s)).

(** The result is the entry of the tree and whether it is new. *)
Definition ndrx_rbt_insert (data : Z) : Rb (Z * bool) :=
  f ← fuel;
  current ← get_root;
  w ← insert_find f data current NULL 0;
  match w : place with
  | Found node => with_data (combiner rbt node data);; mret (M:=Rb) (node, false)
  | Under parent cmp =>
    put_node data (mk_node RBTRED RBTNIL RBTNIL parent);;
    (if parent =? NULL then set_root data
     else if cmp <? 0 then st (set_left data) parent else st (set_right data) parent);;
    ndrx_rbt_insert_fixup data;;
    mret (M:=Rb) (data, true)
  end.

(** ** Deletion *)

Definition delete_fixup_test (x : Z) : Rb bool :=
  r ← get_root;
  if x =? r then mret (M:=Rb) false
  else c ← ld n_color x; mret (M:=Rb) (negb (is_red c)).

Definition delete_fixup_step (x : Z) : Rb Z :=
  p ← ld n_parent x;
  pl ← ld n_left p;
  if x =? pl then
    w ← ld n_right p;
    wc ← ld n_color w;
    w ← (if is_red wc then
           st (set_color RBTBLACK) w;;
           st (set_color RBTRED) p;;
           ndrx_rbt_rotate_left p;;
           p ← ld n_parent x;
           ld n_right p
         else mret (M:=Rb) w);
    wl ← ld n_left w; wlc ← ld n_color wl;
    wr ← ld n_right w; wrc ← ld n_color wr;
    if negb (is_red wlc) && negb (is_red wrc) then
      st (set_color RBTRED) w;;
      ld n_parent x
    else
      w ← (if negb (is_red wrc) then
             st (set_color RBTBLACK) wl;;
             st (set_color RBTRED) w;;
             ndrx_rbt_rotate_right w;;
             p ← ld n_parent x;
             ld n_right p
           else mret (M:=Rb) w);
      p ← ld n_parent x;
      pc ← ld n_color p;
      st (set_color pc) w;;
      st (set_color RBTBLACK) p;;
      wr ← ld n_right w;
      st (set_color RBTBLACK) wr;;
      ndrx_rbt_rotate_left p;;
      get_root
  else
    w ← ld n_left p;
    wc ← ld n_color w;
    w ← (if is_red wc then
           st (set_color RBTBLACK) w;;
           st (set_color RBTRED) p;;
           ndrx_rbt_rotate_right p;;
           p ← ld n_parent x;
           ld n_left p
         else mret (M:=Rb) w);
    wr ← ld n_right w; wrc ← ld n_color wr;
    wl ← ld n_left w; wlc ← ld n_color wl;
    if negb (is_red wrc) && negb (is_red wlc) then
      st (set_color RBTRED) w;;
      ld n_parent x
    else
      w ← (if negb (is_red wlc) then
             st (set_color RBTBLACK) wr;;
             st (set_color RBTRED) w;;
             ndrx_rbt_rotate_left w;;
             p ← ld n_parent x;
             ld n_left p
           else mret (M:=Rb) w);
      p ← ld n_parent x;
      pc ← ld n_color p;
      st (set_color pc) w;;
      st (set_color RBTBLACK) p;;
      wl ← ld n_left w;
      st (set_color RBTBLACK) wl;;
      ndrx_rbt_rotate_right p;;
      get_root.

Fixpoint delete_fixup_loop (f : nat) (x : Z) : Rb Z :=
  match f with
  | O => undef
  | S f =>
    go ← delete_fixup_test x;
    if go : bool then x ← delete_fixup_step x; delete_fixup_loop f x else mret (M:=Rb) x
  end.

Definition ndrx_rbt_delete_fixup (x : Z) : Rb unit :=
  f ← fuel;
  x ← delete_fixup_loop f x;
  st (set_color RBTBLACK) x.

(** Down one side while there is a child on it. *)
Fixpoint end_loop (side : ndrx_rbt_node_t -> Z) (f : nat) (x : Z) : Rb Z :=
  match f with
  | O => undef
  | S f => n ← ld side x; if n =? RBTNIL then mret (M:=Rb) x else end_loop side f n
  end.

Definition ndrx_rbt_tree_minimum (x : Z) : Rb Z := f ← fuel; end_loop n_left f x.

Definition ndx_rbt_transplant (u v : Z) : Rb unit :=
  up ← ld n_parent u;
  (if up =? NULL then set_root v
   else
     upl ← ld n_left up;
     if u =? upl then st (set_left v) up else st (set_right v) up);;
  up ← ld n_parent u;
  st (set_parent up) v.

Definition ndrx_rbt_delete_node (z : Z) : Rb unit :=
  y_original_color ← ld n_color z;
  zl ← ld n_left z;
  xc ← (if zl =? RBTNIL then
          x ← ld n_right z;
          ndx_rbt_transplant z x;;
          mret (M:=Rb) (x, y_original_color)
        else
          zr ← ld n_right z;
          if zr =? RBTNIL then
            x ← ld n_left z;
            ndx_rbt_transplant z x;;
            mret (M:=Rb) (x, y_original_color)
          else
            y ← ndrx_rbt_tree_minimum zr;
            y_original_color ← ld n_color y;
            x ← ld n_right y;
            yp ← ld n_parent y;
            (if yp =? z then st (set_parent y) x
             else
               ndx_rbt_transplant y x;;
               zr ← ld n_right z;
               st (set_right zr) y;;
               yr ← ld n_right y;
               st (set_parent y) yr);;
            ndx_rbt_transplant z y;;
            zl ← ld n_left z;
            st (set_left zl) y;;
            yl ← ld n_left y;
            st (set_parent y) yl;;
            zc ← ld n_color z;
            st (set_color zc) y;;
            mret (M:=Rb) (x, y_original_color));
  let '(x, c) := xc : Z * rbt_color in
  (if is_red c then mret tt else ndrx_rbt_delete_fixup x);;
  match freefunc rbt with
  | Some free => with_data (free z);; free_node z
  | None => mret tt
  end.

Definition ndrx_rbt_delete (node : Z) : Rb unit := ndrx_rbt_delete_node node.

(** ** Traversal *)

Inductive ndrx_rbt_order_control_t := LeftRightWalk | RightLeftWalk.

Record ndrx_rbt_tree_iterator_t :=
  mk_iter { it_order : ndrx_rbt_order_control_t; last_visited : Z; is_over : bool }.

(** Up from [came_from] until the way up leaves the [side] child.  NULL is past the
    root. *)
Fixpoint up_loop (side : ndrx_rbt_node_t -> Z) (f : nat) (came_from : Z) : Rb Z :=
  match f with
  | O => undef
  | S f =>
    p ← ld n_parent came_from;
    if p =? NULL then mret (M:=Rb) NULL
    else c ← ld side p; if c =? came_from then mret (M:=Rb) p else up_loop side f p
  end.

(** The two iterators are mirror images: [near] is the side visited first. *)
Definition side_iterator (near far : ndrx_rbt_node_t -> Z) (it : ndrx_rbt_tree_iterator_t)
  : Rb (Z * ndrx_rbt_tree_iterator_t) :=
  f ← fuel;
  let at_node p := mret (M:=Rb) (p, mk_iter (it_order it) p (is_over it)) in
  if last_visited it =? NULL then r ← get_root; p ← end_loop near f r; at_node p
  else
    c ← ld far (last_visited it);
    if c =? RBTNIL then
      p ← up_loop near f (last_visited it);
      if p =? NULL then mret (M:=Rb) (NULL, mk_iter (it_order it) NULL true) else at_node p
    else p ← end_loop near f c; at_node p.

Definition rbt_left_right_iterator := side_iterator n_left n_right.
Definition rbt_right_left_iterator := side_iterator n_right n_left.

Definition ndrx_rbt_begin_iterate (ctrl : ndrx_rbt_order_control_t) : Rb ndrx_rbt_tree_iterator_t :=
  r ← get_root; mret (M:=Rb) (mk_iter ctrl NULL (r =? RBTNIL)).

Definition ndrx_rbt_iterate (it : ndrx_rbt_tree_iterator_t) : Rb (Z * ndrx_rbt_tree_iterator_t) :=
  if is_over it then mret (M:=Rb) (NULL, it)
  else match it_order it with
       | LeftRightWalk => rbt_left_right_iterator it
       | RightLeftWalk => rbt_right_left_iterator it
       end.

End Tree.

Arguments ndrx_rbt_tree_t : clear implicits.
Arguments rbt_funcs : clear implicits.
Arguments Rb : clear implicits.
