(* ===== verification/RbShape.v ===== *)
(** * Red-black trees as shapes

    What the nodes of [RbTree] form: a tree whose nodes are addresses with a colour, and
    the way from a place in it up to the root.  The balance rules: a red node has no
    red child, and the paths from a place down to the leaves have the same number of
    black nodes. *)

From stdpp Require Import gmap.
From S2P Require Import Prelude RbTree.

Local Open Scope Z_scope.

(** ** Trees and places *)

Inductive tree := Leaf | Node (c : rbt_color) (l : tree) (p : Z) (r : tree).

Inductive side := L | R.

Definition other (d : side) : side := match d with L => R | R => L end.

(** A node with [a] on side [d] and [b] on the other. *)
Definition mk (d : side) (c : rbt_color) (a : tree) (p : Z) (b : tree) : tree :=
  match d with L => Node c a p b | R => Node c b p a end.

Lemma mk_flip d c a p b : mk (other d) c b p a = mk d c a p b.
Proof. by destruct d. Qed.

(** A step up: the node [fr_addr] has the place below it on side [fr_side] and another
    subtree on the other side. *)
Record frame := Fr { fr_side : side; fr_color : rbt_color; fr_addr : Z; fr_sib : tree }.

Fixpoint fill (k : list frame) (t : tree) : tree :=
  match k with
  | [] => t
  | f :: k => fill k (mk (fr_side f) (fr_color f) t (fr_addr f) (fr_sib f))
  end.

Fixpoint inorder (t : tree) : list Z :=
  match t with Leaf => [] | Node _ l p r => inorder l ++ p :: inorder r end.

Fixpoint before (k : list frame) : list Z :=
  match k with
  | [] => []
  | Fr L _ _ _ :: k => before k
  | Fr R _ p s :: k => before k ++ inorder s ++ [p]
  end.

Fixpoint after (k : list frame) : list Z :=
  match k with
  | [] => []
  | Fr L _ p s :: k => (p :: inorder s) ++ after k
  | Fr R _ _ _ :: k => after k
  end.

Lemma inorder_fill k t : inorder (fill k t) = before k ++ inorder t ++ after k.
Proof.
  revert t. induction k as [|[[] c p s] k IH]; intros t; cbn.
  - by rewrite app_nil_r.
  - rewrite IH. cbn. by rewrite <-!app_assoc.
  - rewrite IH. cbn. by rewrite <-!app_assoc.
Qed.

Lemma fill_app k k' t : fill (k ++ k') t = fill k' (fill k t).
Proof. revert t. induction k as [|f k IH]; intros t; cbn; [done|]. apply IH. Qed.

Lemma before_app k k' : before (k ++ k') = before k' ++ before k.
Proof.
  induction k as [|[[] c p s] k IH]; cbn; [by rewrite app_nil_r|done|]. by rewrite IH, <-!app_assoc.
Qed.

Lemma fr_after_app k k' : after (k ++ k') = after k ++ after k'.
Proof. induction k as [|[[] c p s] k IH]; cbn; [done| |done]. by rewrite IH, <-app_assoc. Qed.

(** The place of a node. *)
Lemma find_place t l1 z l2 :
  inorder t = l1 ++ z :: l2 ->
  exists k c zl zr, t = fill k (Node c zl z zr) /\ before k ++ inorder zl = l1 /\ inorder zr ++ after k = l2.
Proof.
  revert l1 l2. induction t as [|c l IHl p r IHr]; intros l1 l2 E; cbn in E; [by destruct l1|].
  apply app_eq_app in E as (u & [[E1 E2]|[E1 E2]]).
  - destruct u as [|x u]; cbn in E2; simplify_eq.
    + exists [], c, l, r. cbn. rewrite !app_nil_r in *. done.
    + destruct (IHl _ _ E1) as (k & c' & zl & zr & -> & <- & <-).
      exists (k ++ [Fr L c p r]), c', zl, zr. rewrite fill_app, before_app, fr_after_app. cbn.
      by rewrite app_nil_r, <-app_assoc.
  - destruct u as [|x u]; cbn in E2; simplify_eq.
    + exists [], c, l, r. cbn. rewrite !app_nil_r. done.
    + destruct (IHr u l2) as (k & c' & zl & zr & -> & <- & <-); [done|].
      exists (k ++ [Fr R c x l]), c', zl, zr. rewrite fill_app, before_app, fr_after_app. cbn.
      by rewrite app_nil_r, <-!app_assoc.
Qed.

(** Two trees that hold the same addresses in the same order can be exchanged. *)
Lemma inorder_swap k t t' : inorder t = inorder t' -> inorder (fill k t) = inorder (fill k t').
Proof. intros E. by rewrite !inorder_fill, E. Qed.

Lemma inorder_mk d c c' a p b : inorder (mk d c a p b) = inorder (mk d c' a p b).
Proof. by destruct d. Qed.

Lemma inorder_rotate d c c' e e' a x b y z :
  inorder (mk d c a x (mk d c' b y z)) = inorder (mk d e (mk d e' a x b) y z).
Proof. destruct d; cbn; by rewrite <-app_assoc. Qed.

(** ** Balance *)

Definition color_of (t : tree) : rbt_color := match t with Leaf => RBTBLACK | Node c _ _ _ => c end.

Definition blacken (t : tree) : tree :=
  match t with Leaf => Leaf | Node _ l p r => Node RBTBLACK l p r end.

(** [rb t n]: a balanced tree with [n] black nodes on each path. *)
Inductive rb : tree -> nat -> Prop :=
  | rb_leaf : rb Leaf 0
  | rb_red l p r n :
      rb l n -> rb r n -> color_of l = RBTBLACK -> color_of r = RBTBLACK -> rb (Node RBTRED l p r) n
  | rb_black l p r n : rb l n -> rb r n -> rb (Node RBTBLACK l p r) (S n).

(** [kb k c n]: the place takes a balanced tree with [n] black nodes on each path, red
    only if [c] is red.  The root is black. *)
Inductive kb : list frame -> rbt_color -> nat -> Prop :=
  | kb_root n : kb [] RBTBLACK n
  | kb_red d p s k n :
      rb s n -> color_of s = RBTBLACK -> kb k RBTRED n -> kb (Fr d RBTRED p s :: k) RBTBLACK n
  | kb_black d p s k c n : rb s n -> kb k RBTBLACK (S n) -> kb (Fr d RBTBLACK p s :: k) c n.

Lemma rb_mk_red d a p b n :
  rb a n -> rb b n -> color_of a = RBTBLACK -> color_of b = RBTBLACK -> rb (mk d RBTRED a p b) n.
Proof. intros. destruct d; by constructor. Qed.

Lemma rb_mk_black d a p b n : rb a n -> rb b n -> rb (mk d RBTBLACK a p b) (S n).
Proof. intros. destruct d; by constructor. Qed.

Create HintDb rb.
#[export] Hint Constructors rb kb : rb.
#[export] Hint Resolve rb_mk_red rb_mk_black : rb.

Lemma rb_mk_inv d c a p b n :
  rb (mk d c a p b) n ->
  match c with
  | RBTRED => rb a n /\ rb b n /\ color_of a = RBTBLACK /\ color_of b = RBTBLACK
  | RBTBLACK => exists n', n = S n' /\ rb a n' /\ rb b n'
  end.
Proof. intros H. destruct d; inversion H; subst; eauto 10. Qed.

Lemma color_of_mk d c a p b : color_of (mk d c a p b) = c.
Proof. by destruct d. Qed.

Lemma color_cases (t : tree) : color_of t = RBTBLACK \/ color_of t = RBTRED.
Proof. destruct (color_of t); auto. Qed.

(** Two black nodes on each path leave a node at the top, with its parts on either side. *)
Lemma rb_black_node d t n :
  rb t (S n) -> color_of t = RBTBLACK -> exists a p b, t = mk d RBTBLACK a p b /\ rb a n /\ rb b n.
Proof.
  intros H C. inversion H; subst; cbn in C; [done|].
  destruct d; [exists l, p, r | exists r, p, l]; auto.
Qed.

Lemma rb_red_node d t n :
  rb t n -> color_of t = RBTRED ->
  exists a p b, t = mk d RBTRED a p b /\ rb a n /\ rb b n /\ color_of a = RBTBLACK /\ color_of b = RBTBLACK.
Proof.
  intros H C. inversion H; subst; cbn in C; try done.
  destruct d; [exists l, p, r | exists r, p, l]; auto.
Qed.

Lemma rb_blacken t n : rb t n -> exists n', rb (blacken t) n' /\ color_of (blacken t) = RBTBLACK.
Proof. destruct 1; cbn; eauto with rb. Qed.

Lemma kb_black_of k c n : kb k c n -> kb k RBTBLACK n.
Proof. destruct 1; eauto with rb. Qed.

(** A place filled as it asks gives a balanced tree with a black root. *)
Lemma kb_fill k c n t :
  kb k c n -> rb t n -> (color_of t = RBTRED -> c = RBTRED) ->
  exists m, rb (fill k t) m /\ color_of (fill k t) = RBTBLACK.
Proof.
  intros K. revert t. induction K as [n|d p s k n Hs Cs K IH|d p s k c n Hs K IH]; intros t Ht C; cbn.
  - exists n. split; [done|]. destruct (color_cases t) as [E|E]; [done|]. by specialize (C E).
  - destruct (color_cases t) as [E|E]; [|by specialize (C E)].
    apply IH; [auto with rb|]. done.
  - apply IH; [auto with rb|]. by rewrite color_of_mk.
Qed.

(** Every place of a balanced tree with a black root. *)
Lemma rb_split k t m :
  rb (fill k t) m -> color_of (fill k t) = RBTBLACK -> exists n, kb k (color_of t) n /\ rb t n.
Proof.
  revert t m. induction k as [|[d c p s] k IH]; intros t m H C; cbn in *.
  - rewrite C. eauto with rb.
  - destruct (IH _ _ H C) as (n & K & Hn). rewrite color_of_mk in K.
    apply rb_mk_inv in Hn. destruct c.
    + destruct Hn as (n' & -> & Ha & Hb). eauto with rb.
    + destruct Hn as (Ha & Hb & Ca & Cb). rewrite Ca. eauto with rb.
Qed.

(** A tree that is one black node short for its place: black as it is, or complete once
    its top is made black. *)
Definition short (t : tree) (n : nat) : Prop :=
  (color_of t = RBTBLACK /\ rb t n) \/ (color_of t = RBTRED /\ rb (blacken t) (S n)).

(** ** Height *)

Fixpoint height (t : tree) : nat :=
  match t with Leaf => 0 | Node _ l _ r => S (height l `max` height r) end.

Lemma height_inorder t : (height t <= length (inorder t))%nat.
Proof. induction t; cbn; rewrite ?length_app; cbn; lia. Qed.

Lemma rb_height t n : rb t n -> (height t <= 2 * n + if is_red (color_of t) then 1 else 0)%nat.
Proof.
  induction 1 as [|l p r n Hl IHl Hr IHr Cl Cr|l p r n Hl IHl Hr IHr]; cbn; [lia| |].
  - rewrite Cl in IHl. rewrite Cr in IHr. cbn in IHl, IHr. lia.
  - destruct (is_red (color_of l)), (is_red (color_of r)); lia.
Qed.

Lemma rb_size t n : rb t n -> (2 ^ n <= S (length (inorder t)))%nat.
Proof.
  induction 1; cbn; rewrite ?length_app; cbn; lia.
Qed.

(** The height of a balanced tree with a black root is at most twice the logarithm of
    the number of its nodes and one. *)
Lemma rb_log t n :
  rb t n -> color_of t = RBTBLACK -> (height t <= 2 * Nat.log2 (S (length (inorder t))))%nat.
Proof.
  intros H C. pose proof (rb_height _ _ H) as Hh. rewrite C in Hh. cbn in Hh.
  pose proof (rb_size _ _ H) as Hs. apply Nat.log2_le_mono in Hs. rewrite Nat.log2_pow2 in Hs by lia. lia.
Qed.
