(* ===== verification/RbMem.v ===== *)
(** * Red-black trees in memory

    How the nodes in memory form a shape, and what the routines of [libnstd/rbtree.c]
    that relink nodes do to it: recolouring, rotation, transplanting, replacing a node
    by another. *)

From stdpp Require Import gmap.
From S2P Require Import Prelude RbTree RbShape.

Local Open Scope Z_scope.

(** ** Lists of addresses *)

Definition apart (l k : list Z) : Prop := forall x, x ∈ l -> x ∉ k.

Lemma apart_nil_l k : apart [] k <-> True.
Proof. unfold apart. set_solver. Qed.
Lemma apart_nil_r k : apart k [] <-> True.
Proof. unfold apart. set_solver. Qed.
Lemma apart_cons_l x l k : apart (x :: l) k <-> (x ∉ k) /\ apart l k.
Proof. unfold apart. set_solver. Qed.
Lemma apart_cons_r x l k : apart k (x :: l) <-> (x ∉ k) /\ apart k l.
Proof. unfold apart. set_solver. Qed.
Lemma apart_app_l l1 l2 k : apart (l1 ++ l2) k <-> apart l1 k /\ apart l2 k.
Proof. unfold apart. set_solver. Qed.
Lemma apart_app_r l1 l2 k : apart k (l1 ++ l2) <-> apart k l1 /\ apart k l2.
Proof. unfold apart. set_solver. Qed.
Lemma nodup_app (l k : list Z) : NoDup (l ++ k) <-> NoDup l /\ apart l k /\ NoDup k.
Proof. apply NoDup_app. Qed.
Lemma nodup_cons (x : Z) l : NoDup (x :: l) <-> (x ∉ l) /\ NoDup l.
Proof. apply NoDup_cons. Qed.
Lemma notin_app (x : Z) l k : (x ∉ l ++ k) <-> (x ∉ l) /\ (x ∉ k).
Proof. apply not_elem_of_app. Qed.
Lemma notin_cons (x y : Z) l : (x ∉ y :: l) <-> x <> y /\ (x ∉ l).
Proof. apply not_elem_of_cons. Qed.
Lemma notin_nil (x : Z) : (x ∉ []) <-> True.
Proof. set_solver. Qed.
Lemma apart_at l k x : apart l k -> x ∈ l -> x ∉ k.
Proof. intros H. apply H. Qed.
Lemma apart_at' l k x : apart l k -> x ∈ k -> x ∉ l.
Proof. intros H Hk Hl. by apply (H x). Qed.
Lemma in_ne (x y : Z) (l : list Z) : x ∈ l -> (y ∉ l) -> x <> y.
Proof. by intros H Hn ->. Qed.

Create Rewrite HintDb apart.
#[export] Hint Rewrite apart_nil_l apart_nil_r apart_cons_l apart_cons_r apart_app_l apart_app_r nodup_app nodup_cons
  notin_app notin_cons notin_nil : apart.

(** The addresses of a tree are those of nodes, each in one place. *)
Definition addrs_ok (l : list Z) : Prop := NoDup l /\ (NULL ∉ l) /\ (RBTNIL ∉ l).

(** ** The nodes of a shape *)

Definition ptr (t : tree) : Z := match t with Leaf => RBTNIL | Node _ _ p _ => p end.

Definition top (k : list frame) : Z := match k with [] => NULL | f :: _ => fr_addr f end.

(** A node with child [a] on side [d] and [b] on the other. *)
Definition node_on (d : side) (c : rbt_color) (a b par : Z) : ndrx_rbt_node_t :=
  match d with L => mk_node c a b par | R => mk_node c b a par end.

Definition child (d : side) : ndrx_rbt_node_t -> Z := match d with L => n_left | R => n_right end.

Lemma n_parent_on d c a b par : n_parent (node_on d c a b par) = par.
Proof. by destruct d. Qed.

Lemma n_color_on d c a b par : n_color (node_on d c a b par) = c.
Proof. by destruct d. Qed.

Lemma child_on d c a b par : child d (node_on d c a b par) = a.
Proof. by destruct d. Qed.

Lemma child_other d c a b par : child (other d) (node_on d c a b par) = b.
Proof. by destruct d. Qed.

Lemma child_flip d c a b par : child d (node_on (other d) c a b par) = b.
Proof. by destruct d. Qed.

Fixpoint repr (m : node_mem) (t : tree) (par : Z) : Prop :=
  match t with
  | Leaf => True
  | Node c l p r => m !! p = Some (mk_node c (ptr l) (ptr r) par) /\ repr m l p /\ repr m r p
  end.

Fixpoint ctx_repr (m : node_mem) (k : list frame) (hole root : Z) : Prop :=
  match k with
  | [] => hole = root
  | Fr d c p s :: k =>
      m !! p = Some (node_on d c hole (ptr s) (top k)) /\ repr m s p /\ ctx_repr m k p root
  end.

Fixpoint ctx_addrs (k : list frame) : list Z :=
  match k with [] => [] | f :: k => fr_addr f :: inorder (fr_sib f) ++ ctx_addrs k end.

(** Everything a list of distinct addresses says about them. *)
Ltac addrs N :=
  let M := fresh "M" in
  pose proof N as M; unfold addrs_ok in M; cbn [app inorder ctx_addrs fr_addr fr_sib] in M;
  autorewrite with apart in M; destruct_and? M.

Ltac notin H :=
  cbn [app inorder ctx_addrs fr_addr fr_sib] in H; autorewrite with apart in H; destruct_and? H.

Ltac away :=
  cbn [inorder ctx_addrs fr_addr fr_sib]; autorewrite with apart; split_and?; try done;
  lazymatch goal with
  | |- ?p ∉ ?l =>
      match goal with
      | H : apart ?k l, E : p ∈ ?k |- _ => exact (apart_at k l p H E)
      | H : apart l ?k, E : p ∈ ?k |- _ => exact (apart_at' l k p H E)
      end
  | |- ?p <> ?q =>
      match goal with
      | E : p ∈ ?l, H : q ∉ ?l |- _ => exact (in_ne p q l E H)
      | E : q ∈ ?l, H : p ∉ ?l |- _ => exact (not_eq_sym (in_ne q p l E H))
      end
  end.

Lemma addrs_ok_cons x l : addrs_ok (x :: l) <-> (x ∉ l) /\ x <> NULL /\ x <> RBTNIL /\ addrs_ok l.
Proof. unfold addrs_ok. autorewrite with apart. intuition. Qed.

Lemma addrs_ok_app l k : addrs_ok (l ++ k) <-> addrs_ok l /\ addrs_ok k /\ apart l k.
Proof. unfold addrs_ok. autorewrite with apart. intuition. Qed.

Definition nil_ok (m : node_mem) : Prop := exists sp, m !! RBTNIL = Some (mk_node RBTBLACK RBTNIL RBTNIL sp).

Lemma top_in k : k <> [] -> top k ∈ ctx_addrs k.
Proof. destruct k; [done|]. intros _. cbn. by left. Qed.

Lemma ctx_addrs_app k k' : ctx_addrs (k ++ k') = ctx_addrs k ++ ctx_addrs k'.
Proof. induction k as [|f k IH]; cbn; [done|]. by rewrite IH, <-app_assoc. Qed.

Lemma ptr_mk d c a p b : ptr (mk d c a p b) = p.
Proof. by destruct d. Qed.

Lemma repr_mk m d c a p b par :
  repr m (mk d c a p b) par <->
  m !! p = Some (node_on d c (ptr a) (ptr b) par) /\ repr m a p /\ repr m b p.
Proof. destruct d; cbn; tauto. Qed.

Lemma inorder_mk_perm d c a p b : inorder (mk d c a p b) ≡ₚ p :: inorder a ++ inorder b.
Proof. destruct d; cbn; solve_Permutation. Qed.

Lemma fill_perm k t : inorder (fill k t) ≡ₚ inorder t ++ ctx_addrs k.
Proof.
  revert t. induction k as [|[d c p s] k IH]; intros t; cbn; [by rewrite app_nil_r|].
  rewrite IH, inorder_mk_perm. solve_Permutation.
Qed.

Lemma repr_fill m k t root :
  (repr m (fill k t) NULL /\ ptr (fill k t) = root) <-> (repr m t (top k) /\ ctx_repr m k (ptr t) root).
Proof.
  revert t. induction k as [|[d c p s] k IH]; intros t; cbn; [done|].
  rewrite IH, repr_mk, ptr_mk. tauto.
Qed.

(** What is elsewhere in memory does not matter. *)
Lemma repr_other m p n t par : p ∉ inorder t -> repr m t par -> repr (<[p := n]> m) t par.
Proof.
  revert par. induction t as [|c l IHl q r IHr]; intros par Hp H; cbn in *; [done|].
  destruct H as (H1 & H2 & H3). split_and!; [|apply IHl; set_solver|apply IHr; set_solver].
  rewrite lookup_insert_ne by set_solver. done.
Qed.

Lemma ctx_other m p n k h root : p ∉ ctx_addrs k -> ctx_repr m k h root -> ctx_repr (<[p := n]> m) k h root.
Proof.
  revert h. induction k as [|[d c q s] k IH]; intros h Hp H; cbn in *; [done|].
  destruct H as (H1 & H2 & H3). split_and!; [|apply repr_other; set_solver|apply IH; set_solver].
  rewrite lookup_insert_ne by set_solver. done.
Qed.

Lemma repr_agree m m' t par : (forall p, p ∈ inorder t -> m' !! p = m !! p) -> repr m t par -> repr m' t par.
Proof.
  revert par. induction t as [|c l IHl q r IHr]; intros par E H; cbn in *; [done|].
  destruct H as (H1 & H2 & H3). rewrite E by set_solver.
  split_and!; [done|apply IHl; set_solver|apply IHr; set_solver].
Qed.

Lemma ctx_agree m m' k h root :
  (forall p, p ∈ ctx_addrs k -> m' !! p = m !! p) -> ctx_repr m k h root -> ctx_repr m' k h root.
Proof.
  revert h. induction k as [|[d c q s] k IH]; intros h E H; cbn in *; [done|].
  destruct H as (H1 & H2 & H3). rewrite E by set_solver.
  split_and!; [done|eapply repr_agree; [|done]; set_solver|apply IH; set_solver].
Qed.

(** The top of a subtree gets another parent. *)
Lemma repr_reparent m t par par' n :
  t <> Leaf -> NoDup (inorder t) -> repr m t par -> m !! ptr t = Some n ->
  repr (<[ptr t := set_parent par' n]> m) t par'.
Proof.
  intros Hl N H E. destruct t as [|c l p r]; [done|]. cbn in *.
  apply NoDup_app in N as (N1 & N2 & N3). apply NoDup_cons in N3 as [N3 N4].
  destruct H as (H1 & H2 & H3). rewrite H1 in E. injection E as <-.
  rewrite lookup_insert_eq. split_and!; [done|apply repr_other; set_solver|apply repr_other; set_solver].
Qed.

Section Mem.
Context {D : Type}.
Implicit Types s : ndrx_rbt_tree_t D.

(** The tree in memory. *)
Definition tree_at s (t : tree) : Prop :=
  repr (rb_nodes s) t NULL /\ ptr t = rb_root s /\ addrs_ok (inorder t) /\ nil_ok (rb_nodes s).

#[export] Instance addrs_ok_perm : Proper ((≡ₚ) ==> iff) addrs_ok.
Proof. intros l l' E. unfold addrs_ok. by rewrite E. Qed.

(** The tree seen from one of its places. *)
Lemma tree_at_fill s k t :
  tree_at s (fill k t) <->
  repr (rb_nodes s) t (top k) /\ ctx_repr (rb_nodes s) k (ptr t) (rb_root s) /\
  addrs_ok (inorder t ++ ctx_addrs k) /\ nil_ok (rb_nodes s).
Proof.
  unfold tree_at. rewrite fill_perm. pose proof (repr_fill (rb_nodes s) k t (rb_root s)). tauto.
Qed.

(** ** Running *)

Definition runs {A} (m : Rb D A) s (Q : A -> ndrx_rbt_tree_t D -> Prop) : Prop :=
  exists a s', m s = Some (a, s') /\ Q a s'.

Lemma rb_runs_ret {A} (a : A) s Q : Q a s -> runs (mret (M:=Rb D) a) s Q.
Proof. intros. by exists a, s. Qed.

Lemma rb_runs_bind {A B} (m : Rb D A) (f : A -> Rb D B) s Q :
  runs m s (fun a s' => runs (f a) s' Q) -> runs (m ≫= f) s Q.
Proof.
  intros (a & s1 & E1 & b & s2 & E2 & H). exists b, s2. split; [|done].
  unfold mbind, Rb_bind. by rewrite E1.
Qed.

Lemma runs_ld {A} (f : ndrx_rbt_node_t -> A) p n s Q :
  rb_nodes s !! p = Some n -> Q (f n) s -> runs (ld f p) s Q.
Proof. intros E H. exists (f n), s. split; [|done]. unfold ld. by rewrite E. Qed.

Lemma runs_st f p n s Q :
  rb_nodes s !! p = Some n -> Q tt (mk_rbt (rb_root s) (<[p := f n]> (rb_nodes s)) (rb_data s)) ->
  runs (st f p) s Q.
Proof. intros E H. eexists _, _. split; [|done]. unfold st. by rewrite E. Qed.

Lemma runs_get_root s Q : Q (rb_root s) s -> runs get_root s Q.
Proof. intros. by eexists _, _. Qed.

Lemma runs_set_root p s Q : Q tt (mk_rbt p (rb_nodes s) (rb_data s)) -> runs (set_root p) s Q.
Proof. intros. by eexists _, _. Qed.

Lemma runs_fuel s Q : Q (S (size (rb_nodes s))) s -> runs fuel s Q.
Proof. intros. by eexists _, _. Qed.

Lemma rb_runs_mono {A} (m : Rb D A) s (Q Q' : A -> ndrx_rbt_tree_t D -> Prop) :
  runs m s Q -> (forall a s', Q a s' -> Q' a s') -> runs m s Q'.
Proof. intros (a & s' & E & H) HQ. exists a, s'. auto. Qed.

End Mem.

(** Reads and writes at known addresses. *)
Ltac look :=
  cbn [rb_nodes rb_root rb_data];
  repeat first [rewrite lookup_insert_eq | rewrite lookup_insert_ne by done];
  first [reflexivity | eassumption].

Ltac node_simpl :=
  cbn [rb_nodes rb_root rb_data set_color set_left set_right set_parent n_color n_left n_right n_parent
       node_on child is_red negb andb ptr top fr_addr fr_side fr_color fr_sib].

Ltac eqb_known x y :=
  first [ rewrite (proj2 (Z.eqb_eq x y)) by done
        | rewrite (proj2 (Z.eqb_neq x y)) by done ].

Ltac run1 :=
  lazymatch goal with
  | |- runs (mbind _ _) _ _ => apply rb_runs_bind
  | |- runs (mret _) _ _ => apply rb_runs_ret
  | |- runs (ld _ _) _ _ => eapply runs_ld; [look|]
  | |- runs (st _ _) _ _ => eapply runs_st; [look|]
  | |- runs get_root _ _ => apply runs_get_root
  | |- runs (set_root _) _ _ => apply runs_set_root
  | |- runs fuel _ _ => apply runs_fuel
  | |- context [if ?x =? ?y then _ else _] => eqb_known x y
  end; cbv beta iota; node_simpl.

Section Relink.
Context {D : Type}.
Implicit Types s : ndrx_rbt_tree_t D.

(** [s'] has the tree [t'] where [s] has [t], of the same addresses in the same order;
    the rest of the memory is as it was. *)
Definition evolves s (t : tree) s' (t' : tree) : Prop :=
  tree_at s' t' /\ inorder t' = inorder t /\
  (forall p : Z, p ∉ inorder t -> rb_nodes s' !! p = rb_nodes s !! p) /\ rb_data s' = rb_data s.

Definition rotate (d : side) : Z -> Rb D unit :=
  match d with L => ndrx_rbt_rotate_left | R => ndrx_rbt_rotate_right end.

(** The link from above to a place: the root, or the parent's child on the right side. *)
Definition hang (d : side) (u v up : Z) : Rb D unit :=
  if up =? NULL then set_root v
  else w ← ld (child d) up;
       if u =? w then st (match d with L => set_left v | R => set_right v end) up
       else st (match d with L => set_right v | R => set_left v end) up.

Lemma hang_ok d s k u v :
  ctx_repr (rb_nodes s) k u (rb_root s) -> u ∉ ctx_addrs k -> u <> RBTNIL -> addrs_ok (ctx_addrs k) ->
  runs (hang d u v (top k)) s (fun _ s' =>
    ctx_repr (rb_nodes s') k v (rb_root s') /\ rb_data s' = rb_data s /\
    (forall q : Z, (q ∉ ctx_addrs k) -> rb_nodes s' !! q = rb_nodes s !! q)).
Proof.
  intros K Hu Hn N. destruct k as [|[dk ck pk sk] k].
  { unfold hang. node_simpl. repeat run1. cbn in *. auto. }
  cbn in K, Hu. autorewrite with apart in Hu. destruct_and? Hu. addrs N. destruct K as (Ek & Hs & K).
  assert (u <> ptr sk) by (destruct sk; cbn in *; autorewrite with apart in *; tauto).
  unfold hang. node_simpl. rewrite (proj2 (Z.eqb_neq pk NULL)) by done.
  run1. destruct d, dk; repeat run1; (split; [|split; [done|intros q Hq; notin Hq; by rewrite lookup_insert_ne]]);
    (cbn [ctx_repr]; rewrite lookup_insert_eq; split_and!; [done|apply repr_other; away|apply ctx_other; away]).
Qed.

Definition set_child (d : side) : Z -> ndrx_rbt_node_t -> ndrx_rbt_node_t :=
  match d with L => set_left | R => set_right end.

(** The links of a rotation that concern [x], [y] and the place above them. *)
Lemma rotate_links d s k c a x c' b y e :
  rb_nodes s !! x = Some (node_on d c (ptr a) (ptr b) (top k)) ->
  rb_nodes s !! y = Some (node_on d c' (ptr b) (ptr e) (top k)) ->
  repr (rb_nodes s) a x -> repr (rb_nodes s) b x -> repr (rb_nodes s) e y ->
  ctx_repr (rb_nodes s) k x (rb_root s) -> nil_ok (rb_nodes s) ->
  addrs_ok ((x :: inorder a ++ y :: inorder b ++ inorder e) ++ ctx_addrs k) ->
  runs (hang d x y (top k);; st (set_child d x) y;; if x =? RBTNIL then mret tt else st (set_parent y) x) s
    (fun _ s' =>
       tree_at s' (fill k (mk d c' (mk d c a x b) y e)) /\ rb_data s' = rb_data s /\
       (forall p : Z, p <> x -> p <> y -> (p ∉ ctx_addrs k) -> rb_nodes s' !! p = rb_nodes s !! p)).
Proof.
  intros Ex Ey Ha Hb He K Hn N.
  destruct Hn as [sp Hn]. addrs N.
  assert (x <> y) by away.
  assert (x <> NULL /\ y <> NULL /\ x <> RBTNIL /\ y <> RBTNIL) as (? & ? & ? & ?) by away.
  assert ((x ∉ ctx_addrs k) /\ (y ∉ ctx_addrs k) /\ (RBTNIL ∉ ctx_addrs k)) as (? & ? & ?) by away.
  apply rb_runs_bind. eapply rb_runs_mono; [apply hang_ok; [done..|]|].
  { split_and!; [done|away..]. }
  intros [] s1 (K1 & Ed & Fr).
  rewrite <-Fr in Ex, Ey, Hn by done.
  run1. eapply runs_st; [look|]. rewrite (proj2 (Z.eqb_neq x RBTNIL)) by done.
  eapply runs_st; [look|]. cbn [rb_data].
  split; [|split; [done|]].
  2:{ intros p Px Py Pk. cbn [rb_nodes]. rewrite !lookup_insert_ne by done. by apply Fr. }
  apply tree_at_fill. cbn [rb_nodes rb_root]. rewrite repr_mk, repr_mk, !ptr_mk.
  assert (Kept : forall t par, repr (rb_nodes s) t par -> (forall p, p ∈ inorder t -> p ∉ ctx_addrs k) ->
                 x ∉ inorder t -> y ∉ inorder t -> forall n n', repr (<[x := n]> (<[y := n']> (rb_nodes s1))) t par).
  { intros. do 2 (apply repr_other; [done|]). eapply repr_agree; [|done]. eauto. }
  split_and!; try (apply Kept; [done|away..]).
  - rewrite lookup_insert_ne, lookup_insert_eq by done. by destruct d.
  - rewrite lookup_insert_eq. by destruct d.
  - by do 2 (apply ctx_other; [done|]).
  - rewrite !inorder_mk_perm. eapply addrs_ok_perm; [|exact N]. solve_Permutation.
  - exists sp. by rewrite !lookup_insert_ne by done.
Qed.

Lemma rotate_ok d s k c a x c' b y e :
  tree_at s (fill k (mk d c a x (mk d c' b y e))) ->
  runs (rotate d x) s (fun _ s' =>
    evolves s (fill k (mk d c a x (mk d c' b y e))) s' (fill k (mk d c' (mk d c a x b) y e))).
Proof.
  intros H. rewrite tree_at_fill in H.
  destruct H as (H & K & N & Hnil).
  rewrite repr_mk, repr_mk, !ptr_mk in H. destruct H as (Ex & Ha & Ey & Hb & He). rewrite ptr_mk in K.
  rewrite !inorder_mk_perm in N.
  addrs N.
  assert (x <> y) by away.
  assert (x <> NULL /\ y <> NULL /\ x <> RBTNIL /\ y <> RBTNIL) as (? & ? & ? & ?) by away.
  assert (Hk : (x ∉ ctx_addrs k) /\ (y ∉ ctx_addrs k)) by away.
  assert (Out : forall p : Z, p ∉ inorder (fill k (mk d c a x (mk d c' b y e))) ->
           p <> x /\ p <> y /\ (p ∉ inorder b) /\ (p ∉ ctx_addrs k)).
  { intros p Hp. rewrite fill_perm, !inorder_mk_perm in Hp. notin Hp. done. }
  assert (Oth : forall p : Z, p ∈ inorder a \/ p ∈ inorder e \/ p ∈ ctx_addrs k \/ p = RBTNIL ->
           p <> x /\ p <> y /\ (p ∉ inorder b)).
  { intros p [?|[?|[?| ->]]]; away. }
  assert (Fin : forall s1 m1, rb_nodes s1 = m1 -> rb_root s1 = rb_root s -> rb_data s1 = rb_data s ->
    m1 !! x = Some (node_on d c (ptr a) (ptr b) (top k)) ->
    m1 !! y = Some (node_on d c' (ptr b) (ptr e) (top k)) ->
    repr m1 b x ->
    (forall p : Z, p <> x /\ p <> y /\ (p ∉ inorder b) -> m1 !! p = rb_nodes s !! p) ->
    runs (hang d x y (top k);; st (set_child d x) y;; if x =? RBTNIL then mret tt else st (set_parent y) x) s1
      (fun _ s' => evolves s (fill k (mk d c a x (mk d c' b y e))) s' (fill k (mk d c' (mk d c a x b) y e)))).
  { intros s1 ? <- Er Ed Fx Fy Fb Fo. eapply rb_runs_mono; [apply rotate_links|]; try done.
    - eapply repr_agree; [|done]. intros. apply Fo, Oth. auto.
    - eapply repr_agree; [|done]. intros. apply Fo, Oth. auto.
    - rewrite Er. eapply ctx_agree; [|done]. intros. apply Fo, Oth. auto.
    - destruct Hnil as [sp Hnil]. exists sp. rewrite Fo; [done|]. apply Oth. auto.
    - intros [] s' (Ht & Ed' & Fr). split_and!; [done| |intros p Hp|congruence].
      + apply inorder_swap. symmetry. apply inorder_rotate.
      + destruct (Out p Hp) as (? & ? & ? & ?). rewrite Fr, Fo by done. done. }
  clear Out Oth. destruct b as [|cb bl pb br].
  - destruct d; cbn [rotate node_on] in *; unfold ndrx_rbt_rotate_left, ndrx_rbt_rotate_right;
      do 14 run1; (eapply Fin; [reflexivity|done|done|look|look|done|];
      intros p (? & ? & ?); cbn [rb_nodes]; by rewrite !lookup_insert_ne).
  - addrs N. assert (pb <> x /\ pb <> y /\ pb <> RBTNIL) as (? & ? & ?) by away.
    assert (Eb : exists n, rb_nodes s !! pb = Some n) by (destruct Hb; eauto).
    destruct Eb as [n Eb].
    destruct d; cbn [rotate node_on ptr] in *; unfold ndrx_rbt_rotate_left, ndrx_rbt_rotate_right;
      do 14 run1; (eapply Fin; [reflexivity|done|done|look|look| |];
      [ cbn [rb_nodes]; apply repr_other; [away|];
        apply (repr_reparent _ (Node cb bl pb br) y); [done|done|apply repr_other; [away|done]|look]
      | intros p (? & ? & Hp); notin Hp; cbn [rb_nodes]; rewrite !lookup_insert_ne by done; done]).
Qed.

(** ** Reading the tree *)

Lemma at_node d s k c a p b :
  tree_at s (fill k (mk d c a p b)) -> rb_nodes s !! p = Some (node_on d c (ptr a) (ptr b) (top k)).
Proof. intros H. rewrite tree_at_fill, repr_mk in H. tauto. Qed.

Lemma at_addr d s k c a p b : tree_at s (fill k (mk d c a p b)) -> p <> NULL /\ p <> RBTNIL.
Proof.
  intros H. rewrite tree_at_fill, inorder_mk_perm in H. destruct H as (_ & _ & N & _). by addrs N.
Qed.

(** A node and its sibling are different nodes. *)
Lemma at_sibling d s k c c' a p b u q :
  tree_at s (fill (Fr d c q u :: k) (Node c' a p b)) -> p <> ptr u.
Proof.
  intros H. rewrite tree_at_fill in H. destruct H as (_ & _ & N & _).
  destruct u; addrs N; cbn; away.
Qed.

(** The root is where there is nothing above. *)
Lemma at_root s k t : tree_at s (fill k t) -> t <> Leaf -> (ptr t = rb_root s <-> k = []).
Proof.
  intros H Ht. rewrite tree_at_fill in H. destruct H as (_ & K & (N & _ & _) & _).
  split; [|by intros ->]. destruct k as [|f k]; [done|]. intros E. exfalso.
  assert (Hr : forall k h, ctx_repr (rb_nodes s) k h (rb_root s) -> h = rb_root s \/ rb_root s ∈ ctx_addrs k).
  { clear. induction k as [|[d c p u] k IH]; intros h K; cbn in *; [auto|].
    destruct K as (_ & _ & K). right. destruct (IH _ K); set_solver. }
  assert (rb_root s ∈ ctx_addrs (f :: k)).
  { destruct f as [d c p u]. cbn in K. destruct K as (_ & _ & K). destruct (Hr _ _ K); cbn; set_solver. }
  assert (ptr t ∈ inorder t) by (destruct t; cbn; set_solver).
  apply NoDup_app in N as (_ & N & _). apply (N (ptr t)); [done|]. by rewrite E.
Qed.

Lemma at_color s k t :
  tree_at s (fill k t) -> exists n, rb_nodes s !! ptr t = Some n /\ n_color n = color_of t.
Proof.
  intros H. rewrite tree_at_fill in H. destruct H as (H & _ & _ & sp & Hn).
  destruct t as [|c l p r]; cbn in *; [by eexists|]. destruct H as [H _]. by eexists.
Qed.

Lemma evolves_refl s t : tree_at s t -> evolves s t s t.
Proof. by intros. Qed.

Lemma evolves_trans s t s1 t1 s2 t2 : evolves s t s1 t1 -> evolves s1 t1 s2 t2 -> evolves s t s2 t2.
Proof.
  intros (_ & I1 & F1 & D1) (H & I2 & F2 & D2).
  split_and!; [done|congruence| |congruence]. intros p Hp. rewrite F2 by (by rewrite I1). auto.
Qed.

Lemma repr_dom m t par p : repr m t par -> p ∈ inorder t -> p ∈ dom m.
Proof.
  revert par. induction t as [|c l IHl q r IHr]; intros par H Hp; cbn in *; [set_solver|].
  destruct H as (H1 & H2 & H3). rewrite elem_of_app, elem_of_cons in Hp.
  destruct Hp as [Hp|[->|Hp]]; [by eapply IHl|by eapply elem_of_dom_2|by eapply IHr].
Qed.

(** A tree has at most as many nodes as the memory, so the fuel is more than its depth. *)
Lemma at_size s t : tree_at s t -> (length (inorder t) <= size (rb_nodes s))%nat.
Proof.
  intros (H & _ & (N & _) & _). rewrite <-(size_list_to_set (C:=gset Z)) by done. rewrite <-size_dom.
  apply subseteq_size. intros p Hp. rewrite elem_of_list_to_set in Hp. by apply (repr_dom _ t NULL).
Qed.

(** The sentinel is one more. *)
Lemma at_size_nil s t : tree_at s t -> (length (inorder t) < size (rb_nodes s))%nat.
Proof.
  intros H. pose proof H as (Hr & Er & (N & N0 & N1) & sp & Hn).
  enough (length (inorder t) <= size (delete RBTNIL (rb_nodes s)))%nat.
  { rewrite map_size_delete_Some in * by eauto. pose proof (map_size_non_empty_iff (rb_nodes s)).
    destruct (size (rb_nodes s)) eqn:Es; [|lia]. apply map_size_empty_inv in Es. by rewrite Es in Hn. }
  rewrite <-(size_list_to_set (C:=gset Z)) by done. rewrite <-size_dom. apply subseteq_size.
  intros p Hp. rewrite elem_of_list_to_set in Hp. rewrite dom_delete. apply elem_of_difference. split; [|set_solver].
  by apply (repr_dom _ t NULL).
Qed.

Lemma fill_length k t : (length k + length (inorder t) <= length (inorder (fill k t)))%nat.
Proof.
  rewrite fill_perm, length_app. enough (length k <= length (ctx_addrs k))%nat by lia.
  induction k as [|f k IH]; cbn; rewrite ?length_app; lia.
Qed.

Lemma recolor_ok d s k c c' a p b :
  tree_at s (fill k (mk d c a p b)) ->
  runs (st (set_color c') p) s (fun _ s' => evolves s (fill k (mk d c a p b)) s' (fill k (mk d c' a p b))).
Proof.
  intros H. eapply runs_st; [by apply at_node in H|]. assert (H' := H). rewrite tree_at_fill in H.
  destruct H as (H & K & N & sp & Hn). rewrite repr_mk, ptr_mk in *.
  assert (N' := N). rewrite inorder_mk_perm in N'. addrs N'. destruct H as (Ep & Ha & Hb).
  split_and!; [| apply inorder_swap, inorder_mk | |done].
  - apply tree_at_fill. rewrite repr_mk, ptr_mk. cbn [rb_nodes rb_root]. split_and!.
    + rewrite lookup_insert_eq. by destruct d.
    + apply repr_other; away.
    + apply repr_other; away.
    + apply ctx_other; away.
    + by rewrite (inorder_mk _ _ c).
    + exists sp. rewrite lookup_insert_ne by away. done.
  - intros q Hq. cbn [rb_nodes]. rewrite lookup_insert_ne; [done|].
    rewrite fill_perm, inorder_mk_perm in Hq. by notin Hq.
Qed.

End Relink.
