(* ===== verification/RbInsert.v ===== *)
(** * Insertion into a red-black tree

    [ndrx_rbt_insert]: where the new node goes, and that the loop which repairs the
    balance ends with a balanced tree that holds the same nodes in the same order. *)

From stdpp Require Import gmap.
From S2P Require Import Prelude RbTree RbShape RbMem.

Local Open Scope Z_scope.

Section Insert.
Context {D : Type}.
Implicit Types s : ndrx_rbt_tree_t D.

(** ** Steps on a tree that has evolved *)

Lemma runs_recolor d k c c' a p b s0 t0 s Q :
  evolves s0 t0 s (fill k (mk d c a p b)) ->
  (forall s', evolves s0 t0 s' (fill k (mk d c' a p b)) -> Q tt s') -> runs (st (set_color c') p) s Q.
Proof.
  intros E H. eapply rb_runs_mono; [apply (recolor_ok d), E|]. intros [] s' E'. apply H.
  by eapply evolves_trans.
Qed.

Lemma runs_rotate d k c a x c' b y e s0 t0 s Q :
  evolves s0 t0 s (fill k (mk d c a x (mk d c' b y e))) ->
  (forall s', evolves s0 t0 s' (fill k (mk d c' (mk d c a x b) y e)) -> Q tt s') -> runs (rotate d x) s Q.
Proof.
  intros E H. eapply rb_runs_mono; [apply (rotate_ok d), E|]. intros [] s' E'. apply H.
  by eapply evolves_trans.
Qed.

Lemma runs_read {A} d k c a p b (f : _ -> A) s0 t0 s Q :
  evolves s0 t0 s (fill k (mk d c a p b)) -> Q (f (node_on d c (ptr a) (ptr b) (top k))) s ->
  runs (ld f p) s Q.
Proof. intros E. eapply runs_ld, at_node, E. Qed.

Lemma runs_color k t s0 t0 s Q :
  evolves s0 t0 s (fill k t) -> Q (color_of t) s -> runs (ld n_color (ptr t)) s Q.
Proof. intros [E _] H. destruct (at_color _ _ _ E) as (n & En & Ec). eapply runs_ld; [done|]. by rewrite Ec. Qed.

(** The same seen from a sibling, and in the other direction. *)
Lemma fill_flip d c p a b k : fill (Fr (other d) c p a :: k) b = fill (Fr d c p b :: k) a.
Proof. cbn. by rewrite mk_flip. Qed.

Lemma runs_color_sib d k c p t u s0 t0 s Q :
  evolves s0 t0 s (fill (Fr d c p u :: k) t) -> Q (color_of u) s -> runs (ld n_color (ptr u)) s Q.
Proof. rewrite <-fill_flip. apply runs_color. Qed.

Lemma runs_read_sib {A} d d' k c q t cu a p b (f : _ -> A) s0 t0 s Q :
  evolves s0 t0 s (fill (Fr d c q (mk d' cu a p b) :: k) t) ->
  Q (f (node_on d' cu (ptr a) (ptr b) q)) s -> runs (ld f p) s Q.
Proof. rewrite <-fill_flip. apply runs_read. Qed.

Lemma runs_recolor_sib d d' k c q t cu c' a p b s0 t0 s Q :
  evolves s0 t0 s (fill (Fr d c q (mk d' cu a p b) :: k) t) ->
  (forall s', evolves s0 t0 s' (fill (Fr d c q (mk d' c' a p b) :: k) t) -> Q tt s') ->
  runs (st (set_color c') p) s Q.
Proof. intros E H. rewrite <-fill_flip in E. eapply runs_recolor; [exact E|]. intros s'. rewrite fill_flip. apply H. Qed.

Lemma runs_rotate_other d k c a x c' b y e s0 t0 s Q :
  evolves s0 t0 s (fill k (mk d c (mk d c' e y b) x a)) ->
  (forall s', evolves s0 t0 s' (fill k (mk d c' e y (mk d c b x a))) -> Q tt s') -> runs (rotate (other d) x) s Q.
Proof.
  intros E H. eapply (runs_rotate (other d) k c a x c' b y e); [by rewrite !mk_flip|].
  intros s'. rewrite !mk_flip. apply H.
Qed.

Lemma runs_rotate_sib d d' k c q t c1 a x c2 b y e s0 t0 s Q :
  evolves s0 t0 s (fill (Fr d c q (mk d' c1 (mk d' c2 e y b) x a) :: k) t) ->
  (forall s', evolves s0 t0 s' (fill (Fr d c q (mk d' c2 e y (mk d' c1 b x a)) :: k) t) -> Q tt s') ->
  runs (rotate (other d') x) s Q.
Proof. intros E H. rewrite <-fill_flip in E. eapply runs_rotate_other; [exact E|]. intros s'. rewrite fill_flip. apply H. Qed.

End Insert.

(** The steps of a routine: a read, a change of colour or a rotation at the place [k]. *)
Ltac cur := match goal with E : evolves _ _ _ _ |- _ => exact E end.
Ltac rd d k := apply rb_runs_bind; eapply (runs_read d k); [cur|]; node_simpl; rewrite ?n_parent_on, ?n_color_on, ?child_on, ?child_other, ?child_flip, ?ptr_mk.
Ltac rdc k t := apply rb_runs_bind; eapply (runs_color k t); [cur|].
Ltac evolve E := let s := fresh "s" in let E' := fresh "E" in intros s E'; clear E; rename E' into E; cbn [fr_side fr_color fr_addr fr_sib] in E.
Ltac clr E d k := apply rb_runs_bind; eapply (runs_recolor d k); [exact E|]; evolve E.
Ltac rot E d k := apply rb_runs_bind; eapply (runs_rotate d k); [exact E|]; evolve E.
Ltac rds d d' k := apply rb_runs_bind; eapply (runs_read_sib d d' k); [cur|]; node_simpl;
  rewrite ?n_parent_on, ?n_color_on, ?child_on, ?child_other, ?child_flip, ?ptr_mk.
Ltac rdcs d k u := apply rb_runs_bind; eapply (runs_color_sib d k _ _ _ u); [cur|].
Ltac clrs E d d' k := apply rb_runs_bind; eapply (runs_recolor_sib d d' k); [exact E|]; evolve E.
Ltac roto E d k := apply rb_runs_bind; eapply (runs_rotate_other d k); [exact E|]; evolve E.
Ltac rots E d d' k := apply rb_runs_bind; eapply (runs_rotate_sib d d' k); [exact E|]; evolve E.
Ltac eqz x y := first [rewrite (proj2 (Z.eqb_eq x y)) by done | rewrite (proj2 (Z.eqb_neq x y)) by done]; cbv iota.

Section Fixup.
Context {D : Type}.
Implicit Types s : ndrx_rbt_tree_t D.

(** The two branches of the loop's body are mirror images. *)
Definition ins_side (d : side) (x p g : Z) : Rb D Z :=
  y ← ld (child (other d)) g;
  yc ← ld n_color y;
  if is_red yc then
    st (set_color RBTBLACK) p;;
    st (set_color RBTBLACK) y;;
    st (set_color RBTRED) g;;
    mret (M:=Rb D) g
  else
    q ← ld (child (other d)) p;
    x ← (if x =? q then rotate d p;; mret (M:=Rb D) p else mret (M:=Rb D) x);
    p ← ld n_parent x;
    st (set_color RBTBLACK) p;;
    g ← ld n_parent p;
    st (set_color RBTRED) g;;
    rotate (other d) g;;
    mret (M:=Rb D) x.

Lemma insert_step_side d1 d2 s l x r p v g u k Q :
  tree_at s (fill (Fr d1 RBTRED p v :: Fr d2 RBTBLACK g u :: k) (Node RBTRED l x r)) ->
  runs (ins_side d2 x p g) s Q -> runs (insert_fixup_step x) s Q.
Proof.
  intros H HQ.
  change (insert_fixup_step x) with
    (p ← ld n_parent x; g ← ld n_parent p; gl ← ld n_left g;
     if p =? gl then ins_side L x p g else ins_side R x p g).
  assert (Hs : p <> ptr u) by (destruct d1; exact (at_sibling d2 _ k _ _ _ _ _ u g H)).
  assert (E := evolves_refl _ _ H).
  rd L (Fr d1 RBTRED p v :: Fr d2 RBTBLACK g u :: k). rd d1 (Fr d2 RBTBLACK g u :: k). rd d2 k.
  destruct d2; cbn [node_on n_left]; [eqz p p|eqz p (ptr u)]; done.
Qed.

(** A red uncle: the two parents become black, the grandparent red. *)
Lemma insert_step_red d1 d2 s l x r p v g u k :
  tree_at s (fill (Fr d1 RBTRED p v :: Fr d2 RBTBLACK g u :: k) (Node RBTRED l x r)) ->
  color_of u = RBTRED ->
  runs (insert_fixup_step x) s (fun x' s' => x' = g /\
    evolves s (fill k (mk d2 RBTBLACK (mk d1 RBTRED (Node RBTRED l x r) p v) g u))
            s' (fill k (mk d2 RBTRED (mk d1 RBTBLACK (Node RBTRED l x r) p v) g (blacken u)))).
Proof.
  intros H Cu. eapply insert_step_side; [done|]. destruct u as [|cu ul pu ur]; [done|]. cbn in Cu. subst cu.
  assert (E := evolves_refl _ _ H). cbn [fill fr_side fr_color fr_addr fr_sib] in E. unfold ins_side.
  rd d2 k. rdcs d2 k (Node RBTRED ul pu ur). cbn [color_of is_red].
  clr E d1 (Fr d2 RBTBLACK g (Node RBTRED ul pu ur) :: k).
  clrs E d2 L k. clr E d2 k. by apply rb_runs_ret.
Qed.

(** A black uncle: one or two rotations. *)
Lemma insert_step_black d1 d2 s l x r p v g u k :
  tree_at s (fill (Fr d1 RBTRED p v :: Fr d2 RBTBLACK g u :: k) (Node RBTRED l x r)) ->
  color_of u = RBTBLACK ->
  runs (insert_fixup_step x) s (fun x' s' => exists q w l' r',
    evolves s (fill k (mk d2 RBTBLACK (mk d1 RBTRED (Node RBTRED l x r) p v) g u))
            s' (fill (Fr d2 RBTBLACK q w :: k) (Node RBTRED l' x' r')) /\
    (forall n, rb (Node RBTRED l x r) n -> rb v n -> rb u n -> color_of v = RBTBLACK ->
               rb w n /\ rb (Node RBTRED l' x' r') n)).
Proof.
  intros H Cu. eapply insert_step_side; [done|].
  assert (E := evolves_refl _ _ H). cbn [fill fr_side fr_color fr_addr fr_sib] in E. unfold ins_side.
  assert (Hv : x <> ptr v) by exact (at_sibling d1 _ _ _ _ _ _ _ v p H).
  rd d2 k. rdcs d2 k u. rewrite Cu. cbn [is_red].
  rd d1 (Fr d2 RBTBLACK g u :: k).
  assert (d1 = d2 \/ d1 = other d2) as [-> | ->] by (destruct d1, d2; auto).
  - rewrite child_other. eqz x (ptr v). apply rb_runs_bind, rb_runs_ret.
    rd L (Fr d2 RBTRED p v :: Fr d2 RBTBLACK g u :: k). clr E d2 (Fr d2 RBTBLACK g u :: k).
    rd d2 (Fr d2 RBTBLACK g u :: k). clr E d2 k. roto E d2 k. apply rb_runs_ret.
    eexists _, _, _, _. split; [cur|]. auto with rb.
  - rewrite child_on. eqz x x. rewrite mk_flip in *.
    assert (exists a b, Node RBTRED l x r = mk d2 RBTRED a x b) as (a & b & EX) by (destruct d2; eauto).
    rewrite EX in *. apply rb_runs_bind. rot E d2 (Fr d2 RBTBLACK g u :: k). apply rb_runs_ret.
    rd d2 (Fr d2 RBTRED x b :: Fr d2 RBTBLACK g u :: k). clr E d2 (Fr d2 RBTBLACK g u :: k).
    rd d2 (Fr d2 RBTBLACK g u :: k). clr E d2 k. roto E d2 k. apply rb_runs_ret.
    destruct (mk d2 RBTRED v p a) as [|c' l' p' r'] eqn:EY; [by destruct d2|].
    assert (c' = RBTRED /\ p' = p) as [-> ->] by (destruct d2; cbn in EY; by simplify_eq).
    exists x, (mk d2 RBTRED b g u), l', r'. split; [exact E|].
    intros n HX Hv' Hu Cv. apply rb_mk_inv in HX as (Ha & Hb & Ca & Cb). rewrite <-EY. auto with rb.
Qed.

(** One round keeps the way up balanced and makes it shorter. *)
Lemma insert_step_ok s k l x r n d p v k1 :
  k = Fr d RBTRED p v :: k1 -> kb k RBTBLACK n -> rb (Node RBTRED l x r) n ->
  tree_at s (fill k (Node RBTRED l x r)) ->
  runs (insert_fixup_step x) s (fun x' s' => exists k' l' r' n',
    evolves s (fill k (Node RBTRED l x r)) s' (fill k' (Node RBTRED l' x' r')) /\
    kb k' RBTBLACK n' /\ rb (Node RBTRED l' x' r') n' /\ (length k' < length k)%nat).
Proof.
  intros -> K HX H. inversion K as [|? ? ? ? ? Hv Cv K1|]; subst.
  inversion K1 as [| |d2 g u k2 ? ? Hu K2]; subst.
  destruct (color_cases u) as [Cu|Cu].
  - eapply rb_runs_mono; [by apply insert_step_black|]. intros x' s' (q & w & l' & r' & E & HR).
    destruct (HR n) as [Hw Hx]; [done..|].
    exists (Fr d2 RBTBLACK q w :: k2), l', r', n. split_and!; [done|by constructor|done|cbn; lia].
  - eapply rb_runs_mono; [by apply insert_step_red|]. intros x' s' (-> & E).
    destruct (rb_red_node L u n Hu Cu) as (a & q & b & -> & Ha & Hb & Ca & Cb). cbn [mk blacken] in E.
    destruct (mk d2 RBTRED (mk d RBTBLACK (Node RBTRED l x r) p v) g (Node RBTBLACK a q b))
      as [|c' l' p' r'] eqn:EY; [by destruct d2|].
    assert (c' = RBTRED /\ p' = g) as [-> ->] by (destruct d2; cbn in EY; by simplify_eq).
    exists k2, l', r', (S n). split_and!; [done|done| |cbn; lia].
    rewrite <-EY. apply rb_mk_red; auto with rb. by rewrite color_of_mk.
Qed.

(** The loop ends where the parent, if any, is black. *)
Lemma insert_loop_ok f s k l x r n :
  (length k < f)%nat -> kb k RBTBLACK n -> rb (Node RBTRED l x r) n ->
  tree_at s (fill k (Node RBTRED l x r)) ->
  runs (insert_fixup_loop f x) s (fun _ s' => exists k' l' x' r' n',
    evolves s (fill k (Node RBTRED l x r)) s' (fill k' (Node RBTRED l' x' r')) /\
    kb k' RBTBLACK n' /\ rb (Node RBTRED l' x' r') n' /\ (k' = [] \/ kb k' RBTRED n')).
Proof.
  revert s k l x r n. induction f as [|f IH]; intros s k l x r n Hf K HX H; [lia|]. cbn [insert_fixup_loop].
  assert (E := evolves_refl _ _ H). pose proof (at_root _ _ _ H ltac:(done)) as Hr. cbn in Hr.
  apply rb_runs_bind. unfold insert_fixup_test. apply rb_runs_bind, runs_get_root.
  destruct k as [|[d c p v] k].
  { rewrite (proj2 (Z.eqb_eq x (rb_root s))) by (by apply Hr). apply rb_runs_ret, rb_runs_ret. eauto 10. }
  rewrite (proj2 (Z.eqb_neq x (rb_root s))) by (intros Hx; by apply Hr in Hx).
  rd L (Fr d c p v :: k). rd d k. apply rb_runs_ret. destruct c; cbn [is_red].
  - apply rb_runs_ret. inversion K; subst. eauto 12 with rb.
  - apply rb_runs_bind. eapply rb_runs_mono; [by eapply insert_step_ok|].
    intros x' s' (k' & l' & r' & n' & E' & K' & HX' & Hl).
    eapply rb_runs_mono; [apply (IH s' k' l' x' r' n'); [cbn in *; lia|done|done|apply E']|].
    intros [] s2 (k2 & l2 & x2 & r2 & n2 & E2 & H2). exists k2, l2, x2, r2, n2. split; [|done].
    by eapply evolves_trans.
Qed.

Lemma insert_fixup_ok s k l x r n :
  kb k RBTBLACK n -> rb (Node RBTRED l x r) n -> tree_at s (fill k (Node RBTRED l x r)) ->
  runs (ndrx_rbt_insert_fixup x) s (fun _ s' => exists t' m,
    evolves s (fill k (Node RBTRED l x r)) s' t' /\ rb t' m /\ color_of t' = RBTBLACK).
Proof.
  intros K HX H. unfold ndrx_rbt_insert_fixup. apply rb_runs_bind, runs_fuel, rb_runs_bind.
  pose proof (at_size _ _ H). pose proof (fill_length k (Node RBTRED l x r)).
  eapply rb_runs_mono; [apply (insert_loop_ok _ s k l x r n); [lia|done..]|].
  intros [] s1 (k' & l' & x' & r' & n' & E & K' & HX' & Hk). apply rb_runs_bind, runs_get_root.
  assert (Hb : exists m, rb (blacken (fill k' (Node RBTRED l' x' r'))) m /\
                    color_of (blacken (fill k' (Node RBTRED l' x' r'))) = RBTBLACK).
  { destruct Hk as [-> |Kr]; [by eapply rb_blacken|].
    destruct (kb_fill _ _ _ _ Kr HX') as (m & Hm & _); [done|]. by eapply rb_blacken. }
  destruct Hb as (m & Hm & Cm). pose proof E as ((_ & Er & _) & _).
  destruct (fill k' (Node RBTRED l' x' r')) as [|c a p b] eqn:Ef.
  { apply (f_equal inorder) in Ef. rewrite inorder_fill in Ef. cbn in Ef. by destruct (before k'), (inorder l'). }
  cbn in Er. rewrite <-Er. eapply (runs_recolor L []); [exact E|]. intros s' E'. eauto.
Qed.

End Fixup.

(** ** The whole insertion *)

Section Ins.
Context {D : Type} (rbt : rbt_funcs D).
Implicit Types s : ndrx_rbt_tree_t D.

(** A balanced tree with the nodes [l], from the smallest. *)
Definition rbt_at s (l : list Z) : Prop :=
  exists t m, tree_at s t /\ rb t m /\ color_of t = RBTBLACK /\ inorder t = l.

(** [p] compares greater than the nodes [l1] and less than the nodes [l2]. *)
Definition between (d : D) (p : Z) (l1 l2 : list Z) : Prop :=
  (forall q, q ∈ l1 -> 0 < comparator rbt d p q) /\ (forall q, q ∈ l2 -> comparator rbt d p q < 0).

(** Nothing but the nodes [l], the sentinel apart, is different. *)
Definition outside (l : list Z) s s' : Prop :=
  forall q : Z, (q ∉ l) -> rb_nodes s' !! q = rb_nodes s !! q.

Lemma split_at_l (l r t1 t2 : list Z) q : l ++ q :: r = t1 ++ t2 -> (q ∉ t1) -> exists u, l = t1 ++ u /\ t2 = u ++ q :: r.
Proof.
  intros E Hq. apply app_eq_app in E as (u & [[E1 E2]|[E1 E2]]); [by eauto|].
  destruct u as [|x u]; cbn in E2; simplify_eq; [exists []; by rewrite !app_nil_r|set_solver].
Qed.

Lemma split_at_r (l r t1 t2 : list Z) q : l ++ q :: r = t1 ++ t2 -> (q ∉ t2) -> exists u, r = u ++ t2 /\ t1 = l ++ q :: u.
Proof.
  intros E Hq. apply app_eq_app in E as (u & [[E1 E2]|[E1 E2]]); [set_solver|].
  destruct u as [|x u]; cbn in E2; simplify_eq; [set_solver|eauto].
Qed.

(** The search goes down to the place where the new node belongs. *)
Lemma insert_find_ok f s p k t t1 t2 c0 :
  (height t < f)%nat -> tree_at s (fill k t) -> inorder t = t1 ++ t2 -> between (rb_data s) p t1 t2 ->
  (forall d c q v k', k = Fr d c q v :: k' -> (c0 <? 0) = match d with L => true | R => false end) ->
  runs (insert_find rbt f p (ptr t) (top k) c0) s (fun w s' => s' = s /\ exists k' c1,
    w = Under (top k') c1 /\ fill k' Leaf = fill k t /\ before k' = before k ++ t1 /\ after k' = t2 ++ after k /\
    forall d c q v k2, k' = Fr d c q v :: k2 -> (c1 <? 0) = match d with L => true | R => false end).
Proof.
  revert k t t1 t2 c0. induction f as [|f IH]; intros k t t1 t2 c0 Hf H Et [B1 B2] Hc; [lia|].
  cbn [insert_find]. destruct t as [|c l q r].
  { cbn in Et. symmetry in Et. apply app_nil in Et as [-> ->]. cbn [ptr]. rewrite Z.eqb_refl.
    apply rb_runs_ret. split; [done|]. exists k, c0. rewrite app_nil_r. done. }
  cbn in Et, Hf. destruct (at_addr L _ _ _ _ _ _ H) as [_ Hq]. pose proof (at_node L _ _ _ _ _ _ H) as Eq. cbn [ptr].
  rewrite (proj2 (Z.eqb_neq q RBTNIL)) by done. apply rb_runs_bind. eexists _, _. split; [done|].
  set (c1 := comparator rbt (rb_data s) p q).
  destruct (decide (c1 < 0)) as [Hneg|Hpos].
  - destruct (split_at_l _ _ _ _ _ Et) as (u & El & ->); [intros Hin; specialize (B1 _ Hin); unfold c1 in *; lia|].
    rewrite (proj2 (Z.eqb_neq c1 0)), (proj2 (Z.ltb_lt c1 0)) by lia.
    apply rb_runs_bind. eapply runs_ld; [done|]. cbn [node_on n_left].
    eapply rb_runs_mono; [apply (IH (Fr L c q r :: k) l t1 u c1); [lia|done|done| |]|].
    + split; [done|]. intros. apply B2. set_solver.
    + intros d ? ? ? ? [= <- _ _ _ _]. by apply Z.ltb_lt.
    + intros w s' (-> & k' & c2 & -> & Ef & Eb & Ea & Hd). split; [done|]. exists k', c2. split_and!; try done.
      rewrite Ea. cbn. by rewrite <-!app_assoc.
  - destruct (split_at_r _ _ _ _ _ Et) as (u & Er & ->); [intros Hin; specialize (B2 _ Hin); unfold c1 in *; lia|].
    assert (0 < c1) by (apply B1; set_solver).
    rewrite (proj2 (Z.eqb_neq c1 0)), (proj2 (Z.ltb_ge c1 0)) by lia.
    apply rb_runs_bind. eapply runs_ld; [done|]. cbn [node_on n_right].
    eapply rb_runs_mono; [apply (IH (Fr R c q l :: k) r u t2 c1); [lia|done|done| |]|].
    + split; [|done]. intros. apply B1. set_solver.
    + intros d ? ? ? ? [= <- _ _ _ _]. apply Z.ltb_ge. lia.
    + intros w s' (-> & k' & c2 & -> & Ef & Eb & Ea & Hd). split; [done|]. exists k', c2. split_and!; try done.
      rewrite Eb. cbn. by rewrite <-!app_assoc.
Qed.

(** A node put at an empty place. *)
Lemma insert_link s k p c0 :
  tree_at s (fill k Leaf) -> p <> NULL -> p <> RBTNIL -> (p ∉ inorder (fill k Leaf)) ->
  (forall d c q v k', k = Fr d c q v :: k' -> (c0 <? 0) = match d with L => true | R => false end) ->
  runs (put_node p (mk_node RBTRED RBTNIL RBTNIL (top k))) s (fun _ s1 =>
    runs (if top k =? NULL then set_root p
          else if c0 <? 0 then st (set_left p) (top k) else st (set_right p) (top k)) s1 (fun _ s' =>
      tree_at s' (fill k (Node RBTRED Leaf p Leaf)) /\ rb_data s' = rb_data s /\
      outside (p :: inorder (fill k Leaf)) s s')).
Proof.
  intros H H0 H1 Hp Hc. eexists _, _. split; [done|].
  rewrite tree_at_fill in H. destruct H as (_ & K & N & sp & Hn). rewrite fill_perm in Hp. cbn in Hp, N, K.
  assert (Np : addrs_ok (p :: ctx_addrs k)).
  { destruct N as (N & N0 & N1). split_and!; [by constructor|set_solver..]. }
  destruct k as [|[d c q v] k]; cbn [top fr_addr].
  - rewrite Z.eqb_refl. apply runs_set_root. cbn [rb_nodes rb_root rb_data].
    split_and!; [|done|].
    + apply (tree_at_fill _ []). cbn [rb_nodes rb_root repr ctx_repr ptr top fr_addr inorder app].
      rewrite lookup_insert_eq. split; [done|]. split; [done|]. split; [exact Np|].
      exists sp. by rewrite lookup_insert_ne.
    + intros x Hx. notin Hx. cbn [rb_nodes]. by rewrite lookup_insert_ne.
  - addrs Np. rewrite (proj2 (Z.eqb_neq q NULL)) by done. rewrite (Hc _ _ _ _ _ eq_refl).
    cbn in K. destruct K as (Eq & Hv & K).
    assert (Hst : runs (st (set_child d p) q) (mk_rbt (rb_root s) (<[p := mk_node RBTRED RBTNIL RBTNIL q]> (rb_nodes s)) (rb_data s))
      (fun _ s' => tree_at s' (fill (Fr d c q v :: k) (Node RBTRED Leaf p Leaf)) /\ rb_data s' = rb_data s /\
                   outside (p :: inorder (fill (Fr d c q v :: k) Leaf)) s s')).
    { eapply runs_st; [look|]. split_and!; [|done|].
      - apply tree_at_fill. cbn [rb_nodes rb_root repr ctx_repr ptr top fr_addr inorder app].
        rewrite lookup_insert_ne, !lookup_insert_eq by done. split_and!; try done.
        + by destruct d.
        + do 2 (apply repr_other; [away|]). done.
        + do 2 (apply ctx_other; [away|]). done.
        + exists sp. by rewrite !lookup_insert_ne by done.
      - intros x Hx. rewrite fill_perm in Hx. notin Hx. cbn [rb_nodes]. by rewrite !lookup_insert_ne by done. }
    by destruct d.
Qed.

(** A new node gets its place, and the tree is balanced again. *)
Lemma insert_new s p l1 l2 :
  rbt_at s (l1 ++ l2) -> between (rb_data s) p l1 l2 -> p <> NULL -> p <> RBTNIL -> (p ∉ l1 ++ l2) ->
  runs (ndrx_rbt_insert rbt p) s (fun r s' =>
    r = (p, true) /\ rbt_at s' (l1 ++ p :: l2) /\ rb_data s' = rb_data s /\ outside (p :: l1 ++ l2) s s').
Proof.
  intros (t & m & H & Hb & Cb & Ei) B H0 H1 Hp. unfold ndrx_rbt_insert.
  apply rb_runs_bind, runs_fuel, rb_runs_bind, runs_get_root, rb_runs_bind.
  pose proof H as (_ & Er & _). rewrite <-Er. pose proof (at_size _ _ H) as Hs.
  eapply rb_runs_mono; [apply (insert_find_ok _ s p [] t l1 l2 0)|]; try done.
  { pose proof (height_inorder t). lia. }
  intros w s' (-> & k & c1 & -> & Ef & Eb & Ea & Hd). cbn in Ef, Eb, Ea. rewrite app_nil_r in Ea.
  rewrite <-Ef in H, Hb, Cb. destruct (rb_split _ _ _ Hb Cb) as (n & K & Hn). inversion Hn; subst n.
  apply rb_runs_bind. eapply rb_runs_mono; [apply (insert_link _ k p c1); [done..| |done]; by rewrite Ef, Ei|].
  intros [] s1 R1. apply rb_runs_bind. eapply rb_runs_mono; [exact R1|].
  intros [] s2 (H2 & Ed & Fr). apply rb_runs_bind.
  eapply rb_runs_mono; [apply (insert_fixup_ok s2 k Leaf p Leaf 0); auto with rb|].
  intros [] s3 (t' & m' & E' & Hb' & Cb'). apply rb_runs_ret. rewrite Ef, Ei in Fr.
  destruct E' as (H' & Ei' & Fr' & Ed'). rewrite inorder_fill in Ei', Fr'. rewrite Eb, Ea in Ei', Fr'. cbn in Ei', Fr'.
  split_and!; [done| |congruence|].
  - exists t', m'. by rewrite Ei'.
  - intros q Hq. rewrite Fr' by set_solver. by apply Fr.
Qed.

(** A node that compares equal to one of the tree is given to the combiner with it. *)
Lemma insert_find_dup f s p k t t1 q t2 c0 :
  (height t < f)%nat -> tree_at s (fill k t) -> inorder t = t1 ++ q :: t2 -> between (rb_data s) p t1 t2 ->
  comparator rbt (rb_data s) p q = 0 ->
  runs (insert_find rbt f p (ptr t) (top k) c0) s (fun w s' => s' = s /\ w = Found q).
Proof.
  revert k t t1 t2 c0. induction f as [|f IH]; intros k t t1 t2 c0 Hf H Et [B1 B2] Hz; [lia|].
  cbn [insert_find]. destruct t as [|c l x r].
  { cbn in Et. by destruct t1. }
  cbn in Et, Hf. destruct (at_addr L _ _ _ _ _ _ H) as [_ Hq]. pose proof (at_node L _ _ _ _ _ _ H) as Eq. cbn [ptr].
  rewrite (proj2 (Z.eqb_neq x RBTNIL)) by done. apply rb_runs_bind. eexists _, _. split; [done|].
  set (c1 := comparator rbt (rb_data s) p x). destruct (Z.lt_trichotomy c1 0) as [Hneg|[Hzero|Hpos]].
  - assert (Et' : inorder l ++ x :: inorder r = (t1 ++ [q]) ++ t2) by (by rewrite <-app_assoc).
    destruct (split_at_l _ _ (t1 ++ [q]) t2 _ Et') as (u & El & ->).
    { intros [Hin|Hin%list_elem_of_singleton]%elem_of_app; [specialize (B1 _ Hin); unfold c1 in *; lia|].
      subst. unfold c1 in *. lia. }
    rewrite (proj2 (Z.eqb_neq c1 0)), (proj2 (Z.ltb_lt c1 0)) by lia.
    apply rb_runs_bind. eapply runs_ld; [done|]. cbn [node_on n_left].
    apply (IH (Fr L c x r :: k) l t1 u c1); [lia|done|by rewrite El, <-app_assoc| |done].
    split; [done|]. intros. apply B2. set_solver.
  - rewrite (proj2 (Z.eqb_eq c1 0)) by done. apply rb_runs_ret. split; [done|].
    assert (Hx : x ∈ t1 ++ q :: t2) by (rewrite <-Et; set_solver).
    rewrite elem_of_app, elem_of_cons in Hx. unfold c1 in *.
    destruct Hx as [Hx|[->|Hx]]; [specialize (B1 _ Hx); lia|done|specialize (B2 _ Hx); lia].
  - destruct (split_at_r _ _ t1 (q :: t2) _ Et) as (u & Er & ->).
    { intros [->|Hin]%elem_of_cons; [unfold c1 in *; lia|]. specialize (B2 _ Hin). unfold c1 in *. lia. }
    rewrite (proj2 (Z.eqb_neq c1 0)), (proj2 (Z.ltb_ge c1 0)) by lia.
    apply rb_runs_bind. eapply runs_ld; [done|]. cbn [node_on n_right].
    apply (IH (Fr R c x l :: k) r u t2 c1); [lia|done|done| |done].
    split; [|done]. intros. apply B1. set_solver.
Qed.

Lemma insert_dup s p l1 q l2 :
  rbt_at s (l1 ++ q :: l2) -> between (rb_data s) p l1 l2 -> comparator rbt (rb_data s) p q = 0 ->
  ndrx_rbt_insert rbt p s = (with_data (combiner rbt q p);; mret (M:=Rb D) (q, false)) s.
Proof.
  intros (t & m & H & _ & _ & Ei) B Hz. pose proof H as (_ & Er & _). pose proof (at_size _ _ H) as Hs.
  destruct (insert_find_dup (S (size (rb_nodes s))) s p [] t l1 q l2 0) as (w & s' & Ew & -> & ->); try done.
  { pose proof (height_inorder t). lia. }
  unfold ndrx_rbt_insert, mbind, Rb_bind, fuel, get_root. rewrite <-Er. cbn [top] in Ew. by rewrite Ew.
Qed.

End Ins.
