(* ===== verification/RbDelete.v ===== *)
(** * Deletion from a red-black tree

    [ndrx_rbt_delete]: unlinking a node, with its successor put at its place where it
    has two children, and the loop that repairs the balance when a black node is gone. *)

From stdpp Require Import gmap.
From S2P Require Import Prelude RbTree RbShape RbMem RbInsert.

Local Open Scope Z_scope.

Section Fixup.
Context {D : Type}.
Implicit Types s : ndrx_rbt_tree_t D.

(** The parent field of the sentinel is [p] where the place is empty. *)
Definition nil_parent s (t : tree) (p : Z) : Prop :=
  t = Leaf -> exists n, rb_nodes s !! RBTNIL = Some n /\ n_parent n = p.

Lemma runs_parent k t s0 t0 s Q :
  evolves s0 t0 s (fill k t) -> addrs_ok (inorder t0) -> nil_parent s0 t (top k) -> Q (top k) s ->
  runs (ld n_parent (ptr t)) s Q.
Proof.
  intros (H & _ & F & _) (_ & _ & N) Hn HQ. destruct t as [|c l p r].
  - destruct Hn as (n & En & Ep); [done|]. eapply (runs_ld _ _ n); [cbn; by rewrite F|by rewrite Ep].
  - eapply runs_ld; [exact (at_node L _ _ _ _ _ _ H)|done].
Qed.

(** The two branches of the loop's body are mirror images. *)
Definition del_side (d : side) (x p : Z) : Rb D Z :=
  w ← ld (child (other d)) p;
  wc ← ld n_color w;
  w ← (if is_red wc then
         st (set_color RBTBLACK) w;;
         st (set_color RBTRED) p;;
         rotate d p;;
         p ← ld n_parent x;
         ld (child (other d)) p
       else mret (M:=Rb D) w);
  wn ← ld (child d) w; wnc ← ld n_color wn;
  wf ← ld (child (other d)) w; wfc ← ld n_color wf;
  if negb (is_red wnc) && negb (is_red wfc) then
    st (set_color RBTRED) w;;
    ld n_parent x
  else
    w ← (if negb (is_red wfc) then
           st (set_color RBTBLACK) wn;;
           st (set_color RBTRED) w;;
           rotate (other d) w;;
           p ← ld n_parent x;
           ld (child (other d)) p
         else mret (M:=Rb D) w);
    p ← ld n_parent x;
    pc ← ld n_color p;
    st (set_color pc) w;;
    st (set_color RBTBLACK) p;;
    wf ← ld (child (other d)) w;
    st (set_color RBTBLACK) wf;;
    rotate d p;;
    get_root.

Lemma delete_step_sides x :
  delete_fixup_step x = (p ← ld n_parent x; pl ← ld n_left p; if x =? pl then del_side L x p else del_side R x p).
Proof. reflexivity. Qed.

Lemma delete_step_side d s c p w t k Q :
  tree_at s (fill (Fr d c p w :: k) t) -> nil_parent s t p -> w <> Leaf ->
  runs (del_side d (ptr t) p) s Q -> runs (delete_fixup_step (ptr t)) s Q.
Proof.
  intros H Hn Hw HQ. rewrite delete_step_sides. assert (E := evolves_refl _ _ H).
  assert (Hs : ptr t <> ptr w).
  { destruct t as [|c' l x r]; [|exact (at_sibling _ _ _ _ _ _ _ _ _ _ H)].
    destruct w as [|cw a q b]; [done|]. rewrite <-fill_flip in H. apply (at_addr L) in H as [_ H]. cbn. done. }
  apply rb_runs_bind. eapply (runs_parent (Fr d c p w :: k)); [exact E| |exact Hn|]; [apply H|]. cbn [top fr_addr].
  rd d k. destruct d; cbn [node_on n_left]; [eqz (ptr t) (ptr t)|eqz (ptr t) (ptr w)]; done.
Qed.

(** The tree seen from the children of the sibling. *)
Lemma far_nephew d c' p c a q b k t :
  fill (Fr d c' p (mk d c a q b) :: k) t = fill (Fr (other d) c q a :: Fr (other d) c' p t :: k) b.
Proof. destruct d; done. Qed.

Lemma near_nephew d c' p c a q b k t :
  fill (Fr d c' p (mk d c a q b) :: k) t = fill (Fr d c q b :: Fr (other d) c' p t :: k) a.
Proof. destruct d; done. Qed.

Lemma fill_cons d c p w k t : fill (Fr d c p w :: k) t = fill k (mk d c t p w).
Proof. done. Qed.

(** The end of the body, where the far nephew [b] is red: a rotation completes the tree. *)
Lemma delete_side_end d s0 t0 s c p a q b t k n :
  evolves s0 t0 s (fill (Fr d c p (mk d RBTBLACK a q b) :: k) t) -> addrs_ok (inorder t0) -> nil_parent s0 t p ->
  kb (Fr d c p (mk d RBTBLACK a q b) :: k) RBTBLACK (S n) -> rb t n -> color_of t = RBTBLACK ->
  rb a n -> rb b n -> color_of b = RBTRED ->
  runs (p ← ld n_parent (ptr t);
        pc ← ld n_color p;
        st (set_color pc) q;;
        st (set_color RBTBLACK) p;;
        wf ← ld (child (other d)) q;
        st (set_color RBTBLACK) wf;;
        rotate d p;;
        get_root) s (fun x' s' => exists t' m,
    evolves s0 t0 s' t' /\ x' = ptr t' /\ rb t' m /\ color_of t' = RBTBLACK).
Proof.
  intros E N Hn K Ht Ct Ha Hb Cb.
  apply rb_runs_bind. eapply (runs_parent (Fr d c p _ :: k)); [exact E|done|done|]. cbn [top fr_addr].
  rd d k. clrs E d d k. clr E d k. rds d d k.
  destruct (rb_red_node L b n Hb Cb) as (b1 & bq & b2 & -> & Hb1 & Hb2 & Cb1 & Cb2).
  cbn [ptr mk]. rewrite <-(fill_cons d _ p), far_nephew in E. clr E L (Fr (other d) c q a :: Fr (other d) RBTBLACK p t :: k).
  rewrite <-far_nephew in E. rot E d k. apply runs_get_root.
  assert (Hm : exists m, rb (fill k (mk d c (mk d RBTBLACK t p a) q (mk L RBTBLACK b1 bq b2))) m /\
     color_of (fill k (mk d c (mk d RBTBLACK t p a) q (mk L RBTBLACK b1 bq b2))) = RBTBLACK).
  { inversion K as [|? ? ? ? ? Hw Cw K1|? ? ? ? ? ? Hw K1]; subst.
    - eapply kb_fill; [exact K1| |done]. apply rb_mk_red; auto with rb. by rewrite color_of_mk.
    - eapply kb_fill; [exact K1|auto with rb|by rewrite color_of_mk]. }
  destruct Hm as (m & Hm & Cm). eexists _, m. split; [exact E|]. split; [|done]. by destruct E as ((_ & -> & _) & _).
Qed.

(** What a round leaves: a place and a tree that is one black node short for it. *)
Definition del_inv (k : list frame) (t : tree) (n : nat) : Prop :=
  kb k RBTBLACK (S n) /\ short t n /\ t <> Leaf.

Definition del_measure (k : list frame) (t : tree) : nat :=
  length k + match color_of t with RBTBLACK => 1 | RBTRED => 0 end.

Lemma evolves_nonleaf s0 t0 s f k t s' t' :
  evolves s0 t0 s (fill (f :: k) t) -> evolves s0 t0 s' t' -> t' <> Leaf.
Proof.
  intros (_ & E1 & _) (_ & E2 & _) ->. pose proof (fill_length (f :: k) t) as H. rewrite E1, <-E2 in H. cbn in H. lia.
Qed.

(** A black sibling. *)
Lemma delete_side_black d s0 t0 s c p w t k n :
  evolves s0 t0 s (fill (Fr d c p w :: k) t) -> addrs_ok (inorder t0) -> nil_parent s0 t p ->
  kb (Fr d c p w :: k) RBTBLACK (S n) -> rb t n -> color_of t = RBTBLACK -> color_of w = RBTBLACK ->
  runs (wn ← ld (child d) (ptr w); wnc ← ld n_color wn;
        wf ← ld (child (other d)) (ptr w); wfc ← ld n_color wf;
        if negb (is_red wnc) && negb (is_red wfc) then
          st (set_color RBTRED) (ptr w);;
          ld n_parent (ptr t)
        else
          w ← (if negb (is_red wfc) then
                 st (set_color RBTBLACK) wn;;
                 st (set_color RBTRED) (ptr w);;
                 rotate (other d) (ptr w);;
                 p ← ld n_parent (ptr t);
                 ld (child (other d)) p
               else mret (M:=Rb D) (ptr w));
          p ← ld n_parent (ptr t);
          pc ← ld n_color p;
          st (set_color pc) w;;
          st (set_color RBTBLACK) p;;
          wf ← ld (child (other d)) w;
          st (set_color RBTBLACK) wf;;
          rotate d p;;
          get_root) s (fun x' s' => exists k' t' n',
    evolves s0 t0 s' (fill k' t') /\ x' = ptr t' /\ del_inv k' t' n' /\
    (k' = [] /\ color_of t' = RBTBLACK \/ k' = k /\ (c = RBTRED -> color_of t' = RBTRED))).
Proof.
  intros E N Hn K Ht Ct Cw.
  assert (Hw : rb w (S n)) by (inversion K; subst; done).
  destruct (rb_black_node d w n Hw Cw) as (a & q & b & -> & Ha & Hb). rewrite ptr_mk.
  rds d d k. rewrite near_nephew in E. rdc (Fr d RBTBLACK q b :: Fr (other d) c p t :: k) a. rewrite <-near_nephew in E.
  rds d d k. rewrite far_nephew in E. rdc (Fr (other d) RBTBLACK q a :: Fr (other d) c p t :: k) b. rewrite <-far_nephew in E.
  destruct (color_cases b) as [Cb|Cb]; rewrite Cb; [destruct (color_cases a) as [Ca|Ca]; rewrite Ca|];
    cbn [is_red negb andb].
  - clrs E d d k. eapply (runs_parent (Fr d c p _ :: k)); [exact E|done|done|]. cbn [top fr_addr].
    exists k, (mk d c t p (mk d RBTRED a q b)). rewrite ptr_mk, color_of_mk.
    inversion K as [|? ? ? ? ? Hw' Cw' K1|? ? ? ? ? ? Hw' K1]; subst.
    + exists n. split_and!; [done|done| |auto]. split_and!; [by eapply kb_black_of| |by destruct d].
      right. rewrite color_of_mk. split; [done|]. destruct d; cbn; auto with rb.
    + exists (S n). split_and!; [done|done| |auto]. split_and!; [done| |by destruct d].
      left. rewrite color_of_mk. auto with rb.
  - destruct (rb_red_node d a n Ha Ca) as (a1 & r & a2 & -> & Ha1 & Ha2 & Ca1 & Ca2). rewrite ptr_mk.
    assert (E' := E). rewrite near_nephew in E. apply rb_runs_bind.
    clr E d (Fr d RBTBLACK q b :: Fr (other d) c p t :: k). rewrite <-near_nephew in E.
    clrs E d d k. rots E d d k.
    apply rb_runs_bind. eapply (runs_parent (Fr d c p _ :: k)); [exact E|done|done|]. cbn [top fr_addr].
    eapply (runs_read d k); [exact E|]. cbn [fr_sib]. rewrite child_other, ptr_mk.
    eapply rb_runs_mono; [eapply (delete_side_end d s0 t0 _ c p a1 r (mk d RBTRED a2 q b) t k n)|]; try done.
    + inversion K; subst; constructor; auto with rb. by rewrite color_of_mk.
    + auto with rb.
    + by rewrite color_of_mk.
    + intros x' s' (t' & m & E2 & -> & Hm & Cm). exists [], t', m. split_and!; [done|done| |auto].
      split_and!; [constructor|by left|]. by eapply evolves_nonleaf.
  - rewrite andb_false_r. apply rb_runs_bind, rb_runs_ret.
    eapply rb_runs_mono; [eapply (delete_side_end d s0 t0 _ c p a q b t k n)|]; try done.
    intros x' s' (t' & m & E2 & -> & Hm & Cm). exists [], t', m. split_and!; [done|done| |auto].
    split_and!; [constructor|by left|]. by eapply evolves_nonleaf.
Qed.

(** One round of the loop. *)
Lemma delete_step_ok s t k n :
  k <> [] -> tree_at s (fill k t) -> nil_parent s t (top k) ->
  kb k RBTBLACK (S n) -> rb t n -> color_of t = RBTBLACK ->
  runs (delete_fixup_step (ptr t)) s (fun x' s' => exists k' t' n',
    evolves s (fill k t) s' (fill k' t') /\ x' = ptr t' /\ del_inv k' t' n' /\
    (del_measure k' t' < del_measure k t)%nat).
Proof.
  intros Hk H Hn K Ht Ct. destruct k as [|[d c p w] k]; [done|]. cbn [top fr_addr] in Hn.
  assert (Hw : rb w (S n)) by (inversion K; subst; done).
  eapply (delete_step_side d); [exact H|done|by destruct w; inversion Hw|].
  assert (E := evolves_refl _ _ H). assert (N : addrs_ok (inorder (fill (Fr d c p w :: k) t))) by apply H.
  unfold del_side. rd d k. rdcs d k w.
  destruct (color_cases w) as [Cw|Cw]; rewrite Cw; cbn [is_red].
  - apply rb_runs_bind, rb_runs_ret. eapply rb_runs_mono; [by eapply delete_side_black|].
    intros x' s' (k' & t' & n' & E' & -> & I & Hm). exists k', t', n'. split_and!; [done..|].
    unfold del_measure. rewrite Ct. destruct Hm as [[-> ->]|[-> _]]; cbn; [lia|]. destruct (color_of t'); lia.
  - destruct (rb_red_node d w (S n) Hw Cw) as (a & q & b & -> & Ha & Hb & Ca & Cb). rewrite ptr_mk.
    apply rb_runs_bind. clrs E d d k. clr E d k. rot E d k.
    apply rb_runs_bind. eapply (runs_parent (Fr d RBTRED p a :: Fr d RBTBLACK q b :: k)); [exact E|done|done|].
    cbn [top fr_addr]. eapply (runs_read d (Fr d RBTBLACK q b :: k)); [exact E|]. rewrite child_other.
    inversion K as [| |? ? ? ? ? ? Hw' K1]; subst; [by rewrite color_of_mk in *|].
    eapply rb_runs_mono; [eapply (delete_side_black d _ _ _ RBTRED p a t (Fr d RBTBLACK q b :: k) n)|]; try done.
    + auto with rb.
    + intros x' s' (k' & t' & n' & E' & -> & I & Hm). exists k', t', n'. split_and!; [done..|].
      unfold del_measure. rewrite Ct. destruct Hm as [[-> ->]|[-> Hm]]; cbn; [lia|]. rewrite Hm by done. lia.
Qed.

Lemma at_root_any s k t : tree_at s (fill k t) -> (ptr t = rb_root s <-> k = []).
Proof.
  intros H. destruct t as [|c l p r]; [|by apply at_root in H].
  pose proof H as (_ & Er & (_ & _ & N) & _). rewrite <-Er. split; [|by intros ->].
  pose proof (fill_length k Leaf) as Hl. destruct k as [|f k]; [done|].
  destruct (fill (f :: k) Leaf) as [|c' l' p' r']; cbn in *; [lia|].
  intros E. exfalso. apply N. rewrite E. set_solver.
Qed.

(** The loop ends at the root or at a red node. *)
Lemma delete_loop_ok f s t k n :
  (del_measure k t < f)%nat -> tree_at s (fill k t) -> nil_parent s t (top k) ->
  kb k RBTBLACK (S n) -> short t n ->
  runs (delete_fixup_loop f (ptr t)) s (fun x' s' => exists k' t' n',
    evolves s (fill k t) s' (fill k' t') /\ x' = ptr t' /\ kb k' RBTBLACK (S n') /\ short t' n' /\
    (k' = [] \/ color_of t' = RBTRED)).
Proof.
  revert s t k n. induction f as [|f IH]; intros s t k n Hf H Hn K Hs; [lia|]. cbn [delete_fixup_loop].
  assert (E := evolves_refl _ _ H). pose proof (at_root_any _ _ _ H) as Hr.
  apply rb_runs_bind. unfold delete_fixup_test. apply rb_runs_bind, runs_get_root.
  destruct (decide (k = [])) as [->|Hk].
  { rewrite (proj2 (Z.eqb_eq (ptr t) (rb_root s))) by (by apply Hr). apply rb_runs_ret, rb_runs_ret.
    exists [], t, n. split_and!; auto. }
  rewrite (proj2 (Z.eqb_neq (ptr t) (rb_root s))) by (intros Hx; by apply Hr in Hx).
  rdc k t. apply rb_runs_ret. destruct (color_cases t) as [Ct|Ct]; rewrite Ct; cbn [is_red negb].
  - apply rb_runs_bind. destruct Hs as [[_ Ht]|[Hc _]]; [|congruence].
    eapply rb_runs_mono; [by apply (delete_step_ok s t k n)|].
    intros x' s' (k' & t' & n' & E' & -> & (K' & S' & L') & Hm).
    eapply rb_runs_mono; [apply (IH s' t' k' n'); [lia|apply E'|by intros ->|done|done]|].
    intros x2 s2 (k2 & t2 & n2 & E2 & H2). exists k2, t2, n2. split; [|done]. by eapply evolves_trans.
  - apply rb_runs_ret. exists k, t, n. split_and!; auto.
Qed.

Lemma delete_fixup_ok s t k n :
  tree_at s (fill k t) -> nil_parent s t (top k) -> kb k RBTBLACK (S n) -> short t n ->
  runs (ndrx_rbt_delete_fixup (ptr t)) s (fun _ s' => exists t' m,
    evolves s (fill k t) s' t' /\ rb t' m /\ color_of t' = RBTBLACK).
Proof.
  intros H Hn K Hs. unfold ndrx_rbt_delete_fixup. apply rb_runs_bind, runs_fuel, rb_runs_bind.
  eapply rb_runs_mono; [apply (delete_loop_ok _ s t k n); [|done..]|].
  { pose proof (at_size_nil _ _ H). pose proof (fill_length k t). unfold del_measure. destruct (color_of t); lia. }
  intros x' s' (k' & t' & n' & E & -> & K' & S' & Hend). destruct t' as [|c' l' x' r'].
  - destruct Hend as [->|?]; [|done]. destruct E as (H' & E'). pose proof H' as (_ & _ & _ & sp & Hsp).
    eapply runs_st; [exact Hsp|]. cbn [set_color n_left n_right n_parent].
    exists Leaf, 0%nat. rewrite insert_id by done. split_and!; [|constructor|done]. by destruct s'.
  - eapply (runs_recolor L k'); [exact E|]. intros s2 E2. cbn [mk] in E2. exists (fill k' (Node RBTBLACK l' x' r')).
    destruct S' as [[Cb Hb]|[Cr Hb]]; cbn in *; subst c'.
    + destruct Hend as [->|?]; [|done]. exists n'. done.
    + cbn in Hb. destruct (kb_fill k' _ _ _ K' Hb) as (m & Hm & Cm); [done|]. eauto.
Qed.

Lemma rb_short t n : rb t n -> short t n.
Proof.
  intros H. destruct (color_cases t) as [C|C]; [by left|]. right. split; [done|].
  inversion H; subst; cbn in *; try done. by constructor.
Qed.

(** After a node of colour [c] with one child has been taken away. *)
Lemma delete_finish d s t k c p n :
  tree_at s (fill k t) -> nil_parent s t (top k) -> kb k c n -> rb (mk d c Leaf p t) n ->
  runs (if is_red c then mret tt else ndrx_rbt_delete_fixup (ptr t)) s (fun _ s' => exists t' m,
    evolves s (fill k t) s' t' /\ rb t' m /\ color_of t' = RBTBLACK).
Proof.
  intros H Hn K Hb. apply rb_mk_inv in Hb. destruct c; cbn [is_red].
  - destruct Hb as (n' & -> & _ & Hb). apply (delete_fixup_ok s t k n'); auto using rb_short.
  - destruct Hb as (_ & Hb & _ & Cb). apply rb_runs_ret.
    destruct (kb_fill k _ _ _ K Hb) as (m & Hm & Cm); [done|].
    exists (fill k t), m. split_and!; [by apply evolves_refl|done..].
Qed.

End Fixup.

(** ** Unlinking *)

Section Unlink.
Context {D : Type}.
Implicit Types s : ndrx_rbt_tree_t D.

(** [u], which hangs at the place, gives way to the tree [v]. *)
Lemma transplant_ok s k u v nu par :
  ctx_repr (rb_nodes s) k u (rb_root s) -> rb_nodes s !! u = Some nu -> n_parent nu = top k ->
  repr (rb_nodes s) v par -> nil_ok (rb_nodes s) -> addrs_ok (u :: inorder v ++ ctx_addrs k) ->
  runs (ndx_rbt_transplant u (ptr v)) s (fun _ s' =>
    tree_at s' (fill k v) /\ nil_parent s' v (top k) /\ rb_data s' = rb_data s /\
    (forall q : Z, (q ∉ ctx_addrs k) -> q <> ptr v -> rb_nodes s' !! q = rb_nodes s !! q)).
Proof.
  intros K Eu Ep Hv (sp & Hn) N. addrs N. unfold ndx_rbt_transplant.
  apply rb_runs_bind. eapply runs_ld; [done|]. rewrite Ep. apply rb_runs_bind.
  change (runs (hang L u (ptr v) (top k)) s (fun _ s1 => runs (up ← ld n_parent u; st (set_parent up) (ptr v)) s1
    (fun _ s' => tree_at s' (fill k v) /\ nil_parent s' v (top k) /\ rb_data s' = rb_data s /\
      (forall q : Z, (q ∉ ctx_addrs k) -> q <> ptr v -> rb_nodes s' !! q = rb_nodes s !! q)))).
  eapply rb_runs_mono; [apply hang_ok; [done..|by split_and!]|]. intros [] s1 (K1 & Ed & Fr).
  rewrite <-Fr in Eu, Hn by done. run1. eapply runs_ld; [done|]. rewrite Ep.
  assert (Hv1 : repr (rb_nodes s1) v par).
  { eapply repr_agree; [|done]. intros q Hq. apply Fr. away. }
  destruct v as [|c l p r]; cbn [ptr] in *.
  - eapply runs_st; [exact Hn|]. split_and!; [|intros _|done|].
    + apply tree_at_fill. cbn [rb_nodes rb_root ptr inorder app]. split; [done|]. split; [by apply ctx_other|].
      split; [by split_and!|]. eexists. by rewrite lookup_insert_eq.
    + eexists. cbn [rb_nodes]. by rewrite lookup_insert_eq.
    + intros q Hq Hp. cbn [rb_nodes]. rewrite lookup_insert_ne by done. by apply Fr.
  - assert (Nv' : addrs_ok (inorder (Node c l p r) ++ ctx_addrs k)) by (by apply addrs_ok_cons in N as (_ & _ & _ & N)).
    assert (Nv : addrs_ok (inorder (Node c l p r))) by (by apply addrs_ok_app in Nv' as (Nv & _)).
    pose proof Hv1 as (Ep1 & _). eapply runs_st; [exact Ep1|]. addrs N. split_and!; [|done|done|].
    + apply tree_at_fill. cbn [rb_nodes rb_root ptr]. split_and!.
      * apply (repr_reparent _ (Node c l p r) par); [done|apply Nv|done|done].
      * apply ctx_other; away.
      * exact Nv'.
      * exists sp. by rewrite lookup_insert_ne by done.
    + intros q Hq Hp. cbn [rb_nodes]. rewrite lookup_insert_ne by done. by apply Fr.
Qed.

(** [y], whose right subtree is [r], takes the place of [z], whose left subtree is [l]. *)
Lemma replace_ok {B} (res : B) s k z c l zr y ny r :
  ctx_repr (rb_nodes s) k z (rb_root s) ->
  rb_nodes s !! z = Some (mk_node c (ptr l) zr (top k)) -> rb_nodes s !! y = Some ny -> n_right ny = ptr r ->
  repr (rb_nodes s) l z -> l <> Leaf -> repr (rb_nodes s) r y -> nil_ok (rb_nodes s) ->
  addrs_ok (z :: y :: inorder l ++ inorder r ++ ctx_addrs k) ->
  runs (ndx_rbt_transplant z y;; zl ← ld n_left z; st (set_left zl) y;;
        yl ← ld n_left y; st (set_parent y) yl;; zc ← ld n_color z; st (set_color zc) y;;
        mret (M:=Rb D) res) s (fun a s' => a = res /\
    tree_at s' (fill k (Node c l y r)) /\ rb_data s' = rb_data s /\ rb_nodes s' !! RBTNIL = rb_nodes s !! RBTNIL /\
    (forall q : Z, q ∉ y :: inorder l ++ ctx_addrs k -> rb_nodes s' !! q = rb_nodes s !! q)).
Proof.
  intros K Ez Ey Er Hl Hne Hr (sp & Hn) N. addrs N. apply rb_runs_bind.
  unfold ndx_rbt_transplant at 1. apply rb_runs_bind. eapply runs_ld; [done|]. cbn [n_parent]. apply rb_runs_bind.
  eapply rb_runs_mono; [apply (hang_ok L s k z y); [done..|by split_and!]|]. intros [] s1 (K1 & Ed & Fr).
  assert (Hl1 : repr (rb_nodes s1) l z) by (eapply repr_agree; [|done]; intros q Hq; apply Fr; away).
  assert (Hr1 : repr (rb_nodes s1) r y) by (eapply repr_agree; [|done]; intros q Hq; apply Fr; away).
  rewrite <-!Fr in Ez, Ey, Hn by done. destruct ny as [cn nl nr np]. cbn in Er. subst nr.
  destruct l as [|cl ll pl lr]; [done|]. pose proof Hl1 as (El & _).
  addrs N. assert (pl <> y /\ pl <> z /\ pl <> RBTNIL) as (? & ? & ?) by done.
  cbn [ptr] in *. repeat run1. split; [done|]. split_and!; [|done| |].
  - apply tree_at_fill. cbn [rb_nodes rb_root ptr]. split; [|split; [|split]].
    + apply (repr_mk _ L). rewrite lookup_insert_eq. split; [done|]. split; [|do 4 (apply repr_other; [away|]); done].
      apply repr_other; [away|]. apply (repr_reparent _ (Node cl ll pl lr) z); [done|done| |look].
      do 2 (apply repr_other; [away|]). done.
    + do 4 (apply ctx_other; [away|]). done.
    + apply addrs_ok_cons in N as (_ & _ & _ & N). eapply addrs_ok_perm; [|exact N]. cbn [inorder]. solve_Permutation.
    + exists sp. by rewrite !lookup_insert_ne by done.
  - rewrite !lookup_insert_ne by done. by apply Fr.
  - intros q Hq. assert (Hp : q <> pl) by (intros ->; apply Hq; set_solver).
    notin Hq. rewrite !lookup_insert_ne by done. by apply Fr.
Qed.

(** Down one side to the end. *)
Lemma end_loop_ok d f s k t :
  (height t <= f)%nat -> t <> Leaf -> tree_at s (fill k t) ->
  runs (end_loop (child d) f (ptr t)) s (fun p s' => s' = s /\ exists kk c r,
    t = fill kk (mk d c Leaf p r) /\ match d with L => before kk = [] | R => after kk = [] end).
Proof.
  revert k t. induction f as [|f IH]; intros k t Hf Ht H; [destruct t; cbn in Hf; [done|lia]|].
  assert (exists c a p b, t = mk d c a p b) as (c & a & p & b & ->).
  { destruct t as [|c l p r]; [done|]. destruct d; [exists c, l, p, r|exists c, r, p, l]; done. }
  cbn [end_loop]. rewrite ptr_mk. apply rb_runs_bind. eapply runs_ld; [by apply at_node in H|]. rewrite child_on.
  destruct a as [|ca la q ra] eqn:Ea.
  - cbn [ptr]. rewrite Z.eqb_refl. apply rb_runs_ret. split; [done|]. exists [], c, b. by destruct d.
  - assert (q <> RBTNIL) by exact (proj2 (at_addr L s (Fr d c p b :: k) ca la q ra H)).
    cbn [ptr]. rewrite (proj2 (Z.eqb_neq q RBTNIL)) by done. rewrite <-Ea in *.
    replace q with (ptr a) by (by rewrite Ea).
    eapply rb_runs_mono; [apply (IH (Fr d c p b :: k) a)|].
    + destruct d; cbn in Hf; lia.
    + by rewrite Ea.
    + done.
    + intros p' s' (-> & kk & c' & r' & E' & Hk). split; [done|].
      exists (kk ++ [Fr d c p b]), c', r'. rewrite fill_app, <-E'. split; [done|].
      destruct d; rewrite ?before_app, ?fr_after_app, Hk; done.
Qed.

End Unlink.

(** ** The whole deletion *)

(** A tree does not notice what happens elsewhere. *)
Lemma rbt_at_frame {D} (s s' : ndrx_rbt_tree_t D) l :
  rbt_at s l -> rb_root s' = rb_root s -> nil_ok (rb_nodes s') ->
  (forall p : Z, p ∈ l -> rb_nodes s' !! p = rb_nodes s !! p) -> rbt_at s' l.
Proof.
  intros (t & n & (H1 & H2 & H3 & _) & Hb & Hc & <-) Hr Hn E. exists t, n. split; [|done].
  split_and!; [exact (repr_agree _ _ _ _ E H1)|by rewrite Hr|done|done].
Qed.

Lemma rbt_at_nil_ok {D} (s : ndrx_rbt_tree_t D) l : rbt_at s l -> nil_ok (rb_nodes s).
Proof. by intros (t & n & (_ & _ & _ & H) & _). Qed.

Lemma rbt_at_addrs {D} (s : ndrx_rbt_tree_t D) l : rbt_at s l -> addrs_ok l.
Proof. intros (t & n & (_ & _ & H & _) & _ & _ & <-). done. Qed.

Section Del.
Context {D : Type} (rbt : rbt_funcs D).
Implicit Types s : ndrx_rbt_tree_t D.

(** What the caller's data becomes when the entry is freed. *)
Definition freed (z : Z) (d d' : D) : Prop :=
  match freefunc rbt with Some free => free z d = Some d' | None => d' = d end.

(** Unlinking from the tree [t0] without the repair: the nodes left are [l]; the node
    that is missing had the colour [c] and the subtree [t], which is at the place [k]. *)
Definition unlinked s (t0 : tree) (l : list Z) (xc : Z * rbt_color) s' : Prop :=
  exists d k t p n, xc.1 = ptr t /\ tree_at s' (fill k t) /\ nil_parent s' t (top k) /\
    kb k xc.2 n /\ rb (mk d xc.2 Leaf p t) n /\ inorder (fill k t) = l /\ rb_data s' = rb_data s /\
    forall q : Z, q ∉ inorder t0 -> q <> RBTNIL -> rb_nodes s' !! q = rb_nodes s !! q.

(** A node with at most one child. *)
Lemma unlink_one d s k c z t n :
  tree_at s (fill k (mk d c Leaf z t)) -> kb k c n -> rb (mk d c Leaf z t) n ->
  runs (ndx_rbt_transplant z (ptr t);; mret (M:=Rb D) (ptr t, c)) s
    (unlinked s (fill k (mk d c Leaf z t)) (before k ++ inorder t ++ after k)).
Proof.
  intros H K Hb. pose proof (at_node _ _ _ _ _ _ _ H) as Ez. rewrite tree_at_fill, inorder_mk_perm, ptr_mk in H.
  destruct H as (H & Kr & N & Hn). apply repr_mk in H as (_ & _ & Ht).
  apply rb_runs_bind. eapply rb_runs_mono; [eapply (transplant_ok s k z t); [done|exact Ez|by rewrite n_parent_on|done..]|].
  intros [] s1 (H1 & Hp & Ed & Fr). apply rb_runs_ret. exists d, k, t, z, n. cbn [fst snd]. split_and!; try done.
  - apply inorder_fill.
  - intros q Hq Hnil. rewrite fill_perm, inorder_mk_perm in Hq.
    apply Fr; [set_solver|]. destruct t; cbn in *; set_solver.
Qed.

(** A node with two children gives its place and its colour to its successor. *)
Definition unlink_two (z zr : Z) : Rb D (Z * rbt_color) :=
  y ← ndrx_rbt_tree_minimum zr;
  y_original_color ← ld n_color y;
  x ← ld n_right y;
  yp ← ld n_parent y;
  (if yp =? z then st (set_parent y) x
   else
     ndx_rbt_transplant y x;;
     zr ← ld n_right z;
     st (set_right zr) y;;
     yr ← ld n_right y;
     st (set_parent y) yr);;
  ndx_rbt_transplant z y;;
  zl ← ld n_left z;
  st (set_left zl) y;;
  yl ← ld n_left y;
  st (set_parent y) yl;;
  zc ← ld n_color z;
  st (set_color zc) y;;
  mret (M:=Rb D) (x, y_original_color).

Lemma kb_readdr k1 d c p p' w k2 c' n : kb (k1 ++ Fr d c p w :: k2) c' n -> kb (k1 ++ Fr d c p' w :: k2) c' n.
Proof.
  revert c' n. induction k1 as [|[d1 c1 p1 s1] k1 IH]; intros c' n K; cbn in *;
    inversion K; subst; constructor; auto.
Qed.

(** The right subtree of [z], without [y], hangs under [y] before [y] moves. *)
Definition ready s (k : list frame) c (zl : tree) z y (zr' yr : tree) par s' : Prop :=
  exists zr ny, ctx_repr (rb_nodes s') k z (rb_root s') /\
    rb_nodes s' !! z = Some (mk_node c (ptr zl) zr (top k)) /\ rb_nodes s' !! y = Some ny /\
    n_right ny = ptr zr' /\ repr (rb_nodes s') zl z /\ repr (rb_nodes s') zr' y /\
    nil_ok (rb_nodes s') /\ rb_data s' = rb_data s /\ nil_parent s' yr par /\
    forall q : Z, q ∉ y :: inorder (fill k (Node c zl z zr')) -> q <> RBTNIL -> rb_nodes s' !! q = rb_nodes s !! q.

Lemma ready_near s k c zl z cy y yr :
  tree_at s (fill k (Node c zl z (Node cy Leaf y yr))) ->
  runs (st (set_parent y) (ptr yr)) s (fun _ s' => ready s k c zl z y yr yr y s').
Proof.
  intros H. pose proof (at_node L _ _ _ _ _ _ H) as Ez. cbn [node_on ptr] in Ez.
  pose proof (at_node L s (Fr R c z zl :: k) cy Leaf y yr H) as Ey. cbn [node_on ptr top fr_addr] in Ey.
  rewrite tree_at_fill in H. destruct H as (H & K & N & sp & Hn). cbn in H. destruct H as (_ & Hl & _ & _ & Hr).
  addrs N. destruct yr as [|cr rl pr rr].
  - eapply runs_st; [exact Hn|]. eexists _, _. cbn [rb_nodes rb_root rb_data ptr].
    rewrite !lookup_insert_ne by done. split; [by apply ctx_other|]. split; [exact Ez|]. split; [exact Ey|].
    split; [done|]. split; [apply repr_other; [away|done]|]. split; [done|].
    split; [eexists; by rewrite lookup_insert_eq|]. split; [done|].
    split; [intros _; eexists; cbn [rb_nodes]; by rewrite lookup_insert_eq|].
    intros q _ Hq. by rewrite lookup_insert_ne by done.
  - pose proof Hr as (Er & _). eapply runs_st; [exact Er|]. cbn [set_parent n_color n_left n_right].
    rewrite insert_id by exact Er. eexists _, _. cbn [rb_nodes rb_root rb_data].
    split; [done|]. split; [exact Ez|]. split; [exact Ey|]. split; [done|]. split; [done|]. split; [done|].
    split; [by eexists|]. done.
Qed.

Lemma ready_link s s0 k c zl z y ny zr yr par :
  tree_at s (fill k (Node c zl z zr)) -> zr <> Leaf -> rb_nodes s !! y = Some ny ->
  (y ∉ inorder (fill k (Node c zl z zr))) -> y <> RBTNIL -> nil_parent s yr par -> rb_data s = rb_data s0 ->
  (forall q : Z, q ∉ y :: inorder (fill k (Node c zl z zr)) -> q <> RBTNIL -> rb_nodes s !! q = rb_nodes s0 !! q) ->
  runs (zr ← ld n_right z; st (set_right zr) y;; yr ← ld n_right y; st (set_parent y) yr) s
    (fun _ s' => ready s0 k c zl z y zr yr par s').
Proof.
  intros H Hne Ey Hy Hy1 Hp Ed Fr. pose proof (at_node L _ _ _ _ _ _ H) as Ez. cbn [node_on] in Ez.
  rewrite tree_at_fill in H. destruct H as (H & K & N & sp & Hn). apply (repr_mk _ L) in H as (_ & Hl & Hr).
  destruct zr as [|cz lz pz rz]; [done|]. pose proof Hr as (Er & _). rewrite fill_perm in Hy. notin Hy. addrs N.
  cbn [ptr] in *. repeat run1. eexists _, _. cbn [rb_nodes rb_root rb_data].
  rewrite (lookup_insert_ne _ pz z), (lookup_insert_ne _ y z), (lookup_insert_ne _ pz y), lookup_insert_eq by done.
  split; [do 2 (apply ctx_other; [away|]); done|]. split; [exact Ez|]. split; [done|]. split; [done|].
  split; [do 2 (apply repr_other; [away|]); done|].
  split; [apply (repr_reparent _ (Node cz lz pz rz) z); [done| |apply repr_other; [away|done]|look]|].
  { apply addrs_ok_app in N as (N & _). cbn in N. apply addrs_ok_app in N as (_ & N & _).
    apply addrs_ok_cons in N as (_ & _ & _ & N). apply N. }
  split; [exists sp; by rewrite !lookup_insert_ne by done|]. split; [done|].
  split; [intros Hy'; destruct (Hp Hy') as (n & En & ?); exists n; cbn [rb_nodes]; by rewrite !lookup_insert_ne by done|].
  intros q Hq Hq1. assert (q <> pz) by (intros ->; apply Hq; rewrite fill_perm; cbn; set_solver).
  rewrite !lookup_insert_ne by (done || set_solver). by apply Fr.
Qed.

Lemma ready_far s f k c zl z ky cy y yr :
  tree_at s (fill k (Node c zl z (fill (ky ++ [f]) (Node cy Leaf y yr)))) ->
  runs (ndx_rbt_transplant y (ptr yr);;
        zr ← ld n_right z;
        st (set_right zr) y;;
        yr ← ld n_right y;
        st (set_parent y) yr) s (fun _ s' => ready s k c zl z y (fill (ky ++ [f]) yr) yr (top (ky ++ [f])) s').
Proof.
  intros H. assert (Ef : forall t, fill k (Node c zl z (fill (ky ++ [f]) t)) = fill ((ky ++ [f]) ++ Fr R c z zl :: k) t).
  { intros t. by rewrite (fill_app (ky ++ [f])). }
  assert (Et : top ((ky ++ [f]) ++ Fr R c z zl :: k) = top (ky ++ [f])) by (by destruct ky).
  rewrite Ef in H. pose proof (at_node L _ _ _ _ _ _ H) as Ey.
  rewrite tree_at_fill in H. destruct H as (H & K & N & Hn). cbn in H. destruct H as (_ & _ & Hr).
  apply rb_runs_bind. eapply rb_runs_mono.
  { eapply (transplant_ok s _ y yr); [exact K|exact Ey|done|done|done|]. exact N. }
  intros [] s1 (H1 & Hp & Ed & Fr). rewrite Et in Hp. pose proof N as N'. cbn [inorder app] in N'.
  apply addrs_ok_cons in N' as (Hy & Hy0 & Hy1 & N').
  rewrite <-Fr in Ey by (destruct yr; cbn in *; set_solver). rewrite <-Ef in H1.
  assert (HyT : y ∉ inorder (fill k (Node c zl z (fill (ky ++ [f]) yr)))) by (rewrite Ef, fill_perm; exact Hy).
  assert (Fr' : forall q : Z, q ∉ y :: inorder (fill k (Node c zl z (fill (ky ++ [f]) yr))) -> q <> RBTNIL ->
            rb_nodes s1 !! q = rb_nodes s !! q).
  { intros q Hq Hnil. rewrite Ef, fill_perm in Hq. apply Fr; [set_solver|]. destruct yr; cbn in *; set_solver. }
  eapply ready_link; try done. intros E. pose proof (fill_length (ky ++ [f]) yr) as Hl.
  rewrite E, length_app in Hl. cbn in Hl. lia.
Qed.

Lemma ready_ok s k c zl z ky cy y yr :
  tree_at s (fill (ky ++ Fr R c z zl :: k) (Node cy Leaf y yr)) ->
  runs (if top (ky ++ Fr R c z zl :: k) =? z then st (set_parent y) (ptr yr)
        else
          ndx_rbt_transplant y (ptr yr);;
          zr ← ld n_right z;
          st (set_right zr) y;;
          yr ← ld n_right y;
          st (set_parent y) yr) s
    (fun _ s' => ready s k c zl z y (fill ky yr) yr (top (ky ++ Fr R c y zl :: k)) s').
Proof.
  intros H. destruct ky as [|f ky _] using rev_ind.
  { cbn [app top fr_addr]. rewrite Z.eqb_refl. eapply ready_near. exact H. }
  assert (Et : forall p, top ((ky ++ [f]) ++ Fr R c p zl :: k) = top (ky ++ [f])) by (by destruct ky).
  assert (Hz : top (ky ++ [f]) <> z).
  { rewrite tree_at_fill in H. destruct H as (_ & _ & N & _). apply addrs_ok_app in N as (_ & N & _).
    rewrite ctx_addrs_app in N. cbn in N. apply addrs_ok_app in N as (_ & _ & N).
    intros Ez. apply (N (top (ky ++ [f]))); [apply top_in; by destruct ky|]. rewrite Ez. by left. }
  rewrite !Et. rewrite (proj2 (Z.eqb_neq _ z)) by done. rewrite fill_app in H. eapply ready_far. exact H.
Qed.

Lemma unlink_two_ok s k c zl z zr m :
  tree_at s (fill k (Node c zl z zr)) -> zl <> Leaf -> zr <> Leaf ->
  rb (fill k (Node c zl z zr)) m -> color_of (fill k (Node c zl z zr)) = RBTBLACK ->
  runs (unlink_two z (ptr zr)) s
    (unlinked s (fill k (Node c zl z zr)) (before k ++ (inorder zl ++ inorder zr) ++ after k)).
Proof.
  intros H Hl Hr Hb Cb. unfold unlink_two. apply rb_runs_bind. unfold ndrx_rbt_tree_minimum. apply rb_runs_bind, runs_fuel.
  eapply rb_runs_mono; [apply (end_loop_ok L _ s (Fr R c z zl :: k) zr)|]; try done.
  { pose proof (at_size _ _ H) as Hs. rewrite fill_perm, length_app in Hs. cbn in Hs. rewrite length_app in Hs.
    pose proof (height_inorder zr). cbn in Hs. lia. }
  intros y s' (-> & ky & cy & yr & -> & Hk). cbn [mk] in *.
  change (fill k (Node c zl z (fill ky (Node cy Leaf y yr)))) with
    (fill (Fr R c z zl :: k) (fill ky (Node cy Leaf y yr))) in H, Hb, Cb.
  rewrite <-fill_app in H, Hb, Cb. destruct (rb_split _ _ _ Hb Cb) as (n & K & Hy). clear Hb Cb.
  pose proof (at_node L _ _ _ _ _ _ H) as Ey. do 3 (apply rb_runs_bind; eapply runs_ld; [exact Ey|]).
  cbn [node_on n_color n_right n_parent]. apply rb_runs_bind.
  eapply rb_runs_mono; [exact (ready_ok _ _ _ _ _ _ _ _ _ H)|].
  intros [] s1 (zr & ny & K1 & Ez1 & Ey1 & Er1 & Hl1 & Hr1 & Hn1 & Ed1 & Hp1 & Fr1).
  rewrite tree_at_fill in H. destruct H as (_ & _ & N & _).
  eapply rb_runs_mono; [eapply (replace_ok (ptr yr, cy) s1 k z c zl zr y ny (fill ky yr)); try done|].
  { eapply addrs_ok_perm; [|exact N]. rewrite ctx_addrs_app, fill_perm. cbn. solve_Permutation. }
  intros ? s2 (-> & H2 & Ed2 & En2 & Fr2). exists L, (ky ++ Fr R c y zl :: k), yr, y, n. cbn [fst snd mk].
  rewrite fill_app. split; [done|]. split; [exact H2|].
  split; [intros E; destruct (Hp1 E) as (n1 & ? & ?); exists n1; by rewrite En2|].
  split; [by eapply kb_readdr|]. split; [done|]. split; [|split; [congruence|]].
  - cbn [fill fr_side fr_color fr_addr fr_sib mk]. rewrite inorder_fill. cbn [inorder].
    rewrite !inorder_fill, Hk. cbn. by rewrite <-!app_assoc.
  - intros q Hq Hq1. rewrite fill_perm in Hq. cbn [inorder] in Hq. rewrite fill_perm in Hq. cbn [inorder] in Hq.
    rewrite Fr2, Fr1; [done| |done|set_solver].
    rewrite fill_perm. cbn [inorder]. rewrite fill_perm. set_solver.
Qed.

Lemma at_leaf s k t : tree_at s (fill k t) -> (ptr t = RBTNIL <-> t = Leaf).
Proof.
  intros H. destruct t as [|c l p r]; [done|]. split; [|done]. intros E.
  by destruct (at_addr L _ _ _ _ _ _ H) as [_ ?].
Qed.

Lemma unlink_ok s k c zl z zr m :
  tree_at s (fill k (Node c zl z zr)) ->
  rb (fill k (Node c zl z zr)) m -> color_of (fill k (Node c zl z zr)) = RBTBLACK ->
  runs (if ptr zl =? RBTNIL then
          x ← ld n_right z; ndx_rbt_transplant z x;; mret (M:=Rb D) (x, c)
        else
          zr ← ld n_right z;
          if zr =? RBTNIL then
            x ← ld n_left z; ndx_rbt_transplant z x;; mret (M:=Rb D) (x, c)
          else unlink_two z zr) s
    (unlinked s (fill k (Node c zl z zr)) (before k ++ (inorder zl ++ inorder zr) ++ after k)).
Proof.
  intros H Hb Cb. destruct (rb_split _ _ _ Hb Cb) as (n & K & Hz). pose proof (at_node L _ _ _ _ _ _ H) as Ez.
  pose proof (at_leaf s (Fr L c z zr :: k) zl H) as El. pose proof (at_leaf s (Fr R c z zl :: k) zr H) as Er.
  destruct (Z.eqb_spec (ptr zl) RBTNIL) as [E|E].
  - apply El in E as ->. apply rb_runs_bind. eapply runs_ld; [exact Ez|]. exact (unlink_one L s k c z zr n H K Hz).
  - apply rb_runs_bind. eapply runs_ld; [exact Ez|]. cbn [node_on n_right].
    destruct (Z.eqb_spec (ptr zr) RBTNIL) as [E'|E'].
    + apply Er in E' as ->. apply rb_runs_bind. eapply runs_ld; [exact Ez|]. cbn [inorder]. rewrite app_nil_r.
      exact (unlink_one R s k c z zl n H K Hz).
    + eapply unlink_two_ok; [done| | |done|done]; [by intros ->; apply E|by intros ->; apply E'].
Qed.

(** The node that is deleted is no other. *)
Lemma gone_elsewhere s k c zl z zr : tree_at s (fill k (Node c zl z zr)) -> z ∉ RBTNIL :: (before k ++ inorder zl) ++ inorder zr ++ after k.
Proof.
  intros (_ & _ & Ha & _). rewrite inorder_fill in Ha. cbn [inorder] in Ha. destruct Ha as (N & _ & Hnil).
  replace (before k ++ (inorder zl ++ z :: inorder zr) ++ after k) with ((before k ++ inorder zl) ++ z :: inorder zr ++ after k) in N, Hnil by (by rewrite <-!app_assoc).
  apply NoDup_app in N as (_ & N2 & N3). apply NoDup_cons in N3 as [N3 _]. set_solver.
Qed.

(** Deleting a node leaves a balanced tree with the others. *)
Lemma delete_ok s l1 z l2 d' :
  rbt_at s (l1 ++ z :: l2) -> freed z (rb_data s) d' ->
  runs (ndrx_rbt_delete rbt z) s (fun _ s' =>
    rbt_at s' (l1 ++ l2) /\ rb_data s' = d' /\ outside (RBTNIL :: l1 ++ z :: l2) s s').
Proof.
  intros (t & m & H & Hb & Cb & Ei) Hf. unfold ndrx_rbt_delete, ndrx_rbt_delete_node. rewrite <-Ei.
  destruct (find_place _ _ _ _ Ei) as (k & c & zl & zr & -> & <- & <-). pose proof (at_node L _ _ _ _ _ _ H) as Ez.
  do 2 (apply rb_runs_bind; eapply runs_ld; [exact Ez|]). cbn [node_on n_left n_color]. apply rb_runs_bind.
  eapply rb_runs_mono; [exact (unlink_ok s k c zl z zr m H Hb Cb)|].
  intros [x cx] s1 (d & k1 & t1 & p & n & Ex & H1 & Hp & K1 & Hb1 & Ei1 & Ed1 & Fr1). cbn [fst snd] in *. subst x.
  apply rb_runs_bind. eapply rb_runs_mono; [eapply (delete_finish d); done|].
  intros [] s2 (t2 & m2 & (H2 & Ei2 & Fr2 & Ed2) & Hb2 & Cb2).
  assert (Hfin : rbt_at s2 ((before k ++ inorder zl) ++ inorder zr ++ after k)).
  { exists t2, m2. split_and!; [done..|]. rewrite Ei2, Ei1. by rewrite <-!app_assoc. }
  assert (Hout : outside (RBTNIL :: inorder (fill k (Node c zl z zr))) s s2).
  { intros q Hq. notin Hq. rewrite Fr2, Fr1; [done..|]. rewrite Ei1. rewrite inorder_fill in *. cbn in *. set_solver. }
  unfold freed in Hf. destruct (freefunc rbt) as [free|].
  - apply rb_runs_bind. eexists tt, _. unfold with_data. rewrite Ed2, Ed1, Hf. split; [done|]. eexists tt, _. split; [done|].
    assert (Hz : (z ∉ RBTNIL :: (before k ++ inorder zl) ++ inorder zr ++ after k)) by exact (gone_elsewhere _ _ _ _ _ _ H).
    split_and!; [|done|].
    + eapply rbt_at_frame; [exact Hfin|done| |].
      * destruct (rbt_at_nil_ok _ _ Hfin) as [sp Hsp]. exists sp. cbn. rewrite lookup_delete_ne; [exact Hsp|]. intros ->. apply Hz. by left.
      * intros q Hq. cbn. apply lookup_delete_ne. intros ->. apply Hz. by right.
    + intros q Hq. cbn. rewrite lookup_delete_ne; [by apply Hout|]. intros ->. apply Hq. right. rewrite inorder_fill. cbn. set_solver.
  - apply rb_runs_ret. split; [exact Hfin|]. split; [congruence|done].
Qed.

End Del.
