(* ===== verification/RbTreeOk.v ===== *)
(** * The contract of the red-black tree

    The tree of [libnstd/rbtree.c] as a list of nodes in the order of the comparator:
    what each operation does to the list, the number of rounds a search takes, and the
    refinement of every sequence of operations. *)

From stdpp Require Import gmap sorting.
From S2P Require Import Prelude RbTree RbShape RbMem RbInsert RbDelete.

Local Open Scope Z_scope.

Section Search.
Context {D : Type} (rbt : rbt_funcs D).
Implicit Types s : ndrx_rbt_tree_t D.

(** The nodes of a list that rbt_compare less than, equal to and greater than [p]. *)
Definition parted (d : D) (p : Z) (l1 lm l2 : list Z) : Prop :=
  (forall q, q ∈ l1 -> 0 < comparator rbt d p q) /\ (forall q, q ∈ lm -> comparator rbt d p q = 0) /\
  (forall q, q ∈ l2 -> comparator rbt d p q < 0).

Lemma parted_node d p l q r t1 tm t2 :
  l ++ q :: r = t1 ++ tm ++ t2 -> parted d p t1 tm t2 ->
  let c := comparator rbt d p q in
  (c < 0 /\ exists u, l = t1 ++ tm ++ u /\ t2 = u ++ q :: r /\ parted d p t1 tm u) \/
  (c = 0 /\ exists u v, l = t1 ++ u /\ tm = u ++ q :: v /\ r = v ++ t2 /\ parted d p t1 u [] /\ parted d p [] v t2) \/
  (0 < c /\ exists u, t1 = l ++ q :: u /\ r = u ++ tm ++ t2 /\ parted d p u tm t2).
Proof.
  intros E (P1 & Pm & P2) c. unfold c, parted.
  assert (Hq : q ∈ t1 ++ tm ++ t2) by (rewrite <-E; set_solver). rewrite !elem_of_app in Hq.
  destruct Hq as [Hq|[Hq|Hq]].
  - specialize (P1 _ Hq) as Hc. right. right. split; [done|].
    destruct (split_at_r _ _ t1 (tm ++ t2) q E) as (u & -> & ->).
    { intros [H|H]%elem_of_app; [specialize (Pm _ H)|specialize (P2 _ H)]; lia. }
    exists u. split_and!; try done. intros. apply P1. set_solver.
  - specialize (Pm _ Hq) as Hc. right. left. split; [done|].
    rewrite app_assoc in E. destruct (split_at_r _ _ (t1 ++ tm) t2 q E) as (v & Ev & E1).
    { intros H. specialize (P2 _ H). lia. }
    symmetry in E1. destruct (split_at_l _ _ t1 tm q E1) as (u & -> & ->).
    { intros H. specialize (P1 _ H). lia. }
    exists u, v. split_and!; try done; try set_solver; intros; apply Pm; set_solver.
  - specialize (P2 _ Hq) as Hc. left. split; [done|].
    rewrite app_assoc in E. destruct (split_at_l _ _ (t1 ++ tm) t2 q E) as (u & -> & ->).
    { intros [H|H]%elem_of_app; [specialize (P1 _ H)|specialize (Pm _ H)]; lia. }
    exists u. rewrite <-app_assoc. split_and!; try done. intros. apply P2. set_solver.
Qed.

(** [find]: a node that compares equal; a descent takes one round for each level. *)
Lemma find_loop_ok f s p k t t1 tm t2 :
  (height t < f)%nat -> tree_at s (fill k t) -> inorder t = t1 ++ tm ++ t2 -> parted (rb_data s) p t1 tm t2 ->
  runs (find_loop rbt f p (ptr t)) s (fun r s' => s' = s /\ (tm = [] /\ r = NULL \/ r ∈ tm)).
Proof.
  revert k t t1 tm t2. induction f as [|f IH]; intros k t t1 tm t2 Hf H E P; [lia|]. cbn [find_loop].
  destruct t as [|c l q r].
  { cbn in E. symmetry in E. apply app_nil in E as [-> [-> ->]%app_nil].
    cbn [ptr]. rewrite Z.eqb_refl. apply rb_runs_ret. auto. }
  cbn [inorder] in E. cbn in Hf. destruct (at_addr L _ _ _ _ _ _ H) as [_ Hq]. pose proof (at_node L _ _ _ _ _ _ H) as Eq.
  cbn [ptr]. rewrite (proj2 (Z.eqb_neq q RBTNIL)) by done. apply rb_runs_bind. eexists _, _. split; [done|].
  destruct (parted_node _ _ _ _ _ _ _ _ E P) as [(Hc & u & El & -> & P')|[(Hc & u & v & El & -> & Ev & P')|(Hc & u & -> & Er & P')]].
  - rewrite (proj2 (Z.eqb_neq _ 0)), (proj2 (Z.ltb_lt _ 0)) by lia.
    apply rb_runs_bind. eapply runs_ld; [exact Eq|]. apply (IH (Fr L c q r :: k) l t1 tm u); [lia|done..].
  - rewrite (proj2 (Z.eqb_eq _ 0)) by lia. apply rb_runs_ret. split; [done|]. right. set_solver.
  - rewrite (proj2 (Z.eqb_neq _ 0)), (proj2 (Z.ltb_ge _ 0)) by lia.
    apply rb_runs_bind. eapply runs_ld; [exact Eq|]. apply (IH (Fr R c q l :: k) r u tm t2); [lia|done..].
Qed.

(** The first node after [p], or [g] where there is none. *)
Lemma find_great_loop_ok f s p em k t t1 tm t2 g :
  (height t < f)%nat -> tree_at s (fill k t) -> inorder t = t1 ++ tm ++ t2 -> parted (rb_data s) p t1 tm t2 ->
  runs (find_great_loop rbt f p em (ptr t) g) s (fun r s' => s' = s /\
    (em = true /\ tm <> [] /\ r ∈ tm \/ (em = false \/ tm = []) /\ r = hd g t2)).
Proof.
  revert k t t1 tm t2 g. induction f as [|f IH]; intros k t t1 tm t2 g Hf H E P; [lia|]. cbn [find_great_loop].
  destruct t as [|c l q r].
  { cbn in E. symmetry in E. apply app_nil in E as [-> [-> ->]%app_nil].
    cbn [ptr]. rewrite Z.eqb_refl. apply rb_runs_ret. auto. }
  cbn [inorder] in E. cbn in Hf. destruct (at_addr L _ _ _ _ _ _ H) as [_ Hq]. pose proof (at_node L _ _ _ _ _ _ H) as Eq.
  cbn [ptr]. rewrite (proj2 (Z.eqb_neq q RBTNIL)) by done. apply rb_runs_bind. eexists _, _. split; [done|].
  destruct (parted_node _ _ _ _ _ _ _ _ E P) as [(Hc & u & El & -> & P')|[(Hc & u & v & El & -> & Ev & P1 & P2)|(Hc & u & -> & Er & P')]].
  - rewrite (proj2 (Z.eqb_neq _ 0)), andb_false_r, (proj2 (Z.ltb_lt _ 0)) by lia.
    apply rb_runs_bind. eapply runs_ld; [exact Eq|].
    eapply rb_runs_mono; [apply (IH (Fr L c q r :: k) l t1 tm u q); [lia|done..]|].
    intros x s' (-> & Hx). split; [done|]. destruct Hx as [?|[? ->]]; [auto|]. right. split; [done|]. by destruct u.
  - rewrite (proj2 (Z.eqb_eq _ 0)) by lia. destruct em; cbn [andb].
    + apply rb_runs_ret. split; [done|]. left. split_and!; [done|by destruct u|set_solver].
    + rewrite (proj2 (Z.ltb_ge _ 0)) by lia. apply rb_runs_bind. eapply runs_ld; [exact Eq|].
      eapply rb_runs_mono; [apply (IH (Fr R c q l :: k) r [] v t2 g); [lia|done..]|].
      intros x s' (-> & Hx). split; [done|]. destruct Hx as [[? _]|[_ ->]]; [done|]. auto.
  - rewrite (proj2 (Z.eqb_neq _ 0)), andb_false_r, (proj2 (Z.ltb_ge _ 0)) by lia.
    apply rb_runs_bind. eapply runs_ld; [exact Eq|]. apply (IH (Fr R c q l :: k) r u tm t2 g); [lia|done..].
Qed.

Lemma last_mid {A} (l u : list A) q g : List.last (l ++ q :: u) g = List.last u q.
Proof.
  revert q. induction u as [|y u IH] using rev_ind; intros q; [apply List.last_last|].
  by rewrite app_comm_cons, app_assoc, !List.last_last.
Qed.

(** The last node before [p], or [g] where there is none. *)
Lemma find_less_loop_ok f s p em k t t1 tm t2 g :
  (height t < f)%nat -> tree_at s (fill k t) -> inorder t = t1 ++ tm ++ t2 -> parted (rb_data s) p t1 tm t2 ->
  runs (find_less_loop rbt f p em (ptr t) g) s (fun r s' => s' = s /\
    (em = true /\ tm <> [] /\ r ∈ tm \/ (em = false \/ tm = []) /\ r = List.last t1 g)).
Proof.
  revert k t t1 tm t2 g. induction f as [|f IH]; intros k t t1 tm t2 g Hf H E P; [lia|]. cbn [find_less_loop].
  destruct t as [|c l q r].
  { cbn in E. symmetry in E. apply app_nil in E as [-> [-> ->]%app_nil].
    cbn [ptr]. rewrite Z.eqb_refl. apply rb_runs_ret. auto. }
  cbn [inorder] in E. cbn in Hf. destruct (at_addr L _ _ _ _ _ _ H) as [_ Hq]. pose proof (at_node L _ _ _ _ _ _ H) as Eq.
  cbn [ptr]. rewrite (proj2 (Z.eqb_neq q RBTNIL)) by done. apply rb_runs_bind. eexists _, _. split; [done|].
  destruct (parted_node _ _ _ _ _ _ _ _ E P) as [(Hc & u & El & -> & P')|[(Hc & u & v & El & -> & Ev & P1 & P2)|(Hc & u & -> & Er & P')]].
  - rewrite (proj2 (Z.eqb_neq _ 0)), andb_false_r, (proj2 (Z.ltb_ge 0 _)) by lia.
    apply rb_runs_bind. eapply runs_ld; [exact Eq|]. apply (IH (Fr L c q r :: k) l t1 tm u g); [lia|done..].
  - rewrite (proj2 (Z.eqb_eq _ 0)) by lia. destruct em; cbn [andb].
    + apply rb_runs_ret. split; [done|]. left. split_and!; [done|by destruct u|set_solver].
    + rewrite (proj2 (Z.ltb_ge 0 _)) by lia. apply rb_runs_bind. eapply runs_ld; [exact Eq|].
      eapply rb_runs_mono; [apply (IH (Fr L c q r :: k) l t1 u [] g); [lia|done|by rewrite app_nil_r|done]|].
      intros x s' (-> & Hx). split; [done|]. destruct Hx as [[? _]|[_ ->]]; [done|]. auto.
  - rewrite (proj2 (Z.eqb_neq _ 0)), andb_false_r, (proj2 (Z.ltb_lt 0 _)) by lia.
    apply rb_runs_bind. eapply runs_ld; [exact Eq|].
    eapply rb_runs_mono; [apply (IH (Fr R c q l :: k) r u tm t2 q); [lia|done..]|].
    intros x s' (-> & Hx). split; [done|]. destruct Hx as [?|[? ->]]; [auto|]. right. split; [done|].
    by rewrite last_mid.
Qed.

(** The first and the last node. *)
Definition ends (d : side) (g : Z) (l : list Z) : Z := match d with L => hd g l | R => List.last l g end.

Lemma ends_in d g g' l : l <> [] -> ends d g l ∈ l /\ ends d g l = ends d g' l.
Proof.
  intros Hl. destruct d; cbn; [destruct l; [done|]; split; [by left|done]|].
  destruct l as [|x l _] using rev_ind; [done|]. rewrite !List.last_last. split; [set_solver|done].
Qed.

Lemma most_loop_ok d f s k t g :
  (height t < f)%nat -> tree_at s (fill k t) ->
  runs (most_loop (child d) f (ptr t) g) s (fun r s' => s' = s /\
    r = ends d g (inorder t)).
Proof.
  revert k t g. induction f as [|f IH]; intros k t g Hf H; [lia|]. cbn [most_loop].
  destruct t as [|c l q r]; [cbn [ptr]; rewrite Z.eqb_refl; apply rb_runs_ret; by destruct d|].
  cbn in Hf. destruct (at_addr L _ _ _ _ _ _ H) as [_ Hq]. pose proof (at_node L _ _ _ _ _ _ H) as Eq.
  cbn [ptr]. rewrite (proj2 (Z.eqb_neq q RBTNIL)) by done. apply rb_runs_bind. eapply runs_ld; [exact Eq|].
  destruct d; cbn [child node_on n_left n_right inorder].
  - eapply rb_runs_mono; [apply (IH (Fr L c q r :: k) l q); [lia|done]|]. intros x s' (-> & ->). split; [done|].
    by destruct (inorder l).
  - eapply rb_runs_mono; [apply (IH (Fr R c q l :: k) r q); [lia|done]|]. intros x s' (-> & ->). split; [done|].
    unfold ends. by rewrite last_mid.
Qed.

(** ** The searches *)

Lemma rbt_at_fuel s t : tree_at s t -> (height t < S (size (rb_nodes s)))%nat.
Proof. intros H. pose proof (at_size _ _ H). pose proof (height_inorder t). lia. Qed.

Lemma find_ok s p l1 lm l2 :
  rbt_at s (l1 ++ lm ++ l2) -> parted (rb_data s) p l1 lm l2 ->
  runs (ndrx_rbt_find rbt p) s (fun r s' => s' = s /\ (lm = [] /\ r = NULL \/ r ∈ lm)).
Proof.
  intros (t & m & H & _ & _ & E) P. apply rb_runs_bind, runs_fuel, rb_runs_bind, runs_get_root.
  pose proof H as (_ & <- & _). eapply (find_loop_ok _ s p []); [by apply rbt_at_fuel|done..].
Qed.

Lemma find_great_ok s p em l1 lm l2 :
  rbt_at s (l1 ++ lm ++ l2) -> parted (rb_data s) p l1 lm l2 ->
  runs (ndrx_rbt_find_great rbt p em) s (fun r s' => s' = s /\
    (em = true /\ lm <> [] /\ r ∈ lm \/ (em = false \/ lm = []) /\ r = hd NULL l2)).
Proof.
  intros (t & m & H & _ & _ & E) P. apply rb_runs_bind, runs_fuel, rb_runs_bind, runs_get_root.
  pose proof H as (_ & <- & _). eapply (find_great_loop_ok _ s p em []); [by apply rbt_at_fuel|done..].
Qed.

Lemma find_less_ok s p em l1 lm l2 :
  rbt_at s (l1 ++ lm ++ l2) -> parted (rb_data s) p l1 lm l2 ->
  runs (ndrx_rbt_find_less rbt p em) s (fun r s' => s' = s /\
    (em = true /\ lm <> [] /\ r ∈ lm \/ (em = false \/ lm = []) /\ r = List.last l1 NULL)).
Proof.
  intros (t & m & H & _ & _ & E) P. apply rb_runs_bind, runs_fuel, rb_runs_bind, runs_get_root.
  pose proof H as (_ & <- & _). eapply (find_less_loop_ok _ s p em []); [by apply rbt_at_fuel|done..].
Qed.

Lemma most_ok d s l :
  rbt_at s l ->
  runs (f ← fuel; r ← get_root; m ← most_loop (child d) f r r; mret (M:=Rb D) (if m =? RBTNIL then NULL else m)) s
    (fun r s' => s' = s /\ r = ends d NULL l).
Proof.
  intros (t & m & H & _ & _ & <-). apply rb_runs_bind, runs_fuel, rb_runs_bind, runs_get_root, rb_runs_bind.
  pose proof H as (_ & <- & (_ & _ & N) & _).
  eapply rb_runs_mono; [apply (most_loop_ok d _ s [] t); [by apply rbt_at_fuel|done]|].
  intros x s' (-> & ->). apply rb_runs_ret. split; [done|].
  destruct t as [|c l p r]; [by destruct d|].
  destruct (ends_in d (ptr (Node c l p r)) NULL (inorder (Node c l p r))) as [Hin E]; [cbn; by destruct (inorder l)|].
  rewrite <-E. rewrite (proj2 (Z.eqb_neq _ RBTNIL)); [done|]. intros Hx. by rewrite Hx in Hin.
Qed.

(** ** Traversal *)

(** Up to the node that comes next after everything below the place. *)
Lemma up_loop_ok d f s k t :
  (length k < f)%nat -> t <> Leaf -> tree_at s (fill k t) ->
  runs (up_loop (child d) f (ptr t)) s (fun r s' => s' = s /\
    r = match d with L => hd NULL (after k) | R => List.last (before k) NULL end).
Proof.
  revert k t. induction f as [|f IH]; intros k t Hf Ht H; [lia|]. cbn [up_loop].
  destruct t as [|ct lt pt rt]; [done|]. apply rb_runs_bind. eapply runs_ld; [exact (at_node L _ _ _ _ _ _ H)|].
  cbn [node_on n_parent]. destruct k as [|[d' c p w] k].
  { cbn [top]. rewrite Z.eqb_refl. apply rb_runs_ret. by destruct d. }
  pose proof (at_addr d' s k c _ p w H) as [H0 _]. cbn [top fr_addr]. rewrite (proj2 (Z.eqb_neq p NULL)) by done.
  apply rb_runs_bind. eapply runs_ld; [exact (at_node d' s k c _ p w H)|].
  pose proof (at_sibling _ _ _ _ _ _ _ _ _ _ H) as Hs.
  assert (d' = d \/ d' = other d) as [-> | ->] by (destruct d, d'; auto).
  - rewrite child_on. rewrite Z.eqb_refl. apply rb_runs_ret. split; [done|]. destruct d; cbn; [done|].
    by rewrite app_assoc, List.last_last.
  - rewrite child_flip. rewrite (proj2 (Z.eqb_neq (ptr w) _)) by (cbn; congruence).
    replace p with (ptr (mk (other d) c (Node ct lt pt rt) p w)) by apply ptr_mk.
    eapply rb_runs_mono; [apply (IH k); [cbn in Hf; lia|by destruct d|exact H]|].
    intros x s' (-> & ->). split; [done|]. by destruct d.
Qed.

(** The node after [q] in the direction of the walk. *)
Definition next_of (d : side) (l1 l2 : list Z) : Z := match d with L => hd NULL l2 | R => List.last l1 NULL end.

Lemma next_below d s k c zl q zr f p :
  tree_at s (fill k (Node c zl q zr)) -> (size (rb_nodes s) < f)%nat ->
  p = ptr (match d with L => zr | R => zl end) -> p <> RBTNIL ->
  runs (end_loop (child d) f p) s (fun r s' => s' = s /\ r <> NULL /\
    r = next_of d (before k ++ inorder zl) (inorder zr ++ after k)).
Proof.
  intros H Hf -> Hp. pose proof (at_size _ _ H) as Hs. rewrite fill_perm, length_app in Hs. cbn in Hs.
  rewrite length_app in Hs. cbn in Hs. destruct d.
  - pose proof (height_inorder zr). eapply rb_runs_mono; [apply (end_loop_ok L f s (Fr R c q zl :: k) zr)|]; [lia|by intros ->|done|].
    intros r s' (-> & kk & c' & r' & E & Hk).
    assert (H' : tree_at s (fill (kk ++ Fr R c q zl :: k) (mk L c' Leaf r r'))) by (by rewrite fill_app, <-E).
    apply at_addr in H' as [? _]. split; [done|]. split; [done|]. cbn. rewrite E, inorder_fill, Hk. done.
  - pose proof (height_inorder zl). eapply rb_runs_mono; [apply (end_loop_ok R f s (Fr L c q zr :: k) zl)|]; [lia|by intros ->|done|].
    intros r s' (-> & kk & c' & r' & E & Hk).
    assert (H' : tree_at s (fill (kk ++ Fr L c q zr :: k) (mk R c' Leaf r r'))) by (by rewrite fill_app, <-E).
    apply at_addr in H' as [? _]. split; [done|]. split; [done|]. cbn. rewrite E, inorder_fill, Hk. cbn.
    rewrite app_nil_r, !app_assoc. by rewrite List.last_last.
Qed.

(** One step of an iterator. *)
Lemma iterate_next d s l1 q l2 o :
  rbt_at s (l1 ++ q :: l2) ->
  runs (side_iterator (child d) (child (other d)) (mk_iter o q false)) s (fun r s' => s' = s /\
    let p := next_of d l1 l2 in r = (p, mk_iter o p (p =? NULL))).
Proof.
  intros (t & m & H & _ & _ & Ei). destruct (find_place _ _ _ _ Ei) as (k & c & zl & zr & -> & <- & <-).
  pose proof (at_addr L _ _ _ _ _ _ H) as [Hq _]. pose proof (at_node L _ _ _ _ _ _ H) as Eq.
  unfold side_iterator. apply rb_runs_bind, runs_fuel. cbn [last_visited it_order is_over].
  rewrite (proj2 (Z.eqb_neq q NULL)) by done. apply rb_runs_bind. eapply runs_ld; [exact Eq|].
  replace (child (other d) (node_on L c (ptr zl) (ptr zr) (top k))) with (ptr (match d with L => zr | R => zl end))
    by (by destruct d).
  destruct (Z.eqb_spec (ptr (match d with L => zr | R => zl end)) RBTNIL) as [E|E].
  - assert (Hl : match d with L => zr | R => zl end = Leaf).
    { destruct d; [by apply (at_leaf s (Fr R c q zl :: k))|by apply (at_leaf s (Fr L c q zr :: k))]. }
    apply rb_runs_bind. pose proof (at_size _ _ H). pose proof (fill_length k (Node c zl q zr)).
    eapply rb_runs_mono; [apply (up_loop_ok d _ s k (Node c zl q zr)); [lia|done|done]|].
    intros x s' (-> & Hx).
    assert (Ex : x = next_of d (before k ++ inorder zl) (inorder zr ++ after k)).
    { destruct d; rewrite Hl in *; cbn; by rewrite ?app_nil_r. }
    rewrite <-Ex. clear Hx Ex. destruct (Z.eqb_spec x NULL) as [->|Hx]; apply rb_runs_ret; done.
  - apply rb_runs_bind. eapply rb_runs_mono; [apply (next_below d s k c zl q zr); [done|lia|done|done]|].
    intros x s' (-> & Hx & Ex). apply rb_runs_ret. rewrite <-Ex. by rewrite (proj2 (Z.eqb_neq x NULL)) by done.
Qed.

(** A whole walk, as the callers do it: until the iterator gives NULL. *)
Fixpoint rbt_walk (n : nat) (it : ndrx_rbt_tree_iterator_t) : Rb D (list Z) :=
  match n with
  | O => undef
  | S n =>
    r ← ndrx_rbt_iterate it;
    let '(p, it) := r : Z * ndrx_rbt_tree_iterator_t in
    if p =? NULL then mret (M:=Rb D) [] else rest ← rbt_walk n it; mret (M:=Rb D) (p :: rest)
  end.

Definition order_of (d : side) : ndrx_rbt_order_control_t := match d with L => LeftRightWalk | R => RightLeftWalk end.

Definition walked (d : side) (l : list Z) : list Z := match d with L => l | R => reverse l end.

Lemma iterate_side d it :
  it_order it = order_of d -> is_over it = false ->
  ndrx_rbt_iterate it = side_iterator (D:=D) (child d) (child (other d)) it.
Proof. intros E O. unfold ndrx_rbt_iterate. rewrite O, E. by destruct d. Qed.

(** What is left of a walk after [q]. *)
Lemma walk_rest d n s l1 q l2 :
  rbt_at s (l1 ++ q :: l2) -> (length (match d with L => l2 | R => l1 end) < n)%nat ->
  runs (rbt_walk n (mk_iter (order_of d) q false)) s (fun r s' => s' = s /\
    r = match d with L => l2 | R => reverse l1 end).
Proof.
  revert l1 q l2. induction n as [|n IH]; intros l1 q l2 H Hn; [lia|]. cbn [rbt_walk]. apply rb_runs_bind.
  rewrite (iterate_side d) by done. eapply rb_runs_mono; [by apply iterate_next|].
  intros r s' (-> & ->). cbn [fst snd].
  assert (Hno : NULL ∉ l1 ++ q :: l2) by (destruct H as (t & m & (_ & _ & (_ & N & _) & _) & _ & _ & <-); done).
  destruct d; cbn [next_of] in *.
  - destruct l2 as [|x l2]; cbn [hd]; [apply rb_runs_ret; done|].
    assert (x <> NULL) by set_solver. rewrite (proj2 (Z.eqb_neq x NULL)) by done. apply rb_runs_bind.
    eapply rb_runs_mono; [apply (IH (l1 ++ [q]) x l2); [by rewrite <-app_assoc|cbn in Hn; lia]|].
    intros r s' (-> & ->). by apply rb_runs_ret.
  - destruct l1 as [|x l1 _] using rev_ind; [apply rb_runs_ret; done|]. rewrite List.last_last.
    assert (x <> NULL) by set_solver. rewrite (proj2 (Z.eqb_neq x NULL)) by done. apply rb_runs_bind.
    eapply rb_runs_mono; [apply (IH l1 x (q :: l2)); [by rewrite <-app_assoc in H|rewrite length_app in Hn; cbn in Hn; lia]|].
    intros r s' (-> & ->). apply rb_runs_ret. by rewrite reverse_app.
Qed.

(** A walk visits every node once, in order. *)
Lemma walk_ok d s l n :
  rbt_at s l -> (length l < n)%nat ->
  runs (it ← ndrx_rbt_begin_iterate (order_of d); rbt_walk n it) s (fun r s' => s' = s /\ r = walked d l).
Proof.
  intros H Hn. apply rb_runs_bind. unfold ndrx_rbt_begin_iterate. apply rb_runs_bind, runs_get_root, rb_runs_ret.
  destruct n as [|n]; [lia|]. cbn [rbt_walk]. pose proof H as (t & m & Ht & _ & _ & Ei). pose proof Ht as (_ & Er & _).
  pose proof (at_leaf s [] t Ht) as Hleaf. destruct (Z.eqb_spec (rb_root s) RBTNIL) as [E|E].
  { rewrite <-Er in E. apply Hleaf in E as ->. cbn in Ei. subst l. apply rb_runs_bind, rb_runs_ret, rb_runs_ret. by destruct d. }
  apply rb_runs_bind. rewrite (iterate_side d) by done. unfold side_iterator. apply rb_runs_bind, runs_fuel.
  cbn [last_visited it_order is_over]. apply rb_runs_bind, runs_get_root, rb_runs_bind.
  assert (Hne : t <> Leaf) by (intros ->; apply E; by rewrite <-Er). rewrite <-Er.
  pose proof (rbt_at_fuel _ _ Ht). eapply rb_runs_mono; [apply (end_loop_ok d _ s [] t); [lia|done|done]|].
  intros p s' (-> & kk & c & r & Et & Hk). apply rb_runs_ret.
  assert (Ha : tree_at s (fill kk (mk d c Leaf p r))) by (by rewrite <-Et). apply at_addr in Ha as [Hp _].
  rewrite (proj2 (Z.eqb_neq p NULL)) by done. apply rb_runs_bind.
  assert (El : exists l', match d with L => l = p :: l' | R => l = l' ++ [p] end).
  { rewrite Et, inorder_fill in Ei. destruct d; rewrite Hk in Ei; cbn in Ei; [by eexists|].
    exists (before kk ++ inorder r). by rewrite <-Ei, app_nil_r, <-app_assoc. }
  clear Ei. destruct El as [l' El]. destruct d; subst l.
  - eapply rb_runs_mono; [apply (walk_rest L n s [] p l'); [done|cbn in Hn; lia]|].
    intros x s' (-> & ->). by apply rb_runs_ret.
  - eapply rb_runs_mono; [apply (walk_rest R n s l' p []); [done|rewrite length_app in Hn; cbn in Hn; lia]|].
    intros x s' (-> & ->). apply rb_runs_ret. cbn. by rewrite reverse_app.
Qed.
End Search.

(** ** The tree as a sorted list *)

Lemma filter_none {A} (P : A -> Prop) `{!forall x, Decision (P x)} (l : list A) : (forall x, x ∈ l -> ~ P x) -> filter P l = [].
Proof.
  induction l as [|x l IH]; intros Hl; [done|]. rewrite filter_cons, decide_False by (apply Hl; by left).
  apply IH. intros y Hy. apply Hl. by right.
Qed.

Lemma filter_full {A} (P : A -> Prop) `{!forall x, Decision (P x)} (l : list A) : (forall x, x ∈ l -> P x) -> filter P l = l.
Proof.
  induction l as [|x l IH]; intros Hl; [done|]. rewrite filter_cons, decide_True by (apply Hl; by left).
  f_equal. apply IH. intros y Hy. apply Hl. by right.
Qed.

(** A comparator that orders the nodes by a key. *)
Class Ordering (cmp : Z -> Z -> Z) : Prop := {
  cmp_sym a b : cmp a b < 0 <-> 0 < cmp b a;
  cmp_trans a b c : cmp a b < 0 -> cmp b c < 0 -> cmp a c < 0;
  cmp_eq a b c : cmp a b = 0 -> cmp a c < 0 <-> cmp b c < 0 }.

Lemma cmp_refl cmp `{!Ordering cmp} a : cmp a a = 0.
Proof. pose proof (cmp_sym a a). lia. Qed.

Lemma cmp_eq_sym cmp `{!Ordering cmp} a b : cmp a b = 0 -> cmp b a = 0.
Proof. pose proof (cmp_sym a b). pose proof (cmp_sym b a). lia. Qed.

Definition sorted (cmp : Z -> Z -> Z) : list Z -> Prop := StronglySorted (fun a b => cmp a b < 0).

Section Spec.
Variable cmp : Z -> Z -> Z.

Definition lesser (p : Z) (l : list Z) : list Z := filter (fun q => 0 < cmp p q) l.
Definition equals (p : Z) (l : list Z) : list Z := filter (fun q => cmp p q = 0) l.
Definition greater (p : Z) (l : list Z) : list Z := filter (fun q => cmp p q < 0) l.

Context `{!Ordering cmp}.

(** The tail of a sorted list lies after its head. *)
Lemma after_head p q (l : list Z) :
  (forall x, x ∈ l -> cmp q x < 0) -> cmp p q <= 0 -> forall x, x ∈ l -> cmp p x < 0.
Proof.
  intros Hall Hc x Hx. specialize (Hall x Hx). destruct (decide (cmp p q = 0)) as [E|E].
  - by apply (cmp_eq p q x).
  - apply (cmp_trans p q x); [lia|done].
Qed.

Lemma parts_after p l :
  (forall x, x ∈ l -> cmp p x < 0) -> lesser p l = [] /\ equals p l = [] /\ greater p l = l.
Proof.
  intros H. unfold lesser, equals, greater. split_and!; [apply filter_none|apply filter_none|by apply filter_full];
    intros x Hx; specialize (H x Hx); lia.
Qed.

Lemma parts_cons p q l :
  lesser p (q :: l) = (if decide (0 < cmp p q) then q :: lesser p l else lesser p l) /\
  equals p (q :: l) = (if decide (cmp p q = 0) then q :: equals p l else equals p l) /\
  greater p (q :: l) = (if decide (cmp p q < 0) then q :: greater p l else greater p l).
Proof. unfold lesser, equals, greater. by rewrite !filter_cons. Qed.

(** A sorted list falls in three parts, the middle one with at most one node. *)
Lemma sorted_parts p l :
  sorted cmp l -> l = lesser p l ++ equals p l ++ greater p l /\ (length (equals p l) <= 1)%nat.
Proof.
  induction 1 as [|q l H IH Hall]; [split; [done|cbn; lia]|]. rewrite Forall_forall in Hall.
  destruct (parts_cons p q l) as (-> & -> & ->). destruct (Z.lt_trichotomy (cmp p q) 0) as [Hc|[Hc|Hc]].
  - destruct (parts_after p l) as (-> & -> & ->); [apply (after_head p q); [done|lia]|].
    rewrite decide_False, decide_False, decide_True by lia. split; [done|cbn; lia].
  - destruct (parts_after p l) as (-> & -> & ->); [apply (after_head p q); [done|lia]|].
    rewrite decide_False, decide_True, decide_False by lia. split; [done|cbn; lia].
  - rewrite decide_True, decide_False, decide_False by lia. destruct IH as [IH1 IH2].
    cbn [app]. by rewrite <-IH1.
Qed.

Lemma parted_parts {D} (rbt : rbt_funcs D) d p l :
  (forall a b, comparator rbt d a b = cmp a b) -> parted rbt d p (lesser p l) (equals p l) (greater p l).
Proof.
  intros E. unfold lesser, equals, greater.
  split_and!; intros q [Hq _]%list_elem_of_filter; by rewrite E.
Qed.

Lemma sorted_app l1 l2 :
  sorted cmp (l1 ++ l2) <-> sorted cmp l1 /\ sorted cmp l2 /\ forall a b, a ∈ l1 -> b ∈ l2 -> cmp a b < 0.
Proof. unfold sorted. rewrite StronglySorted_app. naive_solver. Qed.

(** A new node at its place keeps the list sorted. *)
Lemma sorted_insert p l : sorted cmp l -> equals p l = [] -> sorted cmp (lesser p l ++ p :: greater p l).
Proof.
  intros H E. destruct (sorted_parts p l H) as [El _]. rewrite E in El. cbn in El. rewrite El in H.
  apply sorted_app in H as (H1 & H2 & H3). apply sorted_app. split; [done|]. split.
  - constructor; [done|]. apply Forall_forall. intros x Hx. unfold greater in Hx. by apply list_elem_of_filter in Hx as [? _].
  - intros a b Ha [->|Hb]%elem_of_cons; [|by apply H3].
    unfold lesser in Ha. apply list_elem_of_filter in Ha as [Ha _]. by apply cmp_sym.
Qed.

Lemma sorted_delete l1 z l2 : sorted cmp (l1 ++ z :: l2) -> sorted cmp (l1 ++ l2).
Proof.
  rewrite !sorted_app. intros (H1 & H2 & H3). inversion H2; subst. split_and!; [done|done|].
  intros a b Ha Hb. apply H3; [done|by right].
Qed.
End Spec.

(** ** Sequences of operations *)

Inductive rbt_op :=
  | OInsert (p : Z) | ODelete (p : Z) | OFind (p : Z)
  | OFindGreat (p : Z) (equal_match : bool) | OFindLess (p : Z) (equal_match : bool)
  | OLeftmost | ORightmost | OIsEmpty | OWalk (o : ndrx_rbt_order_control_t).

Section Machine.
Context {D : Type} (rbt : rbt_funcs D).
Implicit Types s : ndrx_rbt_tree_t D.

(** What the program does. *)
Definition exec (op : rbt_op) : Rb D (list Z) :=
  match op with
  | OInsert p => r ← ndrx_rbt_insert rbt p;
      let '(q, isnew) := r : Z * bool in mret (M:=Rb D) [q; if isnew then 1 else 0]
  | ODelete p => ndrx_rbt_delete rbt p;; mret (M:=Rb D) []
  | OFind p => r ← ndrx_rbt_find rbt p; mret (M:=Rb D) [r]
  | OFindGreat p em => r ← ndrx_rbt_find_great rbt p em; mret (M:=Rb D) [r]
  | OFindLess p em => r ← ndrx_rbt_find_less rbt p em; mret (M:=Rb D) [r]
  | OLeftmost => r ← ndrx_rbt_leftmost; mret (M:=Rb D) [r]
  | ORightmost => r ← ndrx_rbt_rightmost; mret (M:=Rb D) [r]
  | OIsEmpty => b ← ndrx_rbt_is_empty; mret (M:=Rb D) [if b : bool then 1 else 0]
  | OWalk o => f ← fuel; it ← ndrx_rbt_begin_iterate o; rbt_walk f it
  end.

Fixpoint exec_all (ops : list rbt_op) : Rb D (list (list Z)) :=
  match ops with
  | [] => mret (M:=Rb D) []
  | op :: ops => r ← exec op; rs ← exec_all ops; mret (M:=Rb D) (r :: rs)
  end.

(** What it means: a list of nodes sorted by the comparator.  A node may be inserted at
    any address but NULL and the sentinel's; only a node of the tree may be deleted. *)
Definition spec (op : rbt_op) (st : list Z * D) : option (list Z * (list Z * D)) :=
  let '(l, d) := st in
  let cmp := comparator rbt d in
  match op with
  | OInsert p =>
      if (p =? NULL) || (p =? RBTNIL) then None
      else match equals cmp p l with
           | [] => Some ([p; 1], (lesser cmp p l ++ p :: greater cmp p l, d))
           | q :: _ => d' ← combiner rbt q p d; Some ([q; 0], (l, d'))
           end
  | ODelete p =>
      if decide (p ∈ l) then
        d' ← match freefunc rbt with Some free => free p d | None => Some d end;
        Some ([], (filter (fun q => q <> p) l, d'))
      else None
  | OFind p => Some ([hd NULL (equals cmp p l)], st)
  | OFindGreat p em =>
      Some ([hd NULL ((if em then equals cmp p l else []) ++ greater cmp p l)], st)
  | OFindLess p em =>
      Some ([List.last (lesser cmp p l ++ if em then equals cmp p l else []) NULL], st)
  | OLeftmost => Some ([hd NULL l], st)
  | ORightmost => Some ([List.last l NULL], st)
  | OIsEmpty => Some ([match l with [] => 1 | _ => 0 end], st)
  | OWalk LeftRightWalk => Some (l, st)
  | OWalk RightLeftWalk => Some (reverse l, st)
  end.

Fixpoint spec_all (ops : list rbt_op) (st : list Z * D) : option (list (list Z) * (list Z * D)) :=
  match ops with
  | [] => Some ([], st)
  | op :: ops =>
      '(r, st) ← spec op st;
      '(rs, st) ← spec_all ops st;
      Some (r :: rs, st)
  end.

(** A tree that has just been made, over a memory with only the sentinel. *)
Definition new_tree (d : D) : ndrx_rbt_tree_t D := mk_rbt RBTNIL {[ RBTNIL := sentinel ]} d.

Definition agrees s (st : list Z * D) : Prop :=
  rbt_at s st.1 /\ sorted (comparator rbt st.2) st.1 /\ rb_data s = st.2.

(** The comparator orders the nodes, and what the caller does when an entry is combined
    or freed leaves the order alone. *)
Context `{HO : !forall d, Ordering (comparator rbt d)}.
Hypothesis combiner_keeps : forall q p d d' a b,
  combiner rbt q p d = Some d' -> comparator rbt d' a b = comparator rbt d a b.
Hypothesis freefunc_keeps : forall free p d d' a b,
  freefunc rbt = Some free -> free p d = Some d' -> comparator rbt d' a b = comparator rbt d a b.

Lemma sorted_ext (c c' : Z -> Z -> Z) l : (forall a b, c' a b = c a b) -> sorted c l -> sorted c' l.
Proof.
  intros E H. induction H as [|x l H IH Hall]; constructor; [done|].
  eapply Forall_impl; [done|]. intros y. cbn. by rewrite E.
Qed.

Lemma exec_insert s p l d r st :
  agrees s (l, d) -> spec (OInsert p) (l, d) = Some (r, st) ->
  runs (exec (OInsert p)) s (fun r' s' => r' = r /\ agrees s' st).
Proof.
  intros (H & Hs & Ed) E. cbn in H, Hs, Ed. cbn in E. subst d.
  destruct (Z.eqb_spec p NULL) as [|Hp0]; [done|]. destruct (Z.eqb_spec p RBTNIL) as [|Hp1]; [done|]. cbn in E.
  destruct (sorted_parts _ p l Hs) as [El Hm].
  pose proof (parted_parts (comparator rbt (rb_data s)) rbt (rb_data s) p l ltac:(done)) as P.
  apply rb_runs_bind. destruct (equals (comparator rbt (rb_data s)) p l) as [|q [|]] eqn:Eq; [| |cbn in Hm; lia].
  - injection E as <- <-. eapply rb_runs_mono.
    { apply (insert_new rbt s p (lesser (comparator rbt (rb_data s)) p l) (greater (comparator rbt (rb_data s)) p l)).
      - by rewrite El in H.
      - destruct P as (P1 & _ & P2). by split.
      - done.
      - done.
      - intros Hin. destruct P as (P1 & _ & P2). rewrite elem_of_app in Hin.
        pose proof (cmp_refl (comparator rbt (rb_data s)) p). destruct Hin as [Hin|Hin]; [specialize (P1 _ Hin)|specialize (P2 _ Hin)]; lia. }
    intros ? s' (-> & H' & Ed' & _). apply rb_runs_ret. split; [done|]. split_and!; [done| |done]. by apply sorted_insert.
  - destruct (combiner rbt q p (rb_data s)) as [d'|] eqn:Ec; [|done]. cbn in E. injection E as <- <-.
    eexists _, _. rewrite (insert_dup rbt s p (lesser (comparator rbt (rb_data s)) p l) q (greater (comparator rbt (rb_data s)) p l)).
    + unfold with_data, mbind, Rb_bind. rewrite Ec. split; [done|]. apply rb_runs_ret. split; [done|].
      split_and!; [exact H| |done]. eapply sorted_ext; [|exact Hs]. intros. by eapply combiner_keeps.
    + by rewrite El in H.
    + destruct P as (P1 & _ & P2). by split.
    + destruct P as (_ & Pm & _). apply Pm. by left.
Qed.

Lemma exec_delete s p l d r st :
  agrees s (l, d) -> spec (ODelete p) (l, d) = Some (r, st) ->
  runs (exec (ODelete p)) s (fun r' s' => r' = r /\ agrees s' st).
Proof.
  intros (H & Hs & Ed) E. cbn in H, Hs, Ed. cbn in E. subst d. destruct (decide (p ∈ l)) as [Hp|]; [|done].
  apply bind_Some_inv in E as (d' & Ef & E). injection E as <- <-.
  apply list_elem_of_split in Hp as (l1 & l2 & ->). assert (N : NoDup (l1 ++ p :: l2)).
  { destruct H as (t & m & (_ & _ & (N & _) & _) & _ & _ & <-). done. }
  apply rb_runs_bind. eapply rb_runs_mono; [apply (delete_ok rbt s l1 p l2 d'); [done|]|].
  { unfold freed. destruct (freefunc rbt); congruence. }
  intros [] s' (H' & Ed' & _). apply rb_runs_ret. split; [done|]. apply NoDup_app in N as (N1 & N2 & N3).
  apply NoDup_cons in N3 as [N3 N4].
  assert (El : filter (fun q => q <> p) (l1 ++ p :: l2) = l1 ++ l2).
  { rewrite filter_app, filter_cons, decide_False by tauto. f_equal; apply filter_full; intros x Hx ->; set_solver. }
  split_and!; cbn [fst snd]; [by rewrite El| |done]. rewrite El. apply sorted_delete in Hs.
  eapply sorted_ext; [|exact Hs]. intros a b. destruct (freefunc rbt) as [free|] eqn:Efr; [by eapply freefunc_keeps|].
  congruence.
Qed.

(** One value of at most one. *)
Lemma one_of (x : Z) l : (length l <= 1)%nat -> x ∈ l -> l = [x].
Proof. intros Hl Hx. destruct l as [|y [|]]; [set_solver| |cbn in Hl; lia]. set_solver. Qed.

Lemma exec_search op s l d r st :
  match op with OInsert _ | ODelete _ => False | _ => True end ->
  agrees s (l, d) -> spec op (l, d) = Some (r, st) -> runs (exec op) s (fun r' s' => r' = r /\ agrees s' st).
Proof.
  intros Hop (H & Hs & Ed) E. cbn in H, Hs, Ed. subst d. assert (Hag : agrees s (l, rb_data s)) by done.
  assert (Hpt : forall p, rbt_at s (lesser (comparator rbt (rb_data s)) p l ++ equals (comparator rbt (rb_data s)) p l ++
    greater (comparator rbt (rb_data s)) p l) /\ (length (equals (comparator rbt (rb_data s)) p l) <= 1)%nat).
  { intros p. destruct (sorted_parts _ p l Hs) as [El Hm]. by rewrite <-El. }
  assert (P : forall p, parted rbt (rb_data s) p (lesser (comparator rbt (rb_data s)) p l)
    (equals (comparator rbt (rb_data s)) p l) (greater (comparator rbt (rb_data s)) p l)) by (intros; by apply parted_parts).
  destruct op as [p|p|p|p em|p em| | | |o]; try done; cbn in E.
  - injection E as <- <-. destruct (Hpt p) as [Hp Hm]. apply rb_runs_bind. eapply rb_runs_mono; [exact (find_ok rbt s p _ _ _ Hp (P p))|].
    intros x s' (-> & Hx). apply rb_runs_ret. split; [|done].
    destruct Hx as [[-> ->]|Hx]; [done|]. by rewrite (one_of x _ Hm Hx).
  - injection E as <- <-. destruct (Hpt p) as [Hp Hm]. apply rb_runs_bind. eapply rb_runs_mono; [exact (find_great_ok rbt s p em _ _ _ Hp (P p))|].
    intros x s' (-> & Hx). apply rb_runs_ret. split; [|done].
    destruct Hx as [(-> & _ & Hx)|[[->|Hn] ->]]; [by rewrite (one_of x _ Hm Hx)|done|]. rewrite Hn. by destruct em.
  - injection E as <- <-. destruct (Hpt p) as [Hp Hm]. apply rb_runs_bind. eapply rb_runs_mono; [exact (find_less_ok rbt s p em _ _ _ Hp (P p))|].
    intros x s' (-> & Hx). apply rb_runs_ret. split; [|done].
    destruct Hx as [(-> & _ & Hx)|[[->|Hn] ->]]; [|by rewrite app_nil_r|].
    + by rewrite (one_of x _ Hm Hx), List.last_last.
    + rewrite Hn. destruct em; by rewrite app_nil_r.
  - injection E as <- <-. apply rb_runs_bind. eapply rb_runs_mono; [by apply (most_ok L)|]. intros x s' (-> & ->). by apply rb_runs_ret.
  - injection E as <- <-. apply rb_runs_bind. eapply rb_runs_mono; [by apply (most_ok R)|]. intros x s' (-> & ->). by apply rb_runs_ret.
  - injection E as <- <-. apply rb_runs_bind, rb_runs_bind, runs_get_root, rb_runs_ret, rb_runs_ret. split; [|done].
    destruct H as (t & m & (_ & Er & (_ & _ & N) & _) & _ & _ & <-). destruct t as [|c a q b]; cbn [ptr inorder] in *.
    + by rewrite <-Er.
    + rewrite <-Er. rewrite (proj2 (Z.eqb_neq RBTNIL q)) by set_solver. by destruct (inorder a).
  - apply rb_runs_bind, runs_fuel. assert (Hl : (length l < S (size (rb_nodes s)))%nat).
    { destruct H as (t & m & Ht & _ & _ & <-). pose proof (at_size _ _ Ht). lia. }
    destruct o; injection E as <- <-; (eapply rb_runs_mono; [by apply (walk_ok L) || by apply (walk_ok R)|]);
      intros x s' (-> & ->); done.
Qed.

(** Every operation does what the sorted list says. *)
Lemma exec_ok op s st r st' :
  agrees s st -> spec op st = Some (r, st') -> runs (exec op) s (fun r' s' => r' = r /\ agrees s' st').
Proof.
  intros H E. destruct st as [l d]. destruct op; [by eapply exec_insert|by eapply exec_delete|by eapply exec_search..].
Qed.

Lemma exec_all_ok ops s st rs st' :
  agrees s st -> spec_all ops st = Some (rs, st') -> runs (exec_all ops) s (fun r s' => r = rs /\ agrees s' st').
Proof.
  revert s st rs st'. induction ops as [|op ops IH]; intros s st rs st' H E; cbn in E.
  - injection E as <- <-. by apply rb_runs_ret.
  - apply bind_Some_inv in E as ([r st1] & E1 & E). apply bind_Some_inv in E as ([rs1 st2] & E2 & E). injection E as <- <-.
    apply rb_runs_bind. eapply rb_runs_mono; [by eapply exec_ok|]. intros r' s1 (-> & H1). apply rb_runs_bind.
    eapply rb_runs_mono; [by eapply IH|]. intros rs' s2 (-> & H2). by apply rb_runs_ret.
Qed.

Lemma new_tree_ok d : agrees (new_tree d) ([], d).
Proof.
  split_and!; [|constructor|done]. exists Leaf, 0%nat. split_and!; [|constructor|done|done].
  split; [done|]. split; [done|]. split; [split_and!; [constructor|set_solver..]|].
  exists NULL. apply lookup_singleton_eq.
Qed.

(** C36: every sequence of operations on a new tree that the specification allows -- any
    insertions, deletions of nodes of the tree, searches and walks, in any order -- runs
    to its end in the program, and gives the results of a list sorted by the comparator:
    a node inserted is at its place or the entry that compares equal is given back and
    combined, a node deleted is gone, the searches find the equal, the next and the
    previous entry, a walk visits all in order.  The red-black tree in memory then holds
    that list and is balanced, and its root is black. *)
Theorem rbt_refines ops d rs l' d' :
  spec_all ops ([], d) = Some (rs, (l', d')) ->
  exists s', exec_all ops (new_tree d) = Some (rs, s') /\ rbt_at s' l' /\ rb_data s' = d' /\
             sorted (comparator rbt d') l'.
Proof.
  intros E. destruct (exec_all_ok ops _ _ _ _ (new_tree_ok d) E) as (r & s' & Er & -> & H & Hs & Hd). eauto.
Qed.

(** C37: a search takes at most one round more than twice the binary logarithm of the
    number of entries and one: the loop given that many rounds ends, with the result of
    the search. *)
Theorem rbt_search_bound ops d rs l' d' p :
  spec_all ops ([], d) = Some (rs, (l', d')) ->
  exists s' r, exec_all ops (new_tree d) = Some (rs, s') /\
    find_loop rbt (S (2 * Nat.log2 (S (length l')))) p (rb_root s') s' = Some (r, s') /\
    ndrx_rbt_find rbt p s' = Some (r, s').
Proof.
  intros E. destruct (exec_all_ok ops _ _ _ _ (new_tree_ok d) E) as (r & s' & Er & -> & H & Hs & Hd).
  cbn in H, Hs, Hd. subst d'. destruct (sorted_parts _ p l' Hs) as [El Hm].
  pose proof (parted_parts (comparator rbt (rb_data s')) rbt (rb_data s') p l' ltac:(done)) as P.
  pose proof H as (t & m & Ht & Hb & Cb & Ei). rewrite El in H, Ei.
  destruct (find_ok rbt s' p _ _ _ H P) as (r1 & s1 & E1 & -> & H1).
  destruct (find_loop_ok rbt (S (2 * Nat.log2 (S (length l')))) s' p [] t _ _ _ ltac:(rewrite El, <-Ei; pose proof (rb_log t m Hb Cb); lia) Ht Ei P)
    as (r2 & s2 & E2 & -> & H2). destruct Ht as (_ & Ert & _). rewrite Ert in E2.
  exists s', r1. split; [done|]. split; [|done]. rewrite E2. do 2 f_equal.
  destruct H1 as [[Hn ->]|H1], H2 as [[Hn' ->]|H2]; rewrite ?Hn, ?Hn' in *; try done; try set_solver.
  pose proof (one_of r1 _ Hm H1) as O1. pose proof (one_of r2 _ Hm H2) as O2. rewrite O1 in O2. by injection O2.
Qed.

End Machine.

(** ** A tree of numbers *)

(** Nodes ordered by their address, none of them freed. *)
Definition by_address : rbt_funcs nat :=
  {| comparator _ a b := a - b; combiner _ _ d := Some (S d); freefunc := None |}.

#[export] Instance by_address_ordering d : Ordering (comparator by_address d).
Proof. split; cbn; lia. Qed.

Definition some_ops : list rbt_op :=
  [OInsert 50; OInsert 20; OInsert 70; OInsert 10; OInsert 30; OInsert 60; OInsert 80; OInsert 30; OInsert 40;
   OWalk LeftRightWalk; ODelete 20; ODelete 50; OFind 30; OFind 20; OFindGreat 40 false; OFindLess 55 true;
   ODelete 80; ODelete 70; OLeftmost; ORightmost; OWalk RightLeftWalk; OIsEmpty].

Lemma rbt_refines_witness :
  exists s', exec_all by_address some_ops (new_tree 0%nat) =
    Some ([[50; 1]; [20; 1]; [70; 1]; [10; 1]; [30; 1]; [60; 1]; [80; 1]; [30; 0]; [40; 1];
           [10; 20; 30; 40; 50; 60; 70; 80]; []; []; [30]; [0]; [60]; [40]; []; []; [10]; [60];
           [60; 40; 30; 10]; [0]], s') /\ rbt_at s' [10; 30; 40; 60] /\ rb_data s' = 1%nat /\
    sorted (comparator by_address 1%nat) [10; 30; 40; 60].
Proof.
  apply (rbt_refines by_address); [done|done|reflexivity].
Defined.

Lemma rbt_search_bound_witness :
  exists s' r, exec_all by_address some_ops (new_tree 0%nat) =
    Some ([[50; 1]; [20; 1]; [70; 1]; [10; 1]; [30; 1]; [60; 1]; [80; 1]; [30; 0]; [40; 1];
           [10; 20; 30; 40; 50; 60; 70; 80]; []; []; [30]; [0]; [60]; [40]; []; []; [10]; [60];
           [60; 40; 30; 10]; [0]], s') /\
    find_loop by_address 5 40 (rb_root s') s' = Some (r, s') /\ ndrx_rbt_find by_address 40 s' = Some (r, s').
Proof.
  apply (rbt_search_bound by_address ltac:(done) ltac:(done) some_ops 0%nat _ [10; 30; 40; 60] 1%nat). reflexivity.
Defined.
