(* ===== verification/QSpace.v ===== *)
(** * The queue space

    The messages of the queue server in memory ([tmqueue/qspace.c], [inflight.c],
    [corhandle.c], [rbtsupp.c]): every queue has a tree of the messages that can be
    taken, in the order of their time stamps, a tree of those that are for later, in the
    order of the time they wait for, and a list of those that are locked; the messages
    with a correlator are also in a tree of that correlator.  All messages are in one
    hash by their id.

    Memory is explicit: a message lies at an address, its two tree handles at this
    address and [COR_OFFSET] behind it, and all trees share the memory of the handles.
    The hash tables are finite maps and the circular list of locked messages is a list of
    addresses.  Queues and correlators are referred to by their name where the code has a
    pointer to their entry.  [abort], an access to memory that is not allocated and the
    use of a null pointer have no result ([None]).

    What the rest of the world decides is the [qenv] of a call: the clock, which an
    operation reads once, the thread and the memory it gets. *)

From stdpp Require Import gmap.
From S2P Require Import Prelude Base64 RbTree.

Local Open Scope Z_scope.

(** ** Constants *)

Definition TPQCORRID : Z := 1.
Definition TPQTIME_ABS : Z := 512.
Definition TPQPEEK : Z := 4096.

Definition QMEOS : Z := -7.
Definition QMEBADQUEUE : Z := -10.
Definition QMENOMSG : Z := -11.

(** Where a message is. *)
Definition NDRX_TMQ_LOC_INFL : Z := 1.
Definition NDRX_TMQ_LOC_FUTQ : Z := 2.
Definition NDRX_TMQ_LOC_CURQ : Z := 4.
Definition NDRX_TMQ_LOC_CORQ : Z := 8.
Definition NDRX_TMQ_LOC_MSGIDHASH : Z := 16.

Definition has (x f : Z) : bool := negb (Z.land x f =? 0).
Definition clear (x f : Z) : Z := Z.land x (Z.lnot f).

(** Commands to the storage and queue modes; characters are their codes. *)
Definition TMQ_STORCMD_NEWMSG : Z := 78.
Definition TMQ_STORCMD_UPD : Z := 85.
Definition TMQ_STORCMD_DEL : Z := 68.
Definition TMQ_STORCMD_UNLOCK : Z := 76.
Definition TMQ_STORCMD_DUM : Z := 77.

Definition TMQ_MODE_FIFO : Z := 70.
Definition TMQ_MODE_LIFO : Z := 76.

(** "@" *)
Definition TMQ_DEFAULT_Q : list Z := [64].

Definition TMMSGIDLEN_STR : Z := 45.

(** ** Data *)

(** The message as it is stored, with what the queues use of its header and control
    structure. *)
Record tmq_msg_t := mk_msg {
  hdr_qname : list Z;
  hdr_msgid : list Z;
  lockthreadid : Z;
  status : Z;
  trycounter : Z;
  msgtstamp : Z;
  msgtstamp_usec : Z;
  msgtstamp_cntr : Z;
  trytstamp : Z;
  trytstamp_usec : Z;
  ctl_flags : Z;
  deq_time : Z;
  corrid : list Z;
  payload : list Z }.

Definition zero_msg : tmq_msg_t := mk_msg [] [] 0 0 0 0 0 0 0 0 0 0 [] [].

Definition set_lock (t : Z) (m : tmq_msg_t) : tmq_msg_t :=
  mk_msg (hdr_qname m) (hdr_msgid m) t (status m) (trycounter m) (msgtstamp m) (msgtstamp_usec m)
    (msgtstamp_cntr m) (trytstamp m) (trytstamp_usec m) (ctl_flags m) (deq_time m) (corrid m) (payload m).

(** What a storage command says about a message. *)
Record tmq_upd_block := mk_block {
  b_msgid : list Z;
  b_command : Z;
  b_status : Z;
  b_trycounter : Z;
  b_trytstamp : Z;
  b_trytstamp_usec : Z }.

Definition UPD_MSG (b : tmq_upd_block) (m : tmq_msg_t) : tmq_msg_t :=
  mk_msg (hdr_qname m) (hdr_msgid m) (lockthreadid m) (b_status b) (b_trycounter b) (msgtstamp m)
    (msgtstamp_usec m) (msgtstamp_cntr m) (b_trytstamp b) (b_trytstamp_usec b) (ctl_flags m) (deq_time m)
    (corrid m) (payload m).

(** A message in memory, without its two tree handles. *)
Record tmq_memmsg_t := mk_mmsg {
  msgid_str : list Z;
  corrid_str : list Z;
  mm_corhash : option (list Z);
  mm_qconf : option (list Z);
  mm_qhash : option (list Z);
  mm_msg : tmq_msg_t;
  qstate : Z }.

(** Memory from [calloc]. *)
Definition zero_mmsg : tmq_memmsg_t := mk_mmsg [] [] None None None zero_msg 0.

Definition set_ids (k c : list Z) (m : tmq_memmsg_t) :=
  mk_mmsg k c (mm_corhash m) (mm_qconf m) (mm_qhash m) (mm_msg m) (qstate m).
Definition set_corhash (c : option (list Z)) (m : tmq_memmsg_t) :=
  mk_mmsg (msgid_str m) (corrid_str m) c (mm_qconf m) (mm_qhash m) (mm_msg m) (qstate m).
Definition set_queue (qc qn : list Z) (m : tmq_memmsg_t) :=
  mk_mmsg (msgid_str m) (corrid_str m) (mm_corhash m) (Some qc) (Some qn) (mm_msg m) (qstate m).
Definition set_msg (f : tmq_msg_t -> tmq_msg_t) (m : tmq_memmsg_t) :=
  mk_mmsg (msgid_str m) (corrid_str m) (mm_corhash m) (mm_qconf m) (mm_qhash m) (f (mm_msg m)) (qstate m).
Definition set_state (f : Z -> Z) (m : tmq_memmsg_t) :=
  mk_mmsg (msgid_str m) (corrid_str m) (mm_corhash m) (mm_qconf m) (mm_qhash m) (mm_msg m) (f (qstate m)).

Definition COR_OFFSET : Z := 32.
Definition TMQ_COR_GETMSG (ptr : Z) : Z := ptr - COR_OFFSET.

(** The entry of a queue: statistics, the roots of its trees, the locked messages and
    the trees of its correlators. *)
Record tmq_qhash_t := mk_qhash {
  q_succ : Z;
  q_fail : Z;
  q_numenq : Z;
  q_numdeq : Z;
  q_cur : Z;
  q_fut : Z;
  q_infligh : list Z;
  q_corhash : gmap (list Z) Z }.

Definition set_stats (f : Z * Z * Z * Z -> Z * Z * Z * Z) (q : tmq_qhash_t) : tmq_qhash_t :=
  let '(s, fl, ne, nd) := f (q_succ q, q_fail q, q_numenq q, q_numdeq q) in
  mk_qhash s fl ne nd (q_cur q) (q_fut q) (q_infligh q) (q_corhash q).
Definition set_cur (r : Z) (q : tmq_qhash_t) : tmq_qhash_t :=
  mk_qhash (q_succ q) (q_fail q) (q_numenq q) (q_numdeq q) r (q_fut q) (q_infligh q) (q_corhash q).
Definition set_fut (r : Z) (q : tmq_qhash_t) : tmq_qhash_t :=
  mk_qhash (q_succ q) (q_fail q) (q_numenq q) (q_numdeq q) (q_cur q) r (q_infligh q) (q_corhash q).
Definition set_infligh (f : list Z -> list Z) (q : tmq_qhash_t) : tmq_qhash_t :=
  mk_qhash (q_succ q) (q_fail q) (q_numenq q) (q_numdeq q) (q_cur q) (q_fut q) (f (q_infligh q)) (q_corhash q).
Definition set_cors (f : gmap (list Z) Z -> gmap (list Z) Z) (q : tmq_qhash_t) : tmq_qhash_t :=
  mk_qhash (q_succ q) (q_fail q) (q_numenq q) (q_numdeq q) (q_cur q) (q_fut q) (q_infligh q) (f (q_corhash q)).

Record tmq_qconfig_t := mk_qconf {
  qc_qname : list Z;
  svcnm : list Z;
  autoq : Z;
  tries : Z;
  waitinit : Z;
  waitretry : Z;
  waitretrymax : Z;
  memonly : Z;
  mode : Z;
  txtout : Z;
  errorq : list Z;
  workers : Z;
  sync : Z }.

Abbreviation msg_mem := (gmap Z tmq_memmsg_t).

Record qspace := mk_qspace {
  msgs : msg_mem;
  nodes : gmap Z ndrx_rbt_node_t;
  G_msgid_hash : gmap (list Z) Z;
  G_qhash : gmap (list Z) tmq_qhash_t;
  G_qconf : gmap (list Z) tmq_qconfig_t }.

Record qenv := mk_env {
  now : Z;
  gettid : Z;
  calloc : option Z;
  calloc_q : bool;
  fpmalloc : list Z -> bool }.
(** ** Computations on the queue space *)

Definition Q (A : Type) : Type := qspace -> option (A * qspace).

#[export] Instance Q_ret : MRet Q := fun A a s => Some (a, s).
#[export] Instance Q_bind : MBind Q :=
  fun A B f m s => match m s with Some (a, s') => f a s' | None => None end.

(** [abort], or the use of a null pointer. *)
Definition aborts {A} : Q A := fun _ => None.

Definition gets {A} (f : qspace -> A) : Q A := fun s => Some (f s, s).
Definition need {A} (o : option A) : Q A := match o with Some a => mret (M:=Q) a | None => aborts end.

Definition get_msg (p : Z) : Q tmq_memmsg_t := o ← gets (fun s => msgs s !! p); need o.
Definition upd_msg (p : Z) (f : tmq_memmsg_t -> tmq_memmsg_t) : Q unit := fun s =>
  match msgs s !! p with
  | Some m => Some (tt, mk_qspace (<[p := f m]> (msgs s)) (nodes s) (G_msgid_hash s) (G_qhash s) (G_qconf s))
  | None => None
  end.
Definition upd_hash (f : gmap (list Z) Z -> gmap (list Z) Z) : Q unit := fun s =>
  Some (tt, mk_qspace (msgs s) (nodes s) (f (G_msgid_hash s)) (G_qhash s) (G_qconf s)).
Definition get_qhash (qn : list Z) : Q tmq_qhash_t := o ← gets (fun s => G_qhash s !! qn); need o.
Definition upd_qhash (qn : list Z) (f : tmq_qhash_t -> tmq_qhash_t) : Q unit := fun s =>
  match G_qhash s !! qn with
  | Some q => Some (tt, mk_qspace (msgs s) (nodes s) (G_msgid_hash s) (<[qn := f q]> (G_qhash s)) (G_qconf s))
  | None => None
  end.

(** Memory of a message: the record and its two handles. *)
Definition new_msg (p : Z) : Q unit := fun s =>
  let zero_node := mk_node RBTBLACK NULL NULL NULL in
  Some (tt, mk_qspace (<[p := zero_mmsg]> (msgs s))
    (<[p + COR_OFFSET := zero_node]> (<[p := zero_node]> (nodes s))) (G_msgid_hash s) (G_qhash s) (G_qconf s)).
Definition free_msg (p : Z) : Q unit := fun s =>
  match msgs s !! p with
  | Some _ => Some (tt, mk_qspace (delete p (msgs s)) (delete (p + COR_OFFSET) (delete p (nodes s)))
                          (G_msgid_hash s) (G_qhash s) (G_qconf s))
  | None => None
  end.

(** ** The order of the trees *)

Definition ndrx_compare4 (a1 a2 a3 a4 b1 b2 b3 b4 : Z) : Z :=
  let res1 := i64 (a1 - b1) in
  let res2 := i64 (a2 - b2) in
  let res3 := i64 (a3 - b3) in
  let res4 := i64 (a4 - b4) in
  if negb (res1 =? 0) then i32 res1
  else if negb (res2 =? 0) then i32 res2
  else if negb (res3 =? 0) then i32 res3
  else i32 res4.

Definition ndrx_compare3 (a1 a2 a3 b1 b2 b3 : Z) : Z :=
  let res1 := i64 (a1 - b1) in
  let res2 := i64 (a2 - b2) in
  let res3 := i64 (a3 - b3) in
  if negb (res1 =? 0) then i32 res1
  else if negb (res2 =? 0) then i32 res2
  else i32 res3.

Definition msg_at (M : msg_mem) (p : Z) : tmq_msg_t := from_option mm_msg zero_msg (M !! p).

Definition tmq_rbt_cmp_cur (M : msg_mem) (a b : Z) : Z :=
  let aa := msg_at M a in
  let bb := msg_at M b in
  ndrx_compare3 (msgtstamp aa) (msgtstamp_usec aa) (msgtstamp_cntr aa)
    (msgtstamp bb) (msgtstamp_usec bb) (msgtstamp_cntr bb).

Definition tmq_rbt_cmp_cor (M : msg_mem) (a b : Z) : Z :=
  let aa := msg_at M (TMQ_COR_GETMSG a) in
  let bb := msg_at M (TMQ_COR_GETMSG b) in
  ndrx_compare3 (msgtstamp aa) (msgtstamp_usec aa) (msgtstamp_cntr aa)
    (msgtstamp bb) (msgtstamp_usec bb) (msgtstamp_cntr bb).

Definition tmq_rbt_cmp_fut (M : msg_mem) (a b : Z) : Z :=
  let aa := msg_at M a in
  let bb := msg_at M b in
  ndrx_compare4 (deq_time aa) (msgtstamp aa) (msgtstamp_usec aa) (msgtstamp_cntr aa)
    (deq_time bb) (msgtstamp bb) (msgtstamp_usec bb) (msgtstamp_cntr bb).

(** Two messages with the same key end the process. *)
Definition tmq_rbt_combine_cur (existing newdata : Z) (M : msg_mem) : option msg_mem := None.
Definition tmq_rbt_combine_fut (existing newdata : Z) (M : msg_mem) : option msg_mem := None.
Definition tmq_rbt_combine_cor (existing newdata : Z) (M : msg_mem) : option msg_mem := None.

(** The trees: of a queue, those of its messages for now and for later, and one for each
    correlator. *)
Inductive tree_id := TCur (qn : list Z) | TFut (qn : list Z) | TCor (qn c : list Z).

Definition tree_funcs (t : tree_id) : rbt_funcs msg_mem :=
  match t with
  | TCur _ => {| comparator := tmq_rbt_cmp_cur; combiner := tmq_rbt_combine_cur; freefunc := None |}
  | TFut _ => {| comparator := tmq_rbt_cmp_fut; combiner := tmq_rbt_combine_fut; freefunc := None |}
  | TCor _ _ => {| comparator := tmq_rbt_cmp_cor; combiner := tmq_rbt_combine_cor; freefunc := None |}
  end.

Definition tree_queue (t : tree_id) : list Z := match t with TCur qn | TFut qn | TCor qn _ => qn end.

Definition tree_root (t : tree_id) (s : qspace) : option Z :=
  q ← G_qhash s !! tree_queue t;
  match t with TCur _ => Some (q_cur q) | TFut _ => Some (q_fut q) | TCor _ c => q_corhash q !! c end.

Definition put_root (t : tree_id) (r : Z) : tmq_qhash_t -> tmq_qhash_t :=
  match t with TCur _ => set_cur r | TFut _ => set_fut r | TCor _ c => set_cors (insert c r) end.

(** An operation on one of the trees. *)
Definition in_tree {A} (t : tree_id) (m : Rb msg_mem A) : Q A := fun s =>
  match tree_root t s with
  | Some r =>
      match m (mk_rbt r (nodes s) (msgs s)) with
      | Some (a, b) =>
          Some (a, mk_qspace (rb_data b) (rb_nodes b) (G_msgid_hash s)
                     (alter (put_root t (rb_root b)) (tree_queue t) (G_qhash s)) (G_qconf s))
      | None => None
      end
  | None => None
  end.

Definition tree_insert (t : tree_id) (p : Z) : Q unit := in_tree t (ndrx_rbt_insert (tree_funcs t) p);; mret tt.
Definition tree_delete (t : tree_id) (p : Z) : Q unit := in_tree t (ndrx_rbt_delete (tree_funcs t) p).
Definition tree_leftmost (t : tree_id) : Q Z := in_tree t ndrx_rbt_leftmost.
Definition tree_rightmost (t : tree_id) : Q Z := in_tree t ndrx_rbt_rightmost.

(** ** Correlators *)

Definition tmq_cor_find (qn corrid_str : list Z) : Q bool :=
  q ← get_qhash qn; mret (M:=Q) (bool_decide (is_Some (q_corhash q !! corrid_str))).

Definition tmq_cor_add (e : qenv) (qn corrid_str : list Z) : Q bool :=
  if fpmalloc e corrid_str then
    upd_qhash qn (set_cors (insert corrid_str NULL));;
    in_tree (TCor qn corrid_str) ndrx_rbt_init;;
    mret (M:=Q) true
  else mret (M:=Q) false.

Definition tmq_cor_msg_del (mmsg : Z) : Q unit :=
  m ← get_msg mmsg;
  c ← need (mm_corhash m);
  qn ← need (mm_qhash m);
  tree_delete (TCor qn c) (mmsg + COR_OFFSET);;
  upd_msg mmsg (set_corhash None);;
  empty ← in_tree (TCor qn c) ndrx_rbt_is_empty;
  if empty : bool then upd_qhash qn (set_cors (delete c)) else mret tt.

Definition tmq_cor_msg_add (e : qenv) (mmsg : Z) : Q Z :=
  m ← get_msg mmsg;
  qn ← need (mm_qhash m);
  found ← tmq_cor_find qn (corrid_str m);
  ok ← (if found : bool then mret (M:=Q) true else tmq_cor_add e qn (corrid_str m));
  if ok : bool then
    upd_msg mmsg (set_corhash (Some (corrid_str m)));;
    tree_insert (TCor qn (corrid_str m)) (mmsg + COR_OFFSET);;
    mret (M:=Q) EXSUCCEED
  else mret (M:=Q) QMEOS.

(** ** Locked and unlocked messages *)

Definition CDL_APPEND (qn : list Z) (mmsg : Z) : Q unit := upd_qhash qn (set_infligh (fun l => l ++ [mmsg])).
Definition CDL_DELETE (qn : list Z) (mmsg : Z) : Q unit := upd_qhash qn (set_infligh (filter (fun p => p <> mmsg))).

(** For a time that has not come yet. *)
Definition is_future (e : qenv) (m : tmq_msg_t) : bool := has (ctl_flags m) TPQTIME_ABS && (now e <? deq_time m).

(** The part [ndrx_infl_addmsg], [ndrx_infl_mov2cur] and [ndrx_infl_fut2cur] share: into
    the tree of messages that can be taken, and into that of the correlator. *)
Definition insert_cur (e : qenv) (qn : list Z) (mmsg : Z) : Q Z :=
  tree_insert (TCur qn) mmsg;;
  upd_msg mmsg (set_state (fun st => Z.lor st NDRX_TMQ_LOC_CURQ));;
  m ← get_msg mmsg;
  if has (ctl_flags (mm_msg m)) TPQCORRID then
    r ← tmq_cor_msg_add e mmsg;
    if r =? EXSUCCEED then
      upd_msg mmsg (set_state (fun st => Z.lor st NDRX_TMQ_LOC_CORQ));; mret (M:=Q) EXSUCCEED
    else mret (M:=Q) EXFAIL
  else mret (M:=Q) EXSUCCEED.

Definition ndrx_infl_addmsg (e : qenv) (qconf qhash : list Z) (mmsg : Z) : Q Z :=
  upd_msg mmsg (set_queue qconf qhash);;
  m ← get_msg mmsg;
  ret ← (if negb (lockthreadid (mm_msg m) =? 0) then
           CDL_APPEND qhash mmsg;;
           upd_msg mmsg (set_state (fun _ => NDRX_TMQ_LOC_INFL));;
           mret (M:=Q) EXSUCCEED
         else if is_future e (mm_msg m) then
           tree_insert (TFut qhash) mmsg;;
           upd_msg mmsg (set_state (fun _ => NDRX_TMQ_LOC_FUTQ));;
           mret (M:=Q) EXSUCCEED
         else
           upd_msg mmsg (set_state (fun _ => 0));;
           insert_cur e qhash mmsg);
  if ret =? EXSUCCEED then
    upd_hash (insert (msgid_str m) mmsg);;
    upd_msg mmsg (set_state (fun st => Z.lor st NDRX_TMQ_LOC_MSGIDHASH));;
    mret (M:=Q) EXSUCCEED
  else mret (M:=Q) ret.

Definition ndrx_infl_mov2infl (mmsg : Z) : Q Z :=
  m ← get_msg mmsg;
  qn ← need (mm_qhash m);
  (if has (qstate m) NDRX_TMQ_LOC_FUTQ then
     tree_delete (TFut qn) mmsg;;
     upd_msg mmsg (set_state (fun st => clear st NDRX_TMQ_LOC_FUTQ))
   else if has (qstate m) NDRX_TMQ_LOC_CURQ then
     tree_delete (TCur qn) mmsg;;
     upd_msg mmsg (set_state (fun st => clear st NDRX_TMQ_LOC_CURQ));;
     (if has (qstate m) NDRX_TMQ_LOC_CORQ then
        tmq_cor_msg_del mmsg;;
        upd_msg mmsg (set_state (fun st => clear st NDRX_TMQ_LOC_CORQ))
      else mret tt)
   else aborts);;
  CDL_APPEND qn mmsg;;
  upd_msg mmsg (set_state (fun st => Z.lor st NDRX_TMQ_LOC_INFL));;
  mret (M:=Q) EXSUCCEED.

Definition ndrx_infl_mov2cur (e : qenv) (mmsg : Z) : Q Z :=
  m ← get_msg mmsg;
  if has (qstate m) NDRX_TMQ_LOC_INFL then
    qn ← need (mm_qhash m);
    CDL_DELETE qn mmsg;;
    upd_msg mmsg (set_state (fun st => clear st NDRX_TMQ_LOC_INFL));;
    if is_future e (mm_msg m) then
      tree_insert (TFut qn) mmsg;;
      upd_msg mmsg (set_state (fun st => Z.lor st NDRX_TMQ_LOC_FUTQ));;
      mret (M:=Q) EXSUCCEED
    else insert_cur e qn mmsg
  else aborts.

Definition ndrx_infl_delmsg (mmsg : Z) : Q Z :=
  m ← get_msg mmsg;
  (if has (qstate m) NDRX_TMQ_LOC_CORQ then tmq_cor_msg_del mmsg else mret tt);;
  (if has (qstate m) NDRX_TMQ_LOC_MSGIDHASH then upd_hash (delete (msgid_str m)) else mret tt);;
  (if has (qstate m) NDRX_TMQ_LOC_INFL then qn ← need (mm_qhash m); CDL_DELETE qn mmsg else mret tt);;
  (if has (qstate m) NDRX_TMQ_LOC_FUTQ then qn ← need (mm_qhash m); tree_delete (TFut qn) mmsg else mret tt);;
  (if has (qstate m) NDRX_TMQ_LOC_CURQ then qn ← need (mm_qhash m); tree_delete (TCur qn) mmsg else mret tt);;
  upd_msg mmsg (set_state (fun _ => 0));;
  mret (M:=Q) EXSUCCEED.

Fixpoint fut2cur_loop (f : nat) (e : qenv) (qhash : list Z) : Q Z :=
  match f with
  | O => aborts
  | S f =>
    mmsg ← tree_leftmost (TFut qhash);
    if mmsg =? NULL then mret (M:=Q) EXSUCCEED
    else
      m ← get_msg mmsg;
      if deq_time (mm_msg m) <=? now e then
        qn ← need (mm_qhash m);
        tree_delete (TFut qn) mmsg;;
        upd_msg mmsg (set_state (fun st => clear st NDRX_TMQ_LOC_FUTQ));;
        r ← insert_cur e qn mmsg;
        if r =? EXSUCCEED then fut2cur_loop f e qhash else mret (M:=Q) r
      else mret (M:=Q) EXSUCCEED
  end.

(** Every round takes a message out of the tree, so there are at most as many as
    messages. *)
Definition ndrx_infl_fut2cur (e : qenv) (qhash : list Z) : Q Z :=
  n ← gets (fun s => size (msgs s)); fut2cur_loop (S n) e qhash.
(** ** Queues and their configuration *)

Definition tmq_qconf_get (qname : list Z) : Q (option tmq_qconfig_t) := gets (fun s => G_qconf s !! qname).

Definition tmq_qconf_get_with_default (qname : list Z) : Q (option tmq_qconfig_t) :=
  r ← tmq_qconf_get qname;
  match r with Some c => mret (M:=Q) (Some c) | None => tmq_qconf_get TMQ_DEFAULT_Q end.

Definition tmq_qhash_get (qname : list Z) : Q (option tmq_qhash_t) := gets (fun s => G_qhash s !! qname).

Definition tmq_qhash_new (e : qenv) (qname : list Z) : Q bool :=
  if calloc_q e then
    (fun s => Some (tt, mk_qspace (msgs s) (nodes s) (G_msgid_hash s)
                          (<[qname := mk_qhash 0 0 0 0 NULL NULL [] ∅]> (G_qhash s)) (G_qconf s)) : option (unit * qspace));;
    in_tree (TCur qname) ndrx_rbt_init;;
    in_tree (TFut qname) ndrx_rbt_init;;
    mret (M:=Q) true
  else mret (M:=Q) false.

(** The identifier as text: Base64 of the binary one, written to a buffer that is large
    enough ([libatmi/qcommon.c]). *)
Definition tmq_msgid_serialize (msgid_in : list Z) : list Z :=
  match ndrx_xa_base64_encode msgid_in 0 (replicate (Z.to_nat (TMMSGIDLEN_STR + 1)) 0) with
  | Some (Some n, out) => take (Z.to_nat (n - 1)) out
  | _ => []
  end.

Definition tmq_get_msg_by_msgid_str (msgid_str : list Z) : Q (option Z) := gets (fun s => G_msgid_hash s !! msgid_str).

Definition tmq_msgid_exists (msgid_str : list Z) : Q bool :=
  r ← tmq_get_msg_by_msgid_str msgid_str; mret (M:=Q) (bool_decide (is_Some r)).

(** ** Adding a message

    [tmq_msg_add] is cut where it lets go of the lock, so that other threads may come in
    between: [add_begin] enters the message, then the storage is told, then either
    [add_done] counts the message or [add_undo] takes it back. *)

Inductive added := AFail (ret diag : Z) (mmsg : option Z) | ABegun (mmsg : Z) (memonly : Z).

Definition add_begin (e : qenv) (msg : tmq_msg_t) : Q added :=
  match calloc e with
  | None => mret (M:=Q) (AFail EXFAIL EXSUCCEED None)
  | Some mmsg =>
    new_msg mmsg;;
    qhash ← tmq_qhash_get (hdr_qname msg);
    qconf ← tmq_qconf_get_with_default (hdr_qname msg);
    match qconf with
    | None => mret (M:=Q) (AFail EXFAIL QMEBADQUEUE (Some mmsg))
    | Some qconf =>
      upd_msg mmsg (set_msg (fun _ => msg));;
      let msgid_str := tmq_msgid_serialize (hdr_msgid msg) in
      dup ← tmq_get_msg_by_msgid_str msgid_str;
      match dup with
      | Some _ => mret (M:=Q) (AFail EXFAIL EXSUCCEED (Some mmsg))
      | None =>
        have ← match qhash with Some _ => mret (M:=Q) true | None => tmq_qhash_new e (hdr_qname msg) end;
        if negb (have : bool) then mret (M:=Q) (AFail EXFAIL EXSUCCEED (Some mmsg))
        else
          upd_msg mmsg (set_ids msgid_str
            (if has (ctl_flags msg) TPQCORRID then tmq_msgid_serialize (corrid msg) else []));;
          ret ← ndrx_infl_addmsg e (qc_qname qconf) (hdr_qname msg) mmsg;
          if ret =? EXSUCCEED then mret (M:=Q) (ABegun mmsg (memonly qconf))
          else mret (M:=Q) (AFail ret EXSUCCEED (Some mmsg))
      end
    end
  end.

Definition add_undo (mmsg : Z) : Q unit := ndrx_infl_delmsg mmsg;; free_msg mmsg.

Definition add_done (qname : list Z) : Q unit :=
  upd_qhash qname (set_stats (fun '(s, f, ne, nd) => (s, f, i64 (ne + 1), nd))).

(** Up to the point where the storage is told; a failure before it is cleaned up. *)
Definition add_enter (e : qenv) (msg : tmq_msg_t) : Q added :=
  r ← add_begin e msg;
  match r with
  | AFail _ _ (Some mmsg) => add_undo mmsg;; mret (M:=Q) r
  | _ => mret (M:=Q) r
  end.

(** [disk] is what [tmq_storage_write_cmd_newmsg] answers; the results are that of the
    function and the diagnostic. *)
Definition tmq_msg_add (e : qenv) (msg : tmq_msg_t) (is_recovery disk : bool) : Q (Z * Z) :=
  r ← add_enter e msg;
  match r with
  | AFail ret diag _ => mret (M:=Q) (ret, diag)
  | ABegun mmsg memonly =>
    if (memonly =? 0) && negb is_recovery && negb disk then add_undo mmsg;; mret (M:=Q) (EXFAIL, QMEOS)
    else add_done (hdr_qname msg);; mret (M:=Q) (EXSUCCEED, EXSUCCEED)
  end.

(** ** Taking a message *)

(** The message that is next, at one of the ends of a tree. *)
Definition next_msg (lifo : bool) (qname : list Z) (corrid_str : option (list Z)) : Q Z :=
  match corrid_str with
  | Some c => p ← (if lifo then tree_rightmost (TCor qname c) else tree_leftmost (TCor qname c));
              mret (M:=Q) (TMQ_COR_GETMSG p)
  | None => if lifo then tree_rightmost (TCur qname) else tree_leftmost (TCur qname)
  end.

(** The part under the lock: the address of the message or a diagnostic. *)
Definition dequeue_begin (e : qenv) (qname : list Z) (corrid_str : option (list Z)) : Q (Z + Z) :=
  qconf ← tmq_qconf_get_with_default qname;
  match qconf with
  | None => mret (M:=Q) (inr QMEBADQUEUE)
  | Some qconf =>
    qhash ← tmq_qhash_get qname;
    match qhash with
    | None => mret (M:=Q) (inr QMENOMSG)
    | Some _ =>
      found ← match corrid_str with Some c => tmq_cor_find qname c | None => mret (M:=Q) true end;
      if negb (found : bool) then mret (M:=Q) (inr QMENOMSG)
      else
        ndrx_infl_fut2cur e qname;;
        node ← next_msg (TMQ_MODE_LIFO =? mode qconf) qname corrid_str;
        if node =? NULL then mret (M:=Q) (inr QMENOMSG)
        else
          upd_msg node (set_msg (set_lock (gettid e)));;
          ndrx_infl_mov2infl node;;
          mret (M:=Q) (inl node)
    end
  end.

(** The removal could not be written. *)
Definition dequeue_undo (e : qenv) (mmsg : Z) : Q unit :=
  upd_msg mmsg (set_msg (set_lock 0));; ndrx_infl_mov2cur e mmsg;; mret tt.

(** [disk] is what [tmq_storage_write_cmd_block] answers; [e'] is what the world is like
    then.  The result is the message or the diagnostic. *)
Definition tmq_msg_dequeue (e e' : qenv) (qname : list Z) (flags : Z) (is_auto : bool)
    (corrid_str : option (list Z)) (disk : bool) : Q (tmq_msg_t + Z) :=
  r ← dequeue_begin e qname corrid_str;
  match r with
  | inr diag => mret (M:=Q) (inr diag)
  | inl node =>
    m ← get_msg node;
    if negb (has flags TPQPEEK) && negb is_auto && negb disk then
      dequeue_undo e' node;; mret (M:=Q) (inr QMEOS)
    else mret (M:=Q) (inl (mm_msg m))
  end.

Definition dequeue_id_begin (e : qenv) (msgid : list Z) : Q (option Z) :=
  r ← tmq_get_msg_by_msgid_str (tmq_msgid_serialize msgid);
  match r with
  | None => mret (M:=Q) None
  | Some mmsg =>
    m ← get_msg mmsg;
    if negb (lockthreadid (mm_msg m) =? 0) then mret (M:=Q) None
    else
      upd_msg mmsg (set_msg (set_lock (gettid e)));;
      ndrx_infl_mov2infl mmsg;;
      mret (M:=Q) (Some mmsg)
  end.

Definition tmq_msg_dequeue_by_msgid (e e' : qenv) (msgid : list Z) (flags : Z) (disk : bool) : Q (tmq_msg_t + Z) :=
  r ← dequeue_id_begin e msgid;
  match r with
  | None => mret (M:=Q) (inr QMENOMSG)
  | Some mmsg =>
    m ← get_msg mmsg;
    if negb (has flags TPQPEEK) && negb disk then dequeue_undo e' mmsg;; mret (M:=Q) (inr QMEOS)
    else mret (M:=Q) (inl (mm_msg m))
  end.

(** ** Ends of transactions and locks *)

Definition tmq_remove_msg (mmsg : Z) : Q unit :=
  m ← get_msg mmsg;
  qhash ← tmq_qhash_get (hdr_qname (mm_msg m));
  match qhash with
  | Some _ => upd_qhash (hdr_qname (mm_msg m)) (set_stats (fun '(s, f, ne, nd) => (s, f, ne, i64 (nd + 1))))
  | None => mret tt
  end;;
  ndrx_infl_delmsg mmsg;;
  free_msg mmsg.

Definition tmq_unlock_msg (e : qenv) (b : tmq_upd_block) : Q Z :=
  let unlock mmsg :=
    upd_msg mmsg (set_msg (set_lock 0));; ndrx_infl_mov2cur e mmsg;; mret (M:=Q) EXSUCCEED in
  if b_command b =? TMQ_STORCMD_DUM then mret (M:=Q) EXSUCCEED
  else
    r ← tmq_get_msg_by_msgid_str (tmq_msgid_serialize (b_msgid b));
    match r with
    | None => mret (M:=Q) EXSUCCEED
    | Some mmsg =>
      if b_command b =? TMQ_STORCMD_DEL then tmq_remove_msg mmsg;; mret (M:=Q) EXSUCCEED
      else if b_command b =? TMQ_STORCMD_UPD then upd_msg mmsg (set_msg (UPD_MSG b));; unlock mmsg
      else if (b_command b =? TMQ_STORCMD_NEWMSG) || (b_command b =? TMQ_STORCMD_UNLOCK) then unlock mmsg
      else mret (M:=Q) EXFAIL
    end.

Definition tmq_unlock_msg_by_msgid (e : qenv) (msgid : list Z) : Q Z :=
  r ← tmq_get_msg_by_msgid_str (tmq_msgid_serialize msgid);
  match r with
  | None => mret (M:=Q) EXFAIL
  | Some mmsg => upd_msg mmsg (set_msg (set_lock 0));; ndrx_infl_mov2cur e mmsg;; mret (M:=Q) EXSUCCEED
  end.

Definition tmq_lock_msg (e : qenv) (msgid : list Z) : Q Z :=
  r ← tmq_get_msg_by_msgid_str (tmq_msgid_serialize msgid);
  match r with
  | None => mret (M:=Q) EXFAIL
  | Some mmsg => upd_msg mmsg (set_msg (set_lock (gettid e)));; ndrx_infl_mov2infl mmsg;; mret (M:=Q) EXSUCCEED
  end.

(** ** Statistics *)

Definition tmq_update_q_stats (qname : list Z) (succ_diff fail_diff : Z) : Q Z :=
  qhash ← tmq_qhash_get qname;
  match qhash with
  | Some _ => upd_qhash qname (set_stats (fun '(s, f, ne, nd) => (i64 (s + succ_diff), i64 (f + fail_diff), ne, nd)))
  | None => mret tt
  end;;
  mret (M:=Q) EXSUCCEED.

(** The nodes of a tree in the order of the iterator. *)
Fixpoint iterate_all (n : nat) (it : ndrx_rbt_tree_iterator_t) : Rb msg_mem (list Z) :=
  match n with
  | O => undef
  | S n =>
    r ← ndrx_rbt_iterate it;
    let '(p, it) := r : Z * ndrx_rbt_tree_iterator_t in
    if p =? NULL then mret (M:=Rb msg_mem) [] else rest ← iterate_all n it; mret (M:=Rb msg_mem) (p :: rest)
  end.

Definition tree_walk (t : tree_id) : Q (list Z) :=
  in_tree t (f ← fuel; it ← ndrx_rbt_begin_iterate LeftRightWalk; iterate_all f it).

(** The messages of a queue, in the order in which the loops of [tmq_get_q_stats] and
    [tmq_get_msglist] visit them. *)
Definition visit_all (qname : list Z) (q : tmq_qhash_t) : Q (list Z * list Z) :=
  cur ← tree_walk (TCur qname);
  fut ← tree_walk (TFut qname);
  mret (M:=Q) (q_infligh q, cur ++ fut).

Fixpoint read_all (l : list Z) : Q (list tmq_msg_t) :=
  match l with
  | [] => mret (M:=Q) []
  | p :: l => m ← get_msg p; rest ← read_all l; mret (M:=Q) (mm_msg m :: rest)
  end.

(** The number of messages and how many of them are locked, added to what the caller
    has. *)
Definition tmq_get_q_stats (qname : list Z) (p_msgs p_locked : Z) : Q (Z * Z) :=
  qhash ← tmq_qhash_get qname;
  match qhash with
  | None => mret (M:=Q) (p_msgs, p_locked)
  | Some q =>
    r ← visit_all qname q;
    let '(infl, rest) := r : list Z * list Z in
    ms ← read_all infl;
    mret (M:=Q) (p_msgs + zlen infl + zlen rest,
                 p_locked + zlen (filter (fun m => lockthreadid m <> 0) ms))
  end.

(** Copies of the messages; none when the memory [mem] is not enough for all of them. *)
Definition tmq_get_msglist (mem : nat) (qname : list Z) : Q (list tmq_msg_t) :=
  qhash ← tmq_qhash_get qname;
  match qhash with
  | None => mret (M:=Q) []
  | Some q =>
    r ← visit_all qname q;
    if (mem <? length (r.1 ++ r.2))%nat then mret (M:=Q) [] else read_all (r.1 ++ r.2)
  end.

(** ** Time stamps of new messages

    The part of [tmq_enqueue] under its lock ([tmqueue/tmqapi.c]): a counter that tells
    messages of the same microsecond apart, started anew from a random number whenever
    the clock shows another time. *)

Record tstamp_state := mk_tstamp { t_first : bool; t_sec : Z; t_usec : Z; t_cntr : Z }.

Definition tstamp_init : tstamp_state := mk_tstamp true 0 0 0.

Definition next_cntr (rand1 rand2 : Z) (t : tstamp_state) (sec usec : Z) : tstamp_state :=
  let c := if t_first t then Z.rem rand1 2500000 else t_cntr t in
  if (sec =? t_sec t) && (usec =? t_usec t) then mk_tstamp false (t_sec t) (t_usec t) (i32 (c + 1))
  else mk_tstamp false sec usec (Z.rem rand2 2500000).

(** The message with the time its thread has read from the clock, and the counter. *)
Definition stamp_msg (sec usec rand1 rand2 : Z) (m : tmq_msg_t) (t : tstamp_state) : tmq_msg_t * tstamp_state :=
  let t := next_cntr rand1 rand2 t sec usec in
  (mk_msg (hdr_qname m) (hdr_msgid m) (lockthreadid m) (status m) (trycounter m) sec usec (t_cntr t)
     (trytstamp m) (trytstamp_usec m) (ctl_flags m) (deq_time m) (corrid m) (payload m), t).
