(* ===== verification/QForest.v ===== *)
(** * Trees that share a memory

    What the operations of [RbTree] do when several trees lie in the same memory: the
    tree that is worked on changes as [RbInsert] and [RbDelete] say, the others stay.
    [forest s lay] says that the queue space [s] holds, for each tree, a balanced tree
    with the handles [lay] gives it. *)

From stdpp Require Import gmap.
From S2P Require Import Prelude RbTree RbShape RbMem RbInsert RbDelete RbTreeOk QSpace.

Local Open Scope Z_scope.

(** ** Running *)

Definition qruns {A} (m : Q A) (s : qspace) (P : A -> qspace -> Prop) : Prop :=
  exists a s', m s = Some (a, s') /\ P a s'.

Lemma qruns_ret {A} (a : A) s P : P a s -> qruns (mret (M:=Q) a) s P.
Proof. intros. by exists a, s. Qed.

Lemma qruns_bind {A B} (m : Q A) (f : A -> Q B) s P :
  qruns m s (fun a s' => qruns (f a) s' P) -> qruns (m ≫= f) s P.
Proof.
  intros (a & s' & E & b & s2 & E2 & H). exists b, s2. split; [|done].
  unfold mbind, Q_bind. by rewrite E.
Qed.

Lemma qruns_mono {A} (m : Q A) s (P P' : A -> qspace -> Prop) :
  qruns m s P -> (forall a s', P a s' -> P' a s') -> qruns m s P'.
Proof. intros (a & s' & E & H) Himp. exists a, s'. auto. Qed.

Lemma qruns_gets {A} (f : qspace -> A) s P : P (f s) s -> qruns (gets f) s P.
Proof. intros. by exists (f s), s. Qed.

Lemma qruns_need {A} (o : option A) a s P : o = Some a -> P a s -> qruns (need o) s P.
Proof. intros -> ?. by exists a, s. Qed.

Lemma qruns_get_msg p m s P : msgs s !! p = Some m -> P m s -> qruns (get_msg p) s P.
Proof. intros E ?. apply qruns_bind, qruns_gets. by apply (qruns_need _ m). Qed.

Definition with_msgs (M : msg_mem) (s : qspace) : qspace :=
  mk_qspace M (nodes s) (G_msgid_hash s) (G_qhash s) (G_qconf s).

Lemma qruns_upd_msg p f m s (P : unit -> qspace -> Prop) :
  msgs s !! p = Some m -> P tt (with_msgs (<[p := f m]> (msgs s)) s) -> qruns (upd_msg p f) s P.
Proof. intros E ?. exists tt. eexists. unfold upd_msg. by rewrite E. Qed.

(** ** What there is to see of a queue *)

Definition infl (qn : list Z) (s : qspace) : option (list Z) := q_infligh <$> G_qhash s !! qn.

Definition stat_of (q : tmq_qhash_t) : Z * Z * Z * Z := (q_succ q, q_fail q, q_numenq q, q_numdeq q).

#[export] Instance tree_id_eq_dec : EqDecision tree_id.
Proof. solve_decision. Defined.

(** Nothing but the tree [t] and the memory of the handles is different. *)
Definition same_but (t : tree_id) (s s' : qspace) : Prop :=
  msgs s' = msgs s /\ G_msgid_hash s' = G_msgid_hash s /\ G_qconf s' = G_qconf s /\
  (forall qn, infl qn s' = infl qn s) /\ stat_of <$> G_qhash s' = stat_of <$> G_qhash s /\
  (forall t', t' <> t -> tree_root t' s' = tree_root t' s).

Lemma tree_root_alter t t' r s M n h c :
  tree_root t' (mk_qspace M n h (alter (put_root t r) (tree_queue t) (G_qhash s)) c) =
  if decide (t' = t) then (fun _ => r) <$> G_qhash s !! tree_queue t else tree_root t' s.
Proof.
  unfold tree_root. cbn [G_qhash]. destruct (decide (tree_queue t' = tree_queue t)) as [E|E].
  - rewrite E, lookup_alter_eq. destruct (G_qhash s !! tree_queue t) as [q|]; cbn.
    + destruct t, t'; cbn in E |- *; subst; try (destruct (decide _); congruence).
      destruct (decide _) as [Ed|Ed]; [injection Ed as ->; by rewrite lookup_insert_eq|].
      rewrite lookup_insert_ne; [done|]. intros ->. by apply Ed.
    + by destruct (decide (t' = t)).
  - rewrite lookup_alter_ne by done. rewrite decide_False by congruence. done.
Qed.

Lemma same_but_put t r s M n h c :
  M = msgs s -> h = G_msgid_hash s -> c = G_qconf s ->
  same_but t s (mk_qspace M n h (alter (put_root t r) (tree_queue t) (G_qhash s)) c).
Proof.
  intros -> -> ->. split; [done|]. split; [done|]. split; [done|]. cbn. split.
  { intros qn. unfold infl. cbn. destruct (decide (qn = tree_queue t)) as [->|];
      [rewrite lookup_alter_eq|by rewrite lookup_alter_ne].
    destruct (G_qhash s !! tree_queue t); [|done]. by destruct t. }
  split.
  { apply map_eq. intros qn. rewrite !lookup_fmap. destruct (decide (qn = tree_queue t)) as [->|];
      [rewrite lookup_alter_eq|by rewrite lookup_alter_ne].
    destruct (G_qhash s !! tree_queue t); [|done]. by destruct t. }
  intros t' Ht. rewrite tree_root_alter. by rewrite decide_False.
Qed.

(** ** The forest *)

Definition forest (s : qspace) (lay : tree_id -> list Z) : Prop :=
  nil_ok (nodes s) /\
  (forall t, match tree_root t s with
             | Some r => rbt_at (mk_rbt r (nodes s) (msgs s)) (lay t)
             | None => lay t = []
             end) /\
  (forall t t' a, a ∈ lay t -> a ∈ lay t' -> t = t').

Definition lay_set (lay : tree_id -> list Z) (t : tree_id) (l : list Z) : tree_id -> list Z :=
  fun t' => if decide (t' = t) then l else lay t'.

Lemma lay_set_eq lay t l : lay_set lay t l t = l.
Proof. unfold lay_set. by rewrite decide_True. Qed.

Lemma lay_set_ne lay t l t' : t' <> t -> lay_set lay t l t' = lay t'.
Proof. intros. unfold lay_set. by rewrite decide_False. Qed.

Lemma forest_root s lay t : forest s lay -> is_Some (tree_root t s) ->
  exists r, tree_root t s = Some r /\ rbt_at (mk_rbt r (nodes s) (msgs s)) (lay t).
Proof. intros (_ & H & _) [r Hr]. exists r. specialize (H t). by rewrite Hr in H. Qed.

(** One tree is worked on, inside the addresses [L] and the sentinel. *)
Lemma forest_step {A} s lay t r (m : Rb msg_mem A) l' L (P : A -> Prop) :
  forest s lay -> tree_root t s = Some r ->
  runs m (mk_rbt r (nodes s) (msgs s)) (fun a b =>
    P a /\ rbt_at b l' /\ rb_data b = msgs s /\ outside (RBTNIL :: L) (mk_rbt r (nodes s) (msgs s)) b) ->
  (forall x t', x ∈ L -> t' <> t -> x ∉ lay t') -> (forall x, x ∈ l' -> x ∈ L) ->
  qruns (in_tree t m) s (fun a s' =>
    P a /\ forest s' (lay_set lay t l') /\ same_but t s s' /\ is_Some (tree_root t s')).
Proof.
  intros (Hn & Hf & Hd) Hr (a & b & E & HP & Hb & Eb & Ho) HL Hl'. unfold qruns, in_tree. rewrite Hr, E.
  assert (exists q, G_qhash s !! tree_queue t = Some q) as [q Eq].
  { unfold tree_root in Hr. destruct (G_qhash s !! tree_queue t) as [q|]; [by exists q|done]. }
  eexists _, _. split; [done|]. split; [done|]. unfold forest. split_and!.
  - cbn. by apply rbt_at_nil_ok in Hb.
  - intros t'. rewrite tree_root_alter. destruct (decide (t' = t)) as [->|Ht].
    + rewrite Eq, lay_set_eq. cbn. by destruct b.
    + rewrite lay_set_ne by done. specialize (Hf t'). destruct (tree_root t' s) as [r'|]; [|done].
      eapply rbt_at_frame; [done|done|cbn; by apply rbt_at_nil_ok in Hb|]. intros p Hp. cbn. apply Ho.
      intros [->|Hp2]%elem_of_cons; [|by apply (HL p t')]. apply rbt_at_addrs in Hf as (_ & _ & Hf). done.
  - intros t1 t2 x. unfold lay_set. do 2 destruct (decide _); subst; try congruence; [| |by apply Hd].
    + intros Hx Hx2. by destruct (HL x t2 (Hl' _ Hx)).
    + intros Hx2 Hx. by destruct (HL x t1 (Hl' _ Hx)).
  - by apply same_but_put.
  - rewrite tree_root_alter, decide_True, Eq by done. by eexists.
Qed.

Lemma forest_insert s lay t l1 l2 p :
  forest s lay -> is_Some (tree_root t s) -> lay t = l1 ++ l2 ->
  between (tree_funcs t) (msgs s) p l1 l2 -> p <> NULL -> p <> RBTNIL -> (forall t', p ∉ lay t') ->
  qruns (tree_insert t p) s (fun _ s' =>
    forest s' (lay_set lay t (l1 ++ p :: l2)) /\ same_but t s s' /\ is_Some (tree_root t s')).
Proof.
  intros Hf Hs El B H0 H1 Hp. destruct (forest_root _ _ t Hf Hs) as (r & Hr & Hb). rewrite El in Hb.
  apply qruns_bind. eapply qruns_mono.
  { apply (forest_step s lay t r _ (l1 ++ p :: l2) (p :: l1 ++ l2) (fun _ => True)); [done|done| | |].
    - eapply rb_runs_mono.
      + apply (insert_new (tree_funcs t) _ p l1 l2 Hb); [done..|]. specialize (Hp t). by rewrite El in Hp.
      + intros a b (_ & Hb' & Hd & Ho). split_and!; [done|done|done|]. intros q Hq. apply Ho. set_solver.
    - intros x t' [->|Hx]%elem_of_cons Ht; [done|]. intros Hx'. rewrite <-El in Hx.
      destruct Hf as (_ & _ & Hd). by destruct Ht; apply (Hd _ _ x).
    - set_solver. }
  intros a s' (_ & H). by apply qruns_ret.
Qed.

Lemma forest_delete s lay t l1 l2 p :
  forest s lay -> is_Some (tree_root t s) -> lay t = l1 ++ p :: l2 ->
  qruns (tree_delete t p) s (fun _ s' =>
    forest s' (lay_set lay t (l1 ++ l2)) /\ same_but t s s' /\ is_Some (tree_root t s')).
Proof.
  intros Hf Hs El. destruct (forest_root _ _ t Hf Hs) as (r & Hr & Hb). rewrite El in Hb.
  eapply qruns_mono.
  { apply (forest_step s lay t r _ (l1 ++ l2) (l1 ++ p :: l2) (fun _ => True)); [done|done| | |].
    - eapply rb_runs_mono; [apply (delete_ok (tree_funcs t) _ l1 p l2 (msgs s) Hb); by destruct t|].
      intros a b (Hb' & Hd & Ho). done.
    - intros x t' Hx Ht Hx'. rewrite <-El in Hx. destruct Hf as (_ & _ & Hd). by destruct Ht; apply (Hd _ _ x).
    - set_solver. }
  intros a s' (_ & H). done.
Qed.

(** An operation that only reads. *)
Lemma in_tree_read {A} s t r (m : Rb msg_mem A) (P : A -> Prop) :
  tree_root t s = Some r ->
  runs m (mk_rbt r (nodes s) (msgs s)) (fun a b => b = mk_rbt r (nodes s) (msgs s) /\ P a) ->
  qruns (in_tree t m) s (fun a s' => s' = s /\ P a).
Proof.
  intros Hr (a & b & E & -> & HP). unfold qruns, in_tree. rewrite Hr, E. eexists _, _. split; [done|]. split; [|done].
  cbn. destruct s as [M n h qh c]. cbn in *. f_equal. apply map_eq. intros qn.
  unfold tree_root in Hr. cbn in Hr. destruct (decide (qn = tree_queue t)) as [->|]; [|by rewrite lookup_alter_ne].
  rewrite lookup_alter_eq. destruct (qh !! tree_queue t) as [q|] eqn:Eq; [|done]. cbn in *. f_equal.
  destruct q, t; cbn in *; simplify_eq; try done. unfold set_cors. cbn. by rewrite insert_id.
Qed.

Lemma forest_leftmost s lay t :
  forest s lay -> is_Some (tree_root t s) ->
  qruns (tree_leftmost t) s (fun a s' => s' = s /\ a = hd NULL (lay t)).
Proof.
  intros Hf Hs. destruct (forest_root _ _ t Hf Hs) as (r & Hr & Hb). by eapply in_tree_read, (most_ok L).
Qed.

Lemma forest_rightmost s lay t :
  forest s lay -> is_Some (tree_root t s) ->
  qruns (tree_rightmost t) s (fun a s' => s' = s /\ a = List.last (lay t) NULL).
Proof.
  intros Hf Hs. destruct (forest_root _ _ t Hf Hs) as (r & Hr & Hb). by eapply in_tree_read, (most_ok R).
Qed.

Lemma forest_empty s lay t :
  forest s lay -> is_Some (tree_root t s) ->
  qruns (in_tree t ndrx_rbt_is_empty) s (fun a s' => s' = s /\ a = bool_decide (lay t = [])).
Proof.
  intros Hf Hs. destruct (forest_root _ _ t Hf Hs) as (r & Hr & Hb). eapply in_tree_read; [done|].
  apply rb_runs_bind, runs_get_root, rb_runs_ret. split; [done|]. cbn [rb_root].
  destruct Hb as (u & n & (_ & Eu & (_ & _ & Hnil) & _) & _ & _ & <-). cbn in Eu. subst r.
  destruct u as [|c ul p ur]; cbn [ptr inorder] in *.
  - rewrite Z.eqb_refl. symmetry. by apply bool_decide_eq_true.
  - rewrite (proj2 (Z.eqb_neq _ _)) by set_solver. symmetry. apply bool_decide_eq_false. by destruct (inorder ul).
Qed.

Lemma iterate_all_walk n it s : iterate_all n it s = rbt_walk n it s.
Proof.
  revert it s. induction n as [|n IH]; intros it s; [done|]. cbn [iterate_all rbt_walk]. unfold mbind, Rb_bind.
  destruct (ndrx_rbt_iterate it s) as [[[p it'] s']|]; [|done]. destruct (p =? NULL); [done|]. by rewrite IH.
Qed.

Lemma forest_walk s lay t :
  forest s lay -> is_Some (tree_root t s) -> qruns (tree_walk t) s (fun a s' => s' = s /\ a = lay t).
Proof.
  intros Hf Hs. destruct (forest_root _ _ t Hf Hs) as (r & Hr & Hb). eapply in_tree_read; [done|].
  apply rb_runs_bind, runs_fuel. pose proof Hb as (u & n & Hu & _ & _ & Eu). pose proof (at_size _ _ Hu) as Hsz.
  rewrite Eu in Hsz. destruct (walk_ok L _ _ (S (size (nodes s))) Hb) as (a & b & E & -> & ->); [cbn in *; lia|].
  eexists _, _. split; [etransitivity; [|exact E]|done]. unfold mbind, Rb_bind. cbn [order_of].
  destruct (ndrx_rbt_begin_iterate _ _) as [[it s']|]; [|done]. apply iterate_all_walk.
Qed.

Lemma rbt_at_new {D} (n : node_mem) (d : D) : nil_ok n -> rbt_at (mk_rbt RBTNIL n d) [].
Proof.
  intros Hn. exists Leaf, 0%nat. split_and!; [|constructor|done|done].
  split; [done|]. split; [done|]. split; [|done]. split_and!; [constructor|set_solver..].
Qed.

(** Changes that leave the handles in trees alone; an empty tree may appear or go. *)
Lemma forest_change s s' lay :
  forest s lay ->
  (forall a : Z, a = RBTNIL \/ (exists t, a ∈ lay t) -> nodes s' !! a = nodes s !! a) ->
  (forall t, tree_root t s' = tree_root t s \/
     lay t = [] /\ (tree_root t s' = None \/ tree_root t s' = Some RBTNIL)) ->
  forest s' lay.
Proof.
  intros (Hn & Hf & Hd) En Er. assert (Hn' : nil_ok (nodes s')).
  { destruct Hn as [sp Hn]. exists sp. rewrite En by auto. done. }
  split_and!; [done| |done]. intros t. specialize (Hf t). destruct (Er t) as [->|(El & [->| ->])]; [|done|].
  - destruct (tree_root t s) as [r|]; [|done]. eapply rbt_at_frame; [done|done|done|].
    intros p Hp. cbn. apply En. right. by exists t.
  - rewrite El. by apply rbt_at_new.
Qed.
