(* ===== verification/QCore.v ===== *)
(** * The structures of the queue space agree

    Every structure that holds messages (trees, lists, hash) is described by the same
    table [B], which says for each message where it is: [core s B].  The lemmas say how
    each change of a structure changes the table. *)

From stdpp Require Import gmap sorting.
From S2P Require Import Prelude RbTree RbShape RbMem RbInsert RbDelete RbTreeOk QSpace QForest.

Local Open Scope Z_scope.

(** ** Places and keys *)

Inductive loc := LInfl | LFut | LCur | LCor | LHash.

#[export] Instance loc_eq_dec : EqDecision loc.
Proof. solve_decision. Defined.

Definition bit (l : loc) : Z :=
  match l with
  | LInfl => NDRX_TMQ_LOC_INFL
  | LFut => NDRX_TMQ_LOC_FUTQ
  | LCur => NDRX_TMQ_LOC_CURQ
  | LCor => NDRX_TMQ_LOC_CORQ
  | LHash => NDRX_TMQ_LOC_MSGIDHASH
  end.

Definition tree_loc (t : tree_id) : loc := match t with TCur _ => LCur | TFut _ => LFut | TCor _ _ => LCor end.

Definition handle (t : tree_id) (p : Z) : Z := match t with TCor _ _ => p + COR_OFFSET | _ => p end.

Definition of_cor (t : tree_id) (m : tmq_memmsg_t) : Prop :=
  match t with TCor _ c => corrid_str m = c | _ => True end.

(** The handle [a] is that of a message whose place is the tree [t]. *)
Definition belongs (M : msg_mem) (B : Z -> loc -> bool) (t : tree_id) (a : Z) : Prop :=
  exists p m, M !! p = Some m /\ mm_qhash m = Some (tree_queue t) /\ B p (tree_loc t) = true /\
    of_cor t m /\ a = handle t p.

(** The time stamp of a message, to its counter, as one number; with the time to wait
    for in front of it. *)
Definition stamp (m : tmq_msg_t) : Z :=
  (msgtstamp m * 2147483648 + msgtstamp_usec m) * 2147483648 + msgtstamp_cntr m.
Definition due (m : tmq_msg_t) : Z := deq_time m * 9903520314283042199192993792 + stamp m.

Definition small (z : Z) : bool := (0 <=? z) && (z <? 2147483648).

(** The times have a size for which differences of [int] are right. *)
Definition timely (m : tmq_msg_t) : bool :=
  small (msgtstamp m) && small (msgtstamp_usec m) && small (msgtstamp_cntr m) &&
  (negb (has (ctl_flags m) TPQTIME_ABS) || small (deq_time m)).

Definition tree_key (t : tree_id) (M : msg_mem) (a : Z) : Z :=
  match t with
  | TCur _ => stamp (msg_at M a)
  | TFut _ => due (msg_at M a)
  | TCor _ _ => stamp (msg_at M (TMQ_COR_GETMSG a))
  end.

Definition ordered (k : Z -> Z) : list Z -> Prop := StronglySorted (fun a b => k a < k b).

(** ** Comparison *)

Lemma i64_id z : - 9223372036854775808 <= z < 9223372036854775808 -> i64 z = z.
Proof. intros. unfold i64. rewrite Z.mod_small by lia. lia. Qed.

Lemma small_spec z : small z = true <-> 0 <= z < 2147483648.
Proof. unfold small. lia. Qed.

Lemma timely_spec m : timely m = true <->
  0 <= msgtstamp m < 2147483648 /\ 0 <= msgtstamp_usec m < 2147483648 /\ 0 <= msgtstamp_cntr m < 2147483648 /\
  (has (ctl_flags m) TPQTIME_ABS = true -> 0 <= deq_time m < 2147483648).
Proof.
  unfold timely. rewrite !andb_true_iff, orb_true_iff, negb_true_iff, !small_spec.
  destruct (has (ctl_flags m) TPQTIME_ABS); intuition (try congruence).
Qed.

Lemma compare3_spec a1 a2 a3 b1 b2 b3 :
  0 <= a1 < 2147483648 -> 0 <= a2 < 2147483648 -> 0 <= a3 < 2147483648 ->
  0 <= b1 < 2147483648 -> 0 <= b2 < 2147483648 -> 0 <= b3 < 2147483648 ->
  let c := ndrx_compare3 a1 a2 a3 b1 b2 b3 in
  let x := (a1 * 2147483648 + a2) * 2147483648 + a3 in
  let y := (b1 * 2147483648 + b2) * 2147483648 + b3 in
  (c < 0 <-> x < y) /\ (0 < c <-> y < x).
Proof.
  intros. subst c. unfold ndrx_compare3. rewrite !i64_id by lia.
  rewrite !i32_id by (unfold INT_MIN, INT_MAX; lia).
  destruct (Z.eqb_spec (a1 - b1) 0); cbn [negb]; [|subst x y; lia].
  destruct (Z.eqb_spec (a2 - b2) 0); cbn [negb]; subst x y; lia.
Qed.

Lemma compare4_spec a0 a1 a2 a3 b0 b1 b2 b3 :
  0 <= a0 < 2147483648 -> 0 <= b0 < 2147483648 ->
  0 <= a1 < 2147483648 -> 0 <= a2 < 2147483648 -> 0 <= a3 < 2147483648 ->
  0 <= b1 < 2147483648 -> 0 <= b2 < 2147483648 -> 0 <= b3 < 2147483648 ->
  let c := ndrx_compare4 a0 a1 a2 a3 b0 b1 b2 b3 in
  let x := a0 * 9903520314283042199192993792 + ((a1 * 2147483648 + a2) * 2147483648 + a3) in
  let y := b0 * 9903520314283042199192993792 + ((b1 * 2147483648 + b2) * 2147483648 + b3) in
  (c < 0 <-> x < y) /\ (0 < c <-> y < x).
Proof.
  intros. pose proof (compare3_spec a1 a2 a3 b1 b2 b3) as Hc. cbv zeta in Hc. unfold ndrx_compare3 in Hc.
  rewrite !i64_id in Hc by lia. subst c. unfold ndrx_compare4. rewrite !i64_id by lia.
  destruct (Z.eqb_spec (a0 - b0) 0); cbn [negb].
  - assert (a0 = b0) as -> by lia. specialize (Hc ltac:(lia) ltac:(lia) ltac:(lia) ltac:(lia) ltac:(lia) ltac:(lia)).
    destruct Hc as [Hc1 Hc2]. subst x y. split; [etransitivity; [exact Hc1|lia]|etransitivity; [exact Hc2|lia]].
  - rewrite i32_id by (unfold INT_MIN, INT_MAX; lia). subst x y. lia.
Qed.

(** A message whose key is of use in the tree [t]. *)
Definition keyed (t : tree_id) (m : tmq_msg_t) : Prop :=
  timely m = true /\ match t with TFut _ => has (ctl_flags m) TPQTIME_ABS = true | _ => True end.

Lemma msg_at_some (M : msg_mem) p m : M !! p = Some m -> msg_at M p = mm_msg m.
Proof. unfold msg_at. by intros ->. Qed.

Lemma getmsg_handle p : TMQ_COR_GETMSG (p + COR_OFFSET) = p.
Proof. unfold TMQ_COR_GETMSG. lia. Qed.

(** The key of a handle and the message it belongs to. *)
Definition msg_key (t : tree_id) : tmq_msg_t -> Z := match t with TFut _ => due | _ => stamp end.

Lemma tree_key_handle t M p m : M !! p = Some m -> tree_key t M (handle t p) = msg_key t (mm_msg m).
Proof.
  intros E. destruct t; cbn [tree_key handle msg_key]; rewrite ?getmsg_handle; by rewrite (msg_at_some _ _ _ E).
Qed.

Lemma cmp_key t M p q m m' :
  M !! p = Some m -> M !! q = Some m' -> keyed t (mm_msg m) -> keyed t (mm_msg m') ->
  let c := comparator (tree_funcs t) M (handle t p) (handle t q) in
  (c < 0 <-> msg_key t (mm_msg m) < msg_key t (mm_msg m')) /\ (0 < c <-> msg_key t (mm_msg m') < msg_key t (mm_msg m)).
Proof.
  intros E E' [H K] [H' K']. apply timely_spec in H as (? & ? & ? & Hd), H' as (? & ? & ? & Hd').
  destruct t; cbn [tree_funcs comparator handle msg_key] in *;
    unfold tmq_rbt_cmp_cur, tmq_rbt_cmp_fut, tmq_rbt_cmp_cor; rewrite ?getmsg_handle, (msg_at_some _ _ _ E), (msg_at_some _ _ _ E').
  - by apply compare3_spec.
  - specialize (Hd K). specialize (Hd' K'). by apply compare4_spec.
  - by apply compare3_spec.
Qed.

(** ** Agreement *)

Record laid (s : qspace) (B : Z -> loc -> bool) (lay : tree_id -> list Z) : Prop := {
  l_forest : forest s lay;
  l_in t a : a ∈ lay t <-> belongs (msgs s) B t a;
  l_ordered t : ordered (tree_key t (msgs s)) (lay t);
  l_infl qn l : infl qn s = Some l -> NoDup l /\
    forall p, p ∈ l <-> exists m, msgs s !! p = Some m /\ mm_qhash m = Some qn /\ B p LInfl = true;
  l_hash k p : G_msgid_hash s !! k = Some p <->
    exists m, msgs s !! p = Some m /\ msgid_str m = k /\ B p LHash = true;
  l_link p m : msgs s !! p = Some m -> B p LCor = true -> mm_corhash m = Some (corrid_str m);
  l_fut p m : msgs s !! p = Some m -> B p LFut = true -> has (ctl_flags (mm_msg m)) TPQTIME_ABS = true;
  l_owner p m qn : msgs s !! p = Some m -> mm_qhash m = Some qn -> is_Some (infl qn s) /\ timely (mm_msg m) = true;
  l_addr p m : msgs s !! p = Some m -> 1 < p;
  l_apart p q m m' : msgs s !! p = Some m -> msgs s !! q = Some m' -> p <> q -> p + 64 <= q \/ q + 64 <= p;
  l_keys p q m m' qn : msgs s !! p = Some m -> msgs s !! q = Some m' -> mm_qhash m = Some qn -> mm_qhash m' = Some qn ->
    p <> q -> stamp (mm_msg m) <> stamp (mm_msg m') }.

(** There is no correlator without a message. *)
Definition tidy (s : qspace) (lay : tree_id -> list Z) : Prop :=
  forall qn c, is_Some (tree_root (TCor qn c) s) -> lay (TCor qn c) <> [].

Definition core (s : qspace) (B : Z -> loc -> bool) : Prop := exists lay, laid s B lay /\ tidy s lay.

Definition put (B : Z -> loc -> bool) (p : Z) (l : loc) (v : bool) : Z -> loc -> bool :=
  fun q l' => if decide (q = p /\ l' = l) then v else B q l'.

Lemma put_eq B p l v : put B p l v p l = v.
Proof. unfold put. by rewrite decide_True. Qed.

Lemma put_ne B p l v q l' : q <> p \/ l' <> l -> put B p l v q l' = B q l'.
Proof. unfold put. intros. rewrite decide_False; [done|tauto]. Qed.

(** The two handles of two messages are four addresses. *)
Lemma handle_inj s B lay t t' p q m m' :
  laid s B lay -> msgs s !! p = Some m -> msgs s !! q = Some m' -> handle t p = handle t' q -> p = q /\ handle t p = handle t' p.
Proof.
  intros H Ep Eq Eh. destruct (decide (p = q)) as [->|Hne]; [done|].
  pose proof (l_apart _ _ _ H _ _ _ _ Ep Eq Hne). destruct t, t'; cbn in Eh; unfold COR_OFFSET in *; lia.
Qed.

Lemma infl_root qn s : is_Some (infl qn s) -> is_Some (tree_root (TCur qn) s) /\ is_Some (tree_root (TFut qn) s).
Proof.
  unfold infl, tree_root. cbn. destruct (G_qhash s !! qn); [|by intros []]. intros _. cbn. split; by eexists.
Qed.

(** The handle that is to go into the tree [t] is in no tree. *)
Definition unplaced (B : Z -> loc -> bool) (t : tree_id) (p : Z) : Prop :=
  match t with TCor _ _ => B p LCor = false | _ => B p LCur = false /\ B p LFut = false end.

Lemma unplaced_nowhere s B lay t t' p m :
  laid s B lay -> msgs s !! p = Some m -> mm_qhash m = Some (tree_queue t) -> of_cor t m -> unplaced B t p ->
  handle t p ∉ lay t'.
Proof.
  intros H E Eq Ec Hu. rewrite (l_in _ _ _ H). intros (q & m' & E' & Eq' & Hb & Ec' & Eh).
  destruct (handle_inj _ _ _ t t' _ _ _ _ H E E' Eh) as [<- _]. simplify_eq.
  destruct t, t'; cbn in *; unfold COR_OFFSET in *; try lia; destruct_and? Hu; congruence.
Qed.

(** The place of a new key in a list. *)
Lemma ordered_place k l x : ordered k l -> (forall a, a ∈ l -> k a <> x) ->
  exists l1 l2, l = l1 ++ l2 /\ (forall a, a ∈ l1 -> k a < x) /\ (forall a, a ∈ l2 -> x < k a).
Proof.
  induction 1 as [|a l H IH Hall]; intros Hx; [exists [], []; set_solver|].
  rewrite Forall_forall in Hall. destruct (Z.lt_total (k a) x) as [Hl|[He|Hg]].
  - destruct IH as (l1 & l2 & -> & H1 & H2); [intros b Hb; apply Hx; by right|].
    exists (a :: l1), l2. split; [done|]. split; [|done]. intros b [->|Hb]%elem_of_cons; [done|by apply H1].
  - by destruct (Hx a); [left|].
  - exists [], (a :: l). split; [done|]. split; [set_solver|]. intros b [->|Hb]%elem_of_cons; [done|].
    specialize (Hall b Hb). lia.
Qed.

Lemma ordered_insert k l1 l2 a :
  ordered k (l1 ++ l2) -> (forall b, b ∈ l1 -> k b < k a) -> (forall b, b ∈ l2 -> k a < k b) -> ordered k (l1 ++ a :: l2).
Proof.
  unfold ordered. rewrite !StronglySorted_app. intros (H1 & H2 & H3) Ha Hb. split_and!; [|done|].
  - intros x y Hx [->|Hy]%elem_of_cons; [by apply Ha|by apply H1].
  - constructor; [done|]. by apply Forall_forall.
Qed.

Lemma ordered_delete k l1 l2 a : ordered k (l1 ++ a :: l2) -> ordered k (l1 ++ l2).
Proof.
  unfold ordered. rewrite !StronglySorted_app. intros (H1 & H2 & H3). inversion H3; subst.
  split_and!; [|done|done]. intros x y Hx Hy. apply H1; [done|by right].
Qed.

(** ** One structure changes *)

Lemma keyed_member s B lay t a : laid s B lay -> a ∈ lay t -> exists p m,
  msgs s !! p = Some m /\ a = handle t p /\ keyed t (mm_msg m) /\ mm_qhash m = Some (tree_queue t) /\
  B p (tree_loc t) = true /\ of_cor t m.
Proof.
  intros H Ha. apply (l_in _ _ _ H) in Ha as (p & m & E & Eq & Hb & Ec & ->). exists p, m.
  split; [done|]. split; [done|]. split; [|done]. split; [by apply (l_owner _ _ _ H p m _ E Eq)|].
  destruct t; [done| |done]. by apply (l_fut _ _ _ H p m E).
Qed.

(** Keys in one tree are different. *)
Lemma key_distinct s B lay t p q m m' :
  laid s B lay -> msgs s !! p = Some m -> msgs s !! q = Some m' -> mm_qhash m = Some (tree_queue t) ->
  mm_qhash m' = Some (tree_queue t) -> p <> q -> keyed t (mm_msg m) -> keyed t (mm_msg m') ->
  msg_key t (mm_msg m) <> msg_key t (mm_msg m').
Proof.
  intros H E E' Eq Eq' Hne K K' Ek. apply (l_keys _ _ _ H p q m m' _ E E' Eq Eq' Hne).
  destruct t; cbn in *; [done| |done]. destruct K as [K Kf], K' as [K' Kf'].
  apply timely_spec in K as (? & ? & ? & Kd), K' as (? & ? & ? & Kd'). specialize (Kd Kf). specialize (Kd' Kf').
  unfold due, stamp in *. lia.
Qed.

Lemma laid_place s B lay t p m :
  laid s B lay -> msgs s !! p = Some m -> mm_qhash m = Some (tree_queue t) -> of_cor t m -> unplaced B t p ->
  keyed t (mm_msg m) ->
  exists l1 l2, lay t = l1 ++ l2 /\ between (tree_funcs t) (msgs s) (handle t p) l1 l2 /\
    ordered (tree_key t (msgs s)) (l1 ++ handle t p :: l2).
Proof.
  intros H E Eq Ec Hu K.
  assert (Hn : handle t p ∉ lay t) by by eapply unplaced_nowhere.
  assert (Hm : forall a, a ∈ lay t -> exists q m', msgs s !! q = Some m' /\ a = handle t q /\ keyed t (mm_msg m') /\
    mm_qhash m' = Some (tree_queue t) /\ p <> q).
  { intros a Ha. destruct (keyed_member _ _ _ _ _ H Ha) as (q & m' & E' & -> & K' & Eq' & _). exists q, m'.
    split; [done|]. split; [done|]. split; [done|]. split; [done|]. intros ->. exact (Hn Ha). }
  destruct (ordered_place (tree_key t (msgs s)) (lay t) (msg_key t (mm_msg m))) as (l1 & l2 & El & H1 & H2).
  { apply (l_ordered _ _ _ H). }
  { intros a Ha. destruct (Hm a Ha) as (q & m' & E' & -> & K' & Eq' & Hne). rewrite (tree_key_handle _ _ _ _ E').
    intros Hk. by eapply (key_distinct s B lay t p q). }
  exists l1, l2. split; [done|]. split; [split|].
  - intros a Ha. destruct (Hm a) as (q & m' & E' & -> & K' & _ & _); [rewrite El, elem_of_app; auto|]. specialize (H1 _ Ha).
    rewrite (tree_key_handle _ _ _ _ E') in H1. by apply (cmp_key t _ p q m m').
  - intros a Ha. destruct (Hm a) as (q & m' & E' & -> & K' & _ & _); [rewrite El, elem_of_app; auto|]. specialize (H2 _ Ha).
    rewrite (tree_key_handle _ _ _ _ E') in H2. by apply (cmp_key t _ p q m m').
  - apply ordered_insert; rewrite ?(tree_key_handle _ _ _ _ E); [|done|done]. rewrite <-El. apply (l_ordered _ _ _ H).
Qed.

(** What else a change of a tree leaves as it is. *)
Lemma laid_tree s s' B lay t p v l' :
  laid s B lay -> same_but t s s' -> forest s' (lay_set lay t l') -> ordered (tree_key t (msgs s)) l' ->
  (forall t' a, a ∈ lay_set lay t l' t' <-> belongs (msgs s) (put B p (tree_loc t) v) t' a) ->
  (forall m, msgs s !! p = Some m -> v = true ->
     match t with
     | TCur _ => True
     | TFut _ => has (ctl_flags (mm_msg m)) TPQTIME_ABS = true
     | TCor _ _ => mm_corhash m = Some (corrid_str m)
     end) ->
  laid s' (put B p (tree_loc t) v) (lay_set lay t l').
Proof.
  intros H (Em & Eh & Ec & Ei & _ & Er) Hf Ho Hin Hp.
  assert (HB : forall q l, l <> tree_loc t \/ q <> p -> put B p (tree_loc t) v q l = B q l)
    by (intros; apply put_ne; tauto).
  constructor; rewrite ?Em, ?Eh; try apply H; [done|done| | | | | |].
  - intros t'. unfold lay_set. destruct (decide (t' = t)) as [->|]; [done|apply H].
  - intros qn l. rewrite Ei. intros E. destruct (l_infl _ _ _ H qn l E) as [N Hl]. split; [done|].
    intros q. rewrite Hl, HB by (left; by destruct t). done.
  - intros k q. rewrite HB by (left; by destruct t). apply H.
  - intros q m E. destruct (decide (LCor = tree_loc t /\ q = p)) as [[Et ->]|].
    + rewrite Et, put_eq. intros Hv. specialize (Hp m E Hv). by destruct t.
    + rewrite HB by (destruct (decide (LCor = tree_loc t)); tauto). by apply H.
  - intros q m E. destruct (decide (LFut = tree_loc t /\ q = p)) as [[Et ->]|].
    + rewrite Et, put_eq. intros Hv. specialize (Hp m E Hv). by destruct t.
    + rewrite HB by (destruct (decide (LFut = tree_loc t)); tauto). by apply H.
  - intros q m qn. rewrite Ei. apply H.
Qed.

(** The other trees do not see the change. *)
Lemma belongs_other (M : msg_mem) B t t' p m v a :
  M !! p = Some m -> mm_qhash m = Some (tree_queue t) -> of_cor t m -> t' <> t ->
  belongs M (put B p (tree_loc t) v) t' a <-> belongs M B t' a.
Proof.
  intros E Eq Ec Ht.
  assert (Hp : forall q m', M !! q = Some m' -> mm_qhash m' = Some (tree_queue t') -> of_cor t' m' ->
    put B p (tree_loc t) v q (tree_loc t') = B q (tree_loc t')).
  { intros q m' E' Eq' Ec'. apply put_ne. destruct (decide (q = p)) as [->|]; [right|by left]. simplify_eq.
    intros Hl. apply Ht. destruct t, t'; cbn in *; congruence. }
  split; intros (q & m' & E' & Eq' & Hb' & Ec' & ->); exists q, m'; split_and!; try done;
    [by erewrite <-Hp|by erewrite Hp].
Qed.

Lemma laid_insert s B lay t p m :
  laid s B lay -> msgs s !! p = Some m -> mm_qhash m = Some (tree_queue t) -> of_cor t m -> unplaced B t p ->
  keyed t (mm_msg m) -> is_Some (tree_root t s) ->
  match t with TCor _ _ => mm_corhash m = Some (corrid_str m) | _ => True end ->
  qruns (tree_insert t (handle t p)) s (fun _ s' => exists l',
    laid s' (put B p (tree_loc t) true) (lay_set lay t l') /\ l' <> [] /\ same_but t s s').
Proof.
  intros H E Eq Ec Hu K Hr Hl. destruct (laid_place _ _ _ _ _ _ H E Eq Ec Hu K) as (l1 & l2 & El & Hb & Ho).
  pose proof (l_addr _ _ _ H _ _ E) as Hp. eapply qruns_mono.
  { apply (forest_insert s lay t l1 l2 (handle t p)); try done.
    - apply H.
    - destruct t; cbn; unfold NULL, COR_OFFSET; lia.
    - destruct t; cbn; unfold RBTNIL, COR_OFFSET; lia.
    - intros t'. by eapply unplaced_nowhere. }
  intros _ s' (Hf & Hs & _). exists (l1 ++ handle t p :: l2). split; [|split; [by destruct l1|done]].
  eapply laid_tree; [done|done|done|done| |].
  - intros t' a. unfold lay_set. destruct (decide (t' = t)) as [->|Ht].
    + rewrite elem_of_app, elem_of_cons. assert (Ha : a ∈ lay t <-> a ∈ l1 \/ a ∈ l2) by (rewrite El; apply elem_of_app).
      split.
      * intros Hor. destruct (decide (a = handle t p)) as [->|Hne].
        { exists p, m. by rewrite put_eq. }
        destruct (keyed_member s B lay t a H) as (q & m' & E' & -> & _ & Eq' & Hb' & Ec'); [tauto|].
        exists q, m'. split_and!; try done. rewrite put_ne; [done|]. left. by intros ->.
      * intros (q & m' & E' & Eq' & Hb' & Ec' & ->). destruct (decide (q = p)) as [->|Hne]; [tauto|].
        rewrite put_ne in Hb' by auto. assert (handle t q ∈ lay t); [|tauto]. apply (l_in _ _ _ H). by exists q, m'.
    + rewrite (l_in _ _ _ H). symmetry. by eapply belongs_other.
  - intros m' E' _. simplify_eq. destruct t; [done| |done]. apply K.
Qed.

Lemma laid_delete s B lay t p m :
  laid s B lay -> msgs s !! p = Some m -> mm_qhash m = Some (tree_queue t) -> of_cor t m -> B p (tree_loc t) = true ->
  is_Some (tree_root t s) ->
  qruns (tree_delete t (handle t p)) s (fun _ s' => exists l',
    laid s' (put B p (tree_loc t) false) (lay_set lay t l') /\ same_but t s s' /\ is_Some (tree_root t s')).
Proof.
  intros H E Eq Ec Hb Hr. assert (Hin : handle t p ∈ lay t) by (apply (l_in _ _ _ H); by exists p, m).
  apply list_elem_of_split in Hin as (l1 & l2 & El). eapply qruns_mono.
  { by apply (forest_delete s lay t l1 l2 (handle t p)); [apply H|..]. }
  intros _ s' (Hf & Hs & Hr'). exists (l1 ++ l2). split; [|done]. eapply laid_tree; [done|done|done| | |done].
  { apply (ordered_delete _ _ _ (handle t p)). rewrite <-El. apply H. }
  assert (N : NoDup (lay t)).
  { destruct (forest_root s lay t) as (r & _ & Hrb); [apply H|done|]. by apply rbt_at_addrs in Hrb as (N & _). }
  intros t' a. unfold lay_set. destruct (decide (t' = t)) as [->|Ht].
  - assert (Ha : a ∈ l1 ++ l2 <-> a ∈ lay t /\ a <> handle t p).
    { rewrite El in N |- *. apply NoDup_app in N as (N1 & N2 & N3). apply NoDup_cons in N3 as [N3 N4].
      rewrite !elem_of_app, elem_of_cons. split; [|tauto]. intros [Ha|Ha]; (split; [auto|]); intros ->; [|done].
      apply (N2 _ Ha). by left. }
    rewrite Ha. split.
    + intros [Hin Hne]. destruct (keyed_member s B lay t a H Hin) as (q & m' & E' & -> & _ & Eq' & Hb' & Ec').
      exists q, m'. split_and!; try done. rewrite put_ne; [done|]. left. by intros ->.
    + intros (q & m' & E' & Eq' & Hb' & Ec' & ->). destruct (decide (q = p)) as [->|Hne]; [by rewrite put_eq in Hb'|].
      rewrite put_ne in Hb' by auto. split; [apply (l_in _ _ _ H); by exists q, m'|].
      intros Eh. by destruct (handle_inj _ _ _ t t _ _ _ _ H E' E Eh).
  - rewrite (l_in _ _ _ H). symmetry. by eapply belongs_other.
Qed.

(** ** One message changes *)

(** The same as far as the structures are concerned. *)
Definition alike (m m' : tmq_memmsg_t) : Prop :=
  mm_qhash m' = mm_qhash m /\ corrid_str m' = corrid_str m /\ msgid_str m' = msgid_str m /\
  msgtstamp (mm_msg m') = msgtstamp (mm_msg m) /\ msgtstamp_usec (mm_msg m') = msgtstamp_usec (mm_msg m) /\
  msgtstamp_cntr (mm_msg m') = msgtstamp_cntr (mm_msg m) /\ ctl_flags (mm_msg m') = ctl_flags (mm_msg m) /\
  deq_time (mm_msg m') = deq_time (mm_msg m).

Lemma alike_key t m m' : alike m m' -> msg_key t (mm_msg m') = msg_key t (mm_msg m).
Proof.
  intros (_ & _ & _ & E1 & E2 & E3 & _ & E4). destruct t; cbn; unfold due, stamp; by rewrite ?E1, ?E2, ?E3, ?E4.
Qed.

Lemma alike_timely m m' : alike m m' -> timely (mm_msg m') = timely (mm_msg m).
Proof. intros (_ & _ & _ & E1 & E2 & E3 & E5 & E4). unfold timely. by rewrite E1, E2, E3, E4, E5. Qed.

Lemma ordered_ext k k' l : (forall a, a ∈ l -> k' a = k a) -> ordered k l -> ordered k' l.
Proof.
  intros E H. induction H as [|a l H IH Hall]; constructor; [apply IH; intros; apply E; by right|].
  rewrite Forall_forall in Hall |- *. intros b Hb. rewrite !E by (by left || by right). by apply Hall.
Qed.

(** Nothing but messages is different. *)
Definition same_rest (s s' : qspace) : Prop :=
  G_msgid_hash s' = G_msgid_hash s /\ G_qhash s' = G_qhash s /\ G_qconf s' = G_qconf s.

(** A message that is in no structure, or goes on to be in the same ones. *)
Section MsgChange.
Context (s s' : qspace) (B : Z -> loc -> bool) (lay : tree_id -> list Z) (p : Z) (m' : tmq_memmsg_t).
Hypothesis H : laid s B lay.
Hypothesis Hcase : (forall l, B p l = false) \/ (nodes s' = nodes s /\ exists m, msgs s !! p = Some m /\ alike m m' /\
  (B p LCor = true -> mm_corhash m' = Some (corrid_str m'))).

Lemma change_old q mq l : B q l = true -> (<[p := m']> (msgs s)) !! q = Some mq ->
  exists mo, msgs s !! q = Some mo /\ alike mo mq.
Proof using Hcase.
  intros Hb. destruct (decide (q = p)) as [->|Hne].
  - rewrite lookup_insert_eq. intros [= <-]. destruct Hcase as [Hn|(_ & m & E & Ha & _)]; [by rewrite Hn in Hb|by exists m].
  - rewrite lookup_insert_ne by done. intros E. by exists mq.
Qed.

Lemma change_new q mo l : B q l = true -> msgs s !! q = Some mo ->
  exists mq, (<[p := m']> (msgs s)) !! q = Some mq /\ alike mo mq.
Proof using Hcase.
  intros Hb E. destruct (decide (q = p)) as [->|Hne].
  - destruct Hcase as [Hn|(_ & m & E' & Ha & _)]; [by rewrite Hn in Hb|]. simplify_eq. exists m'. by rewrite lookup_insert_eq.
  - exists mo. by rewrite lookup_insert_ne.
Qed.

Lemma change_belongs t a : belongs (<[p := m']> (msgs s)) B t a <-> belongs (msgs s) B t a.
Proof using Hcase.
  split; intros (q & m & E & Eo & Hb & Eco & ->).
  - destruct (change_old _ _ _ Hb E) as (mo & E' & Ea & Eb & _). exists q, mo. rewrite <-Ea. split_and!; try done.
    by destruct t; cbn in *; [..|rewrite <-Eb].
  - destruct (change_new _ _ _ Hb E) as (mo & E' & Ea & Eb & _). exists q, mo. rewrite Ea. split_and!; try done.
    by destruct t; cbn in *; [..|rewrite Eb].
Qed.

Lemma change_key t a : a ∈ lay t -> tree_key t (<[p := m']> (msgs s)) a = tree_key t (msgs s) a.
Proof using H Hcase.
  intros Ha. destruct (keyed_member _ _ _ _ _ H Ha) as (q & m & E & -> & _ & _ & Hb & _).
  destruct (change_new _ _ _ Hb E) as (mq & E' & Hal). rewrite (tree_key_handle _ _ _ _ E), (tree_key_handle _ _ _ _ E').
  by apply alike_key.
Qed.

Hypothesis Em : msgs s' = <[p := m']> (msgs s).
Hypothesis Er : same_rest s s'.
Hypothesis Hn : forall a : Z, a <> p -> a <> p + COR_OFFSET -> nodes s' !! a = nodes s !! a.
Hypothesis Hp : 1 < p.
Hypothesis Hap : forall q mq, q <> p -> msgs s !! q = Some mq -> p + 64 <= q \/ q + 64 <= p.
Hypothesis Hown : forall qn, mm_qhash m' = Some qn -> is_Some (infl qn s) /\ timely (mm_msg m') = true /\
  forall q mq, q <> p -> msgs s !! q = Some mq -> mm_qhash mq = Some qn -> stamp (mm_msg m') <> stamp (mm_msg mq).

Lemma change_forest : forest s' lay.
Proof using All.
  destruct Er as (_ & Eq & _). apply (forest_change s); [apply H| |intros t; left; unfold tree_root; by rewrite Eq].
  destruct Hcase as [Hb|[-> _]]; [|done]. intros a Ha. apply Hn.
  - intros ->. destruct Ha as [Ha|[t Ha]]; [unfold RBTNIL in Ha; lia|].
    destruct (keyed_member _ _ _ _ _ H Ha) as (q & m & E & Eh & _ & _ & Hq & _).
    assert (q <> p) by (intros ->; by rewrite Hb in Hq). specialize (Hap q m ltac:(done) E).
    destruct t; cbn in Eh; unfold COR_OFFSET in *; lia.
  - intros ->. destruct Ha as [Ha|[t Ha]]; [unfold RBTNIL, COR_OFFSET in Ha; lia|].
    destruct (keyed_member _ _ _ _ _ H Ha) as (q & m & E & Eh & _ & _ & Hq & _).
    assert (q <> p) by (intros ->; by rewrite Hb in Hq). specialize (Hap q m ltac:(done) E).
    destruct t; cbn in Eh; unfold COR_OFFSET in *; lia.
Qed.

Lemma laid_msgs : laid s' B lay.
Proof using All.
  pose proof change_forest as Hf. destruct Er as (Eh & Eq & Ec).
  assert (Ei : forall qn, infl qn s' = infl qn s) by (intros; unfold infl; by rewrite Eq).
  constructor; rewrite ?Em, ?Eh; [done| | | | | | | | | |].
  - intros t a. rewrite change_belongs. apply H.
  - intros t. eapply ordered_ext; [|apply H]. apply change_key.
  - intros qn l. rewrite Ei. intros E. destruct (l_infl _ _ _ H qn l E) as [N Hl]. split; [done|]. intros q. rewrite Hl.
    split; intros (m & E1 & E2 & Hb).
    + destruct (change_new _ _ _ Hb E1) as (mq & E' & Ha & _). exists mq. by rewrite Ha.
    + destruct (change_old _ _ _ Hb E1) as (mq & E' & Ha & _). exists mq. by rewrite <-Ha.
  - intros k q. rewrite (l_hash _ _ _ H). split; intros (m & E1 & E2 & Hb).
    + destruct (change_new _ _ _ Hb E1) as (mq & E' & _ & _ & Ha & _). exists mq. by rewrite Ha.
    + destruct (change_old _ _ _ Hb E1) as (mq & E' & _ & _ & Ha & _). exists mq. by rewrite <-Ha.
  - intros q m E Hb. destruct (decide (q = p)) as [->|Hne].
    + rewrite lookup_insert_eq in E. injection E as <-. destruct Hcase as [Hb'|(_ & _ & _ & _ & Hl)]; [by rewrite Hb' in Hb|by apply Hl].
    + rewrite lookup_insert_ne in E by done. by apply (l_link _ _ _ H q).
  - intros q m E Hb. destruct (change_old _ _ _ Hb E) as (mo & E' & _ & _ & _ & _ & _ & _ & -> & _). by apply (l_fut _ _ _ H q).
  - intros q m qn. rewrite Ei. destruct (decide (q = p)) as [->|Hne].
    + rewrite lookup_insert_eq. intros [= <-] Eo. destruct (Hown qn Eo) as (H1 & H2 & _). done.
    + rewrite lookup_insert_ne by done. apply H.
  - intros q m. destruct (decide (q = p)) as [->|Hne]; [done|]. rewrite lookup_insert_ne by done. apply H.
  - intros q q2 m m2 E E2 Hne. destruct (decide (q = p)) as [->|]; [|destruct (decide (q2 = p)) as [->|]].
    + rewrite lookup_insert_ne in E2 by done. by eapply Hap.
    + rewrite lookup_insert_ne in E by done. destruct (Hap q m); [done|done|lia|lia].
    + rewrite lookup_insert_ne in E, E2 by done. by eapply (l_apart _ _ _ H).
  - intros q q2 m m2 qn E E2 Eo Eo2 Hne. destruct (decide (q = p)) as [->|]; [|destruct (decide (q2 = p)) as [->|]].
    + rewrite lookup_insert_eq in E. rewrite lookup_insert_ne in E2 by done. simplify_eq.
      destruct (Hown qn Eo) as (_ & _ & Hk). by eapply Hk.
    + rewrite lookup_insert_eq in E2. rewrite lookup_insert_ne in E by done. simplify_eq.
      destruct (Hown qn Eo2) as (_ & _ & Hk). apply not_eq_sym. by eapply Hk.
    + rewrite lookup_insert_ne in E, E2 by done. by eapply (l_keys _ _ _ H).
Qed.
End MsgChange.

(** ** The changes, with the trees hidden *)

(** Configuration and statistics stay. *)
Definition keeps (s s' : qspace) : Prop :=
  G_qconf s' = G_qconf s /\ stat_of <$> G_qhash s' = stat_of <$> G_qhash s.

#[export] Instance keeps_pre : PreOrder keeps.
Proof. split; [done|]. intros s1 s2 s3 [H1 H2] [H3 H4]. split; congruence. Qed.

Lemma keeps_same_but t s s' : same_but t s s' -> keeps s s'.
Proof. by intros (_ & _ & Ec & _ & Es & _). Qed.

Lemma keeps_queue qn s s' : keeps s s' -> is_Some (infl qn s) -> is_Some (infl qn s').
Proof.
  intros [_ Es]. unfold infl. rewrite !fmap_is_Some. intros [q Hq].
  assert (E : (stat_of <$> G_qhash s') !! qn = (stat_of <$> G_qhash s) !! qn) by by rewrite Es.
  rewrite !lookup_fmap, Hq in E. destruct (G_qhash s' !! qn); [by eexists|done].
Qed.

Lemma laid_alike s B lay p m m' :
  laid s B lay -> msgs s !! p = Some m -> alike m m' -> (B p LCor = true -> mm_corhash m' = Some (corrid_str m')) ->
  laid (with_msgs (<[p := m']> (msgs s)) s) B lay.
Proof.
  intros H E Ha Hl. eapply (laid_msgs s _ B lay p m'); try done.
  - right. split; [done|]. by exists m.
  - by apply (l_addr _ _ _ H p m).
  - intros q mq Hne Eq. destruct (l_apart _ _ _ H q p mq m Eq E Hne); lia.
  - intros qn Eo. pose proof Ha as (Eq & _). rewrite Eq in Eo. rewrite (alike_timely _ _ Ha).
    destruct (l_owner _ _ _ H p m qn E Eo) as [H1 H2]. split_and!; [done|done|]. intros q mq Hne Emq Eoq.
    pose proof (alike_key (TCur qn) _ _ Ha) as Hk. cbn in Hk. rewrite Hk.
    by eapply (l_keys _ _ _ H p q m mq qn).
Qed.

Lemma core_msg s B p m f :
  core s B -> msgs s !! p = Some m -> alike m (f m) ->
  (B p LCor = true -> mm_corhash (f m) = Some (corrid_str (f m))) ->
  qruns (upd_msg p f) s (fun _ s' => core s' B /\ msgs s' = <[p := f m]> (msgs s) /\ keeps s s').
Proof.
  intros (lay & H & Ht) E Ha Hl. eapply qruns_upd_msg; [done|]. split; [|done]. exists lay. split; [|done].
  by eapply laid_alike.
Qed.

Lemma core_insert s B t p m :
  core s B -> msgs s !! p = Some m -> mm_qhash m = Some (tree_queue t) ->
  B p LCur = false -> B p LFut = false ->
  match t with TCur _ => True | TFut _ => has (ctl_flags (mm_msg m)) TPQTIME_ABS = true | TCor _ _ => False end ->
  qruns (tree_insert t p) s (fun _ s' => core s' (put B p (tree_loc t) true) /\ msgs s' = msgs s /\ keeps s s').
Proof.
  intros (lay & H & Ht) E Eq Hc Hf Hk. destruct (l_owner _ _ _ H p m _ E Eq) as [Hi Htm].
  destruct (infl_root _ _ Hi) as [Hr1 Hr2].
  assert (handle t p = p) as Ehp by by destruct t. rewrite <-Ehp at 1.
  eapply qruns_mono; [eapply (laid_insert s B lay t p m H E Eq)|]; try (by destruct t).
  intros _ s' (l' & H' & Hne & Hs). split_and!; [|apply Hs|by eapply keeps_same_but]. exists (lay_set lay t l').
  split; [done|]. intros qn c. destruct Hs as (_ & _ & _ & _ & _ & Er). rewrite Er by by destruct t.
  rewrite lay_set_ne by by destruct t. apply Ht.
Qed.

Lemma core_delete s B t p m :
  core s B -> msgs s !! p = Some m -> mm_qhash m = Some (tree_queue t) -> B p (tree_loc t) = true ->
  match t with TCor _ _ => False | _ => True end ->
  qruns (tree_delete t p) s (fun _ s' => core s' (put B p (tree_loc t) false) /\ msgs s' = msgs s /\ keeps s s').
Proof.
  intros (lay & H & Ht) E Eq Hb Hk. destruct (l_owner _ _ _ H p m _ E Eq) as [Hi Htm].
  destruct (infl_root _ _ Hi) as [Hr1 Hr2].
  assert (handle t p = p) as Ehp by by destruct t. rewrite <-Ehp at 1.
  eapply qruns_mono; [eapply (laid_delete s B lay t p m H E Eq)|]; try (by destruct t).
  intros _ s' (l' & H' & Hs & _). split_and!; [|apply Hs|by eapply keeps_same_but]. exists (lay_set lay t l').
  split; [done|]. intros qn c. destruct Hs as (_ & _ & _ & _ & _ & Er). rewrite Er by by destruct t.
  rewrite lay_set_ne by by destruct t. apply Ht.
Qed.

(** ** Correlators *)

Lemma laid_same t s s' B lay : laid s B lay -> same_but t s s' -> forest s' lay -> laid s' B lay.
Proof.
  intros H (Em & Eh & _ & Ei & _) Hf. constructor; rewrite ?Em, ?Eh; try apply H; [done|..]; intros *; rewrite Ei; apply H.
Qed.

Definition with_qhash (qh : gmap (list Z) tmq_qhash_t) (s : qspace) : qspace :=
  mk_qspace (msgs s) (nodes s) (G_msgid_hash s) qh (G_qconf s).

Lemma qruns_upd_qhash qn f q s (P : unit -> qspace -> Prop) :
  G_qhash s !! qn = Some q -> P tt (with_qhash (<[qn := f q]> (G_qhash s)) s) -> qruns (upd_qhash qn f) s P.
Proof. intros E ?. exists tt. eexists. unfold upd_qhash. by rewrite E. Qed.

Lemma tree_root_qhash t qn q f s : G_qhash s !! qn = Some q ->
  tree_root t (with_qhash (<[qn := f q]> (G_qhash s)) s) =
  if decide (tree_queue t = qn)
  then match t with TCur _ => Some (q_cur (f q)) | TFut _ => Some (q_fut (f q)) | TCor _ c => q_corhash (f q) !! c end
  else tree_root t s.
Proof.
  intros E. unfold tree_root, with_qhash. cbn [G_qhash]. destruct (decide (tree_queue t = qn)) as [->|];
    [by rewrite lookup_insert_eq|by rewrite lookup_insert_ne].
Qed.

(** A change of the table of correlators at [c]. *)
Lemma same_but_cors qn c q f s :
  G_qhash s !! qn = Some q -> (forall c', c' <> c -> f (q_corhash q) !! c' = q_corhash q !! c') ->
  same_but (TCor qn c) s (with_qhash (<[qn := set_cors f q]> (G_qhash s)) s).
Proof.
  intros E Hf. do 3 (split; [done|]). split.
  { intros qn'. unfold infl. cbn. destruct (decide (qn' = qn)) as [->|];
      [by rewrite lookup_insert_eq, E|by rewrite lookup_insert_ne]. }
  split.
  { cbn. rewrite fmap_insert, insert_id; [done|]. by rewrite lookup_fmap, E. }
  intros t Ht. rewrite (tree_root_qhash _ _ _ _ _ E). destruct (decide (tree_queue t = qn)) as [Eq|]; [|done].
  unfold tree_root. rewrite Eq, E. cbn. destruct t as [|qn'|qn' c']; cbn in *; subst; [done|done|].
  apply Hf. intros ->. by apply Ht.
Qed.

Lemma q_same_but_trans t s1 s2 s3 : same_but t s1 s2 -> same_but t s2 s3 -> same_but t s1 s3.
Proof.
  intros (A1 & A2 & A3 & A4 & A5 & A6) (B1 & B2 & B3 & B4 & B5 & B6).
  split_and!; [by rewrite B1|by rewrite B2|by rewrite B3|intros; by rewrite B4|by rewrite B5|].
  intros t' Ht. by rewrite B6, A6.
Qed.

Lemma cor_add_ok e qn c q s :
  G_qhash s !! qn = Some q -> fpmalloc e c = true ->
  qruns (tmq_cor_add e qn c) s (fun r s' =>
    r = true /\ same_but (TCor qn c) s s' /\ nodes s' = nodes s /\ tree_root (TCor qn c) s' = Some RBTNIL).
Proof.
  intros E Ef. unfold tmq_cor_add. rewrite Ef. apply qruns_bind. eapply qruns_upd_qhash; [done|].
  set (s1 := with_qhash _ s). apply qruns_bind.
  assert (Hr : tree_root (TCor qn c) s1 = Some NULL).
  { subst s1. rewrite (tree_root_qhash _ _ _ _ _ E). cbn. rewrite decide_True by done. apply lookup_insert_eq. }
  assert (Hs : same_but (TCor qn c) s s1).
  { apply same_but_cors; [done|]. intros c' Hc. by rewrite lookup_insert_ne. }
  unfold qruns at 1, in_tree. rewrite Hr. eexists _, _. split; [done|]. apply qruns_ret. split; [done|]. split.
  { eapply q_same_but_trans; [exact Hs|]. by apply same_but_put. }
  split; [done|]. rewrite tree_root_alter, decide_True by done. cbn. by rewrite lookup_insert_eq.
Qed.

(** The tree of the correlator of a message, made if there is none. *)
Lemma cor_tree e s B lay qn c q :
  laid s B lay -> G_qhash s !! qn = Some q -> fpmalloc e c = true ->
  qruns (found ← tmq_cor_find qn c; if found : bool then mret (M:=Q) true else tmq_cor_add e qn c) s (fun ok s1 =>
    ok = true /\ same_but (TCor qn c) s s1 /\ laid s1 B lay /\ is_Some (tree_root (TCor qn c) s1)).
Proof.
  intros H Hq Ef. apply qruns_bind. unfold tmq_cor_find. apply qruns_bind, qruns_bind, qruns_gets. eapply qruns_need; [done|].
  apply qruns_ret. case_bool_decide as Hc.
  { apply qruns_ret. split_and!; try done. unfold tree_root. cbn. by rewrite Hq. }
  eapply qruns_mono; [by eapply cor_add_ok|]. intros ok s1 (-> & Hs & En & Hr). split_and!; [done|done| |by rewrite Hr].
  assert (Hl : lay (TCor qn c) = []).
  { destruct (l_forest _ _ _ H) as (_ & Hf & _). specialize (Hf (TCor qn c)). unfold tree_root in Hf. cbn in Hf.
    rewrite Hq in Hf. cbn in Hf. destruct (q_corhash q !! c); [|done]. by destruct Hc. }
  eapply laid_same; [done|done|]. apply (forest_change s); [apply H|by rewrite En|].
  intros t'. destruct (decide (t' = TCor qn c)) as [->|]; [right; auto|left]. by apply Hs.
Qed.

Lemma queue_entry qn s : is_Some (infl qn s) -> exists q, G_qhash s !! qn = Some q.
Proof. unfold infl. intros [q Hq]%fmap_is_Some. by exists q. Qed.

Lemma core_cor_add e s B p m qn :
  core s B -> msgs s !! p = Some m -> mm_qhash m = Some qn -> B p LCor = false -> fpmalloc e (corrid_str m) = true ->
  qruns (tmq_cor_msg_add e p) s (fun r s' => r = EXSUCCEED /\
    core s' (put B p LCor true) /\ msgs s' = <[p := set_corhash (Some (corrid_str m)) m]> (msgs s) /\ keeps s s').
Proof.
  intros (lay & H & Ht) E Eq Hb Ef. destruct (l_owner _ _ _ H p m _ E Eq) as [Hi Htm].
  destruct (queue_entry _ _ Hi) as [q Hq]. destruct (cor_tree e s B lay qn (corrid_str m) q H Hq Ef)
    as (ok & s1 & E1 & -> & Hs & H1 & Hr). pose proof Hs as (Em & _ & _ & _ & _ & Er).
  apply qruns_bind. eapply qruns_get_msg; [done|]. apply qruns_bind. eapply qruns_need; [done|].
  assert (Hrun : forall A (k : bool -> Q A) P, qruns (k true) s1 P ->
    qruns (found ← tmq_cor_find qn (corrid_str m);
           ok ← (if found : bool then mret (M:=Q) true else tmq_cor_add e qn (corrid_str m)); k ok) s P).
  { intros A k P (a & s2 & Ek & Hk). exists a, s2. split; [|done]. unfold mbind, Q_bind in E1 |- *.
    destruct (tmq_cor_find qn (corrid_str m) s) as [[found s0]|]; [|done]. by rewrite E1. }
  apply Hrun. clear Hrun. apply qruns_bind. eapply qruns_upd_msg; [by rewrite Em|]. apply qruns_bind.
  set (m' := set_corhash (Some (corrid_str m)) m). rewrite Em.
  assert (H2 : laid (with_msgs (<[p := m']> (msgs s)) s1) B lay).
  { rewrite <-Em. eapply laid_alike; [done|by rewrite Em|done|]. by rewrite Hb. }
  eapply qruns_mono.
  { eapply (laid_insert _ B lay (TCor qn (corrid_str m)) p m' H2); try done; [apply lookup_insert_eq]. }
  intros _ s' (l' & H' & Hne & Hs'). apply qruns_ret. split_and!; [done| |apply Hs'|].
  - exists (lay_set lay (TCor qn (corrid_str m)) l'). split; [done|]. intros qn' c' Hr'. unfold lay_set.
    destruct (decide _) as [|Hnt]; [done|]. apply Ht. destruct Hs' as (_ & _ & _ & _ & _ & Er').
    rewrite (Er' _ Hnt) in Hr'. by rewrite <-(Er _ Hnt).
  - etransitivity; [by eapply keeps_same_but|]. by apply keeps_same_but in Hs'.
Qed.

Lemma core_cor_del s B p m qn :
  core s B -> msgs s !! p = Some m -> mm_qhash m = Some qn -> B p LCor = true ->
  qruns (tmq_cor_msg_del p) s (fun _ s' =>
    core s' (put B p LCor false) /\ msgs s' = <[p := set_corhash None m]> (msgs s) /\ keeps s s').
Proof.
  intros (lay & H & Ht) E Eq Hb. pose proof (l_link _ _ _ H p m E Hb) as El. set (t := TCor qn (corrid_str m)).
  apply qruns_bind. eapply qruns_get_msg; [done|]. apply qruns_bind. eapply qruns_need; [done|].
  apply qruns_bind. eapply qruns_need; [done|]. apply qruns_bind.
  assert (Hr : is_Some (tree_root t s)).
  { destruct (l_forest _ _ _ H) as (_ & Hf & _). specialize (Hf t). destruct (tree_root t s); [by eexists|].
    assert (Hin : handle t p ∈ lay t) by (apply (l_in _ _ _ H); by exists p, m). rewrite Hf in Hin. by apply elem_of_nil in Hin. }
  eapply qruns_mono; [by apply (laid_delete s B lay t p m)|]. intros _ s1 (l' & H1 & Hs & Hr1).
  pose proof Hs as (Em & _ & _ & _ & _ & Er). apply qruns_bind. eapply qruns_upd_msg; [by rewrite Em|].
  set (m' := set_corhash None m). rewrite Em. set (s2 := with_msgs _ s1).
  assert (H2 : laid s2 (put B p LCor false) (lay_set lay t l')).
  { subst s2. rewrite <-Em. eapply laid_alike; [done|by rewrite Em|done|]. by rewrite put_eq. }
  assert (K : keeps s s1) by by eapply keeps_same_but.
  apply qruns_bind. eapply qruns_mono; [by apply (forest_empty s2 (lay_set lay t l') t); [apply H2|]|].
  intros b s3 [-> ->]. rewrite lay_set_eq. case_bool_decide as Hl'.
  - destruct (queue_entry qn s1) as [q Hq].
    { eapply keeps_queue; [done|]. by eapply (l_owner _ _ _ H p m). }
    change (G_qhash s2 !! qn = Some q) in Hq. eapply qruns_upd_qhash; [done|]. set (s3 := with_qhash _ s2).
    assert (Hs3 : same_but t s2 s3).
    { apply same_but_cors; [done|]. intros c Hc. by rewrite lookup_delete_ne. }
    assert (Hr3 : tree_root t s3 = None).
    { subst s3. rewrite (tree_root_qhash _ _ _ _ _ Hq). cbn. rewrite decide_True by done. by rewrite lookup_delete_eq. }
    split_and!; [|apply Hs3|etransitivity; [exact K|]; by apply keeps_same_but in Hs3]. exists (lay_set lay t l'). split.
    + eapply laid_same; [done|done|]. apply (forest_change s2); [apply H2|done|]. intros t'.
      destruct (decide (t' = t)) as [->|]; [right|left; by apply Hs3]. rewrite lay_set_eq. auto.
    + intros qn' c' [r Hr']. unfold lay_set. destruct (decide _) as [Et|Hnt]; [by rewrite Et, Hr3 in Hr'|].
      destruct Hs3 as (_ & _ & _ & _ & _ & Er3). rewrite (Er3 _ Hnt) in Hr'. apply Ht. rewrite <-(Er _ Hnt). by exists r.
  - apply qruns_ret. split_and!; [|done|done]. exists (lay_set lay t l'). split; [done|].
    intros qn' c' Hr'. unfold lay_set. destruct (decide _) as [|Hnt]; [done|]. apply Ht. by rewrite <-(Er _ Hnt).
Qed.

(** ** Locked messages and the hash *)

(** A change that no tree sees. *)
Lemma laid_lists s s' B B' lay :
  laid s B lay -> msgs s' = msgs s -> nodes s' = nodes s -> (forall t, tree_root t s' = tree_root t s) ->
  (forall q l, l <> LInfl -> l <> LHash -> B' q l = B q l) ->
  (forall qn, is_Some (infl qn s) -> is_Some (infl qn s')) ->
  (forall qn l, infl qn s' = Some l -> NoDup l /\
     forall p, p ∈ l <-> exists m, msgs s !! p = Some m /\ mm_qhash m = Some qn /\ B' p LInfl = true) ->
  (forall k p, G_msgid_hash s' !! k = Some p <->
     exists m, msgs s !! p = Some m /\ msgid_str m = k /\ B' p LHash = true) ->
  laid s' B' lay.
Proof.
  intros H Em En Er HB Hi Hl Hh.
  assert (Hbel : forall t a, belongs (msgs s) B' t a <-> belongs (msgs s) B t a).
  { intros t a. split; intros (x & mx & ? & ? & Hb & ?); exists x, mx; (rewrite HB in * by by destruct t); done. }
  constructor; rewrite ?Em; try apply H; try done.
  - apply (forest_change s); [apply H|by rewrite En|by left].
  - intros t a. rewrite Hbel. apply H.
  - intros p m E. rewrite HB by done. by apply (l_link _ _ _ H).
  - intros p m E. rewrite HB by done. by apply (l_fut _ _ _ H).
  - intros p m qn E Eq. destruct (l_owner _ _ _ H p m qn E Eq). auto.
Qed.

Lemma core_infl s B p m qn (f : list Z -> list Z) v :
  core s B -> msgs s !! p = Some m -> mm_qhash m = Some qn ->
  (forall l, NoDup l -> (p ∈ l <-> B p LInfl = true) -> NoDup (f l) /\
     (forall q, q <> p -> q ∈ f l <-> q ∈ l) /\ (p ∈ f l <-> v = true)) ->
  qruns (upd_qhash qn (set_infligh f)) s (fun _ s' =>
    core s' (put B p LInfl v) /\ msgs s' = msgs s /\ keeps s s').
Proof.
  intros (lay & H & Ht) E Eq Hf. destruct (l_owner _ _ _ H p m _ E Eq) as [Hi Htm].
  destruct (queue_entry _ _ Hi) as [q Hq]. eapply qruns_upd_qhash; [done|]. set (s' := with_qhash _ s).
  assert (Er : forall t, tree_root t s' = tree_root t s).
  { intros t. subst s'. rewrite (tree_root_qhash _ _ _ _ _ Hq). destruct (decide (tree_queue t = qn)) as [Et|]; [|done].
    unfold tree_root. rewrite Et, Hq. by destruct t. }
  assert (Ei : forall qn', infl qn' s' = if decide (qn' = qn) then Some (f (q_infligh q)) else infl qn' s).
  { intros qn'. subst s'. unfold infl. cbn. destruct (decide (qn' = qn)) as [->|];
      [by rewrite lookup_insert_eq|by rewrite lookup_insert_ne]. }
  split_and!; [|done|].
  2: { split; [done|]. subst s'. cbn. rewrite fmap_insert, insert_id; [done|]. by rewrite lookup_fmap, Hq. }
  exists lay. split; [|intros qn' c; rewrite Er; apply Ht]. eapply laid_lists; [exact H|done|done|done| | | |].
  - intros x l Hl _. apply put_ne. auto.
  - intros qn'. rewrite Ei. destruct (decide _); [by eexists|done].
  - intros qn' l. rewrite Ei. destruct (decide (qn' = qn)) as [->|Hne].
    + intros [= <-]. destruct (l_infl _ _ _ H qn (q_infligh q)) as [N Hl]; [unfold infl; by rewrite Hq|].
      destruct (Hf (q_infligh q) N) as (N' & Ho & Hp).
      { rewrite Hl. split; [by intros (? & _ & _ & ?)|]. intros. by exists m. }
      split; [done|]. intros x. destruct (decide (x = p)) as [->|Hx].
      * rewrite Hp, put_eq. split; [intros; by exists m|by intros (? & _ & _ & ?)].
      * rewrite Ho, Hl, put_ne by auto. done.
    + intros El. destruct (l_infl _ _ _ H qn' l El) as [N Hl]. split; [done|]. intros x. rewrite Hl.
      split; intros (mx & Ex & Eqx & Hb); exists mx; (split; [done|split; [done|]]).
      * rewrite put_ne; [done|]. left. intros ->. congruence.
      * rewrite put_ne in Hb; [done|]. left. intros ->. congruence.
  - intros k x. rewrite put_ne by auto. apply H.
Qed.

Lemma core_append s B p m qn :
  core s B -> msgs s !! p = Some m -> mm_qhash m = Some qn -> B p LInfl = false ->
  qruns (CDL_APPEND qn p) s (fun _ s' => core s' (put B p LInfl true) /\ msgs s' = msgs s /\ keeps s s').
Proof.
  intros H E Eq Hb. eapply core_infl; [done|done|done|]. intros l N Hl. rewrite Hb in Hl. split_and!.
  - apply NoDup_app. split_and!; [done| |apply NoDup_singleton]. intros x Hx ->%list_elem_of_singleton. by apply Hl in Hx.
  - intros q Hq. rewrite elem_of_app, list_elem_of_singleton. tauto.
  - rewrite elem_of_app, list_elem_of_singleton. tauto.
Qed.

Lemma core_unlink s B p m qn :
  core s B -> msgs s !! p = Some m -> mm_qhash m = Some qn ->
  qruns (CDL_DELETE qn p) s (fun _ s' => core s' (put B p LInfl false) /\ msgs s' = msgs s /\ keeps s s').
Proof.
  intros H E Eq. eapply core_infl; [done|done|done|]. intros l N Hl. split_and!.
  - by apply NoDup_filter.
  - intros q Hq. rewrite list_elem_of_filter. tauto.
  - rewrite list_elem_of_filter. naive_solver.
Qed.

Lemma core_hash (s : qspace) (B : Z -> loc -> bool) (p : Z) (m : tmq_memmsg_t) (f : gmap (list Z) Z -> gmap (list Z) Z) (v : bool) :
  core s B -> msgs s !! p = Some m ->
  (forall (k : list Z) (q : Z), k <> msgid_str m -> f (G_msgid_hash s) !! k = Some q <-> G_msgid_hash s !! k = Some q) ->
  (forall q, f (G_msgid_hash s) !! msgid_str m = Some q <-> q = p /\ v = true) ->
  (forall q, G_msgid_hash s !! msgid_str m = Some q -> q = p) ->
  qruns (upd_hash f) s (fun _ s' => core s' (put B p LHash v) /\ msgs s' = msgs s /\ keeps s s').
Proof.
  intros (lay & H & Ht) E Ho Hk Hu. eexists tt, _. split; [done|]. split_and!; [|done|done]. exists lay. split; [|done].
  eapply laid_lists; [exact H|done|done|done| |done| |]; cbn.
  - intros q l _ Hl. apply put_ne. auto.
  - intros qn l El. destruct (l_infl _ _ _ H qn l El) as [N Hl]. split; [done|]. intros q.
    rewrite put_ne by (right; done). apply Hl.
  - intros k q. destruct (decide (k = msgid_str m)) as [->|Hne].
    + rewrite Hk. split; [intros [-> ->]; exists m; by rewrite put_eq|]. intros (m' & E' & Em & Hb).
      destruct (decide (q = p)) as [->|Hq]; [by rewrite put_eq in Hb|]. rewrite put_ne in Hb by auto.
      destruct Hq. apply Hu. apply (l_hash _ _ _ H). by exists m'.
    + rewrite Ho, (l_hash _ _ _ H) by done. split; intros (m' & E' & Em & Hb); exists m'; (split; [done|split; [done|]]).
      * rewrite put_ne; [done|]. left. intros ->. congruence.
      * rewrite put_ne in Hb; [done|]. left. intros ->. congruence.
Qed.

Lemma core_stats s B qn q f :
  core s B -> G_qhash s !! qn = Some q ->
  qruns (upd_qhash qn (set_stats f)) s (fun _ s' => core s' B /\ msgs s' = msgs s /\ G_qconf s' = G_qconf s /\
    stat_of <$> G_qhash s' = alter f qn (stat_of <$> G_qhash s)).
Proof.
  intros (lay & H & Ht) Hq. eapply qruns_upd_qhash; [done|]. set (s' := with_qhash _ s).
  assert (Er : forall t, tree_root t s' = tree_root t s).
  { intros t. subst s'. rewrite (tree_root_qhash _ _ _ _ _ Hq). destruct (decide (tree_queue t = qn)) as [Et|]; [|done].
    unfold tree_root, set_stats. rewrite Et, Hq. destruct (f _) as [[[? ?] ?] ?]. by destruct t. }
  assert (Ei : forall qn', infl qn' s' = infl qn' s).
  { intros qn'. subst s'. unfold infl, set_stats. cbn. destruct (f _) as [[[? ?] ?] ?].
    destruct (decide (qn' = qn)) as [->|]; [by rewrite lookup_insert_eq, Hq|by rewrite lookup_insert_ne]. }
  split_and!; [|done|done|].
  - exists lay. split; [|intros qn' c; rewrite Er; apply Ht]. eapply laid_lists; [exact H|done|done|done|done| | |apply H].
    + intros qn'. by rewrite Ei.
    + intros qn' l. rewrite Ei. apply H.
  - subst s'. cbn. rewrite fmap_insert. apply map_eq. intros qn'. destruct (decide (qn' = qn)) as [->|].
    + rewrite lookup_insert_eq, lookup_alter_eq, lookup_fmap, Hq. cbn. unfold set_stats. f_equal.
      change (stat_of q) with (q_succ q, q_fail q, q_numenq q, q_numdeq q). by destruct (f _) as [[[? ?] ?] ?].
    + by rewrite lookup_insert_ne, lookup_alter_ne.
Qed.

(** ** Messages that are in no structure, and new queues *)

Lemma core_loose s s' B p m' :
  core s B -> (forall l, B p l = false) -> msgs s' = <[p := m']> (msgs s) -> same_rest s s' ->
  (forall a : Z, a <> p -> a <> p + COR_OFFSET -> nodes s' !! a = nodes s !! a) ->
  1 < p -> (forall q mq, q <> p -> msgs s !! q = Some mq -> p + 64 <= q \/ q + 64 <= p) ->
  (forall qn, mm_qhash m' = Some qn -> is_Some (infl qn s) /\ timely (mm_msg m') = true /\
     forall q mq, q <> p -> msgs s !! q = Some mq -> mm_qhash mq = Some qn -> stamp (mm_msg m') <> stamp (mm_msg mq)) ->
  core s' B.
Proof.
  intros (lay & H & Ht) Hb Em Hr Hn Hp Ha Ho. exists lay. split; [by eapply (laid_msgs s s' B lay p m'); auto|].
  intros qn c. destruct Hr as (_ & Eq & _). unfold tree_root. rewrite Eq. apply Ht.
Qed.

Lemma core_drop s s' B p :
  core s B -> (forall l, B p l = false) -> msgs s' = delete p (msgs s) -> same_rest s s' ->
  (forall a : Z, a <> p -> a <> p + COR_OFFSET -> nodes s' !! a = nodes s !! a) -> is_Some (msgs s !! p) ->
  core s' B.
Proof.
  intros (lay & H & Ht) Hb Em (Eh & Eq & Ec) Hn [m0 E0].
  assert (Er : forall t, tree_root t s' = tree_root t s) by (intros; unfold tree_root; by rewrite Eq).
  assert (Ei : forall qn, infl qn s' = infl qn s) by (intros; unfold infl; by rewrite Eq).
  exists lay. split; [|intros qn c; rewrite Er; apply Ht].
  assert (HM : forall q m l, B q l = true -> msgs s !! q = Some m <-> delete p (msgs s) !! q = Some m).
  { intros q m l Hq. rewrite lookup_delete_Some. split; [|tauto]. intros E. split; [|done]. intros <-. by rewrite Hb in Hq. }
  assert (Hd : forall q m, delete p (msgs s) !! q = Some m -> msgs s !! q = Some m).
  { intros q m [_ ?]%lookup_delete_Some. done. }
  constructor; rewrite ?Em, ?Eh; eauto using l_addr, l_apart, l_keys, l_link, l_fut.
  - apply (forest_change s); [apply H| |by left]. intros a Ha. pose proof (l_addr _ _ _ H _ _ E0).
    assert (forall t, a ∈ lay t -> a <> p /\ a <> p + COR_OFFSET).
    { intros t Hin. destruct (keyed_member _ _ _ _ _ H Hin) as (q & m & E & -> & _ & _ & Hq & _).
      assert (q <> p) by (intros ->; by rewrite Hb in Hq). destruct (l_apart _ _ _ H q p m m0 E E0); [done|..];
      destruct t; cbn; unfold COR_OFFSET; lia. }
    apply Hn; destruct Ha as [->|[t Hin]]; try (by destruct (H1 t Hin)); unfold RBTNIL, COR_OFFSET; lia.
  - intros t a. rewrite (l_in _ _ _ H).
    split; intros (q & m & E & ? & Hq & ? & ->); exists q, m; (split; [by eapply HM|done]).
  - intros t. eapply ordered_ext; [|apply H]. intros a Hin.
    destruct (keyed_member _ _ _ _ _ H Hin) as (q & m & E & -> & _ & _ & Hq & _).
    rewrite (tree_key_handle _ _ _ _ E). apply tree_key_handle. by eapply HM.
  - intros qn l. rewrite Ei. intros El. destruct (l_infl _ _ _ H qn l El) as [N Hl]. split; [done|]. intros q. rewrite Hl.
    split; intros (m & E & ? & Hq); exists m; (split; [by eapply HM|done]).
  - intros k q. rewrite (l_hash _ _ _ H). split; intros (m & E & ? & Hq); exists m; (split; [by eapply HM|done]).
  - intros q m qn E. rewrite Ei. eapply (l_owner _ _ _ H). eauto.
Qed.

Lemma core_new_queue e s B qn :
  core s B -> G_qhash s !! qn = None -> calloc_q e = true ->
  qruns (tmq_qhash_new e qn) s (fun r s' => r = true /\ core s' B /\ msgs s' = msgs s /\
    G_qconf s' = G_qconf s /\ stat_of <$> G_qhash s' = <[qn := (0, 0, 0, 0)]> (stat_of <$> G_qhash s) /\
    G_msgid_hash s' = G_msgid_hash s).
Proof.
  intros (lay & H & Ht) Eq Ec. unfold tmq_qhash_new. rewrite Ec.
  set (q0 := mk_qhash 0 0 0 0 RBTNIL RBTNIL [] ∅). set (s' := with_qhash (<[qn := q0]> (G_qhash s)) s).
  exists true, s'. split.
  { unfold mbind, Q_bind, in_tree. unfold tree_root. cbn. rewrite lookup_insert_eq. cbn.
    rewrite alter_insert_eq. cbn. rewrite lookup_insert_eq. cbn. by rewrite alter_insert_eq. }
  split; [done|]. split; [|split; [done|split; [done|split; [subst s'; cbn; by rewrite fmap_insert|done]]]].
  assert (Er : forall t, tree_root t s' = if decide (tree_queue t = qn)
    then match t with TCor _ _ => None | _ => Some RBTNIL end else tree_root t s).
  { intros t. subst s'. unfold tree_root. cbn. destruct (decide _) as [->|];
      [by rewrite lookup_insert_eq; destruct t|by rewrite lookup_insert_ne]. }
  assert (Hl : forall t, tree_queue t = qn -> lay t = []).
  { intros t Et. destruct (l_forest _ _ _ H) as (_ & Hf & _). specialize (Hf t). unfold tree_root in Hf.
    by rewrite Et, Eq in Hf. }
  assert (Ei : forall qn', infl qn' s' = if decide (qn' = qn) then Some [] else infl qn' s).
  { intros qn'. subst s'. unfold infl. cbn. destruct (decide _) as [->|]; [by rewrite lookup_insert_eq|by rewrite lookup_insert_ne]. }
  exists lay. split.
  - constructor; cbn [msgs G_msgid_hash s' with_qhash]; try apply H.
    + apply (forest_change s); [apply H|done|]. intros t. rewrite Er. destruct (decide _) as [Et|]; [right|by left].
      split; [by apply Hl|]. destruct t; auto.
    + intros qn' l. rewrite Ei. destruct (decide (qn' = qn)) as [->|]; [|apply H]. intros [= <-]. split; [constructor|].
      intros p. split; [by intros ?%elem_of_nil|]. intros (m & E & Eo & _).
      destruct (l_owner _ _ _ H p m qn E Eo) as [[? Hi] _]. unfold infl in Hi. by rewrite Eq in Hi.
    + intros p m qn' E Eo. rewrite Ei. destruct (l_owner _ _ _ H p m qn' E Eo). destruct (decide _); [|done]. split; [by eexists|done].
  - intros qn' c. rewrite Er. cbn. destruct (decide _); [by intros []|apply Ht].
Qed.

(** ** Reading *)

Definition member (s : qspace) (B : Z -> loc -> bool) (t : tree_id) (p : Z) (m : tmq_memmsg_t) : Prop :=
  msgs s !! p = Some m /\ mm_qhash m = Some (tree_queue t) /\ B p (tree_loc t) = true /\ of_cor t m.

Lemma member_in s B lay t p m : laid s B lay -> member s B t p m -> handle t p ∈ lay t.
Proof. intros H (E & Eq & Hb & Ec). apply (l_in _ _ _ H). by exists p, m. Qed.

Lemma in_member s B lay t a : laid s B lay -> a ∈ lay t -> exists p m, a = handle t p /\ member s B t p m.
Proof. intros H Ha. destruct (keyed_member _ _ _ _ _ H Ha) as (p & m & E & -> & _ & Eq & Hb & Ec). by exists p, m. Qed.

Lemma ordered_ends k l a : ordered k l -> a ∈ l -> k (hd NULL l) <= k a <= k (List.last l NULL).
Proof.
  intros Ho Ha. split.
  - destruct l as [|x l]; [by apply elem_of_nil in Ha|]. inversion_clear Ho as [|? ? _ Hall]. rewrite Forall_forall in Hall.
    apply elem_of_cons in Ha as [->|Ha]; cbn; [lia|]. specialize (Hall a Ha). lia.
  - destruct l as [|x l _] using rev_ind; [by apply elem_of_nil in Ha|]. rewrite List.last_last.
    apply StronglySorted_app in Ho as (Hall & _ & _). apply elem_of_app in Ha as [Ha|Ha]; [|apply list_elem_of_singleton in Ha as ->; lia].
    specialize (Hall a x Ha). rewrite list_elem_of_singleton in Hall. specialize (Hall eq_refl). lia.
Qed.

Lemma end_in (lifo : bool) (l : list Z) : l <> [] -> (if lifo then List.last l NULL else hd NULL l) ∈ l.
Proof.
  destruct lifo; [|destruct l; [done|by left]]. destruct l as [|x l _] using rev_ind; [done|].
  intros _. rewrite List.last_last. set_solver.
Qed.

(** The message at an end of a tree. *)
Lemma core_end (lifo : bool) s B t :
  core s B -> is_Some (tree_root t s) ->
  qruns (if lifo then tree_rightmost t else tree_leftmost t) s (fun a s' => s' = s /\
    (a = NULL /\ (forall p m, ~ member s B t p m) \/
     exists p m, a = handle t p /\ member s B t p m /\ forall q mq, member s B t q mq ->
       if lifo then msg_key t (mm_msg mq) <= msg_key t (mm_msg m) else msg_key t (mm_msg m) <= msg_key t (mm_msg mq))).
Proof.
  intros (lay & H & _) Hr.
  apply (qruns_mono _ _ (fun a s' => s' = s /\ a = if lifo then List.last (lay t) NULL else hd NULL (lay t))).
  { destruct lifo; [apply forest_rightmost|apply forest_leftmost]; by (apply H || done). }
  intros a s' [-> ->]. split; [done|]. destruct (decide (lay t = [])) as [El|Hne].
  - left. split; [by rewrite El; destruct lifo|]. intros p m Hm. apply (member_in _ _ _ _ _ _ H) in Hm.
    rewrite El in Hm. by apply elem_of_nil in Hm.
  - right. destruct (in_member _ _ _ _ _ H (end_in lifo _ Hne)) as (p & m & Ea & Hm). exists p, m.
    split; [done|]. split; [done|]. intros q mq Hq.
    pose proof (ordered_ends _ _ _ (l_ordered _ _ _ H t) (member_in _ _ _ _ _ _ H Hq)) as [H1 H2].
    destruct Hm as (E & _), Hq as (E' & _). rewrite (tree_key_handle _ _ _ _ E') in H1, H2.
    destruct lifo; rewrite Ea in *; rewrite (tree_key_handle _ _ _ _ E) in *; done.
Qed.

Lemma core_ext s B B' : (forall p m l, msgs s !! p = Some m -> B' p l = B p l) -> core s B -> core s B'.
Proof.
  intros E (lay & H & Ht). exists lay. split; [|done].
  assert (Hm : forall p l (P : tmq_memmsg_t -> Prop), (exists m, msgs s !! p = Some m /\ P m /\ B p l = true) <->
    exists m, msgs s !! p = Some m /\ P m /\ B' p l = true).
  { intros p l P. split; intros (m & Em & Hp & Hb); exists m; (split; [done|split; [done|]]).
    - by rewrite (E p m).
    - by rewrite <-(E p m). }
  constructor; try apply H.
  - intros t a. rewrite (l_in _ _ _ H).
    split; intros (p & m & Em & Eq & Hb & Ec & ->); exists p, m; split_and!; try done; [by rewrite (E p m)|by rewrite <-(E p m)].
  - intros qn l El. destruct (l_infl _ _ _ H qn l El) as [N Hl]. split; [done|]. intros p. rewrite Hl. apply Hm.
  - intros k p. rewrite (l_hash _ _ _ H). apply Hm.
  - intros p m Em Hb. apply (l_link _ _ _ H p m Em). by rewrite <-(E p m).
  - intros p m Em Hb. apply (l_fut _ _ _ H p m Em). by rewrite <-(E p m).
Qed.

(** ** Working on one message

    [work s0 p B m s]: since [s0] only the message [p] has changed, which is [m] now. *)
Definition work (s0 : qspace) (p : Z) (B : Z -> loc -> bool) (m : tmq_memmsg_t) (s : qspace) : Prop :=
  core s B /\ msgs s = <[p := m]> (msgs s0) /\ keeps s0 s.

Lemma work_start s p B m : core s B -> msgs s !! p = Some m -> work s p B m s.
Proof. intros H E. split_and!; [done| |done]. by rewrite insert_id. Qed.

Lemma work_at s0 p B m s : work s0 p B m s -> msgs s !! p = Some m.
Proof. intros (_ & -> & _). apply lookup_insert_eq. Qed.

Section Work.
Context (s0 s : qspace) (p : Z) (B : Z -> loc -> bool) (m : tmq_memmsg_t) (qn : list Z).
Hypothesis W : work s0 p B m s.
Hypothesis Eq : mm_qhash m = Some qn.

Lemma work_same {A} (c : Q A) B' :
  qruns c s (fun _ s' => core s' B' /\ msgs s' = msgs s /\ keeps s s') -> qruns c s (fun _ s' => work s0 p B' m s').
Proof using W.
  destruct W as (_ & Em & K). intros Hc. eapply qruns_mono; [exact Hc|]. intros a s' (Hcore & Em' & K').
  split_and!; [done| |by etransitivity]. by rewrite Em', Em.
Qed.

Lemma work_changed B' m' s' : core s' B' -> msgs s' = <[p := m']> (msgs s) -> keeps s s' -> work s0 p B' m' s'.
Proof using W.
  destruct W as (_ & Em & K). intros Hcore Em' K'. split_and!; [done| |by etransitivity].
  by rewrite Em', Em, insert_insert_eq.
Qed.

Lemma work_msg f : alike m (f m) -> mm_corhash (f m) = mm_corhash m ->
  qruns (upd_msg p f) s (fun _ s' => work s0 p B (f m) s').
Proof using W.
  intros Ha Hl. pose proof (work_at _ _ _ _ _ W) as E. pose proof W as (Hc & _).
  eapply qruns_mono; [eapply core_msg; [exact Hc|exact E|done|]|].
  - intros Hb. destruct Hc as (lay & H & _). destruct Ha as (_ & -> & _). rewrite Hl. by apply (l_link _ _ _ H p).
  - intros _ s' (H1 & H2 & H3). by apply work_changed.
Qed.

Lemma work_insert_cur : B p LCur = false -> B p LFut = false ->
  qruns (tree_insert (TCur qn) p) s (fun _ s' => work s0 p (put B p LCur true) m s').
Proof using W Eq. intros. apply work_same. apply (core_insert s B (TCur qn) p m); [apply W|by eapply work_at|done..]. Qed.

Lemma work_insert_fut : B p LCur = false -> B p LFut = false -> has (ctl_flags (mm_msg m)) TPQTIME_ABS = true ->
  qruns (tree_insert (TFut qn) p) s (fun _ s' => work s0 p (put B p LFut true) m s').
Proof using W Eq. intros. apply work_same. apply (core_insert s B (TFut qn) p m); [apply W|by eapply work_at|done..]. Qed.

Lemma work_delete_cur : B p LCur = true ->
  qruns (tree_delete (TCur qn) p) s (fun _ s' => work s0 p (put B p LCur false) m s').
Proof using W Eq. intros. apply work_same. apply (core_delete s B (TCur qn) p m); [apply W|by eapply work_at|done..]. Qed.

Lemma work_delete_fut : B p LFut = true ->
  qruns (tree_delete (TFut qn) p) s (fun _ s' => work s0 p (put B p LFut false) m s').
Proof using W Eq. intros. apply work_same. apply (core_delete s B (TFut qn) p m); [apply W|by eapply work_at|done..]. Qed.

Lemma work_append : B p LInfl = false -> qruns (CDL_APPEND qn p) s (fun _ s' => work s0 p (put B p LInfl true) m s').
Proof using W Eq. intros. apply work_same. apply (core_append s B p m); [apply W|by eapply work_at|done..]. Qed.

Lemma work_unlink : qruns (CDL_DELETE qn p) s (fun _ s' => work s0 p (put B p LInfl false) m s').
Proof using W Eq. apply work_same. apply (core_unlink s B p m); [apply W|by eapply work_at|done..]. Qed.

Lemma work_cor_add e : B p LCor = false -> fpmalloc e (corrid_str m) = true ->
  qruns (tmq_cor_msg_add e p) s (fun r s' =>
    r = EXSUCCEED /\ work s0 p (put B p LCor true) (set_corhash (Some (corrid_str m)) m) s').
Proof using W Eq.
  intros Hb Hf. eapply qruns_mono; [eapply core_cor_add; [apply W|by eapply work_at|done..]|].
  intros r s' (-> & H1 & H2 & H3). split; [done|]. by apply work_changed.
Qed.

Lemma work_cor_del : B p LCor = true ->
  qruns (tmq_cor_msg_del p) s (fun _ s' => work s0 p (put B p LCor false) (set_corhash None m) s').
Proof using W Eq.
  intros Hb. eapply qruns_mono; [eapply core_cor_del; [apply W|by eapply work_at|done..]|].
  intros r s' (H1 & H2 & H3). by apply work_changed.
Qed.

Lemma work_hash_add : (forall q, G_msgid_hash s !! msgid_str m = Some q -> q = p) ->
  qruns (upd_hash (insert (msgid_str m) p)) s (fun _ s' => work s0 p (put B p LHash true) m s').
Proof using W.
  intros Hu. apply work_same. apply (core_hash s B p m); [apply W|by eapply work_at| | |done].
  - intros k q Hk. by rewrite lookup_insert_ne.
  - intros q. rewrite lookup_insert_eq. naive_solver.
Qed.

Lemma work_hash_del : B p LHash = true ->
  qruns (upd_hash (delete (msgid_str m))) s (fun _ s' => work s0 p (put B p LHash false) m s').
Proof using W.
  intros Hb. pose proof (work_at _ _ _ _ _ W) as E. apply work_same. apply (core_hash s B p m); [apply W|done| | |].
  - intros k q Hk. by rewrite lookup_delete_ne.
  - intros q. rewrite lookup_delete_eq. naive_solver.
  - intros q Hq. destruct W as ((lay & H & _) & _). assert (G_msgid_hash s !! msgid_str m = Some p) as Hp.
    { apply (l_hash _ _ _ H). by exists m. }
    congruence.
Qed.
End Work.
