(* ===== verification/QOps.v ===== *)
(** * Moving messages

    What the operations of [tmqueue/inflight.c] do to a message: whatever structures they
    touch, its state tells where it is, and nothing else changes. *)

From stdpp Require Import gmap.
From S2P Require Import Prelude RbTree QSpace QForest QCore.

Local Open Scope Z_scope.

(** ** The places of a message *)

(** Where the messages say they are. *)
Definition bits (s : qspace) (p : Z) (l : loc) : bool :=
  match msgs s !! p with Some m => has (qstate m) (bit l) | None => false end.

Definition LOCKED : Z := Z.lor NDRX_TMQ_LOC_INFL NDRX_TMQ_LOC_MSGIDHASH.
Definition WAITING : Z := Z.lor NDRX_TMQ_LOC_FUTQ NDRX_TMQ_LOC_MSGIDHASH.
Definition READY (cor : bool) : Z :=
  Z.lor (if cor then Z.lor NDRX_TMQ_LOC_CURQ NDRX_TMQ_LOC_CORQ else NDRX_TMQ_LOC_CURQ) NDRX_TMQ_LOC_MSGIDHASH.

Definition correlated (m : tmq_msg_t) : bool := has (ctl_flags m) TPQCORRID.

(** The state an unlocked message gets. *)
Definition free_state (e : qenv) (m : tmq_msg_t) : Z := if is_future e m then WAITING else READY (correlated m).

(** There is memory for the correlator of a message that becomes ready. *)
Definition cor_memory (e : qenv) (m : tmq_memmsg_t) : Prop :=
  correlated (mm_msg m) = true -> fpmalloc e (corrid_str m) = true.

Ltac qstep L := apply qruns_bind; eapply qruns_mono; [eapply L|].

(** The table of the places after a change, read at a place. *)
Ltac puts := intros; unfold put in *; repeat case_decide; first [tauto|congruence|naive_solver].

Lemma bits_at s p m l : msgs s !! p = Some m -> bits s p l = has (qstate m) (bit l).
Proof. unfold bits. by intros ->. Qed.

Lemma work_bits s p B m' s' :
  work s p B m' s' -> (forall q l, q <> p -> B q l = bits s q l) -> (forall l, B p l = has (qstate m') (bit l)) ->
  core s' (bits s').
Proof.
  intros (Hc & Em & _) Ho Hp. eapply core_ext; [|exact Hc]. intros q m l E. rewrite (bits_at _ _ _ _ E).
  rewrite Em in E. destruct (decide (q = p)) as [->|Hne].
  - rewrite lookup_insert_eq in E. injection E as <-. by rewrite Hp.
  - rewrite lookup_insert_ne in E by done. by rewrite Ho, (bits_at _ _ _ _ E).
Qed.

(** ** Into the tree of messages that can be taken *)

Definition in_cur (B : Z -> loc -> bool) (p : Z) (cor : bool) : Z -> loc -> bool :=
  if cor then put (put B p LCur true) p LCor true else put B p LCur true.

Definition cur_bits (cor : bool) (st : Z) : Z :=
  if cor then Z.lor (Z.lor st NDRX_TMQ_LOC_CURQ) NDRX_TMQ_LOC_CORQ else Z.lor st NDRX_TMQ_LOC_CURQ.

Lemma insert_cur_ok e s0 s p B m qn :
  work s0 p B m s -> mm_qhash m = Some qn -> B p LCur = false -> B p LFut = false -> B p LCor = false ->
  cor_memory e m ->
  qruns (insert_cur e qn p) s (fun r s' => r = EXSUCCEED /\ exists c,
    work s0 p (in_cur B p (correlated (mm_msg m))) (set_state (cur_bits (correlated (mm_msg m))) (set_corhash c m)) s').
Proof.
  intros W Eq H1 H2 H3 Hm. unfold insert_cur, in_cur, cur_bits. qstep work_insert_cur; [done..|]. intros [] s1 W1.
  qstep work_msg; [done|done|done|]. intros [] s2 W2. apply qruns_bind. eapply qruns_get_msg; [by eapply work_at|].
  cbn [mm_msg set_state]. change (has (ctl_flags (mm_msg m)) TPQCORRID) with (correlated (mm_msg m)).
  destruct (correlated (mm_msg m)) eqn:Ec; [|apply qruns_ret; split; [done|]; by exists (mm_corhash m)].
  qstep work_cor_add; [done|done|puts|by apply Hm|]. intros r s3 [-> W3]. rewrite Z.eqb_refl.
  qstep work_msg; [done|done|done|]. intros [] s4 W4. apply qruns_ret. split; [done|].
  by exists (Some (corrid_str m)).
Qed.

(** ** Locking and unlocking *)

(** The message [m] at [p] is in the state [st] now, and everything else as before. *)
Definition moved (s : qspace) (p : Z) (m : tmq_memmsg_t) (st : Z) (s' : qspace) : Prop :=
  core s' (bits s') /\ (exists c, msgs s' = <[p := set_state (fun _ => st) (set_corhash c m)]> (msgs s)) /\ keeps s s'.

Lemma work_moved s p B m c f st s' :
  work s p B (set_state f (set_corhash c m)) s' -> f (qstate m) = st ->
  (forall q l, q <> p -> B q l = bits s q l) -> (forall l, B p l = has st (bit l)) -> moved s p m st s'.
Proof.
  intros W <- Ho Hp. pose proof W as (_ & Em & K). split_and!; [by eapply work_bits| |done]. by exists c.
Qed.

(** Reads the table at the message under work, whose places [Hb] gives. *)
Ltac reads Hb := intros; unfold put in *; repeat case_decide; rewrite ?Hb in *; destruct_and?; first [done|tauto|congruence].
Ltac reads_all Hb := let l := fresh in intros l; unfold put; destruct l; rewrite ?Hb; repeat case_decide; destruct_and?; first [done|tauto|congruence].

(** Out of the structures of unlocked messages. *)
Lemma leave_ok s p m qn :
  core s (bits s) -> msgs s !! p = Some m -> mm_qhash m = Some qn ->
  qstate m = WAITING \/ qstate m = READY false \/ qstate m = READY true ->
  qruns (if has (qstate m) NDRX_TMQ_LOC_FUTQ then
           tree_delete (TFut qn) p;; upd_msg p (set_state (fun st => clear st NDRX_TMQ_LOC_FUTQ))
         else if has (qstate m) NDRX_TMQ_LOC_CURQ then
           tree_delete (TCur qn) p;;
           upd_msg p (set_state (fun st => clear st NDRX_TMQ_LOC_CURQ));;
           (if has (qstate m) NDRX_TMQ_LOC_CORQ then
              tmq_cor_msg_del p;; upd_msg p (set_state (fun st => clear st NDRX_TMQ_LOC_CORQ))
            else mret tt)
         else aborts) s (fun _ s' => exists B c f, work s p B (set_state f (set_corhash c m)) s' /\
    f (qstate m) = NDRX_TMQ_LOC_MSGIDHASH /\ (forall q l, q <> p -> B q l = bits s q l) /\
    forall l, B p l = has NDRX_TMQ_LOC_MSGIDHASH (bit l)).
Proof.
  intros H E Eq Hst. pose proof (work_start _ _ _ _ H E) as W.
  assert (Hb : forall l, bits s p l = has (qstate m) (bit l)) by (intros; by apply bits_at).
  destruct Hst as [Hst|[Hst|Hst]]; rewrite Hst in Hb |- *; cbn [has].
  - qstep work_delete_fut; [done|done|by rewrite Hb|]. intros [] s1 W1. eapply qruns_mono; [eapply work_msg; [done|done|done]|].
    intros [] s2 W2. eexists _, (mm_corhash m), _. split_and!; [exact W2|done|reads Hb|reads_all Hb].
  - qstep work_delete_cur; [done|done|by rewrite Hb|]. intros [] s1 W1. qstep work_msg; [done|done|done|].
    intros [] s2 W2. apply qruns_ret. eexists _, (mm_corhash m), _. split_and!; [exact W2|done|reads Hb|reads_all Hb].
  - qstep work_delete_cur; [done|done|by rewrite Hb|]. intros [] s1 W1. destruct H as (lay & Hl & Ht).
    pose proof (l_link _ _ _ Hl p m E ltac:(by rewrite Hb)) as Hlink.
    qstep work_msg; [done|done|done|]. intros [] s2 W2. qstep work_cor_del; [done|done|reads Hb|]. intros [] s3 W3.
    eapply qruns_mono; [eapply work_msg; [done|done|done]|]. intros [] s4 W4.
    eexists _, None, (fun st => clear (clear st NDRX_TMQ_LOC_CURQ) NDRX_TMQ_LOC_CORQ). split_and!; [exact W4|done|reads Hb|reads_all Hb].
Qed.

Lemma mov2infl_ok s p m qn :
  core s (bits s) -> msgs s !! p = Some m -> mm_qhash m = Some qn ->
  qstate m = WAITING \/ qstate m = READY false \/ qstate m = READY true ->
  qruns (ndrx_infl_mov2infl p) s (fun _ s' => moved s p m LOCKED s').
Proof.
  intros H E Eq Hst. unfold ndrx_infl_mov2infl. apply qruns_bind. eapply qruns_get_msg; [done|].
  apply qruns_bind. eapply qruns_need; [done|]. apply qruns_bind. eapply qruns_mono; [by apply leave_ok|].
  intros [] s1 (B & c & f & W & Hf & Ho & Hp). qstep work_append; [done|done|by rewrite Hp|]. intros [] s2 W2.
  qstep work_msg; [done|done|done|]. intros [] s3 W3. apply qruns_ret.
  eapply (work_moved s p _ m c (fun st => Z.lor (f st) NDRX_TMQ_LOC_INFL)); [done|by rewrite Hf| |reads_all Hp].
  intros. rewrite put_ne; auto.
Qed.

Lemma mov2cur_ok e s p m qn :
  core s (bits s) -> msgs s !! p = Some m -> mm_qhash m = Some qn -> qstate m = LOCKED -> cor_memory e m ->
  qruns (ndrx_infl_mov2cur e p) s (fun r s' => r = EXSUCCEED /\ moved s p m (free_state e (mm_msg m)) s').
Proof.
  intros H E Eq Hst Hm. pose proof (work_start _ _ _ _ H E) as W. unfold ndrx_infl_mov2cur, free_state.
  assert (Hb : forall l, bits s p l = has LOCKED (bit l)) by (intros; rewrite <-Hst; by apply bits_at).
  apply qruns_bind. eapply qruns_get_msg; [done|]. rewrite Hst. cbn [has LOCKED].
  apply qruns_bind. eapply qruns_need; [done|]. qstep work_unlink; [done|done|]. intros [] s1 W1.
  qstep work_msg; [done|done|done|]. intros [] s2 W2. destruct (is_future e (mm_msg m)) eqn:Ef.
  - qstep work_insert_fut; [done|done|reads Hb|reads Hb|by apply andb_prop in Ef as [? _]|]. intros [] s3 W3.
    qstep work_msg; [done|done|done|]. intros [] s4 W4. apply qruns_ret. split; [done|].
    eapply (work_moved s p _ m (mm_corhash m) (fun st => Z.lor (clear st NDRX_TMQ_LOC_INFL) NDRX_TMQ_LOC_FUTQ));
      [exact W4|by rewrite Hst|reads Hb|reads_all Hb].
  - eapply qruns_mono; [by eapply insert_cur_ok; [done|done|reads Hb|reads Hb|reads Hb|done]|].
    intros r s3 (-> & c & W3). split; [done|]. cbn [mm_msg set_state] in W3.
    eapply (work_moved s p _ m c (fun st => cur_bits _ (clear st NDRX_TMQ_LOC_INFL))); [exact W3| | |];
      unfold in_cur, cur_bits; destruct (correlated (mm_msg m)); first [by rewrite Hst|reads Hb|reads_all Hb].
Qed.

(** ** Removing *)

Definition nowhere (s : qspace) (p : Z) (B : Z -> loc -> bool) : Prop :=
  (forall q l, q <> p -> B q l = bits s q l) /\ forall l, B p l = false.

Lemma delmsg_ok s p m :
  core s (bits s) -> msgs s !! p = Some m ->
  qstate m = 0 \/
  is_Some (mm_qhash m) /\ (qstate m = LOCKED \/ qstate m = WAITING \/ qstate m = READY false \/ qstate m = READY true) ->
  qruns (ndrx_infl_delmsg p) s (fun _ s' => exists B m', nowhere s p B /\ work s p B m' s').
Proof.
  intros H E Hst. pose proof (work_start _ _ _ _ H E) as W. unfold ndrx_infl_delmsg.
  assert (Hb : forall l, bits s p l = has (qstate m) (bit l)) by (intros; by apply bits_at).
  apply qruns_bind. eapply qruns_get_msg; [done|].
  destruct Hst as [Hst|([qn Eq] & [Hst|[Hst|[Hst|Hst]]])]; rewrite Hst in Hb |- *; cbn [has].
  - do 5 apply qruns_bind, qruns_ret. qstep work_msg; [done|done|done|]. intros [] s1 W1. apply qruns_ret.
    eexists _, _. split; [|exact W1]. split; [done|]. intros l. by destruct l; rewrite Hb.
  - apply qruns_bind, qruns_ret. qstep work_hash_del; [done|by rewrite Hb|]. intros [] s1 W1.
    apply qruns_bind, qruns_bind. eapply qruns_need; [done|]. eapply qruns_mono; [eapply work_unlink; done|]. intros [] s2 W2.
    do 2 apply qruns_bind, qruns_ret. qstep work_msg; [done|done|done|]. intros [] s3 W3. apply qruns_ret.
    eexists _, _. split; [|exact W3]. split; [reads Hb|reads_all Hb].
  - apply qruns_bind, qruns_ret. qstep work_hash_del; [done|by rewrite Hb|]. intros [] s1 W1. apply qruns_bind, qruns_ret.
    apply qruns_bind, qruns_bind. eapply qruns_need; [done|]. eapply qruns_mono; [eapply work_delete_fut; [done|done|reads Hb]|].
    intros [] s2 W2. apply qruns_bind, qruns_ret. qstep work_msg; [done|done|done|]. intros [] s3 W3. apply qruns_ret.
    eexists _, _. split; [|exact W3]. split; [reads Hb|reads_all Hb].
  - apply qruns_bind, qruns_ret. qstep work_hash_del; [done|by rewrite Hb|]. intros [] s1 W1. do 2 apply qruns_bind, qruns_ret.
    apply qruns_bind, qruns_bind. eapply qruns_need; [done|]. eapply qruns_mono; [eapply work_delete_cur; [done|done|reads Hb]|].
    intros [] s2 W2. qstep work_msg; [done|done|done|]. intros [] s3 W3. apply qruns_ret.
    eexists _, _. split; [|exact W3]. split; [reads Hb|reads_all Hb].
  - qstep work_cor_del; [done|done|by rewrite Hb|]. intros [] s1 W1.
    apply qruns_bind. change (msgid_str m) with (msgid_str (set_corhash None m)).
    eapply qruns_mono; [eapply work_hash_del; [done|reads Hb]|]. intros [] s2 W2. do 2 apply qruns_bind, qruns_ret.
    apply qruns_bind, qruns_bind. eapply qruns_need; [done|]. eapply qruns_mono; [eapply work_delete_cur; [done|done|reads Hb]|].
    intros [] s3 W3. qstep work_msg; [done|done|done|]. intros [] s4 W4. apply qruns_ret.
    eexists _, _. split; [|exact W4]. split; [reads Hb|reads_all Hb].
Qed.

(** A message is taken out of everything and freed. *)
Lemma remove_ok s p m :
  core s (bits s) -> msgs s !! p = Some m ->
  qstate m = 0 \/
  is_Some (mm_qhash m) /\ (qstate m = LOCKED \/ qstate m = WAITING \/ qstate m = READY false \/ qstate m = READY true) ->
  qruns (ndrx_infl_delmsg p;; free_msg p) s (fun _ s' =>
    core s' (bits s') /\ msgs s' = delete p (msgs s) /\ keeps s s').
Proof.
  intros H E Hst. apply qruns_bind. eapply qruns_mono; [by apply (delmsg_ok s p m)|].
  intros r s1 (B & m' & [Ho Hp] & (Hc & Em & K)). unfold qruns, free_msg.
  rewrite Em, lookup_insert_eq. eexists _, _. split; [done|]. split_and!; [|cbn; by rewrite delete_insert_eq|done].
  eapply core_ext; [|eapply (core_drop s1 _ B p)].
  - intros q mq l Eq. rewrite (bits_at _ _ _ _ Eq). cbn in Eq. rewrite delete_insert_eq in Eq.
    apply lookup_delete_Some in Eq as [Hne Eq]. rewrite Ho by done. symmetry. by apply bits_at.
  - done.
  - done.
  - cbn. by rewrite Em.
  - done.
  - intros a Ha Ha'. cbn. by rewrite !lookup_delete_ne.
  - rewrite Em, lookup_insert_eq. by eexists.
Qed.

(** ** Entering *)

(** A message that is in no structure may change. *)
Lemma work_loose s p m f :
  core s (bits s) -> msgs s !! p = Some m -> qstate m = 0 ->
  (forall qn, mm_qhash (f m) = Some qn -> is_Some (infl qn s) /\ timely (mm_msg (f m)) = true /\
     forall q mq, q <> p -> msgs s !! q = Some mq -> mm_qhash mq = Some qn -> stamp (mm_msg (f m)) <> stamp (mm_msg mq)) ->
  qruns (upd_msg p f) s (fun _ s' => work s p (bits s) (f m) s').
Proof.
  intros H E Hst Ho. eapply qruns_upd_msg; [done|]. split_and!; [|done|done].
  pose proof H as (lay & Hl & _). eapply (core_loose s _ (bits s) p (f m)); try done.
  - intros l. rewrite (bits_at _ _ _ _ E), Hst. by destruct l.
  - by eapply (l_addr _ _ _ Hl).
  - intros q mq Hne Eq. destruct (l_apart _ _ _ Hl q p mq m Eq E Hne); lia.
Qed.

Lemma work_unhashed s p B m s' k q :
  core s (bits s) -> work s p B m s' -> (forall q l, q <> p -> B q l = bits s q l) ->
  G_msgid_hash s !! k = None -> G_msgid_hash s' !! k = Some q -> q = p.
Proof.
  intros (lay & H & _) ((lay' & H' & _) & Em & _) Ho Hk Hq. apply (l_hash _ _ _ H') in Hq as (mq & Eq & Ek & Hb).
  destruct (decide (q = p)) as [->|Hne]; [done|]. rewrite Em, lookup_insert_ne in Eq by done. rewrite Ho in Hb by done.
  assert (G_msgid_hash s !! k = Some q) by (apply (l_hash _ _ _ H); by exists mq). congruence.
Qed.

(** The state a new message gets. *)
Definition new_state (e : qenv) (m : tmq_msg_t) : Z := if lockthreadid m =? 0 then free_state e m else LOCKED.

Lemma addmsg_ok e s p m qc qn :
  core s (bits s) -> msgs s !! p = Some m -> qstate m = 0 -> is_Some (infl qn s) -> timely (mm_msg m) = true ->
  (forall q mq, q <> p -> msgs s !! q = Some mq -> mm_qhash mq = Some qn -> stamp (mm_msg m) <> stamp (mm_msg mq)) ->
  G_msgid_hash s !! msgid_str m = None -> cor_memory e m ->
  qruns (ndrx_infl_addmsg e qc qn p) s (fun r s' =>
    r = EXSUCCEED /\ moved s p (set_queue qc qn m) (new_state e (mm_msg m)) s').
Proof.
  intros H E Hst Hq Ht Hk Hh Hm. unfold ndrx_infl_addmsg. assert (Hb : forall l, bits s p l = false).
  { intros l. rewrite (bits_at _ _ _ _ E), Hst. by destruct l. }
  apply qruns_bind. eapply qruns_mono; [eapply (work_loose s p m); [done..|]; intros qn' [= <-]; done|]. intros [] s1 W1.
  apply qruns_bind. eapply qruns_get_msg; [by eapply work_at|]. cbn [mm_msg set_queue msgid_str]. apply qruns_bind.
  apply (qruns_mono _ _ (fun r s' => r = EXSUCCEED /\ exists B c f st,
    work s p B (set_state f (set_corhash c (set_queue qc qn m))) s' /\ f 0 = st /\
    Z.lor st NDRX_TMQ_LOC_MSGIDHASH = new_state e (mm_msg m) /\
    (forall q l, q <> p -> B q l = bits s q l) /\ forall l, B p l = has st (bit l))).
  { unfold new_state. destruct (Z.eqb_spec (lockthreadid (mm_msg m)) 0) as [Hl|Hl]; cbn [negb].
    - unfold free_state. destruct (is_future e (mm_msg m)) eqn:Ef.
      + qstep work_insert_fut; [done|done|done|done|by apply andb_prop in Ef as [? _]|]. intros [] s2 W2.
        qstep work_msg; [done|done|done|]. intros [] s3 W3. apply qruns_ret. split; [done|].
        eexists _, (mm_corhash m), _, NDRX_TMQ_LOC_FUTQ. split_and!; [exact W3|done|done|reads Hb|reads_all Hb].
      + qstep work_msg; [done|done|done|]. intros [] s2 W2.
        eapply qruns_mono; [by eapply insert_cur_ok|]. intros r s3 (-> & c & W3). split; [done|]. cbn [mm_msg set_state set_queue] in W3.
        eexists _, c, (fun _ => cur_bits _ 0), (cur_bits (correlated (mm_msg m)) 0). split_and!; [exact W3|done|..];
          unfold in_cur, cur_bits, READY; destruct (correlated (mm_msg m)); first [done|reads Hb|reads_all Hb].
    - qstep work_append; [done|done|done|]. intros [] s2 W2. qstep work_msg; [done|done|done|]. intros [] s3 W3.
      apply qruns_ret. split; [done|]. eexists _, (mm_corhash m), _, NDRX_TMQ_LOC_INFL.
      split_and!; [exact W3|done|done|reads Hb|reads_all Hb]. }
  intros r s2 (-> & B & c & f & st & W2 & Hf & Hst' & Ho & Hp). rewrite Z.eqb_refl. apply qruns_bind.
  eapply qruns_mono.
  { eapply (work_hash_add s s2 p B (set_state f (set_corhash c (set_queue qc qn m)))); [done|].
    intros q Hq'. by eapply (work_unhashed s p B). }
  intros [] s3 W3. qstep work_msg; [done|done|done|]. intros [] s4 W4. apply qruns_ret. split; [done|].
  eapply (work_moved s p _ (set_queue qc qn m) c (fun st => Z.lor (f st) NDRX_TMQ_LOC_MSGIDHASH)); [exact W4| | |].
  - cbn [qstate set_queue]. by rewrite Hst, Hf.
  - intros. rewrite put_ne; auto.
  - rewrite <-Hst'. intros l. unfold put. destruct (decide _) as [[_ ->]|Hn].
    + unfold has. rewrite Z.land_lor_distr_l. by destruct (Z.land st _).
    + rewrite Hp. unfold has. rewrite Z.land_lor_distr_l. by destruct l; [..|tauto]; rewrite Z.lor_0_r.
Qed.

(** ** Messages whose time has come *)

Lemma fut_cur_ok e s p m qn :
  core s (bits s) -> msgs s !! p = Some m -> mm_qhash m = Some qn -> qstate m = WAITING -> cor_memory e m ->
  qruns (tree_delete (TFut qn) p;; upd_msg p (set_state (fun st => clear st NDRX_TMQ_LOC_FUTQ));; insert_cur e qn p) s
    (fun r s' => r = EXSUCCEED /\ moved s p m (READY (correlated (mm_msg m))) s').
Proof.
  intros H E Eq Hst Hm. pose proof (work_start _ _ _ _ H E) as W.
  assert (Hb : forall l, bits s p l = has WAITING (bit l)) by (intros; rewrite <-Hst; by apply bits_at).
  qstep work_delete_fut; [done|done|by rewrite Hb|]. intros [] s1 W1. qstep work_msg; [done|done|done|]. intros [] s2 W2.
  eapply qruns_mono; [by eapply insert_cur_ok; [done|done|reads Hb|reads Hb|reads Hb|done]|].
  intros r s3 (-> & c & W3). split; [done|]. cbn [mm_msg set_state] in W3.
  eapply (work_moved s p _ m c (fun st => cur_bits _ (clear st NDRX_TMQ_LOC_FUTQ))); [exact W3| | |];
    unfold in_cur, cur_bits, READY; destruct (correlated (mm_msg m)); first [by rewrite Hst|reads Hb|reads_all Hb].
Qed.
