(* ===== verification/QSpec.v ===== *)
(** * What a queue space is

    Against the structures of [QSpace] stands a specification: a set of messages, each of
    them locked, waiting for its time, or ready to be taken.  [spec] says what each
    critical section of the server answers and leaves.  It has no answer where the rest
    of the server must see to something: that addresses from [calloc] are free, that time
    stamps are different and of a size the comparison can bear, that locked messages are
    unlocked only once, and that there is memory for correlators.  [wf] is the invariant
    of the memory and [abs] what it stands for. *)

From stdpp Require Import gmap.
From S2P Require Import Prelude Base64 RbTree RbTreeOk QSpace QForest QCore QOps.

Local Open Scope Z_scope.

(** ** Specification *)

Inductive mstate := Locked | Waiting | Ready.

#[export] Instance mstate_eq_dec : EqDecision mstate.
Proof. solve_decision. Defined.

Record aspace := mk_aspace {
  a_msgs : gmap Z (tmq_msg_t * mstate);
  a_stats : gmap (list Z) (Z * Z * Z * Z);
  a_conf : gmap (list Z) tmq_qconfig_t }.

Definition a_conf_of (qn : list Z) (a : aspace) : option tmq_qconfig_t :=
  match a_conf a !! qn with Some c => Some c | None => a_conf a !! TMQ_DEFAULT_Q end.

Definition a_put (p : Z) (m : tmq_msg_t) (pl : mstate) (a : aspace) : aspace :=
  mk_aspace (<[p := (m, pl)]> (a_msgs a)) (a_stats a) (a_conf a).

(** The message with an id. *)
Definition a_find (msgid : list Z) (a : aspace) : option Z :=
  fst <$> head (filter (fun x => tmq_msgid_serialize (hdr_msgid x.2.1) = tmq_msgid_serialize msgid) (map_to_list (a_msgs a))).

(** Where an unlocked message goes. *)
Definition a_place (e : qenv) (m : tmq_msg_t) : mstate := if is_future e m then Waiting else Ready.

(** The messages whose time has come are ready. *)
Definition promote (e : qenv) (qn : list Z) (x : tmq_msg_t * mstate) : tmq_msg_t * mstate :=
  if bool_decide (hdr_qname x.1 = qn /\ x.2 = Waiting /\ deq_time x.1 <= now e) then (x.1, Ready) else x.

Definition a_promote (e : qenv) (qn : list Z) (a : aspace) : aspace :=
  mk_aspace (promote e qn <$> a_msgs a) (a_stats a) (a_conf a).

Definition has_corrid (c : option (list Z)) (m : tmq_msg_t) : Prop :=
  match c with Some c => correlated m = true /\ tmq_msgid_serialize (corrid m) = c | None => True end.

#[export] Instance has_corrid_dec c m : Decision (has_corrid c m).
Proof. destruct c; apply _. Defined.

(** The messages that can be taken from a queue. *)
Definition ready (qn : list Z) (c : option (list Z)) (a : aspace) : list (Z * tmq_msg_t) :=
  omap (fun x => if bool_decide (hdr_qname x.2.1 = qn /\ x.2.2 = Ready /\ has_corrid c x.2.1)
                 then Some (x.1, x.2.1) else None) (map_to_list (a_msgs a)).

(** The oldest of them, or the newest. *)
Fixpoint best (lifo : bool) (l : list (Z * tmq_msg_t)) : option (Z * tmq_msg_t) :=
  match l with
  | [] => None
  | x :: l =>
    match best lifo l with
    | Some y => Some (if (if lifo then stamp y.2 <=? stamp x.2 else stamp x.2 <=? stamp y.2) then x else y)
    | None => Some x
    end
  end.

Definition cor_ok (e : qenv) (m : tmq_msg_t) : bool :=
  negb (correlated m) || fpmalloc e (tmq_msgid_serialize (corrid m)).

(** ** Operations: the critical sections of the server *)

Inductive op :=
  | OAdd (e : qenv) (m : tmq_msg_t)
  | OAddDone (qn : list Z)
  | OAddUndo (p : Z)
  | OTake (e : qenv) (qn : list Z) (c : option (list Z))
  | OTakeId (e : qenv) (msgid : list Z)
  | OTakeUndo (e : qenv) (p : Z)
  | OUnlock (e : qenv) (b : tmq_upd_block)
  | OUnlockId (e : qenv) (msgid : list Z)
  | OLock (e : qenv) (msgid : list Z)
  | OUpdStats (qn : list Z) (succ_diff fail_diff : Z)
  | OStats (qn : list Z).

Inductive answer := RAdd (r : added) | RTake (r : Z + Z) | RTakeId (r : option Z) | RRet (r : Z) | RDone | RStats (r : Z * Z).

Definition exec (o : op) : Q answer :=
  match o with
  | OAdd e m => r ← add_enter e m; mret (M:=Q) (RAdd r)
  | OAddDone qn => add_done qn;; mret (M:=Q) RDone
  | OAddUndo p => add_undo p;; mret (M:=Q) RDone
  | OTake e qn c => r ← dequeue_begin e qn c; mret (M:=Q) (RTake r)
  | OTakeId e id => r ← dequeue_id_begin e id; mret (M:=Q) (RTakeId r)
  | OTakeUndo e p => dequeue_undo e p;; mret (M:=Q) RDone
  | OUnlock e b => r ← tmq_unlock_msg e b; mret (M:=Q) (RRet r)
  | OUnlockId e id => r ← tmq_unlock_msg_by_msgid e id; mret (M:=Q) (RRet r)
  | OLock e id => r ← tmq_lock_msg e id; mret (M:=Q) (RRet r)
  | OUpdStats qn sd fd => r ← tmq_update_q_stats qn sd fd; mret (M:=Q) (RRet r)
  | OStats qn => r ← tmq_get_q_stats qn 0 0; mret (M:=Q) (RStats r)
  end.

(** Memory for a message that touches no other. *)
Definition apart (p : Z) (a : aspace) : bool :=
  (1 <? p) && forallb (fun x => (p + 64 <=? x.1) || (x.1 + 64 <=? p)) (map_to_list (a_msgs a)).

(** A message that can be entered: its times have the size the comparison is made for,
    its stamp is new in the queue and there is memory for its correlator. *)
Definition enterable (e : qenv) (m : tmq_msg_t) (a : aspace) : bool :=
  timely m && cor_ok e m &&
  forallb (fun x => negb (bool_decide (hdr_qname x.2.1 = hdr_qname m)) || negb (stamp m =? stamp x.2.1)) (map_to_list (a_msgs a)).

(** There is memory for the correlators of what becomes ready. *)
Definition promotable (e : qenv) (qn : list Z) (a : aspace) : bool :=
  forallb (fun x => negb (bool_decide (hdr_qname x.2.1 = qn /\ x.2.2 = Waiting /\ deq_time x.2.1 <= now e)) || cor_ok e x.2.1)
    (map_to_list (a_msgs a)).

Definition when {A} (b : bool) (x : option A) : option A := if b then x else None.

Definition spec_add (e : qenv) (m : tmq_msg_t) (a : aspace) : option (answer * aspace) :=
  match calloc e with
  | None => Some (RAdd (AFail EXFAIL EXSUCCEED None), a)
  | Some p =>
    when (apart p a)
      match a_conf_of (hdr_qname m) a with
      | None => Some (RAdd (AFail EXFAIL QMEBADQUEUE (Some p)), a)
      | Some qc =>
        match a_find (hdr_msgid m) a, a_stats a !! hdr_qname m, calloc_q e with
        | Some _, _, _ | None, None, false => Some (RAdd (AFail EXFAIL EXSUCCEED (Some p)), a)
        | None, st, _ =>
          when (enterable e m a)
            (Some (RAdd (ABegun p (memonly qc)),
                   mk_aspace (<[p := (m, if lockthreadid m =? 0 then a_place e m else Locked)]> (a_msgs a))
                     (<[hdr_qname m := default (0, 0, 0, 0) st]> (a_stats a)) (a_conf a)))
        end
      end
  end.

Definition spec_take (e : qenv) (qn : list Z) (c : option (list Z)) (a : aspace) : option ((Z + Z) * aspace) :=
  match a_conf_of qn a, a_stats a !! qn with
  | None, _ => Some (inr QMEBADQUEUE, a)
  | Some _, None => Some (inr QMENOMSG, a)
  | Some qc, Some _ =>
    if bool_decide (c <> None /\ ready qn c a = []) then Some (inr QMENOMSG, a)
    else
      when (promotable e qn a && negb (gettid e =? 0))
        (let a := a_promote e qn a in
         match best (TMQ_MODE_LIFO =? mode qc) (ready qn c a) with
         | None => Some (inr QMENOMSG, a)
         | Some (p, m) => Some (inl p, a_put p (set_lock (gettid e) m) Locked a)
         end)
  end.

Definition a_delete (p : Z) (a : aspace) : aspace := mk_aspace (delete p (a_msgs a)) (a_stats a) (a_conf a).

Definition a_count (qn : list Z) (f : Z * Z * Z * Z -> Z * Z * Z * Z) (a : aspace) : aspace :=
  mk_aspace (a_msgs a) (alter f qn (a_stats a)) (a_conf a).

Definition spec_unlock (e : qenv) (p : Z) (f : tmq_msg_t -> tmq_msg_t) (a : aspace) : option aspace :=
  match a_msgs a !! p with
  | Some (m, Locked) => when (cor_ok e m) (Some (a_put p (set_lock 0 (f m)) (a_place e m) a))
  | _ => None
  end.

Definition spec (o : op) (a : aspace) : option (answer * aspace) :=
  match o with
  | OAdd e m => spec_add e m a
  | OAddDone qn =>
    match a_stats a !! qn with
    | Some _ => Some (RDone, a_count qn (fun '(s, f, ne, nd) => (s, f, i64 (ne + 1), nd)) a)
    | None => None
    end
  | OAddUndo p => match a_msgs a !! p with Some _ => Some (RDone, a_delete p a) | None => None end
  | OTake e qn c => r ← spec_take e qn c a; Some (RTake r.1, r.2)
  | OTakeId e id =>
    match a_find id a with
    | None => Some (RTakeId None, a)
    | Some p =>
      x ← a_msgs a !! p;
      if lockthreadid x.1 =? 0 then
        when (negb (gettid e =? 0)) (Some (RTakeId (Some p), a_put p (set_lock (gettid e) x.1) Locked a))
      else Some (RTakeId None, a)
    end
  | OTakeUndo e p => a' ← spec_unlock e p (fun m => m) a; Some (RDone, a')
  | OUnlock e b =>
    if b_command b =? TMQ_STORCMD_DUM then Some (RRet EXSUCCEED, a)
    else
      match a_find (b_msgid b) a with
      | None => Some (RRet EXSUCCEED, a)
      | Some p =>
        if b_command b =? TMQ_STORCMD_DEL then
          x ← a_msgs a !! p;
          Some (RRet EXSUCCEED, a_delete p (a_count (hdr_qname x.1) (fun '(s, f, ne, nd) => (s, f, ne, i64 (nd + 1))) a))
        else if b_command b =? TMQ_STORCMD_UPD then
          a' ← spec_unlock e p (UPD_MSG b) a; Some (RRet EXSUCCEED, a')
        else if (b_command b =? TMQ_STORCMD_NEWMSG) || (b_command b =? TMQ_STORCMD_UNLOCK) then
          a' ← spec_unlock e p (fun m => m) a; Some (RRet EXSUCCEED, a')
        else Some (RRet EXFAIL, a)
      end
  | OUnlockId e id =>
    match a_find id a with
    | None => Some (RRet EXFAIL, a)
    | Some p => a' ← spec_unlock e p (fun m => m) a; Some (RRet EXSUCCEED, a')
    end
  | OLock e id =>
    match a_find id a with
    | None => Some (RRet EXFAIL, a)
    | Some p =>
      x ← a_msgs a !! p;
      when (negb (bool_decide (x.2 = Locked)) && negb (gettid e =? 0))
        (Some (RRet EXSUCCEED, a_put p (set_lock (gettid e) x.1) Locked a))
    end
  | OUpdStats qn sd fd =>
    Some (RRet EXSUCCEED, a_count qn (fun '(s, f, ne, nd) => (i64 (s + sd), i64 (f + fd), ne, nd)) a)
  | OStats qn =>
    let mine := filter (fun x => hdr_qname x.2.1 = qn) (map_to_list (a_msgs a)) in
    Some (RStats (if a_stats a !! qn is Some _ then (zlen mine, zlen (filter (fun x => x.2.2 = Locked) mine)) else (0, 0)), a)
  end.

(** ** What the memory stands for *)

Definition place_of (st : Z) : mstate := if st =? LOCKED then Locked else if st =? WAITING then Waiting else Ready.

Definition a_entry (m : tmq_memmsg_t) : tmq_msg_t * mstate := (mm_msg m, place_of (qstate m)).

Definition abs (s : qspace) : aspace := mk_aspace (a_entry <$> msgs s) (stat_of <$> G_qhash s) (G_qconf s).

(** A message is what its header says, and its state what its lock says. *)
Definition fine (m : tmq_memmsg_t) : Prop :=
  mm_qhash m = Some (hdr_qname (mm_msg m)) /\ msgid_str m = tmq_msgid_serialize (hdr_msgid (mm_msg m)) /\
  corrid_str m = (if correlated (mm_msg m) then tmq_msgid_serialize (corrid (mm_msg m)) else []) /\
  (lockthreadid (mm_msg m) <> 0 /\ qstate m = LOCKED \/
   lockthreadid (mm_msg m) = 0 /\ (qstate m = WAITING \/ qstate m = READY (correlated (mm_msg m)))).

(** Everything is as it should be, the message at [p] apart. *)
Definition wf_but (p : Z) (s : qspace) : Prop :=
  core s (bits s) /\ forall q m, msgs s !! q = Some m -> q <> p -> fine m.

Definition wf (s : qspace) : Prop := core s (bits s) /\ forall p m, msgs s !! p = Some m -> fine m.

Lemma wf_wf_but p s : wf s -> wf_but p s.
Proof. intros [H Hf]. split; [done|]. intros q m E _. by apply (Hf q). Qed.

Lemma fine_states m : fine m -> qstate m = LOCKED \/ qstate m = WAITING \/ qstate m = READY false \/ qstate m = READY true.
Proof. intros (_ & _ & _ & [[_ ->]|[_ [->| ->]]]); [auto..|]. destruct (correlated (mm_msg m)); auto. Qed.

Lemma place_ready c : place_of (READY c) = Ready.
Proof. by destruct c. Qed.

Lemma fine_place m : fine m ->
  (place_of (qstate m) = Locked <-> lockthreadid (mm_msg m) <> 0) /\
  (place_of (qstate m) = Locked <-> qstate m = LOCKED) /\
  (place_of (qstate m) = Waiting <-> qstate m = WAITING) /\
  (place_of (qstate m) = Ready <-> qstate m = READY (correlated (mm_msg m))).
Proof.
  intros (_ & _ & _ & [[Hl ->]|[Hl [->| ->]]]); destruct (correlated (mm_msg m)); split_and!; split; done.
Qed.

(** A message that has been moved. *)
Lemma moved_wf s p m st s' :
  wf_but p s -> moved s p m st s' -> fine (set_state (fun _ => st) m) ->
  wf s' /\ abs s' = a_put p (mm_msg m) (place_of st) (abs s).
Proof.
  intros [_ Hf] (Hc & [c Em] & [Ec Es]) Hm. split.
  - split; [done|]. intros q mq Eq. rewrite Em in Eq. destruct (decide (q = p)) as [->|Hne].
    + rewrite lookup_insert_eq in Eq. by injection Eq as <-.
    + rewrite lookup_insert_ne in Eq by done. by apply (Hf q).
  - unfold abs, a_put. cbn. by rewrite Em, fmap_insert, Es, Ec.
Qed.

(** A change of the message itself. *)
Lemma touch_ok s p m f :
  wf_but p s -> msgs s !! p = Some m -> alike m (f m) -> mm_corhash (f m) = mm_corhash m -> qstate (f m) = qstate m ->
  qruns (upd_msg p f) s (fun _ s' => wf_but p s' /\ msgs s' = <[p := f m]> (msgs s) /\ keeps s s').
Proof.
  intros [H Hf] E Ha Hl Hs. eapply qruns_mono; [by apply (work_msg s s p (bits s) m), Hl; [by apply work_start|]|].
  intros [] s' W. pose proof W as (_ & Em & K). split_and!; [split|done|done].
  - eapply work_bits; [done|done|]. intros l. by rewrite Hs, (bits_at _ _ _ _ E).
  - intros q mq Eq Hne. rewrite Em, lookup_insert_ne in Eq by done. by apply (Hf q).
Qed.

Lemma abs_lookup s p : a_msgs (abs s) !! p = a_entry <$> msgs s !! p.
Proof. apply lookup_fmap. Qed.

Lemma a_find_ok s msgid : wf s -> G_msgid_hash s !! tmq_msgid_serialize msgid = a_find msgid (abs s).
Proof.
  intros [(lay & H & _) Hf]. unfold a_find.
  assert (Hk : forall p x, (p, x) ∈ filter (fun x => tmq_msgid_serialize (hdr_msgid x.2.1) = tmq_msgid_serialize msgid)
    (map_to_list (a_msgs (abs s))) -> G_msgid_hash s !! tmq_msgid_serialize msgid = Some p).
  { intros p x [Hid Hx]%list_elem_of_filter. apply elem_of_map_to_list in Hx. rewrite abs_lookup in Hx.
    apply fmap_Some in Hx as (m & E & ->). apply (l_hash _ _ _ H). exists m. pose proof (Hf p m E) as Hfine.
    split; [done|]. destruct Hfine as (_ & -> & _ & Hst). split; [done|]. rewrite (bits_at _ _ _ _ E).
    destruct (fine_states m (Hf p m E)) as [->|[->|[->| ->]]]; done. }
  destruct (filter _ _) as [|[p x] l] eqn:El; cbn.
  - destruct (G_msgid_hash s !! tmq_msgid_serialize msgid) as [p|] eqn:Eh; [|done].
    apply (l_hash _ _ _ H) in Eh as (m & E & Ek & _). exfalso.
    assert (Hin : (p, a_entry m) ∈ filter (fun x => tmq_msgid_serialize (hdr_msgid x.2.1) = tmq_msgid_serialize msgid)
      (map_to_list (a_msgs (abs s)))); [|rewrite El in Hin; by apply elem_of_nil in Hin].
    apply list_elem_of_filter. destruct (Hf p m E) as (_ & Hid & _). split; [cbn; congruence|].
    apply elem_of_map_to_list. by rewrite abs_lookup, E.
  - apply (Hk p x). by left.
Qed.

(** ** Locks *)

Lemma a_put_put p m m' pl pl' a : a_put p m pl (a_put p m' pl' a) = a_put p m pl a.
Proof. unfold a_put. cbn. by rewrite insert_insert_eq. Qed.

Lemma abs_put s s' p m : msgs s' = <[p := m]> (msgs s) -> keeps s s' -> abs s' = a_put p (mm_msg m) (place_of (qstate m)) (abs s).
Proof. intros Em [Ec Es]. unfold abs, a_put. cbn. by rewrite Em, fmap_insert, Es, Ec. Qed.

Lemma place_free e m : place_of (free_state e m) = a_place e m.
Proof. unfold free_state, a_place. destruct (is_future e m); [done|apply place_ready]. Qed.

Lemma fine_memory e m : fine m -> cor_ok e (mm_msg m) = true -> cor_memory e m.
Proof.
  intros (_ & _ & Hc & _) Hok Hcor. unfold cor_ok in Hok. rewrite Hcor in *. by rewrite Hc.
Qed.

Lemma release_ok {A} e s p m (k : Q A) (P : A -> qspace -> Prop) :
  wf_but p s -> msgs s !! p = Some m -> fine m -> qstate m = LOCKED -> cor_ok e (mm_msg m) = true ->
  (forall s', wf s' -> abs s' = a_put p (set_lock 0 (mm_msg m)) (a_place e (mm_msg m)) (abs s) -> qruns k s' P) ->
  qruns (upd_msg p (set_msg (set_lock 0));; ndrx_infl_mov2cur e p;; k) s P.
Proof.
  intros H E Hm Hst Hc Hk. qstep (touch_ok s p m); [done|done|done|done|done|]. intros _ s1 (H1 & Em & K1).
  set (m1 := set_msg (set_lock 0) m). assert (E1 : msgs s1 !! p = Some m1) by (rewrite Em; apply lookup_insert_eq).
  apply qruns_bind. eapply qruns_mono.
  { apply (mov2cur_ok e s1 p m1 (hdr_qname (mm_msg m))); [apply H1|done|apply Hm|done|]. by apply (fine_memory e m Hm). }
  intros r s2 (_ & Hmv). destruct (moved_wf s1 p m1 _ s2 H1 Hmv) as [H2 Ea].
  - destruct Hm as (F1 & F2 & F3 & _). split_and!; try done. right. split; [done|]. cbn. unfold free_state, is_future. cbn.
    destruct (_ && _); auto.
  - apply Hk; [done|]. rewrite Ea, (abs_put s s1 p m1 Em K1), a_put_put. cbn [mm_msg set_msg m1]. by rewrite place_free.
Qed.

Lemma acquire_ok {A} e s p m (k : Q A) (P : A -> qspace -> Prop) :
  wf s -> msgs s !! p = Some m -> qstate m <> LOCKED -> gettid e <> 0 ->
  (forall s', wf s' -> abs s' = a_put p (set_lock (gettid e) (mm_msg m)) Locked (abs s) -> qruns k s' P) ->
  qruns (upd_msg p (set_msg (set_lock (gettid e)));; ndrx_infl_mov2infl p;; k) s P.
Proof.
  intros H E Hst Ht Hk. pose proof H as [_ Hf]. pose proof (Hf p m E) as Hm.
  qstep (touch_ok s p m); [by apply wf_wf_but|done|done|done|done|]. intros _ s1 (H1 & Em & K1).
  set (m1 := set_msg (set_lock (gettid e)) m). assert (E1 : msgs s1 !! p = Some m1) by (rewrite Em; apply lookup_insert_eq).
  apply qruns_bind. eapply qruns_mono.
  { apply (mov2infl_ok s1 p m1 (hdr_qname (mm_msg m))); [apply H1|done|apply Hm|]. cbn. pose proof (fine_states m Hm). tauto. }
  intros r s2 Hmv. destruct (moved_wf s1 p m1 _ s2 H1 Hmv) as [H2 Ea].
  - destruct Hm as (F1 & F2 & F3 & _). split_and!; try done. by left.
  - apply Hk; [done|]. by rewrite Ea, (abs_put s s1 p m1 Em K1), a_put_put.
Qed.
