(* ===== verification/QExec.v ===== *)
(** * The critical sections refine their specification

    One lemma for each operation of [QSpec]: in a well-formed memory it returns, with the
    answer of the specification, and leaves a well-formed memory. *)

From stdpp Require Import gmap.
From S2P Require Import Prelude Base64 RbTree RbDelete RbTreeOk QSpace QForest QCore QOps QSpec.

Local Open Scope Z_scope.

(** ** The operations *)

Definition refines (o : op) : Prop := forall s r a',
  wf s -> spec o (abs s) = Some (r, a') -> qruns (exec o) s (fun r' s' => r' = r /\ wf s' /\ abs s' = a').

Lemma stats_entry s qn : (stat_of <$> G_qhash s) !! qn = stat_of <$> G_qhash s !! qn.
Proof. apply lookup_fmap. Qed.

(** A change of the statistics. *)
Lemma count_ok s qn q f :
  wf s -> G_qhash s !! qn = Some q ->
  qruns (upd_qhash qn (set_stats f)) s (fun _ s' => wf s' /\ msgs s' = msgs s /\ abs s' = a_count qn f (abs s)).
Proof.
  intros [H Hf] Hq. eapply qruns_mono; [by eapply core_stats|]. intros _ s' (H' & Em & Ec & Es). split_and!; [|done|].
  - split; [|rewrite Em; done]. eapply core_ext; [|exact H']. intros p m l _. unfold bits. by rewrite Em.
  - unfold abs, a_count. cbn. by rewrite Em, Ec, Es.
Qed.

Lemma exec_add_done qn : refines (OAddDone qn).
Proof.
  intros s r a' H E. cbn in E. rewrite stats_entry in E. destruct (G_qhash s !! qn) as [q|] eqn:Hq; [|done].
  cbn in E. simplify_eq. qstep count_ok; [done|done|]. intros _ s' (H' & _ & Ea). by apply qruns_ret.
Qed.

Lemma exec_upd_stats qn sd fd : refines (OUpdStats qn sd fd).
Proof.
  intros s r a' H E. cbn [spec] in E. simplify_eq. apply qruns_bind. unfold tmq_update_q_stats. apply qruns_bind, qruns_gets, qruns_bind.
  destruct (G_qhash s !! qn) as [q|] eqn:Hq.
  - eapply qruns_mono; [by eapply count_ok|]. intros _ s' (H' & _ & Ea). by do 2 apply qruns_ret.
  - do 3 apply qruns_ret. split_and!; [done|done|]. unfold abs, a_count. cbn. f_equal. symmetry. apply map_eq. intros qn'.
    destruct (decide (qn' = qn)) as [->|]; [|by rewrite lookup_alter_ne]. by rewrite lookup_alter_eq, stats_entry, Hq.
Qed.

Lemma abs_entry s p x : a_msgs (abs s) !! p = Some x -> exists m, msgs s !! p = Some m /\ x = a_entry m.
Proof. rewrite abs_lookup. intros (m & E & ->)%fmap_Some. eauto. Qed.

Lemma wf_fine s p m : wf s -> msgs s !! p = Some m -> fine m.
Proof. intros [_ H]. apply H. Qed.

(** A message is removed and freed. *)
Lemma undo_ok s p m :
  wf s -> msgs s !! p = Some m ->
  qruns (ndrx_infl_delmsg p;; free_msg p) s (fun _ s' => wf s' /\ abs s' = a_delete p (abs s)).
Proof.
  intros H E. pose proof (wf_fine _ _ _ H E) as Hm. destruct H as [Hc Hf].
  eapply qruns_mono; [apply (remove_ok s p m Hc E)|].
  { right. split; [destruct Hm as [-> _]; by eexists|by apply fine_states]. }
  intros _ s' (H' & Em & [Ec Es]). split.
  - split; [done|]. intros q mq Eq. rewrite Em in Eq. apply lookup_delete_Some in Eq as [_ Eq]. by apply (Hf q).
  - unfold abs, a_delete. cbn. by rewrite Em, fmap_delete, Es, Ec.
Qed.

Lemma exec_add_undo p : refines (OAddUndo p).
Proof.
  intros s r a' H E. cbn [spec] in E. destruct (a_msgs (abs s) !! p) as [x|] eqn:Ex; [|done]. simplify_eq.
  destruct (abs_entry _ _ _ Ex) as (m & Em & ->). qstep undo_ok; [done|done|]. intros _ s' [H' Ea]. by apply qruns_ret.
Qed.

Lemma spec_unlock_inv e p f s a' : spec_unlock e p f (abs s) = Some a' -> wf s -> exists m,
  msgs s !! p = Some m /\ fine m /\ qstate m = LOCKED /\ cor_ok e (mm_msg m) = true /\
  a' = a_put p (set_lock 0 (f (mm_msg m))) (a_place e (mm_msg m)) (abs s).
Proof.
  unfold spec_unlock. intros Hs H. destruct (a_msgs (abs s) !! p) as [[m0 pl]|] eqn:Ex; [|done].
  destruct (abs_entry _ _ _ Ex) as (m & Em & [= -> ->]). pose proof (wf_fine _ _ _ H Em) as Hm.
  destruct (place_of (qstate m)) eqn:Ep; try done. destruct (cor_ok e (mm_msg m)) eqn:Ec; [|done]. cbn in Hs. simplify_eq.
  exists m. split_and!; try done. by apply (fine_place m Hm).
Qed.

Lemma exec_take_undo e p : refines (OTakeUndo e p).
Proof.
  intros s r a' H E. cbn [spec] in E. apply bind_Some_inv in E as (a1 & E1 & E). simplify_eq.
  destruct (spec_unlock_inv _ _ _ _ _ E1 H) as (m & Em & Hm & Hst & Hc & ->).
  apply qruns_bind. unfold dequeue_undo. eapply release_ok; try done; [by apply wf_wf_but|].
  intros s' H' Ea. apply qruns_ret. by apply qruns_ret.
Qed.

Lemma exec_unlock_id e id : refines (OUnlockId e id).
Proof.
  intros s r a' H E. cbn [spec] in E. apply qruns_bind. unfold tmq_unlock_msg_by_msgid. apply qruns_bind, qruns_gets.
  rewrite (a_find_ok s id H). destruct (a_find id (abs s)) as [p|]; [|simplify_eq; by do 2 apply qruns_ret].
  apply bind_Some_inv in E as (a1 & E1 & E). simplify_eq.
  destruct (spec_unlock_inv _ _ _ _ _ E1 H) as (m & Em & Hm & Hst & Hc & ->).
  eapply release_ok; try done; [by apply wf_wf_but|]. intros s' H' Ea. by do 2 apply qruns_ret.
Qed.

Lemma exec_unlock e b : refines (OUnlock e b).
Proof.
  intros s r a' H E. cbn [spec] in E. apply qruns_bind. unfold tmq_unlock_msg.
  destruct (b_command b =? TMQ_STORCMD_DUM); [simplify_eq; by do 2 apply qruns_ret|].
  apply qruns_bind, qruns_gets. rewrite (a_find_ok s (b_msgid b) H).
  destruct (a_find (b_msgid b) (abs s)) as [p|]; [|simplify_eq; by do 2 apply qruns_ret].
  destruct (b_command b =? TMQ_STORCMD_DEL).
  { apply bind_Some_inv in E as (x & Ex & E). simplify_eq. destruct (abs_entry _ _ _ Ex) as (m & Em & ->).
    unfold tmq_remove_msg. apply qruns_bind, qruns_bind. eapply qruns_get_msg; [done|]. apply qruns_bind, qruns_gets.
    destruct (G_qhash s !! hdr_qname (mm_msg m)) as [q|] eqn:Hq.
    - qstep count_ok; [done|done|]. intros _ s1 (H1 & Em1 & Ea1). rewrite <-Em1 in Em.
      eapply qruns_mono; [by eapply undo_ok|]. intros _ s2 [H2 Ea2]. do 2 apply qruns_ret. split_and!; [done|done|]. by rewrite Ea2, Ea1.
    - exfalso. destruct H as [(lay & Hl & _) Hf]. destruct (Hf p m Em) as [Hqh _].
      destruct (l_owner _ _ _ Hl p m _ Em Hqh) as [[l Hi] _]. unfold infl in Hi. by rewrite Hq in Hi. }
  destruct (b_command b =? TMQ_STORCMD_UPD).
  { apply bind_Some_inv in E as (a1 & E1 & E). simplify_eq.
    destruct (spec_unlock_inv _ _ _ _ _ E1 H) as (m & Em & Hm & Hst & Hc & ->).
    qstep (touch_ok s p m); [by apply wf_wf_but|done|done|done|done|]. intros _ s1 (H1 & Em1 & K1).
    eapply (release_ok e s1 p (set_msg (UPD_MSG b) m)); try done; [rewrite Em1; apply lookup_insert_eq|].
    intros s2 H2 Ea. do 2 apply qruns_ret. split_and!; [done|done|].
    by rewrite Ea, (abs_put s s1 p (set_msg (UPD_MSG b) m) Em1 K1), a_put_put. }
  destruct ((b_command b =? TMQ_STORCMD_NEWMSG) || (b_command b =? TMQ_STORCMD_UNLOCK)); [|simplify_eq; by do 2 apply qruns_ret].
  apply bind_Some_inv in E as (a1 & E1 & E). simplify_eq.
  destruct (spec_unlock_inv _ _ _ _ _ E1 H) as (m & Em & Hm & Hst & Hc & ->).
  eapply release_ok; try done; [by apply wf_wf_but|]. intros s' H' Ea. by do 2 apply qruns_ret.
Qed.

Lemma exec_lock e id : refines (OLock e id).
Proof.
  intros s r a' H E. cbn [spec] in E. apply qruns_bind. unfold tmq_lock_msg. apply qruns_bind, qruns_gets.
  rewrite (a_find_ok s id H). destruct (a_find id (abs s)) as [p|]; [|simplify_eq; by do 2 apply qruns_ret].
  apply bind_Some_inv in E as (x & Ex & E). destruct (abs_entry _ _ _ Ex) as (m & Em & ->).
  destruct (negb (bool_decide ((a_entry m).2 = Locked)) && negb (gettid e =? 0)) eqn:Eg; [|done].
  apply andb_prop in Eg as [Eg1%negb_true_iff%bool_decide_eq_false Eg2%negb_true_iff%Z.eqb_neq]. cbn [when] in E. simplify_eq.
  eapply acquire_ok; try done.
  - intros Hst. apply Eg1. by apply (fine_place m (wf_fine _ _ _ H Em)).
  - intros s' H' Ea. by do 2 apply qruns_ret.
Qed.

Lemma exec_take_id e id : refines (OTakeId e id).
Proof.
  intros s r a' H E. cbn [spec] in E. apply qruns_bind. unfold dequeue_id_begin. apply qruns_bind, qruns_gets.
  rewrite (a_find_ok s id H). destruct (a_find id (abs s)) as [p|]; [|simplify_eq; by do 2 apply qruns_ret].
  apply bind_Some_inv in E as (x & Ex & E). destruct (abs_entry _ _ _ Ex) as (m & Em & ->). cbn [a_entry fst] in E.
  apply qruns_bind. eapply qruns_get_msg; [done|]. destruct (Z.eqb_spec (lockthreadid (mm_msg m)) 0) as [Hl|Hl]; cbn [negb].
  - destruct (Z.eqb_spec (gettid e) 0) as [|Ht]; [done|]. cbn in E. simplify_eq. eapply acquire_ok; try done.
    + destruct (fine_place m (wf_fine _ _ _ H Em)) as (F1 & F2 & _). intros Hst. by apply F2, F1 in Hst.
    + intros s' H' Ea. by do 2 apply qruns_ret.
  - simplify_eq. by do 2 apply qruns_ret.
Qed.

(** ** Messages whose time has come *)

Lemma fut_member s qn p m : wf s ->
  member s (bits s) (TFut qn) p m <-> msgs s !! p = Some m /\ hdr_qname (mm_msg m) = qn /\ qstate m = WAITING.
Proof.
  intros H. unfold member. cbn. split.
  - intros (E & Eq & Hb & _). pose proof (wf_fine _ _ _ H E) as Hm. pose proof Hm as (Hq & _). split; [done|].
    split; [congruence|]. rewrite (bits_at _ _ _ _ E) in Hb. by destruct (fine_states m Hm) as [Hs|[Hs|[Hs|Hs]]]; rewrite Hs in Hb.
  - intros (E & <- & Hs). destruct (wf_fine _ _ _ H E) as (Hq & _). split_and!; try done. by rewrite (bits_at _ _ _ _ E), Hs.
Qed.

Definition waiting (qn : list Z) (x : Z * tmq_memmsg_t) : Prop := hdr_qname (mm_msg x.2) = qn /\ qstate x.2 = WAITING.

#[export] Instance waiting_dec qn x : Decision (waiting qn x).
Proof. unfold waiting. apply _. Defined.

(** What is not due stays. *)
Lemma promote_idle e qn s : wf s ->
  (forall p m, msgs s !! p = Some m -> waiting qn (p, m) -> now e < deq_time (mm_msg m)) ->
  a_promote e qn (abs s) = abs s.
Proof.
  intros H Hd. unfold a_promote. cbn. unfold abs. f_equal. apply map_eq. intros p. rewrite !lookup_fmap.
  destruct (msgs s !! p) as [m|] eqn:E; [|done]. cbn. f_equal. unfold promote. rewrite bool_decide_eq_false_2; [done|].
  cbn. intros (Hq & Hp & Ht). assert (now e < deq_time (mm_msg m)); [|lia]. apply (Hd p m E). split; [done|].
  by apply (fine_place m (wf_fine _ _ _ H E)).
Qed.

(** One of them may go first. *)
Lemma promote_step e p m a :
  a_msgs a !! p = Some (m, Waiting) -> deq_time m <= now e ->
  a_promote e (hdr_qname m) (a_put p m Ready a) = a_promote e (hdr_qname m) a.
Proof.
  intros E Ht. unfold a_promote, a_put. cbn. f_equal. apply map_eq. intros q. rewrite !lookup_fmap.
  destruct (decide (q = p)) as [->|]; [|by rewrite lookup_insert_ne]. rewrite lookup_insert_eq, E. cbn. f_equal.
  unfold promote. cbn. rewrite bool_decide_eq_false_2 by naive_solver. by rewrite bool_decide_eq_true_2.
Qed.

Lemma promotable_spec e qn a : promotable e qn a = true <-> forall p m,
  a_msgs a !! p = Some (m, Waiting) -> hdr_qname m = qn -> deq_time m <= now e -> cor_ok e m = true.
Proof.
  unfold promotable. rewrite forallb_forall. split.
  - intros Hall p m E Hq Ht. specialize (Hall (p, (m, Waiting))). rewrite <-list_elem_of_In, elem_of_map_to_list in Hall.
    specialize (Hall E). cbn in Hall. by rewrite bool_decide_eq_true_2 in Hall.
  - intros Hall [p [m pl]] Hin. rewrite <-list_elem_of_In, elem_of_map_to_list in Hin. cbn. case_bool_decide as Hc; [|done].
    destruct Hc as (Hq & -> & Ht). by apply (Hall p).
Qed.

Lemma due_le m m' : timely m = true -> timely m' = true -> due m <= due m' -> deq_time m <= deq_time m'.
Proof. intros (? & ? & ? & _)%timely_spec (? & ? & ? & _)%timely_spec. unfold due, stamp. lia. Qed.

Lemma wf_timely s p m : wf s -> msgs s !! p = Some m -> timely (mm_msg m) = true.
Proof.
  intros [(lay & H & _) Hf] E. destruct (Hf p m E) as [Hq _]. by destruct (l_owner _ _ _ H p m _ E Hq).
Qed.

Lemma fut2cur_loop_ok e qn f s :
  wf s -> is_Some (infl qn s) -> promotable e qn (abs s) = true -> (size (filter (waiting qn) (msgs s)) < f)%nat ->
  qruns (fut2cur_loop f e qn) s (fun _ s' => wf s' /\ abs s' = a_promote e qn (abs s) /\ keeps s s').
Proof.
  revert s. induction f as [|f IH]; intros s H Hi Hp Hf; [lia|]. cbn [fut2cur_loop].
  qstep (core_end false s (bits s) (TFut qn)); [apply H|by apply infl_root|].
  intros a s' [-> [[-> Hn]|(p & m & -> & Hm & Hmin)]].
  { cbn. apply qruns_ret. split_and!; [done| |done]. symmetry. apply promote_idle; [done|].
    intros p m E [Hq Hs]. destruct (Hn p m). by apply fut_member. }
  apply fut_member in Hm as (E & <- & Hst); [|done]. cbn [handle]. set (qn := hdr_qname (mm_msg m)) in *.
  assert (p <> NULL) as Hp0. { destruct H as [(lay & Hl & _) _]. pose proof (l_addr _ _ _ Hl p m E). unfold NULL. lia. }
  rewrite (proj2 (Z.eqb_neq p NULL) Hp0). apply qruns_bind. eapply qruns_get_msg; [done|].
  destruct (Z.leb_spec (deq_time (mm_msg m)) (now e)) as [Ht|Ht].
  - pose proof (wf_fine _ _ _ H E) as Hfine. pose proof Hfine as (Hq & _). fold qn in Hq. apply qruns_bind.
    eapply qruns_need; [exact Hq|].
    assert (Ea : a_msgs (abs s) !! p = Some (mm_msg m, Waiting)) by (rewrite abs_lookup, E; cbn; unfold a_entry; by rewrite Hst).
    assert (Hc : cor_ok e (mm_msg m) = true) by by eapply promotable_spec.
    destruct (fut_cur_ok e s p m qn) as (r & s1 & E1 & -> & Hmv); [apply H|done|done|done|by apply fine_memory|].
    destruct (moved_wf s p m _ s1 (wf_wf_but _ _ H) Hmv) as [H1 Ea1].
    { destruct Hfine as (F1 & F2 & F3 & F4). split_and!; try done. right. split; [|by right]. cbn.
      destruct F4 as [[_ F4]|[F4 _]]; [by rewrite Hst in F4|done]. }
    rewrite place_ready in Ea1. pose proof Hmv as (_ & [c Em1] & K1).
    destruct (IH s1 H1) as (r & s2 & E2 & H2 & Ea2 & K2).
    { by eapply keeps_queue. }
    { apply promotable_spec. intros q mq Eq. rewrite Ea1 in Eq. cbn in Eq. destruct (decide (q = p)) as [->|Hne].
      - by rewrite lookup_insert_eq in Eq.
      - rewrite lookup_insert_ne in Eq by done. by apply (proj1 (promotable_spec e qn (abs s)) Hp q). }
    { rewrite Em1. rewrite map_filter_insert_False by (intros [_ Hw]; cbn in Hw; by destruct (correlated (mm_msg m))).
      rewrite map_filter_delete. assert (Hin : filter (waiting qn) (msgs s) !! p = Some m) by by apply map_lookup_filter_Some.
      rewrite map_size_delete_Some by (by eexists).
      assert (size (filter (waiting qn) (msgs s)) <> 0%nat) by (apply (map_size_ne_0_lookup_2 _ p); by eexists). lia. }
    exists r, s2. split; [|split_and!; [done| |by etransitivity]].
    + unfold mbind, Q_bind in E1 |- *. destruct (tree_delete (TFut qn) p s) as [[? s3]|]; [|done].
      destruct (upd_msg p _ s3) as [[? s4]|]; [|done]. rewrite E1. exact E2.
    + rewrite Ea2, Ea1. by apply promote_step.
  - apply qruns_ret. split_and!; [done| |done]. symmetry. apply promote_idle; [done|]. intros q mq Eq Hw.
    assert (member s (bits s) (TFut qn) q mq) as Hmq by by apply fut_member. apply Hmin in Hmq. cbn in Hmq.
    apply due_le in Hmq; [lia|by eapply wf_timely..].
Qed.

(** ** Taking a message *)

Lemma best_spec lifo l x : best lifo l = Some x ->
  x ∈ l /\ forall y, y ∈ l -> if lifo then stamp y.2 <= stamp x.2 else stamp x.2 <= stamp y.2.
Proof.
  revert x. induction l as [|z l IH]; intros x; [done|]. cbn [best]. destruct (best lifo l) as [y|] eqn:Eb.
  - intros [= <-]. destruct (IH y eq_refl) as [Hy Hall]. destruct (if lifo then _ else _) eqn:Ec.
    + split; [by left|]. intros w [->|Hw]%elem_of_cons; [destruct lifo; lia|]. specialize (Hall w Hw). destruct lifo; lia.
    + split; [by right|]. intros w [->|Hw]%elem_of_cons; [destruct lifo; lia|]. by apply Hall.
  - intros [= <-]. split; [by left|]. intros w [->|Hw]%elem_of_cons; [destruct lifo; lia|].
    destruct l as [|y l]; [by apply elem_of_nil in Hw|]. cbn in Eb. by destruct (best lifo l).
Qed.

Lemma best_none lifo l : best lifo l = None <-> l = [].
Proof. destruct l as [|x l]; [done|]. cbn. by destruct (best lifo l). Qed.

Lemma elem_of_ready qn c a p m :
  (p, m) ∈ ready qn c a <-> a_msgs a !! p = Some (m, Ready) /\ hdr_qname m = qn /\ has_corrid c m.
Proof.
  unfold ready. rewrite list_elem_of_omap. split.
  - intros ([q [m' pl]] & Hin & Hx). apply elem_of_map_to_list in Hin. cbn in Hx. case_bool_decide as Hc; [|done].
    simplify_eq. destruct Hc as (Hq & Hpl & Hcor). cbn in Hpl. by subst pl.
  - intros (E & Hq & Hc). exists (p, (m, Ready)). rewrite elem_of_map_to_list. split; [done|]. cbn. by rewrite bool_decide_eq_true_2.
Qed.

Definition take_tree (qn : list Z) (c : option (list Z)) : tree_id :=
  match c with Some c => TCor qn c | None => TCur qn end.

Lemma take_key qn c : msg_key (take_tree qn c) = stamp.
Proof. by destruct c. Qed.

(** What can be taken is what is in the tree. *)
Lemma ready_member s qn c p m : wf s ->
  member s (bits s) (take_tree qn c) p m <-> msgs s !! p = Some m /\ (p, mm_msg m) ∈ ready qn c (abs s).
Proof.
  intros H. rewrite elem_of_ready. unfold member. split.
  - intros (E & Hq & Hb & Hc). pose proof (wf_fine _ _ _ H E) as Hm. pose proof Hm as (Hq' & _ & Hcor & _).
    rewrite (bits_at _ _ _ _ E) in Hb. rewrite abs_lookup, E. cbn. unfold a_entry.
    destruct (fine_place m Hm) as (_ & _ & _ & Hr). destruct (fine_states m Hm) as [Hs|[Hs|[Hs|Hs]]]; rewrite Hs in Hb;
      destruct c as [c|]; cbn in Hb, Hc, Hq; try done; rewrite Hs.
    + split_and!; [done|done|congruence|done].
    + rewrite Hs in Hr. assert (correlated (mm_msg m) = true) as Hco.
      { destruct (correlated (mm_msg m)); [done|]. pose proof (proj1 Hr eq_refl). done. }
      rewrite Hco in Hcor. split_and!; [done|done|congruence|]. split; [done|congruence].
    + split_and!; [done|done|congruence|done].
  - intros (E & Ea & Hq & Hc). pose proof (wf_fine _ _ _ H E) as Hm. pose proof Hm as (Hq' & _ & Hcor & _).
    rewrite abs_lookup, E in Ea. cbn in Ea. injection Ea as Hpl. apply (fine_place m Hm) in Hpl.
    rewrite (bits_at _ _ _ _ E), Hpl. destruct c as [c|]; cbn in *.
    + destruct Hc as [Hc Hs]. rewrite Hc in *. split_and!; [done|congruence|done|congruence].
    + split_and!; [done|congruence|by destruct (correlated (mm_msg m))|done].
Qed.

Lemma cor_exists s qn c : wf s -> is_Some (tree_root (TCor qn c) s) <-> ready qn (Some c) (abs s) <> [].
Proof.
  intros H. pose proof H as [(lay & Hl & Ht) Hf]. split.
  - intros Hr. apply Ht in Hr. destruct (lay (TCor qn c)) as [|a l] eqn:El; [done|]. intros Hn.
    assert (Ha : a ∈ lay (TCor qn c)) by (rewrite El; by left). destruct (in_member _ _ _ _ _ Hl Ha) as (p & m & _ & Hm).
    apply (ready_member s qn (Some c)) in Hm as [_ Hm]; [|done]. rewrite Hn in Hm. by apply elem_of_nil in Hm.
  - intros Hne. destruct (ready qn (Some c) (abs s)) as [|[p m0] l] eqn:El; [done|].
    assert (Hin : (p, m0) ∈ ready qn (Some c) (abs s)) by (rewrite El; by left). pose proof Hin as (Ea & _)%elem_of_ready.
    destruct (abs_entry _ _ _ Ea) as (m & E & [= -> _]).
    assert (Hm : member s (bits s) (TCor qn c) p m) by by apply (ready_member s qn (Some c)).
    apply (member_in _ _ _ _ _ _ Hl) in Hm. destruct (l_forest _ _ _ Hl) as (_ & Hfo & _). specialize (Hfo (TCor qn c)).
    destruct (tree_root (TCor qn c) s); [by eexists|]. rewrite Hfo in Hm. by apply elem_of_nil in Hm.
Qed.

Lemma ready_promote e qn c a : ready qn c a <> [] -> ready qn c (a_promote e qn a) <> [].
Proof.
  intros Hne Hn. destruct (ready qn c a) as [|[p m] l] eqn:El; [done|].
  assert (Hin : (p, m) ∈ ready qn c a) by (rewrite El; by left). apply elem_of_ready in Hin as (E & Hq & Hc).
  assert (Hin : (p, m) ∈ ready qn c (a_promote e qn a)); [|rewrite Hn in Hin; by apply elem_of_nil in Hin].
  apply elem_of_ready. split; [|done]. cbn. rewrite lookup_fmap, E. cbn. unfold promote. cbn.
  by rewrite bool_decide_eq_false_2 by naive_solver.
Qed.

Definition from_tree (c : option (list Z)) (a : Z) : Z := match c with Some _ => TMQ_COR_GETMSG a | None => a end.

(** The next message is the oldest or newest of those that can be taken. *)
Lemma next_ok lifo s qn c :
  wf s -> is_Some (tree_root (take_tree qn c) s) ->
  qruns (next_msg lifo qn c) s (fun a s' => s' = s /\
    (ready qn c (abs s) = [] /\ a = from_tree c NULL \/
     exists m, best lifo (ready qn c (abs s)) = Some (a, mm_msg m) /\ msgs s !! a = Some m)).
Proof.
  intros H Hr. destruct (core_end lifo s (bits s) (take_tree qn c)) as (a & s' & E & -> & Ha); [apply H|done|].
  assert (Hrun : exists b, next_msg lifo qn c s = Some (b, s) /\ b = from_tree c a).
  { unfold next_msg, take_tree in *. destruct c as [c|].
    - exists (TMQ_COR_GETMSG a). split; [|done]. unfold mbind, Q_bind. destruct lifo; by rewrite E.
    - exists a. split; [|done]. by destruct lifo. }
  destruct Hrun as (b & Eb & ->). eexists _, s. split; [exact Eb|]. split; [done|].
  destruct Ha as [[-> Hn]|(p & m & -> & Hm & Hmin)].
  - left. split; [|done]. destruct (ready qn c (abs s)) as [|[p m0] l] eqn:El; [done|]. exfalso.
    assert (Hin : (p, m0) ∈ ready qn c (abs s)) by (rewrite El; by left). pose proof Hin as (Ea & _)%elem_of_ready.
    destruct (abs_entry _ _ _ Ea) as (m & Em & [= -> _]). apply (Hn p m). by apply ready_member.
  - right. assert (from_tree c (handle (take_tree qn c) p) = p) as ->.
    { destruct c; [|done]. apply getmsg_handle. }
    pose proof Hm as (E' & Hq & _). pose proof Hm as [_ Hrd]%ready_member; [|done]. exists m. split; [|done].
    destruct (best lifo (ready qn c (abs s))) as [[q mq]|] eqn:Ebest.
    2: { apply best_none in Ebest. rewrite Ebest in Hrd. by apply elem_of_nil in Hrd. }
    destruct (best_spec _ _ _ Ebest) as [Hin Hall]. specialize (Hall _ Hrd). pose proof Hin as (Ea & _)%elem_of_ready.
    destruct (abs_entry _ _ _ Ea) as (mm & Em & [= -> _]).
    assert (Hmq : member s (bits s) (take_tree qn c) q mm) by by apply ready_member. pose proof Hmq as (_ & Hq2 & _).
    apply Hmin in Hmq. rewrite take_key in Hmq. cbn in Hall. destruct H as [(lay & Hl & _) _].
    destruct (decide (p = q)) as [->|Hne]; [congruence|].
    destruct (l_keys _ _ _ Hl p q m mm _ E' Em Hq Hq2 Hne). destruct lifo; lia.
Qed.

Lemma conf_ok s qn (P : option tmq_qconfig_t -> qspace -> Prop) :
  P (a_conf_of qn (abs s)) s -> qruns (tmq_qconf_get_with_default qn) s P.
Proof.
  intros HP. unfold tmq_qconf_get_with_default. apply qruns_bind, qruns_gets. unfold a_conf_of in HP. cbn in HP.
  destruct (G_qconf s !! qn); [by apply qruns_ret|by apply qruns_gets].
Qed.

Lemma size_waiting qn (M : msg_mem) : (size (filter (waiting qn) M) <= size M)%nat.
Proof. apply map_size_filter. Qed.

Lemma take_run e qn c lifo s :
  wf s -> is_Some (infl qn s) -> (c = None \/ ready qn c (abs s) <> []) ->
  promotable e qn (abs s) = true -> gettid e <> 0 ->
  qruns (ndrx_infl_fut2cur e qn;;
         node ← next_msg lifo qn c;
         if node =? NULL then mret (M:=Q) (inr QMENOMSG)
         else upd_msg node (set_msg (set_lock (gettid e)));; ndrx_infl_mov2infl node;; mret (M:=Q) (inl node)) s
    (fun r s' => wf s' /\ let a := a_promote e qn (abs s) in
       match best lifo (ready qn c a) with
       | None => r = inr QMENOMSG /\ abs s' = a
       | Some (p, m) => r = inl p /\ abs s' = a_put p (set_lock (gettid e) m) Locked a
       end).
Proof.
  intros H Hi Hc Hp Ht. apply qruns_bind. unfold ndrx_infl_fut2cur. apply qruns_bind, qruns_gets.
  eapply qruns_mono; [apply fut2cur_loop_ok; [done..|]; pose proof (size_waiting qn (msgs s)); lia|].
  intros _ s1 (H1 & Ea & K). rewrite <-Ea. apply qruns_bind. eapply qruns_mono.
  { apply (next_ok lifo s1 qn c H1). destruct c as [c|]; cbn; [|by eapply infl_root, keeps_queue].
    apply cor_exists; [done|]. rewrite Ea. apply ready_promote. by destruct Hc. }
  intros a s' [-> [[Hn ->]|(m & Hb & Em)]].
  - rewrite Hn. cbn. destruct c as [c|]; [|by apply qruns_ret]. exfalso. destruct Hc as [|Hc]; [done|].
    rewrite Ea in Hn. by apply ready_promote in Hn.
  - rewrite Hb. assert (a <> NULL) as Ha.
    { destruct H1 as [(lay & Hl & _) _]. pose proof (l_addr _ _ _ Hl a m Em). unfold NULL. lia. }
    rewrite (proj2 (Z.eqb_neq _ _) Ha). eapply acquire_ok; try done.
    + destruct (best_spec _ _ _ Hb) as [Hin _]. apply elem_of_ready in Hin as (Er & _). rewrite abs_lookup, Em in Er.
      cbn in Er. injection Er as Er. intros Hst. by rewrite Hst in Er.
    + intros s2 H2 Ea2. by apply qruns_ret.
Qed.

Lemma exec_take e qn c : refines (OTake e qn c).
Proof.
  intros s r a' H E. cbn [spec] in E. apply bind_Some_inv in E as ([r0 a0] & E0 & E). cbn in E. simplify_eq.
  unfold spec_take in E0. cbn [exec]. apply qruns_bind. unfold dequeue_begin. apply qruns_bind, conf_ok.
  destruct (a_conf_of qn (abs s)) as [qc|]; [|simplify_eq; by do 2 apply qruns_ret].
  apply qruns_bind, qruns_gets. cbn [a_stats abs] in E0. rewrite stats_entry in E0.
  destruct (G_qhash s !! qn) as [q|] eqn:Hq; cbn in E0; [|simplify_eq; by do 2 apply qruns_ret].
  assert (Hi : is_Some (infl qn s)) by (unfold infl; rewrite Hq; by eexists).
  apply qruns_bind. apply (qruns_mono _ _ (fun found s' => s' = s /\ found = bool_decide (~ (c <> None /\ ready qn c (abs s) = [])))).
  { destruct c as [c|]; [|apply qruns_ret; split; [done|]; symmetry; apply bool_decide_eq_true; tauto].
    unfold tmq_cor_find. apply qruns_bind, qruns_bind, qruns_gets. eapply qruns_need; [done|]. apply qruns_ret. split; [done|].
    apply bool_decide_ext. pose proof (cor_exists s qn c H) as Hce. unfold tree_root in Hce. cbn in Hce. rewrite Hq in Hce.
    cbn in Hce. rewrite Hce. split; [tauto|]. intros Hn Hr. apply Hn. done. }
  intros found s' [-> ->]. destruct (decide (c <> None /\ ready qn c (abs s) = [])) as [Hc|Hc].
  - rewrite bool_decide_eq_true_2 in E0 by done. rewrite bool_decide_eq_false_2 by tauto. cbn. simplify_eq. by do 2 apply qruns_ret.
  - rewrite bool_decide_eq_false_2 in E0 by done. rewrite bool_decide_eq_true_2 by done. cbn [negb].
    destruct (promotable e qn (abs s) && negb (gettid e =? 0)) eqn:Eg; [|done]. cbn [when] in E0.
    apply andb_prop in Eg as [Hp Ht%negb_true_iff%Z.eqb_neq]. eapply qruns_mono.
    { apply (take_run e qn c (TMQ_MODE_LIFO =? mode qc) s H Hi); [|done|done]. destruct c; [right|by left]. intros Hr. by apply Hc. }
    intros r s1 (H1 & Hr). cbn zeta in Hr. apply qruns_ret. destruct (best _ _) as [[p m]|]; destruct Hr as [-> Ea]; by simplify_eq.
Qed.

(** ** Adding a message *)

Lemma apart_spec p s : apart p (abs s) = true -> 1 < p /\ forall q m, msgs s !! q = Some m -> p + 64 <= q \/ q + 64 <= p.
Proof.
  unfold apart. intros [H1 H2]%andb_prop. split; [lia|]. intros q m E. rewrite forallb_forall in H2.
  specialize (H2 (q, a_entry m)). rewrite <-list_elem_of_In, elem_of_map_to_list, abs_lookup, E in H2. specialize (H2 eq_refl).
  cbn in H2. lia.
Qed.

(** The message at [p] is allocated, and that is all that has happened since [s0]. *)
Definition loose (s0 : qspace) (p : Z) (m : tmq_memmsg_t) (s : qspace) : Prop :=
  wf_but p s /\ msgs s = <[p := m]> (msgs s0) /\ qstate m = 0 /\ mm_qhash m = None /\ G_qconf s = G_qconf s0 /\
  G_qhash s = G_qhash s0 /\ G_msgid_hash s = G_msgid_hash s0.

Lemma new_msg_ok s p :
  wf s -> apart p (abs s) = true -> qruns (new_msg p) s (fun _ s' => msgs s !! p = None /\ loose s p zero_mmsg s').
Proof.
  intros [H Hf] [Hp Ha]%apart_spec. assert (Ep : msgs s !! p = None).
  { destruct (msgs s !! p) as [m|] eqn:E; [|done]. destruct (Ha p m E); lia. }
  eexists tt, _. split; [done|]. split; [done|]. split_and!; try done. split.
  - eapply core_ext; [|eapply (core_loose s _ (bits s) p zero_mmsg H)]; try done.
    + intros q m l E. rewrite (bits_at _ _ _ _ E). cbn in E. unfold bits. destruct (decide (q = p)) as [->|].
      * rewrite lookup_insert_eq in E. injection E as <-. rewrite Ep. by destruct l.
      * rewrite lookup_insert_ne in E by done. by rewrite E.
    + intros l. unfold bits. by rewrite Ep.
    + intros a Ha1 Ha2. cbn. by rewrite !lookup_insert_ne.
    + intros q mq _ Eq. by apply (Ha q mq).
  - intros q m E Hne. cbn in E. rewrite lookup_insert_ne in E by done. by apply (Hf q).
Qed.

Lemma loose_upd s0 p m f s :
  loose s0 p m s -> qstate (f m) = 0 -> mm_qhash (f m) = None -> qruns (upd_msg p f) s (fun _ s' => loose s0 p (f m) s').
Proof.
  intros ([H Hf] & Em & Hst & Hq & Ec & Eq & Eh) Hst' Hq'.
  assert (E : msgs s !! p = Some m) by (rewrite Em; apply lookup_insert_eq).
  destruct (work_loose s p m f H E Hst) as (r & s' & Er & W); [by rewrite Hq'|].
  unfold upd_msg in Er. rewrite E in Er. injection Er as <- <-. eexists tt, _. unfold upd_msg. rewrite E. split; [done|].
  split_and!; try done; [split|].
  - eapply work_bits; [done|done|]. intros l. by rewrite Hst', (bits_at _ _ _ _ E), Hst.
  - intros q mq Eq' Hne. cbn in Eq'. rewrite lookup_insert_ne in Eq' by done. by apply (Hf q).
  - cbn. by rewrite Em, insert_insert_eq.
Qed.

Lemma loose_undo s0 p m s :
  wf s0 -> msgs s0 !! p = None -> loose s0 p m s -> qruns (add_undo p) s (fun _ s' => wf s' /\ abs s' = abs s0).
Proof.
  intros [_ Hf0] Ep ([H Hf] & Em & Hst & _ & Ec & Eq & _).
  eapply qruns_mono; [apply (remove_ok s p m H); [rewrite Em; apply lookup_insert_eq|by left]|].
  intros _ s' (H' & Em' & [Ec' Es']). rewrite Em, delete_insert_id in Em' by done. split.
  - split; [done|]. by rewrite Em'.
  - unfold abs. by rewrite Em', Es', Ec', Ec, Eq.
Qed.

Lemma enterable_spec e m a : enterable e m a = true -> timely m = true /\ cor_ok e m = true /\
  forall p m' pl, a_msgs a !! p = Some (m', pl) -> hdr_qname m' = hdr_qname m -> stamp m <> stamp m'.
Proof.
  unfold enterable. intros [[H1 H2]%andb_prop H3]%andb_prop. split_and!; [done|done|]. intros p m' pl E Hq.
  rewrite forallb_forall in H3. specialize (H3 (p, (m', pl))). rewrite <-list_elem_of_In, elem_of_map_to_list in H3.
  specialize (H3 E). cbn in H3. rewrite bool_decide_eq_true_2 in H3 by done. cbn in H3. lia.
Qed.

Lemma place_new e m : place_of (new_state e m) = if lockthreadid m =? 0 then a_place e m else Locked.
Proof. unfold new_state. destruct (lockthreadid m =? 0); [apply place_free|done]. Qed.

Lemma new_state_fine e m :
  lockthreadid m <> 0 /\ new_state e m = LOCKED \/
  lockthreadid m = 0 /\ (new_state e m = WAITING \/ new_state e m = READY (correlated m)).
Proof.
  unfold new_state, free_state. destruct (Z.eqb_spec (lockthreadid m) 0); [right|by left]. split; [done|].
  destruct (is_future e m); auto.
Qed.

(** The last part of [add_begin]. *)
Lemma enter_ok {A} e qc p s0 s m msg (k : Z -> Q A) (P : A -> qspace -> Prop) :
  wf s0 -> msgs s0 !! p = None -> wf_but p s -> msgs s = <[p := m]> (msgs s0) -> qstate m = 0 -> mm_qhash m = None ->
  mm_msg m = msg -> G_msgid_hash s = G_msgid_hash s0 -> is_Some (infl (hdr_qname msg) s) ->
  enterable e msg (abs s0) = true -> a_find (hdr_msgid msg) (abs s0) = None ->
  (forall s', wf s' -> abs s' = mk_aspace (<[p := (msg, if lockthreadid msg =? 0 then a_place e msg else Locked)]> (a_msgs (abs s0)))
                                 (a_stats (abs s)) (a_conf (abs s)) -> qruns (k EXSUCCEED) s' P) ->
  qruns (upd_msg p (set_ids (tmq_msgid_serialize (hdr_msgid msg))
           (if has (ctl_flags msg) TPQCORRID then tmq_msgid_serialize (corrid msg) else []));;
         ret ← ndrx_infl_addmsg e qc (hdr_qname msg) p; k ret) s P.
Proof.
  intros H0 Ep H Em Hst Hq <- Eh Hi He Hfi Hk. set (msg := mm_msg m) in *.
  change (has (ctl_flags msg) TPQCORRID) with (correlated msg).
  set (f := set_ids _ _). assert (Hl : loose s p m s).
  { split_and!; try done. rewrite insert_id; [done|]. rewrite Em. apply lookup_insert_eq. }
  qstep loose_upd; [done|done|done|]. intros [] s1 (H1 & Em1 & _ & _ & Ec1 & Eq1 & Eh1). set (m1 := f m) in *.
  destruct (enterable_spec _ _ _ He) as (Ht & Hc & Hs).
  apply qruns_bind. eapply qruns_mono.
  { apply (addmsg_ok e s1 p m1 qc (hdr_qname msg)); try done.
    - apply H1.
    - rewrite Em1. apply lookup_insert_eq.
    - unfold infl in *. by rewrite Eq1.
    - intros q mq Hne Eq Hqq. rewrite Em1, lookup_insert_ne, Em, lookup_insert_ne in Eq by done.
      destruct (wf_fine _ _ _ H0 Eq) as [Hqh _]. apply (Hs q _ (place_of (qstate mq))); [by rewrite abs_lookup, Eq|congruence].
    - rewrite Eh1, Eh. cbn. by rewrite (a_find_ok s0 _ H0).
    - intros Hcor. change (mm_msg m1) with msg in Hcor. cbn. rewrite Hcor. unfold cor_ok in Hc. rewrite Hcor in Hc. done. }
  intros r s2 (-> & Hmv). destruct (moved_wf s1 p _ _ s2 H1 Hmv) as [H2 Ea].
  - split_and!; [done|done|done|]. exact (new_state_fine e msg).
  - apply Hk; [done|]. rewrite Ea, place_new. unfold a_put, abs. cbn. rewrite Em1, Em, Eq1, Ec1.
    by rewrite !fmap_insert, !insert_insert_eq.
Qed.

Lemma new_queue_ok e p s qn :
  wf_but p s -> G_qhash s !! qn = None -> calloc_q e = true ->
  qruns (tmq_qhash_new e qn) s (fun b s' => b = true /\ wf_but p s' /\ msgs s' = msgs s /\ G_qconf s' = G_qconf s /\
    stat_of <$> G_qhash s' = <[qn := (0, 0, 0, 0)]> (stat_of <$> G_qhash s) /\ G_msgid_hash s' = G_msgid_hash s /\
    is_Some (infl qn s')).
Proof.
  intros H Eq Hc. eapply qruns_mono; [by apply (core_new_queue e s (bits s) qn); [apply H|..]|].
  intros b s' (-> & H' & Em & Ec & Es & Eh). split; [done|]. split.
  { split; [|rewrite Em; apply H]. eapply core_ext; [|exact H']. intros q m l _. unfold bits. by rewrite Em. }
  split_and!; try done. unfold infl. apply fmap_is_Some.
  assert (Hs : (stat_of <$> G_qhash s') !! qn = Some (0, 0, 0, 0)) by (rewrite Es; apply lookup_insert_eq).
  rewrite stats_entry in Hs. destruct (G_qhash s' !! qn); [by eexists|done].
Qed.

Lemma exec_add e m : refines (OAdd e m).
Proof.
  intros s r a' H E. cbn [spec] in E. unfold spec_add in E. apply qruns_bind. unfold add_enter. apply qruns_bind. unfold add_begin.
  destruct (calloc e) as [p|]; [|simplify_eq; by do 3 apply qruns_ret].
  destruct (apart p (abs s)) eqn:Hap; [|done]. cbn [when] in E. qstep new_msg_ok; [done|done|]. intros [] s1 [Ep L1].
  pose proof L1 as (_ & _ & _ & _ & Ec1 & Eq1 & Eh1). apply qruns_bind, qruns_gets, qruns_bind, conf_ok.
  assert (a_conf_of (hdr_qname m) (abs s1) = a_conf_of (hdr_qname m) (abs s)) as -> by (unfold a_conf_of; cbn; by rewrite Ec1).
  assert (Hfail : forall ret diag s2 m2, loose s p m2 s2 -> Some (RAdd (AFail ret diag (Some p)), abs s) = Some (r, a') ->
    qruns (mret (M:=Q) (AFail ret diag (Some p))) s2 (fun a s' =>
      qruns (match a with AFail _ _ (Some mmsg) => add_undo mmsg;; mret (M:=Q) a | _ => mret (M:=Q) a end) s'
        (fun a s' => qruns (mret (M:=Q) (RAdd a)) s' (fun r' s' => r' = r /\ wf s' /\ abs s' = a')))).
  { intros ret diag s2 m2 L [= <- <-]. apply qruns_ret. qstep loose_undo; [done|done|done|]. intros [] s3 [H3 Ea3].
    by do 2 apply qruns_ret. }
  destruct (a_conf_of (hdr_qname m) (abs s)) as [qc|]; [|by eapply Hfail].
  qstep loose_upd; [done|done|done|]. intros [] s2 L2. pose proof L2 as (H2 & Em2 & Hst2 & Hq2 & Ec2 & Eq2 & Eh2).
  apply qruns_bind, qruns_gets. rewrite Eh2, (a_find_ok s _ H). destruct (a_find (hdr_msgid m) (abs s)) as [p'|] eqn:Hfind.
  { by eapply Hfail. }
  rewrite Eq1. cbn [a_stats abs] in E. rewrite stats_entry in E. destruct (G_qhash s !! hdr_qname m) as [q|] eqn:Hq; cbn in E.
  - destruct (enterable e m (abs s)) eqn:Hent; [|by destruct (calloc_q e)]. cbn in E.
    apply qruns_bind, qruns_ret. cbn [negb].
    eapply (enter_ok e _ p s s2 _ m); try done.
    { unfold infl. rewrite Eq2, Hq. by eexists. }
    intros s3 H3 Ea3. rewrite Z.eqb_refl. do 3 apply qruns_ret.
    assert (E' : Some (RAdd (ABegun p (memonly qc)), mk_aspace (<[p := (m, if lockthreadid m =? 0 then a_place e m else Locked)]> (a_msgs (abs s)))
      (<[hdr_qname m := stat_of q]> (stat_of <$> G_qhash s)) (G_qconf s)) = Some (r, a')) by by destruct (calloc_q e).
    injection E' as <- <-. split_and!; [done|done|]. rewrite Ea3. cbn. rewrite Eq2, Ec2. f_equal. symmetry.
    apply insert_id. by rewrite stats_entry, Hq.
  - destruct (calloc_q e) eqn:Hcq.
    + destruct (enterable e m (abs s)) eqn:Hent; [|done]. cbn in E. injection E as <- <-.
      qstep (new_queue_ok e p s2 (hdr_qname m)); [done|by rewrite Eq2|done|].
      intros b s3 (-> & H3 & Em3 & Ec3 & Es3 & Eh3 & Hi3). cbn [negb].
      eapply (enter_ok e _ p s s3 _ m); try done; [by rewrite Em3|by rewrite Eh3|].
      intros s4 H4 Ea4. rewrite Z.eqb_refl. do 3 apply qruns_ret. split_and!; [done|done|]. rewrite Ea4. cbn.
      by rewrite Es3, Ec3, Eq2, Ec2.
    + apply qruns_bind. unfold tmq_qhash_new. rewrite Hcq. apply qruns_ret. cbn [negb]. by eapply Hfail.
Qed.

(** ** Statistics *)

Lemma read_all_ok s l :
  (forall p, p ∈ l -> is_Some (msgs s !! p)) ->
  qruns (read_all l) s (fun r s' => s' = s /\ Forall2 (fun p m => mm_msg <$> msgs s !! p = Some m) l r).
Proof.
  induction l as [|p l IH]; intros Hl; cbn [read_all]; [by apply qruns_ret|].
  destruct (Hl p) as [m E]; [by left|]. apply qruns_bind. eapply qruns_get_msg; [done|]. apply qruns_bind.
  eapply qruns_mono; [apply IH; intros q Hq; apply Hl; by right|]. intros r s' [-> Hr]. apply qruns_ret. split; [done|].
  constructor; [by rewrite E|done].
Qed.

(** The addresses of the messages of a queue at a place. *)
Definition those (qn : list Z) (pl : mstate) (a : aspace) : list Z :=
  fst <$> filter (fun x => hdr_qname x.2.1 = qn /\ x.2.2 = pl) (map_to_list (a_msgs a)).

Lemma elem_of_those qn pl s p : wf s ->
  p ∈ those qn pl (abs s) <-> exists m, msgs s !! p = Some m /\ hdr_qname (mm_msg m) = qn /\ place_of (qstate m) = pl.
Proof.
  intros H. unfold those. rewrite list_elem_of_fmap. split.
  - intros ([q x] & -> & [Hx Hin]%list_elem_of_filter). rewrite elem_of_map_to_list in Hin.
    destruct (abs_entry _ _ _ Hin) as (m & E & ->). by exists m.
  - intros (m & E & Hq & Hp). exists (p, a_entry m). split; [done|]. apply list_elem_of_filter. split; [done|].
    rewrite elem_of_map_to_list, abs_lookup. by rewrite E.
Qed.

Lemma NoDup_those qn pl a : NoDup (those qn pl a).
Proof.
  unfold those. pose proof (NoDup_fst_map_to_list (a_msgs a)) as N. induction (map_to_list (a_msgs a)) as [|x l IH]; [constructor|].
  cbn in N. apply NoDup_cons in N as [N1 N2]. rewrite filter_cons. destruct (decide _); [|by apply IH].
  cbn. apply NoDup_cons. split; [|by apply IH]. intros (y & Ey & [_ Hy]%list_elem_of_filter)%list_elem_of_fmap.
  apply N1. rewrite Ey. by apply list_elem_of_fmap_2.
Qed.

Lemma place_bits s p m : wf s -> msgs s !! p = Some m ->
  (bits s p LInfl = true <-> place_of (qstate m) = Locked) /\ (bits s p LCur = true <-> place_of (qstate m) = Ready) /\
  (bits s p LFut = true <-> place_of (qstate m) = Waiting).
Proof.
  intros H E. rewrite !(bits_at _ _ _ _ E).
  destruct (fine_states m (wf_fine _ _ _ H E)) as [->|[->|[->| ->]]]; split_and!; split; done.
Qed.

(** The three structures of a queue hold the messages at the three places. *)
Lemma places_ok s qn q lay : wf s -> laid s (bits s) lay -> G_qhash s !! qn = Some q ->
  q_infligh q ≡ₚ those qn Locked (abs s) /\ lay (TCur qn) ≡ₚ those qn Ready (abs s) /\ lay (TFut qn) ≡ₚ those qn Waiting (abs s).
Proof.
  intros H Hl Hq. destruct (l_infl _ _ _ Hl qn (q_infligh q)) as [N Hin]; [unfold infl; by rewrite Hq|].
  assert (Hr : forall t, is_Some (tree_root t s) -> NoDup (lay t)).
  { intros t Ht. destruct (forest_root s lay t) as (r & _ & Hrb); [apply Hl|done|]. by apply rbt_at_addrs in Hrb as (N' & _). }
  assert (Hroot : is_Some (tree_root (TCur qn) s) /\ is_Some (tree_root (TFut qn) s)).
  { apply infl_root. unfold infl. rewrite Hq. by eexists. }
  assert (Hst : forall p m, msgs s !! p = Some m -> mm_qhash m = Some qn <-> hdr_qname (mm_msg m) = qn).
  { intros p m E. destruct (wf_fine _ _ _ H E) as (-> & _). naive_solver. }
  assert (Ht : forall t p, tree_queue t = qn -> match t with TCor _ _ => False | _ => True end ->
    p ∈ lay t <-> exists m, msgs s !! p = Some m /\ hdr_qname (mm_msg m) = qn /\ bits s p (tree_loc t) = true).
  { intros t p Eq Hnc. rewrite (l_in _ _ _ Hl). unfold belongs. rewrite Eq. split.
    - intros (p' & m & E & Hm & Hb & _ & ->). exists m. assert (handle t p' = p') as -> by by destruct t. by rewrite <-(Hst p' m E).
    - intros (m & E & Hm & Hb). exists p, m. rewrite (Hst p m E). by destruct t. }
  split_and!; (apply NoDup_Permutation; [first [done|apply Hr, Hroot]|apply NoDup_those|]); intros p; rewrite elem_of_those by done.
  - rewrite Hin. split; intros (m & E & Hm & Hb); exists m; (rewrite (Hst p m E) in * || idtac); split_and!; try done;
      by apply (place_bits s p m H E).
  - rewrite Ht by done. split; intros (m & E & Hm & Hb); exists m; split_and!; try done; by apply (place_bits s p m H E).
  - rewrite Ht by done. split; intros (m & E & Hm & Hb); exists m; split_and!; try done; by apply (place_bits s p m H E).
Qed.

Lemma places_length qn a :
  length (filter (fun x => hdr_qname x.2.1 = qn) (map_to_list (a_msgs a))) =
  (length (those qn Locked a) + length (those qn Ready a) + length (those qn Waiting a))%nat /\
  length (filter (fun x => x.2.2 = Locked) (filter (fun x => hdr_qname x.2.1 = qn) (map_to_list (a_msgs a)))) =
  length (those qn Locked a).
Proof.
  unfold those. rewrite !length_fmap. induction (map_to_list (a_msgs a)) as [|[p [m pl]] l [IH1 IH2]]; [done|].
  rewrite !filter_cons. cbn. destruct (decide (hdr_qname m = qn)) as [Hq|Hq].
  - cbn [length]. rewrite filter_cons. cbn. destruct pl; repeat case_decide; cbn [length]; try tauto; try naive_solver;
      rewrite ?IH1, ?IH2; split; lia.
  - rewrite !decide_False by tauto. done.
Qed.

Lemma visit_ok s qn q :
  wf s -> G_qhash s !! qn = Some q ->
  qruns (visit_all qn q) s (fun r s' => s' = s /\ exists cur fut, r = (q_infligh q, cur ++ fut) /\
    q_infligh q ≡ₚ those qn Locked (abs s) /\ cur ≡ₚ those qn Ready (abs s) /\ fut ≡ₚ those qn Waiting (abs s)).
Proof.
  intros H Hq. pose proof H as [(lay & Hl & _) _]. destruct (places_ok s qn q lay H Hl Hq) as (P1 & P2 & P3).
  destruct (infl_root qn s) as [R1 R2]; [unfold infl; rewrite Hq; by eexists|].
  qstep forest_walk; [apply Hl|done|]. intros cur s' [-> ->]. qstep forest_walk; [apply Hl|done|]. intros fut s' [-> ->].
  apply qruns_ret. split; [done|]. by exists (lay (TCur qn)), (lay (TFut qn)).
Qed.

Lemma those_live qn pl s p : wf s -> p ∈ those qn pl (abs s) -> is_Some (msgs s !! p).
Proof. intros H (m & E & _)%elem_of_those; [by exists m|done]. Qed.

Lemma exec_stats qn : refines (OStats qn).
Proof.
  intros s r a' H E. cbn [spec] in E. injection E as <- <-. apply qruns_bind. unfold tmq_get_q_stats.
  apply qruns_bind, qruns_gets. cbn [a_stats abs]. rewrite stats_entry. destruct (G_qhash s !! qn) as [q|] eqn:Hq; cbn [fmap option_fmap option_map].
  2: { by do 2 apply qruns_ret. }
  qstep visit_ok; [done|done|]. intros r s' (-> & cur & fut & -> & P1 & P2 & P3). apply qruns_bind.
  eapply qruns_mono; [apply read_all_ok|].
  { intros p Hp. rewrite P1 in Hp. by eapply those_live. }
  intros ms s' [-> Hms]. do 2 apply qruns_ret. split; [|done]. f_equal.
  assert (Hall : forall m, m ∈ ms -> lockthreadid m <> 0).
  { intros m [i Hi]%list_elem_of_lookup. destruct (Forall2_lookup_r _ _ _ _ _ Hms Hi) as (p & Hp & Em).
    apply list_elem_of_lookup_2 in Hp. rewrite P1 in Hp. apply elem_of_those in Hp as (mm & E & _ & Hpl); [|done].
    rewrite E in Em. cbn in Em. injection Em as <-. by apply (fine_place mm (wf_fine _ _ _ H E)). }
  rewrite (filter_full _ ms Hall). pose proof (Forall2_length _ _ _ Hms) as Hlen. apply Permutation_length in P1, P2, P3.
  destruct (places_length qn (abs s)) as [L1 L2]. unfold zlen. cbn [a_msgs abs] in L1, L2. f_equal; [|].
  - rewrite L1, length_app. lia.
  - rewrite L2. lia.
Qed.

(** Every message of the queue is listed, once: the locked ones first, then those that
    can be taken, then those that wait. *)
(** The list has every message of the queue once, or nothing when there is not the memory
    for them. *)
Lemma msglist_ok mem s qn q :
  wf s -> G_qhash s !! qn = Some q ->
  qruns (tmq_get_msglist mem qn) s (fun ms s' => s' = s /\ exists l,
    l ≡ₚ those qn Locked (abs s) ++ those qn Ready (abs s) ++ those qn Waiting (abs s) /\
    if (mem <? length l)%nat then ms = [] else Forall2 (fun p m => mm_msg <$> msgs s !! p = Some m) l ms).
Proof.
  intros H Hq. unfold tmq_get_msglist. apply qruns_bind, qruns_gets. rewrite Hq. qstep visit_ok; [done|done|].
  intros r s' (-> & cur & fut & -> & P1 & P2 & P3). cbn [fst snd].
  assert (P : q_infligh q ++ cur ++ fut ≡ₚ those qn Locked (abs s) ++ those qn Ready (abs s) ++ those qn Waiting (abs s))
    by (by rewrite P1, P2, P3).
  destruct (mem <? _)%nat eqn:Em.
  { apply qruns_ret. split; [done|]. eexists. split; [exact P|]. by rewrite Em. }
  eapply qruns_mono; [apply read_all_ok|].
  - intros p. rewrite P, !elem_of_app. intros [|[|]]; by eapply those_live.
  - intros ms s' [-> Hms]. split; [done|]. eexists. split; [exact P|]. by rewrite Em.
Qed.
