(* ===== verification/QStamp.v ===== *)
(** * Time stamps are in the order of arrival

    The trees end the process when two messages of a queue have the same stamp and give
    the messages in the order of their stamps.  The stamps [tmq_enqueue] makes increase
    from message to message as long as the clock does not go back. *)

From stdpp Require Import gmap.
From S2P Require Import Prelude Base64 RbTree RbTreeOk QSpace QForest QCore.

Local Open Scope Z_scope.

(** A thread's way through the lock: what it read before from the clock, and the two
    random numbers it may draw. *)
Record arrival := mk_arrival { ar_sec : Z; ar_usec : Z; ar_rand1 : Z; ar_rand2 : Z; ar_msg : tmq_msg_t }.

Fixpoint stamp_all (l : list arrival) (t : tstamp_state) : list tmq_msg_t :=
  match l with
  | [] => []
  | x :: l =>
    let r := stamp_msg (ar_sec x) (ar_usec x) (ar_rand1 x) (ar_rand2 x) (ar_msg x) t in
    r.1 :: stamp_all l r.2
  end.

Definition tick (x : arrival) : Z := ar_sec x * 1000000 + ar_usec x.

Definition sane (x : arrival) : Prop :=
  0 <= ar_sec x < 2147483648 /\ 0 <= ar_usec x < 1000000 /\ 0 <= ar_rand1 x /\ 0 <= ar_rand2 x.

(** How many come in one microsecond. *)
Definition crowd (k : Z) (l : list arrival) : Z := zlen (filter (fun x => tick x = k) l).

(** The clock of the counter, and how far it can have come after [n] messages of the same
    microsecond. *)
Definition at_most (n : Z) (t : tstamp_state) : Prop :=
  0 <= t_sec t < 2147483648 /\ 0 <= t_usec t < 1000000 /\ (t_first t = false -> 0 <= t_cntr t <= 2500000 + n).

Definition t_tick (t : tstamp_state) : Z := t_sec t * 1000000 + t_usec t.

Definition t_stamp (t : tstamp_state) : Z := (t_sec t * 2147483648 + t_usec t) * 2147483648 + t_cntr t.

Lemma next_cntr_ok x n t :
  sane x -> 0 <= n < 2144000000 -> at_most n t -> t_tick t <= tick x ->
  let t' := next_cntr (ar_rand1 x) (ar_rand2 x) t (ar_sec x) (ar_usec x) in
  at_most (if tick x =? t_tick t then n + 1 else 0) t' /\ t_first t' = false /\ t_sec t' = ar_sec x /\ t_usec t' = ar_usec x /\
  (t_first t = false -> t_stamp t < t_stamp t').
Proof.
  intros (Hs & Hu & Hr1 & Hr2) Hn (Ts & Tu & Tc) Hx.
  assert (Hsame : (ar_sec x =? t_sec t) && (ar_usec x =? t_usec t) = (tick x =? t_tick t)) by (unfold tick, t_tick; lia).
  unfold tick, t_tick in Hx.
  pose proof (Z.rem_bound_pos (ar_rand1 x) 2500000 ltac:(lia) ltac:(lia)).
  pose proof (Z.rem_bound_pos (ar_rand2 x) 2500000 ltac:(lia) ltac:(lia)).
  unfold next_cntr, at_most, t_stamp. rewrite Hsame. destruct (tick x =? t_tick t); cbn [t_first t_sec t_usec t_cntr].
  - set (c := if t_first t then _ else _). assert (Hc : 0 <= c <= 2500000 + n) by (subst c; destruct (t_first t); [lia|auto]).
    rewrite i32_id by (unfold INT_MIN, INT_MAX; lia). split_and!; try lia. intros Hf. subst c. rewrite Hf in *. lia.
  - split_and!; try lia. intros Hf. specialize (Tc Hf).
    destruct (Z.eq_dec (ar_sec x) (t_sec t)) as [Es|]; [rewrite Es in *|]; nia.
Qed.

Lemma crowd_cons k x l : crowd k (x :: l) = (if tick x =? k then 1 else 0) + crowd k l.
Proof.
  unfold crowd. destruct (Z.eqb_spec (tick x) k) as [E|E]; [rewrite filter_cons_True, zlen_cons by done|rewrite filter_cons_False by done]; lia.
Qed.

Lemma stamp_all_above l n t :
  Forall sane l -> StronglySorted (fun x y => tick x <= tick y) l -> Forall (fun x => t_tick t <= tick x) l ->
  (forall k, crowd k l < 2144000000) -> 0 <= n -> n + crowd (t_tick t) l < 2144000000 -> at_most n t ->
  StronglySorted (fun m m' => stamp m < stamp m') (stamp_all l t) /\
  Forall (fun m => small (msgtstamp m) && small (msgtstamp_usec m) && small (msgtstamp_cntr m) = true) (stamp_all l t) /\
  (t_first t = false -> Forall (fun m => t_stamp t < stamp m) (stamp_all l t)).
Proof.
  revert n t. induction l as [|x l IH]; intros n t Hs Hk Hc Hl Hn Hnl Ht; cbn [stamp_all].
  { split_and!; [constructor|constructor|by constructor]. }
  inversion_clear Hs. inversion_clear Hk as [|?? Hk' Hx]. inversion_clear Hc.
  assert (Hpos : forall k, 0 <= crowd k l) by (intros k; apply zlen_nonneg). pose proof (Hpos (t_tick t)). rewrite crowd_cons in Hnl.
  destruct (next_cntr_ok x n t) as (Ht' & Hf & Es & Eu & Hlt); [done|destruct (tick x =? t_tick t); lia|done|done|].
  unfold stamp_msg. set (t' := next_cntr _ _ _ _ _) in *. cbn [fst snd].
  set (m := mk_msg _ _ _ _ _ _ _ _ _ _ _ _ _ _). assert (Em : stamp m = t_stamp t') by (unfold t_stamp; by rewrite Es, Eu).
  assert (Et : t_tick t' = tick x) by (unfold t_tick; by rewrite Es, Eu).
  assert (Hl' : forall k, crowd k l < 2144000000) by (intros k; specialize (Hl k); rewrite crowd_cons in Hl; destruct (tick x =? k); lia).
  destruct (IH (if tick x =? t_tick t then n + 1 else 0) t') as (Hso & Hsm & Hab); [done|done| |done|destruct (tick x =? t_tick t); lia| |done|].
  { eapply Forall_impl; [exact Hx|]. intros y Hy. by rewrite Et. }
  { rewrite Et. destruct (Z.eqb_spec (tick x) (t_tick t)) as [->|]; [lia|apply Hl']. }
  specialize (Hab Hf). split_and!.
  - constructor; [done|]. eapply Forall_impl; [exact Hab|]. intros m' Hm'. cbn in Hm'. lia.
  - constructor; [|done]. destruct Ht' as (? & ? & Hc'). specialize (Hc' Hf). specialize (Hl (tick x)). rewrite crowd_cons in Hl.
    cbn. unfold small. destruct (tick x =? t_tick t), (tick x =? tick x); lia.
  - intros Hf0. specialize (Hlt Hf0). constructor; [lia|]. eapply Forall_impl; [exact Hab|]. intros m' Hm'. cbn in Hm'. lia.
Qed.

(** C28: time stamps are in the order of arrival: when the threads of [tmq_enqueue] come to
    the lock of the counter with readings of the clock that do not go back, the stamps of
    their messages strictly increase, so no two are equal, and have the size for which
    the comparisons of the trees are right, as long as fewer than 2144000000 come in one
    microsecond. *)
Theorem stamps_increase l :
  Forall sane l -> StronglySorted (fun x y => tick x <= tick y) l -> (forall k, crowd k l < 2144000000) ->
  StronglySorted (fun m m' => stamp m < stamp m') (stamp_all l tstamp_init) /\
  Forall (fun m => small (msgtstamp m) && small (msgtstamp_usec m) && small (msgtstamp_cntr m) = true) (stamp_all l tstamp_init).
Proof.
  intros Hs Hk Hl. destruct (stamp_all_above l 0 tstamp_init) as (H1 & H2 & _); try done; [|by rewrite Z.add_0_l].
  eapply Forall_impl; [exact Hs|]. intros x (? & ? & _). unfold tick, t_tick. cbn. lia.
Qed.

Definition three_arrivals : list arrival :=
  [ mk_arrival 1000 5 12345678 99 zero_msg; mk_arrival 1000 5 0 0 zero_msg; mk_arrival 1000 6 0 7 zero_msg ].

Lemma stamps_increase_witness :
  map msgtstamp_cntr (stamp_all three_arrivals tstamp_init) = [99; 100; 7] /\
  StronglySorted (fun m m' => stamp m < stamp m') (stamp_all three_arrivals tstamp_init).
Proof.
  split; [reflexivity|]. apply (stamps_increase three_arrivals).
  - repeat apply Forall_cons_2; [unfold sane; cbn; lia..|apply Forall_nil_2].
  - repeat (apply SSorted_nil || apply SSorted_cons || apply Forall_nil_2 || apply Forall_cons_2); unfold tick; cbn; lia.
  - intros k. unfold crowd. pose proof (length_filter (fun x => tick x = k) three_arrivals) as H. unfold zlen. cbn in *. lia.
Defined.

(** A thread that reads the clock, and comes to the lock after another one that read it
    later, can get the stamp another message has. *)
Lemma late_arrival_duplicate :
  exists l, Forall sane l /\ exists m m' m'', stamp_all l tstamp_init = [m; m'; m''] /\ stamp m = stamp m''.
Proof.
  exists [ mk_arrival 1000 5 0 3 zero_msg; mk_arrival 1000 6 0 0 zero_msg; mk_arrival 1000 5 0 3 zero_msg ].
  split; [repeat apply Forall_cons_2; [unfold sane; cbn; lia..|apply Forall_nil_2]|]. by do 3 eexists.
Qed.
