(* ===== verification/QSpaceOk.v ===== *)
(** * The queue space keeps its promise

    Sequences of critical sections, in whatever order the threads of the server come to
    them, and what they mean for those who put and take messages. *)

From stdpp Require Import gmap.
From S2P Require Import Prelude Base64 RbTree RbTreeOk QSpace QForest QCore QOps QSpec QExec.

Local Open Scope Z_scope.

(** ** Sequences *)

Fixpoint exec_all (os : list op) : Q (list answer) :=
  match os with
  | [] => mret (M:=Q) []
  | o :: os => r ← exec o; rs ← exec_all os; mret (M:=Q) (r :: rs)
  end.

Fixpoint spec_all (os : list op) (a : aspace) : option (list answer * aspace) :=
  match os with
  | [] => Some ([], a)
  | o :: os => r ← spec o a; rs ← spec_all os r.2; Some (r.1 :: rs.1, rs.2)
  end.

Lemma every_op_refines o : refines o.
Proof.
  destruct o; [apply exec_add|apply exec_add_done|apply exec_add_undo|apply exec_take|apply exec_take_id|apply exec_take_undo|
    apply exec_unlock|apply exec_unlock_id|apply exec_lock|apply exec_upd_stats|apply exec_stats].
Qed.

Lemma exec_all_refines os s rs a' :
  wf s -> spec_all os (abs s) = Some (rs, a') -> qruns (exec_all os) s (fun rs' s' => rs' = rs /\ wf s' /\ abs s' = a').
Proof.
  revert s rs a'. induction os as [|o os IH]; intros s rs a' H E; cbn [spec_all exec_all] in *.
  { simplify_eq. by apply qruns_ret. }
  apply bind_Some_inv in E as ([r a1] & E1 & E). apply bind_Some_inv in E as ([rs1 a2] & E2 & E). cbn in *. simplify_eq.
  qstep (every_op_refines o); [done|done|]. intros r' s1 (-> & H1 & <-). qstep IH; [done|done|]. intros rs' s2 (-> & H2 & <-).
  by apply qruns_ret.
Qed.

Lemma spec_all_app os1 os2 a rs1 a1 rs2 a2 :
  spec_all os1 a = Some (rs1, a1) -> spec_all os2 a1 = Some (rs2, a2) -> spec_all (os1 ++ os2) a = Some (rs1 ++ rs2, a2).
Proof.
  revert a rs1. induction os1 as [|o os1 IH]; intros a rs1 E1 E2; cbn [spec_all app] in *; [by simplify_eq|].
  apply bind_Some_inv in E1 as ([r b] & Eo & E1). apply bind_Some_inv in E1 as ([rs b1] & Es & E1). cbn in *. simplify_eq.
  rewrite Eo. cbn. by rewrite (IH _ _ Es E2).
Qed.

(** A server that has read its configuration. *)
Definition start (conf : gmap (list Z) tmq_qconfig_t) : qspace := mk_qspace ∅ {[RBTNIL := sentinel]} ∅ ∅ conf.

Lemma start_wf conf : wf (start conf).
Proof.
  split; [|done]. exists (fun _ => []). split; [|by intros qn c []]. constructor; try done.
  - split_and!; [|done|by intros t t' a ?%elem_of_nil]. exists NULL. apply lookup_singleton_eq.
  - intros t a. split; [by intros ?%elem_of_nil|]. by intros (p & m & E & _).
  - constructor.
  - intros k p. split; [done|]. by intros (m & E & _).
Qed.

(** C25: the queue space refines its specification: starting with nothing but a
    configuration, every sequence of critical sections that the specification allows, by
    whatever threads and with whatever clocks and failures of memory, runs to its end
    without aborting or touching memory that is not there, with exactly the answers of the
    specification, and leaves a memory that stands for the specified messages and
    statistics and in which all structures agree. *)
Theorem queues_refine conf os rs a :
  spec_all os (abs (start conf)) = Some (rs, a) ->
  exists s, exec_all os (start conf) = Some (rs, s) /\ abs s = a /\ wf s.
Proof.
  intros E. destruct (exec_all_refines os _ _ _ (start_wf conf) E) as (r & s & Er & -> & H & Ea). by exists s.
Qed.

(** ** Order *)

(** The messages a consumer may expect: those of the queue, with the correlator if there
    is one, that nobody has locked and whose time has come. *)
Definition deliverable (e : qenv) (qn : list Z) (c : option (list Z)) (a : aspace) (p : Z) (m : tmq_msg_t) : Prop :=
  exists pl, a_msgs a !! p = Some (m, pl) /\ hdr_qname m = qn /\ has_corrid c m /\
    (pl = Ready \/ pl = Waiting /\ deq_time m <= now e).

Lemma deliverable_ready e qn c a p m : deliverable e qn c a p m <-> (p, m) ∈ ready qn c (a_promote e qn a).
Proof.
  rewrite elem_of_ready. unfold deliverable. cbn. rewrite lookup_fmap. split.
  - intros (pl & E & Hq & Hc & Hpl). rewrite E. cbn. split; [|done]. f_equal. unfold promote. cbn.
    destruct Hpl as [->|[-> Ht]]; [|by rewrite bool_decide_eq_true_2]. by case_bool_decide.
  - intros (E & Hq & Hc). apply fmap_Some in E as ([m' pl] & E & Ex). unfold promote in Ex. cbn in Ex.
    case_bool_decide as Hw; simplify_eq.
    + exists pl. destruct Hw as (_ & -> & Ht). split_and!; [done|done|done|by right].
    + exists Ready. split_and!; [done|done|done|by left].
Qed.

(** A consumer asks for a correlator, and no message with it is ready. *)
Definition unheard (qn : list Z) (c : option (list Z)) (a : aspace) : Prop := c <> None /\ ready qn c a = [].

Lemma dequeue_run e e' qn c flags is_auto disk s :
  wf s -> a_conf_of qn (abs s) <> None -> is_Some (a_stats (abs s) !! qn) ->
  promotable e qn (abs s) = true -> gettid e <> 0 -> has flags TPQPEEK || is_auto || disk = true ->
  exists qc, a_conf_of qn (abs s) = Some qc /\
  qruns (tmq_msg_dequeue e e' qn flags is_auto c disk) s (fun r s' => wf s' /\
    (unheard qn c (abs s) /\ r = inr QMENOMSG \/
    ~ unheard qn c (abs s) /\ match best (TMQ_MODE_LIFO =? mode qc) (ready qn c (a_promote e qn (abs s))) with
    | None => r = inr QMENOMSG
    | Some (p, m) => r = inl (set_lock (gettid e) m) /\ abs s' = a_put p (set_lock (gettid e) m) Locked (a_promote e qn (abs s))
    end)).
Proof.
  intros H Hcf [st Hst] Hp Ht Hdisk. destruct (a_conf_of qn (abs s)) as [qc|] eqn:Eqc; [|done]. exists qc. split; [done|].
  set (r := if bool_decide (unheard qn c (abs s)) then (inr QMENOMSG, abs s) else
            match best (TMQ_MODE_LIFO =? mode qc) (ready qn c (a_promote e qn (abs s))) with
            | None => (inr QMENOMSG, a_promote e qn (abs s))
            | Some (p, m) => (inl p, a_put p (set_lock (gettid e) m) Locked (a_promote e qn (abs s))) end).
  assert (Hsp : spec_take e qn c (abs s) = Some r).
  { unfold spec_take. rewrite Eqc, Hst. subst r. unfold unheard. case_bool_decide; [done|].
    rewrite Hp, (proj2 (Z.eqb_neq _ _) Ht). cbn. by destruct (best _ _) as [[p m]|]. }
  destruct (exec_take e qn c s (RTake r.1) r.2 H) as (x & s1 & E1 & -> & H1 & Ea1); [cbn [spec]; by rewrite Hsp|].
  cbn [exec] in E1. unfold mbind, Q_bind in E1. destruct (dequeue_begin e qn c s) as [[r1 s1']|] eqn:Ed; [|done].
  injection E1 as -> ->. apply qruns_bind. eexists _, _. split; [exact Ed|]. subst r.
  case_bool_decide as Hu; [cbn [fst]; apply qruns_ret; split; [done|by left]|].
  destruct (best _ _) as [[p m]|] eqn:Eb; cbn [fst snd] in *; [|apply qruns_ret; split; [done|by right]].
  destruct (abs_entry s1 p (set_lock (gettid e) m, Locked)) as (mm & Em & [= Ex _]); [rewrite Ea1; apply lookup_insert_eq|].
  apply qruns_bind. eapply qruns_get_msg; [exact Em|].
  assert (negb (has flags TPQPEEK) && negb is_auto && negb disk = false) as -> by (by destruct (has flags TPQPEEK), is_auto, disk).
  apply qruns_ret. rewrite <-Ex. split; [done|]. by right.
Qed.

(** C26: messages are taken in order: after any allowed history, [tmq_msg_dequeue] returns,
    of the messages of the queue that nobody has locked and whose time has come, the
    oldest one, or the newest one for a queue in LIFO mode, locked for the caller.  It says
    that there is none when there is none; and, asked for a correlator, also when no
    message with it is ready, although the time of one that waits may have come
    ([due_not_found_by_correlator]).  The queue is configured and known, there is
    memory for the correlators of the messages whose time has come ([promotable]), and the
    request is to peek, of the forwarder, or its command could be written to the disk. *)
Theorem dequeue_in_order conf os rs a e e' qn c flags is_auto disk qc :
  spec_all os (abs (start conf)) = Some (rs, a) ->
  a_conf_of qn a = Some qc -> is_Some (a_stats a !! qn) ->
  promotable e qn a = true -> gettid e <> 0 -> has flags TPQPEEK || is_auto || disk = true ->
  exists s r s', exec_all os (start conf) = Some (rs, s) /\
    tmq_msg_dequeue e e' qn flags is_auto c disk s = Some (r, s') /\
    match r with
    | inl m' => exists p m, deliverable e qn c a p m /\ m' = set_lock (gettid e) m /\
        abs s' = a_put p m' Locked (a_promote e qn a) /\
        forall q mq, deliverable e qn c a q mq ->
          if TMQ_MODE_LIFO =? mode qc then stamp mq <= stamp m else stamp m <= stamp mq
    | inr diagnostic => diagnostic = QMENOMSG /\ ((forall p m, ~ deliverable e qn c a p m) \/ unheard qn c a)
    end.
Proof.
  intros E Ec Hst Hp Ht Hd. destruct (exec_all_refines os _ _ _ (start_wf conf) E) as (rs' & s & Er & -> & H & <-).
  destruct (dequeue_run e e' qn c flags is_auto disk s H) as (qc' & Ec' & r & s' & Ed & H' & Hr); try done; [congruence|].
  rewrite Ec in Ec'. injection Ec' as <-. exists s, r, s'. split; [done|]. split; [done|].
  destruct Hr as [[Hu ->]|[_ Hr] ]; [split; [done|by right]|].
  destruct (best _ _) as [[p m]|] eqn:Eb.
  - destruct Hr as [-> Ea]. exists p, m. destruct (best_spec _ _ _ Eb) as [Hin Hall].
    split_and!; [by apply deliverable_ready|done|done|]. intros q mq Hq%deliverable_ready. by apply (Hall (q, mq)).
  - subst r. split; [done|]. left. intros p m Hdl%deliverable_ready. apply best_none in Eb. rewrite Eb in Hdl. by apply elem_of_nil in Hdl.
Qed.

(** ** Locks hold *)

(** The message an answer hands out. *)
Definition gives (r : answer) : option Z :=
  match r with RTake (inl p) => Some p | RTakeId r => r | _ => None end.

(** The message an operation may unlock or remove. *)
Definition release_of (o : op) (a : aspace) : option Z :=
  match o with
  | OAddUndo p | OTakeUndo _ p => Some p
  | OUnlock _ b => if b_command b =? TMQ_STORCMD_DUM then None else a_find (b_msgid b) a
  | OUnlockId _ id => a_find id a
  | _ => None
  end.

Fixpoint unreleased (p : Z) (os : list op) (a : aspace) : Prop :=
  match os with
  | [] => True
  | o :: os => release_of o a <> Some p /\ forall r a', spec o a = Some (r, a') -> unreleased p os a'
  end.

(** The same by evaluation. *)
Fixpoint unreleased_b (p : Z) (os : list op) (a : aspace) : bool :=
  match os with
  | [] => true
  | o :: os =>
    bool_decide (release_of o a <> Some p) && match spec o a with Some (_, a') => unreleased_b p os a' | None => true end
  end.

Lemma unreleased_by p os a : unreleased_b p os a = true -> unreleased p os a.
Proof.
  revert a. induction os as [|o os IH]; intros a H; cbn [unreleased unreleased_b] in *; [done|].
  apply andb_prop in H as [Hr%bool_decide_eq_true H]. split; [done|]. intros r a' E. rewrite E in H. by apply IH.
Qed.

Definition held (p : Z) (m : tmq_msg_t) (a : aspace) : Prop :=
  a_msgs a !! p = Some (m, Locked) /\ lockthreadid m <> 0.

Lemma held_put p m q m' pl a : held p m a -> q <> p -> held p m (a_put q m' pl a).
Proof. intros [E Hl] Hne. split; [|done]. cbn. by rewrite lookup_insert_ne. Qed.

Lemma held_unlock e q f a a' p m : spec_unlock e q f a = Some a' -> held p m a -> q <> p -> held p m a'.
Proof.
  unfold spec_unlock. destruct (a_msgs a !! q) as [[m0 []]|]; try done. destruct (cor_ok e m0); [|done].
  cbn. intros [= <-]. apply held_put.
Qed.

Lemma held_promote e qn p m a : held p m a -> held p m (a_promote e qn a).
Proof.
  intros [E Hl]. split; [|done]. cbn. rewrite lookup_fmap, E. cbn. unfold promote. cbn.
  rewrite bool_decide_eq_false_2; [done|]. by intros (_ & ? & _).
Qed.

Lemma take_held e qn c a r a' p m : spec_take e qn c a = Some (r, a') -> held p m a -> held p m a' /\ r <> inl p.
Proof.
  unfold spec_take. intros E H. destruct (a_conf_of qn a) as [qc|]; [|by simplify_eq].
  destruct (a_stats a !! qn); [|by simplify_eq]. case_bool_decide; [by simplify_eq|].
  destruct (promotable e qn a && negb (gettid e =? 0)); [|done]. cbn [when] in E. pose proof (held_promote e qn p m a H) as Hp.
  destruct (best _ _) as [[q mq]|] eqn:Eb; [|by simplify_eq]. simplify_eq.
  assert (q <> p) as Hne; [|split; [by apply held_put|congruence]]. intros ->. destruct (best_spec _ _ _ Eb) as [Hin _].
  apply elem_of_ready in Hin as (Er & _). destruct Hp as [Hp _]. congruence.
Qed.

Lemma add_held e m0 a r a' p m : spec_add e m0 a = Some (r, a') -> held p m a -> held p m a' /\ gives r = None.
Proof.
  unfold spec_add. intros E H. destruct (calloc e) as [q|]; [|by simplify_eq]. destruct (apart q a) eqn:Ha; [|done]. cbn [when] in E.
  destruct (a_conf_of _ a) as [qc|]; [|by simplify_eq]. assert (q <> p) as Hne.
  { intros ->. unfold apart in Ha. apply andb_prop in Ha as [_ Ha]. rewrite forallb_forall in Ha. destruct H as [H _].
    specialize (Ha (p, (m, Locked))). rewrite <-list_elem_of_In, elem_of_map_to_list in Ha. specialize (Ha H). cbn in Ha. lia. }
  destruct (a_find (hdr_msgid m0) a), (a_stats a !! hdr_qname m0), (calloc_q e), (enterable e m0 a); cbn in E; simplify_eq; try done;
    (split; [|done]); destruct H as [H Hl]; (split; [|done]); cbn; by rewrite lookup_insert_ne.
Qed.

Lemma held_step o a r a' p m :
  spec o a = Some (r, a') -> held p m a -> release_of o a <> Some p -> held p m a' /\ gives r <> Some p.
Proof.
  intros E H Hr. destruct o as [e m0|qn|q|e qn c|e id|e q|e b|e id|e id|qn sd fd|qn]; cbn [spec release_of] in E, Hr.
  - destruct (add_held _ _ _ _ _ _ _ E H) as [? ->]. done.
  - destruct (a_stats a !! qn); by simplify_eq.
  - destruct (a_msgs a !! q) eqn:Eq; [|done]. simplify_eq. split; [|done]. destruct H as [H Hl]. split; [|done]. cbn.
    rewrite lookup_delete_ne; congruence.
  - apply bind_Some_inv in E as ([r0 a0] & E0 & E). cbn in E. simplify_eq. destruct (take_held _ _ _ _ _ _ _ _ E0 H) as [? Hne].
    split; [done|]. destruct r0; cbn; congruence.
  - destruct (a_find id a) as [q|]; [|by simplify_eq]. apply bind_Some_inv in E as (x & Ex & E).
    destruct (Z.eqb_spec (lockthreadid x.1) 0) as [Hx|Hx]; [|by simplify_eq]. destruct (gettid e =? 0); [done|]. cbn in E. simplify_eq.
    assert (q <> p) by (intros ->; destruct H as [H Hl]; rewrite H in Ex; by injection Ex as <-).
    split; [by apply held_put|cbn; congruence].
  - apply bind_Some_inv in E as (a1 & E1 & E). simplify_eq. split; [|done]. eapply held_unlock; [done|done|congruence].
  - destruct (b_command b =? TMQ_STORCMD_DUM); [by simplify_eq|]. destruct (a_find (b_msgid b) a) as [q|]; [|by simplify_eq].
    assert (q <> p) as Hne by congruence. destruct (b_command b =? TMQ_STORCMD_DEL).
    { apply bind_Some_inv in E as (x & Ex & E). simplify_eq. split; [|done]. destruct H as [H Hl]. split; [|done]. cbn.
      by rewrite lookup_delete_ne. }
    destruct (b_command b =? TMQ_STORCMD_UPD).
    { apply bind_Some_inv in E as (a1 & E1 & E). simplify_eq. split; [|done]. by eapply held_unlock. }
    destruct ((b_command b =? TMQ_STORCMD_NEWMSG) || (b_command b =? TMQ_STORCMD_UNLOCK)); [|by simplify_eq].
    apply bind_Some_inv in E as (a1 & E1 & E). simplify_eq. split; [|done]. by eapply held_unlock.
  - destruct (a_find id a) as [q|]; [|by simplify_eq]. apply bind_Some_inv in E as (a1 & E1 & E). simplify_eq.
    split; [|done]. eapply held_unlock; [done|done|congruence].
  - destruct (a_find id a) as [q|]; [|by simplify_eq]. apply bind_Some_inv in E as (x & Ex & E).
    destruct (bool_decide (x.2 = Locked)) eqn:Ep; cbn in E; [done|]. destruct (gettid e =? 0); [done|]. cbn in E. simplify_eq.
    apply bool_decide_eq_false in Ep. split; [|done]. apply held_put; [done|]. intros ->. destruct H as [H Hl]. rewrite H in Ex.
    by injection Ex as <-.
  - by simplify_eq.
  - by simplify_eq.
Qed.

Lemma held_all os a rs a' p m :
  spec_all os a = Some (rs, a') -> held p m a -> unreleased p os a ->
  held p m a' /\ forall r, r ∈ rs -> gives r <> Some p.
Proof.
  revert a rs a'. induction os as [|o os IH]; intros a rs a' E H Hu; cbn [spec_all] in E.
  { simplify_eq. split; [done|]. by intros r ?%elem_of_nil. }
  apply bind_Some_inv in E as ([r a1] & E1 & E). apply bind_Some_inv in E as ([rs1 a2] & E2 & E). cbn in E. simplify_eq.
  destruct Hu as [Hr Hu]. destruct (held_step _ _ _ _ _ _ E1 H Hr) as [H1 Hg]. destruct (IH _ _ _ E2 H1 (Hu _ _ E1)) as [H2 Hgs].
  split; [done|]. intros r' [->|Hr']%elem_of_cons; [done|by apply Hgs].
Qed.

(** What is handed out is locked. *)
Lemma gives_held o a r a' p : spec o a = Some (r, a') -> gives r = Some p -> exists m, held p m a'.
Proof.
  intros E Hg. destruct o as [e m0|qn|q|e qn c|e id|e q|e b|e id|e id|qn sd fd|qn]; cbn [spec] in E.
  4: { apply bind_Some_inv in E as ([r0 a0] & E0 & E). cbn in E. simplify_eq. destruct r0 as [q|]; [|done]. cbn in Hg. injection Hg as ->.
       unfold spec_take in E0. destruct (a_conf_of qn a); [|done]. destruct (a_stats a !! qn); [|done]. case_bool_decide; [done|].
       destruct (promotable e qn a); [|done]. destruct (Z.eqb_spec (gettid e) 0) as [|Ht]; [done|]. cbn in E0.
       destruct (best _ _) as [[q mq]|]; [|done]. simplify_eq. exists (set_lock (gettid e) mq). split; [apply lookup_insert_eq|done]. }
  4: { destruct (a_find id a) as [q|]; [|by simplify_eq]. apply bind_Some_inv in E as (x & Ex & E).
       destruct (lockthreadid x.1 =? 0); [|by simplify_eq]. destruct (Z.eqb_spec (gettid e) 0) as [|Ht]; [done|]. cbn in E. simplify_eq.
       cbn in Hg. injection Hg as ->. exists (set_lock (gettid e) x.1). split; [apply lookup_insert_eq|done]. }
  all: exfalso; unfold spec_add, when in E.
  all: repeat (case_match || apply bind_Some_inv in E as (? & ? & E)); by simplify_eq.
Qed.

(** C27: a message is given to one consumer: once a dequeue has handed out a message, no
    later dequeue by any thread, from the queue, by correlator or by identifier, hands it
    out again, and it stays in the queue space, locked, until an operation on this very
    message unlocks or removes it. *)
Theorem taken_once conf os1 rs1 a1 o r a2 p os2 rs2 a :
  spec_all os1 (abs (start conf)) = Some (rs1, a1) -> spec o a1 = Some (r, a2) -> gives r = Some p ->
  spec_all os2 a2 = Some (rs2, a) -> unreleased p os2 a2 ->
  exists s, exec_all (os1 ++ o :: os2) (start conf) = Some (rs1 ++ r :: rs2, s) /\
    (forall r', r' ∈ rs2 -> gives r' <> Some p) /\
    exists m, lockthreadid m <> 0 /\ a_msgs (abs s) !! p = Some (m, Locked).
Proof.
  intros E1 Eo Hg E2 Hu. destruct (gives_held _ _ _ _ _ Eo Hg) as (m & Hm). destruct (held_all _ _ _ _ _ _ E2 Hm Hu) as [[Em Hl] Hgs].
  assert (E : spec_all (os1 ++ o :: os2) (abs (start conf)) = Some (rs1 ++ r :: rs2, a)).
  { eapply spec_all_app; [exact E1|]. cbn [spec_all]. rewrite Eo. cbn. by rewrite E2. }
  destruct (exec_all_refines _ _ _ _ (start_wf conf) E) as (rs' & s & Er & -> & H & <-). exists s. by eauto.
Qed.

(** ** Runs *)

Module Demo.

Definition fifo : tmq_qconfig_t := mk_qconf TMQ_DEFAULT_Q [] 110 0 0 0 0 0 TMQ_MODE_FIFO (-1) [] 1 0.
Definition lifo : tmq_qconfig_t := mk_qconf [76] [] 110 0 0 0 0 0 TMQ_MODE_LIFO (-1) [] 1 0.
Definition conf : gmap (list Z) tmq_qconfig_t := {[ TMQ_DEFAULT_Q := fifo; [76] := lifo ]}.

Definition env (t tid p : Z) : qenv := mk_env t tid (Some p) true (fun _ => true).
Definition id (n : Z) : list Z := replicate 32 n.

(** A message, locked as new messages are, with its queue, id, time stamp, time to wait for and
    correlator. *)
Definition msg (qn : list Z) (n t : Z) (deq cor : option Z) : tmq_msg_t :=
  mk_msg qn (id n) 7 65 0 t 0 0 0 0
    (Z.lor (if cor is Some _ then TPQCORRID else 0) (if deq is Some _ then TPQTIME_ABS else 0))
    (default 0 deq) (if cor is Some c then id c else []) [1; 2; 3].

(** Queue "A" has the default configuration, queue "L" its own. *)
Definition A : list Z := [65].
Definition L : list Z := [76].

(** A message comes, and is unlocked when its transaction ends. *)
Definition put (m : tmq_msg_t) (t p : Z) : list op :=
  [ OAdd (env t 7 p) m; OAddDone (hdr_qname m);
    OUnlock (env t 7 0) (mk_block (hdr_msgid m) TMQ_STORCMD_NEWMSG 0 0 0 0) ].

Definition history : list op :=
  put (msg A 1 1000 None (Some 9)) 1000 1024 ++ put (msg A 2 1001 (Some 1005) None) 1001 2048 ++
  put (msg L 3 1002 None None) 1002 3072 ++ put (msg L 4 1003 None None) 1003 4096 ++
  put (msg A 5 1004 None (Some 9)) 1004 5120.

Definition specified (os : list op) : list answer * aspace :=
  default ([], abs (start conf)) (spec_all os (abs (start conf))).

End Demo.
Import Demo.

Lemma queues_refine_witness :
  exists s, exec_all (history ++ [OTake (env 1006 8 0) A None; OStats A]) (start conf) =
    Some ((specified history).1 ++ [RTake (inl 1024); RStats (3, 1)], s) /\ wf s.
Proof.
  destruct (queues_refine conf (history ++ [OTake (env 1006 8 0) A None; OStats A])
    ((specified history).1 ++ [RTake (inl 1024); RStats (3, 1)])
    (specified (history ++ [OTake (env 1006 8 0) A None; OStats A])).2) as (s & E & _ & H);
    [vm_compute; reflexivity|]. exists s. split; [exact E|exact H].
Defined.

Lemma dequeue_in_order_witness :
  exists s m' s', exec_all history (start conf) = Some ((specified history).1, s) /\
    tmq_msg_dequeue (env 1006 8 0) (env 1006 8 0) A 0 false (Some (tmq_msgid_serialize (id 9))) true s = Some (inl m', s') /\
    hdr_msgid m' = id 1.
Proof.
  destruct (dequeue_in_order conf history (specified history).1 (specified history).2 (env 1006 8 0) (env 1006 8 0) A
    (Some (tmq_msgid_serialize (id 9))) 0 false true fifo) as (s & r & s' & E & Ed & _);
    [vm_compute; reflexivity|vm_compute; reflexivity|vm_compute; eexists; reflexivity|vm_compute; reflexivity|discriminate|reflexivity|].
  assert (Hs : (fun x => match x.1 with inl m => Some (hdr_msgid m) | inr _ => None end) <$>
    (_ ← exec_all history; tmq_msg_dequeue (env 1006 8 0) (env 1006 8 0) A 0 false (Some (tmq_msgid_serialize (id 9))) true) (start conf)
    = Some (Some (id 1))) by (vm_compute; reflexivity).
  unfold mbind, Q_bind in Hs. rewrite E, Ed in Hs. destruct r as [m'|d]; [|discriminate Hs]. injection Hs as Hs. exists s, m', s'.
  split; [exact E|]. split; [exact Ed|exact Hs].
Defined.

(** A message that was taken stays with its consumer when others ask for it. *)
Lemma taken_once_witness :
  exists s m, exec_all (history ++ OTake (env 1006 8 0) L None ::
      [OTakeId (env 1006 9 0) (id 4); OTake (env 1006 9 0) L None; OTake (env 1006 9 0) L None]) (start conf) =
    Some ((specified history).1 ++ RTake (inl 4096) :: [RTakeId None; RTake (inl 3072); RTake (inr QMENOMSG)], s) /\
    lockthreadid m <> 0 /\ a_msgs (abs s) !! 4096 = Some (m, Locked).
Proof.
  destruct (taken_once conf history (specified history).1 (specified history).2 (OTake (env 1006 8 0) L None) (RTake (inl 4096))
    (specified (history ++ [OTake (env 1006 8 0) L None])).2 4096
    [OTakeId (env 1006 9 0) (id 4); OTake (env 1006 9 0) L None; OTake (env 1006 9 0) L None]
    [RTakeId None; RTake (inl 3072); RTake (inr QMENOMSG)]
    (specified (history ++ [OTake (env 1006 8 0) L None] ++
       [OTakeId (env 1006 9 0) (id 4); OTake (env 1006 9 0) L None; OTake (env 1006 9 0) L None])).2) as (s & E & _ & m & Hl & Hm);
    [vm_compute; reflexivity..| |exists s, m; split; [exact E|split; [exact Hl|exact Hm]]]. apply unreleased_by. vm_compute. reflexivity.
Defined.

(** ** Where the promise ends *)

Definition answers (os : list op) : option (list answer) := fst <$> exec_all os (start conf).

(** A message for a time more than 2^31 seconds after that of another one is taken for the
    earlier one: the other, whose time has come, is not given. *)
Lemma far_future_hides_due :
  option_map (drop 6) (answers (put (msg A 1 1000 (Some 2000) None) 1000 1024 ++ put (msg A 2 1001 (Some 3000000000) None) 1001 2048 ++
    [OTake (env 2500 8 0) A None])) = Some [RTake (inr QMENOMSG)].
Proof. vm_compute. reflexivity. Qed.

(** With a difference of 2^32 the two count as equal and the process ends. *)
Lemma equal_times_abort :
  answers (put (msg A 1 1000 (Some 2000) None) 1000 1024 ++ put (msg A 2 1001 (Some (2000 + 4294967296)) None) 1001 2048) = None.
Proof. vm_compute. reflexivity. Qed.

(** A message whose time has come is not found by its correlator; a consumer that asks
    without one gets it. *)
Lemma due_not_found_by_correlator :
  option_map (drop 3) (answers (put (msg A 1 1000 (Some 2000) (Some 9)) 1000 1024 ++
    [OTake (env 2500 8 0) A (Some (tmq_msgid_serialize (id 9))); OTake (env 2500 8 0) A None])) =
  Some [RTake (inr QMENOMSG); RTake (inl 1024)].
Proof. vm_compute. reflexivity. Qed.

(** When there is no memory for the tree of a correlator as a message is unlocked, the
    message stays without it: the caller is told of success, and a consumer that asks by
    the correlator gets nothing. *)
Lemma correlator_lost :
  option_map (drop 2) (answers ([OAdd (env 1000 7 1024) (msg A 1 1000 None (Some 9)); OAddDone A;
    OUnlock (mk_env 1000 7 None true (fun _ => false)) (mk_block (id 1) TMQ_STORCMD_NEWMSG 0 0 0 0);
    OTake (env 1001 8 0) A (Some (tmq_msgid_serialize (id 9))); OTake (env 1001 8 0) A None])) =
  Some [RRet EXSUCCEED; RTake (inr QMENOMSG); RTake (inl 1024)].
Proof. vm_compute. reflexivity. Qed.

(** Two messages with the same stamp in one queue end the process. *)
Lemma same_stamp_aborts :
  answers (put (msg A 1 1000 None None) 1000 1024 ++ put (msg A 2 1000 None None) 1000 2048) = None.
Proof. vm_compute. reflexivity. Qed.
