(* ===== verification/QConf.v ===== *)
(** * The configuration of the queues

    Definitions of queues as text ([tmqueue/qspace.c]): [tmq_qconf_addupd] reads one,
    [tmq_build_q_def] prints one, [tmq_reload_conf] reads all of them from the common
    configuration or from a file.  Texts are lists of bytes without the terminator, and
    [NDRX_STRCPY_SAFE] keeps of a text what fits into the destination. *)

From stdpp Require Import gmap strings.
From S2P Require Import Prelude CText RbTree QSpace.

Local Open Scope Z_scope.

Definition txt (s : string) : list Z := (fun a => Z.of_nat (Ascii.nat_of_ascii a)) <$> String.list_ascii_of_string s.

(** [NDRX_STRCPY_SAFE] to a destination of [sz] bytes. *)
Definition strcpy_safe_z (sz : nat) (s : list Z) : list Z := take (sz - 1) s.

Definition TMQNAMELEN : nat := 15.
Definition XATMI_SERVICE_NAME_LENGTH : nat := 30.
Definition MAX_TOKEN_SIZE : nat := 64.
Definition WORKERS_DEFAULT : Z := 1.

Definition EXTRUE : Z := 1.
Definition EXFALSE : Z := 0.

Definition TMQ_SYNC_NONE : Z := 0.
Definition TMQ_SYNC_TPACALL : Z := 1.
Definition TMQ_SYNC_TPCOMMIT : Z := 2.

(** ** Values *)

Definition isdigit (c : Z) : bool := (48 <=? c) && (c <=? 57).
Definition toupper (c : Z) : Z := if (97 <=? c) && (c <=? 122) then c - 32 else c.

Definition ndrx_isint (str : list Z) : bool :=
  let str := match str with 45 :: str => str | _ => str end in
  match str with [] => false | _ => forallb isdigit str end.

Definition ndrx_args_confirm (arg : list Z) : Z :=
  match arg with
  | [c] => if bool_decide (c ∈ txt "yY") then EXTRUE else if bool_decide (c ∈ txt "nN") then EXFALSE else EXFAIL
  | _ => EXFAIL
  end.

Definition ndrx_str_strip (haystack needle : list Z) : list Z := filter (fun c => c ∉ needle) haystack.

(** An [int] of at least [least], as most parameters are. *)
Definition int_param (least : Z) (value : list Z) : option Z :=
  let ival := atoi value in
  if negb (ndrx_isint value) || (ival <? least) then None else Some ival.

Definition sync_param (value : list Z) : option Z :=
  let ival := ndrx_args_confirm value in
  if ival =? EXFAIL then
    match value with
    | [c] => if bool_decide (c ∈ txt "Cc") then Some TMQ_SYNC_TPCOMMIT else None
    | _ => None
    end
  else Some (if negb (ival =? 0) then TMQ_SYNC_TPACALL else TMQ_SYNC_NONE).

(** The flags and the terminator, which [strchr] finds too. *)
Definition autoq_param (value : list Z) : option Z :=
  let val := toupper (default 0 (head value)) in
  if bool_decide (val ∈ (txt "NYT" ++ [0])) then Some val else None.

Definition mode_param (value : list Z) : option Z :=
  if bool_decide (value = txt "fifo" \/ value = txt "FIFO") then Some TMQ_MODE_FIFO
  else if bool_decide (value = txt "lifo" \/ value = txt "LIFO") then Some TMQ_MODE_LIFO
  else None.

(** ** Reading *)

Definition with_svcnm (v : list Z) (q : tmq_qconfig_t) : tmq_qconfig_t :=
  mk_qconf (qc_qname q) v (autoq q) (tries q) (waitinit q) (waitretry q) (waitretrymax q) (memonly q) (mode q) (txtout q) (errorq q) (workers q) (sync q).
Definition with_errorq (v : list Z) (q : tmq_qconfig_t) : tmq_qconfig_t :=
  mk_qconf (qc_qname q) (svcnm q) (autoq q) (tries q) (waitinit q) (waitretry q) (waitretrymax q) (memonly q) (mode q) (txtout q) v (workers q) (sync q).
Definition with_autoq (v : Z) (q : tmq_qconfig_t) : tmq_qconfig_t :=
  mk_qconf (qc_qname q) (svcnm q) v (tries q) (waitinit q) (waitretry q) (waitretrymax q) (memonly q) (mode q) (txtout q) (errorq q) (workers q) (sync q).
Definition with_tries (v : Z) (q : tmq_qconfig_t) : tmq_qconfig_t :=
  mk_qconf (qc_qname q) (svcnm q) (autoq q) v (waitinit q) (waitretry q) (waitretrymax q) (memonly q) (mode q) (txtout q) (errorq q) (workers q) (sync q).
Definition with_waitinit (v : Z) (q : tmq_qconfig_t) : tmq_qconfig_t :=
  mk_qconf (qc_qname q) (svcnm q) (autoq q) (tries q) v (waitretry q) (waitretrymax q) (memonly q) (mode q) (txtout q) (errorq q) (workers q) (sync q).
Definition with_waitretry (v : Z) (q : tmq_qconfig_t) : tmq_qconfig_t :=
  mk_qconf (qc_qname q) (svcnm q) (autoq q) (tries q) (waitinit q) v (waitretrymax q) (memonly q) (mode q) (txtout q) (errorq q) (workers q) (sync q).
Definition with_waitretrymax (v : Z) (q : tmq_qconfig_t) : tmq_qconfig_t :=
  mk_qconf (qc_qname q) (svcnm q) (autoq q) (tries q) (waitinit q) (waitretry q) v (memonly q) (mode q) (txtout q) (errorq q) (workers q) (sync q).
Definition with_mode (v : Z) (q : tmq_qconfig_t) : tmq_qconfig_t :=
  mk_qconf (qc_qname q) (svcnm q) (autoq q) (tries q) (waitinit q) (waitretry q) (waitretrymax q) (memonly q) v (txtout q) (errorq q) (workers q) (sync q).
Definition with_txtout (v : Z) (q : tmq_qconfig_t) : tmq_qconfig_t :=
  mk_qconf (qc_qname q) (svcnm q) (autoq q) (tries q) (waitinit q) (waitretry q) (waitretrymax q) (memonly q) (mode q) v (errorq q) (workers q) (sync q).
Definition with_workers (v : Z) (q : tmq_qconfig_t) : tmq_qconfig_t :=
  mk_qconf (qc_qname q) (svcnm q) (autoq q) (tries q) (waitinit q) (waitretry q) (waitretrymax q) (memonly q) (mode q) (txtout q) (errorq q) v (sync q).
Definition with_sync (v : Z) (q : tmq_qconfig_t) : tmq_qconfig_t :=
  mk_qconf (qc_qname q) (svcnm q) (autoq q) (tries q) (waitinit q) (waitretry q) (waitretrymax q) (memonly q) (mode q) (txtout q) (errorq q) (workers q) v.
Definition with_name (v : list Z) (q : tmq_qconfig_t) : tmq_qconfig_t :=
  mk_qconf v (svcnm q) (autoq q) (tries q) (waitinit q) (waitretry q) (waitretrymax q) (memonly q) (mode q) (txtout q) (errorq q) (workers q) (sync q).

(** [None] is [EXFAIL]; a parameter that is refused changes nothing. *)
Definition load_param (qconf : tmq_qconfig_t) (key value : list Z) : option tmq_qconfig_t :=
  if bool_decide (key = txt "svcnm") then Some (with_svcnm (strcpy_safe_z (S XATMI_SERVICE_NAME_LENGTH) value) qconf)
  else if bool_decide (key = txt "errorq") then Some (with_errorq (strcpy_safe_z TMQNAMELEN value) qconf)
  else if bool_decide (key = txt "tries") then v ← int_param 0 value; Some (with_tries v qconf)
  else if bool_decide (key = txt "autoq") then v ← autoq_param value; Some (with_autoq v qconf)
  else if bool_decide (key = txt "waitinit") then v ← int_param 0 value; Some (with_waitinit v qconf)
  else if bool_decide (key = txt "waitretry") then v ← int_param 0 value; Some (with_waitretry v qconf)
  else if bool_decide (key = txt "waitretryinc") then Some qconf
  else if bool_decide (key = txt "waitretrymax") then v ← int_param 0 value; Some (with_waitretrymax v qconf)
  else if bool_decide (key = txt "workers") then v ← int_param 1 value; Some (with_workers v qconf)
  else if bool_decide (key = txt "sync") then v ← sync_param value; Some (with_sync v qconf)
  else if bool_decide (key = txt "memonly") then Some qconf
  else if bool_decide (key = txt "txtout") then Some (with_txtout (atoi value) qconf)
  else if bool_decide (key = txt "mode") then v ← mode_param value; Some (with_mode v qconf)
  else None.

(** A token "key=value" into the configuration. *)
Definition load_token (qconf : tmq_qconfig_t) (tok : list Z) : option tmq_qconfig_t :=
  '(key, value) ← split_at_char 61 (strcpy_safe_z MAX_TOKEN_SIZE tok);
  match value with [] => None | _ => load_param qconf key value end.

(** The loop over the tokens: whether all were good, and what became of the configuration,
    which is changed in place.  Every token takes a byte of the text at least. *)
Fixpoint load_tokens (fuel : nat) (qconf : tmq_qconfig_t) (rest : list Z) : option (bool * tmq_qconfig_t) :=
  match fuel with
  | O => None
  | S fuel =>
    match strtok 44 rest with
    | None => Some (true, qconf)
    | Some (tok, rest) =>
      match load_token qconf tok with
      | None => Some (false, qconf)
      | Some qconf => load_tokens fuel qconf rest
      end
    end
  end.

Abbreviation qconfigs := (gmap (list Z) tmq_qconfig_t).

(** What a new queue starts from, and whether it came from the default queue. *)
Definition new_qconf (G_qconf : qconfigs) (name : list Z) : tmq_qconfig_t * bool :=
  let qconf := mk_qconf [] [] 0 0 0 0 0 0 TMQ_MODE_FIFO EXFAIL [] WORKERS_DEFAULT 0 in
  let '(qconf, got_default) := match G_qconf !! TMQ_DEFAULT_Q with Some dflt => (dflt, true) | None => (qconf, false) end in
  (with_name (strcpy_safe_z (S TMQNAMELEN) name) qconf, got_default).

(** [calloc] says whether there is memory for a new entry, which the code does not test.
    An entry is found by the whole name and entered by the name it has room for. *)
Definition tmq_qconf_addupd (calloc : bool) (qconfstr : list Z) (name : option (list Z)) (G_qconf : qconfigs) :
    option (Z * qconfigs) :=
  let first := match name with None => strtok 44 qconfstr | Some name => Some (name, qconfstr) end in
  match first with
  | None => Some (EXFAIL, G_qconf)
  | Some (p, rest) =>
    let buf := strcpy_safe_z MAX_TOKEN_SIZE p in
    match G_qconf !! buf with
    | Some qconf =>
      '(ok, qconf) ← load_tokens (S (length rest)) qconf rest;
      Some (if ok : bool then EXSUCCEED else EXFAIL, <[buf := qconf]> G_qconf)
    | None =>
      if negb calloc then None
      else
        let '(qconf, got_default) := new_qconf G_qconf buf in
        '(ok, qconf) ← load_tokens (S (length rest)) qconf rest;
        if negb (ok : bool) || bool_decide (qc_qname qconf = TMQ_DEFAULT_Q) && got_default then Some (EXFAIL, G_qconf)
        else Some (EXSUCCEED, <[qc_qname qconf := qconf]> G_qconf)
    end
  end.

(** ** Reading all of them *)

(** The loop over the entries of the common configuration, or the lines of a file. *)
Fixpoint addupd_all (calloc : bool) (l : list (list Z * option (list Z))) (G_qconf : qconfigs) : option (Z * qconfigs) :=
  match l with
  | [] => Some (EXSUCCEED, G_qconf)
  | (s, name) :: l =>
    '(ret, G_qconf) ← tmq_qconf_addupd calloc s name G_qconf;
    if negb (ret =? EXSUCCEED) then Some (EXFAIL, G_qconf) else addupd_all calloc l G_qconf
  end.

(** Lines that are left when blanks are taken out and comments ignored. *)
Definition conf_lines (lines : list (list Z)) : list (list Z * option (list Z)) :=
  omap (fun line =>
    match ndrx_str_strip line [32; 10; 13; 9] with
    | [] => None
    | 35 :: _ => None
    | line => Some (line, None)
    end) lines.

(** The section of the common configuration, when there is one, has names and definitions;
    the file, when it can be opened, has lines. *)
Definition tmq_reload_conf (calloc : bool) (csection : option (list (list Z * list Z))) (file : option (list (list Z)))
    (G_qconf : qconfigs) : option (Z * qconfigs) :=
  match csection, file with
  | Some kvs, _ => addupd_all calloc ((fun '(key, val) => (val, Some key)) <$> kvs) G_qconf
  | None, None => Some (EXFAIL, G_qconf)
  | None, Some lines => addupd_all calloc (conf_lines lines) G_qconf
  end.

(** ** Printing *)

(** The text up to its terminator. *)
Fixpoint cstring (s : list Z) : list Z := match s with [] => [] | c :: s => if c =? 0 then [] else c :: cstring s end.

(** [snprintf] of a text to the end of the string in [out_buf]. *)
Definition append_text (out_bufsz : Z) (out_buf s : list Z) : list Z :=
  out_buf ++ cstring (take (Z.to_nat (out_bufsz - zlen out_buf - 1)) s).

Definition qdef_text (qdef : tmq_qconfig_t) : list Z :=
  qc_qname qdef ++ txt ",svcnm=" ++ svcnm qdef ++ txt ",autoq=" ++ [autoq qdef] ++
  txt ",tries=" ++ fmt_d (tries qdef) ++ txt ",waitinit=" ++ fmt_d (waitinit qdef) ++
  txt ",waitretry=" ++ fmt_d (waitretry qdef) ++ txt ",waitretrymax=" ++ fmt_d (waitretrymax qdef) ++
  txt ",mode=" ++ (if mode qdef =? TMQ_MODE_LIFO then txt "lifo" else txt "fifo") ++
  txt ",txtout=" ++ fmt_d (txtout qdef) ++ txt ",workers=" ++ fmt_d (workers qdef).

(** The string left in [out_buf], and whether the default queue was used. *)
Definition tmq_build_q_def (qname : list Z) (out_bufsz : Z) (G_qconf : qconfigs) : option (list Z * bool) :=
  let r := match G_qconf !! qname with
           | Some q => Some (q, false)
           | None => match G_qconf !! TMQ_DEFAULT_Q with Some q => Some (q, true) | None => None end
           end in
  '(qdef, is_defaulted) ← r;
  let out_buf := append_text out_bufsz [] (qdef_text qdef) in
  let out_buf := match errorq qdef with [] => out_buf | _ => append_text out_bufsz out_buf (txt ",errorq=" ++ errorq qdef) end in
  let out_buf :=
    if negb (sync qdef =? 0) then
      append_text out_bufsz out_buf (txt ",sync=" ++ [if sync qdef =? TMQ_SYNC_TPACALL then 121 else 99])
    else out_buf in
  Some (out_buf, is_defaulted).

(** A queue whose definition is removed falls back to the default one. *)
Definition tmq_qconf_delete (qname : list Z) (G_qconf : qconfigs) : Z * qconfigs :=
  match G_qconf !! qname with Some _ => (EXSUCCEED, delete qname G_qconf) | None => (EXSUCCEED, G_qconf) end.

(** A copy of the definition for use without the lock. *)
Definition tmq_qconf_get_with_default_static (qname : list Z) (G_qconf : qconfigs) : option tmq_qconfig_t :=
  match G_qconf !! qname with Some q => Some q | None => G_qconf !! TMQ_DEFAULT_Q end.

(** ** What is read is in range *)

Definition plain (s : list Z) : Prop := (0 ∉ s) /\ (44 ∉ s).
Definition int_from (least z : Z) : Prop := least <= z <= INT_MAX.

Definition qconf_ok (q : tmq_qconfig_t) : Prop :=
  (length (qc_qname q) <= TMQNAMELEN)%nat /\ (0 ∉ qc_qname q) /\
  (length (svcnm q) <= XATMI_SERVICE_NAME_LENGTH)%nat /\ plain (svcnm q) /\
  (length (errorq q) < TMQNAMELEN)%nat /\ plain (errorq q) /\
  autoq q ∈ (txt "NYT" ++ [0]) /\ int_from 0 (tries q) /\ int_from 0 (waitinit q) /\ int_from 0 (waitretry q) /\
  int_from 0 (waitretrymax q) /\ memonly q = 0 /\ mode q ∈ [TMQ_MODE_FIFO; TMQ_MODE_LIFO] /\ int_from INT_MIN (txtout q) /\
  int_from 1 (workers q) /\ sync q ∈ [TMQ_SYNC_NONE; TMQ_SYNC_TPACALL; TMQ_SYNC_TPCOMMIT].

Definition configured (G : qconfigs) : Prop := map_Forall (fun k q => qc_qname q = k /\ qconf_ok q) G.

Lemma atoi_range s : int_from INT_MIN (atoi s).
Proof. unfold atoi. pose proof (i32_range (atol s)). unfold int_from, INT_MIN, INT_MAX in *. lia. Qed.

Lemma int_param_range least v z : int_param least v = Some z -> int_from least z.
Proof.
  unfold int_param. intros H. destruct (ndrx_isint v), (Z.ltb_spec (atoi v) least); cbn in H; simplify_eq. split; [lia|apply atoi_range].
Qed.

Lemma plain_take n s : plain s -> plain (take n s).
Proof. intros [H0 Hc]. split; intros H; [apply H0|apply Hc]; rewrite <-(take_drop n s), elem_of_app; auto. Qed.

Lemma sync_param_range v z : sync_param v = Some z -> z ∈ [TMQ_SYNC_NONE; TMQ_SYNC_TPACALL; TMQ_SYNC_TPCOMMIT].
Proof. unfold sync_param. intros H. repeat case_match; simplify_eq; set_solver. Qed.

Lemma autoq_param_range v z : autoq_param v = Some z -> z ∈ (txt "NYT" ++ [0]).
Proof. unfold autoq_param. by case_bool_decide; intros [= <-]. Qed.

Lemma mode_param_range v z : mode_param v = Some z -> z ∈ [TMQ_MODE_FIFO; TMQ_MODE_LIFO].
Proof. unfold mode_param. intros H. repeat case_bool_decide; simplify_eq; set_solver. Qed.

Create HintDb qconf.
#[local] Hint Resolve int_param_range sync_param_range autoq_param_range mode_param_range plain_take atoi_range : qconf.

Lemma load_param_ok q key v q' :
  load_param q key v = Some q' -> plain v -> qconf_ok q -> qconf_ok q' /\ qc_qname q' = qc_qname q.
Proof.
  intros E Hv H. unfold load_param in E. unfold qconf_ok in *. destruct q. cbn in H.
  repeat (case_bool_decide; [try (apply bind_Some_inv in E as (z & Ez & E)); injection E as <-; cbn in *; split; [|done];
    destruct H as (? & ? & ? & ? & ? & ? & ? & ? & ? & ? & ? & ? & ? & ? & ? & ?); split_and!; eauto with qconf|]); [..|done].
  all: rewrite length_take; unfold XATMI_SERVICE_NAME_LENGTH, TMQNAMELEN; lia.
Qed.

(** ** Tokens *)

Lemma split_at_char_inv c s a b : split_at_char c s = Some (a, b) -> s = a ++ c :: b /\ (c ∉ a).
Proof.
  revert a b. induction s as [|x s IH]; intros a b E; cbn in E; [done|]. destruct (Z.eqb_spec x c) as [->|Hne].
  { simplify_eq. split; [done|]. apply not_elem_of_nil. }
  destruct (split_at_char c s) as [[a' b']|]; [|done]. simplify_eq. destruct (IH _ _ eq_refl) as [-> Hc].
  split; [done|]. by rewrite not_elem_of_cons.
Qed.

Lemma split_at_char_free c s : split_at_char c s = None -> c ∉ s.
Proof.
  induction s as [|x s IH]; cbn; intros E; [apply not_elem_of_nil|]. destruct (Z.eqb_spec x c) as [|Hne]; [done|].
  destruct (split_at_char c s) as [[]|]; [done|]. rewrite not_elem_of_cons. split; [congruence|by apply IH].
Qed.

Lemma skip_delim_suffix c s : exists pre, s = pre ++ skip_delim c s.
Proof.
  induction s as [|x s IH]; [by exists []|]. cbn. destruct (x =? c); [|by exists []].
  destruct IH as [pre E]. exists (x :: pre). cbn. by rewrite <-E.
Qed.

Lemma strtok_inv c s tok rest :
  strtok c s = Some (tok, rest) -> (c ∉ tok) /\ (length rest < length s)%nat /\ forall x, (x ∈ tok \/ x ∈ rest) -> x ∈ s.
Proof.
  unfold strtok. destruct (skip_delim_suffix c s) as [pre Es]. destruct (skip_delim c s) as [|y s'] eqn:Ed; [done|]. intros E.
  destruct (split_at_char c (y :: s')) as [[a b]|] eqn:Ea.
  - injection E as <- <-. destruct (split_at_char_inv _ _ _ _ Ea) as [Ey Hc]. rewrite Es, Ey. split; [done|]. split.
    + rewrite !length_app. cbn. lia.
    + intros x Hx. rewrite !elem_of_app, elem_of_cons. naive_solver.
  - injection E as <- <-. split; [by apply split_at_char_free|]. split.
    + rewrite Es, length_app. cbn. lia.
    + intros x [Hx|Hx]; [|by apply elem_of_nil in Hx]. rewrite Es, elem_of_app. by right.
Qed.

Lemma load_token_ok q tok q' :
  load_token q tok = Some q' -> plain tok -> qconf_ok q -> qconf_ok q' /\ qc_qname q' = qc_qname q.
Proof.
  unfold load_token. intros E Ht H. apply bind_Some_inv in E as ([k v] & Es & E). destruct (split_at_char_inv _ _ _ _ Es) as [Et _].
  assert (plain v).
  { apply (plain_take (MAX_TOKEN_SIZE - 1)) in Ht. unfold strcpy_safe_z in Et. rewrite Et in Ht. destruct Ht as [H0 Hc].
    split; intros Hv; [apply H0|apply Hc]; rewrite elem_of_app, elem_of_cons; auto. }
  destruct v; [done|]. by eapply load_param_ok.
Qed.

(** The loop ends, with a configuration in range. *)
Lemma load_tokens_ok fuel q rest :
  (length rest < fuel)%nat -> 0 ∉ rest -> qconf_ok q ->
  exists ok q', load_tokens fuel q rest = Some (ok, q') /\ qconf_ok q' /\ qc_qname q' = qc_qname q.
Proof.
  revert q rest. induction fuel as [|fuel IH]; intros q rest Hf H0 H; [lia|]. cbn [load_tokens].
  destruct (strtok 44 rest) as [[tok rest']|] eqn:Et; [|by eauto]. destruct (strtok_inv _ _ _ _ Et) as (Hc & Hl & Hin).
  destruct (load_token q tok) as [q'|] eqn:El; [|by eauto].
  destruct (load_token_ok _ _ _ El) as [H' En]; [split; [|done]; intros Hx; apply H0, Hin; by left|done|].
  destruct (IH q' rest') as (ok & q2 & E & H2 & En2); [lia|intros Hx; apply H0, Hin; by right|done|].
  exists ok, q2. split_and!; [done|done|congruence].
Qed.

Lemma new_qconf_ok G name q d : configured G -> 0 ∉ name -> new_qconf G name = (q, d) -> qconf_ok q /\ qc_qname q = take TMQNAMELEN name.
Proof.
  intros HG H0 E. unfold new_qconf in E.
  assert (Hn : (length (take TMQNAMELEN name) <= TMQNAMELEN)%nat /\ (0 ∉ take TMQNAMELEN name)).
  { split; [rewrite length_take; lia|]. intros H. apply H0. rewrite <-(take_drop TMQNAMELEN name), elem_of_app. by left. }
  destruct (G !! TMQ_DEFAULT_Q) as [dq|] eqn:Ed; injection E as <- <-; (split; [|done]).
  - destruct (HG _ _ Ed) as [_ (_ & _ & Hq)]. destruct dq. destruct Hn. split_and!; [done|done|apply Hq..].
  - destruct Hn. unfold qconf_ok. cbn. unfold int_from, INT_MIN, INT_MAX, EXFAIL, WORKERS_DEFAULT, plain, TMQNAMELEN.
    split_and!; try done; try lia; try apply not_elem_of_nil; set_solver.
Qed.

(** Reading a definition always ends and keeps all configurations in range and under their
    name. *)
Lemma qconf_addupd_ok str name G :
  configured G -> 0 ∉ str -> (forall n, name = Some n -> 0 ∉ n) ->
  exists ret G', tmq_qconf_addupd true str name G = Some (ret, G') /\ configured G'.
Proof.
  intros HG H0 Hn. unfold tmq_qconf_addupd.
  set (first := match name with None => _ | Some _ => _ end).
  assert (Hf : forall p rest, first = Some (p, rest) -> (0 ∉ p) /\ (0 ∉ rest)).
  { intros p rest E. subst first. destruct name as [n|]; [simplify_eq; eauto|]. destruct (strtok_inv _ _ _ _ E) as (_ & _ & Hin).
    split; intros Hx; apply H0, Hin; auto. }
  destruct first as [[p rest]|]; [|by eauto]. destruct (Hf p rest eq_refl) as [Hp Hr].
  assert (Hb : 0 ∉ strcpy_safe_z MAX_TOKEN_SIZE p).
  { intros H. apply Hp. rewrite <-(take_drop (MAX_TOKEN_SIZE - 1) p), elem_of_app. by left. }
  destruct (G !! strcpy_safe_z MAX_TOKEN_SIZE p) as [q|] eqn:Eq.
  - destruct (HG _ _ Eq) as [En Hq]. destruct (load_tokens_ok (S (length rest)) q rest) as (ok & q' & -> & Hq' & En'); [lia|done|done|].
    cbn. eexists _, _. split; [done|]. apply map_Forall_insert_2; [|done]. split; [by rewrite En', En|done].
  - cbn [negb]. destruct (new_qconf G _) as [q d] eqn:En. destruct (new_qconf_ok _ _ _ _ HG Hb En) as [Hq _].
    destruct (load_tokens_ok (S (length rest)) q rest) as (ok & q' & -> & Hq' & En'); [lia|done|done|]. cbn.
    destruct (negb ok || _); [by eauto|]. eexists _, _. split; [done|]. by apply map_Forall_insert_2.
Qed.

Lemma addupd_all_ok l G :
  configured G -> Forall (fun x => (0 ∉ x.1) /\ forall n, x.2 = Some n -> 0 ∉ n) l ->
  exists ret G', addupd_all true l G = Some (ret, G') /\ configured G'.
Proof.
  intros HG Hl. revert G HG. induction Hl as [|[s name] l [Hs Hn] Hl IH]; intros G HG; cbn [addupd_all]; [by eauto|].
  destruct (qconf_addupd_ok s name G HG Hs Hn) as (ret & G' & -> & HG'). cbn. destruct (negb (ret =? EXSUCCEED)); eauto.
Qed.

(** Texts without a terminator inside. *)
Definition texts (csection : option (list (list Z * list Z))) (file : option (list (list Z))) : Prop :=
  (forall kvs, csection = Some kvs -> Forall (fun x => (0 ∉ x.1) /\ (0 ∉ x.2)) kvs) /\
  (forall ls, file = Some ls -> Forall (fun l => 0 ∉ l) ls).

Lemma reload_ok csection file G :
  configured G -> texts csection file -> exists ret G', tmq_reload_conf true csection file G = Some (ret, G') /\ configured G'.
Proof.
  intros HG [Hc Hf]. unfold tmq_reload_conf. destruct csection as [kvs|].
  - apply addupd_all_ok; [done|]. apply Forall_fmap. specialize (Hc _ eq_refl). eapply Forall_impl; [exact Hc|].
    intros [k v] [Hk Hv]. split; [done|]. by intros n [= <-].
  - destruct file as [ls|]; [|by eauto]. apply addupd_all_ok; [done|]. specialize (Hf _ eq_refl). unfold conf_lines.
    induction Hf as [|l ls Hl Hls IH]; [by constructor|]. cbn [omap list_omap].
    assert (Hs : 0 ∉ ndrx_str_strip l [32; 10; 13; 9]) by (unfold ndrx_str_strip; rewrite list_elem_of_filter; naive_solver).
    destruct (ndrx_str_strip l _) as [|c s] eqn:Es; [done|]. repeat case_match; simplify_eq; try done; constructor; try done; by split.
Qed.

(** ** Printed definitions can be read *)

(** The tokens of the printed definition, behind the name. *)
Definition qdef_tokens (q : tmq_qconfig_t) : list (list Z) :=
  [ txt "svcnm" ++ 61 :: svcnm q; txt "autoq" ++ 61 :: [autoq q]; txt "tries" ++ 61 :: fmt_d (tries q); txt "waitinit" ++ 61 :: fmt_d (waitinit q);
    txt "waitretry" ++ 61 :: fmt_d (waitretry q); txt "waitretrymax" ++ 61 :: fmt_d (waitretrymax q);
    txt "mode" ++ 61 :: (if mode q =? TMQ_MODE_LIFO then txt "lifo" else txt "fifo");
    txt "txtout" ++ 61 :: fmt_d (txtout q); txt "workers" ++ 61 :: fmt_d (workers q) ] ++
  (match errorq q with [] => [] | _ => [txt "errorq" ++ 61 :: errorq q] end) ++
  (if negb (sync q =? 0) then [txt "sync" ++ 61 :: [if sync q =? TMQ_SYNC_TPACALL then 121 else 99]] else []).

Definition commas (toks : list (list Z)) : list Z := mjoin ((fun t => 44 :: t) <$> toks).

Definition qdef_full (q : tmq_qconfig_t) : list Z := qc_qname q ++ commas (qdef_tokens q).

Lemma qdef_full_eq q :
  qdef_full q = qdef_text q ++ (match errorq q with [] => [] | _ => txt ",errorq=" ++ errorq q end) ++
    (if negb (sync q =? 0) then txt ",sync=" ++ [if sync q =? TMQ_SYNC_TPACALL then 121 else 99] else []).
Proof.
  unfold qdef_full, qdef_tokens, qdef_text, commas. rewrite !fmap_app, !join_app. cbn [fmap list_fmap mjoin list_join].
  rewrite <-!app_assoc. destruct (errorq q), (negb (sync q =? 0)); cbn; rewrite ?app_nil_r; reflexivity.
Qed.

(** A token that is read as one. *)
Definition token (t : list Z) : Prop := t <> [] /\ (44 ∉ t).

Fixpoint load_all (q : tmq_qconfig_t) (toks : list (list Z)) : option tmq_qconfig_t :=
  match toks with [] => Some q | t :: toks => q ← load_token q t; load_all q toks end.

Lemma load_commas f q t toks q' :
  Forall token (t :: toks) -> (length toks + 1 < f)%nat -> load_all q (t :: toks) = Some q' ->
  load_tokens f q (t ++ commas toks) = Some (true, q').
Proof.
  revert f q t. induction toks as [|t' toks IH]; intros f q t Ht Hf E; inversion_clear Ht as [|?? [Hne Hc] Ht']; (destruct f as [|f]; [lia|]);
    cbn [load_all] in E; apply bind_Some_inv in E as (q1 & E1 & E); cbn [load_tokens].
  - change (commas []) with ([] : list Z). rewrite app_nil_r, strtok_last, E1 by done.
    destruct f as [|f]; [cbn in Hf; lia|]. cbn in *. by simplify_eq.
  - change (commas (t' :: toks)) with (44 :: t' ++ commas toks). rewrite strtok_app, E1 by done.
    apply IH; [done|cbn in Hf; lia|done].
Qed.

(** A value that fits into a token. *)
Definition fits (v : list Z) : Prop := v <> [] /\ (length v <= 30)%nat.

Lemma load_token_kv q key v :
  bool_decide (61 ∈ key) = false -> (length key <=? 30)%nat = true -> fits v -> load_token q (key ++ 61 :: v) = load_param q key v.
Proof.
  intros Hk%bool_decide_eq_false Hl%Nat.leb_le [Hv Hv']. unfold load_token, strcpy_safe_z, MAX_TOKEN_SIZE.
  rewrite take_ge by (rewrite length_app; cbn; lia). rewrite split_at_char_app by done. cbn. by destruct v.
Qed.

Lemma fits_one c : fits [c].
Proof. split; [done|cbn; lia]. Qed.

Lemma fits_int least z : INT_MIN <= least -> int_from least z -> fits (fmt_d z).
Proof.
  intros Hl [H1 H2]. pose proof (fmt_d_length z) as Hn. unfold in_long, LONG_MIN, LONG_MAX, INT_MIN, INT_MAX in *.
  specialize (Hn ltac:(lia)). split; [|lia]. intros E. rewrite E in Hn. cbn in Hn. lia.
Qed.

Lemma fmt_d_digits z : 0 <= z <= INT_MAX -> forallb isdigit (fmt_d z) = true.
Proof.
  intros Hz. unfold fmt_d, fmt_u. destruct (Z.ltb_spec z 0); [lia|]. rewrite forallb_forall. intros c Hc.
  apply in_map_iff in Hc as (d & <- & Hd). pose proof (digits_range 64 10 z ltac:(lia) ltac:(lia)) as Hr.
  rewrite Forall_forall in Hr. rewrite <-list_elem_of_In in Hd. specialize (Hr d Hd). unfold digit_char, isdigit. destruct (Z.ltb_spec d 10); lia.
Qed.

Lemma int_param_fmt least z : 0 <= least -> int_from least z -> int_param least (fmt_d z) = Some z.
Proof.
  intros Hl [H1 H2]. unfold int_param. rewrite atoi_fmt by (unfold INT_MIN; lia).
  assert (ndrx_isint (fmt_d z) = true) as ->; [|destruct (Z.ltb_spec z least); [lia|done]].
  pose proof (fmt_d_digits z ltac:(lia)) as Hd. pose proof (fmt_d_length z ltac:(unfold in_long, LONG_MIN, LONG_MAX, INT_MAX in *; lia)) as Hn.
  unfold ndrx_isint. destruct (fmt_d z) as [|c s]; [cbn in Hn; lia|]. assert (c <> 45) by (cbn in Hd; unfold isdigit in Hd; lia).
  repeat case_match; simplify_eq; done.
Qed.

(** What the tokens make of a configuration: everything but the name, and an error queue
    and a mode of synchronisation if there is one. *)
Definition take_over (q base : tmq_qconfig_t) : tmq_qconfig_t :=
  mk_qconf (qc_qname base) (svcnm q) (autoq q) (tries q) (waitinit q) (waitretry q) (waitretrymax q) (memonly base) (mode q)
    (txtout q) (match errorq q with [] => errorq base | _ => errorq q end) (workers q) (if sync q =? 0 then sync base else sync q).

Ltac at_key :=
  unfold load_param at 1;
  repeat rewrite bool_decide_eq_false_2 by (let H := fresh in intros H; vm_compute in H; discriminate H);
  rewrite bool_decide_eq_true_2 by reflexivity.

Lemma autoq_param_same a : a ∈ (txt "NYT" ++ [0]) -> autoq_param [a] = Some a.
Proof.
  intros Ha. unfold autoq_param. change (default 0 (head [a])) with a. assert (toupper a = a) as ->.
  { revert a Ha. apply Forall_forall. repeat constructor. }
  by rewrite bool_decide_eq_true_2.
Qed.

Lemma mode_param_same m : m ∈ [TMQ_MODE_FIFO; TMQ_MODE_LIFO] ->
  let v := if m =? TMQ_MODE_LIFO then txt "lifo" else txt "fifo" in fits v /\ mode_param v = Some m.
Proof. intros Hm. cbn zeta. revert m Hm. apply Forall_forall. repeat constructor; cbn; lia || done. Qed.

Lemma load_first q base :
  qconf_ok q -> svcnm q <> [] ->
  load_all base (take 9 (qdef_tokens q)) =
  Some (mk_qconf (qc_qname base) (svcnm q) (autoq q) (tries q) (waitinit q) (waitretry q) (waitretrymax q) (memonly base) (mode q)
    (txtout q) (errorq base) (workers q) (sync base)).
Proof.
  intros (_ & _ & Hs & _ & _ & _ & Ha & Ht & Hw & Hr & Hm & _ & Ho & Hx & Hk & _) Hne.
  assert (Hi : forall z, int_from 0 z -> fits (fmt_d z)) by (intros z Hz; apply (fits_int 0); [done|exact Hz]).
  destruct (mode_param_same _ Ho) as [Hmf Hmp].
  unfold qdef_tokens. cbn [take app load_all].
  rewrite load_token_kv by (done || by split). at_key. cbn [mbind option_bind].
  rewrite load_token_kv by (done || apply fits_one). at_key. rewrite autoq_param_same by done. cbn [mbind option_bind].
  do 4 (rewrite load_token_kv by (done || by apply Hi); at_key; rewrite int_param_fmt by done; cbn [mbind option_bind]).
  rewrite load_token_kv by done. at_key. rewrite Hmp. cbn [mbind option_bind].
  rewrite load_token_kv by (done || by apply (fits_int INT_MIN)). at_key. cbn [mbind option_bind].
  rewrite load_token_kv by (done || by apply (fits_int 1)). at_key. rewrite int_param_fmt by done. cbn [mbind option_bind].
  rewrite atoi_fmt by exact Hx. cbn. unfold strcpy_safe_z. rewrite take_ge by done. reflexivity.
Qed.

Lemma load_all_app q q1 ts ts' : load_all q ts = Some q1 -> load_all q (ts ++ ts') = load_all q1 ts'.
Proof.
  revert q. induction ts as [|t ts IH]; intros q E; cbn [load_all app] in *; [by simplify_eq|].
  apply bind_Some_inv in E as (q2 & E2 & E). rewrite E2. cbn. by apply IH.
Qed.

Lemma load_qdef q base : qconf_ok q -> svcnm q <> [] -> load_all base (qdef_tokens q) = Some (take_over q base).
Proof.
  intros Hq Hne. pose proof (load_first q base Hq Hne) as E1. unfold qdef_tokens in *. cbn [take app] in E1.
  erewrite load_all_app by exact E1. unfold take_over. destruct Hq as (_ & _ & _ & _ & He & _ & _ & _ & _ & _ & _ & _ & _ & _ & _ & Hsy).
  assert (Hsp : sync q <> 0 -> sync_param [if sync q =? TMQ_SYNC_TPACALL then 121 else 99] = Some (sync q)).
  { revert Hsy. generalize (sync q).
    refine (proj1 (Forall_forall (fun z => z <> 0 -> sync_param [if z =? TMQ_SYNC_TPACALL then 121 else 99] = Some z) _) _).
    repeat constructor; done. }
  unfold TMQNAMELEN in He. destruct (errorq q) as [|c s] eqn:Ee; cbn [app load_all].
  - destruct (Z.eqb_spec (sync q) 0) as [E0|E0]; cbn [negb load_all]; [done|].
    rewrite load_token_kv by (done || apply fits_one). at_key. rewrite Hsp by done. reflexivity.
  - rewrite load_token_kv by (done || (split; [done|cbn in *; lia])). at_key. cbn [mbind option_bind].
    unfold strcpy_safe_z. rewrite take_ge by (unfold TMQNAMELEN; cbn in *; lia).
    destruct (Z.eqb_spec (sync q) 0) as [E0|E0]; cbn [negb load_all]; [done|].
    rewrite load_token_kv by (done || apply fits_one). at_key. rewrite Hsp by done. reflexivity.
Qed.

(** What can be in a printed token: neither the terminator nor a comma. *)
Lemma plain_kv key v : bool_decide (44 ∈ key) = false -> bool_decide (0 ∈ key) = false -> plain v -> plain (key ++ 61 :: v).
Proof.
  intros Hc%bool_decide_eq_false H0%bool_decide_eq_false [Hv0 Hvc].
  split; rewrite elem_of_app, elem_of_cons; intros [?|[?|?]]; done.
Qed.

Lemma plain_fmt z : plain (fmt_d z).
Proof. split; (apply num_char_notin; [apply fmt_d_chars|]); unfold num_char; lia. Qed.

Lemma qdef_tokens_plain q : qconf_ok q -> autoq q <> 0 -> Forall plain (qdef_tokens q).
Proof.
  intros (_ & _ & _ & Hs & _ & He & Ha & _ & _ & _ & _ & _ & Ho & _ & _ & Hsy) Hna.
  assert (H1 : forall c, c <> 0 -> c <> 44 -> plain [c]) by (intros c ??; split; rewrite list_elem_of_singleton; congruence).
  assert (Hau : autoq q <> 44) by (revert Ha; generalize (autoq q); refine (proj1 (Forall_forall (fun a => a <> 44) _) _); repeat constructor; done).
  unfold qdef_tokens. repeat apply Forall_app_2.
  - repeat (apply Forall_cons_2; [apply plain_kv; [done|done|]|]); [done|by apply H1|apply plain_fmt..| |apply plain_fmt|apply plain_fmt|apply Forall_nil_2].
    destruct (mode q =? TMQ_MODE_LIFO); split; by apply (bool_decide_eq_false_1 _).
  - destruct (errorq q); [apply Forall_nil_2|]. apply Forall_cons_2; [|apply Forall_nil_2]. by apply plain_kv.
  - destruct (negb _); [|apply Forall_nil_2]. apply Forall_cons_2; [|apply Forall_nil_2]. apply plain_kv; [done|done|].
    destruct (_ =? _); by apply H1.
Qed.

Lemma cstring_id s : 0 ∉ s -> cstring s = s.
Proof.
  induction s as [|c s IH]; intros H; [done|]. rewrite not_elem_of_cons in H. cbn. destruct (Z.eqb_spec c 0); [lia|]. by rewrite IH by tauto.
Qed.

Lemma append_whole sz buf s : 0 ∉ s -> zlen buf + zlen s < sz -> append_text sz buf s = buf ++ s.
Proof. intros H0 Hl. unfold append_text. rewrite take_ge by (unfold zlen in *; lia). by rewrite cstring_id. Qed.

Lemma fmt_short least z : INT_MIN <= least -> int_from least z -> zlen (fmt_d z) <= 20.
Proof.
  intros Hl [H1 H2]. pose proof (fmt_d_length z) as Hn. unfold in_long, LONG_MIN, LONG_MAX, INT_MIN, INT_MAX in *.
  specialize (Hn ltac:(lia)). unfold zlen. lia.
Qed.

Lemma qdef_text_short q : qconf_ok q -> zlen (qdef_text q) <= 249.
Proof.
  intros (Hn & _ & Hs & _ & _ & _ & _ & Ht & Hw & Hr & Hm & _ & _ & Hx & Hk & _).
  apply (fmt_short 0) in Ht, Hw, Hr, Hm; try done. apply (fmt_short INT_MIN) in Hx; [|done]. apply (fmt_short 1) in Hk; [|done].
  assert (zlen (if mode q =? TMQ_MODE_LIFO then txt "lifo" else txt "fifo") = 4) by (by destruct (_ =? _)).
  unfold qdef_text. rewrite !zlen_app.
  unfold TMQNAMELEN, XATMI_SERVICE_NAME_LENGTH in *. assert (zlen (qc_qname q) <= 15 /\ zlen (svcnm q) <= 30) as [? ?] by (unfold zlen; lia).
  repeat match goal with |- context [zlen (txt ?k)] => let n := eval vm_compute in (zlen (txt k)) in change (zlen (txt k)) with n end.
  change (zlen [autoq q]) with 1. lia.
Qed.

Lemma commas_plain toks : Forall plain toks -> 0 ∉ commas toks.
Proof.
  induction 1 as [|t toks [H0 _] Ht IH]; [apply not_elem_of_nil|]. change (commas (t :: toks)) with (44 :: t ++ commas toks).
  rewrite elem_of_cons, elem_of_app. naive_solver.
Qed.

Lemma build_q_def_ok q qn G sz :
  G !! qn = Some q -> qconf_ok q -> autoq q <> 0 -> 512 <= sz -> tmq_build_q_def qn sz G = Some (qdef_full q, false).
Proof.
  intros E Hq Ha Hsz. unfold tmq_build_q_def. rewrite E. cbn [mbind option_bind].
  assert (H0 : 0 ∉ qdef_full q).
  { unfold qdef_full. rewrite elem_of_app. intros [H|H]; [by apply Hq in H|]. by apply commas_plain in H; [|by apply qdef_tokens_plain]. }
  rewrite qdef_full_eq in *. rewrite elem_of_app, elem_of_app in H0. pose proof (qdef_text_short q Hq) as Hl.
  destruct Hq as (_ & _ & _ & _ & He & _). unfold TMQNAMELEN in He.
  rewrite (append_whole sz []) by (tauto || (change (zlen []) with 0; lia)). cbn [app].
  destruct (errorq q) as [|c s] eqn:Ee;
    [|rewrite (append_whole sz (qdef_text q)) by (tauto || (rewrite zlen_app; change (zlen (txt ",errorq=")) with 8; unfold zlen in *; cbn in *; lia))].
  - destruct (negb _); [|by rewrite app_nil_r]. rewrite append_whole; [done|tauto|].
    rewrite zlen_app. change (zlen (txt ",sync=")) with 6. unfold zlen in *. cbn in *. lia.
  - destruct (negb _); [|by rewrite app_nil_r]. rewrite append_whole; [by rewrite <-app_assoc|tauto|].
    rewrite !zlen_app. change (zlen (txt ",sync=")) with 6. change (zlen (txt ",errorq=")) with 8. unfold zlen in *. cbn in *. lia.
Qed.

(** Reading a printed definition: [base] is what the reader has for the queue, or makes for
    a new one. *)
Lemma read_back q base rest :
  qconf_ok q -> svcnm q <> [] -> autoq q <> 0 -> qdef_full q = qc_qname q ++ 44 :: rest ->
  load_tokens (S (length rest)) base rest = Some (true, take_over q base).
Proof.
  intros Hq Hs Ha E. unfold qdef_full in E. apply app_inv_head in E.
  destruct (qdef_tokens q) as [|t toks] eqn:Et; [done|]. change (commas (t :: toks)) with (44 :: t ++ commas toks) in E. injection E as <-.
  assert (Hp : Forall plain (t :: toks)) by (rewrite <-Et; by apply qdef_tokens_plain).
  assert (Ht : Forall token (t :: toks)).
  { assert (Hne : Forall (fun t => t <> []) (t :: toks)).
    { rewrite <-Et. unfold qdef_tokens. destruct (errorq q), (negb _); repeat constructor; done. }
    apply Forall_forall. intros x Hx. rewrite Forall_forall in Hp, Hne. split; [by apply Hne|by apply Hp]. }
  apply load_commas; [done| |rewrite <-Et; by apply load_qdef].
  rewrite length_app. inversion_clear Ht as [|?? [Hne _] Ht']. destruct t as [|c t]; [done|]. cbn.
  assert (length toks <= length (commas toks))%nat; [|lia]. clear. induction toks as [|t' toks IH]; [done|].
  change (commas (t' :: toks)) with (44 :: t' ++ commas toks). cbn. rewrite length_app. lia.
Qed.

Lemma take_over_self q : take_over q q = q.
Proof.
  destruct q as [n sv a t w1 w2 w3 mo md tx er wk sy]. unfold take_over. cbn. f_equal; [by destruct er|by destruct (sy =? 0)].
Qed.

Lemma take_over_new q : qconf_ok q -> take_over q (new_qconf ∅ (qc_qname q)).1 = q.
Proof.
  intros (Hn & _ & _ & _ & _ & _ & _ & _ & _ & _ & _ & Hm & _). unfold new_qconf. rewrite lookup_empty. cbn [fst].
  destruct q as [n sv a t w1 w2 w3 mo md tx er wk sy]. unfold take_over, strcpy_safe_z. cbn in *.
  unfold TMQNAMELEN in Hn. rewrite take_ge by lia. f_equal; [done|by destruct er|]. destruct (Z.eqb_spec sy 0); congruence.
Qed.

Lemma strtok_full q : qconf_ok q -> qc_qname q <> [] -> 44 ∉ qc_qname q ->
  exists rest, qdef_full q = qc_qname q ++ 44 :: rest /\ strtok 44 (qdef_full q) = Some (qc_qname q, rest).
Proof.
  intros Hq Hne Hc. unfold qdef_full. destruct (qdef_tokens q) as [|t toks] eqn:Et; [done|].
  change (commas (t :: toks)) with (44 :: t ++ commas toks). eexists. split; [done|]. by apply strtok_app.
Qed.

(** C29: printed definitions are read back: for every queue whose definition was read, from
    the common configuration or from a file (texts without terminator inside), whose name
    is not empty and has no comma, which has a service and says whether it is automatic,
    [tmq_build_q_def] prints into a buffer of at least 512 bytes a text which
    [tmq_qconf_addupd] accepts; a server that has this configuration is left as it is, and
    one without any gets exactly this definition.  Without a service or without [autoq]
    the text is not read back ([no_service_refused], [autoq_unset_cut]). *)
Theorem qdef_roundtrip csection file ret G qn q sz :
  texts csection file -> tmq_reload_conf true csection file ∅ = Some (ret, G) -> G !! qn = Some q ->
  qn <> [] -> 44 ∉ qn -> svcnm q <> [] -> autoq q <> 0 -> 512 <= sz ->
  exists text, tmq_build_q_def qn sz G = Some (text, false) /\
    tmq_qconf_addupd true text None G = Some (EXSUCCEED, G) /\
    tmq_qconf_addupd true text None ∅ = Some (EXSUCCEED, {[qn := q]}).
Proof.
  intros Hx E Eq Hne Hc Hs Ha Hsz. destruct (reload_ok csection file ∅ (map_Forall_empty _) Hx) as (ret' & G' & E' & HG).
  rewrite E in E'. injection E' as <- <-. destruct (HG _ _ Eq) as [<- Hq].
  exists (qdef_full q). split; [by apply build_q_def_ok|]. destruct (strtok_full q Hq Hne Hc) as (rest & Ef & Et).
  assert (Eb : strcpy_safe_z MAX_TOKEN_SIZE (qc_qname q) = qc_qname q).
  { destruct Hq as [Hn _]. unfold strcpy_safe_z, MAX_TOKEN_SIZE, TMQNAMELEN in *. apply take_ge. lia. }
  unfold tmq_qconf_addupd. rewrite Et, Eb. split.
  - rewrite Eq, (read_back q q rest Hq Hs Ha Ef), take_over_self. cbn. by rewrite insert_id.
  - rewrite lookup_empty. cbn [negb]. pose proof (take_over_new q Hq) as Ht. destruct (new_qconf ∅ _) as [base d] eqn:En. cbn [fst] in Ht.
    rewrite (read_back q base rest Hq Hs Ha Ef), Ht. unfold new_qconf in En. rewrite lookup_empty in En. injection En as _ <-.
    cbn. by rewrite andb_false_r.
Qed.

Module ConfDemo.

Definition lines : list (list Z) :=
  [ txt "# queues"; txt "@,autoq=n"; txt "VISA,svcnm=VISAIF,autoq=y,tries=3,waitinit=30,mode=lifo,errorq=ERRQ,sync=c" ].
Definition conf : qconfigs := match tmq_reload_conf true None (Some lines) ∅ with Some (_, G) => G | None => ∅ end.
Definition visa : tmq_qconfig_t := default (new_qconf ∅ []).1 (conf !! txt "VISA").

Definition def_of (s : string) (G : qconfigs) : option (Z * qconfigs) := tmq_qconf_addupd true (txt s) None G.
Definition printed (s qn : string) : option (list Z) :=
  '(_, G) ← def_of s ∅; '(text, _) ← tmq_build_q_def (txt qn) 512 G; Some text.

End ConfDemo.
Import ConfDemo.

Lemma qdef_roundtrip_witness :
  mode visa = TMQ_MODE_LIFO /\
  exists text, tmq_build_q_def (txt "VISA") 512 conf = Some (text, false) /\
    tmq_qconf_addupd true text None ∅ = Some (EXSUCCEED, {[txt "VISA" := visa]}).
Proof.
  split; [vm_compute; reflexivity|].
  destruct (qdef_roundtrip None (Some lines) EXSUCCEED conf (txt "VISA") visa 512) as (text & E1 & _ & E2);
    [|vm_compute; reflexivity|vm_compute; reflexivity|vm_compute; discriminate| |vm_compute; discriminate|vm_compute; discriminate|lia|].
  - split; [intros kvs H; discriminate H|]. intros ls [= <-]. repeat apply Forall_cons_2; [..|apply Forall_nil_2];
      apply (bool_decide_eq_false_1 _); vm_compute; reflexivity.
  - apply (bool_decide_eq_false_1 _). vm_compute. reflexivity.
  - exists text. split; [exact E1|exact E2].
Defined.

(** A definition that is refused leaves an existing queue with the parameters in front of
    the bad one. *)
Lemma partial_update :
  match def_of "VISA,tries=9,mode=none" conf with
  | Some (ret, G) => ret = EXFAIL /\ tries <$> G !! txt "VISA" = Some 9
  | None => False
  end.
Proof. vm_compute. split; reflexivity. Qed.

(** Without [autoq] the printed definition ends where its value should be, and what comes
    later is glued to it. *)
Lemma autoq_unset_cut : printed "Q1,svcnm=SVC,tries=3,errorq=ERRQ" "Q1" = Some (txt "Q1,svcnm=SVC,autoq=,errorq=ERRQ").
Proof. vm_compute. reflexivity. Qed.

(** Without a service it is printed with an empty value, which is refused. *)
Lemma no_service_refused :
  (text ← printed "Q1,autoq=n" "Q1"; r ← tmq_qconf_addupd true text None ∅; Some r.1) = Some EXFAIL.
Proof. vm_compute. reflexivity. Qed.

(** A queue with a name of more than 15 characters is not found again by its definition:
    what should be an update replaces it by a new one. *)
Lemma long_name_lost :
  ('(_, G) ← def_of "ABCDEFGHIJKLMNOPQ,tries=9" ∅; '(_, G) ← def_of "ABCDEFGHIJKLMNOPQ,waitinit=1" G;
   q ← G !! txt "ABCDEFGHIJKLMNO"; Some (tries q, waitinit q)) = Some (0, 1).
Proof. vm_compute. reflexivity. Qed.
