(* ===== verification/Exnet.v ===== *)
(** * Messages over a stream socket

    [libexnet/exnet.c]: how the bridge puts messages on a connection, each behind
    its length, and takes them off again however the network cuts the stream.

    [msgsizemax] is [NDRX_MSGSIZEMAX], the size of the system's buffers. *)

From S2P Require Import Prelude.

Definition NET_LEN_PFX_LEN : Z := 4.
Definition DATA_BUF_MAX (msgsizemax : Z) : Z := msgsizemax - NET_LEN_PFX_LEN.

(** ** Sending *)

(** The length in network order. *)
Definition len_bytes (n : Z) : list Z :=
  [Z.land (Z.shiftr n 24) 255; Z.land (Z.shiftr n 16) 255; Z.land (Z.shiftr n 8) 255; Z.land n 255].

(** What a [send] does: it takes so many of the bytes it is given, at most all of
    them; the socket is full, and there is room in time or not; an error. *)
Inductive send_answer := Sent (n : nat) | Full (room : bool) | Broken.

(** The state of a connection: what was put on the wire; the part of a message
    received so far, [dl] bytes of it, the first ones in [d] and the others in the
    buffer [dlsysbuf]; whether it is to be closed. *)
Record exnetcon := { wire : list Z; d : list Z; dl : Z; dlsysbuf : option (list Z); schedule_close : bool }.

Definition with_wire (net : exnetcon) (w : list Z) : exnetcon := {| wire := w; d := d net; dl := dl net; dlsysbuf := dlsysbuf net; schedule_close := schedule_close net |}.
Definition closing (net : exnetcon) : exnetcon := {| wire := wire net; d := d net; dl := dl net; dlsysbuf := dlsysbuf net; schedule_close := true |}.
Definition with_rcv (net : exnetcon) (x : list Z) (n : Z) (b : option (list Z)) : exnetcon :=
  {| wire := wire net; d := x; dl := n; dlsysbuf := b; schedule_close := schedule_close net |}.

(** The loop, until everything is sent; it has no result while [send] gives no more
    answers. *)
Fixpoint send_loop (answers : list send_answer) (net : exnetcon) (hdr buf : list Z) (sent : Z) : option (exnetcon * Z) :=
  match answers with
  | [] => None
  | a :: answers =>
      let rest := if sent <? zlen hdr then drop (Z.to_nat sent) hdr else drop (Z.to_nat (sent - zlen hdr)) buf in
      match a with
      | Sent n =>
          let net := with_wire net (wire net ++ take n rest) in
          let sent := sent + zlen (take n rest) in
          if sent <? zlen hdr + zlen buf then send_loop answers net hdr buf sent else Some (net, EXSUCCEED)
      | Full true => send_loop answers net hdr buf sent
      | Full false => Some (closing net, EXFAIL)
      | Broken => Some (closing net, EXFAIL)
      end
  end.

(** The array the header is put together in has 128 bytes behind the length. *)
Definition exnet_send_sync (msgsizemax : Z) (answers : list send_answer) (net : exnetcon) (hdr_buf buf : list Z) : option (exnetcon * Z) :=
  let len_whdr := zlen hdr_buf + zlen buf in
  if DATA_BUF_MAX msgsizemax <? len_whdr then Some (net, EXFAIL)
  else if 128 <? zlen hdr_buf then None
  else send_loop answers net (len_bytes len_whdr ++ hdr_buf) buf 0.

(** ** Receiving

    The socket has the bytes [avail]. What a [recv] does may depend on how many are
    left: it gives so many of them, at least one and not more than it was asked for;
    it gives none now, which is all it can do when there are none; the peer has
    disconnected; an error. *)
Inductive recv_answer := Got (n : nat) | Again | Disconnect | RecvError.

Definition recv_wrap (answer : nat -> recv_answer) (net : exnetcon) (avail : list Z) (n : Z) : exnetcon * option (list Z) * list Z :=
  match answer (length avail) with
  | Got k =>
      match avail with
      | [] => (net, None, avail)
      | _ => let k := Nat.min (Nat.max 1 k) (Z.to_nat n) in (net, Some (take k avail), drop k avail)
      end
  | Again => (net, None, avail)
  | Disconnect | RecvError => (closing net, None, avail)
  end.

(** The sum is taken in an [int], which wraps around. *)
Definition get_full_len (d : list Z) : option Z :=
  match d with
  | a :: b :: c :: e :: _ =>
      Some (i32 (i32 (Z.lor (Z.lor (Z.lor (Z.shiftl (Z.land a 255) 24) (Z.shiftl (Z.land b 255) 16)) (Z.shiftl (Z.land c 255) 8)) (Z.land e 255)) + NET_LEN_PFX_LEN))
  | _ => None
  end.

(** A message, a message without content (reported as failure), no message yet, or
    the process ends itself. *)
Inductive outcome := Message (m : list Z) | ZeroLen | NoMessage | Aborted.

Fixpoint recv_loop (fuel : nat) (msgsizemax : Z) (answer : nat -> recv_answer) (net : exnetcon) (avail : list Z) : option (exnetcon * list Z * outcome) :=
  match fuel with
  | O => None
  | S fuel =>
      if dl net <? NET_LEN_PFX_LEN then
        let download_size := NET_LEN_PFX_LEN - dl net in
        if msgsizemax - dl net <? download_size then Some (closing net, avail, NoMessage)
        else match recv_wrap answer net avail download_size with
             | (net, None, avail) => Some (net, avail, NoMessage)
             | (net, Some got, avail) =>
                 x ← st_bytes (d net) (dl net) got;
                 recv_loop fuel msgsizemax answer (with_rcv net x (dl net + zlen got) (dlsysbuf net)) avail
             end
      else
        full_msg ← get_full_len (d net);
        if full_msg <? 0 then Some (closing net, avail, NoMessage)
        else if DATA_BUF_MAX msgsizemax <? full_msg then Some (closing net, avail, NoMessage)
        else if full_msg <=? dl net then
          let left := dl net - full_msg in
          buf ← dlsysbuf net;
          if negb (left =? 0) then Some (with_rcv net (d net) left None, avail, Aborted)
          else
            let len := full_msg - NET_LEN_PFX_LEN in
            if len =? 0 then Some (with_rcv net (d net) left None, avail, ZeroLen)
            else m ← ld_bytes buf 0 len; Some (with_rcv net (d net) left None, avail, Message m)
        else
          let download_size := full_msg - dl net in
          if msgsizemax - dl net <? download_size then Some (closing net, avail, NoMessage)
          else match recv_wrap answer net avail download_size with
               | (net, None, avail) => Some (net, avail, NoMessage)
               | (net, Some got, avail) =>
                   buf ← dlsysbuf net;
                   buf ← st_bytes buf (dl net - NET_LEN_PFX_LEN) got;
                   recv_loop fuel msgsizemax answer (with_rcv net (d net) (dl net + zlen got) (Some buf)) avail
               end
  end.

(** [sysbuf] is a buffer the pool gives, [timed_out] whether the message has taken
    too long. *)
Definition exnet_recv_sync (msgsizemax : Z) (sysbuf : option (list Z)) (timed_out : bool) (answer : nat -> recv_answer) (net : exnetcon) (avail : list Z)
  : option (exnetcon * list Z * outcome) :=
  match dlsysbuf net, sysbuf with
  | None, None => Some (net, avail, NoMessage)
  | _, _ =>
      let net := with_rcv net (d net) (dl net) (match dlsysbuf net with Some b => Some b | None => sysbuf end) in
      r ← recv_loop (S (S (length avail))) msgsizemax answer net avail;
      match r : exnetcon * list Z * outcome with
      | (net, avail, NoMessage) => Some (if timed_out then closing net else net, avail, NoMessage)
      | r => Some r
      end
  end.

(** ** What is on the wire *)

(** A message as it is sent. *)
Definition frame (m : list Z) : list Z := len_bytes (zlen m) ++ m.

Lemma len_frame m : zlen (frame m) = NET_LEN_PFX_LEN + zlen m.
Proof. unfold frame, NET_LEN_PFX_LEN, zlen. rewrite length_app. cbn. lia. Qed.

(** What is left of a message to send. *)
Lemma send_rest (hdr buf : list Z) sent :
  0 <= sent ->
  let rest := if sent <? zlen hdr then drop (Z.to_nat sent) hdr else drop (Z.to_nat (sent - zlen hdr)) buf in
  exists more, drop (Z.to_nat sent) (hdr ++ buf) = rest ++ more.
Proof.
  intros Hs. cbn zeta. unfold zlen. destruct (Z.ltb_spec sent (Z.of_nat (length hdr))).
  - exists buf. by rewrite drop_app_le by lia.
  - exists []. rewrite app_nil_r, drop_app_ge by lia. f_equal. lia.
Qed.

(** However [send] cuts it, a message goes out whole and in order; when sending
    fails a part of it is out and the connection is to be closed. *)
Lemma send_loop_spec answers : forall net hdr buf sent net' ret w,
  0 <= sent <= zlen (hdr ++ buf) -> wire net = w ++ take (Z.to_nat sent) (hdr ++ buf) ->
  send_loop answers net hdr buf sent = Some (net', ret) ->
  exists k, wire net' = w ++ take k (hdr ++ buf) /\
    ((ret = EXSUCCEED /\ wire net' = w ++ hdr ++ buf /\ schedule_close net' = schedule_close net) \/
     (ret = EXFAIL /\ schedule_close net' = true)).
Proof.
  induction answers as [|a answers IH]; intros net hdr buf sent net' ret w Hs Hw H; [done|].
  cbn [send_loop] in H. cbv zeta in H.
  destruct (send_rest hdr buf sent ltac:(lia)) as [more Hmore]. cbv zeta in Hmore.
  set (rest := if sent <? zlen hdr then _ else _) in *.
  destruct a as [n|[]|]; [|by eapply IH| |].
  2,3: injection H as <- <-; exists (Z.to_nat sent); cbn; by auto.
  assert (Hl : zlen (drop (Z.to_nat sent) (hdr ++ buf)) = zlen (hdr ++ buf) - sent) by (apply zlen_drop; lia).
  assert (zlen (take n rest) <= zlen (hdr ++ buf) - sent).
  { rewrite <- Hl, Hmore. unfold zlen. rewrite length_take, length_app. lia. }
  assert (Hn : wire (with_wire net (wire net ++ take n rest)) = w ++ take (Z.to_nat (sent + zlen (take n rest))) (hdr ++ buf)).
  { cbn. rewrite Hw, <- app_assoc. f_equal. rewrite Z2Nat.inj_add, <- take_take_drop, Hmore by (unfold zlen; lia).
    f_equal. unfold zlen. rewrite Nat2Z.id, length_take, take_app_le by lia.
    destruct (decide (n <= length rest)%nat); [by rewrite Nat.min_l by lia|].
    by rewrite Nat.min_r, !take_ge by lia. }
  destruct (Z.ltb_spec (sent + zlen (take n rest)) (zlen hdr + zlen buf)) as [Hlt|Hge].
  - eapply IH in H; [|zl|exact Hn]. done.
  - injection H as <- <-. exists (Z.to_nat (sent + zlen (take n rest))). split; [exact Hn|]. left.
    split_and!; [done| |done]. rewrite Hn, take_ge; [done|]. unfold zlen in *. rewrite length_app in *. lia.
Qed.

(** What the receiver makes of the length. *)
Lemma lor_bytes n :
  0 <= n < 2 ^ 32 ->
  Z.lor (Z.lor (Z.lor (Z.shiftl (Z.land (Z.land (Z.shiftr n 24) 255) 255) 24) (Z.shiftl (Z.land (Z.land (Z.shiftr n 16) 255) 255) 16))
    (Z.shiftl (Z.land (Z.land (Z.shiftr n 8) 255) 255) 8)) (Z.land (Z.land n 255) 255) = n.
Proof.
  intros Hn. change 255 with (Z.ones 8). apply Z.bits_inj'; intros i Hi.
  rewrite !Z.lor_spec, !Z.shiftl_spec, !Z.land_spec by done.
  assert (Hb : forall k, 0 <= k -> Z.testbit (Z.shiftl (Z.land (Z.land (Z.shiftr n k) (Z.ones 8)) (Z.ones 8)) k) i
    = bool_decide (k <= i < k + 8) && Z.testbit n i).
  { intros k Hk. rewrite Z.shiftl_spec, !Z.land_spec by done. case_bool_decide.
    - rewrite Z.shiftr_spec, Z.testbit_ones_nonneg by lia. rewrite (proj2 (Z.ltb_lt _ _)) by lia.
      replace (i - k + k) with i by lia. by rewrite !andb_true_r.
    - destruct (decide (i < k)); [by rewrite (Z.testbit_neg_r (Z.shiftr n k)) by lia|].
      rewrite Z.testbit_ones_nonneg by lia. rewrite (proj2 (Z.ltb_ge _ _)) by lia. by rewrite !andb_false_r. }
  pose proof (Hb 24 ltac:(lia)) as H3. pose proof (Hb 16 ltac:(lia)) as H2.
  pose proof (Hb 8 ltac:(lia)) as H1. pose proof (Hb 0 ltac:(lia)) as H0.
  rewrite Z.shiftl_spec, !Z.land_spec in H3, H2, H1, H0 by done. rewrite Z.sub_0_r, Z.shiftr_0_r in H0.
  rewrite H3, H2, H1, H0. destruct (decide (i < 32)).
  - repeat case_bool_decide; cbn; rewrite ?orb_false_r; try done; lia.
  - rewrite (Z.bits_above_log2 n i); [by rewrite !andb_false_r|lia|].
    destruct (decide (n = 0)) as [->|]; [cbn; lia|]. apply Z.log2_lt_pow2; [lia|].
    eapply Z.lt_le_trans; [apply Hn|]. apply Z.pow_le_mono_r; lia.
Qed.

Lemma full_len_at n t :
  0 <= n -> n + NET_LEN_PFX_LEN <= INT_MAX -> get_full_len (len_bytes n ++ t) = Some (n + NET_LEN_PFX_LEN).
Proof.
  unfold NET_LEN_PFX_LEN, INT_MAX. intros ??. unfold get_full_len, len_bytes. cbn [app].
  rewrite lor_bytes by lia. unfold NET_LEN_PFX_LEN. by rewrite (i32_id n), i32_id by (unfold INT_MIN, INT_MAX; lia).
Qed.

(** ** What the receiver has *)

(** The bytes [pre] of the current message were received: the length goes to [d],
    the message to the buffer. *)
Definition receiving (msgsizemax : Z) (net : exnetcon) (pre : list Z) : Prop :=
  dl net = zlen pre /\ zlen (d net) = 64 /\ (exists t, d net = take 4 pre ++ t) /\
  match dlsysbuf net with
  | None => pre = []
  | Some b => zlen b = msgsizemax /\ exists t, b = drop 4 pre ++ t
  end.

(** They are not more than the message announces, and that is not too much. *)
Definition sane (msgsizemax : Z) (pre : list Z) : Prop :=
  NET_LEN_PFX_LEN < zlen pre -> exists l, get_full_len pre = Some l /\ zlen pre <= l <= DATA_BUF_MAX msgsizemax.

(** The length of the message is not acceptable. *)
Definition refused (msgsizemax : Z) (pre : list Z) : Prop :=
  exists l, get_full_len pre = Some l /\ (l < 0 \/ DATA_BUF_MAX msgsizemax < l).

(** The socket gives nothing, and whether that is the end of the connection. *)
Definition idle (answer : nat -> recv_answer) (avail : list Z) : Prop :=
  match answer (length avail) with Got _ => avail = [] | _ => True end.
Definition hung_up (answer : nat -> recv_answer) (avail : list Z) : bool :=
  match answer (length avail) with Disconnect | RecvError => true | _ => false end.

(** What a call does with the bytes [got] it took. *)
Definition received (msgsizemax : Z) (answer : nat -> recv_answer) (net : exnetcon) (pre got : list Z)
    (net' : exnetcon) (avail' : list Z) (out : outcome) : Prop :=
  match out with
  | Message m => m <> [] /\ receiving msgsizemax net' [] /\ schedule_close net' = schedule_close net /\ drop 4 (pre ++ got) = m /\
      get_full_len (pre ++ got) = Some (zlen (pre ++ got)) /\ zlen (pre ++ got) = NET_LEN_PFX_LEN + zlen m /\
      NET_LEN_PFX_LEN + zlen m <= DATA_BUF_MAX msgsizemax
  | ZeroLen => receiving msgsizemax net' [] /\ schedule_close net' = schedule_close net /\
      zlen (pre ++ got) = NET_LEN_PFX_LEN /\ get_full_len (pre ++ got) = Some NET_LEN_PFX_LEN
  | NoMessage => receiving msgsizemax net' (pre ++ got) /\ sane msgsizemax (pre ++ got) /\
      ((refused msgsizemax (pre ++ got) /\ schedule_close net' = true) \/
       (idle answer avail' /\ schedule_close net' = schedule_close net || hung_up answer avail' /\
        forall l, NET_LEN_PFX_LEN <= zlen (pre ++ got) -> get_full_len (pre ++ got) = Some l -> zlen (pre ++ got) < l))
  | Aborted => zlen (pre ++ got) = NET_LEN_PFX_LEN /\ exists l, get_full_len (pre ++ got) = Some l /\ 0 <= l < NET_LEN_PFX_LEN
  end.

Lemma get_full_len_take x t :
  4 <= zlen x -> get_full_len (take 4 x ++ t) = get_full_len x /\ is_Some (get_full_len x).
Proof. unfold zlen. destruct x as [|? [|? [|? [|? ?]]]]; cbn; try lia. split; [done|by eexists]. Qed.

Lemma get_full_len_app x t : 4 <= zlen x -> get_full_len (x ++ t) = get_full_len x.
Proof. unfold zlen. by destruct x as [|? [|? [|? [|? ?]]]]; cbn; try lia. Qed.

Lemma st_behind (a t got : list Z) :
  zlen a + zlen got <= zlen (a ++ t) -> exists z, st_bytes (a ++ t) (zlen a) got = Some (a ++ got ++ z).
Proof.
  intros Hl. exists (drop (length got) t).
  apply (st_bytes_at _ a (take (length got) t)); [by rewrite take_drop|done|].
  revert Hl. unfold zlen. rewrite length_app, length_take. lia.
Qed.

Lemma recv_wrap_spec answer net avail n :
  0 < n ->
  (idle answer avail /\ recv_wrap answer net avail n = (if hung_up answer avail then closing net else net, None, avail)) \/
  (exists got avail', avail = got ++ avail' /\ got <> [] /\ zlen got <= n /\ recv_wrap answer net avail n = (net, Some got, avail')).
Proof.
  intros Hn. unfold recv_wrap, idle, hung_up. destruct (answer (length avail)) as [k| | |]; [|by left..].
  destruct avail as [|x avail]; [by left|]. right. eexists _, _. split; [symmetry; apply take_drop|].
  split_and!; [| |done].
  - destruct (Nat.min (Nat.max 1 k) (Z.to_nat n)) eqn:E; [lia|done].
  - unfold zlen. rewrite length_take. lia.
Qed.

(** One more piece of the length, or of the message. *)
Lemma receiving_len msgsizemax net pre got :
  receiving msgsizemax net pre -> is_Some (dlsysbuf net) -> zlen (pre ++ got) <= 4 ->
  exists x, st_bytes (d net) (dl net) got = Some x /\
    receiving msgsizemax (with_rcv net x (dl net + zlen got) (dlsysbuf net)) (pre ++ got).
Proof.
  intros (Hdl & Hd & (t & Ht) & Hb) [b Hs] Hl. rewrite Hs in Hb. destruct Hb as (Hm & u & Hu).
  assert (zlen pre + zlen got <= 4) by (revert Hl; zl).
  rewrite take_ge in Ht by (unfold zlen in *; lia). rewrite drop_ge in Hu by (unfold zlen in *; lia).
  destruct (st_behind pre t got) as [z Hz]; [rewrite <- Ht; lia|].
  exists (pre ++ got ++ z). rewrite Ht, Hdl. split; [done|]. split_and!; cbn; [zl| | |].
  - apply st_bytes_len in Hz. rewrite Hz, <- Ht. done.
  - exists z. rewrite take_ge by (unfold zlen in *; lia). by rewrite app_assoc.
  - rewrite Hs. split; [done|]. exists u. by rewrite drop_ge by (unfold zlen in *; lia).
Qed.

Lemma receiving_data msgsizemax net pre got b :
  receiving msgsizemax net pre -> dlsysbuf net = Some b -> 4 <= zlen pre -> zlen (pre ++ got) - 4 <= msgsizemax ->
  exists b', st_bytes b (dl net - NET_LEN_PFX_LEN) got = Some b' /\
    receiving msgsizemax (with_rcv net (d net) (dl net + zlen got) (Some b')) (pre ++ got).
Proof.
  intros (Hdl & Hd & (t & Ht) & Hb) Hs Hp Hl. rewrite Hs in Hb. destruct Hb as (Hm & u & ->).
  assert (Hz : zlen (drop 4 pre) = dl net - NET_LEN_PFX_LEN)
    by (rewrite Hdl; unfold zlen, NET_LEN_PFX_LEN in *; rewrite length_drop; lia).
  destruct (st_behind (drop 4 pre) u got) as [z Hst].
  { rewrite Hm, Hz, Hdl. revert Hl. unfold NET_LEN_PFX_LEN. zl. }
  rewrite Hz in Hst. exists (drop 4 pre ++ got ++ z). split; [done|].
  assert (4 <= length pre)%nat by (unfold zlen in *; lia).
  split_and!; cbn; [rewrite Hdl; zl|done| |].
  - exists t. by rewrite take_app_le by lia.
  - split; [apply st_bytes_len in Hst; congruence|]. exists z. by rewrite drop_app_le, <- app_assoc by lia.
Qed.

Section Receiver.
Context (msgsizemax : Z) (Hmax : 8 <= msgsizemax).

Lemma received_more answer net net1 pre a b net' avail' out :
  schedule_close net1 = schedule_close net ->
  received msgsizemax answer net1 (pre ++ a) b net' avail' out -> received msgsizemax answer net pre (a ++ b) net' avail' out.
Proof. intros Hc. unfold received. rewrite Hc, <- (app_assoc pre a b). done. Qed.

Lemma receiving_closing (c : bool) net pre :
  receiving msgsizemax net pre -> receiving msgsizemax (if c then closing net else net) pre.
Proof. by destruct c. Qed.

(** Nothing came. *)
Lemma received_idle answer net pre avail :
  receiving msgsizemax net pre -> sane msgsizemax pre -> idle answer avail ->
  (forall l, NET_LEN_PFX_LEN <= zlen pre -> get_full_len pre = Some l -> zlen pre < l) ->
  received msgsizemax answer net pre [] (if hung_up answer avail then closing net else net) avail NoMessage.
Proof.
  intros Hr Hs Hi Hl. unfold received. rewrite app_nil_r. split; [by apply receiving_closing|]. split; [done|].
  right. split_and!; [done| |done]. destruct (hung_up answer avail); cbn; [by rewrite orb_true_r|by rewrite orb_false_r].
Qed.

(** The message will not be taken. *)
Lemma received_refused answer net pre avail :
  receiving msgsizemax net pre -> sane msgsizemax pre -> refused msgsizemax pre ->
  received msgsizemax answer net pre [] (closing net) avail NoMessage.
Proof. intros. unfold received. rewrite app_nil_r. auto. Qed.

(** Everything that was announced is there. *)
Lemma received_complete answer net pre avail l b :
  receiving msgsizemax net pre -> sane msgsizemax pre -> dlsysbuf net = Some b -> 4 <= zlen pre ->
  get_full_len pre = Some l -> 0 <= l <= DATA_BUF_MAX msgsizemax -> l <= zlen pre ->
  exists net' out,
    (if negb (dl net - l =? 0) then Some (with_rcv net (d net) (dl net - l) None, avail, Aborted)
     else if l - NET_LEN_PFX_LEN =? 0 then Some (with_rcv net (d net) (dl net - l) None, avail, ZeroLen)
     else m ← ld_bytes b 0 (l - NET_LEN_PFX_LEN); Some (with_rcv net (d net) (dl net - l) None, avail, Message m))
    = Some (net', avail, out) /\ received msgsizemax answer net pre [] net' avail out.
Proof.
  intros (Hdl & Hd & (t & Ht) & Hb) Hs Hsb Hp Hg Hl Hle. rewrite Hsb in Hb. destruct Hb as (Hm & u & Hu).
  unfold received, sane, NET_LEN_PFX_LEN in *. rewrite Hdl, app_nil_r.
  destruct (Z.eqb_spec (zlen pre - l) 0) as [He|Hne]; cbn [negb].
  2: { eexists _, _. split; [done|]. cbv beta iota. destruct (decide (4 < zlen pre)) as [H4|H4].
       - destruct (Hs H4) as (l' & Hg' & Hl'). simplify_eq. lia.
       - split; [lia|]. exists l. split; [done|]. lia. }
  assert (Hnil : receiving msgsizemax (with_rcv net (d net) (zlen pre - l) None) []).
  { split_and!; [cbn; rewrite He; done|done|by exists (d net)|done]. }
  assert (l = zlen pre) as -> by lia.
  destruct (Z.eqb_spec (zlen pre - 4) 0).
  - eexists _, _. split; [done|]. cbv beta iota. split_and!; [done|done|lia|]. rewrite Hg. f_equal. lia.
  - assert (Hz : zlen (drop 4 pre) = zlen pre - 4) by (unfold zlen in *; rewrite length_drop; lia).
    rewrite (ld_bytes_at b [] (drop 4 pre) u) by done. cbn [mbind option_bind].
    eexists _, _. split; [done|]. cbv beta iota. split_and!; [|done|done|done|done|lia|lia].
    intros Hd0. rewrite Hd0 in Hz. change (zlen []) with 0 in Hz. lia.
Qed.

(** The loop on any bytes whatsoever. *)
Lemma recv_loop_spec answer fuel : forall net pre avail,
  (length avail < fuel)%nat -> receiving msgsizemax net pre -> sane msgsizemax pre -> is_Some (dlsysbuf net) ->
  exists net' avail' out got, recv_loop fuel msgsizemax answer net avail = Some (net', avail', out) /\
    avail = got ++ avail' /\ received msgsizemax answer net pre got net' avail' out.
Proof.
  induction fuel as [|fuel IH]; intros net pre avail Hf Hr Hs Hb; [lia|]. cbn [recv_loop]. cbv zeta.
  pose proof (proj1 Hr) as Hdl. rewrite Hdl. unfold NET_LEN_PFX_LEN at 1 2 3.
  destruct (Z.ltb_spec (zlen pre) 4) as [Hlt|Hge].
  - rewrite (proj2 (Z.ltb_ge _ _)) by lia.
    destruct (recv_wrap_spec answer net avail (4 - zlen pre) ltac:(lia)) as [[Hi ->]|(got & rest & -> & Hg & Hlen & ->)].
    + eexists _, _, _, []. split_and!; [done..|]. apply received_idle; try done.
      unfold NET_LEN_PFX_LEN; intros; lia.
    + destruct (receiving_len msgsizemax net pre got Hr Hb) as (x & Hx & Hr'); [revert Hlen; zl|].
      cbv beta iota. rewrite Hx. cbn [mbind option_bind].
      edestruct (IH (with_rcv net x (dl net + zlen got) (dlsysbuf net)) (pre ++ got) rest)
        as (net' & avail' & out & g & -> & -> & Hrec); [|exact Hr'| |done|].
      * destruct got; [done|]. rewrite length_app in Hf. cbn in Hf. lia.
      * intros H4. exfalso. revert H4 Hlen. unfold NET_LEN_PFX_LEN. zl.
      * eexists _, _, _, (got ++ g). split_and!; [done|by rewrite app_assoc|]. by eapply received_more.
  - pose proof Hr as (_ & _ & (t & Ht) & _). destruct (get_full_len_take pre t ltac:(lia)) as [Hgt [l Hl]].
    rewrite Ht, Hgt, Hl. cbn [mbind option_bind].
    destruct (Z.ltb_spec l 0) as [Hneg|Hpos].
    { eexists _, _, _, []. split_and!; [done..|]. apply received_refused; [done..|]. exists l. auto. }
    destruct (Z.ltb_spec (DATA_BUF_MAX msgsizemax) l) as [Hbig|Hok].
    { eexists _, _, _, []. split_and!; [done..|]. apply received_refused; [done..|]. exists l. auto. }
    destruct Hb as [b Hb]. destruct (Z.leb_spec l (zlen pre)) as [Hle|Hmore].
    { rewrite Hb. cbn [mbind option_bind].
      destruct (received_complete answer net pre avail l b Hr Hs Hb Hge Hl) as (net' & out & He & Hrec); [lia|done|].
      rewrite Hdl, Ht in He. rewrite He. by eexists _, _, _, []. }
    unfold DATA_BUF_MAX, NET_LEN_PFX_LEN in Hok.
    rewrite (proj2 (Z.ltb_ge _ _)) by lia.
    destruct (recv_wrap_spec answer net avail (l - zlen pre) ltac:(lia)) as [[Hi ->]|(got & rest & -> & Hg & Hlen & ->)].
    + eexists _, _, _, []. split_and!; [done..|]. apply received_idle; try done. intros l' _ ?. simplify_eq. lia.
    + destruct (receiving_data msgsizemax net pre got b Hr Hb ltac:(lia)) as (b' & Hx & Hr'); [revert Hlen; zl|].
      cbv beta iota. rewrite Hb. cbn [mbind option_bind]. rewrite Hx. cbn [mbind option_bind].
      edestruct (IH (with_rcv net (d net) (dl net + zlen got) (Some b')) (pre ++ got) rest)
        as (net' & avail' & out & g & He & -> & Hrec); [|exact Hr'| |done|].
      * destruct got; [done|]. rewrite length_app in Hf. cbn in Hf. lia.
      * intros _. exists l. assert (get_full_len (pre ++ got) = get_full_len pre) as ->
          by (apply get_full_len_app; lia).
        split; [done|]. revert Hlen. unfold DATA_BUF_MAX, NET_LEN_PFX_LEN. zl.
      * rewrite He. eexists _, _, _, (got ++ g). split_and!; [done|by rewrite app_assoc|]. by eapply received_more.
Qed.

(** One call. Without a buffer nothing happens. *)
Lemma recv_sync_spec sysbuf timed_out answer net pre avail :
  receiving msgsizemax net pre -> sane msgsizemax pre -> (forall b, sysbuf = Some b -> zlen b = msgsizemax) ->
  (pre = [] /\ sysbuf = None /\ exnet_recv_sync msgsizemax sysbuf timed_out answer net avail = Some (net, avail, NoMessage)) \/
  exists net0 net' avail' out got,
    exnet_recv_sync msgsizemax sysbuf timed_out answer net avail = Some (net', avail', out) /\
    avail = got ++ avail' /\ received msgsizemax answer net pre got net0 avail' out /\
    net' = match out with NoMessage => if timed_out then closing net0 else net0 | _ => net0 end.
Proof.
  intros Hr Hs Hsb. unfold exnet_recv_sync. cbv zeta.
  set (b := match dlsysbuf net with Some b => Some b | None => sysbuf end).
  assert (Hcase : (pre = [] /\ dlsysbuf net = None /\ sysbuf = None) \/
    (is_Some b /\ receiving msgsizemax (with_rcv net (d net) (dl net) b) pre)).
  { destruct Hr as (? & ? & ? & Hb). subst b. destruct (dlsysbuf net) as [b|] eqn:E; [right|destruct sysbuf as [b|]; [right|by left]].
    - split; [by eexists|]. by split_and!.
    - split; [by eexists|]. subst pre. split_and!; [done..|]. split; [by apply Hsb|by exists b]. }
  destruct Hcase as [(-> & -> & ->)|[Hb Hr']]; [by left|right].
  destruct (recv_loop_spec answer (S (S (length avail))) _ pre avail ltac:(lia) Hr' Hs Hb)
    as (net' & avail' & out & got & He & Ha & Hrec).
  assert (Hd : forall r, (match dlsysbuf net, sysbuf with None, None => Some (net, avail, NoMessage) | _, _ => r end) = r).
  { intros r. subst b. destruct (dlsysbuf net), sysbuf; try done; by destruct Hb. }
  rewrite Hd, He. cbn [mbind option_bind]. destruct out; by eexists net', _, _, _, got.
Qed.

End Receiver.

(** ** A connection in use *)

(** Messages are sent one after the other, header and data, as long as it works. *)
Fixpoint send_all (msgsizemax : Z) (sends : list (list send_answer * list Z * list Z)) (net : exnetcon) : option exnetcon :=
  match sends with
  | [] => Some net
  | (answers, hdr, buf) :: sends =>
      '(net, ret) ← exnet_send_sync msgsizemax answers net hdr buf;
      if ret =? EXSUCCEED then send_all msgsizemax sends net else None
  end.

(** The poller calls the receiver when some bytes have arrived, until the connection
    is to be closed. *)
Record poll := { arrives : list Z; p_sysbuf : option (list Z); p_timed_out : bool; p_answer : nat -> recv_answer }.

Definition delivery (out : outcome) : list (list Z) := match out with Message m => [m] | _ => [] end.

Fixpoint receive_all (msgsizemax : Z) (polls : list poll) (net : exnetcon) (queue : list Z) (delivered : list (list Z))
  : option (exnetcon * list Z * list (list Z)) :=
  match polls with
  | [] => Some (net, queue, delivered)
  | p :: polls =>
      if schedule_close net then Some (net, queue, delivered)
      else
        r ← exnet_recv_sync msgsizemax (p_sysbuf p) (p_timed_out p) (p_answer p) net (queue ++ arrives p);
        match r : exnetcon * list Z * outcome with
        | (_, _, Aborted) => None
        | (net, queue, out) => receive_all msgsizemax polls net queue (delivered ++ delivery out)
        end
  end.

Definition content (sends : list (list send_answer * list Z * list Z)) : list (list Z) :=
  (fun '(_, hdr, buf) => hdr ++ buf) <$> sends.

(** Messages without content only keep the connection alive. *)
Definition proper (ms : list (list Z)) : list (list Z) := filter (fun m => m <> []) ms.

Lemma send_sync_wire msgsizemax answers net hdr buf net' :
  exnet_send_sync msgsizemax answers net hdr buf = Some (net', EXSUCCEED) -> wire net' = wire net ++ frame (hdr ++ buf).
Proof.
  unfold exnet_send_sync. cbv zeta. destruct (_ <? zlen hdr + zlen buf); [done|]. destruct (128 <? zlen hdr); [done|].
  intros H. apply (send_loop_spec _ _ _ _ _ _ _ (wire net)) in H as (k & _ & [(_ & -> & _)|[[=] _]]).
  - unfold frame. f_equal. rewrite <- app_assoc. by replace (zlen (hdr ++ buf)) with (zlen hdr + zlen buf) by zl.
  - unfold zlen; lia.
  - cbn. by rewrite app_nil_r.
Qed.

Lemma send_all_wire msgsizemax sends : forall net net',
  send_all msgsizemax sends net = Some net' -> wire net' = wire net ++ concat (frame <$> content sends).
Proof.
  induction sends as [|[[a h] b] sends IH]; intros net net' H; cbn in H.
  - injection H as <-. by rewrite app_nil_r.
  - apply bind_Some_inv in H as ([net1 ret] & He & H). destruct (Z.eqb_spec ret EXSUCCEED) as [->|]; [|done].
    rewrite (IH _ _ H), (send_sync_wire _ _ _ _ _ _ He). cbn. by rewrite <- app_assoc.
Qed.

Section Stream.
Context (msgsizemax : Z) (Hmax : 8 <= msgsizemax <= INT_MAX).

(** The receiver takes messages a length shorter than the sender lets pass. *)
Definition fits (m : list Z) : Prop := zlen m + NET_LEN_PFX_LEN <= DATA_BUF_MAX msgsizemax.

(** The length at the start of a stream is that of its first message. *)
Lemma frames_head ms x tail :
  Forall fits ms -> x ++ tail = concat (frame <$> ms) -> NET_LEN_PFX_LEN <= zlen x ->
  exists m ms', ms = m :: ms' /\ get_full_len x = Some (zlen (frame m)) /\ x ++ tail = frame m ++ concat (frame <$> ms').
Proof.
  intros Hf He Hx. destruct ms as [|m ms']; cbn [fmap list_fmap concat] in He.
  - apply app_nil in He as [-> _]. by vm_compute in Hx.
  - exists m, ms'. split_and!; [done| |done]. rewrite <- (get_full_len_app x tail) by done.
    apply Forall_cons in Hf as [Hf _]. revert Hf. unfold fits, DATA_BUF_MAX. intros Hf.
    rewrite He, len_frame. unfold frame. rewrite <- (app_assoc (len_bytes _)), full_len_at; [f_equal; lia|unfold zlen; lia|].
    unfold NET_LEN_PFX_LEN in *. lia.
Qed.

(** A part of the stream as long as its first message is that message. *)
Lemma frames_split ms x tail :
  Forall fits ms -> x ++ tail = concat (frame <$> ms) -> NET_LEN_PFX_LEN <= zlen x -> get_full_len x = Some (zlen x) ->
  exists m ms', ms = m :: ms' /\ x = frame m /\ tail = concat (frame <$> ms').
Proof.
  intros Hf He Hx Hl. destruct (frames_head ms x tail Hf He Hx) as (m & ms' & -> & Hg & Hs).
  exists m, ms'. split; [done|]. apply app_inj_1; [|done]. rewrite Hl in Hg. injection Hg. unfold zlen. lia.
Qed.

(** Something of the current message is missing. *)
Definition incomplete (pre : list Z) : Prop :=
  forall l, NET_LEN_PFX_LEN <= zlen pre -> get_full_len pre = Some l -> zlen pre < l.

(** What one call makes of the stream: it gives the next message, or takes some of
    its bytes. *)
Lemma stream_step answer net pre got net' avail' out ms tail :
  Forall fits ms -> (pre ++ got) ++ tail = concat (frame <$> ms) ->
  received msgsizemax answer net pre got net' avail' out ->
  match out with
  | Message m => receiving msgsizemax net' [] /\ schedule_close net' = schedule_close net /\ m <> [] /\ exists ms', ms = m :: ms' /\ tail = concat (frame <$> ms')
  | ZeroLen => receiving msgsizemax net' [] /\ schedule_close net' = schedule_close net /\ exists ms', ms = [] :: ms' /\ tail = concat (frame <$> ms')
  | NoMessage => receiving msgsizemax net' (pre ++ got) /\ sane msgsizemax (pre ++ got) /\ incomplete (pre ++ got) /\
      idle answer avail' /\ schedule_close net' = schedule_close net || hung_up answer avail'
  | Aborted => False
  end.
Proof.
  intros Hf He Hrec. destruct out as [m| | |]; cbn in Hrec.
  - destruct Hrec as (Hm & Hr & Hc & Hd & Hl & Hz & _). split_and!; [done..|].
    destruct (frames_split ms (pre ++ got) tail) as (m0 & ms' & -> & Hx & Ht); [done|done|unfold zlen in *; lia|done|].
    exists ms'. split; [|done]. f_equal. rewrite <- Hd, Hx. done.
  - destruct Hrec as (Hr & Hc & Hz & Hl). split_and!; [done..|].
    destruct (frames_split ms (pre ++ got) tail) as (m0 & ms' & -> & Hx & Ht); [done|done|lia|by rewrite Hl, Hz|].
    exists ms'. split; [|done]. f_equal. rewrite Hx, len_frame in Hz. apply nil_length_inv. unfold zlen in Hz. lia.
  - destruct Hrec as (Hr & Hs & [[(l & Hl & Hbad) _]|(Hid & Hc & Hi)]); [exfalso|by split_and!].
    assert (NET_LEN_PFX_LEN <= zlen (pre ++ got)) as H4.
    { revert Hl. unfold zlen, NET_LEN_PFX_LEN. destruct (pre ++ got) as [|? [|? [|? [|? ?]]]]; cbn; try done; lia. }
    destruct (frames_head ms _ tail Hf He H4) as (m & ms' & -> & Hg & _). rewrite Hl in Hg. injection Hg as ->.
    apply Forall_cons in Hf as [Hf _]. unfold fits in Hf. rewrite len_frame in Hbad.
    unfold NET_LEN_PFX_LEN, zlen in *. lia.
  - destruct Hrec as (Hz & l & Hl & Hb).
    destruct (frames_head ms _ tail Hf He) as (m & ms' & -> & Hg & _); [lia|]. rewrite Hl in Hg. injection Hg as ->.
    rewrite len_frame in Hb. unfold zlen in *. lia.
Qed.

(** The receiver has [pre] of the messages [ms], the socket [queue], and [later] is
    on its way. *)
Definition linked (net : exnetcon) (pre queue later : list Z) (ms : list (list Z)) : Prop :=
  Forall fits ms /\ receiving msgsizemax net pre /\ sane msgsizemax pre /\ incomplete pre /\ pre ++ queue ++ later = concat (frame <$> ms).

Definition with_room (p : poll) : Prop := forall b, p_sysbuf p = Some b -> zlen b = msgsizemax.

(** A poll on a connection that neither fails nor takes too long; one that finds
    nothing new but gets what there is. *)
Definition calm (p : poll) : Prop := p_timed_out p = false /\ forall n, p_answer p n <> Disconnect /\ p_answer p n <> RecvError.
Definition eager (p : poll) : Prop := arrives p = [] /\ is_Some (p_sysbuf p) /\ forall n, exists k, p_answer p n = Got k.

Lemma linked_drained net pre ms : linked net pre [] [] ms -> ms = [].
Proof.
  intros (Hf & _ & _ & Hi & He). cbn in He. rewrite app_nil_r in He. destruct ms as [|m ms]; [done|]. exfalso.
  assert (NET_LEN_PFX_LEN <= zlen pre) as H4 by (rewrite He; unfold zlen, NET_LEN_PFX_LEN; cbn; lia).
  destruct (frames_head (m :: ms) pre [] Hf) as (m0 & ms0 & [= <- <-] & Hg & Hx); [by rewrite app_nil_r|done|].
  specialize (Hi _ H4 Hg). rewrite app_nil_r in Hx. rewrite Hx in Hi. revert Hi. unfold zlen. rewrite length_app. lia.
Qed.

Lemma calm_hung_up p avail : calm p -> hung_up (p_answer p) avail = false.
Proof. intros [_ H]. unfold hung_up. destruct (H (length avail)). by destruct (p_answer p (length avail)). Qed.

(** A poll gives at most the next message. *)
Lemma linked_poll p net pre queue later ms :
  with_room p -> linked net pre queue (arrives p ++ later) ms ->
  exists net' pre' queue' out ms',
    exnet_recv_sync msgsizemax (p_sysbuf p) (p_timed_out p) (p_answer p) net (queue ++ arrives p) = Some (net', queue', out) /\
    out <> Aborted /\ linked net' pre' queue' later ms' /\ proper ms = delivery out ++ proper ms' /\ (length ms' <= length ms)%nat /\
    (calm p -> schedule_close net = false -> schedule_close net' = false) /\
    (eager p -> queue' = [] \/ (length ms' < length ms)%nat).
Proof.
  intros Hb (Hf & Hr & Hs & Hi & He).
  destruct (recv_sync_spec msgsizemax ltac:(lia) (p_sysbuf p) (p_timed_out p) (p_answer p) net pre (queue ++ arrives p) Hr Hs Hb)
    as [(-> & Hnone & H)|(net0 & net' & avail' & out & got & H & Ha & Hrec & Hnet)].
  { eexists _, [], _, NoMessage, ms. split_and!; [exact H|done| |done|done|done|].
    - split_and!; try done. by rewrite <- app_assoc.
    - intros (_ & [? Hsome] & _). congruence. }
  assert (He' : (pre ++ got) ++ (avail' ++ later) = concat (frame <$> ms)).
  { rewrite <- He, <- app_assoc. f_equal. by rewrite !app_assoc, Ha. }
  pose proof (stream_step _ _ _ _ _ _ _ _ _ Hf He' Hrec) as Hstep. destruct out as [m| | |]; [| | |done]; subst net'.
  - destruct Hstep as (Hr' & Hc & Hm & ms' & -> & Ht). apply Forall_cons in Hf as [_ Hf].
    eexists _, [], _, _, ms'. split_and!; [exact H|done|by split_and!| |cbn; lia|by rewrite Hc|right; cbn; lia].
    unfold proper. by rewrite filter_cons_True.
  - destruct Hstep as (Hr' & Hc & ms' & -> & Ht). apply Forall_cons in Hf as [_ Hf].
    eexists _, [], _, _, ms'. split_and!; [exact H|done|by split_and!| |cbn; lia|by rewrite Hc|right; cbn; lia].
    unfold proper. rewrite filter_cons_False; [done|]. intros Hn. by apply Hn.
  - destruct Hstep as (Hr' & Hs' & Hi' & Hid & Hc).
    eexists _, (pre ++ got), _, _, ms. split_and!; [exact H|done| |done|done| |].
    + split; [done|]. split; [by destruct (p_timed_out p)|]. by split_and!.
    + intros Hcalm Ho. destruct (p_timed_out p) eqn:Et; [by destruct Hcalm; congruence|]. by rewrite Hc, Ho, calm_hung_up.
    + intros (_ & _ & Hg). left. unfold idle in Hid. destruct (Hg (length avail')) as [k Hk]. by rewrite Hk in Hid.
Qed.

(** Any number of polls: the messages come in order, none twice and none made up;
    the connection stays as long as nothing goes wrong. *)
Lemma linked_polls polls : forall net pre queue delivered ms later,
  Forall with_room polls -> linked net pre queue (concat (arrives <$> polls) ++ later) ms ->
  exists net' queue' out, receive_all msgsizemax polls net queue delivered = Some (net', queue', delivered ++ out) /\
    out `prefix_of` proper ms /\
    (Forall calm polls -> schedule_close net = false ->
     schedule_close net' = false /\ exists pre' ms', linked net' pre' queue' later ms' /\ proper ms = out ++ proper ms' /\ (length ms' <= length ms)%nat).
Proof.
  induction polls as [|p polls IH]; intros net pre queue delivered ms later Hp Hl; cbn [receive_all].
  { exists net, queue, []. rewrite app_nil_r. split_and!; [done|apply prefix_nil|]. intros _ Ho. split; [done|]. by exists pre, ms. }
  apply Forall_cons in Hp as [Hb Hp]. destruct (schedule_close net) eqn:Hsc.
  { exists net, queue, []. rewrite app_nil_r. split_and!; [done|apply prefix_nil|done]. }
  cbn in Hl. rewrite <- app_assoc in Hl.
  destruct (linked_poll p net pre queue _ ms Hb Hl) as (net1 & pre1 & q1 & out & ms1 & -> & Hna & Hl1 & Hpr & Hlen & Hcalm & _).
  cbn [mbind option_bind].
  destruct (IH net1 pre1 q1 (delivered ++ delivery out) ms1 later Hp Hl1) as (net' & q' & o & Hrun & Hpre & Hgo).
  exists net', q', (delivery out ++ o). split_and!.
  - rewrite app_assoc, <- Hrun. by destruct out.
  - rewrite Hpr. by apply prefix_app.
  - intros [Hc Hcs]%Forall_cons _. destruct (Hgo Hcs (Hcalm Hc Hsc)) as (Ho & pre' & ms' & Hl' & Hpr' & Hle).
    split; [done|]. exists pre', ms'. split_and!; [done| |lia]. by rewrite Hpr, Hpr', app_assoc.
Qed.

(** With enough polls after everything arrived everything is delivered. *)
Lemma eager_polls polls : forall net pre queue delivered ms,
  Forall with_room polls -> Forall calm polls -> Forall eager polls -> schedule_close net = false ->
  linked net pre queue [] ms -> (queue = [] \/ (length ms < length polls)%nat) ->
  exists net', receive_all msgsizemax polls net queue delivered = Some (net', [], delivered ++ proper ms) /\ schedule_close net' = false.
Proof.
  induction polls as [|p polls IH]; intros net pre queue delivered ms Hp Hc Hg Ho Hl Hlen; cbn [receive_all].
  { destruct Hlen as [->|Hlen]; [|cbn in Hlen; lia]. rewrite (linked_drained _ _ _ Hl), app_nil_r. by exists net. }
  apply Forall_cons in Hp as [Hb Hp]. apply Forall_cons in Hc as [Hc Hcs]. apply Forall_cons in Hg as [Hg Hgs]. rewrite Ho.
  assert (linked net pre queue (arrives p ++ []) ms) as Hl0 by (by rewrite (proj1 Hg)).
  destruct (linked_poll p net pre queue [] ms Hb Hl0) as (net1 & pre1 & q1 & out & ms1 & -> & Hna & Hl1 & Hpr & Hle & Hcalm & Hgo).
  cbn [mbind option_bind].
  destruct (IH net1 pre1 q1 (delivered ++ delivery out) ms1 Hp Hcs Hgs (Hcalm Hc Ho) Hl1) as (net' & Hrun & Ho').
  { destruct (Hgo Hg) as [->|Hlt]; [by left|]. destruct Hlen as [->|Hlen]; [|right; cbn in Hlen; lia].
    rewrite (linked_drained _ _ _ Hl) in Hlt. cbn in Hlt. lia. }
  exists net'. split; [|done]. rewrite Hpr, app_assoc, <- Hrun. by destruct out.
Qed.

End Stream.

Lemma receive_all_app msgsizemax ps qs : forall net queue delivered,
  (forall net' queue' out, receive_all msgsizemax ps net queue delivered = Some (net', queue', out) -> schedule_close net' = false) ->
  receive_all msgsizemax (ps ++ qs) net queue delivered =
  ('(net, queue, delivered) ← receive_all msgsizemax ps net queue delivered; receive_all msgsizemax qs net queue delivered).
Proof.
  induction ps as [|p ps IH]; intros net queue delivered H; [done|]. cbn [receive_all app] in *.
  destruct (schedule_close net) eqn:Ho; [by specialize (H _ _ _ eq_refl); congruence|].
  destruct (exnet_recv_sync _ _ _ _ _ _) as [[[net1 q1] []]|]; cbn [mbind option_bind] in *; try done; by apply IH.
Qed.

(** ** Properties *)

(** C33: what one side sends the other receives, when every message fits the
    receiver's buffer together with the four bytes of its length ([fits]; the sender
    lets messages of up to four bytes more pass, which the receiver refuses).
    Whatever pieces [send] takes, the
    network makes and [recv] gives, and whenever the receiver is polled (with room for
    a message), the messages it has delivered are the first ones of those sent with
    content, whole and in order; and once everything has arrived on a connection that
    did not fail, polling it once more than there are messages delivers all of them.
    Messages without content are sent, but never delivered. *)
Theorem stream_delivers msgsizemax sends polls last later snd snd' rcv :
  8 <= msgsizemax <= INT_MAX -> Forall (fits msgsizemax) (content sends) ->
  wire snd = [] -> send_all msgsizemax sends snd = Some snd' ->
  receiving msgsizemax rcv [] -> Forall (with_room msgsizemax) polls ->
  concat (arrives <$> polls) ++ later = wire snd' ->
  (exists rcv' queue out, receive_all msgsizemax polls rcv [] [] = Some (rcv', queue, out) /\
    out `prefix_of` proper (content sends)) /\
  (later = [] -> Forall calm polls -> schedule_close rcv = false ->
   Forall (with_room msgsizemax) last -> Forall calm last -> Forall eager last -> (length sends < length last)%nat ->
   exists rcv', receive_all msgsizemax (polls ++ last) rcv [] [] = Some (rcv', [], proper (content sends)) /\
    schedule_close rcv' = false).
Proof.
  intros Hmax Hf Hw Hs Hr Hp Ha. apply send_all_wire in Hs. rewrite Hs, Hw in Ha.
  assert (Hl : linked msgsizemax rcv [] [] (concat (arrives <$> polls) ++ later) (content sends)).
  { split_and!; [done|done| | |done]; [intros H; by vm_compute in H|intros l H; by vm_compute in H]. }
  destruct (linked_polls msgsizemax Hmax polls rcv [] [] [] _ later Hp Hl) as (rcv' & queue & out & Hrun & Hpre & Hgo).
  split; [by exists rcv', queue, out|]. intros -> Hc Ho Hlp Hlc Hle Hlen.
  destruct (Hgo Hc Ho) as (Ho' & pre' & ms' & Hl' & Hpr & Hms).
  rewrite receive_all_app, Hrun by (intros ???; rewrite Hrun; congruence). cbn [mbind option_bind app].
  rewrite Hpr. apply (eager_polls msgsizemax Hmax last rcv' pre'); try done.
  right. unfold content in Hms. rewrite length_fmap in Hms. lia.
Qed.

(** C34: whatever bytes a peer sends, receiving them stays within the buffers: a call
    always returns, and leaves the connection in a state in which the next call does
    as well. It ends the process only when the announced length, with that of the
    prefix, wraps around to less than the prefix; and a message it gives is not longer
    than the buffer it is in. *)
Theorem recv_safe msgsizemax sysbuf timed_out answer net pre avail :
  8 <= msgsizemax -> receiving msgsizemax net pre -> sane msgsizemax pre -> (forall b, sysbuf = Some b -> zlen b = msgsizemax) ->
  exists net' avail' out got, exnet_recv_sync msgsizemax sysbuf timed_out answer net avail = Some (net', avail', out) /\
    avail = got ++ avail' /\
    match out with
    | Message m => receiving msgsizemax net' [] /\ 0 < zlen m <= msgsizemax - 2 * NET_LEN_PFX_LEN
    | ZeroLen => receiving msgsizemax net' []
    | NoMessage => receiving msgsizemax net' (pre ++ got) /\ sane msgsizemax (pre ++ got)
    | Aborted => exists l, get_full_len (pre ++ got) = Some l /\ 0 <= l < NET_LEN_PFX_LEN
    end.
Proof.
  intros Hmax Hr Hs Hb.
  destruct (recv_sync_spec msgsizemax Hmax sysbuf timed_out answer net pre avail Hr Hs Hb)
    as [(-> & _ & ->)|(net0 & net' & avail' & out & got & -> & -> & Hrec & ->)].
  { eexists _, _, _, []. by split_and!. }
  eexists _, _, _, got. split_and!; [done..|]. destruct out as [m| | |]; cbn [received] in Hrec.
  - destruct Hrec as (Hm & Hr' & Hc & Hd & Hl & Hz & Hle). split; [done|].
    unfold DATA_BUF_MAX, NET_LEN_PFX_LEN in *. destruct m; [done|]. unfold zlen in *. cbn in *. lia.
  - by destruct Hrec.
  - destruct Hrec as (Hr' & Hs' & _). split; [by destruct timed_out|done].
  - by destruct Hrec.
Qed.

Module ExnetDemo.

Definition fresh : exnetcon := {| wire := []; d := replicate 64 0; dl := 0; dlsysbuf := None; schedule_close := false |}.
Definition room : list Z := replicate 32 170.

(** A message with a header in four pieces, one without content, and a short one. *)
Definition demo_sends : list (list send_answer * list Z * list Z) :=
  [([Sent 3; Full true; Sent 100; Sent 2; Sent 9], [1; 2], [3; 4; 5]); ([Sent 4], [], []); ([Sent 4; Sent 1], [], [7])].

Definition poll_of (bs : list Z) (k : nat) : poll := {| arrives := bs; p_sysbuf := Some room; p_timed_out := false; p_answer := fun _ => Got k |}.

(** It arrives cut in the middle of a length and of a message. *)
Definition demo_polls : list poll := [poll_of [0; 0] 1; poll_of [0; 5; 1; 2; 3] 2; poll_of [4; 5; 0; 0; 0; 0; 0; 0] 9; poll_of [0; 1; 7] 9].
Definition demo_last : list poll := [poll_of [] 1; poll_of [] 1; poll_of [] 1; poll_of [] 1].

Lemma fresh_receiving : receiving 32 fresh [].
Proof. split_and!; [done|done|by exists (replicate 64 0)|done]. Qed.

Lemma poll_of_ok bs k : with_room 32 (poll_of bs k) /\ calm (poll_of bs k).
Proof. split; [by intros b [= <-]|done]. Qed.

Lemma demo_polls_ok : Forall (with_room 32) (demo_polls ++ demo_last) /\ Forall calm (demo_polls ++ demo_last) /\ Forall eager demo_last.
Proof.
  unfold demo_polls, demo_last. cbn [app]. split_and!; repeat (apply Forall_cons; split); try apply Forall_nil_2; try apply poll_of_ok.
  all: split_and!; [done|by eexists|by intros; eexists].
Qed.

Lemma stream_delivers_witness :
  exists rcv', receive_all 32 (demo_polls ++ demo_last) fresh [] [] = Some (rcv', [], [[1; 2; 3; 4; 5]; [7]]) /\ schedule_close rcv' = false.
Proof.
  destruct demo_polls_ok as ([Hp Hlp]%Forall_app & [Hc Hlc]%Forall_app & He).
  destruct (send_all 32 demo_sends fresh) as [snd|] eqn:Es; [|by vm_compute in Es].
  refine (proj2 (stream_delivers 32 demo_sends demo_polls demo_last [] fresh snd fresh _ _ eq_refl Es fresh_receiving Hp _) eq_refl Hc eq_refl Hlp Hlc He _).
  - vm_compute. by split.
  - repeat (apply Forall_cons; split); try apply Forall_nil_2; by vm_compute.
  - vm_compute in Es. injection Es as <-. reflexivity.
  - cbn. lia.
Defined.

Lemma recv_safe_witness :
  exists net' avail' out, exnet_recv_sync 32 (Some room) false (fun _ => Got 3) fresh [127; 255; 255; 255; 1] = Some (net', avail', out).
Proof.
  destruct (recv_safe 32 (Some room) false (fun _ => Got 3) fresh [] [127; 255; 255; 255; 1]) as (n & a & o & g & H & _).
  - lia.
  - apply fresh_receiving.
  - intros H. by vm_compute in H.
  - by intros b [= <-].
  - by exists n, a, o.
Defined.

(** A message of the size the sender still lets pass: it goes out, and the receiver
    closes the connection. *)
Lemma long_message_closes :
  option_map (fun r => (zlen (wire r.1), r.2)) (exnet_send_sync 32 [Sent 4; Sent 28] fresh [] (replicate 28 1)) = Some (32, EXSUCCEED) /\
  option_map (fun r => (schedule_close r.1.1, r.2)) (exnet_recv_sync 32 (Some room) false (fun _ => Got 100) fresh (frame (replicate 28 1)))
  = Some (true, NoMessage).
Proof. split; vm_compute; reflexivity. Qed.

(** A length of all ones is not negative any more once the prefix is added, and ends
    the receiving process. *)
Lemma prefix_aborts :
  option_map snd (exnet_recv_sync 32 (Some room) false (fun _ => Got 100) fresh [255; 255; 255; 255]) = Some Aborted.
Proof. vm_compute. reflexivity. Qed.

End ExnetDemo.
