(* ===== verification/XaStates.v ===== *)
(** * The state tables of the transaction manager

    [tmsrv/xastates.c]: which operation a branch needs in a stage of the
    global transaction, what the return code makes of the branch and which
    stage it votes for, the stage descriptors and the mapping to [tperrno].
    Statuses are character codes; the rows are those of the source. *)

From stdpp Require Import prelude.
From S2P Require Import Prelude.

(** ** Constants *)

Definition XA_RM_STATUS_ACTIVE : Z := 106.
Definition XA_RM_STATUS_ACT_AB : Z := 107.
Definition XA_RM_STATUS_PREP : Z := 112.
Definition XA_RM_STATUS_ABORTED : Z := 97.
Definition XA_RM_STATUS_ABFORGET_HAZ : Z := 101.
Definition XA_RM_STATUS_ABFORGET_HEU : Z := 102.
Definition XA_RM_STATUS_ABORT_HEURIS : Z := 98.
Definition XA_RM_STATUS_ABORT_HAZARD : Z := 100.
Definition XA_RM_STATUS_COMMITTED : Z := 99.
Definition XA_RM_STATUS_COMMITTED_RO : Z := 114.
Definition XA_RM_STATUS_COMMIT_HEURIS : Z := 104.
Definition XA_RM_STATUS_COMMIT_HAZARD : Z := 122.
Definition XA_RM_STATUS_COMFORGET_HAZ : Z := 103.
Definition XA_RM_STATUS_COMFORGET_HEU : Z := 108.
Definition XA_TX_STAGE_NULL : Z := 0.
Definition XA_TX_STAGE_ACTIVE : Z := 5.
Definition XA_TX_STAGE_ABORTING : Z := 20.
Definition XA_TX_STAGE_ABORTED_HAZARD : Z := 25.
Definition XA_TX_STAGE_ABORTED_HEURIS : Z := 30.
Definition XA_TX_STAGE_ABORTED : Z := 35.
Definition XA_TX_STAGE_ABFORGETTING : Z := 36.
Definition XA_TX_STAGE_ABFORGOT_HAZ : Z := 37.
Definition XA_TX_STAGE_ABFORGOT_HEU : Z := 38.
Definition XA_TX_STAGE_PREPARING : Z := 40.
Definition XA_TX_STAGE_PREPRO : Z := 41.
Definition XA_TX_STAGE_COMMITTING : Z := 50.
Definition XA_TX_STAGE_COMMITTED_HAZARD : Z := 55.
Definition XA_TX_STAGE_COMMITTED_HEURIS : Z := 65.
Definition XA_TX_STAGE_COMMITTED : Z := 70.
Definition XA_TX_STAGE_COMFORGETTING : Z := 80.
Definition XA_TX_STAGE_COMFORGOT_HAZ : Z := 85.
Definition XA_TX_STAGE_COMFORGOT_HEU : Z := 87.
Definition XA_TX_STAGE_MAX_NEVER : Z := 100.
Definition XA_TX_STAGE_MIN_NEVER : Z := -1.
Definition XA_OP_NOP : Z := 0.
Definition XA_OP_PREPARE : Z := 3.
Definition XA_OP_COMMIT : Z := 4.
Definition XA_OP_ROLLBACK : Z := 5.
Definition XA_OP_FORGET : Z := 6.
Definition XA_OK : Z := 0.
Definition XA_RDONLY : Z := 3.
Definition XA_RETRY : Z := 4.
Definition XA_HEURMIX : Z := 5.
Definition XA_HEURRB : Z := 6.
Definition XA_HEURCOM : Z := 7.
Definition XA_HEURHAZ : Z := 8.
Definition XA_RBBASE : Z := 100.
Definition XA_RBEND : Z := 107.
Definition XAER_RMERR : Z := -3.
Definition XAER_NOTA : Z := -4.
Definition XAER_RMFAIL : Z := -7.
Definition TPEABORT : Z := 1.
Definition TPESYSTEM : Z := 12.
Definition TPEHAZARD : Z := 20.
Definition TPEHEURISTIC : Z := 21.

(** ** Rows *)

Record rmstatus_driver_t := rm {
  rd_txstage : Z; rd_rmstatus : Z; rd_op : Z; min_retcode : Z; max_retcode : Z;
  next_rmstatus : Z; next_txstage : Z
}.

Record txaction_driver_t := act { ad_txstage : Z; ad_rmstatus : Z; ad_op : Z }.

Record txstage_descriptor_t := ds {
  sd_txstage : Z; txs_stage_min : Z; txs_min_complete : Z; txs_max_complete : Z; allow_jump : bool
}.

Record txstate2tperrno_t := te { te_txstage : Z; master_op : Z; tpe : Z }.

(** ** Tables *)

Definition M_rm_status_driver_preparing : list rmstatus_driver_t :=
  [rm XA_TX_STAGE_PREPARING XA_RM_STATUS_ACTIVE XA_OP_PREPARE XA_OK XA_OK XA_RM_STATUS_PREP XA_TX_STAGE_COMMITTING;
   rm XA_TX_STAGE_PREPARING XA_RM_STATUS_ACTIVE XA_OP_PREPARE XA_RDONLY XA_RDONLY XA_RM_STATUS_COMMITTED_RO XA_TX_STAGE_COMMITTING;
   rm XA_TX_STAGE_PREPARING XA_RM_STATUS_ACTIVE XA_OP_PREPARE XAER_NOTA XAER_NOTA XA_RM_STATUS_ABORTED XA_TX_STAGE_ABORTING;
   rm XA_TX_STAGE_PREPARING XA_RM_STATUS_ACTIVE XA_OP_PREPARE XA_RBBASE XA_RBEND XA_RM_STATUS_ABORTED XA_TX_STAGE_ABORTING;
   rm XA_TX_STAGE_PREPARING XA_RM_STATUS_ACTIVE XA_OP_PREPARE INT_MIN INT_MAX XA_RM_STATUS_ACT_AB XA_TX_STAGE_ABORTING;
   rm XA_TX_STAGE_PREPARING XA_RM_STATUS_PREP XA_OP_NOP XA_OK XA_OK XA_RM_STATUS_PREP XA_TX_STAGE_COMMITTING;
   rm XA_TX_STAGE_PREPARING XA_RM_STATUS_ACT_AB XA_OP_NOP XA_OK XA_OK XA_RM_STATUS_ACT_AB XA_TX_STAGE_ABORTING;
   rm XA_TX_STAGE_PREPARING XA_RM_STATUS_ABORTED XA_OP_NOP XA_OK XA_OK XA_RM_STATUS_ABORTED XA_TX_STAGE_ABORTING;
   rm XA_TX_STAGE_PREPARING XA_RM_STATUS_COMMITTED_RO XA_OP_NOP XA_OK XA_OK XA_RM_STATUS_COMMITTED_RO XA_TX_STAGE_COMMITTING].

Definition M_rm_status_driver_committing : list rmstatus_driver_t :=
  [rm XA_TX_STAGE_COMMITTING XA_RM_STATUS_PREP XA_OP_COMMIT XA_OK XA_OK XA_RM_STATUS_COMMITTED XA_TX_STAGE_COMMITTED;
   rm XA_TX_STAGE_COMMITTING XA_RM_STATUS_PREP XA_OP_COMMIT XAER_RMERR XAER_RMERR XA_RM_STATUS_COMMIT_HEURIS XA_TX_STAGE_COMMITTED_HEURIS;
   rm XA_TX_STAGE_COMMITTING XA_RM_STATUS_PREP XA_OP_COMMIT XAER_RMFAIL XAER_RMFAIL XA_RM_STATUS_PREP XA_TX_STAGE_COMMITTING;
   rm XA_TX_STAGE_COMMITTING XA_RM_STATUS_PREP XA_OP_COMMIT XA_RETRY XA_RETRY XA_RM_STATUS_PREP XA_TX_STAGE_COMMITTING;
   rm XA_TX_STAGE_COMMITTING XA_RM_STATUS_PREP XA_OP_COMMIT XA_HEURHAZ XA_HEURHAZ XA_RM_STATUS_COMFORGET_HAZ XA_TX_STAGE_COMFORGETTING;
   rm XA_TX_STAGE_COMMITTING XA_RM_STATUS_PREP XA_OP_COMMIT XA_HEURCOM XA_HEURCOM XA_RM_STATUS_COMFORGET_HEU XA_TX_STAGE_COMFORGETTING;
   rm XA_TX_STAGE_COMMITTING XA_RM_STATUS_PREP XA_OP_COMMIT XA_HEURRB XA_HEURRB XA_RM_STATUS_COMFORGET_HEU XA_TX_STAGE_COMFORGETTING;
   rm XA_TX_STAGE_COMMITTING XA_RM_STATUS_PREP XA_OP_COMMIT XA_HEURMIX XA_HEURMIX XA_RM_STATUS_COMFORGET_HEU XA_TX_STAGE_COMFORGETTING;
   rm XA_TX_STAGE_COMMITTING XA_RM_STATUS_PREP XA_OP_COMMIT XA_RBBASE XA_RBEND XA_RM_STATUS_ABORTED XA_TX_STAGE_COMMITTED_HEURIS;
   rm XA_TX_STAGE_COMMITTING XA_RM_STATUS_PREP XA_OP_COMMIT INT_MIN INT_MAX XA_RM_STATUS_COMMITTED XA_TX_STAGE_COMMITTED;
   rm XA_TX_STAGE_COMMITTING XA_RM_STATUS_COMMIT_HEURIS XA_OP_NOP XA_OK XA_OK XA_RM_STATUS_COMMIT_HEURIS XA_TX_STAGE_COMMITTED_HEURIS;
   rm XA_TX_STAGE_COMMITTING XA_RM_STATUS_ABORTED XA_OP_NOP XA_OK XA_OK XA_RM_STATUS_ABORTED XA_TX_STAGE_COMMITTED_HEURIS;
   rm XA_TX_STAGE_COMMITTING XA_RM_STATUS_COMMIT_HAZARD XA_OP_NOP XA_OK XA_OK XA_RM_STATUS_COMMIT_HAZARD XA_TX_STAGE_COMMITTED_HAZARD;
   rm XA_TX_STAGE_COMMITTING XA_RM_STATUS_COMFORGET_HAZ XA_OP_NOP XA_OK XA_OK XA_RM_STATUS_COMFORGET_HAZ XA_TX_STAGE_COMFORGETTING;
   rm XA_TX_STAGE_COMMITTING XA_RM_STATUS_COMFORGET_HEU XA_OP_NOP XA_OK XA_OK XA_RM_STATUS_COMFORGET_HEU XA_TX_STAGE_COMFORGETTING].

Definition M_rm_status_driver_comforgetting : list rmstatus_driver_t :=
  [rm XA_TX_STAGE_COMFORGETTING XA_RM_STATUS_COMFORGET_HAZ XA_OP_FORGET XA_OK XA_OK XA_RM_STATUS_COMMIT_HAZARD XA_TX_STAGE_COMFORGOT_HAZ;
   rm XA_TX_STAGE_COMFORGETTING XA_RM_STATUS_COMFORGET_HEU XA_OP_FORGET XA_OK XA_OK XA_RM_STATUS_COMMIT_HEURIS XA_TX_STAGE_COMFORGOT_HEU;
   rm XA_TX_STAGE_COMFORGETTING XA_RM_STATUS_COMFORGET_HAZ XA_OP_FORGET XAER_RMFAIL XAER_RMFAIL XA_RM_STATUS_COMFORGET_HAZ XA_TX_STAGE_COMFORGETTING;
   rm XA_TX_STAGE_COMFORGETTING XA_RM_STATUS_COMFORGET_HEU XA_OP_FORGET XAER_RMFAIL XAER_RMFAIL XA_RM_STATUS_COMFORGET_HEU XA_TX_STAGE_COMFORGETTING;
   rm XA_TX_STAGE_COMFORGETTING XA_RM_STATUS_COMFORGET_HAZ XA_OP_FORGET INT_MIN INT_MAX XA_RM_STATUS_COMMIT_HAZARD XA_TX_STAGE_COMFORGOT_HAZ;
   rm XA_TX_STAGE_COMFORGETTING XA_RM_STATUS_COMFORGET_HEU XA_OP_FORGET INT_MIN INT_MAX XA_RM_STATUS_COMMIT_HEURIS XA_TX_STAGE_COMFORGOT_HEU;
   rm XA_TX_STAGE_COMFORGETTING XA_RM_STATUS_COMMIT_HAZARD XA_OP_NOP XA_OK XA_OK XA_RM_STATUS_COMMIT_HAZARD XA_TX_STAGE_COMFORGOT_HAZ;
   rm XA_TX_STAGE_COMFORGETTING XA_RM_STATUS_COMMIT_HEURIS XA_OP_NOP XA_OK XA_OK XA_RM_STATUS_COMMIT_HEURIS XA_TX_STAGE_COMFORGOT_HEU].

Definition M_rm_status_driver_aborting : list rmstatus_driver_t :=
  [rm XA_TX_STAGE_ABORTING XA_RM_STATUS_ACT_AB XA_OP_ROLLBACK XA_OK XA_OK XA_RM_STATUS_ABORTED XA_TX_STAGE_ABORTED;
   rm XA_TX_STAGE_ABORTING XA_RM_STATUS_ACTIVE XA_OP_ROLLBACK XA_OK XA_OK XA_RM_STATUS_ABORTED XA_TX_STAGE_ABORTED;
   rm XA_TX_STAGE_ABORTING XA_RM_STATUS_PREP XA_OP_ROLLBACK XA_OK XA_OK XA_RM_STATUS_ABORTED XA_TX_STAGE_ABORTED;
   rm XA_TX_STAGE_ABORTING XA_RM_STATUS_COMMITTED_RO XA_OP_NOP XA_OK XA_OK XA_RM_STATUS_ABORTED XA_TX_STAGE_ABORTED;
   rm XA_TX_STAGE_ABORTING XA_RM_STATUS_ACT_AB XA_OP_ROLLBACK XA_RDONLY XA_RDONLY XA_RM_STATUS_ABORTED XA_TX_STAGE_ABORTED;
   rm XA_TX_STAGE_ABORTING XA_RM_STATUS_ACTIVE XA_OP_ROLLBACK XA_RDONLY XA_RDONLY XA_RM_STATUS_ABORTED XA_TX_STAGE_ABORTED;
   rm XA_TX_STAGE_ABORTING XA_RM_STATUS_PREP XA_OP_ROLLBACK XA_RDONLY XA_RDONLY XA_RM_STATUS_ABORTED XA_TX_STAGE_ABORTED;
   rm XA_TX_STAGE_ABORTING XA_RM_STATUS_ACT_AB XA_OP_ROLLBACK XA_HEURHAZ XA_HEURHAZ XA_RM_STATUS_ABFORGET_HAZ XA_TX_STAGE_ABFORGETTING;
   rm XA_TX_STAGE_ABORTING XA_RM_STATUS_ACTIVE XA_OP_ROLLBACK XA_HEURHAZ XA_HEURHAZ XA_RM_STATUS_ABFORGET_HAZ XA_TX_STAGE_ABFORGETTING;
   rm XA_TX_STAGE_ABORTING XA_RM_STATUS_PREP XA_OP_ROLLBACK XA_HEURHAZ XA_HEURHAZ XA_RM_STATUS_ABFORGET_HAZ XA_TX_STAGE_ABFORGETTING;
   rm XA_TX_STAGE_ABORTING XA_RM_STATUS_ACT_AB XA_OP_ROLLBACK XA_HEURRB XA_HEURRB XA_RM_STATUS_ABFORGET_HEU XA_TX_STAGE_ABFORGETTING;
   rm XA_TX_STAGE_ABORTING XA_RM_STATUS_ACTIVE XA_OP_ROLLBACK XA_HEURRB XA_HEURRB XA_RM_STATUS_ABFORGET_HEU XA_TX_STAGE_ABFORGETTING;
   rm XA_TX_STAGE_ABORTING XA_RM_STATUS_PREP XA_OP_ROLLBACK XA_HEURRB XA_HEURRB XA_RM_STATUS_ABFORGET_HEU XA_TX_STAGE_ABFORGETTING;
   rm XA_TX_STAGE_ABORTING XA_RM_STATUS_ACT_AB XA_OP_ROLLBACK XA_HEURCOM XA_HEURCOM XA_RM_STATUS_ABFORGET_HEU XA_TX_STAGE_ABFORGETTING;
   rm XA_TX_STAGE_ABORTING XA_RM_STATUS_ACTIVE XA_OP_ROLLBACK XA_HEURCOM XA_HEURCOM XA_RM_STATUS_ABFORGET_HEU XA_TX_STAGE_ABFORGETTING;
   rm XA_TX_STAGE_ABORTING XA_RM_STATUS_PREP XA_OP_ROLLBACK XA_HEURCOM XA_HEURCOM XA_RM_STATUS_ABFORGET_HEU XA_TX_STAGE_ABFORGETTING;
   rm XA_TX_STAGE_ABORTING XA_RM_STATUS_ACT_AB XA_OP_ROLLBACK XA_HEURMIX XA_HEURMIX XA_RM_STATUS_ABFORGET_HEU XA_TX_STAGE_ABFORGETTING;
   rm XA_TX_STAGE_ABORTING XA_RM_STATUS_ACTIVE XA_OP_ROLLBACK XA_HEURMIX XA_HEURMIX XA_RM_STATUS_ABFORGET_HEU XA_TX_STAGE_ABFORGETTING;
   rm XA_TX_STAGE_ABORTING XA_RM_STATUS_PREP XA_OP_ROLLBACK XA_HEURMIX XA_HEURMIX XA_RM_STATUS_ABFORGET_HEU XA_TX_STAGE_ABFORGETTING;
   rm XA_TX_STAGE_ABORTING XA_RM_STATUS_ACT_AB XA_OP_ROLLBACK XAER_RMFAIL XAER_RMFAIL XA_RM_STATUS_ACT_AB XA_TX_STAGE_ABORTING;
   rm XA_TX_STAGE_ABORTING XA_RM_STATUS_ACTIVE XA_OP_ROLLBACK XAER_RMFAIL XAER_RMFAIL XA_RM_STATUS_ACTIVE XA_TX_STAGE_ABORTING;
   rm XA_TX_STAGE_ABORTING XA_RM_STATUS_PREP XA_OP_ROLLBACK XAER_RMFAIL XAER_RMFAIL XA_RM_STATUS_PREP XA_TX_STAGE_ABORTING;
   rm XA_TX_STAGE_ABORTING XA_RM_STATUS_ACT_AB XA_OP_ROLLBACK XAER_NOTA XAER_NOTA XA_RM_STATUS_ABORTED XA_TX_STAGE_ABORTED;
   rm XA_TX_STAGE_ABORTING XA_RM_STATUS_ACTIVE XA_OP_ROLLBACK XAER_NOTA XAER_NOTA XA_RM_STATUS_ABORTED XA_TX_STAGE_ABORTED;
   rm XA_TX_STAGE_ABORTING XA_RM_STATUS_PREP XA_OP_ROLLBACK XAER_NOTA XAER_NOTA XA_RM_STATUS_ABORTED XA_TX_STAGE_ABORTED;
   rm XA_TX_STAGE_ABORTING XA_RM_STATUS_ACT_AB XA_OP_ROLLBACK INT_MIN INT_MAX XA_RM_STATUS_ABORTED XA_TX_STAGE_ABORTED;
   rm XA_TX_STAGE_ABORTING XA_RM_STATUS_ACTIVE XA_OP_ROLLBACK INT_MIN INT_MAX XA_RM_STATUS_ABORTED XA_TX_STAGE_ABORTED;
   rm XA_TX_STAGE_ABORTING XA_RM_STATUS_PREP XA_OP_ROLLBACK INT_MIN INT_MAX XA_RM_STATUS_ABORTED XA_TX_STAGE_ABORTED;
   rm XA_TX_STAGE_ABORTING XA_RM_STATUS_ABFORGET_HEU XA_OP_NOP XA_OK XA_OK XA_RM_STATUS_ABFORGET_HEU XA_TX_STAGE_ABFORGETTING;
   rm XA_TX_STAGE_ABORTING XA_RM_STATUS_ABFORGET_HAZ XA_OP_NOP XA_OK XA_OK XA_RM_STATUS_ABFORGET_HAZ XA_TX_STAGE_ABFORGETTING].

Definition M_rm_status_driver_abforgetting : list rmstatus_driver_t :=
  [rm XA_TX_STAGE_ABFORGETTING XA_RM_STATUS_ABFORGET_HAZ XA_OP_FORGET XA_OK XA_OK XA_RM_STATUS_ABORT_HAZARD XA_TX_STAGE_ABFORGOT_HAZ;
   rm XA_TX_STAGE_ABFORGETTING XA_RM_STATUS_ABFORGET_HEU XA_OP_FORGET XA_OK XA_OK XA_RM_STATUS_ABORT_HEURIS XA_TX_STAGE_ABFORGOT_HEU;
   rm XA_TX_STAGE_ABFORGETTING XA_RM_STATUS_ABFORGET_HAZ XA_OP_FORGET XAER_RMFAIL XAER_RMFAIL XA_RM_STATUS_ABFORGET_HAZ XA_TX_STAGE_ABFORGETTING;
   rm XA_TX_STAGE_ABFORGETTING XA_RM_STATUS_ABFORGET_HEU XA_OP_FORGET XAER_RMFAIL XAER_RMFAIL XA_RM_STATUS_ABFORGET_HEU XA_TX_STAGE_ABFORGETTING;
   rm XA_TX_STAGE_ABFORGETTING XA_RM_STATUS_ABFORGET_HAZ XA_OP_FORGET INT_MIN INT_MAX XA_RM_STATUS_ABORT_HAZARD XA_TX_STAGE_ABFORGOT_HAZ;
   rm XA_TX_STAGE_ABFORGETTING XA_RM_STATUS_ABFORGET_HEU XA_OP_FORGET INT_MIN INT_MAX XA_RM_STATUS_ABORT_HEURIS XA_TX_STAGE_ABFORGOT_HEU;
   rm XA_TX_STAGE_ABFORGETTING XA_RM_STATUS_ABORT_HAZARD XA_OP_NOP XA_OK XA_OK XA_RM_STATUS_ABORT_HAZARD XA_TX_STAGE_ABFORGOT_HAZ;
   rm XA_TX_STAGE_ABFORGETTING XA_RM_STATUS_ABORT_HEURIS XA_OP_NOP XA_OK XA_OK XA_RM_STATUS_ABORT_HEURIS XA_TX_STAGE_ABFORGOT_HEU].

Definition G_txaction_driver : list txaction_driver_t :=
  [act XA_TX_STAGE_PREPARING XA_RM_STATUS_ACTIVE XA_OP_PREPARE;
   act XA_TX_STAGE_COMMITTING XA_RM_STATUS_PREP XA_OP_COMMIT;
   act XA_TX_STAGE_ABORTING XA_RM_STATUS_ACTIVE XA_OP_ROLLBACK;
   act XA_TX_STAGE_ABORTING XA_RM_STATUS_ACT_AB XA_OP_ROLLBACK;
   act XA_TX_STAGE_ABORTING XA_RM_STATUS_PREP XA_OP_ROLLBACK;
   act XA_TX_STAGE_COMFORGETTING XA_RM_STATUS_COMFORGET_HAZ XA_OP_FORGET;
   act XA_TX_STAGE_COMFORGETTING XA_RM_STATUS_COMFORGET_HEU XA_OP_FORGET;
   act XA_TX_STAGE_ABFORGETTING XA_RM_STATUS_ABFORGET_HAZ XA_OP_FORGET;
   act XA_TX_STAGE_ABFORGETTING XA_RM_STATUS_ABFORGET_HEU XA_OP_FORGET].

Definition G_state_descriptor : list txstage_descriptor_t :=
  [ds XA_TX_STAGE_NULL XA_TX_STAGE_NULL XA_TX_STAGE_NULL XA_TX_STAGE_NULL false;
   ds XA_TX_STAGE_ACTIVE XA_TX_STAGE_NULL XA_TX_STAGE_NULL XA_TX_STAGE_NULL false;
   ds XA_TX_STAGE_ABORTING XA_TX_STAGE_ABORTING XA_TX_STAGE_ABORTED_HAZARD XA_TX_STAGE_ABORTED false;
   ds XA_TX_STAGE_ABORTED_HAZARD XA_TX_STAGE_ABORTED_HAZARD XA_TX_STAGE_ABORTED_HAZARD XA_TX_STAGE_ABORTED_HAZARD false;
   ds XA_TX_STAGE_ABORTED_HEURIS XA_TX_STAGE_ABORTED_HEURIS XA_TX_STAGE_ABORTED_HEURIS XA_TX_STAGE_ABORTED_HEURIS false;
   ds XA_TX_STAGE_ABORTED XA_TX_STAGE_ABORTED XA_TX_STAGE_ABORTED XA_TX_STAGE_ABORTED false;
   ds XA_TX_STAGE_PREPARING XA_TX_STAGE_PREPARING XA_TX_STAGE_PREPRO XA_TX_STAGE_PREPRO true;
   ds XA_TX_STAGE_PREPRO XA_TX_STAGE_PREPRO XA_TX_STAGE_PREPRO XA_TX_STAGE_PREPRO false;
   ds XA_TX_STAGE_COMMITTING XA_TX_STAGE_COMMITTING XA_TX_STAGE_COMMITTED_HAZARD XA_TX_STAGE_COMMITTED false;
   ds XA_TX_STAGE_COMMITTED_HAZARD XA_TX_STAGE_COMMITTED_HAZARD XA_TX_STAGE_COMMITTED_HAZARD XA_TX_STAGE_COMMITTED_HAZARD false;
   ds XA_TX_STAGE_COMMITTED_HEURIS XA_TX_STAGE_COMMITTED_HEURIS XA_TX_STAGE_COMMITTED_HEURIS XA_TX_STAGE_COMMITTED_HEURIS false;
   ds XA_TX_STAGE_COMMITTED XA_TX_STAGE_COMMITTED XA_TX_STAGE_COMMITTED XA_TX_STAGE_COMMITTED false;
   ds XA_TX_STAGE_COMFORGETTING XA_TX_STAGE_COMFORGETTING XA_TX_STAGE_COMFORGOT_HAZ XA_TX_STAGE_COMFORGOT_HEU false;
   ds XA_TX_STAGE_COMFORGOT_HAZ XA_TX_STAGE_COMFORGOT_HAZ XA_TX_STAGE_COMFORGOT_HAZ XA_TX_STAGE_COMFORGOT_HAZ false;
   ds XA_TX_STAGE_COMFORGOT_HEU XA_TX_STAGE_COMFORGOT_HEU XA_TX_STAGE_COMFORGOT_HEU XA_TX_STAGE_COMFORGOT_HEU false;
   ds XA_TX_STAGE_ABFORGETTING XA_TX_STAGE_ABFORGETTING XA_TX_STAGE_ABFORGOT_HAZ XA_TX_STAGE_ABFORGOT_HEU false;
   ds XA_TX_STAGE_ABFORGOT_HAZ XA_TX_STAGE_ABFORGOT_HAZ XA_TX_STAGE_ABFORGOT_HAZ XA_TX_STAGE_ABFORGOT_HAZ false;
   ds XA_TX_STAGE_ABFORGOT_HEU XA_TX_STAGE_ABFORGOT_HEU XA_TX_STAGE_ABFORGOT_HEU XA_TX_STAGE_ABFORGOT_HEU false].

Definition G_txstage2tperrno : list txstate2tperrno_t :=
  [te XA_TX_STAGE_NULL XA_OP_COMMIT TPESYSTEM;
   te XA_TX_STAGE_ACTIVE XA_OP_COMMIT TPESYSTEM;
   te XA_TX_STAGE_ABORTING XA_OP_COMMIT TPEABORT;
   te XA_TX_STAGE_ABORTED_HAZARD XA_OP_COMMIT TPEABORT;
   te XA_TX_STAGE_ABORTED_HEURIS XA_OP_COMMIT TPEABORT;
   te XA_TX_STAGE_ABORTED XA_OP_COMMIT TPEABORT;
   te XA_TX_STAGE_PREPARING XA_OP_COMMIT TPESYSTEM;
   te XA_TX_STAGE_PREPRO XA_OP_COMMIT EXSUCCEED;
   te XA_TX_STAGE_COMMITTING XA_OP_COMMIT TPEHAZARD;
   te XA_TX_STAGE_COMMITTED_HAZARD XA_OP_COMMIT TPEHAZARD;
   te XA_TX_STAGE_COMMITTED_HEURIS XA_OP_COMMIT TPEHEURISTIC;
   te XA_TX_STAGE_COMMITTED XA_OP_COMMIT EXSUCCEED;
   te XA_TX_STAGE_COMFORGETTING XA_OP_COMMIT TPEHAZARD;
   te XA_TX_STAGE_COMFORGOT_HAZ XA_OP_COMMIT TPEHAZARD;
   te XA_TX_STAGE_COMFORGOT_HEU XA_OP_COMMIT TPEHEURISTIC;
   te XA_TX_STAGE_ABFORGETTING XA_OP_COMMIT TPEHAZARD;
   te XA_TX_STAGE_ABFORGOT_HAZ XA_OP_COMMIT TPEABORT;
   te XA_TX_STAGE_ABFORGOT_HEU XA_OP_COMMIT TPEABORT;
   te XA_TX_STAGE_NULL XA_OP_ROLLBACK TPESYSTEM;
   te XA_TX_STAGE_ACTIVE XA_OP_ROLLBACK TPESYSTEM;
   te XA_TX_STAGE_ABORTING XA_OP_ROLLBACK TPEHAZARD;
   te XA_TX_STAGE_ABORTED_HAZARD XA_OP_ROLLBACK TPEHAZARD;
   te XA_TX_STAGE_ABORTED_HEURIS XA_OP_ROLLBACK TPEHEURISTIC;
   te XA_TX_STAGE_ABORTED XA_OP_ROLLBACK EXSUCCEED;
   te XA_TX_STAGE_PREPARING XA_OP_ROLLBACK TPESYSTEM;
   te XA_TX_STAGE_PREPRO XA_OP_ROLLBACK TPESYSTEM;
   te XA_TX_STAGE_COMMITTING XA_OP_ROLLBACK TPEHAZARD;
   te XA_TX_STAGE_COMMITTED_HAZARD XA_OP_ROLLBACK TPEHAZARD;
   te XA_TX_STAGE_COMMITTED_HEURIS XA_OP_ROLLBACK TPEHEURISTIC;
   te XA_TX_STAGE_COMMITTED XA_OP_ROLLBACK TPEHEURISTIC;
   te XA_TX_STAGE_COMFORGETTING XA_OP_ROLLBACK TPEHAZARD;
   te XA_TX_STAGE_COMFORGOT_HAZ XA_OP_ROLLBACK TPEHAZARD;
   te XA_TX_STAGE_COMFORGOT_HEU XA_OP_ROLLBACK TPEHEURISTIC;
   te XA_TX_STAGE_ABFORGETTING XA_OP_ROLLBACK TPEHAZARD;
   te XA_TX_STAGE_ABFORGOT_HAZ XA_OP_ROLLBACK TPEHAZARD;
   te XA_TX_STAGE_ABFORGOT_HEU XA_OP_ROLLBACK TPEHEURISTIC].

(** ** Lookups: the first matching row *)

Definition OP_TABLE_SWITCH (txstage : Z) : option (list rmstatus_driver_t) :=
  if txstage =? XA_TX_STAGE_PREPARING then Some M_rm_status_driver_preparing
  else if txstage =? XA_TX_STAGE_COMMITTING then Some M_rm_status_driver_committing
  else if txstage =? XA_TX_STAGE_ABORTING then Some M_rm_status_driver_aborting
  else if txstage =? XA_TX_STAGE_COMFORGETTING then Some M_rm_status_driver_comforgetting
  else if txstage =? XA_TX_STAGE_ABFORGETTING then Some M_rm_status_driver_abforgetting
  else None.

Definition xa_status_get_next_by_op (txstage rmstatus op op_retcode : Z) : option rmstatus_driver_t :=
  t ← OP_TABLE_SWITCH txstage;
  List.find (fun r => (rd_txstage r =? txstage) && (rd_rmstatus r =? rmstatus) && (rd_op r =? op)
                      && (min_retcode r <=? op_retcode) && (op_retcode <=? max_retcode r)) t.

Definition xa_status_get_next_by_new_status (txstage rmstatus : Z) : option rmstatus_driver_t :=
  t ← OP_TABLE_SWITCH txstage;
  List.find (fun r => (rd_txstage r =? txstage) && (next_rmstatus r =? rmstatus)) t.

Definition xa_status_get_op (txstage rmstatus : Z) : Z :=
  match List.find (fun r => (ad_txstage r =? txstage) && (ad_rmstatus r =? rmstatus)) G_txaction_driver with
  | Some r => ad_op r
  | None => XA_OP_NOP
  end.

Definition xa_stage_get_descr (txstage : Z) : option txstage_descriptor_t :=
  List.find (fun d => sd_txstage d =? txstage) G_state_descriptor.

Definition xa_txstage2tperrno (txstage op : Z) : Z :=
  match List.find (fun r => (te_txstage r =? txstage) && (master_op r =? op)) G_txstage2tperrno with
  | Some r => tpe r
  | None => TPESYSTEM
  end.

(** ** Facts on the rows *)

Lemma find_Some_1 {X} (f : X -> bool) l x : List.find f l = Some x -> x ∈ l /\ f x = true.
Proof. intros Hf%find_some. rewrite list_elem_of_In. done. Qed.

Lemma find_total {X} (f : X -> bool) l x : x ∈ l -> f x = true -> is_Some (List.find f l).
Proof.
  intros Hx Hf. destruct (List.find f l) as [y|] eqn:He; [by exists y|].
  rewrite list_elem_of_In in Hx. by rewrite (find_none _ _ He x Hx) in Hf.
Qed.

Lemma by_op_row stage st op rc r : xa_status_get_next_by_op stage st op rc = Some r ->
  exists t, OP_TABLE_SWITCH stage = Some t /\ r ∈ t /\ rd_rmstatus r = st /\ rd_op r = op /\
            min_retcode r <= rc <= max_retcode r.
Proof.
  unfold xa_status_get_next_by_op. destruct (OP_TABLE_SWITCH stage) as [t|]; [|done]. cbn [mbind option_bind].
  intros (Hin & Hf)%find_Some_1. exists t. split; [done|]. split; [done|]. lia.
Qed.

Lemma by_status_row stage st r : xa_status_get_next_by_new_status stage st = Some r ->
  exists t, OP_TABLE_SWITCH stage = Some t /\ r ∈ t /\ next_rmstatus r = st.
Proof.
  unfold xa_status_get_next_by_new_status. destruct (OP_TABLE_SWITCH stage) as [t|]; [|done].
  cbn [mbind option_bind]. intros (Hin & Hf)%find_Some_1. exists t. split; [done|]. split; [done|]. lia.
Qed.

Lemma get_op_row stage st op : xa_status_get_op stage st = op -> op <> XA_OP_NOP ->
  act stage st op ∈ G_txaction_driver.
Proof.
  unfold xa_status_get_op. intros <- Hne. destruct (List.find _ _) as [[s t o]|] eqn:Hf; [|done].
  apply find_Some_1 in Hf as [Hin Hf]. cbn in *. by replace stage with s by lia; replace st with t by lia.
Qed.

(** Every action has a row for all return codes. *)
Definition has_default (a : txaction_driver_t) : bool :=
  match OP_TABLE_SWITCH (ad_txstage a) with
  | Some t => existsb (fun r => (rd_txstage r =? ad_txstage a) && (rd_rmstatus r =? ad_rmstatus a) &&
                                (rd_op r =? ad_op a) && (min_retcode r =? INT_MIN) &&
                                (max_retcode r =? INT_MAX)) t
  | None => false
  end.

Lemma get_op_total stage st rc : INT_MIN <= rc <= INT_MAX -> xa_status_get_op stage st <> XA_OP_NOP ->
  is_Some (xa_status_get_next_by_op stage st (xa_status_get_op stage st) rc).
Proof.
  intros Hrc Hne. pose proof (get_op_row stage st _ eq_refl Hne) as Hin.
  set (op := xa_status_get_op stage st) in *. clearbody op.
  assert (forallb has_default G_txaction_driver = true) as Hall by reflexivity.
  rewrite forallb_forall in Hall. rewrite list_elem_of_In in Hin. specialize (Hall _ Hin).
  unfold has_default in Hall. cbn [ad_txstage ad_rmstatus ad_op] in Hall.
  unfold xa_status_get_next_by_op. destruct (OP_TABLE_SWITCH stage) as [t|]; [|done]. cbn [mbind option_bind].
  apply existsb_exists in Hall as (r & Hr & Hrow). apply (find_total _ _ r); [by apply list_elem_of_In|]. lia.
Qed.

(** Whenever a branch needs an operation of its resource manager, the
    tables have a transition for every return code the operation can give. *)
Theorem xa_transition_total stage st rc :
  INT_MIN <= rc <= INT_MAX -> xa_status_get_op stage st <> XA_OP_NOP ->
  is_Some (xa_status_get_next_by_op stage st (xa_status_get_op stage st) rc).
Proof. apply get_op_total. Qed.

Lemma xa_transition_total_witness :
  is_Some (xa_status_get_next_by_op XA_TX_STAGE_ABORTING XA_RM_STATUS_PREP XA_OP_ROLLBACK 12345).
Proof.
  apply (xa_transition_total XA_TX_STAGE_ABORTING XA_RM_STATUS_PREP 12345);
    [vm_compute; split; discriminate|vm_compute; discriminate].
Defined.

(** A prepared branch votes for commit exactly when its resource manager
    answered [XA_OK] or [XA_RDONLY]; every other answer votes for abort. *)
Theorem prepare_votes rc :
  INT_MIN <= rc <= INT_MAX ->
  exists r, xa_status_get_next_by_op XA_TX_STAGE_PREPARING XA_RM_STATUS_ACTIVE XA_OP_PREPARE rc = Some r /\
    (next_txstage r, next_rmstatus r) =
    if rc =? XA_OK then (XA_TX_STAGE_COMMITTING, XA_RM_STATUS_PREP)
    else if rc =? XA_RDONLY then (XA_TX_STAGE_COMMITTING, XA_RM_STATUS_COMMITTED_RO)
    else if (rc =? XAER_NOTA) || ((XA_RBBASE <=? rc) && (rc <=? XA_RBEND))
         then (XA_TX_STAGE_ABORTING, XA_RM_STATUS_ABORTED)
    else (XA_TX_STAGE_ABORTING, XA_RM_STATUS_ACT_AB).
Proof.
  intros Hrc. unfold xa_status_get_next_by_op.
  cbn -[Z.leb Z.ltb INT_MIN INT_MAX XA_OK XA_RDONLY XAER_NOTA XA_RBBASE XA_RBEND].
  unfold XA_OK, XA_RDONLY, XAER_NOTA, XA_RBBASE, XA_RBEND.
  repeat match goal with
         | |- context [if (?a <=? rc) && (rc <=? ?b) then Some _ else _] =>
             destruct ((a <=? rc) && (rc <=? b)) eqn:?
         end; [..|lia]; (eexists; split; [reflexivity|]); cbn [next_txstage next_rmstatus].
  all: repeat match goal with |- context [if ?b then (_, _) else _] => destruct b eqn:? end; done || lia.
Qed.

Lemma prepare_votes_witness :
  exists r, xa_status_get_next_by_op XA_TX_STAGE_PREPARING XA_RM_STATUS_ACTIVE XA_OP_PREPARE (-7) = Some r /\
    (next_txstage r, next_rmstatus r) = (XA_TX_STAGE_ABORTING, XA_RM_STATUS_ACT_AB).
Proof. apply (prepare_votes (-7)). vm_compute. split; discriminate. Defined.
