(* ===== verification/TmDrive.v ===== *)
(** * The two-phase commit driver

    [tm_drive] of [tmsrv/statedrv.c] with the logging it relies on,
    [tms_log_stage] and [tms_log_rmstatus] of [tmsrv/log.c].  Resource
    managers, the log device and memory are parameters: they may answer
    anything at any time.  The thread is assumed to own the transaction
    ([CHK_THREAD_ACCESS]); test hooks for crashes are left out. *)

From stdpp Require Import prelude.
From S2P Require Import Prelude CText XaStates.

(** ** Data *)

(** [atmi_xa_rm_status_btid_t]: one branch of the transaction. *)
Record atmi_xa_rm_status_btid_t := {
  rmstatus : Z; rmerrorcode : Z; rmreason : Z; btid : Z; rmid : Z
}.

(** The part of [atmi_xa_log_t] the driver works on.  [branches] lists the
    branches in the order the loop over the resource managers and the hash of
    each visits them; [f_open]: the log file is open. *)
Record atmi_xa_log_t := {
  txstage : Z; branches : list atmi_xa_rm_status_btid_t; f_open : bool; is_background : bool
}.

Definition set_stage (t : atmi_xa_log_t) (s : Z) : atmi_xa_log_t :=
  {| txstage := s; branches := branches t; f_open := f_open t; is_background := is_background t |}.
Definition set_branches (t : atmi_xa_log_t) (l : list atmi_xa_rm_status_btid_t) : atmi_xa_log_t :=
  {| txstage := txstage t; branches := l; f_open := f_open t; is_background := is_background t |}.
Definition set_background (t : atmi_xa_log_t) : atmi_xa_log_t :=
  {| txstage := txstage t; branches := branches t; f_open := f_open t; is_background := true |}.

Inductive log_line :=
  | LOG_COMMAND_STAGE (stage : Z)
  | LOG_COMMAND_RMSTAT (rmid rmstatus rmerrorcode rmreason btid : Z).

(** What the driver does to the outside, in order. *)
Inductive event :=
  | EvRm (op rmid btid op_ret reason : Z)   (* operation of a resource manager *)
  | EvWrite (line : log_line) (ok : bool)   (* line appended to the log file *)
  | EvSync (ok : bool)                      (* what synchronising file and directory returned *)
  | EvStage (stage : Z) (logged : bool)     (* stage switch, and whether logging it succeeded *)
  | EvRemove                                (* transaction log removed *)
  | EvUnlock.

Record btid_vote_t := { v_rmid : Z; v_stage : Z; v_btid : Z }.

Definition TP_CMT_LOGGED : Z := 4.

(** ** Synchronising the log

    What is synchronised is up to the setting: [xa_fsync_flags] is 0 unless
    NDRX_XA_FLAGS names FSYNC, FDATASYNC or DSYNC. *)
Definition NDRX_FSYNC_FSYNC : Z := 1.
Definition NDRX_FSYNC_FDATASYNC : Z := 2.
Definition NDRX_FSYNC_DSYNC : Z := 4.

(** The setting and the calls of the system: [fsync] and [fdatasync] on the
    file, and opening, synchronising and closing the directory. *)
Record log_sync {E : Type} := {
  xa_fsync_flags : Z; os_fsync : E -> E * bool; os_fdatasync : E -> E * bool; os_dsync : E -> E * bool
}.
Arguments log_sync : clear implicits.

Definition has_flag (flags f : Z) : bool := negb (Z.land flags f =? 0).

(** [file]: there is an open file. *)
Definition ndrx_fsync_fsync {E} (d : log_sync E) (file : bool) (e : E) : E * bool :=
  if negb file then (e, false)
  else if has_flag (xa_fsync_flags d) NDRX_FSYNC_FSYNC then os_fsync d e
  else if has_flag (xa_fsync_flags d) NDRX_FSYNC_FDATASYNC then os_fdatasync d e
  else (e, true).

Definition ndrx_fsync_dsync {E} (d : log_sync E) (e : E) : E * bool :=
  if has_flag (xa_fsync_flags d) NDRX_FSYNC_DSYNC then os_dsync d e else (e, true).

(** The setting makes [ndrx_fsync_fsync] bring the file to the disk. *)
Definition syncs_file {E} (d : log_sync E) : bool :=
  has_flag (xa_fsync_flags d) NDRX_FSYNC_FSYNC || has_flag (xa_fsync_flags d) NDRX_FSYNC_FDATASYNC.

Section Drive.

(** The outside world and its answers. *)
Context {E : Type}.
Variable rm_call : E -> Z -> Z -> Z -> E * (Z * Z * Z).  (* op, rmid, btid: return, reason, tperrno *)
Variable write_line : E -> log_line -> E * bool.         (* fprintf and fflush of a log line *)
Variable fsync : log_sync E.                             (* setting and calls of the system *)
Variable checkpointseq : E -> E * bool.                  (* tms_log_checkpointseq *)
Variable growlist : E -> E * bool.                       (* memory for a vote *)
Variable xa_retries : Z.                                 (* G_tmsrv_cfg.xa_retries *)

Record st := { s_env : E; s_trace : list event; s_tl : atmi_xa_log_t }.

Definition with_env (s : st) (e : E) : st := {| s_env := e; s_trace := s_trace s; s_tl := s_tl s |}.
Definition with_tl (s : st) (t : atmi_xa_log_t) : st := {| s_env := s_env s; s_trace := s_trace s; s_tl := t |}.
Definition emit (s : st) (ev : event) : st :=
  {| s_env := s_env s; s_trace := s_trace s ++ [ev]; s_tl := s_tl s |}.

(** Fallible steps in sequence. *)
Definition io (s : st) (f : E -> E * bool) : st * bool := let r := f (s_env s) in (with_env s r.1, r.2).
Definition and_then (r : st * bool) (f : st -> st * bool) : st * bool := if r.2 then f r.1 else r.

(** ** Logging *)

Definition tms_log_write_line (s : st) (l : log_line) : st * bool :=
  if f_open (s_tl s) then
    let r := io s (fun e => write_line e l) in (emit r.1 (EvWrite l r.2), r.2)
  else (s, true).

Definition sync_log (s : st) : st * bool :=
  let r := and_then (io s (ndrx_fsync_fsync fsync (f_open (s_tl s)))) (fun s => io s (ndrx_fsync_dsync fsync)) in
  (emit r.1 (EvSync r.2), r.2).

Fixpoint write_times (n : nat) (s : st) (l : log_line) : st * bool :=
  match n with O => (s, true) | S n => and_then (tms_log_write_line s l) (fun s => write_times n s l) end.

Definition w_cnt (stage : Z) : nat := if stage =? XA_TX_STAGE_ABORTING then 3 else 1.

(** What is written for a switch to [stage]. *)
Definition log_stage_io (s : st) (stage : Z) : st * bool :=
  and_then (if stage =? XA_TX_STAGE_COMMITTING then io s checkpointseq else (s, true)) (fun s =>
  and_then (write_times (w_cnt stage) s (LOG_COMMAND_STAGE stage)) (fun s =>
  if (stage =? XA_TX_STAGE_COMMITTING) || (stage =? XA_TX_STAGE_ABORTING)
  then and_then (sync_log s) (fun s => io s checkpointseq)
  else (s, true))).

Definition tms_log_stage (s : st) (stage : Z) (forced : bool) : st * bool :=
  if txstage (s_tl s) =? stage then (s, true)
  else
    let stage_org := txstage (s_tl s) in
    let r := log_stage_io (with_tl s (set_stage (s_tl s) stage)) stage in
    let s := emit r.1 (EvStage stage r.2) in
    if forced then (s, true)
    else if r.2 then (s, true)
    else if stage_org =? EXFAIL then (s, false)
    else (with_tl s (set_stage (s_tl s) stage_org), false).

Definition tms_log_rmstatus (s : st) (bt : atmi_xa_rm_status_btid_t) (status rmerr op_reason : Z)
  : st * atmi_xa_rm_status_btid_t * bool :=
  let reason := i16 op_reason in
  let bt' := {| rmstatus := status; rmerrorcode := rmerr; rmreason := reason; btid := btid bt; rmid := rmid bt |} in
  if rmstatus bt =? status then (s, bt', true)
  else let r := tms_log_write_line s (LOG_COMMAND_RMSTAT (rmid bt) status rmerr reason (btid bt)) in
       (r.1, bt', r.2).

(** ** One branch *)

Inductive branch_exit := BNext (vote : option btid_vote_t) | BJump (stage : Z) | BFail.

(** The operation of the stage: its reason code and the [tperrno] after it. *)
Definition branch_op (s : st) (el : atmi_xa_rm_status_btid_t) (op_code : Z) : st * Z * Z :=
  if op_code =? XA_OP_NOP then (s, XA_OK, 0)
  else
    let '(e, (op_ret, reason, tperr)) := rm_call (s_env s) op_code (rmid el) (btid el) in
    let op_reason := if op_ret =? EXSUCCEED then XA_OK else reason in
    (emit (with_env s e) (EvRm op_code (rmid el) (btid el) op_ret op_reason), op_reason, tperr).

(** The vote is kept; one that leaves the group of stages downwards ends the
    round at once. *)
Definition branch_vote (s : st) (descr : txstage_descriptor_t) (el : atmi_xa_rm_status_btid_t) (stage : Z)
  : st * branch_exit :=
  let r := io s growlist in
  if r.2 then
    if ((stage <? txs_stage_min descr) || (txs_max_complete descr <? stage)) && allow_jump descr
       && (stage <? XA_TX_STAGE_PREPARING)
    then (r.1, BJump stage)
    else (r.1, BNext (Some {| v_rmid := rmid el; v_stage := stage; v_btid := btid el |}))
  else (r.1, BFail).

(** Result: state, the branch, whether a retry is due, how to go on. *)
Definition drive_branch (s : st) (descr : txstage_descriptor_t) (el : atmi_xa_rm_status_btid_t)
  : st * atmi_xa_rm_status_btid_t * bool * branch_exit :=
  let stage := txstage (s_tl s) in
  let op_code := xa_status_get_op stage (rmstatus el) in
  if negb (existsb (Z.eqb op_code) [XA_OP_NOP; XA_OP_PREPARE; XA_OP_COMMIT; XA_OP_ROLLBACK; XA_OP_FORGET])
  then (s, el, false, BFail)
  else
    let '(s, op_reason, tperr) := branch_op s el op_code in
    let retry := negb (stage =? XA_TX_STAGE_PREPARING)
                 && ((op_reason =? XA_RETRY) || (op_reason =? XAER_RMFAIL)) in
    if op_code =? XA_OP_NOP then
      match xa_status_get_next_by_new_status stage (rmstatus el) with
      | None => (s, el, retry, BNext None)
      | Some r => let w := branch_vote s descr el (next_txstage r) in (w.1, el, retry, w.2)
      end
    else
      match xa_status_get_next_by_op stage (rmstatus el) op_code op_reason with
      | None => (s, el, retry, BFail)
      | Some r =>
          let '(s, el, ok) := tms_log_rmstatus s el (next_rmstatus r) tperr op_reason in
          let vote := if negb ok && (stage =? XA_TX_STAGE_PREPARING) then XA_TX_STAGE_ABORTING
                      else next_txstage r in
          let w := branch_vote s descr el vote in (w.1, el, retry, w.2)
      end.

(** ** All branches *)

Inductive loop_exit := LDone | LJump (stage : Z) | LFail.

Fixpoint drive_branches (s : st) (descr : txstage_descriptor_t) (l : list atmi_xa_rm_status_btid_t)
  : st * list atmi_xa_rm_status_btid_t * list btid_vote_t * bool * loop_exit :=
  match l with
  | [] => (s, [], [], false, LDone)
  | el :: l =>
      let '(s, el, retry, x) := drive_branch s descr el in
      match x with
      | BFail => (s, el :: l, [], retry, LFail)
      | BJump stage => (s, el :: l, [], retry, LJump stage)
      | BNext v =>
          let '(s, l, votes, retry', x) := drive_branches s descr l in
          (s, el :: l, option_list v ++ votes, retry || retry', x)
      end
  end.

(** ** The next stage from the votes *)

Definition min_in_overall (votes : list btid_vote_t) : Z :=
  fold_left (fun m v => if v_stage v <? m then v_stage v else m) votes XA_TX_STAGE_MAX_NEVER.
Definition max_in_overall (votes : list btid_vote_t) : Z :=
  fold_left (fun m v => if m <? v_stage v then v_stage v else m) votes XA_TX_STAGE_MIN_NEVER.
Definition min_in_group (descr : txstage_descriptor_t) (votes : list btid_vote_t) : Z :=
  fold_left (fun m v =>
    if (txs_stage_min descr <=? v_stage v) && (v_stage v <=? txs_max_complete descr) && (m <? v_stage v)
    then v_stage v else m) votes XA_TX_STAGE_MAX_NEVER.

Definition calc_stage (descr : txstage_descriptor_t) (votes : list btid_vote_t) : Z :=
  let new_txstage :=
    if (txs_min_complete descr <=? min_in_overall votes) && (min_in_overall votes <=? txs_max_complete descr)
       && (txs_max_complete descr <? max_in_overall votes)
    then max_in_overall votes
    else if negb (min_in_group descr votes =? XA_TX_STAGE_MAX_NEVER) then min_in_group descr votes
    else min_in_overall votes in
  if new_txstage =? XA_TX_STAGE_MAX_NEVER then txs_max_complete descr else new_txstage.

(** ** Rounds *)

(** The switch; the decision to commit must be on disk, otherwise the
    transaction is aborted, and that must be on disk or the process exits.
    The second component is false when it exits. *)
Definition switch_stage (s : st) (new_txstage : Z) : st * bool :=
  let r := tms_log_stage s new_txstage (negb (new_txstage =? XA_TX_STAGE_COMMITTING)) in
  if r.2 then (r.1, true) else tms_log_stage r.1 XA_TX_STAGE_ABORTING false.

Inductive drive_end :=
  | DFinish (descr : txstage_descriptor_t)  (* left the loop *)
  | DOut (ret : Z)                          (* [goto out] *)
  | DExit.                                  (* process exit *)

(** The part of a pass behind the loop over the branches. *)
Definition round_tail (s : st) (descr : txstage_descriptor_t) (flags try : Z) (was_retry jump : bool)
    (new_txstage : Z) : st * (Z + drive_end) :=
  let switch := negb (new_txstage =? sd_txstage descr) && negb (new_txstage =? XA_TX_STAGE_MAX_NEVER) in
  let r := if switch then switch_stage s new_txstage else (s, true) in
  let s := r.1 in
  if negb r.2 then (s, inr DExit)
  else if negb (Z.land flags TP_CMT_LOGGED =? 0) && (sd_txstage descr =? XA_TX_STAGE_COMMITTING)
  then (s, inr (DOut EXSUCCEED))
  else
    let try := if was_retry then try + 1 else 0 in
    let again := jump || switch || (was_retry && (try <? xa_retries)) in
    (s, if again then inl try else inr (DFinish descr)).

(** One pass of the loop: the state and either the new retry counter, when
    the loop goes on, or how it was left. *)
Definition drive_round (s : st) (flags try : Z) : st * (Z + drive_end) :=
  match xa_stage_get_descr (txstage (s_tl s)) with
  | None => (s, inr (DOut TPESYSTEM))
  | Some descr =>
      let '(s, l, votes, was_retry, x) := drive_branches s descr (branches (s_tl s)) in
      let s := with_tl s (set_branches (s_tl s) l) in
      match x with
      | LFail => (s, inr (DOut TPESYSTEM))
      | _ =>
          round_tail s descr flags try was_retry (match x with LJump _ => true | _ => false end)
            (match x with LJump n => n | _ => calc_stage descr votes end)
      end
  end.

Fixpoint drive_loop (fuel : nat) (s : st) (flags try : Z) : option (st * drive_end) :=
  match fuel with
  | O => None
  | S fuel =>
      match drive_round s flags try with
      | (s, inl try) => drive_loop fuel s flags try
      | (s, inr e) => Some (s, e)
      end
  end.

Record drive_out := {
  d_ret : Z;          (* return value *)
  d_finished : bool;  (* the transaction is complete, its log removed *)
  d_exited : bool;    (* the process terminated *)
  d_st : st
}.

(** Behind [out]: an unfinished transaction is left to the background. *)
Definition leave_background (s : st) (ret : Z) : drive_out :=
  {| d_ret := ret; d_finished := false; d_exited := false;
     d_st := emit (with_tl s (set_background (s_tl s))) EvUnlock |}.

Definition drive_result (s : st) (op : Z) (e : drive_end) : drive_out :=
  match e with
  | DExit => {| d_ret := 0; d_finished := false; d_exited := true; d_st := s |}
  | DOut ret => leave_background s ret
  | DFinish descr =>
      let ret := xa_txstage2tperrno (sd_txstage descr) op in
      if (txs_min_complete descr <=? sd_txstage descr) && (sd_txstage descr <=? txs_max_complete descr)
      then {| d_ret := ret; d_finished := true; d_exited := false; d_st := emit s EvRemove |}
      else leave_background s ret
  end.

Definition tm_drive (fuel : nat) (s : st) (op flags : Z) : option drive_out :=
  r ← drive_loop fuel s flags 0;
  Some (drive_result r.1 op r.2).

(** ** What a branch does in a stage *)

Definition rows (stage : Z) : list rmstatus_driver_t := default [] (OP_TABLE_SWITCH stage).

(** An operation the action table prescribes for the branch. *)
Definition rm_event (stage : Z) (el : atmi_xa_rm_status_btid_t) (ev : event) : Prop :=
  let op := xa_status_get_op stage (rmstatus el) in
  op <> XA_OP_NOP /\ exists ret reason, ev = EvRm op (rmid el) (btid el) ret reason.

(** The line written when the status of a branch changes, with the log open. *)
Definition status_write (fo : bool) (el el' : atmi_xa_rm_status_btid_t) (ws : list event) : Prop :=
  (ws = [] /\ (rmstatus el' = rmstatus el \/ fo = false)) \/
  exists e reason ok, ws = [EvWrite (LOG_COMMAND_RMSTAT (rmid el) (rmstatus el') e reason (btid el)) ok].

Inductive voted (fo : bool) (stage : Z) (el : atmi_xa_rm_status_btid_t) :
    atmi_xa_rm_status_btid_t -> list event -> option Z -> Prop :=
  | voted_silent :
      xa_status_get_op stage (rmstatus el) = XA_OP_NOP ->
      xa_status_get_next_by_new_status stage (rmstatus el) = None -> voted fo stage el el [] None
  | voted_nop r :
      xa_status_get_op stage (rmstatus el) = XA_OP_NOP ->
      xa_status_get_next_by_new_status stage (rmstatus el) = Some r ->
      voted fo stage el el [] (Some (next_txstage r))
  | voted_op el' ret reason r v ws :
      xa_status_get_op stage (rmstatus el) <> XA_OP_NOP ->
      xa_status_get_next_by_op stage (rmstatus el) (xa_status_get_op stage (rmstatus el)) reason = Some r ->
      rmstatus el' = next_rmstatus r -> rmid el' = rmid el -> btid el' = btid el ->
      v = next_txstage r \/ (stage = XA_TX_STAGE_PREPARING /\ v = XA_TX_STAGE_ABORTING) ->
      status_write fo el el' ws ->
      voted fo stage el el' (EvRm (xa_status_get_op stage (rmstatus el)) (rmid el) (btid el) ret reason :: ws) (Some v).

Definition jumps (descr : txstage_descriptor_t) (stage : Z) : bool :=
  ((stage <? txs_stage_min descr) || (txs_max_complete descr <? stage)) && allow_jump descr
  && (stage <? XA_TX_STAGE_PREPARING).

(** The loop over the branches, in terms of their votes. *)
Inductive voted_all (fo : bool) (descr : txstage_descriptor_t) (stage : Z) :
    list atmi_xa_rm_status_btid_t -> list atmi_xa_rm_status_btid_t -> list event -> list Z -> loop_exit -> Prop :=
  | va_nil : voted_all fo descr stage [] [] [] [] LDone
  | va_fail el l evs : Forall (rm_event stage el) evs ->
      voted_all fo descr stage (el :: l) (el :: l) evs [] LFail
  | va_nomem el el' l evs ov : voted fo stage el el' evs ov ->
      voted_all fo descr stage (el :: l) (el' :: l) evs [] LFail
  | va_jump el el' l evs v : voted fo stage el el' evs (Some v) -> jumps descr v = true ->
      voted_all fo descr stage (el :: l) (el' :: l) evs [] (LJump v)
  | va_next el el' l l' evs evs' ov vs x : voted fo stage el el' evs ov ->
      (forall v, ov = Some v -> jumps descr v = false) -> voted_all fo descr stage l l' evs' vs x ->
      voted_all fo descr stage (el :: l) (el' :: l') (evs ++ evs') (option_list ov ++ vs) x.

(** Same transaction data, the trace longer by [evs]. *)
Definition extends (s s' : st) (evs : list event) : Prop :=
  s_tl s' = s_tl s /\ s_trace s' = s_trace s ++ evs.

Lemma extends_refl s : extends s s [].
Proof. split; [done|by rewrite app_nil_r]. Qed.

Lemma extends_trans s1 s2 s3 a b : extends s1 s2 a -> extends s2 s3 b -> extends s1 s3 (a ++ b).
Proof. intros [H1 H2] [H3 H4]. split; [congruence|]. by rewrite H4, H2, app_assoc. Qed.

Lemma io_extends s f : extends s (io s f).1 [].
Proof. split; cbn; [done|by rewrite app_nil_r]. Qed.

Lemma write_line_extends s l :
  extends s (tms_log_write_line s l).1
    (if f_open (s_tl s) then [EvWrite l (tms_log_write_line s l).2] else []) /\
  (f_open (s_tl s) = false -> (tms_log_write_line s l).2 = true).
Proof. unfold tms_log_write_line. destruct (f_open _); (split; [|done]); [done|apply extends_refl]. Qed.

Lemma rmstatus_spec s bt status e reason s' bt' ok :
  tms_log_rmstatus s bt status e reason = (s', bt', ok) ->
  exists ws, extends s s' ws /\ status_write (f_open (s_tl s)) bt bt' ws /\
    rmstatus bt' = status /\ rmid bt' = rmid bt /\ btid bt' = btid bt.
Proof.
  unfold tms_log_rmstatus. destruct (Z.eqb_spec (rmstatus bt) status); intros [= <- <- <-].
  - exists []. split; [apply extends_refl|]. split; [|done]. left. auto.
  - eexists. split; [apply write_line_extends|]. split; [|done]. unfold status_write. destruct (f_open _); eauto 10.
Qed.

Lemma vote_spec s d el v :
  extends s (branch_vote s d el v).1 [] /\
  ((branch_vote s d el v).2 = BFail \/
   (branch_vote s d el v).2 =
     if jumps d v then BJump v else BNext (Some {| v_rmid := rmid el; v_stage := v; v_btid := btid el |})).
Proof.
  unfold branch_vote. fold (jumps d v). cbv zeta.
  destruct (io s growlist).2; [destruct (jumps d v)|]; (split; [apply io_extends|by auto]).
Qed.

Lemma op_spec s el op s' reason e : branch_op s el op = (s', reason, e) -> op <> XA_OP_NOP ->
  exists ret, extends s s' [EvRm op (rmid el) (btid el) ret reason].
Proof.
  unfold branch_op. intros He Hne. destruct (Z.eqb_spec op XA_OP_NOP) as [|_]; [done|].
  destruct (rm_call _ _ _ _) as [e' [[r c] t]]. simplify_eq. exists r. split; done.
Qed.

Lemma drive_branch_spec s d el s' el' rt x :
  drive_branch s d el = (s', el', rt, x) ->
  exists evs, extends s s' evs /\
    ((x = BFail /\ ((el' = el /\ Forall (rm_event (txstage (s_tl s)) el) evs) \/
                    exists ov, voted (f_open (s_tl s)) (txstage (s_tl s)) el el' evs ov)) \/
     (x = BNext None /\ voted (f_open (s_tl s)) (txstage (s_tl s)) el el' evs None) \/
     exists v, voted (f_open (s_tl s)) (txstage (s_tl s)) el el' evs (Some v) /\
       x = if jumps d v then BJump v
           else BNext (Some {| v_rmid := rmid el; v_stage := v; v_btid := btid el |})).
Proof.
  unfold drive_branch. set (stage := txstage (s_tl s)). set (op := xa_status_get_op stage (rmstatus el)).
  destruct (negb _). { intros [= <- <- _ <-]. exists []. split; [apply extends_refl|]. left. auto. }
  destruct (branch_op s el op) as [[s1 reason] e] eqn:Hop.
  destruct (Z.eqb_spec op XA_OP_NOP) as [Hn|Hn].
  - assert (extends s s1 []) as H1.
    { unfold branch_op in Hop. rewrite (proj2 (Z.eqb_eq _ _) Hn) in Hop. simplify_eq. apply extends_refl. }
    destruct (xa_status_get_next_by_new_status stage (rmstatus el)) as [r|] eqn:Hr.
    + pose proof (vote_spec s1 d el (next_txstage r)) as [H2 H3]. intros [= <- <- _ <-].
      exists []. split; [apply (extends_trans _ _ _ [] [] H1 H2)|].
      destruct H3 as [->| ->]; [left; split; [done|]; right; eauto using voted_nop|].
      right; right. eauto using voted_nop.
    + intros [= <- <- _ <-]. exists []. split; [done|]. right; left. eauto using voted_silent.
  - destruct (op_spec _ _ _ _ _ _ Hop Hn) as [ret H1].
    destruct (xa_status_get_next_by_op stage (rmstatus el) op reason) as [r|] eqn:Hr.
    2:{ intros [= <- <- _ <-]. eexists. split; [exact H1|]. left. split; [done|]. left. split; [done|].
        constructor; [|done]. split; [done|]. eauto. }
    destruct (tms_log_rmstatus _ _ _ _ _) as [[s2 el2] ok] eqn:Hs.
    apply rmstatus_spec in Hs as (ws & H2 & Hws & Hst & Hid & Hb). pose proof H1 as [Htl _]. rewrite Htl in Hws.
    set (v := if negb ok && (stage =? XA_TX_STAGE_PREPARING) then XA_TX_STAGE_ABORTING else next_txstage r).
    pose proof (vote_spec s2 d el2 v) as [H3 H4]. intros [= <- <- _ <-].
    eexists. split; [apply (extends_trans _ _ _ _ _ H1 (extends_trans _ _ _ ws [] H2 H3))|].
    cbn [app]. rewrite app_nil_r.
    assert (voted (f_open (s_tl s)) stage el el2 (EvRm op (rmid el) (btid el) ret reason :: ws) (Some v)) as Hv.
    { eapply voted_op; eauto. subst v. destruct (negb ok); cbn; [|by left].
      destruct (Z.eqb_spec stage XA_TX_STAGE_PREPARING); auto. }
    destruct H4 as [->| ->]; [left; split; [done|]; right; eauto|]. rewrite Hid, Hb. right; right. eauto.
Qed.

Lemma drive_branches_spec d l : forall s s' l' votes rt x,
  drive_branches s d l = (s', l', votes, rt, x) ->
  exists evs vs, extends s s' evs /\ voted_all (f_open (s_tl s)) d (txstage (s_tl s)) l l' evs vs x /\
    (x = LDone -> map v_stage votes = vs).
Proof.
  induction l as [|el l IH]; cbn [drive_branches]; intros s s' l' votes rt x He.
  { simplify_eq. exists [], []. split; [apply extends_refl|]. split; [constructor|done]. }
  destruct (drive_branch s d el) as [[[s1 el1] r1] x1] eqn:H1.
  apply drive_branch_spec in H1 as (evs & Hext & H1).
  destruct H1 as [(-> & [(-> & Hev)|(ov & Hv)])|[(-> & Hv)|(v & Hv & ->)]].
  - simplify_eq. exists evs, []. split; [done|]. split; [by constructor|done].
  - simplify_eq. exists evs, []. split; [done|]. split; [by econstructor|done].
  - destruct (drive_branches s1 d l) as [[[[s2 l2] vo] r2] x2] eqn:H2. simplify_eq.
    apply IH in H2 as (evs2 & vs2 & Hext2 & Hall & Hm). pose proof Hext as [Htl _]. rewrite Htl in Hall.
    eexists _, _. split; [by eapply extends_trans|]. split; [eapply va_next; done|done].
  - destruct (jumps d v) eqn:Hj.
    + simplify_eq. exists evs, []. split; [done|]. split; [by apply va_jump|done].
    + destruct (drive_branches s1 d l) as [[[[s2 l2] vo] r2] x2] eqn:H2. simplify_eq.
      apply IH in H2 as (evs2 & vs2 & Hext2 & Hall & Hm). pose proof Hext as [Htl _]. rewrite Htl in Hall.
      eexists _, _. split; [by eapply extends_trans|]. split; [eapply va_next; [done| |done]|].
      { intros ? [= <-]. done. }
      intros Hx. cbn. by rewrite (Hm Hx).
Qed.

(** ** The stages a round can lead to *)

Definition next_stages (d : txstage_descriptor_t) : list Z :=
  txs_max_complete d :: map next_txstage (rows (sd_txstage d)).

(** A check of every descriptor by evaluation. *)
Lemma descr_check (P : txstage_descriptor_t -> bool) stage d :
  forallb P G_state_descriptor = true -> xa_stage_get_descr stage = Some d -> P d = true /\ sd_txstage d = stage.
Proof.
  rewrite forallb_forall. intros HP (Hin & Hd)%find_Some_1. rewrite list_elem_of_In in Hin.
  split; [by apply HP|lia].
Qed.

(** A check of every stage a descriptor leads to. *)
Lemma next_check (P : txstage_descriptor_t -> Z -> bool) stage d n :
  forallb (fun d => forallb (P d) (next_stages d)) G_state_descriptor = true ->
  xa_stage_get_descr stage = Some d -> n ∈ next_stages d -> P d n = true.
Proof.
  intros HP Hd Hn. destruct (descr_check _ _ _ HP Hd) as [Hall _]. rewrite forallb_forall in Hall.
  apply Hall. by rewrite <-list_elem_of_In.
Qed.

Lemma voted_row {fo} stage el el' evs v : voted fo stage el el' evs (Some v) ->
  exists r, r ∈ rows stage /\ next_rmstatus r = rmstatus el' /\
    (v = next_txstage r \/ (stage = XA_TX_STAGE_PREPARING /\ v = XA_TX_STAGE_ABORTING)).
Proof.
  unfold rows. inversion 1; subst.
  - match goal with Hr : _ = Some _ |- _ => destruct (by_status_row _ _ _ Hr) as (t & -> & ? & ?) end. eauto.
  - match goal with Hr : _ = Some _ |- _ => destruct (by_op_row _ _ _ _ _ Hr) as (t & -> & ? & _) end. eauto.
Qed.

Lemma voted_in {fo} stage el el' evs v : voted fo stage el el' evs (Some v) -> v ∈ map next_txstage (rows stage).
Proof.
  intros (r & Hr & _ & [->|[-> ->]])%voted_row; [by apply list_elem_of_fmap_2|].
  apply list_elem_of_In. cbn. auto.
Qed.

Lemma voted_all_in {fo} d stage l l' evs vs x : voted_all fo d stage l l' evs vs x ->
  Forall (fun v => v ∈ map next_txstage (rows stage)) vs /\
  (forall n, x = LJump n -> n ∈ map next_txstage (rows stage) /\ jumps d n = true).
Proof.
  induction 1; (split; [|intros n Hn; try discriminate]); try done.
  - simplify_eq. eauto using voted_in.
  - destruct ov; cbn; [constructor; [by eapply voted_in|]|]; apply IHvoted_all.
  - by apply IHvoted_all.
Qed.

Lemma min_in_overall_spec votes :
  Forall (fun v => min_in_overall votes <= v_stage v) votes /\
  (min_in_overall votes = XA_TX_STAGE_MAX_NEVER \/ min_in_overall votes ∈ map v_stage votes).
Proof.
  unfold min_in_overall. generalize XA_TX_STAGE_MAX_NEVER as a.
  assert (forall l a, fold_left (fun m v => if v_stage v <? m then v_stage v else m) l a <= a) as Hle.
  { induction l as [|v l IH]; intros a; cbn; [lia|]. etrans; [apply IH|]. destruct (Z.ltb_spec (v_stage v) a); lia. }
  induction votes as [|v l IH]; intros a; cbn; [auto|].
  specialize (IH (if v_stage v <? a then v_stage v else a)) as [H1 H2].
  specialize (Hle l (if v_stage v <? a then v_stage v else a)).
  split; [constructor; [|done]|]; destruct (Z.ltb_spec (v_stage v) a); try lia; destruct H2 as [H2|H2];
    rewrite ?H2; auto; right; rewrite elem_of_cons; auto.
Qed.

Lemma max_in_overall_spec votes :
  Forall (fun v => v_stage v <= max_in_overall votes) votes /\
  (max_in_overall votes = XA_TX_STAGE_MIN_NEVER \/ max_in_overall votes ∈ map v_stage votes).
Proof.
  unfold max_in_overall. generalize XA_TX_STAGE_MIN_NEVER as a.
  assert (forall l a, a <= fold_left (fun m v => if m <? v_stage v then v_stage v else m) l a) as Hle.
  { induction l as [|v l IH]; intros a; cbn; [lia|]. etrans; [|apply IH]. destruct (Z.ltb_spec a (v_stage v)); lia. }
  induction votes as [|v l IH]; intros a; cbn; [auto|].
  specialize (IH (if a <? v_stage v then v_stage v else a)) as [H1 H2].
  specialize (Hle l (if a <? v_stage v then v_stage v else a)).
  split; [constructor; [|done]|]; destruct (Z.ltb_spec a (v_stage v)); try lia; destruct H2 as [H2|H2];
    rewrite ?H2; auto; right; rewrite elem_of_cons; auto.
Qed.

(** The group minimum is never set: it starts above every stage and only grows. *)
Lemma min_in_group_dead d votes : Forall (fun v => v_stage v <= XA_TX_STAGE_MAX_NEVER) votes ->
  min_in_group d votes = XA_TX_STAGE_MAX_NEVER.
Proof.
  unfold min_in_group. induction 1 as [|v l Hv _ IH]; [done|]. cbn [fold_left].
  replace (_ <? v_stage v) with false by lia. by rewrite andb_false_r.
Qed.

Lemma calc_stage_in d votes : Forall (fun v => v_stage v < XA_TX_STAGE_MAX_NEVER) votes ->
  0 <= txs_max_complete d -> calc_stage d votes ∈ txs_max_complete d :: map v_stage votes.
Proof.
  intros Hv Hd. unfold calc_stage. rewrite min_in_group_dead by (eapply Forall_impl; [exact Hv|]; cbn; lia).
  destruct (min_in_overall_spec votes) as [_ Hmin], (max_in_overall_spec votes) as [_ Hmax].
  change (negb (XA_TX_STAGE_MAX_NEVER =? XA_TX_STAGE_MAX_NEVER)) with false.
  destruct (_ && (txs_max_complete d <? max_in_overall votes)) eqn:Hc.
  - destruct (Z.eqb_spec (max_in_overall votes) XA_TX_STAGE_MAX_NEVER); [by left|].
    destruct Hmax as [Hmax|]; [unfold XA_TX_STAGE_MIN_NEVER in Hmax; lia|by right].
  - destruct (Z.eqb_spec (min_in_overall votes) XA_TX_STAGE_MAX_NEVER); [by left|].
    destruct Hmin as [|]; [done|by right].
Qed.

(** A result in the complete range of the stage is reached by all votes. *)
Lemma calc_stage_complete d votes : Forall (fun v => v_stage v < XA_TX_STAGE_MAX_NEVER) votes ->
  txs_min_complete d <= calc_stage d votes <= txs_max_complete d ->
  Forall (fun v => calc_stage d votes <= v_stage v <= txs_max_complete d) votes.
Proof.
  intros Hv. unfold calc_stage. rewrite min_in_group_dead by (eapply Forall_impl; [exact Hv|]; cbn; lia).
  destruct (min_in_overall_spec votes) as [Hmin Hm0], (max_in_overall_spec votes) as [Hmax Hm1].
  change (negb (XA_TX_STAGE_MAX_NEVER =? XA_TX_STAGE_MAX_NEVER)) with false.
  destruct votes as [|v0 l]; [constructor|]. set (votes := v0 :: l) in *.
  assert (min_in_overall votes < XA_TX_STAGE_MAX_NEVER) as Hlt
    by (apply Forall_cons in Hmin as [? _], Hv as [? _]; lia).
  assert (max_in_overall votes < XA_TX_STAGE_MAX_NEVER) as Hlt'.
  { destruct Hm1 as [->|(v & -> & Hin)%list_elem_of_fmap_1]; [done|]. rewrite Forall_forall in Hv. by apply Hv. }
  intros Hr. apply Forall_forall. intros v Hin.
  rewrite Forall_forall in Hmin, Hmax. specialize (Hmin _ Hin). specialize (Hmax _ Hin).
  destruct (_ && (txs_max_complete d <? max_in_overall votes)) eqn:Hc.
  - rewrite (proj2 (Z.eqb_neq _ _)) in Hr by lia. lia.
  - rewrite (proj2 (Z.eqb_neq (min_in_overall votes) _)) in * by lia. lia.
Qed.

(** The stage a round decides for. *)
Inductive decided (d : txstage_descriptor_t) : loop_exit -> list Z -> Z -> Prop :=
  | decided_jump n vs : decided d (LJump n) vs n
  | decided_votes votes : decided d LDone (map v_stage votes) (calc_stage d votes).

Lemma decided_next {fo} d stage l l' evs vs x n :
  xa_stage_get_descr stage = Some d -> voted_all fo d stage l l' evs vs x -> decided d x vs n ->
  n ∈ next_stages d /\ (x <> LDone -> n <> stage) /\ n <> XA_TX_STAGE_MAX_NEVER.
Proof.
  intros Hd (Hvs & Hj)%voted_all_in Hdec.
  destruct (descr_check (fun d => (0 <=? txs_max_complete d) &&
      (negb (allow_jump d) || (sd_txstage d =? XA_TX_STAGE_PREPARING))) _ _ eq_refl Hd) as [[Hc0 Hc]%andb_prop Hs].
  assert (forall n, n ∈ next_stages d -> n <> XA_TX_STAGE_MAX_NEVER /\ n < XA_TX_STAGE_MAX_NEVER) as Hmax.
  { intros m Hm. pose proof (next_check (fun _ n => n <? XA_TX_STAGE_MAX_NEVER) _ _ _ eq_refl Hd Hm) as Hlt.
    cbv beta in Hlt. lia. }
  unfold next_stages in *. rewrite Hs in *.
  assert (n ∈ txs_max_complete d :: map next_txstage (rows stage)) as Hn.
  { destruct Hdec as [m vs|votes]; [right; by apply Hj|].
    assert (Forall (fun v => v_stage v < XA_TX_STAGE_MAX_NEVER) votes) as Hv.
    { rewrite Forall_map in Hvs. eapply Forall_impl; [exact Hvs|]. intros v Hin. apply Hmax. by right. }
    destruct (proj1 (elem_of_cons _ _ _) (calc_stage_in d votes Hv ltac:(lia))) as [->|Hin]; [by left|].
    right. rewrite Forall_forall in Hvs. by apply Hvs. }
  split; [done|]. split; [|by apply Hmax]. destruct Hdec; [|done].
  intros _. destruct (Hj _ eq_refl) as [_ Hju]. unfold jumps in Hju.
  destruct (allow_jump d); [|lia]. cbn in Hc. lia.
Qed.

(** ** Switching *)

(** What logging a switch to [n] does, with the log open or not. *)
Inductive stage_io (fo : bool) (n : Z) : list event -> bool -> Prop :=
  | sio_unlocked : n = XA_TX_STAGE_COMMITTING -> stage_io fo n [] false
  | sio_write_fails j : fo = true -> (j < w_cnt n)%nat ->
      stage_io fo n (replicate j (EvWrite (LOG_COMMAND_STAGE n) true) ++ [EvWrite (LOG_COMMAND_STAGE n) false]) false
  | sio_written : n <> XA_TX_STAGE_COMMITTING -> n <> XA_TX_STAGE_ABORTING ->
      stage_io fo n (if fo then replicate (w_cnt n) (EvWrite (LOG_COMMAND_STAGE n) true) else []) true
  | sio_synced k ok : n = XA_TX_STAGE_COMMITTING \/ n = XA_TX_STAGE_ABORTING -> (ok = true -> k = true) ->
      stage_io fo n ((if fo then replicate (w_cnt n) (EvWrite (LOG_COMMAND_STAGE n) true) else []) ++ [EvSync k]) ok.

(** From [stage] to [n]: the events, the stage reached, whether the process
    lives on. *)
Inductive switched (fo : bool) (stage n : Z) : list event -> Z -> bool -> Prop :=
  | sw_plain ws ok : n <> XA_TX_STAGE_COMMITTING -> stage_io fo n ws ok ->
      switched fo stage n (ws ++ [EvStage n ok]) n true
  | sw_commit ws : n = XA_TX_STAGE_COMMITTING -> stage_io fo n ws true ->
      switched fo stage n (ws ++ [EvStage n true]) n true
  | sw_refused ws ws' : n = XA_TX_STAGE_COMMITTING -> stage_io fo n ws false ->
      stage_io fo XA_TX_STAGE_ABORTING ws' true ->
      switched fo stage n ((ws ++ [EvStage n false]) ++ ws' ++ [EvStage XA_TX_STAGE_ABORTING true])
        XA_TX_STAGE_ABORTING true
  | sw_exit ws ws' : n = XA_TX_STAGE_COMMITTING -> stage_io fo n ws false ->
      stage_io fo XA_TX_STAGE_ABORTING ws' false ->
      switched fo stage n ((ws ++ [EvStage n false]) ++ ws' ++ [EvStage XA_TX_STAGE_ABORTING false]) stage false.

Lemma and_then_true s f : and_then (s, true) f = f s.
Proof. done. Qed.

Lemma and_then_false s f : and_then (s, false) f = (s, false).
Proof. done. Qed.

Lemma write_times_spec l k : forall s,
  exists ws, extends s (write_times k s l).1 ws /\
    if (write_times k s l).2 then ws = (if f_open (s_tl s) then replicate k (EvWrite l true) else [])
    else f_open (s_tl s) = true /\ exists j, (j < k)%nat /\ ws = replicate j (EvWrite l true) ++ [EvWrite l false].
Proof.
  induction k as [|k IH]; intros s; cbn [write_times].
  { exists []. split; [apply extends_refl|]. by destruct (f_open _). }
  unfold and_then. destruct (write_line_extends s l) as [H1 H2].
  destruct (tms_log_write_line s l) as [s1 ok]. cbn [fst snd] in *. destruct ok.
  - destruct (IH s1) as (ws & H3 & H4). pose proof H1 as [Htl _]. rewrite Htl in H4.
    eexists. split; [exact (extends_trans _ _ _ _ _ H1 H3)|].
    destruct (write_times k s1 l).2; [by destruct (f_open _); subst ws|].
    destruct H4 as (Hf & j & Hj & ->). rewrite Hf. split; [done|]. exists (S j). split; [lia|done].
  - destruct (f_open (s_tl s)); [|by specialize (H2 eq_refl)].
    eexists. split; [exact H1|]. split; [done|]. exists 0%nat. split; [lia|done].
Qed.

Lemma io_after s s' evs f : extends s s' evs -> extends s (io s' f).1 evs.
Proof. intros [H1 H2]. split; [exact H1|exact H2]. Qed.

Lemma sync_log_extends s : extends s (sync_log s).1 [EvSync (sync_log s).2].
Proof.
  unfold sync_log, and_then, io. cbn [fst snd].
  destruct (ndrx_fsync_fsync _ _ _) as [e []]; cbn [fst snd]; [destruct (ndrx_fsync_dsync _ _)|]; by split.
Qed.

Lemma log_stage_io_spec s n : exists ws, extends s (log_stage_io s n).1 ws /\
  stage_io (f_open (s_tl s)) n ws (log_stage_io s n).2.
Proof.
  unfold log_stage_io.
  assert (exists s0 k, (if n =? XA_TX_STAGE_COMMITTING then io s checkpointseq else (s, true)) = (s0, k) /\
    extends s s0 [] /\ (k = false -> n = XA_TX_STAGE_COMMITTING)) as (s0 & k & -> & H0 & Hk).
  { destruct (Z.eqb_spec n XA_TX_STAGE_COMMITTING); eexists _, _; (split; [apply surjective_pairing|]);
      (split; [|done]); [apply io_extends|apply extends_refl]. }
  destruct k; [rewrite and_then_true|rewrite and_then_false].
  2:{ exists []. split; [done|]. by apply sio_unlocked, Hk. }
  destruct (write_times_spec (LOG_COMMAND_STAGE n) (w_cnt n) s0) as (ws & H1 & H2).
  destruct (write_times _ _ _) as [s1 ok]. cbn [fst snd] in *.
  pose proof H0 as [Htl _]. rewrite Htl in H2. pose proof (extends_trans _ _ _ _ _ H0 H1) as H01. cbn [app] in H01.
  destruct ok; [rewrite and_then_true|rewrite and_then_false].
  2:{ destruct H2 as (Hf & j & Hj & ->). eexists. split; [exact H01|]. by apply sio_write_fails. }
  subst ws. destruct (Z.eqb_spec n XA_TX_STAGE_COMMITTING), (Z.eqb_spec n XA_TX_STAGE_ABORTING); cbn [orb];
    [subst; done| | |eexists; split; [exact H01|by apply sio_written]].
  all: pose proof (extends_trans _ _ _ _ _ H01 (sync_log_extends s1)) as H02;
    unfold and_then; destruct (sync_log s1) as [s2 k]; cbn [fst snd] in *; destruct k;
    (eexists; split; [first [exact H02|exact (io_after _ _ _ _ H02)]|apply sio_synced; auto]).
Qed.

Lemma tms_log_stage_spec s n forced : txstage (s_tl s) <> n -> txstage (s_tl s) <> EXFAIL ->
  exists ok ws s', tms_log_stage s n forced = (s', forced || ok) /\ stage_io (f_open (s_tl s)) n ws ok /\
    s_tl s' = set_stage (s_tl s) (if forced || ok then n else txstage (s_tl s)) /\
    s_trace s' = s_trace s ++ ws ++ [EvStage n ok].
Proof.
  intros Hne Hf. unfold tms_log_stage. rewrite (proj2 (Z.eqb_neq _ _) Hne). cbv zeta.
  destruct (log_stage_io_spec (with_tl s (set_stage (s_tl s) n)) n) as (ws & [Htl Htr] & Hio).
  destruct (log_stage_io _ n) as [s1 ok]. cbn [fst snd] in *.
  exists ok, ws. rewrite (proj2 (Z.eqb_neq _ _) Hf).
  destruct forced, ok; cbn; (eexists; split; [reflexivity|]); cbn; rewrite Htl, Htr, <-app_assoc; done.
Qed.

Lemma switch_stage_spec s n : txstage (s_tl s) <> n -> txstage (s_tl s) <> EXFAIL ->
  (n = XA_TX_STAGE_COMMITTING -> txstage (s_tl s) = XA_TX_STAGE_PREPARING) ->
  exists evs stage' ok s', switch_stage s n = (s', ok) /\ switched (f_open (s_tl s)) (txstage (s_tl s)) n evs stage' ok /\
    s_tl s' = set_stage (s_tl s) stage' /\ s_trace s' = s_trace s ++ evs.
Proof.
  intros Hne Hf Hp. unfold switch_stage.
  destruct (tms_log_stage_spec s n (negb (n =? XA_TX_STAGE_COMMITTING)) Hne Hf)
    as (ok & ws & s1 & -> & Hio & Htl & Htr).
  destruct (Z.eqb_spec n XA_TX_STAGE_COMMITTING) as [Hn|Hn]; cbn [negb orb] in *; cbn [fst snd].
  2:{ eexists _, _, _, _. split; [reflexivity|]. split; [by apply sw_plain|done]. }
  destruct ok. { eexists _, _, _, _. split; [reflexivity|]. split; [by apply sw_commit|done]. }
  assert (txstage (s_tl s1) = XA_TX_STAGE_PREPARING) as Hs1 by (rewrite Htl; cbn; auto).
  destruct (tms_log_stage_spec s1 XA_TX_STAGE_ABORTING false) as (ok & ws2 & s2 & -> & Hio2 & Htl2 & Htr2);
    [by rewrite Hs1..|].
  rewrite Htl in Htl2, Hio2. rewrite Htr, <-app_assoc in Htr2. cbn [orb set_stage f_open] in *.
  destruct ok; eexists _, _, _, _; (split; [reflexivity|]).
  - split; [by apply sw_refused|done].
  - split; [by apply sw_exit|]. by rewrite Htl2.
Qed.

(** ** A round *)

Inductive round_out (flags try : Z) (s s' : st) : Z + drive_end -> Prop :=
  | round_nodescr : xa_stage_get_descr (txstage (s_tl s)) = None -> s' = s ->
      round_out flags try s s' (inr (DOut TPESYSTEM))
  | round_fail d l' evs vs : xa_stage_get_descr (txstage (s_tl s)) = Some d ->
      voted_all (f_open (s_tl s)) d (txstage (s_tl s)) (branches (s_tl s)) l' evs vs LFail ->
      s_tl s' = set_branches (s_tl s) l' -> s_trace s' = s_trace s ++ evs ->
      round_out flags try s s' (inr (DOut TPESYSTEM))
  | round_stay d l' evs vs r : xa_stage_get_descr (txstage (s_tl s)) = Some d ->
      voted_all (f_open (s_tl s)) d (txstage (s_tl s)) (branches (s_tl s)) l' evs vs LDone ->
      decided d LDone vs (txstage (s_tl s)) ->
      s_tl s' = set_branches (s_tl s) l' -> s_trace s' = s_trace s ++ evs ->
      (r = inr (DOut EXSUCCEED) /\ Z.land flags TP_CMT_LOGGED <> 0 /\ txstage (s_tl s) = XA_TX_STAGE_COMMITTING) \/
      (r = inl (try + 1) /\ try + 1 < xa_retries) \/ r = inr (DFinish d) ->
      round_out flags try s s' r
  | round_switch d l' evs vs x n sw stage' ok r : xa_stage_get_descr (txstage (s_tl s)) = Some d ->
      voted_all (f_open (s_tl s)) d (txstage (s_tl s)) (branches (s_tl s)) l' evs vs x -> decided d x vs n ->
      n <> txstage (s_tl s) -> switched (f_open (s_tl s)) (txstage (s_tl s)) n sw stage' ok ->
      s_tl s' = set_stage (set_branches (s_tl s) l') stage' -> s_trace s' = s_trace s ++ evs ++ sw ->
      (ok = false /\ r = inr DExit) \/
      (ok = true /\ r = inr (DOut EXSUCCEED) /\ Z.land flags TP_CMT_LOGGED <> 0 /\
       txstage (s_tl s) = XA_TX_STAGE_COMMITTING) \/
      (ok = true /\ (r = inl (try + 1) \/ r = inl 0)) ->
      round_out flags try s s' r.

Lemma round_tail_spec flags try s s1 d l' evs vs x rt n s' r :
  xa_stage_get_descr (txstage (s_tl s)) = Some d ->
  voted_all (f_open (s_tl s)) d (txstage (s_tl s)) (branches (s_tl s)) l' evs vs x -> decided d x vs n ->
  s_tl s1 = set_branches (s_tl s) l' -> s_trace s1 = s_trace s ++ evs ->
  round_tail s1 d flags try rt (match x with LJump _ => true | _ => false end) n = (s', r) ->
  round_out flags try s s' r.
Proof.
  intros Hd Hall Hdec Htl Htr. destruct (decided_next _ _ _ _ _ _ _ _ Hd Hall Hdec) as (Hn & Hj & Hmax).
  destruct (descr_check (fun d => negb (sd_txstage d =? EXFAIL)) _ _ eq_refl Hd) as [Hf Hs].
  unfold round_tail. rewrite (proj2 (Z.eqb_neq _ _) Hmax), Hs. cbn [negb]. rewrite andb_true_r.
  destruct (Z.eqb_spec n (txstage (s_tl s))) as [->|Hne]; cbn [negb fst snd].
  - assert (x = LDone) as -> by (destruct x; [done|by destruct (Hj ltac:(done))..]). cbn [orb].
    intros He. destruct (Z.eqb_spec (Z.land flags TP_CMT_LOGGED) 0) as [|Hfl]; cbn [negb andb] in He.
    + destruct rt; cbn [andb] in He; [destruct (Z.ltb_spec (try + 1) xa_retries)|]; simplify_eq;
        eapply round_stay; eauto.
    + destruct (Z.eqb_spec (txstage (s_tl s)) XA_TX_STAGE_COMMITTING) as [Hc|Hc];
        [|destruct rt; cbn [andb] in He; [destruct (Z.ltb_spec (try + 1) xa_retries)|]];
        simplify_eq; eapply round_stay; eauto.
  - assert (txstage (s_tl s1) = txstage (s_tl s)) as Hs1 by by rewrite Htl.
    pose proof (next_check (fun d n => negb (n =? XA_TX_STAGE_COMMITTING) || (sd_txstage d =? XA_TX_STAGE_PREPARING)
      || (sd_txstage d =? n)) _ _ _ eq_refl Hd Hn) as Hc. cbv beta in Hc.
    destruct (switch_stage_spec s1 n) as (sw & stage' & ok & s2 & -> & Hsw & Htl2 & Htr2);
      [rewrite Hs1; done|rewrite Hs1; cbv beta in Hf; lia|rewrite Hs1; lia|]. rewrite Hs1 in Hsw.
    assert (f_open (s_tl s1) = f_open (s_tl s)) as Hfo by by rewrite Htl. rewrite Hfo in Hsw.
    rewrite Htl in Htl2. rewrite Htr, <-app_assoc in Htr2. cbn [fst snd].
    intros He. assert (s' = s2) as ->.
    { destruct ok; cbn [negb] in He; [|by simplify_eq]. destruct (negb _ && _); by simplify_eq. }
    eapply round_switch; eauto. destruct ok; cbn [negb] in He; [right|left; by simplify_eq].
    destruct (Z.eqb_spec (Z.land flags TP_CMT_LOGGED) 0) as [|Hfl]; cbn [negb andb] in He;
      [|destruct (Z.eqb_spec (txstage (s_tl s)) XA_TX_STAGE_COMMITTING)];
      [right|left|right]; rewrite ?orb_true_r in He; cbn [orb] in He;
      (split; [done|]); destruct rt; simplify_eq; auto.
Qed.

Lemma drive_round_spec s flags try s' r : drive_round s flags try = (s', r) -> round_out flags try s s' r.
Proof.
  unfold drive_round. destruct (xa_stage_get_descr _) as [d|] eqn:Hd.
  2:{ intros [= <- <-]. by apply round_nodescr. }
  destruct (drive_branches _ _ _) as [[[[s1 l'] votes] rt] x] eqn:Hb.
  apply drive_branches_spec in Hb as (evs & vs & [Htl Htr] & Hall & Hv).
  destruct x as [|n|].
  - specialize (Hv eq_refl). subst vs. intros He.
    eapply (round_tail_spec _ _ _ (with_tl s1 (set_branches (s_tl s1) l')));
      [exact Hd|exact Hall|apply decided_votes| | |exact He]; cbn; by rewrite ?Htl.
  - intros He. eapply (round_tail_spec _ _ _ (with_tl s1 (set_branches (s_tl s1) l')));
      [exact Hd|exact Hall|apply decided_jump| | |exact He]; cbn; by rewrite ?Htl.
  - intros [= <- <-]. eapply round_fail; [exact Hd|exact Hall|..]; cbn; by rewrite ?Htl.
Qed.

(** ** Termination *)

(** How many stages can still follow. *)
Definition rank (stage : Z) : nat :=
  if stage =? XA_TX_STAGE_PREPARING then 3
  else if (stage =? XA_TX_STAGE_COMMITTING) || (stage =? XA_TX_STAGE_ABORTING) then 2
  else if (stage =? XA_TX_STAGE_COMFORGETTING) || (stage =? XA_TX_STAGE_ABFORGETTING) ||
          (stage =? XA_TX_STAGE_ACTIVE) then 1
  else 0.

Definition drive_fuel : nat := 4 * S (Z.to_nat xa_retries).

Lemma to_commit_from stage d n : xa_stage_get_descr stage = Some d -> n ∈ next_stages d -> n <> stage ->
  n = XA_TX_STAGE_COMMITTING -> stage = XA_TX_STAGE_PREPARING.
Proof.
  intros Hd Hn Hne ->. destruct (descr_check (fun _ => true) _ _ eq_refl Hd) as [_ Hs].
  pose proof (next_check (fun d n => negb (n =? XA_TX_STAGE_COMMITTING) || (sd_txstage d =? XA_TX_STAGE_PREPARING)
    || (sd_txstage d =? n)) _ _ _ eq_refl Hd Hn) as Hc. cbv beta in Hc. lia.
Qed.

Lemma switched_rank fo stage d n sw stage' : xa_stage_get_descr stage = Some d -> n ∈ next_stages d -> n <> stage ->
  switched fo stage n sw stage' true -> (rank stage' < rank stage)%nat.
Proof.
  intros Hd Hn Hne Hsw. destruct (descr_check (fun _ => true) _ _ eq_refl Hd) as [_ Hs].
  pose proof (next_check (fun d n => (n =? sd_txstage d) || (rank n <? rank (sd_txstage d))%nat)
    _ _ _ eq_refl Hd Hn) as Hc. cbv beta in Hc. rewrite Hs in Hc.
  apply orb_prop in Hc as [Hc|Hc%Nat.ltb_lt]; [lia|].
  by inversion Hsw; subst.
Qed.

Lemma drive_loop_total fuel : forall s flags try, 0 <= try ->
  (rank (txstage (s_tl s)) * S (Z.to_nat xa_retries) + Z.to_nat (xa_retries - try) < fuel)%nat ->
  is_Some (drive_loop fuel s flags try).
Proof.
  induction fuel as [|fuel IH]; intros s flags try Ht Hf; [lia|]. cbn [drive_loop].
  destruct (drive_round s flags try) as [s' [t|e]] eqn:Hr; [|by eexists].
  apply drive_round_spec in Hr. inversion Hr as [| |d l' evs vs r Hd Hall Hdec Htl Htr Hc
    |d l' evs vs x n sw stage' ok r Hd Hall Hdec Hne Hsw Htl Htr Hc]; subst.
  - destruct Hc as [(? & _)|[(? & Hlt)|?]]; try discriminate. simplify_eq.
    apply IH; [lia|]. rewrite Htl. cbn [set_branches txstage]. lia.
  - destruct Hc as [(_ & ?)|[(_ & ? & _)|(-> & Hc)]]; try discriminate.
    destruct (decided_next _ _ _ _ _ _ _ _ Hd Hall Hdec) as (Hn & _).
    pose proof (switched_rank _ _ _ _ _ _ Hd Hn Hne Hsw) as Hrk.
    apply IH; [destruct Hc; simplify_eq; lia|]. rewrite Htl. cbn [set_stage txstage].
    assert (Z.to_nat (xa_retries - t) <= Z.to_nat xa_retries)%nat by (destruct Hc; simplify_eq; lia). nia.
Qed.

(** Driving a transaction terminates whatever the resource managers and the log
    device answer: every stage is left for a later one, or kept for at most the
    configured number of retries. *)
Lemma tm_drive_total s op flags : is_Some (tm_drive drive_fuel s op flags).
Proof.
  assert (is_Some (drive_loop drive_fuel s flags 0)) as [[s' e] He].
  { apply drive_loop_total; [lia|]. unfold drive_fuel, rank. rewrite Z.sub_0_r.
    repeat destruct (_ =? _); cbn [orb]; lia. }
  unfold tm_drive. rewrite He. by eexists.
Qed.

(** ** The protocol

    Two-phase commit as an automaton over the events: nothing but prepare
    before a decision, a commit only behind a decision that is written and
    synchronised, no way from one decision to the other, no resource manager
    called while the decision is in doubt, and no log removed before a
    decision.  [fo]: the log file is open. *)

Inductive phase :=
  | Idle | Undecided
  | Written | Synced                        (* the decision to commit *)
  | Unwritten                               (* its write failed *)
  | Doomed                                  (* the decision to abort *)
  | Doubtful | DoubtWritten | DoubtSynced   (* commit could not be logged, so abort *)
  | Committing | Aborting.

Definition protocol_step (fo : bool) (p : phase) (ev : event) : option phase :=
  match p, ev with
  | Undecided, EvRm op _ _ _ _ => if op =? XA_OP_PREPARE then Some Undecided else None
  | Undecided, EvWrite (LOG_COMMAND_RMSTAT _ _ _ _ _) _ => Some Undecided
  | Undecided, EvWrite (LOG_COMMAND_STAGE n) ok =>
      if n =? XA_TX_STAGE_COMMITTING then Some (if ok then Written else Unwritten)
      else if n =? XA_TX_STAGE_ABORTING then Some Doomed
      else if n =? XA_TX_STAGE_PREPRO then Some Undecided else None
  | Undecided, EvSync _ => if fo then None else Some Undecided
  | Undecided, EvStage n ok =>
      if n =? XA_TX_STAGE_COMMITTING then
        if ok then (if fo then None else Some Committing) else Some Doubtful
      else if n =? XA_TX_STAGE_ABORTING then if fo then None else Some Aborting
      else if n =? XA_TX_STAGE_PREPRO then Some Idle else None
  | Undecided, EvUnlock => Some Undecided
  | Written, EvSync ok => Some (if ok then Synced else Written)
  | Written, EvStage n false => if n =? XA_TX_STAGE_COMMITTING then Some Doubtful else None
  | Unwritten, EvStage n false => if n =? XA_TX_STAGE_COMMITTING then Some Doubtful else None
  | Synced, EvStage n ok =>
      if n =? XA_TX_STAGE_COMMITTING then Some (if ok then Committing else Doubtful) else None
  | Doomed, EvWrite (LOG_COMMAND_STAGE n) _ => if n =? XA_TX_STAGE_ABORTING then Some Doomed else None
  | Doomed, EvSync _ => Some Doomed
  | Doomed, EvStage n _ => if n =? XA_TX_STAGE_ABORTING then Some Aborting else None
  | Doubtful, EvWrite (LOG_COMMAND_STAGE n) ok =>
      if n =? XA_TX_STAGE_ABORTING then Some (if ok then DoubtWritten else Doubtful) else None
  | Doubtful, EvSync _ => if fo then None else Some Doubtful
  | Doubtful, EvStage n ok =>
      if n =? XA_TX_STAGE_ABORTING then
        if ok then (if fo then None else Some Aborting) else Some Doubtful
      else None
  | DoubtWritten, EvWrite (LOG_COMMAND_STAGE n) _ =>
      if n =? XA_TX_STAGE_ABORTING then Some DoubtWritten else None
  | DoubtWritten, EvSync ok => Some (if ok then DoubtSynced else DoubtWritten)
  | DoubtWritten, EvStage n false => if n =? XA_TX_STAGE_ABORTING then Some Doubtful else None
  | DoubtSynced, EvStage n ok =>
      if n =? XA_TX_STAGE_ABORTING then Some (if ok then Aborting else Doubtful) else None
  | Committing, EvRm op _ _ _ _ => if (op =? XA_OP_COMMIT) || (op =? XA_OP_FORGET) then Some Committing else None
  | Committing, EvWrite (LOG_COMMAND_RMSTAT _ _ _ _ _) _ => Some Committing
  | Committing, (EvWrite (LOG_COMMAND_STAGE n) _ | EvStage n _) =>
      if XA_TX_STAGE_COMMITTING <? n then Some Committing else None
  | Committing, (EvRemove | EvUnlock) => Some Committing
  | Aborting, EvRm op _ _ _ _ => if (op =? XA_OP_ROLLBACK) || (op =? XA_OP_FORGET) then Some Aborting else None
  | Aborting, EvWrite (LOG_COMMAND_RMSTAT _ _ _ _ _) _ => Some Aborting
  | Aborting, (EvWrite (LOG_COMMAND_STAGE n) _ | EvStage n _) =>
      if (XA_TX_STAGE_ABORTING <? n) && (n <? XA_TX_STAGE_PREPARING) then Some Aborting else None
  | Aborting, (EvRemove | EvUnlock) => Some Aborting
  | Idle, EvWrite (LOG_COMMAND_STAGE n) _ | Idle, EvStage n _ => if n =? XA_TX_STAGE_NULL then Some Idle else None
  | Idle, (EvRemove | EvUnlock) => Some Idle
  | _, _ => None
  end.

Fixpoint protocol (fo : bool) (p : phase) (tr : list event) : option phase :=
  match tr with [] => Some p | ev :: tr => p ← protocol_step fo p ev; protocol fo p tr end.

Definition phase_of (stage : Z) : phase :=
  if stage =? XA_TX_STAGE_PREPARING then Undecided
  else if XA_TX_STAGE_COMMITTING <=? stage then Committing
  else if (XA_TX_STAGE_ABORTING <=? stage) && (stage <? XA_TX_STAGE_PREPARING) then Aborting
  else Idle.

Global Instance phase_eq_dec : EqDecision phase.
Proof. solve_decision. Defined.

Lemma protocol_app fo p a b : protocol fo p (a ++ b) = q ← protocol fo p a; protocol fo q b.
Proof.
  revert p. induction a as [|ev a IH]; intros p; [done|]. cbn.
  destruct (protocol_step fo p ev) as [q|]; [apply IH|done].
Qed.

Lemma protocol_stay fo p tr : Forall (fun ev => protocol_step fo p ev = Some p) tr -> protocol fo p tr = Some p.
Proof. induction 1 as [|ev tr He _ IH]; [done|]. cbn. by rewrite He. Qed.

Lemma rm_event_step fo stage el ev : rm_event stage el ev ->
  protocol_step fo (phase_of stage) ev = Some (phase_of stage).
Proof.
  intros (Hne & ret & reason & ->). pose proof (get_op_row _ _ _ eq_refl Hne) as Hin.
  set (op := xa_status_get_op _ _) in *. clearbody op. rewrite list_elem_of_In in Hin.
  cbn in Hin. repeat destruct Hin as [[= <- _ <-]|Hin]; done.
Qed.

Lemma voted_step {fo'} fo stage el el' evs ov : voted fo' stage el el' evs ov ->
  Forall (fun ev => protocol_step fo (phase_of stage) ev = Some (phase_of stage)) evs.
Proof.
  destruct 1 as [| |el' ret reason r v ws Hop _ _ _ _ _ Hws]; [constructor..|].
  constructor; [apply (rm_event_step fo stage el); split; [done|]; eauto|].
  destruct Hws as [[-> _]|(e & c & k & ->)]; constructor; [|constructor].
  pose proof (get_op_row _ _ _ eq_refl Hop) as Hin. rewrite list_elem_of_In in Hin.
  set (op := xa_status_get_op _ _) in *. clearbody op.
  cbn in Hin. repeat destruct Hin as [[= <- _ <-]|Hin]; done.
Qed.

Lemma voted_all_step {fo'} fo d stage l l' evs vs x : voted_all fo' d stage l l' evs vs x ->
  Forall (fun ev => protocol_step fo (phase_of stage) ev = Some (phase_of stage)) evs.
Proof.
  induction 1; eauto using voted_step.
  - eapply Forall_impl; [done|]. intros ev. apply rm_event_step.
  - apply Forall_app. eauto using voted_step.
Qed.

(** *** Logging a switch *)

Lemma stage_io_commit fo ws ok : stage_io fo XA_TX_STAGE_COMMITTING ws ok ->
  protocol fo Undecided (ws ++ [EvStage XA_TX_STAGE_COMMITTING ok]) = Some (if ok then Committing else Doubtful).
Proof.
  inversion 1 as [|j Hfo Hj|Hn|k ok' Hn Hk]; subst; [done| |done|].
  - by destruct j as [|j]; [|exfalso; cbn in Hj; lia].
  - destruct fo, k, ok; try done; by specialize (Hk eq_refl).
Qed.

Lemma stage_io_abort fo ws ok : stage_io fo XA_TX_STAGE_ABORTING ws ok ->
  protocol fo Undecided (ws ++ [EvStage XA_TX_STAGE_ABORTING ok]) = Some Aborting /\
  protocol fo Doubtful (ws ++ [EvStage XA_TX_STAGE_ABORTING ok]) = Some (if ok then Aborting else Doubtful).
Proof.
  inversion 1 as [|j Hfo Hj|Hn|k ok' Hn Hk]; subst; [done| |done|].
  - destruct j as [|[|[|j]]]; [done..|exfalso; cbn in Hj; lia].
  - destruct fo, k, ok; try done; by specialize (Hk eq_refl).
Qed.

Lemma stage_io_plain fo p q n ws ok : stage_io fo n ws ok ->
  n <> XA_TX_STAGE_COMMITTING -> n <> XA_TX_STAGE_ABORTING ->
  (forall k, protocol_step fo p (EvWrite (LOG_COMMAND_STAGE n) k) = Some p) ->
  protocol_step fo p (EvStage n ok) = Some q -> protocol fo p (ws ++ [EvStage n ok]) = Some q.
Proof.
  intros Hio Hn1 Hn2 Hw Hq. rewrite protocol_app.
  assert (Forall (fun ev => protocol_step fo p ev = Some p) ws) as Hall.
  { destruct Hio as [|j Hfo Hj| |k ok Hn Hk]; [done| | |by destruct Hn].
    - apply Forall_app. split; [apply Forall_replicate|]; repeat constructor; apply Hw.
    - destruct fo; [apply Forall_replicate, Hw|constructor]. }
  rewrite (protocol_stay _ _ _ Hall). cbn. by rewrite Hq.
Qed.

(** The automaton follows a switch. *)
Definition phase_ok (d : txstage_descriptor_t) (n : Z) : bool :=
  (n =? sd_txstage d) || (n =? XA_TX_STAGE_COMMITTING) ||
  (if n =? XA_TX_STAGE_ABORTING then sd_txstage d =? XA_TX_STAGE_PREPARING
   else forallb (fun fo => forallb (fun ok =>
     bool_decide (protocol_step fo (phase_of (sd_txstage d)) (EvWrite (LOG_COMMAND_STAGE n) ok) =
       Some (phase_of (sd_txstage d))) &&
     bool_decide (protocol_step fo (phase_of (sd_txstage d)) (EvStage n ok) = Some (phase_of n)))
     [true; false]) [true; false]).

Lemma phase_ok_spec fo stage d n ok : xa_stage_get_descr stage = Some d -> n ∈ next_stages d -> n <> stage ->
  n <> XA_TX_STAGE_COMMITTING -> n <> XA_TX_STAGE_ABORTING ->
  protocol_step fo (phase_of stage) (EvWrite (LOG_COMMAND_STAGE n) ok) = Some (phase_of stage) /\
  protocol_step fo (phase_of stage) (EvStage n ok) = Some (phase_of n).
Proof.
  intros Hd Hn Hne Hn1 Hn2. destruct (descr_check (fun _ => true) _ _ eq_refl Hd) as [_ Hs].
  pose proof (next_check phase_ok _ _ _ eq_refl Hd Hn) as Hc. unfold phase_ok in Hc. rewrite Hs in Hc.
  rewrite (proj2 (Z.eqb_neq _ _) Hne), (proj2 (Z.eqb_neq _ _) Hn1), (proj2 (Z.eqb_neq _ _) Hn2) in Hc.
  cbn [orb] in Hc. rewrite forallb_forall in Hc.
  assert (forall b, In b [true; false]) as Hb by (intros []; cbn; auto).
  specialize (Hc fo (Hb fo)). rewrite forallb_forall in Hc. specialize (Hc ok (Hb ok)).
  apply andb_prop in Hc as [H1%bool_decide_eq_true_1 H2%bool_decide_eq_true_1]. done.
Qed.

Lemma switched_step fo stage d n sw stage' ok : xa_stage_get_descr stage = Some d -> n ∈ next_stages d ->
  n <> stage -> switched fo stage n sw stage' ok ->
  protocol fo (phase_of stage) sw = Some (if ok then phase_of stage' else Doubtful).
Proof.
  intros Hd Hn Hne Hsw. destruct Hsw as [ws k Hk Hio|ws -> Hio|ws ws' -> Hio Hio'|ws ws' -> Hio Hio'].
  - destruct (Z.eq_dec n XA_TX_STAGE_ABORTING) as [->|Ha].
    + destruct (descr_check (fun _ => true) _ _ eq_refl Hd) as [_ Hs].
      pose proof (next_check phase_ok _ _ _ eq_refl Hd Hn) as Hc. unfold phase_ok in Hc. rewrite Hs in Hc.
      rewrite (proj2 (Z.eqb_neq _ _) Hne) in Hc. cbn in Hc. replace stage with XA_TX_STAGE_PREPARING by lia.
      by apply stage_io_abort.
    + eapply stage_io_plain; [exact Hio|done|done| |]; intros; by eapply phase_ok_spec.
  - rewrite (to_commit_from _ _ _ Hd Hn Hne eq_refl). by apply (stage_io_commit _ _ true).
  - rewrite (to_commit_from _ _ _ Hd Hn Hne eq_refl), protocol_app.
    change (phase_of XA_TX_STAGE_PREPARING) with Undecided.
    rewrite (stage_io_commit fo ws false Hio). apply (stage_io_abort _ _ _ Hio').
  - rewrite (to_commit_from _ _ _ Hd Hn Hne eq_refl), protocol_app.
    change (phase_of XA_TX_STAGE_PREPARING) with Undecided.
    rewrite (stage_io_commit fo ws false Hio). apply (stage_io_abort _ _ _ Hio').
Qed.

Definition end_phase (stage : Z) (r : Z + drive_end) : phase :=
  match r with inr DExit => Doubtful | _ => phase_of stage end.

(** [s'] is reached from [s] by events of the protocol that end in [q]. *)
Definition follows (s s' : st) (q : phase) : Prop :=
  f_open (s_tl s') = f_open (s_tl s) /\
  exists tr, s_trace s' = s_trace s ++ tr /\
    protocol (f_open (s_tl s)) (phase_of (txstage (s_tl s))) tr = Some q.

Lemma follows_refl s : follows s s (phase_of (txstage (s_tl s))).
Proof. split; [done|]. exists []. by rewrite app_nil_r. Qed.

Lemma follows_trans s1 s2 s3 q : follows s1 s2 (phase_of (txstage (s_tl s2))) -> follows s2 s3 q -> follows s1 s3 q.
Proof.
  intros (Hf & tr & Htr & Hp) (Hf2 & tr2 & Htr2 & Hp2). split; [congruence|].
  exists (tr ++ tr2). rewrite Htr2, Htr, protocol_app, Hp, app_assoc. split; [done|]. by rewrite Hf in Hp2.
Qed.

Lemma round_protocol flags try s s' r : round_out flags try s s' r ->
  (forall d, r = inr (DFinish d) -> xa_stage_get_descr (txstage (s_tl s')) = Some d) /\
  follows s s' (end_phase (txstage (s_tl s')) r).
Proof.
  destruct 1 as [Hd ->|d l' evs vs Hd Hall Htl Htr|d l' evs vs r Hd Hall Hdec Htl Htr Hc
    |d l' evs vs x n sw stage' ok r Hd Hall Hdec Hne Hsw Htl Htr Hc].
  - split; [done|]. apply follows_refl.
  - split; [done|]. rewrite Htl. split; [by rewrite Htl|].
    exists evs. split; [done|]. by eapply protocol_stay, voted_all_step.
  - rewrite Htl. split; [by destruct Hc as [(-> & _)|[(-> & _)| ->]]; intros ? [= <-]|]. split; [by rewrite Htl|].
    exists evs. split; [done|]. rewrite (protocol_stay _ (phase_of (txstage (s_tl s)))) by by eapply voted_all_step.
    by destruct Hc as [(-> & _)|[(-> & _)| ->]].
  - split; [by destruct Hc as [(_ & ->)|[(_ & -> & _)|(_ & [-> | ->])]]|]. split; [by rewrite Htl|].
    exists (evs ++ sw). split; [done|]. rewrite protocol_app.
    rewrite (protocol_stay _ (phase_of (txstage (s_tl s)))) by by eapply voted_all_step. cbn [mbind option_bind].
    destruct (decided_next _ _ _ _ _ _ _ _ Hd Hall Hdec) as (Hn & _).
    rewrite (switched_step _ _ _ _ _ _ _ Hd Hn Hne Hsw), Htl.
    by destruct Hc as [(-> & ->)|[(-> & -> & _)|(-> & [-> | ->])]].
Qed.

(** Reasoning on the loop with an invariant of the rounds. *)
Lemma drive_loop_inv flags (I : st -> Prop) (Q : st -> drive_end -> Prop) :
  (forall s try s' t, I s -> round_out flags try s s' (inl t) -> I s') ->
  (forall s try s' e, I s -> round_out flags try s s' (inr e) -> Q s' e) ->
  forall fuel s try s' e, I s -> drive_loop fuel s flags try = Some (s', e) -> Q s' e.
Proof.
  intros Hstep Hend. induction fuel as [|fuel IH]; intros s try s' e HI He; [done|]. cbn [drive_loop] in He.
  destruct (drive_round s flags try) as [s1 [t|e1]] eqn:Hr; apply drive_round_spec in Hr; [|simplify_eq]; eauto.
Qed.

Lemma drive_loop_protocol fuel s flags try s' e : drive_loop fuel s flags try = Some (s', e) ->
  (forall d, e = DFinish d -> xa_stage_get_descr (txstage (s_tl s')) = Some d) /\
  follows s s' (end_phase (txstage (s_tl s')) (inr e)).
Proof.
  intros He. refine (drive_loop_inv flags (fun s1 => follows s s1 (phase_of (txstage (s_tl s1))))
    (fun s1 e1 => (forall d, e1 = DFinish d -> xa_stage_get_descr (txstage (s_tl s1)) = Some d) /\
       follows s s1 (end_phase (txstage (s_tl s1)) (inr e1))) _ _ fuel s try s' e (follows_refl s) He).
  - intros s1 t1 s2 t2 H1 (_ & H2)%round_protocol. by eapply follows_trans.
  - intros s1 t1 s2 e2 H1 (Hd & H2)%round_protocol. split; [intros d ->; by apply Hd|]. by eapply follows_trans.
Qed.

(** One more event in the phase of the stage. *)
Lemma follows_emit s s' ev : follows s s' (phase_of (txstage (s_tl s'))) ->
  protocol_step (f_open (s_tl s')) (phase_of (txstage (s_tl s'))) ev = Some (phase_of (txstage (s_tl s'))) ->
  follows s (emit s' ev) (phase_of (txstage (s_tl s'))).
Proof.
  intros H1 Hev. eapply follows_trans; [exact H1|]. split; [done|]. exists [ev]. split; [done|]. cbn. by rewrite Hev.
Qed.

(** The events a run adds and the phase they lead to. *)
Lemma tm_drive_protocol fuel s op flags o : tm_drive fuel s op flags = Some o ->
  follows s (d_st o) (if d_exited o then Doubtful else phase_of (txstage (s_tl (d_st o)))).
Proof.
  unfold tm_drive, drive_result. intros ([s' e] & He & [= <-])%bind_Some_inv. cbn [fst snd].
  apply drive_loop_protocol in He as (Hd & Hf).
  assert (forall fo stage, protocol_step fo (phase_of stage) EvUnlock = Some (phase_of stage)) as Hu.
  { intros fo stage. unfold phase_of. by repeat case_match. }
  assert (e <> DExit -> follows s (emit (with_tl s' (set_background (s_tl s'))) EvUnlock)
    (phase_of (txstage (s_tl s')))) as Hbg.
  { intros Hne. apply (follows_emit s (with_tl s' (set_background (s_tl s')))); [|apply Hu].
    destruct e; done. }
  destruct e as [d|ret|]; cbn; [destruct (_ && _) eqn:Hc|..]; cbn; [|by apply Hbg..|done].
  apply follows_emit; [done|].
  destruct (descr_check (fun d => negb (sd_txstage d =? XA_TX_STAGE_PREPARING) ||
    (sd_txstage d <? txs_min_complete d)) _ _ eq_refl (Hd d eq_refl)) as [Hk Hs].
  cbv beta in Hk. unfold phase_of. destruct (Z.eqb_spec (txstage (s_tl s')) XA_TX_STAGE_PREPARING); [lia|].
  by repeat case_match.
Qed.

(** C5: whatever the resource managers and the log device answer, a run of the
    driver is a run of the two-phase commit protocol: its events are accepted
    from the phase of the stage it starts in and lead to the phase of the stage
    it leaves, or to a process exit with the decision in doubt. *)
Theorem tm_drive_refines_2pc fuel s op flags o :
  tm_drive fuel s op flags = Some o ->
  exists tr, s_trace (d_st o) = s_trace s ++ tr /\
    protocol (f_open (s_tl s)) (phase_of (txstage (s_tl s))) tr =
      Some (if d_exited o then Doubtful else phase_of (txstage (s_tl (d_st o)))).
Proof. intros (_ & Htr)%tm_drive_protocol. exact Htr. Qed.

(** *** Consequences of the protocol *)

Definition called (op : Z) (tr : list event) : Prop :=
  exists rmid btid ret reason, EvRm op rmid btid ret reason ∈ tr.

Lemma called_cons op ev tr : called op (ev :: tr) ->
  (exists rmid btid ret reason, ev = EvRm op rmid btid ret reason) \/ called op tr.
Proof. intros (i & b & t & c & Hin). apply elem_of_cons in Hin as [<-|Hin]; unfold called; eauto 10. Qed.

Lemma called_app op a b : called op (a ++ b) -> called op a \/ called op b.
Proof. intros (i & bt & t & c & [Hin|Hin]%elem_of_app); unfold called; eauto 10. Qed.

Lemma called_nil op : ~ called op [].
Proof. by intros (? & ? & ? & ? & Hin%not_elem_of_nil). Qed.

(** Phases behind which no branch can be told to commit. *)
Definition no_commit (p : phase) : bool :=
  match p with Idle | Doomed | Doubtful | DoubtWritten | DoubtSynced | Aborting => true | _ => false end.

(** Phases behind which no branch can be told to roll back. *)
Definition no_rollback (p : phase) : bool := match p with Committing | Idle => true | _ => false end.

Lemma step_no_commit fo p ev q : protocol_step fo p ev = Some q -> no_commit p = true ->
  no_commit q = true /\ forall rmid btid ret reason, ev <> EvRm XA_OP_COMMIT rmid btid ret reason.
Proof.
  intros Hs Hp. destruct p; try discriminate; destruct ev as [o i b t c|[n|? ? ? ? ?] k|k|n k| |]; cbn in Hs;
    repeat case_match; simplify_eq; (split; [done|]); intros ? ? ? ? [=]; subst; done.
Qed.

Lemma step_no_rollback fo p ev q : protocol_step fo p ev = Some q -> no_rollback p = true ->
  no_rollback q = true /\ forall rmid btid ret reason, ev <> EvRm XA_OP_ROLLBACK rmid btid ret reason.
Proof.
  intros Hs Hp. destruct p; try discriminate; destruct ev as [o i b t c|[n|? ? ? ? ?] k|k|n k| |]; cbn in Hs;
    repeat case_match; simplify_eq; (split; [done|]); intros ? ? ? ? [=]; subst; done.
Qed.

Lemma protocol_no_commit fo tr : forall p q, protocol fo p tr = Some q -> no_commit p = true ->
  no_commit q = true /\ ~ called XA_OP_COMMIT tr.
Proof.
  induction tr as [|ev tr IH]; intros p q Hp Hn; cbn in Hp.
  { simplify_eq. split; [done|apply called_nil]. }
  apply bind_Some_inv in Hp as (p1 & H1 & Hp). apply step_no_commit in H1 as [H2 H3]; [|done].
  destruct (IH _ _ Hp H2) as [H4 H5]. split; [done|]. intros [(? & ? & ? & ? & He)|?]%called_cons; [|done].
  by eapply H3.
Qed.

Lemma protocol_no_rollback fo tr : forall p q, protocol fo p tr = Some q -> no_rollback p = true ->
  no_rollback q = true /\ ~ called XA_OP_ROLLBACK tr.
Proof.
  induction tr as [|ev tr IH]; intros p q Hp Hn; cbn in Hp.
  { simplify_eq. split; [done|apply called_nil]. }
  apply bind_Some_inv in Hp as (p1 & H1 & Hp). apply step_no_rollback in H1 as [H2 H3]; [|done].
  destruct (IH _ _ Hp H2) as [H4 H5]. split; [done|]. intros [(? & ? & ? & ? & He)|?]%called_cons; [|done].
  by eapply H3.
Qed.

Lemma protocol_atomic fo tr : forall p q, protocol fo p tr = Some q ->
  ~ (called XA_OP_COMMIT tr /\ called XA_OP_ROLLBACK tr).
Proof.
  induction tr as [|ev tr IH]; intros p q Hp [Hcom Hrb]; [by apply called_nil in Hcom|].
  destruct (no_commit p) eqn:Hnc; [by destruct (protocol_no_commit _ _ _ _ Hp Hnc)|].
  destruct (no_rollback p) eqn:Hnr; [by destruct (protocol_no_rollback _ _ _ _ Hp Hnr)|].
  cbn in Hp. apply bind_Some_inv in Hp as (p1 & H1 & Hp). apply (IH _ _ Hp). clear IH.
  apply called_cons in Hcom as [(? & ? & ? & ? & ->)|Hcom]; [by destruct p|].
  by apply called_cons in Hrb as [(? & ? & ? & ? & ->)|Hrb]; [destruct p|].
Qed.

(** The decision [n] is written and then synchronised in [tr]. *)
Definition durable (n : Z) (tr : list event) : Prop :=
  exists a b c, tr = a ++ EvWrite (LOG_COMMAND_STAGE n) true :: b ++ EvSync true :: c.

Lemma durable_app n a b : durable n a -> durable n (a ++ b).
Proof.
  intros (x & y & z & ->). exists x, y, (z ++ b). rewrite <-!app_assoc. cbn. by rewrite <-app_assoc.
Qed.

Lemma durable_sync n a : EvWrite (LOG_COMMAND_STAGE n) true ∈ a -> durable n (a ++ [EvSync true]).
Proof.
  intros (x & y & ->)%list_elem_of_split. exists x, y, []. by rewrite <-app_assoc.
Qed.

Lemma protocol_durable a : forall p, protocol true Undecided a = Some p ->
  (p = Written -> EvWrite (LOG_COMMAND_STAGE XA_TX_STAGE_COMMITTING) true ∈ a) /\
  (p = Synced \/ p = Committing -> durable XA_TX_STAGE_COMMITTING a).
Proof.
  induction a as [|ev a IH] using rev_ind; intros p Hp; [cbn in Hp; simplify_eq; by split; [|intros [|]]|].
  rewrite protocol_app in Hp. apply bind_Some_inv in Hp as (p0 & H0 & Hp). cbn in Hp.
  apply bind_Some_inv in Hp as (p1 & H1 & [= ->]). destruct (IH _ H0) as [Hw Hd]. split.
  - intros ->. apply elem_of_app.
    destruct p0, ev as [| [n|? ? ? ? ?] [] | [] |n []| |]; cbn in H1; repeat case_match; simplify_eq; auto.
    right. replace n with XA_TX_STAGE_COMMITTING by lia. by left.
  - intros Hp. assert (p0 = Synced \/ p0 = Committing \/ (p0 = Written /\ ev = EvSync true)) as [Hs|[Hs|[-> ->]]].
    { destruct Hp as [-> | ->];
        destruct p0, ev as [| [n|? ? ? ? ?] [] | [] |n []| |]; cbn in H1; repeat case_match; simplify_eq; auto. }
    + apply durable_app; auto.
    + apply durable_app; auto.
    + apply durable_sync; auto.
Qed.

(** Commit only behind a decision that is on disk. *)
Lemma protocol_ahead a ev b q : protocol true Undecided (a ++ ev :: b) = Some q -> called XA_OP_COMMIT [ev] ->
  durable XA_TX_STAGE_COMMITTING a.
Proof.
  rewrite protocol_app. intros (p & Hp & H1)%bind_Some_inv Hev. cbn in H1.
  apply bind_Some_inv in H1 as (p1 & H1 & _).
  destruct Hev as (? & ? & ? & ? & <-%list_elem_of_singleton).
  destruct (protocol_durable a p Hp) as [_ Hd]. apply Hd. right. by destruct p.
Qed.

(** Runs of the driver one after the other: the caller's, then those of the
    background thread, with anything happening outside in between. *)
Inductive drives (s : st) : st -> Prop :=
  | drives_none : drives s s
  | drives_more s1 e op flags o : drives s s1 ->
      tm_drive drive_fuel (with_env s1 e) op flags = Some o -> d_exited o = false -> drives s (d_st o).

Lemma drives_protocol s s' : drives s s' -> follows s s' (phase_of (txstage (s_tl s'))).
Proof.
  induction 1 as [|s1 e op flags o _ IH Ho Hx]; [apply follows_refl|].
  apply tm_drive_protocol in Ho. rewrite Hx in Ho. by eapply follows_trans.
Qed.

Lemma drives_then s s1 fuel e op flags o tr : drives s s1 -> tm_drive fuel (with_env s1 e) op flags = Some o ->
  s_trace (d_st o) = s_trace s ++ tr ->
  exists q, protocol (f_open (s_tl s)) (phase_of (txstage (s_tl s))) tr = Some q.
Proof.
  intros H1%drives_protocol H2%tm_drive_protocol Htr.
  assert (follows s (d_st o) (if d_exited o then Doubtful else phase_of (txstage (s_tl (d_st o)))))
    as (_ & tr' & Htr' & Hp) by by eapply follows_trans.
  rewrite Htr in Htr'. apply app_inv_head in Htr' as <-. eauto.
Qed.

(** A transaction is atomic: over any number of runs of the driver, the
    last of which may end the process, no resource manager is told to commit
    if one is told to roll back. *)
Theorem tm_drive_atomic s s1 fuel e op flags o tr :
  drives s s1 -> tm_drive fuel (with_env s1 e) op flags = Some o ->
  s_trace (d_st o) = s_trace s ++ tr ->
  ~ (called XA_OP_COMMIT tr /\ called XA_OP_ROLLBACK tr).
Proof.
  intros Hs Ho Htr. destruct (drives_then _ _ _ _ _ _ _ _ Hs Ho Htr) as (q & Hp). by eapply protocol_atomic.
Qed.

(** What a success of [sync_log] tells: with FSYNC or FDATASYNC set the system
    has synchronised the open file; with nothing set no call was made. *)
Lemma sync_log_file s : syncs_file fsync = true -> (sync_log s).2 = true ->
  f_open (s_tl s) = true /\
  ((if has_flag (xa_fsync_flags fsync) NDRX_FSYNC_FSYNC then os_fsync fsync else os_fdatasync fsync) (s_env s)).2 = true.
Proof.
  unfold syncs_file, sync_log, and_then, io, ndrx_fsync_fsync. cbn [fst snd]. intros Hf Hs.
  destruct (f_open _); [|done]. split; [done|]. cbn [negb] in Hs. destruct (has_flag _ NDRX_FSYNC_FSYNC); cbn [orb] in Hf;
    [|rewrite Hf in Hs]; by repeat case_match.
Qed.

Lemma sync_log_default s : xa_fsync_flags fsync = 0 -> f_open (s_tl s) = true -> sync_log s = (emit s (EvSync true), true).
Proof.
  intros Hf Ho. unfold sync_log, and_then, io, ndrx_fsync_fsync, ndrx_fsync_dsync. rewrite Hf, Ho. by destruct s.
Qed.

(** C6: no resource manager is told to commit before the decision is logged:
    for a transaction that starts preparing with its log open, a commit call is
    preceded by a successful write of [XA_TX_STAGE_COMMITTING] to the log and,
    behind it, a success of [sync_log], which is [ndrx_fsync_fsync] on the file
    and [ndrx_fsync_dsync] on its directory.  Whether that brings the line to
    the disk is up to the setting ([sync_log_file], [sync_log_default]). *)
Theorem tm_drive_write_ahead s s1 fuel e op flags o a rmid btid ret reason b :
  txstage (s_tl s) = XA_TX_STAGE_PREPARING -> f_open (s_tl s) = true ->
  drives s s1 -> tm_drive fuel (with_env s1 e) op flags = Some o ->
  s_trace (d_st o) = s_trace s ++ a ++ EvRm XA_OP_COMMIT rmid btid ret reason :: b ->
  durable XA_TX_STAGE_COMMITTING a.
Proof.
  intros Hst Hfo Hs Ho Htr. destruct (drives_then _ _ _ _ _ _ _ _ Hs Ho Htr) as (q & Hp). rewrite Hst, Hfo in Hp.
  eapply protocol_ahead; [exact Hp|]. exists rmid, btid, ret, reason. by apply list_elem_of_singleton.
Qed.

(** ** Unanimity *)

(** The answer of a branch that votes for commit. *)
Lemma voted_commit {fo} el el' evs ov d : voted fo XA_TX_STAGE_PREPARING el el' evs ov ->
  xa_stage_get_descr XA_TX_STAGE_PREPARING = Some d -> (forall v, ov = Some v -> jumps d v = false) ->
  rmstatus el <> XA_RM_STATUS_ACT_AB /\ rmstatus el <> XA_RM_STATUS_ABORTED /\
  (rmstatus el = XA_RM_STATUS_ACTIVE ->
     exists ret reason, EvRm XA_OP_PREPARE (rmid el) (btid el) ret reason ∈ evs /\
       (reason = XA_OK \/ reason = XA_RDONLY)).
Proof.
  intros Hv Hd Hj. cbn in Hd. injection Hd as <-.
  destruct Hv as [Hop Hn|r Hop Hn|el' ret reason r v ws Hop Hn Hst Hid Hb Hvote _].
  - split_and!; intros He; rewrite He in *; discriminate.
  - split_and!; intros He; rewrite He in *; try discriminate; cbn in Hn; injection Hn as <-;
      by specialize (Hj _ eq_refl).
  - split_and!; intros He; rewrite He in *; [done..|]. exists ret, reason. split; [by left|].
    destruct (by_op_row _ _ _ _ _ Hn) as (t & Ht & Hin & Hs & Ho & Hr). cbn in Ht. injection Ht as <-.
    specialize (Hj _ eq_refl). destruct Hvote as [->|[_ ->]]; [|done].
    rewrite list_elem_of_In in Hin. cbn in Hin.
    repeat destruct Hin as [<-|Hin]; try done; cbn in *; unfold XA_OK, XA_RDONLY in *; lia.
Qed.

Lemma voted_all_commit {fo} d l l' evs vs x : voted_all fo d XA_TX_STAGE_PREPARING l l' evs vs x ->
  xa_stage_get_descr XA_TX_STAGE_PREPARING = Some d -> x = LDone ->
  Forall (fun el => rmstatus el <> XA_RM_STATUS_ACT_AB /\ rmstatus el <> XA_RM_STATUS_ABORTED /\
    (rmstatus el = XA_RM_STATUS_ACTIVE ->
     exists ret reason, EvRm XA_OP_PREPARE (rmid el) (btid el) ret reason ∈ evs /\
       (reason = XA_OK \/ reason = XA_RDONLY))) l.
Proof.
  induction 1 as [| | | |el el' l l' evs evs' ov vs x Hv Hj _ IH]; intros Hd Hx; try done.
  destruct (voted_commit _ _ _ _ _ Hv Hd Hj) as (H1 & H2 & H3). constructor.
  - split_and!; [done..|]. intros He. destruct (H3 He) as (r & c & Hin & Hc). exists r, c. rewrite elem_of_app. auto.
  - eapply Forall_impl; [by apply IH|]. intros e (K1 & K2 & K3). split_and!; [done..|].
    intros He. destruct (K3 He) as (r & c & Hin & Hc). exists r, c. rewrite elem_of_app. auto.
Qed.

Lemma protocol_no_decision fo tr ok : forall p q, protocol fo p tr = Some q -> no_commit p || no_rollback p = true ->
  EvStage XA_TX_STAGE_COMMITTING ok ∉ tr.
Proof.
  induction tr as [|ev tr IH]; intros p q Hp Hne Hin; [by apply not_elem_of_nil in Hin|].
  cbn in Hp. apply bind_Some_inv in Hp as (p1 & H1 & Hp). apply elem_of_cons in Hin as [<-|Hin].
  - by destruct p, ok.
  - apply (IH _ _ Hp); [|done]. apply orb_true_iff. apply orb_prop in Hne as [Hne|Hne].
    + left. by eapply step_no_commit.
    + right. by eapply step_no_rollback.
Qed.

Lemma stage_io_no_stage fo n ws ok m k : stage_io fo n ws ok -> EvStage m k ∉ ws.
Proof.
  intros Hio Hin. destruct Hio as [|j Hfo Hj| |k' ok Hn Hk].
  - by apply not_elem_of_nil in Hin.
  - apply elem_of_app in Hin as [Hin|Hin]; [by apply elem_of_replicate in Hin as [? _]|].
    by apply list_elem_of_singleton in Hin.
  - destruct fo; [by apply elem_of_replicate in Hin as [? _]|by apply not_elem_of_nil in Hin].
  - apply elem_of_app in Hin as [Hin|Hin]; [|by apply list_elem_of_singleton in Hin].
    destruct fo; [by apply elem_of_replicate in Hin as [? _]|by apply not_elem_of_nil in Hin].
Qed.

(** What the first round from [XA_TX_STAGE_PREPARING] has done. *)
Lemma preparing_round flags try s s' r ok : round_out flags try s s' r ->
  txstage (s_tl s) = XA_TX_STAGE_PREPARING ->
  exists evs tr d l' vs x, s_trace s' = s_trace s ++ evs ++ tr /\
    voted_all (f_open (s_tl s)) d XA_TX_STAGE_PREPARING (branches (s_tl s)) l' evs vs x /\
    xa_stage_get_descr XA_TX_STAGE_PREPARING = Some d /\ (EvStage XA_TX_STAGE_COMMITTING ok ∉ evs) /\
    (EvStage XA_TX_STAGE_COMMITTING ok ∈ tr -> x = LDone) /\
    (forall t, r = inl t -> let p := phase_of (txstage (s_tl s')) in no_commit p || no_rollback p = true).
Proof.
  intros Hr Hst. destruct Hr as [Hd ->|d l' evs vs Hd Hall Htl Htr|d l' evs vs r Hd Hall Hdec Htl Htr Hc
    |d l' evs vs x n sw stage' k r Hd Hall Hdec Hne Hsw Htl Htr Hc]; rewrite Hst in *; [done|..];
    assert (EvStage XA_TX_STAGE_COMMITTING ok ∉ evs) as Hno
      by (intros Hin; pose proof (voted_all_step true _ _ _ _ _ _ _ Hall) as Hf;
          rewrite Forall_forall in Hf; specialize (Hf _ Hin); by destruct ok).
  - exists evs, [], d, l', vs, LFail. rewrite app_nil_r. split_and!; try done. by intros ?%not_elem_of_nil.
  - destruct (decided_next _ _ _ _ _ _ _ _ Hd Hall Hdec) as (Hn & _).
    cbn in Hd. injection Hd as <-. rewrite list_elem_of_In in Hn. cbn in Hn.
    repeat (destruct Hn as [Hn|Hn]; [discriminate|]). done.
  - exists evs, sw, d, l', vs, x. split_and!; try done.
    + destruct (decided_next _ _ _ _ _ _ _ _ Hd Hall Hdec) as (Hn & _).
      intros Hin. inversion Hdec as [n' vs'|votes]; subst; [|done].
      apply voted_all_in in Hall as [_ Hj]. destruct (Hj _ eq_refl) as [_ Hju].
      unfold jumps, XA_TX_STAGE_PREPARING in Hju.
      assert (n = XA_TX_STAGE_COMMITTING -> False) as Hc0 by (unfold XA_TX_STAGE_COMMITTING; lia).
      destruct Hsw as [ws k' _ Hio| | |]; try by exfalso; auto. apply elem_of_app in Hin as [Hin|Hin].
      * by apply (stage_io_no_stage _ _ _ _ _ _ Hio) in Hin.
      * apply list_elem_of_singleton in Hin. injection Hin as Hin _. by destruct Hc0.
    + intros t ->. destruct Hc as [(_ & ?)|[(_ & ? & _)|(-> & _)]]; try discriminate. rewrite Htl.
      destruct (decided_next _ _ _ _ _ _ _ _ Hd Hall Hdec) as (Hn & _).
      cbn in Hd. injection Hd as <-. rewrite list_elem_of_In in Hn. cbn in Hn. cbn [set_stage txstage].
      inversion Hsw; subst; try done. repeat destruct Hn as [<-|Hn]; done.
Qed.

(** Behind the loop nothing is decided. *)
Lemma trace_out s e op : exists tr, s_trace (d_st (drive_result s op e)) = s_trace s ++ tr /\
    forall ok, EvStage XA_TX_STAGE_COMMITTING ok ∉ tr.
Proof.
  unfold drive_result. destruct e; [destruct (_ && _)|..]; cbn;
    [exists [EvRemove]|exists [EvUnlock]..|exists []]; rewrite ?app_nil_r; (split; [done|]);
    intros ok; rewrite ?list_elem_of_singleton; try done; apply not_elem_of_nil.
Qed.

Lemma first_round fuel s op flags o ok : tm_drive fuel s op flags = Some o ->
  txstage (s_tl s) = XA_TX_STAGE_PREPARING ->
  exists evs tr d l' vs x, s_trace (d_st o) = s_trace s ++ evs ++ tr /\
    voted_all (f_open (s_tl s)) d XA_TX_STAGE_PREPARING (branches (s_tl s)) l' evs vs x /\
    xa_stage_get_descr XA_TX_STAGE_PREPARING = Some d /\ (EvStage XA_TX_STAGE_COMMITTING ok ∉ evs) /\
    (EvStage XA_TX_STAGE_COMMITTING ok ∈ tr -> x = LDone).
Proof.
  unfold tm_drive. intros ([s' e] & He & [= <-])%bind_Some_inv Hst. cbn [fst snd].
  assert (exists evs tr d l' vs x, s_trace s' = s_trace s ++ evs ++ tr /\
    voted_all (f_open (s_tl s)) d XA_TX_STAGE_PREPARING (branches (s_tl s)) l' evs vs x /\
    xa_stage_get_descr XA_TX_STAGE_PREPARING = Some d /\ (EvStage XA_TX_STAGE_COMMITTING ok ∉ evs) /\
    (EvStage XA_TX_STAGE_COMMITTING ok ∈ tr -> x = LDone)) as (evs & tr & d & l' & vs & x & Htr & Hall & Hd & Hno & Hx).
  { destruct fuel as [|fuel]; [done|]. cbn [drive_loop] in He.
    destruct (drive_round s flags 0) as [s1 r] eqn:Hr. apply drive_round_spec in Hr.
    apply (preparing_round _ _ _ _ _ ok) in Hr as (evs & tr & d & l' & vs & x & Htr & Hall & Hd & Hno & Hx & Hph); [|done].
    destruct r as [t|e1]; [|simplify_eq; by eauto 12].
    apply drive_loop_protocol in He as (_ & _ & tr2 & Htr2 & Hp).
    exists evs, (tr ++ tr2), d, l', vs, x. split_and!; try done.
    - by rewrite Htr2, Htr, <-!app_assoc.
    - intros [?|Hin]%elem_of_app; [auto|]. by destruct (protocol_no_decision _ _ ok _ _ Hp (Hph t eq_refl)). }
  destruct (trace_out s' e op) as (tr2 & Htr2 & Hno2).
  exists evs, (tr ++ tr2), d, l', vs, x. split_and!; try done.
  - by rewrite Htr2, Htr, <-!app_assoc.
  - intros [?|Hin]%elem_of_app; [auto|]. by destruct (Hno2 ok).
Qed.

(** C15: the decision to commit is unanimous: when a run that starts preparing
    tries to log [XA_TX_STAGE_COMMITTING], every active branch has been asked
    to prepare in it and has answered [XA_OK] or [XA_RDONLY], and no branch had
    failed before. *)
Theorem commit_decision_unanimous fuel s op flags o a ok b :
  txstage (s_tl s) = XA_TX_STAGE_PREPARING ->
  tm_drive fuel s op flags = Some o ->
  s_trace (d_st o) = s_trace s ++ a ++ EvStage XA_TX_STAGE_COMMITTING ok :: b ->
  Forall (fun el => rmstatus el <> XA_RM_STATUS_ACT_AB /\ rmstatus el <> XA_RM_STATUS_ABORTED /\
    (rmstatus el = XA_RM_STATUS_ACTIVE ->
     exists ret reason, EvRm XA_OP_PREPARE (rmid el) (btid el) ret reason ∈ a /\
       (reason = XA_OK \/ reason = XA_RDONLY))) (branches (s_tl s)).
Proof.
  intros Hst Ho Htr. destruct (first_round _ _ _ _ _ ok Ho Hst) as (evs & tr & d & l' & vs & x & Htr' & Hall & Hd & Hno & Hx).
  rewrite Htr in Htr'. apply app_inv_head in Htr'.
  assert (EvStage XA_TX_STAGE_COMMITTING ok ∈ tr) as Hin.
  { assert (EvStage XA_TX_STAGE_COMMITTING ok ∈ evs ++ tr) as [?|?]%elem_of_app 
      by (rewrite <-Htr'; apply elem_of_app; right; by left); done. }
  assert (evs ⊆ a) as Hsub.
  { apply app_eq_inv in Htr' as [(k & -> & Hk)|(k & -> & Hk)].
    { intros ev Hev. apply elem_of_app. auto. }
    destruct k as [|e k]; [by rewrite app_nil_r|]. cbn in Hk. injection Hk as <- _.
    destruct Hno. apply elem_of_app. right. by left. }
  eapply Forall_impl; [by eapply voted_all_commit, Hx|]. intros e (K1 & K2 & K3). split_and!; [done..|].
  intros He. destruct (K3 He) as (r & c & Hev & Hc). exists r, c. auto.
Qed.

(** ** The statuses of the branches *)

(** The statuses a branch can have in a stage; stages not listed admit all. *)
Definition stage_statuses (stage : Z) : option (list Z) :=
  if stage =? XA_TX_STAGE_PREPARING then
    Some [XA_RM_STATUS_ACTIVE; XA_RM_STATUS_PREP; XA_RM_STATUS_ACT_AB; XA_RM_STATUS_ABORTED; XA_RM_STATUS_COMMITTED_RO]
  else if stage =? XA_TX_STAGE_PREPRO then Some []
  else if stage =? XA_TX_STAGE_COMMITTING then
    Some [XA_RM_STATUS_PREP; XA_RM_STATUS_COMMITTED_RO; XA_RM_STATUS_COMMITTED; XA_RM_STATUS_COMMIT_HEURIS;
          XA_RM_STATUS_COMMIT_HAZARD; XA_RM_STATUS_ABORTED; XA_RM_STATUS_COMFORGET_HAZ; XA_RM_STATUS_COMFORGET_HEU]
  else if stage =? XA_TX_STAGE_COMMITTED then Some [XA_RM_STATUS_COMMITTED; XA_RM_STATUS_COMMITTED_RO]
  else if stage =? XA_TX_STAGE_ABORTING then
    Some [XA_RM_STATUS_ACTIVE; XA_RM_STATUS_PREP; XA_RM_STATUS_ACT_AB; XA_RM_STATUS_ABORTED;
          XA_RM_STATUS_COMMITTED_RO; XA_RM_STATUS_ABFORGET_HAZ; XA_RM_STATUS_ABFORGET_HEU]
  else if stage =? XA_TX_STAGE_ABORTED then Some [XA_RM_STATUS_ABORTED; XA_RM_STATUS_COMMITTED_RO]
  else None.

Definition status_ok (stage status : Z) : bool :=
  match stage_statuses stage with Some l => existsb (Z.eqb status) l | None => true end.

Definition well_staged (t : atmi_xa_log_t) : Prop :=
  Forall (fun el => status_ok (txstage t) (rmstatus el) = true) (branches t).

(** A vote [v] does not keep the transaction from entering [n]. *)
Definition admits (d : txstage_descriptor_t) (n v : Z) : bool :=
  negb (jumps d v) &&
  (negb ((txs_min_complete d <=? n) && (n <=? txs_max_complete d)) || ((n <=? v) && (v <=? txs_max_complete d))).

(** The checks of the tables. *)
Definition rows_closed (d : txstage_descriptor_t) (n : Z) : bool :=
  forallb (fun r => status_ok (sd_txstage d) (next_rmstatus r) &&
    ((n =? sd_txstage d) || negb (admits d n (next_txstage r)) || status_ok n (next_rmstatus r)))
    (rows (sd_txstage d)).

Definition silent_closed (d : txstage_descriptor_t) (n : Z) : bool :=
  (n =? sd_txstage d) ||
  match stage_statuses (sd_txstage d) with
  | None => match stage_statuses n with None => true | Some _ => false end
  | Some l => forallb (fun st => negb (xa_status_get_op (sd_txstage d) st =? XA_OP_NOP) ||
      match xa_status_get_next_by_new_status (sd_txstage d) st with Some _ => true | None => status_ok n st end) l
  end.

Lemma rows_closed_spec stage d n r : xa_stage_get_descr stage = Some d -> n ∈ next_stages d -> r ∈ rows stage ->
  status_ok stage (next_rmstatus r) = true /\
  (n <> stage -> admits d n (next_txstage r) = true -> status_ok n (next_rmstatus r) = true).
Proof.
  intros Hd Hn Hr. destruct (descr_check (fun _ => true) _ _ eq_refl Hd) as [_ Hs].
  pose proof (next_check rows_closed _ _ _ eq_refl Hd Hn) as Hc. unfold rows_closed in Hc.
  rewrite forallb_forall, Hs in Hc. rewrite list_elem_of_In in Hr. apply Hc, andb_prop in Hr as [H1 H2].
  split; [done|]. intros Hne Ha. by rewrite Ha, (proj2 (Z.eqb_neq _ _) Hne) in H2.
Qed.

Lemma silent_closed_spec stage d n st : xa_stage_get_descr stage = Some d -> n ∈ next_stages d -> n <> stage ->
  status_ok stage st = true -> xa_status_get_op stage st = XA_OP_NOP ->
  xa_status_get_next_by_new_status stage st = None -> status_ok n st = true.
Proof.
  intros Hd Hn Hne Hok Hop Hnone. destruct (descr_check (fun _ => true) _ _ eq_refl Hd) as [_ Hs].
  pose proof (next_check silent_closed _ _ _ eq_refl Hd Hn) as Hc. unfold silent_closed in Hc. rewrite Hs in Hc.
  rewrite (proj2 (Z.eqb_neq _ _) Hne) in Hc. cbn [orb] in Hc. unfold status_ok in Hok.
  destruct (stage_statuses stage) as [l|].
  - apply existsb_exists in Hok as (st' & Hin & <-%Z.eqb_eq). rewrite forallb_forall in Hc.
    specialize (Hc _ Hin). cbv beta in Hc. rewrite Hop, Hnone in Hc. done.
  - unfold status_ok. by destruct (stage_statuses n).
Qed.

Lemma voted_statuses {fo} stage d el el' evs ov : voted fo stage el el' evs ov -> xa_stage_get_descr stage = Some d ->
  status_ok stage (rmstatus el) = true ->
  status_ok stage (rmstatus el') = true /\
  forall n, n ∈ next_stages d -> n <> stage -> (forall v, ov = Some v -> admits d n v = true) ->
    status_ok n (rmstatus el') = true.
Proof.
  intros Hv Hd Hok. destruct ov as [v|].
  - destruct (voted_row _ _ _ _ _ Hv) as (r & Hr & <- & Hvote).
    assert (forall n, n ∈ next_stages d -> _) as Hrow by (intros n Hn; exact (rows_closed_spec _ _ n _ Hd Hn Hr)).
    split; [apply (Hrow (txs_max_complete d)); by left|]. intros n Hn Hne Ha.
    destruct Hvote as [->|[-> ->]]; [by apply Hrow; auto|].
    specialize (Ha _ eq_refl). cbn in Hd. by injection Hd as <-.
  - inversion Hv; subst. split; [done|]. intros n Hn Hne _. by eapply silent_closed_spec.
Qed.

Lemma voted_all_statuses {fo} d stage l l' evs vs x : voted_all fo d stage l l' evs vs x ->
  xa_stage_get_descr stage = Some d -> Forall (fun el => status_ok stage (rmstatus el) = true) l ->
  Forall (fun el => status_ok stage (rmstatus el) = true) l' /\
  forall n, x = LDone -> n ∈ next_stages d -> n <> stage -> Forall (fun v => jumps d v = false -> admits d n v = true) vs ->
    Forall (fun el => status_ok n (rmstatus el) = true) l'.
Proof.
  intros Hall Hd. induction Hall as [|el l evs _|el el' l evs ov Hv|el el' l evs v Hv _
    |el el' l l' evs evs' ov vs x Hv Hj _ IH]; intros Hok; [done|..]; apply Forall_cons in Hok as [Hel Hok].
  - split; [by constructor|done].
  - split; [|done]. constructor; [|done]. exact (proj1 (voted_statuses _ _ _ _ _ _ Hv Hd Hel)).
  - split; [|done]. constructor; [|done]. exact (proj1 (voted_statuses _ _ _ _ _ _ Hv Hd Hel)).
  - destruct (voted_statuses _ _ _ _ _ _ Hv Hd Hel) as [H1 H2]. destruct (IH Hok) as [H3 H4].
    split; [by constructor|]. intros n Hx Hn Hne [Ha1 Ha2]%Forall_app. constructor; [|by apply H4].
    apply H2; [done..|]. intros v ->. apply Forall_cons in Ha1 as [Ha _]. apply Ha. by apply Hj.
Qed.

Lemma abort_statuses l : Forall (fun el => status_ok XA_TX_STAGE_PREPARING (rmstatus el) = true) l ->
  Forall (fun el => status_ok XA_TX_STAGE_ABORTING (rmstatus el) = true) l.
Proof.
  intros H. eapply Forall_impl; [exact H|]. intros el Hok. apply existsb_exists in Hok as (st & Hin & ->%Z.eqb_eq).
  cbn in Hin. by repeat destruct Hin as [<-|Hin].
Qed.

(** A jump can only be the one from preparing to aborting. *)
Lemma jump_to_abort stage d n : xa_stage_get_descr stage = Some d -> n ∈ next_stages d -> jumps d n = true ->
  stage = XA_TX_STAGE_PREPARING /\ n = XA_TX_STAGE_ABORTING.
Proof.
  intros Hd Hn Hj. destruct (descr_check (fun _ => true) _ _ eq_refl Hd) as [_ Hs].
  pose proof (next_check (fun d n => negb (jumps d n) || ((sd_txstage d =? XA_TX_STAGE_PREPARING) &&
    (n =? XA_TX_STAGE_ABORTING))) _ _ _ eq_refl Hd Hn) as Hc. cbv beta in Hc. rewrite Hj, Hs in Hc. cbn in Hc. lia.
Qed.

Lemma votes_admit {fo} stage d l l' evs votes x : xa_stage_get_descr stage = Some d ->
  voted_all fo d stage l l' evs (map v_stage votes) x ->
  Forall (fun v => jumps d v = false -> admits d (calc_stage d votes) v = true) (map v_stage votes).
Proof.
  intros Hd (Hvs & _)%voted_all_in. destruct (descr_check (fun _ => true) _ _ eq_refl Hd) as [_ Hs].
  rewrite Forall_map in Hvs |- *.
  assert (Forall (fun v => v_stage v < XA_TX_STAGE_MAX_NEVER) votes) as Hlt.
  { eapply Forall_impl; [exact Hvs|]. intros v Hv.
    assert (v_stage v ∈ next_stages d) as Hn by (right; by rewrite Hs).
    pose proof (next_check (fun _ n => n <? XA_TX_STAGE_MAX_NEVER) _ _ _ eq_refl Hd Hn) as Hc. cbv beta in Hc. lia. }
  set (n := calc_stage d votes). unfold admits.
  destruct ((txs_min_complete d <=? n) && (n <=? txs_max_complete d)) eqn:Hr.
  - assert (txs_min_complete d <= n <= txs_max_complete d) as Hr' by lia.
    eapply Forall_impl; [exact (calc_stage_complete _ _ Hlt Hr')|]. intros v Hv Hj. rewrite Hj.
    cbv beta in Hv. fold n in Hv. cbn [negb andb orb]. lia.
  - apply Forall_forall. intros v _ Hj. by rewrite Hj.
Qed.

Lemma round_statuses flags try s s' r : round_out flags try s s' r -> well_staged (s_tl s) -> well_staged (s_tl s').
Proof.
  unfold well_staged. intros Hr Hok.
  destruct Hr as [Hd ->|d l' evs vs Hd Hall Htl Htr|d l' evs vs r Hd Hall Hdec Htl Htr Hc
    |d l' evs vs x n sw stage' k r Hd Hall Hdec Hne Hsw Htl Htr Hc]; [done|..]; rewrite Htl; cbn;
    destruct (voted_all_statuses _ _ _ _ _ _ _ Hall Hd Hok) as [H1 H2]; [done..|].
  destruct (decided_next _ _ _ _ _ _ _ _ Hd Hall Hdec) as (Hn & _).
  assert (Forall (fun el => status_ok n (rmstatus el) = true) l') as Hnew.
  { inversion Hdec as [n' vs'|votes]; subst.
    - pose proof (voted_all_in _ _ _ _ _ _ _ Hall) as [_ Hj].
      destruct (jump_to_abort _ _ _ Hd Hn (proj2 (Hj _ eq_refl))) as [Hst ->]. rewrite Hst in H1.
      by apply abort_statuses.
    - apply H2; [done..|]. by eapply votes_admit. }
  destruct Hsw as [ws k' Hk' _|ws Hk' _|ws ws' Hk' _ _|ws ws' Hk' _ _]; [done..| |done].
  rewrite (to_commit_from _ _ _ Hd Hn Hne Hk') in H1. by apply abort_statuses.
Qed.

Lemma round_out_flag flags try s s' e : round_out flags try s s' (inr e) -> e = DOut EXSUCCEED ->
  Z.land flags TP_CMT_LOGGED <> 0.
Proof.
  intros Hr ->. inversion Hr as [| |d l' evs vs r Hd Hall Hdec Htl Htr Hc
    |d l' evs vs x n sw stage' k r Hd Hall Hdec Hne Hsw Htl Htr Hc]; subst; [discriminate..| |].
  - by destruct Hc as [(_ & Hc & _)|[[? _]|?]].
  - by destruct Hc as [[_ ?]|[(_ & _ & Hc & _)|(_ & [?|?])]].
Qed.

(** The result of a run in terms of the stage it ends in. *)
Lemma tm_drive_result fuel s op flags o : tm_drive fuel s op flags = Some o -> well_staged (s_tl s) ->
  well_staged (s_tl (d_st o)) /\
  (d_exited o = false -> d_ret o = EXSUCCEED -> Z.land flags TP_CMT_LOGGED = 0 ->
   let stage := txstage (s_tl (d_st o)) in
   xa_txstage2tperrno stage op = EXSUCCEED /\
   exists d, xa_stage_get_descr stage = Some d /\
     d_finished o = ((txs_min_complete d <=? stage) && (stage <=? txs_max_complete d))).
Proof.
  unfold tm_drive. intros ([s' e] & He & [= <-])%bind_Some_inv Hok. cbn [fst snd].
  pose proof (drive_loop_protocol _ _ _ _ _ _ He) as [Hd _].
  pose proof (drive_loop_inv flags (fun s => well_staged (s_tl s)) (fun s' e => well_staged (s_tl s') /\
    (e = DOut EXSUCCEED -> Z.land flags TP_CMT_LOGGED <> 0))) as Hinv.
  destruct (Hinv (fun s try s' t Hs Hr => round_statuses _ _ _ _ _ Hr Hs)
    (fun s try s' e Hs Hr => conj (round_statuses _ _ _ _ _ Hr Hs) (round_out_flag _ _ _ _ _ Hr))
    _ _ _ _ _ Hok He) as [Hok' Hout].
  assert (forall ev, well_staged (s_tl (emit s' ev))) as Hem by done.
  destruct e as [d|ret|]; cbn [drive_result].
  - destruct (descr_check (fun _ => true) _ _ eq_refl (Hd d eq_refl)) as [_ Hs]. rewrite Hs.
    destruct (_ && _) eqn:Hc; (split; [done|]); cbn; intros _ Hret _; (split; [done|]); exists d;
      (split; [by apply Hd|]); by rewrite Hc.
  - split; [done|]. cbn. intros _ -> Hfl. by destruct (Hout eq_refl).
  - done.
Qed.

(** The status of every branch stays one its stage admits, over any run:
    in particular a transaction is in [XA_TX_STAGE_COMMITTED] only with all
    branches committed or read-only, and in [XA_TX_STAGE_ABORTED] only with
    all aborted or read-only. *)
Theorem tm_drive_well_staged fuel s op flags o :
  tm_drive fuel s op flags = Some o -> well_staged (s_tl s) -> well_staged (s_tl (d_st o)).
Proof. intros Ho Hok. by destruct (tm_drive_result _ _ _ _ _ Ho Hok). Qed.

Lemma success_stage stage op : xa_txstage2tperrno stage op = EXSUCCEED ->
  (op = XA_OP_COMMIT /\ (stage = XA_TX_STAGE_PREPRO \/ stage = XA_TX_STAGE_COMMITTED)) \/
  (op = XA_OP_ROLLBACK /\ stage = XA_TX_STAGE_ABORTED).
Proof.
  unfold xa_txstage2tperrno. destruct (List.find _ _) as [r|] eqn:Hf; [|done].
  apply find_Some_1 in Hf as [Hin Hr]. rewrite list_elem_of_In in Hin.
  replace stage with (te_txstage r) by lia. replace op with (master_op r) by lia.
  cbn in Hin. repeat destruct Hin as [<-|Hin]; cbn; try discriminate; auto. done.
Qed.

Lemma status_ok_in stage status l : status_ok stage status = true -> stage_statuses stage = Some l -> status ∈ l.
Proof.
  unfold status_ok. intros Hok Hl. rewrite Hl in Hok. apply existsb_exists in Hok as (x & Hin & ->%Z.eqb_eq).
  by apply list_elem_of_In.
Qed.

(** When a commit without [TP_CMT_LOGGED] reports success, the transaction
    is complete, its log is removed, and every branch is committed or was
    read-only. *)
Lemma commit_success fuel s flags o :
  tm_drive fuel s XA_OP_COMMIT flags = Some o -> well_staged (s_tl s) -> Z.land flags TP_CMT_LOGGED = 0 ->
  d_exited o = false -> d_ret o = EXSUCCEED ->
  d_finished o = true /\
  Forall (fun el => rmstatus el ∈ [XA_RM_STATUS_COMMITTED; XA_RM_STATUS_COMMITTED_RO]) (branches (s_tl (d_st o))).
Proof.
  intros Ho Hok Hfl Hx Hret. destruct (tm_drive_result _ _ _ _ _ Ho Hok) as [Hok' Hres].
  destruct (Hres Hx Hret Hfl) as (Hs & d & Hd & ->). unfold well_staged in Hok'.
  apply success_stage in Hs as [[_ Hs]|[? _]]; [|done].
  destruct Hs as [Hs|Hs]; rewrite Hs in *; (split; [cbn in Hd; by injection Hd as <-|]);
    (eapply Forall_impl; [exact Hok'|]); intros el Hel; by apply (status_ok_in _ _ _ Hel).
Qed.

(** When a rollback reports success, the transaction is complete and every
    branch is aborted or was read-only. *)
Lemma rollback_success fuel s flags o :
  tm_drive fuel s XA_OP_ROLLBACK flags = Some o -> well_staged (s_tl s) -> Z.land flags TP_CMT_LOGGED = 0 ->
  d_exited o = false -> d_ret o = EXSUCCEED ->
  d_finished o = true /\
  Forall (fun el => rmstatus el ∈ [XA_RM_STATUS_ABORTED; XA_RM_STATUS_COMMITTED_RO]) (branches (s_tl (d_st o))).
Proof.
  intros Ho Hok Hfl Hx Hret. destruct (tm_drive_result _ _ _ _ _ Ho Hok) as [Hok' Hres].
  destruct (Hres Hx Hret Hfl) as (Hs & d & Hd & ->). unfold well_staged in Hok'.
  apply success_stage in Hs as [[? _]|[_ Hs]]; [done|]. rewrite Hs in *.
  split; [cbn in Hd; by injection Hd as <-|]. eapply Forall_impl; [exact Hok'|].
  intros el Hel. by apply (status_ok_in _ _ _ Hel).
Qed.

(** ** When nothing fails *)

Section Healthy.

Hypothesis rm_ok : forall e op rmid btid,
  (rm_call e op rmid btid).2.1.1 = EXSUCCEED /\ (rm_call e op rmid btid).2.2 = 0.
Hypothesis write_ok : forall e l, (write_line e l).2 = true.
Hypothesis fsync_ok : forall e, (ndrx_fsync_fsync fsync true e).2 = true.
Hypothesis dsync_ok : forall e, (ndrx_fsync_dsync fsync e).2 = true.
Hypothesis checkpointseq_ok : forall e, (checkpointseq e).2 = true.
Hypothesis growlist_ok : forall e, (growlist e).2 = true.

(** The log of a switch, and of the operation on all branches. *)
Definition stage_events (n : Z) : list event :=
  replicate (w_cnt n) (EvWrite (LOG_COMMAND_STAGE n) true) ++
  (if (n =? XA_TX_STAGE_COMMITTING) || (n =? XA_TX_STAGE_ABORTING) then [EvSync true] else []) ++ [EvStage n true].

Definition rm_events (op status : Z) (l : list atmi_xa_rm_status_btid_t) : list event :=
  flat_map (fun el => [EvRm op (rmid el) (btid el) EXSUCCEED XA_OK;
    EvWrite (LOG_COMMAND_RMSTAT (rmid el) status 0 XA_OK (btid el)) true]) l.

Lemma write_line_ok s l : (tms_log_write_line s l).2 = true.
Proof. unfold tms_log_write_line. destruct (f_open _); [apply write_ok|done]. Qed.

Lemma and_then_ok r f : r.2 = true -> (forall s, (f s).2 = true) -> (and_then r f).2 = true.
Proof. intros H1 H2. unfold and_then. rewrite H1. apply H2. Qed.

Lemma write_times_ok n l : forall s, (write_times n s l).2 = true.
Proof. induction n as [|n IH]; intros s; [done|]. apply and_then_ok; [apply write_line_ok|done]. Qed.

Lemma sync_log_ok s : f_open (s_tl s) = true -> (sync_log s).2 = true.
Proof. intros Hf. unfold sync_log. rewrite Hf. cbn [snd]. apply and_then_ok; [apply fsync_ok|intros; apply dsync_ok]. Qed.

Lemma log_stage_io_ok s stage : f_open (s_tl s) = true -> (log_stage_io s stage).2 = true.
Proof.
  intros Hf. unfold log_stage_io.
  assert (exists s0, (if stage =? XA_TX_STAGE_COMMITTING then io s checkpointseq else (s, true)) = (s0, true) /\
    s_tl s0 = s_tl s) as (s0 & -> & H0).
  { destruct (_ =? _); [|by eexists]. unfold io. rewrite checkpointseq_ok. by eexists. }
  rewrite and_then_true. destruct (write_times_spec (LOG_COMMAND_STAGE stage) (w_cnt stage) s0) as (ws & [H1 _] & _).
  pose proof (write_times_ok (w_cnt stage) (LOG_COMMAND_STAGE stage) s0) as H2.
  destruct (write_times _ _ _) as [s1 k]. cbn [fst snd] in *. subst k. rewrite and_then_true.
  destruct (_ || _); [|done]. apply and_then_ok; [apply sync_log_ok; by rewrite H1, H0|intros; apply checkpointseq_ok].
Qed.

Lemma stage_io_ok n ws : stage_io true n ws true -> ws ++ [EvStage n true] = stage_events n.
Proof.
  unfold stage_events. inversion 1 as [| |H1 H2|k ok Hn Hk]; subst.
  - by rewrite (proj2 (Z.eqb_neq _ _) H1), (proj2 (Z.eqb_neq _ _) H2).
  - rewrite (Hk eq_refl), <-app_assoc. destruct Hn as [-> | ->]; done.
Qed.

Lemma switch_stage_ok s n : txstage (s_tl s) <> n -> f_open (s_tl s) = true ->
  exists s', switch_stage s n = (s', true) /\ s_tl s' = set_stage (s_tl s) n /\
    s_trace s' = s_trace s ++ stage_events n.
Proof.
  intros Hne Hfo. unfold switch_stage, tms_log_stage. rewrite (proj2 (Z.eqb_neq _ _) Hne). cbv zeta.
  destruct (log_stage_io_spec (with_tl s (set_stage (s_tl s) n)) n) as (ws & [Htl Htr] & Hio).
  pose proof (log_stage_io_ok (with_tl s (set_stage (s_tl s) n)) n Hfo) as Hok.
  destruct (log_stage_io _ n) as [s1 ok]. cbn [fst snd s_tl with_tl set_stage f_open] in *. subst ok.
  rewrite Hfo in Hio. rewrite <-(stage_io_ok _ _ Hio).
  destruct (negb _); cbn; (eexists; split; [reflexivity|]); cbn; rewrite Htl, Htr, <-app_assoc; done.
Qed.

Lemma healthy_branch d stage status r op s el : xa_status_get_op stage status = op ->
  op ∈ [XA_OP_PREPARE; XA_OP_COMMIT; XA_OP_ROLLBACK; XA_OP_FORGET] -> op <> XA_OP_NOP ->
  xa_status_get_next_by_op stage status op XA_OK = Some r -> jumps d (next_txstage r) = false ->
  txstage (s_tl s) = stage -> f_open (s_tl s) = true -> rmstatus el = status -> next_rmstatus r <> status ->
  exists s1 el1, drive_branch s d el = (s1, el1, false,
      BNext (Some {| v_rmid := rmid el; v_stage := next_txstage r; v_btid := btid el |})) /\
    extends s s1 (rm_events op (next_rmstatus r) [el]) /\
    rmstatus el1 = next_rmstatus r /\ rmid el1 = rmid el /\ btid el1 = btid el.
Proof.
  intros Hop Hin Hne Hr Hj Hst Hfo Hel Hch. unfold drive_branch. rewrite Hst, Hel, Hop.
  replace (negb _) with false.
  2:{ symmetry. apply negb_false_iff, existsb_exists. exists op. split; [|by apply Z.eqb_refl].
      apply list_elem_of_In. by right. }
  unfold branch_op. rewrite (proj2 (Z.eqb_neq _ _) Hne).
  destruct (rm_ok (s_env s) op (rmid el) (btid el)) as [Hret Htp].
  destruct (rm_call _ _ _ _) as [e [[ret c] t]]. cbn [fst snd] in Hret, Htp. subst ret t.
  change (EXSUCCEED =? EXSUCCEED) with true. cbv iota zeta. rewrite Hr.
  change ((XA_OK =? XA_RETRY) || (XA_OK =? XAER_RMFAIL)) with false. rewrite andb_false_r.
  unfold tms_log_rmstatus. rewrite Hel, (proj2 (Z.eqb_neq status (next_rmstatus r))) by done.
  cbn [negb andb]. unfold tms_log_write_line. cbn [emit with_env s_tl]. rewrite Hfo. unfold io.
  pose proof (write_ok (s_env (emit (with_env s e) (EvRm op (rmid el) (btid el) EXSUCCEED XA_OK)))
    (LOG_COMMAND_RMSTAT (rmid el) (next_rmstatus r) 0 (i16 XA_OK) (btid el))) as Hw.
  cbv zeta. cbn [fst snd]. rewrite Hw. cbn [negb andb].
  unfold branch_vote. fold (jumps d (next_txstage r)). rewrite Hj. unfold io. rewrite growlist_ok.
  cbn [fst snd rmid btid]. eexists _, _. split; [reflexivity|].
  split; [|done]. split; cbn; [done|]. by rewrite <-app_assoc.
Qed.

(** All branches at [status] are operated on and move on by the row of [XA_OK]. *)
Lemma healthy_branches d stage status r op : xa_status_get_op stage status = op ->
  op ∈ [XA_OP_PREPARE; XA_OP_COMMIT; XA_OP_ROLLBACK; XA_OP_FORGET] ->
  xa_status_get_next_by_op stage status op XA_OK = Some r -> jumps d (next_txstage r) = false ->
  next_rmstatus r <> status ->
  forall l s, txstage (s_tl s) = stage -> f_open (s_tl s) = true -> Forall (fun el => rmstatus el = status) l ->
  exists s' l' votes, drive_branches s d l = (s', l', votes, false, LDone) /\
    extends s s' (rm_events op (next_rmstatus r) l) /\
    Forall2 (fun el el' => rmstatus el' = next_rmstatus r /\ rmid el' = rmid el /\ btid el' = btid el) l l' /\
    length votes = length l /\ Forall (fun v => v_stage v = next_txstage r) votes.
Proof.
  intros Hop Hin Hr Hj Hch. assert (op <> XA_OP_NOP) as Hne 
    by (intros ->; rewrite list_elem_of_In in Hin; cbn in Hin; repeat destruct Hin as [[=]|Hin]; done).
  induction l as [|el l IH]; intros s Hst Hfo Hl.
  { exists s, [], []. split; [done|]. split; [apply extends_refl|]. by repeat constructor. }
  apply Forall_cons in Hl as [Hel Hl]. cbn [drive_branches].
  assert (exists s1 el1, drive_branch s d el = (s1, el1, false,
      BNext (Some {| v_rmid := rmid el; v_stage := next_txstage r; v_btid := btid el |})) /\
    extends s s1 (rm_events op (next_rmstatus r) [el]) /\
    rmstatus el1 = next_rmstatus r /\ rmid el1 = rmid el /\ btid el1 = btid el) as (s1 & el1 & -> & Hext & Hel1).
  { by apply (healthy_branch d stage status). }
  pose proof Hext as [Htl _].
  destruct (IH s1) as (s' & l' & votes & -> & Hext' & Hl' & Hlen & Hv); [by rewrite Htl..|done|].
  eexists _, _, _. split; [reflexivity|]. split; [exact (extends_trans _ _ _ _ _ Hext Hext')|].
  split; [by constructor|]. cbn. split; [by rewrite Hlen|]. by constructor.
Qed.

(** Votes that all agree decide the stage. *)
Lemma calc_stage_same d votes v : votes <> [] -> Forall (fun x => v_stage x = v) votes ->
  0 <= v < XA_TX_STAGE_MAX_NEVER -> 0 <= txs_max_complete d -> txs_min_complete d <= txs_max_complete d ->
  calc_stage d votes = v.
Proof.
  intros Hne Hv Hr Hd Hd2.
  assert (Forall (fun v => v_stage v < XA_TX_STAGE_MAX_NEVER) votes) as Hlt.
  { eapply Forall_impl; [exact Hv|]. cbn. lia. }
  destruct (proj1 (elem_of_cons _ _ _) (calc_stage_in d votes Hlt Hd)) as [Hc|Hc].
  - pose proof (calc_stage_complete d votes Hlt ltac:(lia)) as Hall.
    destruct votes as [|x votes]; [done|]. apply Forall_cons in Hall as [Hx _], Hv as [Hxv _].
    rewrite Hc in *. lia.
  - apply list_elem_of_fmap_1 in Hc as (x & -> & Hx). rewrite Forall_forall in Hv. auto.
Qed.

(** One round of a healthy transaction: all branches advance, the stage is
    logged. *)
Lemma healthy_round d stage status r op s flags try n :
  xa_stage_get_descr stage = Some d -> xa_status_get_op stage status = op ->
  op ∈ [XA_OP_PREPARE; XA_OP_COMMIT; XA_OP_ROLLBACK; XA_OP_FORGET] ->
  xa_status_get_next_by_op stage status op XA_OK = Some r -> jumps d (next_txstage r) = false ->
  next_txstage r = n -> 0 <= n < XA_TX_STAGE_MAX_NEVER -> n <> stage ->
  next_rmstatus r <> status -> txstage (s_tl s) = stage -> f_open (s_tl s) = true -> branches (s_tl s) <> [] ->
  Forall (fun el => rmstatus el = status) (branches (s_tl s)) -> Z.land flags TP_CMT_LOGGED = 0 ->
  exists s' l', drive_round s flags try = (s', inl 0) /\
    s_tl s' = set_stage (set_branches (s_tl s) l') n /\
    s_trace s' = s_trace s ++ rm_events op (next_rmstatus r) (branches (s_tl s)) ++ stage_events n /\
    Forall2 (fun el el' => rmstatus el' = next_rmstatus r /\ rmid el' = rmid el /\ btid el' = btid el)
      (branches (s_tl s)) l'.
Proof.
  intros Hd Hop Hin Hr Hj Hn Hrange Hne Hch Hst Hfo Hnil Hall Hfl.
  destruct (descr_check (fun d => (0 <=? txs_max_complete d) && (txs_min_complete d <=? txs_max_complete d))
    _ _ eq_refl Hd) as [Hc Hs]. cbv beta in Hc.
  destruct (healthy_branches d stage status r op Hop Hin Hr Hj Hch _ s Hst Hfo Hall)
    as (s1 & l' & votes & Hb & [Htl Htr] & Hl' & Hlen & Hv).
  unfold drive_round. rewrite Hst, Hd, Hb, Htl. unfold round_tail.
  rewrite (calc_stage_same d votes n); [|by destruct votes, (branches (s_tl s))|by subst n|lia..].
  rewrite Hs, (proj2 (Z.eqb_neq _ _) Hne), (proj2 (Z.eqb_neq n XA_TX_STAGE_MAX_NEVER)) by lia. cbn [negb andb orb].
  destruct (switch_stage_ok (with_tl s1 (set_branches (s_tl s) l')) n) as (s2 & -> & Htl2 & Htr2);
    [cbn; by rewrite Hst|done|].
  rewrite Hfl. cbn. exists s2, l'. split; [done|]. split; [done|]. split; [|done].
  rewrite Htr2. cbn. by rewrite Htr, app_assoc.
Qed.

(** In a final stage nothing is done. *)
Lemma quiet_branches d stage : OP_TABLE_SWITCH stage = None -> (forall st, xa_status_get_op stage st = XA_OP_NOP) ->
  forall l s, txstage (s_tl s) = stage -> drive_branches s d l = (s, l, [], false, LDone).
Proof.
  intros Ht Hop. induction l as [|el l IH]; intros s Hst; [done|]. cbn [drive_branches]. unfold drive_branch.
  rewrite Hst, Hop. cbn. unfold xa_status_get_next_by_new_status. rewrite Ht. cbn. rewrite andb_false_r.
  by rewrite (IH s Hst).
Qed.

Lemma quiet_round d stage s flags try : xa_stage_get_descr stage = Some d -> OP_TABLE_SWITCH stage = None ->
  (forall st, xa_status_get_op stage st = XA_OP_NOP) -> txs_max_complete d = stage -> stage <> XA_TX_STAGE_COMMITTING ->
  txstage (s_tl s) = stage -> exists s', drive_round s flags try = (s', inr (DFinish d)) /\
    txstage (s_tl s') = stage /\ s_trace s' = s_trace s.
Proof.
  intros Hd Ht Hop Hmax Hc Hst. destruct (descr_check (fun d => negb ((txs_min_complete d <=? 100) &&
    (100 <=? txs_max_complete d))) _ _ eq_refl Hd) as [Hk Hs].
  unfold drive_round. rewrite Hst, Hd, (quiet_branches d stage Ht Hop) by done. unfold round_tail.
  assert (calc_stage d [] = stage) as ->.
  { unfold calc_stage. cbn in *. destruct (_ && _) eqn:He; [|done].
    unfold XA_TX_STAGE_MAX_NEVER in *. lia. }
  rewrite Hs, Z.eqb_refl, (proj2 (Z.eqb_neq _ _) Hc). cbn. rewrite andb_false_r.
  eexists. split; [reflexivity|]. done.
Qed.

Lemma rm_events_same op status l l' :
  Forall2 (fun el el' => rmid el' = rmid el /\ btid el' = btid el) l l' ->
  rm_events op status l' = rm_events op status l.
Proof.
  unfold rm_events. induction 1 as [|el el' l l' [H1 H2] _ IH]; [done|]. cbn. by rewrite H1, H2, IH.
Qed.

(** When no resource manager and no log operation fails, a commit of active
    branches succeeds: every branch is prepared and its status logged, the
    decision is written and synchronised, every branch is committed and its
    status logged, the end is logged and the log is removed, in this order and
    nothing else. *)
Theorem healthy_commit s flags :
  txstage (s_tl s) = XA_TX_STAGE_PREPARING -> f_open (s_tl s) = true -> branches (s_tl s) <> [] ->
  Forall (fun el => rmstatus el = XA_RM_STATUS_ACTIVE) (branches (s_tl s)) -> Z.land flags TP_CMT_LOGGED = 0 ->
  exists o, tm_drive drive_fuel s XA_OP_COMMIT flags = Some o /\ d_ret o = EXSUCCEED /\ d_finished o = true /\
    s_trace (d_st o) = s_trace s ++
      rm_events XA_OP_PREPARE XA_RM_STATUS_PREP (branches (s_tl s)) ++
      [EvWrite (LOG_COMMAND_STAGE XA_TX_STAGE_COMMITTING) true; EvSync true; EvStage XA_TX_STAGE_COMMITTING true] ++
      rm_events XA_OP_COMMIT XA_RM_STATUS_COMMITTED (branches (s_tl s)) ++
      [EvWrite (LOG_COMMAND_STAGE XA_TX_STAGE_COMMITTED) true; EvStage XA_TX_STAGE_COMMITTED true; EvRemove].
Proof.
  intros Hst Hfo Hnil Hact Hfl. unfold tm_drive.
  assert (exists k, drive_fuel = S (S (S k))) as [k ->] by (exists (4 * Z.to_nat xa_retries + 1)%nat; unfold drive_fuel; lia).
  cbn [drive_loop].
  destruct (healthy_round _ XA_TX_STAGE_PREPARING XA_RM_STATUS_ACTIVE _ XA_OP_PREPARE s flags 0 XA_TX_STAGE_COMMITTING
    eq_refl eq_refl ltac:(by left) eq_refl eq_refl eq_refl)
    as (s1 & l1 & -> & Htl1 & Htr1 & Hl1); try done.
  destruct (healthy_round _ XA_TX_STAGE_COMMITTING XA_RM_STATUS_PREP _ XA_OP_COMMIT s1 flags 0 XA_TX_STAGE_COMMITTED
    eq_refl eq_refl ltac:(by right; left) eq_refl eq_refl eq_refl)
    as (s2 & l2 & -> & Htl2 & Htr2 & Hl2); try done; [by rewrite Htl1|by rewrite Htl1| | |].
  { rewrite Htl1. cbn. intros ->. by apply Forall2_nil_inv_r in Hl1. }
  { rewrite Htl1. cbn. clear - Hl1. induction Hl1 as [|el el' l l' (He & _) _ IH]; by constructor. }
  destruct (quiet_round _ XA_TX_STAGE_COMMITTED s2 flags 0 eq_refl eq_refl) as (s3 & -> & Hst3 & Htr3);
    try done; [by rewrite Htl2|].
  cbn [mbind option_bind fst snd]. eexists. split; [reflexivity|]. cbn. split_and!; try done.
  assert (rm_events XA_OP_COMMIT XA_RM_STATUS_COMMITTED l1 =
          rm_events XA_OP_COMMIT XA_RM_STATUS_COMMITTED (branches (s_tl s))) as Hm.
  { apply rm_events_same. eapply Forall2_impl; [exact Hl1|]. by intros el el' (_ & -> & ->). }
  rewrite Htr3, Htr2, Htr1, Htl1. cbn [set_stage set_branches branches next_rmstatus].
  rewrite Hm, <-!app_assoc. done.
Qed.

End Healthy.

End Drive.

Arguments st : clear implicits.

(** ** Two branches, driven *)

Module DriveDemo.

Definition ok (e : unit) : unit * bool := (e, true).
Definition ok_line (e : unit) (_ : log_line) : unit * bool := (e, true).

(** The setting FSYNC, and none. *)
Definition fsync_on : log_sync unit :=
  {| xa_fsync_flags := NDRX_FSYNC_FSYNC; os_fsync := ok; os_fdatasync := ok; os_dsync := ok |}.
Definition fsync_off : log_sync unit := {| xa_fsync_flags := 0; os_fsync := ok; os_fdatasync := ok; os_dsync := ok |}.

(** Resource managers that do all they are told, and a pair the second of which
    refuses to prepare. *)
Definition rm_fine (e : unit) (op rmid btid : Z) : unit * (Z * Z * Z) := (e, (EXSUCCEED, XA_OK, 0)).
Definition rm_refuses (e : unit) (op rmid btid : Z) : unit * (Z * Z * Z) :=
  (e, if (op =? XA_OP_PREPARE) && (rmid =? 2) then (EXFAIL, XA_RBBASE, TPEABORT) else (EXSUCCEED, XA_OK, 0)).

Definition active (r : Z) : atmi_xa_rm_status_btid_t :=
  {| rmstatus := XA_RM_STATUS_ACTIVE; rmerrorcode := 0; rmreason := 0; btid := 0; rmid := r |}.
Definition start (stage : Z) : st unit :=
  {| s_env := tt; s_trace := [];
     s_tl := {| txstage := stage; branches := [active 1; active 2]; f_open := true; is_background := false |} |}.
Local Abbreviation drive rm stage op flags :=
  (tm_drive rm ok_line fsync_on ok ok 3 (drive_fuel 3) (with_env (start stage) tt) op flags) (only parsing).

Definition run rm stage op flags : drive_out :=
  default {| d_ret := EXFAIL; d_finished := false; d_exited := true; d_st := start stage |} (drive rm stage op flags).

Definition refused := run rm_refuses XA_TX_STAGE_PREPARING XA_OP_COMMIT 0.
Definition committed := run rm_fine XA_TX_STAGE_PREPARING XA_OP_COMMIT 0.
Definition rolled_back := run rm_fine XA_TX_STAGE_ABORTING XA_OP_ROLLBACK 0.

Lemma refused_run : drive rm_refuses XA_TX_STAGE_PREPARING XA_OP_COMMIT 0 = Some refused.
Proof. by vm_compute. Qed.

Lemma committed_run : drive rm_fine XA_TX_STAGE_PREPARING XA_OP_COMMIT 0 = Some committed.
Proof. by vm_compute. Qed.

Lemma rolled_back_run : drive rm_fine XA_TX_STAGE_ABORTING XA_OP_ROLLBACK 0 = Some rolled_back.
Proof. by vm_compute. Qed.

Lemma start_staged stage : stage = XA_TX_STAGE_PREPARING \/ stage = XA_TX_STAGE_ABORTING ->
  well_staged (s_tl (start stage)).
Proof. intros [-> | ->]; by repeat constructor. Qed.

Lemma tm_drive_refines_2pc_witness : exists tr,
  s_trace (d_st refused) = s_trace (with_env (start XA_TX_STAGE_PREPARING) tt) ++ tr /\
  protocol (f_open (s_tl (with_env (start XA_TX_STAGE_PREPARING) tt)))
    (phase_of (txstage (s_tl (with_env (start XA_TX_STAGE_PREPARING) tt)))) tr = Some (if d_exited refused then Doubtful else phase_of (txstage (s_tl (d_st refused)))).
Proof. apply (tm_drive_refines_2pc rm_refuses ok_line fsync_on ok ok 3 _ _ _ _ _ refused_run). Defined.

Lemma tm_drive_atomic_witness :
  ~ (called XA_OP_COMMIT (s_trace (d_st refused)) /\ called XA_OP_ROLLBACK (s_trace (d_st refused))).
Proof.
  apply (tm_drive_atomic rm_refuses ok_line fsync_on ok ok 3 (start XA_TX_STAGE_PREPARING) (start XA_TX_STAGE_PREPARING)
    _ tt XA_OP_COMMIT 0 _ _ (drives_none _ _ _ _ _ _ _) refused_run).
  by vm_compute.
Defined.

Definition prepares : list event := rm_events XA_OP_PREPARE XA_RM_STATUS_PREP [active 1; active 2].
Definition decision : list event := stage_events XA_TX_STAGE_COMMITTING.
Definition commits : list event := rm_events XA_OP_COMMIT XA_RM_STATUS_COMMITTED [active 1; active 2].

Lemma tm_drive_write_ahead_witness : durable XA_TX_STAGE_COMMITTING (prepares ++ decision).
Proof.
  apply (tm_drive_write_ahead rm_fine ok_line fsync_on ok ok 3 (start XA_TX_STAGE_PREPARING) (start XA_TX_STAGE_PREPARING)
    _ tt XA_OP_COMMIT 0 _ _ 1 0 0 0 (drop 8 (s_trace (d_st committed))) eq_refl eq_refl (drives_none _ _ _ _ _ _ _)
    committed_run).
  by vm_compute.
Defined.

Lemma commit_decision_unanimous_witness :
  Forall (fun el => rmstatus el <> XA_RM_STATUS_ACT_AB /\ rmstatus el <> XA_RM_STATUS_ABORTED /\
    (rmstatus el = XA_RM_STATUS_ACTIVE ->
     exists ret reason, EvRm XA_OP_PREPARE (rmid el) (btid el) ret reason ∈ prepares ++ take 2 decision /\
       (reason = XA_OK \/ reason = XA_RDONLY))) [active 1; active 2].
Proof.
  apply (commit_decision_unanimous rm_fine ok_line fsync_on ok ok 3 _ (with_env (start XA_TX_STAGE_PREPARING) tt) XA_OP_COMMIT 0 _ _ true
    (drop 7 (s_trace (d_st committed))) eq_refl committed_run).
  by vm_compute.
Defined.

Lemma tm_drive_well_staged_witness : well_staged (s_tl (d_st refused)).
Proof.
  apply (tm_drive_well_staged rm_refuses ok_line fsync_on ok ok 3 _ _ _ _ _ refused_run). apply start_staged. by left.
Defined.

Lemma healthy_commit_witness : exists o, drive rm_fine XA_TX_STAGE_PREPARING XA_OP_COMMIT 0 = Some o /\
  d_ret o = EXSUCCEED /\ d_finished o = true /\
  s_trace (d_st o) = [] ++ prepares ++ decision ++ commits ++
    [EvWrite (LOG_COMMAND_STAGE XA_TX_STAGE_COMMITTED) true; EvStage XA_TX_STAGE_COMMITTED true; EvRemove].
Proof.
  apply (healthy_commit rm_fine ok_line fsync_on ok ok 3 (fun _ _ _ _ => conj eq_refl eq_refl) (fun _ _ => eq_refl)
    (fun _ => eq_refl) (fun _ => eq_refl) (fun _ => eq_refl) (fun _ => eq_refl) (with_env (start XA_TX_STAGE_PREPARING) tt) 0 eq_refl eq_refl);
    [discriminate|by repeat constructor|reflexivity].
Defined.

(** With [TP_CMT_LOGGED] the driver does not return when the decision is
    logged: the test looks at the stage the round started in, so the resource
    managers are told to commit first, and the committed transaction is then
    left to the background with its log in place. *)
Lemma cmt_logged_commits_first : let o := run rm_fine XA_TX_STAGE_PREPARING XA_OP_COMMIT TP_CMT_LOGGED in
  drive rm_fine XA_TX_STAGE_PREPARING XA_OP_COMMIT TP_CMT_LOGGED = Some o /\
  d_ret o = EXSUCCEED /\ d_finished o = false /\ txstage (s_tl (d_st o)) = XA_TX_STAGE_COMMITTED /\
  s_trace (d_st o) = prepares ++ decision ++ commits ++
    [EvWrite (LOG_COMMAND_STAGE XA_TX_STAGE_COMMITTED) true; EvStage XA_TX_STAGE_COMMITTED true; EvUnlock].
Proof. by vm_compute. Qed.

End DriveDemo.
