(* ===== verification/TmLog.v ===== *)
(** * The log file of a transaction

    The records [tmsrv/log.c] writes for a transaction, how [tms_load_logfile]
    reads them back after a restart, and the branch table of [tmsrv/btid.c].
    Files are lists of bytes.  What the operating system answers (opening,
    reading, allocation) is an argument. *)

From stdpp Require Import prelude.
From S2P Require Import Prelude CText Crc32 XaStates TmDrive.

(** ** Branches of a transaction *)

(** [atmi_xa_log_t] with the fields the log is about. *)
Record tmlog := {
  tl : atmi_xa_log_t; tidcounter : Z -> Z; log_version : Z;
  t_start : Z; t_update : Z; txtout : Z
}.

Definition with_tl' (t : tmlog) (x : atmi_xa_log_t) : tmlog :=
  {| tl := x; tidcounter := tidcounter t; log_version := log_version t;
     t_start := t_start t; t_update := t_update t; txtout := txtout t |}.
Definition set_tid (t : tmlog) (rmid c : Z) : tmlog :=
  {| tl := tl t; tidcounter := fun r => if r =? rmid then c else tidcounter t r; log_version := log_version t;
     t_start := t_start t; t_update := t_update t; txtout := txtout t |}.
Definition set_update (t : tmlog) (u : Z) : tmlog :=
  {| tl := tl t; tidcounter := tidcounter t; log_version := log_version t;
     t_start := t_start t; t_update := u; txtout := txtout t |}.
Definition set_info (t : tmlog) (v start tout : Z) : tmlog :=
  {| tl := tl t; tidcounter := tidcounter t; log_version := v;
     t_start := start; t_update := t_update t; txtout := tout |}.

Definition tms_btid_gettid (t : tmlog) (rmid : Z) : tmlog * Z :=
  let ret := tidcounter t rmid in (set_tid t rmid (ret + 1), ret).

Definition same_branch (rmid' btid' : Z) (b : atmi_xa_rm_status_btid_t) : bool :=
  (rmid b =? rmid') && (btid b =? btid').

Definition tms_btid_find (t : tmlog) (rmid btid : Z) : option atmi_xa_rm_status_btid_t :=
  List.find (same_branch rmid btid) (branches (tl t)).

(** The hash of a resource manager keeps the order of insertion; the hashes
    are visited by resource manager id. *)
Fixpoint insert_branch (b : atmi_xa_rm_status_btid_t) (l : list atmi_xa_rm_status_btid_t)
    : list atmi_xa_rm_status_btid_t :=
  match l with
  | [] => [b]
  | x :: l' => if rmid b <? rmid x then b :: l else x :: insert_branch b l'
  end.

(** [None]: no memory. *)
Definition tms_btid_add (malloc_ok : bool) (t : tmlog) (rmid btid rmstatus rmerrorcode rmreason : Z) : option tmlog :=
  if malloc_ok then
    let b := {| rmstatus := rmstatus; rmerrorcode := rmerrorcode; rmreason := rmreason; btid := btid; rmid := rmid |} in
    let t := with_tl' t (set_branches (tl t) (insert_branch b (branches (tl t)))) in
    Some (if tidcounter t rmid <=? btid then set_tid t rmid (btid + 1) else t)
  else None.

Definition XA_RM_STATUS_NULL : Z := 0.

Definition set_status (rmid' btid' status err reason : Z) (b : atmi_xa_rm_status_btid_t) : atmi_xa_rm_status_btid_t :=
  if same_branch rmid' btid' b
  then {| rmstatus := status; rmerrorcode := err; rmreason := reason; btid := btid b; rmid := rmid b |}
  else b.

(** The transaction, the branch id and whether the branch existed. *)
Definition tms_btid_addupd (malloc_ok : bool) (t : tmlog) (rmid btid rmstatus rmerrorcode rmreason : Z)
    : option (tmlog * Z * bool) :=
  let found := if btid =? EXFAIL then None else tms_btid_find t rmid btid in
  match found with
  | Some _ =>
      if rmstatus =? XA_RM_STATUS_NULL then Some (t, btid, true)
      else Some (with_tl' t (set_branches (tl t)
             (map (set_status rmid btid rmstatus rmerrorcode rmreason) (branches (tl t)))), btid, true)
  | None =>
      let '(t, btid) := if btid =? EXFAIL then tms_btid_gettid t rmid else (t, btid) in
      t ← tms_btid_add malloc_ok t rmid btid rmstatus rmerrorcode rmreason;
      Some (t, btid, false)
  end.

(** ** Records and their text *)

Inductive log_rec :=
  | RInfo (tmrmid tmnodeid tmsrvid txtout : Z)
  | RLine (l : log_line).

Definition LOG_COMMAND_STAGE_C : Z := 83.   (* S *)
Definition LOG_COMMAND_I : Z := 73.
Definition LOG_COMMAND_J : Z := 74.
Definition LOG_COMMAND_RMSTAT_C : Z := 82.  (* R *)
Definition LOG_VERSION_1 : Z := 1.
Definition LOG_VERSION_2 : Z := 2.
Definition LOG_RS_SEP : Z := 59.
Definition LOG_MAX : nat := 1024.
Definition COLON : Z := 58.
Definition NL : Z := 10.
Definition CR : Z := 13.

(** What a C string holds of these bytes. *)
Fixpoint c_string (s : list Z) : list Z :=
  match s with c :: s => if c =? 0 then [] else c :: c_string s | [] => [] end.

Definition command (r : log_rec) : Z :=
  match r with
  | RInfo _ _ _ _ => LOG_COMMAND_J
  | RLine (LOG_COMMAND_STAGE _) => LOG_COMMAND_STAGE_C
  | RLine (LOG_COMMAND_RMSTAT _ _ _ _ _) => LOG_COMMAND_RMSTAT_C
  end.

(** [tms_log_info], [tms_log_stage], [tms_log_rmstatus]: the formats.  The ids
    of the information are printed as [%hd]. *)
Definition payload (r : log_rec) : list Z :=
  match r with
  | RInfo tmrmid tmnodeid tmsrvid txtout =>
      fmt_d (i16 tmrmid) ++ COLON :: fmt_d (i16 tmnodeid) ++ COLON :: fmt_d (i16 tmsrvid) ++ COLON :: fmt_d txtout ++ [COLON]
  | RLine (LOG_COMMAND_STAGE stage) => fmt_d stage
  | RLine (LOG_COMMAND_RMSTAT rmid status err reason btid) =>
      fmt_d rmid ++ COLON :: status :: COLON :: fmt_d err ++ COLON :: fmt_d reason ++ COLON :: fmt_d btid
  end.

Definition msg2 (tstamp : Z) (r : log_rec) : list Z :=
  take LOG_MAX (fmt_d tstamp ++ COLON :: command r :: COLON :: c_string (take LOG_MAX (payload r))).

(** The bytes [tms_log_write_line] appends. *)
Definition log_text (version tstamp : Z) (r : log_rec) : list Z :=
  let m := msg2 tstamp r in
  if version =? LOG_VERSION_1 then m ++ [NL]
  else m ++ LOG_RS_SEP :: fmt_08lx (ndrx_Crc32_ComputeBuf 0 m) ++ [NL].

(** ** Parsing a record *)

(** [TOKEN_READ] *)
Definition TOKEN_READ (s : list Z) : option (list Z * list Z) := strtok COLON s.

Definition tms_parse_info (version : Z) (buf : list Z) (t : tmlog) : option tmlog :=
  a ← TOKEN_READ buf;
  b ← TOKEN_READ a.2;
  c ← TOKEN_READ b.2;
  d ← TOKEN_READ c.2;
  e ← TOKEN_READ d.2;
  f ← TOKEN_READ e.2;
  Some (set_info t version (strtoull a.1) (atol f.1)).

Definition in_abort_range (stage : Z) : bool :=
  (XA_TX_STAGE_ABORTING <=? stage) && (stage <=? XA_TX_STAGE_ABFORGOT_HEU).

(** A transaction that was aborting is never taken for anything else. *)
Definition next_stage (old new : Z) : Z :=
  if in_abort_range old then (if in_abort_range new then new else old) else new.

Definition tms_parse_stage (buf : list Z) (t : tmlog) : option tmlog :=
  a ← TOKEN_READ buf;
  let t := set_update t (atol a.1) in
  b ← TOKEN_READ a.2;
  c ← TOKEN_READ b.2;
  Some (with_tl' t (set_stage (tl t) (next_stage (txstage (tl t)) (i16 (atoi c.1))))).

Definition NDRX_MAX_RMS : Z := 32.

Definition tms_parse_rmstatus (malloc_ok : bool) (buf : list Z) (t : tmlog) : option tmlog :=
  a ← TOKEN_READ buf;
  let t := set_update t (atol a.1) in
  b ← TOKEN_READ a.2;
  c ← TOKEN_READ b.2;
  let rmid := atoi c.1 in
  if (rmid <? 1) || (NDRX_MAX_RMS <? rmid) then None
  else
    d ← TOKEN_READ c.2;
    e ← TOKEN_READ d.2;
    f ← TOKEN_READ e.2;
    let btid := match TOKEN_READ f.2 with Some g => atol g.1 | None => 0 end in
    r ← tms_btid_addupd malloc_ok t rmid btid (hd 0 d.1) (atoi e.1) (i16 (atoi f.1));
    Some r.1.1.

(** ** Loading a file *)

(** [fgets] into a buffer of 1024 bytes. *)
Fixpoint fgets_take (n : nat) (f : list Z) : list Z * list Z :=
  match n, f with
  | S n, c :: f => if c =? NL then ([c], f) else let r := fgets_take n f in (c :: r.1, r.2)
  | _, _ => ([], f)
  end.

Definition fgets (f : list Z) : option (list Z * list Z) :=
  match f with [] => None | _ => Some (fgets_take 1023 f) end.

Record load_st := {
  ld_t : tmlog; infos_ok : bool; got_term_last : bool; missing_term_in_file : bool
}.

Inductive load_step := LCont (s : load_st) | LErr (do_housekeep : bool).

(** [1 < len && c == buf[len-1]]: the last byte cut off. *)
Definition chomp (c : Z) (buf : list Z) : option (list Z) :=
  if (1 <? zlen buf) && (List.last buf 0 =? c) then Some (removelast buf) else None.

Definition parse_record (malloc_ok : bool) (cmd : Z) (buf : list Z) (s : load_st) : load_step :=
  let ok r infos :=
    match r with
    | Some t => LCont {| ld_t := t; infos_ok := infos; got_term_last := got_term_last s;
                         missing_term_in_file := missing_term_in_file s |}
    | None => LErr false
    end in
  if (cmd =? LOG_COMMAND_I) || (cmd =? LOG_COMMAND_J) then
    if infos_ok s then LErr true
    else ok (tms_parse_info (cmd - LOG_COMMAND_I + 1) buf (ld_t s)) true
  else if cmd =? LOG_COMMAND_STAGE_C then
    if infos_ok s then ok (tms_parse_stage buf (ld_t s)) true else LErr true
  else if cmd =? LOG_COMMAND_RMSTAT_C then
    if infos_ok s then ok (tms_parse_rmstatus malloc_ok buf (ld_t s)) true else LErr true
  else LCont s.

(** A terminated line without its terminator: from version 2 on the checksum
    has to be right, other lines are passed over. *)
Definition load_record (malloc_ok : bool) (s : load_st) (buf : list Z) : load_step :=
  match split_at_char COLON buf with
  | None => LErr false
  | Some (_, p) =>
      let cmd := hd 0 p in
      if (negb (infos_ok s) && (cmd =? LOG_COMMAND_J)) || (LOG_VERSION_1 <? log_version (ld_t s)) then
        match split_at_char LOG_RS_SEP buf with
        | None => LCont s
        | Some (b, rs) =>
            if ndrx_Crc32_ComputeBuf 0 b =? default 0 (sscanf_lx rs)
            then parse_record malloc_ok cmd b s
            else LCont s
        end
      else parse_record malloc_ok cmd buf s
  end.

Definition load_line (malloc_ok : bool) (s : load_st) (raw : list Z) : load_step :=
  let buf := c_string raw in
  let nl := chomp NL buf in
  let buf := default buf nl in
  let buf := default buf (chomp CR buf) in
  let term := bool_decide (is_Some nl) in
  let s := {| ld_t := ld_t s; infos_ok := infos_ok s; got_term_last := term;
              missing_term_in_file := missing_term_in_file s || negb term |} in
  if negb term then LCont s else load_record malloc_ok s buf.

Fixpoint load_loop (fuel : nat) (malloc_ok : bool) (f : list Z) (s : load_st) : option load_step :=
  match fuel with
  | O => None
  | S fuel =>
      match fgets f with
      | None => Some (LCont s)
      | Some (line, rest) =>
          match load_line malloc_ok s line with
          | LCont s => load_loop fuel malloc_ok rest s
          | LErr hk => Some (LErr hk)
          end
      end
  end.

(** The freshly allocated entry. *)
Definition empty_log : tmlog :=
  {| tl := {| txstage := XA_TX_STAGE_ACTIVE; branches := []; f_open := true; is_background := false |};
     tidcounter := fun _ => 0; log_version := 0; t_start := 0; t_update := 0; txtout := 0 |}.

(** What the system answers while a file is loaded. *)
Record load_env := {
  calloc_ok : bool;   (* memory for the entry *)
  name_ok : bool;     (* file name and transaction id fit their fields *)
  setseq_ok : bool;   (* tms_log_setseq *)
  open_ok : bool; fseek_ok : bool;
  malloc_ok : bool;   (* memory for the branches *)
  feof_ok : bool;     (* the end of the file was read *)
  term_ok : bool      (* the last line could be terminated *)
}.

Section Load.

Context {E : Type}.
Variable write_line : E -> log_line -> E * bool.
Variable fsync : log_sync E.
Variable checkpointseq : E -> E * bool.

(** Failure with [housekeepable], or the loaded transaction and the file. *)
Inductive load_out :=
  | LoadFail (housekeepable : bool)
  | LoadOk (s : st E) (t : tmlog) (file : list Z).

(** The background thread goes on with the transaction; what was not decided
    is aborted. *)
Definition resume (e : E) (x : atmi_xa_log_t) : st E :=
  let s := {| s_env := e; s_trace := []; s_tl := set_background x |} in
  if (txstage x =? XA_TX_STAGE_PREPARING) || (txstage x =? XA_TX_STAGE_ACTIVE)
  then (tms_log_stage write_line fsync checkpointseq s XA_TX_STAGE_ABORTING true).1 else s.

(** Behind the loop over the lines. *)
Definition load_finish (le : load_env) (e : E) (f : list Z) (s : load_st) : load_out :=
  if negb (feof_ok le) then LoadFail false
  else if negb (infos_ok s) then LoadFail true
  else if missing_term_in_file s && got_term_last s then LoadFail false
  else if missing_term_in_file s && negb (term_ok le) then LoadFail false
  else
    let f := if missing_term_in_file s then f ++ [NL] else f in
    let st1 := resume e (tl (ld_t s)) in
    LoadOk st1 (with_tl' (ld_t s) (s_tl st1)) f.

Definition tms_load_logfile (le : load_env) (e : E) (f : list Z) : option load_out :=
  if negb (calloc_ok le && name_ok le && setseq_ok le && open_ok le && fseek_ok le) then Some (LoadFail false)
  else
    r ← load_loop (S (length f)) (malloc_ok le) f
          {| ld_t := empty_log; infos_ok := false; got_term_last := false; missing_term_in_file := false |};
    Some (match r with
          | LErr hk => LoadFail hk
          | LCont s => load_finish le e f s
          end).

End Load.

(** ** What a log says *)

(** The effect of a record on the entry. *)
Definition apply_rec (t : tmlog) (x : Z * log_rec) : tmlog :=
  match x.2 with
  | RInfo _ _ _ tout => set_info t LOG_VERSION_2 (u64 x.1) tout
  | RLine (LOG_COMMAND_STAGE stage) =>
      let t := set_update t x.1 in with_tl' t (set_stage (tl t) (next_stage (txstage (tl t)) stage))
  | RLine (LOG_COMMAND_RMSTAT rmid status err reason btid) =>
      match tms_btid_addupd true (set_update t x.1) rmid btid status err reason with
      | Some r => r.1.1
      | None => t
      end
  end.

Definition replay (l : list (Z * log_rec)) : tmlog := fold_left apply_rec l empty_log.

Definition file_of (l : list (Z * log_rec)) : list Z := concat (map (fun x => log_text LOG_VERSION_2 x.1 x.2) l).

(** Records as the server writes them: values of their C types, a status that
    is a visible character other than the separators. *)
Definition in_short (z : Z) : Prop := -32768 <= z < 32768.

Definition rec_ok (x : Z * log_rec) : Prop :=
  in_long x.1 /\
  match x.2 with
  | RInfo _ _ _ t => in_long t
  | RLine (LOG_COMMAND_STAGE n) => in_short n
  | RLine (LOG_COMMAND_RMSTAT rmid status err reason btid) =>
      1 <= rmid <= NDRX_MAX_RMS /\ 32 < status < 127 /\ status <> COLON /\ status <> LOG_RS_SEP /\
      INT_MIN <= err <= INT_MAX /\ in_short reason /\ in_long btid
  end.

(** Text characters: none ends a line or a string. *)
Definition text_char (c : Z) : Prop := 32 < c < 127.

Lemma num_text s : Forall num_char s -> Forall text_char s.
Proof. intros H. eapply Forall_impl; [exact H|]. unfold num_char, text_char. intros c. lia. Qed.

Lemma fmt_d_text z : Forall text_char (fmt_d z).
Proof. apply num_text, fmt_d_chars. Qed.

Lemma short_long z : in_short z -> in_long z.
Proof. unfold in_short, in_long, LONG_MIN, LONG_MAX. lia. Qed.

Lemma i16_long z : in_long (i16 z).
Proof. apply short_long. unfold i16, in_short. pose proof (Z.mod_pos_bound (z + 32768) 65536). lia. Qed.

Lemma int_long z : INT_MIN <= z <= INT_MAX -> in_long z.
Proof. unfold INT_MIN, INT_MAX, in_long, LONG_MIN, LONG_MAX. lia. Qed.

Lemma c_string_id s : Forall (fun c => c <> 0) s -> c_string s = s.
Proof.
  induction 1 as [|c s Hc _ IH]; [done|]. cbn. rewrite (proj2 (Z.eqb_neq _ _)) by done. by rewrite IH.
Qed.

Lemma text_nonzero s : Forall text_char s -> Forall (fun c => c <> 0) s.
Proof. intros H. eapply Forall_impl; [exact H|]. unfold text_char. intros c. lia. Qed.

(** ** Writing a record *)

Definition message (x : Z * log_rec) : list Z := fmt_d x.1 ++ COLON :: command x.2 :: COLON :: payload x.2.

(** A line without its end. *)
Definition body (x : Z * log_rec) : list Z :=
  message x ++ LOG_RS_SEP :: fmt_08lx (ndrx_Crc32_ComputeBuf 0 (message x)).

Lemma status_text c : 32 < c < 127 -> text_char c.
Proof. done. Qed.

(** Characters of a message: visible, and none separates the checksum. *)
Definition msg_char (c : Z) : Prop := text_char c /\ c <> LOG_RS_SEP.

Lemma fmt_d_msg z : Forall msg_char (fmt_d z).
Proof.
  eapply Forall_impl; [apply fmt_d_chars|]. unfold num_char, msg_char, text_char, LOG_RS_SEP. intros c. lia.
Qed.

Lemma colon_msg : msg_char COLON.
Proof. done. Qed.

Lemma command_msg r : msg_char (command r).
Proof. by destruct r as [| []]. Qed.

Ltac msg_solve :=
  repeat first [ apply Forall_app; split | apply Forall_cons; split | apply Forall_nil; exact I
               | apply fmt_d_msg | apply colon_msg | apply command_msg ].

Lemma payload_msg x : rec_ok x -> Forall msg_char (payload x.2).
Proof.
  intros [_ H]. destruct x as [ts [a b c t|[n|rmid status err reason btid]]]; cbn in *; msg_solve.
  split; [unfold text_char; lia|tauto].
Qed.

Lemma message_msg x : rec_ok x -> Forall msg_char (message x).
Proof. intros H. unfold message. msg_solve. by apply payload_msg. Qed.

Lemma payload_length x : rec_ok x -> (length (payload x.2) <= 105)%nat.
Proof.
  intros [_ H]. destruct x as [ts [a b c t|[n|rmid status err reason btid]]]; cbn in *;
    repeat (rewrite ?length_app; cbn [length]).
  - pose proof (fmt_d_length (i16 a) (i16_long a)). pose proof (fmt_d_length (i16 b) (i16_long b)).
    pose proof (fmt_d_length (i16 c) (i16_long c)). pose proof (fmt_d_length t H). lia.
  - pose proof (fmt_d_length n (short_long n H)). lia.
  - destruct H as (Hr & _ & _ & _ & ?%int_long & ?%short_long & ?). pose proof (fmt_d_length err ltac:(assumption)).
    assert (in_long rmid) by (unfold in_long, LONG_MIN, LONG_MAX, NDRX_MAX_RMS in *; lia).
    pose proof (fmt_d_length rmid ltac:(assumption)). pose proof (fmt_d_length reason ltac:(assumption)). pose proof (fmt_d_length btid ltac:(assumption)). lia.
Qed.

Lemma message_length x : rec_ok x -> (4 <= length (message x) <= 128)%nat.
Proof.
  intros H. pose proof (payload_length x H). destruct H as [Ht _]. pose proof (fmt_d_length _ Ht).
  unfold message. rewrite length_app. cbn. lia.
Qed.

Lemma msg2_message x : rec_ok x -> msg2 x.1 x.2 = message x.
Proof.
  intros H. pose proof (payload_length x H). pose proof (message_length x H). unfold msg2, message, LOG_MAX in *.
  rewrite (take_ge (payload x.2)) by lia. rewrite c_string_id.
  - rewrite take_ge; [done|lia].
  - apply text_nonzero. eapply Forall_impl; [by apply payload_msg|]. by intros c [Hc _].
Qed.

Lemma log_text_body x : rec_ok x -> log_text LOG_VERSION_2 x.1 x.2 = body x ++ [NL].
Proof.
  intros H. unfold log_text, body. rewrite msg2_message by done.
  change (LOG_VERSION_2 =? LOG_VERSION_1) with false. cbv iota. by rewrite <-app_assoc.
Qed.

Lemma crc_digits x : exists ds, fmt_08lx (ndrx_Crc32_ComputeBuf 0 (message x)) = map digit_char ds /\
  length ds = 8%nat /\ Forall (fun d => 0 <= d < 16) ds /\
  value 16 ds 0 = ndrx_Crc32_ComputeBuf 0 (message x).
Proof.
  exists (hex8 (ndrx_Crc32_ComputeBuf 0 (message x))). split; [apply fmt_08lx_hex8|].
  apply hex8_spec. apply crc_range.
Qed.

Lemma body_text x : rec_ok x -> Forall text_char (body x).
Proof.
  intros H. unfold body. destruct (crc_digits x) as (ds & -> & _ & Hds & _). apply Forall_app. split.
  - eapply Forall_impl; [by apply message_msg|]. by intros c [Hc _].
  - apply Forall_cons. split; [done|]. apply Forall_map. eapply Forall_impl; [exact Hds|].
    intros d Hd. unfold text_char, digit_char. cbn in Hd. destruct (Z.ltb_spec d 10); lia.
Qed.

Lemma body_length x : rec_ok x -> (4 <= length (body x) <= 137)%nat.
Proof.
  intros H. pose proof (message_length x H). unfold body. destruct (crc_digits x) as (ds & -> & Hl & _ & _).
  rewrite length_app. cbn [length]. rewrite length_map. lia.
Qed.

Lemma not_in_text c s : Forall text_char s -> ~ text_char c -> c ∉ s.
Proof. intros Hs Hc Hin. rewrite Forall_forall in Hs. by apply Hc, Hs. Qed.

Lemma sep_notin_message x : rec_ok x -> LOG_RS_SEP ∉ message x.
Proof. intros H Hin. pose proof (message_msg x H) as Hm. rewrite Forall_forall in Hm. by destruct (Hm _ Hin). Qed.

Lemma colon_notin z : COLON ∉ fmt_d z.
Proof. apply num_char_notin; [apply fmt_d_chars|]. unfold num_char, COLON. lia. Qed.

Lemma fmt_d_ne z : in_long z -> fmt_d z <> [].
Proof. intros H%fmt_d_length He. rewrite He in H. cbn in H. lia. Qed.

(** ** Reading a line *)

Lemma fgets_take_line n m rest : NL ∉ m -> (length m < n)%nat -> fgets_take n (m ++ NL :: rest) = (m ++ [NL], rest).
Proof.
  revert n. induction m as [|c m IH]; intros [|n] Hm Hn; cbn in *; [lia|done|lia|].
  apply not_elem_of_cons in Hm as [Hc Hm]. rewrite (proj2 (Z.eqb_neq _ _)) by done. by rewrite IH by (done || lia).
Qed.

Lemma fgets_take_tail n m : NL ∉ m -> (length m <= n)%nat -> fgets_take n m = (m, []).
Proof.
  revert n. induction m as [|c m IH]; intros [|n] Hm Hn; cbn in *; [done|done|lia|].
  apply not_elem_of_cons in Hm as [Hc Hm]. rewrite (proj2 (Z.eqb_neq _ _)) by done. by rewrite IH by (done || lia).
Qed.

(** A line of text that fits the buffer. *)
Definition line_text (m : list Z) : Prop := Forall text_char m /\ (1 <= length m <= 1000)%nat.

Lemma line_no_nl m : line_text m -> NL ∉ m.
Proof. intros [Hm _]. apply not_in_text; [done|]. unfold text_char, NL. lia. Qed.

Lemma fgets_line m rest : line_text m -> fgets (m ++ NL :: rest) = Some (m ++ [NL], rest).
Proof.
  intros H. unfold fgets. destruct (m ++ NL :: rest) eqn:He; [by destruct m|]. rewrite <-He.
  rewrite fgets_take_line; [done|by apply line_no_nl|destruct H; lia].
Qed.

Lemma fgets_tail m : line_text m -> fgets m = Some (m, []).
Proof.
  intros H. unfold fgets. destruct m as [|c m]; [destruct H; cbn in *; lia|].
  rewrite fgets_take_tail; [done|by apply line_no_nl|destruct H; lia].
Qed.

Lemma last_text m d : line_text m -> text_char (List.last m d).
Proof.
  intros [Hm Hl]. destruct m as [|c m _] using rev_ind; [cbn in Hl; lia|].
  rewrite last_last. by apply Forall_app in Hm as [_ [Hc _]%Forall_cons].
Qed.

Definition with_term (s : load_st) (term : bool) : load_st :=
  {| ld_t := ld_t s; infos_ok := infos_ok s; got_term_last := term;
     missing_term_in_file := missing_term_in_file s || negb term |}.

Lemma chomp_text c m : line_text m -> ~ text_char c -> chomp c m = None.
Proof.
  intros Hm Hc. unfold chomp. rewrite (proj2 (Z.eqb_neq _ _)), andb_false_r; [done|].
  intros <-. by apply Hc, last_text.
Qed.

Lemma nl_not_text : ~ text_char NL.
Proof. unfold text_char, NL. lia. Qed.

Lemma cr_not_text : ~ text_char CR.
Proof. unfold text_char, CR. lia. Qed.

(** A line that ends, and one that does not. *)
Lemma load_line_ended mok s m : line_text m -> load_line mok s (m ++ [NL]) = load_record mok (with_term s true) m.
Proof.
  intros Hm. unfold load_line. rewrite c_string_id.
  2:{ apply Forall_app. split; [apply text_nonzero, Hm|by repeat constructor]. }
  assert (chomp NL (m ++ [NL]) = Some m) as ->.
  { unfold chomp. rewrite last_last, removelast_last, Z.eqb_refl, andb_true_r. destruct Hm as [_ Hl].
    rewrite (proj2 (Z.ltb_lt _ _)); [done|]. unfold zlen. rewrite length_app. cbn. lia. }
  cbn [from_option id]. by rewrite (chomp_text _ _ Hm cr_not_text).
Qed.

Lemma load_line_torn mok s m : line_text m -> load_line mok s m = LCont (with_term s false).
Proof.
  intros Hm. unfold load_line. rewrite c_string_id by apply text_nonzero, Hm. by rewrite (chomp_text _ _ Hm nl_not_text).
Qed.

(** ** Parsing what was written *)

Lemma tok_num z s : in_long z -> TOKEN_READ (fmt_d z ++ COLON :: s) = Some (fmt_d z, s).
Proof. intros Hz. apply strtok_app; [by apply fmt_d_ne|apply colon_notin]. Qed.

Lemma tok_num_last z : in_long z -> TOKEN_READ (fmt_d z) = Some (fmt_d z, []).
Proof. intros Hz. apply strtok_last; [by apply fmt_d_ne|apply colon_notin]. Qed.

Lemma tok_char c s : c <> COLON -> TOKEN_READ (c :: COLON :: s) = Some ([c], s).
Proof.
  intros Hc. apply (strtok_app COLON [c]); [done|]. intros H%list_elem_of_singleton. by apply Hc.
Qed.

Lemma strtoull_fmt z : in_long z -> strtoull (fmt_d z) = u64 z.
Proof.
  intros Hz. unfold strtoull. rewrite <-(app_nil_r (fmt_d z)), scan_int_fmt_d by done.
  unfold in_long, LONG_MIN, LONG_MAX, ULONG_MAX in *. by repeat rewrite (proj2 (Z.ltb_ge _ _)) by lia.
Qed.

Lemma atoi_i16 z : in_short z -> i16 (atoi (fmt_d z)) = z.
Proof.
  intros Hz. rewrite atoi_fmt; [by apply i16_id|]. unfold in_short, INT_MIN, INT_MAX in *. lia.
Qed.

Lemma parse_info_message ts a b c tout t : rec_ok (ts, RInfo a b c tout) ->
  tms_parse_info LOG_VERSION_2 (message (ts, RInfo a b c tout)) t = Some (apply_rec t (ts, RInfo a b c tout)).
Proof.
  intros (Hts & Ht). cbn [fst snd] in *. unfold tms_parse_info, message. cbn [fst snd payload].
  rewrite tok_num by done. cbn [mbind option_bind snd fst]. rewrite tok_char by done. cbn [mbind option_bind snd fst].
  do 3 (rewrite tok_num by apply i16_long; cbn [mbind option_bind snd fst]).
  rewrite tok_num by done. cbn [mbind option_bind snd fst].
  by rewrite strtoull_fmt, atol_fmt.
Qed.

Lemma parse_stage_message ts n t : rec_ok (ts, RLine (LOG_COMMAND_STAGE n)) ->
  tms_parse_stage (message (ts, RLine (LOG_COMMAND_STAGE n))) t = Some (apply_rec t (ts, RLine (LOG_COMMAND_STAGE n))).
Proof.
  intros (Hts & Hn). cbn [fst snd] in *. unfold tms_parse_stage, message. cbn [fst snd payload].
  rewrite tok_num by done. cbn [mbind option_bind snd fst]. rewrite tok_char by done. cbn [mbind option_bind snd fst].
  rewrite tok_num_last by by apply short_long. cbn [mbind option_bind snd fst]. by rewrite atol_fmt, atoi_i16.
Qed.

Lemma addupd_total t rmid btid status err reason :
  is_Some (tms_btid_addupd true t rmid btid status err reason).
Proof. unfold tms_btid_addupd. repeat case_match; cbn; eauto. Qed.

Lemma parse_rmstatus_message ts rmid status err reason btid t :
  let x := (ts, RLine (LOG_COMMAND_RMSTAT rmid status err reason btid)) in
  rec_ok x -> tms_parse_rmstatus true (message x) t = Some (apply_rec t x).
Proof.
  intros x (Hts & Hr & Hs & Hs1 & Hs2 & He & Hre & Hb). subst x. cbn [fst snd] in *.
  assert (INT_MIN <= rmid <= INT_MAX) as Hri by (unfold NDRX_MAX_RMS, INT_MIN, INT_MAX in *; lia).
  unfold tms_parse_rmstatus, message. cbn [fst snd payload].
  rewrite tok_num by done. cbn [mbind option_bind snd fst]. rewrite tok_char by done. cbn [mbind option_bind snd fst].
  rewrite tok_num by by apply int_long. cbn [mbind option_bind snd fst]. rewrite atoi_fmt by done.
  replace ((rmid <? 1) || (NDRX_MAX_RMS <? rmid)) with false by lia.
  rewrite tok_char by done. cbn [mbind option_bind snd fst].
  rewrite tok_num by by apply int_long. cbn [mbind option_bind snd fst].
  rewrite tok_num by by apply short_long. cbn [mbind option_bind snd fst]. rewrite tok_num_last by done.
  cbn [hd fst snd]. rewrite !atol_fmt, atoi_fmt, atoi_i16 by done. unfold apply_rec. cbn [fst snd].
  by destruct (addupd_total (set_update t ts) rmid btid status err reason) as [r ->].
Qed.

(** ** Reading a record *)

Definition is_info (x : Z * log_rec) : bool := match x.2 with RInfo _ _ _ _ => true | _ => false end.

(** Whether the checksum of a line is right. *)
Definition checksum_ok (m : list Z) : bool :=
  match split_at_char LOG_RS_SEP m with
  | None => false
  | Some (b, rs) => ndrx_Crc32_ComputeBuf 0 b =? default 0 (sscanf_lx rs)
  end.

Lemma checksum_body x : rec_ok x -> split_at_char LOG_RS_SEP (body x) =
    Some (message x, fmt_08lx (ndrx_Crc32_ComputeBuf 0 (message x))) /\
  sscanf_lx (fmt_08lx (ndrx_Crc32_ComputeBuf 0 (message x))) = Some (ndrx_Crc32_ComputeBuf 0 (message x)).
Proof.
  intros H. split; [by apply split_at_char_app, sep_notin_message|].
  destruct (crc_digits x) as (ds & He & Hl & Hds & Hv). rewrite He, sscanf_lx_digits, Hv; [done| |done|lia].
  by destruct ds.
Qed.

Lemma colon_body x : split_at_char COLON (body x) =
  Some (fmt_d x.1, command x.2 :: COLON :: payload x.2 ++ LOG_RS_SEP :: fmt_08lx (ndrx_Crc32_ComputeBuf 0 (message x))).
Proof.
  unfold body, message at 1. rewrite <-app_assoc. apply (split_at_char_app COLON (fmt_d x.1)), colon_notin.
Qed.

Lemma body_line x : rec_ok x -> line_text (body x).
Proof. intros H. split; [by apply body_text|]. pose proof (body_length x H). lia. Qed.

(** The state behind a record. *)
Definition loaded (s : load_st) (t : tmlog) : load_st :=
  {| ld_t := t; infos_ok := true; got_term_last := got_term_last s; missing_term_in_file := missing_term_in_file s |}.

(** A record fits the state: the information first and once. *)
Definition expects (s : load_st) (x : Z * log_rec) : Prop :=
  infos_ok s = negb (is_info x) /\ (is_info x = false -> log_version (ld_t s) = LOG_VERSION_2).

Lemma load_record_body s x : rec_ok x -> expects s x ->
  load_record true s (body x) = LCont (loaded s (apply_rec (ld_t s) x)).
Proof.
  intros H [Hi Hv]. unfold load_record. rewrite colon_body. cbn [hd]. destruct (checksum_body x H) as [-> ->].
  cbn [from_option id]. rewrite Z.eqb_refl. destruct x as [ts [a b c t|[n|rmid status err reason btid]]]; cbn in Hi.
  - rewrite Hi. change (_ || _) with true. cbv iota. unfold parse_record. rewrite Hi. cbn [command snd].
    change (_ || _) with true. cbv iota. change (LOG_COMMAND_J - LOG_COMMAND_I + 1) with LOG_VERSION_2.
    by rewrite parse_info_message.
  - rewrite Hi, Hv by done. change (_ || _) with true. cbv iota. unfold parse_record. rewrite Hi. cbn [command snd].
    change (_ || _) with false. cbv iota. change (LOG_COMMAND_STAGE_C =? LOG_COMMAND_STAGE_C) with true. cbv iota.
    by rewrite parse_stage_message.
  - rewrite Hi, Hv by done. change (_ || _) with true. cbv iota. unfold parse_record. rewrite Hi. cbn [command snd].
    change (_ || _) with false. change (LOG_COMMAND_RMSTAT_C =? LOG_COMMAND_STAGE_C) with false.
    change (LOG_COMMAND_RMSTAT_C =? LOG_COMMAND_RMSTAT_C) with true. cbv iota. by rewrite parse_rmstatus_message.
Qed.

(** A damaged line: text with a colon and a wrong or no checksum. *)
Definition junk (m : list Z) : Prop := line_text m /\ COLON ∈ m /\ checksum_ok m = false.

Lemma split_at_char_in c m : c ∈ m -> is_Some (split_at_char c m).
Proof.
  induction m as [|x m IH]; intros Hin; [by apply not_elem_of_nil in Hin|]. cbn.
  destruct (Z.eqb_spec x c); [by eexists|]. apply elem_of_cons in Hin as [->|Hin]; [done|].
  destruct (IH Hin) as [[a b] ->]. by eexists.
Qed.

Lemma load_record_junk mok s m : junk m -> log_version (ld_t s) = LOG_VERSION_2 -> load_record mok s m = LCont s.
Proof.
  intros (_ & Hc & Hk) Hv. unfold load_record. destruct (split_at_char_in _ _ Hc) as [[a b] ->]. rewrite Hv, orb_true_r.
  unfold checksum_ok in Hk. destruct (split_at_char LOG_RS_SEP m) as [[x y]|]; [by rewrite Hk|done].
Qed.

(** ** Log files

    [logged f l]: the file [f] holds the records [l], the information first,
    with damaged lines among them. *)
Inductive logged : list Z -> list (Z * log_rec) -> Prop :=
  | logged_info x : rec_ok x -> is_info x = true -> logged (log_text LOG_VERSION_2 x.1 x.2) [x]
  | logged_rec f l x : logged f l -> rec_ok x -> is_info x = false ->
      logged (f ++ log_text LOG_VERSION_2 x.1 x.2) (l ++ [x])
  | logged_junk f l m : logged f l -> junk m -> logged (f ++ m ++ [NL]) l.

Lemma logged_all f l rs : logged f l -> Forall rec_ok rs -> Forall (fun x => is_info x = false) rs ->
  logged (f ++ file_of rs) (l ++ rs).
Proof.
  intros Hf Hok Hi. revert f l Hf. induction rs as [|x rs IH]; intros f l Hf; [by rewrite !app_nil_r|].
  apply Forall_cons in Hok as [Hx Hok]. apply Forall_cons in Hi as [Hix Hi].
  specialize (IH Hok Hi (f ++ log_text LOG_VERSION_2 x.1 x.2) (l ++ [x]) ltac:(by constructor)).
  unfold file_of in *. cbn [map concat]. by rewrite <-!app_assoc in IH.
Qed.

Lemma next_stage_abort n : next_stage n XA_TX_STAGE_ABORTING = XA_TX_STAGE_ABORTING.
Proof. unfold next_stage. by destruct (in_abort_range n). Qed.

Lemma replay_snoc l x : replay (l ++ [x]) = apply_rec (replay l) x.
Proof. unfold replay. by rewrite fold_left_app. Qed.

Lemma btid_add_version mok t r b st e rs t' : tms_btid_add mok t r b st e rs = Some t' -> log_version t' = log_version t.
Proof. unfold tms_btid_add. intros H. repeat case_match; by simplify_eq. Qed.

Lemma addupd_version mok t r b st e rs y : tms_btid_addupd mok t r b st e rs = Some y ->
  log_version y.1.1 = log_version t.
Proof.
  unfold tms_btid_addupd. intros H. repeat case_match; simplify_eq; try done;
    apply bind_Some_inv in H as (t' & Ha%btid_add_version & [= <-]); unfold tms_btid_gettid in *; by simplify_eq.
Qed.

Lemma apply_version t x : is_info x = false -> log_version (apply_rec t x) = log_version t.
Proof.
  destruct x as [ts [| [n|r st e rs b]]]; intros H; [done|done|]. unfold apply_rec. cbn [fst snd].
  destruct (tms_btid_addupd _ _ _ _ _ _ _) as [y|] eqn:Hy; [|done]. by apply addupd_version in Hy.
Qed.

Lemma logged_version f l : logged f l -> log_version (replay l) = LOG_VERSION_2.
Proof.
  induction 1 as [[ts [| [] ]] ? Hi|? ? ? _ IH ? Hi|]; [done..| |done]. rewrite replay_snoc. by rewrite apply_version.
Qed.

Definition load_init : load_st :=
  {| ld_t := empty_log; infos_ok := false; got_term_last := false; missing_term_in_file := false |}.

Definition reading (l : list (Z * log_rec)) : load_st :=
  {| ld_t := replay l; infos_ok := true; got_term_last := true; missing_term_in_file := false |}.

Lemma load_loop_line fuel mok m rest s : line_text m ->
  load_loop (S fuel) mok (m ++ NL :: rest) s =
    match load_record mok (with_term s true) m with
    | LCont s => load_loop fuel mok rest s
    | LErr hk => Some (LErr hk)
    end.
Proof. intros Hm. cbn [load_loop]. rewrite fgets_line by done. by rewrite load_line_ended. Qed.

(** The records are applied one by one. *)
Lemma load_loop_logged f l : logged f l -> forall fuel tail, (length (f ++ tail) < fuel)%nat ->
  exists fuel', (length tail < fuel')%nat /\ load_loop fuel true (f ++ tail) load_init = load_loop fuel' true tail (reading l).
Proof.
  induction 1 as [x Hx Hi|f l x Hl IH Hx Hi|f l m Hl IH Hm]; intros fuel tail Hf; rewrite ?length_app in Hf.
  - rewrite log_text_body in * by done. rewrite length_app in Hf. cbn in Hf. destruct fuel as [|fuel]; [lia|].
    exists fuel. split; [lia|]. rewrite <-app_assoc. cbn [app]. rewrite load_loop_line by by apply body_line.
    rewrite load_record_body; [done|done|]. unfold expects. by rewrite Hi.
  - rewrite <-app_assoc. destruct (IH fuel (log_text LOG_VERSION_2 x.1 x.2 ++ tail)) as (f1 & H1 & ->).
    { rewrite !length_app. lia. }
    rewrite log_text_body in * by done. rewrite !length_app in H1. cbn in H1. destruct f1 as [|f1]; [lia|].
    exists f1. split; [lia|]. rewrite <-app_assoc. cbn [app]. rewrite load_loop_line by by apply body_line.
    rewrite load_record_body; [|done|split; [by rewrite Hi|intros _; by eapply logged_version]].
    unfold reading. by rewrite replay_snoc.
  - rewrite <-app_assoc. destruct (IH fuel ((m ++ [NL]) ++ tail)) as (f1 & H1 & ->).
    { rewrite !length_app. cbn [length]. cbn in Hf. lia. }
    rewrite !length_app in H1. cbn in H1. destruct f1 as [|f1]; [lia|]. exists f1. split; [lia|].
    rewrite <-app_assoc. cbn [app]. rewrite load_loop_line by apply Hm.
    rewrite load_record_junk; [done|done|]. by eapply logged_version.
Qed.

(** The end of the file, cut off inside a line or not. *)
Definition last_line (tail : list Z) : Prop := tail = [] \/ line_text tail.

Lemma load_loop_tail fuel mok tail s : (length tail < fuel)%nat -> last_line tail ->
  load_loop fuel mok tail s = Some (LCont (if bool_decide (tail = []) then s else with_term s false)).
Proof.
  intros Hf [->|Ht]; [by destruct fuel; [lia|]|]. rewrite bool_decide_false.
  2:{ intros ->. destruct Ht as [_ Ht]. cbn in Ht. lia. }
  assert (2 <= fuel)%nat by (destruct Ht; lia). destruct fuel as [|[|fuel]]; [lia..|].
  cbn [load_loop]. rewrite fgets_tail by done. by rewrite load_line_torn.
Qed.

(** *** Memory for the branches *)

Lemma addupd_mok t r b st e rs : tms_btid_addupd false t r b st e rs = tms_btid_addupd true t r b st e rs \/
  tms_btid_addupd false t r b st e rs = None.
Proof. unfold tms_btid_addupd. repeat case_match; auto. Qed.

Lemma parse_rmstatus_mok buf t : tms_parse_rmstatus false buf t = tms_parse_rmstatus true buf t \/
  tms_parse_rmstatus false buf t = None.
Proof.
  unfold tms_parse_rmstatus. destruct (TOKEN_READ buf) as [a|]; [|by left]. cbn.
  destruct (TOKEN_READ a.2) as [b|]; [|by left]. cbn. destruct (TOKEN_READ b.2) as [c|]; [|by left]. cbn.
  destruct (_ || _); [by left|]. destruct (TOKEN_READ c.2) as [d|]; [|by left]. cbn.
  destruct (TOKEN_READ d.2) as [e|]; [|by left]. cbn. destruct (TOKEN_READ e.2) as [g|]; [|by left]. cbn.
  destruct (addupd_mok (set_update t (atol a.1)) (atoi c.1)
    (match TOKEN_READ g.2 with Some h => atol h.1 | None => 0 end) (hd 0 d.1) (atoi e.1) (i16 (atoi g.1))) as [-> | ->]; auto.
Qed.

Lemma parse_record_mok cmd buf s : parse_record false cmd buf s = parse_record true cmd buf s \/
  parse_record false cmd buf s = LErr false.
Proof.
  unfold parse_record. destruct (_ || _); [by left|]. destruct (cmd =? LOG_COMMAND_STAGE_C); [by left|].
  destruct (cmd =? LOG_COMMAND_RMSTAT_C); [|by left].
  destruct (infos_ok s); [|by left]. destruct (parse_rmstatus_mok buf (ld_t s)) as [-> | ->]; auto.
Qed.

Lemma load_record_mok buf s : load_record false s buf = load_record true s buf \/ load_record false s buf = LErr false.
Proof.
  unfold load_record. destruct (split_at_char COLON buf) as [[a p]|]; [|by left].
  destruct (_ || _); [|apply parse_record_mok].
  destruct (split_at_char LOG_RS_SEP buf) as [[b rs]|]; [|by left]. destruct (_ =? _); [apply parse_record_mok|by left].
Qed.

(** Less memory makes loading fail or changes nothing. *)
Lemma load_loop_mok fuel mok : forall f s,
  load_loop fuel mok f s = load_loop fuel true f s \/ load_loop fuel mok f s = Some (LErr false).
Proof.
  destruct mok; [by left|]. induction fuel as [|fuel IH]; intros f s; [by left|]. cbn [load_loop].
  destruct (fgets f) as [[line rest]|]; [|by left].
  assert (load_line false s line = load_line true s line \/ load_line false s line = LErr false) as [-> | ->];
    [|destruct (load_line true s line); auto|by right].
  unfold load_line. destruct (negb _); [by left|apply load_record_mok].
Qed.

(** *** Lines cut off *)

Lemma crc_prefix x h rest : fmt_08lx (ndrx_Crc32_ComputeBuf 0 (message x)) = h ++ rest -> rest <> [] ->
  ndrx_Crc32_ComputeBuf 0 (message x) <> 0 ->
  default 0 (sscanf_lx h) <> ndrx_Crc32_ComputeBuf 0 (message x).
Proof.
  intros He Hr Hz. destruct (crc_digits x) as (ds & Hc & Hl & Hds & Hv). rewrite Hc in He.
  apply map_eq_app in He as (d1 & d2 & -> & <- & <-). apply Forall_app in Hds as [Hd1 Hd2].
  destruct d1 as [|d d1]; [cbn; congruence|]. rewrite length_app in Hl.
  rewrite sscanf_lx_digits by (done || lia). cbn [from_option id]. intros Heq.
  rewrite value_app, Heq in Hv. pose proof (value_acc 16 d2 (ndrx_Crc32_ComputeBuf 0 (message x)) ltac:(lia) Hd2) as Hb.
  pose proof (crc_range (message x)). destruct d2 as [|d' d2]; [done|]. cbn [length] in Hb.
  rewrite Nat2Z.inj_succ, Z.pow_succ_r in Hb by lia. pose proof (Z.pow_pos_nonneg 16 (Z.of_nat (length d2))). nia.
Qed.

(** A part of a line is a line. *)
Lemma body_cut x t b : rec_ok x -> body x = t ++ b -> t <> [] -> line_text t.
Proof.
  intros Hx He Hne. split.
  - pose proof (body_text x Hx) as Ht. rewrite He in Ht. by apply Forall_app in Ht as [Ht _].
  - pose proof (body_length x Hx) as Hl. rewrite He, length_app in Hl. destruct t; [done|]. cbn in *. lia.
Qed.

(** A line that is cut off behind its time stamp is a damaged line. *)
Lemma torn_junk x t b : rec_ok x -> body x = t ++ b -> b <> [] -> COLON ∈ t ->
  ndrx_Crc32_ComputeBuf 0 (message x) <> 0 -> junk t.
Proof.
  intros Hx He Hb Hc Hz. split; [|split; [done|]].
  - eapply body_cut; [done..|]. intros ->. by apply not_elem_of_nil in Hc.
  - unfold checksum_ok. pose proof (sep_notin_message x Hx) as Hs. unfold body in He.
    apply app_eq_app in He as (l & [[Hm Hr]|[-> Hr]]).
    + rewrite split_at_char_none; [done|]. rewrite Hm in Hs. intros Hin. apply Hs, elem_of_app. by left.
    + destruct l as [|c l]; [rewrite app_nil_r, split_at_char_none by done; done|]. rewrite <-app_comm_cons in Hr.
      injection Hr as <- Hr. rewrite split_at_char_app by done. apply Z.eqb_neq. intros Heq. symmetry in Heq. revert Heq.
      by eapply crc_prefix.
Qed.

Section Loading.

Context {E : Type}.
Variable write_line : E -> log_line -> E * bool.
Variable fsync : log_sync E.
Variable checkpointseq : E -> E * bool.

Local Abbreviation load := (tms_load_logfile write_line fsync checkpointseq).
Local Abbreviation resume := (resume write_line fsync checkpointseq).

Definition all_ok (le : load_env) : Prop :=
  calloc_ok le = true /\ name_ok le = true /\ setseq_ok le = true /\ open_ok le = true /\ fseek_ok le = true /\
  malloc_ok le = true /\ feof_ok le = true /\ term_ok le = true.

(** The file behind the repair of its last line. *)
Definition repaired (f tail : list Z) : list Z := f ++ tail ++ (if bool_decide (tail = []) then [] else [NL]).

Definition load_result (e : E) (t : tmlog) (f : list Z) : load_out :=
  LoadOk (resume e (tl t)) (with_tl' t (s_tl (resume e (tl t)))) f.

Lemma load_file le e f : all_ok le -> load le e f =
  r ← load_loop (S (length f)) true f load_init;
  Some (match r with LErr hk => LoadFail hk | LCont s => load_finish write_line fsync checkpointseq le e f s end).
Proof. intros (H1 & H2 & H3 & H4 & H5 & H6 & _). unfold tms_load_logfile. by rewrite H1, H2, H3, H4, H5, H6. Qed.

Lemma load_logged le e f l tail : all_ok le -> logged f l -> last_line tail ->
  load le e (f ++ tail) = Some (load_result e (replay l) (repaired f tail)).
Proof.
  intros Hle Hl Ht. rewrite load_file by done. destruct Hle as (_ & _ & _ & _ & _ & _ & Hf & Hte).
  destruct (load_loop_logged f l Hl (S (length (f ++ tail))) tail ltac:(lia)) as (fuel & Hfu & ->).
  rewrite load_loop_tail by done. cbn. unfold load_finish, repaired, load_result. rewrite Hf, Hte.
  destruct (bool_decide_reflect (tail = [])) as [->|]; cbn; [done|]. by rewrite <-app_assoc.
Qed.

Lemma repaired_nil f : repaired f [] = f.
Proof. unfold repaired. cbn. by rewrite app_nil_r. Qed.

Lemma repaired_line f t : line_text t -> repaired f t = f ++ t ++ [NL].
Proof.
  intros [_ Hl]. unfold repaired. rewrite bool_decide_false; [done|]. intros ->. cbn in Hl. lia.
Qed.

Lemma logged_file i l : rec_ok i -> is_info i = true -> Forall rec_ok l -> Forall (fun x => is_info x = false) l ->
  logged (file_of (i :: l)) (i :: l).
Proof.
  intros Hi Hii Hl Hli. unfold file_of. cbn [map concat].
  apply (logged_all _ [i] l); [by apply logged_info|done|done].
Qed.

Lemma load_whole le e f l : all_ok le -> logged f l -> load le e f = Some (load_result e (replay l) f).
Proof.
  intros Hle Hl. pose proof (load_logged le e f l [] Hle Hl (or_introl eq_refl)) as H.
  by rewrite app_nil_r, repaired_nil in H.
Qed.

(** C7: what is written to a log file is what is read back: a file of the
    records [i :: l], as [tms_log_write_line] formats them, the information
    first, loads to the transaction these records describe, with the file left
    alone. *)
Theorem log_roundtrip le e i l :
  all_ok le -> rec_ok i -> is_info i = true -> Forall rec_ok l -> Forall (fun x => is_info x = false) l ->
  load le e (file_of (i :: l)) = Some (load_result e (replay (i :: l)) (file_of (i :: l))).
Proof.
  intros Hle Hi Hii Hl Hli. apply load_whole; [done|]. by apply logged_file.
Qed.

(** *** Files that are refused *)

Lemma load_fails le e f : (forall mok, load_loop (S (length f)) mok f load_init = Some (LErr false)) ->
  load le e f = Some (LoadFail false).
Proof. intros Hl. unfold tms_load_logfile. destruct (negb _); [done|]. by rewrite Hl. Qed.

Lemma load_loop_fails fuel f : load_loop fuel true f load_init = Some (LErr false) ->
  forall mok, load_loop fuel mok f load_init = Some (LErr false).
Proof. intros Hl mok. destruct (load_loop_mok fuel mok f load_init) as [-> | ->]; done. Qed.

(** A line without a colon among those that have an end. *)
Lemma stamp_unreadable f l t : forall le e rest, logged f l -> line_text t -> COLON ∉ t ->
  load le e ((f ++ t ++ [NL]) ++ rest) = Some (LoadFail false).
Proof.
  intros le e rest Hl Ht Hc. apply load_fails, load_loop_fails. rewrite <-!app_assoc. cbn [app].
  destruct (load_loop_logged f l Hl (S (length (f ++ t ++ NL :: rest))) (t ++ NL :: rest) ltac:(lia)) as (fuel & Hf & ->).
  destruct fuel as [|fuel]; [lia|]. rewrite load_loop_line by done. unfold load_record.
  by rewrite split_at_char_none.
Qed.

(** C10: what a crash in the middle of a line does.  A line that is cut off
    behind a log of whole records, at whatever place, is passed over by the
    first load, which ends the line.  What later loads make of it, with further
    records behind it, depends on the place: cut off inside its time stamp it
    makes the log unreadable for good; cut off behind the time stamp, but not
    at its end, only this line is lost; and with nothing but its line end
    missing the line counts again.  The checksum of the line is not zero. *)
Theorem torn_line le le' e e' i l x t b more :
  all_ok le -> all_ok le' -> rec_ok i -> is_info i = true ->
  Forall rec_ok l -> Forall (fun x => is_info x = false) l ->
  rec_ok x -> is_info x = false -> body x = t ++ b -> t <> [] -> ndrx_Crc32_ComputeBuf 0 (message x) <> 0 ->
  Forall rec_ok more -> Forall (fun x => is_info x = false) more ->
  let f := file_of (i :: l) ++ t ++ [NL] in
  load le e (file_of (i :: l) ++ t) = Some (load_result e (replay (i :: l)) f) /\
  load le' e' (f ++ file_of more) =
    Some (if negb (bool_decide (COLON ∈ t)) then LoadFail false
          else if negb (bool_decide (b = [])) then load_result e' (replay (i :: l ++ more)) (f ++ file_of more)
          else load_result e' (replay (i :: l ++ x :: more)) (f ++ file_of more)).
Proof.
  intros Hle Hle' Hi Hii Hl Hli Hx Hxi Hb Hne Hz Hm Hmi f. pose proof (logged_file i l Hi Hii Hl Hli) as Hf.
  assert (line_text t) as Ht by by eapply body_cut.
  split; [subst f; rewrite <-repaired_line by done; apply load_logged; [done|done|by right]|].
  case_bool_decide as Hc; cbn [negb]; [|by apply (stamp_unreadable _ (i :: l))].
  case_bool_decide as Hb0; cbn [negb]; (apply load_whole; [done|]).
  - subst b f. rewrite app_nil_r in Hb. rewrite <-Hb, <-log_text_body by done.
    replace (i :: l ++ x :: more) with (((i :: l) ++ [x]) ++ more) by (cbn; by rewrite <-app_assoc).
    apply logged_all; [by apply logged_rec|done|done].
  - change (i :: l ++ more) with ((i :: l) ++ more). apply logged_all; [|done|done].
    apply logged_junk; [done|by eapply torn_junk].
Qed.

Lemma load_record_first s x : rec_ok x -> is_info x = false -> infos_ok s = false -> log_version (ld_t s) = 0 ->
  load_record true s (body x) = LErr true.
Proof.
  intros Hx Hi Hs Hv. unfold load_record. rewrite colon_body. cbn [hd]. rewrite Hs, Hv.
  destruct x as [ts [|[]]]; [done|..]; unfold parse_record; by rewrite Hs.
Qed.

Lemma load_record_twice s x : rec_ok x -> is_info x = true -> infos_ok s = true ->
  log_version (ld_t s) = LOG_VERSION_2 -> load_record true s (body x) = LErr true.
Proof.
  intros Hx Hi Hs Hv. unfold load_record. rewrite colon_body. cbn [hd]. rewrite Hv, orb_true_r.
  destruct (checksum_body x Hx) as [-> ->]. cbn [from_option id]. rewrite Z.eqb_refl.
  destruct x as [ts [|[]]]; [|done..]. unfold parse_record. by rewrite Hs.
Qed.

(** Files no transaction can be made of are refused and reported as ones to
    clean up: a file without any line, one that does not start with the
    information record, and one that has a second information record, whatever
    else is in it. *)
Theorem load_refuses le e f l x rest :
  all_ok le -> logged f l -> rec_ok x ->
  load le e [] = Some (LoadFail true) /\
  load le e (if is_info x then f ++ log_text LOG_VERSION_2 x.1 x.2 ++ rest
             else log_text LOG_VERSION_2 x.1 x.2 ++ rest) = Some (LoadFail true).
Proof.
  intros Hle Hl Hx. split.
  { rewrite load_file by done. destruct Hle as (_ & _ & _ & _ & _ & _ & Hf & _). cbn. unfold load_finish. by rewrite Hf. }
  rewrite load_file, log_text_body by done. destruct (is_info x) eqn:Hi; rewrite <-app_assoc; cbn [app].
  - destruct (load_loop_logged f l Hl (S (length (f ++ body x ++ NL :: rest))) (body x ++ NL :: rest) ltac:(lia))
      as (fuel & Hf & ->).
    destruct fuel as [|fuel]; [lia|]. rewrite load_loop_line by by apply body_line.
    by rewrite load_record_twice by (done || by eapply logged_version).
  - rewrite load_loop_line by by apply body_line. by rewrite load_record_first.
Qed.

End Loading.

(** ** A log *)

Module LogDemo.

Import DriveDemo.

Definition stamp (l : log_line) : Z * log_rec := (1700000000000, RLine l).
Definition joined (r : Z) : log_line := LOG_COMMAND_RMSTAT r XA_RM_STATUS_ACTIVE 0 0 0.
Definition prepared (r : Z) : log_line := LOG_COMMAND_RMSTAT r XA_RM_STATUS_PREP 0 XA_OK 0.

Definition l0 : list (Z * log_rec) :=
  (1699999999999, RInfo 1 2 3 60) :: map stamp [joined 1; joined 2; LOG_COMMAND_STAGE XA_TX_STAGE_PREPARING].
Definition f0 : list Z := file_of l0.

Definition rs1 : list (Z * log_rec) := map stamp [prepared 1; prepared 2; LOG_COMMAND_STAGE XA_TX_STAGE_COMMITTING].

Definition le_fine : load_env :=
  {| calloc_ok := true; name_ok := true; setseq_ok := true; open_ok := true; fseek_ok := true; malloc_ok := true;
     feof_ok := true; term_ok := true |}.

Lemma records_ok : Forall rec_ok (l0 ++ rs1).
Proof. repeat constructor; vm_compute; intuition discriminate. Qed.

Lemma f0_logged : logged f0 l0.
Proof.
  pose proof records_ok as H. apply Forall_app in H as [[H1 H2]%Forall_cons _].
  apply logged_file; [done|done|done|]. by repeat constructor.
Qed.

(** A line of the result of a commit call, cut off: [1700000000000:R:1] *)
Definition lost : Z * log_rec := stamp (LOG_COMMAND_RMSTAT 1 XA_RM_STATUS_COMMITTED 0 XA_OK 0).
Definition tail1 : list Z := take 17 (body lost).

(** [17]: cut off inside the time stamp. *)
Definition tail2 : list Z := take 2 (body lost).

Lemma tail1_junk : junk tail1.
Proof.
  apply (torn_junk lost tail1 (drop 17 (body lost))); [by repeat split|symmetry; apply take_drop|by vm_compute| |by vm_compute].
  by apply list_elem_of_lookup_2 with 13%nat.
Qed.

Local Abbreviation load := (tms_load_logfile ok_line fsync_on ok).
Local Abbreviation result := (load_result ok_line fsync_on ok tt).

Lemma fine : all_ok le_fine.
Proof. by repeat split. Qed.

Lemma log_roundtrip_witness : load le_fine tt (file_of l0) = Some (result (replay l0) (file_of l0)) /\
  txstage (tl (replay l0)) = XA_TX_STAGE_PREPARING /\ branches (tl (replay l0)) = [active 1; active 2].
Proof.
  pose proof records_ok as H. apply Forall_app in H as [[H1 H2]%Forall_cons _].
  split; [|done]. apply (log_roundtrip ok_line fsync_on ok le_fine tt (1699999999999, RInfo 1 2 3 60)); [exact fine|done|done|done|].
  by repeat constructor.
Defined.

(** Cut off inside its time stamp, behind it, and in front of its line end. *)
Lemma lost_parts n : body lost = take n (body lost) ++ drop n (body lost).
Proof. symmetry. apply take_drop. Qed.

Lemma torn_line_witness :
  load le_fine tt ((file_of l0 ++ tail2 ++ [NL]) ++ file_of rs1) = Some (LoadFail false) /\
  load le_fine tt ((file_of l0 ++ tail1 ++ [NL]) ++ file_of rs1) =
    Some (result (replay (l0 ++ rs1)) ((file_of l0 ++ tail1 ++ [NL]) ++ file_of rs1)) /\
  load le_fine tt ((file_of l0 ++ take 100 (body lost) ++ [NL]) ++ file_of rs1) =
    Some (result (replay (l0 ++ lost :: rs1)) ((file_of l0 ++ take 100 (body lost) ++ [NL]) ++ file_of rs1)).
Proof.
  pose proof records_ok as H. apply Forall_app in H as [[H1 H2]%Forall_cons H3].
  assert (Forall (fun x : Z * log_rec => is_info x = false) (tail l0)) as H4 by by repeat constructor.
  assert (Forall (fun x : Z * log_rec => is_info x = false) rs1) as H5 by by repeat constructor.
  assert (rec_ok lost) as H6 by by repeat split.
  assert (ndrx_Crc32_ComputeBuf 0 (message lost) <> 0) as H7 by (vm_compute; discriminate).
  split; [|split].
  - exact (proj2 (torn_line ok_line fsync_on ok le_fine le_fine tt tt (1699999999999, RInfo 1 2 3 60) (tail l0) lost
      _ _ rs1 fine fine H1 eq_refl H2 H4 H6 eq_refl (lost_parts 2) ltac:(discriminate) H7 H3 H5)).
  - exact (proj2 (torn_line ok_line fsync_on ok le_fine le_fine tt tt (1699999999999, RInfo 1 2 3 60) (tail l0) lost
      _ _ rs1 fine fine H1 eq_refl H2 H4 H6 eq_refl (lost_parts 17) ltac:(discriminate) H7 H3 H5)).
  - exact (proj2 (torn_line ok_line fsync_on ok le_fine le_fine tt tt (1699999999999, RInfo 1 2 3 60) (tail l0) lost
      _ _ rs1 fine fine H1 eq_refl H2 H4 H6 eq_refl (lost_parts 100) ltac:(discriminate) H7 H3 H5)).
Defined.

Lemma load_refuses_witness :
  load le_fine tt [] = Some (LoadFail true) /\
  load le_fine tt (f0 ++ log_text LOG_VERSION_2 0 (RInfo 1 2 3 60) ++ file_of rs1) = Some (LoadFail true).
Proof.
  apply (load_refuses ok_line fsync_on ok le_fine tt f0 l0 (0, RInfo 1 2 3 60) (file_of rs1) fine f0_logged). by repeat split.
Defined.

(** A record that lacks nothing but its line end is passed over by the first
    load, which aborts the transaction, and is taken by the second: when the
    abort could not be logged the two loads disagree about the outcome. *)
Definition no_line (e : unit) (_ : log_line) : unit * bool := (e, false).

Lemma unterminated_record_revived :
  let f := file_of (l0 ++ take 2 rs1) ++ body (stamp (LOG_COMMAND_STAGE XA_TX_STAGE_COMMITTING)) in
  exists s t f', tms_load_logfile no_line fsync_on ok le_fine tt f = Some (LoadOk s t f') /\
    txstage (s_tl s) = XA_TX_STAGE_ABORTING /\
    exists s2 t2, tms_load_logfile no_line fsync_on ok le_fine tt f' = Some (LoadOk s2 t2 f') /\
      txstage (s_tl s2) = XA_TX_STAGE_COMMITTING.
Proof.
  pose proof records_ok as H. apply Forall_app in H as [[H1 H2]%Forall_cons H3].
  assert (logged (file_of (l0 ++ take 2 rs1)) (l0 ++ take 2 rs1)) as Hl.
  { apply logged_file; [done|done| |by repeat constructor]. apply Forall_app. split; [done|by apply Forall_take]. }
  assert (rec_ok (stamp (LOG_COMMAND_STAGE XA_TX_STAGE_COMMITTING))) as Hx by by repeat split.
  eexists _, _, _. split; [apply load_logged; [exact fine|exact Hl|right; by apply body_line]|]. split; [by vm_compute|].
  rewrite repaired_line, <-log_text_body by by try apply body_line.
  eexists _, _. split; [apply load_whole; [exact fine|by apply logged_rec]|]. by vm_compute.
Qed.

End LogDemo.
