(* ===== verification/TmMirror.v ===== *)
(** * The log mirrors the transaction

    As long as no line is lost, the log file of a transaction tells at any time
    the stage and the status of every branch the server has in memory: reading
    it back ([TmLog.replay]) gives what the driver ([TmDrive]) works on. *)

From stdpp Require Import prelude.
From S2P Require Import Prelude CText Crc32 XaStates TmDrive TmLog.

(** ** The lines of a run *)

Definition log_lines (evs : list event) : list log_line :=
  omap (fun ev => match ev with EvWrite l true => Some l | _ => None end) evs.

(** No write failed. *)
Definition all_written (evs : list event) : Prop := forall l, EvWrite l false ∉ evs.

Definition apply_line (t : tmlog) (l : log_line) : tmlog := apply_rec t (0, RLine l).

(** What the log tells behind the events. *)
Definition after (t : tmlog) (evs : list event) : tmlog := fold_left apply_line (log_lines evs) t.

Lemma log_lines_app a b : log_lines (a ++ b) = log_lines a ++ log_lines b.
Proof. apply omap_app. Qed.

Lemma after_app t a b : after t (a ++ b) = after (after t a) b.
Proof. unfold after. by rewrite log_lines_app, fold_left_app. Qed.

Lemma all_written_app a b : all_written (a ++ b) <-> all_written a /\ all_written b.
Proof.
  split.
  - intros H. split; intros l Hl; apply (H l), elem_of_app; auto.
  - intros [Ha Hb] l [Hl|Hl]%elem_of_app; [by apply (Ha l)|by apply (Hb l)].
Qed.

(** ** Branches *)

Definition branch_id (b : atmi_xa_rm_status_btid_t) : Z * Z := (rmid b, btid b).
Definition branch_key (b : atmi_xa_rm_status_btid_t) : Z * Z * Z := (rmid b, btid b, rmstatus b).

Definition wf_branches (l : list atmi_xa_rm_status_btid_t) : Prop :=
  NoDup (map branch_id l) /\ Forall (fun b => btid b <> EXFAIL) l.

(** The log tells what is in memory. *)
Definition mirrors (t : tmlog) (x : atmi_xa_log_t) : Prop :=
  txstage (tl t) = txstage x /\ map branch_key (branches (tl t)) = map branch_key (branches x).

Lemma keys_ids l : map branch_id l = map fst (map branch_key l).
Proof. rewrite map_map. by apply map_ext. Qed.

Lemma same_branch_spec r i b : same_branch r i b = true <-> branch_id b = (r, i).
Proof. unfold same_branch, branch_id. split; [intros H; f_equal; lia|intros [= <- <-]; lia]. Qed.

Lemma find_branch r i l b : b ∈ l -> branch_id b = (r, i) -> is_Some (List.find (same_branch r i) l).
Proof.
  intros Hin Hb. induction l as [|x l IH]; [by apply not_elem_of_nil in Hin|]. cbn.
  destruct (same_branch r i x) eqn:Hx; [by eexists|]. apply elem_of_cons in Hin as [<-|Hin]; [|auto].
  apply same_branch_spec in Hb. congruence.
Qed.

Lemma set_status_other r i st e rs l : (r, i) ∉ map branch_id l -> map (set_status r i st e rs) l = l.
Proof.
  induction l as [|b l IH]; intros Hn; [done|]. cbn in *. apply not_elem_of_cons in Hn as [Hb Hn].
  rewrite IH by done. f_equal. unfold set_status. destruct (same_branch r i b) eqn:Hs; [|done].
  apply same_branch_spec in Hs. congruence.
Qed.

(** The effect of a status line. *)
Lemma apply_status t pre k post st e rs :
  map branch_key (branches (tl t)) = pre ++ k :: post -> NoDup (map fst (pre ++ k :: post)) ->
  k.1.2 <> EXFAIL -> st <> XA_RM_STATUS_NULL ->
  map branch_key (branches (tl (apply_line t (LOG_COMMAND_RMSTAT k.1.1 st e rs k.1.2)))) = pre ++ (k.1, st) :: post /\
  txstage (tl (apply_line t (LOG_COMMAND_RMSTAT k.1.1 st e rs k.1.2))) = txstage (tl t).
Proof.
  intros Hk Hnd Hb Hst. destruct k as [[r i] s0]. cbn in *.
  apply map_eq_app in Hk as (b1 & b2 & Hbs & <- & Hk). apply map_eq_cons in Hk as (b & b3 & -> & Hb0 & <-).
  unfold apply_line, apply_rec, tms_btid_addupd. cbn [fst snd]. rewrite (proj2 (Z.eqb_neq _ _) Hb).
  unfold tms_btid_find. cbn [tl set_update]. rewrite Hbs.
  assert (branch_id b = (r, i)) as Hid by (unfold branch_key in Hb0; unfold branch_id; congruence).
  destruct (find_branch r i (b1 ++ b :: b3) b) as [y ->]; [apply elem_of_app; right; by left|done|].
  rewrite (proj2 (Z.eqb_neq _ _) Hst). cbn. split; [|done].
  rewrite map_app in Hnd. cbn in Hnd. rewrite <-!keys_ids in Hnd.
  apply NoDup_app in Hnd as (_ & Hn1 & [Hn2 _]%NoDup_cons).
  rewrite map_app. cbn [map]. rewrite !set_status_other, map_app; [|done|intros H1; apply (Hn1 _ H1); by left].
  cbn [map]. do 2 f_equal. unfold set_status. rewrite (proj2 (same_branch_spec r i b) Hid).
  unfold branch_key. cbn. unfold branch_id in Hid. congruence.
Qed.

(** ** A round of the driver *)

Lemma row_status stage t r : OP_TABLE_SWITCH stage = Some t -> r ∈ t -> next_rmstatus r <> XA_RM_STATUS_NULL.
Proof.
  intros Ht Hr. assert (forallb (fun r => negb (next_rmstatus r =? 0)) t = true) as Hall.
  { unfold OP_TABLE_SWITCH in Ht. repeat case_match; simplify_eq; by vm_compute. }
  rewrite forallb_forall in Hall. rewrite list_elem_of_In in Hr. specialize (Hall r Hr). unfold XA_RM_STATUS_NULL. lia.
Qed.

Lemma log_lines_rm stage el evs : Forall (rm_event stage el) evs -> log_lines evs = [].
Proof. induction 1 as [|ev evs (_ & ret & reason & ->) _ IH]; [done|exact IH]. Qed.

(** One branch: its line, if any, makes the log follow. *)
Lemma voted_mirrors stage el el' evs ov t pre post :
  voted true stage el el' evs ov -> all_written evs -> btid el <> EXFAIL ->
  map branch_key (branches (tl t)) = pre ++ branch_key el :: post -> NoDup (map fst (pre ++ branch_key el :: post)) ->
  map branch_key (branches (tl (after t evs))) = pre ++ branch_key el' :: post /\
  txstage (tl (after t evs)) = txstage (tl t) /\ branch_id el' = branch_id el.
Proof.
  intros Hv Hw Hb Hk Hnd. destruct Hv as [| |el' ret reason r v ws Hop Hr Hst Hid Hbt _ Hws]; [done..|].
  apply by_op_row in Hr as (tb & Htb & Hin & _).
  assert (branch_id el' = branch_id el) as Hids by (unfold branch_id; congruence).
  destruct Hws as [[-> Heq]|(e & rs & ok & ->)].
  - split; [|done]. unfold after. cbn. rewrite Hk. do 2 f_equal. unfold branch_key. destruct Heq; [congruence|done].
  - destruct ok; [|by destruct (Hw _ ltac:(right; left))]. unfold after. cbn [log_lines omap list_omap fold_left].
    destruct (apply_status t pre (branch_key el) post (rmstatus el') e rs Hk Hnd Hb) as [H1 H2].
    { rewrite Hst. by eapply row_status. }
    cbn in H1, H2. split; [|split; [exact H2|done]]. etrans; [exact H1|]. do 2 f_equal. unfold branch_key. congruence.
Qed.

Lemma voted_all_mirrors d stage l l' evs vs x : voted_all true d stage l l' evs vs x -> forall t pre,
  all_written evs -> Forall (fun b => btid b <> EXFAIL) l ->
  map branch_key (branches (tl t)) = pre ++ map branch_key l -> NoDup (map fst (pre ++ map branch_key l)) ->
  map branch_key (branches (tl (after t evs))) = pre ++ map branch_key l' /\
  txstage (tl (after t evs)) = txstage (tl t) /\ map branch_id l' = map branch_id l.
Proof.
  induction 1 as [|el l evs Hev|el el' l evs ov Hv|el el' l evs v Hv _|el el' l l' evs evs' ov vs x Hv _ _ IH];
    intros t pre Hw Hb Hk Hnd; [done|unfold after; by rewrite (log_lines_rm _ _ _ Hev)|..];
    apply Forall_cons in Hb as [Hb1 Hb2].
  - destruct (voted_mirrors _ _ _ _ _ t pre _ Hv Hw Hb1 Hk Hnd) as (H1 & H2 & H3). cbn. by rewrite H1, H2, H3.
  - destruct (voted_mirrors _ _ _ _ _ t pre _ Hv Hw Hb1 Hk Hnd) as (H1 & H2 & H3). cbn. by rewrite H1, H2, H3.
  - apply all_written_app in Hw as [Hw1 Hw2].
    destruct (voted_mirrors _ _ _ _ _ t pre _ Hv Hw1 Hb1 Hk Hnd) as (H1 & H2 & H3).
    assert (map fst (pre ++ branch_key el :: map branch_key l) =
            map fst ((pre ++ [branch_key el']) ++ map branch_key l)) as Hf.
    { rewrite <-app_assoc, !map_app. cbn. f_equal. f_equal. exact (eq_sym H3). }
    destruct (IH (after t evs) (pre ++ [branch_key el']) Hw2 Hb2) as (H4 & H5 & H6).
    { rewrite H1, <-app_assoc. done. }
    { cbn in Hnd. by rewrite Hf in Hnd. }
    rewrite after_app, H4, H5, H2, <-app_assoc. cbn. by rewrite H3, H6.
Qed.

(** *** Switching *)

Lemma next_stage_idem s n : next_stage (next_stage s n) n = next_stage s n.
Proof. unfold next_stage. repeat case_match; congruence. Qed.

Lemma after_stages k n t : tl (after t (replicate (S k) (EvWrite (LOG_COMMAND_STAGE n) true))) =
  set_stage (tl t) (next_stage (txstage (tl t)) n).
Proof.
  revert t. induction k as [|k IH]; intros t; [done|].
  change (replicate (S (S k)) (EvWrite (LOG_COMMAND_STAGE n) true)) with
    ([EvWrite (LOG_COMMAND_STAGE n) true] ++ replicate (S k) (EvWrite (LOG_COMMAND_STAGE n) true)).
  rewrite after_app, IH. cbn. by rewrite next_stage_idem.
Qed.

Lemma after_quiet t evs ev : log_lines [ev] = [] -> after t (evs ++ [ev]) = after t evs.
Proof. intros H. rewrite after_app. unfold after at 1. by rewrite H. Qed.

(** What is logged for a switch, if no write failed. *)
Lemma stage_io_after n ws ok t : stage_io true n ws ok -> all_written ws ->
  tl (after t ws) = set_stage (tl t) (next_stage (txstage (tl t)) n) \/
  (n = XA_TX_STAGE_COMMITTING /\ ok = false /\ after t ws = t).
Proof.
  assert (exists k, w_cnt n = S k) as [k Hk] by (unfold w_cnt; destruct (_ =? _); eauto).
  destruct 1 as [|j _ _| |k' ok Hn _]; intros Hw.
  - right. done.
  - destruct (Hw (LOG_COMMAND_STAGE n)). apply elem_of_app. right. by left.
  - left. rewrite Hk. apply after_stages.
  - left. rewrite Hk, after_quiet by done. apply after_stages.
Qed.

Lemma switched_mirrors stage n evs stage' t : switched true stage n evs stage' true -> all_written evs ->
  (in_abort_range stage = true -> in_abort_range n = true) -> txstage (tl t) = stage ->
  tl (after t evs) = set_stage (tl t) stage'.
Proof.
  intros Hsw Hw Hab <-. assert (next_stage (txstage (tl t)) n = n) as Hn.
  { unfold next_stage. destruct (in_abort_range (txstage (tl t))); [by rewrite Hab|done]. }
  inversion Hsw as [ws ok H1 Hio|ws H1 Hio|ws ws' H1 Hio Hio'|]; subst.
  - apply all_written_app in Hw as [Hw _]. rewrite after_quiet by done.
    destruct (stage_io_after _ _ _ t Hio Hw) as [->|(? & _)]; [by rewrite Hn|done].
  - apply all_written_app in Hw as [Hw _]. rewrite after_quiet by done.
    destruct (stage_io_after _ _ _ t Hio Hw) as [->|(_ & ? & _)]; [by rewrite Hn|done].
  - apply all_written_app in Hw as [[Hw _]%all_written_app [Hw' _]%all_written_app].
    rewrite after_app, !after_quiet by done.
    destruct (stage_io_after _ _ _ (after t ws) Hio' Hw') as [->|(? & _)]; [|done].
    rewrite next_stage_abort. destruct (stage_io_after _ _ _ t Hio Hw) as [->|(_ & _ & ->)]; done.
Qed.

(** *** Rounds and runs *)

Lemma keys_wf l l' : map branch_id l' = map branch_id l -> wf_branches l -> wf_branches l'.
Proof.
  intros Hid [Hnd Hb]. split; [by rewrite Hid|].
  assert (Forall (fun k : Z * Z => k.2 <> EXFAIL) (map branch_id l')) as H by (rewrite Hid; apply Forall_map; exact Hb).
  exact (proj1 (Forall_map _ _ _) H).
Qed.

Lemma abort_closed stage d n : xa_stage_get_descr stage = Some d -> n ∈ next_stages d ->
  in_abort_range stage = true -> in_abort_range n = true.
Proof.
  intros Hd Hn. destruct (descr_check (fun _ => true) _ _ eq_refl Hd) as [_ Hs].
  pose proof (next_check (fun d n => negb (in_abort_range (sd_txstage d)) || in_abort_range n) _ _ _ eq_refl Hd Hn) as Hc.
  cbv beta in Hc. rewrite Hs in Hc. intros H. by rewrite H in Hc.
Qed.

(** The transaction in memory and what the log tells of it. *)
Definition tracked (t : tmlog) (x : atmi_xa_log_t) : Prop :=
  mirrors t x /\ wf_branches (branches x) /\ f_open x = true.

Lemma branches_tracked t x d l' evs vs lx : tracked t x ->
  voted_all true d (txstage x) (branches x) l' evs vs lx -> all_written evs ->
  tracked (after t evs) (set_branches x l').
Proof.
  intros ([Hst Hk] & [Hnd Hb] & Hfo) Hall Hw.
  destruct (voted_all_mirrors _ _ _ _ _ _ _ Hall t [] Hw Hb Hk) as (H1 & H2 & H3).
  { cbn. by rewrite <-keys_ids. }
  split; [|split; [by apply (keys_wf (branches x))|done]]. split; [by rewrite H2|exact H1].
Qed.

Section Runs.

Context {E : Type}.
Variable rm_call : E -> Z -> Z -> Z -> E * (Z * Z * Z).
Variable write_line : E -> log_line -> E * bool.
Variable fsync : log_sync E.
Variable checkpointseq : E -> E * bool.
Variable growlist : E -> E * bool.
Variable xa_retries : Z.

Local Abbreviation drive := (tm_drive rm_call write_line fsync checkpointseq growlist xa_retries).
Local Abbreviation drives := (drives rm_call write_line fsync checkpointseq growlist xa_retries).

(** [s'] is behind [s], and the log follows if no write failed. *)
Definition followed (s s' : st E) : Prop :=
  exists evs, s_trace s' = s_trace s ++ evs /\
    forall t, tracked t (s_tl s) -> all_written evs -> tracked (after t evs) (s_tl s').

Lemma followed_refl s : followed s s.
Proof. exists []. split; [by rewrite app_nil_r|done]. Qed.

Lemma followed_trans s1 s2 s3 : followed s1 s2 -> followed s2 s3 -> followed s1 s3.
Proof.
  intros (a & Ha & H1) (b & Hb & H2). exists (a ++ b). split; [by rewrite Hb, Ha, app_assoc|].
  intros t Ht [Hwa Hwb]%all_written_app. rewrite after_app. auto.
Qed.

Lemma round_followed flags try s s' r : f_open (s_tl s) = true -> round_out xa_retries flags try s s' r ->
  r <> inr DExit -> followed s s' /\ f_open (s_tl s') = true.
Proof.
  intros Hfo Hr Hx. destruct Hr as [_ ->|d l' evs vs Hd Hall Htl Htr|d l' evs vs r Hd Hall _ Htl Htr _
    |d l' evs vs x n sw stage' ok r Hd Hall Hdec Hne Hsw Htl Htr Hr]; rewrite ?Htl; try rewrite Hfo in Hall.
  - split; [apply followed_refl|done].
  - split; [|done]. exists evs. split; [done|]. intros t Ht Hw. rewrite Htl. by eapply branches_tracked.
  - split; [|done]. exists evs. split; [done|]. intros t Ht Hw. rewrite Htl. by eapply branches_tracked.
  - split; [|done]. exists (evs ++ sw). split; [done|]. intros t Ht [Hw1 Hw2]%all_written_app.
    assert (ok = true) as -> by (destruct Hr as [[_ ->]|[[-> _]|[-> _]]]; done). rewrite Hfo in Hsw.
    destruct (decided_next _ _ _ _ _ _ _ _ Hd Hall Hdec) as (Hn & _).
    destruct (branches_tracked _ _ _ _ _ _ _ Ht Hall Hw1) as ([Hs Hk] & Hwf & _).
    pose proof (switched_mirrors _ _ _ _ (after t evs) Hsw Hw2 (abort_closed _ _ _ Hd Hn) Hs) as Hm.
    rewrite after_app, Htl. split; [|done]. split; rewrite Hm; [done|exact Hk].
Qed.

Lemma drive_loop_followed fuel s flags try s' e : f_open (s_tl s) = true ->
  drive_loop rm_call write_line fsync checkpointseq growlist xa_retries fuel s flags try = Some (s', e) ->
  e <> DExit -> followed s s' /\ f_open (s_tl s') = true.
Proof.
  intros Hfo He. refine (drive_loop_inv _ _ _ _ _ _ flags (fun s1 => followed s s1 /\ f_open (s_tl s1) = true)
    (fun s1 e1 => e1 <> DExit -> followed s s1 /\ f_open (s_tl s1) = true) _ _ fuel s try s' e _ He).
  - intros s1 t1 s2 t2 [H1 H2] Hr. destruct (round_followed _ _ _ _ _ H2 Hr ltac:(done)) as [H3 H4].
    split; [by eapply followed_trans|done].
  - intros s1 t1 s2 e2 [H1 H2] Hr Hx. destruct (round_followed _ _ _ _ _ H2 Hr ltac:(congruence)) as [H3 H4].
    split; [by eapply followed_trans|done].
  - split; [apply followed_refl|done].
Qed.

Lemma followed_emit s s' ev : log_lines [ev] = [] -> followed s s' -> followed s (emit s' ev).
Proof.
  intros Hev (evs & Htr & H). exists (evs ++ [ev]). cbn. split; [by rewrite Htr, app_assoc|].
  intros t Ht [Hw _]%all_written_app. rewrite after_quiet by done. auto.
Qed.

Lemma followed_background s s' : followed s s' -> followed s (with_tl s' (set_background (s_tl s'))).
Proof. intros (evs & Htr & H). exists evs. split; [done|]. intros t Ht Hw. exact (H t Ht Hw). Qed.

Lemma tm_drive_followed fuel s op flags o : f_open (s_tl s) = true -> drive fuel s op flags = Some o ->
  d_exited o = false -> followed s (d_st o) /\ f_open (s_tl (d_st o)) = true.
Proof.
  intros Hfo. unfold tm_drive, drive_result. intros ([s' e] & He & [= <-])%bind_Some_inv. cbn [fst snd].
  intros Hx. destruct (drive_loop_followed _ _ _ _ _ _ Hfo He) as [H1 H2]; [by destruct e|].
  destruct e as [d|ret|]; cbn in *; [destruct (_ && _)|..]; cbn in *; try done;
    (split; [apply followed_emit; [done|]|done]); [done|by apply followed_background..].
Qed.

Lemma drives_followed s s' : drives s s' -> f_open (s_tl s) = true -> followed s s' /\ f_open (s_tl s') = true.
Proof.
  induction 1 as [|s1 e op flags o _ IH Ho Hx]; intros Hfo; [split; [apply followed_refl|done]|].
  destruct (IH Hfo) as [H1 H2]. destruct (tm_drive_followed _ (with_env s1 e) _ _ _ H2 Ho Hx) as [H3 H4].
  split; [by eapply followed_trans|done].
Qed.

(** C8: the log file mirrors the transaction: whatever the resource managers
    and the devices answer, behind any number of runs of the driver that the
    process survived, the log tells the stage and the status of every branch
    the server has in memory, if it did so before and no write failed. *)
Theorem log_mirrors_memory s s' t tr :
  drives s s' -> s_trace s' = s_trace s ++ tr -> all_written tr ->
  f_open (s_tl s) = true -> wf_branches (branches (s_tl s)) -> mirrors t (s_tl s) ->
  mirrors (after t tr) (s_tl s').
Proof.
  intros Hd Htr Hw Hfo Hwf Hm. destruct (drives_followed _ _ Hd Hfo) as [(evs & Hevs & H) _].
  rewrite Htr in Hevs. apply app_inv_head in Hevs as <-. by apply H.
Qed.

End Runs.

(** ** A commit, mirrored *)

Module MirrorDemo.

Import DriveDemo LogDemo.

Lemma all_written_check evs :
  forallb (fun ev => match ev with EvWrite _ false => false | _ => true end) evs = true -> all_written evs.
Proof. rewrite forallb_forall. intros H l Hin%list_elem_of_In. by specialize (H _ Hin). Qed.

Lemma log_mirrors_memory_witness :
  txstage (s_tl (d_st committed)) = XA_TX_STAGE_COMMITTED /\
  mirrors (after (replay l0) (s_trace (d_st committed))) (s_tl (d_st committed)).
Proof.
  split; [by vm_compute|].
  apply (log_mirrors_memory rm_fine ok_line fsync_on ok ok 3 (start XA_TX_STAGE_PREPARING) (d_st committed) (replay l0)
    (s_trace (d_st committed))).
  - exact (drives_more _ _ _ _ _ _ _ _ tt XA_OP_COMMIT 0 committed (drives_none _ _ _ _ _ _ _) committed_run eq_refl).
  - symmetry. apply app_nil_l.
  - apply all_written_check. by vm_compute.
  - done.
  - split; [|by repeat constructor]. apply NoDup_ListNoDup. repeat constructor; cbn; intuition discriminate.
  - done.
Defined.

End MirrorDemo.
