(* ===== verification/TmCrash.v ===== *)
(** * Crashes and recovery

    The transaction manager across crashes: the driver runs, the process dies
    at some point of its run, what the disk kept of the log file is loaded
    again and the driver goes on.  The driver ([TmDrive]) and the log file
    ([TmLog]) are put together here. *)

From stdpp Require Import prelude.
From S2P Require Import Prelude CText Crc32 XaStates TmDrive TmLog.

(** ** What the disk keeps

    A line that was written is on disk for certain once a synchronisation of
    the file succeeded behind it.  Other lines, also those whose write was
    reported as failed, may or may not be there.  [disk]: the setting asks for
    FSYNC or FDATASYNC; without, nothing is certain. *)

Definition synced (a : list event) : bool :=
  existsb (fun ev => match ev with EvSync true => true | _ => false end) a.

(** The lines written in a run, and which of them are certain. *)
Fixpoint writes (disk : bool) (a : list event) : list (log_line * bool) :=
  match a with
  | [] => []
  | EvWrite l ok :: a => (l, disk && ok && synced a) :: writes disk a
  | _ :: a => writes disk a
  end.

Inductive survive : list (log_line * bool) -> list log_line -> Prop :=
  | survive_nil : survive [] []
  | survive_keep l must ws sv : survive ws sv -> survive ((l, must) :: ws) (l :: sv)
  | survive_lose l ws sv : survive ws sv -> survive ((l, false) :: ws) sv.

(** ** The stage a log tells *)

Definition line_stage (n : Z) (l : log_line) : Z :=
  match l with LOG_COMMAND_STAGE m => next_stage n m | LOG_COMMAND_RMSTAT _ _ _ _ _ => n end.

Definition stage_after (n : Z) (sv : list log_line) : Z := fold_left line_stage sv n.

Lemma btid_add_tl mok t r b st e rs t' : tms_btid_add mok t r b st e rs = Some t' ->
  txstage (tl t') = txstage (tl t) /\ f_open (tl t') = f_open (tl t).
Proof. unfold tms_btid_add. intros H. repeat case_match; by simplify_eq. Qed.

Lemma addupd_tl mok t r b st e rs y : tms_btid_addupd mok t r b st e rs = Some y ->
  txstage (tl y.1.1) = txstage (tl t) /\ f_open (tl y.1.1) = f_open (tl t).
Proof.
  unfold tms_btid_addupd. intros H. repeat case_match; simplify_eq; try done;
    apply bind_Some_inv in H as (t' & Ha%btid_add_tl & [= <-]); unfold tms_btid_gettid in *; by simplify_eq.
Qed.

Lemma apply_line_stage t ts l : txstage (tl (apply_rec t (ts, RLine l))) = line_stage (txstage (tl t)) l.
Proof.
  destruct l as [n|r st e rs b]; [done|]. unfold apply_rec. cbn [fst snd].
  destruct (tms_btid_addupd _ _ _ _ _ _ _) as [y|] eqn:Hy; [|done]. by apply addupd_tl in Hy as [Hy _].
Qed.

Lemma apply_open t x : f_open (tl (apply_rec t x)) = f_open (tl t).
Proof.
  destruct x as [ts [|[n|r st e rs b]]]; [done..|]. unfold apply_rec. cbn [fst snd].
  destruct (tms_btid_addupd _ _ _ _ _ _ _) as [y|] eqn:Hy; [|done]. by apply addupd_tl in Hy as [_ Hy].
Qed.

Lemma replay_open l : f_open (tl (replay l)) = true.
Proof. induction l as [|x l IH] using rev_ind; [done|]. by rewrite replay_snoc, apply_open. Qed.

Lemma replay_stage l rs : forall sv, map snd rs = map RLine sv ->
  txstage (tl (replay (l ++ rs))) = stage_after (txstage (tl (replay l))) sv.
Proof.
  induction rs as [|[ts r] rs IH] using rev_ind; intros sv Hsv.
  - destruct sv; [by rewrite app_nil_r|done].
  - destruct sv as [|x sv _] using rev_ind; [by rewrite map_app in Hsv; destruct rs|].
    rewrite !map_app in Hsv. apply app_inj_2 in Hsv as [Hsv Hx]; [|done]. injection Hx as ->.
    rewrite app_assoc, replay_snoc, apply_line_stage, (IH sv Hsv). unfold stage_after. by rewrite fold_left_app.
Qed.

(** ** Runs and what they leave *)

Lemma step_low p ev q : protocol_step true p ev = Some q -> p = Idle \/ p = Doomed \/ p = Aborting ->
  (q = Idle \/ q = Doomed \/ q = Aborting) /\ (forall l ok n, ev = EvWrite l ok -> n < 50 -> line_stage n l < 50).
Proof.
  assert (forall n m, n < 50 -> m < 50 -> next_stage n m < 50) as Hn.
  { intros n m ? ?. unfold next_stage. by repeat case_match. }
  intros Hs [-> | [-> | ->] ]; destruct ev as [o i b t c|[n|? ? ? ? ?] k|k|n k| |]; cbn in Hs; repeat case_match; simplify_eq;
    (split; [auto|]); intros l ok n' [= <- <-] Hl; cbn; try apply Hn; try done;
    unfold XA_TX_STAGE_NULL, XA_TX_STAGE_ABORTING, XA_TX_STAGE_PREPARING in *; lia.
Qed.

(** A run that cannot decide to commit leaves no decision to commit. *)
Lemma run_low a : forall p q n sv, protocol true p a = Some q -> p = Idle \/ p = Doomed \/ p = Aborting ->
  survive (writes true a) sv -> n < 50 -> stage_after n sv < 50.
Proof.
  induction a as [|ev a IH]; intros p q n sv Hp Hlow Hs Hn; cbn in Hp; [by inversion Hs|].
  apply bind_Some_inv in Hp as (p1 & H1 & Hp). destruct (step_low _ _ _ H1 Hlow) as [Hlow' Hw].
  destruct ev as [o i b t c|l ok|k|m k| |]; cbn [writes] in Hs; try by eapply IH.
  inversion Hs; subst; [|by eapply IH]. eapply (IH _ _ (line_stage n l)); [done..|]. by eapply Hw.
Qed.

(** A run that has decided to commit leaves this decision. *)
Lemma run_high a : forall q n sv, protocol true Committing a = Some q ->
  survive (writes true a) sv -> 50 <= n -> 50 <= stage_after n sv.
Proof.
  induction a as [|ev a IH]; intros q n sv Hp Hs Hn; cbn [protocol] in Hp; [by inversion Hs|].
  apply bind_Some_inv in Hp as (p1 & H1 & Hp).
  assert (p1 = Committing) as -> by (destruct ev as [o i b t c|[m|? ? ? ? ?] k|k|m k| |]; cbn in H1; by repeat case_match; simplify_eq).
  destruct ev as [o i b t c|l ok|k|m k| |]; cbn [writes] in Hs; try by eapply IH.
  inversion Hs; subst; [|by eapply IH]. eapply (IH _ (line_stage n l)); [done..|].
  destruct l as [m|]; cbn in *; [|done]. case_match; [|done]. unfold next_stage, in_abort_range.
  unfold XA_TX_STAGE_COMMITTING, XA_TX_STAGE_ABORTING, XA_TX_STAGE_ABFORGOT_HEU in *. repeat case_match; lia.
Qed.

(** What the log may tell at a point of a run that starts undecided; [a] is
    the rest of the run. *)
Definition told (p : phase) (n : Z) (a : list event) : Prop :=
  match p with
  | Idle | Doomed | Aborting => n < 50
  | Undecided => 40 <= n <= 41
  | Written => n = 50 \/ synced a = false
  | Synced => n = 50
  | Unwritten | Doubtful => True
  | DoubtWritten => in_abort_range n = true \/ synced a = false
  | DoubtSynced => in_abort_range n = true
  | Committing => 50 <= n
  end.

Definition settled (p : phase) : bool := match p with Idle | Doomed | Aborting | Committing => true | _ => false end.

Lemma abort_low n : in_abort_range n = true -> n < 50.
Proof. unfold in_abort_range, XA_TX_STAGE_ABORTING, XA_TX_STAGE_ABFORGOT_HEU. lia. Qed.

Lemma next_stage_open n m : 40 <= n <= 41 -> next_stage n m = m.
Proof.
  intros Hn. unfold next_stage, in_abort_range, XA_TX_STAGE_ABORTING, XA_TX_STAGE_ABFORGOT_HEU.
  by replace ((20 <=? n) && (n <=? 38)) with false by lia.
Qed.

(** A step that writes nothing. *)
Lemma told_silent p ev q n a : protocol_step true p ev = Some q -> settled p = false -> told p n (ev :: a) ->
  (forall l ok, ev <> EvWrite l ok) -> told q n a.
Proof.
  intros Hs Hp Ht Hw.
  destruct p; try discriminate; destruct ev as [o i b t c|l k| [] |m [] | |]; try (by destruct (Hw l k));
    cbn in Hs; repeat case_match; simplify_eq; cbn in *; try done; try lia; try tauto; try by apply abort_low.
  all: intuition (try done; try lia).
Qed.

(** A step that writes a line, which is kept or lost. *)
Lemma told_write p l ok q n a : protocol_step true p (EvWrite l ok) = Some q -> settled p = false ->
  told p n (EvWrite l ok :: a) ->
  told q (line_stage n l) a /\ (ok && synced a = false -> told q n a).
Proof.
  intros Hs Hp Ht. destruct p; try discriminate; destruct l as [m|? ? ? ? ?]; cbn in Hs; repeat case_match; simplify_eq;
    repeat match goal with H : (m =? _) = true |- _ => apply Z.eqb_eq in H; subst m end; cbn in *;
    rewrite ?next_stage_abort; try rewrite next_stage_open by lia; try (split; [|intros Hm]); try done; try lia;
    unfold XA_TX_STAGE_ABORTING, XA_TX_STAGE_PREPRO in *; auto; try lia.
Qed.

(** What is on disk agrees with what the resource managers were told. *)
Lemma run_told a : forall p q n sv, protocol true p a = Some q -> told p n a -> survive (writes true a) sv ->
  (called XA_OP_COMMIT a -> 50 <= stage_after n sv) /\ (called XA_OP_ROLLBACK a -> stage_after n sv < 50).
Proof.
  induction a as [|ev a IH]; intros p q n sv Hp Ht Hs; [by split; intros H%called_nil|].
  destruct (settled p) eqn:Hset.
  { destruct (decide (p = Committing)) as [->|Hnc].
    - split; [intros _; by eapply run_high|]. by destruct (protocol_no_rollback _ _ _ _ Hp eq_refl).
    - assert (p = Idle \/ p = Doomed \/ p = Aborting) as Hlow by (destruct p; auto; done).
      assert (no_commit p = true) as Hn by by destruct Hlow as [-> | [-> | ->] ].
      split; [by destruct (protocol_no_commit _ _ _ _ Hp Hn)|]. intros _. eapply run_low; [done..|].
      by destruct Hlow as [-> | [-> | ->] ]. }
  pose proof Hp as Hp0. cbn in Hp. apply bind_Some_inv in Hp as (p1 & H1 & Hp).
  assert (forall op, op = XA_OP_COMMIT \/ op = XA_OP_ROLLBACK -> called op (ev :: a) -> called op a) as Hcall.
  { intros op Hop [(? & ? & ? & ? & ->)|?]%called_cons; [|done]. by destruct p, Hop as [-> | ->]. }
  assert (exists n' sv', told p1 n' a /\ survive (writes true a) sv' /\ stage_after n sv = stage_after n' sv')
    as (n' & sv' & Ht' & Hs' & ->).
  { destruct ev as [o i b t c|l ok|k|m k| |];
      try (exists n, sv; split; [by eapply told_silent|by split]).
    destruct (told_write _ _ _ _ _ _ H1 Hset Ht) as [Hk Hl]. cbn in Hs. inversion Hs as [|? ? ? sv0|? ? ? H0 He]; subst.
    - by exists (line_stage n l), sv0.
    - exists n, sv. split; [auto|done]. }
  destruct (IH _ _ _ _ Hp Ht' Hs'). auto.
Qed.

(** *** A record without its line end *)

Definition decision (l : log_line) : bool :=
  match l with
  | LOG_COMMAND_STAGE n => (n =? XA_TX_STAGE_COMMITTING) || (n =? XA_TX_STAGE_ABORTING)
  | LOG_COMMAND_RMSTAT _ _ _ _ _ => false
  end.

(** Whether a log tells of a decision to commit is not changed by [l]. *)
Definition same_side (n : Z) (l : log_line) : Prop := 50 <= line_stage n l <-> 50 <= n.

Lemma side_step p l ok q n a : protocol_step true p (EvWrite l ok) = Some q -> told p n (EvWrite l ok :: a) ->
  decision l = false -> same_side n l.
Proof.
  intros Hs Ht Hd. unfold same_side. destruct l as [m|? ? ? ? ?]; [|done]. cbn in Hd. apply orb_false_iff in Hd as [H1 H2].
  destruct p; cbn in Hs; rewrite ?H1, ?H2 in Hs; try discriminate; repeat case_match; simplify_eq; cbn in *;
    unfold next_stage, in_abort_range; unfold XA_TX_STAGE_COMMITTING, XA_TX_STAGE_ABORTING, XA_TX_STAGE_PREPRO,
      XA_TX_STAGE_ABFORGOT_HEU, XA_TX_STAGE_NULL, XA_TX_STAGE_PREPARING in *; repeat case_match; lia.
Qed.

(** A phase that is settled stays so, and with it what the log tells. *)
Lemma told_settled p l ok q n a : protocol_step true p (EvWrite l ok) = Some q -> settled p = true ->
  told p n (EvWrite l ok :: a) -> told q (line_stage n l) a /\ told q n a.
Proof.
  intros Hs Hp Ht. destruct (decide (p = Committing)) as [->|Hnc].
  - assert (q = Committing) as -> by (destruct l as [m|]; cbn in Hs; by repeat case_match; simplify_eq).
    split; [|done]. cbn in Ht |- *. apply (run_high [EvWrite l ok] Committing n [l]); [cbn [protocol]; by rewrite Hs| |done].
    repeat constructor.
  - assert (p = Idle \/ p = Doomed \/ p = Aborting) as Hlow by (destruct p; auto; done).
    assert (n < 50) as Hn by by destruct Hlow as [-> | [-> | ->] ].
    destruct (step_low _ _ _ Hs Hlow) as [Hq Hw]. pose proof (Hw l ok n eq_refl Hn) as Hw'.
    by destruct Hq as [-> | [-> | ->] ].
Qed.

Lemma told_step p ev q n a : protocol_step true p ev = Some q -> told p n (ev :: a) ->
  (forall l ok, ev <> EvWrite l ok) -> told q n a.
Proof.
  intros Hs Ht Hw. destruct (settled p) eqn:Hp; [|by eapply told_silent].
  destruct p; try discriminate; destruct ev as [o i b t c|l k|k|m k| |]; try (by destruct (Hw l k));
    cbn in Hs; repeat case_match; by simplify_eq.
Qed.

Lemma told_line p l ok q n a : protocol_step true p (EvWrite l ok) = Some q -> told p n (EvWrite l ok :: a) ->
  told q (line_stage n l) a /\ (ok && synced a = false -> told q n a).
Proof.
  intros Hs Ht. destruct (settled p) eqn:Hp; [|by apply (told_write p)].
  destruct (told_settled _ _ _ _ _ _ Hs Hp Ht). auto.
Qed.

(** The next line behind those that were kept. *)
Lemma run_side a : forall p q n ws1 l ws2 sv, protocol true p a = Some q -> told p n a ->
  writes true a = ws1 ++ (l, false) :: ws2 -> survive ws1 sv -> decision l = false -> same_side (stage_after n sv) l.
Proof.
  induction a as [|ev a IH]; intros p q n ws1 l ws2 sv Hp Ht Hw Hs Hd; [by destruct ws1|].
  cbn [protocol] in Hp. apply bind_Some_inv in Hp as (p1 & H1 & Hp).
  destruct ev as [o i b t c|l' ok|k|m k| |]; cbn [writes] in Hw;
    try (eapply IH; [exact Hp|by eapply told_step|exact Hw|exact Hs|exact Hd]).
  destruct (told_line _ _ _ _ _ _ H1 Ht) as [Hk Hl].
  destruct ws1 as [|w ws1]; cbn [app] in Hw.
  - inversion Hs; subst. injection Hw as <- _ _. by eapply side_step.
  - injection Hw as <- Hw. inversion Hs as [|? ? ? sv0|? ? ? H0 He]; subst.
    + unfold stage_after. cbn [fold_left]. eapply IH; [exact Hp|exact Hk|exact Hw|done|done].
    + eapply IH; [exact Hp|apply Hl; by destruct ok, (synced a)|exact Hw|done|done].
Qed.

Lemma survive_some ws : exists sv, survive ws sv.
Proof. induction ws as [|[l m] ws [sv IH]]; eexists; by constructor. Qed.

(** Kept lines, and nothing behind them that is certain. *)
Lemma survive_app ws1 ws2 sv : survive ws1 sv -> Forall (fun w => w.2 = false) ws2 -> survive (ws1 ++ ws2) sv.
Proof.
  induction 1 as [|l must ws sv _ IH|l ws sv _ IH]; intros H2; [|constructor; auto..].
  induction H2 as [|[l m] ws2 Hm _ IH]; [constructor|]. cbn in Hm. subst m. by constructor.
Qed.

(** ** Lives of the server *)

Section Crash.

Context {E : Type}.
Variable rm_call : E -> Z -> Z -> Z -> E * (Z * Z * Z).
Variable write_line : E -> log_line -> E * bool.
Variable fsync : log_sync E.
Variable checkpointseq : E -> E * bool.
Variable growlist : E -> E * bool.
Variable xa_retries : Z.

Local Abbreviation drive := (tm_drive rm_call write_line fsync checkpointseq growlist xa_retries).
Local Abbreviation drives := (drives rm_call write_line fsync checkpointseq growlist xa_retries).
Local Abbreviation load := (tms_load_logfile write_line fsync checkpointseq).
Local Abbreviation resume := (resume write_line fsync checkpointseq).

(** The server drives the transaction of [s], any number of times, and dies
    behind the events [a]. *)
Definition life (s : st E) (a : list event) : Prop :=
  exists s1 fuel e op flags o b, drives s s1 /\ drive fuel (with_env s1 e) op flags = Some o /\
    s_trace (d_st o) = a ++ b.

(** The lines of [sv], as records of some time. *)
Definition lines_of (rs : list (Z * log_rec)) (sv : list log_line) : Prop :=
  map snd rs = map RLine sv /\ Forall rec_ok rs.

Local Abbreviation written := (writes (syncs_file fsync)).

(** The file [g] when the events [a] left [f] and lines behind it.  A file
    position is written once, so what is kept stands behind [f] in the order of
    writing.  The last line may be damaged, cut off inside its time stamp (when
    [stamps] allows it), or lack nothing but its line end; not allowed is that
    a decision lacks nothing but its line end. *)
Inductive leaves (stamps : bool) (a : list event) (f : list Z) : list Z -> Prop :=
  | leaves_lines sv rs : survive (written a) sv -> lines_of rs sv -> leaves stamps a f (f ++ file_of rs)
  | leaves_damaged sv rs tail : survive (written a) sv -> lines_of rs sv -> junk tail ->
      leaves stamps a f (f ++ file_of rs ++ tail)
  | leaves_stamp sv rs tail : stamps = true -> survive (written a) sv -> lines_of rs sv ->
      line_text tail -> COLON ∉ tail -> leaves stamps a f (f ++ file_of rs ++ tail)
  | leaves_unended ws1 l ws2 sv rs ts : written a = ws1 ++ (l, false) :: ws2 -> Forall (fun w => w.2 = false) ws2 ->
      survive ws1 sv -> lines_of rs sv -> decision l = false -> rec_ok (ts, RLine l) ->
      leaves stamps a f (f ++ file_of rs ++ body (ts, RLine l)).

(** Lives of servers, with a crash behind each: the events so far and the log
    file.  The first starts with a transaction that is about to prepare and the
    log [f0]; each other loads the file.  A crash may undo the repair of the
    last line when nothing behind it was kept. *)
Inductive history (stamps : bool) (f0 : list Z) : list event -> list Z -> Prop :=
  | history_first s a f : txstage (s_tl s) = XA_TX_STAGE_PREPARING -> f_open (s_tl s) = true -> s_trace s = [] ->
      life s a -> leaves stamps a f0 f -> history stamps f0 a f
  | history_restart tr f le e s t f' a g : history stamps f0 tr f -> load le e f = Some (LoadOk s t f') ->
      life s a -> leaves stamps a f' g \/ (survive (written a) [] /\ g = f) -> history stamps f0 (tr ++ a) g.

Lemma life_protocol s a : life s a -> f_open (s_tl s) = true -> s_trace s = [] ->
  exists q, protocol true (phase_of (txstage (s_tl s))) a = Some q.
Proof.
  intros (s1 & fuel & e & op & flags & o & b & Hd & Ho & Htr) Hfo Hs.
  destruct (drives_then _ _ _ _ _ _ _ _ _ _ _ _ _ (a ++ b) Hd Ho) as (q & Hp); [by rewrite Hs|].
  rewrite Hfo, protocol_app in Hp. apply bind_Some_inv in Hp as (q' & Hp & _). eauto.
Qed.

(** *** The life behind a restart *)

(** The phase a recovered transaction starts in. *)
Definition restart_phase (n : Z) : phase :=
  if (n =? XA_TX_STAGE_PREPARING) || (n =? XA_TX_STAGE_ACTIVE) then Doomed else phase_of n.

Lemma doomed_abort ws ok : stage_io true XA_TX_STAGE_ABORTING ws ok ->
  protocol true Doomed (ws ++ [EvStage XA_TX_STAGE_ABORTING ok]) = Some Aborting.
Proof.
  inversion 1 as [|j Hfo Hj|Hn|k ok' Hn Hk]; subst; [done| |done|by destruct k].
  destruct j as [|[|[|j]]]; [done..|exfalso; cbn in Hj; lia].
Qed.

Lemma resume_protocol e x : f_open x = true ->
  protocol true (restart_phase (txstage x)) (s_trace (resume e x)) = Some (phase_of (txstage (s_tl (resume e x)))) /\
  f_open (s_tl (resume e x)) = true.
Proof.
  intros Hfo. unfold TmLog.resume, restart_phase. destruct (_ || _) eqn:Hc; [|done].
  match goal with |- context [tms_log_stage _ _ _ ?s _ _] =>
    destruct (tms_log_stage_spec write_line fsync checkpointseq s XA_TX_STAGE_ABORTING true)
      as (ok & ws & s' & -> & Hio & Htl & Htr) end; cbn [s_tl set_background txstage] in *.
  { unfold XA_TX_STAGE_PREPARING, XA_TX_STAGE_ACTIVE, XA_TX_STAGE_ABORTING in *. lia. }
  { unfold XA_TX_STAGE_PREPARING, XA_TX_STAGE_ACTIVE, EXFAIL in *. lia. }
  cbn [fst]. rewrite Htr, Htl. cbn in *. rewrite Hfo in *. split; [by apply doomed_abort|done].
Qed.

Lemma restart_protocol e x a : f_open x = true -> life (resume e x) a ->
  exists q, protocol true (restart_phase (txstage x)) a = Some q.
Proof.
  intros Hfo (s1 & fuel & e1 & op & flags & o & b & Hd & Ho & Htr). destruct (resume_protocol e x Hfo) as [Hp Hf].
  assert (exists tr, s_trace (d_st o) = s_trace (resume e x) ++ tr) as [tr Htr2].
  { pose proof (drives_protocol _ _ _ _ _ _ _ _ Hd) as (_ & t1 & H1 & _).
    pose proof (tm_drive_protocol _ _ _ _ _ _ _ _ _ _ _ Ho) as (_ & t2 & H2 & _).
    exists (t1 ++ t2). rewrite H2. cbn. by rewrite H1, app_assoc. }
  destruct (drives_then _ _ _ _ _ _ _ _ _ _ _ _ _ tr Hd Ho Htr2) as (q & Hq).
  assert (protocol true (restart_phase (txstage x)) (a ++ b) = Some q) as Hab.
  { rewrite <-Htr, Htr2, protocol_app, Hp. cbn. by rewrite Hf in Hq. }
  rewrite protocol_app in Hab. apply bind_Some_inv in Hab as (q' & Ha & _). eauto.
Qed.

Lemma restart_low n : n < 50 -> restart_phase n = Idle \/ restart_phase n = Doomed \/ restart_phase n = Aborting.
Proof.
  intros Hn. unfold restart_phase, phase_of. unfold XA_TX_STAGE_COMMITTING. destruct (n =? _); cbn [orb]; [auto|].
  rewrite (proj2 (Z.leb_gt 50 n)) by lia. repeat case_match; auto.
Qed.

Lemma restart_high n : 50 <= n -> restart_phase n = Committing.
Proof.
  intros Hn. unfold restart_phase, phase_of, XA_TX_STAGE_PREPARING, XA_TX_STAGE_ACTIVE, XA_TX_STAGE_COMMITTING.
  rewrite !(proj2 (Z.eqb_neq _ _)) by lia. cbn [orb]. by rewrite (proj2 (Z.leb_le _ _)) by lia.
Qed.

(** *** The invariant *)

(** What may stand behind the last line end of a log that tells the stage [n]. *)
Inductive tail_ok (stamps : bool) (n : Z) : list Z -> Prop :=
  | tail_none : tail_ok stamps n []
  | tail_damaged t : junk t -> tail_ok stamps n t
  | tail_stamp t : stamps = true -> line_text t -> COLON ∉ t -> tail_ok stamps n t
  | tail_unended ts l : rec_ok (ts, RLine l) -> same_side n l -> tail_ok stamps n (body (ts, RLine l)).

Definition agrees (tr : list event) (n : Z) : Prop :=
  (called XA_OP_COMMIT tr -> 50 <= n) /\ (called XA_OP_ROLLBACK tr -> n < 50).

(** The file holds whole records that agree with what was called. *)
Definition readable (stamps : bool) (tr : list event) (f : list Z) : Prop :=
  exists g l tail, f = g ++ tail /\ logged g l /\ tail_ok stamps (txstage (tl (replay l))) tail /\
    agrees tr (txstage (tl (replay l))).

(** Not both outcomes were called, and the file is readable, or it never will
    be again. *)
Definition consistent (stamps : bool) (tr : list event) (f : list Z) : Prop :=
  ~ (called XA_OP_COMMIT tr /\ called XA_OP_ROLLBACK tr) /\
  (readable stamps tr f \/ (stamps = true /\ forall le e, load le e f = Some (LoadFail false))).

Lemma tail_last stamps n tail : tail_ok stamps n tail -> last_line tail.
Proof. destruct 1 as [|t [Ht _]|t _ Ht|ts l Hx]; [by left|right..]; [done|done|by apply body_line]. Qed.

Lemma lines_logged f l rs sv : logged f l -> lines_of rs sv -> logged (f ++ file_of rs) (l ++ rs).
Proof.
  intros Hf [Hrs Hok]. apply logged_all; [done|done|]. clear Hok.
  revert sv Hrs. induction rs as [|[ts r] rs IH]; intros sv H; [constructor|]. destruct sv as [|x sv]; [done|].
  injection H as -> H. constructor; [done|by eapply IH].
Qed.

(** A load that succeeds, whatever the system answered. *)
Lemma load_ok_inv le e g l tail s t f' : logged g l -> last_line tail ->
  load le e (g ++ tail) = Some (LoadOk s t f') -> s = resume e (tl (replay l)) /\ f' = repaired g tail.
Proof.
  intros Hg Ht. unfold tms_load_logfile. destruct (negb _); [done|].
  destruct (load_loop_logged g l Hg (S (length (g ++ tail))) tail ltac:(lia)) as (fuel & Hfu & Hl).
  rewrite (load_loop_tail fuel true tail _ Hfu Ht) in Hl.
  intros (r & Hr & Hres)%bind_Some_inv.
  destruct (load_loop_mok (S (length (g ++ tail))) (malloc_ok le) (g ++ tail) load_init) as [He|He];
    change load_init with {| ld_t := empty_log; infos_ok := false; got_term_last := false; missing_term_in_file := false |} in *;
    rewrite He in Hr; [rewrite Hl in Hr|]; simplify_eq/=.
  unfold load_finish, repaired in *. destruct (feof_ok le), (bool_decide_reflect (tail = [])) as [->|], (term_ok le);
    cbn in *; simplify_eq; (split; [done|]); by rewrite ?app_nil_r, <-?app_assoc.
Qed.

Lemma agrees_atomic tr n : agrees tr n -> ~ (called XA_OP_COMMIT tr /\ called XA_OP_ROLLBACK tr).
Proof. intros [Hc Hr] [H1%Hc H2%Hr]. lia. Qed.

(** What lines a run leaves behind a log that agrees with it. *)
Lemma leaves_readable stamps tr a f g l : syncs_file fsync = true -> logged f l -> leaves stamps a f g ->
  (forall sv, survive (writes true a) sv -> agrees (tr ++ a) (stage_after (txstage (tl (replay l))) sv)) ->
  (forall ws1 x ws2 sv, writes true a = ws1 ++ (x, false) :: ws2 -> survive ws1 sv -> decision x = false ->
    same_side (stage_after (txstage (tl (replay l))) sv) x) ->
  readable stamps (tr ++ a) g.
Proof.
  intros Hd Hf Hlv Hag Hside. destruct Hlv as [sv rs Hs Hrs|sv rs tail Hs Hrs Ht|sv rs tail Hst Hs Hrs Ht Hc
    |ws1 x ws2 sv rs ts Hw Hws Hs Hrs Hx Hok]; rewrite Hd in *; pose proof (lines_logged _ _ _ _ Hf Hrs) as Hg;
    pose proof (replay_stage l rs sv (proj1 Hrs)) as Hst';
    [exists (f ++ file_of rs), (l ++ rs), []|exists (f ++ file_of rs), (l ++ rs), tail
    |exists (f ++ file_of rs), (l ++ rs), tail|exists (f ++ file_of rs), (l ++ rs), (body (ts, RLine x))];
    rewrite ?app_nil_r, Hst', ?app_assoc.
  - split_and!; [done|done|constructor|by apply Hag].
  - split_and!; [done|done|by constructor|by apply Hag].
  - split_and!; [done|done|by apply tail_stamp|by apply Hag].
  - split_and!; [done|done|apply tail_unended; [done|by eapply Hside]|apply Hag].
    rewrite Hw. apply survive_app; [done|by constructor].
Qed.

(** The life behind a restart goes on the way the log tells; the log it
    appends to may tell of another stage on the same side. *)
Lemma restart_agrees tr a n m sv e x : txstage x = n -> f_open x = true -> life (resume e x) a ->
  agrees tr n -> (50 <= m <-> 50 <= n) -> survive (writes true a) sv -> agrees (tr ++ a) (stage_after m sv).
Proof.
  intros <- Hfo Hl [Hc Hr] Hm Hs. destruct (restart_protocol e x a Hfo Hl) as (q & Hq).
  destruct (Z.lt_ge_cases (txstage x) 50) as [Hn|Hn].
  - pose proof (restart_low _ Hn) as Hlow. split; [|intros _; eapply run_low; [done..|lia]].
    assert (no_commit (restart_phase (txstage x)) = true) as Hnc by by destruct Hlow as [-> | [-> | ->] ].
    destruct (protocol_no_commit _ _ _ _ Hq Hnc) as [_ Ha]. intros [H%Hc|H]%called_app; [lia|done].
  - rewrite restart_high in Hq by done. split; [intros _; eapply run_high; [done..|tauto]|].
    destruct (protocol_no_rollback _ _ _ _ Hq eq_refl) as [_ Ha]. intros [H%Hr|H]%called_app; [lia|done].
Qed.

Lemma restart_side a n m ws1 l ws2 sv e x : txstage x = n -> f_open x = true -> life (resume e x) a ->
  (50 <= m <-> 50 <= n) -> writes true a = ws1 ++ (l, false) :: ws2 -> survive ws1 sv -> decision l = false ->
  same_side (stage_after m sv) l.
Proof.
  intros <- Hfo Hl Hm Hw Hs Hd. destruct (restart_protocol e x a Hfo Hl) as (q & Hq).
  eapply run_side; [exact Hq| |done..]. destruct (Z.lt_ge_cases (txstage x) 50) as [Hn|Hn].
  - destruct (restart_low _ Hn) as [-> | [-> | ->] ]; cbn; lia.
  - rewrite restart_high by done. cbn. tauto.
Qed.

(** The file a load leaves: a log on the same side, or unreadable. *)
Lemma repaired_tail stamps g l tail : logged g l -> tail_ok stamps (txstage (tl (replay l))) tail ->
  (exists l', logged (repaired g tail) l' /\ (50 <= txstage (tl (replay l')) <-> 50 <= txstage (tl (replay l)))) \/
  (stamps = true /\ forall le e rest, load le e (repaired g tail ++ rest) = Some (LoadFail false)).
Proof.
  intros Hg [|t Ht|t Hst Ht Hc|ts x Hx Hs].
  - left. exists l. by rewrite repaired_nil.
  - left. exists l. rewrite repaired_line by apply Ht. split; [by apply logged_junk|done].
  - right. split; [done|]. intros le e rest. rewrite repaired_line by done. by eapply stamp_unreadable.
  - left. exists (l ++ [(ts, RLine x)]). rewrite repaired_line by by apply body_line. rewrite <-log_text_body by done.
    split; [by apply logged_rec|]. by rewrite replay_snoc, apply_line_stage.
Qed.

Lemma restart_consistent stamps tr f le e s t f' a g : syncs_file fsync = true -> readable stamps tr f ->
  load le e f = Some (LoadOk s t f') -> life s a -> leaves stamps a f' g \/ (survive (written a) [] /\ g = f) ->
  consistent stamps (tr ++ a) g.
Proof.
  intros Hd (h & l & tail & -> & Hh & Ht & Hag) Hld Hl Hg.
  destruct (load_ok_inv _ _ _ _ _ _ _ _ Hh (tail_last _ _ _ Ht) Hld) as [-> ->].
  assert (forall m sv, (50 <= m <-> 50 <= txstage (tl (replay l))) -> survive (writes true a) sv ->
    agrees (tr ++ a) (stage_after m sv)) as Hrun by (intros; eapply restart_agrees; eauto using replay_open).
  split. { destruct (survive_some (writes true a)) as [sv Hsv]. eapply agrees_atomic, Hrun; [reflexivity|done]. }
  destruct Hg as [Hg|[Hsv ->] ].
  2:{ left. exists h, l, tail. rewrite Hd in Hsv. split_and!; [done..|]. exact (Hrun _ [] ltac:(reflexivity) Hsv). }
  destruct (repaired_tail _ _ _ _ Hh Ht) as [(l' & Hl' & Hside)|[Hst Hbad] ].
  - left. eapply leaves_readable; [done..| |]; [by intros; apply Hrun|].
    intros. eapply restart_side; eauto using replay_open.
  - right. split; [done|]. intros le' e'. destruct Hg; apply Hbad.
Qed.

Lemma history_consistent stamps f0 l0 tr f : syncs_file fsync = true -> logged f0 l0 ->
  txstage (tl (replay l0)) = XA_TX_STAGE_PREPARING -> history stamps f0 tr f -> consistent stamps tr f.
Proof.
  intros Hd H0 Hst. induction 1 as [s a f Hs Hfo Htr Hl Hlv|tr f le e s t f' a g _ [_ IH] Hld Hl Hg].
  - destruct (life_protocol s a Hl Hfo Htr) as (q & Hq). rewrite Hs in Hq.
    assert (forall sv, survive (writes true a) sv -> agrees a (stage_after XA_TX_STAGE_PREPARING sv)) as Hrun.
    { intros sv Hsv. eapply run_told; [exact Hq|done|done]. }
    split. { destruct (survive_some (writes true a)) as [sv Hsv]. by eapply agrees_atomic, Hrun. }
    left. apply (leaves_readable stamps [] a f0 f l0); rewrite ?Hst; [done..|].
    intros. eapply run_side; [exact Hq|done..].
  - destruct IH as [IH|[_ IH] ]; [by eapply restart_consistent|]. by rewrite IH in Hld.
Qed.



End Crash.

(** ** A crash behind the decision

    Two branches are prepared, the decision to commit is on disk, and the
    server dies behind its first commit call, while it logs the result.  The
    next server commits both branches. *)

Module CrashDemo.

Import DriveDemo LogDemo.

Definition a1 : list event := take 8 (s_trace (d_st committed)).
Definition f1 : list Z := f0 ++ file_of rs1 ++ tail1.

Lemma first_life : life rm_fine ok_line fsync_on ok ok 3 (start XA_TX_STAGE_PREPARING) a1.
Proof.
  exists (start XA_TX_STAGE_PREPARING), (drive_fuel 3), tt, XA_OP_COMMIT, 0, committed, (drop 8 (s_trace (d_st committed))).
  split; [constructor|]. split; [exact committed_run|]. symmetry. apply take_drop.
Qed.

Lemma first_leaves stamps : leaves fsync_on stamps a1 f0 f1.
Proof.
  apply (leaves_damaged _ _ _ _ (map (fun x => match x.2 with RLine l => l | _ => joined 0 end) rs1));
    [|split; [done|]|apply tail1_junk].
  - assert (writes (syncs_file fsync_on) a1 =
      [(prepared 1, true); (prepared 2, true); (LOG_COMMAND_STAGE XA_TX_STAGE_COMMITTING, true)])
      as -> by by vm_compute. repeat constructor.
  - pose proof records_ok as H. by apply Forall_app in H as [_ H].
Qed.

Lemma first_crash stamps : history rm_fine ok_line fsync_on ok ok 3 stamps f0 a1 f1.
Proof.
  exact (history_first _ _ _ _ _ _ stamps f0 (start XA_TX_STAGE_PREPARING) a1 f1 eq_refl eq_refl eq_refl first_life
    (first_leaves stamps)).
Qed.

Definition recovered : st unit := resume ok_line fsync_on ok tt (tl (replay (l0 ++ rs1))).
Definition second : drive_out := default committed
  (tm_drive rm_fine ok_line fsync_on ok ok 3 (drive_fuel 3) (with_env recovered tt) XA_OP_COMMIT 0).
Definition a2 : list event := s_trace (d_st second).

Lemma second_run : tm_drive rm_fine ok_line fsync_on ok ok 3 (drive_fuel 3) (with_env recovered tt) XA_OP_COMMIT 0 = Some second.
Proof. by vm_compute. Qed.

Lemma second_life : life rm_fine ok_line fsync_on ok ok 3 recovered a2.
Proof.
  exists recovered, (drive_fuel 3), tt, XA_OP_COMMIT, 0, second, []. split; [constructor|].
  split; [exact second_run|]. by rewrite app_nil_r.
Qed.

Lemma f1_loads : tms_load_logfile ok_line fsync_on ok le_fine tt f1 =
  Some (LoadOk recovered (with_tl' (replay (l0 ++ rs1)) (s_tl recovered)) (repaired (f0 ++ file_of rs1) tail1)).
Proof.
  unfold f1, recovered. rewrite app_assoc. refine (load_logged _ _ _ _ _ _ _ _ _ _ _); [done| |right; apply tail1_junk].
  apply logged_all; [exact f0_logged| |by repeat constructor].
  pose proof records_ok as H. by apply Forall_app in H as [_ H].
Qed.

Lemma lost_all ws : forallb (fun w : log_line * bool => negb w.2) ws = true -> survive ws [].
Proof.
  induction ws as [|[l must] ws IH]; intros H; [constructor|]. cbn in H. apply andb_true_iff in H as [H1 H2].
  destruct must; [done|]. constructor. auto.
Qed.

(** The second server dies as well, and nothing it wrote is kept. *)
Lemma second_crash stamps : history rm_fine ok_line fsync_on ok ok 3 stamps f0 (a1 ++ a2) f1.
Proof.
  refine (history_restart _ _ _ _ _ _ _ _ _ _ _ _ _ _ _ _ _ (first_crash stamps) f1_loads second_life _).
  right. split; [|done]. apply lost_all. by vm_compute.
Qed.



(** With the default setting nothing the server writes is certain to be on
    disk when a resource manager is told to commit: the disk loses all of it,
    and the next server rolls back. *)
Definition unsynced : drive_out := default committed
  (tm_drive rm_fine ok_line fsync_off ok ok 3 (drive_fuel 3) (with_env (start XA_TX_STAGE_PREPARING) tt) XA_OP_COMMIT 0).
Definition aborting : st unit := resume ok_line fsync_off ok tt (tl (replay l0)).
Definition undone : drive_out := default committed
  (tm_drive rm_fine ok_line fsync_off ok ok 3 (drive_fuel 3) (with_env aborting tt) XA_OP_ROLLBACK 0).
Definition tr1 : list event := take 8 (s_trace (d_st unsynced)).
Definition tr2 : list event := s_trace (d_st undone).

Lemma unsynced_crash : history rm_fine ok_line fsync_off ok ok 3 false f0 tr1 f0.
Proof.
  apply (history_first _ _ _ _ _ _ false f0 (start XA_TX_STAGE_PREPARING)); [done..| |].
  - exists (start XA_TX_STAGE_PREPARING), (drive_fuel 3), tt, XA_OP_COMMIT, 0, unsynced, (drop 8 (s_trace (d_st unsynced))).
    split; [constructor|]. split; [by vm_compute|]. symmetry. apply take_drop.
  - rewrite <-(app_nil_r f0) at 2. apply (leaves_lines _ _ _ _ [] []); [|by repeat constructor].
    apply lost_all. by vm_compute.
Qed.

Lemma undone_run : tm_drive rm_fine ok_line fsync_off ok ok 3 (drive_fuel 3) (with_env aborting tt) XA_OP_ROLLBACK 0 = Some undone.
Proof. by vm_compute. Qed.

Lemma undone_life : life rm_fine ok_line fsync_off ok ok 3 aborting tr2.
Proof.
  exists aborting, (drive_fuel 3), tt, XA_OP_ROLLBACK, 0, undone, []. split; [constructor|].
  split; [exact undone_run|]. symmetry. apply app_nil_r.
Qed.

Lemma f0_loads : tms_load_logfile ok_line fsync_off ok le_fine tt f0 =
  Some (LoadOk aborting (with_tl' (replay l0) (s_tl aborting)) f0).
Proof. unfold aborting. exact (load_whole _ _ _ _ _ _ _ fine f0_logged). Qed.

Lemma default_setting_both_outcomes : history rm_fine ok_line fsync_off ok ok 3 false f0 (tr1 ++ tr2) f0 /\
  called XA_OP_COMMIT (tr1 ++ tr2) /\ called XA_OP_ROLLBACK (tr1 ++ tr2).
Proof.
  split; [|split].
  - refine (history_restart _ _ _ _ _ _ _ _ _ _ _ _ _ _ _ _ _ unsynced_crash f0_loads undone_life _).
    right. split; [|done]. apply lost_all. by vm_compute.
  - exists 1, 0, 0, 0. apply elem_of_app. left. by apply list_elem_of_lookup_2 with 7%nat.
  - exists 1, 0, 0, 0. apply elem_of_app. right. by apply list_elem_of_lookup_2 with 5%nat.
Qed.

End CrashDemo.
