(* ===== verification/TmServer.v ===== *)
(** * The transaction manager server

    The table of transactions of [tmsrv/log.c] with its locks, the services of
    [tmsrv/tmapi.c], the timeout check of [tmsrv/tmsrv.c] and the background
    thread of [tmsrv/background.c], on top of the driver ([TmDrive]) and the
    branch table ([TmLog]).

    Services run in many threads.  What a thread does to a transaction it does
    while the entry carries its thread id, so services are steps on the table;
    loops over several transactions are split into one step per transaction.
    Waiting for a lock is the last look at the table when it ends. *)

From stdpp Require Import prelude gmap.
From S2P Require Import Prelude CText XaStates TmDrive TmLog TmMirror.

Definition EXTRUE : Z := 1.
Definition EXFALSE : Z := 0.

Definition XA_RM_STATUS_UNKOWN : Z := 117.

Definition TMFLAGS_RMIDKNOWN : Z := 2.
Definition TMFLAGS_TPNOSTARTXID : Z := 16.
Definition TMFLAGS_DYNAMIC_REG : Z := 32.
Definition TMFLAGS_NOCON : Z := 64.

Definition ATMI_XA_COMMITLOCAL : Z := 111.
Definition ATMI_XA_ABORTLOCAL : Z := 116.
Definition ATMI_XA_FORGETLOCAL : Z := 102.

Definition TPEINVAL : Z := 4.
Definition TPEOS : Z := 7.
Definition TPEPROTO : Z := 9.
Definition TPETIME : Z := 13.
Definition TPETRAN : Z := 14.
Definition TPEHEURISTIC : Z := 21.
Definition TPEMATCH : Z := 23.

(** A transaction in memory.  [en_tr] records what was done for it. *)
Record entry := { en_t : tmlog; en_tr : list event; lockthreadid : Z; trycount : Z }.

Definition with_lock (en : entry) (tid : Z) : entry :=
  {| en_t := en_t en; en_tr := en_tr en; lockthreadid := tid; trycount := trycount en |}.
Definition with_t (en : entry) (t : tmlog) : entry :=
  {| en_t := t; en_tr := en_tr en; lockthreadid := lockthreadid en; trycount := trycount en |}.
Definition inc_try (en : entry) : entry :=
  {| en_t := en_t en; en_tr := en_tr en; lockthreadid := lockthreadid en; trycount := trycount en + 1 |}.

Definition en_tl (en : entry) : atmi_xa_log_t := tl (en_t en).

(** What the server's own resource manager is called with: a branch of a
    transaction, or an id an operator gives. *)
Inductive rm_xid := BranchXid (xid : list Z) (btid : Z) | LocalXid (x : list Z).

(** Transactions by their id string.  [sv_done] records the finished ones: what
    was done and the branches at the end.  [sv_direct] records the calls of the
    server's own resource manager that are not made by driving a transaction of
    the table: operation, branch, result. *)
Record server {E : Type} := {
  M_tx_hash : gmap (list Z) entry; sv_env : E; sv_done : list (list Z * list event * list atmi_xa_rm_status_btid_t);
  sv_direct : list (Z * rm_xid * Z)
}.
Arguments server : clear implicits.

(** The answer of a service: the return value and [TMERR_CODE] in the reply
    buffer, 0 when it is not set; or the process has ended. *)
Inductive outcome := Ret (ret err : Z) | Exit.

Section Server.

Context {E : Type}.
Variable rm_call : E -> Z -> Z -> Z -> E * (Z * Z * Z).
Variable write_line : E -> log_line -> E * bool.
Variable fsync : log_sync E.
Variable checkpointseq : E -> E * bool.
Variable growlist : E -> E * bool.
Variable xa_retries : Z.
Variable malloc : E -> E * bool.      (* memory for entries and branches *)
Variable setseq : E -> E * bool.      (* tms_log_setseq *)
Variable fopen : E -> E * bool.       (* tms_open_logfile *)
Variable write_info : E -> E * bool.  (* tms_log_info *)
Variable rm_local : E -> Z -> rm_xid -> E * (Z * Z). (* atmi_xa_..._entry of the own resource manager: return, tperrno *)

Local Abbreviation server := (server E).

Definition put (sv : server) (xid : list Z) (en : entry) : server :=
  {| M_tx_hash := <[xid := en]> (M_tx_hash sv); sv_env := sv_env sv; sv_done := sv_done sv; sv_direct := sv_direct sv |}.
Definition env (sv : server) (e : E) : server :=
  {| M_tx_hash := M_tx_hash sv; sv_env := e; sv_done := sv_done sv; sv_direct := sv_direct sv |}.
Definition drop_entry (sv : server) (xid : list Z) : server :=
  {| M_tx_hash := delete xid (M_tx_hash sv); sv_env := sv_env sv; sv_done := sv_done sv; sv_direct := sv_direct sv |}.
Definition finish (sv : server) (xid : list Z) (s : st E) : server :=
  {| M_tx_hash := delete xid (M_tx_hash sv); sv_env := s_env s;
     sv_done := (xid, s_trace s, branches (s_tl s)) :: sv_done sv; sv_direct := sv_direct sv |}.

(** ** Entries and locks *)

Definition tms_log_exists_entry (sv : server) (xid : list Z) : bool := bool_decide (is_Some (M_tx_hash sv !! xid)).

Inductive got := GotNone | GotLocked | Got (en : entry).

Definition tms_log_get_entry (tid : Z) (xid : list Z) (sv : server) : server * got :=
  match M_tx_hash sv !! xid with
  | None => (sv, GotNone)
  | Some r => if lockthreadid r =? 0 then (put sv xid (with_lock r tid), Got (with_lock r tid)) else (sv, GotLocked)
  end.

Definition tms_unlock_entry (tid : Z) (xid : list Z) (sv : server) : server * bool :=
  match M_tx_hash sv !! xid with
  | Some r => if lockthreadid r =? tid then (put sv xid (with_lock r 0), true) else (sv, false)
  | None => (sv, false)
  end.

(** The state the driver and the log functions work on. *)
Definition entry_st (sv : server) (en : entry) : st E :=
  {| s_env := sv_env sv; s_trace := en_tr en; s_tl := en_tl en |}.

Definition with_st (en : entry) (s : st E) : entry :=
  {| en_t := with_tl' (en_t en) (s_tl s); en_tr := s_trace s; lockthreadid := lockthreadid en; trycount := trycount en |}.

Definition put_st (sv : server) (xid : list Z) (en : entry) (s : st E) : server :=
  put (env sv (s_env s)) xid (with_st en s).

(** [tms_log_stage] on an entry. *)
Definition stage_entry (xid : list Z) (stage : Z) (forced : bool) (sv : server) : option (server * bool) :=
  en ← M_tx_hash sv !! xid;
  let r := tms_log_stage write_line fsync checkpointseq (entry_st sv en) stage forced in
  Some (put_st sv xid en r.1, r.2).

(** [tm_drive] on an entry: a finished transaction leaves the table, another
    one is unlocked.  No value: the process has ended. *)
Definition drive_entry (xid : list Z) (op flags : Z) (sv : server) : option (server * option Z) :=
  en ← M_tx_hash sv !! xid;
  o ← tm_drive rm_call write_line fsync checkpointseq growlist xa_retries (drive_fuel xa_retries)
        (entry_st sv en) op flags;
  if d_exited o then Some (put_st sv xid en (d_st o), None)
  else if d_finished o then Some (finish sv xid (d_st o), Some (d_ret o))
  else Some (put_st sv xid (with_lock en 0) (d_st o), Some (d_ret o)).

(** ** Branches *)

Definition call (sv : server) (f : E -> E * bool) : server * bool := let r := f (sv_env sv) in (env sv r.1, r.2).

(** [tms_log_rmstatus] on a branch of an entry; the branch is changed in place. *)
Definition rmstatus_entry (xid : list Z) (rmid btid status : Z) (sv : server) : option (server * bool) :=
  en ← M_tx_hash sv !! xid;
  bt ← tms_btid_find (en_t en) rmid btid;
  let '(s, bt', ok) := tms_log_rmstatus write_line (entry_st sv en) bt status 0 0 in
  let s := with_tl s (set_branches (s_tl s) (map (set_status rmid btid status 0 0) (branches (s_tl s)))) in
  Some (put_st sv xid en s, ok).

Definition start_stat (flags : Z) : Z :=
  if Z.land flags TMFLAGS_TPNOSTARTXID =? 0 then XA_RM_STATUS_ACTIVE else XA_RM_STATUS_UNKOWN.

(** A new entry, locked.  [xid] is a new id. *)
Definition new_entry (tid txtout tstamp : Z) : entry :=
  {| en_t := {| tl := {| txstage := XA_TX_STAGE_ACTIVE; branches := []; f_open := true; is_background := false |};
                tidcounter := fun _ => 0; log_version := LOG_VERSION_2; t_start := tstamp; t_update := tstamp;
                txtout := txtout |};
     en_tr := []; lockthreadid := tid; trycount := 0 |}.

(** The branch of the server's own resource manager. *)
Definition start_branch (xid : list Z) (rmid tmflags : Z) (sv : server) : option (server * bool * Z) :=
  if Z.land tmflags TMFLAGS_DYNAMIC_REG =? 0 then
    en ← M_tx_hash sv !! xid;
    let '(t, btid) := tms_btid_gettid (en_t en) rmid in
    let '(sv, ok) := call sv malloc in
    match tms_btid_add ok t rmid btid XA_RM_STATUS_NULL 0 0 with
    | None => Some (put sv xid (with_t en t), false, btid)
    | Some t => r ← rmstatus_entry xid rmid btid (start_stat tmflags) (put sv xid (with_t en t));
                Some (r.1, r.2, btid)
    end
  else Some (sv, true, EXFAIL).

(** The server, whether it succeeded and the branch id. *)
Definition tms_log_start (tid : Z) (xid : list Z) (rmid txtout tmflags tstamp : Z) (sv : server)
    : option (server * bool * Z) :=
  let '(sv, ok) := call sv malloc in
  if negb ok then None (* NULL is passed to tms_remove_logfile *)
  else
    let '(sv, ok) := call sv setseq in
    if negb ok then Some (sv, false, EXFAIL)
    else if tms_log_exists_entry sv xid then None (* the id is not new *)
    else
      let sv := put sv xid (new_entry tid txtout tstamp) in
      let '(sv, ok) := call sv fopen in
      if negb ok then Some (drop_entry sv xid, false, EXFAIL)
      else
        let '(sv, ok) := call sv write_info in
        if negb ok then Some (drop_entry sv xid, false, EXFAIL)
        else
          r ← start_branch xid rmid tmflags sv;
          Some (if r.1.2 : bool then (tms_unlock_entry tid xid r.1.1).1 else drop_entry r.1.1 xid, r.1.2, r.2).

(** The server, success, whether the branch was known, and its id. *)
Definition tms_log_addrm (tid : Z) (xid : list Z) (rmid btid flags : Z) (sv : server)
    : option (server * bool * bool * Z) :=
  match tms_log_get_entry tid xid sv with
  | (sv, Got en) =>
      let unlock sv := (tms_unlock_entry tid xid sv).1 in
      if (rmid <? 1) || (NDRX_MAX_RMS <? rmid) then Some (unlock sv, false, false, btid)
      else if is_background (en_tl en) || negb (txstage (en_tl en) =? XA_TX_STAGE_ACTIVE)
      then Some (unlock sv, false, false, btid)
      else
        let '(sv, ok) := call sv malloc in
        match tms_btid_addupd ok (en_t en) rmid btid XA_RM_STATUS_NULL 0 0 with
        | None => None (* the branch is NULL *)
        | Some (t, btid, known) =>
            let sv := put sv xid (with_t en t) in
            if known then Some (unlock sv, true, true, btid)
            else r ← rmstatus_entry xid rmid btid (start_stat flags) sv;
                 Some (unlock r.1, r.2, false, btid)
        end
  | (sv, _) => Some (sv, false, false, btid)
  end.

(** Change of the status of a branch by its process. *)
Definition tms_log_chrmstat (tid : Z) (xid : list Z) (rmid btid rmstatus : Z) (sv : server)
    : option (server * outcome) :=
  match tms_log_get_entry tid xid sv with
  | (sv, GotLocked) => Some (sv, Ret EXFAIL TPETIME)
  | (sv, GotNone) => Some (sv, Ret EXFAIL TPEMATCH)
  | (sv, Got en) =>
      let unlock sv := (tms_unlock_entry tid xid sv).1 in
      match tms_btid_find (en_t en) rmid btid with
      | None => None (* NULL is dereferenced *)
      | Some bt =>
          if negb (TmDrive.rmstatus bt =? XA_RM_STATUS_UNKOWN) then Some (unlock sv, Ret EXFAIL TPEMATCH)
          else r ← rmstatus_entry xid rmid btid rmstatus sv;
               Some (unlock r.1, if r.2 : bool then Ret EXSUCCEED 0 else Ret EXFAIL TPEMATCH)
      end
  end.

(** ** Services *)

(** What the driver returned, as the answer of a service. *)
Definition answer (r : option (server * option Z)) (f : Z -> outcome) : option (server * outcome) :=
  match r with
  | None => None
  | Some (sv, Some ret) => Some (sv, f ret)
  | Some (sv, None) => Some (sv, Exit)
  end.

Definition begin_abort (xid : list Z) (sv : server) : option server :=
  r ← stage_entry xid XA_TX_STAGE_ABORTING true sv; Some r.1.

(** [xid]: the transaction of the request; [None] when it is not complete. *)
Definition tm_tpabort (tid : Z) (xid : option (list Z)) (sv : server) : option (server * outcome) :=
  match xid with
  | None => Some (sv, Ret EXSUCCEED TPEINVAL)
  | Some xid =>
      match tms_log_get_entry tid xid sv with
      | (sv, GotLocked) => Some (sv, Ret EXFAIL TPETIME)
      | (sv, GotNone) => Some (sv, Ret EXFAIL TPEPROTO)
      | (sv, Got en) =>
          if is_background (en_tl en) || negb (txstage (en_tl en) =? XA_TX_STAGE_ACTIVE) then
            Some ((tms_unlock_entry tid xid sv).1,
                  Ret EXFAIL (if XA_TX_STAGE_PREPARING <=? txstage (en_tl en) then TPEPROTO else TPEHEURISTIC))
          else
            sv ← begin_abort xid sv;
            answer (drive_entry xid XA_OP_ROLLBACK 0 sv) (fun ret => Ret EXSUCCEED ret)
      end
  end.

Definition tm_tpcommit (tid : Z) (xid : option (list Z)) (tmflags : option Z) (sv : server)
    : option (server * outcome) :=
  match xid, tmflags with
  | Some xid, Some tmflags =>
      match tms_log_get_entry tid xid sv with
      | (sv, GotLocked) => Some (sv, Ret EXFAIL TPETIME)
      | (sv, GotNone) => Some (sv, Ret EXFAIL TPEABORT)
      | (sv, Got en) =>
          if is_background (en_tl en) || negb (txstage (en_tl en) =? XA_TX_STAGE_ACTIVE) then
            Some ((tms_unlock_entry tid xid sv).1,
                  Ret EXFAIL (if XA_TX_STAGE_PREPARING <=? txstage (en_tl en) then TPEPROTO else TPEABORT))
          else
            r ← stage_entry xid XA_TX_STAGE_PREPARING false sv;
            if r.2 : bool then
              answer (drive_entry xid XA_OP_COMMIT tmflags r.1)
                (fun ret => if ret =? EXSUCCEED then Ret EXSUCCEED 0 else Ret EXFAIL ret)
            else
              sv ← begin_abort xid r.1;
              answer (drive_entry xid XA_OP_ROLLBACK 0 sv)
                (fun ret => if ret =? EXSUCCEED then Ret EXSUCCEED TPEABORT else Ret EXFAIL ret)
      end
  | _, _ => Some (sv, Ret EXFAIL TPESYSTEM)
  end.

(** *** Calls of the own resource manager *)

Definition direct (op : Z) (x : rm_xid) (sv : server) : server * (Z * Z) :=
  let r := rm_local (sv_env sv) op x in
  ({| M_tx_hash := M_tx_hash sv; sv_env := r.1; sv_done := sv_done sv; sv_direct := (op, x, r.2.1) :: sv_direct sv |}, r.2).

(** What a manager that coordinates orders the manager of a branch to do; [x]:
    the transaction and the branch of the request. *)
Definition tm_branch (op : Z) (x : option (list Z * Z)) (sv : server) : server * outcome :=
  match x with
  | None => (sv, Ret EXFAIL TPESYSTEM)
  | Some (xid, btid) =>
      let '(sv, (ret, tperr)) := direct op (BranchXid xid btid) sv in
      (sv, if ret =? EXSUCCEED then Ret EXSUCCEED 0 else Ret EXFAIL tperr)
  end.

Definition tm_tmprepare (x : option (list Z * Z)) (sv : server) : server * outcome := tm_branch XA_OP_PREPARE x sv.
Definition tm_tmcommit (x : option (list Z * Z)) (sv : server) : server * outcome := tm_branch XA_OP_COMMIT x sv.
Definition tm_tmabort (x : option (list Z * Z)) (sv : server) : server * outcome := tm_branch XA_OP_ROLLBACK x sv.
Definition tm_tmforget (x : option (list Z * Z)) (sv : server) : server * outcome := tm_branch XA_OP_FORGET x sv.

Definition local_op (cmd : Z) : option Z :=
  if cmd =? ATMI_XA_COMMITLOCAL then Some XA_OP_COMMIT
  else if cmd =? ATMI_XA_ABORTLOCAL then Some XA_OP_ROLLBACK
  else if cmd =? ATMI_XA_FORGETLOCAL then Some XA_OP_FORGET else None.

(** One id of an operator's local command.  [reply_ok]: the reply could be
    filled and sent.  The answer has the [tperrno] of the call. *)
Definition tm_proclocal_single (cmd : Z) (x : list Z) (flags : Z) (reply_ok : bool) (sv : server) : server * outcome :=
  match local_op cmd with
  | None => (sv, Ret EXFAIL 0)
  | Some op =>
      let '(sv, (ret, tperr)) := direct op (LocalXid x) sv in
      (sv, if negb (Z.land flags TMFLAGS_NOCON =? 0) then Ret ret tperr
           else if reply_ok then Ret EXSUCCEED tperr else Ret EXFAIL tperr)
  end.

(** [load_ok], [chg_ok]: the reply fields could be set.  What fails is rolled
    back at the own resource manager; an entry that was made stays. *)
Definition tm_tpbegin (dflt_timeout : Z) (tid : Z) (xid : list Z) (rmid : Z)
    (tmflags txtout : option Z) (tstamp : Z) (load_ok chg_ok : bool) (sv : server) : option (server * outcome) :=
  match tmflags with
  | None => Some (sv, Ret EXFAIL 0)
  | Some tmflags =>
      let txtout := match txtout with Some t => if 0 >=? t then dflt_timeout else t | None => dflt_timeout end in
      let rollback sv btid err :=
        let r := direct XA_OP_ROLLBACK (BranchXid xid btid) sv in Some (r.1, Ret r.2.1 err) in
      if negb load_ok then rollback sv EXFAIL TPETRAN
      else
        match tms_log_start tid xid rmid txtout tmflags tstamp sv with
        | None => None
        | Some (sv, ok, btid) =>
            if negb ok then rollback sv btid TPETRAN
            else if negb chg_ok then rollback sv btid TPESYSTEM
            else Some (sv, Ret EXSUCCEED 0)
        end
  end.

(** The answer, the branch id and the flags of the reply. *)
Definition tm_tmregister (tid : Z) (callerrm : option Z) (xid : option (list Z)) (btid : Z + bool) (tmflags : option Z)
    (chg_btid_ok chg_flags_ok : bool) (sv : server) : option (server * outcome * Z * Z) :=
  match callerrm, xid, tmflags with
  | Some callerrm, Some xid, Some tmflags =>
      match btid with
      | inr false => Some (sv, Ret EXFAIL TPESYSTEM, EXFAIL, tmflags)
      | _ =>
          let present := match btid with inl _ => true | inr _ => false end in
          let btid := match btid with inl b => b | inr _ => EXFAIL end in
          match tms_log_addrm tid xid callerrm btid tmflags sv with
          | None => None
          | Some (sv, false, _, btid) => Some (sv, Ret EXFAIL TPESYSTEM, btid, tmflags)
          | Some (sv, true, known, btid) =>
              let tmflags := if known then Z.lor tmflags TMFLAGS_RMIDKNOWN else tmflags in
              if (negb present && negb chg_btid_ok) || negb chg_flags_ok
              then Some (sv, Ret EXFAIL TPESYSTEM, btid, tmflags)
              else Some (sv, Ret EXSUCCEED 0, btid, tmflags)
          end
      end
  | _, _, _ => Some (sv, Ret EXFAIL TPESYSTEM, EXFAIL, 0)
  end.

Definition tm_rmstatus (tid : Z) (callerrm : option Z) (xid : option (list Z)) (btid rmstatus : option Z)
    (chg_ok : bool) (sv : server) : option (server * outcome) :=
  match callerrm, xid, btid, rmstatus with
  | Some callerrm, Some xid, Some btid, Some rmstatus =>
      match tms_log_chrmstat tid xid callerrm btid rmstatus sv with
      | Some (sv, Ret ret err) =>
          if negb (ret =? EXSUCCEED) then Some (sv, Ret EXFAIL err)
          else if chg_ok then Some (sv, Ret EXSUCCEED 0) else Some (sv, Ret EXFAIL TPESYSTEM)
      | r => r
      end
  | _, _, _, _ => Some (sv, Ret EXFAIL TPESYSTEM)
  end.

(** *** Commands of the operator *)

Definition tm_aborttrans (tid : Z) (xid : option (list Z)) (sv : server) : option (server * outcome) :=
  match xid with
  | None => Some (sv, Ret EXFAIL TPESYSTEM)
  | Some xid =>
      match tms_log_get_entry tid xid sv with
      | (sv, GotLocked) => Some (sv, Ret EXFAIL TPETIME)
      | (sv, GotNone) => Some (sv, Ret EXFAIL TPEMATCH)
      | (sv, Got _) =>
          sv ← begin_abort xid sv;
          answer (drive_entry xid XA_OP_ROLLBACK 0 sv)
            (fun ret => if ret =? EXSUCCEED then Ret EXSUCCEED 0 else Ret EXFAIL ret)
      end
  end.

Definition tm_committrans (tid : Z) (xid : option (list Z)) (sv : server) : option (server * outcome) :=
  match xid with
  | None => Some (sv, Ret EXFAIL TPESYSTEM)
  | Some xid =>
      match tms_log_get_entry tid xid sv with
      | (sv, GotLocked) => Some (sv, Ret EXFAIL TPETIME)
      | (sv, GotNone) => Some (sv, Ret EXFAIL TPEMATCH)
      | (sv, Got en) =>
          if negb (txstage (en_tl en) =? XA_TX_STAGE_COMMITTING)
          then Some ((tms_unlock_entry tid xid sv).1, Ret EXFAIL TPEINVAL)
          else answer (drive_entry xid XA_OP_COMMIT 0 sv)
                 (fun ret => if ret =? EXSUCCEED then Ret EXSUCCEED 0 else Ret EXFAIL ret)
      end
  end.

(** [exists_file]: what [tms_log_exists_file] finds.  [chkdisk]: the check of
    the disk is on.  [cpy_ok]: the reply fields could be set. *)
Definition tm_status (exists_file : E -> E * Z) (chkdisk : bool) (tid : Z) (xid : option (list Z)) (cpy_ok : bool)
    (sv : server) : option (server * outcome) :=
  match xid with
  | None => Some (sv, Ret EXFAIL TPESYSTEM)
  | Some xid =>
      match tms_log_get_entry tid xid sv with
      | (sv, GotLocked) => Some (sv, Ret EXFAIL TPETIME)
      | (sv, GotNone) =>
          let r := if chkdisk then exists_file (sv_env sv) else (sv_env sv, EXFALSE) in
          let sv := env sv r.1 in
          if negb (r.2 =? EXFALSE) then Some (sv, Ret EXFAIL (if r.2 =? EXTRUE then TPESYSTEM else TPEOS))
          else Some ((call sv checkpointseq).1, Ret EXFAIL TPEMATCH)
      | (sv, Got en) => Some ((tms_unlock_entry tid xid sv).1, if cpy_ok then Ret EXSUCCEED 0 else Ret EXFAIL 0)
      end
  end.

(** ** Timeouts and the background thread *)

Definition COPY_MODE_FOREGROUND : Z := 1.
Definition COPY_MODE_BACKGROUND : Z := 2.

(** [fit]: how many copies there is memory for; the list ends there. *)
Definition tms_copy_hash2list (fit : nat) (copy_mode : Z) (sv : server) : list (list Z * entry) :=
  take fit (filter (fun x => Is_true (negb (Z.land copy_mode
    (if is_background (en_tl x.2) then COPY_MODE_BACKGROUND else COPY_MODE_FOREGROUND) =? 0)))
    (map_to_list (M_tx_hash sv))).

(** One transaction of the list; [el] is the copy, [expired] what the stopwatch
    of the copy says. *)
Definition tout_one (tid : Z) (expired : bool) (xid : list Z) (el : entry) (sv : server) : option (server * outcome) :=
  if expired && (txstage (en_tl el) =? XA_TX_STAGE_ACTIVE) then
    match tms_log_get_entry tid xid sv with
    | (sv, Got en) =>
        if txstage (en_tl en) =? XA_TX_STAGE_ACTIVE then
          sv ← begin_abort xid sv;
          answer (drive_entry xid XA_OP_ROLLBACK 0 sv) (fun _ => Ret EXSUCCEED 0)
        else Some (sv, Ret EXSUCCEED 0)
    | (sv, _) => Some (sv, Ret EXSUCCEED 0)
    end
  else Some (sv, Ret EXSUCCEED 0).

(** The loops over the copied list end when the process does. *)
Fixpoint over_list (f : list Z -> entry -> server -> option (server * outcome)) (l : list (list Z * entry)) (sv : server)
    : option (server * outcome) :=
  match l with
  | [] => Some (sv, Ret EXSUCCEED 0)
  | (xid, el) :: l =>
      match f xid el sv with
      | Some (sv, Ret ret _) => if ret =? EXSUCCEED then over_list f l sv else Some (sv, Ret ret 0)
      | r => r
      end
  end.

(** [in_progress]: another thread is checking. *)
Definition tx_tout_check_th (fit : nat) (tid : Z) (in_progress : bool) (expired : list Z -> bool) (sv : server)
    : option (server * outcome) :=
  if in_progress then Some (sv, Ret EXSUCCEED 0)
  else over_list (fun xid el => tout_one tid (expired xid) xid el) (tms_copy_hash2list fit COPY_MODE_FOREGROUND sv) sv.

(** One transaction of the background list. *)
Definition background_one (tid max_tries : Z) (xid : list Z) (el : entry) (sv : server) : option (server * outcome) :=
  if max_tries <=? trycount el then Some (sv, Ret EXSUCCEED 0)
  else
    match tms_log_get_entry tid xid sv with
    | (sv, Got en) =>
        let sv := put sv xid (inc_try en) in
        let '(sv, ok) := call sv checkpointseq in
        if negb ok then Some (sv, Ret EXFAIL 0)
        else answer (drive_entry xid XA_OP_COMMIT 0 sv) (fun _ => Ret EXSUCCEED 0)
    | (sv, _) => Some (sv, Ret EXSUCCEED 0)
    end.

(** One pass of [background_loop] over the transactions. *)
Definition background_pass (fit : nat) (tid max_tries : Z) (sv : server) : option (server * outcome) :=
  over_list (background_one tid max_tries) (tms_copy_hash2list fit COPY_MODE_BACKGROUND sv) sv.

(** ** What a thread can do

    A service thread [tid] runs to the end.  [adm]: an operator may abort a
    transaction that is committing. *)
Inductive service (adm : bool) (tid : Z) (sv : server) : server -> outcome -> Prop :=
  | sv_begin dflt xid rmid fl tout ts l c sv' r :
      tm_tpbegin dflt tid xid rmid fl tout ts l c sv = Some (sv', r) -> service adm tid sv sv' r
  | sv_register rm xid b fl c1 c2 sv' r b' fl' :
      tm_tmregister tid rm xid b fl c1 c2 sv = Some (sv', r, b', fl') -> service adm tid sv sv' r
  | sv_rmstatus rm xid b st c sv' r : tm_rmstatus tid rm xid b st c sv = Some (sv', r) -> service adm tid sv sv' r
  | sv_commit xid fl sv' r : tm_tpcommit tid xid fl sv = Some (sv', r) -> service adm tid sv sv' r
  | sv_abort xid sv' r : tm_tpabort tid xid sv = Some (sv', r) -> service adm tid sv sv' r
  | sv_committrans xid sv' r : tm_committrans tid xid sv = Some (sv', r) -> service adm tid sv sv' r
  | sv_status ef cd xid c sv' r : tm_status ef cd tid xid c sv = Some (sv', r) -> service adm tid sv sv' r
  | sv_tmprepare x sv' r : tm_tmprepare x sv = (sv', r) -> service adm tid sv sv' r
  | sv_tmcommit x sv' r : tm_tmcommit x sv = (sv', r) -> service adm tid sv sv' r
  | sv_tmabort x sv' r : tm_tmabort x sv = (sv', r) -> service adm tid sv sv' r
  | sv_tmforget x sv' r : tm_tmforget x sv = (sv', r) -> service adm tid sv sv' r
  | sv_local cmd x fl c sv' r : tm_proclocal_single cmd x fl c sv = (sv', r) -> service adm tid sv sv' r
  | sv_aborttrans xid sv' r : tm_aborttrans tid xid sv = Some (sv', r) ->
      adm = true \/ (forall x en, xid = Some x -> M_tx_hash sv !! x = Some en -> phase_of (txstage (en_tl en)) <> Committing) ->
      service adm tid sv sv' r.

(** A step of a thread: a service, a transaction of a timeout check or of a
    background pass, or a transaction loaded from its log.  The world outside
    changes freely between steps. *)
Inductive step (adm : bool) (sv : server) : server -> Prop :=
  | step_service tid sv' r : service adm tid sv sv' r -> step adm sv sv'
  | step_tout tid ex xid el sv' r : tout_one tid ex xid el sv = Some (sv', r) -> step adm sv sv'
  | step_background tid mt xid el sv' r : background_one tid mt xid el sv = Some (sv', r) -> step adm sv sv'
  | step_load le xid f s t f' : M_tx_hash sv !! xid = None ->
      tms_load_logfile write_line fsync checkpointseq le (sv_env sv) f = Some (LoadOk s t f') ->
      step adm sv (put (env sv (s_env s)) xid {| en_t := t; en_tr := s_trace s; lockthreadid := 0; trycount := 0 |})
  | step_world e : step adm sv (env sv e).

(** Servers reached from an empty table. *)
Definition reached (adm : bool) (sv : server) : Prop :=
  exists sv0, M_tx_hash sv0 = ∅ /\ sv_done sv0 = [] /\ rtc (step adm) sv0 sv.

(** ** Steps of one entry

    What happens to an entry while it is held.  [adm]: an operator may abort
    what is committing. *)
Definition entry_at (e : E) (en : entry) : st E := {| s_env := e; s_trace := en_tr en; s_tl := en_tl en |}.

Inductive estep (adm : bool) (en : entry) : entry -> Prop :=
  | es_lock tid : estep adm en (with_lock en tid)
  | es_try : estep adm en (inc_try en)
  | es_prepare e s' ok : txstage (en_tl en) = XA_TX_STAGE_ACTIVE ->
      tms_log_stage write_line fsync checkpointseq (entry_at e en) XA_TX_STAGE_PREPARING false = (s', ok) ->
      estep adm en (with_st en s')
  | es_abort e s' ok : adm = true \/ phase_of (txstage (en_tl en)) <> Committing ->
      tms_log_stage write_line fsync checkpointseq (entry_at e en) XA_TX_STAGE_ABORTING true = (s', ok) ->
      estep adm en (with_st en s')
  | es_drive e op flags o :
      tm_drive rm_call write_line fsync checkpointseq growlist xa_retries (drive_fuel xa_retries) (entry_at e en) op flags
        = Some o -> d_finished o = false -> estep adm en (with_st en (d_st o))
  | es_branch ok rmid btid t b known : tms_btid_addupd ok (en_t en) rmid btid XA_RM_STATUS_NULL 0 0 = Some (t, b, known) ->
      estep adm en (with_t en t)
  | es_own rmid : estep adm en (with_t en (tms_btid_gettid (en_t en) rmid).1)
  | es_add rmid btid t : tms_btid_add true (en_t en) rmid btid XA_RM_STATUS_NULL 0 0 = Some t ->
      estep adm en (with_t en t)
  | es_status e bt status s' bt' ok l :
      tms_log_rmstatus write_line (entry_at e en) bt status 0 0 = (s', bt', ok) ->
      estep adm en (with_st en (with_tl s' (set_branches (s_tl s') l))).

(** Several of them. *)
Definition esteps (adm : bool) : entry -> entry -> Prop := rtc (estep adm).

(** An entry that can be taken: free, or new. *)
Definition origin (sv : server) (xid : list Z) (en : entry) : Prop :=
  (M_tx_hash sv !! xid = Some en /\ lockthreadid en = 0) \/
  (M_tx_hash sv !! xid = None /\ exists tid txtout ts, en = new_entry tid txtout ts).

(** The table behind a service for [xid]: as it was, or the entry, found free
    or new, went through steps and is back, or finished, or dropped.  [held]:
    it may still be locked by the thread. *)
Inductive handled (adm held : bool) (tid : Z) (xid : list Z) (sv sv' : server) : Prop :=
  | h_none : M_tx_hash sv' = M_tx_hash sv -> sv_done sv' = sv_done sv -> handled adm held tid xid sv sv'
  | h_back en en' : origin sv xid en -> esteps adm en en' ->
      M_tx_hash sv' = <[xid := en']> (M_tx_hash sv) -> sv_done sv' = sv_done sv ->
      lockthreadid en' = 0 \/ (held = true /\ lockthreadid en' = tid) -> handled adm held tid xid sv sv'
  | h_finished en en' e op flags o : origin sv xid en -> esteps adm en en' ->
      tm_drive rm_call write_line fsync checkpointseq growlist xa_retries (drive_fuel xa_retries) (entry_at e en') op flags
        = Some o -> d_exited o = false -> M_tx_hash sv' = delete xid (M_tx_hash sv) ->
      sv_done sv' = (xid, s_trace (d_st o), branches (s_tl (d_st o))) :: sv_done sv -> handled adm held tid xid sv sv'
  | h_dropped : (forall en, M_tx_hash sv !! xid = Some en -> lockthreadid en = 0) ->
      M_tx_hash sv' = delete xid (M_tx_hash sv) -> sv_done sv' = sv_done sv -> handled adm held tid xid sv sv'.

(** *** The operations on an entry *)

Lemma estep_one adm en en' : estep adm en en' -> esteps adm en en'.
Proof. apply rtc_once. Qed.

Lemma stage_entry_spec xid n forced sv sv' ok en : M_tx_hash sv !! xid = Some en ->
  stage_entry xid n forced sv = Some (sv', ok) ->
  exists s', tms_log_stage write_line fsync checkpointseq (entry_at (sv_env sv) en) n forced = (s', ok) /\
    M_tx_hash sv' = <[xid := with_st en s']> (M_tx_hash sv) /\ sv_done sv' = sv_done sv.
Proof.
  intros He. unfold stage_entry. rewrite He. cbn. intros [= <- <-]. eexists. split; [apply surjective_pairing|done].
Qed.

Lemma drive_entry_spec xid op flags sv sv' r en : M_tx_hash sv !! xid = Some en ->
  drive_entry xid op flags sv = Some (sv', r) ->
  exists o, tm_drive rm_call write_line fsync checkpointseq growlist xa_retries (drive_fuel xa_retries)
      (entry_at (sv_env sv) en) op flags = Some o /\
    ((r = None /\ d_exited o = true /\ M_tx_hash sv' = <[xid := with_st en (d_st o)]> (M_tx_hash sv) /\
      sv_done sv' = sv_done sv) \/
     (r = Some (d_ret o) /\ d_exited o = false /\ d_finished o = true /\ M_tx_hash sv' = delete xid (M_tx_hash sv) /\
      sv_done sv' = (xid, s_trace (d_st o), branches (s_tl (d_st o))) :: sv_done sv) \/
     (r = Some (d_ret o) /\ d_exited o = false /\ d_finished o = false /\
      M_tx_hash sv' = <[xid := with_st (with_lock en 0) (d_st o)]> (M_tx_hash sv) /\ sv_done sv' = sv_done sv)).
Proof.
  intros He. unfold drive_entry. rewrite He. cbn [mbind option_bind].
  intros (o & Ho & Hr)%bind_Some_inv. exists o. split; [exact Ho|].
  destruct (d_exited o); [simplify_eq; left; done|]. right. destruct (d_finished o); simplify_eq; [left|right]; done.
Qed.

Lemma exited_unfinished fuel s op flags o :
  tm_drive rm_call write_line fsync checkpointseq growlist xa_retries fuel s op flags = Some o ->
  d_exited o = true -> d_finished o = false.
Proof.
  unfold tm_drive, drive_result. intros ([s' e] & _ & [= <-])%bind_Some_inv. cbn [fst snd].
  destruct e; cbn; [|done..]. by destruct (_ && _).
Qed.

(** The thread holds the entry of [xid], now [en'], in the course of a service
    that began in [sv0]. *)
Definition holding (adm : bool) (tid : Z) (xid : list Z) (sv0 sv : server) (en' : entry) : Prop :=
  exists en, origin sv0 xid en /\ esteps adm en en' /\ M_tx_hash sv = <[xid := en']> (M_tx_hash sv0) /\
    sv_done sv = sv_done sv0 /\ lockthreadid en' = tid.

Lemma holding_lookup adm tid xid sv0 sv en : holding adm tid xid sv0 sv en -> M_tx_hash sv !! xid = Some en.
Proof. intros (? & _ & _ & -> & _). apply lookup_insert_eq. Qed.

Lemma holding_step adm tid xid sv0 sv sv' en en' : holding adm tid xid sv0 sv en -> estep adm en en' ->
  M_tx_hash sv' = <[xid := en']> (M_tx_hash sv) -> sv_done sv' = sv_done sv -> lockthreadid en' = lockthreadid en ->
  holding adm tid xid sv0 sv' en'.
Proof.
  intros (en0 & Ho & Hs & Hh & Hd & Hl) Hst Hh' Hd' Hl'. exists en0. split; [done|].
  split; [by eapply rtc_r|]. split; [|split; congruence]. by rewrite Hh', Hh, insert_insert_eq.
Qed.

Lemma holding_env adm tid xid sv0 sv en e : holding adm tid xid sv0 sv en -> holding adm tid xid sv0 (env sv e) en.
Proof. done. Qed.

Lemma get_entry_spec adm tid xid sv sv' g : tms_log_get_entry tid xid sv = (sv', g) ->
  match g with
  | Got en => exists en0, M_tx_hash sv !! xid = Some en0 /\ lockthreadid en0 = 0 /\ en = with_lock en0 tid /\
      holding adm tid xid sv sv' en
  | GotNone => sv' = sv /\ M_tx_hash sv !! xid = None
  | GotLocked => sv' = sv /\ exists en, M_tx_hash sv !! xid = Some en /\ lockthreadid en <> 0
  end.
Proof.
  unfold tms_log_get_entry. destruct (M_tx_hash sv !! xid) as [r|] eqn:He; [|by intros [= <- <-]].
  destruct (Z.eqb_spec (lockthreadid r) 0) as [Hl|Hl]; intros [= <- <-]; [|eauto].
  exists r. split_and!; [done..|]. exists r. split; [left; done|]. split; [apply estep_one, es_lock|]. done.
Qed.

Lemma unlock_handled adm held tid xid sv0 sv en : holding adm tid xid sv0 sv en ->
  handled adm held tid xid sv0 (tms_unlock_entry tid xid sv).1.
Proof.
  intros Hh. unfold tms_unlock_entry. rewrite (holding_lookup _ _ _ _ _ _ Hh).
  destruct Hh as (en0 & Ho & Hs & Hm & Hd & Hl). rewrite Hl, Z.eqb_refl. cbn [fst].
  eapply h_back; [exact Ho|eapply rtc_r; [exact Hs|apply (es_lock _ _ 0)]| |exact Hd|by left]. cbn. by rewrite Hm, insert_insert_eq.
Qed.

Lemma abort_holding adm tid xid sv0 sv sv' en : holding adm tid xid sv0 sv en ->
  begin_abort xid sv = Some sv' -> adm = true \/ phase_of (txstage (en_tl en)) <> Committing ->
  exists en', holding adm tid xid sv0 sv' en'.
Proof.
  intros Hh. unfold begin_abort. intros ([sv1 ok] & H1 & [= <-])%bind_Some_inv Hg. cbn [fst].
  destruct (stage_entry_spec _ _ _ _ _ _ _ (holding_lookup _ _ _ _ _ _ Hh) H1) as (s' & Hs & Hm & Hd).
  eexists. eapply holding_step; [exact Hh|by eapply es_abort|exact Hm|exact Hd|done].
Qed.

Lemma drive_handled adm tid xid sv0 sv sv' op flags r f en : holding adm tid xid sv0 sv en ->
  answer (drive_entry xid op flags sv) f = Some (sv', r) -> (forall ret, f ret <> Exit) ->
  handled adm (match r with Exit => true | _ => false end) tid xid sv0 sv'.
Proof.
  intros Hh Ha Hf. unfold answer in Ha. destruct (drive_entry xid op flags sv) as [[sv1 x]|] eqn:Hd; [|done].
  destruct (drive_entry_spec _ _ _ _ _ _ _ (holding_lookup _ _ _ _ _ _ Hh) Hd) as (o & Ho & Hc).
  destruct Hh as (en0 & Hor & Hs & Hm & Hdn & Hl).
  destruct Hc as [(-> & Hx & Hm1 & Hd1)|[(-> & Hx & Hfin & Hm1 & Hd1)|(-> & Hx & Hfin & Hm1 & Hd1)]]; simplify_eq.
  - eapply h_back; [exact Hor|eapply rtc_r; [exact Hs|by eapply es_drive; [exact Ho|eapply exited_unfinished]]| | |by right].
    + by rewrite Hm1, Hm, insert_insert_eq.
    + congruence.
  - eapply h_finished; [exact Hor|exact Hs|exact Ho|exact Hx| |congruence]. rewrite Hm1, Hm. apply delete_insert_eq.
  - eapply (h_back _ _ _ _ _ _ _ (with_st (with_lock en 0) (d_st o))); [exact Hor| | | |by left].
    + eapply rtc_r; [eapply rtc_r; [exact Hs|apply (es_lock _ _ 0)]|]. by apply (es_drive _ _ (sv_env sv) op flags o).
    + by rewrite Hm1, Hm, insert_insert_eq.
    + congruence.
Qed.

Lemma prepare_holding adm tid xid sv0 sv sv' ok en : holding adm tid xid sv0 sv en ->
  txstage (en_tl en) = XA_TX_STAGE_ACTIVE -> stage_entry xid XA_TX_STAGE_PREPARING false sv = Some (sv', ok) ->
  exists en' e s', holding adm tid xid sv0 sv' en' /\ en' = with_st en s' /\
    tms_log_stage write_line fsync checkpointseq (entry_at e en) XA_TX_STAGE_PREPARING false = (s', ok) /\
    txstage (en_tl en') = if ok then XA_TX_STAGE_PREPARING else XA_TX_STAGE_ACTIVE.
Proof.
  intros Hh Hst H1.
  destruct (stage_entry_spec _ _ _ _ _ _ _ (holding_lookup _ _ _ _ _ _ Hh) H1) as (s' & Hs & Hm & Hd).
  eexists _, _, _. split; [eapply holding_step; [exact Hh|by eapply es_prepare|exact Hm|exact Hd|done]|].
  split; [done|]. split; [exact Hs|].
  destruct (tms_log_stage_spec write_line fsync checkpointseq (entry_at (sv_env sv) en) XA_TX_STAGE_PREPARING false)
    as (k & ws & s1 & He & _ & Htl & _); [cbn; by rewrite Hst..|].
  rewrite He in Hs. injection Hs as <- <-. unfold en_tl in *. cbn. rewrite Htl. cbn [orb]. destruct k; [done|].
  cbn. exact Hst.
Qed.

Lemma call_holding adm tid xid sv0 sv sv' en f ok : holding adm tid xid sv0 sv en -> call sv f = (sv', ok) ->
  holding adm tid xid sv0 sv' en.
Proof. intros Hh [= <- _]. exact Hh. Qed.

Lemma status_holding adm tid xid sv0 sv sv' en rmid btid status ok : holding adm tid xid sv0 sv en ->
  rmstatus_entry xid rmid btid status sv = Some (sv', ok) -> exists en', holding adm tid xid sv0 sv' en'.
Proof.
  intros Hh. unfold rmstatus_entry. rewrite (holding_lookup _ _ _ _ _ _ Hh). cbn [mbind option_bind].
  intros (bt & _ & Hr)%bind_Some_inv. destruct (tms_log_rmstatus _ _ _ _ _ _) as [[s1 bt'] k] eqn:Hs. simplify_eq.
  eexists. eapply holding_step; [exact Hh|by eapply (es_status _ _ _ _ _ s1)|done|done|done].
Qed.

(** *** The services *)

Lemma tm_tpabort_handled tid xid sv sv' r : tm_tpabort tid (Some xid) sv = Some (sv', r) ->
  handled false (match r with Exit => true | _ => false end) tid xid sv sv'.
Proof.
  unfold tm_tpabort. destruct (tms_log_get_entry tid xid sv) as [sv1 g] eqn:Hg. apply (get_entry_spec false) in Hg.
  destruct g as [| |en]; [destruct Hg as [-> _]; intros [= <- <-]; by apply h_none..|].
  destruct Hg as (en0 & _ & _ & _ & Hh). destruct (_ || _) eqn:Hc.
  { intros [= <- <-]. by eapply unlock_handled. }
  intros (sv2 & H1 & H2)%bind_Some_inv.
  destruct (abort_holding _ _ _ _ _ _ _ Hh H1) as [en' Hh'].
  { right. replace (txstage (en_tl en)) with XA_TX_STAGE_ACTIVE by lia. done. }
  by eapply drive_handled.
Qed.

Lemma tm_tpcommit_handled tid xid fl sv sv' r : tm_tpcommit tid (Some xid) fl sv = Some (sv', r) ->
  handled false (match r with Exit => true | _ => false end) tid xid sv sv'.
Proof.
  unfold tm_tpcommit. destruct fl as [fl|]; [|intros [= <- <-]; by apply h_none].
  destruct (tms_log_get_entry tid xid sv) as [sv1 g] eqn:Hg. apply (get_entry_spec false) in Hg.
  destruct g as [| |en]; [destruct Hg as [-> _]; intros [= <- <-]; by apply h_none..|].
  destruct Hg as (en0 & _ & _ & _ & Hh). destruct (_ || _) eqn:Hc.
  { intros [= <- <-]. by eapply unlock_handled. }
  intros ([sv2 ok] & H1 & H2)%bind_Some_inv. cbn [fst snd] in H2.
  destruct (prepare_holding _ _ _ _ _ _ _ _ Hh ltac:(lia) H1) as (en' & e & s' & Hh' & _ & _ & Hst).
  destruct ok; [eapply drive_handled; [exact Hh'|exact H2|intros ret; cbv beta; by destruct (ret =? EXSUCCEED)]|].
  apply bind_Some_inv in H2 as (sv3 & H3 & H4).
  destruct (abort_holding _ _ _ _ _ _ _ Hh' H3) as [en2 Hh2]; [right; by rewrite Hst|].
  eapply drive_handled; [exact Hh2|exact H4|intros ret; cbv beta; by destruct (ret =? EXSUCCEED)].
Qed.

Lemma tm_committrans_handled tid xid sv sv' r : tm_committrans tid (Some xid) sv = Some (sv', r) ->
  handled false (match r with Exit => true | _ => false end) tid xid sv sv'.
Proof.
  unfold tm_committrans. destruct (tms_log_get_entry tid xid sv) as [sv1 g] eqn:Hg. apply (get_entry_spec false) in Hg.
  destruct g as [| |en]; [destruct Hg as [-> _]; intros [= <- <-]; by apply h_none..|].
  destruct Hg as (en0 & _ & _ & _ & Hh). destruct (negb _).
  { intros [= <- <-]. by eapply unlock_handled. }
  intros H2. eapply drive_handled; [exact Hh|exact H2|intros ret; cbv beta; by destruct (ret =? EXSUCCEED)].
Qed.

Lemma tm_status_handled ef cd tid xid c sv sv' r : tm_status ef cd tid (Some xid) c sv = Some (sv', r) ->
  handled false false tid xid sv sv' /\ r <> Exit.
Proof.
  unfold tm_status. destruct (tms_log_get_entry tid xid sv) as [sv1 g] eqn:Hg. apply (get_entry_spec false) in Hg.
  destruct g as [| |en].
  - destruct Hg as [-> _]. destruct (negb _); intros [= <- <-]; (split; [by apply h_none|done]).
  - destruct Hg as [-> _]. intros [= <- <-]. split; [by apply h_none|done].
  - destruct Hg as (en0 & _ & _ & _ & Hh). intros [= <- <-]. split; [by eapply unlock_handled|by destruct c].
Qed.

Lemma tm_aborttrans_handled adm tid xid sv sv' r : tm_aborttrans tid (Some xid) sv = Some (sv', r) ->
  adm = true \/ (forall en, M_tx_hash sv !! xid = Some en -> phase_of (txstage (en_tl en)) <> Committing) ->
  handled adm (match r with Exit => true | _ => false end) tid xid sv sv'.
Proof.
  unfold tm_aborttrans. destruct (tms_log_get_entry tid xid sv) as [sv1 g] eqn:Hg. apply (get_entry_spec adm) in Hg.
  destruct g as [| |en]; [destruct Hg as [-> _]; intros [= <- <-] _; by apply h_none..|].
  destruct Hg as (en0 & He & _ & -> & Hh). intros (sv2 & H1 & H2)%bind_Some_inv Ha.
  destruct (abort_holding _ _ _ _ _ _ _ Hh H1) as [en' Hh']; [destruct Ha as [|Ha]; [by left|right; exact (Ha en0 He)]|].
  eapply drive_handled; [exact Hh'|exact H2|intros ret; cbv beta; by destruct (ret =? EXSUCCEED)].
Qed.

Lemma tms_log_addrm_handled tid xid rmid btid flags sv sv' ok known b :
  tms_log_addrm tid xid rmid btid flags sv = Some (sv', ok, known, b) -> handled false false tid xid sv sv'.
Proof.
  unfold tms_log_addrm. destruct (tms_log_get_entry tid xid sv) as [sv1 g] eqn:Hg. apply (get_entry_spec false) in Hg.
  destruct g as [| |en]; [destruct Hg as [-> _]; intros [= <- <- <- <-]; by apply h_none..|].
  destruct Hg as (en0 & _ & _ & _ & Hh).
  destruct (_ || _); [intros [= <- <- <- <-]; by eapply unlock_handled|].
  destruct (_ || _); [intros [= <- <- <- <-]; by eapply unlock_handled|].
  destruct (call sv1 malloc) as [sv2 k] eqn:Hc. pose proof (call_holding _ _ _ _ _ _ _ _ _ Hh Hc) as Hh2.
  destruct (tms_btid_addupd _ _ _ _ _ _ _) as [[[t b1] kn]|] eqn:Hb; [|done].
  assert (holding false tid xid sv (put sv2 xid (with_t en t)) (with_t en t)) as Hh3.
  { eapply holding_step; [exact Hh2|by eapply es_branch|done..]. }
  destruct kn; [intros [= <- <- <- <-]; by eapply unlock_handled|].
  intros ([sv3 k3] & H3 & [= <- <- <- <-])%bind_Some_inv.
  destruct (status_holding _ _ _ _ _ _ _ _ _ _ _ Hh3 H3) as [en4 Hh4]. by eapply unlock_handled.
Qed.

Lemma tms_log_chrmstat_handled tid xid rmid btid status sv sv' r :
  tms_log_chrmstat tid xid rmid btid status sv = Some (sv', r) -> handled false false tid xid sv sv' /\ r <> Exit.
Proof.
  unfold tms_log_chrmstat. destruct (tms_log_get_entry tid xid sv) as [sv1 g] eqn:Hg. apply (get_entry_spec false) in Hg.
  destruct g as [| |en]; [destruct Hg as [-> _]; intros [= <- <-]; split; [by apply h_none|done]..|].
  destruct Hg as (en0 & _ & _ & _ & Hh). destruct (tms_btid_find _ _ _) as [bt|]; [|done].
  destruct (negb _); [intros [= <- <-]; split; [by eapply unlock_handled|done]|].
  intros ([sv3 k3] & H3 & [= <- <-])%bind_Some_inv.
  destruct (status_holding _ _ _ _ _ _ _ _ _ _ _ Hh H3) as [en4 Hh4]. split; [by eapply unlock_handled|by destruct k3].
Qed.

Lemma start_branch_holding tid xid rmid fl sv0 sv sv' ok b en : holding false tid xid sv0 sv en ->
  start_branch xid rmid fl sv = Some (sv', ok, b) -> exists en', holding false tid xid sv0 sv' en'.
Proof.
  intros Hh. unfold start_branch. destruct (_ =? _); [|intros [= <- <- <-]; eauto].
  rewrite (holding_lookup _ _ _ _ _ _ Hh). cbn [mbind option_bind].
  destruct (tms_btid_gettid (en_t en) rmid) as [t b1] eqn:Ht. destruct (call sv malloc) as [sv2 k] eqn:Hc.
  pose proof (call_holding _ _ _ _ _ _ _ _ _ Hh Hc) as Hh2.
  assert (holding false tid xid sv0 (put sv2 xid (with_t en t)) (with_t en t)) as Hh3.
  { eapply holding_step; [exact Hh2| |done..]. replace t with (tms_btid_gettid (en_t en) rmid).1 by by rewrite Ht. apply es_own. }
  destruct (tms_btid_add k t rmid b1 XA_RM_STATUS_NULL 0 0) as [t2|] eqn:Ha; [|intros [= <- <- <-]; eauto].
  assert (holding false tid xid sv0 (put sv2 xid (with_t en t2)) (with_t en t2)) as Hh4.
  { destruct k; [|done]. eapply (holding_step _ _ _ _ _ _ (with_t en t) (with_t en t2)); [exact Hh3| | |done|done].
    - by apply (es_add _ (with_t en t) rmid b1 t2).
    - cbn. by rewrite insert_insert_eq. }
  intros ([sv5 k5] & H5 & [= <- <- <-])%bind_Some_inv. by eapply status_holding.
Qed.

Lemma tms_log_start_handled tid xid rmid tout fl ts sv sv' ok b :
  tms_log_start tid xid rmid tout fl ts sv = Some (sv', ok, b) -> handled false false tid xid sv sv'.
Proof.
  unfold tms_log_start, tms_log_exists_entry, call. destruct (negb _); [done|].
  destruct (negb _); [intros [= <- <- <-]; by apply h_none|].
  destruct (bool_decide_reflect (is_Some (M_tx_hash (env (env sv (malloc (sv_env sv)).1)
    (setseq (sv_env (env sv (malloc (sv_env sv)).1))).1) !! xid))) as [|Hn]; [done|]. cbn [M_tx_hash env] in Hn.
  assert (M_tx_hash sv !! xid = None) as Hx by by apply eq_None_not_Some.
  destruct (negb _); [|destruct (negb _)].
  - intros [= <- <- <-]. apply h_dropped; [by rewrite Hx|apply delete_insert_eq|done].
  - intros [= <- <- <-]. apply h_dropped; [by rewrite Hx|apply delete_insert_eq|done].
  - intros ([[sv5 k5] b5] & H5 & Hr)%bind_Some_inv. cbn [fst snd] in Hr.
    eapply (start_branch_holding tid _ _ _ sv) in H5 as [en' Hh'].
    2:{ exists (new_entry tid tout ts). split; [right; eauto|]. split; [constructor|]. done. }
    destruct k5; injection Hr as <- <- <-; [by eapply unlock_handled|].
    destruct Hh' as (_ & _ & _ & Hm & Hd & _). apply h_dropped; [by rewrite Hx| |exact Hd]. cbn. rewrite Hm.
    apply delete_insert_eq.
Qed.

Lemma tout_one_handled tid ex xid el sv sv' r : tout_one tid ex xid el sv = Some (sv', r) ->
  handled false true tid xid sv sv'.
Proof.
  unfold tout_one. destruct (ex && _); [|intros [= <- <-]; by apply h_none].
  destruct (tms_log_get_entry tid xid sv) as [sv1 g] eqn:Hg. apply (get_entry_spec false) in Hg.
  destruct g as [| |en]; [destruct Hg as [-> _]; intros [= <- <-]; by apply h_none..|].
  destruct Hg as (en0 & _ & _ & _ & Hh). destruct (Z.eqb_spec (txstage (en_tl en)) XA_TX_STAGE_ACTIVE) as [Hs|Hs].
  - intros (sv2 & H1 & H2)%bind_Some_inv.
    destruct (abort_holding _ _ _ _ _ _ _ Hh H1) as [en' Hh']; [right; by rewrite Hs|].
    eapply drive_handled in H2; [|exact Hh'|done]. destruct H2; [by apply h_none|eapply h_back; eauto; intuition|
      by eapply h_finished|by apply h_dropped].
  - intros [= <- <-]. destruct Hh as (en1 & Ho & He & Hm & Hd & Hl). eapply h_back; eauto.
Qed.

Lemma background_one_handled tid mt xid el sv sv' r : background_one tid mt xid el sv = Some (sv', r) ->
  handled false true tid xid sv sv'.
Proof.
  unfold background_one. destruct (_ <=? _); [intros [= <- <-]; by apply h_none|].
  destruct (tms_log_get_entry tid xid sv) as [sv1 g] eqn:Hg. apply (get_entry_spec false) in Hg.
  destruct g as [| |en]; [destruct Hg as [-> _]; intros [= <- <-]; by apply h_none..|].
  destruct Hg as (en0 & _ & _ & _ & Hh).
  assert (holding false tid xid sv (put sv1 xid (inc_try en)) (inc_try en)) as Hh2.
  { eapply holding_step; [exact Hh|apply es_try|done..]. }
  destruct (call _ checkpointseq) as [sv2 k] eqn:Hc. pose proof (call_holding _ _ _ _ _ _ _ _ _ Hh2 Hc) as Hh3.
  destruct k; cbn [negb].
  - intros H2. eapply drive_handled in H2; [|exact Hh3|done]. destruct H2; [by apply h_none|eapply h_back; eauto; intuition|
      by eapply h_finished|by apply h_dropped].
  - intros [= <- <-]. destruct Hh3 as (en1 & Ho & He & Hm & Hd & Hl). eapply h_back; eauto.
Qed.

(** Whatever the thread does, it is done to one transaction. *)
Lemma handled_none adm held tid xid sv sv' : M_tx_hash sv' = M_tx_hash sv -> sv_done sv' = sv_done sv ->
  handled adm held tid xid sv sv'.
Proof. by constructor. Qed.

Lemma handled_mono adm held tid xid sv sv' : handled false held tid xid sv sv' -> handled adm held tid xid sv sv'.
Proof.
  assert (forall en en', esteps false en en' -> esteps adm en en') as Hm.
  { intros en en'. apply rtc_subrel. intros x y Hxy.
    destruct Hxy as [| | |e s ok [|Hp] Hs| | | | |]; [..|done| | | | | |]; eauto using estep. }
  destruct 1; [by apply h_none|eapply h_back; eauto|eapply h_finished; eauto|by apply h_dropped].
Qed.

(** Direct calls leave the table alone. *)
Lemma tm_branch_table op x sv sv' r : tm_branch op x sv = (sv', r) ->
  M_tx_hash sv' = M_tx_hash sv /\ sv_done sv' = sv_done sv /\ r <> Exit.
Proof.
  unfold tm_branch, direct. destruct x as [[xid btid]|]; [|by intros [= <- <-] ].
  destruct (rm_local _ _ _) as [e [ret tperr] ]. cbn. destruct (ret =? _); by intros [= <- <-].
Qed.

Lemma tm_proclocal_table cmd x fl c sv sv' r : tm_proclocal_single cmd x fl c sv = (sv', r) ->
  M_tx_hash sv' = M_tx_hash sv /\ sv_done sv' = sv_done sv.
Proof.
  unfold tm_proclocal_single, direct. destruct (local_op cmd); [|by intros [= <- <-] ].
  destruct (rm_local _ _ _) as [e [ret tperr] ]. cbn. by intros [= <- <-].
Qed.

Lemma service_handled adm tid sv sv' r : service adm tid sv sv' r ->
  exists xid, handled adm (match r with Exit => true | _ => false end) tid xid sv sv'.
Proof.
  assert (forall held xid, handled false held tid xid sv sv' -> exists x, handled adm held tid x sv sv') as Hm.
  { intros held xid H. exists xid. by apply handled_mono. }
  destruct 1 as [dflt xid rmid fl tout ts l c sv' r H|rm xid b fl c1 c2 sv' r b' fl' H|rm xid b st c sv' r H|xid fl sv' r H
    |xid sv' r H|xid sv' r H|ef cd xid c sv' r H|x sv' r H|x sv' r H|x sv' r H|x sv' r H|cmd x fl c sv' r H|xid sv' r H Ha].
  - exists xid. apply handled_mono. unfold tm_tpbegin in H. destruct fl as [fl|]; [|simplify_eq; by apply h_none].
    destruct (negb l); [simplify_eq; by apply h_none|].
    destruct (tms_log_start _ _ _ _ _ _ _) as [[[sv1 ok] b]|] eqn:Hs; [|done]. apply tms_log_start_handled in Hs.
    destruct (negb ok); [|destruct (negb c)]; simplify_eq; destruct Hs; eauto using handled.
  - unfold tm_tmregister in H. destruct rm, xid as [xid|], fl; try (simplify_eq; exists []; by apply h_none).
    apply (Hm _ xid). destruct b as [b|[]]; try (simplify_eq; by apply h_none).
    all: destruct (tms_log_addrm _ _ _ _ _ _) as [[[[sv1 []] kn] b1]|] eqn:Hs; try done; apply tms_log_addrm_handled in Hs;
      repeat case_match; simplify_eq; exact Hs.
  - unfold tm_rmstatus in H. destruct rm, xid as [xid|], b, st; try (simplify_eq; exists []; by apply h_none).
    apply (Hm _ xid). destruct (tms_log_chrmstat _ _ _ _ _ _) as [[sv1 r1]|] eqn:Hs; [|done].
    apply tms_log_chrmstat_handled in Hs as [Hs Hx]. destruct r1; [|done]. repeat case_match; simplify_eq; exact Hs.
  - destruct xid as [xid|]; [by eapply Hm, tm_tpcommit_handled|]. injection H as <- <-. exists []. by apply h_none.
  - destruct xid as [xid|]; [by eapply Hm, tm_tpabort_handled|]. injection H as <- <-. exists []. by apply h_none.
  - destruct xid as [xid|]; [by eapply Hm, tm_committrans_handled|]. injection H as <- <-. exists []. by apply h_none.
  - destruct xid as [xid|]; [|injection H as <- <-; exists []; by apply h_none].
    apply tm_status_handled in H as [H Hx]. eapply (Hm _ xid). by destruct r.
  - apply tm_branch_table in H as (H1 & H2 & _). exists []. by apply h_none.
  - apply tm_branch_table in H as (H1 & H2 & _). exists []. by apply h_none.
  - apply tm_branch_table in H as (H1 & H2 & _). exists []. by apply h_none.
  - apply tm_branch_table in H as (H1 & H2 & _). exists []. by apply h_none.
  - apply tm_proclocal_table in H as (H1 & H2). exists []. by apply h_none.
  - destruct xid as [xid|]; [|injection H as <- <-; exists []; by apply h_none]. exists xid. eapply tm_aborttrans_handled; [done|].
    destruct Ha as [|Ha]; [by left|right; eauto].
Qed.

Lemma step_handled adm sv sv' : step adm sv sv' ->
  (exists tid xid, handled adm true tid xid sv sv') \/
  exists le xid f s t f', M_tx_hash sv !! xid = None /\
    tms_load_logfile write_line fsync checkpointseq le (sv_env sv) f = Some (LoadOk s t f') /\
    sv' = put (env sv (s_env s)) xid {| en_t := t; en_tr := s_trace s; lockthreadid := 0; trycount := 0 |}.
Proof.
  destruct 1 as [tid sv' r Hs|tid ex xid el sv' r Hs|tid mt xid el sv' r Hs|le xid f s t f' Hx Hl|e]; [left..|right|left].
  - apply service_handled in Hs as [xid Hs]. exists tid, xid. destruct Hs; [by apply h_none|eapply h_back; eauto; intuition|
      by eapply h_finished|by apply h_dropped].
  - exists tid, xid. by eapply handled_mono, tout_one_handled.
  - exists tid, xid. by eapply handled_mono, background_one_handled.
  - by exists le, xid, f, s, t, f'.
  - exists 0, []. by apply h_none.
Qed.

(** ** Locks *)

Lemma origin_lock sv xid en en0 : origin sv xid en0 -> M_tx_hash sv !! xid = Some en -> lockthreadid en = 0.
Proof. intros [[He Hl]|[He _]] H; congruence. Qed.

Lemma handled_lock adm held tid x sv sv' xid en : handled adm held tid x sv sv' -> M_tx_hash sv !! xid = Some en ->
  lockthreadid en <> 0 -> M_tx_hash sv' !! xid = Some en.
Proof.
  intros Hh He Hl. destruct (decide (xid = x)) as [->|Hne].
  - destruct Hh as [->|en0 en' Ho|en0 en' e op fl o Ho|Ho]; [done|by apply (origin_lock _ _ _ _ Ho) in He..|by apply Ho in He].
  - destruct Hh as [->|en0 en' _ _ ->|en0 en' e op fl o _ _ _ _ ->|_ ->]; [done|by rewrite lookup_insert_ne|
      by rewrite lookup_delete_ne..].
Qed.

(** C12: a locked transaction is left alone: whatever a step of any other thread
    does, services, timeout checks, the background thread and loading, the
    entry stays in the table as it is. *)
Theorem locks_respected sv sv' xid en :
  step true sv sv' -> M_tx_hash sv !! xid = Some en -> lockthreadid en <> 0 -> M_tx_hash sv' !! xid = Some en.
Proof.
  intros [(tid & x & Hh)|(le & x & f & s & t & f' & Hn & _ & ->)]%step_handled He Hl; [by eapply handled_lock|].
  cbn. rewrite lookup_insert_ne; [done|congruence].
Qed.

(** Thread [tid] holds no lock. *)
Definition holds_none (tid : Z) (sv : server) : Prop :=
  forall xid en, M_tx_hash sv !! xid = Some en -> lockthreadid en <> tid.

(** C13: services release what they lock: a thread that holds no lock and runs a
    service to its end holds none behind it, on every path, errors included. *)
Theorem services_release_locks tid sv sv' ret err :
  service true tid sv sv' (Ret ret err) -> tid <> 0 -> holds_none tid sv -> holds_none tid sv'.
Proof.
  intros [x Hh]%service_handled Ht Hn xid en. destruct Hh as [->|en0 en' Ho _ -> _ Hl|en0 en' e op fl o _ _ _ _ ->|_ ->].
  - apply Hn.
  - destruct (decide (xid = x)) as [->|Hne]; [rewrite lookup_insert_eq|rewrite lookup_insert_ne by done; apply Hn].
    intros [= <-]. destruct Hl as [->|[? _]]; [|done]. lia.
  - intros [_ Hx]%lookup_delete_Some. by eapply Hn.
  - intros [_ Hx]%lookup_delete_Some. by eapply Hn.
Qed.

(** ** Atomicity *)

Lemma protocol_end fo tr : forall p q, protocol fo p tr = Some q ->
  (q <> Committing -> p <> Committing /\ ~ called XA_OP_COMMIT tr) /\
  (q <> Aborting -> p <> Aborting /\ ~ called XA_OP_ROLLBACK tr).
Proof.
  induction tr as [|ev tr IH]; intros p q Hp; cbn in Hp.
  { simplify_eq. split; intros Hq; (split; [done|apply called_nil]). }
  apply bind_Some_inv in Hp as (p1 & H1 & Hp). destruct (IH _ _ Hp) as [Hc Hr].
  assert ((p = Committing -> p1 = Committing) /\ (p = Aborting -> p1 = Aborting)) as [Kc Kr].
  { split; intros ->; destruct ev as [o i b t c|[m|? ? ? ? ?] k|k|m k| |]; cbn in H1; by repeat case_match; simplify_eq. }
  split; intros Hq; [destruct (Hc Hq) as [H2 H3]|destruct (Hr Hq) as [H2 H3]]; (split; [auto|]);
    intros [(? & ? & ? & ? & ->)|?]%called_cons; try done; destruct p; try done; cbn in H1; by apply H2; simplify_eq.
Qed.

(** What was called so far fits the stage. *)
Definition fits (en : entry) : Prop :=
  (phase_of (txstage (en_tl en)) <> Committing -> ~ called XA_OP_COMMIT (en_tr en)) /\
  (phase_of (txstage (en_tl en)) <> Aborting -> ~ called XA_OP_ROLLBACK (en_tr en)).

(** Events that call no resource manager. *)
Definition no_call (evs : list event) : Prop := forall op, ~ called op evs.

Lemma called_quiet op a b : no_call b -> called op (a ++ b) -> called op a.
Proof. intros Hb [H|H]%called_app; [done|by apply Hb in H]. Qed.

Lemma stage_io_no_call fo n ws ok : stage_io fo n ws ok -> no_call (ws ++ [EvStage n ok]).
Proof.
  intros Hio op (i & b & t & c & [Hin|Hin]%elem_of_app); [|by apply list_elem_of_singleton in Hin].
  destruct Hio as [|j|_|k ok]; [by apply not_elem_of_nil in Hin|apply elem_of_app in Hin as [Hin|Hin]|destruct fo|
    apply elem_of_app in Hin as [Hin|Hin]; [destruct fo|]];
    try (apply elem_of_replicate in Hin as [? _]; done); try (apply list_elem_of_singleton in Hin; done);
    by apply not_elem_of_nil in Hin.
Qed.

Lemma tms_log_stage_quiet e en n forced s' ok :
  tms_log_stage write_line fsync checkpointseq (entry_at e en) n forced = (s', ok) ->
  forced = true \/ txstage (en_tl en) = XA_TX_STAGE_ACTIVE ->
  exists ws, s_trace s' = en_tr en ++ ws /\ no_call ws /\
    (txstage (s_tl s') = n \/ (forced = false /\ txstage (s_tl s') = txstage (en_tl en))).
Proof.
  intros Hs Hf. unfold tms_log_stage in Hs. cbn [s_tl entry_at] in Hs.
  destruct (Z.eqb_spec (txstage (en_tl en)) n) as [Hn|Hn].
  - injection Hs as <- <-. exists []. split; [by rewrite app_nil_r|]. split; [intros op; apply called_nil|by left].
  - cbv zeta in Hs.
    destruct (log_stage_io_spec write_line fsync checkpointseq (with_tl (entry_at e en) (set_stage (en_tl en) n)) n)
      as (ws & [Htl Htr] & Hio). destruct (log_stage_io _ _ _ _ n) as [s1 k]. cbn [fst snd] in *.
    exists (ws ++ [EvStage n k]). assert (txstage (s_tl s1) = n) as Hst by by rewrite Htl.
    assert (s_trace s1 ++ [EvStage n k] = en_tr en ++ ws ++ [EvStage n k]) as Htr' by by rewrite Htr, app_assoc.
    assert (no_call (ws ++ [EvStage n k])) as Hq by by eapply stage_io_no_call.
    destruct forced; [injection Hs as <- <-; auto|]. destruct k; [injection Hs as <- <-; auto|].
    destruct Hf as [?|Hf]; [done|]. rewrite Hf in Hs. injection Hs as <- <-. rewrite Hf. auto.
Qed.

(** Steps keep it. *)
Lemma fits_quiet en en' ws : fits en -> en_tr en' = en_tr en ++ ws -> no_call ws ->
  txstage (en_tl en') = txstage (en_tl en) -> fits en'.
Proof.
  intros [Hc Hr] Htr Hq Hs. unfold fits. rewrite Htr, Hs.
  split; intros Hp H%called_quiet; [by apply Hc|done|by apply Hr|done].
Qed.

Lemma addupd_stage mok t r b st e rs y : tms_btid_addupd mok t r b st e rs = Some y -> txstage (tl y.1.1) = txstage (tl t).
Proof.
  unfold tms_btid_addupd, tms_btid_add. intros H. repeat case_match; simplify_eq; try done;
    apply bind_Some_inv in H as (t' & Ha & [= <-]); unfold tms_btid_gettid in *; repeat case_match; by simplify_eq.
Qed.

Lemma drive_fits e en op flags o :
  tm_drive rm_call write_line fsync checkpointseq growlist xa_retries (drive_fuel xa_retries) (entry_at e en) op flags
    = Some o -> fits en -> fits (with_st en (d_st o)).
Proof.
  intros (_ & tr & Htr & Hp)%tm_drive_protocol [Hc Hr]. cbn in Htr, Hp. destruct (protocol_end _ _ _ _ Hp) as [Kc Kr].
  unfold fits. cbn. rewrite Htr. split; intros Hne [Hcall|Hcall]%called_app.
  - apply Hc in Hcall; [done|]. apply Kc. by destruct (d_exited o).
  - revert Hcall. apply Kc. by destruct (d_exited o).
  - apply Hr in Hcall; [done|]. apply Kr. by destruct (d_exited o).
  - revert Hcall. apply Kr. by destruct (d_exited o).
Qed.

Lemma estep_fits en en' : estep false en en' -> fits en -> fits en'.
Proof.
  intros Hst Hf. assert (forall t, txstage (tl t) = txstage (en_tl en) -> fits (with_t en t)) as Ht.
  { intros t Hs. by apply (fits_quiet en _ []); [done|by rewrite app_nil_r|intros op; apply called_nil|]. }
  destruct Hst as [| |e s' ok Hs H|e s' ok [|Hs] H|e op fl o Ho Hfin|ok rmid btid t b known H|rmid|rmid btid t H
    |e bt status s' bt' ok l H]; [done|done| |done| | |by apply addupd_stage in H; apply Ht|by apply Ht| |].
  - destruct (tms_log_stage_quiet _ _ _ _ _ _ H ltac:(by right)) as (ws & Htr & Hq & Hst). destruct Hf as [Hc Hr].
    rewrite Hs in Hc, Hr. unfold fits. cbn. rewrite Htr.
    split; intros _ Hcall%called_quiet; [by apply Hc|done|by apply Hr|done].
  - destruct (tms_log_stage_quiet _ _ _ _ _ _ H ltac:(by left)) as (ws & Htr & Hq & [Hst|[? _]]); [|done].
    destruct Hf as [Hc _]. unfold fits. cbn. rewrite Htr, Hst. split; [|done].
    intros _ Hcall%called_quiet; [by apply Hc|done].
  - by eapply drive_fits.
  - apply Ht. unfold tms_btid_add in H. cbn in H. by repeat case_match; simplify_eq.
  - apply rmstatus_spec in H as (ws & [Htl Htr] & Hws & _). apply (fits_quiet en _ ws); [done|exact Htr| |].
    + intros op0 (i & b & t & c & Hin). destruct Hws as [[-> _]|(e1 & r1 & k1 & ->)];
        [by apply not_elem_of_nil in Hin|by apply list_elem_of_singleton in Hin].
    + unfold en_tl. cbn. by rewrite Htl.
Qed.

Lemma esteps_fits en en' : esteps false en en' -> fits en -> fits en'.
Proof. induction 1 as [|x y z Hxy _ IH]; [done|]. intros Hx. by eapply IH, estep_fits. Qed.

Lemma load_fits le e f s t f' lk tc : tms_load_logfile write_line fsync checkpointseq le e f = Some (LoadOk s t f') ->
  fits {| en_t := t; en_tr := s_trace s; lockthreadid := lk; trycount := tc |}.
Proof.
  unfold tms_load_logfile. destruct (negb _); [done|]. intros ([ls|hk] & _ & [= Hl])%bind_Some_inv.
  unfold load_finish in Hl. destruct (negb (feof_ok le)), (negb (infos_ok ls)), (missing_term_in_file ls && got_term_last ls),
    (missing_term_in_file ls && negb (term_ok le)); simplify_eq.
  assert (no_call (s_trace (resume write_line fsync checkpointseq e (tl (ld_t ls))))) as Hq.
  { unfold resume. destruct (_ || _); [|intros op; apply called_nil].
    destruct (tms_log_stage _ _ _ _ _ _) as [s1 k] eqn:Hs.
    apply (tms_log_stage_quiet e {| en_t := with_tl' (ld_t ls) (set_background (tl (ld_t ls))); en_tr := [];
      lockthreadid := 0; trycount := 0 |}) in Hs as (ws & Htr & Hq & _); [|by left]. cbn [fst]. by rewrite Htr. }
  by split; intros _ H; apply Hq in H.
Qed.

(** What was called for a transaction, now or up to its end. *)
Definition atomic (tr : list event) : Prop := ~ (called XA_OP_COMMIT tr /\ called XA_OP_ROLLBACK tr).

Lemma fits_atomic en : fits en -> atomic (en_tr en).
Proof.
  intros [Hc Hr] [H1 H2]. destruct (decide (phase_of (txstage (en_tl en)) = Committing)) as [He|He]; [|by apply Hc in H1].
  apply Hr in H2; [done|]. by rewrite He.
Qed.

Definition all_fit (sv : server) : Prop :=
  map_Forall (fun _ en => fits en) (M_tx_hash sv) /\ Forall (fun d => atomic d.1.2) (sv_done sv).

Lemma step_all_fit sv sv' : step false sv sv' -> all_fit sv -> all_fit sv'.
Proof.
  intros Hst [Hm Hd].
  assert (forall x en, origin sv x en -> fits en) as Ho.
  { intros x en [[He _]|(_ & tid & to & ts & ->)]; [by eapply Hm|]. by split; intros _ H; apply called_nil in H. }
  apply step_handled in Hst as [(tid & x & Hh)|(le & x & f & s & t & f' & Hn & Hl & ->)].
  - destruct Hh as [H1 H2|en0 en' Hor Hs H1 H2 _|en0 en' e op fl o Hor Hs Hdr _ H1 H2|_ H1 H2]; unfold all_fit; rewrite H1, H2.
    + done.
    + split; [|done]. apply map_Forall_insert_2; [|done]. by eapply esteps_fits, Ho.
    + split; [by apply map_Forall_delete|]. constructor; [|done]. apply (fits_atomic (with_st en' (d_st o))).
      eapply drive_fits; [exact Hdr|]. by eapply esteps_fits, Ho.
    + split; [by apply map_Forall_delete|done].
  - split; [|done]. apply map_Forall_insert_2; [|done]. by eapply load_fits.
Qed.

(** C4: what a server does by driving its transactions is atomic: whatever
    services, timeout checks, background passes and loads ran in whatever order,
    for whatever answers of the resource managers and the log device, no
    transaction, in the table or finished, had a branch told to commit and one
    told to roll back by the driver since the transaction was begun or loaded
    by this server, as long as no operator aborts a transaction that is
    committing.  The calls of [sv_direct] are not the driver's and not in this:
    the rollback of a begin that fails ([ServerDemo.failed_begin_committed]),
    the orders of other managers, and an operator's local commands. *)
Theorem server_atomic sv : reached false sv ->
  map_Forall (fun _ en => atomic (en_tr en)) (M_tx_hash sv) /\ Forall (fun d => atomic d.1.2) (sv_done sv).
Proof.
  intros (sv0 & Hm & Hd & Hs). assert (all_fit sv) as [H1 H2].
  { assert (all_fit sv0) as H0 by (split; [by rewrite Hm; apply map_Forall_empty|by rewrite Hd; constructor]).
    clear Hm Hd. induction Hs as [|x y z Hxy _ IH]; [done|]. by eapply IH, step_all_fit. }
  split; [|done]. eapply map_Forall_impl; [exact H1|]. intros x en. apply fits_atomic.
Qed.

(** ** What the answers mean *)

Lemma voted_all_ids fo d stage l l' evs vs x : voted_all fo d stage l l' evs vs x -> map branch_id l' = map branch_id l.
Proof.
  assert (forall el el' evs ov, voted fo stage el el' evs ov -> branch_id el' = branch_id el) as Hv.
  { intros el el' evs0 ov Hv. destruct Hv as [| |el' ret reason r v ws _ _ _ Hr Hb _ _]; [done..|]. unfold branch_id. congruence. }
  induction 1 as [|el l evs|el el' l evs ov H|el el' l evs v H _|el el' l l' evs evs' ov vs x H _ _ IH]; cbn; [done..| | |];
    by rewrite (Hv _ _ _ _ H), ?IH.
Qed.

(** The driver keeps the branches. *)
Lemma drive_ids fuel s op flags o : tm_drive rm_call write_line fsync checkpointseq growlist xa_retries fuel s op flags = Some o ->
  map branch_id (branches (s_tl (d_st o))) = map branch_id (branches (s_tl s)).
Proof.
  unfold tm_drive. intros ([s' e] & He & [= <-])%bind_Some_inv. cbn [fst snd].
  assert (map branch_id (branches (s_tl s')) = map branch_id (branches (s_tl s))) as Hs'.
  { assert (forall try (s1 s2 : st E) r, map branch_id (branches (s_tl s1)) = map branch_id (branches (s_tl s)) ->
      round_out xa_retries flags try s1 s2 r -> map branch_id (branches (s_tl s2)) = map branch_id (branches (s_tl s))) as Hr.
    { intros try s1 s2 r H1 Hr. destruct Hr as [_ ->|d l' evs vs _ Hall Htl _|d l' evs vs r _ Hall _ Htl _ _
        |d l' evs vs x n sw stage' k r _ Hall _ _ _ Htl _ _]; [done|..]; rewrite Htl; cbn; by rewrite (voted_all_ids _ _ _ _ _ _ _ _ Hall). }
    refine (drive_loop_inv _ _ _ _ _ _ flags (fun s1 => map branch_id (branches (s_tl s1)) = map branch_id (branches (s_tl s)))
      (fun s1 _ => map branch_id (branches (s_tl s1)) = map branch_id (branches (s_tl s))) _ _ _ _ _ _ _ eq_refl He); eauto. }
  by destruct e as [d|ret|]; cbn; [destruct (_ && _)|..].
Qed.

(** The transaction is over: its entry is gone, and its branches all have one
    of the given statuses. *)
Definition ended (sv sv' : server) (xid : list Z) (en : entry) (statuses : list Z) : Prop :=
  M_tx_hash sv' = delete xid (M_tx_hash sv) /\
  exists tr bs, sv_done sv' = (xid, tr, bs) :: sv_done sv /\
    map branch_id bs = map branch_id (branches (en_tl en)) /\ Forall (fun b => TmDrive.rmstatus b ∈ statuses) bs.

Lemma stage_branches e en n forced s' ok :
  tms_log_stage write_line fsync checkpointseq (entry_at e en) n forced = (s', ok) ->
  forced = true \/ txstage (en_tl en) = XA_TX_STAGE_ACTIVE ->
  branches (s_tl s') = branches (en_tl en) /\ (ok = true -> txstage (s_tl s') = n).
Proof.
  intros Hs Hf. unfold tms_log_stage in Hs. cbn [s_tl entry_at] in Hs.
  destruct (Z.eqb_spec (txstage (en_tl en)) n) as [Hn|Hn]; [by injection Hs as <- <-|]. cbv zeta in Hs.
  destruct (log_stage_io_spec write_line fsync checkpointseq (with_tl (entry_at e en) (set_stage (en_tl en) n)) n)
    as (ws & [Htl Htr] & Hio). destruct (log_stage_io _ _ _ _ n) as [s1 k]. cbn [fst snd] in *.
  destruct forced; [injection Hs as <- <-; cbn; by rewrite Htl|]. destruct k; [injection Hs as <- <-; cbn; by rewrite Htl|].
  destruct Hf as [?|Hf]; [done|]. rewrite Hf in Hs. injection Hs as <- <-. cbn. by rewrite Htl.
Qed.

(** The driver's answer, when the transaction is over with it. *)
Lemma drive_ended xid op flags sv0 sv sv' f err l en en0 :
  answer (drive_entry xid op flags sv) f = Some (sv', Ret EXSUCCEED err) -> M_tx_hash sv !! xid = Some en ->
  (forall ret, f ret = Ret EXSUCCEED err -> ret = EXSUCCEED) ->
  M_tx_hash sv = <[xid := en]> (M_tx_hash sv0) -> sv_done sv = sv_done sv0 ->
  map branch_id (branches (en_tl en)) = map branch_id (branches (en_tl en0)) ->
  (forall o, tm_drive rm_call write_line fsync checkpointseq growlist xa_retries (drive_fuel xa_retries)
      (entry_at (sv_env sv) en) op flags = Some o -> d_exited o = false -> d_ret o = EXSUCCEED ->
    d_finished o = true /\ Forall (fun b => TmDrive.rmstatus b ∈ l) (branches (s_tl (d_st o)))) ->
  ended sv0 sv' xid en0 l.
Proof.
  intros Ha He Hf Hm Hdn Hids Hs. unfold answer in Ha. destruct (drive_entry xid op flags sv) as [[sv1 x]|] eqn:Hd; [|done].
  destruct (drive_entry_spec _ _ _ _ _ _ _ He Hd) as (o & Ho & Hc).
  destruct Hc as [(-> & _)|[(-> & Hx & Hfin & Hm1 & Hd1)|(-> & Hx & Hfin & _)]]; [done|..]; injection Ha as <- Hr;
    apply Hf in Hr; destruct (Hs _ Ho Hx Hr) as [Hfin' Hall]; [|congruence].
  split; [rewrite Hm1, Hm; apply delete_insert_eq|]. eexists _, _. split; [by rewrite Hd1, Hdn|]. split; [|done].
  by rewrite (drive_ids _ _ _ _ _ Ho).
Qed.

(** The statuses branches have before the end of the transaction is requested. *)
Definition joined_all (en : entry) : Prop :=
  Forall (fun b => TmDrive.rmstatus b ∈ [XA_RM_STATUS_ACTIVE; XA_RM_STATUS_ACT_AB]) (branches (en_tl en)).

Lemma joined_staged stage en x : joined_all en -> branches x = branches (en_tl en) -> txstage x = stage ->
  stage = XA_TX_STAGE_PREPARING \/ stage = XA_TX_STAGE_ABORTING -> well_staged x.
Proof.
  intros Hj Hb Hs Hst. unfold well_staged. rewrite Hb, Hs. eapply Forall_impl; [exact Hj|]. intros b Hin.
  destruct Hst as [-> | ->]; rewrite !elem_of_cons in Hin; by destruct Hin as [-> | [-> | ?%not_elem_of_nil]].
Qed.

(** Asked for a commit or an abort, the server takes the entry and switches the
    stage; the rest is the driver's. *)
Lemma begin_abort_spec xid sv sv' en : begin_abort xid sv = Some sv' -> M_tx_hash sv !! xid = Some en ->
  exists en', M_tx_hash sv' = <[xid := en']> (M_tx_hash sv) /\ sv_done sv' = sv_done sv /\
    branches (en_tl en') = branches (en_tl en) /\ txstage (en_tl en') = XA_TX_STAGE_ABORTING.
Proof.
  unfold begin_abort. intros ([sv1 ok] & H1 & [= <-])%bind_Some_inv He. cbn [fst].
  destruct (stage_entry_spec _ _ _ _ _ _ _ He H1) as (s' & Hs & Hm & Hd). exists (with_st en s').
  destruct (stage_branches _ _ _ _ _ _ Hs ltac:(by left)) as [Hb _].
  destruct (tms_log_stage_quiet _ _ _ _ _ _ Hs ltac:(by left)) as (ws & _ & _ & [Hst|[? _]]); [|done].
  by split_and!.
Qed.

Lemma abort_ended xid sv0 sv1 sv sv' f err en en0 : M_tx_hash sv1 = <[xid := en]> (M_tx_hash sv0) ->
  sv_done sv1 = sv_done sv0 -> begin_abort xid sv1 = Some sv ->
  answer (drive_entry xid XA_OP_ROLLBACK 0 sv) f = Some (sv', Ret EXSUCCEED err) ->
  (forall ret, f ret = Ret EXSUCCEED err -> ret = EXSUCCEED) ->
  joined_all en0 -> branches (en_tl en) = branches (en_tl en0) ->
  ended sv0 sv' xid en0 [XA_RM_STATUS_ABORTED; XA_RM_STATUS_COMMITTED_RO].
Proof.
  intros Hm Hd Hb Ha Hf Hj Hbr.
  destruct (begin_abort_spec _ _ _ en Hb) as (en' & Hm' & Hd' & Hb' & Hst); [by rewrite Hm, lookup_insert_eq|].
  assert (M_tx_hash sv = <[xid := en']> (M_tx_hash sv0)) as Hm2 by by rewrite Hm', Hm, insert_insert_eq.
  eapply drive_ended; [exact Ha|by rewrite Hm2, lookup_insert_eq|exact Hf|exact Hm2|congruence|congruence|].
  intros o Ho Hx Hret. eapply rollback_success; [exact Ho| |done|done|done].
  eapply (joined_staged _ en0); [done|cbn; congruence|exact Hst|by right].
Qed.

Lemma get_entry_joined tid xid sv sv' g en0 : tms_log_get_entry tid xid sv = (sv', g) -> M_tx_hash sv !! xid = Some en0 ->
  match g with
  | Got en => lockthreadid en0 = 0 /\ en = with_lock en0 tid /\ M_tx_hash sv' = <[xid := en]> (M_tx_hash sv) /\ sv_done sv' = sv_done sv
  | GotLocked => sv' = sv /\ lockthreadid en0 <> 0
  | GotNone => False
  end.
Proof.
  intros H He. unfold tms_log_get_entry in H. rewrite He in H. destruct (Z.eqb_spec (lockthreadid en0) 0); by simplify_eq.
Qed.

(** C9: when [tm_tpcommit], not asked to return at the logged decision
    ([TP_CMT_LOGGED]), reports success for a transaction all branches of which
    are active or active with an abort pending, the transaction is over and
    every branch it had is committed or was read-only.  A branch of unknown
    status is not covered ([ServerDemo.unknown_branch_ignored]). *)
Theorem tm_tpcommit_success tid xid fl sv sv' en :
  tm_tpcommit tid (Some xid) (Some fl) sv = Some (sv', Ret EXSUCCEED 0) -> M_tx_hash sv !! xid = Some en ->
  joined_all en -> Z.land fl TP_CMT_LOGGED = 0 ->
  ended sv sv' xid en [XA_RM_STATUS_COMMITTED; XA_RM_STATUS_COMMITTED_RO].
Proof.
  unfold tm_tpcommit. intros Hc He Hj Hfl. destruct (tms_log_get_entry tid xid sv) as [sv1 g] eqn:Hg.
  apply (get_entry_joined _ _ _ _ _ _ Hg) in He. destruct g as [| |en1]; [done..|].
  destruct He as (_ & -> & Hm & Hd). destruct (_ || _) eqn:Hact; [done|].
  apply bind_Some_inv in Hc as ([sv2 ok] & H1 & H2). cbn [fst snd] in H2.
  destruct (stage_entry_spec _ _ _ _ _ _ (with_lock en tid) ltac:(by rewrite Hm, lookup_insert_eq) H1) as (s' & Hs & Hm2 & Hd2).
  destruct (stage_branches _ _ _ _ _ _ Hs ltac:(right; lia)) as [Hb Hst].
  destruct ok; cbn [negb] in H2.
  - assert (M_tx_hash sv2 = <[xid := with_st (with_lock en tid) s']> (M_tx_hash sv)) as Hm3 by by rewrite Hm2, Hm, insert_insert_eq.
    eapply drive_ended; [exact H2|by rewrite Hm3, lookup_insert_eq| |exact Hm3|congruence| |].
    + intros ret. cbv beta. by destruct (Z.eqb_spec ret EXSUCCEED).
    + cbn. by rewrite Hb.
    + intros o Ho Hx Hret. eapply commit_success; [exact Ho| |done|done|done].
      eapply (joined_staged _ en); [done|exact Hb|by apply Hst|by left].
  - apply bind_Some_inv in H2 as (sv3 & _ & H4). unfold answer in H4.
    repeat case_match; simplify_eq.
Qed.

(** When [tm_tpabort] reports success, the transaction is over, and every
    branch is rolled back or was read-only. *)
Theorem tm_tpabort_success tid xid sv sv' en :
  tm_tpabort tid (Some xid) sv = Some (sv', Ret EXSUCCEED 0) -> M_tx_hash sv !! xid = Some en -> joined_all en ->
  ended sv sv' xid en [XA_RM_STATUS_ABORTED; XA_RM_STATUS_COMMITTED_RO].
Proof.
  unfold tm_tpabort. intros Hc He Hj. destruct (tms_log_get_entry tid xid sv) as [sv1 g] eqn:Hg.
  apply (get_entry_joined _ _ _ _ _ _ Hg) in He. destruct g as [| |en1]; [done..|].
  destruct He as (_ & -> & Hm & Hd). destruct (_ || _) eqn:Hact; [done|].
  apply bind_Some_inv in Hc as (sv2 & H1 & H2).
  eapply abort_ended; [exact Hm|exact Hd|exact H1|exact H2|by intros ret [= ->]|done|done].
Qed.

(** ** Requests that are refused *)

Lemma server_eq (sv sv' : server) : M_tx_hash sv' = M_tx_hash sv -> sv_env sv' = sv_env sv -> sv_done sv' = sv_done sv ->
  sv_direct sv' = sv_direct sv -> sv' = sv.
Proof. destruct sv, sv'. cbn. by intros -> -> -> ->. Qed.

(** Locking an entry and unlocking it leaves the table as it was. *)
Lemma get_unlock tid xid sv en : M_tx_hash sv !! xid = Some en -> lockthreadid en = 0 ->
  exists sv1, tms_log_get_entry tid xid sv = (sv1, Got (with_lock en tid)) /\ (tms_unlock_entry tid xid sv1).1 = sv.
Proof.
  intros He Hl. unfold tms_log_get_entry. rewrite He, Hl. cbn [Z.eqb]. eexists. split; [done|].
  unfold tms_unlock_entry. cbn [M_tx_hash put]. rewrite lookup_insert_eq. cbn [lockthreadid with_lock]. rewrite Z.eqb_refl.
  apply server_eq; [|done|done|done]. cbn. rewrite insert_insert_eq. apply insert_id. rewrite He. f_equal.
  destruct en. cbn in *. by subst.
Qed.

(** The code a request to end a transaction is refused with, if it is. *)
Definition refusal (unknown late early : Z) (xid : list Z) (sv : server) : option Z :=
  match M_tx_hash sv !! xid with
  | None => Some unknown
  | Some en =>
      if negb (lockthreadid en =? 0) then Some TPETIME
      else if is_background (en_tl en) || negb (txstage (en_tl en) =? XA_TX_STAGE_ACTIVE)
      then Some (if XA_TX_STAGE_PREPARING <=? txstage (en_tl en) then late else early) else None
  end.

(** C14: a request to commit or to abort a transaction that is unknown, locked,
    already ending or left to the background thread is refused with its error
    code and leaves the server exactly as it was, locks included; so is the
    operator's request to finish a commit nothing decided. *)
Theorem refused_unchanged tid xid fl sv :
  (forall err, refusal TPEABORT TPEPROTO TPEABORT xid sv = Some err ->
    tm_tpcommit tid (Some xid) (Some fl) sv = Some (sv, Ret EXFAIL err)) /\
  (forall err, refusal TPEPROTO TPEPROTO TPEHEURISTIC xid sv = Some err ->
    tm_tpabort tid (Some xid) sv = Some (sv, Ret EXFAIL err)) /\
  (forall en, M_tx_hash sv !! xid = Some en -> lockthreadid en = 0 -> txstage (en_tl en) <> XA_TX_STAGE_COMMITTING ->
    tm_committrans tid (Some xid) sv = Some (sv, Ret EXFAIL TPEINVAL)).
Proof.
  assert (M_tx_hash sv !! xid = None -> tms_log_get_entry tid xid sv = (sv, GotNone)) as Hn.
  { intros He. unfold tms_log_get_entry. by rewrite He. }
  assert (forall en, M_tx_hash sv !! xid = Some en -> lockthreadid en <> 0 -> tms_log_get_entry tid xid sv = (sv, GotLocked)) as Hk.
  { intros en He Hl. unfold tms_log_get_entry. by rewrite He, (proj2 (Z.eqb_neq _ _) Hl). }
  unfold refusal, tm_tpcommit, tm_tpabort, tm_committrans. destruct (M_tx_hash sv !! xid) as [en|] eqn:He.
  2:{ rewrite Hn by done. split_and!; [by intros ? [= <-]..|done]. }
  destruct (Z.eqb_spec (lockthreadid en) 0) as [Hl|Hl]; cbn [negb].
  2:{ rewrite (Hk en) by done. split_and!; [by intros ? [= <-]..|]. by intros ? [= <-]. }
  destruct (get_unlock tid xid sv en He Hl) as (sv1 & -> & Hu).
  change (en_tl (with_lock en tid)) with (en_tl en).
  split_and!; [destruct (_ || _); [|done]; intros err [= <-]; by rewrite Hu..|].
  intros en' [= <-] _ Hs. change (en_tl (with_lock en tid)) with (en_tl en). by rewrite (proj2 (Z.eqb_neq _ _) Hs), Hu.
Qed.

(** ** Every request is answered *)

(** The decision could not be logged, and neither could the abort. *)
Definition log_failed (tr : list event) : Prop :=
  exists a b, tr = a ++ EvStage XA_TX_STAGE_COMMITTING false :: b ++ [EvStage XA_TX_STAGE_ABORTING false].

Lemma exit_log_failed fuel s op flags o :
  tm_drive rm_call write_line fsync checkpointseq growlist xa_retries fuel s op flags = Some o ->
  d_exited o = true -> log_failed (s_trace (d_st o)).
Proof.
  unfold tm_drive, drive_result. intros ([s' e] & He & [= <-])%bind_Some_inv. cbn [fst snd]. intros Hx.
  assert (e = DExit) as -> by (destruct e; [|done|done]; cbn in Hx; by destruct (_ && _)). cbn [d_st].
  refine (drive_loop_inv _ _ _ _ _ _ flags (fun _ => True) (fun s1 e => e = DExit -> log_failed (s_trace s1))
    _ _ _ _ _ _ _ I He eq_refl); [done|].
  intros s1 try s2 e _ Hr ->. inversion Hr as [| |? ? ? ? ? ? ? ? ? ? Hc|d l' evs vs x n sw stage' ok r _ _ _ _ Hsw _ Htr Hc]; subst.
  - by destruct Hc as [(? & _)|[(? & _)|?] ].
  - destruct Hc as [[-> _]|[(_ & ? & _)|(_ & [?|?])] ]; try done. inversion Hsw; subst. rewrite Htr.
    eexists (s_trace s1 ++ evs ++ ws), ws'. by rewrite <-!app_assoc.
Qed.

(** A decided transaction is driven without ending the process. *)
Lemma settled_no_doubt fo p tr : p = Committing \/ p = Aborting -> protocol fo p tr <> Some Doubtful.
Proof.
  intros Hp. induction tr as [|ev tr IH]; [by destruct Hp as [-> | ->]|]. cbn [protocol].
  destruct (protocol_step fo p ev) as [q|] eqn:Hq; [|done]. cbn. assert (q = p) as ->; [|done].
  destruct Hp as [-> | ->], ev as [o i b t c|[n|? ? ? ? ?] k|k|n k| |]; cbn in Hq; repeat case_match; by simplify_eq.
Qed.

Lemma decided_no_exit s op flags o :
  tm_drive rm_call write_line fsync checkpointseq growlist xa_retries (drive_fuel xa_retries) s op flags = Some o ->
  phase_of (txstage (s_tl s)) = Committing \/ phase_of (txstage (s_tl s)) = Aborting -> d_exited o = false.
Proof.
  intros (_ & tr & _ & Hp)%tm_drive_protocol Hph. destruct (d_exited o); [|done]. by destruct (settled_no_doubt _ _ _ Hph Hp).
Qed.

(** There is an answer, unless the process ends; it may only, when [may_exit],
    behind a failure of the log at the decision. *)
Definition answered (may_exit : bool) (xid : option (list Z)) (r : option (server * outcome)) : Prop :=
  exists sv' o, r = Some (sv', o) /\
    (o = Exit -> may_exit = true /\ exists x en, xid = Some x /\ M_tx_hash sv' !! x = Some en /\ log_failed (en_tr en)).

Lemma drive_answered may xid op flags sv en f : M_tx_hash sv !! xid = Some en -> (forall ret, f ret <> Exit) ->
  may = true \/ phase_of (txstage (en_tl en)) = Committing \/ phase_of (txstage (en_tl en)) = Aborting ->
  answered may (Some xid) (answer (drive_entry xid op flags sv) f).
Proof.
  intros He Hf Hph.
  destruct (tm_drive_total rm_call write_line fsync checkpointseq growlist xa_retries (entry_st sv en) op flags) as [o Ho].
  unfold drive_entry. rewrite He. cbn [mbind option_bind]. rewrite Ho. cbn [mbind option_bind].
  destruct (d_exited o) eqn:Hx.
  - eexists _, _. split; [reflexivity|]. intros _. split.
    + destruct Hph as [|Hph]; [done|]. by rewrite (decided_no_exit _ _ _ _ Ho Hph) in Hx.
    + exists xid, (with_st en (d_st o)). split; [done|]. split; [apply lookup_insert_eq|]. by eapply exit_log_failed.
  - destruct (d_finished o); (eexists _, _; split; [reflexivity|]; intros H; by destruct (Hf (d_ret o))).
Qed.

Lemma abort_answered xid sv op flags en f : M_tx_hash sv !! xid = Some en -> (forall ret, f ret <> Exit) ->
  answered false (Some xid) (sv ← begin_abort xid sv; answer (drive_entry xid op flags sv) f).
Proof.
  intros He Hf. destruct (begin_abort xid sv) as [sv1|] eqn:Hb.
  2:{ unfold begin_abort, stage_entry in Hb. by rewrite He in Hb. }
  destruct (begin_abort_spec _ _ _ _ Hb He) as (en' & Hm & _ & _ & Hst). cbn [mbind option_bind].
  eapply drive_answered; [by rewrite Hm, lookup_insert_eq|done|]. right. right. by rewrite Hst.
Qed.

Lemma get_entry_lookup tid xid sv sv' en : tms_log_get_entry tid xid sv = (sv', Got en) -> M_tx_hash sv' !! xid = Some en.
Proof. intros Hg. apply (get_entry_spec false) in Hg as (_ & _ & _ & _ & Hh). by eapply holding_lookup. Qed.

Lemma answered_ret may xid sv ret err : answered may xid (Some (sv, Ret ret err)).
Proof. by exists sv, (Ret ret err). Qed.

Lemma answered_mono xid r : answered false xid r -> answered true xid r.
Proof. intros (sv' & o & H1 & H2). exists sv', o. split; [done|]. intros H. by destruct (H2 H). Qed.


(** ** Timeouts *)

Lemma handled_other adm held tid x sv sv' xid : handled adm held tid x sv sv' -> xid <> x ->
  M_tx_hash sv' !! xid = M_tx_hash sv !! xid.
Proof.
  intros Hh Hne. destruct Hh as [->|en0 en' _ _ ->|en0 en' e op fl o _ _ _ _ ->|_ ->]; [done|by rewrite lookup_insert_ne|
    by rewrite lookup_delete_ne..].
Qed.

Lemma handled_done adm held tid x sv sv' d : handled adm held tid x sv sv' -> d ∈ sv_done sv -> d ∈ sv_done sv'.
Proof. intros Hh Hd. destruct Hh as [_ ->|en0 en' _ _ _ ->|en0 en' e op fl o _ _ _ _ _ ->|_ _ ->]; [done..|by right|done]. Qed.

(** The transaction is aborted, or on its way. *)
Definition aborted (sv : server) (xid : list Z) : Prop :=
  match M_tx_hash sv !! xid with
  | Some en => phase_of (txstage (en_tl en)) = Aborting
  | None => exists tr bs, (xid, tr, bs) ∈ sv_done sv
  end.

Lemma drive_aborted xid op flags sv sv' f ret err en : M_tx_hash sv !! xid = Some en ->
  phase_of (txstage (en_tl en)) = Aborting -> answer (drive_entry xid op flags sv) f = Some (sv', Ret ret err) ->
  aborted sv' xid.
Proof.
  intros He Hp Ha. unfold answer in Ha. destruct (drive_entry xid op flags sv) as [[sv1 x]|] eqn:Hd; [|done].
  destruct (drive_entry_spec _ _ _ _ _ _ _ He Hd) as (o & Ho & Hc).
  destruct Hc as [(-> & _)|[(-> & Hx & _ & Hm & Hdn)|(-> & Hx & _ & Hm & _)]]; [done|..]; injection Ha as <- _;
    unfold aborted; rewrite Hm.
  - rewrite lookup_delete_eq. eexists _, _. rewrite Hdn. by left.
  - rewrite lookup_insert_eq. apply tm_drive_protocol in Ho as (_ & tr & _ & Hpr). rewrite Hx in Hpr. cbn in Hpr.
    destruct (protocol_end _ _ _ _ Hpr) as [_ Hr]. cbn.
    destruct (decide (phase_of (txstage (s_tl (d_st o))) = Aborting)) as [|Hne]; [done|]. by apply Hr in Hne as [? _].
Qed.

Lemma tout_one_aborts tid xid el sv sv' ret err en : tout_one tid true xid el sv = Some (sv', Ret ret err) ->
  txstage (en_tl el) = XA_TX_STAGE_ACTIVE -> M_tx_hash sv !! xid = Some en -> lockthreadid en = 0 ->
  txstage (en_tl en) = XA_TX_STAGE_ACTIVE -> aborted sv' xid.
Proof.
  unfold tout_one. intros Ht Hel He Hl Hs. rewrite Hel in Ht. cbn [andb Z.eqb XA_TX_STAGE_ACTIVE] in Ht.
  destruct (get_unlock tid xid sv en He Hl) as (sv1 & Hg & _). pose proof (get_entry_lookup _ _ _ _ _ Hg) as He1.
  rewrite Hg in Ht. change (en_tl (with_lock en tid)) with (en_tl en) in Ht. rewrite Hs in Ht. cbn [Z.eqb XA_TX_STAGE_ACTIVE] in Ht.
  apply bind_Some_inv in Ht as (sv2 & H1 & H2). destruct (begin_abort_spec _ _ _ _ H1 He1) as (en' & Hm & _ & _ & Hst).
  eapply drive_aborted; [by rewrite Hm, lookup_insert_eq| |exact H2]. by rewrite Hst.
Qed.

Lemma tout_list_aborts tid expired xid en el l : forall sv sv' ret err,
  over_list (fun xid el => tout_one tid (expired xid) xid el) l sv = Some (sv', Ret ret err) -> NoDup l.*1 ->
  (((xid ∉ l.*1) /\ aborted sv xid) \/ ((xid, el) ∈ l /\ M_tx_hash sv !! xid = Some en)) ->
  txstage (en_tl el) = XA_TX_STAGE_ACTIVE -> expired xid = true -> lockthreadid en = 0 ->
  txstage (en_tl en) = XA_TX_STAGE_ACTIVE -> aborted sv' xid.
Proof.
  induction l as [|[x el'] l IH]; intros sv sv' ret err Ho Hnd Hx Hel Hex Hl Hs; cbn in Ho.
  { injection Ho as <- <- <-. by destruct Hx as [[_ ?]|[?%not_elem_of_nil _]]. }
  apply NoDup_cons in Hnd as [Hni Hnd]. cbn in Hx.
  destruct (tout_one tid (expired x) x el' sv) as [[sv1 [r1 e1|]]|] eqn:H1; [|done..].
  assert (r1 = EXSUCCEED) as ->.
  { clear -H1. unfold tout_one, answer in H1. repeat case_match; simplify_eq; try done;
      apply bind_Some_inv in H1 as (sv2 & _ & H1); repeat case_match; by simplify_eq. }
  cbn in Ho. pose proof (tout_one_handled _ _ _ _ _ _ _ H1) as Hh. eapply (IH sv1); [exact Ho|exact Hnd| |done..].
  destruct (decide (xid = x)) as [<-|Hne].
  - left. split; [done|]. destruct Hx as [[Hc _]|[Hin He]]; [by destruct Hc; left|].
    apply elem_of_cons in Hin as [[= <-]|Hin]; [|by destruct Hni; apply list_elem_of_fmap; exists (xid, el)].
    rewrite Hex in H1. by eapply tout_one_aborts.
  - assert (aborted sv xid -> aborted sv1 xid) as Ha.
    { unfold aborted. rewrite (handled_other _ _ _ _ _ _ _ Hh Hne). destruct (M_tx_hash sv !! xid); [done|].
      intros (tr & bs & Hd). exists tr, bs. by eapply handled_done. }
    destruct Hx as [[Hc Hab]|[Hin He]]; [left; split; [|auto]; by intros ?; destruct Hc; right|].
    right. rewrite (handled_other _ _ _ _ _ _ _ Hh Hne). split; [|done].
    by apply elem_of_cons in Hin as [[= <- _]|Hin].
Qed.

(** C20: a pass of the timeout check leaves no expired transaction active: with
    memory for the list, each one that ran out of time and is not held by
    another thread is over or in an aborting stage behind it. *)
Theorem timeout_aborts fit tid expired sv sv' ret err xid en :
  tx_tout_check_th fit tid false expired sv = Some (sv', Ret ret err) -> (size (M_tx_hash sv) <= fit)%nat ->
  M_tx_hash sv !! xid = Some en -> is_background (en_tl en) = false -> txstage (en_tl en) = XA_TX_STAGE_ACTIVE ->
  lockthreadid en = 0 -> expired xid = true -> aborted sv' xid.
Proof.
  unfold tx_tout_check_th, tms_copy_hash2list. intros Ht Hfit He Hbg Hs Hl Hex. rewrite take_ge in Ht.
  2:{ etrans; [apply length_filter|]. by rewrite length_map_to_list. }
  eapply (tout_list_aborts _ _ _ en en); [exact Ht| |right; split; [|exact He]|done..].
  - apply NoDup_fmap_fst; [|by apply NoDup_filter, NoDup_map_to_list].
    intros x y1 y2 [_ H1%elem_of_map_to_list]%list_elem_of_filter [_ H2%elem_of_map_to_list]%list_elem_of_filter. congruence.
  - apply list_elem_of_filter. split; [cbn [snd]; by rewrite Hbg|by apply elem_of_map_to_list].
Qed.

(** ** Registration *)

(** The ids of the branches are distinct, and those to come are new. *)
Definition fresh_ids (t : tmlog) : Prop :=
  NoDup (map branch_id (branches (tl t))) /\ Forall (fun b => btid b < tidcounter t (rmid b)) (branches (tl t)).

Lemma insert_branch_perm b l : insert_branch b l ≡ₚ b :: l.
Proof. induction l as [|x l IH]; [done|]. cbn. destruct (_ <? _); [done|]. rewrite IH. apply Permutation_swap. Qed.

Lemma insert_branch_map f b l : (forall x, rmid (f x) = rmid x) -> map f (insert_branch b l) = insert_branch (f b) (map f l).
Proof. intros Hf. induction l as [|x l IH]; [done|]. cbn. rewrite !Hf. destruct (_ <? _); [done|]. cbn. by rewrite IH. Qed.

Lemma find_none_id r i t : tms_btid_find t r i = None -> (r, i) ∉ map branch_id (branches (tl t)).
Proof.
  intros Hf Hin. apply list_elem_of_In, in_map_iff in Hin as (b & Hb & Hin). apply list_elem_of_In in Hin.
  destruct (find_branch r i _ b Hin Hb) as [y Hy]. unfold tms_btid_find in Hf. congruence.
Qed.

(** Adding a branch under a new id. *)
Lemma add_fresh t r i st t' : fresh_ids t -> (r, i) ∉ map branch_id (branches (tl t)) ->
  tms_btid_add true t r i st 0 0 = Some t' ->
  fresh_ids t' /\ branches (tl t') =
    insert_branch {| rmstatus := st; rmerrorcode := 0; rmreason := 0; btid := i; rmid := r |} (branches (tl t)).
Proof.
  unfold tms_btid_add. cbn. intros [Hnd Hlt] Hn [= <-]. set (b := {| rmstatus := st; rmid := r |}).
  set (t1 := if _ <=? _ then _ else _). assert (branches (tl t1) = insert_branch b (branches (tl t))) as Hb.
  { subst t1. by destruct (_ <=? _). }
  assert (tidcounter t r <= tidcounter t1 r /\ i < tidcounter t1 r /\ forall r', r' <> r -> tidcounter t1 r' = tidcounter t r')
    as (H1 & H2 & H3).
  { subst t1. destruct (Z.leb_spec (tidcounter t r) i); cbn; rewrite ?Z.eqb_refl; (split; [lia|split; [lia|]]); [|done].
    intros r' Hr'. by rewrite (proj2 (Z.eqb_neq _ _) Hr'). }
  split; [|exact Hb]. unfold fresh_ids. rewrite Hb. split.
  - rewrite (Permutation_map branch_id (insert_branch_perm b _)). cbn. by constructor.
  - rewrite insert_branch_perm. constructor; [exact H2|]. eapply Forall_impl; [exact Hlt|]. cbv beta. intros x Hx.
    destruct (decide (rmid x = r)) as [Hr|Hne]; [rewrite Hr in *; lia|by rewrite H3].
Qed.

Lemma addupd_fresh t r i t' b known : fresh_ids t ->
  tms_btid_addupd true t r i XA_RM_STATUS_NULL 0 0 = Some (t', b, known) ->
  if known then t' = t /\ (r, b) ∈ map branch_id (branches (tl t))
  else fresh_ids t' /\ ((r, b) ∉ map branch_id (branches (tl t))) /\ branches (tl t') =
    insert_branch {| rmstatus := XA_RM_STATUS_NULL; rmerrorcode := 0; rmreason := 0; btid := b; rmid := r |} (branches (tl t)).
Proof.
  intros Hf. unfold tms_btid_addupd. destruct (Z.eqb_spec i EXFAIL) as [->|Hi].
  - destruct (tms_btid_gettid t r) as [t1 b1] eqn:Hg. unfold tms_btid_gettid in Hg. injection Hg as <- <-.
    intros (t2 & Ha & [= <- <- <-])%bind_Some_inv. destruct Hf as [Hnd Hlt].
    assert ((r, tidcounter t r) ∉ map branch_id (branches (tl t))) as Hn.
    { intros Hin. apply list_elem_of_In, in_map_iff in Hin as (x & [= Hx1 Hx2] & Hin).
      apply list_elem_of_In in Hin. rewrite Forall_forall in Hlt. apply Hlt in Hin. rewrite Hx1, Hx2 in Hin. lia. }
    destruct (add_fresh (set_tid t r (tidcounter t r + 1)) r (tidcounter t r) XA_RM_STATUS_NULL t2) as [H1 H2]; [|done..].
    split; [done|]. eapply Forall_impl; [exact Hlt|]. cbv beta. intros x Hx. cbn. destruct (Z.eqb_spec (rmid x) r); [|done].
    replace (rmid x) with r in Hx by done. lia.
  - destruct (tms_btid_find t r i) as [y|] eqn:Hy.
    + intros [= <- <- <-]. split; [done|]. apply List.find_some in Hy as [Hin Hy]. apply same_branch_spec in Hy.
      rewrite <-Hy. apply list_elem_of_In. by apply in_map.
    + intros (t2 & Ha & [= <- <- <-])%bind_Some_inv. apply find_none_id in Hy.
      destruct (add_fresh _ _ _ _ _ Hf Hy Ha) as [H1 H2]. done.
Qed.

(** The first status of a branch that was just added. *)
Lemma status_new xid r i st sv sv' ok en l : M_tx_hash sv !! xid = Some en -> fresh_ids (en_t en) ->
  branches (en_tl en) =
    insert_branch {| rmstatus := XA_RM_STATUS_NULL; rmerrorcode := 0; rmreason := 0; btid := i; rmid := r |} l ->
  (r, i) ∉ map branch_id l -> rmstatus_entry xid r i st sv = Some (sv', ok) ->
  exists en', M_tx_hash sv' = <[xid := en']> (M_tx_hash sv) /\ lockthreadid en' = lockthreadid en /\ fresh_ids (en_t en') /\
    txstage (en_tl en') = txstage (en_tl en) /\
    branches (en_tl en') = insert_branch {| rmstatus := st; rmerrorcode := 0; rmreason := 0; btid := i; rmid := r |} l.
Proof.
  intros He [Hnd Hlt] Hbs Hn. unfold rmstatus_entry. rewrite He. cbn [mbind option_bind].
  intros (bt & Hbt & Hr)%bind_Some_inv. destruct (tms_log_rmstatus _ _ _ _ _ _) as [[s1 bt'] k] eqn:Hs.
  apply rmstatus_spec in Hs as (ws & [Htl Htr] & _). simplify_eq. eexists. split; [done|]. split; [done|].
  assert (map (set_status r i st 0 0) (branches (s_tl s1)) =
    insert_branch {| rmstatus := st; rmerrorcode := 0; rmreason := 0; btid := i; rmid := r |} l) as Hm.
  { rewrite Htl. cbn [s_tl entry_st]. rewrite Hbs, insert_branch_map, set_status_other; [|done|].
    - f_equal. unfold set_status, same_branch. cbn. by rewrite !Z.eqb_refl.
    - intros x. unfold set_status. by destruct (same_branch r i x). }
  split; [|split; [unfold en_tl; cbn; by rewrite Htl|exact Hm]].
  assert (Forall2 (fun a b => branch_id a = branch_id b) (branches (s_tl s1)) (map (set_status r i st 0 0) (branches (s_tl s1)))) as Hf.
  { clear. induction (branches (s_tl s1)) as [|x l0 IH]; constructor; [|exact IH]. unfold set_status, branch_id.
    by destruct (same_branch r i x). }
  rewrite Htl in Hf. cbn [s_tl entry_st] in Hf. unfold fresh_ids. cbn. rewrite Htl. cbn [s_tl entry_st].
  split; [replace (map branch_id _) with (map branch_id (branches (en_tl en))); [done|]|].
  - clear -Hf. induction Hf as [|a b la lb H _ IH]; cbn; [done|congruence].
  - clear -Hf Hlt. unfold en_tl in *. induction Hf as [|a b la lb H _ IH]; [done|].
    apply Forall_cons in Hlt as [H1 H2]. constructor; [|auto]. unfold branch_id in H. injection H as H3 H4. congruence.
Qed.

Lemma unlock_table tid xid sv m en : M_tx_hash sv = <[xid := en]> m -> lockthreadid en = tid ->
  M_tx_hash (tms_unlock_entry tid xid sv).1 = <[xid := with_lock en 0]> m.
Proof.
  intros Hm Hl. unfold tms_unlock_entry. rewrite Hm, lookup_insert_eq, Hl, Z.eqb_refl. cbn. by rewrite Hm, insert_insert_eq.
Qed.

Lemma addupd_id t r i st e rs t' b known : tms_btid_addupd true t r i st e rs = Some (t', b, known) -> i = EXFAIL \/ b = i.
Proof.
  unfold tms_btid_addupd. destruct (Z.eqb_spec i EXFAIL); [by left|]. intros H. right. repeat case_match; simplify_eq; try done.
  by apply bind_Some_inv in H as (? & _ & [= _ <- _]).
Qed.

Lemma addrm_joins tid rm xid b0 fl sv sv' known b en :
  tms_log_addrm tid xid rm b0 fl sv = Some (sv', true, known, b) -> M_tx_hash sv !! xid = Some en -> fresh_ids (en_t en) ->
  exists en', M_tx_hash sv' = <[xid := en']> (M_tx_hash sv) /\ lockthreadid en' = 0 /\ fresh_ids (en_t en') /\
    txstage (en_tl en') = XA_TX_STAGE_ACTIVE /\ (b0 = EXFAIL \/ b = b0) /\
    map branch_key (branches (en_tl en')) ≡ₚ
      (if bool_decide ((rm, b) ∈ map branch_id (branches (en_tl en))) then [] else [(rm, b, start_stat fl)])
      ++ map branch_key (branches (en_tl en)).
Proof.
  unfold tms_log_addrm. intros Ha He Hf.
  destruct (tms_log_get_entry tid xid sv) as [sv1 g] eqn:Hg. apply (get_entry_joined _ _ _ _ _ _ Hg) in He.
  destruct g as [| |en1]; [done..|]. destruct He as (Hl & -> & Hm & Hd).
  destruct (_ || _); [done|]. destruct (_ || _) eqn:Hact; [done|].
  change (en_tl (with_lock en tid)) with (en_tl en) in Hact. apply orb_false_elim in Hact as [_ Hact].
  assert (txstage (en_tl en) = XA_TX_STAGE_ACTIVE) as Hst by lia. clear Hact.
  destruct (call sv1 malloc) as [sv2 k] eqn:Hc. assert (M_tx_hash sv2 = M_tx_hash sv1) as Hm2 by by injection Hc as <- _.
  destruct (tms_btid_addupd k (en_t (with_lock en tid)) rm b0 XA_RM_STATUS_NULL 0 0) as [[[t b1] kn]|] eqn:Hb; [|done].
  assert (tms_btid_addupd true (en_t en) rm b0 XA_RM_STATUS_NULL 0 0 = Some (t, b1, kn)) as Hb'.
  { destruct k; [done|]. destruct (addupd_mok (en_t en) rm b0 XA_RM_STATUS_NULL 0 0) as [H|H]; cbn in Hb; congruence. }
  clear Hb. pose proof (addupd_id _ _ _ _ _ _ _ _ _ Hb') as Hid.
  pose proof (addupd_stage _ _ _ _ _ _ _ _ Hb') as Hts. cbn in Hts. apply addupd_fresh in Hb'; [|done].
  destruct kn.
  - injection Ha as <- <- <-. destruct Hb' as [-> Hin]. exists en. split_and!; [|done..|].
    + erewrite unlock_table; [|cbn; by rewrite Hm2, Hm, insert_insert_eq|done]. f_equal. destruct en. cbn in *. by subst.
    + by rewrite bool_decide_eq_true_2.
  - apply bind_Some_inv in Ha as ([sv3 k3] & H3 & [= <- -> <- <-]). destruct Hb' as (Hf' & Hni & Hbs). cbn [fst].
    eapply status_new in H3 as (en' & Hm3 & Hl3 & Hf3 & Hst3 & Hb3);
      [|cbn; by rewrite lookup_insert_eq|exact Hf'|exact Hbs|exact Hni].
    exists (with_lock en' 0). cbn in Hm3. rewrite Hm2, Hm, !insert_insert_eq in Hm3.
    split_and!; [by apply unlock_table|done|exact Hf3| |exact Hid|].
    + cbn. unfold en_tl in *. cbn in *. congruence.
    + rewrite bool_decide_eq_false_2 by done. change (en_tl (with_lock en' 0)) with (en_tl en'). rewrite Hb3. by rewrite (Permutation_map branch_key (insert_branch_perm _ _)).
Qed.

(** A successful registration adds the branch: the id in the answer is the
    one asked for or a new one, the branch is in the transaction, exactly once
    and with its first status, all others are as they were, the transaction is
    still active and its entry is free. *)
Theorem register_joins tid rm xid btid fl c1 c2 sv sv' b fl' en :
  tm_tmregister tid (Some rm) (Some xid) btid (Some fl) c1 c2 sv = Some (sv', Ret EXSUCCEED 0, b, fl') ->
  M_tx_hash sv !! xid = Some en -> fresh_ids (en_t en) ->
  exists en', M_tx_hash sv' = <[xid := en']> (M_tx_hash sv) /\ lockthreadid en' = 0 /\ fresh_ids (en_t en') /\
    txstage (en_tl en') = XA_TX_STAGE_ACTIVE /\ (forall b0, btid = inl b0 -> b0 = EXFAIL \/ b = b0) /\
    let known := bool_decide ((rm, b) ∈ map branch_id (branches (en_tl en))) in
    map branch_key (branches (en_tl en')) ≡ₚ
      (if known then [] else [(rm, b, start_stat fl)]) ++ map branch_key (branches (en_tl en)).
Proof.
  unfold tm_tmregister. intros H He Hf.
  assert (exists known, tms_log_addrm tid xid rm (match btid with inl b0 => b0 | inr _ => EXFAIL end) fl sv
    = Some (sv', true, known, b)) as [known Ha].
  { destruct btid as [b0|[]]; [| |done]; repeat case_match; simplify_eq; eauto. }
  destruct (addrm_joins _ _ _ _ _ _ _ _ _ _ Ha He Hf) as (en' & H1 & H2 & H3 & H4 & H5 & H6).
  exists en'. split_and!; [done..| |done]. by intros b0 ->.
Qed.

End Server.

(** ** A transaction of two resource managers *)

Module ServerDemo.

Import DriveDemo.

Local Abbreviation srv := (server unit).
(** The own resource manager does all it is told. *)
Definition local_fine (e : unit) (_ : Z) (_ : rm_xid) : unit * (Z * Z) := (e, (EXSUCCEED, 0)).
Local Abbreviation tpbegin := (tm_tpbegin ok_line ok ok ok ok local_fine 30).
Local Abbreviation register := (tm_tmregister ok_line ok).
Local Abbreviation commit rm := (tm_tpcommit rm ok_line fsync_on ok ok 3).

Definition x1 : list Z := [49].
Definition nothing : srv := {| M_tx_hash := ∅; sv_env := tt; sv_done := []; sv_direct := [] |}.
Definition result (r : option (srv * outcome)) : srv := default nothing (fst <$> r).
Definition entry_of (sv : srv) : entry := default (new_entry 0 0 0) (M_tx_hash sv !! x1).

(** It begins with the server's own branch; a second one registers with [fl]. *)
Definition begun : srv := result (tpbegin 7 x1 1 (Some 0) None 1000 true true nothing).
Definition with_second (fl : Z) : srv :=
  result (r ← register 8 (Some 2) (Some x1) (inr true) (Some fl) true true begun; Some r.1.1).
Definition both : srv := with_second 0.
Definition over : srv := result (commit rm_fine 9 (Some x1) (Some 0) both).
Definition undone : srv := result (tm_tpabort rm_fine ok_line fsync_on ok ok 3 9 (Some x1) both).
Definition held : srv := put both x1 (with_lock (entry_of both) 6).
Definition timed_out : srv := result (tx_tout_check_th rm_fine ok_line fsync_on ok ok 3 10 5 false (fun _ => true) both).

Lemma begun_run : tpbegin 7 x1 1 (Some 0) None 1000 true true nothing = Some (begun, Ret EXSUCCEED 0).
Proof. by vm_compute. Qed.

Lemma both_run : register 8 (Some 2) (Some x1) (inr true) (Some 0) true true begun = Some (both, Ret EXSUCCEED 0, 0, 0).
Proof. by vm_compute. Qed.

Lemma over_run : commit rm_fine 9 (Some x1) (Some 0) both = Some (over, Ret EXSUCCEED 0).
Proof. by vm_compute. Qed.

Lemma unover_run : tm_tpabort rm_fine ok_line fsync_on ok ok 3 9 (Some x1) both = Some (undone, Ret EXSUCCEED 0).
Proof. by vm_compute. Qed.

Lemma timed_out_run : tx_tout_check_th rm_fine ok_line fsync_on ok ok 3 10 5 false (fun _ => true) both = Some (timed_out, Ret EXSUCCEED 0).
Proof. by vm_compute. Qed.

Lemma begun_entry : M_tx_hash begun !! x1 = Some (entry_of begun).
Proof. by vm_compute. Qed.

Lemma both_entry : M_tx_hash both !! x1 = Some (entry_of both).
Proof. by vm_compute. Qed.

Lemma both_joined : joined_all (entry_of both).
Proof. apply (bool_decide_unpack _). by vm_compute. Qed.

Lemma tm_tpcommit_success_witness :
  ended both over x1 (entry_of both) [XA_RM_STATUS_COMMITTED; XA_RM_STATUS_COMMITTED_RO].
Proof.
  exact (tm_tpcommit_success rm_fine ok_line fsync_on ok ok 3 9 x1 0 both over (entry_of both) over_run both_entry both_joined eq_refl).
Defined.

Lemma tm_tpabort_success_witness :
  ended both undone x1 (entry_of both) [XA_RM_STATUS_ABORTED; XA_RM_STATUS_COMMITTED_RO].
Proof.
  exact (tm_tpabort_success rm_fine ok_line fsync_on ok ok 3 9 x1 both undone (entry_of both) unover_run both_entry both_joined).
Defined.

Lemma register_joins_witness : exists en', M_tx_hash both = <[x1 := en']> (M_tx_hash begun) /\ lockthreadid en' = 0 /\
  fresh_ids (en_t en') /\ txstage (en_tl en') = XA_TX_STAGE_ACTIVE /\ (forall b0, inr true = inl b0 -> b0 = EXFAIL \/ 0 = b0) /\
  let known := bool_decide ((2, 0) ∈ map branch_id (branches (en_tl (entry_of begun)))) in
  map branch_key (branches (en_tl en')) ≡ₚ
    (if known then [] else [(2, 0, start_stat 0)]) ++ map branch_key (branches (en_tl (entry_of begun))).
Proof.
  apply (register_joins ok_line ok 8 2 x1 (inr true) 0 true true begun both 0 0 (entry_of begun) both_run begun_entry).
  apply (bool_decide_unpack _). by vm_compute.
Defined.

Lemma room : (size (M_tx_hash both) <= 10)%nat.
Proof. apply Nat.leb_le. by vm_compute. Qed.

Lemma timeout_aborts_witness : aborted timed_out x1.
Proof.
  exact (timeout_aborts rm_fine ok_line fsync_on ok ok 3 10 5 (fun _ => true) both timed_out EXSUCCEED 0 x1 (entry_of both)
    timed_out_run room both_entry eq_refl eq_refl eq_refl eq_refl).
Defined.

Lemma held_entry : M_tx_hash held !! x1 = Some (with_lock (entry_of both) 6).
Proof. by vm_compute. Qed.

Lemma held_refused : commit rm_fine 9 (Some x1) (Some 0) held = Some (held, Ret EXFAIL TPETIME).
Proof. by vm_compute. Qed.

Lemma locks_respected_witness : M_tx_hash held !! x1 = Some (with_lock (entry_of both) 6).
Proof.
  refine (locks_respected rm_fine ok_line fsync_on ok ok 3 ok ok ok ok local_fine held held x1 _ (step_service _ _ _ _ _ _ _ _ _ _ _ true held 9 held
    _ (sv_commit _ _ _ _ _ _ _ _ _ _ _ true 9 held (Some x1) (Some 0) held _ held_refused)) held_entry _). discriminate.
Defined.

Lemma refused_unchanged_witness : commit rm_fine 9 (Some x1) (Some 0) held = Some (held, Ret EXFAIL TPETIME).
Proof. apply (refused_unchanged rm_fine ok_line fsync_on ok ok 3 9 x1 0 held). by vm_compute. Defined.

Lemma both_table : M_tx_hash both = {[x1 := entry_of both]}.
Proof. by vm_compute. Qed.

Lemma services_release_locks_witness : holds_none 9 over.
Proof.
  refine (services_release_locks rm_fine ok_line fsync_on ok ok 3 ok ok ok ok local_fine 9 both over EXSUCCEED 0
    (sv_commit _ _ _ _ _ _ _ _ _ _ _ true 9 both (Some x1) (Some 0) over _ over_run) _ _); [discriminate|].
  intros xid en. rewrite both_table. intros [_ <-]%lookup_singleton_Some. by vm_compute.
Defined.

Lemma server_atomic_witness :
  map_Forall (fun _ en => atomic (en_tr en)) (M_tx_hash over) /\ Forall (fun d => atomic d.1.2) (sv_done over).
Proof.
  apply (server_atomic rm_fine ok_line fsync_on ok ok 3 ok ok ok ok local_fine over). exists nothing. split; [done|]. split; [done|].
  eapply rtc_l; [eapply step_service, sv_begin, begun_run|]. eapply rtc_l; [eapply step_service, sv_register, both_run|].
  eapply rtc_l; [eapply step_service, sv_commit, over_run|]. constructor.
Defined.

(** *** What goes wrong *)

Definition bad (e : unit) : unit * bool := (e, false).

(** The second resource manager does not commit yet: the background thread is
    to go on with it. *)
Definition rm_busy (e : unit) (op rmid btid : Z) : unit * (Z * Z * Z) :=
  (e, if (op =? XA_OP_COMMIT) && (rmid =? 2) then (EXFAIL, XA_RETRY, TPEABORT) else (EXSUCCEED, XA_OK, 0)).
Definition half : srv := result (commit rm_busy 9 (Some x1) (Some 0) both).

(** The timeout check saw the transaction active in its copy of the table; by
    the time it locks the entry the commit is decided.  The entry is left
    locked: the background thread cannot take it any more. *)
Lemma timeout_keeps_lock : exists sv',
  tout_one rm_fine ok_line fsync_on ok ok 3 5 true x1 (entry_of both) half = Some (sv', Ret EXSUCCEED 0) /\
  lockthreadid (entry_of half) = 0 /\ txstage (en_tl (entry_of half)) = XA_TX_STAGE_COMMITTING /\
  lockthreadid (entry_of sv') = 5 /\
  background_one rm_fine ok_line fsync_on ok ok 3 6 10 x1 (entry_of sv') sv' = Some (sv', Ret EXSUCCEED 0).
Proof.
  exists (result (tout_one rm_fine ok_line fsync_on ok ok 3 5 true x1 (entry_of both) half)). split_and!; by vm_compute.
Qed.

(** So is it by the background thread when the checkpoint fails. *)
Lemma background_keeps_lock : exists sv',
  background_one rm_fine ok_line fsync_on bad ok 3 6 10 x1 (entry_of half) half = Some (sv', Ret EXFAIL 0) /\
  lockthreadid (entry_of half) = 0 /\ lockthreadid (entry_of sv') = 6.
Proof.
  exists (result (background_one rm_fine ok_line fsync_on bad ok 3 6 10 x1 (entry_of half) half)).
  split_and!; by vm_compute.
Qed.

(** The operator's abort rolls its branch back although the first one is
    committed, and reports success. *)
Lemma aborttrans_breaks_commit : exists sv' tr bs,
  tm_aborttrans rm_busy ok_line fsync_on ok ok 3 9 (Some x1) half = Some (sv', Ret EXSUCCEED 0) /\
  sv_done sv' = [(x1, tr, bs)] /\ ~ atomic tr /\
  map branch_key bs = [(1, 0, XA_RM_STATUS_COMMITTED); (2, 0, XA_RM_STATUS_ABORTED)].
Proof.
  exists (result (tm_aborttrans rm_busy ok_line fsync_on ok ok 3 9 (Some x1) half)).
  eexists _, _. split; [by vm_compute|]. split; [by vm_compute|]. split; [|by vm_compute].
  intros Ha. apply Ha. split; [exists 1, 0, 0, 0; by apply list_elem_of_lookup_2 with 11%nat|
    exists 2, 0, 0, 0; by apply list_elem_of_lookup_2 with 22%nat].
Qed.

(** A branch registered without its status known is never asked, and the commit
    is reported as a success. *)
Lemma unknown_branch_ignored : exists sv' tr bs,
  commit rm_fine 9 (Some x1) (Some 0) (with_second TMFLAGS_TPNOSTARTXID) = Some (sv', Ret EXSUCCEED 0) /\
  sv_done sv' = [(x1, tr, bs)] /\ map branch_key bs = [(1, 0, XA_RM_STATUS_COMMITTED); (2, 0, XA_RM_STATUS_UNKOWN)] /\
  Forall (fun ev => match ev with EvRm _ rmid _ _ _ => rmid = 1 | _ => True end) tr.
Proof.
  exists (result (commit rm_fine 9 (Some x1) (Some 0) (with_second TMFLAGS_TPNOSTARTXID))).
  eexists _, _. split; [by vm_compute|]. split; [by vm_compute|]. split; [by vm_compute|]. vm_compute. by repeat constructor.
Qed.

(** A begin that cannot return its branch id rolls its branch back and answers
    with an error, and leaves the transaction active in the table: it can be
    committed, and that is reported as a success. *)
Lemma failed_begin_committed : exists sv1 sv2 tr bs,
  tpbegin 7 x1 1 (Some 0) None 1000 true false nothing = Some (sv1, Ret EXSUCCEED TPESYSTEM) /\
  sv_direct sv1 = [(XA_OP_ROLLBACK, BranchXid x1 0, EXSUCCEED)] /\ txstage (en_tl (entry_of sv1)) = XA_TX_STAGE_ACTIVE /\
  commit rm_fine 9 (Some x1) (Some 0) sv1 = Some (sv2, Ret EXSUCCEED 0) /\
  sv_done sv2 = [(x1, tr, bs)] /\ map branch_key bs = [(1, 0, XA_RM_STATUS_COMMITTED)].
Proof.
  exists (result (tpbegin 7 x1 1 (Some 0) None 1000 true false nothing)).
  exists (result (commit rm_fine 9 (Some x1) (Some 0) (result (tpbegin 7 x1 1 (Some 0) None 1000 true false nothing)))).
  eexists _, _. split_and!; by vm_compute.
Qed.

(** When the log device fails at the decision the process ends, and there is no
    answer. *)
Definition fsync_fails : log_sync unit :=
  {| xa_fsync_flags := NDRX_FSYNC_FSYNC; os_fsync := bad; os_fdatasync := bad; os_dsync := bad |}.

Lemma log_failure_exits : exists sv', tm_tpcommit rm_fine ok_line fsync_fails ok ok 3 9 (Some x1) (Some 0) both = Some (sv', Exit).
Proof. eexists. by vm_compute. Qed.

End ServerDemo.
