(* ===== verification/XaClient.v ===== *)
(** * A process in a distributed transaction

    [libatmi/xa.c] with the helpers of [libatmi/xautils.c]: what a process does when
    it begins, ends, joins, leaves and resumes a global transaction, with its resource
    manager (through the XA switch) and with the transaction manager.

    What the resource manager, the transaction manager and the allocator answer may
    depend on everything that happened before.  A step has no result ([None]) where
    the code uses a transaction it has not.  The library is initialised. *)

From stdpp Require Import gmap.
From S2P Require Import Prelude CText Subst LinHash XaStates.

Local Open Scope Z_scope.

(** ** Constants *)

Definition TPEINVAL : Z := 4.
Definition TPENOENT : Z := 6.
Definition TPEPROTO : Z := 9.
Definition TPETIME : Z := 13.
Definition TPERMERR : Z := 16.
Definition TPEMATCH : Z := 23.

Definition XAER_DUPID : Z := -8.
Definition TMER_TMERR : Z := -1.
Definition TM_JOIN : Z := 2.

Definition TMNOFLAGS : Z := 0.
Definition TMJOIN : Z := 0x00200000.
Definition TMSUSPEND : Z := 0x02000000.
Definition TMSUCCESS : Z := 0x04000000.
Definition TMRESUME : Z := 0x08000000.

Definition XA_TXINFO_INITIATOR : Z := 2.
Definition XA_TXINFO_AXREG_CLD : Z := 4.
Definition TMTXFLAGS_IS_ABORT_ONLY : Z := 1.
Definition TMFLAGS_RMIDKNOWN : Z := 2.
Definition TMFLAGS_TPNOSTARTXID : Z := 0x10.
Definition TMFLAGS_DYNAMIC_REG : Z := 0x20.
Definition TPTXCOMMITDLOG : Z := 4.
Definition TPTXNOOPTIM : Z := 0x100.
Definition TPTXTMSUSPEND : Z := 0x200.
Definition NDRX_MAX_RMS : Z := 32.
Definition TX_COMMIT_COMPLETED : Z := 0.
Definition TX_COMMIT_DECISION_LOGGED : Z := 1.

(** ** Data *)

(** The fields of a transaction that travel with calls ([ATMI_XA_TX_INFO_FIELDS]). *)
Record xa_info := { tmtxflags : Z; tmxid : list Z; tmrmid : Z; tmnodeid : Z; tmsrvid : Z; tmknownrms : list Z }.

Record atmi_xa_tx_info := { info : xa_info; btid : Z; tranid_flags : Z; call_cds : list Z; conv_cds : list Z }.

Record tp_tranid := { t_info : xa_info; is_tx_initiator : Z }.

(** The id of a branch is made of the transaction's, the resource manager's and its
    own. *)
Definition xid : Type := list Z * Z * Z.

Inductive rm_call :=
  | XaOpen | XaClose | XaStart (x : xid) (flags : Z) | XaEnd (x : xid) (flags : Z) | XaPrepare (x : xid) (flags : Z)
  | XaRollback (x : xid) (flags : Z) | LocTxAbort (x : xid) (flags : Z).

Inductive tm_cmd := ATMI_XA_TPBEGIN (timeout : Z) | ATMI_XA_TPCOMMIT | ATMI_XA_TPABORT | ATMI_XA_TMREGISTER | ATMI_XA_RMSTATUS (stat : Z) | ATMI_XA_STATUS.

(** A request, the server it goes to ([None]: any of the resource manager) and the
    transaction it is about. *)
Record tm_req := { q_cmd : tm_cmd; q_dest : option (Z * Z * Z); q_info : option xa_info; q_flags : Z; q_btid : Z }.

(** A reply: the fields that can be read from it. *)
Record tm_fields := { r_info : option xa_info; r_btid : option Z; r_flags : option Z; r_stage : option Z }.

(** The request could not be made up; or it was answered, with an error and a reason,
    or with fields. *)
Inductive tm_answer := Unsent (e : Z) | Answered (e rsn : Z) (f : tm_fields).

Inductive event := EvRm (c : rm_call) (ret : Z) | EvTm (q : tm_req) (a : tm_answer) | EvAxReg (x : xid).

(** The thread's state: [tx_tab] by transaction id, [txcur] the current one. *)
Record xa_tls := {
  is_xa_open : bool; is_xa_conn_error : bool; tx_tab : gmap (list Z) atmi_xa_tx_info; txcur : option (list Z);
  tx_commit_return : Z; tperr : Z; reason : Z; history : list event }.

(** The process' settings. *)
Record xa_env := {
  xa_rmid : Z; dynamic_reg : bool; sys_nojoin : bool; sys_nostartxid : bool; has_loctxabort : bool;
  xa_recon_times : nat; xa_recon_retcodes : list Z; xa_recon_retcodes_other : list Z }.

(** ** Steps *)

Definition M (A : Type) : Type := xa_tls -> option (A * xa_tls).
#[export] Instance M_ret : MRet M := fun A a s => Some (a, s).
#[export] Instance M_bind : MBind M := fun A B k e s => match e s with Some (a, s) => k a s | None => None end.

Definition get : M xa_tls := fun s => Some (s, s).
Definition undefined {A} : M A := fun _ => None.

Definition with_open (o c : bool) (s : xa_tls) : xa_tls :=
  {| is_xa_open := o; is_xa_conn_error := c; tx_tab := tx_tab s; txcur := txcur s; tx_commit_return := tx_commit_return s; tperr := tperr s; reason := reason s; history := history s |}.
Definition with_tab (t : gmap (list Z) atmi_xa_tx_info) (k : option (list Z)) (s : xa_tls) : xa_tls :=
  {| is_xa_open := is_xa_open s; is_xa_conn_error := is_xa_conn_error s; tx_tab := t; txcur := k; tx_commit_return := tx_commit_return s; tperr := tperr s; reason := reason s; history := history s |}.
Definition with_err (e r : Z) (s : xa_tls) : xa_tls :=
  {| is_xa_open := is_xa_open s; is_xa_conn_error := is_xa_conn_error s; tx_tab := tx_tab s; txcur := txcur s; tx_commit_return := tx_commit_return s; tperr := e; reason := r; history := history s |}.
Definition with_event (ev : event) (s : xa_tls) : xa_tls :=
  {| is_xa_open := is_xa_open s; is_xa_conn_error := is_xa_conn_error s; tx_tab := tx_tab s; txcur := txcur s; tx_commit_return := tx_commit_return s; tperr := tperr s; reason := reason s; history := history s ++ [ev] |}.
Definition with_return (c : Z) (s : xa_tls) : xa_tls :=
  {| is_xa_open := is_xa_open s; is_xa_conn_error := is_xa_conn_error s; tx_tab := tx_tab s; txcur := txcur s; tx_commit_return := c; tperr := tperr s; reason := reason s; history := history s |}.

Definition modify (f : xa_tls -> xa_tls) : M unit := fun s => Some (tt, f s).

(** Errors: the first one stays ([libatmi/tperror.c]). *)
Definition ndrx_TPset_error_msg (e : Z) : M unit := modify (fun s => if tperr s =? 0 then with_err e (reason s) s else s).
Definition ndrx_TPset_error_fmt_rsn (e r : Z) : M unit := modify (fun s => if tperr s =? 0 then with_err e r s else s).
Definition ndrx_TPoverride_code (e : Z) : M unit := modify (fun s => with_err e (reason s) s).
Definition ndrx_TPunset_error : M unit := modify (with_err 0 0).

(** The current transaction; using it when there is none has no result. *)
Definition current (s : xa_tls) : option atmi_xa_tx_info := k ← txcur s; tx_tab s !! k.
Definition txinfo : M (option atmi_xa_tx_info) := s ← get; mret (current s).
Definition txinfo_deref : M atmi_xa_tx_info := t ← txinfo; match t with Some t => mret t | None => undefined end.
Definition txinfo_set (f : atmi_xa_tx_info -> atmi_xa_tx_info) : M unit :=
  s ← get;
  match txcur s, current s with
  | Some k, Some t => modify (with_tab (<[k := f t]> (tx_tab s)) (txcur s))
  | _, _ => undefined
  end.

Definition set_tranid_flags (v : Z) (t : atmi_xa_tx_info) : atmi_xa_tx_info :=
  {| info := info t; btid := btid t; tranid_flags := v; call_cds := call_cds t; conv_cds := conv_cds t |}.
Definition set_btid (v : Z) (t : atmi_xa_tx_info) : atmi_xa_tx_info :=
  {| info := info t; btid := v; tranid_flags := tranid_flags t; call_cds := call_cds t; conv_cds := conv_cds t |}.
Definition set_known (v : list Z) (t : atmi_xa_tx_info) : atmi_xa_tx_info :=
  let i := info t in
  {| info := {| tmtxflags := tmtxflags i; tmxid := tmxid i; tmrmid := tmrmid i; tmnodeid := tmnodeid i; tmsrvid := tmsrvid i; tmknownrms := v |};
     btid := btid t; tranid_flags := tranid_flags t; call_cds := call_cds t; conv_cds := conv_cds t |}.

(** [atmi_xa_curtx_del] and [atmi_xa_reset_curtx]; the call descriptors go with the
    transaction. *)
Definition atmi_xa_reset_curtx : M unit :=
  modify (fun s => match txcur s with Some k => with_tab (delete k (tx_tab s)) None s | None => s end).

(** [atmi_xa_is_current_rm_known], on a C string. *)
Definition atmi_xa_is_current_rm_known (rmid : Z) (known : list Z) : bool := (rmid =? 0) || existsb (Z.eqb rmid) known.

(** [atmi_xa_update_known_rms], for one resource manager. *)
Definition atmi_xa_update_known_rms (dst : list Z) (rmid : Z) : option (list Z) :=
  if atmi_xa_is_current_rm_known rmid dst then Some dst else if zlen dst =? NDRX_MAX_RMS then None else Some (dst ++ [rmid]).

Section Xa.
Context (env : xa_env) (rmgr : list event -> rm_call -> Z) (tm : list event -> tm_req -> tm_answer) (calloc : list event -> bool) (stack : Z).

Definition xa_call (c : rm_call) : M Z := s ← get; let r := rmgr (history s) c in modify (with_event (EvRm c r));; mret r.

(** ** Calling the transaction manager *)

(** [atmi_xa_call_tm_generic_fb]: the server is that of the current transaction, or of
    the one the request is about. *)
Definition tm_dest (any : bool) (cur : option atmi_xa_tx_info) (p_xai : option xa_info) : option (Z * Z * Z) :=
  if any then None
  else match cur, p_xai with
       | Some t, _ => Some (tmnodeid (info t), tmrmid (info t), tmsrvid (info t))
       | None, Some i => Some (tmnodeid i, tmrmid i, tmsrvid i)
       | None, None => None
       end.

Definition atmi_xa_call_tm_generic (cmd : tm_cmd) (call_any : bool) (p_xai : option xa_info) (flags b : Z) : M (option tm_fields) :=
  s ← get;
  let q := {| q_cmd := cmd; q_dest := tm_dest call_any (current s) p_xai; q_info := p_xai; q_flags := flags; q_btid := b |} in
  let a := tm (history s) q in
  modify (with_event (EvTm q a));;
  match a with
  | Unsent e => ndrx_TPset_error_msg e;; mret None
  | Answered e rsn f =>
      if e =? 0 then modify (with_err 0 0);; mret (Some f)
      else
        modify (with_err e (if rsn =? 0 then if (e =? TPENOENT) || (e =? TPETIME) then XAER_RMFAIL else XAER_RMERR else rsn));;
        mret None
  end.

(** ** The resource manager *)

Definition atmi_xa_open_entry : M Z :=
  s ← get;
  if is_xa_open s && negb (is_xa_conn_error s) then mret XA_OK
  else
    r ← xa_call XaOpen;
    if r =? XA_OK then modify (with_open true false);; mret XA_OK
    else
      let r := if r =? XAER_RMERR then XAER_RMFAIL else r in
      ndrx_TPset_error_fmt_rsn TPERMERR r;; mret r.

Definition atmi_xa_close_entry (for_retry : bool) : M Z :=
  s ← get;
  if negb (is_xa_open s) then mret XA_OK
  else
    (if for_retry then modify (with_open true true) else modify (with_open false false));;
    r ← xa_call XaClose;
    (if (r =? XA_OK) || for_retry then mret tt else ndrx_TPset_error_fmt_rsn TPERMERR r);;
    mret r.

Definition COMMA : Z := 44.

Definition is_error_in_recon_list (l : list Z) (retcode : Z) : bool :=
  match strstr (COMMA :: fmt_d retcode ++ [COMMA]) l, strstr [COMMA; 42; COMMA] l with
  | None, None => false
  | _, _ => true
  end.

(** [GENERIC_RETRY_CORE]: [attempts] are left; the result is the code and how many are
    left then.  Without [primary] only the connection is tried. *)
Fixpoint retry_loop (attempts : nat) (call : M Z) (cond : Z -> bool) (primary : bool) (r : Z) : M (Z * nat) :=
  match attempts with
  | O => mret (r, O)
  | S attempts =>
      atmi_xa_close_entry true;;
      ndrx_TPunset_error;;
      r ← atmi_xa_open_entry;
      if r =? XA_OK then
        if primary then
          ndrx_TPunset_error;;
          r ← call;
          if r =? XA_OK then mret (r, attempts) else if cond r then retry_loop attempts call cond primary r else mret (r, attempts)
        else mret (r, attempts)
      else retry_loop attempts call cond primary r
  end.

Definition retry_core (attempts : nat) (call : M Z) (now : bool) (cond : Z -> bool) (primary : bool) (r : Z) : M (Z * nat) :=
  if negb (xa_recon_times env =? 0)%nat && now then
    '(r, attempts) ← retry_loop attempts call cond primary r;
    (if r =? XAER_RMFAIL then atmi_xa_close_entry true;; mret tt else mret tt);;
    mret (r, attempts)
  else mret (r, attempts).

(** [ndrx_xa_join_fail]: the initiator has the transaction aborted; the error stays.
    The result is whether it was. *)
Definition ndrx_xa_join_fail (force_abort : bool) : M bool :=
  t ← txinfo_deref;
  if negb (has_flag (tranid_flags t) XA_TXINFO_INITIATOR) && negb force_abort then mret false
  else
    s ← get;
    f ← atmi_xa_call_tm_generic ATMI_XA_TPABORT false (Some (info t)) 0 EXFAIL;
    modify (with_err (tperr s) (reason s));;
    mret (match f with Some _ => true | None => false end).

(** [GENERIC_RETRY_ENTRY]: a connection marked as bad is opened again first. *)
Definition retry_entry (do_rollback : bool) (attempts : nat) : M (Z * nat) :=
  s ← get;
  '(r, attempts) ← retry_core attempts (mret 0) (is_xa_conn_error s) (fun _ => true) false XA_OK;
  (if r =? XA_OK then mret tt
   else (if do_rollback then ndrx_xa_join_fail false;; atmi_xa_reset_curtx else mret tt);; ndrx_TPset_error_fmt_rsn TPERMERR r);;
  mret (r, attempts).

(** [GENERIC_RETRY], behind a first attempt. *)
Definition generic_retry (attempts : nat) (call : M Z) (cond : Z -> bool) (r : Z) : M Z :=
  '(r, _) ← retry_core attempts call (cond r) cond true r;
  (if r =? XA_OK then mret tt else ndrx_TPset_error_fmt_rsn TPERMERR r);;
  mret r.

Definition other_codes : Z -> bool := is_error_in_recon_list (xa_recon_retcodes_other env).

Definition atmi_xa_rollback_entry (x : xid) (flags : Z) : M Z :=
  '(r, attempts) ← retry_entry false (xa_recon_times env);
  if negb (r =? XA_OK) then mret r
  else
    r ← xa_call (XaRollback x flags);
    if r =? XA_OK then mret r else generic_retry attempts (xa_call (XaRollback x flags)) other_codes r.

Definition atmi_xa_prepare_entry (x : xid) (flags : Z) : M Z :=
  '(r, attempts) ← retry_entry false (xa_recon_times env);
  if negb (r =? XA_OK) then mret r
  else
    r ← xa_call (XaPrepare x flags);
    if r =? XA_OK then mret r
    else if r =? XA_RDONLY then ndrx_TPset_error_fmt_rsn TPERMERR r;; mret r
    else generic_retry attempts (xa_call (XaPrepare x flags)) other_codes r.

Definition atmi_xa_start_entry (x : xid) (flags : Z) : M Z :=
  '(r, attempts) ← retry_entry false (xa_recon_times env);
  if negb (r =? XA_OK) then mret r
  else
    r ← xa_call (XaStart x flags);
    if r =? XA_OK then mret r
    else
      let need_retry := negb ((has_flag flags TMJOIN || has_flag flags TMRESUME) && (r =? XAER_NOTA)) in
      generic_retry attempts (xa_call (XaStart x flags)) (fun r => need_retry && is_error_in_recon_list (xa_recon_retcodes env) r) r.

(** What [atmi_xa_end_entry] does for a resource manager that is given no id at the
    start: it prepares, or rolls back, and reports. *)
Definition end_prepare (x : xid) (aborting : bool) : M Z :=
  let local_rb := aborting && has_loctxabort env in
  r ← (if local_rb then xa_call (LocTxAbort x TMNOFLAGS) else atmi_xa_prepare_entry x TMNOFLAGS);
  if negb local_rb && negb (r =? XA_OK) && negb (r =? XA_RDONLY) then mret r
  else
    let stat := if local_rb then XA_RM_STATUS_ABORTED else if r =? XA_OK then XA_RM_STATUS_PREP
                else if r =? XA_RDONLY then XA_RM_STATUS_COMMITTED_RO else XA_RM_STATUS_ABORTED in
    t ← txinfo_deref;
    atmi_xa_call_tm_generic (ATMI_XA_RMSTATUS stat) false (Some (info t)) 0 (btid t);;
    s ← get;
    (if tperr s =? TPEMATCH then atmi_xa_rollback_entry x 0;; mret tt else mret tt);;
    mret r.

Definition atmi_xa_end_entry (x : xid) (flags : Z) (aborting : bool) : M Z :=
  '(r, attempts) ← retry_entry false (xa_recon_times env);
  if negb (r =? XA_OK) then mret r
  else
    r ← xa_call (XaEnd x flags);
    r ← (if r =? XA_OK then mret r else generic_retry attempts (xa_call (XaEnd x flags)) other_codes r);
    if negb (r =? XA_OK) then mret r
    else if sys_nostartxid env then end_prepare x aborting else mret r.

(** ** Entering and leaving a transaction *)

Definition branch (i : xa_info) (b : Z) : xid := (tmxid i, xa_rmid env, b).

(** [atmi_xa_set_curtx_from_xai] with [atmi_xa_curtx_get] and [atmi_xa_curtx_add]. *)
Definition atmi_xa_set_curtx_from_xai (i : xa_info) (b : Z) : M bool :=
  s ← get;
  match tx_tab s !! tmxid i with
  | Some _ => modify (with_tab (tx_tab s) (Some (tmxid i)));; mret true
  | None =>
      if calloc (history s) then
        modify (with_tab (<[tmxid i := {| info := i; btid := b; tranid_flags := 0; call_cds := []; conv_cds := [] |}]> (tx_tab s)) (Some (tmxid i)));;
        mret true
      else modify (with_tab (tx_tab s) None);; mret false
  end.

Definition fail (e : Z) : M Z := ndrx_TPset_error_msg e;; mret EXFAIL.

(** [atmi_xa_read_tx_info]: all fields and the branch; the flags start at zero. *)
Definition atmi_xa_read_tx_info (f : tm_fields) : option (xa_info * Z) :=
  i ← r_info f; b ← r_btid f;
  Some ({| tmtxflags := 0; tmxid := tmxid i; tmrmid := tmrmid i; tmnodeid := tmnodeid i; tmsrvid := tmsrvid i; tmknownrms := tmknownrms i |}, b).

Definition ndrx_tpbegin (timeout flags : Z) : M Z :=
  s ← get;
  if negb (is_xa_open s) then fail TPEPROTO
  else if negb (flags =? 0) then fail TPEINVAL
  else if current s is Some _ then fail TPEPROTO
  else
    let tmflags := Z.lor (if dynamic_reg env then TMFLAGS_DYNAMIC_REG else 0) (if sys_nostartxid env then TMFLAGS_TPNOSTARTXID else 0) in
    f ← atmi_xa_call_tm_generic (ATMI_XA_TPBEGIN timeout) true None tmflags EXFAIL;
    match f with
    | None => mret EXFAIL
    | Some f =>
        match atmi_xa_read_tx_info f with
        | None => fail TPEPROTO
        | Some (i, b) =>
            ok ← atmi_xa_set_curtx_from_xai i b;
            if negb ok then fail TPEPROTO
            else
              txinfo_set (fun t => set_tranid_flags (Z.lor (tranid_flags t) XA_TXINFO_INITIATOR) t);;
              if dynamic_reg env then
                '(r, _) ← retry_entry true (xa_recon_times env); mret r
              else
                r ← atmi_xa_start_entry (branch i b) TMNOFLAGS;
                if r =? XA_OK then mret XA_OK
                else ndrx_xa_join_fail false;; atmi_xa_reset_curtx;; mret EXFAIL
        end
    end.

(** Whether the resource manager has to be told about the end. *)
Definition needs_end (t : atmi_xa_tx_info) : bool := negb (dynamic_reg env) || has_flag (tranid_flags t) XA_TXINFO_AXREG_CLD.

Definition end_branch (t : atmi_xa_tx_info) (flags : Z) (aborting : bool) : M Z :=
  if needs_end t then atmi_xa_end_entry (branch (info t) (btid t)) flags aborting else mret XA_OK.

Definition ndrx_tpabort (flags : Z) (call_xa_end : bool) : M Z :=
  s ← get;
  if negb (is_xa_open s) then fail TPEPROTO
  else if negb (flags =? 0) then fail TPEINVAL
  else match current s with
       | None => fail TPEPROTO
       | Some t =>
           if negb (has_flag (tranid_flags t) XA_TXINFO_INITIATOR) then fail TPEPROTO
           else
             (if call_xa_end then end_branch t TMSUCCESS true else mret XA_OK);;
             t ← txinfo_deref;
             f ← atmi_xa_call_tm_generic ATMI_XA_TPABORT false (Some (info t)) 0 EXFAIL;
             atmi_xa_reset_curtx;;
             mret (match f with Some _ => EXSUCCEED | None => EXFAIL end)
       end.

(** A transaction that cannot be committed any more. *)
Definition must_abort (t : atmi_xa_tx_info) : bool :=
  bool_decide (call_cds t <> []) || bool_decide (conv_cds t <> []) || has_flag (tmtxflags (info t)) TMTXFLAGS_IS_ABORT_ONLY.

Definition ndrx_tpcommit (flags : Z) : M Z :=
  s ← get;
  if negb (is_xa_open s) then fail TPEPROTO
  else if negb (flags =? 0) && negb (has_flag flags TPTXCOMMITDLOG) then fail TPEINVAL
  else match current s with
       | None => fail TPEPROTO
       | Some t =>
           if tranid_flags t =? 0 then fail TPEPROTO
           else
             let flags := if tx_commit_return s =? TX_COMMIT_DECISION_LOGGED then Z.lor flags TPTXCOMMITDLOG else flags in
             r ← end_branch t TMSUCCESS false;
             if must_abort t || negb (r =? XA_OK) then
               r ← ndrx_tpabort 0 false;
               s ← get;
               if (r =? EXSUCCEED) || (tperr s =? TPEPROTO)
               then ndrx_TPunset_error;; fail TPEABORT else mret r
             else
               t ← txinfo_deref;
               f ← atmi_xa_call_tm_generic ATMI_XA_TPCOMMIT false (Some (info t)) flags EXFAIL;
               atmi_xa_reset_curtx;;
               mret (match f with Some _ => EXSUCCEED | None => EXFAIL end)
       end.

Definition ndrx_tpopen : M Z := atmi_xa_open_entry.

Definition ndrx_tpclose : M Z :=
  s ← get; if current s is Some _ then fail TPEPROTO else atmi_xa_close_entry false.

Definition TP_CMT_LOGGED : Z := 4.
Definition TP_CMT_COMPLETE : Z := 8.

Definition ndrx_tpscmt (flags : Z) : M Z :=
  s ← get;
  if negb (flags =? TP_CMT_LOGGED) && negb (flags =? TP_CMT_COMPLETE) then fail TPEINVAL
  else
    modify (with_return (if flags =? TP_CMT_COMPLETE then TX_COMMIT_COMPLETED else TX_COMMIT_DECISION_LOGGED));;
    mret (if tx_commit_return s =? TX_COMMIT_COMPLETED then TP_CMT_COMPLETE else TP_CMT_LOGGED).

(** The descriptor is filled before the resource manager is told. *)
Definition ndrx_tpsuspend (flags : Z) (is_contexting : bool) : M (Z * option tp_tranid) :=
  s ← get;
  let bad e : M (Z * option tp_tranid) := r ← fail e; mret (r, None) in
  if negb (Z.land flags (Z.lnot TPTXTMSUSPEND) =? 0) then bad TPEINVAL
  else match current s with
       | None => bad TPEPROTO
       | Some t =>
           let xa_flags := if has_flag flags TPTXTMSUSPEND && negb (sys_nojoin env) then TMSUSPEND else TMSUCCESS in
           if negb is_contexting && (bool_decide (call_cds t <> []) || bool_decide (conv_cds t <> [])) then bad TPEPROTO
           else
             let tranid := {| t_info := info t; is_tx_initiator := tranid_flags t |} in
             r ← end_branch t xa_flags false;
             if r =? XA_OK then atmi_xa_reset_curtx;; mret (XA_OK, Some tranid)
             else
               did_abort ← ndrx_xa_join_fail false;
               ndrx_TPoverride_code (if did_abort : bool then TPEABORT else TPESYSTEM);;
               mret (r, Some tranid)
       end.

(** Joining the branch of a resource manager that knows the transaction. *)
Definition join_start (x : xid) (join_flag : Z) : M Z :=
  r ← atmi_xa_start_entry x join_flag;
  if r =? XA_OK then mret XA_OK else ndrx_xa_join_fail false;; mret EXFAIL.

(** Starting a branch, or joining it when it exists. *)
Definition start_or_join (x : xid) (join_flag : Z) : M (Z * bool) :=
  r ← atmi_xa_start_entry x TMNOFLAGS;
  if r =? XA_OK then mret (XA_OK, false)
  else
    s ← get;
    if reason s =? XAER_DUPID then r ← join_start x join_flag; mret (r, true)
    else ndrx_xa_join_fail false;; mret (EXFAIL, false).

(** The part of [_tp_srv_join_or_new] for a resource manager that is not known to
    have the transaction: the transaction manager gives the branch. *)
Definition join_new (i : xa_info) (join_flag : Z) : M (Z * bool) :=
  let b := if sys_nojoin env then EXFAIL else 0 in
  f ← atmi_xa_call_tm_generic ATMI_XA_TMREGISTER false (Some i) (if sys_nostartxid env then TMFLAGS_TPNOSTARTXID else 0) b;
  match f with
  | None => mret (EXFAIL, false)
  | Some f =>
      match r_flags f with
      | None => mret (EXFAIL, false)
      | Some tmflags =>
          let known := has_flag tmflags TMFLAGS_RMIDKNOWN in
          match (if known then Some b else r_btid f) with
          | None => mret (EXFAIL, false)
          | Some b =>
              txinfo_set (set_btid b);;
              '(r, known) ← (if dynamic_reg env then mret (XA_OK, known)
                             else if known then r ← join_start (branch i b) join_flag; mret (r, true)
                             else start_or_join (branch i b) join_flag);
              if negb (r =? XA_OK) then mret (r, known)
              else if sys_nojoin env then mret (XA_OK, known)
              else
                t ← txinfo_deref;
                match atmi_xa_update_known_rms (tmknownrms (info t)) (xa_rmid env) with
                | None => mret (EXFAIL, known)
                | Some l => txinfo_set (set_known l);; mret (XA_OK, known)
                end
          end
      end
  end.

(** The part for both kinds of registration. *)
Definition join_common (i : xa_info) (join_flag : Z) : M (Z * bool) :=
  if negb (sys_nojoin env) && atmi_xa_is_current_rm_known (xa_rmid env) (tmknownrms i) then
    txinfo_set (set_btid 0);;
    if dynamic_reg env && negb (has_flag join_flag TMRESUME) then mret (XA_OK, true)
    else r ← join_start (branch i 0) join_flag; mret (r, true)
  else join_new i join_flag.

Definition enter (i : xa_info) (b flags : Z) : M bool :=
  ok ← atmi_xa_set_curtx_from_xai i b;
  if ok : bool then txinfo_set (set_tranid_flags flags);; mret true else mret false.

Definition join_body (i : xa_info) (b : Z) (is_ax_reg_callback : bool) (join_flag flags : Z) : M (Z * bool) :=
  if negb (dynamic_reg env) || has_flag flags XA_TXINFO_AXREG_CLD then
    ok ← enter i b flags;
    if ok : bool then join_common i join_flag else mret (EXFAIL, false)
  else if negb is_ax_reg_callback then
    '(r, attempts) ← retry_entry true (xa_recon_times env);
    if negb (r =? XA_OK) then mret (r, false)
    else
      ok ← enter i b flags;
      if negb ok then mret (EXFAIL, false)
      else '(r, _) ← retry_entry true attempts; mret (r, false)
  else
    txinfo_set (fun t => set_tranid_flags (Z.lor (tranid_flags t) XA_TXINFO_AXREG_CLD) t);;
    join_common i join_flag.

(** The result is the code and whether the transaction was known. *)
Definition _tp_srv_join_or_new (i : xa_info) (b : Z) (is_ax_reg_callback : bool) (join_flag flags : Z) : M (Z * bool) :=
  '(r, known) ← join_body i b is_ax_reg_callback join_flag flags;
  (if r =? XA_OK then mret tt else atmi_xa_reset_curtx);;
  mret (r, known).

(** [xai.btid] has no value here. *)
Definition ndrx_tpresume (tranid : tp_tranid) (flags : Z) : M Z :=
  s ← get;
  if negb (Z.land flags (Z.lnot (Z.lor TPTXNOOPTIM TPTXTMSUSPEND)) =? 0) then fail TPEINVAL
  else
    let join_flag := if has_flag flags TPTXTMSUSPEND && negb (sys_nojoin env) then TMRESUME else TMJOIN in
    if current s is Some _ then fail TPEPROTO
    else
      let i := t_info tranid in
      let i := {| tmtxflags := tmtxflags i; tmxid := tmxid i; tmrmid := tmrmid i; tmnodeid := tmnodeid i; tmsrvid := tmsrvid i;
                  tmknownrms := if has_flag flags TPTXNOOPTIM then [] else tmknownrms i |} in
      '(r, _) ← _tp_srv_join_or_new i stack false join_flag (is_tx_initiator tranid);
      if r =? XA_OK then mret XA_OK else fail TPESYSTEM.

(** The id the resource manager is given when it registers, or an error. *)
Definition ax_reg : M (Z * option xid) :=
  t ← txinfo;
  match t with
  | None => mret (TMER_TMERR, None)
  | Some t =>
      '(r, known) ← _tp_srv_join_or_new (info t) (btid t) true TMJOIN (tranid_flags t);
      if negb (r =? XA_OK) then mret (TMER_TMERR, None)
      else
        t ← txinfo_deref;
        let x := branch (info t) (btid t) in
        modify (with_event (EvAxReg x));;
        mret (if known : bool then TM_JOIN else 0, Some x)
  end.

Definition _tp_srv_join_or_new_from_call (i : xa_info) : M Z :=
  '(r, _) ← _tp_srv_join_or_new i 0 false TMJOIN 0; mret r.

(** The result is the code and whether the resource manager failed. *)
Definition _tp_srv_disassoc_tx (force_rollback : bool) : M (Z * bool) :=
  t ← txinfo;
  match t with
  | None => mret (XA_OK, false)
  | Some t =>
      r ← end_branch t TMSUCCESS false;
      (if force_rollback then ndrx_xa_join_fail true;; mret tt else mret tt);;
      atmi_xa_reset_curtx;;
      mret (r, negb (r =? XA_OK))
  end.

(** ** Calls in a transaction *)

(** [atmi_xa_cd_reg] and [atmi_xa_cd_unreg], for calls or conversations. *)
Definition set_cds (conv : bool) (f : list Z -> list Z) (t : atmi_xa_tx_info) : atmi_xa_tx_info :=
  {| info := info t; btid := btid t; tranid_flags := tranid_flags t;
     call_cds := if conv then call_cds t else f (call_cds t); conv_cds := if conv then f (conv_cds t) else conv_cds t |}.

Fixpoint remove_cd (cd : Z) (l : list Z) : list Z :=
  match l with [] => [] | c :: l => if c =? cd then l else c :: remove_cd cd l end.

Definition atmi_xa_cd_reg (conv : bool) (cd : Z) : M Z :=
  s ← get; if calloc (history s) then txinfo_set (set_cds conv (fun l => l ++ [cd]));; mret EXSUCCEED else mret EXFAIL.
Definition atmi_xa_cd_unreg (conv : bool) (cd : Z) : M unit := txinfo_set (set_cds conv (remove_cd cd)).

(** [NDRX_ABORT_END] and its kind: a failed call marks the transaction. *)
Definition mark_abort_only : M unit :=
  txinfo_set (fun t => let i := info t in
    {| info := {| tmtxflags := Z.lor (tmtxflags i) TMTXFLAGS_IS_ABORT_ONLY; tmxid := tmxid i; tmrmid := tmrmid i; tmnodeid := tmnodeid i; tmsrvid := tmsrvid i; tmknownrms := tmknownrms i |};
       btid := btid t; tranid_flags := tranid_flags t; call_cds := call_cds t; conv_cds := conv_cds t |}).

(** ** The interface ([libatmi/atmi.c]) *)

Definition tpopen : M Z := ndrx_TPunset_error;; ndrx_tpopen.
Definition tpclose : M Z := s ← get; if negb (is_xa_open s) then mret EXSUCCEED else ndrx_TPunset_error;; ndrx_tpclose.
Definition tpbegin (timeout flags : Z) : M Z := ndrx_TPunset_error;; ndrx_tpbegin timeout flags.
Definition tpcommit (flags : Z) : M Z := ndrx_TPunset_error;; ndrx_tpcommit flags.
Definition tpabort (flags : Z) : M Z := ndrx_TPunset_error;; ndrx_tpabort flags true.
Definition tpscmt (flags : Z) : M Z := ndrx_TPunset_error;; ndrx_tpscmt flags.
Definition tpsuspend (flags : Z) : M (Z * option tp_tranid) := ndrx_TPunset_error;; ndrx_tpsuspend flags false.
Definition tpresume (tranid : tp_tranid) (flags : Z) : M Z := ndrx_TPunset_error;; ndrx_tpresume tranid flags.

End Xa.

(** ** Reasoning about steps *)

(** The step has a result, and it satisfies [Q]. *)
Definition runs {A} (m : M A) (s : xa_tls) (Q : A -> xa_tls -> Prop) : Prop :=
  match m s with Some (a, s') => Q a s' | None => False end.

Lemma runs_bind {A B} (m : M A) (k : A -> M B) s Q : runs m s (fun a s' => runs (k a) s' Q) -> runs (m ≫= k) s Q.
Proof. unfold runs, mbind, M_bind. by destruct (m s) as [[a s']|]. Qed.

Lemma runs_ret {A} (a : A) s (Q : A -> xa_tls -> Prop) : Q a s -> runs (mret a) s Q.
Proof. done. Qed.

Lemma runs_mono {A} (m : M A) s (P Q : A -> xa_tls -> Prop) : runs m s P -> (forall a s', P a s' -> Q a s') -> runs m s Q.
Proof. unfold runs. destruct (m s) as [[a s']|]; auto. Qed.

Lemma runs_get s (Q : xa_tls -> xa_tls -> Prop) : Q s s -> runs get s Q.
Proof. done. Qed.

Lemma runs_modify f s (Q : unit -> xa_tls -> Prop) : Q tt (f s) -> runs (modify f) s Q.
Proof. done. Qed.

Lemma runs_Some {A} (m : M A) s Q : runs m s Q -> exists a s', m s = Some (a, s') /\ Q a s'.
Proof. unfold runs. destruct (m s) as [[a s']|]; [eauto|done]. Qed.

(** Everything a step computes that is not a call of its own. *)
Ltac step1 :=
  lazymatch goal with
  | |- runs (_ ≫= _) _ _ => apply runs_bind
  | |- runs get _ _ => apply runs_get
  | |- runs (modify _) _ _ => apply runs_modify
  | |- runs (mret _) _ _ => apply runs_ret
  | |- runs (if ?b then _ else _) _ _ => lazymatch type of b with bool => destruct b eqn:? end
  end.
Ltac steps := repeat (step1; cbv beta zeta iota).

(** ** What the resource manager sees *)

(** The branch it has started and not been asked to end, as far as it was called;
    closing the connection ends it as well. *)
Definition engage (e : option xid) (ev : event) : option xid :=
  match ev with
  | EvRm (XaStart x _) r => if r =? XA_OK then Some x else e
  | EvRm (XaEnd _ _) _ | EvRm XaClose _ => None
  | EvAxReg x => Some x
  | _ => e
  end.
Definition engaged (h : list event) : option xid := foldl engage None h.

(** A branch is started only when there is none. *)
Definition starts_ok (h : list event) : Prop :=
  forall h1 x f r h2, h = h1 ++ EvRm (XaStart x f) r :: h2 -> engaged h1 = None.

(** Nothing is started, and no commit asked for. *)
Definition undecided (ev : event) : Prop := match ev with EvTm q _ => q_cmd q <> ATMI_XA_TPCOMMIT | _ => True end.
Definition quiet (ev : event) : Prop := match ev with EvRm (XaStart _ _) _ | EvAxReg _ => False | _ => undecided ev end.

Lemma engaged_app h es : engaged (h ++ es) = foldl engage (engaged h) es.
Proof. apply foldl_app. Qed.

Lemma engage_quiet es e : Forall quiet es -> foldl engage e es = e \/ foldl engage e es = None.
Proof.
  revert e. induction es as [|ev es IH]; intros e; [by left|]. intros [Hq Hes]%Forall_cons. cbn.
  destruct (IH (engage e ev) Hes) as [->| ->]; [|by right].
  destruct ev as [[]| |]; cbn in *; try done; auto.
Qed.

Lemma engaged_quiet h es : Forall quiet es -> engaged h = None -> engaged (h ++ es) = None.
Proof. intros Hq Hn. rewrite engaged_app, Hn. by destruct (engage_quiet es None Hq). Qed.

Lemma starts_ok_snoc h ev :
  starts_ok h -> (quiet ev \/ engaged h = None) -> starts_ok (h ++ [ev]).
Proof.
  intros Hs Hev h1 x f r h2 Heq.
  destruct h2 as [|e2 h2 _] using rev_ind.
  - apply app_inj_tail in Heq as [<- ->]. by destruct Hev as [[]|].
  - rewrite app_comm_cons, app_assoc in Heq. apply app_inj_tail in Heq as [-> _]. by eapply Hs.
Qed.

Lemma starts_ok_quiet h es : Forall quiet es -> starts_ok h -> starts_ok (h ++ es).
Proof.
  intros Hq Hs. induction es as [|ev es IH] using rev_ind; [by rewrite app_nil_r|].
  apply Forall_app in Hq as [Hq [Hev _]%Forall_cons]. rewrite app_assoc. apply starts_ok_snoc; auto.
Qed.

(** Steps that leave the transaction and its branch alone, but for the connection. *)
Definition linked_ok (s : xa_tls) : Prop := is_xa_conn_error s = true -> is_xa_open s = true.

Definition aside (s s' : xa_tls) : Prop :=
  tx_tab s' = tx_tab s /\ txcur s' = txcur s /\ tx_commit_return s' = tx_commit_return s /\
  (linked_ok s -> linked_ok s') /\ exists es, history s' = history s ++ es /\ Forall quiet es.

#[export] Instance aside_refl : Reflexive aside.
Proof. intros s. unfold aside. split_and!; try done. exists []. by rewrite app_nil_r. Qed.

#[export] Instance aside_trans : Transitive aside.
Proof.
  intros a b c (Ht & Hc & Hr & Hl & es & He & Hq) (Ht' & Hc' & Hr' & Hl' & es' & He' & Hq').
  unfold aside. split_and!; [congruence..|auto|]. exists (es ++ es'). rewrite He', He, app_assoc. split; [done|]. by apply Forall_app.
Qed.

(** The same for steps that may start a branch. *)
Definition beside (s s' : xa_tls) : Prop :=
  tx_tab s' = tx_tab s /\ txcur s' = txcur s /\ tx_commit_return s' = tx_commit_return s /\
  (linked_ok s -> linked_ok s') /\ exists es, history s' = history s ++ es /\ Forall undecided es.

Lemma aside_beside s s' : aside s s' -> beside s s'.
Proof.
  intros (Ht & Hc & Hr & Hl & es & He & Hq). unfold beside. split_and!; try done. exists es. split; [done|].
  eapply Forall_impl; [exact Hq|]. by intros [[]| |].
Qed.

#[export] Instance beside_trans : Transitive beside.
Proof.
  intros a b c (Ht & Hc & Hr & Hl & es & He & Hq) (Ht' & Hc' & Hr' & Hl' & es' & He' & Hq').
  unfold beside. split_and!; [congruence..|auto|]. exists (es ++ es'). rewrite He', He, app_assoc. split; [done|]. by apply Forall_app.
Qed.

Lemma beside_event s ev : undecided ev -> beside s (with_event ev s).
Proof. intros Hq. unfold beside. split_and!; try done. exists [ev]. split; [done|]. by apply Forall_singleton. Qed.

Lemma beside_current s s' : beside s s' -> current s' = current s.
Proof. intros (Ht & Hc & _). unfold current. by rewrite Ht, Hc. Qed.

Lemma beside_linked s s' : beside s s' -> linked_ok s -> linked_ok s'.
Proof. intros (_ & _ & _ & H & _). done. Qed.

Lemma aside_linked s s' : aside s s' -> linked_ok s -> linked_ok s'.
Proof. intros H. by apply beside_linked, aside_beside. Qed.

Lemma aside_current s s' : aside s s' -> current s' = current s.
Proof. intros (Ht & Hc & _). unfold current. by rewrite Ht, Hc. Qed.

Lemma aside_engaged s s' : aside s s' -> engaged (history s) = None -> engaged (history s') = None.
Proof. intros (_ & _ & _ & _ & es & -> & Hq). by apply engaged_quiet. Qed.

Lemma aside_engaged_or s s' : aside s s' -> engaged (history s') = engaged (history s) \/ engaged (history s') = None.
Proof. intros (_ & _ & _ & _ & es & -> & Hq). rewrite engaged_app. by apply engage_quiet. Qed.

Lemma aside_starts s s' : aside s s' -> starts_ok (history s) -> starts_ok (history s').
Proof. intros (_ & _ & _ & _ & es & -> & Hq). by apply starts_ok_quiet. Qed.

Lemma aside_err s e r : aside s (with_err e r s).
Proof. unfold aside. split_and!; try done. exists []. cbn. by rewrite app_nil_r. Qed.

Lemma aside_event s ev : quiet ev -> aside s (with_event ev s).
Proof. intros Hq. unfold aside. split_and!; try done. exists [ev]. split; [done|]. by apply Forall_singleton. Qed.

Lemma aside_open s o c : (c = true -> o = true) -> aside s (with_open o c s).
Proof. intros H. unfold aside. split_and!; try done. exists []. cbn. by rewrite app_nil_r. Qed.

Create HintDb xa.
#[export] Hint Resolve aside_err aside_event aside_open : xa.
#[export] Hint Extern 0 (aside ?s ?s) => reflexivity : xa.

Lemma aside_set_error s e r : aside s (if tperr s =? 0 then with_err e r s else s).
Proof. destruct (tperr s =? 0); auto with xa. Qed.
#[export] Hint Resolve aside_set_error : xa.

Section Specs.
Context (env : xa_env) (rmgr : list event -> rm_call -> Z) (tm : list event -> tm_req -> tm_answer) (calloc : list event -> bool) (stack : Z).

Local Abbreviation open_entry := (atmi_xa_open_entry rmgr).
Local Abbreviation close_entry := (atmi_xa_close_entry rmgr).

Lemma xa_call_spec c s : runs (xa_call rmgr c) s (fun r s' => r = rmgr (history s) c /\ s' = with_event (EvRm c r) s).
Proof. unfold xa_call. by steps. Qed.

Lemma tm_call_spec cmd any i fl b s :
  runs (atmi_xa_call_tm_generic tm cmd any i fl b) s (fun f s' => (cmd <> ATMI_XA_TPCOMMIT -> aside s s') /\
    tx_tab s' = tx_tab s /\ txcur s' = txcur s /\ tx_commit_return s' = tx_commit_return s /\
    exists q a, q_cmd q = cmd /\ q_info q = i /\ history s' = history s ++ [EvTm q a] /\
      a = tm (history s) q /\ (forall g, f = Some g <-> exists rsn, a = Answered 0 rsn g) /\
      is_xa_open s' = is_xa_open s /\ is_xa_conn_error s' = is_xa_conn_error s).
Proof.
  unfold atmi_xa_call_tm_generic, ndrx_TPset_error_msg. steps.
  set (q := {| q_cmd := _ |}). destruct (tm (history s) q) as [e|e rsn g] eqn:Ea; steps.
  all: set (s1 := with_event (EvTm q _) s).
  all: assert (cmd <> ATMI_XA_TPCOMMIT -> aside s s1) as H1 by (intros Hc; by apply aside_event).
  - split; [intros Hc; etransitivity; [by apply H1|apply aside_set_error]|].
    destruct (tperr s1 =? 0); (split_and!; [done..|]); exists q, (Unsent e); (split_and!; try done).
    all: intros g; split; [by intros [=]|by intros (? & [=])].
  - apply Z.eqb_eq in Heqb0 as ->. split; [intros Hc; etransitivity; [by apply H1|apply aside_err]|]. split_and!; [done..|].
    exists q, (Answered 0 rsn g). split_and!; try done. intros g'. split; [intros [= ->]; eauto|by intros (? & [= _ ->])].
  - apply Z.eqb_neq in Heqb0. split; [intros Hc; etransitivity; [by apply H1|apply aside_err]|]. split_and!; [done..|].
    exists q, (Answered e rsn g). split_and!; try done. intros g'. split; [by intros [=]|by intros (? & [= -> _ _])].
Qed.

Lemma open_entry_spec s : runs open_entry s (fun r s' => aside s s' /\ (r = XA_OK -> is_xa_conn_error s' = false)).
Proof.
  unfold atmi_xa_open_entry, ndrx_TPset_error_fmt_rsn. steps.
  - split; [reflexivity|]. intros _. apply andb_true_iff in Heqb as [_ H]. by apply negb_true_iff.
  - eapply runs_mono; [apply xa_call_spec|]. cbn beta. intros r s1 [_ ->]. steps.
    + split; [|done]. transitivity (with_event (EvRm XaOpen r) s); [by apply aside_event|by apply aside_open].
    + split; [transitivity (with_event (EvRm XaOpen r) s); [by apply aside_event|apply aside_set_error]|].
      apply Z.eqb_neq in Heqb0. destruct (Z.eqb_spec r XAER_RMERR); [by intros [=]|done].
Qed.

(** Closing the connection ends the branch, when it is open. *)
Lemma close_entry_spec for_retry s :
  runs (close_entry for_retry) s (fun r s' => aside s s' /\ (is_xa_open s = true -> engaged (history s') = None)).
Proof.
  unfold atmi_xa_close_entry, ndrx_TPset_error_fmt_rsn. steps.
  { split; [reflexivity|]. by apply negb_true_iff in Heqb as ->. }
  all: apply negb_false_iff in Heqb.
  all: eapply runs_mono; [apply xa_call_spec|]; cbn beta; intros r s1 [_ ->]; steps.
  all: set (s0 := with_open _ _ s); set (s1 := with_event _ s0).
  all: assert (aside s s1) as H1 by (transitivity s0; [by apply aside_open|by apply aside_event]).
  all: assert (engaged (history s1) = None) as He by (subst s1; cbn; by rewrite engaged_app).
  all: split; [|intros _].
  all: try (etransitivity; [exact H1|apply aside_set_error]); try done.
  all: by destruct (tperr s1 =? 0).
Qed.

(** ** The retry engine *)

Lemma unset_error_aside s : aside s (with_err 0 0 s).
Proof. apply aside_err. Qed.

(** Opening the connection again. *)
Lemma reopen_spec s :
  runs (close_entry true;; ndrx_TPunset_error;; open_entry) s
    (fun r s' => aside s s' /\ (is_xa_open s = true -> engaged (history s') = None)).
Proof.
  apply runs_bind. eapply runs_mono; [apply close_entry_spec|]. cbn beta. intros _ s1 [H1 He].
  apply runs_bind, runs_modify. eapply runs_mono; [apply open_entry_spec|]. cbn beta. intros r s2 [H2 _].
  assert (H12 : aside s1 s2) by (etransitivity; [apply unset_error_aside|done]).
  split; [by etransitivity|]. intros Ho. eapply aside_engaged; [exact H12|auto].
Qed.

(** Whatever holds after failed attempts and survives what happens in between holds
    at the end, or what holds after a successful one. *)
Section Retry.
Context (F S : xa_tls -> Prop) (call : M Z).
Hypothesis F_aside : forall s s', F s -> aside s s' -> F s'.
Hypothesis call_ok : forall s, F s -> runs call s (fun r s' => if r =? XA_OK then S s' else F s').

Lemma retry_loop_spec attempts cond : forall r s,
  F s -> (r =? XA_OK) = false ->
  runs (retry_loop rmgr attempts call cond true r) s (fun p s' => if p.1 =? XA_OK then S s' else F s').
Proof.
  induction attempts as [|attempts IH]; intros r s Hf Hr; cbn [retry_loop].
  { apply runs_ret. cbn. by rewrite Hr. }
  pose proof (reopen_spec s) as Hre. apply runs_Some in Hre as (r1 & s1 & Hre & H1 & _).
  unfold mbind, M_bind in Hre. unfold runs, mbind, M_bind.
  destruct (close_entry true s) as [[? s2]|]; [|done]. destruct (ndrx_TPunset_error s2) as [[? s3]|]; [|done]. rewrite Hre.
  fold (@M_bind). assert (Hf1 : F s1) by eauto. destruct (r1 =? XA_OK) eqn:E1; [|by apply IH].
  change (runs (ndrx_TPunset_error;; r ← call; if r =? XA_OK then mret (r, attempts)
    else if cond r then retry_loop rmgr attempts call cond true r else mret (r, attempts)) s1 (fun p s' => if p.1 =? XA_OK then S s' else F s')).
  apply runs_bind, runs_modify, runs_bind.
  eapply runs_mono; [apply call_ok; eapply F_aside; [exact Hf1|apply unset_error_aside]|]. cbn beta. intros r2 s4 H4.
  destruct (r2 =? XA_OK) eqn:E2; [apply runs_ret; cbn; by rewrite E2|].
  destruct (cond r2); [by apply IH|apply runs_ret; cbn; by rewrite E2].
Qed.

Lemma retry_core_spec attempts now cond r s :
  F s -> (r =? XA_OK) = false ->
  runs (retry_core env rmgr attempts call now cond true r) s (fun p s' => if p.1 =? XA_OK then S s' else F s').
Proof.
  intros Hf Hr. unfold retry_core. destruct (negb _ && now); [|apply runs_ret; cbn; by rewrite Hr].
  apply runs_bind. eapply runs_mono; [by apply retry_loop_spec|]. cbn beta. intros [r1 a1] s1 H1. cbn in H1.
  destruct (Z.eqb_spec r1 XAER_RMFAIL) as [->|]; steps; [|done].
  eapply runs_mono; [apply close_entry_spec|]. cbn beta. intros _ s2 [H2 _]. steps. cbn in *. eauto.
Qed.

Lemma generic_retry_spec attempts cond r s :
  F s -> (r =? XA_OK) = false ->
  runs (generic_retry env rmgr attempts call cond r) s (fun r s' => if r =? XA_OK then S s' else F s').
Proof.
  intros Hf Hr. unfold generic_retry, ndrx_TPset_error_fmt_rsn. apply runs_bind.
  eapply runs_mono; [by apply retry_core_spec|]. cbn beta. intros [r1 a1] s1 H1. cbn in H1.
  destruct (r1 =? XA_OK) eqn:E1; steps; rewrite E1; [done|]. eapply F_aside; [exact H1|apply aside_set_error].
Qed.

End Retry.

(** One attempt, only for the connection. *)
Lemma reconnect_unfold attempts r s Q :
  runs (close_entry true;; ndrx_TPunset_error;; open_entry) s
    (fun r s' => runs (if r =? XA_OK then mret (r, attempts) else retry_loop rmgr attempts (mret 0) (fun _ => true) false r) s' Q) ->
  runs (retry_loop rmgr (S attempts) (mret 0) (fun _ => true) false r) s Q.
Proof.
  unfold runs. cbn [retry_loop]. unfold mbind, M_bind. destruct (close_entry true s) as [[? s1]|]; [|done].
  destruct (ndrx_TPunset_error s1) as [[? s2]|]; [|done]. by destruct (open_entry s2) as [[? s3]|].
Qed.

Lemma reconnect_aside attempts : forall r s,
  runs (retry_loop rmgr attempts (mret 0) (fun _ => true) false r) s (fun _ s' => aside s s').
Proof.
  induction attempts as [|attempts IH]; intros r s; [apply runs_ret; reflexivity|].
  apply reconnect_unfold. eapply runs_mono; [apply reopen_spec|]. cbn beta. intros r1 s1 [H1 _].
  destruct (r1 =? XA_OK); [by apply runs_ret|]. eapply runs_mono; [apply IH|]. cbn beta. intros _ s2 H2. by etransitivity.
Qed.

(** When the connection does not come back the branch is gone. *)
Lemma reconnect_spec attempts s :
  is_xa_open s = true ->
  runs (retry_loop rmgr attempts (mret 0) (fun _ => true) false XA_OK) s
    (fun p s' => aside s s' /\ (p.1 <> XA_OK -> engaged (history s') = None)).
Proof.
  intros Ho. destruct attempts as [|attempts]; [apply runs_ret; split; [reflexivity|done]|].
  apply reconnect_unfold. eapply runs_mono; [apply reopen_spec|]. cbn beta. intros r1 s1 [H1 He].
  destruct (r1 =? XA_OK); [by apply runs_ret; auto|].
  eapply runs_mono; [apply reconnect_aside|]. cbn beta. intros [r2 a2] s2 H2. split; [by etransitivity|].
  intros _. eapply aside_engaged; [exact H2|auto].
Qed.

Lemma entry_core_spec attempts s :
  linked_ok s ->
  runs (retry_core env rmgr attempts (mret 0) (is_xa_conn_error s) (fun _ => true) false XA_OK) s
    (fun p s' => aside s s' /\ (p.1 <> XA_OK -> engaged (history s') = None) /\ (is_xa_conn_error s = false -> p = (XA_OK, attempts) /\ s' = s)).
Proof.
  intros Hl. unfold retry_core. destruct (is_xa_conn_error s) eqn:Ec; [|rewrite andb_false_r; apply runs_ret; by split_and!].
  destruct (negb _ && true); [|apply runs_ret; by split_and!].
  apply runs_bind. eapply runs_mono; [by apply reconnect_spec, Hl|]. cbn beta. intros [r1 a1] s1 [H1 He]. cbn in He.
  destruct (Z.eqb_spec r1 XAER_RMFAIL) as [->|]; steps; [|by split_and!].
  eapply runs_mono; [apply close_entry_spec|]. cbn beta. intros _ s2 [H2 _]. steps.
  split_and!; [by etransitivity| |done]. intros _. eapply aside_engaged; [exact H2|]. by apply He.
Qed.

Lemma retry_entry_spec attempts s :
  linked_ok s ->
  runs (retry_entry env rmgr tm false attempts) s (fun p s' => aside s s' /\ (p.1 <> XA_OK -> engaged (history s') = None)).
Proof.
  intros Hl. unfold retry_entry, ndrx_TPset_error_fmt_rsn. apply runs_bind, runs_get, runs_bind.
  eapply runs_mono; [by apply entry_core_spec|]. cbn beta. intros [r1 a1] s1 (H1 & He & _). cbn in He.
  destruct (Z.eqb_spec r1 XA_OK); steps; [by split|].
  split; [etransitivity; [exact H1|apply aside_set_error]|]. intros _. eapply aside_engaged; [apply aside_set_error|auto].
Qed.

(** ** The entries of the resource manager *)

Lemma quiet_call_spec s0 c : (forall r, quiet (EvRm c r)) -> forall s, aside s0 s -> runs (xa_call rmgr c) s (fun r s' => aside s0 s').
Proof.
  intros Hq s Hs. eapply runs_mono; [apply xa_call_spec|]. cbn beta. intros r s' [_ ->].
  etransitivity; [exact Hs|]. by apply aside_event.
Qed.

Lemma runs_if {A} (m : M A) s (b : A -> bool) (P : xa_tls -> Prop) :
  runs m s (fun _ s' => P s') -> runs m s (fun r s' => if b r then P s' else P s').
Proof. intros H. eapply runs_mono; [exact H|]. cbn beta. intros a s' Hp. by destruct (b a). Qed.

Lemma if_same (b : bool) (P : Prop) : (if b then P else P) -> P.
Proof. by destruct b. Qed.

Lemma quiet_retry_spec s0 c attempts cond r s :
  (forall r, quiet (EvRm c r)) -> aside s0 s -> (r =? XA_OK) = false ->
  runs (generic_retry env rmgr attempts (xa_call rmgr c) cond r) s (fun _ s' => aside s0 s').
Proof.
  intros Hq Hs Hr. eapply runs_mono.
  - apply (generic_retry_spec (aside s0) (aside s0)); [by intros; etransitivity| |exact Hs|exact Hr].
    intros. apply runs_if. by apply quiet_call_spec.
  - cbn beta. intros a s' H. by eapply if_same.
Qed.

Lemma rollback_entry_spec x fl s :
  linked_ok s -> runs (atmi_xa_rollback_entry env rmgr tm x fl) s (fun _ s' => aside s s').
Proof.
  intros Hl. unfold atmi_xa_rollback_entry. apply runs_bind. eapply runs_mono; [by apply retry_entry_spec|].
  cbn beta. intros [r1 a1] s1 [H1 _]. steps; [done|].
  eapply runs_mono; [by apply (quiet_call_spec s)|]. cbn beta. intros r2 s2 H2. steps; [done|by apply quiet_retry_spec].
Qed.

Lemma prepare_entry_spec x fl s :
  linked_ok s -> runs (atmi_xa_prepare_entry env rmgr tm x fl) s (fun _ s' => aside s s').
Proof.
  intros Hl. unfold atmi_xa_prepare_entry, ndrx_TPset_error_fmt_rsn. apply runs_bind. eapply runs_mono; [by apply retry_entry_spec|].
  cbn beta. intros [r1 a1] s1 [H1 _]. steps; [done|].
  eapply runs_mono; [by apply (quiet_call_spec s)|]. cbn beta. intros r2 s2 H2. steps; [done| |by apply quiet_retry_spec].
  etransitivity; [exact H2|apply aside_set_error].
Qed.

(** A branch is started at most once, and only when nothing else is. *)
Definition ready (s0 s : xa_tls) : Prop := beside s0 s /\ starts_ok (history s) /\ engaged (history s) = None.
Definition started (x : xid) (s0 s : xa_tls) : Prop := beside s0 s /\ starts_ok (history s) /\ engaged (history s) = Some x.

Lemma ready_aside s0 s s' : ready s0 s -> aside s s' -> ready s0 s'.
Proof.
  intros (Hb & Hs & He) Ha. split_and!; [etransitivity; [exact Hb|by apply aside_beside]|by eapply aside_starts|by eapply aside_engaged].
Qed.

Lemma start_call_spec x fl s0 s :
  ready s0 s -> runs (xa_call rmgr (XaStart x fl)) s (fun r s' => if r =? XA_OK then started x s0 s' else ready s0 s').
Proof.
  intros (Hb & Hs & He). eapply runs_mono; [apply xa_call_spec|]. cbn beta. intros r s' [_ ->].
  assert (Hb' : beside s0 (with_event (EvRm (XaStart x fl) r) s)) by (etransitivity; [exact Hb|by apply beside_event]).
  assert (Hs' : starts_ok (history s ++ [EvRm (XaStart x fl) r])) by (apply starts_ok_snoc; auto).
  assert (Heq : engaged (history s ++ [EvRm (XaStart x fl) r]) = if r =? XA_OK then Some x else None) by (rewrite engaged_app, He; done).
  destruct (r =? XA_OK); split_and!; done.
Qed.

Lemma start_entry_spec x fl s :
  linked_ok s -> starts_ok (history s) -> engaged (history s) = None ->
  runs (atmi_xa_start_entry env rmgr tm x fl) s (fun r s' => if r =? XA_OK then started x s s' else ready s s').
Proof.
  intros Hl Hs He. unfold atmi_xa_start_entry. apply runs_bind. eapply runs_mono; [by apply retry_entry_spec|].
  cbn beta. intros [r1 a1] s1 [H1 _].
  assert (Hr1 : ready s s1).
  { split_and!; [by apply aside_beside|by eapply aside_starts|by eapply aside_engaged]. }
  destruct (r1 =? XA_OK) eqn:E1; cbn [negb]; [|apply runs_ret; by rewrite E1].
  apply runs_bind. eapply runs_mono; [by apply start_call_spec|]. cbn beta. intros r2 s2 H2.
  destruct (r2 =? XA_OK) eqn:E2; [apply runs_ret; by rewrite E2|].
  apply (generic_retry_spec (ready s) (started x s)); [by apply ready_aside|by intros; apply start_call_spec|done|done].
Qed.

(** Ending a branch; a resource manager without ids is asked to prepare as well. *)
Lemma end_prepare_spec x ab s :
  linked_ok s -> is_Some (current s) -> runs (end_prepare env rmgr tm x ab) s (fun _ s' => aside s s').
Proof.
  intros Hl [t Ht]. unfold end_prepare. cbv zeta. apply runs_bind.
  assert (Hp : runs (if ab && has_loctxabort env then xa_call rmgr (LocTxAbort x TMNOFLAGS) else atmi_xa_prepare_entry env rmgr tm x TMNOFLAGS) s
    (fun _ s' => aside s s')).
  { destruct (ab && _); [by apply quiet_call_spec|by apply prepare_entry_spec]. }
  eapply runs_mono; [exact Hp|]. cbn beta. intros r s1 H1. destruct (negb _ && _ && _); [by apply runs_ret|].
  apply runs_bind. unfold txinfo_deref, txinfo. steps. rewrite (aside_current _ _ H1), Ht. steps.
  eapply runs_mono; [apply tm_call_spec|]. cbn beta. intros _ s2 [H2 _]. specialize (H2 ltac:(done)).
  steps; [|by etransitivity].
  eapply runs_mono; [apply rollback_entry_spec; eapply aside_linked; [exact H2|by eapply aside_linked]|].
  cbn beta. intros _ s3 H3. steps. etransitivity; [exact H1|]. by etransitivity.
Qed.

(** The event is among the new ones. *)
Definition seen (ev : event) (s s' : xa_tls) : Prop := exists h1 h2, history s' = history s ++ h1 ++ ev :: h2.

Lemma seen_aside ev s s1 s2 : seen ev s s1 -> aside s1 s2 -> seen ev s s2.
Proof.
  intros (h1 & h2 & He) (_ & _ & _ & _ & es & Hes & _). exists h1, (h2 ++ es). by rewrite Hes, He, <- !app_assoc.
Qed.

Definition ended (s s' : xa_tls) : Prop := aside s s' /\ engaged (history s') = None.

Lemma ended_aside s s1 s2 : ended s s1 -> aside s1 s2 -> ended s s2.
Proof. intros [Ha He] H. split; [by etransitivity|by eapply aside_engaged]. Qed.

Lemma end_call_spec x fl s0 s :
  aside s0 s -> runs (xa_call rmgr (XaEnd x fl)) s (fun r s' =>
    if r =? XA_OK then ended s0 s' /\ seen (EvRm (XaEnd x fl) XA_OK) s0 s' else ended s0 s').
Proof.
  intros Ha. eapply runs_mono; [apply xa_call_spec|]. cbn beta. intros r s' [_ ->].
  assert (He : ended s0 (with_event (EvRm (XaEnd x fl) r) s)).
  { split; [etransitivity; [exact Ha|by apply aside_event]|]. cbn. by rewrite engaged_app. }
  destruct (Z.eqb_spec r XA_OK) as [->|]; [|done]. split; [done|].
  destruct Ha as (_ & _ & _ & _ & es & Hes & _). exists es, []. cbn. by rewrite Hes, <- app_assoc.
Qed.

Lemma end_entry_spec x fl ab s :
  linked_ok s -> is_Some (current s) ->
  runs (atmi_xa_end_entry env rmgr tm x fl ab) s (fun r s' => ended s s' /\ (r = XA_OK -> seen (EvRm (XaEnd x fl) XA_OK) s s')).
Proof.
  intros Hl Hc. unfold atmi_xa_end_entry. apply runs_bind. eapply runs_mono; [by apply retry_entry_spec|].
  cbn beta. intros [r1 a1] s1 [H1 He1]. cbn in He1.
  destruct (Z.eqb_spec r1 XA_OK) as [E1|E1]; cbn [negb]; [|apply runs_ret; split; [split; auto|done]].
  apply runs_bind. eapply runs_mono; [by apply (end_call_spec _ _ s)|]. cbn beta. intros r2 s2 H2. apply runs_bind.
  set (S0 := fun s' => ended s s' /\ seen (EvRm (XaEnd x fl) XA_OK) s s').
  assert (Hr : runs (if r2 =? XA_OK then mret r2 else generic_retry env rmgr a1 (xa_call rmgr (XaEnd x fl)) (other_codes env) r2) s2
    (fun r s' => if r =? XA_OK then S0 s' else ended s s')).
  { destruct (r2 =? XA_OK) eqn:E2; [apply runs_ret; by rewrite E2|].
    apply (generic_retry_spec (ended s) S0); [intros; by eapply ended_aside| |done|done]. intros a [Ha _]. by apply end_call_spec. }
  eapply runs_mono; [exact Hr|]. cbn beta. intros r3 s3 H3.
  destruct (r3 =? XA_OK) eqn:E3; cbn [negb]; [|apply runs_ret; split; [done|by intros ->]].
  destruct H3 as [H3 Hsn]. destruct (sys_nostartxid env); [|by apply runs_ret].
  eapply runs_mono; [apply end_prepare_spec; [by eapply aside_linked, Hl; apply H3|by rewrite (aside_current s s3) by apply H3]|].
  cbn beta. intros r4 s4 H4. split; [by eapply ended_aside|]. intros _. by eapply seen_aside.
Qed.

(** ** The invariant *)

(** There is room for this resource manager in the list of known ones. *)
Definition room (l : list Z) : Prop := is_Some (atmi_xa_update_known_rms l (xa_rmid env)).

Definition table_ok (s : xa_tls) : Prop :=
  match txcur s with
  | None => tx_tab s = ∅
  | Some k => exists t, tx_tab s = {[k := t]} /\ tmxid (info t) = k /\ room (tmknownrms (info t))
  end.

(** What the resource manager works on is the branch of the current transaction, and
    one the code will end. *)
Definition engaged_ok (s : xa_tls) : Prop :=
  forall x, engaged (history s) = Some x -> exists t, current s = Some t /\ x = branch env (info t) (btid t) /\ needs_end env t = true.

Definition base (s : xa_tls) : Prop := linked_ok s /\ starts_ok (history s) /\ table_ok s.
Definition xa_inv (s : xa_tls) : Prop := base s /\ engaged_ok s.

Lemma base_beside s s' : base s -> beside s s' -> starts_ok (history s') -> base s'.
Proof.
  intros (Hl & _ & Ht) Hb Hs. split_and!; [by eapply beside_linked|done|].
  destruct Hb as (Htab & Hcur & _). unfold table_ok. by rewrite Htab, Hcur.
Qed.

Lemma base_aside s s' : base s -> aside s s' -> base s'.
Proof. intros Hb Ha. eapply base_beside; [exact Hb|by apply aside_beside|]. eapply aside_starts; [exact Ha|apply Hb]. Qed.

Lemma base_idle s : base s -> engaged (history s) = None -> xa_inv s.
Proof. intros Hb He. split; [done|]. intros x Hx. congruence. Qed.

Lemma inv_aside s s' : xa_inv s -> aside s s' -> xa_inv s'.
Proof.
  intros [Hb He] Ha. split; [by eapply base_aside|]. intros x Hx. rewrite (aside_current _ _ Ha). apply He.
  by destruct (aside_engaged_or _ _ Ha); congruence.
Qed.

Lemma base_none s : base s -> current s = None -> txcur s = None /\ tx_tab s = ∅.
Proof.
  intros (_ & _ & Ht) Hc. unfold current, table_ok in *. destruct (txcur s) as [k|]; [|done].
  destruct Ht as (t & Htab & _). cbn in Hc. rewrite Htab, lookup_singleton_eq in Hc. done.
Qed.

Lemma base_some s t : base s -> current s = Some t -> txcur s = Some (tmxid (info t)) /\ tx_tab s = {[tmxid (info t) := t]} /\ room (tmknownrms (info t)).
Proof.
  intros (_ & _ & Ht) Hc. unfold current, table_ok in *. destruct (txcur s) as [k|]; [|done].
  destruct Ht as (t' & Htab & Hk & Hr). cbn in Hc. rewrite Htab, lookup_singleton_eq in Hc. injection Hc as ->. by rewrite Htab, Hk.
Qed.

Lemma inv_idle_none s : xa_inv s -> current s = None -> engaged (history s) = None.
Proof. intros [_ He] Hc. destruct (engaged (history s)) as [x|] eqn:E; [|done]. destruct (He x E) as (t & Ht & _). congruence. Qed.

Lemma reset_spec s : base s -> runs atmi_xa_reset_curtx s (fun _ s' => base s' /\ current s' = None /\ history s' = history s).
Proof.
  intros (Hl & Hs & Ht). unfold atmi_xa_reset_curtx. steps. unfold table_ok, current in *.
  destruct (txcur s) as [k|] eqn:Ek; unfold base, table_ok, current; cbn; [|rewrite Ek; by split_and!].
  destruct Ht as (t & Htab & _). split_and!; try done. rewrite Htab. apply delete_singleton_eq.
Qed.

Lemma reset_inv s : base s -> engaged (history s) = None -> runs atmi_xa_reset_curtx s (fun _ s' => xa_inv s' /\ current s' = None /\ history s' = history s).
Proof.
  intros Hb He. eapply runs_mono; [by apply reset_spec|]. cbn beta. intros _ s' (Hb' & Hc & Hh).
  split_and!; [|done|done]. apply base_idle; [done|by rewrite Hh].
Qed.

Lemma txinfo_set_spec f s t :
  base s -> current s = Some t -> tmxid (info (f t)) = tmxid (info t) -> room (tmknownrms (info (f t))) ->
  runs (txinfo_set f) s (fun _ s' => base s' /\ current s' = Some (f t) /\ history s' = history s).
Proof.
  intros Hb Hc Hx Hr. destruct (base_some s t Hb Hc) as (Hk & Htab & _). unfold txinfo_set. steps. rewrite Hc, Hk. steps.
  destruct Hb as (Hl & Hs & _). split_and!; [|unfold current; cbn; by rewrite lookup_insert_eq|done].
  split_and!; [done|done|]. unfold table_ok. cbn. exists (f t). split_and!; [|done|done]. rewrite Htab. apply insert_singleton_eq.
Qed.

Lemma deref_spec s t : current s = Some t -> runs txinfo_deref s (fun t' s' => t' = t /\ s' = s).
Proof. intros Hc. unfold txinfo_deref, txinfo. steps. rewrite Hc. by steps. Qed.

Lemma set_curtx_spec i b s :
  base s -> current s = None -> room (tmknownrms i) ->
  runs (atmi_xa_set_curtx_from_xai calloc i b) s (fun ok s' => base s' /\ history s' = history s /\
    current s' = if ok then Some {| info := i; btid := b; tranid_flags := 0; call_cds := []; conv_cds := [] |} else None).
Proof.
  intros Hb Hc Hr. destruct (base_none s Hb Hc) as [Hk Htab]. destruct Hb as (Hl & Hs & _).
  assert (Hn : tx_tab s !! tmxid i = None) by (by rewrite Htab).
  unfold atmi_xa_set_curtx_from_xai. steps. rewrite Hn. steps.
  - split_and!; [|done|unfold current; cbn; by rewrite lookup_insert_eq]. split_and!; [done|done|]. unfold table_ok. cbn.
    eexists. split_and!; [by rewrite Htab, insert_empty|done|done].
  - split_and!; [|done|done]. split_and!; done.
Qed.

Lemma join_fail_spec f s : is_Some (current s) -> runs (ndrx_xa_join_fail tm f) s (fun _ s' => aside s s').
Proof.
  intros [t Ht]. unfold ndrx_xa_join_fail. apply runs_bind. eapply runs_mono; [by apply deref_spec|].
  cbn beta. intros t' s' [-> ->]. steps; [reflexivity|].
  eapply runs_mono; [apply tm_call_spec|]. cbn beta. intros g s1 [H1 _]. steps.
  etransitivity; [by apply H1|apply aside_err].
Qed.

(** A connection that has to be opened again, when that may cost the transaction. *)
Lemma retry_entry_true_spec attempts s :
  base s -> is_Some (current s) -> engaged (history s) = None ->
  runs (retry_entry env rmgr tm true attempts) s
    (fun p s' => base s' /\ engaged (history s') = None /\ (p.1 = XA_OK -> current s' = current s)).
Proof.
  intros Hb Hc He. unfold retry_entry, ndrx_TPset_error_fmt_rsn. apply runs_bind, runs_get, runs_bind.
  eapply runs_mono; [apply entry_core_spec, Hb|]. cbn beta. intros [r1 a1] s1 (H1 & _ & _).
  assert (Hb1 : base s1) by (by eapply base_aside). assert (He1 : engaged (history s1) = None) by (by eapply aside_engaged).
  destruct (Z.eqb_spec r1 XA_OK); steps; [split_and!; [done|done|intros _; by apply aside_current]|].
  eapply runs_mono; [apply join_fail_spec; by rewrite (aside_current _ _ H1)|]. cbn beta. intros _ s2 H2.
  eapply runs_mono; [apply reset_spec; by eapply base_aside|]. cbn beta. intros _ s3 (Hb3 & _ & Hh3). steps.
  assert (He3 : engaged (history s3) = None) by (rewrite Hh3; by eapply aside_engaged).
  pose proof (aside_set_error s3 TPERMERR r1) as H4. split_and!; [by eapply base_aside|by eapply aside_engaged|done].
Qed.

(** ** The functions of the interface *)

Hypothesis tm_room : forall h q e rsn f i, tm h q = Answered e rsn f -> r_info f = Some i -> room (tmknownrms i).

Lemma fail_spec e s : runs (fail e) s (fun r s' => aside s s' /\ r = EXFAIL).
Proof. unfold fail, ndrx_TPset_error_msg. steps. split; [apply aside_set_error|done]. Qed.

Lemma fail_inv e s : xa_inv s -> runs (fail e) s (fun _ s' => xa_inv s').
Proof. intros Hi. eapply runs_mono; [apply fail_spec|]. cbn beta. intros r s' [Ha _]. by eapply inv_aside. Qed.

Lemma end_branch_spec t fl ab s :
  xa_inv s -> current s = Some t ->
  runs (end_branch env rmgr tm t fl ab) s (fun r s' => ended s s' /\
    (r = XA_OK -> needs_end env t = true -> seen (EvRm (XaEnd (branch env (info t) (btid t)) fl) XA_OK) s s')).
Proof.
  intros [Hb He] Hc. unfold end_branch. destruct (needs_end env t) eqn:En.
  - eapply runs_mono; [apply end_entry_spec; [apply Hb|by rewrite Hc]|]. cbn beta. intros r s' [H1 H2]. auto.
  - apply runs_ret. split; [|done]. split; [reflexivity|]. destruct (engaged (history s)) as [x|] eqn:E; [|done].
    destruct (He x E) as (t' & Ht & _ & Hn). congruence.
Qed.

(** The transaction manager is asked about the current transaction, which is then
    forgotten. *)
Lemma decide_spec cmd t fl s :
  xa_inv s -> engaged (history s) = None -> current s = Some t ->
  runs (t ← txinfo_deref; f ← atmi_xa_call_tm_generic tm cmd false (Some (info t)) fl EXFAIL;
        atmi_xa_reset_curtx;; mret (match f with Some _ => EXSUCCEED | None => EXFAIL end)) s
    (fun r s' => xa_inv s' /\ current s' = None /\ exists q a, q_cmd q = cmd /\ q_info q = Some (info t) /\ history s' = history s ++ [EvTm q a] /\
      (r = EXSUCCEED <-> exists rsn g, a = Answered 0 rsn g)).
Proof.
  intros [Hb _] He Hc. apply runs_bind. eapply runs_mono; [by apply deref_spec|]. cbn beta. intros t' s' [-> ->].
  apply runs_bind. eapply runs_mono; [apply tm_call_spec|]. cbn beta.
  intros f s1 (_ & Ht & Hcu & _ & q & a & Hq & Hqi & Hh & _ & Hf & Ho & Hce).
  assert (Hq1 : engaged (history s1) = None) by (rewrite Hh, engaged_app, He; done).
  assert (Hb1 : base s1).
  { destruct Hb as (Hl & Hs & Htab). split_and!.
    - unfold linked_ok. by rewrite Ho, Hce.
    - rewrite Hh. apply starts_ok_snoc; auto.
    - unfold table_ok. by rewrite Ht, Hcu. }
  apply runs_bind. eapply runs_mono; [by apply reset_inv|]. cbn beta. intros _ s2 (Hi2 & Hc2 & Hh2). apply runs_ret.
  split_and!; [done|done|]. exists q, a. rewrite Hh2. split_and!; try done. 
  destruct f as [g|]; split; try done.
  - intros _. destruct (proj1 (Hf g) eq_refl) as [rsn ->]. eauto.
  - intros (rsn & g & ->). by pose proof (proj2 (Hf g) (ex_intro _ rsn eq_refl)).
Qed.

Lemma tpabort_spec fl e s :
  xa_inv s -> (e = false -> engaged (history s) = None) ->
  runs (ndrx_tpabort env rmgr tm fl e) s (fun r s' => xa_inv s' /\ exists es, history s' = history s ++ es /\ Forall undecided es).
Proof.
  intros Hi Hn. unfold ndrx_tpabort. apply runs_bind, runs_get. 
  assert (Hfail : forall e, runs (fail e) s (fun r s' => xa_inv s' /\ exists es, history s' = history s ++ es /\ Forall undecided es)).
  { intros e0. eapply runs_mono; [apply fail_spec|]. cbn beta. intros r s' [Ha _]. split; [by eapply inv_aside|apply (aside_beside _ _ Ha)]. }
  destruct (negb (is_xa_open s)); [apply Hfail|]. destruct (negb (fl =? 0)); [apply Hfail|].
  destruct (current s) as [t|] eqn:Hc; [|apply Hfail]. destruct (negb _); [apply Hfail|].
  apply runs_bind.
  assert (Hend : runs (if e then end_branch env rmgr tm t TMSUCCESS true else mret XA_OK) s (fun _ s' => ended s s')).
  { destruct e; [|apply runs_ret; split; [reflexivity|auto]].
    eapply runs_mono; [by apply end_branch_spec|]. cbn beta. by intros r s' [H _]. }
  eapply runs_mono; [exact Hend|]. cbn beta. intros _ s1 [Ha1 He1].
  eapply runs_mono; [apply (decide_spec _ t); [by eapply inv_aside|done|by rewrite (aside_current _ _ Ha1)]|].
  cbn beta. intros r s2 (Hi2 & _ & q & a & Hq & _ & Hh & _). split; [done|].
  destruct (aside_beside _ _ Ha1) as (_ & _ & _ & _ & es & Hes & Hu). exists (es ++ [EvTm q a]).
  rewrite Hh, Hes, app_assoc. split; [done|]. apply Forall_app. split; [done|]. apply Forall_singleton. cbn. by rewrite Hq.
Qed.

(** A commit is asked for only at the end, and success is what was answered. *)
Definition committed_by (s s' : xa_tls) (r : Z) : Prop :=
  exists t h q a, current s = Some t /\ must_abort t = false /\ history s' = history s ++ h ++ [EvTm q a] /\ Forall undecided h /\
    q_cmd q = ATMI_XA_TPCOMMIT /\ q_info q = Some (info t) /\
    (needs_end env t = true -> EvRm (XaEnd (branch env (info t) (btid t)) TMSUCCESS) XA_OK ∈ h) /\
    current s' = None /\ (r = EXSUCCEED <-> exists rsn g, a = Answered 0 rsn g).

Lemma tpcommit_spec fl s :
  xa_inv s ->
  runs (ndrx_tpcommit env rmgr tm fl) s (fun r s' => xa_inv s' /\
    (committed_by s s' r \/ (r <> EXSUCCEED /\ exists es, history s' = history s ++ es /\ Forall undecided es))).
Proof.
  intros Hi. unfold ndrx_tpcommit. apply runs_bind, runs_get.
  assert (Hfail : forall e, runs (fail e) s (fun r s' => xa_inv s' /\
    (committed_by s s' r \/ (r <> EXSUCCEED /\ exists es, history s' = history s ++ es /\ Forall undecided es)))).
  { intros e0. eapply runs_mono; [apply fail_spec|]. cbn beta. intros r s' [Ha ->]. split; [by eapply inv_aside|].
    right. split; [done|apply (aside_beside _ _ Ha)]. }
  destruct (negb (is_xa_open s)); [apply Hfail|]. destruct (negb (fl =? 0) && _); [apply Hfail|].
  destruct (current s) as [t|] eqn:Hc; [|apply Hfail]. destruct (tranid_flags t =? 0); [apply Hfail|]. cbv zeta.
  apply runs_bind. eapply runs_mono; [by apply end_branch_spec|]. cbn beta. intros r1 s1 [[Ha1 He1] Hsn].
  assert (Hi1 : xa_inv s1) by (by eapply inv_aside).
  destruct (aside_beside _ _ Ha1) as (_ & _ & _ & _ & es & Hes & Hu).
  destruct (must_abort t) eqn:Em; cbn [orb].
  2: destruct (Z.eqb_spec r1 XA_OK) as [->|]; cbn [negb].
  2: { eapply runs_mono; [apply (decide_spec _ t); [done|done|by rewrite (aside_current _ _ Ha1)]|].
       cbn beta. intros r s2 (Hi2 & Hc2 & q & a & Hq & Hqi & Hh & Hr). split; [done|left].
       exists t, es, q, a. rewrite Hh, Hes, <- app_assoc. split_and!; try done. intros Hn.
       destruct (Hsn eq_refl Hn) as (h1 & h2 & Hx). rewrite Hes in Hx. apply app_inv_head in Hx as ->.
       apply elem_of_app. right. by left. }
  all: apply runs_bind; (eapply runs_mono; [by apply tpabort_spec|]); cbn beta; intros r2 s2 (Hi2 & es2 & Hes2 & Hu2).
  all: apply runs_bind, runs_get; assert (Hh2 : history s2 = history s ++ es ++ es2) by (by rewrite Hes2, Hes, app_assoc).
  all: assert (Hu12 : Forall undecided (es ++ es2)) by (by apply Forall_app).
  all: destruct ((r2 =? EXSUCCEED) || (tperr s2 =? TPEPROTO)) eqn:Eo.
  2,4: apply runs_ret; split; [done|right]; apply orb_false_iff in Eo as [Er _]; apply Z.eqb_neq in Er; split; [done|by exists (es ++ es2)].
  all: apply runs_bind, runs_modify; (eapply runs_mono; [apply fail_spec|]); cbn beta; intros r3 s3 [Ha3 ->].
  all: assert (Ha23 : aside s2 s3) by (etransitivity; [apply unset_error_aside|exact Ha3]).
  all: split; [by eapply inv_aside|right]; split; [done|].
  all: destruct (aside_beside _ _ Ha23) as (_ & _ & _ & _ & es3 & Hes3 & Hu3).
  all: exists ((es ++ es2) ++ es3); rewrite Hes3, Hh2, <- app_assoc; split; [done|by apply Forall_app].
Qed.

(** [started] and [ready] relate to the invariant. *)
Lemma started_inv s s' t :
  base s -> current s = Some t -> needs_end env t = true -> started (branch env (info t) (btid t)) s s' -> xa_inv s'.
Proof.
  intros Hb Hc Hn (Hbe & Hs & He). split; [by eapply base_beside|]. intros x Hx. rewrite He in Hx. injection Hx as <-.
  exists t. by rewrite (beside_current _ _ Hbe).
Qed.

Lemma ready_base s s' : base s -> ready s s' -> base s' /\ engaged (history s') = None /\ current s' = current s.
Proof. intros Hb (Hbe & Hs & He). split_and!; [by eapply base_beside|done|by apply beside_current]. Qed.

(** A successful step leaves a current transaction, which will be ended; another one
    leaves no branch. *)
Definition joined (p : Z * bool) (s' : xa_tls) : Prop :=
  if p.1 =? XA_OK then xa_inv s' /\ exists t, current s' = Some t /\ needs_end env t = true else base s' /\ engaged (history s') = None.

Lemma tpbegin_spec timeout fl s : xa_inv s -> runs (ndrx_tpbegin env rmgr tm calloc timeout fl) s (fun _ s' => xa_inv s').
Proof.
  intros Hi. unfold ndrx_tpbegin. apply runs_bind, runs_get.
  destruct (negb (is_xa_open s)); [by apply fail_inv|]. destruct (negb (fl =? 0)); [by apply fail_inv|].
  destruct (current s) eqn:Hc; [by apply fail_inv|]. cbv zeta.
  apply runs_bind. eapply runs_mono; [apply tm_call_spec|]. cbn beta. intros f s1 (Ha & _ & _ & _ & q & a & _ & _ & Hh & Hq & Hf & _).
  specialize (Ha ltac:(done)). assert (Hi1 : xa_inv s1) by (by eapply inv_aside).
  assert (Hc1 : current s1 = None) by (by rewrite (aside_current _ _ Ha)).
  destruct f as [f|]; [|by apply runs_ret]. destruct (atmi_xa_read_tx_info f) as [[i b]|] eqn:Er; [|by apply fail_inv].
  assert (Hroom : room (tmknownrms i)).
  { destruct (proj1 (Hf f) eq_refl) as [rsn Ea]. unfold atmi_xa_read_tx_info in Er. destruct (r_info f) as [i0|] eqn:Ei; [|done].
    cbn in Er. destruct (r_btid f); [|done]. cbn in Er. injection Er as <- _. cbn. by eapply tm_room; [rewrite <- Hq|]. }
  apply runs_bind. eapply runs_mono; [apply set_curtx_spec; [apply Hi1|done|done]|]. cbn beta. intros ok s2 (Hb2 & Hh2 & Hc2).
  assert (He2 : engaged (history s2) = None) by (rewrite Hh2; by apply inv_idle_none).
  destruct ok; cbn [negb]; [|apply fail_inv; by apply base_idle].
  apply runs_bind. eapply runs_mono; [by apply (txinfo_set_spec _ _ _ Hb2 Hc2)|]. cbn beta. intros _ s3 (Hb3 & Hc3 & Hh3). cbn in Hc3.
  assert (He3 : engaged (history s3) = None) by (by rewrite Hh3).
  destruct (dynamic_reg env) eqn:Ed.
  - apply runs_bind. eapply runs_mono; [apply retry_entry_true_spec; [done|by rewrite Hc3|done]|].
    cbn beta. intros [r4 a4] s4 (Hb4 & He4 & _). apply runs_ret. by apply base_idle.
  - apply runs_bind. eapply runs_mono; [apply start_entry_spec; [apply Hb3|apply Hb3|done]|]. cbn beta. intros r4 s4 H4.
    destruct (r4 =? XA_OK).
    + apply runs_ret. eapply (started_inv s3); [done|exact Hc3|unfold needs_end; by rewrite Ed|exact H4].
    + destruct (ready_base _ _ Hb3 H4) as (Hb4 & He4 & Hc4).
      apply runs_bind. eapply runs_mono; [apply join_fail_spec; by rewrite Hc4, Hc3|]. cbn beta. intros _ s5 Ha5.
      apply runs_bind. eapply runs_mono; [apply reset_inv; [by eapply base_aside|by eapply aside_engaged]|].
      cbn beta. intros _ s6 (Hi6 & _). by apply runs_ret.
Qed.

Lemma tpsuspend_spec fl ctx s : xa_inv s -> runs (ndrx_tpsuspend env rmgr tm fl ctx) s (fun _ s' => xa_inv s').
Proof.
  intros Hi. unfold ndrx_tpsuspend. apply runs_bind, runs_get. cbv zeta.
  assert (Hbad : forall e, runs (r ← fail e; mret (M:=M) (r, @None tp_tranid)) s (fun _ s' => xa_inv s')).
  { intros e. apply runs_bind. eapply runs_mono; [by apply fail_inv|]. cbn beta. intros r s' H. by apply runs_ret. }
  destruct (negb _); [apply Hbad|]. destruct (current s) as [t|] eqn:Hc; [|apply Hbad].
  destruct (negb ctx && _); [apply Hbad|].
  apply runs_bind. eapply runs_mono; [by apply end_branch_spec|]. cbn beta. intros r1 s1 [[Ha1 He1] _].
  assert (Hb1 : base s1) by (eapply base_aside; [apply Hi|done]). destruct (r1 =? XA_OK).
  - apply runs_bind. eapply runs_mono; [by apply reset_inv|]. cbn beta. intros _ s2 (Hi2 & _). by apply runs_ret.
  - apply runs_bind. eapply runs_mono; [apply join_fail_spec; by rewrite (aside_current _ _ Ha1), Hc|]. cbn beta. intros d s2 Ha2.
    apply runs_bind, runs_modify, runs_ret. eapply inv_aside; [|apply aside_err]. eapply inv_aside; [|exact Ha2]. by apply base_idle.
Qed.

Lemma tpopen_spec s : xa_inv s -> runs (ndrx_tpopen rmgr) s (fun _ s' => xa_inv s').
Proof. intros Hi. eapply runs_mono; [apply open_entry_spec|]. cbn beta. intros r s' [Ha _]. by eapply inv_aside. Qed.

Lemma tpclose_spec s : xa_inv s -> runs (ndrx_tpclose rmgr) s (fun _ s' => xa_inv s').
Proof.
  intros Hi. unfold ndrx_tpclose. apply runs_bind, runs_get. destruct (current s); [by apply fail_inv|].
  eapply runs_mono; [apply close_entry_spec|]. cbn beta. intros r s' [Ha _]. by eapply inv_aside.
Qed.

Lemma disassoc_spec f s : xa_inv s -> runs (_tp_srv_disassoc_tx env rmgr tm f) s (fun _ s' => xa_inv s').
Proof.
  intros Hi. unfold _tp_srv_disassoc_tx, txinfo. steps. destruct (current s) as [t|] eqn:Hc; [|by apply runs_ret].
  apply runs_bind. eapply runs_mono; [by apply end_branch_spec|]. cbn beta. intros r1 s1 [[Ha1 He1] _].
  assert (Hb1 : base s1) by (eapply base_aside; [apply Hi|done]). apply runs_bind.
  assert (Hf : runs (if f then ndrx_xa_join_fail tm true;; mret tt else mret tt) s1 (fun _ s' => aside s1 s')).
  { destruct f; [|apply runs_ret; reflexivity]. apply runs_bind.
    eapply runs_mono; [apply join_fail_spec; by rewrite (aside_current _ _ Ha1), Hc|]. cbn beta. intros _ s2 H2. by apply runs_ret. }
  eapply runs_mono; [exact Hf|]. cbn beta. intros _ s2 H2.
  apply runs_bind. eapply runs_mono; [apply reset_inv; [by eapply base_aside|by eapply aside_engaged]|].
  cbn beta. intros _ s3 (Hi3 & _). by apply runs_ret.
Qed.

(** ** Joining *)

Lemma join_start_spec x fl s :
  base s -> engaged (history s) = None -> is_Some (current s) ->
  runs (join_start env rmgr tm x fl) s (fun r s' => if r =? XA_OK then started x s s' else ready s s').
Proof.
  intros Hb He Hc. unfold join_start. apply runs_bind. eapply runs_mono; [apply start_entry_spec; [apply Hb|apply Hb|done]|].
  cbn beta. intros r1 s1 H1. destruct (r1 =? XA_OK); [by apply runs_ret|].
  destruct (ready_base _ _ Hb H1) as (_ & _ & Hc1).
  apply runs_bind. eapply runs_mono; [apply join_fail_spec; by rewrite Hc1|]. cbn beta. intros _ s2 H2.
  apply runs_ret. cbn. by eapply ready_aside.
Qed.

Lemma ready_trans a b c : ready a b -> ready b c -> ready a c.
Proof. intros (H1 & _) (H2 & Hs & He). split_and!; [by etransitivity|done|done]. Qed.

Lemma started_trans x a b c : ready a b -> started x b c -> started x a c.
Proof. intros (H1 & _) (H2 & Hs & He). split_and!; [by etransitivity|done|done]. Qed.

Lemma start_or_join_spec x fl s :
  base s -> engaged (history s) = None -> is_Some (current s) ->
  runs (start_or_join env rmgr tm x fl) s (fun p s' => if p.1 =? XA_OK then started x s s' else ready s s').
Proof.
  intros Hb He Hc. unfold start_or_join. apply runs_bind. eapply runs_mono; [apply start_entry_spec; [apply Hb|apply Hb|done]|].
  cbn beta. intros r1 s1 H1. destruct (r1 =? XA_OK); [by apply runs_ret|].
  destruct (ready_base _ _ Hb H1) as (Hb1 & He1 & Hc1). apply runs_bind, runs_get. destruct (reason s1 =? XAER_DUPID).
  - apply runs_bind. eapply runs_mono; [apply join_start_spec; [done|done|by rewrite Hc1]|]. cbn beta. intros r2 s2 H2.
    apply runs_ret. cbn [fst]. destruct (r2 =? XA_OK); [by eapply started_trans|by eapply ready_trans].
  - apply runs_bind. eapply runs_mono; [apply join_fail_spec; by rewrite Hc1|]. cbn beta. intros _ s2 H2.
    apply runs_ret. cbn. by eapply ready_aside.
Qed.

(** Once a branch is started, or need not be, the transaction is joined. *)
Lemma started_joined s s' t (p : Z * bool) :
  base s -> current s = Some t -> needs_end env t = true ->
  (if p.1 =? XA_OK then started (branch env (info t) (btid t)) s s' else ready s s') -> joined p s'.
Proof.
  intros Hb Hc Hn H. unfold joined. destruct (p.1 =? XA_OK).
  - split; [by eapply started_inv|]. exists t. destruct H as (Hbe & _). by rewrite (beside_current _ _ Hbe).
  - by destruct (ready_base _ _ Hb H) as (? & ? & _).
Qed.

Lemma update_room l l' : atmi_xa_update_known_rms l (xa_rmid env) = Some l' -> room l'.
Proof.
  unfold room, atmi_xa_update_known_rms. destruct (atmi_xa_is_current_rm_known (xa_rmid env) l) eqn:E.
  { intros [= <-]. rewrite E. by eexists. }
  destruct (zlen l =? NDRX_MAX_RMS); [done|]. intros [= <-].
  assert (atmi_xa_is_current_rm_known (xa_rmid env) (l ++ [xa_rmid env]) = true) as ->; [|by eexists].
  unfold atmi_xa_is_current_rm_known. rewrite existsb_app. cbn. by rewrite Z.eqb_refl, orb_true_r, !orb_true_r.
Qed.

(** Adding the resource manager to the list does not change the branch. *)
Lemma set_known_joined known s :
  joined (XA_OK, known) s ->
  runs (if sys_nojoin env then mret (XA_OK, known)
        else t ← txinfo_deref;
             match atmi_xa_update_known_rms (tmknownrms (info t)) (xa_rmid env) with
             | None => mret (EXFAIL, known)
             | Some l => txinfo_set (set_known l);; mret (M:=M) (XA_OK, known)
             end) s (fun p s' => joined p s').
Proof.
  intros Hj. pose proof Hj as [Hi (t & Hc & Hn)]. destruct (sys_nojoin env); [by apply runs_ret|].
  apply runs_bind. eapply runs_mono; [by apply deref_spec|]. cbn beta. intros t' s' [-> ->].
  destruct (base_some s t (proj1 Hi) Hc) as (_ & _ & [l Hl]). rewrite Hl.
  apply runs_bind. eapply runs_mono; [apply (txinfo_set_spec _ _ _ (proj1 Hi) Hc); [done|by eapply update_room]|].
  cbn beta. intros _ s2 (Hb2 & Hc2 & Hh2). apply runs_ret. split; [|by exists (set_known l t)].
  split; [done|]. intros x Hx. rewrite Hh2 in Hx. destruct (proj2 Hi x Hx) as (t0 & Ht0 & -> & _).
  rewrite Hc in Ht0. injection Ht0 as <-. by exists (set_known l t).
Qed.

Lemma join_new_spec i fl s t :
  base s -> engaged (history s) = None -> current s = Some t -> tmxid (info t) = tmxid i -> needs_end env t = true ->
  runs (join_new env rmgr tm i fl) s (fun p s' => joined p s').
Proof.
  intros Hb He Hc Hx Hn. unfold join_new. cbv zeta.
  apply runs_bind. eapply runs_mono; [apply tm_call_spec|]. cbn beta. intros f s1 (Ha & _). specialize (Ha ltac:(done)).
  assert (Hb1 : base s1) by (by eapply base_aside). assert (He1 : engaged (history s1) = None) by (by eapply aside_engaged).
  assert (Hno : forall k, runs (mret (M:=M) (EXFAIL, k)) s1 (fun p s' => joined p s')) by (intros; by apply runs_ret).
  destruct f as [f|]; [|apply Hno]. destruct (r_flags f) as [tmflags|]; [|apply Hno].
  destruct (if has_flag tmflags TMFLAGS_RMIDKNOWN then _ else _) as [b|]; [|apply Hno].
  assert (Hc1 : current s1 = Some t) by (by rewrite (aside_current _ _ Ha)). destruct (base_some s1 t Hb1 Hc1) as (_ & _ & Hr).
  apply runs_bind. eapply runs_mono; [by apply (txinfo_set_spec _ _ _ Hb1 Hc1)|]. cbn beta. intros _ s2 (Hb2 & Hc2 & Hh2).
  assert (He2 : engaged (history s2) = None) by (by rewrite Hh2).
  assert (Hbr : branch env i b = branch env (info (set_btid b t)) (btid (set_btid b t))) by (unfold branch; cbn; by rewrite Hx).
  assert (Hn2 : needs_end env (set_btid b t) = true) by exact Hn.
  apply runs_bind.
  match goal with |- runs ?m s2 _ => assert (Hj : runs m s2 (fun p s' => joined p s')) end.
  { destruct (dynamic_reg env) eqn:Ed; [apply runs_ret; split; [by apply base_idle|by exists (set_btid b t)]|].
    destruct (has_flag _ _).
    - apply runs_bind. eapply runs_mono; [apply join_start_spec; [done|done|by rewrite Hc2]|]. cbn beta. intros r3 s3 H3.
      apply runs_ret. rewrite Hbr in H3. by eapply started_joined.
    - eapply runs_mono; [apply start_or_join_spec; [done|done|by rewrite Hc2]|]. cbn beta. intros p3 s3 H3.
      rewrite Hbr in H3. by eapply started_joined. }
  eapply runs_mono; [exact Hj|]. cbn beta. intros [r3 known] s3 Hj3. unfold joined in Hj3. cbn [fst] in Hj3.
  destruct (r3 =? XA_OK) eqn:E3; cbn [negb]; [by apply set_known_joined|]. apply runs_ret. unfold joined. cbn [fst]. by rewrite E3.
Qed.

Lemma join_common_spec i fl s t :
  base s -> engaged (history s) = None -> current s = Some t -> tmxid (info t) = tmxid i -> needs_end env t = true ->
  runs (join_common env rmgr tm i fl) s (fun p s' => joined p s').
Proof.
  intros Hb He Hc Hx Hn. unfold join_common. destruct (negb _ && _); [|by eapply join_new_spec].
  destruct (base_some s t Hb Hc) as (_ & _ & Hr).
  apply runs_bind. eapply runs_mono; [by apply (txinfo_set_spec _ _ _ Hb Hc)|]. cbn beta. intros _ s2 (Hb2 & Hc2 & Hh2).
  assert (He2 : engaged (history s2) = None) by (by rewrite Hh2).
  destruct (dynamic_reg env && _); [apply runs_ret; split; [by apply base_idle|by exists (set_btid 0 t)]|].
  apply runs_bind. eapply runs_mono; [apply join_start_spec; [done|done|by rewrite Hc2]|]. cbn beta. intros r3 s3 H3. apply runs_ret.
  assert (Hbr : branch env i 0 = branch env (info (set_btid 0 t)) (btid (set_btid 0 t))) by (unfold branch; cbn; by rewrite Hx).
  rewrite Hbr in H3. by eapply started_joined.
Qed.

Lemma enter_spec i b fl s :
  base s -> current s = None -> room (tmknownrms i) ->
  runs (enter calloc i b fl) s (fun ok s' => base s' /\ history s' = history s /\
    (ok = true -> current s' = Some {| info := i; btid := b; tranid_flags := fl; call_cds := []; conv_cds := [] |})).
Proof.
  intros Hb Hc Hr. unfold enter. apply runs_bind. eapply runs_mono; [by apply set_curtx_spec|].
  cbn beta. intros ok s1 (Hb1 & Hh1 & Hc1). destruct ok; [|by apply runs_ret].
  apply runs_bind. eapply runs_mono; [by apply (txinfo_set_spec _ _ _ Hb1 Hc1)|]. cbn beta. intros _ s2 (Hb2 & Hc2 & Hh2).
  apply runs_ret. split_and!; [done|congruence|intros _; exact Hc2].
Qed.

(** What is left of a step that may have no result. *)
Definition yields {A} (m : M A) (s : xa_tls) (Q : A -> xa_tls -> Prop) : Prop :=
  match m s with Some (a, s') => Q a s' | None => True end.

Lemma runs_yields {A} (m : M A) s Q : runs m s Q -> yields m s Q.
Proof. unfold runs, yields. by destruct (m s) as [[]|]. Qed.

Lemma yields_bind {A B} (m : M A) (k : A -> M B) s Q : yields m s (fun a s' => yields (k a) s' Q) -> yields (m ≫= k) s Q.
Proof. unfold yields, mbind, M_bind. by destruct (m s) as [[a s']|]. Qed.

Lemma yields_mono {A} (m : M A) s (P Q : A -> xa_tls -> Prop) : yields m s P -> (forall a s', P a s' -> Q a s') -> yields m s Q.
Proof. unfold yields. destruct (m s) as [[a s']|]; auto. Qed.

Definition settled (p : Z * bool) (s' : xa_tls) : Prop := 
  base s' /\ ((p.1 =? XA_OK) = false -> engaged (history s') = None) /\ ((p.1 =? XA_OK) = true -> xa_inv s').

Lemma joined_settled p s' : joined p s' -> settled p s'.
Proof. unfold joined, settled. destruct (p.1 =? XA_OK); intros [H1 H2]; split_and!; try done. apply H1. Qed.

(** With dynamic registration a transaction is only remembered. *)
Lemma remember_spec i b fl attempts s :
  base s -> current s = None -> engaged (history s) = None -> room (tmknownrms i) ->
  runs (ok ← enter calloc i b fl;
        if negb ok then mret (EXFAIL, false) else '(r, _) ← retry_entry env rmgr tm true attempts; mret (M:=M) (r, false)) s
    (fun p s' => settled p s').
Proof.
  intros Hb Hc He Hr. apply runs_bind. eapply runs_mono; [by apply enter_spec|]. cbn beta. intros ok s1 (Hb1 & Hh1 & Hc1).
  assert (He1 : engaged (history s1) = None) by (by rewrite Hh1).
  destruct ok; cbn [negb]; [|apply runs_ret; split_and!; done].
  apply runs_bind. eapply runs_mono; [apply retry_entry_true_spec; [done|by rewrite Hc1|done]|].
  cbn beta. intros [r2 a2] s2 (Hb2 & He2 & _). apply runs_ret. split_and!; [done|done|]. intros _. by apply base_idle.
Qed.

(** The connection has to be opened again before there is a transaction; when that
    fails the code has none to abort. *)
Definition hazard (flags : Z) (s : xa_tls) : Prop :=
  dynamic_reg env = true /\ has_flag flags XA_TXINFO_AXREG_CLD = false /\ is_xa_conn_error s = true.

Lemma join_fail_none f s : current s = None -> ndrx_xa_join_fail tm f s = None.
Proof. intros Hc. unfold ndrx_xa_join_fail, txinfo_deref, txinfo, get, mbind, M_bind, mret, M_ret. by rewrite Hc. Qed.

Lemma retry_entry_none attempts s :
  base s -> current s = None ->
  yields (retry_entry env rmgr tm true attempts) s (fun p s' => aside s s').
Proof.
  intros Hb Hc. unfold retry_entry. apply yields_bind. cbn. apply yields_bind.
  eapply runs_yields, runs_mono; [apply entry_core_spec, Hb|]. cbn beta. intros [r1 a1] s1 (H1 & _ & _).
  destruct (r1 =? XA_OK) eqn:E1; [done|]. apply yields_bind, yields_bind, yields_bind. unfold yields at 1.
  by rewrite join_fail_none by (by rewrite (aside_current _ _ H1)).
Qed.

Lemma retry_entry_calm attempts s :
  is_xa_conn_error s = false -> retry_entry env rmgr tm true attempts s = Some ((XA_OK, attempts), s).
Proof. intros Hc. unfold retry_entry, retry_core, get, mbind, M_bind. rewrite Hc, andb_false_r. done. Qed.

Lemma join_entered_spec i b join_flag fl s :
  base s -> current s = None -> engaged (history s) = None -> room (tmknownrms i) ->
  negb (dynamic_reg env) || has_flag fl XA_TXINFO_AXREG_CLD = true ->
  runs (ok ← enter calloc i b fl; if ok : bool then join_common env rmgr tm i join_flag else mret (M:=M) (EXFAIL, false)) s
    (fun p s' => settled p s').
Proof.
  intros Hb Hc He Hr Hn. apply runs_bind. eapply runs_mono; [by apply enter_spec|]. cbn beta. intros ok s1 (Hb1 & Hh1 & Hc1).
  assert (He1 : engaged (history s1) = None) by (by rewrite Hh1).
  destruct ok; [|by apply runs_ret].
  eapply runs_mono; [by eapply join_common_spec; [done|done|apply Hc1|..]|]. cbn beta. intros p s2. apply joined_settled.
Qed.

Lemma join_body_runs i b join_flag fl s :
  base s -> current s = None -> engaged (history s) = None -> room (tmknownrms i) -> ~ hazard fl s ->
  runs (join_body env rmgr tm calloc i b false join_flag fl) s (fun p s' => settled p s').
Proof.
  intros Hb Hc He Hr Hh. unfold join_body. destruct (negb (dynamic_reg env) || _) eqn:Ed; [by apply join_entered_spec|].
  cbn [negb]. apply orb_false_iff in Ed as [Ed Ef]. apply negb_false_iff in Ed.
  destruct (is_xa_conn_error s) eqn:Ec; [by destruct Hh|].
  apply runs_bind. unfold runs at 1. rewrite (retry_entry_calm _ _ Ec). cbn [negb]. by apply remember_spec.
Qed.

Lemma join_body_yields i b join_flag fl s :
  base s -> current s = None -> engaged (history s) = None -> room (tmknownrms i) ->
  yields (join_body env rmgr tm calloc i b false join_flag fl) s (fun p s' => settled p s').
Proof.
  intros Hb Hc He Hr. unfold join_body. destruct (negb (dynamic_reg env) || _) eqn:Ed; [by apply runs_yields, join_entered_spec|].
  cbn [negb]. apply yields_bind. eapply yields_mono; [by apply retry_entry_none|]. cbn beta. intros [r1 a1] s1 H1.
  assert (Hb1 : base s1) by (by eapply base_aside). assert (He1 : engaged (history s1) = None) by (by eapply aside_engaged).
  destruct (r1 =? XA_OK) eqn:E1; cbn [negb].
  - apply runs_yields, remember_spec; [done|by rewrite (aside_current _ _ H1)|done|done].
  - unfold yields. cbn. split_and!; [done|done|]. cbn. by rewrite E1.
Qed.

Lemma settled_inv p s : settled p s -> runs (if p.1 =? XA_OK then mret tt else atmi_xa_reset_curtx) s (fun _ s' => xa_inv s').
Proof.
  intros (Hb & He & Hi). destruct (p.1 =? XA_OK); [by apply runs_ret, Hi|].
  eapply runs_mono; [apply reset_inv; auto|]. cbn beta. by intros _ s' (H & _).
Qed.

Lemma join_or_new_runs i b join_flag fl s :
  xa_inv s -> current s = None -> room (tmknownrms i) -> ~ hazard fl s ->
  runs (_tp_srv_join_or_new env rmgr tm calloc i b false join_flag fl) s (fun _ s' => xa_inv s').
Proof.
  intros Hi Hc Hr Hh. unfold _tp_srv_join_or_new. apply runs_bind.
  eapply runs_mono; [apply join_body_runs; [apply Hi|done|by apply inv_idle_none|done|done]|].
  cbn beta. intros [r k] s1 H1. apply runs_bind. eapply runs_mono; [exact (settled_inv _ _ H1)|]. cbn beta. intros _ s2 H2. by apply runs_ret.
Qed.

Lemma join_or_new_yields i b join_flag fl s :
  xa_inv s -> current s = None -> room (tmknownrms i) ->
  yields (_tp_srv_join_or_new env rmgr tm calloc i b false join_flag fl) s (fun _ s' => xa_inv s').
Proof.
  intros Hi Hc Hr. unfold _tp_srv_join_or_new. apply yields_bind.
  eapply yields_mono; [apply join_body_yields; [apply Hi|done|by apply inv_idle_none|done]|].
  cbn beta. intros [r k] s1 H1. apply runs_yields, runs_bind. eapply runs_mono; [exact (settled_inv _ _ H1)|]. cbn beta. intros _ s2 H2. by apply runs_ret.
Qed.

Lemma resume_room tr fl :
  room (tmknownrms (t_info tr)) -> room (if has_flag fl TPTXNOOPTIM then [] else tmknownrms (t_info tr)).
Proof.
  intros Hr. destruct (has_flag fl TPTXNOOPTIM); [|done]. unfold room, atmi_xa_update_known_rms.
  destruct (atmi_xa_is_current_rm_known _ _); [by eexists|]. cbn. by eexists.
Qed.

Lemma tpresume_runs tr fl s :
  xa_inv s -> room (tmknownrms (t_info tr)) -> ~ hazard (is_tx_initiator tr) s ->
  runs (ndrx_tpresume env rmgr tm calloc stack tr fl) s (fun _ s' => xa_inv s').
Proof.
  intros Hi Hr Hh. unfold ndrx_tpresume. apply runs_bind, runs_get. destruct (negb _); [by apply fail_inv|]. cbv zeta.
  destruct (current s) eqn:Hc; [by apply fail_inv|].
  apply runs_bind. eapply runs_mono; [apply join_or_new_runs; [done|done|by apply resume_room|done]|].
  cbn beta. intros [r k] s1 H1. destruct (r =? XA_OK); [by apply runs_ret|by apply fail_inv].
Qed.

Lemma tpresume_yields tr fl s :
  xa_inv s -> room (tmknownrms (t_info tr)) -> yields (ndrx_tpresume env rmgr tm calloc stack tr fl) s (fun _ s' => xa_inv s').
Proof.
  intros Hi Hr. unfold ndrx_tpresume. apply yields_bind. unfold yields at 1. cbn [get].
  destruct (negb _); [by apply runs_yields, fail_inv|]. cbv zeta.
  destruct (current s) eqn:Hc; [by apply runs_yields, fail_inv|].
  apply yields_bind. eapply yields_mono; [apply join_or_new_yields; [done|done|by apply resume_room]|].
  cbn beta. intros [r k] s1 H1. apply runs_yields. destruct (r =? XA_OK); [by apply runs_ret|by apply fail_inv].
Qed.

(** The current transaction is entered again, or marked, and joined. *)
Lemma callback_spec t s :
  base s -> engaged (history s) = None -> current s = Some t ->
  runs (join_body env rmgr tm calloc (info t) (btid t) true TMJOIN (tranid_flags t)) s (fun p s' => joined p s').
Proof.
  intros Hb He Hc. destruct (base_some s t Hb Hc) as (Hk & Htab & Hr). unfold join_body.
  destruct (negb (dynamic_reg env) || _) eqn:Ed.
  - assert (Hl : tx_tab s !! tmxid (info t) = Some t) by (rewrite Htab; apply lookup_singleton_eq).
    assert (Hs : with_tab (tx_tab s) (Some (tmxid (info t))) s = s) by (rewrite <- Hk; by destruct s).
    unfold enter, atmi_xa_set_curtx_from_xai. apply runs_bind, runs_bind, runs_bind, runs_get. rewrite Hl. steps. rewrite Hs.
    eapply runs_mono; [by apply (txinfo_set_spec _ _ _ Hb Hc)|]. cbn beta. intros _ s2 (Hb2 & Hc2 & Hh2). steps.
    by eapply join_common_spec; [done|by rewrite Hh2|exact Hc2|..].
  - cbn [negb]. apply runs_bind. eapply runs_mono; [by apply (txinfo_set_spec _ _ _ Hb Hc)|]. cbn beta. intros _ s2 (Hb2 & Hc2 & Hh2).
    eapply join_common_spec; [done|by rewrite Hh2|exact Hc2|done|]. unfold needs_end. cbn.
    assert (has_flag (Z.lor (tranid_flags t) XA_TXINFO_AXREG_CLD) XA_TXINFO_AXREG_CLD = true) as ->; [|by rewrite orb_true_r].
    unfold has_flag. destruct (Z.eqb_spec (Z.land (Z.lor (tranid_flags t) XA_TXINFO_AXREG_CLD) XA_TXINFO_AXREG_CLD) 0) as [E0|]; [|done].
    assert (Z.testbit (Z.land (Z.lor (tranid_flags t) XA_TXINFO_AXREG_CLD) XA_TXINFO_AXREG_CLD) 2 = true) as Hbit; [|by rewrite E0 in Hbit].
    rewrite Z.land_spec, Z.lor_spec. by rewrite orb_true_r.
Qed.

Lemma ax_reg_spec s : xa_inv s -> engaged (history s) = None -> runs (ax_reg env rmgr tm calloc) s (fun _ s' => xa_inv s').
Proof.
  intros Hi He. unfold ax_reg, txinfo. steps. destruct (current s) as [t|] eqn:Hc; [|by apply runs_ret].
  apply runs_bind. unfold _tp_srv_join_or_new. apply runs_bind. eapply runs_mono; [by apply callback_spec; [apply Hi|..]|].
  cbn beta. intros [r k] s1 Hj. unfold joined in Hj. cbn [fst] in Hj. apply runs_bind.
  destruct (r =? XA_OK) eqn:Er.
  - destruct Hj as [Hi1 (t1 & Hc1 & Hn1)]. steps; [by rewrite Er in Heqb|].
    eapply runs_mono; [by apply deref_spec|]. cbn beta. intros t2 s2 [-> ->]. steps.
    destruct Hi1 as [(Hl & Hs & Ht) _]. split; [split_and!; [done| |done]|].
    + intros h1 x f r0 h2 Heq. cbn in Heq. destruct h2 as [|e2 h2 _] using rev_ind.
      * by apply app_inj_tail in Heq as [_ [=]].
      * rewrite app_comm_cons, app_assoc in Heq. apply app_inj_tail in Heq as [Heq _]. by eapply Hs.
    + intros x Hx. cbn in Hx. rewrite engaged_app in Hx. cbn in Hx. injection Hx as <-. by exists t1.
  - destruct Hj as [Hb1 He1]. eapply runs_mono; [by apply reset_inv|]. cbn beta. intros _ s2 (Hi2 & _). steps; [done|]. by rewrite Er in Heqb.
Qed.

(** ** Everything a process does *)

Inductive xa_op :=
  | OpOpen | OpClose | OpBegin (timeout flags : Z) | OpCommit (flags : Z) | OpAbort (flags : Z) | OpSetReturn (flags : Z)
  | OpSuspend (flags : Z) | OpResume (tr : tp_tranid) (flags : Z) | OpJoin (i : xa_info) | OpAxReg | OpDisassoc (force : bool)
  | OpCall (conv : bool) (cd : Z) | OpReply (conv : bool) (cd : Z) | OpAbortOnly.

Definition unit_of {A} (m : M A) : M unit := m;; mret tt.

Definition xa_run (o : xa_op) : M unit :=
  match o with
  | OpOpen => unit_of (tpopen rmgr)
  | OpClose => unit_of (tpclose rmgr)
  | OpBegin timeout fl => unit_of (tpbegin env rmgr tm calloc timeout fl)
  | OpCommit fl => unit_of (tpcommit env rmgr tm fl)
  | OpAbort fl => unit_of (tpabort env rmgr tm fl)
  | OpSetReturn fl => unit_of (tpscmt fl)
  | OpSuspend fl => unit_of (tpsuspend env rmgr tm fl)
  | OpResume tr fl => unit_of (tpresume env rmgr tm calloc stack tr fl)
  | OpJoin i => unit_of (_tp_srv_join_or_new_from_call env rmgr tm calloc i)
  | OpAxReg => unit_of (ax_reg env rmgr tm calloc)
  | OpDisassoc f => unit_of (_tp_srv_disassoc_tx env rmgr tm f)
  | OpCall conv cd => unit_of (atmi_xa_cd_reg calloc conv cd)
  | OpReply conv cd => atmi_xa_cd_unreg conv cd
  | OpAbortOnly => mark_abort_only
  end.

(** What the callers see to: a server joins only when it is in no transaction, a
    resource manager registers only when it works on none, calls belong to a
    transaction; and the lists of resource managers are not full. *)
Definition allowed (o : xa_op) (s : xa_tls) : Prop :=
  match o with
  | OpResume tr _ => room (tmknownrms (t_info tr))
  | OpJoin i => current s = None /\ room (tmknownrms i)
  | OpAxReg => engaged (history s) = None
  | OpCall _ _ | OpReply _ _ | OpAbortOnly => is_Some (current s)
  | _ => True
  end.

Definition hazardous (o : xa_op) (s : xa_tls) : Prop :=
  match o with OpResume tr _ => hazard (is_tx_initiator tr) s | OpJoin _ => hazard 0 s | _ => False end.

Definition xa_initial : xa_tls :=
  {| is_xa_open := false; is_xa_conn_error := false; tx_tab := ∅; txcur := None; tx_commit_return := TX_COMMIT_COMPLETED; tperr := 0; reason := 0; history := [] |}.

Inductive xa_reachable : xa_tls -> Prop :=
  | xa_start : xa_reachable xa_initial
  | xa_step s o s' : xa_reachable s -> allowed o s -> xa_run o s = Some (tt, s') -> xa_reachable s'.

Lemma inv_err e r s : xa_inv s -> xa_inv (with_err e r s).
Proof. intros Hi. eapply inv_aside; [exact Hi|apply aside_err]. Qed.

Lemma unit_of_runs {A} (m : M A) s : runs m s (fun _ s' => xa_inv s') -> runs (unit_of m) s (fun _ s' => xa_inv s').
Proof. intros H. apply runs_bind. eapply runs_mono; [exact H|]. cbn beta. intros a s' Hi. by apply runs_ret. Qed.

Lemma unit_of_yields {A} (m : M A) s : yields m s (fun _ s' => xa_inv s') -> yields (unit_of m) s (fun _ s' => xa_inv s').
Proof. intros H. apply yields_bind. eapply yields_mono; [exact H|]. cbn beta. done. Qed.

Lemma update_inv f s t :
  xa_inv s -> current s = Some t -> tmxid (info (f t)) = tmxid (info t) -> tmknownrms (info (f t)) = tmknownrms (info t) ->
  btid (f t) = btid t -> tranid_flags (f t) = tranid_flags t -> runs (txinfo_set f) s (fun _ s' => xa_inv s').
Proof.
  intros [Hb He] Hc Hx Hk Hbt Hf. destruct (base_some s t Hb Hc) as (_ & _ & Hr).
  eapply runs_mono; [apply (txinfo_set_spec _ _ _ Hb Hc); [done|by rewrite Hk]|]. cbn beta. intros _ s' (Hb' & Hc' & Hh).
  split; [done|]. intros x Hxe. rewrite Hh in Hxe. destruct (He x Hxe) as (t0 & Ht0 & -> & Hn). rewrite Hc in Ht0. injection Ht0 as <-.
  exists (f t). unfold branch, needs_end in *. by rewrite Hx, Hbt, Hf.
Qed.

Lemma op_runs o s : xa_inv s -> allowed o s -> ~ hazardous o s -> runs (xa_run o) s (fun _ s' => xa_inv s').
Proof.
  intros Hi Ha Hh. pose proof (inv_err 0 0 s Hi) as Hi0.
  destruct o; cbn [xa_run allowed hazardous] in *; try apply unit_of_runs.
  - apply runs_bind, runs_modify. by apply tpopen_spec.
  - apply runs_bind, runs_get. destruct (negb _); [by apply runs_ret|]. apply runs_bind, runs_modify. by apply tpclose_spec.
  - apply runs_bind, runs_modify. by apply tpbegin_spec.
  - apply runs_bind, runs_modify. eapply runs_mono; [by apply tpcommit_spec|]. cbn beta. by intros r s' [H _].
  - apply runs_bind, runs_modify. eapply runs_mono; [by apply tpabort_spec|]. cbn beta. by intros r s' [H _].
  - apply runs_bind, runs_modify. unfold ndrx_tpscmt. apply runs_bind, runs_get. destruct (negb _ && _); [by apply fail_inv|].
    apply runs_bind, runs_modify, runs_ret. exact Hi0.
  - apply runs_bind, runs_modify. by apply tpsuspend_spec.
  - apply runs_bind, runs_modify. by apply tpresume_runs.
  - destruct Ha as [Hc Hr]. unfold _tp_srv_join_or_new_from_call. apply runs_bind.
    eapply runs_mono; [by apply join_or_new_runs|]. cbn beta. intros [r k] s' H. by apply runs_ret.
  - by apply ax_reg_spec.
  - by apply disassoc_spec.
  - destruct Ha as [t Ht]. unfold atmi_xa_cd_reg. apply runs_bind, runs_get. destruct (calloc _); [|by apply runs_ret].
    apply runs_bind. eapply runs_mono; [by apply (update_inv _ _ t)|]. cbn beta. intros _ s' H. by apply runs_ret.
  - destruct Ha as [t Ht]. by apply (update_inv _ _ t).
  - destruct Ha as [t Ht]. by apply (update_inv _ _ t).
Qed.

Lemma op_yields o s : xa_inv s -> allowed o s -> yields (xa_run o) s (fun _ s' => xa_inv s').
Proof.
  intros Hi Ha. destruct o; try (apply runs_yields, op_runs; [done|done|by intros []]); cbn [xa_run allowed] in *; apply unit_of_yields.
  - apply yields_bind. unfold yields at 1. cbn [ndrx_TPunset_error modify]. apply tpresume_yields; [by apply inv_err|done].
  - destruct Ha as [Hc Hr]. unfold _tp_srv_join_or_new_from_call. apply yields_bind.
    eapply yields_mono; [by apply join_or_new_yields|]. cbn beta. by intros [r k] s' H.
Qed.

Lemma inv_initial : xa_inv xa_initial.
Proof. apply base_idle; [|done]. split_and!; [done| |done]. intros h1 x f r h2 Heq. by destruct h1. Qed.

Lemma reachable_inv s : xa_reachable s -> xa_inv s.
Proof.
  induction 1 as [|s o s' Hs IH Ha Hr]; [apply inv_initial|].
  pose proof (op_yields o s IH Ha) as Hy. unfold yields in Hy. by rewrite Hr in Hy.
Qed.

End Specs.

(** ** Properties *)

Section Properties.
Context (env : xa_env) (rmgr : list event -> rm_call -> Z) (tm : list event -> tm_req -> tm_answer) (calloc : list event -> bool) (stack : Z).

(** The lists of resource managers the transaction manager gives are not full. *)
Definition tm_leaves_room : Prop := forall h q e rsn f i, tm h q = Answered e rsn f -> r_info f = Some i -> room env (tmknownrms i).

(** C21: whatever a process does with transactions, in whatever order its callers allow
    ([allowed]: a server joins only when it is in no transaction, a resource manager
    registers only when it works on none), and whatever the resource manager and the
    transaction manager answer, as long as the lists of resource managers have room for
    this one: the branch the resource manager has started and has not been asked to end,
    by an end or by closing the connection, is that of the current transaction, and one
    the process will end; a branch is started only when there is no such branch; and no
    other transaction is in the table.  An end that fails counts as asked for.  With a
    full list a branch can be left over ([XaDemo.full_list_dangles]). *)
Theorem xa_association s :
  tm_leaves_room -> xa_reachable env rmgr tm calloc stack s ->
  (forall x, engaged (history s) = Some x -> exists t, current s = Some t /\ x = branch env (info t) (btid t) /\ needs_end env t = true) /\
  starts_ok (history s) /\
  tx_tab s = match current s with Some t => {[tmxid (info t) := t]} | None => ∅ end.
Proof.
  intros Ht Hr. destruct (reachable_inv env rmgr tm calloc stack Ht s Hr) as [Hb He]. split_and!; [done|apply Hb|].
  destruct (current s) as [t|] eqn:Hc; [by apply (base_some env s t)|by apply (base_none env s)].
Qed.

(** C24: in every state a process can get into, every function returns, without using a
    transaction that is not there, unless it has to open the connection again before it
    joins a transaction with dynamic registration. *)
Theorem xa_steps_defined s o :
  tm_leaves_room -> xa_reachable env rmgr tm calloc stack s -> allowed env o s -> ~ hazardous env o s ->
  exists s', xa_run env rmgr tm calloc stack o s = Some (tt, s').
Proof.
  intros Ht Hr Ha Hh. pose proof (reachable_inv env rmgr tm calloc stack Ht s Hr) as Hi.
  destruct (runs_Some _ _ _ (op_runs env rmgr tm calloc stack Ht o s Hi Ha Hh)) as ([] & s' & Hs & _). by exists s'.
Qed.

(** C22: [tpcommit] returns, and asks for the commit as the last thing it does, of the
    current transaction, when that is not marked for abort and has no open calls and
    when the resource manager has ended its branch; it reports success exactly when the
    transaction manager answered with success, and in every other case no commit was
    asked for. *)
Theorem tpcommit_sound s fl :
  tm_leaves_room -> xa_reachable env rmgr tm calloc stack s ->
  exists r s', tpcommit env rmgr tm fl s = Some (r, s') /\
    (committed_by env s s' r \/ (r <> EXSUCCEED /\ exists h, history s' = history s ++ h /\ Forall undecided h)).
Proof.
  intros Ht Hr. pose proof (reachable_inv env rmgr tm calloc stack Ht s Hr) as Hi.
  destruct (runs_Some _ _ _ (tpcommit_spec env rmgr tm fl _ (inv_err env 0 0 s Hi))) as (r & s' & Hs & _ & H).
  exists r, s'. split; [exact Hs|exact H].
Qed.

End Properties.

Module XaDemo.

Definition demo_env : xa_env :=
  {| xa_rmid := 1; dynamic_reg := false; sys_nojoin := false; sys_nostartxid := false; has_loctxabort := false;
     xa_recon_times := 2; xa_recon_retcodes := [44; 45; 55; 44]; xa_recon_retcodes_other := [44; 45; 55; 44] |}.
Definition dynamic_env : xa_env :=
  {| xa_rmid := 1; dynamic_reg := true; sys_nojoin := false; sys_nostartxid := false; has_loctxabort := false;
     xa_recon_times := 2; xa_recon_retcodes := [44; 45; 55; 44]; xa_recon_retcodes_other := [44; 45; 55; 44] |}.
Definition noxid_env : xa_env :=
  {| xa_rmid := 1; dynamic_reg := false; sys_nojoin := true; sys_nostartxid := true; has_loctxabort := false;
     xa_recon_times := 2; xa_recon_retcodes := [44; 45; 55; 44]; xa_recon_retcodes_other := [44; 45; 55; 44] |}.

Definition tx (known : list Z) : xa_info := {| tmtxflags := 0; tmxid := [88]; tmrmid := 1; tmnodeid := 1; tmsrvid := 10; tmknownrms := known |}.
Definition demo_tm (h : list event) (q : tm_req) : tm_answer :=
  Answered 0 0 {| r_info := Some (tx [1]); r_btid := Some 0; r_flags := Some 0; r_stage := None |}.
Definition demo_rm (h : list event) (c : rm_call) : Z := XA_OK.
Definition demo_mem (h : list event) : bool := true.

(** A sequence of functions, from the start. *)
Fixpoint play (env : xa_env) (rmgr : list event -> rm_call -> Z) (ops : list xa_op) (s : xa_tls) : option xa_tls :=
  match ops with
  | [] => Some s
  | o :: ops => match xa_run env rmgr demo_tm demo_mem 0 o s with Some (_, s) => play env rmgr ops s | None => None end
  end.

Lemma demo_room : tm_leaves_room demo_env demo_tm.
Proof. intros h q e rsn f i [= _ _ <-] [= <-]. by eexists. Qed.

Lemma begun : exists s, xa_reachable demo_env demo_rm demo_tm demo_mem 0 s /\
  play demo_env demo_rm [OpOpen; OpBegin 60 0] xa_initial = Some s /\ engaged (history s) = Some ([88], 1, 0).
Proof.
  destruct (xa_run demo_env demo_rm demo_tm demo_mem 0 OpOpen xa_initial) as [[[] s1]|] eqn:E1; [|by vm_compute in E1].
  destruct (xa_run demo_env demo_rm demo_tm demo_mem 0 (OpBegin 60 0) s1) as [[[] s2]|] eqn:E2.
  - exists s2. split; [|split].
    + eapply xa_step; [eapply xa_step; [apply xa_start| |exact E1]| |exact E2]; done.
    + cbn [play]. rewrite E1. cbn [play]. by rewrite E2.
    + vm_compute in E1. injection E1 as <-. vm_compute in E2. injection E2 as <-. reflexivity.
  - vm_compute in E1. injection E1 as <-. by vm_compute in E2.
Qed.

Lemma xa_association_witness : exists s t, current s = Some t /\ engaged (history s) = Some (branch demo_env (info t) (btid t)).
Proof.
  destruct begun as (s & Hr & _ & He).
  destruct (xa_association demo_env demo_rm demo_tm demo_mem 0 s demo_room Hr) as (H & _).
  destruct (H _ He) as (t & Ht & Hx & _). exists s, t. split; [exact Ht|]. rewrite He, Hx. reflexivity.
Defined.

Lemma xa_steps_defined_witness : exists s s', xa_run demo_env demo_rm demo_tm demo_mem 0 (OpCommit 0) s = Some (tt, s').
Proof.
  destruct begun as (s & Hr & _). exists s.
  apply (xa_steps_defined demo_env demo_rm demo_tm demo_mem 0 s (OpCommit 0) demo_room Hr); [exact I|intros []].
Defined.

Lemma tpcommit_sound_witness : exists s r s', tpcommit demo_env demo_rm demo_tm 0 s = Some (r, s').
Proof.
  destruct begun as (s & Hr & _). exists s.
  destruct (tpcommit_sound demo_env demo_rm demo_tm demo_mem 0 s 0 demo_room Hr) as (r & s' & H & _). by exists r, s'.
Defined.

(** The requests to the transaction manager, as a reader sees them. *)
Definition requests (s : xa_tls) : list tm_cmd := omap (fun ev => match ev with EvTm q _ => Some (q_cmd q) | _ => None end) (history s).

(** The connection is bad and does not come back: a server with dynamic registration
    that is called in a transaction uses one it has not. *)
Lemma join_null_deref :
  _tp_srv_join_or_new_from_call dynamic_env (fun _ _ => XAER_RMFAIL) demo_tm demo_mem (tx [1]) (with_open true true xa_initial) = None.
Proof. vm_compute. reflexivity. Qed.

(** A resource manager that prepares at the end and has nothing to commit: the commit
    becomes an abort. *)
Lemma readonly_end_aborts :
  option_map (fun s => (requests s, tperr s))
    (play noxid_env (fun _ c => match c with XaPrepare _ _ => XA_RDONLY | _ => XA_OK end) [OpOpen; OpBegin 60 0; OpCommit 0] xa_initial)
  = Some ([ATMI_XA_TPBEGIN 60; ATMI_XA_RMSTATUS XA_RM_STATUS_COMMITTED_RO; ATMI_XA_TPABORT], TPEABORT).
Proof. vm_compute. reflexivity. Qed.

(** The end of the branch fails when a transaction is suspended: it is aborted, stays
    the current one, and can be committed. *)
Lemma suspend_failure_commits :
  option_map (fun s => (requests s, tperr s))
    (play demo_env (fun h c => match c with XaEnd _ _ => if bool_decide (length h < 4)%nat then XAER_RMERR else XA_OK | _ => XA_OK end)
      [OpOpen; OpBegin 60 0; OpSuspend 0; OpCommit 0] xa_initial)
  = Some ([ATMI_XA_TPBEGIN 60; ATMI_XA_TPABORT; ATMI_XA_TPCOMMIT], 0).
Proof. vm_compute. reflexivity. Qed.

(** A server that has not begun the transaction: once its resource manager has
    registered it may commit, and when it must not it is told that the transaction was
    aborted, which nobody was asked for. *)
Lemma participant_commits :
  option_map (fun s => (requests s, tperr s)) (play dynamic_env demo_rm [OpOpen; OpJoin (tx [1]); OpAxReg; OpCommit 0] xa_initial)
  = Some ([ATMI_XA_TPCOMMIT], 0).
Proof. vm_compute. reflexivity. Qed.

Lemma participant_abort_made_up :
  option_map (fun s => (requests s, tperr s, bool_decide (is_Some (current s))))
    (play dynamic_env demo_rm [OpOpen; OpJoin (tx [1]); OpAxReg; OpAbortOnly; OpCommit 0] xa_initial)
  = Some ([], TPEABORT, true).
Proof. vm_compute. reflexivity. Qed.

(** The list of resource managers is full: the branch that was started is not ended. *)
Lemma full_list_dangles :
  option_map (fun s => (engaged (history s), bool_decide (current s = None)))
    (match _tp_srv_join_or_new_from_call demo_env demo_rm demo_tm demo_mem (tx (seqZ 2 32)) xa_initial with Some (_, s) => Some s | None => None end)
  = Some (Some ([88], 1, 0), true).
Proof. vm_compute. reflexivity. Qed.

End XaDemo.
