(* ===== verification/Tx.v ===== *)
(** * The TX interface

    [libatmi/tx.c]: the transaction demarcation calls of the X/Open standard, on top
    of those of [XaClient]. *)

From stdpp Require Import gmap.
From S2P Require Import Prelude LinHash XaStates XaClient.

Local Open Scope Z_scope.

(** ** Constants ([include/tx.h]) *)

Definition TX_UNCHAINED : Z := 0.
Definition TX_CHAINED : Z := 1.
Definition TX_ACTIVE : Z := 0.
Definition TX_TIMEOUT_ROLLBACK_ONLY : Z := 1.
Definition TX_ROLLBACK_ONLY : Z := 2.
Definition TX_OK : Z := 0.
Definition TX_ROLLBACK : Z := -2.
Definition TX_MIXED : Z := -3.
Definition TX_HAZARD : Z := -4.
Definition TX_PROTOCOL_ERROR : Z := -5.
Definition TX_ERROR : Z := -6.
Definition TX_FAIL : Z := -7.
Definition TX_EINVAL : Z := -8.
Definition TX_NO_BEGIN : Z := -100.

Definition TPEOS : Z := 7.
Definition TPESVCERR : Z := 10.
Definition TPESVCFAIL : Z := 11.

(** The thread's state with the settings of this interface. *)
Record tx_tls := { xa : xa_tls; tx_transaction_control : Z; tx_transaction_timeout : Z }.

Definition T (A : Type) : Type := tx_tls -> option (A * tx_tls).

Definition lift {A} (m : M A) : T A :=
  fun s => match m (xa s) with
           | Some (a, x) => Some (a, {| xa := x; tx_transaction_control := tx_transaction_control s; tx_transaction_timeout := tx_transaction_timeout s |})
           | None => None
           end.
#[export] Instance T_ret : MRet T := fun A a s => Some (a, s).
#[export] Instance T_bind : MBind T := fun A B k e s => match e s with Some (a, s) => k a s | None => None end.
Definition tget : T tx_tls := fun s => Some (s, s).
Definition tput (s : tx_tls) : T unit := fun _ => Some (tt, s).

(** ** Errors *)

Definition tx_map_error1 (tpret tperrno : Z) (allow_error : bool) : Z :=
  let tperr := if tpret =? 0 then EXSUCCEED else tperrno in
  if tperr =? 0 then TX_OK
  else if tperr =? TPEPROTO then TX_PROTOCOL_ERROR
  else if (tperr =? TPESVCFAIL) || (tperr =? TPESVCERR) || (tperr =? TPETIME) then if allow_error then TX_ERROR else TX_FAIL
  else if (tperr =? TPESYSTEM) || (tperr =? TPEOS) || (tperr =? TPERMERR) || (tperr =? TPEINVAL) then TX_FAIL
  else if tperr =? TPEHAZARD then TX_HAZARD
  else if tperr =? TPEHEURISTIC then TX_MIXED
  else if (tperr =? TPEMATCH) || (tperr =? TPEABORT) then TX_ROLLBACK
  else TX_FAIL.

Definition mapped (m : M Z) (allow_error : bool) : T Z :=
  r ← lift m; s ← tget; mret (tx_map_error1 r (tperr (xa s)) allow_error).

Section Tx.
Context (env : xa_env) (rmgr : list event -> rm_call -> Z) (tm : list event -> tm_req -> tm_answer) (calloc : list event -> bool) (stack : Z).

Definition tx_begin : T Z := s ← tget; mapped (tpbegin env rmgr tm calloc (tx_transaction_timeout s) 0) true.
Definition tx_close : T Z := mapped (tpclose rmgr) true.
Definition tx_open : T Z := mapped (tpopen rmgr) false.

(** The next transaction of a chain.  [ret2] is what is returned; it has no value when
    the chain cannot go on. *)
Definition chain (ret : Z) : T Z :=
  s ← tget;
  if tx_transaction_control s =? TX_CHAINED then
    if (ret =? TX_PROTOCOL_ERROR) || (ret =? TX_FAIL) then mret stack
    else
      ret2 ← mapped (tpbegin env rmgr tm calloc (tx_transaction_timeout s) 0) true;
      mret (if ret2 =? TX_OK then ret2 else ret2 + TX_NO_BEGIN)
  else mret ret.

Definition tx_commit : T Z :=
  s ← tget;
  ret ← mapped (tpcommit env rmgr tm (if tx_commit_return (xa s) =? TX_COMMIT_DECISION_LOGGED then TP_CMT_LOGGED else 0)) false;
  chain ret.

Definition tx_rollback : T Z := ret ← mapped (tpabort env rmgr tm 0) false; chain ret.

(** ** Settings *)

Definition tx_set_commit_return (cr : Z) : T Z :=
  s ← tget;
  if negb (is_xa_open (xa s)) then mret TX_PROTOCOL_ERROR
  else if negb (cr =? TX_COMMIT_DECISION_LOGGED) && negb (cr =? TX_COMMIT_COMPLETED) then mret TX_EINVAL
  else lift (modify (with_return cr));; mret TX_OK.

Definition tx_set_transaction_control (tc : Z) : T Z :=
  s ← tget;
  if negb (is_xa_open (xa s)) then mret TX_PROTOCOL_ERROR
  else if negb (tc =? TX_UNCHAINED) && negb (tc =? TX_CHAINED) then mret TX_EINVAL
  else tput {| xa := xa s; tx_transaction_control := tc; tx_transaction_timeout := tx_transaction_timeout s |};; mret TX_OK.

Definition tx_set_transaction_timeout (tt : Z) : T Z :=
  s ← tget;
  if negb (is_xa_open (xa s)) then mret TX_PROTOCOL_ERROR
  else if tt <? 0 then mret TX_EINVAL
  else tput {| xa := xa s; tx_transaction_control := tx_transaction_control s; tx_transaction_timeout := tt |};; mret TX_OK.

(** ** Information *)

(** What the caller's structure has; the id is a format and the rest of it. *)
Record TXINFO := { ti_xid : Z * list Z; when_return : Z; transaction_control : Z; transaction_timeout : Z; transaction_state : Z }.

Definition with_state (v : Z) (i : TXINFO) : TXINFO :=
  {| ti_xid := ti_xid i; when_return := when_return i; transaction_control := transaction_control i; transaction_timeout := transaction_timeout i; transaction_state := v |}.

(** A transaction the manager does not know is marked; one it rolls back gets the
    code of that result. *)
Definition tx_status (t : atmi_xa_tx_info) (i : TXINFO) : M (Z * TXINFO) :=
  f ← atmi_xa_call_tm_generic tm ATMI_XA_STATUS false (Some (info t)) 0 EXFAIL;
  match f with
  | None =>
      s ← get;
      if tperr s =? TPEMATCH then mark_abort_only;; mret (1, with_state TX_TIMEOUT_ROLLBACK_ONLY i) else mret (TX_FAIL, i)
  | Some f =>
      match r_stage f with
      | None => mret (TX_FAIL, i)
      | Some txstage => mret (1, if txstage =? XA_TX_STAGE_ABORTING then with_state TX_ROLLBACK i else i)
      end
  end.

Definition ndrx_tx_info (i : TXINFO) : T (Z * TXINFO) :=
  s ← tget;
  let i := {| ti_xid := ti_xid i; when_return := tx_commit_return (xa s); transaction_control := tx_transaction_control s;
              transaction_timeout := tx_transaction_timeout s; transaction_state := transaction_state i |} in
  if negb (is_xa_open (xa s)) then mret (TX_PROTOCOL_ERROR, i)
  else match current (xa s) with
       | None => mret (TX_OK, {| ti_xid := (EXFAIL, (ti_xid i).2); when_return := when_return i; transaction_control := transaction_control i;
                                transaction_timeout := transaction_timeout i; transaction_state := transaction_state i |})
       | Some t =>
           let i := with_state TX_ACTIVE i in
           if has_flag (tmtxflags (info t)) TMTXFLAGS_IS_ABORT_ONLY then mret (1, with_state TX_ROLLBACK_ONLY i)
           else lift (tx_status t i)
       end.

Definition tx_info (i : TXINFO) : T (Z * TXINFO) := lift ndrx_TPunset_error;; ndrx_tx_info i.

End Tx.

(** ** Errors are reported *)

Lemma yields_true {A} (m : M A) s : yields m s (fun _ _ => True).
Proof. unfold yields. by destruct (m s) as [[]|]. Qed.

(** A part of a step whose outcome does not matter. *)
Lemma yields_skip {A B} (m : M A) (k : A -> M B) s Q : (forall a s', yields (k a) s' Q) -> yields (m ≫= k) s Q.
Proof. intros H. apply yields_bind. eapply yields_mono; [apply yields_true|]. cbn beta. intros a s' _. apply H. Qed.

Lemma yields_ret {A} (a : A) s (Q : A -> xa_tls -> Prop) : Q a s -> yields (mret a) s Q.
Proof. done. Qed.

(** The last request to the transaction manager could not be made up, and no
    error code was set for that. *)
Definition silent (s : xa_tls) : Prop := exists h q, history s = h ++ [EvTm q (Unsent 0)].

Definition reported (r : Z) (s : xa_tls) : Prop := r <> EXSUCCEED -> tperr s <> 0 \/ silent s.

Lemma fail_reported e s : e <> 0 -> yields (fail e) s reported.
Proof.
  intros He. unfold fail, ndrx_TPset_error_msg. apply yields_bind. unfold yields at 1, modify. apply yields_ret. intros _. left.
  destruct (Z.eqb_spec (tperr s) 0) as [H0|H0]; [exact He|exact H0].
Qed.

Section Sound.
Context (env : xa_env) (rmgr : list event -> rm_call -> Z) (tm : list event -> tm_req -> tm_answer) (calloc : list event -> bool) (stack : Z).

Lemma decide_reported cmd fl s :
  yields (t ← txinfo_deref; f ← atmi_xa_call_tm_generic tm cmd false (Some (info t)) fl EXFAIL;
          atmi_xa_reset_curtx;; mret (match f with Some _ => EXSUCCEED | None => EXFAIL end)) s reported.
Proof.
  apply yields_skip. intros t s1. apply yields_bind. unfold atmi_xa_call_tm_generic, yields, reported, mbind, M_bind, get. cbn.
  set (q := {| q_cmd := _ |}). destruct (tm (history s1) q) as [e|e rsn f]; cbn.
  - destruct (Z.eqb_spec e 0) as [->|He]; destruct (Z.eqb_spec (tperr s1) 0); cbn; destruct (txcur s1); cbn; intros _;
      first [by left|right; by eexists _, _].
  - destruct (Z.eqb_spec e 0); cbn; destruct (txcur s1); cbn; intros ?; by try left.
Qed.

Lemma tpabort_reported fl e s : yields (ndrx_tpabort env rmgr tm fl e) s reported.
Proof.
  unfold ndrx_tpabort. apply yields_skip. intros s0 s1.
  destruct (negb (is_xa_open s0)); [by apply fail_reported|]. destruct (negb (fl =? 0)); [by apply fail_reported|].
  destruct (current s0) as [t|]; [|by apply fail_reported]. destruct (negb _); [by apply fail_reported|].
  apply yields_skip. intros _ s2. by apply decide_reported.
Qed.

Lemma tpcommit_reported fl s : yields (ndrx_tpcommit env rmgr tm fl) s reported.
Proof.
  unfold ndrx_tpcommit. apply yields_skip. intros s0 s1.
  destruct (negb (is_xa_open s0)); [by apply fail_reported|]. destruct (negb (fl =? 0) && _); [by apply fail_reported|].
  destruct (current s0) as [t|]; [|by apply fail_reported]. destruct (tranid_flags t =? 0); [by apply fail_reported|].
  cbv zeta. apply yields_skip. intros r1 s2. destruct (must_abort t || _); [|by apply decide_reported].
  apply yields_bind. eapply yields_mono; [by apply tpabort_reported|]. cbn beta. intros r2 s3 H3.
  apply yields_bind. unfold yields at 1. cbn [get]. destruct (_ || _).
  - apply yields_skip. intros _ s4. by apply fail_reported.
  - by apply yields_ret.
Qed.

Lemma tx_map_ok r e b : tx_map_error1 r e b = TX_OK <-> r = 0 \/ e = 0.
Proof.
  unfold tx_map_error1. destruct (Z.eqb_spec r 0) as [->|Hr]; [cbn; tauto|].
  destruct (Z.eqb_spec e 0) as [->|He]; [cbn; tauto|]. cbv zeta.
  split; [|tauto]. repeat (destruct (_ || _) || destruct (_ =? _) || destruct b); intros [=].
Qed.

(** The last request of a commit tells its result. *)
Lemma committed_unique s s' r :
  committed_by env s s' EXSUCCEED ->
  (committed_by env s s' r \/ (r <> EXSUCCEED /\ exists h, history s' = history s ++ h /\ Forall undecided h)) -> r = EXSUCCEED.
Proof.
  intros (t & h & q & a & _ & _ & Hh & _ & Hq & _ & _ & _ & Ha) [(t' & h' & q' & a' & _ & _ & Hh' & _ & _ & _ & _ & _ & Ha')|(_ & h' & Hh' & Hu)].
  - rewrite Hh in Hh'. apply app_inv_head in Hh'. apply app_inj_tail in Hh' as [_ [= _ <-]]. apply Ha', Ha. done.
  - exfalso. rewrite Hh in Hh'. apply app_inv_head in Hh' as <-. apply Forall_app in Hu as [_ Hu]. apply Forall_cons in Hu as [Hu _]. by apply Hu.
Qed.

(** C23: [tx_commit] in unchained mode returns; it returns [TX_OK] when the
    transaction manager was asked to commit the current transaction and answered
    with success, and otherwise only when the last request to the transaction
    manager could not be made up and no error code was set for that
    ([TxDemo.silent_failure_is_ok]).  The lists of resource managers the
    transaction manager gives have room for this one. *)
Theorem tx_commit_sound s :
  tm_leaves_room env tm -> xa_reachable env rmgr tm calloc stack (xa s) -> tx_transaction_control s = TX_UNCHAINED ->
  exists ret s', tx_commit env rmgr tm calloc stack s = Some (ret, s') /\
    (committed_by env (xa s) (xa s') EXSUCCEED -> ret = TX_OK) /\
    (ret = TX_OK -> committed_by env (xa s) (xa s') EXSUCCEED \/ silent (xa s')).
Proof.
  intros Ht Hr Hc. set (fl := if tx_commit_return (xa s) =? TX_COMMIT_DECISION_LOGGED then TP_CMT_LOGGED else 0).
  pose proof (inv_err env 0 0 _ (reachable_inv env rmgr tm calloc stack Ht (xa s) Hr)) as Hi.
  destruct (runs_Some _ _ _ (tpcommit_spec env rmgr tm fl _ Hi)) as (r & x & Hs & _ & H).
  pose proof (tpcommit_reported fl (with_err 0 0 (xa s))) as Hrep. unfold yields in Hrep. rewrite Hs in Hrep.
  exists (tx_map_error1 r (tperr x) false), {| xa := x; tx_transaction_control := tx_transaction_control s; tx_transaction_timeout := tx_transaction_timeout s |}.
  assert (Hp : tpcommit env rmgr tm fl (xa s) = Some (r, x)) by exact Hs.
  split; [unfold tx_commit, mapped, chain, lift, tget, mbind, T_bind; fold fl; rewrite Hp; cbn; by rewrite Hc|].
  cbn [xa]. rewrite tx_map_ok. split.
  - intros Hcb. left. by apply (committed_unique (xa s) x r Hcb).
  - intros Hok. destruct (decide (r = EXSUCCEED)) as [->|Hne]; [left; by destruct H as [H|[H _]]|].
    right. destruct (Hrep Hne); [by destruct Hok|done].
Qed.

End Sound.

Module TxDemo.

Import XaDemo.

Definition start (control : Z) (x : xa_tls) : tx_tls := {| xa := x; tx_transaction_control := control; tx_transaction_timeout := 60 |}.

Lemma tx_commit_sound_witness : exists s ret s', tx_commit demo_env demo_rm demo_tm demo_mem 0 s = Some (ret, s').
Proof.
  destruct begun as (x & Hr & _). exists (start TX_UNCHAINED x).
  destruct (tx_commit_sound demo_env demo_rm demo_tm demo_mem 0 (start TX_UNCHAINED x) demo_room Hr eq_refl) as (ret & s' & H & _).
  by exists ret, s'.
Defined.

(** A transaction manager that answers a request to commit so. *)
Definition tm_commits_with (e : Z) (h : list event) (q : tm_req) : tm_answer :=
  match q_cmd q with ATMI_XA_TPCOMMIT => Answered e 0 {| r_info := None; r_btid := None; r_flags := None; r_stage := None |} | _ => demo_tm h q end.

Definition commit_code (control : Z) (tm : list event -> tm_req -> tm_answer) : option Z :=
  '(_, s) ← tx_open demo_rm (start control xa_initial);
  '(_, s) ← tx_begin demo_env demo_rm tm demo_mem s;
  '(r, _) ← tx_commit demo_env demo_rm tm demo_mem 4711 s;
  Some r.

(** A commit that ended in a rollback, or half of it, is reported as a success when
    the next transaction of the chain begins. *)
Lemma chained_hides_rollback :
  commit_code TX_UNCHAINED (tm_commits_with TPEABORT) = Some TX_ROLLBACK /\ commit_code TX_CHAINED (tm_commits_with TPEABORT) = Some TX_OK /\
  commit_code TX_UNCHAINED (tm_commits_with TPEHEURISTIC) = Some TX_MIXED /\ commit_code TX_CHAINED (tm_commits_with TPEHEURISTIC) = Some TX_OK.
Proof. vm_compute. done. Qed.

(** When it failed for good the result is what happens to be in memory. *)
Lemma chained_result_undefined : commit_code TX_CHAINED (tm_commits_with TPESYSTEM) = Some 4711.
Proof. vm_compute. reflexivity. Qed.

(** A request that could not be made up without an error code is a success. *)
Lemma silent_failure_is_ok :
  commit_code TX_UNCHAINED (fun h q => match q_cmd q with ATMI_XA_TPCOMMIT => Unsent 0 | _ => demo_tm h q end) = Some TX_OK.
Proof. vm_compute. reflexivity. Qed.

(** A transaction that is rolled back: the state is the code of a result, and the id is
    that of the caller still. *)
Lemma info_of_rollback :
  ('(_, s) ← tx_open demo_rm (start TX_UNCHAINED xa_initial);
   '(_, s) ← tx_begin demo_env demo_rm demo_tm demo_mem s;
   '(ri, _) ← tx_info (fun _ _ => Answered 0 0 {| r_info := None; r_btid := None; r_flags := None; r_stage := Some XA_TX_STAGE_ABORTING |})
                {| ti_xid := (7, [1]); when_return := 9; transaction_control := 9; transaction_timeout := 9; transaction_state := 9 |} s;
   Some ri)
  = Some (1, {| ti_xid := (7, [1]); when_return := 0; transaction_control := 0; transaction_timeout := 60; transaction_state := TX_ROLLBACK |}).
Proof. vm_compute. reflexivity. Qed.

End TxDemo.
